(* ===== verification/_CoqProject ===== *)
-Q . S2P
Prelude.v
Bits.v
Bitmap.v
FairQueue.v
AsyncTask.v
MemRegion.v
Interval.v
Vm.v
VgicState.v
VgicLr.v
VgicDist.v
IntQueues.v
VgicProps.v
VgicSpec.v
Gic3State.v
Gic3Lr.v
Gic3Dist.v
Gic3Props.v
Gic3Spec.v
PtTree.v
PageTable.v
PageTableSpec.v
Stage2.v
PageTableRv.v
Sched.v
SchedProps.v
SchedSpec.v
GuestMem.v
Virtq.v
Iov.v
VirtioDev.v
VirtioNet.v
VirtioBlk.v
VirtioMmio.v
VirtioChain.v
VirtioSpec.v
VirtioInv.v
VirtioRegs.v
VirtioSetup.v
VPlic.v
VPlicSpec.v
VAPlic.v
VAPlicSpec.v
Config.v
ConfigSpec.v
Hvc.v
HvcSpec.v
VmmInit.v
VmmInitSpec.v
VmStage2.v
WaitList.v
WaitQueue.v
WaitListSpec.v
LockFut.v
Semaphore.v
Mutex.v
RwLock.v
Atomic.v
Exec.v
ExecSpec.v
Spsc.v
SpscSpec.v
Watch.v
Ipi.v
IpiSpec.v
Trap.v
TrapSpec.v
Psci.v
PsciSpec.v
Sbi.v
SbiSpec.v
Emu.v
EmuSpec.v
Boards.v
BoardsSpec.v
BootMmu.v
BootMmuSpec.v
