(* ===== verification/Prelude.v ===== *)
(** * TinyVM: verification library (root file)

    TinyVM is a type-1 hypervisor for AArch64 and RISC-V written in Rust (crate [tinyvm], under
    [src/tinyvm/src]).  One image runs on every core; VMs own cores or share them, guest memory is
    mapped by stage-2 tables, interrupt controllers and block devices are emulated or mediated,
    and cores talk through IPIs.  This library models the crate's own decision logic and proves what
    it guarantees; where the code falls short of its evident purpose, a theorem states what it
    does instead.

    ** The files

    - [Prelude] (this file): machine words, panics, the state monad of the models, checked slices,
      invariants of monadic programs, automation.
    - [Bits] ([utils/util.rs]) and [Bitmap] ([utils/bitmap.rs]): bit fields, the search for the
      n-th bit, the [BitAlloc] hierarchy as a type class with laws and its instances, [FlexBitmap].
    - [FairQueue] and [AsyncTask] ([kernel/async_task.rs], [device/virtio/blk.rs],
      [device/virtio/mediated.rs]): the rotation of task owners; the executor of mediated block I/O,
      which uses it, from a guest's request to its completion.
    - [MemRegion] ([kernel/mem.rs], [kernel/mem_region.rs]): the allocator of VM memory.
    - [Interval] ([utils/interval.rs]): differences of sets of address ranges.
    - [Vm] ([kernel/vm.rs]): a VM's cores and masks, its interrupts, IPA to PA, the list of VMs.
    - [VgicState], [VgicLr], [VgicDist] ([arch/aarch64/vgic.rs], [gic.rs]): the emulated GICv2: its
      data, its list registers, its distributor and the protocol between the cores of a VM.
      [VgicProps] and [VgicSpec] hold the theorems.  They use [Vm] for masks and vCPUs, [Bits]
      for fields and list-register searches.
    - [Gic3State], [Gic3Lr], [Gic3Dist] ([arch/aarch64/vgicv3.rs]): the emulated GICv3, in the same three parts: affinity
      routing, redistributors and SGIs by system registers are its own; theorems in [Gic3Props] and [Gic3Spec].
      [IntQueues]: what the two controllers share, their queues of spilled interrupts, as a class of operations and one of
      laws; the consistency of the queues is proved there once, and [VgicProps] and [Gic3Props] give the instances.
    - [PtTree]: page tables as trees in memory, independent of the entry format (a class with
      laws); [PageTable] ([arch/aarch64/page_table.rs], with frames from [mm/page_frame.rs]) and its
      theorems in [PageTableSpec]; [Stage2], the tables as a function of guest addresses and what ranges add to it;
      [PageTableRv] ([arch/riscv64/page_table.rs]).
    - [Sched] ([kernel/sched/sched_rr.rs], [vcpu.rs], [cpu.rs], [vcpu_array.rs], [interrupt.rs],
      and the callers in [arch/aarch64/psci.rs] and [vmm/]): the round-robin scheduler and the
      injection of interrupts; [SchedProps] and [SchedSpec] hold the theorems.
    - [GuestMem]: byte-addressed memory shared with guests.  On it the virtio devices
      ([device/virtio/]): [Virtq] ([queue.rs]) the rings, [Iov] ([iov.rs]) scatter-gather copies,
      [VirtioDev] ([dev.rs], [mac.rs], construction) the devices and their state, [VirtioNet] ([net.rs],
      [console.rs]) the virtual switch, its control queue and the console, [VirtioBlk] ([blk.rs]) the
      parsing of block requests, whose execution is [AsyncTask], [VirtioMmio] ([mmio.rs],
      [device/emu.rs]) the register file, which calls the others' handlers.  Their theorems are in
      [Virtq] and [Iov] themselves, in [VirtioSpec] on the chain lemmas of [VirtioChain], in [VirtioRegs] (register
      accesses, MAC table, configuration space; on the invariant of [VirtioInv]) and in [VirtioSetup] (a driver's writes
      from the reset to DRIVER_OK).
    - [VPlic] ([arch/riscv64/vplic.rs], addresses from [plic.rs]) and [VAPlic] ([vaplic.rs]): the
      emulated interrupt controllers of RISC-V guests, with theorems in [VPlicSpec] and [VAPlicSpec].
    - [Config] ([config/config.rs]): the configuration table of VMs and the hypercalls that edit it, with
      theorems in [ConfigSpec]; [Hvc] ([kernel/hvc.rs], [kernel/ivc.rs], [vmm/manager.rs], parts of
      [kernel/vm.rs] and [device/virtio/mediated.rs]): the dispatch of hypercalls, which calls [Config]'s,
      the message ring and the list of VMs, with theorems in [HvcSpec].
    - [VmmInit] ([vmm/init.rs], [vmm/remove.rs], parts of [kernel/interrupt.rs]): what a new VM gets and what its
      removal takes back, composed of [MemRegion], [PageTable], [Vm] and [Sched]; theorems in [VmmInitSpec] and, for the
      tables with the passthrough devices, in [VmStage2], both on [Stage2].
    - [Boards] ([board/], [config/rk3588_def.rs], [qemu_def.rs], [qemu_riscv64_def.rs]): the descriptions of the boards and the
      configuration of the manager VM on each; [BoardsSpec] applies the theorems on [VmmInit] and [Emu] to them.
    - [BootMmu] ([arch/aarch64/mmu.rs]): the hypervisor's own page tables, as written before its MMU is switched on, with
      the walk of the hardware through them; theorems in [BootMmuSpec].

    - [Ipi] ([kernel/ipi.rs], the queues of [kernel/cpu.rs]): messages between cores; theorems in [IpiSpec], among them
      those on handlers that other cores' sends interleave with.  [Trap] ([kernel/cpu.rs], [kernel/vcpu.rs], the register
      parts of [arch/]): the frame of a trap and the saved frames, moved by what [Sched] logs, with a class for what
      differs between the architectures; theorems in [TrapSpec].  On both: [Psci] ([arch/aarch64/psci.rs], [sync.rs])
      the power calls of AArch64 guests, with [PsciSpec]; [Sbi] ([arch/riscv64/sbicall.rs], [exception.rs],
      [interrupt.rs]) the calls of RISC-V guests, with [SbiSpec].
    - [Emu] ([device/emu.rs], [arch/riscv64/page_fault.rs], [arch/aarch64/exception.rs], [sync.rs]): an access to an emulated
      device from the trap to the device and back, the devices being parameters; theorems in [EmuSpec], against encoders of
      the instructions and of the syndrome.

    - TinyOS, the executor crate beside the hypervisor ([tinyos/rust/tiny/src]): [WaitList] ([list.rs]) the intrusive list
      of waiting futures, pointer by pointer; [WaitQueue] the queue it promises, as a class of operations and one of laws;
      [WaitListSpec] the proof that the pointers keep it.  Against the class: [LockFut] the future that tries and then
      waits, with the invariant of every interleaving of polls and drops, and its users [Semaphore] ([semaphore.rs]), [Mutex]
      ([mutex.rs]) and [RwLock] ([rwlock.rs]); [Exec] ([task.rs], [time.rs]) wake bits, the executor's loop, timers, the clock,
      [Notify], with theorems in [ExecSpec].  [Atomic]: programs as atomic actions, for what interrupt handlers come between; on
      it [Spsc] ([spsc.rs]) with [SpscSpec], the queue between two ends, and parts of [Exec].  [Watch] ([watch.rs]).

    ** How the code is represented

    A comment [src: file lines [symbol]] stands before every definition that models code.  A
    struct is a record, an enum an inductive type.  An operation that changes state or can panic is a
    function [M S A] from a state to an outcome: a value and a new state, or a [fault] that says
    which panic.  Integers are [Z] with the wrap-around written ([usize], [u32], ...), as in the
    release profile, where overflow wraps; a [debug_assert!] of TinyOS is kept as a panic, and shown not to fail.  A shared object ([Arc], [Vcpu], a queued task's state
    cell, an interrupt) is an entry of a store that its holders refer to, so that aliasing is the
    code's.  What leaves a component (register writes to the physical controller, IPIs, saved
    contexts, notifications) is an event of a log, in order.  Hardware that answers
    (ELRSR/EISR/MISR, the state bits of the physical distributor, the disk) and code that is not
    part of the sources (the heap allocator) are parameters, and theorems name what they ask of
    them.

    Loops whose recursion is not structural take fuel; running out is the fault [FuelOut], which
    the code does not have, and the theorems about such loops give an amount that is enough: the
    number of regions for the merge loop of [MemRegion], 64 steps for a bit search, the length of a
    range for [FlexBitmap], two levels for the mutual recursion of interrupt injection and context
    restore in [Sched] (an interrupt wakes a vCPU, whose pending interrupts then meet a running
    vCPU), the number of buffers for a scatter-gather copy, the length of the chain for the walks over
    descriptor chains, the number of futures and one for waking a line of waiters, two rounds for reading the clock, the
    number of slots for dropping a queue, 65 turns for a broadcast to the cores of a VM, the length of the queue for the handler of messages.  For the refill of the GICv3's list registers no fuel is enough while the
    most urgent interrupt is another vCPU's, which is a theorem.  For walks over chains no fuel is enough when the guest makes a circle, which is a theorem.

    ** What the theorems show

    - Invariants over everything that can happen: the spill queues of the emulated GICv2 and GICv3 agree with
      the flags of their interrupts under every guest access, IPI, injection and maintenance
      interrupt; at most one block request is in flight and it is the front one; the active vCPU of
      a core is the one at the scheduler's index, the only running one, and the tick is on exactly
      when it has competition.
    - Virtio: the rings lose and duplicate nothing and wrap as they should; a piecewise copy is the
      copy of the bytes and ends; a frame is delivered, a block request parsed; a driver sets up a
      device whatever the one before it left; which accesses panic.
    - Configuration and hypercalls: the table is a map from ids to configurations, errors change nothing with
      one exception, the cores asked for are those of the VM that is built; a VM's message ring keeps
      the last eight; the list of VMs reports the table.
    - The memory of a VM: allocator, page tables and the VM's own list agree on every byte, and removal gives back
      exactly what construction took, zeroed.  The stage-2 tables are the configuration: memory regions lead to their pieces,
      passthrough regions where they say, nothing else anywhere, with three frames per 2 MB touched.
    - Boards: on every AArch64 board the manager VM is set up, with emulated devices that trap and are found; what it reaches of the
      hypervisor; the hypervisor's boot tables are the identity with the types of memory that the comments give.
    - Accesses to emulated devices: the devices of a VM do not overlap; the decoder of trapped loads and stores inverts the
      encoding of the instructions; a trapped access on either architecture is the access of the one device at its
      address, with the register, width and direction of the instruction, and the guest goes on behind it.
    - RISC-V interrupts: the PLIC's books of injections and claims balance; which operations of the
      physical APLIC a guest reaches; a routed interrupt arrives at the core of the guest's vCPU.
    - Functional behaviour on every branch: allocation and release of VM memory as moves of bytes
      between free and used, interval differences, the effect of [map]/[unmap] on the translation
      of every guest page, forwarding of foreign interrupts and of SGIs, an interrupt that follows its affinity to a list register of
      another core, mask translation,
      placement of VMs on cores, the array of vCPUs.
    - Refinements and round trips: the fair queue against a rotation, the interrupt bitmaps against
      finite sets, list registers against the interrupt they present, virtual against physical
      masks.
    - Liveness: an owner in the fair queue and a vCPU in the run queue are served within a
      rotation.
    - Cores together: no message is lost on AArch64 whatever comes between the actions of a handler; a broadcast
      reaches the other cores of the VM; the registers of a vCPU follow it through every operation of the scheduler; a power
      call on one core starts the vCPU on another with the registers asked for; what a guest can make the firmware do.
    - TinyOS: the wait list is a queue; permits are conserved and handed over first come first served; one holder of a
      mutex, no reader beside a writer, whatever futures are cancelled where; the queue between two ends is first in
      first out under every interleaving and free of races; the executor polls what was woken and loses no wake-up, the
      timers that leave the list are those that are due, the clock read in two words is a time of the call.
    - Deviations: stated as what the code does, with the input that shows it ([remove] on the fair
      queue, the request window of mediated disks, ISPENDR reads, lost ICFGR writes, mapping a page
      inside a block, RISC-V [unmap], the vCPU that is passed over after a suspend, guest buffers that reach past
      the guest's memory, descriptor chains without an end, two entries for one slot of a queue, a refill of list registers
      that waits for another vCPU, a write that makes the next private interrupt panic, an abort
      whose syndrome is not valid, a register x0 that keeps what is loaded into it, an interrupt between harts that is lost, calls that
      spoil the registers of the vCPU scheduled next, a manager VM that reaches the hypervisor's memory on RK3588, a region of
      memory over the device registers there, memory shared because a region is not whole pages, a VM that is booted twice and then
      has two turns, and others).

    ** What is not modelled

    An operation runs as one step: spin locks and the memory model are not represented, and
    concurrency between cores appears as the interleaving of whole operations and the messages
    between them.  [Vcpu::vm] always finds the VM: a vCPU does not outlive it.  Boot but for its page tables, exception
    vectors and device drivers are assembly and memory-mapped I/O; [config/vm_def.rs] (the feature of static configurations) has
    entries with fields that [config.rs] does not have, and does not fit it.  Not modelled: the drivers of the physical interrupt controllers,
    which are logs of what is asked of them, the SMMU, and the device trees of new VMs, which a C library builds.  The firmware's answers to power calls are parameters; a call that does not
    return, and what a reboot does after its message to the VM's cores, end the model of the trap.  Of TinyOS the interrupt masking of the executor, its vtables and the weak orderings of its
    atomics are left out.  A hypercall that writes past a
    vector corrupts the hypervisor's heap; the model stops with a fault there. *)
From Stdlib Require Export ZArith Lia.
From stdpp Require Export base tactics numbers list option.
#[global] Open Scope Z_scope.
#[export] Set Warnings "-clear-no-such-hyp".

(** ** Machine words

    Rust's unsigned integers are kept as [Z] in [0, 2^w).  The crate is built
    with the release profile (Makefile, [PROFILE ?= release]), in which [+], [-],
    [*] wrap around, a shift amount is taken modulo the width, and an [as] cast
    truncates. *)

Declare Scope word_scope.
Delimit Scope word_scope with word.

(** [wrap w z] is [z] reduced to [w] bits. *)
Definition wrap (w z : Z) : Z := z mod 2 ^ w.

(** [in_word w z]: [z] is a value of the [w]-bit unsigned type. *)
Definition in_word (w z : Z) : Prop := 0 <= z < 2 ^ w.

Abbreviation u8 := (wrap 8).
Abbreviation u16 := (wrap 16).
Abbreviation u32 := (wrap 32).
Abbreviation usize := (wrap 64).

(** Left shift at width [w], with the release-mode masking of the amount. *)
Definition shlw (w x n : Z) : Z := wrap w (Z.shiftl x (n mod w)).

(** Logical right shift at width [w]. *)
Definition shrw (w x n : Z) : Z := Z.shiftr x (n mod w).

(** Bitwise complement at width [w]. *)
Definition notw (w x : Z) : Z := Z.lxor x (Z.ones w).

(** The boolean test [x & m != 0]. *)
Definition testm (x m : Z) : bool := negb (Z.land x m =? 0).

Infix "+ₙ" := (fun x y => usize (x + y)) (at level 50, left associativity) : word_scope.
Infix "-ₙ" := (fun x y => usize (x - y)) (at level 50, left associativity) : word_scope.

(** ** Faults and the state monad of the modelled code

    A Rust panic aborts the hypervisor; the model keeps it as a value, with
    the reason.  [FuelOut] is not a behaviour of the code: it marks a loop whose
    fuel was too small, and every theorem about a loop shows it is not reached
    (or says that no fuel is enough). *)
Inductive fault :=
  | OutOfBounds     (** an indexing operation outside the slice *)
  | DivByZero       (** [/] or [%] by zero *)
  | UnwrapNone      (** [unwrap] of a [None] or an [Err] *)
  | ExplicitPanic   (** [panic!], [assert!], [todo!], [unimplemented!] *)
  | FuelOut.        (** loop fuel exhausted *)

Inductive outcome (S A : Type) :=
  | Ret (a : A) (s : S)
  | Fault (f : fault).
Arguments Ret {S A} a s.
Arguments Fault {S A} f.

(** Programs over a state of type [S]. *)
Definition M (S A : Type) : Type := S -> outcome S A.

Definition m_ret {S A} (a : A) : M S A := fun s => Ret a s.
Definition m_bind {S A B} (m : M S A) (k : A -> M S B) : M S B := fun s =>
  match m s with
  | Ret a s' => k a s'
  | Fault f => Fault f
  end.
Definition m_get {S} : M S S := fun s => Ret s s.
Definition m_put {S} (s : S) : M S unit := fun _ => Ret tt s.
Definition m_gets {S A} (f : S -> A) : M S A := fun s => Ret (f s) s.
Definition m_modify {S} (f : S -> S) : M S unit := fun s => Ret tt (f s).
Definition m_fault {S A} (f : fault) : M S A := fun _ => Fault f.

(** [unwrap]-like coercion of an option. *)
Definition m_opt {S A} (f : fault) (o : option A) : M S A :=
  match o with Some a => m_ret a | None => m_fault f end.

Declare Scope monad_scope.
Delimit Scope monad_scope with monad.
Notation "'let!' x := c1 'in' c2" := (m_bind c1 (fun x => c2))
  (at level 10, x pattern, c1 at level 100, c2 at level 200,
   format "'[v' 'let!'  x  :=  c1  'in' '/' c2 ']'") : monad_scope.
Notation "c1 >>; c2" := (m_bind c1 (fun _ => c2))
  (at level 100, c2 at level 200, right associativity, format "'[v' c1 >>; '/' c2 ']'") : monad_scope.
#[global] Open Scope monad_scope.

(** A [for] loop over a list, in order. *)
Fixpoint m_for {S A} (l : list A) (body : A -> M S unit) : M S unit :=
  match l with
  | [] => m_ret tt
  | x :: l' => body x >>; m_for l' body
  end.

(** [for i in lo..lo+n] as a list of indices. *)
Fixpoint zrange (lo : Z) (n : nat) : list Z :=
  match n with O => [] | Datatypes.S n' => lo :: zrange (lo + 1) n' end.

(** ** Slices indexed by [usize]

    [l.[i]] is the checked read; [l.[i := x]] the update.  The update of an
    index that is out of range leaves the list alone, so a model of a store always
    pairs it with the bounds check ([m_idx], [in_bounds]). *)
Definition zget {A} (l : list A) (i : Z) : option A :=
  if 0 <=? i then l !! Z.to_nat i else None.
Definition zset {A} (l : list A) (i : Z) (x : A) : list A :=
  if 0 <=? i then <[Z.to_nat i := x]> l else l.
Definition zlen {A} (l : list A) : Z := Z.of_nat (length l).
Definition in_bounds {A} (l : list A) (i : Z) : bool := (0 <=? i) && (i <? zlen l).
Definition m_idx {S A} (l : list A) (i : Z) : M S A := m_opt OutOfBounds (zget l i).

(** Checked store: [Some] of the new list, or [None] when Rust panics. *)
Definition zstore {A} (l : list A) (i : Z) (x : A) : option (list A) :=
  if in_bounds l i then Some (zset l i x) else None.

(** *** Lemmas on slices *)

Lemma zget_Some_bounds {A} (l : list A) i x : zget l i = Some x -> 0 <= i < zlen l.
Proof.
  unfold zget, zlen. destruct (Z.leb_spec 0 i); [|done]. intros Hl%lookup_lt_Some. lia.
Qed.

Lemma zget_in_bounds {A} (l : list A) i : 0 <= i < zlen l -> is_Some (zget l i).
Proof.
  unfold zget, zlen. intros [? ?]. destruct (Z.leb_spec 0 i); [|lia].
  apply lookup_lt_is_Some_2. lia.
Qed.

Lemma zget_None {A} (l : list A) i : zget l i = None <-> ~ (0 <= i < zlen l).
Proof.
  unfold zget, zlen. destruct (Z.leb_spec 0 i).
  - rewrite lookup_ge_None. lia.
  - split; [lia|done].
Qed.

Lemma in_bounds_spec {A} (l : list A) i : in_bounds l i = true <-> 0 <= i < zlen l.
Proof. unfold in_bounds. rewrite andb_true_iff, Z.leb_le, Z.ltb_lt. lia. Qed.

Lemma in_bounds_true {A} (l : list A) i : 0 <= i < zlen l -> in_bounds l i = true.
Proof. apply in_bounds_spec. Qed.

Lemma zlen_zset {A} (l : list A) i x : zlen (zset l i x) = zlen l.
Proof. unfold zset, zlen. destruct (0 <=? i); [|done]. by rewrite length_insert. Qed.

Lemma zget_zset_eq {A} (l : list A) i x : 0 <= i < zlen l -> zget (zset l i x) i = Some x.
Proof.
  unfold zget, zset, zlen. intros [? ?]. destruct (Z.leb_spec 0 i); [|lia].
  apply list_lookup_insert_eq. lia.
Qed.

Lemma zget_zset_ne {A} (l : list A) i j x : i <> j -> zget (zset l i x) j = zget l j.
Proof.
  unfold zget, zset. intros ?. destruct (Z.leb_spec 0 j), (Z.leb_spec 0 i); try done.
  apply list_lookup_insert_ne. lia.
Qed.

Lemma zget_zset {A} (l : list A) i j x :
  zget (zset l i x) j = if decide (i = j /\ 0 <= i < zlen l) then Some x else zget l j.
Proof.
  case_decide as Hd; [destruct Hd as [-> ?]; by apply zget_zset_eq|].
  destruct (decide (i = j)) as [->|]; [|by apply zget_zset_ne].
  assert (~ 0 <= j < zlen l) as Hn by tauto.
  rewrite (proj2 (zget_None l j) Hn). apply zget_None. by rewrite zlen_zset.
Qed.

(** Writing what is there, writing twice, the length. *)
Lemma zset_same {A} (l : list A) i x : zget l i = Some x -> zset l i x = l.
Proof. unfold zget, zset. destruct (0 <=? i); [|done]. apply list_insert_id. Qed.
Lemma zset_zset {A} (l : list A) i x y : zset (zset l i x) i y = zset l i y.
Proof. unfold zset. destruct (0 <=? i); [|done]. apply list_insert_insert_eq. Qed.
Lemma length_zset {A} (l : list A) i x : length (zset l i x) = length l.
Proof. unfold zset. destruct (0 <=? i); [|done]. apply length_insert. Qed.

Lemma zlen_replicate {A} (n : nat) (x : A) : zlen (replicate n x) = Z.of_nat n.
Proof. unfold zlen. by rewrite length_replicate. Qed.

Lemma zget_replicate {A} (n : nat) (x : A) i :
  0 <= i < Z.of_nat n -> zget (replicate n x) i = Some x.
Proof.
  intros ?. unfold zget. destruct (Z.leb_spec 0 i); [|lia].
  apply lookup_replicate_2. lia.
Qed.

Lemma zlen_app {A} (l k : list A) : zlen (l ++ k) = zlen l + zlen k.
Proof. unfold zlen. rewrite length_app. lia. Qed.

Lemma zlen_nonneg {A} (l : list A) : 0 <= zlen l.
Proof. unfold zlen. lia. Qed.

Lemma zrange_elem lo n i : i ∈ zrange lo n <-> lo <= i < lo + Z.of_nat n.
Proof.
  revert lo. induction n as [|n IH]; intros lo; simpl.
  - rewrite list_elem_of_In. simpl. lia.
  - rewrite elem_of_cons, IH. lia.
Qed.

Lemma zrange_NoDup lo n : NoDup (zrange lo n).
Proof.
  revert lo. induction n as [|n IH]; intros lo; cbn [zrange]; constructor; [|done].
  rewrite zrange_elem. lia.
Qed.

Lemma zrange_S lo n : zrange lo (S n) = zrange lo n ++ [lo + Z.of_nat n].
Proof.
  revert lo. induction n as [|n IH]; intros lo; [simpl; f_equal; lia|].
  change (zrange lo (S (S n))) with (lo :: zrange (lo + 1) (S n)). rewrite IH. simpl.
  do 2 f_equal. f_equal. lia.
Qed.

Lemma find_first {A} (f : A -> bool) l x : List.find f l = Some x <->
  exists k, l !! k = Some x /\ f x = true /\ forall j y, (j < k)%nat -> l !! j = Some y -> f y = false.
Proof.
  induction l as [|y l IH]; cbn [List.find].
  - split; [done|]. intros (k & Hk & _). done.
  - destruct (f y) eqn:Ey.
    + split.
      * intros [= <-]. exists O. split_and!; [done|done|]. intros j ? ?. lia.
      * intros ([|k] & Hk & Hf & Hb); [by injection Hk as ->|]. specialize (Hb O y ltac:(lia) eq_refl). congruence.
    + rewrite IH. split.
      * intros (k & Hk & Hf & Hb). exists (S k). split_and!; [done|done|]. intros [|j] z Hj Hz; [by injection Hz as <-|].
        apply (Hb j); [lia|done].
      * intros ([|k] & Hk & Hf & Hb); [injection Hk as ->; congruence|]. exists k. split_and!; [done|done|].
        intros j z Hj Hz. apply (Hb (S j)); [lia|done].
Qed.

(** *** Lemmas on words *)

Lemma wrap_range w z : 0 <= w -> in_word w (wrap w z).
Proof. intros ?. apply Z.mod_pos_bound. lia. Qed.

Lemma wrap_small w z : in_word w z -> wrap w z = z.
Proof. apply Z.mod_small. Qed.

Lemma wrap_idemp w z : wrap w (wrap w z) = wrap w z.
Proof. unfold wrap. by rewrite Zmod_mod. Qed.

Lemma wrap_testbit w z i : 0 <= i -> 0 <= w ->
  Z.testbit (wrap w z) i = (i <? w) && Z.testbit z i.
Proof.
  intros ? ?. unfold wrap. destruct (Z.ltb_spec i w); simpl.
  - by rewrite Z.mod_pow2_bits_low by lia.
  - by rewrite Z.mod_pow2_bits_high by lia.
Qed.

Lemma testbit_high w z i : in_word w z -> w <= i -> Z.testbit z i = false.
Proof.
  intros [? ?] ?. destruct (decide (z = 0)) as [->|]; [by rewrite Z.testbit_0_l|].
  destruct (decide (0 <= w)); [|rewrite (Z.pow_neg_r 2 w) in *; lia].
  apply Z.bits_above_log2; [lia|]. apply Z.lt_le_trans with w; [|done].
  apply Z.log2_lt_pow2; lia.
Qed.

(** A number whose bits from [w] up are clear is a [w]-bit word. *)
Lemma in_word_bits w z : 0 <= w -> 0 <= z ->
  (forall i, w <= i -> Z.testbit z i = false) -> in_word w z.
Proof.
  intros Hw Hz Hb.
  assert (wrap w z = z) as E.
  { apply Z.bits_inj'. intros i Hi. rewrite wrap_testbit by done.
    destruct (Z.ltb_spec i w); [done|]. by rewrite Hb. }
  rewrite <- E. by apply wrap_range.
Qed.

Lemma lor_in_word w x y : 0 <= w -> in_word w x -> in_word w y -> in_word w (Z.lor x y).
Proof.
  intros ? Hx Hy. apply in_word_bits; [done|apply Z.lor_nonneg; split; [apply Hx|apply Hy]|].
  intros i ?. by rewrite Z.lor_spec, (testbit_high w x), (testbit_high w y).
Qed.

Lemma land_ones_range x n : 0 <= n -> 0 <= Z.land x (Z.ones n) < 2 ^ n.
Proof. intros ?. rewrite Z.land_ones by done. apply Z.mod_pos_bound. lia. Qed.

Lemma lor_low a b k : 0 <= k -> 0 <= b < 2 ^ k -> Z.lor (a * 2 ^ k) b = a * 2 ^ k + b.
Proof.
  intros Hk Hb. assert (Z.land (a * 2 ^ k) b = 0) as E; [|by rewrite Z.add_nocarry_lxor, Z.lxor_lor by done].
  apply Z.bits_inj'. intros i Hi. rewrite Z.land_spec, Z.bits_0, andb_false_iff.
  destruct (Z.lt_ge_cases i k); [left; by apply Z.mul_pow2_bits_low|right].
  rewrite <- (Z.mod_small b (2 ^ k)) by done. by apply Z.mod_pow2_bits_high.
Qed.

Lemma land_in_word w x y : 0 <= w -> in_word w x -> 0 <= y -> in_word w (Z.land x y).
Proof.
  intros ? Hx Hy. apply in_word_bits; [done|apply Z.land_nonneg; left; apply Hx|].
  intros i ?. by rewrite Z.land_spec, (testbit_high w x).
Qed.

Lemma testm_bit x i : 0 <= i -> testm x (Z.shiftl 1 i) = Z.testbit x i.
Proof.
  intros ?. unfold testm. rewrite Z.shiftl_1_l.
  destruct (Z.testbit x i) eqn:E.
  - destruct (Z.eqb_spec (Z.land x (2 ^ i)) 0) as [E0|]; [|done].
    assert (Z.testbit (Z.land x (2 ^ i)) i = false) as F by (rewrite E0; apply Z.testbit_0_l).
    by rewrite Z.land_spec, E, Z.pow2_bits_true in F.
  - assert (Z.land x (2 ^ i) = 0) as ->; [|done].
    apply Z.bits_inj'. intros j ?. rewrite Z.land_spec, Z.testbit_0_l, Z.pow2_bits_eqb by done.
    destruct (Z.eqb_spec i j) as [->|]; [by rewrite E|by rewrite andb_false_r].
Qed.

Lemma notw_testbit w x i : 0 <= i -> 0 <= w ->
  Z.testbit (notw w x) i = xorb (Z.testbit x i) (i <? w).
Proof.
  intros ? ?. unfold notw. rewrite Z.lxor_spec. f_equal.
  destruct (Z.ltb_spec i w); [by rewrite Z.ones_spec_low by lia|by rewrite Z.ones_spec_high by lia].
Qed.

Lemma notw_in_word w x : 0 <= w -> in_word w x -> in_word w (notw w x).
Proof.
  intros ? Hx. unfold notw. apply in_word_bits; [done| |].
  - apply Z.lxor_nonneg. rewrite Z.ones_equiv. assert (0 < 2 ^ w) by lia. destruct Hx. lia.
  - intros i ?. rewrite Z.lxor_spec, (testbit_high w x), Z.ones_spec_high by (done || lia). done.
Qed.

Lemma shlw_testbit w x n i : 0 <= i -> 0 < w -> 0 <= n < w ->
  Z.testbit (shlw w x n) i = (i <? w) && (n <=? i) && Z.testbit x (i - n).
Proof.
  intros ? ? ?. unfold shlw. rewrite (Z.mod_small n w) by lia.
  rewrite wrap_testbit, Z.shiftl_spec by lia.
  destruct (i <? w); [simpl|done]. destruct (Z.leb_spec n i); [done|].
  by rewrite Z.testbit_neg_r by lia.
Qed.

(** ** Automation *)

Create HintDb word discriminated.
#[export] Hint Resolve wrap_range lor_in_word land_in_word notw_in_word : word.
#[export] Hint Extern 1 (0 <= _) => lia : word.

Create Rewrite HintDb zlist.
Create Rewrite HintDb zbits.
#[global] Hint Rewrite @zlen_zset @zlen_replicate @zlen_app : zlist.
#[global] Hint Rewrite Z.land_spec Z.lor_spec Z.lxor_spec : zbits.

(** Reduce a boolean comparison hypothesis or goal to its proposition. *)
Ltac bool_to_prop :=
  repeat match goal with
  | H : (_ && _) = true |- _ => apply andb_true_iff in H; destruct H
  | H : (_ || _) = false |- _ => apply orb_false_iff in H; destruct H
  | H : negb _ = true |- _ => apply negb_true_iff in H
  | H : negb _ = false |- _ => apply negb_false_iff in H
  | H : (_ <? _) = true |- _ => apply Z.ltb_lt in H
  | H : (_ <? _) = false |- _ => apply Z.ltb_ge in H
  | H : (_ <=? _) = true |- _ => apply Z.leb_le in H
  | H : (_ <=? _) = false |- _ => apply Z.leb_gt in H
  | H : (_ =? _) = true |- _ => apply Z.eqb_eq in H
  | H : (_ =? _) = false |- _ => apply Z.eqb_neq in H
  end.

(** Case analysis on the [Z] comparisons the goal branches on. *)
Ltac zcases :=
  repeat match goal with
  | |- context [?a <? ?b] => destruct (Z.ltb_spec a b)
  | |- context [?a <=? ?b] => destruct (Z.leb_spec a b)
  | |- context [?a =? ?b] => destruct (Z.eqb_spec a b)
  end.

(** Linear arithmetic with division and remainder by constants. *)
Ltac zdiv := Z.div_mod_to_equations; lia.

(** Unfold the monad. *)
Ltac munfold := unfold m_bind, m_ret, m_get, m_put, m_gets, m_modify, m_fault, m_opt in *.

(** Decompose an equation [m s = Ret a s'] of a monadic program. *)
Ltac mstep H :=
  unfold m_bind, m_ret, m_get, m_put, m_gets, m_modify, m_fault, m_opt in H;
  repeat match type of H with
  | context [match ?x with _ => _ end] => let E := fresh "E" in destruct x eqn:E; simplify_eq/=
  end.

(** *** The monad laws, and iteration *)

Lemma Ret_inj {S A} (a b : A) (s t : S) : Ret a s = Ret b t -> a = b /\ s = t.
Proof. by intros [= -> ->]. Qed.

Lemma m_bind_ret {S A B} (a : A) (k : A -> M S B) : m_bind (m_ret a) k = k a.
Proof. done. Qed.

Lemma m_bind_Ret {S A B} (m : M S A) (k : A -> M S B) s a s' :
  m s = Ret a s' -> m_bind m k s = k a s'.
Proof. unfold m_bind. by intros ->. Qed.

Lemma m_bind_assoc {S A B C} (m : M S A) (k : A -> M S B) (h : B -> M S C) s :
  m_bind (m_bind m k) h s = m_bind m (fun a => m_bind (k a) h) s.
Proof. unfold m_bind. by destruct (m s). Qed.

Lemma m_bind_Fault_r {S A B} (m : M S A) (k : A -> M S B) s a s' f :
  m s = Ret a s' -> k a s' = Fault f -> m_bind m k s = Fault f.
Proof. unfold m_bind. by intros ->. Qed.

Lemma m_bind_Ret_r {S A B} (m : M S A) (k : A -> M S B) s a s' b s'' :
  m s = Ret a s' -> k a s' = Ret b s'' -> m_bind m k s = Ret b s''.
Proof. unfold m_bind. by intros ->. Qed.

Lemma m_bind_inv {S A B} (m : M S A) (k : A -> M S B) s b s'' :
  m_bind m k s = Ret b s'' -> exists a s', m s = Ret a s' /\ k a s' = Ret b s''.
Proof. unfold m_bind. destruct (m s); [eauto|done]. Qed.

Lemma m_idx_inv {S A} (l : list A) i (s : S) a s' :
  m_idx l i s = Ret a s' -> zget l i = Some a /\ s' = s.
Proof. unfold m_idx, m_opt. destruct (zget l i); [|done]. by intros [= -> ->]. Qed.

(** A property of states that each iteration keeps is kept by the loop. *)
Lemma m_for_invariant {S A} (P : S -> Prop) (l : list A) (body : A -> M S unit) s s' :
  (forall x s1 s2, x ∈ l -> P s1 -> body x s1 = Ret tt s2 -> P s2) ->
  P s -> m_for l body s = Ret tt s' -> P s'.
Proof.
  revert s. induction l as [|x l IH]; simpl; intros s Hb HP Hr.
  - by injection Hr as <-.
  - apply m_bind_inv in Hr as ([] & s1 & Hx & Hl).
    eapply IH; [|eapply Hb; [constructor|exact HP|exact Hx]|exact Hl].
    intros y s2 s3 Hy. apply Hb. by constructor.
Qed.

(** A loop none of whose iterations faults does not fault. *)
Lemma m_for_total {S A} (P : S -> Prop) (l : list A) (body : A -> M S unit) s :
  (forall x s1, x ∈ l -> P s1 -> exists s2, body x s1 = Ret tt s2 /\ P s2) ->
  P s -> exists s', m_for l body s = Ret tt s' /\ P s'.
Proof.
  revert s. induction l as [|x l IH]; simpl; intros s Hb HP; [by exists s|].
  destruct (Hb x s) as (s1 & E & HP1); [constructor|done|].
  destruct (IH s1) as (s2 & E2 & HP2); [intros; apply Hb; [by constructor|done]|done|].
  exists s2. split; [|done]. by rewrite (m_bind_Ret _ _ _ _ _ E).
Qed.

Lemma m_for_app {S A} (l k : list A) (body : A -> M S unit) s :
  m_for (l ++ k) body s = (m_for l body >>; m_for k body) s.
Proof.
  revert s. induction l as [|x l IH]; intros s; [done|]. simpl. unfold m_bind.
  destruct (body x s); [apply IH|done].
Qed.

(** ** Invariants of monadic programs

    [m_keeps P m]: from a state satisfying [P], every normal return of [m] is in a state
    satisfying [P].  Faults are excluded separately ([m_for_total] and the functional
    lemmas of each component). *)
Definition m_keeps {S A} (P : S -> Prop) (m : M S A) : Prop :=
  forall s a s', P s -> m s = Ret a s' -> P s'.

Section keeps.
Context {S : Type} (P : S -> Prop).

Lemma keeps_ret {A} (a : A) : m_keeps P (m_ret a).
Proof. by intros s a' s' ? [= _ <-]. Qed.

Lemma keeps_fault {A} f : m_keeps (A := A) P (m_fault f).
Proof. by intros s a' s' ?. Qed.

Lemma keeps_opt {A} f (o : option A) : m_keeps P (m_opt f o).
Proof. destruct o; [apply keeps_ret|apply keeps_fault]. Qed.

Lemma keeps_bind {A B} (m : M S A) (k : A -> M S B) :
  m_keeps P m -> (forall a, m_keeps P (k a)) -> m_keeps P (m_bind m k).
Proof. intros Hm Hk s b s'' Hs (a & s' & E & E')%m_bind_inv. eapply Hk; [|exact E']. by eapply Hm. Qed.

(** Reading the state: the continuation may use what the invariant says of it. *)
Lemma keeps_get {A} (k : S -> M S A) :
  (forall s a s', P s -> k s s = Ret a s' -> P s') -> m_keeps P (m_bind m_get k).
Proof. intros Hk s a s' Hs E. by eapply Hk. Qed.

Lemma keeps_modify (f : S -> S) : (forall s, P s -> P (f s)) -> m_keeps P (m_modify f).
Proof. intros Hf s a s' Hs [= _ <-]. by apply Hf. Qed.

Lemma keeps_m_get : m_keeps P m_get.
Proof. by intros s a s' H [= _ <-]. Qed.
Lemma keeps_m_gets {A} (f : S -> A) : m_keeps P (m_gets f).
Proof. by intros s a s' H [= _ <-]. Qed.
Lemma keeps_m_idx {A} (l : list A) i : m_keeps P (m_idx l i).
Proof. apply keeps_opt. Qed.

Lemma keeps_if {A} (b : bool) (m1 m2 : M S A) :
  m_keeps P m1 -> m_keeps P m2 -> m_keeps P (if b then m1 else m2).
Proof. by destruct b. Qed.

Lemma keeps_for {A} (l : list A) (body : A -> M S unit) :
  (forall x, m_keeps P (body x)) -> m_keeps P (m_for l body).
Proof. intros Hb s [] s' Hs E. eapply m_for_invariant; [|exact Hs|exact E]. intros. by eapply Hb. Qed.
End keeps.

Create HintDb keeps discriminated.
#[export] Hint Resolve keeps_ret keeps_fault keeps_opt keeps_bind keeps_if keeps_for keeps_m_get keeps_m_gets keeps_m_idx : keeps.

(** A program that leaves the state alone. *)
Definition m_reads {S A} (m : M S A) : Prop := forall s a s', m s = Ret a s' -> s' = s.

Lemma reads_keeps {S A} (P : S -> Prop) (m : M S A) : m_reads m -> m_keeps P m.
Proof. intros Hm s a s' Hs E. by rewrite (Hm _ _ _ E). Qed.

Lemma reads_bind {S A B} (m : M S A) (k : A -> M S B) :
  m_reads m -> (forall a, m_reads (k a)) -> m_reads (m_bind m k).
Proof.
  intros Hm Hk s b s'' (a & s' & E & E')%m_bind_inv. rewrite (Hk _ _ _ _ E'). by eapply Hm.
Qed.

Lemma reads_ret {S A} (a : A) : m_reads (S := S) (m_ret a).
Proof. by intros s a' s' [= _ <-]. Qed.
Lemma reads_fault {S A} f : m_reads (S := S) (A := A) (m_fault f).
Proof. by intros s a' s'. Qed.
Lemma reads_gets {S A} (f : S -> A) : m_reads (m_gets f).
Proof. by intros s a' s' [= _ <-]. Qed.
Lemma reads_get {S} : m_reads (m_get (S := S)).
Proof. by intros s a' s' [= _ <-]. Qed.
Lemma reads_opt {S A} f (o : option A) : m_reads (S := S) (m_opt f o).
Proof. destruct o; [apply reads_ret|apply reads_fault]. Qed.
Lemma reads_if {S A} (b : bool) (m1 m2 : M S A) : m_reads m1 -> m_reads m2 -> m_reads (if b then m1 else m2).
Proof. by destruct b. Qed.

Ltac reads_tac :=
  repeat match goal with
  | |- m_reads (m_bind _ _) => apply reads_bind; [|intros ?]
  | |- m_reads (if _ then _ else _) => apply reads_if
  | |- m_reads (match ?x with _ => _ end) => destruct x
  | |- m_reads (m_ret _) => apply reads_ret
  | |- m_reads (m_fault _) => apply reads_fault
  | |- m_reads (m_gets _) => apply reads_gets
  | |- m_reads m_get => apply reads_get
  | |- m_reads (m_opt _ _) => apply reads_opt
  end; auto with reads.

Create HintDb reads discriminated.
#[export] Hint Resolve reads_ret reads_fault reads_gets reads_get reads_opt : reads.

Lemma reads_m_idx {S A} (l : list A) i : m_reads (S := S) (m_idx l i).
Proof. apply reads_opt. Qed.
#[export] Hint Resolve reads_m_idx : reads.

(** A read at the head of a run: it returns and the state is the one before it. *)
Lemma reads_inv {S A B} (m : M S A) (k : A -> M S B) s b s' : m_reads m -> m_bind m k s = Ret b s' ->
  exists a, m s = Ret a s /\ k a s = Ret b s'.
Proof. intros Hm (a & s1 & E1 & E2)%m_bind_inv. pose proof (Hm _ _ _ E1) as ->. eauto. Qed.

(** [m_yields P R m]: [m] keeps [P], and what it returns satisfies [R]. *)
Definition m_yields {S A} (P : S -> Prop) (R : A -> Prop) (m : M S A) : Prop :=
  forall s a s', P s -> m s = Ret a s' -> P s' /\ R a.

Section yields.
Context {S : Type} (P : S -> Prop).

Lemma yields_bind {A B} (R : A -> Prop) (m : M S A) (k : A -> M S B) :
  m_yields P R m -> (forall a, R a -> m_keeps P (k a)) -> m_keeps P (m_bind m k).
Proof.
  intros Hm Hk s b s'' Hs (a & s' & E & E')%m_bind_inv.
  destruct (Hm _ _ _ Hs E) as [Hs' Ha]. by eapply Hk.
Qed.

Lemma yields_bind_y {A B} (R : A -> Prop) (R' : B -> Prop) (m : M S A) (k : A -> M S B) :
  m_yields P R m -> (forall a, R a -> m_yields P R' (k a)) -> m_yields P R' (m_bind m k).
Proof.
  intros Hm Hk s b s'' Hs (a & s' & E & E')%m_bind_inv.
  destruct (Hm _ _ _ Hs E) as [Hs' Ha]. by eapply Hk.
Qed.

Lemma keeps_bind_y {A B} (R' : B -> Prop) (m : M S A) (k : A -> M S B) :
  m_keeps P m -> (forall a, m_yields P R' (k a)) -> m_yields P R' (m_bind m k).
Proof. intros Hm Hk. apply (yields_bind_y (fun _ => True)); [|auto]. intros s a s' ? E. split; [by eapply Hm|done]. Qed.

Lemma yields_ret {A} (R : A -> Prop) (a : A) : R a -> m_yields P R (m_ret a).
Proof. by intros Ha s a' s' ? [= <- <-]. Qed.

Lemma yields_opt {A} (R : A -> Prop) f (o : option A) :
  (forall a, o = Some a -> R a) -> m_yields P R (m_opt f o).
Proof. intros Ho s a s' Hs. destruct o; [|done]. intros [= <- <-]. auto. Qed.
End yields.

(** Decompose a program along its binds, conditionals and matches; the leaves go to the
    [keeps] hint database. *)
Ltac keeps_tac :=
  repeat match goal with
  | |- m_keeps _ (m_bind _ _) => apply keeps_bind; [|intros ?]
  | |- m_keeps _ (if ?b then _ else _) => apply keeps_if
  | |- m_keeps _ (match ?x with _ => _ end) => destruct x
  | |- m_keeps _ (m_ret _) => apply keeps_ret
  | |- m_keeps _ (m_fault _) => apply keeps_fault
  | |- m_keeps _ (m_opt _ _) => apply keeps_opt
  end; auto with keeps.
