(* ===== verification/Bits.v ===== *)
(** * Bits: the arithmetic and bit-field helpers of [utils/util.rs]

    [round_up]/[round_down]/[byte2page], the range tests, the bit-field accessors
    [bit_extract]/[bit_get]/[bit_set], and the search [bitmap_find_nth] with which
    the virtual GIC picks list registers.  The lemmas relate each accessor to
    [Z.testbit]; [bitmap_find_nth] is proved to return exactly the [nth] position. *)
From S2P Require Import Prelude.

(** src: arch/aarch64/interface.rs 7-7 [PAGE_SIZE] *)
Definition PAGE_SIZE : Z := 4096.

(** src: utils/util.rs 22-24 [round_up] *)
Definition round_up (value to : Z) : option Z :=
  if to =? 0 then None   (* division by zero *)
  else Some (usize (usize (value + to - 1) / to * to)).

(** src: utils/util.rs 27-29 [round_down] *)
Definition round_down (value to : Z) : Z :=
  Z.land value (notw 64 (usize (to - 1))).

(** src: utils/util.rs 32-34 [byte2page] *)
Definition byte2page (byte : Z) : option Z :=
  match round_up byte PAGE_SIZE with
  | Some r => Some (r / PAGE_SIZE)
  | None => None
  end.

(** src: utils/util.rs 37-44 [range_in_range] *)
Definition range_in_range (base1 size1 base2 size2 : Z) : bool :=
  (base2 <=? base1) && (usize (base1 + size1) <=? usize (base2 + size2)).

(** src: utils/util.rs 47-49 [in_range] *)
Definition in_range (addr base size : Z) : bool := range_in_range addr 0 base size.

(** src: utils/util.rs 52-54 [bit_extract] *)
Definition bit_extract (bits off len : Z) : Z :=
  Z.land (shrw 64 bits off) (usize (shlw 64 1 len - 1)).

(** src: utils/util.rs 57-59 [bit_get] *)
Definition bit_get (bits off : Z) : Z := Z.land (shrw 64 bits off) 1.

(** src: utils/util.rs 62-64 [bit_set] *)
Definition bit_set (bits off : Z) : Z := Z.lor bits (shlw 64 1 off).

(** src: utils/util.rs 83-90 [bitmap_find_nth loop]
    The loop of [bitmap_find_nth] over the positions [l], with [count] matches seen. *)
Fixpoint find_nth_from (bitmap bit nth count : Z) (l : list Z) : option Z :=
  match l with
  | [] => None
  | i :: l' =>
      if bit_extract bitmap i 1 =? bit then
        if usize (count + 1) =? nth then Some i
        else find_nth_from bitmap bit nth (usize (count + 1)) l'
      else find_nth_from bitmap bit nth count l'
  end.

(** src: utils/util.rs 67-92 [bitmap_find_nth] *)
Definition bitmap_find_nth (bitmap start size nth : Z) (set : bool) : option Z :=
  if 64 <? usize (size + start) then None
  else
    let bit := if set then 1 else 0 in
    find_nth_from bitmap bit nth 0
      (zrange start (Z.to_nat (usize (start + size) - start))).

(** Number of positions of [l] whose bit equals [set]. *)
Definition matches (bitmap : Z) (set : bool) (l : list Z) : Z :=
  Z.of_nat (length (filter (fun i => Z.testbit bitmap i = set) l)).

(** ** Lemmas *)

Lemma shlw_1 i : 0 <= i < 64 -> shlw 64 1 i = 2 ^ i.
Proof.
  intros ?. unfold shlw. rewrite (Z.mod_small i 64), Z.shiftl_1_l by lia.
  apply wrap_small. split; [lia|]. apply Z.pow_lt_mono_r; lia.
Qed.

Lemma testm_shlw64 t i : 0 <= i < 64 -> testm t (shlw 64 1 i) = Z.testbit t i.
Proof. intros ?. rewrite shlw_1, <- Z.shiftl_1_l by done. apply testm_bit. lia. Qed.

Lemma bit_extract_testbit bits off len i :
  0 <= bits -> 0 <= off < 64 -> 0 <= len < 64 -> 0 <= i ->
  Z.testbit (bit_extract bits off len) i = (i <? len) && Z.testbit bits (i + off).
Proof.
  intros. unfold bit_extract, shrw.
  rewrite shlw_1, (Z.mod_small off), Z.land_spec, Z.shiftr_spec by lia.
  rewrite (wrap_small 64 (2 ^ len - 1)).
  - replace (2 ^ len - 1) with (Z.ones len) by (rewrite Z.ones_equiv; lia).
    rewrite Z.testbit_ones_nonneg by lia. apply andb_comm.
  - assert (0 < 2 ^ len) by lia. assert (2 ^ len < 2 ^ 64) by (apply Z.pow_lt_mono_r; lia).
    split; lia.
Qed.

(** The value of a bit field. *)
Lemma bit_extract_value bits off len :
  0 <= bits -> 0 <= off < 64 -> 0 <= len < 64 ->
  bit_extract bits off len = (bits / 2 ^ off) mod 2 ^ len.
Proof.
  intros. apply Z.bits_inj'. intros i ?.
  rewrite bit_extract_testbit by lia.
  rewrite Z.testbit_mod_pow2, Z.div_pow2_bits by lia. done.
Qed.

Lemma bit_extract_range bits off len :
  0 <= bits -> 0 <= off < 64 -> 0 <= len < 64 -> in_word len (bit_extract bits off len).
Proof. intros. rewrite bit_extract_value by lia. apply wrap_range. lia. Qed.

Lemma bit_get_testbit bits off : 0 <= bits -> 0 <= off < 64 ->
  bit_get bits off = if Z.testbit bits off then 1 else 0.
Proof.
  intros. unfold bit_get, shrw. rewrite (Z.mod_small off) by lia.
  change (Z.land (Z.shiftr bits off) (Z.ones 1) = if Z.testbit bits off then 1 else 0).
  rewrite Z.land_ones, Z.pow_1_r, Z.shiftr_div_pow2 by lia.
  rewrite <- Z.testbit_spec' by lia. by destruct (Z.testbit bits off).
Qed.

Lemma bit_get_nonzero bits off : 0 <= bits -> 0 <= off < 64 ->
  negb (bit_get bits off =? 0) = Z.testbit bits off.
Proof. intros. rewrite bit_get_testbit by done. by destruct (Z.testbit bits off). Qed.

Lemma bit_set_testbit bits off i : 0 <= off < 64 -> 0 <= i ->
  Z.testbit (bit_set bits off) i = (off =? i) || Z.testbit bits i.
Proof.
  intros. unfold bit_set. rewrite shlw_1, Z.lor_spec, Z.pow2_bits_eqb by lia. apply orb_comm.
Qed.

Lemma bit_set_in_word bits off : in_word 64 bits -> 0 <= off < 64 -> in_word 64 (bit_set bits off).
Proof.
  intros. unfold bit_set. apply lor_in_word; [lia|done|]. apply wrap_range. lia.
Qed.

Lemma find_nth_bit bitmap i (set : bool) : 0 <= bitmap -> 0 <= i < 64 ->
  (bit_extract bitmap i 1 =? (if set then 1 else 0)) = bool_decide (Z.testbit bitmap i = set).
Proof.
  intros. rewrite bit_extract_value, Z.pow_1_r, <- Z.testbit_spec' by lia.
  by destruct (Z.testbit bitmap i), set.
Qed.

Lemma matches_cons bitmap set i l :
  matches bitmap set (i :: l) =
    (if bool_decide (Z.testbit bitmap i = set) then 1 else 0) + matches bitmap set l.
Proof.
  unfold matches. rewrite filter_cons. case_decide; simpl length.
  - rewrite bool_decide_eq_true_2 by done. lia.
  - by rewrite bool_decide_eq_false_2 by done.
Qed.

(** The search loop returns the position at which the running count reaches [nth]. *)
Lemma find_nth_from_spec bitmap (set : bool) nth n : 0 <= bitmap -> forall lo count,
  0 <= lo -> lo + Z.of_nat n <= 64 -> 0 <= count < nth -> nth <= 2 ^ 63 ->
  match find_nth_from bitmap (if set then 1 else 0) nth count (zrange lo n) with
  | Some i => lo <= i < lo + Z.of_nat n /\ Z.testbit bitmap i = set /\
              count + matches bitmap set (zrange lo (Z.to_nat (i - lo + 1))) = nth
  | None => count + matches bitmap set (zrange lo n) < nth
  end.
Proof.
  intros Hbm. induction n as [|n IH]; intros lo count Hlo Hhi Hc Hn; simpl zrange.
  { simpl. unfold matches. simpl. lia. }
  simpl find_nth_from. rewrite find_nth_bit by lia. rewrite matches_cons.
  rewrite (wrap_small 64 (count + 1)) by (split; lia).
  assert (forall i, lo + 1 <= i -> zrange lo (Z.to_nat (i - lo + 1)) =
            lo :: zrange (lo + 1) (Z.to_nat (i - (lo + 1) + 1))) as Hz.
  { intros i ?. replace (Z.to_nat (i - lo + 1)) with (S (Z.to_nat (i - (lo + 1) + 1))) by lia. done. }
  assert (zrange lo (Z.to_nat (lo - lo + 1)) = [lo]) as H1.
  { by replace (Z.to_nat (lo - lo + 1)) with 1%nat by lia. }
  case_bool_decide as Hb.
  - destruct (Z.eqb_spec (count + 1) nth) as [E|Hne].
    + split_and!; [lia|lia|done|]. rewrite H1, matches_cons, bool_decide_eq_true_2 by done.
      unfold matches. simpl. lia.
    + specialize (IH (lo + 1) (count + 1)). destruct find_nth_from as [i|].
      * destruct IH as (? & ? & ?); [lia..|]. split_and!; [lia|lia|done|].
        rewrite Hz, matches_cons, bool_decide_eq_true_2 by (done || lia). lia.
      * specialize (IH ltac:(lia) ltac:(lia) ltac:(lia) Hn). lia.
  - specialize (IH (lo + 1) count). destruct find_nth_from as [i|].
    + destruct IH as (? & ? & ?); [lia..|]. split_and!; [lia|lia|done|].
      rewrite Hz, matches_cons, bool_decide_eq_false_2 by (done || lia). lia.
    + specialize (IH ltac:(lia) ltac:(lia) Hc Hn). lia.
Qed.

(** ** Properties *)

(** [bitmap_find_nth] (list-register and interrupt-bit search): over a window
    [start, start+size) of a 64-bit bitmap it returns the position of the [nth] bit that
    equals [set], counting from [start], and [None] exactly when the window has fewer
    than [nth] such bits. *)
Theorem bitmap_find_nth_spec bitmap start size nth set :
  0 <= bitmap < 2 ^ 64 -> 0 <= start -> 0 <= size -> start + size <= 64 -> 1 <= nth <= 2 ^ 63 ->
  match bitmap_find_nth bitmap start size nth set with
  | Some i => start <= i < start + size /\ Z.testbit bitmap i = set /\
              matches bitmap set (zrange start (Z.to_nat (i - start + 1))) = nth
  | None => matches bitmap set (zrange start (Z.to_nat size)) < nth
  end.
Proof.
  intros ? ? ? ? ?. unfold bitmap_find_nth.
  rewrite (wrap_small 64 (size + start)), (wrap_small 64 (start + size)) by (split; lia).
  destruct (Z.ltb_spec 64 (size + start)); [lia|].
  replace (Z.to_nat (start + size - start)) with (Z.to_nat size) by lia.
  pose proof (find_nth_from_spec bitmap set nth (Z.to_nat size)) as Hs.
  specialize (Hs ltac:(lia) start 0 ltac:(lia) ltac:(lia) ltac:(lia) ltac:(lia)).
  destruct find_nth_from as [i|].
  - destruct Hs as (? & ? & ?). split_and!; [lia|lia|done|lia].
  - lia.
Qed.

Lemma bitmap_find_nth_spec_witness :
  bitmap_find_nth 44 0 8 2 true = Some 3 /\
  match bitmap_find_nth 44 0 8 2 true with
  | Some i => 0 <= i < 0 + 8 /\ Z.testbit 44 i = true /\
              matches 44 true (zrange 0 (Z.to_nat (i - 0 + 1))) = 2
  | None => matches 44 true (zrange 0 (Z.to_nat 8)) < 2
  end.
Proof. split; [reflexivity|]. apply (bitmap_find_nth_spec 44 0 8 2 true); lia. Defined.
