(* ===== verification/Bitmap.v ===== *)
(** * Bitmap: [utils/bitmap.rs]

    The trait [BitAlloc] is a type class with its laws in [BitAllocLaws]; the leaf
    [BitAlloc16] and the 16-ary tower [BitMap<T>] are instances, so the
    interrupt bitmaps of a VM ([BitAlloc4K]) satisfy the laws by construction.
    [FlexBitmap] is a vector of 64-bit words with a bit length. *)
From stdpp Require Import gmap.
From S2P Require Import Prelude Bits.

(** ** The trait and its laws *)

(** src: utils/bitmap.rs 16-36 [trait BitAlloc]
    An operation returns [None] when the code panics. *)
Class BitAlloc (T : Type) := {
  CAP : Z;
  DEFAULT : T;
  ba_set : T -> Z -> option T;
  ba_clear : T -> Z -> option T;
  ba_get : T -> Z -> option Z;
}.

(** What a bitmap promises on its indices [0, CAP). *)
Class BitAllocLaws (T : Type) `{BitAlloc T} := {
  ba_wf : T -> Prop;
  cap_pos : 0 < CAP (T := T);
  default_wf : ba_wf DEFAULT;
  default_get i : 0 <= i < CAP (T := T) -> ba_get (DEFAULT : T) i = Some 0;
  set_law m i : ba_wf m -> 0 <= i < CAP (T := T) ->
    exists m', ba_set m i = Some m' /\ ba_wf m' /\
      forall j, 0 <= j < CAP (T := T) ->
        ba_get m' j = if decide (i = j) then Some 1 else ba_get m j;
  clear_law m i : ba_wf m -> 0 <= i < CAP (T := T) ->
    exists m', ba_clear m i = Some m' /\ ba_wf m' /\
      forall j, 0 <= j < CAP (T := T) ->
        ba_get m' j = if decide (i = j) then Some 0 else ba_get m j;
}.

(** ** The leaf: 16 bits in a [u16] *)

(** src: utils/bitmap.rs 94-94 [BitAlloc16] *)
Record BitAlloc16 := mkBitAlloc16 { ba16 : Z }.

(** src: utils/bitmap.rs 112-114 [BitAlloc16::set] *)
Definition ba16_set (m : BitAlloc16) (idx : Z) : BitAlloc16 :=
  mkBitAlloc16 (Z.lor (ba16 m) (shlw 16 1 idx)).

(** src: utils/bitmap.rs 116-118 [BitAlloc16::clear] *)
Definition ba16_clear (m : BitAlloc16) (idx : Z) : BitAlloc16 :=
  mkBitAlloc16 (Z.land (ba16 m) (notw 16 (shlw 16 1 idx))).

(** src: utils/bitmap.rs 120-126 [BitAlloc16::get] *)
Definition ba16_get (m : BitAlloc16) (idx : Z) : Z :=
  if testm (ba16 m) (shlw 16 1 idx) then 1 else 0.

(** src: utils/bitmap.rs 108-127 [impl BitAlloc for BitAlloc16] *)
#[export] Instance BitAlloc16_BitAlloc : BitAlloc BitAlloc16 := {
  CAP := 16;
  DEFAULT := mkBitAlloc16 0;
  ba_set m idx := Some (ba16_set m idx);
  ba_clear m idx := Some (ba16_clear m idx);
  ba_get m idx := Some (ba16_get m idx);
}.

(** ** The tower: 16 sub-bitmaps *)

(** src: utils/bitmap.rs 53-56 [BitMap] *)
Record BitMap (T : Type) := mkBitMap { bm_map : list T }.
Arguments mkBitMap {T} _.
Arguments bm_map {T} _.

Section bitmap_ops.
Context {T : Type} `{BitAlloc T}.

(** src: utils/bitmap.rs 74-78 [BitMap::set] *)
Definition bm_set (m : BitMap T) (idx : Z) : option (BitMap T) :=
  let i := idx / CAP (T := T) in
  x ← zget (bm_map m) i;
  x' ← ba_set x (idx mod CAP (T := T));
  Some (mkBitMap (zset (bm_map m) i x')).

(** src: utils/bitmap.rs 80-84 [BitMap::clear] *)
Definition bm_clear (m : BitMap T) (idx : Z) : option (BitMap T) :=
  let i := idx / CAP (T := T) in
  x ← zget (bm_map m) i;
  x' ← ba_clear x (idx mod CAP (T := T));
  Some (mkBitMap (zset (bm_map m) i x')).

(** src: utils/bitmap.rs 86-89 [BitMap::get] *)
Definition bm_get (m : BitMap T) (idx : Z) : option Z :=
  x ← zget (bm_map m) (idx / CAP (T := T));
  ba_get x (idx mod CAP (T := T)).
End bitmap_ops.

(** src: utils/bitmap.rs 66-90 [impl BitAlloc for BitMap] *)
#[export] Instance BitMap_BitAlloc (T : Type) `{BitAlloc T} : BitAlloc (BitMap T) := {
  CAP := CAP (T := T) * 16;
  DEFAULT := mkBitMap (replicate 16 DEFAULT);
  ba_set := bm_set;
  ba_clear := bm_clear;
  ba_get := bm_get;
}.

(** src: utils/bitmap.rs 38-39 [BitAlloc256] *)
Definition BitAlloc256 : Type := BitMap BitAlloc16.
(** src: utils/bitmap.rs 40-41 [BitAlloc4K] *)
Definition BitAlloc4K : Type := BitMap BitAlloc256.
#[export] Instance BitAlloc256_BitAlloc : BitAlloc BitAlloc256 := BitMap_BitAlloc BitAlloc16.
#[export] Instance BitAlloc4K_BitAlloc : BitAlloc BitAlloc4K := BitMap_BitAlloc BitAlloc256.

(** ** The flexible bitmap *)

(** src: utils/bitmap.rs 131-134 [FlexBitmap] *)
Record FlexBitmap := mkFlex { fb_len : Z; fb_map : list Z }.
Definition usize_MAX : Z := 2 ^ 64 - 1.

(** src: utils/bitmap.rs 137-140 [FlexBitmap::new] *)
Definition fb_new (len : Z) : FlexBitmap :=
  mkFlex len (replicate (Z.to_nat (usize (usize (len + 64) - 1) / 64)) 0).

(** src: utils/bitmap.rs 143-147 [FlexBitmap::init_dirty] *)
Definition fb_init_dirty (b : FlexBitmap) : FlexBitmap :=
  mkFlex (fb_len b) (map (fun _ => usize_MAX) (fb_map b)).

(** src: utils/bitmap.rs 150-154 [FlexBitmap::clear] *)
Definition fb_clear (b : FlexBitmap) : FlexBitmap :=
  mkFlex (fb_len b) (map (fun _ => 0) (fb_map b)).

(** src: utils/bitmap.rs 156-162 [FlexBitmap::get] *)
Definition fb_get (idx : Z) : M FlexBitmap Z := fun b =>
  if fb_len b <? idx then Fault ExplicitPanic
  else
    (let! val := m_idx (fb_map b) (idx / 64) in
     m_ret (bit_get val (idx mod 64))) b.

(** Store a word, with Rust's bounds check. *)
Definition fb_store (i w : Z) : M FlexBitmap unit := fun b =>
  match zstore (fb_map b) i w with
  | Some l => Ret tt (mkFlex (fb_len b) l)
  | None => Fault OutOfBounds
  end.

(** src: utils/bitmap.rs 164-173 [FlexBitmap::set] *)
Definition fb_set (bit : Z) (val : bool) : M FlexBitmap unit := fun b =>
  if fb_len b <? bit then Fault ExplicitPanic
  else
    (let! w := m_idx (fb_map b) (bit / 64) in
     if val then fb_store (bit / 64) (Z.lor w (shlw 64 1 (bit mod 64)))
     else fb_store (bit / 64) (Z.land w (notw 64 (shlw 64 1 (bit mod 64))))) b.

(** src: utils/bitmap.rs 188-192 [set_bits loop]
    The [while head < bit + len] loop, one word per iteration. *)
Fixpoint fb_set_words (fuel : nat) (head stop : Z) (val : bool) : M FlexBitmap unit :=
  if stop <=? head then m_ret tt
  else
    match fuel with
    | O => m_fault FuelOut
    | S fuel' =>
        fb_store (head / 64) (if val then usize_MAX else 0) >>;
        fb_set_words fuel' (usize (head + 64)) stop val
    end.

(** src: utils/bitmap.rs 176-194 [FlexBitmap::set_bits] *)
Definition fb_set_bits (bit len : Z) (val : bool) : M FlexBitmap unit := fun b =>
  if fb_len b <? usize (bit + len) then Fault ExplicitPanic
  else if len =? 1 then fb_set bit val b
  else if negb (bit mod 64 =? 0) || negb (usize (bit + len) mod 64 =? 0) then Fault ExplicitPanic
  else fb_set_words (S (length (fb_map b))) bit (usize (bit + len)) val b.

Fixpoint pos_popcount (p : positive) : Z :=
  match p with xH => 1 | xO q => pos_popcount q | xI q => 1 + pos_popcount q end.
(** [usize::count_ones]. *)
Definition count_ones (z : Z) : Z := match z with Zpos p => pos_popcount p | _ => 0 end.

(** src: utils/bitmap.rs 205-211 [FlexBitmap::sum] *)
Definition fb_sum (b : FlexBitmap) : Z :=
  fold_left (fun sum val => usize (sum + count_ones val)) (fb_map b) 0.

(** src: utils/bitmap.rs 220-224 [FlexBitmap::first inner loop]
    The [while (tmp & 1) == 0] loop; [None] when the fuel is spent. *)
Fixpoint fb_lowest (fuel : nat) (tmp first : Z) : option Z :=
  if Z.land tmp 1 =? 0 then
    match fuel with O => None | S f => fb_lowest f (Z.shiftr tmp 1) (usize (first + 1)) end
  else Some first.

(** src: utils/bitmap.rs 214-227 [FlexBitmap::first loop] *)
Fixpoint fb_first_from (l : list Z) (first : Z) : option Z :=
  match l with
  | [] => Some first
  | val :: l' =>
      if val =? 0 then fb_first_from l' (usize (first + 64)) else fb_lowest 64 val first
  end.

(** src: utils/bitmap.rs 214-230 [FlexBitmap::first] *)
Definition fb_first (b : FlexBitmap) : option Z := fb_first_from (fb_map b) 0.

(** Abstract view: the bit at position [i] of the word vector. *)
Definition fb_bit (b : FlexBitmap) (i : Z) : bool :=
  match zget (fb_map b) (i / 64) with Some w => Z.testbit w (i mod 64) | None => false end.

(** Well-formed: the words cover the length, and each is a 64-bit word. *)
Definition fb_wf (b : FlexBitmap) : Prop :=
  0 <= fb_len b < 2 ^ 63 /\ zlen (fb_map b) = (fb_len b + 63) / 64 /\
  Forall (in_word 64) (fb_map b).

(** ** The laws hold *)

Lemma shlw16_1 i : 0 <= i < 16 -> shlw 16 1 i = 2 ^ i.
Proof.
  intros ?. unfold shlw. rewrite (Z.mod_small i 16), Z.shiftl_1_l by lia.
  apply wrap_small. split; [lia|]. apply Z.pow_lt_mono_r; lia.
Qed.

Lemma ba16_get_bit m i : 0 <= i < 16 ->
  ba16_get m i = if Z.testbit (ba16 m) i then 1 else 0.
Proof.
  intros ?. unfold ba16_get. rewrite shlw16_1 by lia.
  rewrite <- (testm_bit (ba16 m) i), Z.shiftl_1_l by lia. done.
Qed.

#[export] Program Instance BitAlloc16_Laws : BitAllocLaws BitAlloc16 := {
  ba_wf m := in_word 16 (ba16 m);
}.
Next Obligation. simpl. lia. Qed.
Next Obligation. simpl. split; lia. Qed.
Next Obligation.
  intros i Hi. simpl in *. rewrite ba16_get_bit by lia. by rewrite Z.testbit_0_l.
Qed.
Next Obligation.
  simpl. intros m i Hm Hi. exists (ba16_set m i). split; [done|]. split.
  - apply lor_in_word; [lia|done|]. apply wrap_range. lia.
  - intros j Hj. rewrite !ba16_get_bit by lia. simpl. rewrite shlw16_1, Z.lor_spec by lia.
    rewrite Z.pow2_bits_eqb by lia. case_decide as E; [subst|].
    + by rewrite Z.eqb_refl, orb_true_r.
    + by rewrite (proj2 (Z.eqb_neq i j) E), orb_false_r.
Qed.
Next Obligation.
  simpl. intros m i Hm Hi. exists (ba16_clear m i). split; [done|]. split.
  - apply land_in_word; [lia|done|]. apply notw_in_word; [lia|]. apply wrap_range. lia.
  - intros j Hj. rewrite !ba16_get_bit by lia. simpl.
    rewrite shlw16_1, Z.land_spec, notw_testbit, Z.pow2_bits_eqb by lia.
    destruct (Z.ltb_spec j 16); [|lia]. case_decide as E; [subst|].
    + by rewrite Z.eqb_refl, andb_false_r.
    + by rewrite (proj2 (Z.eqb_neq i j) E), andb_true_r.
Qed.

(** The sub-bitmap and the position within it determine the index. *)
Lemma divmod_eq c i j : 0 < c -> i / c = j / c -> i mod c = j mod c -> i = j.
Proof. intros. rewrite (Z.div_mod i c), (Z.div_mod j c) by lia. congruence. Qed.

Lemma tower_index c i : 0 < c -> 0 <= i < c * 16 -> 0 <= i / c < 16 /\ 0 <= i mod c < c.
Proof.
  intros. split; [|by apply Z.mod_pos_bound].
  split; [apply Z.div_pos; lia|apply Z.div_lt_upper_bound; lia].
Qed.

Section tower_laws.
Context {T : Type} `{BitAllocLaws T}.

Definition bm_wf (m : BitMap T) : Prop := zlen (bm_map m) = 16 /\ Forall ba_wf (bm_map m).

Lemma bm_sub m i : bm_wf m -> 0 <= i < CAP (T := T) * 16 ->
  exists x, zget (bm_map m) (i / CAP (T := T)) = Some x /\ ba_wf x.
Proof.
  intros [Hl Hf] Hi. pose proof cap_pos (T := T).
  destruct (tower_index (CAP (T := T)) i) as [Hd _]; [done..|].
  destruct (zget_in_bounds (bm_map m) (i / CAP (T := T))) as [x Hx]; [lia|].
  exists x. split; [done|]. unfold zget in Hx.
  destruct (0 <=? i / CAP (T := T)); [|done]. by eapply Forall_lookup_1.
Qed.

(** An update of one sub-bitmap that acts as a point update is one of the tower. *)
Lemma bm_update m i x x' v :
  bm_wf m -> 0 <= i < CAP (T := T) * 16 ->
  zget (bm_map m) (i / CAP (T := T)) = Some x -> ba_wf x' ->
  (forall j, 0 <= j < CAP (T := T) ->
     ba_get x' j = if decide (i mod CAP (T := T) = j) then Some v else ba_get x j) ->
  let m' := mkBitMap (zset (bm_map m) (i / CAP (T := T)) x') in
  bm_wf m' /\ forall j, 0 <= j < CAP (T := T) * 16 ->
    bm_get m' j = if decide (i = j) then Some v else bm_get m j.
Proof.
  intros [Hl Hf] Hi Hx Hx' Hget m'. pose proof (cap_pos (T := T)) as Hc. split.
  - split; simpl; [by rewrite zlen_zset|]. unfold zset.
    destruct (0 <=? i / CAP (T := T)); [by apply Forall_insert|done].
  - intros j Hj. unfold bm_get, m'. simpl. rewrite zget_zset.
    destruct (tower_index (CAP (T := T)) i) as [Hdi Hmi]; [done..|].
    destruct (tower_index (CAP (T := T)) j) as [Hdj Hmj]; [done..|].
    case_decide as Hd.
    + destruct Hd as [Hd _]. simpl. rewrite Hget by done.
      rewrite <- Hd, Hx. simpl.
      case_decide as Hm; case_decide as Hij; [done| |subst; done|done].
      destruct Hij. by eapply divmod_eq.
    + case_decide as Hij; [|done]. subst. destruct Hd. split; [done|lia].
Qed.

#[export] Program Instance BitMap_Laws : BitAllocLaws (BitMap T) := { ba_wf := bm_wf }.
Next Obligation. pose proof cap_pos (T := T). simpl. lia. Qed.
Next Obligation.
  split; [done|]. apply (Forall_replicate ba_wf 16 DEFAULT). apply default_wf.
Qed.
Next Obligation.
  intros i Hi. simpl in *. pose proof cap_pos (T := T). unfold bm_get. simpl.
  destruct (tower_index (CAP (T := T)) i) as [Hd Hm]; [done..|].
  pose proof (zget_replicate 16 (DEFAULT : T) (i / CAP (T := T))) as E. simpl in E.
  rewrite E by lia. simpl. by apply default_get.
Qed.
Next Obligation.
  intros m i Hm Hi. simpl in Hi. destruct (bm_sub m i) as (x & Hx & Hwx); [done..|].
  destruct (tower_index (CAP (T := T)) i) as [_ Hmi]; [apply cap_pos|done|].
  destruct (set_law x (i mod CAP (T := T)) Hwx Hmi) as (x' & Hs & Hw' & Hg).
  exists (mkBitMap (zset (bm_map m) (i / CAP (T := T)) x')).
  split; [simpl; unfold bm_set; rewrite Hx; simpl; by rewrite Hs|].
  by eapply bm_update.
Qed.
Next Obligation.
  intros m i Hm Hi. simpl in Hi. destruct (bm_sub m i) as (x & Hx & Hwx); [done..|].
  destruct (tower_index (CAP (T := T)) i) as [_ Hmi]; [apply cap_pos|done|].
  destruct (clear_law x (i mod CAP (T := T)) Hwx Hmi) as (x' & Hs & Hw' & Hg).
  exists (mkBitMap (zset (bm_map m) (i / CAP (T := T)) x')).
  split; [simpl; unfold bm_clear; rewrite Hx; simpl; by rewrite Hs|].
  by eapply bm_update.
Qed.
End tower_laws.

#[export] Instance BitAlloc256_Laws : BitAllocLaws BitAlloc256 := BitMap_Laws (T := BitAlloc16).
#[export] Instance BitAlloc4K_Laws : BitAllocLaws BitAlloc4K := BitMap_Laws (T := BitAlloc256).

(** ** Refinement: a bitmap implements a set of indices *)

Inductive bit_op := OpSet (i : Z) | OpClear (i : Z).
Definition op_idx (o : bit_op) : Z := match o with OpSet i | OpClear i => i end.

Definition run_op {T} `{BitAlloc T} (m : T) (o : bit_op) : option T :=
  match o with OpSet i => ba_set m i | OpClear i => ba_clear m i end.
Definition spec_op (s : gset Z) (o : bit_op) : gset Z :=
  match o with OpSet i => {[i]} ∪ s | OpClear i => s ∖ {[i]} end.

Fixpoint run_ops {T} `{BitAlloc T} (m : T) (l : list bit_op) : option T :=
  match l with
  | [] => Some m
  | o :: l' => m' ← run_op m o; run_ops m' l'
  end.

Definition represents {T} `{BitAllocLaws T} (m : T) (s : gset Z) : Prop :=
  ba_wf m /\ forall j, 0 <= j < CAP (T := T) -> ba_get m j = Some (if decide (j ∈ s) then 1 else 0).

(** Compare the two membership tests of a point update. *)
Ltac decide_members :=
  repeat case_decide; subst;
  rewrite ?elem_of_union, ?elem_of_difference, ?elem_of_singleton in *;
  first [done | exfalso; tauto | exfalso; intuition congruence].

Lemma run_op_represents {T} `{BitAllocLaws T} (m : T) s o :
  represents m s -> 0 <= op_idx o < CAP (T := T) ->
  exists m', run_op m o = Some m' /\ represents m' (spec_op s o).
Proof.
  intros [Hw Hg] Hi. destruct o as [i|i]; simpl in *.
  - destruct (set_law m i Hw Hi) as (m' & E & Hw' & Hg'). exists m'. split; [done|].
    split; [done|]. intros j Hj. rewrite Hg', Hg by done.
    decide_members.
  - destruct (clear_law m i Hw Hi) as (m' & E & Hw' & Hg'). exists m'. split; [done|].
    split; [done|]. intros j Hj. rewrite Hg', Hg by done.
    decide_members.
Qed.

Lemma run_ops_represents {T} `{BitAllocLaws T} (l : list bit_op) : forall (m : T) s,
  represents m s -> Forall (fun o => 0 <= op_idx o < CAP (T := T)) l ->
  exists m', run_ops m l = Some m' /\ represents m' (fold_left spec_op l s).
Proof.
  induction l as [|o l IH]; intros m s Hr Hf; simpl; [by exists m|].
  inversion Hf as [|? ? Ho Hl]; subst.
  destruct (run_op_represents m s o Hr Ho) as (m' & E & Hr'). rewrite E. simpl. by apply IH.
Qed.

(** The 4096-bit interrupt bitmap refines a finite set: any sequence of [set] and
    [clear] calls on indices below 4096, from the default bitmap, runs without a panic,
    and [get] then answers membership in the set the same operations build. *)
Theorem bitalloc4k_refines_set (l : list bit_op) :
  Forall (fun o => 0 <= op_idx o < 4096) l ->
  exists m : BitAlloc4K, run_ops DEFAULT l = Some m /\
    forall j, 0 <= j < 4096 ->
      ba_get m j = Some (if decide (j ∈ fold_left spec_op l ∅) then 1 else 0).
Proof.
  intros Hl. destruct (run_ops_represents l (DEFAULT : BitAlloc4K) ∅) as (m & E & _ & Hg).
  - split; [apply default_wf|]. intros j Hj. rewrite default_get by done. by case_decide.
  - done.
  - by exists m.
Qed.

Lemma bitalloc4k_refines_set_witness :
  exists m : BitAlloc4K, run_ops DEFAULT [OpSet 27; OpSet 4095; OpClear 27] = Some m /\
    forall j, 0 <= j < 4096 ->
      ba_get m j =
        Some (if decide (j ∈ fold_left spec_op [OpSet 27; OpSet 4095; OpClear 27] (∅ : gset Z))
              then 1 else 0).
Proof.
  apply (bitalloc4k_refines_set [OpSet 27; OpSet 4095; OpClear 27]).
  repeat constructor; simpl; lia.
Defined.

(** ** The flexible bitmap *)

Lemma fb_word_bounds b i : fb_wf b -> 0 <= i < fb_len b -> 0 <= i / 64 < zlen (fb_map b).
Proof.
  intros (? & -> & _) ?. split; [apply Z.div_pos; lia|].
  assert (i / 64 * 64 <= i) by (pose proof (Z.mul_div_le i 64); lia).
  assert (i / 64 + 1 <= (fb_len b + 63) / 64); [|lia]. apply Z.div_le_lower_bound; lia.
Qed.

Lemma fb_word b i : fb_wf b -> 0 <= i < zlen (fb_map b) ->
  exists w, zget (fb_map b) i = Some w /\ in_word 64 w.
Proof.
  intros (_ & _ & Hf) Hi. destruct (zget_in_bounds (fb_map b) i Hi) as [w Hw].
  exists w. split; [done|]. unfold zget in Hw. destruct (0 <=? i); [|done].
  by eapply Forall_lookup_1.
Qed.

Lemma fb_store_spec b i w : fb_wf b -> 0 <= i < zlen (fb_map b) -> in_word 64 w ->
  let b' := mkFlex (fb_len b) (zset (fb_map b) i w) in
  fb_store i w b = Ret tt b' /\ fb_wf b' /\
  forall j, 0 <= j -> fb_bit b' j = if decide (j / 64 = i) then Z.testbit w (j mod 64) else fb_bit b j.
Proof.
  intros (Hl & Hz & Hf) Hi Hw b'. unfold fb_store, zstore. rewrite in_bounds_true by done.
  split_and!; [done| |].
  - split_and!; simpl; [lia|lia|by rewrite zlen_zset|].
    unfold zset. destruct (0 <=? i); [by apply Forall_insert|done].
  - intros j Hj. unfold fb_bit, b'. simpl. rewrite zget_zset.
    repeat case_decide; try done; exfalso; intuition (try congruence; lia).
Qed.

Lemma idx64_eq i j : i / 64 = j / 64 -> i mod 64 = j mod 64 -> i = j.
Proof. intros. by apply (divmod_eq 64). Qed.

Lemma fb_set_spec b bit val : fb_wf b -> 0 <= bit < fb_len b ->
  exists b', fb_set bit val b = Ret tt b' /\ fb_wf b' /\ fb_len b' = fb_len b /\
    forall j, 0 <= j -> fb_bit b' j = if decide (j = bit) then val else fb_bit b j.
Proof.
  intros Hwf Hb. pose proof (fb_word_bounds b bit Hwf Hb) as Hi.
  destruct (fb_word b (bit / 64) Hwf Hi) as (w & Hw & Hww).
  pose proof (Z.mod_pos_bound bit 64 ltac:(lia)) as Hm.
  unfold fb_set. destruct (Z.ltb_spec (fb_len b) bit); [lia|].
  unfold m_idx, m_bind, m_opt. rewrite Hw. simpl. rewrite shlw_1 by lia.
  assert (forall w', in_word 64 w' ->
    (forall k, 0 <= k < 64 -> Z.testbit w' k = if decide (k = bit mod 64) then val else Z.testbit w k) ->
    exists b', fb_store (bit / 64) w' b = Ret tt b' /\ fb_wf b' /\ fb_len b' = fb_len b /\
      forall j, 0 <= j -> fb_bit b' j = if decide (j = bit) then val else fb_bit b j) as Hcase.
  { intros w' Hw' Hk. destruct (fb_store_spec b (bit / 64) w') as (E & Hwf' & Hbits); [done..|].
    eexists. split_and!; [exact E|done|done|]. intros j Hj. rewrite Hbits by done.
    pose proof (Z.mod_pos_bound j 64 ltac:(lia)).
    case_decide as Hd.
    - rewrite Hk by done. case_decide as Hm2; case_decide as Hj2; try done.
      + destruct Hj2. by apply idx64_eq.
      + subst. done.
      + unfold fb_bit. by rewrite Hd, Hw.
    - case_decide; [subst; done|done]. }
  destruct val; apply Hcase.
  - apply lor_in_word; [lia|done|]. split; [lia|]. apply Z.pow_lt_mono_r; lia.
  - intros k Hk. rewrite Z.lor_spec, Z.pow2_bits_eqb by lia.
    case_decide; [subst; by rewrite Z.eqb_refl, orb_true_r|].
    rewrite (proj2 (Z.eqb_neq _ _)), orb_false_r by lia. done.
  - apply land_in_word; [lia|done|]. apply notw_in_word; [lia|].
    split; [lia|]. apply Z.pow_lt_mono_r; lia.
  - intros k Hk. rewrite Z.land_spec, notw_testbit, Z.pow2_bits_eqb by lia.
    destruct (Z.ltb_spec k 64); [|lia].
    case_decide; [subst; by rewrite Z.eqb_refl, andb_false_r|].
    rewrite (proj2 (Z.eqb_neq _ _)), andb_true_r by lia. done.
Qed.

Lemma fb_get_spec b i : fb_wf b -> 0 <= i < fb_len b ->
  fb_get i b = Ret (if fb_bit b i then 1 else 0) b.
Proof.
  intros Hwf Hi. destruct (fb_word b (i / 64) Hwf) as (w & Hw & Hww); [by apply fb_word_bounds|].
  pose proof (Z.mod_pos_bound i 64 ltac:(lia)).
  unfold fb_get, m_bind, m_idx, m_opt, fb_bit. rewrite Hw.
  destruct (Z.ltb_spec (fb_len b) i); [lia|]. unfold m_ret.
  rewrite bit_get_testbit; [done|apply Hww|done].
Qed.

Lemma testbit_fill (val : bool) k : 0 <= k < 64 -> Z.testbit (if val then usize_MAX else 0) k = val.
Proof.
  intros ?. destruct val; [|by rewrite Z.testbit_0_l].
  unfold usize_MAX. replace (2 ^ 64 - 1) with (Z.ones 64) by done. by apply Z.ones_spec_low.
Qed.

(** The word loop of [set_bits]: [n] words from word [q] on. *)
Lemma fb_set_words_spec val n : forall fuel b q,
  fb_wf b -> 0 <= q -> q + Z.of_nat n <= zlen (fb_map b) -> (n <= fuel)%nat ->
  exists b', fb_set_words fuel (q * 64) ((q + Z.of_nat n) * 64) val b = Ret tt b' /\
    fb_wf b' /\ fb_len b' = fb_len b /\
    forall j, 0 <= j ->
      fb_bit b' j = if decide (q * 64 <= j < (q + Z.of_nat n) * 64) then val else fb_bit b j.
Proof.
  induction n as [|n IH]; intros fuel b q Hwf Hq Hn Hf.
  { exists b. split_and!; try done.
    - replace (q + Z.of_nat 0) with q by lia. destruct fuel; simpl; by rewrite Z.leb_refl.
    - intros j ?. case_decide; [lia|done]. }
  destruct fuel as [|fuel]; [lia|]. simpl fb_set_words.
  destruct (Z.leb_spec ((q + Z.of_nat (S n)) * 64) (q * 64)); [lia|].
  rewrite Z.div_mul by lia.
  assert (in_word 64 (if val then usize_MAX else 0)) as Hw by (destruct val; unfold usize_MAX; split; lia).
  destruct (fb_store_spec b q _ Hwf ltac:(lia) Hw) as (E & Hwf' & Hb).
  rewrite (m_bind_Ret _ _ _ _ _ E).
  assert (zlen (fb_map b) < 2 ^ 57 + 1) as Hz.
  { destruct Hwf as (? & -> & _). apply Z.div_lt_upper_bound; lia. }
  rewrite wrap_small by (split; lia). replace (q * 64 + 64) with ((q + 1) * 64) by lia.
  replace (q + Z.of_nat (S n)) with (q + 1 + Z.of_nat n) by lia.
  destruct (IH fuel _ (q + 1) Hwf' ltac:(lia)) as (b' & E' & Hwf2 & Hl2 & Hb2).
  { simpl. rewrite zlen_zset. lia. } { lia. }
  exists b'. split_and!; [done|done|by rewrite Hl2|]. intros j Hj. rewrite Hb2, Hb by done.
  pose proof (Z.mod_pos_bound j 64 ltac:(lia)). pose proof (Z.div_mod j 64 ltac:(lia)).
  rewrite (testbit_fill val) by done.
  repeat case_decide; (done || lia).
Qed.

(** [FlexBitmap::set_bits] on an in-range request ([bit + len <= self.len], and either a
    single bit or a range whose ends are multiples of 64) does not panic, terminates, keeps the
    bitmap well-formed, and changes exactly the bits of [bit, bit+len), all to [val]. *)
Theorem flex_set_bits_spec b bit len val :
  fb_wf b -> 0 <= bit -> 0 <= len -> bit + len <= fb_len b ->
  len = 1 \/ bit mod 64 = 0 /\ (bit + len) mod 64 = 0 ->
  exists b', fb_set_bits bit len val b = Ret tt b' /\ fb_wf b' /\ fb_len b' = fb_len b /\
    forall j, 0 <= j < fb_len b ->
      fb_get j b' = Ret (if decide (bit <= j < bit + len) then (if val then 1 else 0)
                         else if fb_bit b j then 1 else 0) b'.
Proof.
  intros Hwf Hb Hl Hle Hal. pose proof Hwf as (Hlen & Hz & _).
  assert (forall b', fb_wf b' -> fb_len b' = fb_len b ->
    (forall j, 0 <= j -> fb_bit b' j = if decide (bit <= j < bit + len) then val else fb_bit b j) ->
    forall j, 0 <= j < fb_len b -> fb_get j b' = Ret (if decide (bit <= j < bit + len)
      then (if val then 1 else 0) else if fb_bit b j then 1 else 0) b') as Hget.
  { intros b' ? Hl' Hj j ?. rewrite fb_get_spec, Hj by (done || lia). by case_decide. }
  unfold fb_set_bits. rewrite wrap_small by (split; lia).
  destruct (Z.ltb_spec (fb_len b) (bit + len)); [lia|].
  destruct (Z.eqb_spec len 1) as [->|Hne].
  - destruct (fb_set_spec b bit val Hwf ltac:(lia)) as (b' & E & Hwf' & Hl' & Hbits).
    exists b'. split_and!; [done..|]. apply Hget; [done..|]. intros j ?. rewrite Hbits by done.
    repeat case_decide; (done || lia).
  - destruct Hal as [|[Ha Hb2]]; [done|]. rewrite Ha, Hb2.
    change (negb (0 =? 0) || negb (0 =? 0)) with false. cbv iota.
    set (q := bit / 64). set (n := Z.to_nat (len / 64)).
    assert (bit = q * 64) as Hq by (pose proof (Z.div_mod bit 64); lia).
    assert (len mod 64 = 0) as Hlm.
    { replace len with (bit + len - q * 64) by lia. by rewrite Zminus_mod, Hb2, Z.mod_mul. }
    assert (len = Z.of_nat n * 64) as Hn.
    { unfold n. rewrite Z2Nat.id by (apply Z.div_pos; lia). pose proof (Z.div_mod len 64). lia. }
    assert (q + Z.of_nat n <= zlen (fb_map b)) as Hqn.
    { rewrite Hz. apply Z.div_le_lower_bound; lia. }
    destruct (fb_set_words_spec val n (S (length (fb_map b))) b q) as (b' & E & Hwf' & Hl' & Hbits);
      [done|lia|done|unfold zlen in Hqn; lia|].
    replace ((q + Z.of_nat n) * 64) with (bit + len) in * by lia. rewrite <- Hq in *.
    exists b'. split_and!; [exact E|done|done|]. by apply Hget.
Qed.

Lemma flex_set_bits_spec_witness :
  exists b', fb_set_bits 64 128 true (fb_new 256) = Ret tt b' /\ fb_wf b' /\
    fb_len b' = fb_len (fb_new 256) /\
    forall j, 0 <= j < fb_len (fb_new 256) ->
      fb_get j b' = Ret (if decide (64 <= j < 64 + 128) then 1
                         else if fb_bit (fb_new 256) j then 1 else 0) b'.
Proof.
  apply (flex_set_bits_spec (fb_new 256) 64 128 true); [|lia|lia|simpl; lia|right; done].
  split_and!; simpl; [lia|lia|done|]. repeat constructor; simpl; lia.
Defined.

(** *** [first] *)

Lemma fb_lowest_spec fuel : forall tmp first, 0 < tmp < 2 ^ Z.of_nat fuel -> 0 <= first ->
  first + Z.of_nat fuel < 2 ^ 64 ->
  exists r, fb_lowest fuel tmp first = Some r /\ first <= r < first + Z.of_nat fuel /\
    Z.testbit tmp (r - first) = true /\ forall k, 0 <= k < r - first -> Z.testbit tmp k = false.
Proof.
  induction fuel as [|fuel IH]; intros tmp first Ht Hf Hw; [simpl in Ht; lia|].
  simpl fb_lowest.
  assert (Z.land tmp 1 = tmp mod 2) as -> by (change 1 with (Z.ones 1); by rewrite Z.land_ones, Z.pow_1_r).
  destruct (Z.eqb_spec (tmp mod 2) 0) as [E|E].
  - rewrite wrap_small by (split; lia). rewrite Z.shiftr_div_pow2, Z.pow_1_r by lia.
    pose proof (Z.div_mod tmp 2 ltac:(lia)).
    assert (forall k, 0 <= k -> Z.testbit tmp (k + 1) = Z.testbit (tmp / 2) k) as Hhalf.
    { intros k ?. symmetry. apply (Z.div_pow2_bits tmp 1 k); lia. }
    rewrite Nat2Z.inj_succ, Z.pow_succ_r in Ht by lia.
    destruct (IH (tmp / 2) (first + 1)) as (r & -> & Hr & Hb & Hlo); [lia..|].
    exists r. split_and!; [done|lia|lia| |].
    + replace (r - first) with (r - (first + 1) + 1) by lia. by rewrite Hhalf by lia.
    + intros k Hk. destruct (decide (k = 0)) as [->|].
      * rewrite Z.bit0_odd, Zodd_mod, E. done.
      * replace k with (k - 1 + 1) by lia. rewrite Hhalf by lia. apply Hlo. lia.
  - exists first. split_and!; [done|lia|lia| |].
    + replace (first - first) with 0 by lia. rewrite Z.bit0_odd, Zodd_mod.
      pose proof (Z.mod_pos_bound tmp 2 ltac:(lia)). apply Z.eqb_eq. lia.
    + intros k ?. lia.
Qed.

Lemma fb_first_from_spec l : forall first, Forall (in_word 64) l -> 0 <= first ->
  first + 64 * zlen l < 2 ^ 64 ->
  exists r, fb_first_from l first = Some r /\ first <= r <= first + 64 * zlen l /\
    (forall k, 0 <= k < r - first -> fb_bit (mkFlex 0 l) k = false) /\
    (r < first + 64 * zlen l -> fb_bit (mkFlex 0 l) (r - first) = true).
Proof.
  induction l as [|w l IH]; intros first Hf H0 Hw.
  { exists first. unfold zlen in *. simpl in *. split_and!; [done|lia|lia|intros; lia|lia]. }
  inversion Hf as [|? ? Hww Hl]; subst.
  assert (zlen (w :: l) = zlen l + 1) as Hz by (unfold zlen; simpl; lia).
  assert (forall k, 0 <= k < 64 -> fb_bit (mkFlex 0 (w :: l)) k = Z.testbit w k) as Hlow.
  { intros k ?. unfold fb_bit. simpl. by rewrite Z.div_small, Z.mod_small by lia. }
  assert (forall k, 64 <= k -> fb_bit (mkFlex 0 (w :: l)) k = fb_bit (mkFlex 0 l) (k - 64)) as Hhigh.
  { intros k ?. unfold fb_bit. simpl.
    assert (k / 64 = (k - 64) / 64 + 1) as -> by zdiv.
    assert (k mod 64 = (k - 64) mod 64) as -> by zdiv.
    assert (0 <= (k - 64) / 64) by zdiv.
    unfold zget. destruct (Z.leb_spec 0 ((k - 64) / 64 + 1)), (Z.leb_spec 0 ((k - 64) / 64)); try lia.
    by replace (Z.to_nat ((k - 64) / 64 + 1)) with (S (Z.to_nat ((k - 64) / 64))) by lia. }
  pose proof (zlen_nonneg l). cbn [fb_first_from]. destruct (Z.eqb_spec w 0) as [->|Hne].
  - rewrite wrap_small by (split; lia). destruct (IH (first + 64)) as (r & -> & Hr & Hlo & Hb); [done|lia..|].
    exists r. split_and!; [done|lia|lia| |].
    + intros k Hk. destruct (decide (k < 64)); [rewrite Hlow by lia; apply Z.testbit_0_l|].
      rewrite Hhigh by lia. apply Hlo. lia.
    + intros ?. rewrite Hhigh by lia. replace (r - first - 64) with (r - (first + 64)) by lia.
      apply Hb. lia.
  - unfold in_word in Hww. destruct (fb_lowest_spec 64 w first) as (r & -> & Hr & Hb & Hlo); [lia..|].
    exists r. split_and!; [done|lia|lia| |].
    + intros k ?. rewrite Hlow by lia. apply Hlo. lia.
    + intros ?. by rewrite Hlow by lia.
Qed.

(** [FlexBitmap::first] terminates and returns the position of the lowest bit that is
    ONE (its comment says zero), or 64 times the number of words when every word is zero. *)
Theorem flex_first_is_lowest_set b : fb_wf b ->
  exists r, fb_first b = Some r /\ 0 <= r <= 64 * zlen (fb_map b) /\
    (forall k, 0 <= k < r -> fb_bit b k = false) /\
    (r < 64 * zlen (fb_map b) -> fb_bit b r = true).
Proof.
  intros (Hlen & Hz & Hf).
  assert (64 * zlen (fb_map b) < 2 ^ 64) as Hb.
  { rewrite Hz. pose proof (Z.mul_div_le (fb_len b + 63) 64). lia. }
  destruct (fb_first_from_spec (fb_map b) 0 Hf) as (r & E & Hr & Hlo & Hhi); [lia|lia|].
  exists r. rewrite !Z.add_0_l, !Z.sub_0_r in *. split_and!; [done|lia|lia|done|done].
Qed.

Lemma flex_first_is_lowest_set_witness :
  let b := mkFlex 128 [0; 40] in
  fb_first b = Some 67 /\
  exists r, fb_first b = Some r /\ 0 <= r <= 64 * zlen (fb_map b) /\
    (forall k, 0 <= k < r -> fb_bit b k = false) /\
    (r < 64 * zlen (fb_map b) -> fb_bit b r = true).
Proof.
  split; [reflexivity|]. apply (flex_first_is_lowest_set (mkFlex 128 [0; 40])).
  split_and!; simpl; [lia|lia|done|]. repeat constructor; simpl; lia.
Defined.

(** The bound check of [get] is off by one: index [len] passes it. *)
Lemma flex_get_at_len : fb_get 64 (fb_new 64) = Fault OutOfBounds /\
  fb_get 10 (fb_new 10) = Ret 0 (fb_new 10).
Proof. split; reflexivity. Qed.
