(* ===== verification/FairQueue.v ===== *)
(** * FairQueue: the per-VM fair queue of [kernel/async_task.rs]

    A [FairQueue<T>] keeps one FIFO sub-queue per owner (a VM id) in a map, and a
    rotation list of the owners that have tasks.  The abstract model is the rotation
    itself: a list of (owner, non-empty FIFO); the concrete operations are proved to
    refine it, every waiting owner is served within one rotation, and [remove] is
    shown to break the rotation. *)
From stdpp Require Import gmap.
From S2P Require Import Prelude.

(** src: kernel/async_task.rs 71-74 [trait TaskOwner] *)
Class TaskOwner (T : Type) := owner : T -> Z.

(** src: kernel/async_task.rs 83-90 [FairQueue] *)
Record FairQueue (T : Type) := mkFQ {
  fq_len : Z;
  fq_map : gmap Z (list T);
  fq_queue : list Z;
}.
Arguments mkFQ {T}.
Arguments fq_len {T}.
Arguments fq_map {T}.
Arguments fq_queue {T}.

Section fair_queue.
Context {T : Type} `{TaskOwner T}.

(** src: kernel/async_task.rs 93-99 [FairQueue::new] *)
Definition fq_new : FairQueue T := mkFQ 0 ∅ [].

(** src: kernel/async_task.rs 102-104 [FairQueue::is_empty] *)
Definition fq_is_empty (q : FairQueue T) : bool := bool_decide (fq_map q = ∅).

(** src: kernel/async_task.rs 112-124 [FairQueue::push_back] *)
Definition fq_push_back (q : FairQueue T) (task : T) : FairQueue T :=
  let key := owner task in
  match fq_map q !! key with
  | Some sub => mkFQ (usize (fq_len q + 1)) (<[key := sub ++ [task]]> (fq_map q)) (fq_queue q)
  | None => mkFQ (usize (fq_len q + 1)) (<[key := [task]]> (fq_map q)) (fq_queue q ++ [key])
  end.

(** src: kernel/async_task.rs 127-144 [FairQueue::pop_front]
    When the rotated owner has no sub-queue the rotation entry is consumed all the
    same. *)
Definition fq_pop_front (q : FairQueue T) : option T * FairQueue T :=
  match fq_queue q with
  | [] => (None, q)
  | k :: rest =>
      match fq_map q !! k with
      | Some sub =>
          let res := head sub in
          let sub' := tail sub in
          match sub' with
          | _ :: _ =>
              (res, mkFQ (usize (fq_len q - 1)) (<[k := sub']> (fq_map q)) (rest ++ [k]))
          | [] => (res, mkFQ (usize (fq_len q - 1)) (delete k (fq_map q)) rest)
          end
      | None => (None, mkFQ (fq_len q) (fq_map q) rest)
      end
  end.

(** src: kernel/async_task.rs 147-155 [FairQueue::front] *)
Definition fq_front (q : FairQueue T) : option T :=
  match fq_queue q with
  | [] => None
  | k :: _ => match fq_map q !! k with Some sub => head sub | None => None end
  end.

(** src: kernel/async_task.rs 158-163 [FairQueue::remove]
    [extract_if] yields the elements it takes OUT, and the code assigns those to
    the rotation list. *)
Definition fq_remove (q : FairQueue T) (k : Z) : FairQueue T :=
  match fq_map q !! k with
  | Some sub =>
      mkFQ (usize (fq_len q - zlen sub)) (delete k (fq_map q)) (filter (fun x => x = k) (fq_queue q))
  | None => q
  end.

(** The waiting tasks of an owner, and their total number. *)
Definition fq_tasks (q : FairQueue T) (k : Z) : list T := default [] (fq_map q !! k).
Definition total (m : gmap Z (list T)) (l : list Z) : Z :=
  foldr (fun k acc => zlen (default [] (m !! k)) + acc) 0 l.

(** ** The representation invariant *)
Definition fq_wf (q : FairQueue T) : Prop :=
  NoDup (fq_queue q) /\
  (forall k, k ∈ fq_queue q <-> is_Some (fq_map q !! k)) /\
  (forall k l, fq_map q !! k = Some l -> l <> [] /\ Forall (fun t => owner t = k) l) /\
  fq_len q = usize (total (fq_map q) (fq_queue q)).

(** ** The abstract model: a rotation of owners with their FIFOs *)
Definition rotation : Type := list (Z * list T).

Fixpoint rot_push (r : rotation) (k : Z) (t : T) : rotation :=
  match r with
  | [] => [(k, [t])]
  | (k', l) :: r' => if decide (k = k') then (k', l ++ [t]) :: r' else (k', l) :: rot_push r' k t
  end.

Definition rot_pop (r : rotation) : option T * rotation :=
  match r with
  | (k, t :: l) :: r' => (Some t, match l with [] => r' | _ => r' ++ [(k, l)] end)
  | _ => (None, r)
  end.

Definition fq_abs (q : FairQueue T) : rotation :=
  (fun k => (k, fq_tasks q k)) <$> fq_queue q.

(** Client operations, and the outputs they observe. *)
Inductive fq_op := Push (t : T) | Pop | Front.

Definition fq_run (q : FairQueue T) (o : fq_op) : option T * FairQueue T :=
  match o with
  | Push t => (None, fq_push_back q t)
  | Pop => fq_pop_front q
  | Front => (fq_front q, q)
  end.

Definition rot_run (r : rotation) (o : fq_op) : option T * rotation :=
  match o with
  | Push t => (None, rot_push r (owner t) t)
  | Pop => rot_pop r
  | Front => (fst (rot_pop r), r)
  end.

Fixpoint trace {St : Type} (step : St -> fq_op -> option T * St) (s : St) (l : list fq_op)
  : list (option T) * St :=
  match l with
  | [] => ([], s)
  | o :: l' =>
      let '(out, s') := step s o in
      let '(outs, s'') := trace step s' l' in (out :: outs, s'')
  end.

(** ** Lemmas *)

Lemma total_insert_notin m l k x : k ∉ l -> total (<[k := x]> m) l = total m l.
Proof.
  induction l as [|k' l IH]; [done|]. intros Hn. simpl. rewrite elem_of_cons in Hn.
  rewrite lookup_insert_ne by naive_solver. rewrite IH by naive_solver. done.
Qed.

Lemma total_delete_notin m l k : k ∉ l -> total (delete k m) l = total m l.
Proof.
  induction l as [|k' l IH]; [done|]. intros Hn. simpl. rewrite elem_of_cons in Hn.
  rewrite lookup_delete_ne by naive_solver. rewrite IH by naive_solver. done.
Qed.

Lemma total_insert_in m l k x : NoDup l -> k ∈ l ->
  total (<[k := x]> m) l = total m l - zlen (default [] (m !! k)) + zlen x.
Proof.
  induction l as [|k' l IH]; intros Hnd Hk; [by apply elem_of_nil in Hk|].
  apply list.NoDup_cons in Hnd as [Hn Hnd]. simpl. destruct (decide (k = k')) as [->|Hne].
  - rewrite lookup_insert_eq, total_insert_notin by done. simpl. lia.
  - rewrite lookup_insert_ne by done. apply elem_of_cons in Hk as [|Hk]; [done|].
    rewrite IH by done. lia.
Qed.

Lemma total_app m l1 l2 : total m (l1 ++ l2) = total m l1 + total m l2.
Proof. induction l1 as [|k l IH]; simpl; [done|]. rewrite IH. lia. Qed.

Lemma usize_add_l a b : usize (usize a + b) = usize (a + b).
Proof. unfold wrap. by rewrite Zplus_mod_idemp_l. Qed.

Lemma fq_new_wf : fq_wf fq_new.
Proof.
  split_and!; simpl; [constructor| |by intros ? ?|done].
  intros k. split; [by intros ?%elem_of_nil|intros [? ?]; done].
Qed.

Lemma abs_notin (m : gmap Z (list T)) (l : list Z) k x :
  k ∉ l -> ((fun k' => (k', default [] (<[k := x]> m !! k'))) <$> l) =
           ((fun k' => (k', default [] (m !! k'))) <$> l).
Proof.
  intros Hn. apply list_fmap_ext. intros i k' Hk'. f_equal.
  rewrite lookup_insert_ne; [done|]. intros ->. apply Hn. by eapply list_elem_of_lookup_2.
Qed.

Lemma rot_push_app r1 r2 k t : k ∉ r1.*1 -> rot_push (r1 ++ r2) k t = r1 ++ rot_push r2 k t.
Proof.
  induction r1 as [|[k' l] r1 IH]; intros Hn; [done|]. simpl in *.
  rewrite elem_of_cons in Hn. rewrite decide_False by naive_solver. f_equal.
  apply IH. naive_solver.
Qed.

Lemma fq_abs_fst q : (fq_abs q).*1 = fq_queue q.
Proof. unfold fq_abs. rewrite <- list_fmap_compose. by apply list_fmap_id. Qed.

Lemma fq_push_refines q t : fq_wf q ->
  fq_wf (fq_push_back q t) /\ fq_abs (fq_push_back q t) = rot_push (fq_abs q) (owner t) t.
Proof.
  intros (Hnd & Hdom & Hsub & Hlen). unfold fq_push_back. set (k := owner t).
  destruct (fq_map q !! k) as [sub|] eqn:E.
  - assert (k ∈ fq_queue q) as Hk by (apply Hdom; eauto).
    destruct (Hsub k sub E) as [Hne Hall]. split.
    + split_and!; simpl; [done| | |].
      * intros k'. rewrite Hdom. destruct (decide (k = k')) as [->|];
          [rewrite lookup_insert_eq, E; naive_solver|by rewrite lookup_insert_ne].
      * intros k' l. destruct (decide (k = k')) as [<-|].
        -- rewrite lookup_insert_eq. intros [= <-]. split; [by destruct sub|].
           apply Forall_app. split; [done|by repeat constructor].
        -- rewrite lookup_insert_ne by done. apply Hsub.
      * rewrite total_insert_in, E, Hlen, usize_add_l by done. simpl. rewrite zlen_app.
        f_equal. change (zlen [t]) with 1. lia.
    + apply list_elem_of_split in Hk as (l1 & l2 & Hq). unfold fq_abs, fq_tasks. simpl.
      rewrite Hq, !fmap_app, !fmap_cons in *.
      apply list.NoDup_app in Hnd as (_ & Hd & Hnd2). apply list.NoDup_cons in Hnd2 as [Hn2 _].
      assert (k ∉ l1) as Hn1 by (intros Hc; apply (Hd k Hc); left).
      rewrite rot_push_app by (rewrite <- list_fmap_compose, list_fmap_id; done).
      rewrite !abs_notin by done. simpl. rewrite decide_True by done.
      by rewrite lookup_insert_eq, E.
  - assert (k ∉ fq_queue q) as Hk by (rewrite Hdom, E; by intros [? ?]).
    split.
    + split_and!; simpl.
      * apply list.NoDup_app. split_and!; [done| |apply NoDup_singleton].
        intros x Hx Hx2. apply list_elem_of_singleton in Hx2. by subst.
      * intros k'. rewrite elem_of_app, list_elem_of_singleton, Hdom.
        destruct (decide (k = k')) as [->|];
          [rewrite lookup_insert_eq; naive_solver|rewrite lookup_insert_ne by done; naive_solver].
      * intros k' l. destruct (decide (k = k')) as [<-|].
        -- rewrite lookup_insert_eq. intros [= <-]. split; [done|]. by repeat constructor.
        -- rewrite lookup_insert_ne by done. apply Hsub.
      * rewrite total_app, total_insert_notin, Hlen, usize_add_l by done. simpl.
        rewrite lookup_insert_eq. simpl. f_equal. 
    + unfold fq_abs, fq_tasks. simpl. rewrite fmap_app. simpl. rewrite lookup_insert_eq.
      rewrite abs_notin by done.
      rewrite <- (app_nil_r ((fun k0 => (k0, default [] (fq_map q !! k0))) <$> fq_queue q)) at 2.
      rewrite rot_push_app; [done|]. by rewrite <- list_fmap_compose, list_fmap_id.
Qed.

Lemma fq_pop_refines q : fq_wf q ->
  fq_wf (snd (fq_pop_front q)) /\ fst (fq_pop_front q) = fst (rot_pop (fq_abs q)) /\
  fq_abs (snd (fq_pop_front q)) = snd (rot_pop (fq_abs q)).
Proof.
  intros Hwf. pose proof Hwf as (Hnd & Hdom & Hsub & Hlen).
  unfold fq_pop_front, fq_abs, fq_tasks.
  destruct (fq_queue q) as [|k rest] eqn:Eq; simpl; [by rewrite Eq|].
  destruct (fq_map q !! k) as [sub|] eqn:E; [|exfalso].
  2: { assert (is_Some (fq_map q !! k)) as [? Hx] by (apply Hdom; left). congruence. }
  destruct (Hsub k sub E) as [Hne Hall]. destruct sub as [|t sub]; [done|]. simpl.
  apply list.NoDup_cons in Hnd as [Hn Hnd]. simpl in Hlen. rewrite E in Hlen. simpl in Hlen.
  assert (forall x y : Z, usize (usize x - y) = usize (x - y)) as Hsubw.
  { intros. unfold wrap. by rewrite Zminus_mod_idemp_l. }
  apply list.Forall_cons in Hall as [_ Hall].
  destruct sub as [|t2 sub]; simpl.
  - split; [split_and!|split]; simpl; try done.
    + intros k'. destruct (decide (k = k')) as [<-|].
      * rewrite lookup_delete_eq. split; [done|by intros [? ?]].
      * rewrite lookup_delete_ne, <- Hdom, elem_of_cons by done. naive_solver.
    + intros k' l. destruct (decide (k = k')) as [<-|]; [by rewrite lookup_delete_eq|].
      rewrite lookup_delete_ne by done. apply Hsub.
    + rewrite Hlen, Hsubw, total_delete_notin by done. f_equal. change (zlen [t]) with 1. lia.
    + apply list_fmap_ext. intros i k' Hk'. f_equal.
      rewrite lookup_delete_ne; [done|]. intros ->. apply Hn. by eapply list_elem_of_lookup_2.
  - split; [split_and!|split]; simpl; try done.
    + apply list.NoDup_app. split_and!; [done| |apply NoDup_singleton].
      intros x Hx Hx2. apply list_elem_of_singleton in Hx2. by subst.
    + intros k'. rewrite elem_of_app, list_elem_of_singleton. destruct (decide (k = k')) as [<-|].
      * rewrite lookup_insert_eq. naive_solver.
      * rewrite lookup_insert_ne, <- Hdom, elem_of_cons by done. naive_solver.
    + intros k' l. destruct (decide (k = k')) as [<-|]; [|rewrite lookup_insert_ne by done; apply Hsub].
      rewrite lookup_insert_eq. by intros [= <-].
    + rewrite Hlen, Hsubw, total_app, total_insert_notin by done. simpl. rewrite lookup_insert_eq.
      simpl. unfold zlen. simpl. f_equal. lia.
    + rewrite fmap_app. simpl. rewrite lookup_insert_eq. rewrite abs_notin by done. done.
Qed.

Lemma fq_front_abs q : fq_wf q -> fq_front q = fst (rot_pop (fq_abs q)).
Proof.
  intros (_ & Hdom & Hsub & _). unfold fq_front, fq_abs, fq_tasks.
  destruct (fq_queue q) as [|k rest]; [done|]. simpl.
  destruct (fq_map q !! k) as [[|t l]|] eqn:E; simpl; [by destruct (Hsub k _ E)|done|].
  assert (is_Some (fq_map q !! k)) as [? Hx] by (apply Hdom; left). congruence.
Qed.

Lemma fq_run_refines q o : fq_wf q ->
  fq_wf (snd (fq_run q o)) /\ fst (fq_run q o) = fst (rot_run (fq_abs q) o) /\
  fq_abs (snd (fq_run q o)) = snd (rot_run (fq_abs q) o).
Proof.
  intros Hwf. destruct o as [t| |]; simpl.
  - destruct (fq_push_refines q t Hwf). done.
  - by apply fq_pop_refines.
  - split_and!; [done|by apply fq_front_abs|done].
Qed.

Lemma trace_refines l : forall q, fq_wf q ->
  fst (trace fq_run q l) = fst (trace rot_run (fq_abs q) l) /\ fq_wf (snd (trace fq_run q l)).
Proof.
  induction l as [|o l IH]; intros q Hwf; [done|]. simpl.
  destruct (fq_run_refines q o Hwf) as (Hwf' & Hout & Habs).
  destruct (fq_run q o) as [out q'], (rot_run (fq_abs q) o) as [out2 r']. simpl in *. subst.
  destruct (IH q' Hwf') as [Ho Hw].
  destruct (trace fq_run q' l), (trace rot_run (fq_abs q') l). simpl in *. by subst.
Qed.

(** C29. The fair queue refines the rotation model: on every sequence of [push_back],
    [pop_front] and [front] calls from the empty queue, the outputs are those of the
    rotation of per-owner FIFOs, and the representation invariant (the rotation list
    has no duplicates and holds exactly the owners with tasks, no sub-queue is empty,
    [len] counts the tasks) holds at the end. *)
Theorem fair_queue_refines_rotation (l : list fq_op) :
  fst (trace fq_run fq_new l) = fst (trace rot_run [] l) /\ fq_wf (snd (trace fq_run fq_new l)).
Proof. apply (trace_refines l fq_new fq_new_wf). Qed.

(** *** Fairness *)

Fixpoint pops (l : list fq_op) : nat :=
  match l with [] => O | Pop :: l' => S (pops l') | _ :: l' => pops l' end.

(** [k] waits at position [i] of the rotation with [t] as its next task. *)
Definition waiting (q : FairQueue T) (i : nat) (k : Z) (t : T) : Prop :=
  fq_wf q /\ fq_queue q !! i = Some k /\ head (fq_tasks q k) = Some t.

Lemma push_waiting q i k t x : waiting q i k t -> waiting (fq_push_back q x) i k t.
Proof.
  intros (Hwf & Hi & Ht). split; [by apply fq_push_refines|].
  unfold fq_push_back, fq_tasks in *.
  destruct (fq_map q !! owner x) as [sub|] eqn:E; simpl.
  - split; [done|]. destruct (decide (owner x = k)) as [<-|].
    + rewrite lookup_insert_eq, E in *. by destruct sub.
    + by rewrite lookup_insert_ne.
  - split; [by apply lookup_app_l_Some|]. rewrite lookup_insert_ne; [done|].
    intros <-. by rewrite E in Ht.
Qed.

Lemma pop_waiting q i k t : waiting q (S i) k t -> waiting (snd (fq_pop_front q)) i k t.
Proof.
  intros (Hwf & Hi & Ht). split; [by apply fq_pop_refines|].
  destruct Hwf as (Hnd & Hdom & Hsub & _). unfold fq_pop_front, fq_tasks in *.
  destruct (fq_queue q) as [|k0 rest] eqn:Eq; [done|]. simpl in Hi.
  apply list.NoDup_cons in Hnd as [Hn _].
  assert (k0 <> k) as Hne by (intros ->; apply Hn; by eapply list_elem_of_lookup_2).
  destruct (fq_map q !! k0) as [sub|] eqn:E; [|done].
  destruct (tail sub) as [|t2 sub']; simpl.
  - by rewrite lookup_delete_ne.
  - rewrite lookup_insert_ne by done. split; [by apply lookup_app_l_Some|done].
Qed.

(** Fairness: an owner at position [i] of the rotation is served within one rotation.
    Whatever pushes and reads are interleaved, after exactly [i] pops it is at the front
    and the next [pop_front] returns its oldest task. *)
Theorem fair_queue_serves_in_turn q i k t (l : list fq_op) :
  fq_wf q -> fq_queue q !! i = Some k -> head (fq_tasks q k) = Some t -> pops l = i ->
  fst (fq_pop_front (snd (trace fq_run q l))) = Some t.
Proof.
  intros Hwf Hi Ht Hp. assert (waiting q i k t) as Hw by done. clear Hwf Hi Ht.
  revert q i Hw Hp. induction l as [|o l IH]; intros q i Hw Hp.
  - simpl in *. subst i. destruct Hw as (Hwf & Hi & Ht). unfold fq_pop_front, fq_tasks in *.
    destruct (fq_queue q) as [|k0 rest]; [done|]. injection Hi as ->.
    destruct (fq_map q !! k) as [[|t' sub]|]; [done| |done]. simpl in *.
    injection Ht as ->. by destruct sub.
  - simpl. destruct (fq_run q o) as [out q'] eqn:E.
    enough (exists i', waiting q' i' k t /\ pops l = i') as (i' & Hw' & Hp').
    { specialize (IH q' i' Hw' Hp'). by destruct (trace fq_run q' l). }
    destruct o as [x| |]; simpl in *.
    + injection E as <- <-. exists i. split; [by apply push_waiting|done].
    + destruct i as [|i]; [done|]. exists i. split; [|congruence].
      apply pop_waiting in Hw. by rewrite E in Hw.
    + injection E as <- <-. by exists i.
Qed.

(** *** [remove] *)

(** [k] has tasks but is not in the rotation, and every sub-queue holds its owner's tasks. *)
Definition stranded (q : FairQueue T) (k : Z) : Prop :=
  (k ∉ fq_queue q) /\ is_Some (fq_map q !! k) /\
  (forall k' l, fq_map q !! k' = Some l -> Forall (fun t => owner t = k') l).

Lemma stranded_step q k o : stranded q k ->
  stranded (snd (fq_run q o)) k /\ (forall t, fst (fq_run q o) = Some t -> owner t <> k).
Proof.
  intros (Hn & [ks Hk] & Hall). destruct o as [x| |]; simpl.
  - split; [|done]. unfold fq_push_back.
    destruct (fq_map q !! owner x) as [sub|] eqn:E; split_and!; simpl; try done.
    + destruct (decide (owner x = k)) as [<-|];
        [rewrite lookup_insert_eq; by eexists|rewrite lookup_insert_ne, Hk by done; by eexists].
    + intros k' l. destruct (decide (owner x = k')) as [<-|];
        [|rewrite lookup_insert_ne by done; apply Hall].
      rewrite lookup_insert_eq. intros [= <-]. apply Forall_app.
      split; [by apply Hall|by repeat constructor].
    + rewrite elem_of_app, list_elem_of_singleton. intros [?|?]; [done|congruence].
    + rewrite lookup_insert_ne, Hk; [by eexists|congruence].
    + intros k' l. destruct (decide (owner x = k')) as [<-|];
        [|rewrite lookup_insert_ne by done; apply Hall].
      rewrite lookup_insert_eq. intros [= <-]. by repeat constructor.
  - unfold fq_pop_front. destruct (fq_queue q) as [|k0 rest] eqn:Eq.
    { split; [|done]. split_and!; simpl; [by rewrite Eq|by eexists|done]. }
    apply list.not_elem_of_cons in Hn as [Hne Hn].
    destruct (fq_map q !! k0) as [sub|] eqn:E; simpl; [|split; [split_and!; simpl|]; eauto].
    pose proof (Hall k0 sub E) as Hs. assert (forall t, head sub = Some t -> owner t <> k).
    { destruct sub; [done|]. simpl. intros ? [= <-]. inversion Hs. congruence. }
    destruct sub as [|t0 [|t1 sub]]; simpl in *; (split; [|done]); split_and!; simpl.
    + done.
    + rewrite lookup_delete_ne, Hk by done. by eexists.
    + intros k' l. rewrite lookup_delete_Some. intros [_ ?]. by apply Hall.
    + done.
    + rewrite lookup_delete_ne, Hk by done. by eexists.
    + intros k' l. rewrite lookup_delete_Some. intros [_ ?]. by apply Hall.
    + rewrite elem_of_app, list_elem_of_singleton. intros [?|?]; [done|congruence].
    + rewrite lookup_insert_ne, Hk by done. by eexists.
    + intros k' l. destruct (decide (k0 = k')) as [<-|];
        [|rewrite lookup_insert_ne by done; apply Hall].
      rewrite lookup_insert_eq. intros [= <-]. by inversion Hs.
  - split; [by split_and!; [|eexists|]|]. unfold fq_front. intros t.
    destruct (fq_queue q) as [|k0 rest]; [done|]. apply list.not_elem_of_cons in Hn as [Hne _].
    destruct (fq_map q !! k0) as [[|t' sub]|] eqn:E; simpl; try done.
    intros [= <-]. apply Hall in E. inversion E. congruence.
Qed.

Lemma stranded_trace l : forall q k t, stranded q k ->
  Some t ∈ fst (trace fq_run q l) -> owner t <> k.
Proof.
  induction l as [|o l IH]; intros q k t Hs; simpl; [by intros ?%elem_of_nil|].
  destruct (stranded_step q k o Hs) as [Hs' Ho]. destruct (fq_run q o) as [out q']. simpl in *.
  pose proof (IH q' k t Hs'). destruct (trace fq_run q' l) as [outs q'']. simpl in *.
  rewrite elem_of_cons. intros [<-|]; [by apply Ho|by auto].
Qed.

(** What [remove] leaves: the rotation holds only the removed owner. *)
Lemma fq_remove_shape q k :
  fq_wf q -> k ∈ fq_queue q ->
  fq_queue (fq_remove q k) = [k] /\ fq_map (fq_remove q k) = delete k (fq_map q).
Proof.
  intros (Hnd & Hdom & _) Hk. destruct (proj1 (Hdom k) Hk) as [s E].
  unfold fq_remove. rewrite E. simpl. split; [|done]. clear -Hnd Hk.
  apply list_elem_of_split in Hk as (l1 & l2 & Hq). rewrite Hq in *.
  apply list.NoDup_app in Hnd as (_ & Hd & Hnd2). apply list.NoDup_cons in Hnd2 as [Hn2 _].
  assert (forall l : list Z, k ∉ l -> filter (fun x => x = k) l = []) as Hf.
  { intros l Hl. induction l as [|y l IH]; [done|].
    rewrite filter_cons, decide_False by (intros ->; apply Hl; left).
    apply IH. intros ?. apply Hl. by right. }
  rewrite list.filter_app, filter_cons_True, !Hf by (try done; intros Hc; apply (Hd k Hc); left). done.
Qed.

(** [FairQueue::remove] strands every other owner.  Removing [k] from a well-formed
    queue leaves the rotation equal to [[k]] (the owner that was removed): the queue is
    not empty, [front] is [None], and for every other owner [k'] with waiting tasks no
    later sequence of pushes and pops ever returns a task of [k']. *)
Theorem fair_queue_remove_strands_others q k k' :
  fq_wf q -> k ∈ fq_queue q -> k' ∈ fq_queue q -> k' <> k ->
  let q' := fq_remove q k in
  fq_queue q' = [k] /\ fq_is_empty q' = false /\ fq_front q' = None /\ fq_tasks q' k' <> [] /\
  forall l t, Some t ∈ fst (trace fq_run q' l) -> owner t <> k'.
Proof.
  intros Hwf Hk Hk' Hne q'.
  destruct (fq_remove_shape q k Hwf Hk) as [Eq Em].
  destruct Hwf as (_ & Hdom & Hsub & _). destruct (proj1 (Hdom k') Hk') as [s' E'].
  assert (fq_map q' !! k' = Some s') as Ek' by (unfold q'; rewrite Em, lookup_delete_ne; done).
  split_and!; [done| | | |].
  - apply bool_decide_eq_false. intros Hc. by rewrite Hc in Ek'.
  - unfold fq_front, q'. by rewrite Eq, Em, lookup_delete_eq.
  - unfold fq_tasks. rewrite Ek'. simpl. by destruct (Hsub k' s' E').
  - intros l t. apply (stranded_trace l q' k' t). split_and!.
    + unfold q'. rewrite Eq, list_elem_of_singleton. done.
    + by eexists.
    + intros k0 l0. unfold q'. rewrite Em, lookup_delete_Some. intros [_ Hl]. by apply Hsub in Hl as [_ ?].
Qed.
End fair_queue.

#[export] Instance pair_owner : TaskOwner (Z * nat) := fst.

Lemma fair_queue_serves_in_turn_witness :
  let q := snd (trace fq_run fq_new [Push (1, 10%nat); Push (2, 20%nat); Push (1, 11%nat)]) in
  fst (fq_pop_front (snd (trace fq_run q [Push (3, 30%nat); Pop; Front]))) = Some (2, 20%nat).
Proof.
  apply (fair_queue_serves_in_turn _ 1 2 (2, 20%nat) [Push (3, 30%nat); Pop; Front]);
    [|vm_compute; reflexivity|vm_compute; reflexivity|reflexivity].
  apply (trace_refines [Push (1, 10%nat); Push (2, 20%nat); Push (1, 11%nat)] fq_new fq_new_wf).
Defined.

Lemma fair_queue_remove_strands_others_witness :
  let q := snd (trace fq_run fq_new [Push (1, 10%nat); Push (2, 20%nat)]) in
  let q' := fq_remove q 1 in
  fq_queue q' = [1] /\ fq_is_empty q' = false /\ fq_front q' = None /\ fq_tasks q' 2 <> [] /\
  forall l t, Some t ∈ fst (trace fq_run q' l) -> owner t <> 2.
Proof.
  apply (fair_queue_remove_strands_others
           (snd (trace fq_run fq_new [Push (1, 10%nat); Push (2, 20%nat)])) 1 2).
  - apply (trace_refines [Push (1, 10%nat); Push (2, 20%nat)] fq_new fq_new_wf).
  - vm_compute. left.
  - vm_compute. right. left.
  - lia.
Defined.
