(* ===== verification/AsyncTask.v ===== *)
(** * AsyncTask: the block-I/O task executor of [kernel/async_task.rs]

    Guest block requests travel as asynchronous tasks: an IPI task makes the service
    VM (VM 0) parse the guest's virtqueue, which creates one I/O task per request;
    the executor [async_task_exe] starts the front I/O task, and the completion
    handler marks it finished and runs the executor again.

    A task carries [Arc<Mutex<AsyncTaskState>>]: [front().clone()] shares that cell with the
    queued task.  The model keeps the cells in a store ([cells]) and a task holds a
    reference, so the aliasing is the code's.  The devices are outside this component:
    what the executor does to them is logged in order ([log]); the requests that
    the virtqueue holds for a message are the parameter [parse]. *)
From stdpp Require Import gmap.
From S2P Require Import Prelude FairQueue.

(** src: kernel/async_task.rs 26-30 [AsyncTaskState] *)
Inductive AsyncTaskState := Pending | Running | Finish.

(** src: kernel/async_task.rs 32-35 [UsedInfo] *)
Record UsedInfo := mkUsed { desc_chain_head_idx : Z; used_len : Z }.

(** src: device/virtio/blk.rs 131-134 [BlkIov] *)
Record BlkIov := mkBlkIov { data_bg : Z; iov_len : Z }.

(** src: kernel/async_task.rs 38-48 [IoAsyncMsg]
    Queues and devices are named by their identity. *)
Record IoAsyncMsg := mkIoMsg {
  io_src_vmid : Z; io_vq : Z; io_dev : Z; io_type : Z; io_blk_id : Z;
  io_sector : Z; io_count : Z; io_cache : Z; io_iov_list : list BlkIov;
}.

(** src: kernel/async_task.rs 51-54 [IoIdAsyncMsg] *)
Record IoIdAsyncMsg := mkIoIdMsg { id_vq : Z; id_dev : Z }.

(** src: kernel/ipi.rs 88-92 [IpiMediatedMsg] *)
Record IpiMediatedMsg := mkMediated { med_src_vm : Z; med_vq : Z; med_blk : Z }.

(** src: kernel/async_task.rs 175-179 [AsyncTaskData] *)
Inductive AsyncTaskData :=
  | AsyncIpiTask (m : IpiMediatedMsg)
  | AsyncIoTask (m : IoAsyncMsg)
  | AsyncNoneTask (m : IoIdAsyncMsg).

(** Which [async fn] the task was created with. *)
Inductive future_kind := FIpiReq | FBlkIoReq | FBlkIdReq.

(** src: kernel/async_task.rs 191-199 [AsyncTask]
    [state_ref] is the shared cell that holds the task's state. *)
Record AsyncTask := mkTask {
  task_data : AsyncTaskData; src_vmid : Z; state_ref : positive; task_fut : future_kind;
}.

(** src: kernel/async_task.rs 201-205 [impl TaskOwner for AsyncTask] *)
#[export] Instance AsyncTask_owner : TaskOwner AsyncTask := src_vmid.

(** src: kernel/async_task.rs 57-60 [AsyncExeStatus] *)
Inductive AsyncExeStatus := ExePending | ExeScheduling.

(** What the executor does to the devices, in order. *)
Inductive dev_event :=
  | EvIpiSend (target : Z) (m : IpiMediatedMsg)
  | EvBlkRead (blk_id sector count : Z)
  | EvBlkWrite (blk_id sector count : Z)
  | EvMemcpy (dst src len : Z)
  | EvUsedRing (vq len idx : Z)
  | EvNotify (dev : Z).

(** src: kernel/async_task.rs 62-69 [the ASYNC_* statics] *)
Record AState := mkA {
  exe_status : AsyncExeStatus;
  ipi_list : list AsyncTask;
  io_list : FairQueue AsyncTask;
  used_info : gmap Z (list UsedInfo);
  cells : gmap positive AsyncTaskState;
  next_cell : positive;      (** the next unused cell *)
  log : list dev_event;
}.

Definition with_status st s := mkA st (ipi_list s) (io_list s) (used_info s) (cells s) (next_cell s) (log s).
Definition with_ipi l s := mkA (exe_status s) l (io_list s) (used_info s) (cells s) (next_cell s) (log s).
Definition with_io q s := mkA (exe_status s) (ipi_list s) q (used_info s) (cells s) (next_cell s) (log s).
Definition with_used u s := mkA (exe_status s) (ipi_list s) (io_list s) u (cells s) (next_cell s) (log s).
Definition with_cells c s := mkA (exe_status s) (ipi_list s) (io_list s) (used_info s) c (next_cell s) (log s).
Definition emit (e : dev_event) : M AState unit := fun s =>
  Ret tt (mkA (exe_status s) (ipi_list s) (io_list s) (used_info s) (cells s) (next_cell s) (log s ++ [e])).

Definition VIRTIO_BLK_T_IN : Z := 0.
Definition VIRTIO_BLK_T_OUT : Z := 1.

(** src: kernel/async_task.rs 249-252 [AsyncTask::set_state] *)
Definition task_set_state (t : AsyncTask) (st : AsyncTaskState) : M AState unit :=
  m_modify (fun s => with_cells (<[state_ref t := st]> (cells s)) s).

(** src: kernel/async_task.rs 292-310 [async_blk_io_req copy loop]
    Copy the guest buffers to the cache, one after the other. *)
Fixpoint copy_to_cache (iovs : list BlkIov) (cache_ptr : Z) : M AState unit :=
  match iovs with
  | [] => m_ret tt
  | v :: iovs' =>
      if (cache_ptr <? 4096) || (data_bg v <? 4096) then m_fault ExplicitPanic
      else emit (EvMemcpy cache_ptr (data_bg v) (iov_len v)) >>;
           copy_to_cache iovs' (usize (cache_ptr + iov_len v))
  end.

(** src: kernel/async_task.rs 443-462 [finish_async_task copy loop]
    Copy the cache to the guest buffers; the address check applies when tracing is on. *)
Fixpoint copy_from_cache (trace : bool) (iovs : list BlkIov) (cache_ptr : Z) : M AState unit :=
  match iovs with
  | [] => m_ret tt
  | v :: iovs' =>
      if trace && ((data_bg v <? 4096) || (cache_ptr <? 4096)) then m_fault ExplicitPanic
      else emit (EvMemcpy (data_bg v) cache_ptr (iov_len v)) >>;
           copy_from_cache trace iovs' (usize (cache_ptr + iov_len v))
  end.

(** src: kernel/async_task.rs 281-320 [async_blk_io_req] *)
Definition async_blk_io_req : M AState unit :=
  let! s := m_get in
  if fq_is_empty (io_list s) then m_fault ExplicitPanic
  else
    let! task := m_opt UnwrapNone (fq_front (io_list s)) in
    match task_data task with
    | AsyncIoTask msg =>
        if io_type msg =? VIRTIO_BLK_T_IN then
          emit (EvBlkRead (io_blk_id msg) (io_sector msg) (io_count msg))
        else if io_type msg =? VIRTIO_BLK_T_OUT then
          copy_to_cache (io_iov_list msg) (io_cache msg) >>;
          emit (EvBlkWrite (io_blk_id msg) (io_sector msg) (io_count msg))
        else m_fault ExplicitPanic
    | _ => m_ret tt
    end.

(** src: kernel/async_task.rs 497-508 [update_used_info] *)
Definition update_used_info (vq vmid : Z) : M AState unit := fun s =>
  match used_info s !! vmid with
  | Some [] => Fault UnwrapNone
  | Some (info :: rest) =>
      emit (EvUsedRing vq (used_len info) (desc_chain_head_idx info))
           (with_used (<[vmid := rest]> (used_info s)) s)
  | None => Ret tt s
  end.

(** src: kernel/async_task.rs 478-495 [push_used_info] *)
Definition push_used_info (idx len vmid : Z) : M AState unit := fun s =>
  match used_info s !! vmid with
  | Some l => Ret tt (with_used (<[vmid := l ++ [mkUsed idx len]]> (used_info s)) s)
  | None => Ret tt s
  end.

(** src: kernel/async_task.rs 510-513 [add_async_used_info] *)
Definition add_async_used_info (vmid : Z) : M AState unit :=
  m_modify (fun s => with_used (<[vmid := []]> (used_info s)) s).

(** src: kernel/async_task.rs 515-518 [remove_async_used_info] *)
Definition remove_async_used_info (vmid : Z) : M AState unit :=
  m_modify (fun s => with_used (delete vmid (used_info s)) s).

(** src: kernel/async_task.rs 324-334 [set_front_io_task_state] *)
Definition set_front_io_task_state (st : AsyncTaskState) : M AState unit :=
  let! s := m_get in
  match fq_front (io_list s) with
  | None => m_fault ExplicitPanic
  | Some t => task_set_state t st
  end.

(** Pop the front task of the chosen list. *)
Definition pop_task (ipi : bool) : M AState AsyncTask := fun s =>
  if ipi then
    match ipi_list s with
    | [] => Fault ExplicitPanic
    | t :: l => Ret t (with_ipi l s)
    end
  else
    match fq_pop_front (io_list s) with
    | (None, _) => Fault ExplicitPanic
    | (Some t, q) => Ret t (with_io q s)
    end.

(** src: kernel/async_task.rs 427-476 [finish_async_task] *)
Definition finish_async_task (trace ipi : bool) : M AState unit :=
  let! task := pop_task ipi in
  match task_data task with
  | AsyncIoTask args =>
      (if io_type args =? VIRTIO_BLK_T_IN
       then copy_from_cache trace (io_iov_list args) (io_cache args) else m_ret tt) >>;
      update_used_info (io_vq args) (src_vmid task) >>;
      emit (EvNotify (io_dev args))
  | AsyncIpiTask _ => m_ret tt
  | AsyncNoneTask args =>
      update_used_info (id_vq args) (src_vmid task) >>;
      emit (EvNotify (id_dev args))
  end.

(** src: kernel/async_task.rs 520-527 [remove_vm_async_task]
    [extract_if] again yields the tasks taken out, which become the new list. *)
Definition remove_vm_async_task (vmid : Z) : M AState unit :=
  m_modify (fun s =>
    with_ipi (filter (fun t => src_vmid t = vmid) (ipi_list s))
      (with_io (fq_remove (io_list s) vmid) s)).

(** src: device/virtio/blk.rs 193-203 [VirtioBlkReqNode]
    One request of the guest, parsed from a descriptor chain. *)
Record ReqNode := mkNode {
  rn_req_type : Z; rn_sector : Z; rn_desc_chain_head_idx : Z;
  rn_iov : list BlkIov; rn_iov_sum_up : Z; rn_iov_total : Z;
}.

(** src: device/virtio/blk.rs 136-148 [VirtioBlkReq and BlkReqRegion]
    The device's window on the disk, with what the requests need of the VM and of its
    mediated block device. *)
Record BlkReq := mkBlkReq {
  region_start : Z; region_size : Z; mediated : bool; med_blk_id : Z; cache_pa : Z;
}.

Definition SECTOR_BSIZE : Z := 512.
(** The address of the string constant ["virtio-blk"]. *)
Definition name_ptr : Z := 0.

(** src: kernel/async_task.rs 215-226 [AsyncTask::new]
    A new task owns a fresh cell, initially [Pending]. *)
Definition new_task (data : AsyncTaskData) (vmid : Z) (fut : future_kind) : M AState AsyncTask :=
  fun s =>
    let r := next_cell s in
    Ret (mkTask data vmid r fut)
        (mkA (exe_status s) (ipi_list s) (io_list s) (used_info s)
             (<[r := Pending]> (cells s)) (Pos.succ r) (log s)).

Section executor.
(** [active_vm_id]: the VM of the vCPU running on this core, constant during a call;
    [trace]: the address-check switch of [utils::trace]. *)
Context (active_vm_id : Z) (trace : bool).
(** The virtqueue parser of [virtio_blk_notify_handler]: the requests it finds for a
    message in the current state, or [None] when it gives up with an error. *)
Context (parse : IpiMediatedMsg -> AState -> option (list ReqNode)).
(** The block device behind a message. *)
Context (blk_cfg : IpiMediatedMsg -> BlkReq).

(** src: kernel/async_task.rs 337-368 [add_async_task]
    [exe] is the executor.  A guest core that finds 1024 queued IPI tasks sleeps until
    another core drains the list; with no other core in the model it waits for ever
    ([FuelOut]). *)
Definition add_async_task (exe : M AState unit) (task : AsyncTask) (ipi : bool) : M AState unit :=
  m_modify (fun s => if ipi then with_ipi (ipi_list s ++ [task]) s
                     else with_io (fq_push_back (io_list s) task) s) >>;
  let! s := m_get in
  let need_execute :=
    (zlen (ipi_list s) =? 1) && fq_is_empty (io_list s) && negb (active_vm_id =? 0) &&
    (match exe_status s with ExePending => true | ExeScheduling => false end) in
  if (active_vm_id =? 0) || (zlen (ipi_list s) <? 1024) then
    if need_execute then exe else m_ret tt
  else m_fault FuelOut.

(** src: device/virtio/blk.rs 272-297 [generate_blk_req read loop]
    The buffers of a request that is not mediated are copied; [cache_ptr] moves on. *)
Fixpoint blk_copy (med to_guest : bool) (iovs : list BlkIov) (cache_ptr : Z) : M AState Z :=
  match iovs with
  | [] => m_ret cache_ptr
  | v :: iovs' =>
      if iov_len v <? SECTOR_BSIZE then blk_copy med to_guest iovs' cache_ptr
      else
        (if med then m_ret tt
         else if trace && ((data_bg v <? 4096) || (cache_ptr <? 4096)) then m_fault ExplicitPanic
         else if to_guest then emit (EvMemcpy (data_bg v) cache_ptr (iov_len v))
         else emit (EvMemcpy cache_ptr (data_bg v) (iov_len v))) >>;
        blk_copy med to_guest iovs' (usize (cache_ptr + iov_len v))
  end.

(** src: device/virtio/blk.rs 249-270 [generate_blk_req mediated request]
    Queue the I/O task of a read ([io = VIRTIO_BLK_T_IN]) or a write. *)
Definition blk_queue_io (exe : M AState unit) (req : BlkReq) (msg : IpiMediatedMsg) (io : Z)
    (node : ReqNode) : M AState unit :=
  if mediated req then
    let! task := new_task
      (AsyncIoTask (mkIoMsg (med_src_vm msg) (med_vq msg) (med_blk msg) io (med_blk_id req)
         (usize (rn_sector node + region_start req)) (rn_iov_sum_up node / SECTOR_BSIZE)
         (cache_pa req) (rn_iov node))) (med_src_vm msg) FBlkIoReq in
    add_async_task exe task false
  else m_fault ExplicitPanic.   (* todo!() *)

(** src: device/virtio/blk.rs 232-391 [generate_blk_req loop body]
    [Some cache_ptr'] continues with the used-ring record, [None] is [continue]. *)
Definition blk_do_node (exe : M AState unit) (req : BlkReq) (msg : IpiMediatedMsg)
    (node : ReqNode) (cache_ptr : Z) : M AState (option Z) :=
  if usize (region_start req + region_size req) <?
     usize (rn_sector node + rn_iov_sum_up node / SECTOR_BSIZE)
  then m_ret None
  else if rn_req_type node =? VIRTIO_BLK_T_IN then
    blk_queue_io exe req msg VIRTIO_BLK_T_IN node >>;
    let! c := blk_copy (mediated req) true (rn_iov node) cache_ptr in m_ret (Some c)
  else if rn_req_type node =? VIRTIO_BLK_T_OUT then
    let! c := blk_copy (mediated req) false (rn_iov node) cache_ptr in
    blk_queue_io exe req msg VIRTIO_BLK_T_OUT node >>; m_ret (Some c)
  else if rn_req_type node =? 4 then m_fault ExplicitPanic   (* VIRTIO_BLK_T_FLUSH: todo!() *)
  else if rn_req_type node =? 8 then                          (* VIRTIO_BLK_T_GET_ID *)
    let! v := m_idx (rn_iov node) 0 in
    (if trace && (data_bg v <? 4096) then m_fault ExplicitPanic
     else emit (EvMemcpy (data_bg v) name_ptr 20)) >>;
    let! task := new_task (AsyncNoneTask (mkIoIdMsg (med_vq msg) (med_blk msg)))
                   (med_src_vm msg) FBlkIdReq in
    task_set_state task Finish >>;
    add_async_task exe task false >>;
    m_ret (Some cache_ptr)
  else m_ret None.

(** src: device/virtio/blk.rs 221-392 [generate_blk_req] *)
Fixpoint generate_blk_req (exe : M AState unit) (req : BlkReq) (msg : IpiMediatedMsg)
    (nodes : list ReqNode) (cache_ptr : Z) : M AState unit :=
  match nodes with
  | [] => m_ret tt
  | node :: nodes' =>
      let! r := blk_do_node exe req msg node cache_ptr in
      match r with
      | None => generate_blk_req exe req msg nodes' cache_ptr
      | Some c =>
          (if negb (mediated req) then m_fault ExplicitPanic   (* todo!() *)
           else push_used_info (rn_desc_chain_head_idx node) (u32 (rn_iov_total node))
                  (med_src_vm msg)) >>;
          generate_blk_req exe req msg nodes' c
      end
  end.

(** src: device/virtio/blk.rs 544-559 [virtio_blk_notify_handler tail] *)
Definition blk_notify (exe : M AState unit) (msg : IpiMediatedMsg) : M AState unit :=
  let! s := m_get in
  match parse msg s with
  | None => m_ret tt
  | Some nodes =>
      let req := blk_cfg msg in
      if negb (mediated req) then m_fault ExplicitPanic   (* unimplemented!() *)
      else generate_blk_req exe req msg nodes (cache_pa req)
  end.

(** src: kernel/async_task.rs 256-276 [async_ipi_req] *)
Definition async_ipi_req (exe : M AState unit) : M AState unit :=
  let! s := m_get in
  match ipi_list s with
  | [] => m_fault ExplicitPanic
  | task :: _ =>
      match task_data task with
      | AsyncIpiTask msg =>
          if active_vm_id =? 0 then blk_notify exe msg else emit (EvIpiSend 0 msg)
      | _ => m_ret tt
      end
  end.

(** The first poll of the task's future runs its [async fn] to completion. *)
Definition poll (exe : M AState unit) (t : AsyncTask) : M AState unit :=
  match task_fut t with
  | FIpiReq => async_ipi_req exe
  | FBlkIoReq => async_blk_io_req
  | FBlkIdReq => m_ret tt
  end.

(** src: kernel/async_task.rs 229-247 [AsyncTask::handle] *)
Definition handle (exe : M AState unit) (t : AsyncTask) : M AState bool :=
  let! s := m_get in
  match cells s !! state_ref t with
  | Some Pending => task_set_state t Running >>; poll exe t >>; m_ret false
  | Some Running => m_ret false
  | Some Finish => m_ret true
  | None => m_fault UnwrapNone   (* a task always has its cell *)
  end.

(** src: kernel/async_task.rs 371-380 [async_task_exe guard]
    The guard of the executor around its loop: on the service VM it does not nest. *)
Definition async_task_exe_with (loop : M AState unit) : M AState unit :=
  let! s := m_get in
  if active_vm_id =? 0 then
    match exe_status s with
    | ExePending => m_modify (with_status ExeScheduling) >>; loop
    | ExeScheduling => m_ret tt
    end
  else loop.

(** What one turn of the executor loop runs: the front I/O task, else the front IPI
    task. *)
Inductive turn := TurnNone | TurnIpi (t : AsyncTask) | TurnIo (t : AsyncTask).
Definition next_turn : M AState turn :=
  let! s := m_get in
  if fq_is_empty (io_list s) then
    m_ret (match ipi_list s with task :: _ => TurnIpi task | [] => TurnNone end)
  else let! task := m_opt UnwrapNone (fq_front (io_list s)) in m_ret (TurnIo task).

(** src: kernel/async_task.rs 382-424 [async_task_exe loop] *)
Fixpoint exe_loop (fuel : nat) : M AState unit :=
  match fuel with
  | O => m_fault FuelOut
  | S fuel' =>
      let run (ipi : bool) (task : AsyncTask) : M AState unit :=
        let! finished := handle (async_task_exe_with (exe_loop fuel')) task in
        if finished || (ipi && (active_vm_id =? 0)) then
          finish_async_task trace ipi >>;
          (if negb (active_vm_id =? 0) then m_ret tt else exe_loop fuel')
        else m_modify (with_status ExePending)
      in
      let! t := next_turn in
      match t with
      | TurnNone => m_modify (with_status ExePending)
      | TurnIpi task => run true task
      | TurnIo task => run false task
      end
  end.

(** src: kernel/async_task.rs 371-425 [async_task_exe] *)
Definition async_task_exe (fuel : nat) : M AState unit := async_task_exe_with (exe_loop fuel).

(** src: device/virtio/mediated.rs 236-250 [mediated_ipi_handler] *)
Definition mediated_ipi_handler (fuel : nat) (msg : IpiMediatedMsg) : M AState unit :=
  blk_notify (async_task_exe fuel) msg >>; finish_async_task trace true >>; async_task_exe fuel.

(** src: device/virtio/mediated.rs 210-233 [mediated_blk_notify_handler]
    The completion hypercall of the service VM, once the block device was found;
    [avail] is its flag. *)
Definition mediated_blk_complete (fuel : nat) (avail : bool) : M AState unit :=
  (if negb avail then set_front_io_task_state Finish else m_ret tt) >>; async_task_exe fuel.

(** src: device/virtio/blk.rs 397-414 [virtio_mediated_blk_notify_handler] *)
Definition virtio_mediated_blk_notify_handler (fuel : nat) (msg : IpiMediatedMsg)
  : M AState unit :=
  let! task := new_task (AsyncIpiTask msg) (med_src_vm msg) FIpiReq in
  add_async_task (async_task_exe fuel) task true.
End executor.

(** ** Lemmas *)

(** All queued I/O tasks, in rotation order. *)
Definition fq_all {T} `{TaskOwner T} (q : FairQueue T) : list T := concat (fq_abs q).*2.

Lemma rot_push_all {T} `{TaskOwner T} (r : rotation) k (t : T) :
  concat (rot_push r k t).*2 ≡ₚ t :: concat r.*2.
Proof.
  induction r as [|[k' l] r IH]; [done|]. simpl. case_decide; simpl.
  - rewrite <- app_assoc. simpl. by rewrite <- Permutation_middle.
  - rewrite IH. by rewrite Permutation_middle.
Qed.

Lemma fq_all_push {T} `{TaskOwner T} (q : FairQueue T) t :
  fq_wf q -> fq_all (fq_push_back q t) ≡ₚ t :: fq_all q.
Proof.
  intros Hwf. unfold fq_all. destruct (fq_push_refines q t Hwf) as [_ ->]. apply rot_push_all.
Qed.

Lemma fq_all_pop {T} `{TaskOwner T} (q : FairQueue T) t q' :
  fq_wf q -> fq_pop_front q = (Some t, q') ->
  fq_wf q' /\ fq_front q = Some t /\ fq_all q ≡ₚ t :: fq_all q'.
Proof.
  intros Hwf E. destruct (fq_pop_refines q Hwf) as (Hwf' & Ho & Ha). rewrite E in *. simpl in *.
  split; [done|]. rewrite fq_front_abs by done. split; [done|]. unfold fq_all. rewrite Ha.
  destruct (fq_abs q) as [|[k [|t' l]] r]; simpl in *; simplify_eq/=.
  destruct l; simpl; [done|]. rewrite fmap_app, concat_app. simpl. rewrite app_nil_r.
  apply Permutation_skip. rewrite (Permutation_app_comm (concat r.*2)). done.
Qed.

Lemma fq_front_in {T} `{TaskOwner T} (q : FairQueue T) t :
  fq_wf q -> fq_front q = Some t -> t ∈ fq_all q.
Proof.
  intros Hwf. rewrite fq_front_abs by done. unfold fq_all.
  destruct (fq_abs q) as [|[k [|t' l]] r]; simpl; try done. intros [= ->]. left.
Qed.

Lemma fq_front_push {T} `{TaskOwner T} (q : FairQueue T) t t' :
  fq_wf q -> fq_front q = Some t' -> fq_front (fq_push_back q t) = Some t'.
Proof.
  intros Hwf. destruct (fq_push_refines q t Hwf) as [Hwf' E].
  rewrite !fq_front_abs, E by done. destruct (fq_abs q) as [|[k [|t0 l]] r]; simpl; try done.
  by case_decide.
Qed.

Lemma fq_push_not_empty {T} `{TaskOwner T} (q : FairQueue T) t :
  fq_is_empty (fq_push_back q t) = false.
Proof.
  unfold fq_is_empty, fq_push_back. apply bool_decide_eq_false.
  destruct (fq_map q !! owner t); simpl; apply insert_non_empty.
Qed.

(** *** The executor invariant: only the front I/O task can be running. *)
Definition all_tasks (s : AState) : list AsyncTask := fq_all (io_list s) ++ ipi_list s.

Record a_inv (s : AState) : Prop := {
  ai_wf : fq_wf (io_list s);
  ai_nodup : NoDup (state_ref <$> all_tasks s);
  ai_cells : forall t, t ∈ all_tasks s -> is_Some (cells s !! state_ref t);
  ai_fresh : forall r, is_Some (cells s !! r) -> (r < next_cell s)%positive;
  ai_front : forall t, t ∈ fq_all (io_list s) -> cells s !! state_ref t = Some Running ->
             fq_front (io_list s) = Some t;
}.

(** Two states that agree on the queues and the cells satisfy the invariant together. *)
Definition same_tasks (s s' : AState) : Prop :=
  io_list s' = io_list s /\ ipi_list s' = ipi_list s /\ cells s' = cells s /\
  next_cell s' = next_cell s.

Lemma a_inv_same s s' : same_tasks s s' -> a_inv s -> a_inv s'.
Proof.
  intros (Hio & Hipi & Hc & Hn) [H1 H2 H3 H4 H5].
  split; unfold all_tasks in *; rewrite ?Hio, ?Hipi, ?Hc, ?Hn; done.
Qed.

(** A program that only touches the log, the used lists and the status. *)
Definition m_frames {A} (m : M AState A) : Prop := forall s a s', m s = Ret a s' -> same_tasks s s'.

Lemma frames_keeps {A} (m : M AState A) : m_frames m -> m_keeps a_inv m.
Proof. intros Hm s a s' Hs E. eapply a_inv_same; [by eapply Hm|done]. Qed.

Lemma frames_bind {A B} (m : M AState A) (k : A -> M AState B) :
  m_frames m -> (forall a, m_frames (k a)) -> m_frames (m_bind m k).
Proof.
  intros Hm Hk s b s'' (a & s' & E & E')%m_bind_inv.
  destruct (Hm _ _ _ E) as (A1 & A2 & A3 & A4), (Hk _ _ _ _ E') as (B1 & B2 & B3 & B4).
  unfold same_tasks. by rewrite B1, B2, B3, B4.
Qed.

Lemma frames_emit e : m_frames (emit e).
Proof. by intros s a s' [= <- <-]. Qed.

Lemma frames_ret {A} (a : A) : m_frames (m_ret a).
Proof. by intros s a' s' [= <- <-]. Qed.

Lemma frames_fault {A} f : m_frames (A := A) (m_fault f).
Proof. by intros s a' s' ?. Qed.

#[export] Hint Resolve frames_emit frames_ret frames_fault frames_bind : keeps.

Lemma frames_if {A} (b : bool) (m1 m2 : M AState A) :
  m_frames m1 -> m_frames m2 -> m_frames (if b then m1 else m2).
Proof. by destruct b. Qed.
#[export] Hint Resolve frames_if : keeps.

Lemma frames_copy_to l : forall c, m_frames (copy_to_cache l c).
Proof. induction l; simpl; auto with keeps. Qed.

Lemma frames_copy_from tr l : forall c, m_frames (copy_from_cache tr l c).
Proof. induction l; simpl; auto with keeps. Qed.

Lemma frames_update_used vq vm : m_frames (update_used_info vq vm).
Proof.
  intros s a s'. unfold update_used_info.
  destruct (used_info s !! vm) as [[|i l]|]; [done| |by intros [= <- <-]]. by intros [= <- <-].
Qed.

Lemma frames_push_used i l vm : m_frames (push_used_info i l vm).
Proof.
  intros s a s'. unfold push_used_info. destruct (used_info s !! vm); by intros [= <- <-].
Qed.

Lemma frames_blk_copy tr med dir l : forall c, m_frames (blk_copy tr med dir l c).
Proof. induction l; simpl; auto 8 with keeps. Qed.

Lemma frames_status st : m_frames (m_modify (with_status st)).
Proof. by intros s a s' [= <- <-]. Qed.

Lemma frames_blk_io_req : m_frames async_blk_io_req.
Proof.
  intros s a s'. unfold async_blk_io_req, m_bind, m_get.
  destruct (fq_is_empty (io_list s)); [done|]. destruct (fq_front (io_list s)) as [t|]; [|done].
  simpl. destruct (task_data t); [by intros [= <- <-]| |by intros [= <- <-]].
  apply frames_if; [apply frames_emit|]. apply frames_if; [|done].
  apply frames_bind; [apply frames_copy_to|intros; apply frames_emit].
Qed.
#[export] Hint Resolve frames_copy_to frames_copy_from frames_update_used frames_push_used
  frames_blk_copy frames_status frames_blk_io_req frames_keeps : keeps.

(** Queueing a new task with a fresh cell. *)
Definition queue_new (ipi : bool) (t : AsyncTask) (st : AsyncTaskState) (s : AState) : AState :=
  mkA (exe_status s)
    (if ipi then ipi_list s ++ [t] else ipi_list s)
    (if ipi then io_list s else fq_push_back (io_list s) t)
    (used_info s) (<[state_ref t := st]> (cells s)) (Pos.succ (state_ref t)) (log s).

Lemma a_inv_cell_neq s t r : a_inv s -> t ∈ all_tasks s -> ~ (r < next_cell s)%positive ->
  state_ref t <> r.
Proof. intros Hi Ht Hr <-. apply Hr, (ai_fresh s Hi), (ai_cells s Hi), Ht. Qed.

Lemma a_inv_queue_new ipi d vm fut st s :
  a_inv s -> st <> Running -> a_inv (queue_new ipi (mkTask d vm (next_cell s) fut) st s).
Proof.
  intros Hi Hst. set (t := mkTask d vm (next_cell s) fut).
  assert (forall x, x ∈ all_tasks s -> state_ref x <> next_cell s) as Hne.
  { intros x Hx. apply (a_inv_cell_neq s x); [done..|lia]. }
  assert (all_tasks (queue_new ipi t st s) ≡ₚ t :: all_tasks s) as Hall.
  { unfold all_tasks, queue_new. destruct ipi; simpl.
    - rewrite app_assoc. by rewrite Permutation_app_comm.
    - by rewrite fq_all_push by apply Hi. }
  assert (forall x, x ∈ all_tasks s -> cells (queue_new ipi t st s) !! state_ref x =
    cells s !! state_ref x) as Hc.
  { intros x Hx. simpl. rewrite lookup_insert_ne; [done|]. by apply not_eq_sym, Hne. }
  split.
  - destruct ipi; simpl; [apply Hi|]. apply fq_push_refines, Hi.
  - rewrite Hall, fmap_cons. apply list.NoDup_cons. split; [|apply Hi].
    intros (x & Hx & Hin)%list_elem_of_fmap. by apply (Hne x Hin).
  - intros x. rewrite Hall. intros [->|Hx]%elem_of_cons.
    + simpl. rewrite lookup_insert_eq. by eexists.
    + rewrite Hc by done. by apply Hi.
  - simpl. intros r [y Hy]. destruct (decide (next_cell s = r)) as [<-|]; [lia|].
    rewrite lookup_insert_ne in Hy by done.
    assert (r < next_cell s)%positive by (apply (ai_fresh s Hi); by eexists). lia.
  - intros x Hx Hr. destruct ipi; simpl io_list in *.
    + assert (x ∈ all_tasks s) as Hx2 by (apply elem_of_app; by left).
      rewrite Hc in Hr by done. by apply (ai_front s Hi).
    + rewrite fq_all_push in Hx by apply Hi. apply elem_of_cons in Hx as [->|Hx].
      * simpl in Hr. rewrite lookup_insert_eq in Hr. congruence.
      * assert (x ∈ all_tasks s) as Hx2 by (apply elem_of_app; by left).
        rewrite Hc in Hr by done. apply fq_front_push; [apply Hi|]. by apply (ai_front s Hi).
Qed.

(** Changing a queued task's cell: to [Running] only for an IPI task or the front I/O task. *)
Lemma a_inv_set_cell s t st :
  a_inv s -> t ∈ all_tasks s ->
  (st = Running -> t ∈ ipi_list s \/ fq_front (io_list s) = Some t) ->
  a_inv (with_cells (<[state_ref t := st]> (cells s)) s).
Proof.
  intros Hi Ht Hst.
  assert (forall x y, x ∈ all_tasks s -> y ∈ all_tasks s -> state_ref x = state_ref y -> x = y) as Hinj.
  { intros x y Hx Hy E. pose proof (ai_nodup s Hi) as Hnd.
    apply list_elem_of_lookup in Hx as [i Hx], Hy as [j Hy].
    assert (i = j) as ->; [|congruence].
    eapply (NoDup_lookup _ _ _ (state_ref x) Hnd); rewrite list_lookup_fmap.
    - by rewrite Hx. - rewrite Hy. simpl. by rewrite E. }
  assert (all_tasks (with_cells (<[state_ref t := st]> (cells s)) s) = all_tasks s) as Hall by done.
  split; rewrite ?Hall; try apply Hi.
  - intros x Hx. simpl. destruct (decide (state_ref t = state_ref x)) as [->|];
      [rewrite lookup_insert_eq; by eexists|rewrite lookup_insert_ne by done; by apply Hi].
  - simpl. intros r [y Hy]. destruct (decide (state_ref t = r)) as [<-|].
    + by apply (ai_fresh s Hi), (ai_cells s Hi).
    + rewrite lookup_insert_ne in Hy by done. apply (ai_fresh s Hi). by eexists.
  - simpl. intros x Hx. assert (x ∈ all_tasks s) as Hx2 by (apply elem_of_app; by left).
    destruct (decide (state_ref t = state_ref x)) as [E|].
    + rewrite E, lookup_insert_eq. intros [= ->].
      assert (t = x) as -> by (by apply Hinj). destruct (Hst eq_refl) as [Hipi|]; [|done].
      exfalso. pose proof (ai_nodup s Hi) as Hnd. unfold all_tasks in Hnd.
      rewrite fmap_app in Hnd. apply list.NoDup_app in Hnd as (_ & Hd & _).
      apply (Hd (state_ref x)); by apply list_elem_of_fmap_2.
    + rewrite lookup_insert_ne by done. by apply (ai_front s Hi).
Qed.

(** Removing tasks keeps the invariant when the front condition survives. *)
Lemma a_inv_pop ipi t s s' : a_inv s -> pop_task ipi s = Ret t s' ->
  (ipi = false -> fq_front (io_list s) = Some t) /\ a_inv s'.
Proof.
  intros Hi. unfold pop_task. destruct ipi.
  - destruct (ipi_list s) as [|t' l] eqn:E; [done|]. intros [= -> <-]. split; [done|].
    assert (all_tasks s ≡ₚ t :: all_tasks (with_ipi l s)) as Hall.
    { unfold all_tasks. rewrite E. simpl. by rewrite Permutation_middle. }
    pose proof Hi as [H1 H2 H3 H4 H5]. rewrite Hall, fmap_cons in H2.
    apply list.NoDup_cons in H2 as [_ H2]. split; try done.
    intros x Hx. apply H3. rewrite Hall. by right.
  - destruct (fq_pop_front (io_list s)) as [[t'|] q] eqn:E; [|done]. intros [= -> <-].
    destruct (fq_all_pop _ _ _ (ai_wf s Hi) E) as (Hwf & Hf & Hp). split; [done|].
    assert (all_tasks s ≡ₚ t :: all_tasks (with_io q s)) as Hall.
    { unfold all_tasks. simpl. by rewrite Hp. }
    pose proof Hi as [H1 H2 H3 H4 H5]. rewrite Hall, fmap_cons in H2.
    apply list.NoDup_cons in H2 as [Hn H2]. split; try done.
    + intros x Hx. apply H3. rewrite Hall. by right.
    + simpl. intros x Hx Hr. exfalso.
      assert (fq_front (io_list s) = Some x) as Hfx by (apply H5; [rewrite Hp; by right|done]).
      rewrite Hf in Hfx. injection Hfx as <-. apply Hn. apply list_elem_of_fmap_2.
      unfold all_tasks. simpl. apply elem_of_app. by left.
Qed.

(** *** Every entry point keeps the invariant *)

Section keeps_a_inv.
Context (vmid : Z) (trace : bool)
        (parse : IpiMediatedMsg -> AState -> option (list ReqNode))
        (blk_cfg : IpiMediatedMsg -> BlkReq).

(** Queueing a fresh task whose cell holds [st]. *)
Lemma add_new_task_inv exe d vm fut st ipi s :
  m_keeps a_inv exe -> st <> Running -> a_inv s ->
  forall a s',
  add_async_task vmid exe (mkTask d vm (next_cell s) fut) ipi
    (mkA (exe_status s) (ipi_list s) (io_list s) (used_info s)
       (<[next_cell s := st]> (cells s)) (Pos.succ (next_cell s)) (log s)) = Ret a s' ->
  a_inv s'.
Proof.
  intros Hexe Hst Hi a s'.
  pose proof (a_inv_queue_new ipi d vm fut st s Hi Hst) as Hq.
  unfold add_async_task, m_bind at 1, m_modify.
  match goal with |- context [m_bind m_get _ ?s2] =>
    assert (a_inv s2) as Hs2; [by destruct ipi|clear Hq; generalize dependent s2] end.
  intros s2 Hs2. unfold m_bind, m_get. case_match; [|done]. case_match.
  - by apply Hexe.
  - by intros [= _ <-].
Qed.

Lemma keeps_queue_io exe req msg io node :
  m_keeps a_inv exe -> m_keeps a_inv (blk_queue_io vmid exe req msg io node).
Proof.
  intros Hexe s a s' Hs. unfold blk_queue_io. destruct (mediated req); [|done].
  unfold m_bind, new_task. by apply add_new_task_inv.
Qed.

Lemma keeps_do_node exe req msg node c :
  m_keeps a_inv exe -> m_keeps a_inv (blk_do_node vmid trace exe req msg node c).
Proof.
  intros Hexe. unfold blk_do_node. assert (Hq := keeps_queue_io exe req msg).
  apply keeps_if; [auto with keeps|]. apply keeps_if; [auto 8 with keeps|].
  apply keeps_if; [auto 8 with keeps|]. apply keeps_if; [auto with keeps|].
  apply keeps_if; [|auto with keeps].
  apply keeps_bind; [unfold m_idx; auto with keeps|]. intros v.
  apply keeps_bind; [auto with keeps|]. intros _.
  intros s a s' Hs. unfold m_bind at 1, new_task. intros E.
  apply m_bind_inv in E as ([] & s1 & [= <-] & E).
  apply m_bind_inv in E as ([] & s2 & E & [= _ <-]).
  eapply (add_new_task_inv exe _ _ _ Finish false s); [done..|].
  unfold with_cells in E. simpl in E. rewrite insert_insert_eq in E. exact E.
Qed.

Lemma keeps_generate exe req msg nodes : forall c,
  m_keeps a_inv exe -> m_keeps a_inv (generate_blk_req vmid trace exe req msg nodes c).
Proof.
  induction nodes as [|node nodes IH]; intros c Hexe; simpl; [auto with keeps|].
  apply keeps_bind; [by apply keeps_do_node|]. intros [c'|]; [|by apply IH].
  apply keeps_bind; [auto with keeps|]. intros _. by apply IH.
Qed.

Lemma keeps_blk_notify exe msg :
  m_keeps a_inv exe -> m_keeps a_inv (blk_notify vmid trace parse blk_cfg exe msg).
Proof.
  intros Hexe. apply keeps_get. intros s a s' Hs. destruct (parse msg s); [|by intros [= _ <-]].
  simpl. destruct (negb _); [done|]. by apply keeps_generate.
Qed.

Lemma keeps_poll exe t : m_keeps a_inv exe -> m_keeps a_inv (poll vmid trace parse blk_cfg exe t).
Proof.
  intros Hexe. unfold poll. destruct (task_fut t); [|auto with keeps|auto with keeps].
  apply keeps_get. intros s a s' Hs. destruct (ipi_list s) as [|t' l]; [done|].
  destruct (task_data t'); [|by intros [= _ <-]..]. destruct (vmid =? 0).
  - by apply keeps_blk_notify.
  - by apply frames_keeps; [apply frames_emit|].
Qed.

Lemma handle_inv exe t s a s' :
  m_keeps a_inv exe -> a_inv s ->
  t ∈ ipi_list s \/ fq_front (io_list s) = Some t ->
  handle vmid trace parse blk_cfg exe t s = Ret a s' -> a_inv s'.
Proof.
  intros Hexe Hs Ht. unfold handle, m_bind at 1, m_get.
  destruct (cells s !! state_ref t) as [[]|]; try by intros [= _ <-].
  unfold task_set_state. intros ([] & s1 & [= <-] & E)%m_bind_inv.
  apply m_bind_inv in E as ([] & s2 & E & [= _ <-]).
  eapply keeps_poll; [done| |exact E]. apply a_inv_set_cell; [done| |done].
  apply elem_of_app. destruct Ht as [|Ht]; [by right|left].
  apply fq_front_in; [apply Hs|done].
Qed.

Lemma keeps_finish ipi : m_keeps a_inv (finish_async_task trace ipi).
Proof.
  intros s a s' Hs (t & s1 & Hp & E)%m_bind_inv.
  apply a_inv_pop in Hp as [_ Hs1]; [|done].
  eapply (frames_keeps (A := unit)); [|exact Hs1|exact E].
  destruct (task_data t); auto with keeps.
Qed.

Lemma keeps_exe_with loop : m_keeps a_inv loop -> m_keeps a_inv (async_task_exe_with vmid loop).
Proof.
  intros Hl. apply keeps_get. intros s a s' Hs. destruct (vmid =? 0); [|by apply Hl].
  destruct (exe_status s); [|by intros [= _ <-]].
  apply keeps_bind; [auto with keeps|auto|done].
Qed.

Lemma next_turn_inv s t s' : next_turn s = Ret t s' -> s' = s /\
  match t with
  | TurnNone => io_list s = io_list s /\ fq_is_empty (io_list s) = true /\ ipi_list s = []
  | TurnIpi t => fq_is_empty (io_list s) = true /\ exists l, ipi_list s = t :: l
  | TurnIo t => fq_is_empty (io_list s) = false /\ fq_front (io_list s) = Some t
  end.
Proof.
  unfold next_turn, m_bind, m_get. destruct (fq_is_empty (io_list s)) eqn:E.
  - destruct (ipi_list s) eqn:E2; intros [= <- <-]; eauto.
  - destruct (fq_front (io_list s)) eqn:E2; [|done]. simpl. intros [= <- <-]. done.
Qed.

Lemma keeps_exe_loop fuel : m_keeps a_inv (exe_loop vmid trace parse blk_cfg fuel).
Proof.
  induction fuel as [|fuel IH]; [by intros s a s' ?|].
  assert (forall ipi t s a s', a_inv s -> t ∈ ipi_list s \/ fq_front (io_list s) = Some t ->
    (let! finished := handle vmid trace parse blk_cfg
        (async_task_exe_with vmid (exe_loop vmid trace parse blk_cfg fuel)) t in
     if finished || (ipi && (vmid =? 0)) then
       finish_async_task trace ipi >>;
       (if negb (vmid =? 0) then m_ret tt else exe_loop vmid trace parse blk_cfg fuel)
     else m_modify (with_status ExePending)) s = Ret a s' -> a_inv s') as Hrun.
  { intros ipi t s a s' Hs Ht (fin & s1 & Hh & E)%m_bind_inv.
    apply handle_inv in Hh; [|by apply keeps_exe_with|done..].
    revert E. apply keeps_if; [|auto with keeps|done].
    apply keeps_bind; [apply keeps_finish|]. intros _. auto with keeps. }
  intros s a s' Hs E. cbn [exe_loop] in E. apply m_bind_inv in E as (t & s1 & Hn & E).
  apply next_turn_inv in Hn as [-> Ht]. destruct t as [|t|t].
  - eapply (frames_keeps (m_modify (with_status ExePending))); [auto with keeps|exact Hs|exact E].
  - destruct Ht as (_ & l & Hl). eapply Hrun; [exact Hs| |exact E]. left. rewrite Hl. by left.
  - destruct Ht as [_ Ht]. eapply Hrun; [exact Hs| |exact E]. by right.
Qed.

Lemma keeps_async_task_exe fuel : m_keeps a_inv (async_task_exe vmid trace parse blk_cfg fuel).
Proof. apply keeps_exe_with, keeps_exe_loop. Qed.

Lemma keeps_set_front st : st <> Running -> m_keeps a_inv (set_front_io_task_state st).
Proof.
  intros Hst. apply keeps_get. intros s a s' Hs. destruct (fq_front (io_list s)) as [t|] eqn:E; [|done].
  intros [= _ <-]. apply a_inv_set_cell; [done| |by right].
  apply elem_of_app. left. apply fq_front_in; [apply Hs|done].
Qed.

Lemma keeps_ipi_handler fuel msg :
  m_keeps a_inv (mediated_ipi_handler vmid trace parse blk_cfg fuel msg).
Proof.
  apply keeps_bind; [apply keeps_blk_notify, keeps_async_task_exe|]. intros _.
  apply keeps_bind; [apply keeps_finish|]. intros _. apply keeps_async_task_exe.
Qed.

Lemma keeps_complete fuel avail :
  m_keeps a_inv (mediated_blk_complete vmid trace parse blk_cfg fuel avail).
Proof.
  apply keeps_bind; [|intros _; apply keeps_async_task_exe].
  apply keeps_if; [by apply keeps_set_front|auto with keeps].
Qed.

Lemma keeps_mediated_notify fuel msg :
  m_keeps a_inv (virtio_mediated_blk_notify_handler vmid trace parse blk_cfg fuel msg).
Proof.
  intros s a s' Hs. unfold virtio_mediated_blk_notify_handler, m_bind at 1, new_task.
  apply add_new_task_inv; [apply keeps_async_task_exe|done..].
Qed.
End keeps_a_inv.

(** ** The executor as a state machine *)

(** One entry into this component from outside: a mediated IPI received by the service VM, the
    completion hypercall, a guest's queue notification, a plain run of the executor, or the
    creation of a VM's used-ring list.  [vmid] is the VM active on the core. *)
Inductive a_step (trace : bool) (parse : IpiMediatedMsg -> AState -> option (list ReqNode))
    (blk_cfg : IpiMediatedMsg -> BlkReq) : AState -> AState -> Prop :=
  | StepIpi vmid fuel msg s s' :
      mediated_ipi_handler vmid trace parse blk_cfg fuel msg s = Ret tt s' ->
      a_step trace parse blk_cfg s s'
  | StepComplete vmid fuel avail s s' :
      mediated_blk_complete vmid trace parse blk_cfg fuel avail s = Ret tt s' ->
      a_step trace parse blk_cfg s s'
  | StepNotify vmid fuel msg s s' :
      virtio_mediated_blk_notify_handler vmid trace parse blk_cfg fuel msg s = Ret tt s' ->
      a_step trace parse blk_cfg s s'
  | StepExe vmid fuel s s' :
      async_task_exe vmid trace parse blk_cfg fuel s = Ret tt s' ->
      a_step trace parse blk_cfg s s'
  | StepAddVm vm s s' :
      add_async_used_info vm s = Ret tt s' -> a_step trace parse blk_cfg s s'.

Definition a_init : AState := mkA ExePending [] fq_new ∅ ∅ 1 [].

Inductive a_reachable (trace : bool) parse blk_cfg : AState -> Prop :=
  | ReachInit : a_reachable trace parse blk_cfg a_init
  | ReachStep s s' : a_reachable trace parse blk_cfg s -> a_step trace parse blk_cfg s s' ->
      a_reachable trace parse blk_cfg s'.

Lemma a_inv_init : a_inv a_init.
Proof.
  split; try done.
  - apply fq_new_wf.
  - constructor.
  - intros t Ht. by apply elem_of_nil in Ht.
  - intros r [x Hx]. done.
Qed.

Lemma a_reachable_inv trace parse blk_cfg s : a_reachable trace parse blk_cfg s -> a_inv s.
Proof.
  induction 1 as [|s s' _ IH Hs]; [apply a_inv_init|]. inversion Hs; subst.
  - by eapply keeps_ipi_handler.
  - by eapply keeps_complete.
  - by eapply keeps_mediated_notify.
  - by eapply keeps_async_task_exe.
  - eapply (frames_keeps (add_async_used_info vm)); [|done..]. by intros ??? [= <- <-].
Qed.

(** C4. At most one block request is in flight.  In every state reachable by the entry
    points (IPIs, completions, notifications, executor runs, on any core and with any guest
    requests), an I/O task whose state is [Running] is the one [front()] returns; so two
    running I/O tasks are the same task, and the completion handler, which marks the front
    task [Finish], marks the request that was in fact issued. *)
Theorem io_in_flight_is_front trace parse blk_cfg s t :
  a_reachable trace parse blk_cfg s ->
  t ∈ fq_all (io_list s) -> cells s !! state_ref t = Some Running ->
  fq_front (io_list s) = Some t /\
  (forall t', t' ∈ fq_all (io_list s) -> cells s !! state_ref t' = Some Running -> t' = t) /\
  exists s', set_front_io_task_state Finish s = Ret tt s' /\
             cells s' = <[state_ref t := Finish]> (cells s).
Proof.
  intros Hr Ht Hc. apply a_reachable_inv in Hr as Hi.
  pose proof (ai_front s Hi t Ht Hc) as Hf. split_and!; [done| |].
  - intros t' Ht' Hc'. pose proof (ai_front s Hi t' Ht' Hc'). congruence.
  - eexists. unfold set_front_io_task_state, m_bind, m_get. rewrite Hf. by split.
Qed.

(** On the service VM adding a task only queues it. *)
Lemma add_io_task_svc exe t s :
  add_async_task 0 exe t false s = Ret tt (with_io (fq_push_back (io_list s) t) s).
Proof.
  unfold add_async_task, m_bind, m_modify, m_get. simpl. by rewrite andb_false_r.
Qed.

(** Removing a VM wedges the executor.  When a VM [k] with a queued I/O task is removed,
    the rotation is left with the removed owner [k]; the next I/O task of any other VM
    is then queued behind a front that does not exist, and the executor run on the service VM
    panics in [front().unwrap()]. *)
Theorem remove_vm_async_task_wedges_executor trace parse blk_cfg exe fuel s k d k' fut :
  a_reachable trace parse blk_cfg s -> exe_status s = ExePending ->
  k ∈ fq_queue (io_list s) -> k' <> k ->
  (remove_vm_async_task k >>;
   (let! t := new_task d k' fut in (add_async_task 0 exe t false)) >>;
   async_task_exe 0 trace parse blk_cfg (S fuel)) s = Fault UnwrapNone.
Proof.
  intros Hr Hst Hk Hne. apply a_reachable_inv in Hr as Hi.
  destruct (fq_remove_shape (io_list s) k (ai_wf s Hi) Hk) as [Eq Em].
  assert (fq_front (fq_push_back (fq_remove (io_list s) k) (mkTask d k' (next_cell s) fut)) = None)
    as Hf.
  { unfold fq_front, fq_push_back, owner, AsyncTask_owner. cbn [src_vmid]. rewrite Em.
    rewrite !lookup_delete_ne by done.
    destruct (fq_map (io_list s) !! k'); cbn [fq_queue fq_map]; rewrite Eq; cbn [app];
      by rewrite lookup_insert_ne, lookup_delete_eq by done. }
  eapply m_bind_Fault_r; [reflexivity|].
  eapply m_bind_Fault_r; [eapply m_bind_Ret_r; [reflexivity|apply add_io_task_svc]|].
  unfold async_task_exe, async_task_exe_with, m_bind at 1, m_get.
  cbn [exe_status with_ipi with_io Z.eqb]. rewrite Hst.
  eapply m_bind_Fault_r; [reflexivity|]. cbn [exe_loop].
  unfold next_turn. unfold m_bind at 1. unfold m_bind at 1, m_get.
  cbn [io_list with_status with_ipi with_io next_cell]. by rewrite fq_push_not_empty, Hf.
Qed.

(** ** The disk window of a mediated request *)

(** The disk sectors of the task lie in the device's window. *)
Definition in_window (req : BlkReq) (t : AsyncTask) : Prop :=
  match task_data t with
  | AsyncIoTask m => region_start req <= io_sector m /\
                     io_sector m + io_count m <= region_start req + region_size req
  | _ => True
  end.

(** The address arithmetic of the check does not wrap around for this request. *)
Definition node_fits (node : ReqNode) : Prop :=
  in_word 64 (rn_sector node) /\ 0 <= rn_iov_sum_up node /\
  in_word 64 (rn_sector node + rn_iov_sum_up node / SECTOR_BSIZE).

(** A program that adds only tasks satisfying [P] to the I/O queue. *)
Definition m_adds {A} (P : AsyncTask -> Prop) (m : M AState A) : Prop :=
  forall s a s', fq_wf (io_list s) -> m s = Ret a s' ->
  fq_wf (io_list s') /\
  forall t, t ∈ fq_all (io_list s') -> t ∈ fq_all (io_list s) \/ P t.

Lemma adds_frames {A} P (m : M AState A) : m_frames m -> m_adds P m.
Proof. intros Hm s a s' Hwf E. destruct (Hm _ _ _ E) as (-> & _). auto. Qed.

Lemma adds_bind {A B} P (m : M AState A) (k : A -> M AState B) :
  m_adds P m -> (forall a, m_adds P (k a)) -> m_adds P (m_bind m k).
Proof.
  intros Hm Hk s b s'' Hwf (a & s' & E & E')%m_bind_inv.
  destruct (Hm _ _ _ Hwf E) as [Hwf' H1]. destruct (Hk _ _ _ _ Hwf' E') as [Hwf'' H2].
  split; [done|]. intros t [Ht| ]%H2; [by apply H1|by right].
Qed.

Lemma adds_if {A} P (b : bool) (m1 m2 : M AState A) :
  (b = true -> m_adds P m1) -> (b = false -> m_adds P m2) -> m_adds P (if b then m1 else m2).
Proof. destruct b; auto. Qed.

Lemma adds_new_task exe d vm fut (P : AsyncTask -> Prop) :
  (forall r, P (mkTask d vm r fut)) ->
  m_adds P (let! task := new_task d vm fut in (add_async_task 0 exe task false)).
Proof.
  intros HP s [] s' Hwf. unfold m_bind, new_task. rewrite add_io_task_svc. intros [= <-].
  simpl. split; [by apply fq_push_refines|]. intros t. rewrite fq_all_push by done.
  rewrite elem_of_cons. intros [->|]; [right; apply HP|by left].
Qed.

Lemma adds_queue_io exe req msg io node :
  region_start req = 0 -> node_fits node ->
  rn_sector node + rn_iov_sum_up node / SECTOR_BSIZE <= region_size req ->
  m_adds (in_window req) (blk_queue_io 0 exe req msg io node).
Proof.
  intros H0 (Hs & Hn & Hfit) Hle. unfold blk_queue_io.
  apply adds_if; intros _; [|apply adds_frames, frames_fault].
  apply adds_new_task. intros r. unfold in_window. simpl.
  rewrite H0, Z.add_0_r, wrap_small by done. destruct Hs. lia.
Qed.

Lemma adds_do_node trace exe req msg node c :
  region_start req = 0 -> in_word 64 (region_size req) -> node_fits node ->
  m_adds (in_window req) (blk_do_node 0 trace exe req msg node c).
Proof.
  intros H0 Hsz Hfit. pose proof Hfit as (_ & _ & Hf). unfold blk_do_node.
  rewrite H0, Z.add_0_l, (wrap_small 64 (region_size req)), (wrap_small 64 (_ + _)) by done.
  apply adds_if; intros Hc; [apply adds_frames, frames_ret|]. apply Z.ltb_ge in Hc.
  assert (Hq := adds_queue_io exe req msg).
  apply adds_if; intros _.
  { apply adds_bind; [by apply Hq|]. intros _. apply adds_frames. auto with keeps. }
  apply adds_if; intros _.
  { apply adds_bind; [apply adds_frames; auto with keeps|]. intros c'.
    apply adds_bind; [by apply Hq|]. intros _. apply adds_frames, frames_ret. }
  apply adds_if; intros _; [apply adds_frames, frames_fault|].
  apply adds_if; intros _; [|apply adds_frames, frames_ret].
  apply adds_bind; [apply adds_frames; by intros s a s' [_ ->]%m_idx_inv|]. intros v.
  apply adds_bind; [apply adds_frames; auto with keeps|]. intros _.
  intros s a s' Hwf. unfold m_bind, new_task, task_set_state, m_modify. rewrite add_io_task_svc.
  intros [= _ <-]. simpl. split; [by apply fq_push_refines|]. intros t.
  rewrite fq_all_push by done. rewrite elem_of_cons. intros [->|]; [by right|by left].
Qed.

(** C5. When the device's window starts at sector 0 and the guest's sector arithmetic does not
    wrap, [generate_blk_req] queues I/O tasks whose disk sectors all lie inside the window,
    whatever requests the guest posts (the others are skipped). *)
Theorem blk_requests_stay_in_window trace exe req msg nodes c s s' t :
  region_start req = 0 -> in_word 64 (region_size req) -> Forall node_fits nodes ->
  fq_wf (io_list s) ->
  generate_blk_req 0 trace exe req msg nodes c s = Ret tt s' ->
  t ∈ fq_all (io_list s') -> t ∈ fq_all (io_list s) \/ in_window req t.
Proof.
  intros H0 Hsz Hfit Hwf E. enough (m_adds (in_window req)
    (generate_blk_req 0 trace exe req msg nodes c)) as Ha by by apply (Ha _ _ _ Hwf E).
  clear E. revert c. induction Hfit as [|node nodes Hn _ IH]; intros c; simpl.
  - apply adds_frames, frames_ret.
  - apply adds_bind; [by apply adds_do_node|]. intros [c'|]; [|apply IH].
    apply adds_bind; [apply adds_frames; auto with keeps|]. intros _. apply IH.
Qed.

(** The window check ignores where the window starts: it compares the guest's
    window-relative sector with the window's absolute end.  For every mediated device whose
    window starts past sector 0, a one-sector read at relative sector [region_size] passes
    the check and is queued for the absolute sector just after the window. *)
Theorem blk_window_check_ignores_start trace exe req msg c s head total bg :
  mediated req = true -> 0 < region_start req -> 0 <= region_size req ->
  region_start req + region_size req + 1 < 2 ^ 64 ->
  let node := mkNode VIRTIO_BLK_T_IN (region_size req) head [mkBlkIov bg 512] 512 total in
  exists s' t m, blk_do_node 0 trace exe req msg node c s = Ret (Some (usize (c + 512))) s' /\
    io_list s' = fq_push_back (io_list s) t /\ task_data t = AsyncIoTask m /\
    io_sector m = region_start req + region_size req /\ io_count m = 1.
Proof.
  intros Hm H0 H1 H2 node. unfold blk_do_node.
  assert ((usize (region_start req + region_size req) <?
    usize (rn_sector node + rn_iov_sum_up node / SECTOR_BSIZE)) = false) as ->.
  { simpl. change (512 / SECTOR_BSIZE) with 1. rewrite !wrap_small by (unfold in_word; lia). lia. }
  cbn [rn_req_type node Z.eqb VIRTIO_BLK_T_IN]. unfold m_bind at 1, blk_queue_io. rewrite Hm.
  unfold m_bind at 1, new_task. rewrite add_io_task_svc.
  eexists _, _, _. split_and!; [reflexivity|reflexivity|reflexivity| |reflexivity].
  simpl. rewrite wrap_small by (unfold in_word; lia). lia.
Qed.

(** A guest reaches a [todo!()] of the hypervisor: a request of type
    VIRTIO_BLK_T_FLUSH that passes the window check makes the service VM's handler panic,
    whatever follows it in the queue. *)
Theorem blk_flush_panics vmid trace exe req msg node nodes c s :
  rn_req_type node = 4 ->
  usize (rn_sector node + rn_iov_sum_up node / SECTOR_BSIZE) <=
    usize (region_start req + region_size req) ->
  generate_blk_req vmid trace exe req msg (node :: nodes) c s = Fault ExplicitPanic.
Proof.
  intros Ht Hle. simpl. unfold m_bind at 1, blk_do_node. rewrite Ht.
  rewrite (proj2 (Z.ltb_ge _ _)) by done. reflexivity.
Qed.

(** ** Witnesses: a guest with one read request *)

Definition demo_node : ReqNode := mkNode VIRTIO_BLK_T_IN 7 0 [mkBlkIov 8192 512] 512 513.
Definition demo_parse (_ : IpiMediatedMsg) (_ : AState) : option (list ReqNode) :=
  Some [demo_node].
Definition demo_cfg (_ : IpiMediatedMsg) : BlkReq := mkBlkReq 0 100 true 0 65536.
Definition demo_msg : IpiMediatedMsg := mkMediated 1 11 21.

(** The state after a program that returns. *)
Definition after (m : M AState unit) (s : AState) : AState :=
  match m s with Ret _ s' => s' | Fault _ => s end.

Lemma after_eq (m : M AState unit) s :
  match m s with Ret _ _ => true | Fault _ => false end = true -> m s = Ret tt (after m s).
Proof. unfold after. destruct (m s) as [[]|]; [done|done]. Qed.

Definition demo1 : AState :=
  after (virtio_mediated_blk_notify_handler 1 false demo_parse demo_cfg 8 demo_msg) a_init.
Definition demo2 : AState :=
  after (mediated_ipi_handler 0 false demo_parse demo_cfg 8 demo_msg) demo1.
Definition demo_task : AsyncTask :=
  mkTask (AsyncIoTask (mkIoMsg 1 11 21 0 0 7 1 65536 [mkBlkIov 8192 512])) 1 2 FBlkIoReq.

Lemma demo_reachable : a_reachable false demo_parse demo_cfg demo2.
Proof.
  apply (ReachStep _ _ _ demo1).
  - apply (ReachStep _ _ _ a_init); [apply ReachInit|].
    apply (StepNotify _ _ _ 1 8 demo_msg), after_eq. by vm_compute.
  - apply (StepIpi _ _ _ 0 8 demo_msg), after_eq. by vm_compute.
Qed.

Lemma io_in_flight_is_front_witness :
  fq_front (io_list demo2) = Some demo_task /\
  (forall t', t' ∈ fq_all (io_list demo2) -> cells demo2 !! state_ref t' = Some Running ->
     t' = demo_task) /\
  exists s', set_front_io_task_state Finish demo2 = Ret tt s' /\
             cells s' = <[state_ref demo_task := Finish]> (cells demo2).
Proof.
  apply (io_in_flight_is_front false demo_parse demo_cfg demo2 demo_task demo_reachable).
  - vm_compute. left.
  - vm_compute. reflexivity.
Defined.

Lemma remove_vm_async_task_wedges_executor_witness :
  (remove_vm_async_task 1 >>;
   (let! t := new_task (AsyncNoneTask (mkIoIdMsg 12 22)) 2 FBlkIoReq in
    (add_async_task 0 (m_ret tt) t false)) >>;
   async_task_exe 0 false demo_parse demo_cfg 1) demo2 = Fault UnwrapNone.
Proof.
  apply (remove_vm_async_task_wedges_executor false demo_parse demo_cfg (m_ret tt) 0 demo2 1
           (AsyncNoneTask (mkIoIdMsg 12 22)) 2 FBlkIoReq demo_reachable).
  - vm_compute. reflexivity.
  - vm_compute. left.
  - lia.
Defined.

Definition demo_out : AState :=
  after (generate_blk_req 0 false (m_ret tt) (demo_cfg demo_msg) demo_msg
           [demo_node; mkNode VIRTIO_BLK_T_OUT 100 0 [mkBlkIov 8192 512] 512 513] 65536) demo1.

(** The second request, past the window, is skipped. *)
Lemma blk_requests_stay_in_window_witness :
  demo_task ∈ fq_all (io_list demo_out) /\
  (demo_task ∈ fq_all (io_list demo1) \/ in_window (demo_cfg demo_msg) demo_task).
Proof.
  split; [vm_compute; left|].
  apply (blk_requests_stay_in_window false (m_ret tt) (demo_cfg demo_msg) demo_msg
           [demo_node; mkNode VIRTIO_BLK_T_OUT 100 0 [mkBlkIov 8192 512] 512 513] 65536
           demo1 demo_out).
  - reflexivity.
  - vm_compute. split; congruence.
  - repeat constructor; vm_compute; congruence.
  - apply (ai_wf demo1), (a_reachable_inv false demo_parse demo_cfg).
    apply (ReachStep _ _ _ a_init); [apply ReachInit|].
    apply (StepNotify _ _ _ 1 8 demo_msg), after_eq. by vm_compute.
  - apply after_eq. by vm_compute.
  - vm_compute. left.
Defined.

Lemma blk_window_check_ignores_start_witness :
  exists s' t m,
    blk_do_node 0 false (m_ret tt) (mkBlkReq 100 50 true 0 65536) demo_msg
      (mkNode VIRTIO_BLK_T_IN 50 0 [mkBlkIov 8192 512] 512 513) 65536 a_init
      = Ret (Some (usize (65536 + 512))) s' /\
    io_list s' = fq_push_back (io_list a_init) t /\ task_data t = AsyncIoTask m /\
    io_sector m = 100 + 50 /\ io_count m = 1.
Proof.
  apply (blk_window_check_ignores_start false (m_ret tt) (mkBlkReq 100 50 true 0 65536) demo_msg
           65536 a_init 0 513 8192); simpl; (reflexivity || lia).
Defined.

Lemma blk_flush_panics_witness :
  generate_blk_req 0 false (m_ret tt) (demo_cfg demo_msg) demo_msg
    [mkNode 4 0 0 [] 0 1] 65536 a_init = Fault ExplicitPanic.
Proof.
  apply blk_flush_panics; [reflexivity|vm_compute; congruence].
Defined.
