(* ===== verification/MemRegion.v ===== *)
(** * MemRegion: the allocator of VM memory ([kernel/mem.rs], [kernel/mem_region.rs])

    [VM_REGION] is a vector of regions, each either free ([free = size], in pages) or handed to
    a VM ([free = 0]).  Allocation is first fit and splits the region, the rest going to the
    end of the vector; freeing merges the region with its free neighbours until none touches it.
    The abstract state is the set of free bytes and the set of bytes in use; the operations
    are proved to move exactly the right bytes between them. *)
From stdpp Require Import sets.
From S2P Require Import Prelude.

Definition PAGE_SIZE : Z := 4096.

(** src: kernel/mem_region.rs 13-20 [MemRegion] *)
Record MemRegion := mkRegion { base : Z; size : Z; free : Z; last : Z }.

(** src: kernel/mem_region.rs 32-39 [MemRegion::new] *)
Definition mem_region_new : MemRegion := mkRegion 0 0 0 0.

(** src: kernel/mem_region.rs 41-46 [MemRegion::init] *)
Definition mem_region_init (r : MemRegion) (b s f l : Z) : MemRegion := mkRegion b s f l.

(** The state [VM_REGION]: the vector of regions. *)
Abbreviation VmRegion := (list MemRegion).

(** src: kernel/mem_region.rs 55-57 [VmRegion::push] *)
Definition vm_region_push (r : MemRegion) : M VmRegion unit := m_modify (fun l => l ++ [r]).

(** src: kernel/mem.rs 20-52 [mem_vm_region_init]
    [regions] are the platform's memory regions as (base, size in bytes); the first one is the
    hypervisor's own. *)
Definition mem_vm_region_init (regions : list (Z * Z)) : M VmRegion unit :=
  match regions with
  | [] | [_] => m_fault ExplicitPanic
  | _ :: rs =>
      m_for rs (fun '(b, s) =>
        vm_region_push (mem_region_init mem_region_new b (s / PAGE_SIZE) (s / PAGE_SIZE) 0))
  end.

(** The index of the first region with at least [n] free pages. *)
Fixpoint first_fit (n : Z) (l : VmRegion) : option nat :=
  match l with
  | [] => None
  | r :: l' => if n <=? free r then Some O else S <$> first_fit n l'
  end.

(** src: kernel/mem.rs 78-100 [mem_vm_region_alloc] *)
Definition mem_vm_region_alloc (sz : Z) : M VmRegion Z :=
  let! l := m_get in
  match first_fit (sz / PAGE_SIZE) l with
  | None => m_ret 0
  | Some i =>
      let! r := m_opt OutOfBounds (l !! i) in
      let n := sz / PAGE_SIZE in
      (if n <? size r then
         let rest := usize (size r - n) in
         vm_region_push (mkRegion (usize (base r + sz)) rest rest 0) >>;
         m_modify (fun l => <[i := mkRegion (base r) n 0 (last r)]> l)
       else m_modify (fun l => <[i := mkRegion (base r) (size r) 0 (last r)]> l)) >>;
      m_ret (base r)
  end.

(** src: kernel/mem.rs 108-115 [mem_vm_region_free: search] *)
Fixpoint find_used (start : Z) (l : VmRegion) : option nat :=
  match l with
  | [] => None
  | r :: l' => if (start =? base r) && (free r =? 0) then Some O else S <$> find_used start l'
  end.

(** Which of the two merges the inner [for] finds first, with the index of the other region:
    [true], the region ends where the current one starts; [false], it starts where it ends. *)
Fixpoint find_merge (b s : Z) (l : VmRegion) : option (nat * bool) :=
  match l with
  | [] => None
  | r :: l' =>
      if negb (free r =? 0) && (b =? usize (base r + usize (size r * PAGE_SIZE))) then Some (O, true)
      else if negb (free r =? 0) && (usize (b + usize (s * PAGE_SIZE)) =? base r) then Some (O, false)
      else (fun '(i, w) => (S i, w)) <$> find_merge b s l'
  end.

(** [region.size += k; region.free += k]. *)
Definition grow (k : Z) (r : MemRegion) : MemRegion :=
  mkRegion (base r) (usize (size r + k)) (usize (free r + k)) (last r).

(** src: kernel/mem.rs 117-144 [mem_vm_region_free: one iteration of the merge loop]
    The next [free_idx], with the new vector. *)
Definition merge_step (l : VmRegion) (m : nat) : option (option nat * VmRegion) :=
  match l !! m with
  | None => None
  | Some r =>
      match find_merge (base r) (size r) l with
      | None => Some (None, l)
      | Some (i, before) =>
          match l !! i with
          | None => None
          | Some r' =>
              if before then
                Some (Some (if (i <? m)%nat then i else (i - 1)%nat),
                      delete m (<[i := grow (size r) r']> l))
              else
                Some (Some (if (m <? i)%nat then m else (m - 1)%nat),
                      delete i (<[m := grow (size r') r]> l))
          end
      end
  end.

(** src: kernel/mem.rs 117-144 [mem_vm_region_free: the merge loop] *)
Fixpoint merge_loop (fuel : nat) (idx : option nat) : M VmRegion unit :=
  match idx with
  | None => m_ret tt
  | Some m =>
      match fuel with
      | O => m_fault FuelOut
      | S fuel' =>
          let! l := m_get in
          match merge_step l m with
          | None => m_fault OutOfBounds
          | Some (idx', l') => m_put l' >>; merge_loop fuel' idx'
          end
      end
  end.

(** src: kernel/mem.rs 103-147 [mem_vm_region_free] *)
Definition mem_vm_region_free (fuel : nat) (start sz : Z) : M VmRegion unit :=
  let! l := m_get in
  let idx := find_used start l in
  match idx with
  | None => m_ret tt
  | Some i =>
      let! r := m_opt OutOfBounds (l !! i) in
      m_put (<[i := mkRegion (base r) (size r) (usize (free r + sz / PAGE_SIZE)) (last r)]> l)
  end >>;
  merge_loop fuel idx.

(** ** The invariant and the abstract state *)

(** The bytes of a region. *)
Definition in_region (a : Z) (r : MemRegion) : Prop := base r <= a < base r + size r * PAGE_SIZE.

Definition region_ok (r : MemRegion) : Prop :=
  0 <= base r /\ 0 < size r /\ base r + size r * PAGE_SIZE < 2 ^ 64 /\
  (free r = 0 \/ free r = size r).

Definition disjoint_from (r : MemRegion) (l : VmRegion) : Prop :=
  Forall (fun r' => forall a, in_region a r -> in_region a r' -> False) l.

Fixpoint pairwise_disjoint (l : VmRegion) : Prop :=
  match l with [] => True | r :: l' => disjoint_from r l' /\ pairwise_disjoint l' end.

Definition mem_wf (l : VmRegion) : Prop := Forall region_ok l /\ pairwise_disjoint l.

(** Byte [a] is free / is in use by a VM. *)
Definition free_byte (l : VmRegion) (a : Z) : Prop :=
  exists r, r ∈ l /\ free r <> 0 /\ in_region a r.
Definition used_byte (l : VmRegion) (a : Z) : Prop :=
  exists r, r ∈ l /\ free r = 0 /\ in_region a r.

(** *** The invariant does not depend on the order of the vector *)

Lemma pairwise_disjoint_perm l k : l ≡ₚ k -> pairwise_disjoint l -> pairwise_disjoint k.
Proof.
  induction 1 as [|x l k Hp IH|x y l|l k m _ IH1 _ IH2]; simpl; [done| | |by auto].
  - intros [Hd ?]. split; [|by auto]. unfold disjoint_from. by rewrite <- Hp.
  - unfold disjoint_from. rewrite !list.Forall_cons. intros ((Hxy & Hx) & Hy & Hl).
    split_and!; try done. intros a Ha Hb. by apply (Hxy a).
Qed.

Lemma mem_wf_perm l k : l ≡ₚ k -> mem_wf l -> mem_wf k.
Proof. intros Hp [Hf Hd]. split; [by rewrite <- Hp|by eapply pairwise_disjoint_perm]. Qed.

Lemma free_byte_perm l k a : l ≡ₚ k -> free_byte l a <-> free_byte k a.
Proof. intros Hp. unfold free_byte. by setoid_rewrite Hp. Qed.

Lemma used_byte_perm l k a : l ≡ₚ k -> used_byte l a <-> used_byte k a.
Proof. intros Hp. unfold used_byte. by setoid_rewrite Hp. Qed.

Lemma free_byte_cons r l a : free_byte (r :: l) a <-> (free r <> 0 /\ in_region a r) \/ free_byte l a.
Proof. unfold free_byte. set_solver. Qed.

Lemma used_byte_cons r l a : used_byte (r :: l) a <-> (free r = 0 /\ in_region a r) \/ used_byte l a.
Proof. unfold used_byte. set_solver. Qed.

Lemma mem_wf_cons r l : mem_wf (r :: l) <-> region_ok r /\ disjoint_from r l /\ mem_wf l.
Proof. unfold mem_wf. rewrite list.Forall_cons. simpl. tauto. Qed.

Lemma disjoint_from_weaken r r' l :
  (forall a, in_region a r' -> in_region a r) -> disjoint_from r l -> disjoint_from r' l.
Proof. intros Hs. apply Forall_impl. intros x Hx a Ha. apply Hx, Hs, Ha. Qed.

(** Split the region at an index off the vector. *)
Lemma lookup_perm {A} (l : list A) i r : l !! i = Some r -> l ≡ₚ r :: delete i l.
Proof. apply delete_Permutation. Qed.

Lemma insert_perm {A} (l : list A) i r r' : l !! i = Some r -> <[i := r']> l ≡ₚ r' :: delete i l.
Proof.
  intros H. rewrite insert_take_drop by (by eapply lookup_lt_Some).
  rewrite delete_take_drop. by rewrite Permutation_middle.
Qed.

(** Removing index [m] after an update at [i], in terms of the multiset of regions. *)
Lemma delete_insert_perm {A} (l : list A) i m x y x' :
  l !! i = Some x -> l !! m = Some y -> i <> m ->
  exists rest, l ≡ₚ y :: x :: rest /\ delete m (<[i := x']> l) ≡ₚ x' :: rest /\
    delete m (<[i := x']> l) !! (if (i <? m)%nat then i else (i - 1)%nat) = Some x'.
Proof.
  intros Hi Hm Hne.
  assert (<[i := x']> l !! m = Some y) as Hm' by (by rewrite list_lookup_insert_ne).
  set (k := if (i <? m)%nat then i else (i - 1)%nat).
  assert (delete m (<[i := x']> l) !! k = Some x') as Hk.
  { pose proof (lookup_lt_Some _ _ _ Hi). unfold k. destruct (Nat.ltb_spec i m).
    - rewrite list_lookup_delete_lt by done. by apply list_lookup_insert_eq.
    - rewrite list_lookup_delete_ge by lia. replace (S (i - 1)) with i by lia.
      by apply list_lookup_insert_eq. }
  exists (delete k (delete m (<[i := x']> l))). split_and!; [|by apply lookup_perm|done].
  assert (y :: x' :: delete k (delete m (<[i := x']> l)) ≡ₚ x' :: delete i l) as Hp.
  { rewrite <- (lookup_perm _ k x') by done. rewrite <- (lookup_perm _ m y) by done.
    by eapply insert_perm. }
  rewrite (perm_swap x' y) in Hp. apply Permutation_cons_inv in Hp.
  transitivity (x :: delete i l); [by apply lookup_perm|].
  rewrite <- Hp. apply perm_swap.
Qed.

(** *** One merge *)

Lemma find_merge_Some b s l i w :
  find_merge b s l = Some (i, w) -> exists r, l !! i = Some r /\ free r <> 0 /\
    if w then b = usize (base r + usize (size r * PAGE_SIZE))
    else usize (b + usize (s * PAGE_SIZE)) = base r.
Proof.
  revert i. induction l as [|r l IH]; intros i; simpl; [done|].
  destruct (negb (free r =? 0)) eqn:Ef; simpl.
  - destruct (Z.eqb_spec b (usize (base r + usize (size r * PAGE_SIZE)))).
    { intros [= <- <-]. exists r. split_and!; [done|lia|done]. }
    destruct (Z.eqb_spec (usize (b + usize (s * PAGE_SIZE))) (base r)).
    { intros [= <- <-]. exists r. split_and!; [done|lia|done]. }
    destruct (find_merge b s l) as [[j w']|]; [|done]. intros [= <- <-]. by apply (IH j).
  - destruct (find_merge b s l) as [[j w']|]; [|done]. intros [= <- <-]. by apply (IH j).
Qed.

Lemma find_merge_None b s l :
  find_merge b s l = None -> Forall (fun r => free r <> 0 ->
    b <> usize (base r + usize (size r * PAGE_SIZE)) /\
    usize (b + usize (s * PAGE_SIZE)) <> base r) l.
Proof.
  induction l as [|r l IH]; simpl; [by constructor|].
  destruct (Z.eqb_spec (free r) 0) as [Ef|Ef]; simpl.
  - destruct (find_merge b s l) as [[]|]; [done|]. intros _. constructor; [done|by apply IH].
  - destruct (Z.eqb_spec b (usize (base r + usize (size r * PAGE_SIZE)))); [done|].
    destruct (Z.eqb_spec (usize (b + usize (s * PAGE_SIZE))) (base r)); [done|].
    destruct (find_merge b s l) as [[]|]; [done|]. intros _. constructor; [done|by apply IH].
Qed.

(** The end of a region in an [ok] vector does not wrap. *)
Lemma region_end r : region_ok r ->
  usize (base r + usize (size r * PAGE_SIZE)) = base r + size r * PAGE_SIZE.
Proof.
  intros (? & ? & ? & _). unfold PAGE_SIZE in *.
  rewrite (wrap_small 64 (size r * 4096)) by (unfold in_word; lia).
  apply wrap_small. unfold in_word. lia.
Qed.

(** Two free regions that touch become one. *)
Lemma merge_two r r' rest :
  mem_wf (r :: r' :: rest) -> free r <> 0 -> free r' <> 0 ->
  base r = base r' + size r' * PAGE_SIZE ->
  let g := grow (size r) r' in
  mem_wf (g :: rest) /\ free g <> 0 /\
  base g = base r' /\ size g = size r + size r' /\
  (forall a, in_region a g <-> in_region a r \/ in_region a r').
Proof.
  intros (Hr & Hdr & (Hr' & Hdr' & Hrest)%mem_wf_cons)%mem_wf_cons Hf Hf' Hb g.
  destruct Hr as (? & ? & ? & [?|Efr]); [done|]. destruct Hr' as (? & ? & ? & [?|Efr']); [done|].
  assert (size g = size r + size r') as Es.
  { unfold g, grow, PAGE_SIZE in *. simpl. rewrite wrap_small by (unfold in_word; lia). lia. }
  assert (free g = size r + size r') as Ef.
  { unfold g, grow, PAGE_SIZE in *. simpl. rewrite Efr', wrap_small by (unfold in_word; lia). lia. }
  assert (base g = base r') as Eb by done.
  assert (forall a, in_region a g <-> in_region a r \/ in_region a r') as Ha.
  { intros a. unfold in_region. rewrite Es, Eb. unfold PAGE_SIZE in *. lia. }
  split_and!; [|lia|done..]. apply mem_wf_cons. split_and!; [| |done].
  - split_and!; rewrite ?Es, ?Eb, ?Ef; unfold PAGE_SIZE in *; lia.
  - unfold disjoint_from in *. apply list.Forall_cons in Hdr as [_ Hdr].
    rewrite list.Forall_forall in *. intros x Hx a [Hg|Hg]%Ha; [by apply (Hdr x Hx)|by apply (Hdr' x Hx)].
Qed.

(** What a merge step does to the region being grown. *)
Record merged (l l' : VmRegion) (m m' : nat) : Prop := {
  mg_wf : mem_wf l';
  mg_len : length l = S (length l');
  mg_free : forall a, free_byte l' a <-> free_byte l a;
  mg_used : forall a, used_byte l' a <-> used_byte l a;
  mg_grown : forall r, l !! m = Some r -> exists r', l' !! m' = Some r' /\ free r' <> 0 /\
               forall a, in_region a r -> in_region a r';
  mg_kept : forall u, free u = 0 -> u ∈ l -> u ∈ l';
}.

(** No free region touches the region at [m]. *)
Definition coalesced (l : VmRegion) (m : nat) : Prop :=
  forall r r', l !! m = Some r -> r' ∈ l -> free r' <> 0 ->
  base r <> base r' + size r' * PAGE_SIZE /\ base r + size r * PAGE_SIZE <> base r'.

Lemma merge_step_spec l m r :
  mem_wf l -> l !! m = Some r -> free r <> 0 ->
  (merge_step l m = Some (None, l) /\ coalesced l m) \/
  exists m' l', merge_step l m = Some (Some m', l') /\ merged l l' m m'.
Proof.
  intros Hwf Hm Hf. unfold merge_step. rewrite Hm.
  assert (region_ok r) as Hok by (destruct Hwf as [H1 _]; rewrite Forall_lookup in H1; by eapply H1).
  destruct (find_merge (base r) (size r) l) as [[i w]|] eqn:E; [right|left].
  - apply find_merge_Some in E as (r' & Hi & Hf' & Hw). rewrite Hi.
    assert (region_ok r') as Hok'
      by (destruct Hwf as [H1 _]; rewrite Forall_lookup in H1; by eapply H1).
    rewrite !region_end in Hw by done.
    assert (i <> m) as Hne.
    { intros ->. assert (r' = r) as -> by congruence.
      destruct Hok as (? & ? & _). unfold PAGE_SIZE in *. destruct w; lia. }
    destruct w.
    + destruct (delete_insert_perm l i m r' r (grow (size r) r') Hi Hm Hne) as (rest & H1 & H2 & H3).
      eexists _, _. split; [done|]. pose proof (mem_wf_perm _ _ H1 Hwf) as Hwf1.
      destruct (merge_two r r' rest Hwf1 Hf Hf' Hw) as (G1 & G2 & G3 & G4 & G5).
      split; [by eapply mem_wf_perm|exact (eq_trans (Permutation_length H1) (eq_sym (f_equal S (Permutation_length H2))))| | | |].
      * intros a. rewrite (free_byte_perm _ _ a H1), (free_byte_perm _ _ a H2), !free_byte_cons, G5.
        naive_solver.
      * intros a. rewrite (used_byte_perm _ _ a H1), (used_byte_perm _ _ a H2), !used_byte_cons.
        naive_solver.
      * intros r0 Hr0. assert (r0 = r) as -> by congruence. eexists. split_and!; [done..|].
        intros a Ha. apply G5. by left.
      * intros u Hu Hin. rewrite H2. rewrite H1 in Hin. set_solver.
    + destruct (delete_insert_perm l m i r r' (grow (size r') r) Hm Hi (not_eq_sym Hne))
        as (rest & H1 & H2 & H3).
      eexists _, _. split; [done|]. pose proof (mem_wf_perm _ _ H1 Hwf) as Hwf1.
      destruct (merge_two r' r rest Hwf1 Hf' Hf (eq_sym Hw)) as (G1 & G2 & G3 & G4 & G5).
      split; [by eapply mem_wf_perm|exact (eq_trans (Permutation_length H1) (eq_sym (f_equal S (Permutation_length H2))))| | | |].
      * intros a. rewrite (free_byte_perm _ _ a H1), (free_byte_perm _ _ a H2), !free_byte_cons, G5.
        naive_solver.
      * intros a. rewrite (used_byte_perm _ _ a H1), (used_byte_perm _ _ a H2), !used_byte_cons.
        naive_solver.
      * intros r0 Hr0. assert (r0 = r) as -> by congruence. eexists. split_and!; [done..|].
        intros a Ha. apply G5. by right.
      * intros u Hu Hin. rewrite H2. rewrite H1 in Hin. set_solver.
  - split; [done|]. intros r0 r' Hr0 Hr' Hf'. assert (r0 = r) as -> by congruence.
    apply find_merge_None in E. destruct Hwf as [H1 _]. rewrite list.Forall_forall in E, H1.
    destruct (E r' Hr' Hf'). rewrite !region_end in * by auto. split; lia.
Qed.

(** The merge loop: it terminates within [length l] rounds, moves no byte between free and used,
    and stops with the region coalesced. *)
Lemma merge_loop_spec fuel : forall l m r,
  mem_wf l -> l !! m = Some r -> free r <> 0 -> (length l <= fuel)%nat ->
  exists l' m' r', merge_loop fuel (Some m) l = Ret tt l' /\ mem_wf l' /\
    (forall a, free_byte l' a <-> free_byte l a) /\ (forall a, used_byte l' a <-> used_byte l a) /\
    l' !! m' = Some r' /\ free r' <> 0 /\ (forall a, in_region a r -> in_region a r') /\
    coalesced l' m' /\ (forall u, free u = 0 -> u ∈ l -> u ∈ l').
Proof.
  induction fuel as [|fuel IH]; intros l m r Hwf Hm Hf Hlen.
  { apply lookup_lt_Some in Hm. lia. }
  cbn [merge_loop]. unfold m_bind at 1, m_get.
  destruct (merge_step_spec l m r Hwf Hm Hf) as [[-> Hc]|(m' & l1 & -> & Hg)].
  - exists l, m, r. destruct fuel; by split_and!.
  - destruct (mg_grown _ _ _ _ Hg r Hm) as (r1 & Hm1 & Hf1 & Hr1).
    pose proof (mg_len _ _ _ _ Hg).
    destruct (IH l1 m' r1 (mg_wf _ _ _ _ Hg) Hm1 Hf1) as (l2 & m2 & r2 & E & Hwf2 & Hfb & Hub & Hm2 & Hf2 & Hr2 & Hc & Hk);
      [lia|].
    exists l2, m2, r2. split_and!; try done.
    + intros a. by rewrite Hfb, (mg_free _ _ _ _ Hg).
    + intros a. by rewrite Hub, (mg_used _ _ _ _ Hg).
    + auto.
    + intros u Hu Hin. by apply Hk, (mg_kept _ _ _ _ Hg).
Qed.

(** *** Allocation *)

Lemma first_fit_Some n l i : first_fit n l = Some i -> exists r, l !! i = Some r /\ n <= free r.
Proof.
  revert i. induction l as [|r l IH]; intros i; simpl; [done|].
  destruct (Z.leb_spec n (free r)); [intros [= <-]; by exists r|].
  destruct (first_fit n l) as [j|]; [|done]. intros [= <-]. by apply (IH j).
Qed.

Lemma first_fit_None n l : first_fit n l = None <-> Forall (fun r => free r < n) l.
Proof.
  induction l as [|r l IH]; simpl; [split; [constructor|done]|].
  rewrite list.Forall_cons, <- IH. destruct (Z.leb_spec n (free r)); [split; [done|lia]|].
  destruct (first_fit n l); simpl; split; try done; naive_solver lia.
Qed.

Lemma find_used_unique l i r :
  mem_wf l -> l !! i = Some r -> free r = 0 -> find_used (base r) l = Some i.
Proof.
  revert i. induction l as [|r0 l IH]; intros i Hwf Hi Hf; [done|].
  apply mem_wf_cons in Hwf as (Hok & Hd & Hwf). simpl.
  destruct i as [|i]; simpl in Hi.
  - injection Hi as ->. by rewrite Z.eqb_refl, Hf.
  - destruct ((base r =? base r0) && (free r0 =? 0)) eqn:E; [|by rewrite (IH i)].
    exfalso. bool_to_prop. unfold disjoint_from in Hd. rewrite Forall_lookup in Hd.
    assert (region_ok r) as Hokr
      by (destruct Hwf as [H1 _]; rewrite Forall_lookup in H1; by eapply H1).
    destruct Hok as (? & ? & _), Hokr as (? & ? & _).
    apply (Hd i r Hi (base r)); unfold in_region, PAGE_SIZE; lia.
Qed.

(** The bytes [start .. start + sz). *)
Definition in_range (start sz a : Z) : Prop := start <= a < start + sz.

(** What is left of a free region after its first [n] pages are taken. *)
Definition carve_rest (r : MemRegion) (n : Z) : VmRegion :=
  if n <? size r
  then [mkRegion (base r + n * PAGE_SIZE) (size r - n) (size r - n) 0] else [].

Lemma carve_spec r n u rest :
  mem_wf (r :: rest) -> 0 < n <= free r -> base u = base r -> size u = n -> free u = 0 ->
  mem_wf (u :: carve_rest r n ++ rest) /\
  (forall a, free_byte (u :: carve_rest r n ++ rest) a <->
     free_byte (r :: rest) a /\ ~ in_range (base r) (n * PAGE_SIZE) a) /\
  (forall a, used_byte (u :: carve_rest r n ++ rest) a <->
     used_byte (r :: rest) a \/ in_range (base r) (n * PAGE_SIZE) a).
Proof.
  intros (Hok & Hd & Hrest)%mem_wf_cons Hn Hb Hs Hf.
  destruct Hok as (H1 & H2 & H3 & [?|Hfr]); [lia|].
  assert (forall a, free_byte rest a -> ~ in_region a r) as Hdis.
  { intros a (x & Hx & _ & Ha) Hr. unfold disjoint_from in Hd. rewrite list.Forall_forall in Hd.
    by apply (Hd x Hx a). }
  assert (forall a, in_region a u <-> in_range (base r) (n * PAGE_SIZE) a) as Hu.
  { intros a. unfold in_region, in_range. by rewrite Hb, Hs. }
  assert (forall a, in_range (base r) (n * PAGE_SIZE) a -> in_region a r) as Hur.
  { intros a. unfold in_region, in_range, PAGE_SIZE. nia. }
  assert (disjoint_from u rest) as Hdu by (eapply disjoint_from_weaken; [|exact Hd]; intros a Ha; by apply Hur, Hu).
  assert (region_ok u) as Hoku.
  { unfold region_ok. rewrite Hb, Hs. split_and!; [done|lia| |by left]. unfold PAGE_SIZE in *. nia. }
  unfold carve_rest. destruct (Z.ltb_spec n (size r)) as [Hlt|Hge]; cbn [app].
  - set (q := mkRegion _ _ _ _).
    assert (forall a, in_region a r <-> in_region a u \/ in_region a q) as Hsplit.
    { intros a. unfold in_region. rewrite Hb, Hs. unfold q, PAGE_SIZE. simpl. nia. }
    assert (forall a, in_region a u -> ~ in_region a q) as Hdq.
    { intros a. unfold in_region. rewrite Hb, Hs. unfold q, PAGE_SIZE. simpl. nia. }
    assert (size q = free q /\ 0 < size q) as [Hq1 Hq2] by (unfold q; simpl; lia).
    split_and!.
    + rewrite !mem_wf_cons. split_and!; [done| | | |done].
      * constructor; [intros a; apply Hdq|done].
      * unfold q, region_ok, PAGE_SIZE in *. simpl. split_and!; nia.
      * eapply disjoint_from_weaken; [|exact Hd]. intros a Ha. apply Hsplit. by right.
    + intros a. rewrite !free_byte_cons, <- Hu. pose proof (Hdis a). pose proof (Hsplit a).
      pose proof (Hdq a). assert (free q <> 0 /\ free r <> 0 /\ ~ free u <> 0) by lia. tauto.
    + intros a. rewrite !used_byte_cons, <- Hu. assert (free q <> 0 /\ free r <> 0) by lia. tauto.
  - assert (n = size r) as -> by lia.
    assert (forall a, in_region a r <-> in_region a u) as Hsame by done.
    split_and!; [by rewrite mem_wf_cons| |].
    + intros a. rewrite !free_byte_cons, <- Hu. pose proof (Hdis a). pose proof (Hsame a).
      assert (free r <> 0 /\ ~ free u <> 0) by lia. tauto.
    + intros a. rewrite !used_byte_cons, <- Hu. assert (free r <> 0) by lia. tauto.
Qed.

(** The region taken and the vector after an allocation. *)
Lemma mem_vm_region_alloc_carve l n :
  mem_wf l -> 0 < n ->
  let sz := n * PAGE_SIZE in
  (Forall (fun r => free r < n) l /\ mem_vm_region_alloc sz l = Ret 0 l) \/
  exists start l' u i r,
    first_fit n l = Some i /\ l !! i = Some r /\ base r = start /\
    mem_vm_region_alloc sz l = Ret start l' /\ mem_wf l' /\
    (forall a, in_range start sz a -> free_byte l a) /\
    (forall a, free_byte l' a <-> free_byte l a /\ ~ in_range start sz a) /\
    (forall a, used_byte l' a <-> used_byte l a \/ in_range start sz a) /\
    u ∈ l' /\ base u = start /\ size u = n /\ free u = 0 /\ l' ≡ₚ u :: carve_rest r n ++ delete i l.
Proof.
  intros Hwf Hn sz.
  assert (sz / PAGE_SIZE = n) as En by (unfold sz, PAGE_SIZE; apply Z.div_mul; lia).
  destruct (first_fit n l) as [i|] eqn:E; [right|left; split; [by apply first_fit_None|]].
  2: { eapply m_bind_Ret_r; [reflexivity|]. cbv beta. by rewrite En, E. }
  apply first_fit_Some in E as Hi. destruct Hi as (r & Hi & Hfit).
  pose proof (lookup_perm l i r Hi) as Hp.
  pose proof (mem_wf_perm _ _ Hp Hwf) as Hwf1.
  pose proof Hwf1 as ((H1 & H2 & H3 & [?|Hfr]) & _)%mem_wf_cons; [lia|].
  set (u := mkRegion (base r) (if n <? size r then n else size r) 0 (last r)).
  assert (size u = n) as Hsu by (unfold u; simpl; destruct (Z.ltb_spec n (size r)); lia).
  destruct (carve_spec r n u (delete i l) Hwf1) as (Hc1 & Hc2 & Hc3); [lia|done..|].
  set (l' := <[i := u]> (l ++ carve_rest r n)).
  assert (l' ≡ₚ u :: carve_rest r n ++ delete i l) as Hp'.
  { unfold l'. rewrite insert_app_l by (by eapply lookup_lt_Some).
    rewrite (insert_perm l i r u Hi). simpl. by rewrite Permutation_app_comm. }
  exists (base r), l', u, i, r. split_and!; [done..| | | | | | | |done|done|done].
  - eapply m_bind_Ret_r; [reflexivity|]. cbv beta. rewrite En, E, Hi.
    eapply m_bind_Ret_r; [reflexivity|]. cbv beta zeta. eapply m_bind_Ret_r; [|reflexivity].
    unfold l', u, carve_rest. destruct (Z.ltb_spec n (size r)).
    + eapply m_bind_Ret_r; [reflexivity|]. unfold m_modify. simpl.
      unfold sz, PAGE_SIZE in *. by rewrite !wrap_small by (unfold in_word; lia).
    + rewrite app_nil_r. reflexivity.
  - by eapply mem_wf_perm.
  - intros a Ha. rewrite (free_byte_perm _ _ a Hp), free_byte_cons. left.
    unfold in_region, in_range, sz, PAGE_SIZE in *. split; [lia|]. nia.
  - intros a. rewrite (free_byte_perm _ _ a Hp'), Hc2, (free_byte_perm _ _ a Hp). done.
  - intros a. rewrite (used_byte_perm _ _ a Hp'), Hc3, (used_byte_perm _ _ a Hp). done.
  - rewrite Hp'. by left.
  - done.
Qed.

(** C6. Allocating VM memory.  In a well-formed state and for a whole number [n > 0] of
    pages: if no free region has [n] pages the call returns 0 and changes nothing;
    otherwise it returns the base of the first region that fits, every byte of the [n] pages was
    free before, exactly these bytes move from free to in use, the pages form one region in use
    (so that they can be freed), and the state stays well formed. *)
Theorem mem_vm_region_alloc_spec l n :
  mem_wf l -> 0 < n ->
  let sz := n * PAGE_SIZE in
  (Forall (fun r => free r < n) l /\ mem_vm_region_alloc sz l = Ret 0 l) \/
  exists start l' u i r,
    first_fit n l = Some i /\ l !! i = Some r /\ base r = start /\
    mem_vm_region_alloc sz l = Ret start l' /\ mem_wf l' /\
    (forall a, in_range start sz a -> free_byte l a) /\
    (forall a, free_byte l' a <-> free_byte l a /\ ~ in_range start sz a) /\
    (forall a, used_byte l' a <-> used_byte l a \/ in_range start sz a) /\
    u ∈ l' /\ base u = start /\ size u = n /\ free u = 0.
Proof.
  intros Hwf Hn sz. destruct (mem_vm_region_alloc_carve l n Hwf Hn) as [H|(start & l' & u & i & r & H)]; [by left|right].
  exists start, l', u, i, r. naive_solver.
Qed.

(** Freeing, with the other regions in use where they were. *)
Lemma mem_vm_region_free_keeps l r :
  mem_wf l -> r ∈ l -> free r = 0 ->
  exists l' m r',
    mem_vm_region_free (length l) (base r) (size r * PAGE_SIZE) l = Ret tt l' /\ mem_wf l' /\
    (forall a, free_byte l' a <-> free_byte l a \/ in_region a r) /\
    (forall a, used_byte l' a <-> used_byte l a /\ ~ in_region a r) /\
    l' !! m = Some r' /\ free r' <> 0 /\ (forall a, in_region a r -> in_region a r') /\
    coalesced l' m /\ (forall u, free u = 0 -> u <> r -> u ∈ l -> u ∈ l').
Proof.
  intros Hwf [i Hi]%list_elem_of_lookup Hf.
  pose proof (lookup_perm l i r Hi) as Hp. pose proof (mem_wf_perm _ _ Hp Hwf) as Hwf1.
  pose proof Hwf1 as (Hok & Hd & Hrest)%mem_wf_cons. pose proof Hok as (H1 & H2 & H3 & _).
  assert (usize (free r + size r * PAGE_SIZE / PAGE_SIZE) = size r) as Eg.
  { rewrite Hf, Z.div_mul by (unfold PAGE_SIZE; lia). apply wrap_small.
    unfold in_word, PAGE_SIZE in *. lia. }
  set (g := mkRegion (base r) (size r) (size r) (last r)).
  pose proof (insert_perm l i r g Hi) as Hpg. set (l1 := <[i := g]> l) in *.
  assert (mem_wf l1) as Hwf2.
  { eapply mem_wf_perm; [symmetry; exact Hpg|]. apply mem_wf_cons. split_and!; [|done..].
    split_and!; try done. by right. }
  destruct (merge_loop_spec (length l) l1 i g Hwf2) as (l' & m & r' & E & Hwf' & Hfb & Hub & Hm & Hfr & Hin & Hc & Hk).
  { apply list_lookup_insert_eq. by eapply lookup_lt_Some. }
  { simpl. lia. }
  { exact (Nat.eq_le_incl _ _ (length_insert l i g)). }
  assert (forall a, used_byte (delete i l) a -> ~ in_region a r) as Hdis.
  { intros a (x & Hx & _ & Ha) Hr. unfold disjoint_from in Hd. rewrite list.Forall_forall in Hd.
    by apply (Hd x Hx a). }
  exists l', m, r'. split_and!; try done.
  - eapply m_bind_Ret_r; [reflexivity|]. cbv beta zeta.
    rewrite (find_used_unique l i r Hwf Hi Hf), Hi.
    eapply m_bind_Ret_r; [eapply m_bind_Ret_r; [reflexivity|]|exact E].
    cbv beta. rewrite Eg. reflexivity.
  - intros a. rewrite Hfb, (free_byte_perm _ _ a Hpg), (free_byte_perm _ _ a Hp), !free_byte_cons.
    unfold in_region. simpl. assert (size r <> 0 /\ ~ free r <> 0) by lia. tauto.
  - intros a. rewrite Hub, (used_byte_perm _ _ a Hpg), (used_byte_perm _ _ a Hp), !used_byte_cons.
    simpl. assert (size r <> 0) by lia. pose proof (Hdis a). tauto.
  - intros u Hu Hne Hin'. apply Hk; [done|]. rewrite Hpg. right. rewrite Hp in Hin'.
    by apply elem_of_cons in Hin' as [?|?].
Qed.

(** C7. Freeing VM memory.  Freeing a region in use (its base and its size in bytes)
    terminates with fuel for the number of regions, moves exactly its bytes from in use to
    free, keeps the state well formed, and leaves one free region that contains them and
    touches no other free region. *)
Theorem mem_vm_region_free_spec l r :
  mem_wf l -> r ∈ l -> free r = 0 ->
  exists l' m r',
    mem_vm_region_free (length l) (base r) (size r * PAGE_SIZE) l = Ret tt l' /\ mem_wf l' /\
    (forall a, free_byte l' a <-> free_byte l a \/ in_region a r) /\
    (forall a, used_byte l' a <-> used_byte l a /\ ~ in_region a r) /\
    l' !! m = Some r' /\ free r' <> 0 /\ (forall a, in_region a r -> in_region a r') /\
    coalesced l' m.
Proof.
  intros Hwf Hr Hf.
  destruct (mem_vm_region_free_keeps l r Hwf Hr Hf) as (l' & m & r' & H1 & H2 & H3 & H4 & H5 & H6 & H7 & H8 & _).
  by exists l', m, r'.
Qed.

(** A request below one page.  [size / PAGE_SIZE] is 0, so the first region always "fits",
    even one that is in use: its base is returned again and all but the first [sz] bytes of
    it are recorded as free. *)
Lemma mem_vm_region_alloc_subpage r rest sz :
  region_ok r -> free r = 0 -> 0 <= sz < PAGE_SIZE ->
  exists l', mem_vm_region_alloc sz (r :: rest) = Ret (base r) l' /\
    forall a, base r + sz <= a < base r + size r * PAGE_SIZE -> free_byte l' a.
Proof.
  intros (H1 & H2 & H3 & _) Hf Hsz. assert (sz / PAGE_SIZE = 0) as En by (by apply Z.div_small).
  set (q := mkRegion (base r + sz) (size r) (size r) 0).
  exists (mkRegion (base r) 0 0 (last r) :: rest ++ [q]). split.
  - eapply m_bind_Ret_r; [reflexivity|]. cbv beta. cbn [first_fit]. rewrite En, Hf.
    eapply m_bind_Ret_r; [reflexivity|]. cbv beta zeta. eapply m_bind_Ret_r; [|reflexivity].
    rewrite (proj2 (Z.ltb_lt _ _)) by done. eapply m_bind_Ret_r; [reflexivity|].
    unfold m_modify. simpl. rewrite Z.sub_0_r.
    unfold q, PAGE_SIZE in *. by rewrite !wrap_small by (unfold in_word; lia).
  - intros a Ha. exists q. split_and!; [right; apply elem_of_app; right; by left| |].
    + simpl. lia.
    + unfold in_region, q. simpl. lia.
Qed.

(** After the boot code has filled the vector from a platform whose VM regions are
    disjoint, non-empty and inside the address space, the state is well formed, all of it free. *)
Theorem mem_vm_region_init_wf hv rs :
  rs <> [] ->
  let regions := (fun '(b, s) => mkRegion b (s / PAGE_SIZE) (s / PAGE_SIZE) 0) <$> rs in
  mem_wf regions ->
  mem_vm_region_init (hv :: rs) [] = Ret tt regions /\ (forall a, ~ used_byte regions a).
Proof.
  intros Hne regions Hwf. split.
  - assert (forall k, m_for rs (fun '(b, s) => vm_region_push
      (mem_region_init mem_region_new b (s / PAGE_SIZE) (s / PAGE_SIZE) 0)) k = Ret tt (k ++ regions))
      as Hall; [|specialize (Hall []); by destruct rs].
    unfold regions. clear. induction rs as [|[b s] rs IH]; intros k.
    + simpl. unfold m_ret. by rewrite app_nil_r.
    + eapply m_bind_Ret_r; [reflexivity|]. rewrite IH. by rewrite <- app_assoc.
  - intros a (r & Hr & Hf & _). destruct Hwf as [Hok _]. rewrite list.Forall_forall in Hok.
    destruct (Hok r Hr) as (_ & Hs & _). apply list_elem_of_fmap in Hr as ([b s] & -> & _).
    simpl in *. lia.
Qed.

(** ** Witnesses *)

Definition demo_regions : VmRegion := [mkRegion 0x50000000 100 100 0; mkRegion 0x70000000 50 50 0].

Lemma demo_regions_wf : mem_wf demo_regions.
Proof.
  split; [|simpl; split_and!; repeat constructor];
    repeat constructor; unfold in_region, PAGE_SIZE; simpl; lia.
Qed.

Lemma mem_vm_region_alloc_spec_witness :
  0 < 60 /\
  ((Forall (fun r => free r < 60) demo_regions /\
    mem_vm_region_alloc (60 * PAGE_SIZE) demo_regions = Ret 0 demo_regions) \/
  exists start l' u i r,
    first_fit 60 demo_regions = Some i /\ demo_regions !! i = Some r /\ base r = start /\
    mem_vm_region_alloc (60 * PAGE_SIZE) demo_regions = Ret start l' /\ mem_wf l' /\
    (forall a, in_range start (60 * PAGE_SIZE) a -> free_byte demo_regions a) /\
    (forall a, free_byte l' a <->
       free_byte demo_regions a /\ ~ in_range start (60 * PAGE_SIZE) a) /\
    (forall a, used_byte l' a <->
       used_byte demo_regions a \/ in_range start (60 * PAGE_SIZE) a) /\
    u ∈ l' /\ base u = start /\ size u = 60 /\ free u = 0).
Proof.
  split; [lia|]. apply (mem_vm_region_alloc_spec demo_regions 60 demo_regions_wf). lia.
Defined.

(** The middle of three neighbours is freed between two free ones. *)
Definition demo_used : VmRegion :=
  [mkRegion 0x50000000 10 10 0; mkRegion 0x5000C000 4 4 0; mkRegion 0x5000A000 2 0 0].

Lemma demo_used_wf : mem_wf demo_used.
Proof.
  split; [|simpl; split_and!; repeat constructor];
    repeat constructor; unfold in_region, PAGE_SIZE; simpl; lia.
Qed.

Lemma mem_vm_region_free_spec_witness :
  mem_vm_region_free 3 0x5000A000 8192 demo_used = Ret tt [mkRegion 0x50000000 16 16 0] /\
  exists l' m r',
    mem_vm_region_free (length demo_used) 0x5000A000 (2 * PAGE_SIZE) demo_used = Ret tt l' /\
    mem_wf l' /\
    (forall a, free_byte l' a <->
       free_byte demo_used a \/ in_region a (mkRegion 0x5000A000 2 0 0)) /\
    (forall a, used_byte l' a <->
       used_byte demo_used a /\ ~ in_region a (mkRegion 0x5000A000 2 0 0)) /\
    l' !! m = Some r' /\ free r' <> 0 /\
    (forall a, in_region a (mkRegion 0x5000A000 2 0 0) -> in_region a r') /\ coalesced l' m.
Proof.
  split; [vm_compute; reflexivity|].
  apply (mem_vm_region_free_spec demo_used (mkRegion 0x5000A000 2 0 0) demo_used_wf).
  - right; right; left.
  - reflexivity.
Defined.

Lemma mem_vm_region_init_wf_witness :
  mem_vm_region_init [(0x40000000, 0x10000000); (0x50000000, 409600); (0x70000000, 204800)] []
    = Ret tt demo_regions /\ (forall a, ~ used_byte demo_regions a).
Proof.
  apply (mem_vm_region_init_wf (0x40000000, 0x10000000) [(0x50000000, 409600); (0x70000000, 204800)]).
  - done.
  - exact demo_regions_wf.
Defined.
