(* ===== verification/Interval.v ===== *)
(** * Interval: the interval excluder of [utils/interval.rs]

    Ranges are recorded as end-point events, [+1]/[-1] for an added range and [-INF]/[+INF] for an
    excluded one; the iterator sorts them, sums the events of a point and yields the maximal
    intervals where the running sum is positive.  The theorem says these are exactly the points in
    some added range and in no excluded one. *)
From stdpp Require Import sorting.
From S2P Require Import Prelude.

(** Two's-complement value of width 64, and [isize] addition. *)
Definition isize (z : Z) : Z := (z + 2 ^ 63) mod 2 ^ 64 - 2 ^ 63.

(** src: utils/interval.rs 16-16 [INF] *)
Definition INF : Z := 65535.

(** An end point and what it adds to the running sum. *)
Abbreviation event := (Z * Z)%type.

(** src: utils/interval.rs 6-8 [IntervalExcluder] *)
Record IntervalExcluder := mkIE { inner : list event }.

(** src: utils/interval.rs 24-31 [IntervalExcluder::add_range] *)
Definition add_range (left right : Z) (e : IntervalExcluder) : option IntervalExcluder :=
  let l := inner e ++ [(left, 1); (right, -1)] in
  if INF <? zlen l then None else Some (mkIE l).

(** src: utils/interval.rs 34-36 [IntervalExcluder::add_len] *)
Definition add_len (start length : Z) (e : IntervalExcluder) : option IntervalExcluder :=
  add_range start (usize (start + length)) e.

(** src: utils/interval.rs 39-43 [IntervalExcluder::exclude_range] *)
Definition exclude_range (left right : Z) (e : IntervalExcluder) : option IntervalExcluder :=
  Some (mkIE (inner e ++ [(left, - INF); (right, INF)])).

(** src: utils/interval.rs 46-48 [IntervalExcluder::exclude_len] *)
Definition exclude_len (start length : Z) (e : IntervalExcluder) : option IntervalExcluder :=
  exclude_range start (usize (start + length)) e.

(** src: utils/interval.rs 52-55 [Interval] *)
Record Interval := mkInterval { left : Z; right : Z }.

(** src: utils/interval.rs 58-60 [Interval::len] *)
Definition interval_len (i : Interval) : Z := usize (right i - left i).

(** The order of tuples: by position, then by delta. *)
Definition event_le (a b : event) : Prop := a.1 < b.1 \/ (a.1 = b.1 /\ a.2 <= b.2).
#[export] Instance event_le_dec a b : Decision (event_le a b).
Proof. unfold event_le. apply _. Defined.

(** Runs of events at the same position. *)
Fixpoint group_by (l : list event) : list (list event) :=
  match l with
  | [] => []
  | a :: l' =>
      match group_by l' with
      | (b :: g) :: r => if a.1 =? b.1 then (a :: b :: g) :: r else [a] :: (b :: g) :: r
      | r => [a] :: r
      end
  end.

(** The position of a group and the sum of its deltas. *)
Definition sum_group (g : list event) : event :=
  (match g with a :: _ => a.1 | [] => 0 end, foldl (fun acc t => isize (acc + t.2)) 0 g).

(** src: utils/interval.rs 11-14 [IntervalIter] *)
Record IntervalIter := mkIter { events : list event; sum : Z }.

(** src: utils/interval.rs 67-76 [IntervalExcluder::into_iter] *)
Definition into_iter (e : IntervalExcluder) : IntervalIter :=
  mkIter (sum_group <$> group_by (merge_sort event_le (inner e))) 0.

(** src: utils/interval.rs 83-97 [IntervalIter::next]
    [last] is the uninitialised local of the loop; reading it uninitialised is [None]. *)
Fixpoint next_from (l : list event) (s : Z) (last : option Z)
  : option (option Interval * IntervalIter) :=
  match l with
  | [] => Some (None, mkIter [] s)
  | (pos, delta) :: l' =>
      let s' := isize (s + delta) in
      if (s <=? 0) && (0 <? s') then next_from l' s' (Some pos)
      else if (0 <? s) && (s' <=? 0) then
        match last with
        | Some lft => Some (Some (mkInterval lft pos), mkIter l' s')
        | None => None
        end
      else next_from l' s' last
  end.

(** src: utils/interval.rs 80-98 [Iterator for IntervalIter] *)
Definition next (it : IntervalIter) : option (option Interval * IntervalIter) :=
  next_from (events it) (sum it) None.

(** All the intervals an iterator yields. *)
Fixpoint collect (fuel : nat) (it : IntervalIter) : option (list Interval) :=
  match fuel with
  | O => None
  | S fuel' =>
      match next it with
      | Some (Some i, it') => (cons i) <$> collect fuel' it'
      | Some (None, _) => Some []
      | None => None
      end
  end.

(** ** The meaning of the events *)

(** The sum of the deltas at or before [x]. *)
Definition level (l : list event) (x : Z) : Z :=
  foldr (fun e acc => (if e.1 <=? x then e.2 else 0) + acc) 0 l.

Definition total_delta (l : list event) : Z := foldr (fun e acc => e.2 + acc) 0 l.

(** The sum of the magnitudes: while it stays below 2^63 no partial sum wraps. *)
Definition weight (l : list event) : Z := foldr (fun e acc => Z.abs e.2 + acc) 0 l.

Lemma weight_nonneg l : 0 <= weight l.
Proof. induction l; simpl; lia. Qed.

Lemma weight_app l k : weight (l ++ k) = weight l + weight k.
Proof. induction l; simpl; lia. Qed.

Lemma level_app l k x : level (l ++ k) x = level l x + level k x.
Proof. induction l; simpl; lia. Qed.

Lemma weight_total_app l k : total_delta (l ++ k) = total_delta l + total_delta k.
Proof. induction l; simpl; lia. Qed.

Lemma level_perm l k x : l ≡ₚ k -> level l x = level k x.
Proof. induction 1; simpl; lia. Qed.

Lemma total_perm l k : l ≡ₚ k -> total_delta l = total_delta k.
Proof. induction 1; simpl; lia. Qed.

Lemma weight_perm l k : l ≡ₚ k -> weight l = weight k.
Proof. induction 1; simpl; lia. Qed.

Lemma isize_small z : - 2 ^ 63 <= z < 2 ^ 63 -> isize z = z.
Proof. intros ?. unfold isize. rewrite Z.mod_small by lia. lia. Qed.

(** *** Grouping *)

(** All events of a group share their position, and groups have increasing positions. *)
Definition group_ok (g : list event) : Prop :=
  match g with [] => False | a :: r => Forall (fun b => b.1 = a.1) r end.

Lemma group_by_concat l : concat (group_by l) = l.
Proof.
  induction l as [|a l IH]; [done|]. simpl.
  destruct (group_by l) as [|[|b g] r]; simpl in *; [by rewrite <- IH|by rewrite <- IH|].
  case_match; simpl; by rewrite <- IH.
Qed.

Lemma group_by_ok l : Forall group_ok (group_by l).
Proof.
  induction l as [|a l IH]; simpl; [constructor|].
  destruct (group_by l) as [|[|b g] r]; [repeat constructor|by inversion IH|].
  case_match; [|constructor; [constructor|done]].
  apply list.Forall_cons in IH as [Hb Hr]. constructor; [|done]. bool_to_prop. simpl in *.
  constructor; [done|]. eapply list.Forall_impl; [exact Hb|]. simpl. congruence.
Qed.

(** The groups of a sorted list have strictly increasing positions. *)
Lemma group_by_sorted l :
  StronglySorted event_le l ->
  StronglySorted (fun a b => a.1 < b.1) (sum_group <$> group_by l).
Proof.
  induction 1 as [|a l Hs IH Ha]; simpl; [constructor|].
  pose proof (group_by_ok l) as Hok. pose proof (group_by_concat l) as Hc.
  destruct (group_by l) as [|[|b g] r]; [repeat constructor|by inversion Hok|].
  assert (event_le a b) as Hab by (rewrite <- Hc in Ha; by inversion Ha).
  inversion IH as [|x y Hs' Hf]; subst. destruct (Z.eqb_spec (a.1) (b.1)) as [E|E]; simpl.
  - constructor; [done|]. eapply list.Forall_impl; [exact Hf|]. simpl. lia.
  - assert (a.1 < b.1) by (destruct Hab; lia). constructor; [constructor; done|].
    constructor; [done|]. eapply list.Forall_impl; [exact Hf|]. simpl. intros ? ?. lia.
Qed.

Lemma sum_group_total g : weight g < 2 ^ 63 -> (sum_group g).2 = total_delta g.
Proof.
  intros Hw. unfold sum_group. simpl.
  enough (forall acc, Z.abs acc + weight g < 2 ^ 63 ->
    foldl (fun acc t => isize (acc + t.2)) acc g = acc + total_delta g) as He
    by (rewrite He; simpl; lia).
  clear. induction g as [|e g IH]; intros acc Hacc; simpl in *; [lia|].
  pose proof (weight_nonneg g). rewrite isize_small by lia. rewrite IH by lia. lia.
Qed.

Lemma group_level g x : group_ok g -> weight g < 2 ^ 63 ->
  level g x = if (sum_group g).1 <=? x then (sum_group g).2 else 0.
Proof.
  intros Hok Hw. rewrite sum_group_total by done. destruct g as [|a r]; [done|].
  unfold sum_group. simpl in Hok. simpl.
  assert (level r x = if a.1 <=? x then total_delta r else 0) as ->.
  { clear Hw. induction Hok as [|b r Hb _ IH]; simpl; [by case_match|]. rewrite IH, Hb.
    case_match; lia. }
  case_match; lia.
Qed.

Lemma weight_total g : Z.abs (total_delta g) <= weight g.
Proof. induction g; simpl; lia. Qed.

Lemma groups_level l x : weight l < 2 ^ 63 ->
  level (sum_group <$> group_by l) x = level l x /\
  total_delta (sum_group <$> group_by l) = total_delta l /\
  weight (sum_group <$> group_by l) <= weight l.
Proof.
  pose proof (group_by_ok l) as Hok. rewrite <- (group_by_concat l) at 1 3 5 7.
  induction Hok as [|g r Hg _ IH]; [simpl; lia|].
  change (concat (g :: r)) with (g ++ concat r). rewrite weight_app, level_app, weight_total_app.
  intros Hw. pose proof (weight_nonneg g). pose proof (weight_nonneg (concat r)).
  destruct IH as (IH1 & IH2 & IH3); [lia|]. rewrite (group_level g x) by (done || lia).
  pose proof (weight_total g).
  change (sum_group <$> g :: r) with ([sum_group g] ++ (sum_group <$> r)).
  rewrite level_app, weight_total_app, weight_app, IH1, IH2.
  cbn [level total_delta weight foldr]. rewrite sum_group_total by lia. lia.
Qed.

(** *** The iteration *)

(** One pass over the events, yielding all intervals. *)
Fixpoint scan (l : list event) (s : Z) (last : option Z) : option (list Interval) :=
  match l with
  | [] => Some []
  | (pos, delta) :: l' =>
      let s' := isize (s + delta) in
      if (s <=? 0) && (0 <? s') then scan l' s' (Some pos)
      else if (0 <? s) && (s' <=? 0) then
        match last with
        | Some lft => cons (mkInterval lft pos) <$> scan l' s' None
        | None => None
        end
      else scan l' s' last
  end.

Lemma collect_scan l : forall s last fuel,
  (length l <= fuel)%nat ->
  match next_from l s last with
  | Some (Some i, it') => (cons i) <$> collect fuel it'
  | Some (None, _) => Some []
  | None => None
  end = scan l s last.
Proof.
  induction l as [|[pos delta] l IH]; intros s last fuel Hf; simpl; [done|]. simpl in Hf.
  destruct ((s <=? 0) && _); [apply IH; lia|]. destruct ((0 <? s) && _); [|apply IH; lia].
  destruct last; [|done]. destruct fuel as [|fuel]; [lia|]. cbn [collect]. f_equal.
  unfold next. simpl. apply IH. lia.
Qed.

Definition covered (x : Z) (i : Interval) : Prop := left i <= x < right i.

Lemma scan_spec l : forall s last,
  StronglySorted (fun a b => a.1 < b.1) l ->
  Z.abs s + weight l < 2 ^ 63 -> s + total_delta l <= 0 ->
  (0 < s <-> is_Some last) ->
  (forall p, last = Some p -> Forall (fun e => p < e.1) l) ->
  exists out, scan l s last = Some out /\
    (forall x, (exists i, i ∈ out /\ covered x i) <->
       0 < s + level l x /\ forall p, last = Some p -> p <= x) /\
    StronglySorted (fun i j => right i < left j) out /\
    Forall (fun i => left i < right i) out /\
    (forall p, last = Some p -> Forall (fun i => p <= left i) out) /\
    (last = None -> forall q, Forall (fun e => q < e.1) l -> Forall (fun i => q < left i) out).
Proof.
  induction l as [|[pos delta] l IH]; intros s last Hsort Hw Ht Hlast Hp.
  { exists []. simpl in *. split_and!; try (by constructor); try (by intros; constructor).
    intros x. split; [intros (i & Hi%elem_of_nil & _); done|]. lia. }
  inversion Hsort as [|a b Hsort' Hlt]; subst. cbn [weight total_delta foldr fst snd] in Hw, Ht.
  fold (weight l) in Hw. fold (total_delta l) in Ht. cbn [scan]. cbv zeta.
  pose proof (weight_nonneg l). rewrite isize_small by lia.
  assert (forall x, x < pos -> level l x = 0) as Hbefore.
  { intros x Hx. clear -Hlt Hx. induction Hlt as [|e l He _ IH]; simpl in *; [done|].
    rewrite IH, (proj2 (Z.leb_gt _ _)) by lia. lia. }
  destruct ((s <=? 0) && (0 <? s + delta)) eqn:E1; [|destruct ((0 <? s) && (s + delta <=? 0)) eqn:E2].
  - bool_to_prop. assert (last = None) as -> by (destruct last; [|done]; destruct Hlast as [_ Hl]; specialize (Hl (ltac:(by eexists))); lia).
    destruct (IH (s + delta) (Some pos)) as (out & Eo & Hc & Hs & Hf & Hge & Hgt); try (done || lia).
    { by intros p [= <-]. }
    exists out. split_and!; try done.
    + intros x. rewrite Hc. cbn [level foldr fst snd]. fold (level l x).
      destruct (Z.leb_spec pos x).
      * split; [intros [? _]; split; [lia|done]|]. intros [? _]. split; [lia|]. intros p [= <-]. lia.
      * rewrite Hbefore by done. split; [|lia]. intros [_ Hx]. specialize (Hx pos eq_refl). lia.
    + intros _ q [Hq _]%list.Forall_cons. eapply list.Forall_impl; [by apply Hge|]. simpl in *. lia.
  - bool_to_prop. destruct last as [lft|]; [|destruct Hlast as [Hl _]; by destruct Hl].
    destruct (IH (s + delta) None) as (out & Eo & Hc & Hs & Hf & _ & Hgt); try (done || lia).
    { split; [lia|by intros []]. }
    rewrite Eo. specialize (Hp lft eq_refl). apply list.Forall_cons in Hp as [Hp1 Hp2]. simpl in Hp1.
    eexists. split_and!; [done| | | | |done].
    + intros x. cbn [level foldr fst snd]. fold (level l x).
      transitivity (covered x (mkInterval lft pos) \/ exists i, i ∈ out /\ covered x i).
      { setoid_rewrite elem_of_cons. split; [intros (i & [->|?] & ?); eauto|intros [?|(i & ? & ?)]; eauto]. }
      rewrite Hc. unfold covered. simpl. destruct (Z.leb_spec pos x).
      * split.
        -- intros [?|[? _]]; [lia|]. split; [lia|]. intros p [= <-]. lia.
        -- intros [? _]. right. split; [lia|done].
      * rewrite Hbefore by done. split.
        -- intros [?|[? _]]; [|lia]. split; [lia|]. intros p [= <-]. lia.
        -- intros [_ Hx]. left. specialize (Hx lft eq_refl). lia.
    + constructor; [done|]. by apply Hgt.
    + by constructor.
    + intros p [= <-]. constructor; [simpl; lia|].
      eapply list.Forall_impl; [by apply (Hgt eq_refl pos)|]. simpl. lia.
  - assert (0 < s <-> 0 < s + delta) as Hsame.
    { destruct (Z.leb_spec s 0), (Z.ltb_spec 0 s), (Z.ltb_spec 0 (s + delta)), (Z.leb_spec (s + delta) 0); simpl in *; lia || done. }
    destruct (IH (s + delta) last) as (out & Eo & Hc & Hs & Hf & Hge & Hgt); try (done || lia).
    { by rewrite <- Hsame. }
    { intros p Hpp. by specialize (Hp p Hpp); apply list.Forall_cons in Hp as [_ ?]. }
    exists out. split_and!; try done.
    + intros x. rewrite Hc. cbn [level foldr fst snd]. fold (level l x).
      destruct (Z.leb_spec pos x); [by rewrite Z.add_assoc|].
      rewrite Hbefore by done. rewrite !Z.add_0_r. by rewrite Hsame.
    + intros Hn q [_ Hq]%list.Forall_cons. by apply Hgt.
Qed.

(** ** The client's view *)

(** The calls that build an excluder. *)
Inductive range_op :=
  | AddRange (left right : Z)
  | AddLen (start length : Z)
  | ExcludeRange (left right : Z)
  | ExcludeLen (start length : Z).

Definition run_op (op : range_op) : IntervalExcluder -> option IntervalExcluder :=
  match op with
  | AddRange l r => add_range l r
  | AddLen s n => add_len s n
  | ExcludeRange l r => exclude_range l r
  | ExcludeLen s n => exclude_len s n
  end.

Fixpoint run_ops (ops : list range_op) (e : IntervalExcluder) : option IntervalExcluder :=
  match ops with [] => Some e | op :: ops' => e' ← run_op op e; run_ops ops' e' end.

(** The end points of the range the call names, and whether it adds it. *)
Definition op_bounds (op : range_op) : Z * Z :=
  match op with
  | AddRange l r | ExcludeRange l r => (l, r)
  | AddLen s n | ExcludeLen s n => (s, usize (s + n))
  end.
Definition op_adds (op : range_op) : bool :=
  match op with AddRange _ _ | AddLen _ _ => true | _ => false end.

(** The range is not reversed (and so the length did not wrap around). *)
Definition op_valid (op : range_op) : Prop := (op_bounds op).1 <= (op_bounds op).2.
Definition op_covers (x : Z) (op : range_op) : Prop := (op_bounds op).1 <= x < (op_bounds op).2.
#[export] Instance op_covers_dec x op : Decision (op_covers x op).
Proof. unfold op_covers. apply _. Defined.

Definition op_events (op : range_op) : list event :=
  let k := if op_adds op then 1 else - INF in
  [((op_bounds op).1, k); ((op_bounds op).2, - k)].

Lemma run_op_events op e e' : run_op op e = Some e' ->
  inner e' = inner e ++ op_events op /\ (op_adds op = true -> zlen (inner e') <= INF).
Proof.
  destruct op; simpl; unfold add_len, exclude_len, add_range, exclude_range, op_events; simpl;
    try (by intros [= <-]); (case_match; [done|]; intros [= <-]; bool_to_prop; by split).
Qed.

(** The calls covering [x] that add, and that exclude. *)
Definition adding (x : Z) (ops : list range_op) : list range_op :=
  filter (fun op => op_adds op = true /\ op_covers x op) ops.
Definition excluding (x : Z) (ops : list range_op) : list range_op :=
  filter (fun op => op_adds op = false /\ op_covers x op) ops.

Lemma adding_cons x op ops : zlen (adding x (op :: ops)) = zlen (adding x [op]) + zlen (adding x ops).
Proof. change (op :: ops) with ([op] ++ ops). unfold adding. by rewrite list.filter_app, zlen_app. Qed.

Lemma excluding_cons x op ops :
  zlen (excluding x (op :: ops)) = zlen (excluding x [op]) + zlen (excluding x ops).
Proof. change (op :: ops) with ([op] ++ ops). unfold excluding. by rewrite list.filter_app, zlen_app. Qed.

Lemma adding_pos x ops :
  0 < zlen (adding x ops) <-> exists op, op ∈ ops /\ op_adds op = true /\ op_covers x op.
Proof.
  unfold zlen. split.
  - intros Hl. destruct (adding x ops) as [|op r] eqn:Ea; [simpl in Hl; lia|].
    assert (op ∈ adding x ops) as Hin by (rewrite Ea; left).
    apply list_elem_of_filter in Hin as [[? ?] ?]. eauto.
  - intros (op & Hin & Ha & Hcov).
    assert (op ∈ adding x ops) as Hm by (by apply list_elem_of_filter).
    destruct (adding x ops); [by apply elem_of_nil in Hm|simpl; lia].
Qed.

Lemma excluding_zero x ops :
  zlen (excluding x ops) = 0 <->
  forall op, op ∈ ops -> op_adds op = false -> ~ op_covers x op.
Proof.
  unfold zlen. split.
  - intros Hl op Hin Ha Hcov.
    assert (op ∈ excluding x ops) as Hm by (by apply list_elem_of_filter).
    destruct (excluding x ops); [by apply elem_of_nil in Hm|simpl in Hl; lia].
  - intros Hno. destruct (excluding x ops) as [|op r] eqn:Ea; [done|].
    assert (op ∈ excluding x ops) as Hin by (rewrite Ea; left).
    apply list_elem_of_filter in Hin as [[Ha Hcov] Hin]. by destruct (Hno op Hin Ha).
Qed.

Lemma op_events_level op x : op_valid op ->
  level (op_events op) x = zlen (adding x [op]) - INF * zlen (excluding x [op]).
Proof.
  unfold op_valid, op_events, adding, excluding, zlen. intros Hv. simpl. unfold filter. simpl.
  destruct (op_adds op); repeat case_decide; unfold op_covers in *; zcases; simpl;
    try (exfalso; naive_solver lia); unfold INF; lia.
Qed.

Lemma run_ops_spec ops : forall e e',
  run_ops ops e = Some e' -> Forall op_valid ops ->
  (forall x, level (inner e') x = level (inner e) x + zlen (adding x ops) - INF * zlen (excluding x ops)) /\
  total_delta (inner e') = total_delta (inner e) /\
  weight (inner e') <= weight (inner e) + 2 * INF * zlen ops /\
  zlen (inner e) <= zlen (inner e') /\
  (zlen (inner e) + 2 * zlen (filter (fun op => op_adds op = true) ops) <= INF \/
   filter (fun op => op_adds op = true) ops = []).
Proof.
  induction ops as [|op ops IH]; intros e e'; simpl.
  { intros [= <-] _. unfold zlen. simpl. split_and!; try lia. by right. }
  destruct (run_op op e) as [e1|] eqn:E; [|done]. simpl. intros Hr [Hv Hvs]%list.Forall_cons.
  destruct (run_op_events op e e1 E) as [Ei Ha]. destruct (IH e1 e' Hr Hvs) as (H1 & H2 & H3 & H4 & H5).
  rewrite Ei in H1, H2, H3, H4, H5. rewrite zlen_app in H4, H5.
  assert (zlen (op_events op) = 2) as E2 by done. rewrite E2 in *. split_and!.
  - intros x. rewrite H1, level_app, op_events_level by done.
    rewrite (adding_cons x op ops), (excluding_cons x op ops). lia.
  - rewrite H2, weight_total_app. unfold op_events. simpl. lia.
  - rewrite weight_app in H3. unfold zlen in *. simpl length.
    assert (weight (op_events op) <= 2 * INF) by (unfold op_events, INF; simpl; destruct (op_adds op); lia).
    lia.
  - lia.
  - rewrite filter_cons. case_decide as Hadd; [left|].
    + specialize (Ha Hadd). rewrite Ei, zlen_app, E2 in Ha.
      destruct H5 as [H5|H5]; [|rewrite H5]; unfold zlen in *; simpl length; lia.
    + destruct H5; [left; lia|by right].
Qed.

#[export] Instance event_le_total : Total event_le.
Proof. intros a b. unfold event_le. lia. Qed.

#[export] Instance event_le_trans : Transitive event_le.
Proof. intros a b c. unfold event_le. lia. Qed.

(** C25. The intervals an excluder yields.  For any sequence of [add]/[exclude] calls with
    ranges that are not reversed (few enough that the [isize] sums cannot overflow) that does not
    trip the "too many intervals" panic, iterating terminates, never reads the uninitialised
    local, and yields non-empty intervals in increasing order, no two of them touching, that
    cover exactly the points inside some added range and outside every excluded one. *)
Theorem intervals_are_the_difference ops e :
  Forall op_valid ops -> 2 * INF * zlen ops < 2 ^ 63 ->
  run_ops ops (mkIE []) = Some e ->
  exists out, collect (S (length (events (into_iter e)))) (into_iter e) = Some out /\
    (forall x, (exists i, i ∈ out /\ covered x i) <->
       (exists op, op ∈ ops /\ op_adds op = true /\ op_covers x op) /\
       (forall op, op ∈ ops -> op_adds op = false -> ~ op_covers x op)) /\
    StronglySorted (fun i j => right i < left j) out /\ Forall (fun i => left i < right i) out.
Proof.
  intros Hv Hn Hr. destruct (run_ops_spec ops _ _ Hr Hv) as (H1 & H2 & H3 & H4 & H5). simpl in *.
  pose proof (merge_sort_Permutation event_le (inner e)) as Hp.
  assert (StronglySorted event_le (merge_sort event_le (inner e))) as Hss.
  { by apply (StronglySorted_merge_sort _). }
  set (m := merge_sort event_le (inner e)) in *.
  assert (weight m < 2 ^ 63) as Hw by (rewrite (weight_perm _ _ Hp); lia).
  pose proof (group_by_sorted m Hss) as Hgs.
  destruct (groups_level m 0 Hw) as (_ & Gt & Gw).
  destruct (scan_spec (sum_group <$> group_by m) 0 None Hgs) as (out & Eo & Hc & Hs & Hf & _).
  { lia. } { rewrite Gt, (total_perm _ _ Hp), H2. lia. }
  { split; [lia|by intros []]. } { done. }
  exists out. split_and!; [| |done|done].
  - cbn [collect]. unfold next, into_iter. cbn [events sum]. fold m.
    by rewrite collect_scan.
  - intros x. rewrite Hc. destruct (groups_level m x Hw) as (-> & _ & _).
    rewrite (level_perm _ _ x Hp), H1. simpl level.
    assert (zlen (adding x ops) <= zlen (filter (fun op => op_adds op = true) ops)) as Hle.
    { unfold zlen, adding. clear. induction ops as [|op ops IH]; [done|].
      rewrite !filter_cons. repeat case_decide; simpl; try lia. naive_solver. }
    assert (zlen (adding x ops) < INF) as Hlt.
    { destruct H5 as [H5|H5]; [unfold zlen, INF in *; simpl in *; lia|].
      rewrite H5 in Hle. unfold zlen, INF in *. simpl in *. lia. }
    rewrite <- adding_pos, <- excluding_zero. pose proof (zlen_nonneg (excluding x ops)).
    unfold INF in *. split; [intros [? _]; lia|]. intros [? ?]. split; [lia|done].
Qed.

(** A hole in the middle, and two ranges that overlap: two intervals. *)
Definition demo_ops : list range_op :=
  [AddRange 10 50; AddLen 40 40; ExcludeLen 20 5; AddRange 70 75].

Lemma intervals_are_the_difference_witness :
  collect 7 (into_iter (mkIE (mjoin (op_events <$> demo_ops))))
    = Some [mkInterval 10 20; mkInterval 25 80] /\
  exists e out, run_ops demo_ops (mkIE []) = Some e /\
    collect (S (length (events (into_iter e)))) (into_iter e) = Some out /\
    (forall x, (exists i, i ∈ out /\ covered x i) <->
       (exists op, op ∈ demo_ops /\ op_adds op = true /\ op_covers x op) /\
       (forall op, op ∈ demo_ops -> op_adds op = false -> ~ op_covers x op)) /\
    StronglySorted (fun i j => right i < left j) out /\ Forall (fun i => left i < right i) out.
Proof.
  split; [vm_compute; reflexivity|].
  destruct (intervals_are_the_difference demo_ops (mkIE (mjoin (op_events <$> demo_ops))))
    as (out & H).
  - repeat constructor; vm_compute; congruence.
  - vm_compute. reflexivity.
  - vm_compute. reflexivity.
  - exists (mkIE (mjoin (op_events <$> demo_ops))), out. split; [vm_compute; reflexivity|exact H].
Defined.
