(* ===== verification/Vm.v ===== *)
(** * Vm: the VM object of [kernel/vm.rs]

    Which physical cores a VM gets, the translation between virtual and physical CPU ids and
    masks, the interrupts a VM may touch, the IPA to PA translation over its memory regions,
    and the global list of VMs. *)
From stdpp Require Import sorting.
From S2P Require Import Prelude Bits Bitmap.

(** src: kernel/vcpu.rs 40-44 [VcpuInnerConst]
    The identity of a vCPU: its index in the VM, the core it runs on, and its VM. *)
Record Vcpu := mkVcpu { vcpu_id : Z; phys_id : Z; vcpu_vm_id : Z }.

(** src: config/config.rs 57-72 [VmEmulatedDeviceConfig] *)
Record VmEmulatedDeviceConfig := mkEmuCfg { base_ipa : Z; emu_length : Z; irq_id : Z; emu_type : Z }.

(** src: config/config.rs 159-163 [VmCpuConfig] *)
Record VmCpuConfig := mkCpuCfg { cpu_num : Z; allocate_bitmap : Z; master : option Z }.

(** src: kernel/vm.rs 141-145 [VmPa] *)
Record VmPa := mkVmPa { pa_start : Z; pa_length : Z; pa_offset : Z }.

(** src: kernel/vm.rs 165-194 [Vm and its parts] *)
Record Vm := mkVm {
  vm_id : Z;
  cpu_cfg : VmCpuConfig;
  emu_dev_list : list VmEmulatedDeviceConfig;
  vcpu_list : list Vcpu;
  int_bitmap : BitAlloc4K;
  mem_region_num : Z;
  pa_region : list VmPa;
}.

(** ** Physical cores *)

(** src: kernel/vm.rs 333-340 [cal_phys_id_list loop]
    The loop over the bits of the bitmap; [keep] is the test on the id. *)
Fixpoint scan_phys_ids (fuel : nat) (bm id : Z) (keep : Z -> bool) : list Z :=
  match fuel with
  | O => []
  | S fuel' =>
      if bm =? 0 then []
      else (if testm bm 1 && keep id then [id] else []) ++
           scan_phys_ids fuel' (Z.shiftr bm 1) (id + 1) keep
  end.

(** src: kernel/vm.rs 325-352 [cal_phys_id_list] *)
Definition cal_phys_id_list (c : VmCpuConfig) : list Z :=
  match master c with
  | Some m =>
      (if testm (allocate_bitmap c) (shlw 32 1 m) then [m] else []) ++
      scan_phys_ids 32 (allocate_bitmap c) 0 (fun p => negb (p =? m))
  | None => scan_phys_ids 32 (allocate_bitmap c) 0 (fun _ => true)
  end.

(** src: kernel/vm.rs 197-210 [VmInnerConst::new: the vCPU list]
    [None] when the configured number of cores differs from the bitmap's. *)
Definition make_vcpu_list (id : Z) (c : VmCpuConfig) : option (list Vcpu) :=
  let ids := cal_phys_id_list c in
  if zlen ids =? cpu_num c then
    match ids with
    | [] => None     (* first().unwrap() *)
    | _ => Some (zip_with (fun v p => mkVcpu v p id) (zrange 0 (length ids)) ids)
    end
  else None.

(** src: kernel/vm.rs 308-322 [VmInnerConst::init_devices: the interrupt bitmap] *)
Definition init_int_bitmap (emu : list VmEmulatedDeviceConfig) (irqs : list Z)
  : option BitAlloc4K :=
  foldl (fun m i => b ← m; ba_set b i) (Some DEFAULT)
    (filter (fun i => i <> 0) (irq_id <$> emu) ++ irqs).

(** ** Translations *)

(** src: kernel/vm.rs 577-579 [Vm::ncpu] *)
Definition ncpu (vm : Vm) : Z := allocate_bitmap (cpu_cfg vm).

(** src: kernel/vm.rs 412-427 [Vm::vcpu] *)
Definition vcpu (vm : Vm) (index : Z) : option Vcpu := zget (vcpu_list vm) index.

(** src: kernel/vm.rs 582-584 [Vm::has_interrupt] *)
Definition has_interrupt (vm : Vm) (int_id : Z) : option bool :=
  (fun b => negb (b =? 0)) <$> ba_get (int_bitmap vm) int_id.

(** src: kernel/vm.rs 586-593 [Vm::emu_has_interrupt] *)
Definition emu_has_interrupt (vm : Vm) (int_id : Z) : bool :=
  existsb (fun d => int_id =? irq_id d) (emu_dev_list vm).

(** src: kernel/vm.rs 595-600 [Vm::vcpuid_to_vcpu] *)
Definition vcpuid_to_vcpu (vm : Vm) (id : Z) : option Vcpu :=
  List.find (fun v => vcpu_id v =? id) (vcpu_list vm).

(** src: kernel/vm.rs 602-607 [Vm::vcpuid_to_pcpuid] *)
Definition vcpuid_to_pcpuid (vm : Vm) (vcpuid : Z) : option Z :=
  phys_id <$> zget (vcpu_list vm) vcpuid.

(** src: kernel/vm.rs 609-616 [Vm::pcpuid_to_vcpuid] *)
Definition pcpuid_to_vcpuid (vm : Vm) (pcpuid : Z) : option Z :=
  vcpu_id <$> List.find (fun v => phys_id v =? pcpuid) (vcpu_list vm).

(** The common loop of the two mask translations. *)
Definition translate_mask (shift : Z -> option Z) (mask : Z) (len : nat) : Z :=
  foldl (fun pmask i =>
    match shift i with
    | Some k => if testm mask (shlw 64 1 i) then Z.lor pmask (shlw 64 1 k) else pmask
    | None => pmask
    end) 0 (zrange 0 len).

(** src: kernel/vm.rs 618-627 [Vm::vcpu_to_pcpu_mask] *)
Definition vcpu_to_pcpu_mask (vm : Vm) (mask : Z) (len : nat) : Z :=
  translate_mask (vcpuid_to_pcpuid vm) mask len.

(** src: kernel/vm.rs 629-638 [Vm::pcpu_to_vcpu_mask] *)
Definition pcpu_to_vcpu_mask (vm : Vm) (mask : Z) (len : nat) : Z :=
  translate_mask (pcpuid_to_vcpuid vm) mask len.

(** src: kernel/vm.rs 645-659 [Vm::get_vcpu_by_mpidr]
    [rk3588] is the platform feature. *)
Definition get_vcpu_by_mpidr (rk3588 : bool) (vm : Vm) (mpidr : Z) : option Vcpu :=
  let cpuid :=
    if testm (Z.shiftr mpidr 8) 0xff then
      (if rk3588 then Z.shiftr mpidr 8 else usize (4 + Z.land mpidr 0xff))
    else Z.land mpidr 0xff in
  vcpuid_to_vcpu vm cpuid.

(** src: kernel/vm.rs 750-761 [cpuid2mpidr] *)
Definition cpuid2mpidr (rk3588 : bool) (cpuid : Z) : Z :=
  if rk3588 then Z.lor 0x81000000 (shlw 64 cpuid 8)
  else if cpuid <? 4 then Z.lor cpuid (Z.shiftl 1 31)
  else Z.lor (Z.lor 0x100 (usize (cpuid - 4))) (Z.shiftl 1 31).

(** The loop of the translation over the region indices. *)
Fixpoint ipa2pa_from (regions : list VmPa) (ipa : Z) (idx : list Z) : option Z :=
  match idx with
  | [] => Some 0
  | i :: idx' =>
      match zget regions i with
      | None => None     (* pa_region[idx] out of bounds *)
      | Some r =>
          let pa := usize (ipa - pa_offset r) in
          if in_range pa (pa_start r) (pa_length r) then Some pa
          else ipa2pa_from regions ipa idx'
      end
  end.

(** src: kernel/vm.rs 661-680 [Vm::ipa2pa] *)
Definition ipa2pa (vm : Vm) (ipa : Z) : option Z :=
  if ipa =? 0 then Some 0
  else ipa2pa_from (pa_region vm) ipa (zrange 0 (Z.to_nat (mem_region_num vm))).

(** src: kernel/vm.rs 729-748 [vm_ipa2pa]
    The same function once more, outside the [impl]. *)
Definition vm_ipa2pa (vm : Vm) (ipa : Z) : option Z :=
  if ipa =? 0 then Some 0
  else ipa2pa_from (pa_region vm) ipa (zrange 0 (Z.to_nat (mem_region_num vm))).

(** ** The global VM list *)

(** src: kernel/vm.rs 696-707 [push_vm]
    [false] is the [Err] of a VM that exists already. *)
Definition push_vm (v : Vm) : M (list Vm) bool := fun l =>
  if existsb (fun x => vm_id x =? vm_id v) l then Ret false l else Ret true (l ++ [v]).

(** src: kernel/vm.rs 709-717 [remove_vm] *)
Fixpoint remove_vm (id : Z) (l : list Vm) : option (Vm * list Vm) :=
  match l with
  | [] => None     (* panic: not in the list *)
  | v :: l' =>
      if vm_id v =? id then Some (v, l')
      else match remove_vm id l' with Some (x, r) => Some (x, v :: r) | None => None end
  end.

(** src: kernel/vm.rs 719-722 [vm] *)
Definition vm_by_id (id : Z) (l : list Vm) : option Vm := List.find (fun x => vm_id x =? id) l.

(** ** Lemmas *)

Lemma testm_1 x : testm x 1 = Z.testbit x 0.
Proof. apply (testm_bit x 0). lia. Qed.

Lemma scan_phys_ids_spec fuel : forall bm id keep,
  0 <= bm -> (forall i, Z.of_nat fuel <= i -> Z.testbit bm i = false) ->
  (forall p, p ∈ scan_phys_ids fuel bm id keep <->
     id <= p /\ Z.testbit bm (p - id) = true /\ keep p = true) /\
  StronglySorted Z.lt (scan_phys_ids fuel bm id keep).
Proof.
  induction fuel as [|fuel IH]; intros bm id keep Hbm Hhi; simpl.
  { split; [|constructor]. intros p. rewrite elem_of_nil. split; [done|].
    intros (Hp & Ht & _). rewrite Hhi in Ht by lia. done. }
  destruct (Z.eqb_spec bm 0) as [->|Hne].
  { split; [|constructor]. intros p. rewrite elem_of_nil, Z.testbit_0_l. naive_solver. }
  destruct (IH (Z.shiftr bm 1) (id + 1) keep) as [Hin Hs].
  { by apply Z.shiftr_nonneg. }
  { intros i Hi. rewrite Z.shiftr_spec by lia. apply Hhi. lia. }
  assert (forall p, p ∈ scan_phys_ids fuel (Z.shiftr bm 1) (id + 1) keep <->
    id < p /\ Z.testbit bm (p - id) = true /\ keep p = true) as Hin'.
  { intros p. rewrite Hin. destruct (decide (id + 1 <= p)); [|split; [lia|intros (? & ? & ?); lia]].
    rewrite Z.shiftr_spec by lia. replace (p - (id + 1) + 1) with (p - id) by lia.
    split; intros (? & ? & ?); split_and!; (done || lia). }
  rewrite testm_1. destruct (Z.testbit bm 0 && keep id) eqn:E; simpl.
  - apply andb_true_iff in E as [E1 E2]. split.
    + intros p. rewrite elem_of_cons, Hin'. destruct (decide (p = id)) as [->|].
      * rewrite Z.sub_diag. split; [intros _; split_and!; (done || lia)|by left].
      * split; [intros [?|(? & ? & ?)]; [done|split_and!; (done || lia)]|].
        intros (? & ? & ?). right. split_and!; (done || lia).
    + constructor; [done|]. apply list.Forall_forall. intros p Hp%Hin'. lia.
  - split; [|done]. intros p. rewrite Hin'. destruct (decide (p = id)) as [->|].
    + rewrite Z.sub_diag. apply andb_false_iff in E. split; [lia|]. intros (_ & ? & ?). destruct E; congruence.
    + split; intros (? & ? & ?); split_and!; (done || lia).
Qed.

Lemma StronglySorted_lt_NoDup l : StronglySorted Z.lt l -> NoDup l.
Proof.
  induction 1 as [|x l _ IH Hx]; [constructor|]. apply list.NoDup_cons. split; [|done].
  intros Hin. rewrite list.Forall_forall in Hx. specialize (Hx x Hin). lia.
Qed.

(** The cores of a VM.  The list of physical ids holds exactly the bits of the
    32-bit allocation bitmap, each once, and the configured master core is its head
    whenever the bitmap contains it. *)
Theorem cal_phys_id_list_spec c :
  in_word 32 (allocate_bitmap c) ->
  (forall m, master c = Some m -> 0 <= m < 32) ->
  NoDup (cal_phys_id_list c) /\
  (forall p, p ∈ cal_phys_id_list c <-> 0 <= p /\ Z.testbit (allocate_bitmap c) p = true) /\
  (forall m, master c = Some m -> Z.testbit (allocate_bitmap c) m = true ->
     head (cal_phys_id_list c) = Some m).
Proof.
  intros Hw Hm. unfold cal_phys_id_list.
  assert (forall i, Z.of_nat 32 <= i -> Z.testbit (allocate_bitmap c) i = false) as Hhi.
  { intros i ?. by apply (testbit_high 32). }
  destruct Hw as [Hnn _]. destruct (master c) as [m|].
  - specialize (Hm m eq_refl).
    assert (shlw 32 1 m = Z.shiftl 1 m) as ->.
    { unfold shlw. rewrite (Z.mod_small m 32) by lia. apply wrap_small.
      rewrite Z.shiftl_1_l. split; [lia|]. apply Z.pow_lt_mono_r; lia. }
    rewrite testm_bit by lia.
    destruct (scan_phys_ids_spec 32 (allocate_bitmap c) 0 (fun p => negb (p =? m)) Hnn Hhi) as [Hin Hs].
    set (l := scan_phys_ids _ _ _ _) in *.
    assert (forall p, p ∈ l <-> 0 <= p /\ Z.testbit (allocate_bitmap c) p = true /\ p <> m) as Hin'.
    { intros p. rewrite Hin, Z.sub_0_r, negb_true_iff, Z.eqb_neq. done. }
    apply StronglySorted_lt_NoDup in Hs. destruct (Z.testbit (allocate_bitmap c) m) eqn:E; simpl.
    + split_and!; [|intros p|by intros ? [= <-]].
      * apply list.NoDup_cons. split; [|done]. rewrite Hin'. by intros (_ & _ & ?).
      * rewrite elem_of_cons, Hin'. destruct (decide (p = m)) as [->|Hne].
        -- split; [intros _; split; [lia|done]|by left].
        -- split; [intros [?|(? & ? & ?)]; done|intros [? ?]; by right].
    + split_and!; [done|intros p|intros ? [= <-]; congruence].
      rewrite Hin'. split; [by intros (? & ? & _)|]. intros [? ?]. split_and!; [done..|]. intros ->. congruence.
  - destruct (scan_phys_ids_spec 32 (allocate_bitmap c) 0 (fun _ => true) Hnn Hhi) as [Hin Hs].
    split_and!; [by apply StronglySorted_lt_NoDup|intros p|done].
    rewrite Hin, Z.sub_0_r. split; [by intros (? & ? & _)|by intros [? ?]].
Qed.

(** A set bit of a translated mask comes from a set bit of the mask. *)
Lemma translate_mask_testbit shift mask len k :
  (len <= 64)%nat -> (forall i s, shift i = Some s -> 0 <= s < 64) -> 0 <= k ->
  Z.testbit (translate_mask shift mask len) k = true <->
  exists i, 0 <= i < Z.of_nat len /\ shift i = Some k /\ Z.testbit mask i = true.
Proof.
  intros Hlen Hs Hk. unfold translate_mask. induction len as [|len IH].
  - simpl. rewrite Z.testbit_0_l. split; [done|]. intros (? & ? & _). lia.
  - rewrite zrange_S, foldl_app, Z.add_0_l. simpl. specialize (IH ltac:(lia)).
    set (acc := foldl _ 0 (zrange 0 len)) in *. set (n := Z.of_nat len) in *.
    assert ((exists i, 0 <= i < Z.of_nat (S len) /\ shift i = Some k /\ Z.testbit mask i = true) <->
      Z.testbit acc k = true \/ (shift n = Some k /\ Z.testbit mask n = true)) as ->.
    { rewrite IH. split.
      - intros (i & ? & ? & ?). destruct (decide (i = n)) as [->|]; [by right|left].
        exists i. split_and!; (done || lia).
      - intros [(i & ? & ? & ?)|[? ?]]; [exists i|exists n]; split_and!; (done || lia). }
    clear IH. destruct (shift n) as [s|] eqn:E; [|clear Hs; intuition congruence].
    pose proof (Hs n s E). rewrite shlw_1, <- Z.shiftl_1_l, testm_bit by lia.
    destruct (Z.testbit mask n) eqn:Em; [|clear Hs; intuition congruence].
    rewrite Z.lor_spec, shlw_1, Z.pow2_bits_eqb, orb_true_iff, Z.eqb_eq by lia.
    clear Hs. intuition congruence.
Qed.

(** The vCPU list as [VmInnerConst::new] builds it: ids are indices, cores are distinct. *)
Definition vcpus_ok (vm : Vm) : Prop :=
  (forall i v, zget (vcpu_list vm) i = Some v -> vcpu_id v = i /\ 0 <= phys_id v < 8) /\
  (forall i j v w, zget (vcpu_list vm) i = Some v -> zget (vcpu_list vm) j = Some w ->
     phys_id v = phys_id w -> i = j).

Lemma zget_find {A} (f : A -> bool) (l : list A) x :
  List.find f l = Some x -> f x = true /\ exists i, zget l i = Some x.
Proof.
  intros E. apply List.find_some in E as [Hin Hf]. split; [done|].
  apply list_elem_of_In, list_elem_of_lookup in Hin as [i Hi]. exists (Z.of_nat i).
  unfold zget. destruct (Z.leb_spec 0 (Z.of_nat i)); [|lia]. by rewrite Nat2Z.id.
Qed.

Lemma pcpuid_vcpuid vm p v : vcpus_ok vm ->
  pcpuid_to_vcpuid vm p = Some v <-> vcpuid_to_pcpuid vm v = Some p.
Proof.
  intros [Hid Hinj]. unfold pcpuid_to_vcpuid, vcpuid_to_pcpuid. split.
  - destruct (List.find _ _) as [w|] eqn:E; [|done]. intros [= <-].
    apply zget_find in E as [Hp [i Hi]]. apply Z.eqb_eq in Hp. destruct (Hid i w Hi) as [-> _].
    by rewrite Hi, <- Hp.
  - destruct (zget (vcpu_list vm) v) as [w|] eqn:Ew; [|done]. intros [= <-].
    destruct (List.find _ _) as [w'|] eqn:E.
    + apply zget_find in E as [Hp [i Hi]]. apply Z.eqb_eq in Hp.
      assert (i = v) as -> by (eapply Hinj; [exact Hi|exact Ew|done]).
      simpl. by destruct (Hid v w' Hi) as [-> _].
    + exfalso. assert (List.In w (vcpu_list vm)) as Hw.
      { apply list_elem_of_In. unfold zget in Ew. destruct (0 <=? v); [|done].
        by eapply list_elem_of_lookup_2. }
      pose proof (List.find_none _ _ E w Hw) as Hn. simpl in Hn. by rewrite Z.eqb_refl in Hn.
Qed.

(** Interrupt target masks.  The guest writes masks of virtual CPUs and reads them
    back: translating to physical CPUs and back gives the mask restricted to
    the vCPUs the VM has, and every bit of the physical mask is the core of one of them. *)
Theorem cpu_mask_roundtrip vm mask :
  vcpus_ok vm -> (length (vcpu_list vm) <= 8)%nat ->
  (forall i, 0 <= i ->
     Z.testbit (pcpu_to_vcpu_mask vm (vcpu_to_pcpu_mask vm mask 8) 8) i = true <->
     Z.testbit mask i = true /\ i < zlen (vcpu_list vm)) /\
  (forall p, 0 <= p -> Z.testbit (vcpu_to_pcpu_mask vm mask 8) p = true <->
     exists v, vcpuid_to_pcpuid vm v = Some p /\ Z.testbit mask v = true).
Proof.
  intros Hok Hlen.
  assert (forall i s, vcpuid_to_pcpuid vm i = Some s -> 0 <= s < 8 /\ 0 <= i < 8) as H1.
  { unfold vcpuid_to_pcpuid. intros i s. destruct (zget (vcpu_list vm) i) as [v|] eqn:E; [|done].
    intros [= <-]. apply zget_Some_bounds in E as Hb. destruct Hok as [Hid _].
    destruct (Hid i v E). unfold zlen in Hb. lia. }
  assert (forall i s, pcpuid_to_vcpuid vm i = Some s -> 0 <= s < 8 /\ 0 <= i < 8) as H2.
  { intros i s. rewrite (pcpuid_vcpuid vm i s Hok). intros ?%H1. lia. }
  assert (forall p, 0 <= p -> Z.testbit (vcpu_to_pcpu_mask vm mask 8) p = true <->
     exists v, vcpuid_to_pcpuid vm v = Some p /\ Z.testbit mask v = true) as Hp.
  { intros p ?. unfold vcpu_to_pcpu_mask.
    rewrite translate_mask_testbit by (lia || (intros i s ?%H1; lia)).
    split; [intros (i & _ & ? & ?); eauto|]. intros (v & Hv & ?). exists v.
    pose proof (H1 v p Hv). split_and!; (done || lia). }
  split; [|exact Hp]. intros i Hi. unfold pcpu_to_vcpu_mask.
  rewrite translate_mask_testbit by (lia || (intros j s ?%H2; lia)). split.
  - intros (p & Hpr & Hpv & Hm). apply Hp in Hm as (v & Hv & Hmv); [|lia].
    apply (pcpuid_vcpuid vm p i Hok) in Hpv.
    assert (i = v) as ->.
    { unfold vcpuid_to_pcpuid in Hv, Hpv. destruct Hok as [_ Hinj].
      destruct (zget (vcpu_list vm) v) as [x|] eqn:Ex; [|done].
      destruct (zget (vcpu_list vm) i) as [y|] eqn:Ey; [|done]. simplify_eq/=.
      eapply Hinj; [exact Ey|exact Ex|congruence]. }
    split; [done|]. unfold vcpuid_to_pcpuid in Hv.
    destruct (zget (vcpu_list vm) v) eqn:Ex; [|done]. apply zget_Some_bounds in Ex. lia.
  - intros [Hm Hl]. destruct (zget_in_bounds (vcpu_list vm) i) as [x Ex]; [lia|].
    assert (vcpuid_to_pcpuid vm i = Some (phys_id x)) as Ev by (unfold vcpuid_to_pcpuid; by rewrite Ex).
    pose proof (H1 i _ Ev). exists (phys_id x). split_and!; [lia|lia| |].
    + by apply pcpuid_vcpuid.
    + apply Hp; [lia|]. eauto.
Qed.

(** *** IPA translation *)

Definition region_valid (r : VmPa) : Prop :=
  in_word 64 (pa_start r) /\ 0 <= pa_length r /\ in_word 64 (pa_start r + pa_length r).

Lemma in_range_spec a b n : in_word 64 a -> 0 <= b -> in_word 64 (b + n) ->
  in_range a b n = true <-> b <= a <= b + n.
Proof.
  intros Ha Hb Hn. unfold in_range, range_in_range.
  rewrite Z.add_0_r, !wrap_small by done. rewrite andb_true_iff, !Z.leb_le. done.
Qed.

Lemma ipa2pa_from_spec regions ipa idx pa :
  Forall region_valid regions -> (forall i, i ∈ idx -> 0 <= i < zlen regions) ->
  ipa2pa_from regions ipa idx = Some pa -> pa <> 0 ->
  exists r, r ∈ regions /\ pa = usize (ipa - pa_offset r) /\
            pa_start r <= pa <= pa_start r + pa_length r.
Proof.
  intros Hv. induction idx as [|i idx IH]; intros Hi; simpl; [intros [= <-]; done|].
  destruct (zget regions i) as [r|] eqn:E; [|done].
  assert (r ∈ regions) as Hr.
  { unfold zget in E. destruct (0 <=? i); [|done]. by eapply list_elem_of_lookup_2. }
  rewrite list.Forall_forall in Hv. destruct (Hv r Hr) as ([? ?] & ? & ?).
  destruct (in_range _ _ _) eqn:Er.
  - intros [= <-] _. exists r. apply in_range_spec in Er; [|by apply wrap_range|done|done].
    split_and!; (done || lia).
  - apply IH. intros j Hj. apply Hi. by right.
Qed.

(** IPA to PA translation.  With regions that do not wrap, a non-zero result is the guest
    address minus the offset of one of the VM's regions and lies between that region's first byte
    and one past its last; and an address whose translation falls strictly inside a region never
    fails. *)
Theorem ipa2pa_in_region vm ipa pa :
  Forall region_valid (pa_region vm) -> 0 <= mem_region_num vm <= zlen (pa_region vm) ->
  ipa2pa vm ipa = Some pa -> pa <> 0 ->
  exists r, r ∈ pa_region vm /\ pa = usize (ipa - pa_offset r) /\
            pa_start r <= pa <= pa_start r + pa_length r.
Proof.
  intros Hv Hn. unfold ipa2pa. destruct (ipa =? 0); [intros [= <-]; done|].
  apply ipa2pa_from_spec; [done|]. intros i [? ?]%zrange_elem. lia.
Qed.

(** The translation accepts one address too many: [in_range] tests the closed
    interval, so the guest address just past the end of the VM's only region is translated to
    the physical address just past it, a byte that is not the VM's. *)
Theorem ipa2pa_accepts_region_end vm r :
  pa_region vm = [r] -> mem_region_num vm = 1 -> region_valid r ->
  0 < pa_start r -> in_word 64 (pa_start r + pa_length r + pa_offset r) -> 0 <= pa_offset r ->
  ipa2pa vm (pa_start r + pa_length r + pa_offset r) = Some (pa_start r + pa_length r).
Proof.
  intros Hr Hn (Hs & Hl & He) Hp Hi Ho. unfold ipa2pa. rewrite Hr, Hn.
  rewrite (proj2 (Z.eqb_neq _ 0)) by lia. simpl. rewrite Z.add_simpl_r, wrap_small by done.
  assert (in_range (pa_start r + pa_length r) (pa_start r) (pa_length r) = true) as ->; [|done].
  apply in_range_spec; [done|lia|done|lia].
Qed.

(** *** The VM list *)

(** No two VMs of the list share an id. *)
Definition vm_ids_ok (l : list Vm) : Prop := NoDup (vm_id <$> l).

Lemma existsb_vm_id id l : existsb (fun x => vm_id x =? id) l = true <-> id ∈ vm_id <$> l.
Proof.
  rewrite existsb_exists, list_elem_of_fmap. setoid_rewrite Z.eqb_eq.
  setoid_rewrite list_elem_of_In. naive_solver.
Qed.

Lemma remove_vm_perm id l v r :
  remove_vm id l = Some (v, r) -> vm_id v = id /\ l ≡ₚ v :: r.
Proof.
  revert r. induction l as [|x l IH]; intros r; simpl; [done|].
  destruct (Z.eqb_spec (vm_id x) id) as [E|E]; [by intros [= <- <-]|].
  destruct (remove_vm id l) as [[y r']|]; [|done]. intros [= -> <-].
  destruct (IH r' eq_refl) as [Hv Hp]. split; [done|]. rewrite Hp. apply Permutation_swap.
Qed.

Lemma remove_vm_None id l : remove_vm id l = None <-> id ∉ vm_id <$> l.
Proof.
  induction l as [|x l IH]; simpl; [split; [by intros _ ?%elem_of_nil|done]|].
  rewrite list.not_elem_of_cons, <- IH.
  destruct (Z.eqb_spec (vm_id x) id); [split; [done|intros [? _]; congruence]|].
  destruct (remove_vm id l) as [[]|]; split; intuition congruence.
Qed.

Lemma vm_by_id_push id l v :
  vm_id v ∉ vm_id <$> l ->
  vm_by_id id (l ++ [v]) = if decide (id = vm_id v) then Some v else vm_by_id id l.
Proof.
  unfold vm_by_id. induction l as [|x l IH]; simpl; intros Hd.
  - case_decide as E; [by rewrite E, Z.eqb_refl|]. by rewrite (proj2 (Z.eqb_neq _ _)) by done.
  - apply list.not_elem_of_cons in Hd as [Hd1 Hd2]. rewrite IH by done.
    destruct (Z.eqb_spec (vm_id x) id); [|done]. case_decide; congruence.
Qed.

(** The VM list keeps ids unique: [push_vm] refuses an id that is present and
    otherwise makes the VM findable under its id without disturbing the others; removing a
    present id returns that VM and leaves exactly the others; removing an absent id is the
    only way to panic. *)
Theorem vm_list_spec l v :
  vm_ids_ok l ->
  (if decide (vm_id v ∈ vm_id <$> l) then push_vm v l = Ret false l
   else exists l', push_vm v l = Ret true l' /\ vm_ids_ok l' /\
     forall id, vm_by_id id l' = if decide (id = vm_id v) then Some v else vm_by_id id l) /\
  (forall id w l', remove_vm id l = Some (w, l') ->
     vm_id w = id /\ l ≡ₚ w :: l' /\ vm_ids_ok l' /\ id ∉ vm_id <$> l') /\
  (forall id, remove_vm id l = None <-> id ∉ vm_id <$> l).
Proof.
  intros Hl. split_and!.
  - unfold push_vm. pose proof (existsb_vm_id (vm_id v) l) as He. case_decide as Hd.
    + by rewrite (proj2 He Hd).
    + destruct (existsb _ l); [by destruct Hd; apply He|].
      eexists. split_and!; [done| |intros id; by apply vm_by_id_push].
      unfold vm_ids_ok. rewrite fmap_app, Permutation_app_comm. by apply list.NoDup_cons.
  - intros id w l' [Hw Hp]%remove_vm_perm. unfold vm_ids_ok in *.
    rewrite Hp, fmap_cons in Hl. apply list.NoDup_cons in Hl as [Hn Hl]. by subst id.
  - intros id. apply remove_vm_None.
Qed.

(** ** Witnesses *)

Definition demo_cpus : VmCpuConfig := mkCpuCfg 3 0x0d (Some 2).
Definition demo_vm : Vm :=
  mkVm 1 demo_cpus [] [mkVcpu 0 2 1; mkVcpu 1 0 1; mkVcpu 2 3 1] DEFAULT 1
    [mkVmPa 0x50000000 0x1000000 0x30000000].

Lemma cal_phys_id_list_spec_witness :
  make_vcpu_list 1 demo_cpus = Some (vcpu_list demo_vm) /\
  NoDup (cal_phys_id_list demo_cpus) /\
  (forall p, p ∈ cal_phys_id_list demo_cpus <-> 0 <= p /\ Z.testbit 0x0d p = true) /\
  (forall m, Some 2 = Some m -> Z.testbit 0x0d m = true ->
     head (cal_phys_id_list demo_cpus) = Some m).
Proof.
  split; [reflexivity|]. apply (cal_phys_id_list_spec demo_cpus).
  - vm_compute. split; congruence.
  - intros m [= <-]. lia.
Defined.

Lemma demo_vcpus_ok : vcpus_ok demo_vm.
Proof.
  assert (forall i v, zget (vcpu_list demo_vm) i = Some v ->
    i = 0 /\ v = mkVcpu 0 2 1 \/ i = 1 /\ v = mkVcpu 1 0 1 \/ i = 2 /\ v = mkVcpu 2 3 1) as H.
  { intros i v E. apply zget_Some_bounds in E as Hb. unfold zlen in Hb. simpl in Hb.
    assert (i = 0 \/ i = 1 \/ i = 2) as [->|[->| ->]] by lia; injection E as <-; auto. }
  split.
  - intros i v [[-> ->]|[[-> ->]|[-> ->]]]%H; simpl; lia.
  - intros i j v w [[-> ->]|[[-> ->]|[-> ->]]]%H [[-> ->]|[[-> ->]|[-> ->]]]%H; simpl; lia.
Qed.

Lemma cpu_mask_roundtrip_witness :
  vcpu_to_pcpu_mask demo_vm 0x1d 8 = 0x0c /\
  (forall i, 0 <= i ->
     Z.testbit (pcpu_to_vcpu_mask demo_vm (vcpu_to_pcpu_mask demo_vm 0x1d 8) 8) i = true <->
     Z.testbit 0x1d i = true /\ i < zlen (vcpu_list demo_vm)) /\
  (forall p, 0 <= p -> Z.testbit (vcpu_to_pcpu_mask demo_vm 0x1d 8) p = true <->
     exists v, vcpuid_to_pcpuid demo_vm v = Some p /\ Z.testbit 0x1d v = true).
Proof.
  split; [reflexivity|]. apply (cpu_mask_roundtrip demo_vm 0x1d demo_vcpus_ok). simpl. lia.
Defined.

Lemma ipa2pa_in_region_witness :
  ipa2pa demo_vm 0x80001000 = Some 0x50001000 /\
  exists r, r ∈ pa_region demo_vm /\ 0x50001000 = usize (0x80001000 - pa_offset r) /\
            pa_start r <= 0x50001000 <= pa_start r + pa_length r.
Proof.
  split; [reflexivity|]. apply (ipa2pa_in_region demo_vm 0x80001000 0x50001000).
  - repeat constructor; vm_compute; congruence.
  - vm_compute. split; congruence.
  - reflexivity.
  - lia.
Defined.

Lemma ipa2pa_accepts_region_end_witness :
  ipa2pa demo_vm (0x50000000 + 0x1000000 + 0x30000000) = Some (0x50000000 + 0x1000000).
Proof.
  apply (ipa2pa_accepts_region_end demo_vm (mkVmPa 0x50000000 0x1000000 0x30000000));
    try reflexivity; try (vm_compute; congruence); repeat split; vm_compute; congruence.
Defined.

Lemma vm_list_spec_witness :
  vm_ids_ok [demo_vm] /\
  (if decide (vm_id demo_vm ∈ vm_id <$> [demo_vm]) then push_vm demo_vm [demo_vm] = Ret false [demo_vm]
   else exists l', push_vm demo_vm [demo_vm] = Ret true l' /\ vm_ids_ok l' /\
     forall id, vm_by_id id l' = if decide (id = vm_id demo_vm) then Some demo_vm
                                 else vm_by_id id [demo_vm]) /\
  (forall id w l', remove_vm id [demo_vm] = Some (w, l') ->
     vm_id w = id /\ [demo_vm] ≡ₚ w :: l' /\ vm_ids_ok l' /\ id ∉ vm_id <$> l') /\
  (forall id, remove_vm id [demo_vm] = None <-> id ∉ vm_id <$> [demo_vm]).
Proof.
  assert (vm_ids_ok [demo_vm]) as H by apply list.NoDup_singleton.
  split; [exact H|]. apply (vm_list_spec [demo_vm] demo_vm H).
Defined.
