(* ===== verification/VgicState.v ===== *)
(** * VgicState: the data of the emulated GICv2 ([arch/aarch64/vgic.rs], [gic.rs])

    Interrupts ([VgicInt]), the per-vCPU part ([VgicCpuPriv]), the distributor registers, and
    the two hardware interfaces the code drives: the virtual interface GICH (list registers
    and control), kept in the state, and the physical distributor GICD, whose writes are logged
    in order together with the IPIs that are sent.

    The private interrupts of a vCPU and the shared ones are separate vectors, and the pending and
    active lists hold pointers into them; an [iref] is such a pointer.  An interrupt's id is
    fixed by its place in its vector ([VgicInt::new], [VgicInt::priv_new]), so [ref_id] computes it. *)
From stdpp Require Import list.
From S2P Require Import Prelude Bits Vm.

(** src: arch/aarch64/gic.rs 28-48 [GIC constants] *)
Definition GIC_SGIS_NUM : Z := 16.
Definition GIC_PRIVINT_NUM : Z := 32.
Definition GIC_INTS_MAX : Z := 1024.
Definition GIC_SPI_MAX : Z := 992.
Definition GIC_PRIO_BITS : Z := 8.
Definition GIC_TARGET_BITS : Z := 8.
Definition GIC_TARGETS_MAX : Z := 8.
Definition GIC_CONFIG_BITS : Z := 2.
Definition GIC_LIST_REGS_NUM : Z := 64.

(** src: arch/aarch64/gic.rs 78-83 [IrqState] *)
Inductive IrqState := IrqSInactive | IrqSPend | IrqSActive | IrqSPendActive.

(** src: arch/aarch64/gic.rs 86-94 [IrqState::num_to_state] *)
Definition num_to_state (num : Z) : option IrqState :=
  if num =? 0 then Some IrqSInactive
  else if num =? 1 then Some IrqSPend
  else if num =? 2 then Some IrqSActive
  else if num =? 3 then Some IrqSPendActive
  else None.   (* panic *)

(** src: arch/aarch64/gic.rs 96-103 [IrqState::to_num] *)
Definition to_num (st : IrqState) : Z :=
  match st with IrqSInactive => 0 | IrqSPend => 1 | IrqSActive => 2 | IrqSPendActive => 3 end.

(** The two bits of a state. *)
Definition pending (st : IrqState) : bool := testm (to_num st) 1.
Definition active (st : IrqState) : bool := testm (to_num st) 2.

(** src: arch/aarch64/vgic.rs 224-236 [VgicInt and VgicIntInnerMut]
    With the fields of [VgicIntInnerConst] and [VgicIntInnerMut]. *)
Record VgicInt := mkInt {
  hw : bool;
  owner : option Vcpu;
  in_lr : bool;
  lr : Z;
  enabled : bool;
  state : IrqState;
  prio : Z;
  targets : Z;
  cfg : Z;
  in_pend : bool;
  in_act : bool;
}.

(** src: arch/aarch64/vgic.rs 239-252 [VgicIntInnerMut::new] *)
Definition int_new : VgicInt :=
  mkInt false None false 0 false IrqSInactive 0xff 0 0 false false.

(** src: arch/aarch64/vgic.rs 254-267 [VgicIntInnerMut::priv_new] *)
Definition int_priv_new (o : Vcpu) (tgts : Z) (en : bool) : VgicInt :=
  mkInt false (Some o) false 0 en IrqSInactive 0xff (u8 tgts) 0 false false.

(** src: arch/aarch64/vgic.rs 71-74 [VgicInt::set_in_pend_state] *)
Definition set_in_pend_state b (i : VgicInt) : VgicInt :=
  mkInt (hw i) (owner i) (in_lr i) (lr i) (enabled i) (state i) (prio i) (targets i) (cfg i) b (in_act i).
(** src: arch/aarch64/vgic.rs 76-79 [VgicInt::set_in_act_state] *)
Definition set_in_act_state b (i : VgicInt) : VgicInt :=
  mkInt (hw i) (owner i) (in_lr i) (lr i) (enabled i) (state i) (prio i) (targets i) (cfg i) (in_pend i) b.
(** src: arch/aarch64/vgic.rs 91-94 [VgicInt::set_enabled] *)
Definition set_enabled b (i : VgicInt) : VgicInt :=
  mkInt (hw i) (owner i) (in_lr i) (lr i) b (state i) (prio i) (targets i) (cfg i) (in_pend i) (in_act i).
(** src: arch/aarch64/vgic.rs 96-99 [VgicInt::set_lr] *)
Definition set_int_lr l (i : VgicInt) : VgicInt :=
  mkInt (hw i) (owner i) (in_lr i) l (enabled i) (state i) (prio i) (targets i) (cfg i) (in_pend i) (in_act i).
(** src: arch/aarch64/vgic.rs 101-104 [VgicInt::set_targets] *)
Definition set_targets t (i : VgicInt) : VgicInt :=
  mkInt (hw i) (owner i) (in_lr i) (lr i) (enabled i) (state i) (prio i) t (cfg i) (in_pend i) (in_act i).
(** src: arch/aarch64/vgic.rs 106-109 [VgicInt::set_prio] *)
Definition set_prio_field p (i : VgicInt) : VgicInt :=
  mkInt (hw i) (owner i) (in_lr i) (lr i) (enabled i) (state i) p (targets i) (cfg i) (in_pend i) (in_act i).
(** src: arch/aarch64/vgic.rs 111-114 [VgicInt::set_in_lr] *)
Definition set_in_lr b (i : VgicInt) : VgicInt :=
  mkInt (hw i) (owner i) b (lr i) (enabled i) (state i) (prio i) (targets i) (cfg i) (in_pend i) (in_act i).
(** src: arch/aarch64/vgic.rs 116-119 [VgicInt::set_state] *)
Definition set_state st (i : VgicInt) : VgicInt :=
  mkInt (hw i) (owner i) (in_lr i) (lr i) (enabled i) st (prio i) (targets i) (cfg i) (in_pend i) (in_act i).
(** src: arch/aarch64/vgic.rs 121-124 [VgicInt::set_owner] *)
Definition set_owner v (i : VgicInt) : VgicInt :=
  mkInt (hw i) (Some v) (in_lr i) (lr i) (enabled i) (state i) (prio i) (targets i) (cfg i) (in_pend i) (in_act i).
(** src: arch/aarch64/vgic.rs 126-129 [VgicInt::clear_owner] *)
Definition clear_owner (i : VgicInt) : VgicInt :=
  mkInt (hw i) None (in_lr i) (lr i) (enabled i) (state i) (prio i) (targets i) (cfg i) (in_pend i) (in_act i).
(** src: arch/aarch64/vgic.rs 131-133 [VgicInt::set_hw] *)
Definition set_hw b (i : VgicInt) : VgicInt :=
  mkInt b (owner i) (in_lr i) (lr i) (enabled i) (state i) (prio i) (targets i) (cfg i) (in_pend i) (in_act i).
(** src: arch/aarch64/vgic.rs 135-138 [VgicInt::set_cfg] *)
Definition set_cfg c (i : VgicInt) : VgicInt :=
  mkInt (hw i) (owner i) (in_lr i) (lr i) (enabled i) (state i) (prio i) (targets i) c (in_pend i) (in_act i).

(** src: arch/aarch64/vgic.rs 190-193 [VgicInt::owner_phys_id] *)
Definition owner_phys_id (i : VgicInt) : option Z := phys_id <$> owner i.
(** src: arch/aarch64/vgic.rs 195-204 [VgicInt::owner_id] *)
Definition owner_id (i : VgicInt) : option Z := vcpu_id <$> owner i.
(** src: arch/aarch64/vgic.rs 206-209 [VgicInt::owner_vm_id] *)
Definition owner_vm_id (i : VgicInt) : option Z := vcpu_vm_id <$> owner i.

(** A pointer to an interrupt: private of a vCPU, or shared. *)
Inductive iref := RPriv (cpu idx : Z) | RSpi (idx : Z).
#[export] Instance iref_eq_dec : EqDecision iref.
Proof. solve_decision. Defined.

(** src: arch/aarch64/vgic.rs 47-69 [VgicInt::new and VgicInt::priv_new: the id] *)
Definition ref_id (r : iref) : Z :=
  match r with RPriv _ i => i | RSpi i => i + GIC_PRIVINT_NUM end.

(** src: arch/aarch64/vgic.rs 298-301 [Sgis] *)
Record Sgis := mkSgis { sgi_pend : Z; sgi_act : Z }.

(** src: arch/aarch64/vgic.rs 303-314 [VgicCpuPriv and VgicCpuPrivMut] *)
Record VgicCpuPriv := mkPriv {
  priv_ints : list VgicInt;
  curr_lrs : list Z;
  sgis : list Sgis;
  pend_list : list iref;
  act_list : list iref;
}.

(** src: kernel/ipi.rs 15-26 [InitcEvent] *)
Inductive InitcEvent :=
  | VgicdGichEn | VgicdSetEn | VgicdSetAct | VgicdSetPend | VgicdSetPrio
  | VgicdSetTrgt | VgicdSetCfg | VgicdRoute | Vgicdinject | InitcNone.

(** src: kernel/ipi.rs 39-44 [IpiInitcMessage] *)
Record IpiInitcMessage := mkInitc { event : InitcEvent; msg_vm_id : Z; msg_int_id : Z; msg_val : Z }.

(** Writes to the physical distributor and IPIs, in order. *)
Inductive gic_event :=
  | EvSetEnable (int : Z) (en : bool)
  | EvSetState (int st : Z)
  | EvSetAct (int : Z) (act : bool)
  | EvSetPrio (int p : Z)
  | EvSetTrgt (int t : Z)
  | EvSetIcfgr (int c : Z)
  | EvIpi (target : Z) (m : IpiInitcMessage)
  | EvBroadcast (m : IpiInitcMessage).

(** src: arch/aarch64/vgic.rs 275-282 [Vgicd and Vgic]
    The emulated controller together with the core's GICH, the guest's general registers and
    the log. *)
Record VS := mkVS {
  ctlr : Z;
  typer : Z;
  iidr : Z;
  spis : list VgicInt;
  cpu_priv : list VgicCpuPriv;
  hcr : Z;
  lrs : list Z;
  gpr : list Z;
  glog : list gic_event;
}.

Definition with_ctlr x s := mkVS x (typer s) (iidr s) (spis s) (cpu_priv s) (hcr s) (lrs s) (gpr s) (glog s).
Definition with_spis x s := mkVS (ctlr s) (typer s) (iidr s) x (cpu_priv s) (hcr s) (lrs s) (gpr s) (glog s).
Definition with_priv x s := mkVS (ctlr s) (typer s) (iidr s) (spis s) x (hcr s) (lrs s) (gpr s) (glog s).
Definition with_hcr x s := mkVS (ctlr s) (typer s) (iidr s) (spis s) (cpu_priv s) x (lrs s) (gpr s) (glog s).
Definition with_lrs x s := mkVS (ctlr s) (typer s) (iidr s) (spis s) (cpu_priv s) (hcr s) x (gpr s) (glog s).
Definition with_gpr x s := mkVS (ctlr s) (typer s) (iidr s) (spis s) (cpu_priv s) (hcr s) (lrs s) x (glog s).
Definition with_glog x s := mkVS (ctlr s) (typer s) (iidr s) (spis s) (cpu_priv s) (hcr s) (lrs s) (gpr s) x.

Definition emit (e : gic_event) : M VS unit := m_modify (fun s => with_glog (glog s ++ [e]) s).

(** ** Reading and writing through a pointer *)

Definition find_int (s : VS) (r : iref) : option VgicInt :=
  match r with
  | RPriv c i => cp ← zget (cpu_priv s) c; zget (priv_ints cp) i
  | RSpi i => zget (spis s) i
  end.

Definition put_priv_ints l (p : VgicCpuPriv) : VgicCpuPriv :=
  mkPriv l (curr_lrs p) (sgis p) (pend_list p) (act_list p).
Definition put_curr_lrs l (p : VgicCpuPriv) : VgicCpuPriv :=
  mkPriv (priv_ints p) l (sgis p) (pend_list p) (act_list p).
Definition put_sgis l (p : VgicCpuPriv) : VgicCpuPriv :=
  mkPriv (priv_ints p) (curr_lrs p) l (pend_list p) (act_list p).
Definition put_pend_list l (p : VgicCpuPriv) : VgicCpuPriv :=
  mkPriv (priv_ints p) (curr_lrs p) (sgis p) l (act_list p).
Definition put_act_list l (p : VgicCpuPriv) : VgicCpuPriv :=
  mkPriv (priv_ints p) (curr_lrs p) (sgis p) (pend_list p) l.

Definition store_int (s : VS) (r : iref) (i : VgicInt) : VS :=
  match r with
  | RPriv c k =>
      match zget (cpu_priv s) c with
      | Some cp => with_priv (zset (cpu_priv s) c (put_priv_ints (zset (priv_ints cp) k i) cp)) s
      | None => s
      end
  | RSpi k => with_spis (zset (spis s) k i) s
  end.

Definition read_int (r : iref) : M VS VgicInt := let! s := m_get in m_opt OutOfBounds (find_int s r).
Definition upd_int (r : iref) (f : VgicInt -> VgicInt) : M VS unit :=
  let! i := read_int r in m_modify (fun s => store_int s r (f i)).

Definition read_priv (c : Z) : M VS VgicCpuPriv := let! s := m_get in m_idx (cpu_priv s) c.
Definition upd_priv (c : Z) (f : VgicCpuPriv -> VgicCpuPriv) : M VS unit :=
  let! p := read_priv c in m_modify (fun s => with_priv (zset (cpu_priv s) c (f p)) s).

(** Hardware registers of the virtual interface. *)

(** src: arch/aarch64/gic.rs 461-463 [hcr] *)
Definition gich_hcr : M VS Z := m_gets hcr.
(** src: arch/aarch64/gic.rs 465-467 [set_hcr] *)
Definition gich_set_hcr (v : Z) : M VS unit := m_modify (with_hcr v).
(** src: arch/aarch64/gic.rs 477-479 [lr] *)
Definition gich_lr (i : Z) : M VS Z := let! s := m_get in m_idx (lrs s) i.
(** src: arch/aarch64/gic.rs 489-491 [set_lr] *)
Definition gich_set_lr (i v : Z) : M VS unit :=
  let! s := m_get in
  let! l := m_opt OutOfBounds (zstore (lrs s) i v) in m_modify (with_lrs l).

(** src: kernel/cpu.rs 169-174 [get_gpr] *)
Definition get_gpr (idx : Z) : M VS Z :=
  if 31 <=? idx then m_ret 0 else let! s := m_get in m_idx (gpr s) idx.
(** src: kernel/cpu.rs 162-167 [set_gpr] *)
Definition set_gpr (idx v : Z) : M VS unit :=
  if 31 <=? idx then m_ret tt
  else let! s := m_get in let! l := m_opt OutOfBounds (zstore (gpr s) idx v) in m_modify (with_gpr l).

(** ** The queues *)

(** src: arch/aarch64/vgic.rs 317-325 [VgicCpuPrivMut::queue_remove]
    Remove the first entry with the interrupt's id. *)
Fixpoint queue_remove (l : list iref) (r : iref) : list iref :=
  match l with
  | [] => []
  | x :: l' => if ref_id x =? ref_id r then l' else x :: queue_remove l' r
  end.

(** src: arch/aarch64/vgic.rs 327-332 [VgicCpuPrivMut::pend_list_push] *)
Definition pend_list_push (r : iref) (p : VgicCpuPriv) := put_pend_list (pend_list p ++ [r]) p.
(** src: arch/aarch64/vgic.rs 334-336 [VgicCpuPrivMut::pend_list_remove] *)
Definition pend_list_remove (r : iref) (p : VgicCpuPriv) := put_pend_list (queue_remove (pend_list p) r) p.
(** src: arch/aarch64/vgic.rs 338-343 [VgicCpuPrivMut::act_list_push] *)
Definition act_list_push (r : iref) (p : VgicCpuPriv) := put_act_list (act_list p ++ [r]) p.
(** src: arch/aarch64/vgic.rs 345-347 [VgicCpuPrivMut::act_list_remove] *)
Definition act_list_remove (r : iref) (p : VgicCpuPriv) := put_act_list (queue_remove (act_list p) r) p.

(** src: arch/aarch64/vgic.rs 355-365 [VgicCpuPriv::default] *)
Definition cpu_priv_default : VgicCpuPriv :=
  mkPriv [] (replicate 64 0) (replicate 16 (mkSgis 0 0)) [] [].

(** ** Accessors of [Vgic] *)

(** The pending half of [update_int_list]. *)
Definition update_pend (vcpu : Vcpu) (r : iref) : M VS unit :=
  let! i := read_int r in
  if pending (state i) && negb (in_pend i) then
    upd_priv (vcpu_id vcpu) (pend_list_push r) >>; upd_int r (set_in_pend_state true)
  else if negb (pending (state i)) then
    upd_priv (vcpu_id vcpu) (pend_list_remove r) >>; upd_int r (set_in_pend_state false)
  else m_ret tt.

(** The active half of [update_int_list]. *)
Definition update_act (vcpu : Vcpu) (r : iref) : M VS unit :=
  let! i := read_int r in
  if active (state i) && negb (in_act i) then
    upd_priv (vcpu_id vcpu) (act_list_push r) >>; upd_int r (set_in_act_state true)
  else if negb (active (state i)) then
    upd_priv (vcpu_id vcpu) (act_list_remove r) >>; upd_int r (set_in_act_state false)
  else m_ret tt.

(** src: arch/aarch64/vgic.rs 383-406 [Vgic::update_int_list] *)
Definition update_int_list (vcpu : Vcpu) (r : iref) : M VS unit :=
  update_pend vcpu r >>; update_act vcpu r.

(** src: arch/aarch64/vgic.rs 408-426 [Vgic::int_list_head] *)
Definition int_list_head (vcpu : Vcpu) (is_pend : bool) : M VS (option iref) :=
  let! p := read_priv (vcpu_id vcpu) in
  m_ret (head (if is_pend then pend_list p else act_list p)).

(** src: arch/aarch64/vgic.rs 428-430 [Vgic::set_vgicd_ctlr] *)
Definition set_vgicd_ctlr (v : Z) : M VS unit := m_modify (with_ctlr v).
(** src: arch/aarch64/vgic.rs 432-434 [Vgic::vgicd_ctlr] *)
Definition vgicd_ctlr : M VS Z := m_gets ctlr.

(** src: arch/aarch64/vgic.rs 444-450 [Vgic::cpu_priv_interrupt] *)
Definition cpu_priv_interrupt (cpu idx : Z) : M VS (option iref) :=
  let! p := read_priv cpu in
  m_ret (if in_bounds (priv_ints p) idx then Some (RPriv cpu idx) else None).

(** src: arch/aarch64/vgic.rs 452-455 [Vgic::cpu_priv_curr_lrs] *)
Definition cpu_priv_curr_lrs (cpu idx : Z) : M VS Z :=
  let! p := read_priv cpu in m_idx (curr_lrs p) idx.

(** src: arch/aarch64/vgic.rs 457-460 [Vgic::cpu_priv_sgis_pend] *)
Definition cpu_priv_sgis_pend (cpu idx : Z) : M VS Z :=
  let! p := read_priv cpu in let! x := m_idx (sgis p) idx in m_ret (sgi_pend x).

(** src: arch/aarch64/vgic.rs 462-465 [Vgic::cpu_priv_sgis_act] *)
Definition cpu_priv_sgis_act (cpu idx : Z) : M VS Z :=
  let! p := read_priv cpu in let! x := m_idx (sgis p) idx in m_ret (sgi_act x).

(** src: arch/aarch64/vgic.rs 467-470 [Vgic::set_cpu_priv_curr_lrs] *)
Definition set_cpu_priv_curr_lrs (cpu idx v : Z) : M VS unit :=
  let! p := read_priv cpu in
  let! l := m_opt OutOfBounds (zstore (curr_lrs p) idx v) in upd_priv cpu (put_curr_lrs l).

(** src: arch/aarch64/vgic.rs 472-475 [Vgic::set_cpu_priv_sgis_pend] *)
Definition set_cpu_priv_sgis_pend (cpu idx pend : Z) : M VS unit :=
  let! p := read_priv cpu in
  let! x := m_idx (sgis p) idx in
  upd_priv cpu (put_sgis (zset (sgis p) idx (mkSgis pend (sgi_act x)))).

(** src: arch/aarch64/vgic.rs 477-480 [Vgic::set_cpu_priv_sgis_act] *)
Definition set_cpu_priv_sgis_act (cpu idx act : Z) : M VS unit :=
  let! p := read_priv cpu in
  let! x := m_idx (sgis p) idx in
  upd_priv cpu (put_sgis (zset (sgis p) idx (mkSgis (sgi_pend x) act))).

(** src: arch/aarch64/vgic.rs 482-484 [Vgic::vgicd_interrupt] *)
Definition vgicd_interrupt (idx : Z) : M VS (option iref) :=
  let! s := m_get in m_ret (if in_bounds (spis s) idx then Some (RSpi idx) else None).

(** src: arch/aarch64/vgic.rs 486-495 [Vgic::get_int] *)
Definition get_int (vcpu : Vcpu) (int_id : Z) : M VS (option iref) :=
  if int_id <? GIC_PRIVINT_NUM then cpu_priv_interrupt (vcpu_id vcpu) int_id
  else if (GIC_PRIVINT_NUM <=? int_id) && (int_id <? GIC_INTS_MAX)
  then vgicd_interrupt (int_id - GIC_PRIVINT_NUM)
  else m_ret None.

(** src: arch/aarch64/gic.rs 583-585 [gic_is_priv] *)
Definition gic_is_priv (int_id : Z) : bool := int_id <? GIC_PRIVINT_NUM.

(** ** Ownership and the list-register view of an interrupt *)

(** src: arch/aarch64/vgic.rs 1804-1819 [vgic_owns] *)
Definition vgic_owns (vcpu : Vcpu) (r : iref) : M VS bool :=
  if gic_is_priv (ref_id r) then m_ret true
  else
    let! i := read_int r in
    m_ret (match owner i with
           | Some o => (vcpu_id o =? vcpu_id vcpu) && (phys_id o =? phys_id vcpu)
           | None => false
           end).

(** src: arch/aarch64/vgic.rs 1885-1901 [vgic_int_get_owner] *)
Definition vgic_int_get_owner (vcpu : Vcpu) (r : iref) : M VS bool :=
  let! i := read_int r in
  match owner i with
  | Some o => m_ret ((vcpu_vm_id o =? vcpu_vm_id vcpu) && (vcpu_id o =? vcpu_id vcpu))
  | None => upd_int r (set_owner vcpu) >>; m_ret true
  end.

(** src: arch/aarch64/vgic.rs 1864-1866 [vgic_int_is_hw] *)
Definition vgic_int_is_hw (r : iref) : M VS bool :=
  let! i := read_int r in m_ret ((GIC_SGIS_NUM <=? ref_id r) && hw i).

(** src: arch/aarch64/vgic.rs 1868-1883 [gich_get_lr]
    [core] is the current physical CPU. *)
Definition gich_get_lr (core : Z) (r : iref) : M VS (option Z) :=
  let! i := read_int r in
  let! phys := m_opt UnwrapNone (owner_phys_id i) in
  if negb (in_lr i) || negb (phys =? core) then m_ret None
  else
    let! v := gich_lr (lr i) in
    m_ret (if (Z.land v 0x3ff =? ref_id r) && testm (Z.shiftr v 28) 3 then Some v else None).

(** src: arch/aarch64/vgic.rs 1821-1849 [vgic_get_state] *)
Definition vgic_get_state (core : Z) (r : iref) : M VS Z :=
  let! i := read_int r in
  let! st :=
    (if in_lr i then
       let! phys := m_opt UnwrapNone (owner_phys_id i) in
       if phys =? core then
         let! o := gich_get_lr core r in
         m_ret (match o with Some v => v | None => to_num (state i) end)
       else m_ret (to_num (state i))
     else m_ret (to_num (state i))) in
  if GIC_SGIS_NUM <=? ref_id r then m_ret st
  else
    match owner i with
    | None => m_ret st
    | Some o =>
        let! p := cpu_priv_sgis_pend (vcpu_id o) (ref_id r) in
        m_ret (if p =? 0 then st else Z.lor st 1)
    end.

(** src: arch/aarch64/vgic.rs 1851-1862 [vgic_int_yield_owner] *)
Definition vgic_int_yield_owner (core : Z) (vcpu : Vcpu) (r : iref) : M VS unit :=
  let! owns := vgic_owns vcpu r in
  let! i := read_int r in
  if negb owns || in_lr i || gic_is_priv (ref_id r) then m_ret tt
  else
    let! st := vgic_get_state core r in
    if testm st 2 then m_ret tt else upd_int r clear_owner.

(** src: arch/aarch64/vgic.rs 1781-1802 [vgic_target_translate]
    The four bytes of the word, each a mask of CPUs. *)
Definition vgic_target_translate (vm : Vm) (trgt : Z) (v2p : bool) : Z :=
  foldl (fun result idx =>
    let x := Z.land (Z.shiftr trgt (8 * idx)) 0xff in
    let v := u32 (if v2p then vcpu_to_pcpu_mask vm x 8 else pcpu_to_vcpu_mask vm x 8) in
    Z.lor result (shlw 32 v (8 * idx))) 0 [0; 1; 2; 3].
