(* ===== verification/VgicLr.v ===== *)
(** * VgicLr: the list registers of the emulated GICv2 ([arch/aarch64/vgic.rs])

    Presenting an interrupt to the guest ([add_lr], [write_lr]), taking it back ([remove_lr]),
    routing, and the maintenance interrupt ([handle_trapped_eoir], [refill_lrs],
    [eoir_highest_spilled_active]).

    The environment is a section context: the current core, the number of list registers the
    hardware has, its status registers ELRSR/EISR as functions of the list registers, MISR, and the
    state bits of the physical distributor as a function of what was written to it. *)
From S2P Require Import Prelude Bits Vm VgicState.

Section list_registers.
(** [core] is [current_cpu().id]; [gic_lrs] the number of list registers. *)
Context (core gic_lrs : Z).
(** [elrsr lrs i] and [eisr lrs i]: the 32-bit status words when the list registers hold [lrs]. *)
Context (elrsr eisr : list Z -> Z -> Z).
(** [gicd_state log id]: the pending and active bits of the physical interrupt. *)
Context (gicd_state : list gic_event -> Z -> Z).

Definition gich_elrsr (i : Z) : M VS Z := m_gets (fun s => elrsr (lrs s) i).
Definition gich_eisr (i : Z) : M VS Z := m_gets (fun s => eisr (lrs s) i).

(** src: arch/aarch64/vgic.rs 520-535 [remove_lr: the SGI source]
    What is put back into the SGI's pending or active record. *)
Definition remove_lr_sgi (vcpu : Vcpu) (r : iref) (lr_val : Z) : M VS unit :=
  let! i := read_int r in
  let src := u8 (Z.land (Z.shiftr lr_val 10) 7) in
  if active (state i) then set_cpu_priv_sgis_act (vcpu_id vcpu) (ref_id r) src
  else if pending (state i) then
    let! pend := cpu_priv_sgis_pend (vcpu_id vcpu) (ref_id r) in
    set_cpu_priv_sgis_pend (vcpu_id vcpu) (ref_id r) (Z.lor pend (shlw 8 1 src))
  else m_ret tt.

(** src: arch/aarch64/vgic.rs 497-556 [Vgic::remove_lr] *)
Definition remove_lr (vcpu : Vcpu) (r : iref) : M VS bool :=
  let! owns := vgic_owns vcpu r in
  if negb owns then m_ret false
  else
    let! i := read_int r in
    if negb (in_lr i) then m_ret false
    else
      let! o := gich_get_lr core r in
      let! lr_val :=
        match o with
        | Some v => gich_set_lr (lr i) 0 >>; m_ret v
        | None => m_ret 0
        end in
      upd_int r (set_in_lr false) >>;
      let lr_state := Z.land (Z.shiftr lr_val 28) 3 in
      if lr_state =? 0 then m_ret false
      else
        let! st := m_opt ExplicitPanic (num_to_state lr_state) in
        upd_int r (set_state st) >>;
        (if ref_id r <? GIC_SGIS_NUM then remove_lr_sgi vcpu r lr_val else m_ret tt) >>;
        update_int_list vcpu r >>;
        let! i' := read_int r in
        (if pending (state i') && enabled i' then
           let! h := gich_hcr in gich_set_hcr (Z.lor h 8)
         else m_ret tt) >>;
        m_ret true.

(** src: arch/aarch64/vgic.rs 684-702 [write_lr: the SGI source loop]
    The highest source CPU whose bit is pending: its index. *)
Fixpoint highest_source (pend : Z) (idxs : list Z) : option Z :=
  match idxs with
  | [] => None
  | idx :: rest => if testm pend (shlw 8 1 idx) then Some idx else highest_source pend rest
  end.

(** src: arch/aarch64/vgic.rs 678-706 [write_lr: SGI branch] *)
Definition write_lr_sgi (vcpu : Vcpu) (id st base : Z) : M VS Z :=
  let v := vcpu_id vcpu in
  let! l1 :=
    (if testm st 2 then
       let! act := cpu_priv_sgis_act v id in
       m_ret (Z.lor (Z.lor base (Z.land (shlw 64 act 10) (Z.shiftl 7 10))) (Z.shiftl 2 28))
     else
       let! pend := cpu_priv_sgis_pend v id in
       match highest_source pend [7; 6; 5; 4; 3; 2; 1; 0] with
       | Some idx =>
           set_cpu_priv_sgis_pend v id (Z.land pend (notw 8 (shlw 8 1 idx))) >>;
           m_ret (Z.lor (Z.lor base (Z.shiftl (Z.land idx 7) 10)) (Z.shiftl 1 28))
       | None => m_ret base
       end) in
  let! pend' := cpu_priv_sgis_pend v id in
  m_ret (if pend' =? 0 then l1 else Z.lor l1 (Z.shiftl 1 19)).

(** src: arch/aarch64/vgic.rs 663-713 [write_lr: the list register value] *)
Definition write_lr_value (vcpu : Vcpu) (r : iref) (st int_prio : Z) : M VS Z :=
  let id := ref_id r in
  let base := Z.lor (Z.land id 0x3ff) (Z.shiftl (Z.land (Z.shiftr int_prio 3) 0x1f) 23) in
  let! is_hw := vgic_int_is_hw r in
  if is_hw then
    let l := Z.lor (Z.lor base (Z.shiftl 1 31)) (Z.shiftl (Z.land 0x3ff id) 10) in
    let l := if st =? 3 then Z.lor l (Z.shiftl 2 28) else Z.lor l (Z.shiftl (Z.land st 3) 28) in
    let! s := m_get in
    (if gicd_state (glog s) id =? 2 then m_ret tt else emit (EvSetState id 2)) >>;
    m_ret l
  else if id <? GIC_SGIS_NUM then write_lr_sgi vcpu id st base
  else
    let l := if negb (gic_is_priv id) then Z.lor base (Z.shiftl 1 19) else base in
    m_ret (Z.lor l (Z.shiftl (Z.land st 3) 28)).

(** src: arch/aarch64/vgic.rs 645-661 [write_lr: the previous interrupt]
    Evict what this list register held for the vCPU before. *)
Definition write_lr_evict (vcpu : Vcpu) (r : iref) (lr_ind : Z) : M VS unit :=
  let! prev_int_id := cpu_priv_curr_lrs (vcpu_id vcpu) lr_ind in
  if prev_int_id =? ref_id r then m_ret tt
  else
    let! o := get_int vcpu prev_int_id in
    match o with
    | None => m_ret tt
    | Some p =>
        let! owns := vgic_owns vcpu p in
        let! i := read_int p in
        if owns && in_lr i && (lr i =? u16 lr_ind) then
          upd_int p (set_in_lr false) >>;
          (if negb (gic_is_priv (ref_id p)) then vgic_int_yield_owner core vcpu p else m_ret tt)
        else m_ret tt
    end.

(** src: arch/aarch64/vgic.rs 640-725 [Vgic::write_lr] *)
Definition write_lr (vcpu : Vcpu) (r : iref) (lr_ind : Z) : M VS unit :=
  let! i := read_int r in
  write_lr_evict vcpu r lr_ind >>;
  let! st := vgic_get_state core r in
  let! v := write_lr_value vcpu r st (prio i) in
  upd_int r (fun i => set_int_lr (u16 lr_ind) (set_in_lr true (set_state IrqSInactive i))) >>;
  set_cpu_priv_curr_lrs (vcpu_id vcpu) lr_ind (u16 (ref_id r)) >>;
  gich_set_lr lr_ind (u32 v) >>;
  update_int_list vcpu r.

(** src: arch/aarch64/vgic.rs 566-571 [add_lr: search for an empty register] *)
Fixpoint first_empty (l : list Z) (idxs : list Z) : option Z :=
  match idxs with
  | [] => None
  | i :: rest => if testm (elrsr l (i / 32)) (shlw 32 1 (i mod 32)) then Some i else first_empty l rest
  end.

(** The running result of the scan for a victim: counts and the lowest-priority entries. *)
Record victims := mkVictims {
  pend_found : Z; act_found : Z; min_prio_act : Z; min_prio_pend : Z;
  act_ind : option Z; pend_ind : option Z;
}.

(** src: arch/aarch64/vgic.rs 581-599 [add_lr: scan step] *)
Definition victim_step (v : victims) (i l : Z) : victims :=
  let lr_prio := Z.land (Z.shiftr l 23) 0x1f in
  let lr_state := Z.land (Z.shiftr l 28) 3 in
  if testm lr_state 2 then
    let v := if min_prio_act v <? lr_prio
             then mkVictims (pend_found v) (act_found v) lr_prio (min_prio_pend v) (Some i) (pend_ind v)
             else v in
    mkVictims (pend_found v) (act_found v + 1) (min_prio_act v) (min_prio_pend v) (act_ind v) (pend_ind v)
  else if testm lr_state 1 then
    let v := if min_prio_pend v <? lr_prio
             then mkVictims (pend_found v) (act_found v) (min_prio_act v) lr_prio (act_ind v) (Some i)
             else v in
    mkVictims (pend_found v + 1) (act_found v) (min_prio_act v) (min_prio_pend v) (act_ind v) (pend_ind v)
  else v.

Fixpoint scan_victims (idxs : list Z) (v : victims) : M VS victims :=
  match idxs with
  | [] => m_ret v
  | i :: rest => let! l := gich_lr i in scan_victims rest (victim_step v i l)
  end.

(** src: arch/aarch64/vgic.rs 601-605 [add_lr: the choice] *)
Definition choose_victim (v : victims) : option Z :=
  if 1 <? pend_found v then pend_ind v
  else if 1 <? act_found v then act_ind v else None.

(** src: arch/aarch64/vgic.rs 573-621 [add_lr: spill a register] *)
Definition spill_lr (vcpu : Vcpu) : M VS (option Z) :=
  let! v := scan_victims (zrange 0 (Z.to_nat gic_lrs)) (mkVictims 0 0 0 0 None None) in
  match choose_victim v with
  | None => m_ret None
  | Some idx =>
      let! l := gich_lr idx in
      let! o := get_int vcpu (Z.land l 0x3ff) in
      let! spilled := m_opt UnwrapNone o in
      remove_lr vcpu spilled >>;
      vgic_int_yield_owner core vcpu spilled >>;
      m_ret (Some idx)
  end.

(** src: arch/aarch64/vgic.rs 558-638 [Vgic::add_lr] *)
Definition add_lr (vcpu : Vcpu) (r : iref) : M VS bool :=
  let! i := read_int r in
  if negb (enabled i) || in_lr i then m_ret false
  else
    let! s := m_get in
    let! lr_ind :=
      match first_empty (lrs s) (zrange 0 (Z.to_nat gic_lrs)) with
      | Some i => m_ret (Some i)
      | None => spill_lr vcpu
      end in
    match lr_ind with
    | Some idx => write_lr vcpu r idx >>; m_ret true
    | None =>
        let! st := vgic_get_state core r in
        (if testm st 1 then let! h := gich_hcr in gich_set_hcr (Z.lor h 8) else m_ret tt) >>;
        m_ret false
    end.

(** src: arch/aarch64/vgic.rs 727-759 [Vgic::route] *)
Definition route (vcpu : Vcpu) (r : iref) : M VS unit :=
  let! i := read_int r in
  match state i with
  | IrqSInactive => m_ret tt
  | _ =>
      if negb (enabled i) then m_ret tt
      else
        let t := targets i in
        (if testm t (shlw 8 1 core) then let! _ := add_lr vcpu r in m_ret tt else m_ret tt) >>;
        let! i' := read_int r in
        if negb (in_lr i') && testm t (notw 8 (shlw 8 1 core)) then
          vgic_int_yield_owner core vcpu r >>;
          emit (EvBroadcast (mkInitc VgicdRoute (vcpu_vm_id vcpu) (u16 (ref_id r)) 0))
        else m_ret tt
  end.

(** ** The maintenance interrupt *)

(** A 64-bit bitmap from two status words. *)
Definition status64 (f : list Z -> Z -> Z) : M VS Z :=
  m_gets (fun s => Z.lor (f (lrs s) 0) (shlw 64 (f (lrs s) 1) 32)).

(** src: arch/aarch64/vgic.rs 1671-1689 [handle_trapped_eoir: one list register] *)
Definition eoir_one (vcpu : Vcpu) (lr_idx : Z) : M VS unit :=
  let! lr_val := gich_lr lr_idx in
  gich_set_lr lr_idx 0 >>;
  let! o := get_int vcpu (bit_extract lr_val 0 10) in
  match o with
  | None => m_fault ExplicitPanic   (* unimplemented!() *)
  | Some r =>
      upd_int r (set_in_lr false) >>;
      (if ref_id r <? GIC_SGIS_NUM then let! _ := add_lr vcpu r in m_ret tt
       else vgic_int_yield_owner core vcpu r)
  end.

(** src: arch/aarch64/vgic.rs 1660-1698 [Vgic::handle_trapped_eoir] *)
Fixpoint handle_trapped_eoir (fuel : nat) (vcpu : Vcpu) : M VS unit :=
  let! bm := status64 eisr in
  match bitmap_find_nth bm 0 gic_lrs 1 true with
  | None => m_ret tt
  | Some lr_idx =>
      match fuel with
      | O => m_fault FuelOut
      | S fuel' => eoir_one vcpu lr_idx >>; handle_trapped_eoir fuel' vcpu
      end
  end.

(** src: arch/aarch64/vgic.rs 1704-1709 [refill_lrs: is a pending interrupt presented] *)
Fixpoint lrs_pending (idxs : list Z) (acc : bool) : M VS bool :=
  match idxs with
  | [] => m_ret acc
  | i :: rest =>
      let! l := gich_lr i in
      lrs_pending rest (if testm (bit_extract l 28 2) 1 then true else acc)
  end.

(** src: arch/aarch64/vgic.rs 1720-1738 [refill_lrs: the choice]
    The next spilled interrupt, and whether it was taken from the pending list. *)
Definition refill_choice (vcpu : Vcpu) (has_pending : bool) : M VS (option (iref * bool)) :=
  let! act_head := int_list_head vcpu false in
  let! pend_head := int_list_head vcpu true in
  let! a :=
    match act_head with
    | Some r => if has_pending then let! i := read_int r in
                  m_ret (if in_lr i then None else Some (r, false)) else m_ret None
    | None => m_ret None
    end in
  match a with
  | Some x => m_ret (Some x)
  | None =>
      match pend_head with
      | Some r => let! i := read_int r in m_ret (if in_lr i then None else Some (r, true))
      | None => m_ret None
      end
  end.

(** src: arch/aarch64/vgic.rs 1711-1760 [refill_lrs: the loop] *)
Fixpoint refill_loop (fuel : nat) (vcpu : Vcpu) (has_pending : bool) : M VS unit :=
  let! bm := status64 elrsr in
  match bitmap_find_nth bm 0 gic_lrs 1 true with
  | None => m_ret tt
  | Some lr_idx =>
      match fuel with
      | O => m_fault FuelOut
      | S fuel' =>
          let! c := refill_choice vcpu has_pending in
          match c with
          | Some (r, prev_pend) =>
              let! _ := vgic_int_get_owner vcpu r in
              write_lr vcpu r lr_idx >>;
              refill_loop fuel' vcpu (has_pending || prev_pend)
          | None => let! h := gich_hcr in gich_set_hcr (Z.land h (notw 32 8))
          end
      end
  end.

(** src: arch/aarch64/vgic.rs 1700-1761 [Vgic::refill_lrs] *)
Definition refill_lrs (fuel : nat) (vcpu : Vcpu) : M VS unit :=
  let! p := lrs_pending (zrange 0 (Z.to_nat gic_lrs)) false in refill_loop fuel vcpu p.

(** src: arch/aarch64/vgic.rs 1763-1778 [Vgic::eoir_highest_spilled_active] *)
Definition eoir_highest_spilled_active (vcpu : Vcpu) : M VS unit :=
  let! o := int_list_head vcpu false in
  match o with
  | None => m_ret tt
  | Some r =>
      let! _ := vgic_int_get_owner vcpu r in
      let! i := read_int r in
      let! st := m_opt ExplicitPanic (num_to_state (Z.land (to_num (state i)) (notw 64 2))) in
      upd_int r (set_state st) >>;
      update_int_list vcpu r >>;
      let! is_hw := vgic_int_is_hw r in
      if is_hw then emit (EvSetAct (ref_id r) false)
      else
        let! i' := read_int r in
        if pending (state i') then let! _ := add_lr vcpu r in m_ret tt else m_ret tt
  end.

(** src: arch/aarch64/vgic.rs 1922-1931 [gic_maintenance_handler: the EOI count loop] *)
Fixpoint eoi_count_loop (fuel : nat) (vcpu : Vcpu) : M VS unit :=
  let! h := gich_hcr in
  if testm h (Z.shiftl 0x1f 27) then
    match fuel with
    | O => m_fault FuelOut
    | S fuel' =>
        eoir_highest_spilled_active vcpu >>;
        gich_set_hcr (u32 (h - Z.shiftl 1 27)) >>;
        eoi_count_loop fuel' vcpu
    end
  else m_ret tt.

(** src: arch/aarch64/vgic.rs 1903-1932 [gic_maintenance_handler]
    [misr] is the value read from GICH_MISR. *)
Definition gic_maintenance_handler (fuel : nat) (vcpu : Vcpu) (misr : Z) : M VS unit :=
  (if testm misr 1 then handle_trapped_eoir fuel vcpu else m_ret tt) >>;
  (if testm misr 8 then refill_lrs fuel vcpu else m_ret tt) >>;
  (if testm misr 4 then eoi_count_loop fuel vcpu else m_ret tt).
End list_registers.
