(* ===== verification/VgicDist.v ===== *)
(** * VgicDist: the distributor of the emulated GICv2 ([arch/aarch64/vgic.rs])

    The operations on one interrupt ([set_enable], [set_pend], ...), each of which acts when
    this vCPU owns the interrupt and sends an IPI to the owner's core otherwise; the emulation of
    every register block of the distributor; the dispatch of a trapped access ([handler]); the
    IPI handler; and the initial state.

    The section context is the list registers' environment, the active vCPU and its VM, the
    platform's CPU-interface numbering and the distributor's base address. *)
From S2P Require Import Prelude Bits Vm VgicState VgicLr.

(** src: device/emu.rs 25-32 [EmuContext] *)
Record EmuContext := mkEmu { address : Z; width : Z; write : bool; reg : Z }.

Section distributor.
Context (core gic_lrs : Z) (elrsr eisr : list Z -> Z -> Z) (gicd_state : list gic_event -> Z -> Z).
Context (cpuid_to_cpuif : Z -> Z) (gicd_base : Z).

Abbreviation remove_lr := (remove_lr core).
Abbreviation add_lr := (add_lr core gic_lrs elrsr gicd_state).
Abbreviation route := (route core gic_lrs elrsr gicd_state).
Abbreviation yield_owner := (vgic_int_yield_owner core).

(** Send a message to the core of the interrupt's owner. *)
Definition ipi_owner (i : VgicInt) (m : IpiInitcMessage) : M VS unit :=
  let! phys := m_opt UnwrapNone (owner_phys_id i) in emit (EvIpi phys m).

Definition msg (e : InitcEvent) (vcpu : Vcpu) (r : iref) (v : Z) : IpiInitcMessage :=
  mkInitc e (vcpu_vm_id vcpu) (u16 (ref_id r)) v.

(** src: arch/aarch64/vgic.rs 761-807 [Vgic::set_enable] *)
Definition set_enable (vcpu : Vcpu) (int_id : Z) (en : bool) : M VS unit :=
  if int_id <? GIC_SGIS_NUM then m_ret tt
  else
    let! o := get_int vcpu int_id in
    match o with
    | None => m_ret tt
    | Some r =>
        let! own := vgic_int_get_owner vcpu r in
        if own then
          let! i := read_int r in
          (if xorb (enabled i) en then
             upd_int r (set_enabled en) >>;
             (if negb en then let! _ := remove_lr vcpu r in m_ret tt else route vcpu r) >>;
             let! i' := read_int r in
             (if hw i' then emit (EvSetEnable (ref_id r) en) else m_ret tt)
           else m_ret tt) >>;
          yield_owner vcpu r
        else let! i := read_int r in ipi_owner i (msg VgicdSetEn vcpu r (if en then 1 else 0))
    end.

(** src: arch/aarch64/vgic.rs 809-811 [Vgic::get_enable] *)
Definition get_enable (vcpu : Vcpu) (int_id : Z) : M VS bool :=
  let! o := get_int vcpu int_id in
  let! r := m_opt UnwrapNone o in let! i := read_int r in m_ret (enabled i).

(** src: arch/aarch64/vgic.rs 973-1023 [Vgic::sgi_set_pend] *)
Definition sgi_set_pend (vcpu : Vcpu) (int_id : Z) (pend : bool) : M VS unit :=
  if GIC_SGIS_NUM <? bit_extract int_id 0 10 then m_ret tt
  else
    let source := bit_extract int_id 10 5 in
    let! o := get_int vcpu (bit_extract int_id 0 10) in
    match o with
    | None => m_ret tt
    | Some r =>
        remove_lr vcpu r >>;
        let! pendstate := cpu_priv_sgis_pend (vcpu_id vcpu) (ref_id r) in
        let bit := u8 (shlw 32 1 source) in
        let new_pendstate := if pend then Z.lor pendstate bit
                             else Z.land pendstate (notw 8 bit) in
        if Z.lxor pendstate new_pendstate =? 0 then m_ret tt
        else
          set_cpu_priv_sgis_pend (vcpu_id vcpu) (ref_id r) new_pendstate >>;
          let! i := read_int r in
          let! st := m_opt ExplicitPanic
            (num_to_state (if new_pendstate =? 0 then Z.land (to_num (state i)) (notw 64 1)
                           else Z.lor (to_num (state i)) 1)) in
          upd_int r (set_state st) >>;
          update_int_list vcpu r >>;
          let! i' := read_int r in
          match state i' with
          | IrqSInactive => m_ret tt
          | _ => let! _ := add_lr vcpu r in m_ret tt
          end
    end.

(** The new state number when bit [b] (1 pending, 2 active) is set or cleared. *)
Definition change_bit (st b : Z) (on : bool) : Z :=
  if on && (Z.land st b =? 0) then Z.lor st b
  else if negb on && negb (Z.land st b =? 0) then Z.land st (notw 64 b)
  else st.

(** The owner's part of [set_pend] and [set_active]: change the bit [b] of the state. *)
Definition change_state (vcpu : Vcpu) (r : iref) (b : Z) (on : bool) : M VS unit :=
  remove_lr vcpu r >>;
  let! i := read_int r in
  let! st := m_opt ExplicitPanic (num_to_state (change_bit (to_num (state i)) b on)) in
  upd_int r (set_state st) >>;
  update_int_list vcpu r >>;
  let! i' := read_int r in
  let n := to_num (state i') in
  (if hw i' then emit (EvSetState (ref_id r) (if n =? 1 then 2 else n)) else m_ret tt) >>;
  route vcpu r >>;
  yield_owner vcpu r.

(** src: arch/aarch64/vgic.rs 813-880 [Vgic::set_pend] *)
Definition set_pend (vcpu : Vcpu) (int_id : Z) (pend : bool) : M VS unit :=
  if bit_extract int_id 0 10 <? GIC_SGIS_NUM then sgi_set_pend vcpu int_id pend
  else
    let! o := get_int vcpu (bit_extract int_id 0 10) in
    match o with
    | None => m_ret tt
    | Some r =>
        let! own := vgic_int_get_owner vcpu r in
        if own then change_state vcpu r 1 pend
        else
          let! i := read_int r in
          match owner i with
          | Some w => emit (EvIpi (phys_id w) (msg VgicdSetPend vcpu r (if pend then 1 else 0)))
          | None => m_fault ExplicitPanic
          end
    end.

(** src: arch/aarch64/vgic.rs 882-929 [Vgic::set_active] *)
Definition set_active (vcpu : Vcpu) (int_id : Z) (act : bool) : M VS unit :=
  let! o := get_int vcpu (bit_extract int_id 0 10) in
  match o with
  | None => m_ret tt
  | Some r =>
      let! own := vgic_int_get_owner vcpu r in
      if own then change_state vcpu r 2 act
      else let! i := read_int r in ipi_owner i (msg VgicdSetPend vcpu r (if act then 1 else 0))
  end.

(** src: arch/aarch64/vgic.rs 931-963 [Vgic::set_icfgr] *)
Definition set_icfgr (vcpu : Vcpu) (int_id c : Z) : M VS unit :=
  let! o := get_int vcpu int_id in
  match o with
  | None => m_fault ExplicitPanic
  | Some r =>
      let! own := vgic_int_get_owner vcpu r in
      if own then
        upd_int r (set_cfg c) >>;
        let! i := read_int r in
        (if hw i then emit (EvSetIcfgr (ref_id r) c) else m_ret tt) >>;
        yield_owner vcpu r
      else let! i := read_int r in ipi_owner i (msg VgicdSetCfg vcpu r c)
  end.

(** src: arch/aarch64/vgic.rs 965-971 [Vgic::get_icfgr] *)
Definition get_icfgr (vcpu : Vcpu) (int_id : Z) : M VS Z :=
  let! o := get_int vcpu int_id in
  match o with
  | Some r => let! i := read_int r in m_ret (cfg i)
  | None => m_fault ExplicitPanic
  end.

(** src: arch/aarch64/vgic.rs 1025-1066 [Vgic::set_prio] *)
Definition set_prio (vcpu : Vcpu) (int_id p : Z) : M VS unit :=
  let! o := get_int vcpu int_id in
  match o with
  | None => m_ret tt
  | Some r =>
      let p := Z.land p 0xf0 in
      let! own := vgic_int_get_owner vcpu r in
      if own then
        let! i := read_int r in
        (if prio i =? p then m_ret tt
         else
           remove_lr vcpu r >>;
           let! i1 := read_int r in
           let prev := prio i1 in
           upd_int r (set_prio_field p) >>;
           (if p <=? prev then route vcpu r else m_ret tt) >>;
           let! i2 := read_int r in
           (if hw i2 then emit (EvSetPrio (ref_id r) p) else m_ret tt)) >>;
        yield_owner vcpu r
      else let! i := read_int r in ipi_owner i (msg VgicdSetPrio vcpu r p)
  end.

(** src: arch/aarch64/vgic.rs 1068-1070 [Vgic::get_prio] *)
Definition get_prio (vcpu : Vcpu) (int_id : Z) : M VS Z :=
  let! o := get_int vcpu int_id in
  let! r := m_opt UnwrapNone o in let! i := read_int r in m_ret (prio i).

(** src: arch/aarch64/vgic.rs 1078-1084 [Vgic::set_trgt: the physical target byte] *)
Definition phys_targets (trgt : Z) : Z :=
  foldl (fun p cpuid => if bit_get trgt cpuid =? 0 then p else bit_set p (cpuid_to_cpuif cpuid))
    0 (zrange 0 8).

(** src: arch/aarch64/vgic.rs 1072-1115 [Vgic::set_trgt] *)
Definition set_trgt (vcpu : Vcpu) (int_id trgt : Z) : M VS unit :=
  let! o := get_int vcpu int_id in
  match o with
  | None => m_ret tt
  | Some r =>
      let! own := vgic_int_get_owner vcpu r in
      if own then
        let! i := read_int r in
        (if targets i =? trgt then m_ret tt
         else
           upd_int r (set_targets trgt) >>;
           (if hw i then emit (EvSetTrgt (ref_id r) (u8 (phys_targets trgt))) else m_ret tt) >>;
           let! st := vgic_get_state core r in
           (if st =? 0 then m_ret tt else route vcpu r)) >>;
        yield_owner vcpu r
      else let! i := read_int r in ipi_owner i (msg VgicdSetTrgt vcpu r trgt)
  end.

(** src: arch/aarch64/vgic.rs 1117-1119 [Vgic::get_trgt] *)
Definition get_trgt (vcpu : Vcpu) (int_id : Z) : M VS Z :=
  let! o := get_int vcpu int_id in
  let! r := m_opt UnwrapNone o in let! i := read_int r in m_ret (targets i).

(** src: arch/aarch64/vgic.rs 1121-1138 [Vgic::inject] *)
Definition inject (vcpu : Vcpu) (int_id : Z) : M VS unit :=
  let! o := get_int vcpu (bit_extract int_id 0 10) in
  match o with
  | None => m_ret tt
  | Some r =>
      let! i := read_int r in
      if hw i then
        upd_int r (fun i => set_in_lr false (set_state IrqSPend (set_owner vcpu i))) >>;
        update_int_list vcpu r >>;
        route vcpu r
      else set_pend vcpu int_id true
  end.

(** ** Register emulation *)

(** The active vCPU of the core and its VM. *)
Context (vcpu : Vcpu) (vm : Vm).

(** [vm.has_interrupt(i) || vm.emu_has_interrupt(i)]. *)
Definition vm_has_int (i : Z) : M VS bool :=
  let! b := m_opt OutOfBounds (has_interrupt vm i) in m_ret (b || emu_has_interrupt vm i).

(** The search loop over [first .. first + n). *)
Fixpoint any_int (ids : list Z) : M VS bool :=
  match ids with
  | [] => m_ret false
  | i :: rest => let! b := vm_has_int i in if b then m_ret true else any_int rest
  end.

(** The value of the accessed register when it is a write, else 0. *)
Definition written (c : EmuContext) : M VS Z := if write c then get_gpr (reg c) else m_ret 0.

(** Collect a bit per interrupt. *)
Fixpoint read_bits (f : Z -> M VS bool) (first : Z) (ids : list Z) (val : Z) : M VS Z :=
  match ids with
  | [] => m_ret val
  | i :: rest =>
      let! b := f (first + i) in
      read_bits f first rest (if b then Z.lor val (shlw 64 1 i) else val)
  end.

(** src: arch/aarch64/vgic.rs 1140-1171 [Vgic::emu_ctrl_access] *)
Definition emu_ctrl_access (c : EmuContext) : M VS unit :=
  if write c then
    let! prev := vgicd_ctlr in
    let! v := get_gpr (reg c) in
    set_vgicd_ctlr (Z.land (u32 v) 1) >>;
    let! cur := vgicd_ctlr in
    if Z.lxor prev cur =? 0 then m_ret tt
    else
      let enable := negb (cur =? 0) in
      let! h := gich_hcr in
      gich_set_hcr (if enable then Z.lor h 1 else Z.land h (notw 32 1)) >>;
      emit (EvBroadcast (mkInitc VgicdGichEn (vm_id vm) 0 (if enable then 1 else 0)))
  else let! v := vgicd_ctlr in set_gpr (reg c) v.

(** src: arch/aarch64/vgic.rs 1173-1181 [Vgic::emu_typer_access] *)
Definition emu_typer_access (c : EmuContext) : M VS unit :=
  if write c then m_ret tt else let! v := m_gets typer in set_gpr (reg c) v.

(** src: arch/aarch64/vgic.rs 1183-1191 [Vgic::emu_iidr_access] *)
Definition emu_iidr_access (c : EmuContext) : M VS unit :=
  if write c then m_ret tt else let! v := m_gets iidr in set_gpr (reg c) v.

(** The first interrupt of a one-bit-per-interrupt register. *)
Definition word_first (c : EmuContext) : Z := Z.land (address c) 0x7f / 4 * 32.

(** Apply [f] to the interrupts whose bit is set in [val]. *)
Definition write_bits (f : Z -> M VS unit) (first val : Z) : M VS unit :=
  m_for (zrange 0 32) (fun i => if bit_get val i =? 0 then m_ret tt else f (first + i)).

(** src: arch/aarch64/vgic.rs 1193-1246 [Vgic::emu_isenabler_access] *)
Definition emu_isenabler_access (c : EmuContext) : M VS unit :=
  let! val := written c in
  let first := word_first c in
  let! has := any_int (zrange first 32) in
  if (16 <=? first) && negb has then m_ret tt
  else if write c then write_bits (fun i => set_enable vcpu i true) first val
  else let! v := read_bits (get_enable vcpu) first (zrange 0 32) val in set_gpr (reg c) v.

(** src: arch/aarch64/vgic.rs 1380-1435 [Vgic::emu_icenabler_access] *)
Definition emu_icenabler_access (c : EmuContext) : M VS unit :=
  let! val := written c in
  let first := word_first c in
  if write c then
    let! has := any_int (zrange first 32) in
    if (16 <=? first) && negb has then m_ret tt
    else write_bits (fun i => set_enable vcpu i false) first val
  else let! v := read_bits (get_enable vcpu) first (zrange 0 32) val in set_gpr (reg c) v.

(** A bit of the state of an interrupt, as the guest reads it. *)
Definition get_state_bit (b int_id : Z) : M VS bool :=
  let! o := get_int vcpu int_id in
  match o with
  | None => m_fault ExplicitPanic
  | Some r => let! st := vgic_get_state core r in m_ret (testm st b)
  end.

(** src: arch/aarch64/vgic.rs 1248-1308 [Vgic::emu_pendr_access] *)
Definition emu_pendr_access (c : EmuContext) (set : bool) : M VS unit :=
  let! val := written c in
  let first := word_first c in
  let! has := any_int (zrange first (Z.to_nat (width c))) in
  if (16 <=? first) && negb has then m_ret tt
  else if write c then write_bits (fun i => set_pend vcpu i set) first val
  else let! v := read_bits (get_state_bit 1) first (zrange 0 32) val in set_gpr (reg c) v.

(** src: arch/aarch64/vgic.rs 1310-1312 [Vgic::emu_ispendr_access] *)
Definition emu_ispendr_access (c : EmuContext) : M VS unit := emu_pendr_access c true.
(** src: arch/aarch64/vgic.rs 1437-1439 [Vgic::emu_icpendr_access] *)
Definition emu_icpendr_access (c : EmuContext) : M VS unit := emu_pendr_access c false.

(** src: arch/aarch64/vgic.rs 1314-1374 [Vgic::emu_activer_access] *)
Definition emu_activer_access (c : EmuContext) (set : bool) : M VS unit :=
  let! val := written c in
  let first := word_first c in
  let! has := any_int (zrange first 32) in
  if (16 <=? first) && negb has then m_ret tt
  else if write c then write_bits (fun i => set_active vcpu i set) first val
  else let! v := read_bits (get_state_bit 2) first (zrange 0 32) val in set_gpr (reg c) v.

(** src: arch/aarch64/vgic.rs 1376-1378 [Vgic::emu_isactiver_access] *)
Definition emu_isactiver_access (c : EmuContext) : M VS unit := emu_activer_access c true.
(** src: arch/aarch64/vgic.rs 1441-1443 [Vgic::emu_icativer_access] *)
Definition emu_icativer_access (c : EmuContext) : M VS unit := emu_activer_access c false.

(** The loop that reads fields of [bits] bits, for the interrupts [first + k]. *)
Fixpoint read_fields (f : Z -> M VS Z) (bits first : Z) (ks : list Z) (val : Z) : M VS Z :=
  match ks with
  | [] => m_ret val
  | k :: rest =>
      let! x := f (first + k) in
      read_fields f bits first rest (Z.lor val (shlw 64 x (bits * k)))
  end.

(** src: arch/aarch64/vgic.rs 1445-1501 [Vgic::emu_icfgr_access] *)
Definition emu_icfgr_access (c : EmuContext) : M VS unit :=
  let first := usize (32 / GIC_CONFIG_BITS * bit_extract (address c) 0 9) / 4 in
  let n := zrange 0 (Z.to_nat ((usize (width c * 8) + 1) / 2)) in
  if write c then
    let! has := any_int (zrange first (Z.to_nat (usize (width c * 8)))) in
    if (16 <=? first) && negb has then m_ret tt
    else
      let! v := get_gpr (reg c) in
      m_for n (fun k => set_icfgr vcpu (first + k) (u8 (bit_extract v (2 * k) 2)))
  else
    let! v := read_fields (get_icfgr vcpu) 2 first n 0 in set_gpr (reg c) v.

(** src: arch/aarch64/vgic.rs 1521-1541 [Vgic::emu_sgiregs_access: the target list] *)
Definition sgi_targets (val : Z) : option Z :=
  let f := bit_extract val 24 2 in
  if f =? 0 then Some (vgic_target_translate vm (u32 (bit_extract val 16 8)) true)
  else if f =? 1 then Some (Z.land (ncpu vm) (notw 64 (shlw 64 1 core)))
  else if f =? 2 then Some (shlw 64 1 core)
  else None.    (* return *)

(** src: arch/aarch64/vgic.rs 1503-1569 [Vgic::emu_sgiregs_access] *)
Definition emu_sgiregs_access (c : EmuContext) : M VS unit :=
  let! val := written c in
  if bit_extract (address c) 0 12 =? bit_extract (usize (gicd_base + 0xf00)) 0 12 then
    if write c then
      match sgi_targets val with
      | None => m_ret tt
      | Some trgtlist =>
          m_for (zrange 0 8) (fun i =>
            if testm trgtlist (shlw 64 1 i) then
              emit (EvIpi i (mkInitc VgicdSetPend (vm_id vm)
                (u16 (Z.lor (bit_extract val 0 8) (shlw 64 (vcpu_id vcpu) 10))) 1))
            else m_ret tt)
      end
    else m_ret tt
  else m_ret tt.

(** src: arch/aarch64/vgic.rs 1571-1622 [Vgic::emu_ipriorityr_access] *)
Definition emu_ipriorityr_access (c : EmuContext) : M VS unit :=
  let! val := written c in
  let first := 8 / GIC_PRIO_BITS * bit_extract (address c) 0 9 in
  let ks := zrange 0 (Z.to_nat (width c)) in
  if write c then
    let! has := any_int (zrange first (Z.to_nat (width c))) in
    if (16 <=? first) && negb has then m_ret tt
    else m_for ks (fun k =>
      set_prio vcpu (first + k) (u8 (bit_extract val (GIC_PRIO_BITS * k) GIC_PRIO_BITS)))
  else
    let! v := read_fields (get_prio vcpu) GIC_PRIO_BITS first ks val in set_gpr (reg c) v.

(** src: arch/aarch64/vgic.rs 1624-1658 [Vgic::emu_itargetr_access] *)
Definition emu_itargetr_access (c : EmuContext) : M VS unit :=
  let! val := written c in
  let first := 8 / GIC_TARGET_BITS * bit_extract (address c) 0 9 in
  let ks := zrange 0 (Z.to_nat (width c)) in
  if write c then
    let val := vgic_target_translate vm (u32 val) true in
    m_for ks (fun k =>
      set_trgt vcpu (first + k) (u8 (bit_extract val (GIC_TARGET_BITS * k) GIC_TARGET_BITS)))
  else
    let! v := read_fields (get_trgt vcpu) GIC_TARGET_BITS first ks val in
    set_gpr (reg c) (vgic_target_translate vm (u32 v) false).

(** ** Dispatch *)

(** src: arch/aarch64/vgic.rs 1945-1979 [vgicd_emu_access_is_vaild] *)
Definition vgicd_emu_access_is_vaild (c : EmuContext) : bool :=
  let offset := Z.land (address c) 0xfff in
  let prefix := Z.shiftr (Z.land offset 0xf80) 7 in
  if existsb (Z.eqb prefix) [0; 2; 4; 6; 3; 5; 7; 0x18] then
    negb (negb (width c =? 4) || testm (address c) 3)
  else if prefix =? 0x1e then
    negb (((width c =? 4) && testm (address c) 3) || ((width c =? 2) && testm (address c) 1))
  else
    negb ((0x400 <=? offset) && (offset <? 0xc00) &&
          (((width c =? 4) && testm (address c) 3) || ((width c =? 2) && testm (address c) 1))).

(** src: arch/aarch64/vgic.rs 2131-2200 [Vgic::handler] *)
Definition handler (c : EmuContext) : M VS bool :=
  let offset := Z.land (address c) 0xfff in
  let prefix := Z.shiftr offset 7 in
  if negb (vgicd_emu_access_is_vaild c) then m_ret false
  else
    (if prefix =? 2 then emu_isenabler_access c
     else if prefix =? 4 then emu_ispendr_access c
     else if prefix =? 6 then emu_isactiver_access c
     else if prefix =? 3 then emu_icenabler_access c
     else if prefix =? 5 then emu_icpendr_access c
     else if prefix =? 7 then emu_icativer_access c
     else if prefix =? 0x18 then emu_icfgr_access c
     else if prefix =? 0x1e then emu_sgiregs_access c
     else
       (if offset =? 0 then emu_ctrl_access c
        else if offset =? 4 then emu_typer_access c
        else if offset =? 8 then emu_iidr_access c
        else if write c then m_ret tt else set_gpr (reg c) 0) >>;
       (if (0x400 <=? offset) && (offset <? 0x800) then emu_ipriorityr_access c
        else if (0x800 <=? offset) && (offset <? 0xc00) then emu_itargetr_access c
        else m_ret tt)) >>;
    m_ret true.

(** src: arch/aarch64/vgic.rs 2037-2051 [vgic_ipi_handler: VgicdRoute] *)
Definition ipi_route (int_id : Z) : M VS unit :=
  let! o := get_int vcpu (bit_extract int_id 0 10) in
  match o with
  | None => m_ret tt
  | Some r =>
      let! own := vgic_int_get_owner vcpu r in
      if own then
        let! i := read_int r in
        (if testm (targets i) (shlw 8 1 core) then let! _ := add_lr vcpu r in m_ret tt else m_ret tt) >>;
        yield_owner vcpu r
      else m_ret tt
  end.

(** src: arch/aarch64/vgic.rs 1981-2060 [vgic_ipi_handler]
    For the vCPU of the message's VM on this core, after its GIC context was restored. *)
Definition vgic_ipi_handler (m : IpiInitcMessage) : M VS unit :=
  if negb (msg_vm_id m =? vm_id vm) then m_ret tt
  else
    let id := msg_int_id m in
    let on := negb (msg_val m =? 0) in
    match event m with
    | VgicdGichEn =>
        let! h := gich_hcr in gich_set_hcr (if on then Z.lor h 1 else Z.land h (notw 32 1))
    | VgicdSetEn => set_enable vcpu id on
    | VgicdSetPend => set_pend vcpu id on
    | VgicdSetPrio => set_prio vcpu id (msg_val m)
    | VgicdSetTrgt => set_trgt vcpu id (msg_val m)
    | VgicdRoute => ipi_route id
    | _ => m_ret tt
    end.

(** src: arch/aarch64/vgic.rs 2097-2120 [vgic_set_hw_int] *)
Definition vgic_set_hw_int (int_id : Z) : M VS unit :=
  if int_id <? GIC_SGIS_NUM then m_ret tt
  else if int_id <? GIC_PRIVINT_NUM then
    m_for (vcpu_list vm) (fun v =>
      let! o := get_int v int_id in
      match o with Some r => upd_int r (set_hw true) | None => m_ret tt end)
  else
    let! v := m_opt UnwrapNone (Vm.vcpu vm 0) in
    let! o := get_int v int_id in
    match o with Some r => upd_int r (set_hw true) | None => m_ret tt end.
End distributor.

(** src: arch/aarch64/vgic.rs 2062-2095 [emu_intc_init]
    [hw_typer] and [hw_iidr] are the physical distributor's registers. *)
Definition emu_intc_init (hw_typer hw_iidr : Z) (vcpus : list Vcpu) (h : Z) (l g : list Z) : VS :=
  mkVS 2
    (Z.lor (Z.land hw_typer 0x1f) (u32 (Z.land (shlw 64 (usize (zlen vcpus - 1)) 5) 0x1f)))
    hw_iidr
    (replicate (Z.to_nat GIC_SPI_MAX) int_new)
    ((fun v => mkPriv
        ((fun k => int_priv_new v (shlw 64 1 (phys_id v)) (k <? GIC_SGIS_NUM)) <$> zrange 0 32)
        (curr_lrs cpu_priv_default) (sgis cpu_priv_default) [] []) <$> vcpus)
    h l g [].
