(* ===== verification/IntQueues.v ===== *)
(** * IntQueues: the queues of spilled interrupts, for either emulated controller

    The emulated GICv2 and GICv3 keep, for each vCPU, a queue of its pending and one of its active interrupts, and a flag in
    each interrupt that says whether it is in them.  What the two share is a class of operations on the state and one of
    laws; the consistency of the queues and what keeps it are proved against them, and [VgicProps] and [Gic3Props] give
    the instances. *)
From stdpp Require Import list.
From S2P Require Import Prelude Vm VgicState.

(** A state with the private parts of the vCPUs and the shared interrupts; [b] selects the pending or the active queue. *)
Class QueueOps (S I P : Type) := {
  privs : S -> list P;
  set_privs : list P -> S -> S;
  shared : S -> list I;
  set_shared : list I -> S -> S;
  p_ints : P -> list I;
  set_p_ints : list I -> P -> P;
  q_list : bool -> P -> list iref;
  q_put : bool -> list iref -> P -> P;
  q_flag : bool -> I -> bool;
  q_set : bool -> bool -> I -> I;
}.

Class QueueLaws {S I P} (Q : QueueOps S I P) := {
  privs_set_privs l s : privs (set_privs l s) = l;
  privs_set_shared l s : privs (set_shared l s) = privs s;
  shared_set_privs l s : shared (set_privs l s) = shared s;
  shared_set_shared l s : shared (set_shared l s) = l;
  ints_set_ints l p : p_ints (set_p_ints l p) = l;
  list_set_ints b l p : q_list b (set_p_ints l p) = q_list b p;
  ints_put b l p : p_ints (q_put b l p) = p_ints p;
  list_put b l p : q_list b (q_put b l p) = l;
  list_put_ne b b' l p : b' <> b -> q_list b' (q_put b l p) = q_list b' p;
  flag_set b x i : q_flag b (q_set b x i) = x;
  set_flag b i : q_set b (q_flag b i) i = i;
  flag_set_ne b b' x i : b' <> b -> q_flag b' (q_set b x i) = q_flag b' i;
}.

(** ** Consistency of a queue *)

Definition is_priv (r : iref) : Prop := match r with RPriv _ _ => True | RSpi _ => False end.
#[export] Instance is_priv_dec r : Decision (is_priv r).
Proof. destruct r; apply _. Defined.

(** The pointer may appear in the queues of vCPU [c]. *)
Definition local (c : Z) (r : iref) : Prop :=
  match r with RPriv c' i => c' = c /\ 0 <= i < 32 | RSpi i => 0 <= i end.

(** A queue of vCPU [c]: its private interrupts occur exactly when their flag is set, and at most once. *)
Record queue_ok {I} (c : Z) (ints : list I) (flag : I -> bool) (l : list iref) : Prop := {
  q_local : forall r, r ∈ l -> local c r;
  q_nodup : NoDup (filter is_priv l);
  q_flags : forall i x, zget ints i = Some x -> (flag x = true <-> RPriv c i ∈ l);
}.

Lemma local_id c r : local c r -> is_priv r <-> ref_id r < 32.
Proof. destruct r; simpl; unfold GIC_PRIVINT_NUM; [intros [_ ?]; split; [lia|done]|intros; split; [done|lia]]. Qed.

Lemma local_inj c x r : local c x -> local c r -> ref_id x = ref_id r -> x = r.
Proof.
  destruct x, r; simpl; unfold GIC_PRIVINT_NUM; intros; try lia; [|f_equal; lia].
  destruct H as [-> _], H0 as [-> _]. by subst.
Qed.

(** Removal by id removes the first occurrence of the pointer itself. *)
Lemma queue_remove_spec c l r :
  local c r -> (forall x, x ∈ l -> local c x) ->
  (forall x, x ∈ queue_remove l r -> x ∈ l) /\
  (forall x, x <> r -> x ∈ l -> x ∈ queue_remove l r) /\
  (NoDup (filter is_priv l) -> NoDup (filter is_priv (queue_remove l r)) /\
     (is_priv r -> r ∉ queue_remove l r)).
Proof.
  intros Hr Hl. induction l as [|y l IH]; simpl.
  { split_and!; [done|done|]. intros _. split; [constructor|]. intros _ ?%elem_of_nil. done. }
  destruct IH as (I1 & I2 & I3); [intros x Hx; apply Hl; by right|].
  assert (local c y) as Hy by (apply Hl; left).
  destruct (Z.eqb_spec (ref_id y) (ref_id r)) as [E|E].
  - assert (y = r) as -> by (by eapply local_inj). split_and!.
    + intros x ?. by right.
    + intros x ? [?|?]%elem_of_cons; done.
    + rewrite filter_cons. case_decide as Hp; intros Hnd.
      * apply list.NoDup_cons in Hnd as [Hn Hnd]. split; [done|]. intros _ Hin. apply Hn.
        by apply list_elem_of_filter.
      * split; [done|]. intros ?. done.
  - split_and!.
    + intros x [->|?]%elem_of_cons; [left|right; auto].
    + intros x ? [->|?]%elem_of_cons; [left|right; auto].
    + assert (y <> r) by congruence. rewrite !filter_cons. case_decide as Hp.
      * intros [Hn Hnd]%list.NoDup_cons. destruct (I3 Hnd) as [I4 I5]. split.
        -- apply list.NoDup_cons. split; [|done]. intros [_ Hin]%list_elem_of_filter. apply Hn.
           apply list_elem_of_filter. auto.
        -- intros Hpr. apply list.not_elem_of_cons. auto.
      * intros Hnd. destruct (I3 Hnd) as [I4 I5]. split; [done|]. intros Hpr.
        apply list.not_elem_of_cons. auto.
Qed.

(** A queue changed for [r] together with its flag. *)
Lemma queue_ok_update {I} c (ints : list I) flag l r l' x' :
  queue_ok c ints flag l -> local c r ->
  (forall x, x ∈ l' -> x ∈ l \/ x = r) ->
  (forall x, x <> r -> x ∈ l -> x ∈ l') ->
  NoDup (filter is_priv l') ->
  (is_priv r -> flag x' = true <-> r ∈ l') ->
  queue_ok c (match r with RPriv _ i => zset ints i x' | RSpi _ => ints end) flag l'.
Proof.
  intros [Q1 Q2 Q3] Hr Hsub Hsup Hnd Hk. split; [|done|].
  - intros y [?| ->]%Hsub; auto.
  - intros i y. destruct r as [c0 j|j].
    + destruct Hr as [-> Hj]. rewrite zget_zset. case_decide as Hd.
      * destruct Hd as [-> _]. intros [= <-]. by apply Hk.
      * intros Hy. assert (RPriv c i <> RPriv c j \/ i = j) as [Hne|Heq]
          by (destruct (decide (i = j)); [by right|left; congruence]).
        -- rewrite (Q3 i y Hy). split; [by apply Hsup|]. intros [?| ?]%Hsub; done.
        -- subst j. destruct Hd. split; [done|]. by apply zget_Some_bounds in Hy.
    + intros Hy. rewrite (Q3 i y Hy). split; [by apply Hsup|]. intros [?|?]%Hsub; done.
Qed.

(** ** The operations *)

Section queues.
Context {S I P : Type} {Q : QueueOps S I P} {L : QueueLaws Q}.
Implicit Types s : S.

Definition q_find s (r : iref) : option I :=
  match r with
  | RPriv c i => cp ← zget (privs s) c; zget (p_ints cp) i
  | RSpi i => zget (shared s) i
  end.
Definition q_store s (r : iref) (i : I) : S :=
  match r with
  | RPriv c k =>
      match zget (privs s) c with
      | Some cp => set_privs (zset (privs s) c (set_p_ints (zset (p_ints cp) k i) cp)) s
      | None => s
      end
  | RSpi k => set_shared (zset (shared s) k i) s
  end.
Definition q_read (r : iref) : M S I := let! s := m_get in m_opt OutOfBounds (q_find s r).
Definition q_upd_int (r : iref) (f : I -> I) : M S unit := let! i := q_read r in m_modify (fun s => q_store s r (f i)).
Definition q_read_priv (c : Z) : M S P := let! s := m_get in m_idx (privs s) c.
Definition q_upd_priv (c : Z) (f : P -> P) : M S unit :=
  let! p := q_read_priv c in m_modify (fun s => set_privs (zset (privs s) c (f p)) s).

(** [update_pend] and [update_act]: [bit] is the bit of the interrupt's state the queue stands for. *)
Definition update_q (b : bool) (bit : I -> bool) (vcpu : Vcpu) (r : iref) : M S unit :=
  let! i := q_read r in
  if bit i && negb (q_flag b i) then
    q_upd_priv (vcpu_id vcpu) (fun p => q_put b (q_list b p ++ [r]) p) >>; q_upd_int r (q_set b true)
  else if negb (bit i) then
    q_upd_priv (vcpu_id vcpu) (fun p => q_put b (queue_remove (q_list b p) r) p) >>; q_upd_int r (q_set b false)
  else m_ret tt.

(** ** The invariant *)

Definition queues_ok s : Prop := forall c p b, zget (privs s) c = Some p -> queue_ok c (p_ints p) (q_flag b) (q_list b p).

Lemma queues_same s s' : privs s' = privs s -> queues_ok s -> queues_ok s'.
Proof. intros E Hs c p b. rewrite E. apply Hs. Qed.


(** Changing an interrupt without touching its flags. *)
Lemma queues_store s r i i' :
  queues_ok s -> q_find s r = Some i -> (forall b, q_flag b i' = q_flag b i) -> queues_ok (q_store s r i').
Proof using L.
  intros Hs Hr Hf. destruct r as [c0 k|k]; [|apply (queues_same s); [apply privs_set_shared|done]].
  simpl in Hr |- *. destruct (zget (privs s) c0) as [cp|] eqn:Ec; [|done]. simpl in Hr.
  intros c p b. rewrite privs_set_privs, zget_zset. case_decide as Hd; [|by apply Hs].
  destruct Hd as [<- _]. intros [= <-]. destruct (Hs c0 cp b Ec) as [H1 H2 H3].
  rewrite list_set_ints, ints_set_ints. split; try done. intros j x. rewrite zget_zset. case_decide as Hd; [|by apply H3].
  destruct Hd as [-> _]. intros [= <-]. rewrite Hf. by apply H3.
Qed.

Lemma queues_priv s c p p' :
  queues_ok s -> zget (privs s) c = Some p -> p_ints p' = p_ints p -> (forall b, q_list b p' = q_list b p) ->
  queues_ok (set_privs (zset (privs s) c p') s).
Proof using L.
  intros Hs Hp Hi Hl c' x b. rewrite privs_set_privs, zget_zset. case_decide as Hd; [|by apply Hs].
  destruct Hd as [<- _]. intros [= <-]. rewrite Hi, Hl. by apply Hs.
Qed.

Lemma q_read_inv r s i s' : q_read r s = Ret i s' -> s' = s /\ q_find s r = Some i.
Proof using. unfold q_read, m_bind, m_get. destruct (q_find s r); [|done]. by intros [= -> ->]. Qed.
Lemma q_read_priv_inv c s p s' : q_read_priv c s = Ret p s' -> s' = s /\ zget (privs s) c = Some p.
Proof using. unfold q_read_priv. intros [Hp ->]%m_idx_inv. done. Qed.

Lemma keeps_q_upd_int r f : (forall i b, q_flag b (f i) = q_flag b i) -> m_keeps queues_ok (q_upd_int r f).
Proof using L.
  intros Hf s a s' Hs (i & s1 & E & E')%m_bind_inv. apply q_read_inv in E as [-> E].
  injection E' as _ <-. eapply queues_store; eauto.
Qed.

Lemma keeps_q_upd_priv c f :
  (forall p, p_ints (f p) = p_ints p) -> (forall b p, q_list b (f p) = q_list b p) -> m_keeps queues_ok (q_upd_priv c f).
Proof using L.
  intros H1 H2 s a s' Hs (p & s1 & E & E')%m_bind_inv. apply q_read_priv_inv in E as [-> E].
  injection E' as _ <-. eapply queues_priv; eauto.
Qed.

Lemma keeps_q_modify (f : S -> S) : (forall s, privs (f s) = privs s) -> m_keeps queues_ok (m_modify f).
Proof using. intros Hf. apply keeps_modify. intros s. by apply queues_same. Qed.

(** The two writes of a queue operation: the list, then the flag. *)
Lemma q_write_inv b vcpu r l' x s s' p :
  queues_ok s -> local (vcpu_id vcpu) r -> zget (privs s) (vcpu_id vcpu) = Some p ->
  (forall y, y ∈ l' -> y ∈ q_list b p \/ y = r) ->
  (forall y, y <> r -> y ∈ q_list b p -> y ∈ l') ->
  NoDup (filter is_priv l') -> (is_priv r -> x = true <-> r ∈ l') ->
  (q_upd_priv (vcpu_id vcpu) (fun p => q_put b l' p) >>; q_upd_int r (q_set b x)) s = Ret tt s' ->
  queues_ok s'.
Proof using L.
  intros Hs Hr Hp Hsub Hsup Hnd Hx ([] & s1 & E & E')%m_bind_inv.
  apply m_bind_inv in E as (p' & s0 & E0 & E). apply q_read_priv_inv in E0 as [-> E0].
  assert (p' = p) as -> by congruence. injection E as <-.
  apply m_bind_inv in E' as (i & s2 & Ei & E'). apply q_read_inv in Ei as [-> Ei].
  injection E' as <-. pose proof (zget_Some_bounds _ _ _ Hp) as Hb. intros c q b'.
  assert (forall r', privs (q_store (set_privs (zset (privs s) (vcpu_id vcpu) (q_put b l' p)) s) r' (q_set b x i)) =
    match r' with
    | RPriv c0 k => match zget (zset (privs s) (vcpu_id vcpu) (q_put b l' p)) c0 with
        | Some cp => zset (zset (privs s) (vcpu_id vcpu) (q_put b l' p)) c0 (set_p_ints (zset (p_ints cp) k (q_set b x i)) cp)
        | None => zset (privs s) (vcpu_id vcpu) (q_put b l' p) end
    | RSpi _ => zset (privs s) (vcpu_id vcpu) (q_put b l' p) end) as ->.
  { intros []; simpl; rewrite ?privs_set_privs, ?privs_set_shared; [|by rewrite privs_set_privs].
    case_match; by rewrite ?privs_set_privs. }
  destruct r as [c0 k|k].
  - destruct Hr as [-> Hk]. rewrite zget_zset_eq by done. rewrite zset_zset, zget_zset. case_decide as Hd; [|by apply Hs].
    destruct Hd as [<- _]. intros [= <-]. rewrite ints_set_ints, list_set_ints, ints_put.
    destruct (decide (b' = b)) as [->|Hne].
    + rewrite list_put. apply (queue_ok_update _ _ _ (q_list b p) (RPriv (vcpu_id vcpu) k)); [by apply Hs|done..|].
      intros ?. rewrite flag_set. by apply Hx.
    + destruct (Hs _ p b' Hp) as [Q1 Q2 Q3]. rewrite list_put_ne by done. split; [done..|].
      simpl in Ei. rewrite privs_set_privs, zget_zset_eq in Ei by done. simpl in Ei. rewrite ints_put in Ei.
      intros j y. rewrite zget_zset. case_decide as Hd; [|apply Q3]. destruct Hd as [-> _]. intros [= <-].
      rewrite flag_set_ne by done. by apply Q3.
  - rewrite zget_zset. case_decide as Hd; [|by apply Hs]. destruct Hd as [<- _]. intros [= <-]. rewrite ints_put.
    destruct (decide (b' = b)) as [->|Hne].
    + rewrite list_put. by apply (queue_ok_update _ (p_ints p) _ (q_list b p) (RSpi k) l' i); [apply Hs|..].
    + rewrite list_put_ne by done. by apply Hs.
Qed.

(** The list of the vCPU is what the update reads. *)
Lemma q_upd_priv_put b (f : list iref -> list iref) vcpu p s :
  zget (privs s) (vcpu_id vcpu) = Some p ->
  q_upd_priv (vcpu_id vcpu) (fun p => q_put b (f (q_list b p)) p) s =
  q_upd_priv (vcpu_id vcpu) (fun p' => q_put b (f (q_list b p)) p') s.
Proof using. intros Hp. unfold q_upd_priv, q_read_priv, m_bind, m_get, m_idx. by rewrite Hp. Qed.

(** A change of the list by a function that touches only [r], with the flag. *)
Lemma q_change_inv b vcpu r (f : list iref -> list iref) x s s' :
  queues_ok s -> local (vcpu_id vcpu) r ->
  (forall p, zget (privs s) (vcpu_id vcpu) = Some p ->
     (forall y, y ∈ f (q_list b p) -> y ∈ q_list b p \/ y = r) /\
     (forall y, y <> r -> y ∈ q_list b p -> y ∈ f (q_list b p)) /\
     NoDup (filter is_priv (f (q_list b p))) /\ (is_priv r -> x = true <-> r ∈ f (q_list b p))) ->
  (q_upd_priv (vcpu_id vcpu) (fun p => q_put b (f (q_list b p)) p) >>; q_upd_int r (q_set b x)) s = Ret tt s' ->
  queues_ok s'.
Proof using L.
  intros Hs Hr Hf Ew. destruct (zget (privs s) (vcpu_id vcpu)) as [p|] eqn:Ep.
  - destruct (Hf p eq_refl) as (H1 & H2 & H3 & H4). eapply (q_write_inv b vcpu r (f (q_list b p)) x s s' p); try done.
    unfold m_bind at 1 in Ew. rewrite (q_upd_priv_put b f vcpu p s Ep) in Ew. exact Ew.
  - apply m_bind_inv in Ew as ([] & s1 & Ew & _). apply m_bind_inv in Ew as (p & s2 & Ew & _).
    apply q_read_priv_inv in Ew as [_ Ew]. congruence.
Qed.

Lemma keeps_update_q b bit vcpu r : local (vcpu_id vcpu) r -> m_keeps queues_ok (update_q b bit vcpu r).
Proof using L.
  intros Hr s [] s' Hs (i & s0 & Ei & E)%m_bind_inv. apply q_read_inv in Ei as [-> Ei].
  destruct (bit i && negb (q_flag b i)) eqn:E1; [|destruct (negb (bit i)) eqn:E2].
  - apply (q_change_inv b vcpu r (fun l => l ++ [r]) true s s' Hs Hr); [|exact E].
    intros p Ep. destruct (Hs _ p b Ep) as [Q1 Q2 Q3]. apply andb_true_iff in E1 as [_ E1]. apply negb_true_iff in E1.
    split_and!.
    + intros y. rewrite elem_of_app, list_elem_of_singleton. done.
    + intros y _ ?. apply elem_of_app. by left.
    + rewrite list.filter_app, filter_cons. case_decide as Hpr; [|by rewrite filter_nil, app_nil_r].
      rewrite filter_nil. apply list.NoDup_app. split_and!; [done| |apply list.NoDup_singleton].
      intros y [_ Hy]%list_elem_of_filter Hyr%list_elem_of_singleton. subst y.
      destruct r as [c k|]; [|done]. destruct Hr as [-> _]. simpl in Ei. rewrite Ep in Ei.
      apply (Q3 k i Ei) in Hy. congruence.
    + intros _. split; [|done]. intros _. apply elem_of_app. right. by apply list_elem_of_singleton.
  - apply (q_change_inv b vcpu r (fun l => queue_remove l r) false s s' Hs Hr); [|exact E].
    intros p Ep. destruct (Hs _ p b Ep) as [Q1 Q2 Q3].
    destruct (queue_remove_spec (vcpu_id vcpu) (q_list b p) r Hr Q1) as (H1 & H2 & H3).
    destruct (H3 Q2) as [H4 H5]. split_and!; [|done|done|].
    + intros y ?. left. by apply H1.
    + intros Hp. split; [done|]. intros Hin. by destruct (H5 Hp).
  - by injection E as <-.
Qed.

(** ** Running the operations *)

Lemma q_read_eq s r i : q_find s r = Some i -> q_read r s = Ret i s.
Proof using. intros E. unfold q_read, m_bind, m_get. by rewrite E. Qed.
Lemma q_upd_int_eq s r i f : q_find s r = Some i -> q_upd_int r f s = Ret tt (q_store s r (f i)).
Proof using. intros E. unfold q_upd_int, m_bind. by rewrite (q_read_eq s r i E). Qed.
Lemma q_read_priv_eq s c p : zget (privs s) c = Some p -> q_read_priv c s = Ret p s.
Proof using. intros E. unfold q_read_priv, m_bind, m_get, m_idx. by rewrite E. Qed.
Lemma q_upd_priv_eq s c p f : zget (privs s) c = Some p -> q_upd_priv c f s = Ret tt (set_privs (zset (privs s) c (f p)) s).
Proof using. intros E. unfold q_upd_priv, m_bind. by rewrite (q_read_priv_eq s c p E). Qed.

Lemma q_find_store s r r' i i' : q_find s r = Some i ->
  q_find (q_store s r i') r' = if decide (r' = r) then Some i' else q_find s r'.
Proof using L.
  intros Hr. destruct r as [c k|k], r' as [c' k'|k']; simpl in *.
  - destruct (zget (privs s) c) as [p|] eqn:Ep; [|done]. simpl in Hr.
    apply zget_Some_bounds in Ep as Hb. apply zget_Some_bounds in Hr as Hk.
    rewrite privs_set_privs, zget_zset. case_decide as Hd.
    + destruct Hd as [<- _]. rewrite Ep. simpl. rewrite ints_set_ints, zget_zset.
      destruct (decide (k = k')) as [->|Hne].
      * rewrite !decide_True by (split; done || done). done.
      * rewrite !decide_False by (intros [= ?] || (intros [? _]); congruence). done.
    + rewrite decide_False; [done|]. intros [= <- <-]. by destruct Hd.
  - destruct (zget (privs s) c); [|done]. by rewrite shared_set_privs.
  - by rewrite privs_set_shared.
  - apply zget_Some_bounds in Hr as Hk. rewrite shared_set_shared, zget_zset.
    destruct (decide (k = k')) as [->|Hne]; [by rewrite !decide_True by done|].
    rewrite !decide_False by (intros [= ?] || (intros [? _]); congruence). done.
Qed.

Lemma q_find_priv s c p p' r : zget (privs s) c = Some p -> p_ints p' = p_ints p ->
  q_find (set_privs (zset (privs s) c p') s) r = q_find s r.
Proof using L.
  intros Hp Hi. destruct r as [c' k|k]; simpl; [|by rewrite shared_set_privs].
  rewrite privs_set_privs, zget_zset. case_decide as Hd; [|done]. destruct Hd as [<- _]. rewrite Hp. simpl. by rewrite Hi.
Qed.

(** An update of a queue succeeds, keeps whatever the writes of the two vectors keep, and changes the flag of [r]. *)
Lemma update_q_run (K : S -> Prop) b bit vcpu r i s :
  (forall s0 p l, zget (privs s0) (vcpu_id vcpu) = Some p -> K s0 ->
     K (set_privs (zset (privs s0) (vcpu_id vcpu) (q_put b l p)) s0)) ->
  (forall s0 i0 i', q_find s0 r = Some i0 -> K s0 -> K (q_store s0 r i')) ->
  q_find s r = Some i -> is_Some (zget (privs s) (vcpu_id vcpu)) -> K s ->
  exists s' x, update_q b bit vcpu r s = Ret tt s' /\ K s' /\ q_find s' r = Some (q_set b x i).
Proof using L.
  intros Kp Ki Hr [p Hp] HK.
  assert (forall l x, exists s', (q_upd_priv (vcpu_id vcpu) (fun p => q_put b (l p) p) >>; q_upd_int r (q_set b x)) s =
      Ret tt s' /\ K s' /\ q_find s' r = Some (q_set b x i)) as Hgen.
  { intros l x. set (s1 := set_privs (zset (privs s) (vcpu_id vcpu) (q_put b (l p) p)) s).
    assert (q_find s1 r = Some i) as Hr1 by (unfold s1; rewrite (q_find_priv s _ p); [done|done|by rewrite ints_put]).
    exists (q_store s1 r (q_set b x i)). split_and!.
    - eapply m_bind_Ret_r; [by apply (q_upd_priv_eq _ _ p)|by apply q_upd_int_eq].
    - eapply Ki; [done|by apply Kp].
    - rewrite (q_find_store _ _ _ i) by done. by rewrite decide_True. }
  unfold update_q. destruct (bit i && negb (q_flag b i)) eqn:E1; [|destruct (negb (bit i)) eqn:E2].
  - destruct (Hgen (fun p => q_list b p ++ [r]) true) as (s' & E & H). exists s', true.
    split; [|exact H]. eapply m_bind_Ret_r; [by apply q_read_eq|]. cbv beta. by rewrite E1.
  - destruct (Hgen (fun p => queue_remove (q_list b p) r) false) as (s' & E & H). exists s', false.
    split; [|exact H]. eapply m_bind_Ret_r; [by apply q_read_eq|]. cbv beta. by rewrite E1, E2.
  - exists s, (q_flag b i). rewrite set_flag. split_and!; try done.
    eapply m_bind_Ret_r; [by apply q_read_eq|]. cbv beta. by rewrite E1, E2.
Qed.
End queues.

#[export] Hint Extern 4 (m_keeps queues_ok (m_modify _)) => (by apply keeps_q_modify) : keeps.
