(* ===== verification/VgicProps.v ===== *)
(** * VgicProps: what the emulated GICv2 guarantees

    The consistency of the pending and active queues over everything a guest or another core can
    make the controller do; the content of a list register and the spill round trip; the
    protocol between the cores of a VM; and the places where the code falls short. *)
From stdpp Require Import list.
From S2P Require Import Prelude Bits Vm VgicState VgicLr VgicDist IntQueues.

(** ** Queue consistency: the controller as an instance of [IntQueues] *)

#[export] Instance vs_queues : QueueOps VS VgicInt VgicCpuPriv := {
  privs := cpu_priv; set_privs := with_priv; shared := spis; set_shared := with_spis;
  p_ints := priv_ints; set_p_ints := put_priv_ints;
  q_list := fun b p => if b then pend_list p else act_list p;
  q_put := fun b l p => if b then put_pend_list l p else put_act_list l p;
  q_flag := fun b i => if b then in_pend i else in_act i;
  q_set := fun b x i => if b then set_in_pend_state x i else set_in_act_state x i;
}.
#[export] Instance vs_queue_laws : QueueLaws vs_queues.
Proof. split; try done; by intros [] []. Qed.

Definition q_bit (b : bool) (i : VgicInt) : bool := if b then pending (state i) else active (state i).
Abbreviation vg_inv := (queues_ok (Q:=vs_queues)).

Lemma keeps_upd_int r f :
  (forall i b, q_flag b (f i) = q_flag b i) -> m_keeps vg_inv (upd_int r f).
Proof. exact (keeps_q_upd_int (Q:=vs_queues) r f). Qed.

Lemma read_int_inv r s i s' : read_int r s = Ret i s' -> s' = s /\ find_int s r = Some i.
Proof. exact (q_read_inv (Q:=vs_queues) r s i s'). Qed.

Lemma read_priv_inv c s p s' : read_priv c s = Ret p s' -> s' = s /\ zget (cpu_priv s) c = Some p.
Proof. exact (q_read_priv_inv (Q:=vs_queues) c s p s'). Qed.

Lemma reads_read_int r : m_reads (read_int r).
Proof. unfold read_int. reads_tac. Qed.
Lemma reads_read_priv c : m_reads (read_priv c).
Proof. unfold read_priv. reads_tac. Qed.
#[export] Hint Resolve reads_read_int reads_read_priv : reads.
Lemma reads_gich_lr i : m_reads (gich_lr i).
Proof. unfold gich_lr. reads_tac. Qed.
Lemma reads_gich_hcr : m_reads gich_hcr.
Proof. unfold gich_hcr. reads_tac. Qed.
Lemma reads_get_gpr i : m_reads (get_gpr i).
Proof. unfold get_gpr. reads_tac. Qed.
Lemma reads_sgis_pend c i : m_reads (cpu_priv_sgis_pend c i).
Proof. unfold cpu_priv_sgis_pend. reads_tac. Qed.
Lemma reads_sgis_act c i : m_reads (cpu_priv_sgis_act c i).
Proof. unfold cpu_priv_sgis_act. reads_tac. Qed.
Lemma reads_curr_lrs c i : m_reads (cpu_priv_curr_lrs c i).
Proof. unfold cpu_priv_curr_lrs. reads_tac. Qed.
Lemma reads_get_int v i : m_reads (get_int v i).
Proof. unfold get_int, cpu_priv_interrupt, vgicd_interrupt. reads_tac. Qed.
Lemma reads_owns v r : m_reads (vgic_owns v r).
Proof. unfold vgic_owns. reads_tac. Qed.
Lemma reads_is_hw r : m_reads (vgic_int_is_hw r).
Proof. unfold vgic_int_is_hw. reads_tac. Qed.
#[export] Hint Resolve reads_gich_lr reads_gich_hcr reads_get_gpr reads_sgis_pend reads_sgis_act
  reads_curr_lrs reads_get_int reads_owns reads_is_hw : reads.
Lemma reads_gich_get_lr core r : m_reads (gich_get_lr core r).
Proof. unfold gich_get_lr. reads_tac. Qed.
#[export] Hint Resolve reads_gich_get_lr : reads.
Lemma reads_get_state core r : m_reads (vgic_get_state core r).
Proof. unfold vgic_get_state. reads_tac. Qed.
Lemma reads_list_head v b : m_reads (int_list_head v b).
Proof. unfold int_list_head. reads_tac. Qed.
#[export] Hint Resolve reads_get_state reads_list_head : reads.
#[export] Hint Extern 5 (m_keeps _ _) => (apply reads_keeps; solve [reads_tac]) : keeps.

(** *** Updating a queue *)

(** The pointer may be handed to the queue operations of [vcpu]. *)
Abbreviation ref_ok vcpu r := (local (vcpu_id vcpu) r).

Lemma update_pend_q vcpu r : update_pend vcpu r = update_q true (q_bit true) vcpu r.
Proof. reflexivity. Qed.
Lemma update_act_q vcpu r : update_act vcpu r = update_q false (q_bit false) vcpu r.
Proof. reflexivity. Qed.

Lemma keeps_update_int_list vcpu r : ref_ok vcpu r -> m_keeps vg_inv (update_int_list vcpu r).
Proof.
  intros Hr. unfold update_int_list. rewrite update_pend_q, update_act_q.
  apply keeps_bind; [|intros _]; by apply keeps_update_q.
Qed.

(** *** The operations keep the invariant *)

Lemma keeps_emit e : m_keeps vg_inv (emit e).
Proof. by apply keeps_q_modify. Qed.
Lemma keeps_set_hcr v : m_keeps vg_inv (gich_set_hcr v).
Proof. by apply keeps_q_modify. Qed.
Lemma keeps_set_ctlr v : m_keeps vg_inv (set_vgicd_ctlr v).
Proof. by apply keeps_q_modify. Qed.
#[export] Hint Resolve keeps_emit keeps_set_hcr keeps_set_ctlr : keeps.
#[export] Hint Extern 4 (m_keeps vg_inv (upd_int _ _)) => (apply keeps_upd_int; by intros ? []) : keeps.

Lemma keeps_set_lr i v : m_keeps vg_inv (gich_set_lr i v).
Proof. unfold gich_set_lr. keeps_tac. Qed.
Lemma keeps_set_gpr i v : m_keeps vg_inv (set_gpr i v).
Proof. unfold set_gpr. keeps_tac. Qed.

Lemma keeps_upd_priv c f :
  (forall p, priv_ints (f p) = priv_ints p) -> (forall b p, q_list b (f p) = q_list b p) ->
  m_keeps vg_inv (upd_priv c f).
Proof. exact (keeps_q_upd_priv (Q:=vs_queues) c f). Qed.
#[export] Hint Extern 4 (m_keeps vg_inv (upd_priv _ _)) =>
  (apply keeps_upd_priv; [done|by intros []]) : keeps.

Lemma keeps_set_curr_lrs c i v : m_keeps vg_inv (set_cpu_priv_curr_lrs c i v).
Proof. unfold set_cpu_priv_curr_lrs. keeps_tac. Qed.
Lemma keeps_set_sgis_pend c i v : m_keeps vg_inv (set_cpu_priv_sgis_pend c i v).
Proof. unfold set_cpu_priv_sgis_pend. keeps_tac. Qed.
Lemma keeps_set_sgis_act c i v : m_keeps vg_inv (set_cpu_priv_sgis_act c i v).
Proof. unfold set_cpu_priv_sgis_act. keeps_tac. Qed.
Lemma keeps_get_owner v r : m_keeps vg_inv (vgic_int_get_owner v r).
Proof. unfold vgic_int_get_owner. keeps_tac. Qed.
Lemma keeps_yield core v r : m_keeps vg_inv (vgic_int_yield_owner core v r).
Proof. unfold vgic_int_yield_owner. keeps_tac. Qed.
#[export] Hint Resolve keeps_set_lr keeps_set_gpr keeps_set_curr_lrs keeps_set_sgis_pend
  keeps_set_sgis_act keeps_get_owner keeps_yield keeps_update_int_list : keeps.

(** Pointers handed out are in order. *)
Definition opt_ok (vcpu : Vcpu) (o : option iref) : Prop := forall r, o = Some r -> ref_ok vcpu r.

Lemma yields_get_int vcpu id : m_yields vg_inv (opt_ok vcpu) (get_int vcpu id).
Proof.
  intros s o s' Hs E. assert (s' = s) as -> by (by eapply reads_get_int). split; [done|].
  intros r ->. unfold get_int in E.
  destruct (Z.ltb_spec id GIC_PRIVINT_NUM); [|destruct (_ && _); [|done]].
  - apply m_bind_inv in E as (p & s1 & _ & E). destruct (in_bounds (priv_ints p) id) eqn:Eb; [|done].
    injection E as <- _. apply in_bounds_spec in Eb. unfold GIC_PRIVINT_NUM in *. simpl. lia.
  - unfold vgicd_interrupt, m_bind, m_get in E. destruct (in_bounds (spis s) _) eqn:Eb; [|done].
    injection E as <-. apply in_bounds_spec in Eb. simpl. lia.
Qed.

Lemma yields_list_head vcpu b : m_yields vg_inv (opt_ok vcpu) (int_list_head vcpu b).
Proof.
  intros s o s' Hs (p & s1 & E & E')%m_bind_inv. apply read_priv_inv in E as [-> E].
  injection E' as <- <-. split; [done|]. intros r Hr.
  destruct (Hs _ p b E) as [Q _ _]. apply Q.
  assert (head (q_list b p) = Some r) as Hh by by destruct b.
  destruct (q_list b p); [done|]. injection Hh as ->. left.
Qed.

(** Use the pointer [get_int] returned. *)
Lemma keeps_get_int {A} vcpu id (k : option iref -> M VS A) :
  m_keeps vg_inv (k None) -> (forall r, ref_ok vcpu r -> m_keeps vg_inv (k (Some r))) ->
  m_keeps vg_inv (m_bind (get_int vcpu id) k).
Proof.
  intros Hn Hs. eapply yields_bind; [apply yields_get_int|]. intros [r|] Ho; [apply Hs; by apply Ho|done].
Qed.

Lemma keeps_head {A} vcpu b (k : option iref -> M VS A) :
  m_keeps vg_inv (k None) -> (forall r, ref_ok vcpu r -> m_keeps vg_inv (k (Some r))) ->
  m_keeps vg_inv (m_bind (int_list_head vcpu b) k).
Proof.
  intros Hn Hs. eapply yields_bind; [apply yields_list_head|]. intros [r|] Ho; [apply Hs; by apply Ho|done].
Qed.

Lemma keeps_opt_Some {A B} f (a : A) (k : A -> M VS B) :
  m_keeps vg_inv (k a) -> m_keeps vg_inv (m_bind (m_opt f (Some a)) k).
Proof. done. Qed.

Lemma keeps_opt_None {A B} f (k : A -> M VS B) : m_keeps vg_inv (m_bind (m_opt f None) k).
Proof. by intros s a s'. Qed.

Section keeps_ops.
Context (core gic_lrs : Z) (elrsr eisr : list Z -> Z -> Z) (gicd_state : list gic_event -> Z -> Z).

Ltac vg_tac :=
repeat match goal with
| |- m_keeps _ (m_bind (get_int _ _) _) => apply keeps_get_int; [|intros ? ?]
| |- m_keeps _ (m_bind (int_list_head _ _) _) => apply keeps_head; [|intros ? ?]
| |- m_keeps _ (m_bind (m_opt _ (Some _)) _) => apply keeps_opt_Some
| |- m_keeps _ (m_bind (m_opt _ None) _) => apply keeps_opt_None
| |- m_keeps _ (m_bind _ _) => apply keeps_bind; [|intros ?]
| |- m_keeps _ (if ?b then _ else _) => apply keeps_if
| |- m_keeps _ (match ?x with _ => _ end) => destruct x
| |- m_keeps _ (m_ret _) => apply keeps_ret
| |- m_keeps _ (m_fault _) => apply keeps_fault
| |- m_keeps _ (m_opt _ _) => apply keeps_opt
| |- m_keeps _ (m_for _ _) => apply keeps_for; intros ?
end; auto with keeps.

Lemma keeps_remove_lr vcpu r : ref_ok vcpu r -> m_keeps vg_inv (remove_lr core vcpu r).
Proof. intros Hr. unfold remove_lr, remove_lr_sgi. vg_tac. Qed.
Hint Resolve keeps_remove_lr : keeps.

Lemma keeps_write_lr_value vcpu r st p : m_keeps vg_inv (write_lr_value gicd_state vcpu r st p).
Proof. unfold write_lr_value, write_lr_sgi. vg_tac. Qed.
Hint Resolve keeps_write_lr_value : keeps.

Lemma keeps_evict vcpu r i : m_keeps vg_inv (write_lr_evict core vcpu r i).
Proof. unfold write_lr_evict. vg_tac. Qed.
Hint Resolve keeps_evict : keeps.

Lemma keeps_write_lr vcpu r i : ref_ok vcpu r -> m_keeps vg_inv (write_lr core gicd_state vcpu r i).
Proof. intros Hr. unfold write_lr. vg_tac. Qed.
Hint Resolve keeps_write_lr : keeps.

Lemma reads_scan_victims idxs : forall v, m_reads (scan_victims idxs v).
Proof. induction idxs; intros v; simpl; reads_tac. Qed.
Hint Resolve reads_scan_victims : reads.

Lemma keeps_spill vcpu : m_keeps vg_inv (spill_lr core gic_lrs vcpu).
Proof.
unfold spill_lr. vg_tac.
Qed.
Hint Resolve keeps_spill : keeps.

Lemma keeps_add_lr vcpu r : ref_ok vcpu r ->
m_keeps vg_inv (add_lr core gic_lrs elrsr gicd_state vcpu r).
Proof. intros Hr. unfold add_lr. vg_tac. Qed.
Hint Resolve keeps_add_lr : keeps.

Lemma keeps_route vcpu r : ref_ok vcpu r ->
m_keeps vg_inv (route core gic_lrs elrsr gicd_state vcpu r).
Proof. intros Hr. unfold route. vg_tac. Qed.
Hint Resolve keeps_route : keeps.

Lemma keeps_eoir_one vcpu i : m_keeps vg_inv (eoir_one core gic_lrs elrsr gicd_state vcpu i).
Proof. unfold eoir_one. vg_tac. Qed.
Hint Resolve keeps_eoir_one : keeps.

Lemma keeps_trapped_eoir fuel vcpu :
m_keeps vg_inv (handle_trapped_eoir core gic_lrs elrsr eisr gicd_state fuel vcpu).
Proof. induction fuel; simpl; unfold status64; vg_tac. Qed.
Hint Resolve keeps_trapped_eoir : keeps.

Lemma yields_refill_choice vcpu b :
m_yields vg_inv (fun o => forall r x, o = Some (r, x) -> ref_ok vcpu r) (refill_choice vcpu b).
Proof.
eapply yields_bind_y; [apply yields_list_head|]. intros a Ha.
eapply yields_bind_y; [apply yields_list_head|]. intros p Hp.
eapply (yields_bind_y _ (fun o => forall r x, o = Some (r, x) -> ref_ok vcpu r)).
- destruct a as [r|]; [|by apply yields_ret]. destruct b; [|by apply yields_ret].
  apply keeps_bind_y; [auto with keeps|]. intros i. apply yields_ret. intros r' x.
  destruct (in_lr i); [done|]. intros [= <- <-]. by apply Ha.
- intros [[r x]|] Hr; [by apply yields_ret|]. destruct p as [r|]; [|by apply yields_ret].
  apply keeps_bind_y; [auto with keeps|]. intros i. apply yields_ret. intros r' x.
  destruct (in_lr i); [done|]. intros [= <- <-]. by apply Hp.
Qed.

Lemma reads_lrs_pending idxs : forall b, m_reads (lrs_pending idxs b).
Proof. induction idxs; intros b; cbn [lrs_pending]; reads_tac. Qed.
Hint Resolve reads_lrs_pending : reads.

Lemma keeps_refill_loop fuel vcpu : forall b,
m_keeps vg_inv (refill_loop core gic_lrs elrsr gicd_state fuel vcpu b).
Proof.
induction fuel as [|fuel IH]; intros b; cbn [refill_loop].
- unfold status64. vg_tac.
- apply keeps_bind; [unfold status64; auto with keeps|]. intros bm.
  destruct (bitmap_find_nth bm 0 gic_lrs 1 true) as [i|]; [|auto with keeps].
  eapply yields_bind; [apply yields_refill_choice|].
  intros [[r x]|] Hc; [|vg_tac]. specialize (Hc r x eq_refl). vg_tac.
Qed.
Hint Resolve keeps_refill_loop : keeps.

Lemma keeps_eoir_spilled vcpu :
m_keeps vg_inv (eoir_highest_spilled_active core gic_lrs elrsr gicd_state vcpu).
Proof. unfold eoir_highest_spilled_active. vg_tac. Qed.
Hint Resolve keeps_eoir_spilled : keeps.

Lemma keeps_eoi_count fuel vcpu :
m_keeps vg_inv (eoi_count_loop core gic_lrs elrsr gicd_state fuel vcpu).
Proof. induction fuel; simpl; vg_tac. Qed.
Hint Resolve keeps_eoi_count : keeps.

Lemma keeps_maintenance fuel vcpu misr :
m_keeps vg_inv (gic_maintenance_handler core gic_lrs elrsr eisr gicd_state fuel vcpu misr).
Proof. unfold gic_maintenance_handler, refill_lrs. vg_tac. Qed.

Lemma keeps_change_state vcpu r b on : ref_ok vcpu r ->
m_keeps vg_inv (change_state core gic_lrs elrsr gicd_state vcpu r b on).
Proof. intros Hr. unfold change_state. vg_tac. Qed.
Hint Resolve keeps_change_state : keeps.

Lemma keeps_set_enable vcpu id en : m_keeps vg_inv (set_enable core gic_lrs elrsr gicd_state vcpu id en).
Proof. unfold set_enable, ipi_owner. vg_tac. Qed.
Lemma keeps_sgi_set_pend vcpu id p : m_keeps vg_inv (sgi_set_pend core gic_lrs elrsr gicd_state vcpu id p).
Proof. unfold sgi_set_pend. vg_tac. Qed.
Hint Resolve keeps_set_enable keeps_sgi_set_pend : keeps.
Lemma keeps_set_pend vcpu id p : m_keeps vg_inv (set_pend core gic_lrs elrsr gicd_state vcpu id p).
Proof. unfold set_pend. vg_tac. Qed.
Lemma keeps_set_active vcpu id p : m_keeps vg_inv (set_active core gic_lrs elrsr gicd_state vcpu id p).
Proof. unfold set_active, ipi_owner. vg_tac. Qed.
Lemma keeps_set_icfgr vcpu id c : m_keeps vg_inv (set_icfgr core vcpu id c).
Proof. unfold set_icfgr, ipi_owner. vg_tac. Qed.
Lemma keeps_set_prio vcpu id p : m_keeps vg_inv (set_prio core gic_lrs elrsr gicd_state vcpu id p).
Proof. unfold set_prio, ipi_owner. vg_tac. Qed.
Lemma keeps_set_trgt f vcpu id t : m_keeps vg_inv (set_trgt core gic_lrs elrsr gicd_state f vcpu id t).
Proof. unfold set_trgt, ipi_owner. vg_tac. Qed.
Hint Resolve keeps_set_pend keeps_set_active keeps_set_icfgr keeps_set_prio keeps_set_trgt : keeps.
Lemma keeps_inject vcpu id : m_keeps vg_inv (inject core gic_lrs elrsr gicd_state vcpu id).
Proof. unfold inject. vg_tac. Qed.

Context (cpuif : Z -> Z) (gicd_base : Z) (vcpu : Vcpu) (vm : Vm).

Lemma reads_any_int ids : m_reads (any_int vm ids).
Proof. induction ids; simpl; unfold vm_has_int; reads_tac. Qed.
Lemma reads_written c : m_reads (written c).
Proof. unfold written. reads_tac. Qed.
Hint Resolve reads_any_int reads_written : reads.

Lemma keeps_read_bits f first ids : (forall i, m_keeps vg_inv (f i)) -> forall v,
m_keeps vg_inv (read_bits f first ids v).
Proof. intros Hf. induction ids; intros v; simpl; vg_tac. Qed.
Lemma keeps_read_fields f bits first ids : (forall i, m_keeps vg_inv (f i)) -> forall v,
m_keeps vg_inv (read_fields f bits first ids v).
Proof. intros Hf. induction ids; intros v; simpl; vg_tac. Qed.
Lemma keeps_write_bits f first val : (forall i, m_keeps vg_inv (f i)) ->
m_keeps vg_inv (write_bits f first val).
Proof. intros Hf. unfold write_bits. vg_tac. Qed.
Hint Resolve keeps_read_bits keeps_read_fields keeps_write_bits : keeps.

Lemma reads_getters i : m_reads (get_enable vcpu i) /\ m_reads (get_icfgr vcpu i) /\
m_reads (get_prio vcpu i) /\ m_reads (get_trgt vcpu i) /\
forall b, m_reads (get_state_bit core vcpu b i).
Proof. unfold get_enable, get_icfgr, get_prio, get_trgt, get_state_bit. split_and!; intros; reads_tac. Qed.
Hint Extern 3 (m_keeps _ (get_enable _ _)) => (apply reads_keeps, reads_getters) : keeps.
Hint Extern 3 (m_keeps _ (get_icfgr _ _)) => (apply reads_keeps, reads_getters) : keeps.
Hint Extern 3 (m_keeps _ (get_prio _ _)) => (apply reads_keeps, reads_getters) : keeps.
Hint Extern 3 (m_keeps _ (get_trgt _ _)) => (apply reads_keeps, reads_getters) : keeps.
Hint Extern 3 (m_keeps _ (get_state_bit _ _ _ _)) => (apply reads_keeps, reads_getters) : keeps.

Lemma keeps_handler c :
m_keeps vg_inv (handler core gic_lrs elrsr gicd_state cpuif gicd_base vcpu vm c).
Proof.
unfold handler, emu_isenabler_access, emu_ispendr_access, emu_isactiver_access,
  emu_icenabler_access, emu_icpendr_access, emu_icativer_access, emu_pendr_access,
  emu_activer_access, emu_icfgr_access, emu_sgiregs_access, emu_ctrl_access, emu_typer_access,
  emu_iidr_access, emu_ipriorityr_access, emu_itargetr_access, vgicd_ctlr.
vg_tac.
Qed.

Lemma keeps_vgic_ipi m :
m_keeps vg_inv (vgic_ipi_handler core gic_lrs elrsr gicd_state cpuif vcpu vm m).
Proof. unfold vgic_ipi_handler, ipi_route. vg_tac. Qed.

Lemma keeps_set_hw_int id : m_keeps vg_inv (vgic_set_hw_int vm id).
Proof. unfold vgic_set_hw_int. vg_tac. Qed.
End keeps_ops.

(** ** The controller as a state machine *)

(** One event: a trapped access of a vCPU, an IPI from another core, an injection, a maintenance
    interrupt, the marking of a passthrough interrupt, or a switch of the core or of the vCPU, which
    replaces the registers of the core.  Core, environment and vCPU are arbitrary in each step. *)
Inductive vg_step : VS -> VS -> Prop :=
  | StepMmio core n el gst cpuif base vcpu vm c b s s' :
      handler core n el gst cpuif base vcpu vm c s = Ret b s' -> vg_step s s'
  | StepVgicIpi core n el gst cpuif vcpu vm m s s' :
      vgic_ipi_handler core n el gst cpuif vcpu vm m s = Ret tt s' -> vg_step s s'
  | StepInject core n el gst vcpu id s s' :
      inject core n el gst vcpu id s = Ret tt s' -> vg_step s s'
  | StepMaintenance core n el ei gst fuel vcpu misr s s' :
      gic_maintenance_handler core n el ei gst fuel vcpu misr s = Ret tt s' -> vg_step s s'
  | StepSetHw vm id s s' : vgic_set_hw_int vm id s = Ret tt s' -> vg_step s s'
  | StepSwitch h l g s : vg_step s (with_hcr h (with_lrs l (with_gpr g s))).

Inductive vg_reachable (s0 : VS) : VS -> Prop :=
  | VgInit : vg_reachable s0 s0
  | VgStep s s' : vg_reachable s0 s -> vg_step s s' -> vg_reachable s0 s'.

Lemma vg_inv_init typer iidr vcpus h l g : vg_inv (emu_intc_init typer iidr vcpus h l g).
Proof.
  intros c p b Hp. simpl in Hp.
  assert (exists v, p = mkPriv ((fun k => int_priv_new v (shlw 64 1 (phys_id v)) (k <? GIC_SGIS_NUM)) <$> zrange 0 32)
            (curr_lrs cpu_priv_default) (sgis cpu_priv_default) [] []) as [v ->].
  { unfold zget in Hp. destruct (0 <=? c); [|done]. rewrite list_lookup_fmap in Hp.
    destruct (vcpus !! Z.to_nat c) as [v|]; [|done]. injection Hp as <-. by exists v. }
  split.
  - intros r Hr. destruct b; by apply elem_of_nil in Hr.
  - destruct b; constructor.
  - intros i x Hx.
    assert (q_flag b x = false) as ->.
    { unfold zget in Hx. destruct (0 <=? i); [|done]. cbn [p_ints vs_queues priv_ints] in Hx.
      rewrite list_lookup_fmap in Hx. destruct (zrange 0 32 !! Z.to_nat i); [|done].
      injection Hx as <-. by destruct b. }
    split; [done|]. intros Hin. destruct b; by apply elem_of_nil in Hin.
Qed.

Lemma vg_step_inv s s' : vg_step s s' -> vg_inv s -> vg_inv s'.
Proof.
  intros Hstep Hs. destruct Hstep.
  - by eapply keeps_handler.
  - by eapply keeps_vgic_ipi.
  - by eapply keeps_inject.
  - by eapply keeps_maintenance.
  - by eapply keeps_set_hw_int.
  - done.
Qed.

(** C1. The queues of spilled interrupts stay consistent.  From the state [emu_intc_init] builds,
    after any sequence of guest register accesses, IPIs, injections, maintenance interrupts and
    switches, on any cores, the pending (active) queue of every vCPU holds exactly those of its
    private interrupts whose [in_pend] ([in_act]) flag is set, each once, and no pointer to
    another vCPU's private interrupt. *)
Theorem vgic_queues_consistent typer iidr vcpus h l g s c p :
  vg_reachable (emu_intc_init typer iidr vcpus h l g) s ->
  zget (cpu_priv s) c = Some p ->
  queue_ok c (priv_ints p) in_pend (pend_list p) /\ queue_ok c (priv_ints p) in_act (act_list p).
Proof.
  intros Hr Hp. assert (vg_inv s) as Hs.
  { clear Hp. induction Hr as [|s s' _ IH Hstep]; [apply vg_inv_init|by eapply vg_step_inv]. }
  split; [apply (Hs c p true Hp)|apply (Hs c p false Hp)].
Qed.

(** ** Running the primitives *)

Lemma read_int_eq s r i : find_int s r = Some i -> read_int r s = Ret i s.
Proof. exact (q_read_eq (Q:=vs_queues) s r i). Qed.

Lemma upd_int_eq s r i f : find_int s r = Some i -> upd_int r f s = Ret tt (store_int s r (f i)).
Proof. exact (q_upd_int_eq (Q:=vs_queues) s r i f). Qed.

Lemma read_priv_eq s c p : zget (cpu_priv s) c = Some p -> read_priv c s = Ret p s.
Proof. exact (q_read_priv_eq (Q:=vs_queues) s c p). Qed.

Lemma upd_priv_eq s c p f : zget (cpu_priv s) c = Some p ->
  upd_priv c f s = Ret tt (with_priv (zset (cpu_priv s) c (f p)) s).
Proof. exact (q_upd_priv_eq (Q:=vs_queues) s c p f). Qed.

Lemma find_store s r r' i i' : find_int s r = Some i ->
  find_int (store_int s r i') r' = if decide (r' = r) then Some i' else find_int s r'.
Proof. exact (q_find_store (Q:=vs_queues) s r r' i i'). Qed.

Lemma find_with_priv s c p p' r : zget (cpu_priv s) c = Some p -> priv_ints p' = priv_ints p ->
  find_int (with_priv (zset (cpu_priv s) c p') s) r = find_int s r.
Proof. exact (q_find_priv (Q:=vs_queues) s c p p' r). Qed.

(** The vectors have the sizes [emu_intc_init] gives them. *)
Definition shape (v : Z) (s : VS) : Prop :=
  (exists p, zget (cpu_priv s) v = Some p /\ zlen (priv_ints p) = 32 /\
             zlen (curr_lrs p) = 64 /\ zlen (sgis p) = 16) /\
  zlen (spis s) = 992 /\ zlen (lrs s) = 64.

Lemma shape_store v s r i i' : shape v s -> find_int s r = Some i -> shape v (store_int s r i').
Proof.
  intros ((p & Hp & H1 & H2 & H3) & H4 & H5) Hr. destruct r as [c k|k]; simpl in *.
  - destruct (zget (cpu_priv s) c) as [cp|] eqn:Ec; [|done]. split; [|done]. simpl.
    rewrite zget_zset. case_decide as Hd; [|by exists p]. destruct Hd as [-> _].
    rewrite Hp in Ec. injection Ec as <-. eexists. split; [done|]. simpl. by rewrite zlen_zset.
  - split; [by exists p|]. simpl. by rewrite zlen_zset.
Qed.

Lemma shape_priv v s c p p' : shape v s -> zget (cpu_priv s) c = Some p ->
  priv_ints p' = priv_ints p -> zlen (curr_lrs p') = zlen (curr_lrs p) ->
  zlen (sgis p') = zlen (sgis p) -> shape v (with_priv (zset (cpu_priv s) c p') s).
Proof.
  intros ((q & Hq & H1 & H2 & H3) & H4 & H5) Hp E1 E2 E3. split; [|done]. simpl.
  rewrite zget_zset. case_decide as Hd; [|by exists q]. destruct Hd as [-> _].
  rewrite Hq in Hp. injection Hp as <-. exists p'. by rewrite E1, E2, E3.
Qed.

Lemma shape_get_int v vcpu id s : vcpu_id vcpu = v -> shape v s ->
  exists o, get_int vcpu id s = Ret o s /\
    forall r, o = Some r -> is_Some (find_int s r) /\ ref_id r = id.
Proof.
  intros <- ((p & Hp & H1 & H2 & H3) & H4 & H5). unfold get_int, GIC_PRIVINT_NUM, GIC_INTS_MAX.
  destruct (Z.ltb_spec id 32); [|destruct (_ && _) eqn:Eb; [|by exists None]].
  - eexists. split; [eapply m_bind_Ret_r; [by apply read_priv_eq|reflexivity]|].
    intros r. destruct (in_bounds (priv_ints p) id) eqn:Ei; [|done]. intros [= <-].
    split; [|done]. simpl. rewrite Hp. simpl. by apply zget_in_bounds, in_bounds_spec.
  - eexists. split; [reflexivity|]. intros r. destruct (in_bounds (spis s) (id - 32)) eqn:Ei; [|done].
    intros [= <-]. split; [by apply zget_in_bounds, in_bounds_spec|]. simpl. unfold GIC_PRIVINT_NUM. lia.
Qed.

(** What a queue update leaves of the state: only the flags of [r] and the queues change. *)
Definition requeued (v : Z) (r : iref) (i : VgicInt) (s s' : VS) : Prop :=
  shape v s' /\ lrs s' = lrs s /\ hcr s' = hcr s /\ glog s' = glog s /\
  exists x y, find_int s' r = Some (set_in_pend_state x (set_in_act_state y i)).

Lemma update_q_total b vcpu r i s :
  shape (vcpu_id vcpu) s -> find_int s r = Some i ->
  exists s' x, update_q b (q_bit b) vcpu r s = Ret tt s' /\ shape (vcpu_id vcpu) s' /\ lrs s' = lrs s /\
    hcr s' = hcr s /\ glog s' = glog s /\ find_int s' r = Some (q_set b x i).
Proof.
  intros Hsh Hr. pose proof Hsh as ((p & Hp & _) & _).
  destruct (update_q_run (Q:=vs_queues)
    (fun t => shape (vcpu_id vcpu) t /\ lrs t = lrs s /\ hcr t = hcr s /\ glog t = glog s)
    b (q_bit b) vcpu r i s) as (s' & x & E & (H1 & H2 & H3 & H4) & F); [| |done|by exists p|done|by exists s', x].
  - intros s0 p0 l Hp0 (H & ?). split; [|done]. by apply (shape_priv _ _ _ p0); destruct b.
  - intros s0 i0 i' Hr0 (H & L & h & G). split; [by eapply shape_store|].
    by destruct r; simpl; [case_match|].
Qed.

Lemma update_int_list_total vcpu r i s :
  shape (vcpu_id vcpu) s -> find_int s r = Some i ->
  exists s', update_int_list vcpu r s = Ret tt s' /\ requeued (vcpu_id vcpu) r i s s'.
Proof.
  intros Hsh Hr. destruct (update_q_total true vcpu r i s Hsh Hr) as (s1 & x & E1 & Hsh1 & L1 & H1 & G1 & F1).
  destruct (update_q_total false vcpu r _ s1 Hsh1 F1) as (s2 & y & E2 & Hsh2 & L2 & H2 & G2 & F2).
  exists s2. split; [by eapply m_bind_Ret_r; [exact E1|exact E2]|].
  split_and!; [done|congruence..|]. exists x, y. by rewrite F2.
Qed.
