(* ===== verification/VgicSpec.v ===== *)
(** * VgicSpec: list registers and the protocol between cores

    The content of a list register and the spill round trip, the treatment of interrupts owned by
    another vCPU, the generation of SGIs, and the places where the emulation deviates. *)
From stdpp Require Import list.
From S2P Require Import Prelude Bits Vm VgicState VgicLr VgicDist IntQueues VgicProps.

(** ** The list register word *)

Lemma land_shiftl_low x k n : 0 <= n <= k -> Z.land (Z.shiftl x k) (Z.ones n) = 0.
Proof.
  intros ?. apply Z.bits_inj'. intros i ?. rewrite Z.land_spec, Z.testbit_0_l, Z.testbit_ones_nonneg by lia.
  destruct (Z.ltb_spec i n); [|by rewrite andb_false_r]. by rewrite Z.shiftl_spec_low by lia.
Qed.

Lemma shiftr_shiftl_high x k n w : in_word w x -> 0 <= w -> 0 <= k -> k + w <= n ->
  Z.shiftr (Z.shiftl x k) n = 0.
Proof.
  intros Hx ? ? ?. apply Z.bits_inj'. intros i ?.
  rewrite Z.shiftr_spec, Z.shiftl_spec, Z.testbit_0_l by lia. apply (testbit_high w); [done|lia].
Qed.

(** The word [write_lr] builds for a software interrupt that is not an SGI. *)
Definition lr_word (id p st : Z) : Z :=
  Z.lor (Z.lor (Z.lor (Z.land id 0x3ff) (Z.shiftl (Z.land (Z.shiftr p 3) 0x1f) 23)) (Z.shiftl 1 19))
        (Z.shiftl (Z.land st 3) 28).

Lemma lr_word_fields id p st : 0 <= id < 1024 -> 0 <= p < 256 -> 0 <= st < 4 ->
  in_word 32 (lr_word id p st) /\
  Z.land (lr_word id p st) 0x3ff = id /\
  Z.land (Z.shiftr (lr_word id p st) 23) 0x1f = Z.shiftr p 3 /\
  Z.land (Z.shiftr (lr_word id p st) 28) 3 = st /\
  Z.testbit (lr_word id p st) 19 = true.
Proof.
  intros Hid Hp Hst.
  assert (Z.land id 0x3ff = id) as E1 by (change 0x3ff with (Z.ones 10); rewrite Z.land_ones by lia; apply Z.mod_small; lia).
  assert (Z.land st 3 = st) as E2 by (change 3 with (Z.ones 2); rewrite Z.land_ones by lia; apply Z.mod_small; lia).
  assert (0 <= Z.shiftr p 3 < 32) as Hp3 by (rewrite Z.shiftr_div_pow2 by lia; split; [apply Z.div_pos|apply Z.div_lt_upper_bound]; lia).
  assert (Z.land (Z.shiftr p 3) 0x1f = Z.shiftr p 3) as E3 by (change 0x1f with (Z.ones 5); rewrite Z.land_ones by lia; apply Z.mod_small; lia).
  unfold lr_word. rewrite E1, E2, E3. set (q := Z.shiftr p 3) in *.
  assert (in_word 10 id /\ in_word 5 q /\ in_word 2 st) as (W1 & W2 & W3) by (unfold in_word; lia).
  assert (forall x k w, in_word w x -> 0 <= w -> 0 <= k -> k + w <= 32 -> in_word 32 (Z.shiftl x k)) as Hw.
  { intros x k w Hx ? ? ?. apply in_word_bits; [lia|apply Z.shiftl_nonneg, Hx|]. intros i ?.
    rewrite Z.shiftl_spec by lia. apply (testbit_high w); [done|lia]. }
  split_and!.
  - repeat apply lor_in_word; try lia; [|eapply Hw; [exact W2|lia..]| |eapply Hw; [exact W3|lia..]].
    + unfold in_word in *. lia.
    + apply (Hw 1 19 1); unfold in_word; lia.
  - change 0x3ff with (Z.ones 10). rewrite !Z.land_lor_distr_l, !land_shiftl_low, !Z.lor_0_r by lia.
    rewrite Z.land_ones by lia. apply Z.mod_small. lia.
  - rewrite !Z.shiftr_lor. rewrite (shiftr_shiftl_high 1 19 23 1) by (unfold in_word; lia).
    rewrite (Z.shiftr_shiftl_l q 23 23), Z.sub_diag, Z.shiftl_0_r by lia.
    rewrite (Z.shiftr_shiftl_l st 28 23) by lia.
    assert (Z.shiftr id 23 = 0) as ->.
    { rewrite Z.shiftr_div_pow2 by lia. apply Z.div_small. lia. }
    change 0x1f with (Z.ones 5). rewrite Z.lor_0_l, Z.lor_0_r, Z.land_lor_distr_l.
    change (28 - 23) with 5. rewrite land_shiftl_low, Z.lor_0_r by lia.
    rewrite Z.land_ones by lia. apply Z.mod_small. lia.
  - rewrite !Z.shiftr_lor. rewrite (shiftr_shiftl_high 1 19 28 1) by (unfold in_word; lia).
    rewrite (shiftr_shiftl_high q 23 28 5) by (done || lia).
    rewrite (Z.shiftr_shiftl_l st 28 28), Z.sub_diag, Z.shiftl_0_r by lia.
    assert (Z.shiftr id 28 = 0) as ->.
    { rewrite Z.shiftr_div_pow2 by lia. apply Z.div_small. lia. }
    by rewrite !Z.lor_0_l.
  - rewrite !Z.lor_spec, !Z.shiftl_spec by lia. simpl (Z.testbit 1 _). by rewrite orb_true_r.
Qed.

(** ** Writes that stay in range *)

Lemma gich_set_lr_eq s i v : 0 <= i < zlen (lrs s) ->
  gich_set_lr i v s = Ret tt (with_lrs (zset (lrs s) i v) s).
Proof.
  intros Hi. unfold gich_set_lr. eapply m_bind_Ret_r; [reflexivity|]. cbv beta.
  unfold zstore. by rewrite in_bounds_true.
Qed.

Lemma set_curr_lrs_eq s c p i v : zget (cpu_priv s) c = Some p -> 0 <= i < zlen (curr_lrs p) ->
  set_cpu_priv_curr_lrs c i v s =
    Ret tt (with_priv (zset (cpu_priv s) c (put_curr_lrs (zset (curr_lrs p) i v) p)) s).
Proof.
  intros Hp Hi. unfold set_cpu_priv_curr_lrs.
  eapply m_bind_Ret_r; [by apply read_priv_eq|]. cbv beta. unfold zstore.
  rewrite in_bounds_true by done. eapply m_bind_Ret_r; [reflexivity|]. cbv beta.
  by rewrite (upd_priv_eq s c p _ Hp).
Qed.

(** ** Presenting and taking back an interrupt *)

Section spill.
Context (core : Z) (gicd_state : list gic_event -> Z -> Z).

Lemma owns_total vcpu q j s : find_int s q = Some j ->
  exists b, vgic_owns vcpu q s = Ret b s.
Proof.
  intros Hq. unfold vgic_owns. destruct (gic_is_priv (ref_id q)); [by eexists|].
  eexists. eapply m_bind_Ret_r; [by apply read_int_eq|reflexivity].
Qed.

Lemma store_regs s q j :
  lrs (store_int s q j) = lrs s /\ hcr (store_int s q j) = hcr s /\ glog (store_int s q j) = glog s.
Proof. destruct q; simpl; [by case_match|done]. Qed.

(** Giving up an interrupt that is in no list register: nothing, or its owner is cleared. *)
Lemma yield_total vcpu q j s : find_int s q = Some j -> in_lr j = false ->
  exists s', vgic_int_yield_owner core vcpu q s = Ret tt s' /\
    (s' = s \/ s' = store_int s q (clear_owner j)).
Proof.
  intros Hq Hlr. unfold vgic_int_yield_owner. destruct (owns_total vcpu q j s Hq) as [b Eb].
  setoid_rewrite (m_bind_Ret _ _ _ _ _ Eb).
  setoid_rewrite (m_bind_Ret _ _ _ _ _ (read_int_eq s q j Hq)). rewrite Hlr.
  destruct b; simpl; [|by eauto]. destruct (gic_is_priv (ref_id q)) eqn:Ep; [by eauto|].
  assert (vgic_get_state core q s = Ret (to_num (state j)) s) as Es.
  { unfold vgic_get_state. eapply m_bind_Ret_r; [by apply read_int_eq|]. cbv beta. rewrite Hlr.
    eapply m_bind_Ret_r; [reflexivity|]. cbv beta.
    unfold gic_is_priv, GIC_PRIVINT_NUM, GIC_SGIS_NUM in *.
    destruct (Z.leb_spec 16 (ref_id q)); [done|]. apply Z.ltb_ge in Ep. lia. }
  setoid_rewrite (m_bind_Ret _ _ _ _ _ Es). destruct (testm (to_num (state j)) 2); [by eauto|].
  setoid_rewrite (upd_int_eq s q j clear_owner Hq). eauto.
Qed.

(** Evicting the previous occupant of the list register does not fault and leaves [r] alone. *)
Lemma evict_total vcpu r i idx s :
  shape (vcpu_id vcpu) s -> find_int s r = Some i -> 0 <= idx < 64 ->
  exists s', write_lr_evict core vcpu r idx s = Ret tt s' /\ shape (vcpu_id vcpu) s' /\
    find_int s' r = Some i /\ lrs s' = lrs s /\ glog s' = glog s.
Proof.
  intros Hsh Hr Hidx. pose proof Hsh as ((p & Hp & H1 & H2 & H3) & _).
  destruct (zget_in_bounds (curr_lrs p) idx) as [prev Hprev]; [lia|].
  assert (cpu_priv_curr_lrs (vcpu_id vcpu) idx s = Ret prev s) as Ec.
  { eapply m_bind_Ret_r; [by apply read_priv_eq|]. unfold m_idx. by rewrite Hprev. }
  unfold write_lr_evict. setoid_rewrite (m_bind_Ret _ _ _ _ _ Ec).
  destruct (Z.eqb_spec prev (ref_id r)) as [_|Hne]; [by exists s|].
  destruct (shape_get_int _ vcpu prev s eq_refl Hsh) as (o & Eo & Ho).
  setoid_rewrite (m_bind_Ret _ _ _ _ _ Eo). destruct o as [q|]; [|by exists s].
  destruct (Ho q eq_refl) as [[j Hq] Hid].
  assert (r <> q) as Hrq by congruence.
  destruct (owns_total vcpu q j s Hq) as [b Eb]. setoid_rewrite (m_bind_Ret _ _ _ _ _ Eb).
  setoid_rewrite (m_bind_Ret _ _ _ _ _ (read_int_eq s q j Hq)).
  destruct (b && in_lr j && (lr j =? u16 idx)); [|by exists s].
  setoid_rewrite (m_bind_Ret _ _ _ _ _ (upd_int_eq s q j (set_in_lr false) Hq)).
  set (s1 := store_int s q (set_in_lr false j)).
  assert (find_int s1 r = Some i) as Hr1 by (unfold s1; rewrite (find_store _ _ _ j), decide_False by done; done).
  assert (find_int s1 q = Some (set_in_lr false j)) as Hq1 by (unfold s1; rewrite (find_store _ _ _ j), decide_True by done; done).
  assert (shape (vcpu_id vcpu) s1) as Hsh1 by (by eapply shape_store).
  destruct (store_regs s q (set_in_lr false j)) as (L1 & _ & G1). fold s1 in L1, G1.
  destruct (gic_is_priv (ref_id q)); simpl; [by exists s1|].
  destruct (yield_total vcpu q _ s1 Hq1 eq_refl) as (s2 & E2 & [->| ->]); rewrite E2; [by exists s1|].
  destruct (store_regs s1 q (clear_owner (set_in_lr false j))) as (L2 & _ & G2).
  eexists. split; [done|]. split_and!; [by eapply shape_store| |congruence..].
  rewrite (find_store _ _ _ _ _ Hq1), decide_False by done. done.
Qed.

(** A shared software interrupt, owned by the vCPU that runs on this core, out of the list
    registers. *)
Record spi_ready (vcpu : Vcpu) (k : Z) (i : VgicInt) (s : VS) : Prop := {
  sr_shape : shape (vcpu_id vcpu) s;
  sr_find : find_int s (RSpi k) = Some i;
  sr_sw : hw i = false;
  sr_owner : owner i = Some vcpu;
  sr_core : phys_id vcpu = core;
  sr_out : in_lr i = false;
  sr_prio : 0 <= prio i < 256;
}.

Lemma spi_id vcpu k i s : spi_ready vcpu k i s -> 32 <= ref_id (RSpi k) < 1024.
Proof.
  intros H. pose proof (sr_find _ _ _ _ H) as Hf. simpl in Hf. apply zget_Some_bounds in Hf.
  destruct (sr_shape _ _ _ _ H) as (_ & E & _). simpl. unfold GIC_PRIVINT_NUM. lia.
Qed.

Lemma get_state_out vcpu k i s : spi_ready vcpu k i s ->
  vgic_get_state core (RSpi k) s = Ret (to_num (state i)) s.
Proof.
  intros H. unfold vgic_get_state. eapply m_bind_Ret_r; [apply read_int_eq, H|]. cbv beta.
  rewrite (sr_out _ _ _ _ H). eapply m_bind_Ret_r; [reflexivity|]. cbv beta.
  rewrite (proj2 (Z.leb_le _ _)); [done|]. pose proof (spi_id _ _ _ _ H). unfold GIC_SGIS_NUM. lia.
Qed.

Lemma lr_value_spi vcpu k i s : spi_ready vcpu k i s ->
  write_lr_value gicd_state vcpu (RSpi k) (to_num (state i)) (prio i) s =
    Ret (lr_word (ref_id (RSpi k)) (prio i) (to_num (state i))) s.
Proof.
  intros H. pose proof (spi_id _ _ _ _ H) as Hid. unfold write_lr_value.
  assert (vgic_int_is_hw (RSpi k) s = Ret false s) as E.
  { eapply m_bind_Ret_r; [apply read_int_eq, H|]. cbv beta. by rewrite (sr_sw _ _ _ _ H), andb_false_r. }
  eapply m_bind_Ret_r; [exact E|]. cbv beta iota.
  rewrite (proj2 (Z.ltb_ge _ GIC_SGIS_NUM)) by (unfold GIC_SGIS_NUM; lia).
  unfold gic_is_priv. rewrite (proj2 (Z.ltb_ge _ GIC_PRIVINT_NUM)) by (unfold GIC_PRIVINT_NUM; lia).
  reflexivity.
Qed.

Lemma to_num_range st : 0 <= to_num st < 4.
Proof. destruct st; simpl; lia. Qed.

Lemma num_to_state_to_num st : num_to_state (to_num st) = Some st.
Proof. by destruct st. Qed.

(** [write_lr] on a ready interrupt. *)
Lemma write_lr_spi vcpu k i idx s :
  spi_ready vcpu k i s -> 0 <= idx < 64 ->
  exists s1 x y, write_lr core gicd_state vcpu (RSpi k) idx s = Ret tt s1 /\
    shape (vcpu_id vcpu) s1 /\
    lrs s1 = zset (lrs s) idx (lr_word (ref_id (RSpi k)) (prio i) (to_num (state i))) /\
    find_int s1 (RSpi k) = Some (set_in_pend_state x (set_in_act_state y
      (set_int_lr idx (set_in_lr true (set_state IrqSInactive i))))).
Proof.
  intros H Hidx. pose proof (spi_id _ _ _ _ H) as Hid.
  destruct (evict_total vcpu (RSpi k) i idx s (sr_shape _ _ _ _ H) (sr_find _ _ _ _ H) Hidx)
    as (sa & Ea & Hsa & Hfa & Lrs_a & _).
  assert (spi_ready vcpu k i sa) as Ha by (destruct H; by split).
  set (i1 := set_int_lr (u16 idx) (set_in_lr true (set_state IrqSInactive i))).
  set (sb := store_int sa (RSpi k) i1).
  assert (shape (vcpu_id vcpu) sb) as Hsb by (by eapply shape_store).
  pose proof Hsb as ((p & Hp & P1 & P2 & P3) & _ & Lb).
  set (v := lr_word (ref_id (RSpi k)) (prio i) (to_num (state i))).
  destruct (lr_word_fields (ref_id (RSpi k)) (prio i) (to_num (state i))) as (Hv & _);
    [lia|apply H|apply to_num_range|].
  set (sc := with_priv (zset (cpu_priv sb) (vcpu_id vcpu)
    (put_curr_lrs (zset (curr_lrs p) idx (u16 (ref_id (RSpi k)))) p)) sb).
  set (sd := with_lrs (zset (lrs sc) idx (u32 v)) sc).
  assert (shape (vcpu_id vcpu) sd) as Hsd.
  { assert (shape (vcpu_id vcpu) sc) as (Q1 & Q2 & Q3)
      by (apply (shape_priv _ _ _ p); [done|done|done|simpl; by rewrite zlen_zset|done]).
    split; [done|]. split; [done|]. simpl. by rewrite zlen_zset. }
  assert (find_int sd (RSpi k) = Some i1) as Hfd.
  { change (find_int sb (RSpi k) = Some i1). unfold sb. by rewrite (find_store _ _ _ i), decide_True. }
  destruct (update_int_list_total vcpu (RSpi k) i1 sd Hsd Hfd) as (se & Ee & Hse & Le & _ & _ & x & y & Hfe).
  exists se, x, y. split_and!.
  - unfold write_lr. eapply m_bind_Ret_r; [apply read_int_eq, H|]. cbv beta.
    eapply m_bind_Ret_r; [exact Ea|]. eapply m_bind_Ret_r; [exact (get_state_out _ _ _ _ Ha)|].
    eapply m_bind_Ret_r; [exact (lr_value_spi _ _ _ _ Ha)|]. cbv beta.
    eapply m_bind_Ret_r; [by apply (upd_int_eq sa _ i)|].
    eapply m_bind_Ret_r; [apply (set_curr_lrs_eq sb _ p); [done|lia]|].
    eapply m_bind_Ret_r; [apply (gich_set_lr_eq sc); change (lrs sc) with (lrs sb); lia|exact Ee].
  - done.
  - rewrite Le. unfold sd. simpl. rewrite Lrs_a. by rewrite (wrap_small 32 v) by done.
  - rewrite Hfe. unfold i1. by rewrite wrap_small by (unfold in_word; lia).
Qed.

(** [remove_lr] on an interrupt whose valid word is in its list register. *)
Lemma remove_lr_spi vcpu k i idx s :
  shape (vcpu_id vcpu) s -> find_int s (RSpi k) = Some i ->
  owner i = Some vcpu -> phys_id vcpu = core -> in_lr i = true -> lr i = idx -> 0 <= idx < 64 ->
  forall v st, zget (lrs s) idx = Some v -> Z.land v 0x3ff = ref_id (RSpi k) ->
  Z.land (Z.shiftr v 28) 3 = to_num st -> st <> IrqSInactive ->
  exists s2 x y, remove_lr core vcpu (RSpi k) s = Ret true s2 /\
    lrs s2 = zset (lrs s) idx 0 /\
    find_int s2 (RSpi k) = Some (set_in_pend_state x (set_in_act_state y
      (set_state st (set_in_lr false i)))).
Proof.
  intros Hsh Hf Ho Hc Hin Hlr Hidx v st Hv Hid Hst Hne. pose proof Hsh as (_ & Hspis & Hlrs).
  assert (0 <= k < 992) as Hk by (simpl in Hf; apply zget_Some_bounds in Hf; lia).
  assert (gic_is_priv (ref_id (RSpi k)) = false) as Epriv by (apply Z.ltb_ge; simpl; unfold GIC_PRIVINT_NUM; lia).
  assert ((ref_id (RSpi k) <? GIC_SGIS_NUM) = false) as Esgi by (apply Z.ltb_ge; simpl; unfold GIC_PRIVINT_NUM, GIC_SGIS_NUM; lia).
  assert (to_num st <> 0) as Hst0 by (by destruct st).
  set (sa := with_lrs (zset (lrs s) idx 0) s).
  set (sb := store_int sa (RSpi k) (set_in_lr false i)).
  set (sc := store_int sb (RSpi k) (set_state st (set_in_lr false i))).
  assert (shape (vcpu_id vcpu) sa) as Hsa.
  { destruct Hsh as (Q1 & Q2 & Q3). split; [done|]. split; [done|]. simpl. by rewrite zlen_zset. }
  assert (find_int sb (RSpi k) = Some (set_in_lr false i)) as Hfb
    by (unfold sb; by rewrite (find_store _ _ _ i), decide_True).
  assert (find_int sc (RSpi k) = Some (set_state st (set_in_lr false i))) as Hfc
    by (unfold sc; by rewrite (find_store _ _ _ _ _ Hfb), decide_True).
  assert (shape (vcpu_id vcpu) sc) as Hsc by (do 2 (eapply shape_store; [|done]); done).
  destruct (update_int_list_total vcpu (RSpi k) _ sc Hsc Hfc) as (sd & Ed & Hsd & Ld & _ & _ & x & y & Hfd).
  assert (exists se, (if pending st && enabled i then let! h := gich_hcr in gich_set_hcr (Z.lor h 8)
    else m_ret tt) sd = Ret tt se /\ lrs se = lrs sd /\ find_int se (RSpi k) = find_int sd (RSpi k))
    as (se & Ee & Le & Fe) by (destruct (pending st && enabled i); eexists; done).
  exists se, x, y. split_and!.
  - unfold remove_lr.
    assert (vgic_owns vcpu (RSpi k) s = Ret true s) as Eo.
    { unfold vgic_owns. rewrite Epriv. eapply m_bind_Ret_r; [by apply read_int_eq|]. cbv beta.
      by rewrite Ho, !Z.eqb_refl. }
    eapply m_bind_Ret_r; [exact Eo|]. cbv beta iota delta [negb].
    eapply m_bind_Ret_r; [by apply read_int_eq|]. cbv beta. rewrite Hin. cbv iota.
    assert (gich_get_lr core (RSpi k) s = Ret (Some v) s) as Eg.
    { unfold gich_get_lr. eapply m_bind_Ret_r; [by apply read_int_eq|]. cbv beta.
      unfold owner_phys_id. rewrite Ho. eapply m_bind_Ret_r; [reflexivity|]. cbv beta.
      rewrite Hin, Hc, Z.eqb_refl. cbn [negb orb].
      eapply m_bind_Ret_r; [eapply m_bind_Ret_r; [reflexivity|]; cbv beta; unfold m_idx; by rewrite Hlr, Hv|].
      cbv beta. rewrite Hid, Z.eqb_refl. unfold testm. rewrite Hst.
      by rewrite (proj2 (Z.eqb_neq _ 0)) by done. }
    eapply m_bind_Ret_r; [exact Eg|]. cbv beta iota. rewrite Hlr.
    eapply m_bind_Ret_r; [eapply m_bind_Ret_r; [eapply m_bind_Ret_r; [reflexivity|]|reflexivity]|].
    { cbv beta. unfold zstore. rewrite in_bounds_true by lia. reflexivity. }
    cbv beta. fold sa. eapply m_bind_Ret_r; [by apply (upd_int_eq sa _ i)|]. fold sb. cbv beta zeta.
    rewrite Hst. rewrite (proj2 (Z.eqb_neq _ 0)) by done.
    rewrite num_to_state_to_num. eapply m_bind_Ret_r; [reflexivity|]. cbv beta.
    eapply m_bind_Ret_r; [by apply (upd_int_eq sb)|]. fold sc. rewrite Esgi.
    eapply m_bind_Ret_r; [reflexivity|]. eapply m_bind_Ret_r; [exact Ed|].
    eapply m_bind_Ret_r; [by apply read_int_eq|]. cbv beta.
    eapply m_bind_Ret_r; [exact Ee|reflexivity].
  - by rewrite Le, Ld.
  - by rewrite Fe, Hfd.
Qed.

(** The spill round trip.  [write_lr] puts a shared software interrupt into the list
    register: its id, its five priority bits, its state and the EOI bit are in the word, the
    interrupt is marked as being there, inactive outside.  [remove_lr] on the result takes it
    back: the list register is empty again and the interrupt has the state, the priority, the
    enable bit and the owner it had before. *)
Theorem lr_roundtrip vcpu k i idx s :
  spi_ready vcpu k i s -> state i <> IrqSInactive -> 0 <= idx < 64 ->
  exists s1 i1 v s2 i2,
    write_lr core gicd_state vcpu (RSpi k) idx s = Ret tt s1 /\
    zget (lrs s1) idx = Some v /\
    Z.land v 0x3ff = ref_id (RSpi k) /\ Z.land (Z.shiftr v 23) 0x1f = Z.shiftr (prio i) 3 /\
    Z.land (Z.shiftr v 28) 3 = to_num (state i) /\ Z.testbit v 19 = true /\
    find_int s1 (RSpi k) = Some i1 /\ in_lr i1 = true /\ lr i1 = idx /\ state i1 = IrqSInactive /\
    remove_lr core vcpu (RSpi k) s1 = Ret true s2 /\
    lrs s2 = zset (lrs s) idx 0 /\ find_int s2 (RSpi k) = Some i2 /\ in_lr i2 = false /\
    state i2 = state i /\ prio i2 = prio i /\ enabled i2 = enabled i /\ owner i2 = owner i.
Proof.
  intros H Hne Hidx. pose proof (spi_id _ _ _ _ H) as Hid.
  destruct (write_lr_spi vcpu k i idx s H Hidx) as (s1 & x & y & E1 & Hsh1 & L1 & F1).
  destruct (lr_word_fields (ref_id (RSpi k)) (prio i) (to_num (state i))) as (_ & W1 & W2 & W3 & W4);
    [lia|apply H|apply to_num_range|].
  set (v := lr_word _ _ _) in *.
  assert (zget (lrs s1) idx = Some v) as Hv.
  { rewrite L1. apply zget_zset_eq. destruct (sr_shape _ _ _ _ H) as (_ & _ & ->). lia. }
  destruct (remove_lr_spi vcpu k _ idx s1 Hsh1 F1 (sr_owner _ _ _ _ H) (sr_core _ _ _ _ H)
    eq_refl eq_refl Hidx v (state i) Hv W1 W3 Hne) as (s2 & x2 & y2 & E2 & L2 & F2).
  do 5 eexists. split_and!; try done. by rewrite L2, L1, zset_zset.
Qed.
End spill.

(** ** The protocol between the cores *)

(** The log extended by [es]. *)
Definition log (s : VS) (es : list gic_event) : VS := with_glog (glog s ++ es) s.

Lemma log_app s a b : log (log s a) b = log s (a ++ b).
Proof. unfold log. simpl. by rewrite app_assoc. Qed.

Lemma log_nil s : log s [] = s.
Proof. unfold log. rewrite app_nil_r. by destruct s. Qed.

(** A shared interrupt in the hands of another vCPU than [vcpu]. *)
Record foreign (vcpu o : Vcpu) (id : Z) (i : VgicInt) (s : VS) : Prop := {
  fo_id : 32 <= id < 1024;
  fo_find : find_int s (RSpi (id - 32)) = Some i;
  fo_owner : owner i = Some o;
  fo_other : vcpu_vm_id o <> vcpu_vm_id vcpu \/ vcpu_id o <> vcpu_id vcpu;
}.

Section protocol.
Context (core gic_lrs : Z) (elrsr eisr : list Z -> Z -> Z) (gicd_state : list gic_event -> Z -> Z).
Context (cpuif : Z -> Z) (gicd_base : Z).

Lemma get_int_spi vcpu o id i s : foreign vcpu o id i s ->
  get_int vcpu id s = Ret (Some (RSpi (id - 32))) s.
Proof.
  intros [Hid Hf Ho _]. unfold get_int, GIC_PRIVINT_NUM, GIC_INTS_MAX.
  rewrite (proj2 (Z.ltb_ge id 32)), (proj2 (Z.leb_le 32 id)), (proj2 (Z.ltb_lt id 1024)) by lia.
  simpl. unfold vgicd_interrupt, m_bind, m_get. simpl in Hf.
  rewrite in_bounds_true; [done|]. by eapply zget_Some_bounds.
Qed.

Lemma foreign_not_owned vcpu o id i s : foreign vcpu o id i s ->
  vgic_int_get_owner vcpu (RSpi (id - 32)) s = Ret false s.
Proof.
  intros [Hid Hf Ho Hne]. unfold vgic_int_get_owner.
  eapply m_bind_Ret_r; [by apply read_int_eq|]. cbv beta. rewrite Ho.
  unfold m_ret. f_equal. apply andb_false_iff. rewrite !Z.eqb_neq. done.
Qed.

Lemma foreign_forward vcpu o id i e v s : foreign vcpu o id i s ->
  (let! j := read_int (RSpi (id - 32)) in ipi_owner j (msg e vcpu (RSpi (id - 32)) v)) s =
    Ret tt (log s [EvIpi (phys_id o) (mkInitc e (vcpu_vm_id vcpu) id v)]).
Proof.
  intros [Hid Hf Ho _]. eapply m_bind_Ret_r; [by apply read_int_eq|]. cbv beta.
  unfold ipi_owner, owner_phys_id. rewrite Ho. eapply m_bind_Ret_r; [reflexivity|]. cbv beta.
  unfold msg, emit, m_modify, ref_id, GIC_PRIVINT_NUM.
  rewrite wrap_small by (unfold in_word; lia). by replace (id - 32 + 32) with id by lia.
Qed.

Lemma bit_extract_id id : 0 <= id < 1024 -> bit_extract id 0 10 = id.
Proof.
  intros Hid. rewrite bit_extract_value, Z.pow_0_r, Z.div_1_r by lia. apply Z.mod_small. lia.
Qed.

(** An operation on a shared interrupt that another vCPU owns changes nothing but the log: one
    IPI goes to the owner's core, with the VM, the interrupt and the value.  The events are those
    of the code: [set_active] sends the event for a pending bit. *)
Theorem foreign_interrupt_forwarded vcpu o id i s b v :
  foreign vcpu o id i s ->
  let ipi e v := log s [EvIpi (phys_id o) (mkInitc e (vcpu_vm_id vcpu) id v)] in
  let n := if b : bool then 1 else 0 in
  set_enable core gic_lrs elrsr gicd_state vcpu id b s = Ret tt (ipi VgicdSetEn n) /\
  set_pend core gic_lrs elrsr gicd_state vcpu id b s = Ret tt (ipi VgicdSetPend n) /\
  set_active core gic_lrs elrsr gicd_state vcpu id b s = Ret tt (ipi VgicdSetPend n) /\
  set_icfgr core vcpu id v s = Ret tt (ipi VgicdSetCfg v) /\
  set_prio core gic_lrs elrsr gicd_state vcpu id v s = Ret tt (ipi VgicdSetPrio (Z.land v 0xf0)) /\
  set_trgt core gic_lrs elrsr gicd_state cpuif vcpu id v s = Ret tt (ipi VgicdSetTrgt v).
Proof.
  intros H. cbv zeta. pose proof (fo_id _ _ _ _ _ H) as Hid.
  pose proof (get_int_spi _ _ _ _ _ H) as Eg. pose proof (foreign_not_owned _ _ _ _ _ H) as En.
  pose proof (fun e v => foreign_forward _ _ _ _ e v _ H) as Ef.
  unfold set_enable, set_pend, set_active, set_icfgr, set_prio, set_trgt.
  rewrite bit_extract_id by lia. unfold GIC_SGIS_NUM. rewrite (proj2 (Z.ltb_ge id 16)) by lia.
  split_and!; (eapply m_bind_Ret_r; [exact Eg|]; eapply m_bind_Ret_r; [exact En|]; cbv beta iota; try apply Ef).
  eapply m_bind_Ret_r; [apply read_int_eq, H|]. cbv beta. rewrite (fo_owner _ _ _ _ _ H).
  unfold msg, ref_id, GIC_PRIVINT_NUM. rewrite wrap_small by (unfold in_word; lia).
  by replace (id - 32 + 32) with id by lia.
Qed.

(** What becomes of the forwarded configuration and activation.  On the owner's core the
    handler drops a [VgicdSetCfg] message, so the write to ICFGR is lost, and it treats the message
    of [set_active] like a write to ISPENDR or ICPENDR, so activating an interrupt owned
    elsewhere makes it pending and deactivating it clears its pending bit. *)
Theorem foreign_icfgr_and_active_lost vcpu o id i s b v core' w vm s' :
  foreign vcpu o id i s -> vm_id vm = vcpu_vm_id vcpu ->
  exists m1 m2,
    set_icfgr core vcpu id v s = Ret tt (log s [EvIpi (phys_id o) m1]) /\
    vgic_ipi_handler core' gic_lrs elrsr gicd_state cpuif w vm m1 s' = Ret tt s' /\
    set_active core gic_lrs elrsr gicd_state vcpu id b s = Ret tt (log s [EvIpi (phys_id o) m2]) /\
    vgic_ipi_handler core' gic_lrs elrsr gicd_state cpuif w vm m2 s' =
      set_pend core' gic_lrs elrsr gicd_state w id b s'.
Proof.
  intros H Hvm. destruct H as [Hid Hf Ho Hne].
  assert (foreign vcpu o id i s) as H by by split.
  eexists _, _. unfold set_icfgr, set_active. rewrite bit_extract_id by lia. split_and!.
  - do 2 (eapply m_bind_Ret_r; [by eapply get_int_spi || by eapply foreign_not_owned|]).
    cbv beta iota. by apply (foreign_forward _ _ _ i).
  - unfold vgic_ipi_handler. simpl msg_vm_id. by rewrite Hvm, Z.eqb_refl.
  - do 2 (eapply m_bind_Ret_r; [by eapply get_int_spi || by eapply foreign_not_owned|]).
    cbv beta iota. by apply (foreign_forward _ _ _ i).
  - unfold vgic_ipi_handler. simpl msg_vm_id. rewrite Hvm, Z.eqb_refl. by destruct b.
Qed.

(** *** Software-generated interrupts *)

(** The IPIs of a write to GICD_SGIR with target mask [t]. *)
Definition sgi_ipis (vm : Vm) (src : Vcpu) (val t : Z) : list gic_event :=
  (fun i => EvIpi i (mkInitc VgicdSetPend (vm_id vm)
     (u16 (Z.lor (bit_extract val 0 8) (shlw 64 (vcpu_id src) 10))) 1)) <$>
  filter (fun i => Z.testbit t i) (zrange 0 8).

(** A loop that logs an event per element whose test holds. *)
Lemma m_for_emit (f : Z -> bool) (g : Z -> gic_event) l s :
  m_for l (fun i => if f i then emit (g i) else m_ret tt) s =
    Ret tt (log s (g <$> filter (fun i => f i) l)).
Proof.
  revert s. induction l as [|x l IH]; intros s; simpl; [by rewrite log_nil|].
  rewrite filter_cons. destruct (f x) eqn:E.
  - rewrite decide_True by done. eapply m_bind_Ret_r; [reflexivity|]. rewrite IH.
    change (with_glog (glog s ++ [g x]) s) with (log s [g x]). by rewrite log_app.
  - rewrite decide_False by (by intros []). by apply IH.
Qed.

Lemma m_for_ext {S A} (l : list A) (b1 b2 : A -> M S unit) s :
  (forall i s, i ∈ l -> b1 i s = b2 i s) -> m_for l b1 s = m_for l b2 s.
Proof.
  revert s. induction l as [|x l IH]; intros s H; [done|]. simpl. unfold m_bind.
  rewrite H by left. destruct (b2 x s); [|done]. apply IH. intros. apply H. by right.
Qed.

(** A guest's write to GICD_SGIR sends one IPI to each core its target mask names and to no
    other, carrying the interrupt and the sending vCPU, and changes nothing else; the mask is the
    target list translated to physical cores, all the VM's cores but this one, or this one; the
    reserved filter value sends nothing. *)
Theorem sgi_fanout vcpu vm c s val :
  write c = true -> get_gpr (reg c) s = Ret val s -> 0 <= core < 64 ->
  bit_extract (address c) 0 12 = bit_extract (usize (gicd_base + 0xf00)) 0 12 ->
  emu_sgiregs_access core gicd_base vcpu vm c s =
    Ret tt (match sgi_targets core vm val with
            | Some t => log s (sgi_ipis vm vcpu val t) | None => s end) /\
  (bit_extract val 24 2 = 1 -> exists t, sgi_targets core vm val = Some t /\
     forall i, 0 <= i < 64 -> Z.testbit t i = Z.testbit (ncpu vm) i && negb (i =? core)) /\
  (bit_extract val 24 2 = 2 -> exists t, sgi_targets core vm val = Some t /\
     forall i, 0 <= i < 64 -> Z.testbit t i = (i =? core)) /\
  (bit_extract val 24 2 = 3 -> sgi_targets core vm val = None).
Proof.
  intros Hw Hv Hc Ha.
  assert (forall i, 0 <= i < 64 -> Z.testbit (shlw 64 1 core) i = (i =? core)) as Hbit.
  { intros i Hi. rewrite shlw_1, Z.pow2_bits_eqb by lia. apply Z.eqb_sym. }
  split_and!.
  - unfold emu_sgiregs_access, written. rewrite Hw, Ha, Z.eqb_refl.
    eapply m_bind_Ret_r; [exact Hv|]. cbv beta. destruct (sgi_targets core vm val) as [t|]; [|done].
    unfold sgi_ipis. rewrite <- (m_for_emit (fun i => Z.testbit t i)). apply m_for_ext.
    intros i s' Hi%zrange_elem. by rewrite testm_shlw64 by lia.
  - unfold sgi_targets. intros ->. simpl. eexists. split; [done|]. intros i Hi.
    rewrite Z.land_spec, notw_testbit, Hbit by lia.
    rewrite (proj2 (Z.ltb_lt i 64)) by lia. by rewrite xorb_true_r.
  - unfold sgi_targets. intros ->. simpl. by eexists.
  - unfold sgi_targets. by intros ->.
Qed.

(** *** Reading back the state *)

(** A shared interrupt that is valid in a list register of this core, where the word is [v]. *)
Record presented (id : Z) (i : VgicInt) (v : Z) (s : VS) : Prop := {
  pr_id : 32 <= id < 1024;
  pr_find : find_int s (RSpi (id - 32)) = Some i;
  pr_owner : exists o, owner i = Some o /\ phys_id o = core;
  pr_in_lr : in_lr i = true;
  pr_word : zget (lrs s) (lr i) = Some v;
  pr_same : Z.land v 0x3ff = id;
  pr_valid : testm (Z.shiftr v 28) 3 = true;
}.

(** What a read of ISPENDR or ISACTIVER shows of an interrupt that is in a list register of
    this core: not its state but a bit of its own id, bit 0 for pending and bit 1 for active. *)
Theorem state_read_of_presented_int_is_id vcpu id i v s :
  presented id i v s ->
  get_state_bit core vcpu 1 id s = Ret (Z.testbit id 0) s /\
  get_state_bit core vcpu 2 id s = Ret (Z.testbit id 1) s.
Proof.
  intros [Hid Hf (o & Ho & Hc) Hin Hv Hi Hst].
  assert (forall b, get_state_bit core vcpu b id s = Ret (testm v b) s) as Hall.
  { intros b. unfold get_state_bit.
    eapply m_bind_Ret_r.
    { unfold get_int, GIC_PRIVINT_NUM, GIC_INTS_MAX.
      rewrite (proj2 (Z.ltb_ge id 32)), (proj2 (Z.leb_le 32 id)), (proj2 (Z.ltb_lt id 1024)) by lia.
      unfold vgicd_interrupt. eapply m_bind_Ret_r; [reflexivity|]. cbv beta.
      rewrite in_bounds_true; [reflexivity|]. by eapply zget_Some_bounds. }
    cbv beta iota. eapply m_bind_Ret_r; [|reflexivity].
    assert (gich_get_lr core (RSpi (id - 32)) s = Ret (Some v) s) as Eg.
    { unfold gich_get_lr. eapply m_bind_Ret_r; [by apply read_int_eq|]. cbv beta.
      unfold owner_phys_id. rewrite Ho. eapply m_bind_Ret_r; [reflexivity|]. cbv beta.
      rewrite Hin, Hc, Z.eqb_refl. cbn [negb orb].
      eapply m_bind_Ret_r; [eapply m_bind_Ret_r; [reflexivity|]; cbv beta; unfold m_idx; by rewrite Hv|].
      cbv beta. unfold ref_id, GIC_PRIVINT_NUM. replace (id - 32 + 32) with id by lia.
      by rewrite Hi, Z.eqb_refl, Hst. }
    unfold vgic_get_state. eapply m_bind_Ret_r; [by apply read_int_eq|]. cbv beta. rewrite Hin.
    unfold owner_phys_id. rewrite Ho. eapply m_bind_Ret_r.
    { eapply m_bind_Ret_r; [reflexivity|]. cbv beta. rewrite Hc, Z.eqb_refl.
      eapply m_bind_Ret_r; [exact Eg|reflexivity]. }
    cbv beta iota. unfold ref_id, GIC_PRIVINT_NUM, GIC_SGIS_NUM.
    by rewrite (proj2 (Z.leb_le 16 _)) by lia. }
  rewrite !Hall, <- Hi. split; f_equal.
  - rewrite Z.land_spec. change 1 with (Z.shiftl 1 0) at 1. rewrite testm_bit by lia.
    by rewrite andb_true_r.
  - rewrite Z.land_spec. change 2 with (Z.shiftl 1 1) at 1. rewrite testm_bit by lia.
    by rewrite andb_true_r.
Qed.

(** A write to ISPENDR looks for an interrupt of the VM among the first [width] of the word's
    interrupts only and is dropped when there is none. *)
Lemma pendr_checks_width vcpu vm c set s val :
  write c = true -> get_gpr (reg c) s = Ret val s -> 16 <= word_first c ->
  any_int vm (zrange (word_first c) (Z.to_nat (width c))) s = Ret false s ->
  emu_pendr_access core gic_lrs elrsr gicd_state vcpu vm c set s = Ret tt s.
Proof.
  intros Hw Hv Hf Ha. unfold emu_pendr_access, written. rewrite Hw.
  eapply m_bind_Ret_r; [exact Hv|]. cbv beta zeta.
  eapply m_bind_Ret_r; [exact Ha|]. cbv beta. by rewrite (proj2 (Z.leb_le 16 _)).
Qed.

(** The number of CPUs never reaches GICD_TYPER: it is shifted out of the mask. *)
Lemma typer_has_no_cpu_number hw_typer hw_iidr vcpus h l g :
  typer (emu_intc_init hw_typer hw_iidr vcpus h l g) = Z.land hw_typer 0x1f.
Proof.
  unfold emu_intc_init. cbn [typer]. rewrite <- (Z.lor_0_r (Z.land hw_typer 0x1f)) at 2. f_equal.
  set (n := usize (zlen vcpus - 1)).
  assert (Z.land (shlw 64 n 5) 0x1f = 0) as ->; [|done].
  apply Z.bits_inj'. intros i Hi. rewrite Z.land_spec, Z.testbit_0_l.
  rewrite shlw_testbit by lia. change 0x1f with (Z.ones 5). rewrite Z.testbit_ones_nonneg by lia.
  destruct (Z.ltb_spec i 5); [|by rewrite andb_false_r].
  rewrite (proj2 (Z.leb_gt 5 i)) by lia. by rewrite ?andb_false_r.
Qed.
End protocol.

(** ** Witnesses *)

(** Status registers of the virtual interface: bit [j] of word [i] tells of register [32 * i + j]. *)
Definition demo_status (f : Z -> bool) (l : list Z) (i : Z) : Z :=
  foldl (fun acc j => match zget l (32 * i + j) with
                      | Some w => if f w then Z.lor acc (Z.shiftl 1 j) else acc
                      | None => acc end) 0 (zrange 0 32).
Definition demo_elrsr : list Z -> Z -> Z := demo_status (fun w => Z.land (Z.shiftr w 28) 3 =? 0).
Definition demo_gicd : list gic_event -> Z -> Z := fun _ _ => 0.

Definition demo_v0 : Vcpu := mkVcpu 0 2 1.
Definition demo_v1 : Vcpu := mkVcpu 1 0 1.
Definition demo_init : VS :=
  emu_intc_init 0xa3 0x43b (vcpu_list demo_vm) 0 (replicate 64 0) (replicate 31 0).

Definition final (r : outcome VS unit) (s : VS) : VS := match r with Ret _ s' => s' | Fault _ => s end.

(** A timer interrupt for vCPU 0 on core 2. *)
Definition demo_injected : VS :=
  final (inject 2 4 demo_elrsr demo_gicd demo_v0 27 demo_init) demo_init.

Lemma vgic_queues_consistent_witness :
  exists s p, vg_reachable demo_init s /\ zget (cpu_priv s) 0 = Some p /\
    pend_list p = [RPriv 0 27] /\
    queue_ok 0 (priv_ints p) in_pend (pend_list p) /\ queue_ok 0 (priv_ints p) in_act (act_list p).
Proof.
  destruct (zget (cpu_priv demo_injected) 0) as [p|] eqn:Ep; [|by vm_compute in Ep].
  assert (pend_list p = [RPriv 0 27]) as El.
  { assert (pend_list <$> zget (cpu_priv demo_injected) 0 = Some [RPriv 0 27]) as E by (vm_compute; reflexivity).
    rewrite Ep in E. by injection E as ->. }
  assert (vg_reachable demo_init demo_injected) as Hr.
  { eapply VgStep; [constructor|].
    apply (StepInject 2 4 demo_elrsr demo_gicd demo_v0 27). vm_compute. reflexivity. }
  exists demo_injected, p. split_and!; [done|done|done|..];
    eapply (vgic_queues_consistent 0xa3 0x43b (vcpu_list demo_vm)); eassumption.
Defined.

(** SPI 40, enabled and pending, in the hands of vCPU 0. *)
Definition demo_spi : VgicInt := mkInt false (Some demo_v0) false 0 true IrqSPend 0xa0 4 0 false false.
Definition demo_owned : VS := store_int demo_init (RSpi 8) demo_spi.

Lemma demo_spi_ready : spi_ready 2 demo_v0 8 demo_spi demo_owned.
Proof.
  split; try done.
  - split; [|done]. eexists. split; [vm_compute; reflexivity|done].
Qed.

Lemma lr_roundtrip_witness :
  exists s1 i1 v s2 i2,
    write_lr 2 demo_gicd demo_v0 (RSpi 8) 3 demo_owned = Ret tt s1 /\
    zget (lrs s1) 3 = Some v /\
    Z.land v 0x3ff = 40 /\ Z.land (Z.shiftr v 23) 0x1f = 20 /\
    Z.land (Z.shiftr v 28) 3 = 1 /\ Z.testbit v 19 = true /\
    find_int s1 (RSpi 8) = Some i1 /\ in_lr i1 = true /\ lr i1 = 3 /\ state i1 = IrqSInactive /\
    remove_lr 2 demo_v0 (RSpi 8) s1 = Ret true s2 /\
    lrs s2 = zset (lrs demo_owned) 3 0 /\ find_int s2 (RSpi 8) = Some i2 /\ in_lr i2 = false /\
    state i2 = IrqSPend /\ prio i2 = 0xa0 /\ enabled i2 = true /\ owner i2 = Some demo_v0.
Proof. apply (lr_roundtrip 2 demo_gicd demo_v0 8 demo_spi 3 demo_owned demo_spi_ready); [done|lia]. Defined.

Lemma demo_foreign : foreign demo_v1 demo_v0 40 demo_spi demo_owned.
Proof. split; [lia|reflexivity|reflexivity|by right]. Qed.

Lemma foreign_interrupt_forwarded_witness :
  set_enable 0 4 demo_elrsr demo_gicd demo_v1 40 false demo_owned =
    Ret tt (log demo_owned [EvIpi 2 (mkInitc VgicdSetEn 1 40 0)]) /\
  set_prio 0 4 demo_elrsr demo_gicd demo_v1 40 0x47 demo_owned =
    Ret tt (log demo_owned [EvIpi 2 (mkInitc VgicdSetPrio 1 40 0x40)]).
Proof.
  destruct (foreign_interrupt_forwarded 0 4 demo_elrsr demo_gicd id demo_v1 demo_v0 40 demo_spi
    demo_owned false 0x47 demo_foreign) as (H1 & _ & _ & _ & H2 & _). split; [exact H1|exact H2].
Defined.

Lemma foreign_icfgr_and_active_lost_witness :
  exists m1 m2,
    set_icfgr 0 demo_v1 40 2 demo_owned = Ret tt (log demo_owned [EvIpi 2 m1]) /\
    vgic_ipi_handler 2 4 demo_elrsr demo_gicd id demo_v0 demo_vm m1 demo_owned = Ret tt demo_owned /\
    set_active 0 4 demo_elrsr demo_gicd demo_v1 40 true demo_owned = Ret tt (log demo_owned [EvIpi 2 m2]) /\
    vgic_ipi_handler 2 4 demo_elrsr demo_gicd id demo_v0 demo_vm m2 demo_owned =
      set_pend 2 4 demo_elrsr demo_gicd demo_v0 40 true demo_owned.
Proof.
  apply (foreign_icfgr_and_active_lost 0 4 demo_elrsr demo_gicd id demo_v1 demo_v0 40 demo_spi).
  - exact demo_foreign.
  - reflexivity.
Defined.

(** vCPU 0 sends SGI 5 to all the others. *)
Definition demo_sgir : VS := with_gpr (replicate 31 0x01000005) demo_init.

Lemma sgi_fanout_witness :
  emu_sgiregs_access 2 0x8000000 demo_v0 demo_vm (mkEmu 0x8000f00 4 true 1) demo_sgir =
    Ret tt (log demo_sgir [EvIpi 0 (mkInitc VgicdSetPend 1 5 1); EvIpi 3 (mkInitc VgicdSetPend 1 5 1)]).
Proof.
  destruct (sgi_fanout 2 0x8000000 demo_v0 demo_vm (mkEmu 0x8000f00 4 true 1) demo_sgir 0x01000005)
    as (H & _); [reflexivity|reflexivity|lia|vm_compute; reflexivity|exact H].
Defined.

(** The same interrupt in list register 3: it is pending there, and reads as not pending. *)
Definition demo_presented : VS := final (write_lr 2 demo_gicd demo_v0 (RSpi 8) 3 demo_owned) demo_owned.

Lemma state_read_of_presented_int_is_id_witness :
  get_state_bit 2 demo_v0 1 40 demo_presented = Ret false demo_presented /\
  get_state_bit 2 demo_v0 2 40 demo_presented = Ret false demo_presented.
Proof.
  apply (state_read_of_presented_int_is_id 2 demo_v0 40
    (set_in_pend_state false (set_int_lr 3 (set_in_lr true (set_state IrqSInactive demo_spi))))
    (lr_word 40 0xa0 1)).
  split; [lia|reflexivity|by exists demo_v0|reflexivity..].
Defined.
