(* ===== verification/Gic3State.v ===== *)
(** * Gic3State: the data of the emulated GICv3 ([arch/aarch64/vgicv3.rs], [gicv3.rs])

    As [VgicState] for the GICv2: interrupts, the private part of each vCPU with its redistributor, the distributor's
    registers, the list registers and control of the virtual interface (system registers here), and a log of what is asked
    of the physical distributor and redistributors and of the messages sent.  New are the affinity by which a shared
    interrupt is routed and the redistributor a private one belongs to ([VgicIntPhys]).

    A pointer to an interrupt is an [iref] as in [VgicState]; the queues' code is the same. *)
From stdpp Require Import list.
From S2P Require Import Prelude Bits Vm VgicState.

(** ** Constants *)

(** src: arch/aarch64/gicv3.rs 35-35 [MPIDR_AFF_MSK] *)
Definition MPIDR_AFF_MSK : Z := 0xffff.
(** src: arch/aarch64/gicv3.rs 40-40 [GICD_CTLR_ARE_NS_BIT] *)
Definition GICD_CTLR_ARE_NS_BIT : Z := 16.
(** src: arch/aarch64/gicv3.rs 41-41 [GICD_IROUTER_INV] *)
Definition GICD_IROUTER_INV : Z := notw 64 MPIDR_AFF_MSK.
(** src: arch/aarch64/gicv3.rs 42-42 [GICD_IROUTER_RES0_MSK] *)
Definition GICD_IROUTER_RES0_MSK : Z := Z.ones 40.
(** src: arch/aarch64/gicv3.rs 43-43 [GICD_IROUTER_IRM_BIT] *)
Definition GICD_IROUTER_IRM_BIT : Z := Z.shiftl 1 31.
(** src: arch/aarch64/gicv3.rs 51-51 [GICD_TYPER_LPIS] *)
Definition GICD_TYPER_LPIS : Z := Z.shiftl 1 17.
(** src: arch/aarch64/gicv3.rs 154-157 [GICD_TYPER_CPUNUM_MSK] *)
Definition GICD_TYPER_CPUNUM_MSK : Z := Z.shiftl (Z.ones 3) 5.
(** src: arch/aarch64/gicv3.rs 71-71 [GICC_SGIR_IRM_BIT] *)
Definition GICC_SGIR_IRM_BIT : Z := Z.shiftl 1 40.

(** The fields of a list register. *)
(** src: arch/aarch64/gicv3.rs 75-78 [GICH_LR_VID_MASK] *)
Definition GICH_LR_VID_MASK : Z := Z.ones 32.
(** src: arch/aarch64/gicv3.rs 79-82 [GICH_LR_PID_MSK] *)
Definition GICH_LR_PID_MSK : Z := Z.shiftl (Z.ones 10) 32.
(** src: arch/aarch64/gicv3.rs 94-95 [GICH_LR_PRIO_MSK] *)
Definition GICH_LR_PRIO_MSK : Z := Z.shiftl (Z.ones 8) 48.
(** src: arch/aarch64/gicv3.rs 87-88 [GICH_LR_STATE_MSK] *)
Definition GICH_LR_STATE_MSK : Z := Z.shiftl (Z.ones 2) 62.
(** src: arch/aarch64/gicv3.rs 89-90 [GICH_LR_STATE_ACT] *)
Definition GICH_LR_STATE_ACT : Z := Z.land (Z.shiftl 2 62) GICH_LR_STATE_MSK.
(** src: arch/aarch64/gicv3.rs 91-92 [GICH_LR_STATE_PND] *)
Definition GICH_LR_STATE_PND : Z := Z.land (Z.shiftl 1 62) GICH_LR_STATE_MSK.
(** src: arch/aarch64/gicv3.rs 93-93 [GICH_LR_GRP_BIT] *)
Definition GICH_LR_GRP_BIT : Z := Z.shiftl 1 60.
(** src: arch/aarch64/gicv3.rs 96-96 [GICH_LR_HW_BIT] *)
Definition GICH_LR_HW_BIT : Z := Z.shiftl 1 61.
(** src: arch/aarch64/gicv3.rs 97-97 [GICH_LR_EOI_BIT] *)
Definition GICH_LR_EOI_BIT : Z := Z.shiftl 1 41.

(** src: arch/aarch64/gicv3.rs 101-104 [GICH_HCR_EN_BIT, GICH_HCR_UIE_BIT, GICH_HCR_NPIE_BIT] *)
Definition GICH_HCR_EN_BIT : Z := 1.
Definition GICH_HCR_UIE_BIT : Z := 2.
Definition GICH_HCR_NPIE_BIT : Z := 8.
(** src: arch/aarch64/gicv3.rs 108-111 [GICH_HCR_EOIC_MSK] *)
Definition GICH_HCR_EOIC_MSK : Z := Z.shiftl (Z.ones 5) 27.

(** ** Interrupts *)

(** src: arch/aarch64/vgicv3.rs 274-278 [VgicIntPhys] *)
Inductive VgicIntPhys := Redist (r : Z) | Route (r : Z).

(** src: arch/aarch64/vgicv3.rs 280-294 [VgicIntInnerMut]
    With [hw] of [VgicIntInnerConst]; the id is that of the pointer. *)
Record VgicInt := mkInt {
  hw : bool;
  owner : option Vcpu;
  iroute : Z;
  phys : VgicIntPhys;
  in_lr : bool;
  lr : Z;
  enabled : bool;
  state : IrqState;
  prio : Z;
  targets : Z;
  cfg : Z;
  in_pend : bool;
  in_act : bool;
}.

(** src: arch/aarch64/vgicv3.rs 297-312 [VgicIntInnerMut::new] *)
Definition int_new : VgicInt :=
  mkInt false None GICD_IROUTER_INV (Route GICD_IROUTER_INV) false 0 false IrqSInactive 0xff 0 0 false false.

(** src: arch/aarch64/vgicv3.rs 314-335 [VgicIntInnerMut::priv_new] *)
Definition int_priv_new (o : Vcpu) (tgts : Z) (en : bool) (redist c : Z) : VgicInt :=
  mkInt false (Some o) GICD_IROUTER_INV (Redist redist) false 0 en IrqSInactive 0xff (u8 tgts) (u8 c) false false.

(** src: arch/aarch64/vgicv3.rs 81-84 [VgicInt::set_in_pend_state] *)
Definition set_in_pend_state b (i : VgicInt) : VgicInt :=
  mkInt (hw i) (owner i) (iroute i) (phys i) (in_lr i) (lr i) (enabled i) (state i) (prio i) (targets i) (cfg i) b (in_act i).
(** src: arch/aarch64/vgicv3.rs 86-89 [VgicInt::set_in_act_state] *)
Definition set_in_act_state b (i : VgicInt) : VgicInt :=
  mkInt (hw i) (owner i) (iroute i) (phys i) (in_lr i) (lr i) (enabled i) (state i) (prio i) (targets i) (cfg i) (in_pend i) b.
(** src: arch/aarch64/vgicv3.rs 101-104 [VgicInt::set_enabled] *)
Definition set_enabled b (i : VgicInt) : VgicInt :=
  mkInt (hw i) (owner i) (iroute i) (phys i) (in_lr i) (lr i) b (state i) (prio i) (targets i) (cfg i) (in_pend i) (in_act i).
(** src: arch/aarch64/vgicv3.rs 106-109 [VgicInt::set_lr] *)
Definition set_int_lr l (i : VgicInt) : VgicInt :=
  mkInt (hw i) (owner i) (iroute i) (phys i) (in_lr i) l (enabled i) (state i) (prio i) (targets i) (cfg i) (in_pend i) (in_act i).
(** src: arch/aarch64/vgicv3.rs 111-114 [VgicInt::set_targets] *)
Definition set_targets t (i : VgicInt) : VgicInt :=
  mkInt (hw i) (owner i) (iroute i) (phys i) (in_lr i) (lr i) (enabled i) (state i) (prio i) t (cfg i) (in_pend i) (in_act i).
(** src: arch/aarch64/vgicv3.rs 116-119 [VgicInt::set_prio] *)
Definition set_prio_field p (i : VgicInt) : VgicInt :=
  mkInt (hw i) (owner i) (iroute i) (phys i) (in_lr i) (lr i) (enabled i) (state i) p (targets i) (cfg i) (in_pend i) (in_act i).
(** src: arch/aarch64/vgicv3.rs 121-124 [VgicInt::set_in_lr] *)
Definition set_in_lr b (i : VgicInt) : VgicInt :=
  mkInt (hw i) (owner i) (iroute i) (phys i) b (lr i) (enabled i) (state i) (prio i) (targets i) (cfg i) (in_pend i) (in_act i).
(** src: arch/aarch64/vgicv3.rs 126-129 [VgicInt::set_state] *)
Definition set_state st (i : VgicInt) : VgicInt :=
  mkInt (hw i) (owner i) (iroute i) (phys i) (in_lr i) (lr i) (enabled i) st (prio i) (targets i) (cfg i) (in_pend i) (in_act i).
(** src: arch/aarch64/vgicv3.rs 131-134 [VgicInt::set_owner] *)
Definition set_owner v (i : VgicInt) : VgicInt :=
  mkInt (hw i) (Some v) (iroute i) (phys i) (in_lr i) (lr i) (enabled i) (state i) (prio i) (targets i) (cfg i) (in_pend i) (in_act i).
(** src: arch/aarch64/vgicv3.rs 136-139 [VgicInt::clear_owner] *)
Definition clear_owner (i : VgicInt) : VgicInt :=
  mkInt (hw i) None (iroute i) (phys i) (in_lr i) (lr i) (enabled i) (state i) (prio i) (targets i) (cfg i) (in_pend i) (in_act i).
(** src: arch/aarch64/vgicv3.rs 141-143 [VgicInt::set_hw] *)
Definition set_hw b (i : VgicInt) : VgicInt :=
  mkInt b (owner i) (iroute i) (phys i) (in_lr i) (lr i) (enabled i) (state i) (prio i) (targets i) (cfg i) (in_pend i) (in_act i).
(** src: arch/aarch64/vgicv3.rs 145-148 [VgicInt::set_cfg] *)
Definition set_cfg c (i : VgicInt) : VgicInt :=
  mkInt (hw i) (owner i) (iroute i) (phys i) (in_lr i) (lr i) (enabled i) (state i) (prio i) (targets i) c (in_pend i) (in_act i).
(** src: arch/aarch64/vgicv3.rs 185-188 [VgicInt::set_phys_route] *)
Definition set_phys_route r (i : VgicInt) : VgicInt :=
  mkInt (hw i) (owner i) (iroute i) (Route r) (in_lr i) (lr i) (enabled i) (state i) (prio i) (targets i) (cfg i) (in_pend i) (in_act i).
(** src: arch/aarch64/vgicv3.rs 190-193 [VgicInt::set_phys_redist] *)
Definition set_phys_redist r (i : VgicInt) : VgicInt :=
  mkInt (hw i) (owner i) (iroute i) (Redist r) (in_lr i) (lr i) (enabled i) (state i) (prio i) (targets i) (cfg i) (in_pend i) (in_act i).
(** src: arch/aarch64/vgicv3.rs 195-198 [VgicInt::set_route] *)
Definition set_route_field r (i : VgicInt) : VgicInt :=
  mkInt (hw i) (owner i) r (phys i) (in_lr i) (lr i) (enabled i) (state i) (prio i) (targets i) (cfg i) (in_pend i) (in_act i).

(** src: arch/aarch64/vgicv3.rs 165-173 [VgicInt::phys_redist]
    [None] is the panic. *)
Definition phys_redist (i : VgicInt) : option Z := match phys i with Redist r => Some r | Route _ => None end.
(** src: arch/aarch64/vgicv3.rs 175-183 [VgicInt::phys_route] *)
Definition phys_route (i : VgicInt) : option Z := match phys i with Route r => Some r | Redist _ => None end.
(** src: arch/aarch64/vgicv3.rs 240-243 [VgicInt::owner_phys_id] *)
Definition owner_phys_id (i : VgicInt) : option Z := phys_id <$> owner i.

(** ** The controller *)

(** src: arch/aarch64/vgicv3.rs 397-411 [VgicrInner] *)
Record Vgicr := mkVgicr { r_typer : Z; r_cltr : Z; r_iidr : Z }.
Definition vgicr_new (t c i : Z) : Vgicr := mkVgicr t (u32 c) (u32 i).

(** src: arch/aarch64/vgicv3.rs 414-426 [VgicCpuPriv, VgicCpuPrivMut]
    [sgis] is never read. *)
Record VgicCpuPriv := mkPriv {
  vigcr : Vgicr;
  priv_ints : list VgicInt;
  curr_lrs : list Z;
  pend_list : list iref;
  act_list : list iref;
}.
Definition put_priv_ints l (p : VgicCpuPriv) := mkPriv (vigcr p) l (curr_lrs p) (pend_list p) (act_list p).
Definition put_curr_lrs l (p : VgicCpuPriv) := mkPriv (vigcr p) (priv_ints p) l (pend_list p) (act_list p).
Definition put_pend_list l (p : VgicCpuPriv) := mkPriv (vigcr p) (priv_ints p) (curr_lrs p) l (act_list p).
Definition put_act_list l (p : VgicCpuPriv) := mkPriv (vigcr p) (priv_ints p) (curr_lrs p) (pend_list p) l.

(** What is asked of the physical distributor and redistributors (the last argument is the redistributor) and of
    other cores, in order. *)
Inductive g3_event :=
  | EvGicdEnable (int : Z) (en : bool)
  | EvGicrEnable (int : Z) (en : bool) (redist : Z)
  | EvSetState (int st redist : Z)
  | EvSetAct (int : Z) (act : bool) (redist : Z)
  | EvGicdPrio (int p : Z)
  | EvGicrPrio (int p redist : Z)
  | EvGicdIcfgr (int c : Z)
  | EvGicrIcfgr (int c redist : Z)
  | EvRoute (int r : Z)
  | EvPropbaser (redist v : Z)
  | EvPendbaser (redist v : Z)
  | EvGicrCtlr (redist v : Z)
  | EvIpi (target : Z) (m : IpiInitcMessage)
  | EvBroadcast (vm : Z) (m : IpiInitcMessage)
  | EvVmInject (v : Vcpu) (int : Z).

(** src: arch/aarch64/vgicv3.rs 344-351 [Vgicd]
    With the private parts ([Vgic]), the core's virtual interface, the registers of the guest and the log. *)
Record G3 := mkG3 {
  ctlr : Z;
  typer : Z;
  iidr : Z;
  spis : list VgicInt;
  cpu_priv : list VgicCpuPriv;
  hcr : Z;
  lrs : list Z;
  gpr : list Z;
  glog : list g3_event;
}.
Definition with_ctlr x s := mkG3 x (typer s) (iidr s) (spis s) (cpu_priv s) (hcr s) (lrs s) (gpr s) (glog s).
Definition with_spis x s := mkG3 (ctlr s) (typer s) (iidr s) x (cpu_priv s) (hcr s) (lrs s) (gpr s) (glog s).
Definition with_priv x s := mkG3 (ctlr s) (typer s) (iidr s) (spis s) x (hcr s) (lrs s) (gpr s) (glog s).
Definition with_hcr x s := mkG3 (ctlr s) (typer s) (iidr s) (spis s) (cpu_priv s) x (lrs s) (gpr s) (glog s).
Definition with_lrs x s := mkG3 (ctlr s) (typer s) (iidr s) (spis s) (cpu_priv s) (hcr s) x (gpr s) (glog s).
Definition with_gpr x s := mkG3 (ctlr s) (typer s) (iidr s) (spis s) (cpu_priv s) (hcr s) (lrs s) x (glog s).
Definition with_glog x s := mkG3 (ctlr s) (typer s) (iidr s) (spis s) (cpu_priv s) (hcr s) (lrs s) (gpr s) x.

Definition emit (e : g3_event) : M G3 unit := m_modify (fun s => with_glog (glog s ++ [e]) s).

Definition find_int (s : G3) (r : iref) : option VgicInt :=
  match r with
  | RPriv c i => cp ← zget (cpu_priv s) c; zget (priv_ints cp) i
  | RSpi i => zget (spis s) i
  end.
Definition store_int (s : G3) (r : iref) (i : VgicInt) : G3 :=
  match r with
  | RPriv c k =>
      match zget (cpu_priv s) c with
      | Some cp => with_priv (zset (cpu_priv s) c (put_priv_ints (zset (priv_ints cp) k i) cp)) s
      | None => s
      end
  | RSpi k => with_spis (zset (spis s) k i) s
  end.
Definition read_int (r : iref) : M G3 VgicInt := let! s := m_get in m_opt OutOfBounds (find_int s r).
Definition upd_int (r : iref) (f : VgicInt -> VgicInt) : M G3 unit :=
  let! i := read_int r in m_modify (fun s => store_int s r (f i)).
Definition read_priv (c : Z) : M G3 VgicCpuPriv := let! s := m_get in m_idx (cpu_priv s) c.
Definition upd_priv (c : Z) (f : VgicCpuPriv -> VgicCpuPriv) : M G3 unit :=
  let! p := read_priv c in m_modify (fun s => with_priv (zset (cpu_priv s) c (f p)) s).

(** src: arch/aarch64/gicv3.rs 886-888 [GicHypervisorInterface::hcr] *)
Definition gich_hcr : M G3 Z := m_gets hcr.
(** src: arch/aarch64/gicv3.rs 890-895 [GicHypervisorInterface::set_hcr] *)
Definition gich_set_hcr (v : Z) : M G3 unit := m_modify (with_hcr v).
(** src: arch/aarch64/gicv3.rs 907-927 [GicHypervisorInterface::lr]
    A register that does not exist panics. *)
Definition gich_lr (i : Z) : M G3 Z := let! s := m_get in m_opt ExplicitPanic (zget (lrs s) i).
(** src: arch/aarch64/gicv3.rs 934-957 [GicHypervisorInterface::set_lr] *)
Definition gich_set_lr (i v : Z) : M G3 unit :=
  let! s := m_get in let! l := m_opt ExplicitPanic (zstore (lrs s) i v) in m_modify (with_lrs l).

Definition get_gpr (idx : Z) : M G3 Z := if 31 <=? idx then m_ret 0 else let! s := m_get in m_idx (gpr s) idx.
Definition set_gpr (idx v : Z) : M G3 unit :=
  if 31 <=? idx then m_ret tt
  else let! s := m_get in let! l := m_opt OutOfBounds (zstore (gpr s) idx v) in m_modify (with_gpr l).

(** ** The queues *)

(** src: arch/aarch64/vgicv3.rs 429-437 [VgicCpuPrivMut::queue_remove] *)
Definition queue_remove (l : list iref) (r : iref) : list iref := VgicState.queue_remove l r.
(** src: arch/aarch64/vgicv3.rs 439-444 [VgicCpuPrivMut::pend_list_push] *)
Definition pend_list_push (r : iref) (p : VgicCpuPriv) := put_pend_list (pend_list p ++ [r]) p.
(** src: arch/aarch64/vgicv3.rs 446-448 [VgicCpuPrivMut::pend_list_remove] *)
Definition pend_list_remove (r : iref) (p : VgicCpuPriv) := put_pend_list (queue_remove (pend_list p) r) p.
(** src: arch/aarch64/vgicv3.rs 450-455 [VgicCpuPrivMut::act_list_push] *)
Definition act_list_push (r : iref) (p : VgicCpuPriv) := put_act_list (act_list p ++ [r]) p.
(** src: arch/aarch64/vgicv3.rs 457-459 [VgicCpuPrivMut::act_list_remove] *)
Definition act_list_remove (r : iref) (p : VgicCpuPriv) := put_act_list (queue_remove (act_list p) r) p.

(** src: arch/aarch64/vgicv3.rs 480-491 [VgicCpuPriv::new] *)
Definition cpu_priv_new (t c i : Z) (ints : list VgicInt) : VgicCpuPriv :=
  mkPriv (vgicr_new t c i) ints (replicate 64 0) [] [].

(** The two halves of [update_int_list]. *)
Definition update_pend (vcpu : Vcpu) (r : iref) : M G3 unit :=
  let! i := read_int r in
  if pending (state i) && negb (in_pend i) then
    upd_priv (vcpu_id vcpu) (pend_list_push r) >>; upd_int r (set_in_pend_state true)
  else if negb (pending (state i)) then
    upd_priv (vcpu_id vcpu) (pend_list_remove r) >>; upd_int r (set_in_pend_state false)
  else m_ret tt.
Definition update_act (vcpu : Vcpu) (r : iref) : M G3 unit :=
  let! i := read_int r in
  if active (state i) && negb (in_act i) then
    upd_priv (vcpu_id vcpu) (act_list_push r) >>; upd_int r (set_in_act_state true)
  else if negb (active (state i)) then
    upd_priv (vcpu_id vcpu) (act_list_remove r) >>; upd_int r (set_in_act_state false)
  else m_ret tt.

(** src: arch/aarch64/vgicv3.rs 510-533 [Vgic::update_int_list] *)
Definition update_int_list (vcpu : Vcpu) (r : iref) : M G3 unit := update_pend vcpu r >>; update_act vcpu r.

(** src: arch/aarch64/vgicv3.rs 535-553 [Vgic::int_list_head] *)
Definition int_list_head (vcpu : Vcpu) (is_pend : bool) : M G3 (option iref) :=
  let! p := read_priv (vcpu_id vcpu) in m_ret (head (if is_pend then pend_list p else act_list p)).

(** src: arch/aarch64/vgicv3.rs 632-638 [Vgic::cpu_priv_interrupt] *)
Definition cpu_priv_interrupt (cpu idx : Z) : M G3 (option iref) :=
  let! p := read_priv cpu in m_ret (if in_bounds (priv_ints p) idx then Some (RPriv cpu idx) else None).
(** src: arch/aarch64/vgicv3.rs 640-643 [Vgic::cpu_priv_curr_lrs] *)
Definition cpu_priv_curr_lrs (cpu idx : Z) : M G3 Z := let! p := read_priv cpu in m_idx (curr_lrs p) idx.
(** src: arch/aarch64/vgicv3.rs 655-658 [Vgic::set_cpu_priv_curr_lrs] *)
Definition set_cpu_priv_curr_lrs (cpu idx v : Z) : M G3 unit :=
  let! p := read_priv cpu in
  let! l := m_opt OutOfBounds (zstore (curr_lrs p) idx v) in upd_priv cpu (put_curr_lrs l).
(** src: arch/aarch64/vgicv3.rs 670-672 [Vgic::vgicd_interrupt] *)
Definition vgicd_interrupt (idx : Z) : M G3 (option iref) :=
  let! s := m_get in m_ret (if in_bounds (spis s) idx then Some (RSpi idx) else None).
(** src: arch/aarch64/vgicv3.rs 674-683 [Vgic::get_int] *)
Definition get_int (vcpu : Vcpu) (int_id : Z) : M G3 (option iref) :=
  if int_id <? GIC_PRIVINT_NUM then cpu_priv_interrupt (vcpu_id vcpu) int_id
  else if (GIC_PRIVINT_NUM <=? int_id) && (int_id <? GIC_INTS_MAX) then vgicd_interrupt (int_id - GIC_PRIVINT_NUM)
  else m_ret None.

(** ** Ownership and the view through a list register *)

(** src: arch/aarch64/vgicv3.rs 1952-1967 [vgic_owns] *)
Definition vgic_owns (vcpu : Vcpu) (r : iref) : M G3 bool :=
  if gic_is_priv (ref_id r) then m_ret true
  else
    let! i := read_int r in
    m_ret (match owner i with
           | Some o => (vcpu_id o =? vcpu_id vcpu) && (phys_id o =? phys_id vcpu)
           | None => false
           end).

(** src: arch/aarch64/vgicv3.rs 2019-2035 [vgic_int_get_owner] *)
Definition vgic_int_get_owner (vcpu : Vcpu) (r : iref) : M G3 bool :=
  let! i := read_int r in
  match owner i with
  | Some o => m_ret ((vcpu_vm_id o =? vcpu_vm_id vcpu) && (vcpu_id o =? vcpu_id vcpu))
  | None => upd_int r (set_owner vcpu) >>; m_ret true
  end.

(** src: arch/aarch64/vgicv3.rs 1996-1998 [vgic_int_is_hw] *)
Definition vgic_int_is_hw (r : iref) : M G3 bool := let! i := read_int r in m_ret ((GIC_SGIS_NUM <=? ref_id r) && hw i).

(** src: arch/aarch64/vgicv3.rs 2000-2017 [gich_get_lr]
    [core] is the current physical CPU. *)
Definition gich_get_lr (core : Z) (r : iref) : M G3 (option Z) :=
  let! i := read_int r in
  let! p := m_opt UnwrapNone (owner_phys_id i) in
  if negb (in_lr i) || negb (p =? core) then m_ret None
  else
    let! v := gich_lr (lr i) in
    m_ret (if (bit_extract v 0 32 =? ref_id r) && negb (bit_extract v 62 2 =? 0) then Some v else None).

(** src: arch/aarch64/vgicv3.rs 1969-1982 [vgic_get_state] *)
Definition vgic_get_state (core : Z) (r : iref) : M G3 Z :=
  let! i := read_int r in
  if in_lr i then
    let! p := m_opt UnwrapNone (owner_phys_id i) in
    if p =? core then
      let! o := gich_get_lr core r in
      m_ret (match o with Some v => bit_extract v 62 2 | None => to_num (state i) end)
    else m_ret (to_num (state i))
  else m_ret (to_num (state i)).

(** src: arch/aarch64/vgicv3.rs 1984-1994 [vgic_int_yield_owner] *)
Definition vgic_int_yield_owner (core : Z) (vcpu : Vcpu) (r : iref) : M G3 unit :=
  let! owns := vgic_owns vcpu r in
  let! i := read_int r in
  if negb owns || in_lr i then m_ret tt
  else
    let! st := vgic_get_state core r in
    if testm st 2 then m_ret tt else upd_int r clear_owner.
