(* ===== verification/Gic3Lr.v ===== *)
(** * Gic3Lr: the list registers of the emulated GICv3 ([arch/aarch64/vgicv3.rs])

    Presenting an interrupt ([add_lr], [write_lr]), taking it back ([remove_lr]), routing by affinity ([route]) and the
    maintenance interrupt ([handle_trapped_eoir], [refill_lrs], [eoir_highest_spilled_active]).

    Section context: the current core and the affinity of its MPIDR, the number of list registers, the status registers
    as functions of the list registers, the board ([rk3588]), the number of cores and the VM of the core's active vCPU. *)
From S2P Require Import Prelude Bits Vm VgicState Gic3State.

Section list_registers.
Context (core mpidr gic_lrs num : Z) (rk3588 : bool).
Context (elrsr eisr : list Z -> Z) (active : option Vm).

Definition gich_elrsr : M G3 Z := m_gets (fun s => elrsr (lrs s)).
Definition gich_eisr : M G3 Z := m_gets (fun s => eisr (lrs s)).

(** src: arch/aarch64/vgicv3.rs 685-719 [Vgic::remove_lr] *)
Definition remove_lr (vcpu : Vcpu) (r : iref) : M G3 bool :=
  let! owns := vgic_owns vcpu r in
  if negb owns then m_ret false
  else
    let! i := read_int r in
    if negb (in_lr i) then m_ret false
    else
      let! o := gich_get_lr core r in
      let! lr_val := match o with Some v => gich_set_lr (lr i) 0 >>; m_ret v | None => m_ret 0 end in
      upd_int r (set_in_lr false) >>;
      let lr_state := bit_extract lr_val 62 2 in
      if lr_state =? 0 then m_ret false
      else
        let! st := m_opt ExplicitPanic (num_to_state lr_state) in
        upd_int r (set_state st) >>;
        update_int_list vcpu r >>;
        let! i' := read_int r in
        (if pending (state i') && enabled i' then let! h := gich_hcr in gich_set_hcr (Z.lor h GICH_HCR_NPIE_BIT)
         else m_ret tt) >>;
        m_ret true.

(** src: arch/aarch64/vgicv3.rs 829-842 [write_lr: the previous interrupt] *)
Definition write_lr_evict (vcpu : Vcpu) (r : iref) (lr_ind : Z) : M G3 unit :=
  let! prev_int_id := cpu_priv_curr_lrs (vcpu_id vcpu) lr_ind in
  if (prev_int_id =? ref_id r) || gic_is_priv prev_int_id then m_ret tt
  else
    let! o := get_int vcpu prev_int_id in
    match o with
    | None => m_ret tt
    | Some p =>
        let! owns := vgic_owns vcpu p in
        let! i := read_int p in
        if owns && in_lr i && (lr i =? u16 lr_ind) then
          upd_int p (set_in_lr false) >>; vgic_int_yield_owner core vcpu p
        else m_ret tt
    end.

(** src: arch/aarch64/vgicv3.rs 844-869 [write_lr: the value] *)
Definition lr_value (id int_prio st : Z) (is_hw : bool) : Z :=
  let l := Z.land id GICH_LR_VID_MASK in
  let l := Z.lor l (Z.land (Z.shiftl int_prio 48) GICH_LR_PRIO_MSK) in
  let l :=
    if is_hw then
      let l := Z.lor l GICH_LR_HW_BIT in
      let l := Z.lor l (Z.land (Z.shiftl id 32) GICH_LR_PID_MSK) in
      if st =? 3 then Z.lor l GICH_LR_STATE_ACT else Z.lor l (Z.land (shlw 64 st 62) GICH_LR_STATE_MSK)
    else
      let l := if negb (gic_is_priv id) then Z.lor l GICH_LR_EOI_BIT else l in
      Z.lor l (Z.land (shlw 64 st 62) GICH_LR_STATE_MSK) in
  Z.lor l GICH_LR_GRP_BIT.

(** src: arch/aarch64/vgicv3.rs 824-880 [Vgic::write_lr] *)
Definition write_lr (vcpu : Vcpu) (r : iref) (lr_ind : Z) : M G3 unit :=
  let! i := read_int r in
  write_lr_evict vcpu r lr_ind >>;
  let! st := vgic_get_state core r in
  let! is_hw := vgic_int_is_hw r in
  let v := lr_value (ref_id r) (prio i) st is_hw in
  upd_int r (fun i => set_int_lr (u16 lr_ind) (set_in_lr true (set_state IrqSInactive i))) >>;
  set_cpu_priv_curr_lrs (vcpu_id vcpu) lr_ind (u16 (ref_id r)) >>;
  gich_set_lr lr_ind v >>;
  update_int_list vcpu r.

(** src: arch/aarch64/vgicv3.rs 729-735 [add_lr: search for an empty register] *)
Fixpoint first_empty (status : Z) (idxs : list Z) : option Z :=
  match idxs with
  | [] => None
  | i :: rest => if bit_get status (i mod 32) =? 0 then first_empty status rest else Some i
  end.

(** src: arch/aarch64/vgicv3.rs 739-746 [add_lr: the scan's variables] *)
Record victims := mkVictims {
  pend_found : Z; min_prio_act : Z; min_prio_pend : Z; min_id_act : Z; min_id_pend : Z;
  act_ind : option Z; pend_ind : option Z;
}.

(** src: arch/aarch64/vgicv3.rs 748-775 [add_lr: one register of the scan] *)
Definition victim_step (v : victims) (i l : Z) : victims :=
  let lr_prio := Z.shiftr (Z.land l GICH_LR_PRIO_MSK) 48 in
  let lr_state := Z.land l GICH_LR_STATE_MSK in
  let lr_id := Z.land l GICH_LR_VID_MASK in
  if testm lr_state GICH_LR_STATE_ACT then
    if (min_prio_act v <? lr_prio) || ((lr_prio =? min_prio_act v) && (min_id_act v <? lr_id))
    then mkVictims (pend_found v) lr_prio (min_prio_pend v) lr_id (min_id_pend v) (Some i) (pend_ind v)
    else v
  else if testm lr_state GICH_LR_STATE_PND then
    if (min_prio_pend v <? lr_prio) || ((lr_prio =? min_prio_pend v) && (min_id_pend v <? lr_id))
    then mkVictims (pend_found v + 1) (min_prio_act v) lr_prio (min_id_act v) lr_id (act_ind v) (Some i)
    else mkVictims (pend_found v + 1) (min_prio_act v) (min_prio_pend v) (min_id_act v) (min_id_pend v) (act_ind v) (pend_ind v)
  else v.

Fixpoint scan_victims (idxs : list Z) (v : victims) : M G3 victims :=
  match idxs with
  | [] => m_ret v
  | i :: rest => let! l := gich_lr i in scan_victims rest (victim_step v i l)
  end.

(** src: arch/aarch64/vgicv3.rs 777-782 [add_lr: the choice] *)
Definition choose_victim (v : victims) : option Z := if 1 <? pend_found v then pend_ind v else act_ind v.

(** src: arch/aarch64/vgicv3.rs 738-800 [add_lr: spill a register] *)
Definition spill_lr (vcpu : Vcpu) (r : iref) : M G3 (option Z) :=
  let! i := read_int r in
  let id := ref_id r in
  let! v := scan_victims (zrange 0 (Z.to_nat gic_lrs)) (mkVictims 0 (prio i) (prio i) id id None None) in
  match choose_victim v with
  | None => m_ret None
  | Some idx =>
      let! l := gich_lr idx in
      let! o := get_int vcpu (bit_extract l 0 32) in
      match o with
      | Some spilled => remove_lr vcpu spilled >>; vgic_int_yield_owner core vcpu spilled
      | None => m_ret tt
      end >>;
      m_ret (Some idx)
  end.

(** src: arch/aarch64/vgicv3.rs 721-822 [Vgic::add_lr] *)
Definition add_lr (vcpu : Vcpu) (r : iref) : M G3 bool :=
  let! i := read_int r in
  if negb (enabled i) || in_lr i then m_ret false
  else
    let! status := gich_elrsr in
    let! lr_ind :=
      match first_empty status (zrange 0 (Z.to_nat gic_lrs)) with
      | Some i => m_ret (Some i)
      | None => spill_lr vcpu r
      end in
    match lr_ind with
    | Some idx => write_lr vcpu r idx >>; m_ret true
    | None =>
        let! st := vgic_get_state core r in
        (if testm st 1 then let! h := gich_hcr in gich_set_hcr (Z.lor h GICH_HCR_NPIE_BIT) else m_ret tt) >>;
        m_ret false
    end.

(** ** Routing by affinity *)

(** src: arch/aarch64/vgicv3.rs 1842-1844 [vgic_broadcast] *)
Definition vgic_broadcast (i : VgicInt) : bool := testm (iroute i) GICD_IROUTER_IRM_BIT.

(** The route is that of the core. *)
Definition routed_here (route : Z) : bool := Z.lxor route (Z.land mpidr MPIDR_AFF_MSK) =? 0.

(** src: arch/aarch64/vgicv3.rs 1884-1894 [vgic_int_vcpu_is_target] *)
Definition vgic_int_vcpu_is_target (vcpu : Vcpu) (r : iref) : M G3 bool :=
  let! i := read_int r in
  if gic_is_priv (ref_id r) then
    let! red := m_opt ExplicitPanic (phys_redist i) in m_ret (red =? phys_id vcpu)
  else
    let! route := m_opt ExplicitPanic (phys_route i) in m_ret (routed_here route || vgic_broadcast i).

(** src: arch/aarch64/vgicv3.rs 1896-1910 [vgic_int_has_other_target] *)
Definition vgic_int_has_other_target (r : iref) : M G3 bool :=
  if gic_is_priv (ref_id r) then m_ret false
  else
    let! i := read_int r in
    let! route := m_opt ExplicitPanic (phys_route i) in
    m_ret (vgic_broadcast i || (negb (routed_here route) && negb (route =? GICD_IROUTER_INV))).

(** [(1 << n) as usize]: the literal is an [i32], whose sign the cast extends. *)
Definition i32_bit (n : Z) : Z := let x := shlw 32 1 n in if x <? 2 ^ 31 then x else x + (2 ^ 64 - 2 ^ 32).

(** src: arch/aarch64/vgicv3.rs 1912-1927 [vgic_int_ptarget_mask] *)
Definition vgic_int_ptarget_mask (r : iref) : M G3 Z :=
  let! i := read_int r in
  if vgic_broadcast i then
    let! vm := m_opt UnwrapNone active in m_ret (Z.land (ncpu vm) (notw 64 (shlw 64 1 core)))
  else
    let! route := m_opt ExplicitPanic (phys_route i) in
    m_ret (i32_bit (if rk3588 then Z.shiftr route 8 else route)).

(** The loop that sends a message to every core of a mask. *)
Definition ipi_mask (mask : Z) (m : IpiInitcMessage) : M G3 unit :=
  m_for (zrange 0 (Z.to_nat num)) (fun i => if testm mask (shlw 64 1 i) then emit (EvIpi i m) else m_ret tt).

(** src: arch/aarch64/vgicv3.rs 882-916 [Vgic::route] *)
Definition route (vcpu : Vcpu) (r : iref) : M G3 unit :=
  let! i := read_int r in
  match state i with
  | IrqSInactive => m_ret tt
  | _ =>
      if negb (enabled i) then m_ret tt
      else
        let! here := vgic_int_vcpu_is_target vcpu r in
        (if here : bool then let! _ := add_lr vcpu r in m_ret tt else m_ret tt) >>;
        let! i' := read_int r in
        if in_lr i' then m_ret tt
        else
          let! other := vgic_int_has_other_target r in
          if other : bool then
            vgic_int_yield_owner core vcpu r >>;
            let! mask := vgic_int_ptarget_mask r in
            ipi_mask (Z.land mask (notw 64 (shlw 64 1 (phys_id vcpu)))) (mkInitc VgicdRoute (vcpu_vm_id vcpu) (u16 (ref_id r)) 0)
          else m_ret tt
  end.

(** ** The maintenance interrupt *)

(** src: arch/aarch64/vgicv3.rs 1717-1739 [handle_trapped_eoir: the loop's body]
    [false]: the [continue], with the same list register again. *)
Definition eoir_one (vcpu : Vcpu) (lr_idx : Z) : M G3 bool :=
  let! lr_val := gich_lr lr_idx in
  gich_set_lr lr_idx 0 >>;
  let! o := get_int vcpu (bit_extract lr_val 0 32) in
  match o with
  | None => m_ret false
  | Some r =>
      upd_int r (set_in_lr false) >>;
      (if ref_id r <? GIC_SGIS_NUM then let! _ := add_lr vcpu r in m_ret tt else vgic_int_yield_owner core vcpu r) >>;
      m_ret true
  end.

Fixpoint eoir_loop (fuel : nat) (vcpu : Vcpu) (lr_idx_opt : option Z) : M G3 unit :=
  match lr_idx_opt with
  | None => m_ret tt
  | Some lr_idx =>
      match fuel with
      | O => m_fault FuelOut
      | S fuel' =>
          let! next := eoir_one vcpu lr_idx in
          if next : bool then let! e := gich_eisr in eoir_loop fuel' vcpu (bitmap_find_nth e 0 gic_lrs 1 true)
          else eoir_loop fuel' vcpu (Some lr_idx)
      end
  end.

(** src: arch/aarch64/vgicv3.rs 1711-1743 [Vgic::handle_trapped_eoir] *)
Definition handle_trapped_eoir (fuel : nat) (vcpu : Vcpu) : M G3 unit :=
  let! e := gich_eisr in eoir_loop fuel vcpu (bitmap_find_nth e 0 gic_lrs 1 true).

(** The key by which spilled interrupts are ordered: priority, then number. *)
Definition spill_key (s : G3) (r : iref) : option Z := i ← find_int s r; Some (Z.lor (shlw 32 (prio i) 10) (ref_id r)).

(** [Iterator::min_by_key]: the first of the smallest.  [None]: a pointer to nothing. *)
Fixpoint min_from (key : iref -> option Z) (l : list iref) (best : option (iref * Z)) : option (option iref) :=
  match l with
  | [] => Some (fst <$> best)
  | r :: l' =>
      k ← key r;
      min_from key l' (match best with Some (_, kb) => if k <? kb then Some (r, k) else best | None => Some (r, k) end)
  end.
Definition min_by_key (l : list iref) : M G3 (option iref) :=
  let! s := m_get in m_opt OutOfBounds (min_from (spill_key s) l None).

(** src: arch/aarch64/vgicv3.rs 1745-1768 [Vgic::vgic_highest_proi_spilled] *)
Definition vgic_highest_proi_spilled (vcpu : Vcpu) (flag : bool) : M G3 (option iref) :=
  let! p := read_priv (vcpu_id vcpu) in
  min_by_key (pend_list p ++ (if flag then [] else act_list p)).

(** src: arch/aarch64/vgicv3.rs 1778-1803 [refill_lrs: the loop] *)
Fixpoint refill_loop (fuel : nat) (vcpu : Vcpu) (new_flags : bool) (lr_idx_opt : option Z) : M G3 unit :=
  match lr_idx_opt with
  | None => m_ret tt
  | Some idx =>
      match fuel with
      | O => m_fault FuelOut
      | S fuel' =>
          let! o := vgic_highest_proi_spilled vcpu new_flags in
          match o with
          | Some r =>
              let! got := vgic_int_get_owner vcpu r in
              if got : bool then
                write_lr vcpu r idx >>;
                let! e := gich_elrsr in refill_loop fuel' vcpu false (bitmap_find_nth e 0 gic_lrs 1 true)
              else refill_loop fuel' vcpu new_flags lr_idx_opt
          | None => let! h := gich_hcr in gich_set_hcr (Z.land h (notw 64 (Z.lor GICH_HCR_NPIE_BIT GICH_HCR_UIE_BIT)))
          end
      end
  end.

(** src: arch/aarch64/vgicv3.rs 1770-1804 [Vgic::refill_lrs] *)
Definition refill_lrs (fuel : nat) (vcpu : Vcpu) (flag : bool) : M G3 unit :=
  let! e := gich_elrsr in refill_loop fuel vcpu flag (bitmap_find_nth e 0 gic_lrs 1 true).

(** src: arch/aarch64/vgicv3.rs 1806-1838 [Vgic::eoir_highest_spilled_active] *)
Definition eoir_highest_spilled_active (vcpu : Vcpu) : M G3 unit :=
  let! p := read_priv (vcpu_id vcpu) in
  let! o := min_by_key (act_list p) in
  match o with
  | None => m_ret tt
  | Some r =>
      let! _ := vgic_int_get_owner vcpu r in
      let! i := read_int r in
      let! st := m_opt ExplicitPanic (num_to_state (Z.land (to_num (state i)) (notw 64 2))) in
      upd_int r (set_state st) >>;
      update_int_list vcpu r >>;
      let! is_hw := vgic_int_is_hw r in
      if is_hw : bool then emit (EvSetAct (ref_id r) false (u32 core))
      else
        let! i' := read_int r in
        if pending (state i') then let! _ := add_lr vcpu r in m_ret tt else m_ret tt
  end.

(** src: arch/aarch64/vgicv3.rs 2063-2072 [gic_maintenance_handler: the EOI count] *)
Fixpoint eoi_count_loop (fuel : nat) (vcpu : Vcpu) : M G3 unit :=
  let! h := gich_hcr in
  if testm h GICH_HCR_EOIC_MSK then
    match fuel with
    | O => m_fault FuelOut
    | S fuel' =>
        eoir_highest_spilled_active vcpu >>;
        gich_set_hcr (usize (h - Z.shiftl 1 27)) >>;
        eoi_count_loop fuel' vcpu
    end
  else m_ret tt.

(** src: arch/aarch64/vgicv3.rs 2037-2073 [gic_maintenance_handler]
    [misr] is the value of ICH_MISR_EL2. *)
Definition gic_maintenance_handler (fuel : nat) (vcpu : Vcpu) (misr : Z) : M G3 unit :=
  (if testm misr 1 then handle_trapped_eoir fuel vcpu else m_ret tt) >>;
  (if testm misr 10 then refill_lrs fuel vcpu (testm misr 8) else m_ret tt) >>;
  (if testm misr 4 then eoi_count_loop fuel vcpu else m_ret tt).
End list_registers.
