(* ===== verification/Gic3Dist.v ===== *)
(** * Gic3Dist: distributor and redistributors of the emulated GICv3 ([arch/aarch64/vgicv3.rs])

    The operations on one interrupt, which act when this vCPU owns it and otherwise send a message to the owner's core;
    the emulation of every register of the distributor ([Vgic::handler]) and of the redistributors
    ([VgicRedis::handler]); the system registers that send SGIs; the handler of messages; the initial state. *)
From S2P Require Import Prelude Bits Vm VgicState VgicDist Gic3State Gic3Lr.

Section operations.
Context (core mpidr gic_lrs num : Z) (rk3588 : bool) (elrsr : list Z -> Z) (active : option Vm).

#[local] Abbreviation remove_lr := (remove_lr core).
#[local] Abbreviation add_lr := (add_lr core gic_lrs elrsr).
#[local] Abbreviation route := (route core mpidr gic_lrs num rk3588 elrsr active).
#[local] Abbreviation yield_owner := (vgic_int_yield_owner core).

(** Send a message to the core of the interrupt's owner. *)
Definition ipi_owner (i : VgicInt) (m : IpiInitcMessage) : M G3 unit :=
  let! p := m_opt UnwrapNone (owner_phys_id i) in emit (EvIpi p m).
Definition msg (e : InitcEvent) (vcpu : Vcpu) (r : iref) (v : Z) : IpiInitcMessage := mkInitc e (vcpu_vm_id vcpu) (u16 (ref_id r)) v.

(** What is asked of the physical controller: the redistributor for a private interrupt, the distributor for a shared one. *)
Definition phys_ask (r : iref) (i : VgicInt) (priv : Z -> g3_event) (shared : g3_event) : M G3 unit :=
  if gic_is_priv (ref_id r) then let! red := m_opt ExplicitPanic (phys_redist i) in emit (priv (u32 red)) else emit shared.

(** src: arch/aarch64/vgicv3.rs 588-602 [vgicd_set_irouter: the physical route] *)
Definition irouter_phys (vcpu : Vcpu) (vm : Vm) (val : Z) : Z :=
  if testm val GICD_IROUTER_IRM_BIT then cpuid2mpidr rk3588 (phys_id vcpu)
  else match get_vcpu_by_mpidr rk3588 vm (Z.land val MPIDR_AFF_MSK) with
       | Some v => Z.land (cpuid2mpidr rk3588 (phys_id v)) MPIDR_AFF_MSK
       | None => GICD_IROUTER_INV
       end.

(** src: arch/aarch64/vgicv3.rs 581-630 [Vgic::vgicd_set_irouter]
    [vm] is the vCPU's. *)
Definition vgicd_set_irouter (vm : Vm) (vcpu : Vcpu) (int_id val : Z) : M G3 unit :=
  let! o := get_int vcpu int_id in
  match o with
  | None => m_ret tt
  | Some r =>
      let! own := vgic_int_get_owner vcpu r in
      if own : bool then
        remove_lr vcpu r >>;
        let p := irouter_phys vcpu vm val in
        upd_int r (set_phys_route p) >>;
        upd_int r (set_route_field (Z.land val GICD_IROUTER_RES0_MSK)) >>;
        let! i := read_int r in
        (if hw i then emit (EvRoute int_id p) else m_ret tt) >>;
        route vcpu r >>;
        yield_owner vcpu r
      else let! i := read_int r in ipi_owner i (msg VgicdRoute vcpu r (u8 val))
  end.

(** src: arch/aarch64/vgicv3.rs 918-966 [Vgic::set_enable] *)
Definition set_enable (vcpu : Vcpu) (int_id : Z) (en : bool) : M G3 unit :=
  let! o := get_int vcpu int_id in
  match o with
  | None => m_ret tt
  | Some r =>
      let! own := vgic_int_get_owner vcpu r in
      if own : bool then
        let! i := read_int r in
        (if xorb (enabled i) en then
           upd_int r (set_enabled en) >>;
           remove_lr vcpu r >>;
           let! i' := read_int r in
           (if hw i' then phys_ask r i' (EvGicrEnable (ref_id r) en) (EvGicdEnable (ref_id r) en) else m_ret tt)
         else m_ret tt) >>;
        route vcpu r >>;
        yield_owner vcpu r
      else let! i := read_int r in ipi_owner i (msg VgicdSetEn vcpu r (if en then 1 else 0))
  end.

(** src: arch/aarch64/vgicv3.rs 968-970 [Vgic::get_enable] *)
Definition get_enable (vcpu : Vcpu) (int_id : Z) : M G3 bool :=
  let! o := get_int vcpu int_id in let! r := m_opt UnwrapNone o in let! i := read_int r in m_ret (enabled i).

(** The owner's part of [set_pend] and [set_active]: the bit [b] of the state; [told] is what the physical controller
    gets for a state. *)
Definition change_state (vcpu : Vcpu) (r : iref) (b : Z) (on : bool) (told : Z -> Z) : M G3 unit :=
  remove_lr vcpu r >>;
  let! i := read_int r in
  let! st := m_opt ExplicitPanic (num_to_state (change_bit (to_num (state i)) b on)) in
  upd_int r (set_state st) >>;
  let! i' := read_int r in
  let n := told (to_num (state i')) in
  (if hw i' then phys_ask r i' (EvSetState (ref_id r) n) (EvSetState (ref_id r) n 0) else m_ret tt) >>;
  route vcpu r >>;
  yield_owner vcpu r.

(** src: arch/aarch64/vgicv3.rs 972-1035 [Vgic::set_pend] *)
Definition set_pend (vcpu : Vcpu) (int_id : Z) (pend : bool) : M G3 unit :=
  let! o := get_int vcpu int_id in
  match o with
  | None => m_ret tt
  | Some r =>
      let! own := vgic_int_get_owner vcpu r in
      if own : bool then change_state vcpu r 1 pend (fun n => n)
      else
        let! i := read_int r in
        match owner i with
        | Some w => emit (EvIpi (phys_id w) (msg VgicdSetPend vcpu r (if pend then 1 else 0)))
        | None => m_fault ExplicitPanic
        end
  end.

(** src: arch/aarch64/vgicv3.rs 1037-1095 [Vgic::set_active] *)
Definition set_active (vcpu : Vcpu) (int_id : Z) (act : bool) : M G3 unit :=
  let! o := get_int vcpu (bit_extract int_id 0 10) in
  match o with
  | None => m_ret tt
  | Some r =>
      let! own := vgic_int_get_owner vcpu r in
      if own : bool then change_state vcpu r 2 act (fun n => if n =? 1 then 2 else n)
      else let! i := read_int r in ipi_owner i (msg VgicdSetPend vcpu r (if act then 1 else 0))
  end.

(** src: arch/aarch64/vgicv3.rs 1097-1138 [Vgic::set_icfgr] *)
Definition set_icfgr (vcpu : Vcpu) (int_id c : Z) : M G3 unit :=
  let! o := get_int vcpu int_id in
  match o with
  | None => m_fault ExplicitPanic
  | Some r =>
      let! own := vgic_int_get_owner vcpu r in
      if own : bool then
        upd_int r (set_cfg c) >>;
        let! i := read_int r in
        (if hw i then phys_ask r i (EvGicrIcfgr (ref_id r) c) (EvGicdIcfgr (ref_id r) c) else m_ret tt) >>;
        route vcpu r >>;
        yield_owner vcpu r
      else let! i := read_int r in ipi_owner i (msg VgicdSetCfg vcpu r c)
  end.

(** src: arch/aarch64/vgicv3.rs 1140-1146 [Vgic::get_icfgr] *)
Definition get_icfgr (vcpu : Vcpu) (int_id : Z) : M G3 Z :=
  let! o := get_int vcpu int_id in
  match o with Some r => let! i := read_int r in m_ret (cfg i) | None => m_fault ExplicitPanic end.

(** src: arch/aarch64/vgicv3.rs 1148-1197 [Vgic::set_prio] *)
Definition set_prio (vcpu : Vcpu) (int_id p : Z) : M G3 unit :=
  let! o := get_int vcpu int_id in
  match o with
  | None => m_ret tt
  | Some r =>
      let p := Z.land p 0xf0 in
      let! own := vgic_int_get_owner vcpu r in
      if own : bool then
        let! i := read_int r in
        (if prio i =? p then m_ret tt
         else
           remove_lr vcpu r >>;
           let! i1 := read_int r in
           let prev := prio i1 in
           upd_int r (set_prio_field p) >>;
           (if p <=? prev then route vcpu r else m_ret tt) >>;
           let! i2 := read_int r in
           (if hw i2 then phys_ask r i2 (EvGicrPrio (ref_id r) p) (EvGicdPrio (ref_id r) p) else m_ret tt)) >>;
        yield_owner vcpu r
      else let! i := read_int r in ipi_owner i (msg VgicdSetPrio vcpu r p)
  end.

(** src: arch/aarch64/vgicv3.rs 1199-1201 [Vgic::get_prio] *)
Definition get_prio (vcpu : Vcpu) (int_id : Z) : M G3 Z :=
  let! o := get_int vcpu int_id in let! r := m_opt UnwrapNone o in let! i := read_int r in m_ret (prio i).

(** src: arch/aarch64/vgicv3.rs 1203-1220 [Vgic::inject] *)
Definition inject (vcpu : Vcpu) (int_id : Z) : M G3 unit :=
  let! o := get_int vcpu (bit_extract int_id 0 10) in
  match o with
  | None => m_ret tt
  | Some r =>
      let! i := read_int r in
      if hw i then
        upd_int r (fun i => set_in_lr false (set_state IrqSPend (set_owner vcpu i))) >>;
        update_int_list vcpu r >>;
        route vcpu r
      else set_pend vcpu int_id true
  end.

(** ** Messages *)

(** src: arch/aarch64/vgicv3.rs 2303-2315 [vgic_ipi_handler: VgicdRoute] *)
Definition ipi_route (vcpu : Vcpu) (int_id : Z) : M G3 unit :=
  let! o := get_int vcpu (bit_extract int_id 0 10) in
  match o with
  | None => m_ret tt
  | Some r =>
      let! own := vgic_int_get_owner vcpu r in
      if own : bool then
        let! here := vgic_int_vcpu_is_target mpidr vcpu r in
        (if here : bool then let! _ := add_lr vcpu r in m_ret tt else m_ret tt) >>;
        yield_owner vcpu r
      else m_ret tt
  end.

(** src: arch/aarch64/vgicv3.rs 2251-2337 [vgic_ipi_handler]
    For the vCPU of the message's VM on this core, with its virtual interface loaded. *)
Definition vgic_ipi_handler (vm : Vm) (vcpu : Vcpu) (m : IpiInitcMessage) : M G3 unit :=
  if negb (msg_vm_id m =? vm_id vm) then m_ret tt
  else
    let id := msg_int_id m in
    let on := negb (msg_val m =? 0) in
    match event m with
    | VgicdGichEn =>
        let! h := gich_hcr in gich_set_hcr (if on then Z.lor h GICH_HCR_EN_BIT else Z.land h (notw 64 GICH_HCR_EN_BIT))
    | VgicdSetEn => set_enable vcpu id on
    | VgicdSetPend => set_pend vcpu id on
    | VgicdSetPrio => set_prio vcpu id (msg_val m)
    | VgicdSetCfg => set_icfgr vcpu id (msg_val m)
    | VgicdRoute => ipi_route vcpu id
    | Vgicdinject => emit (EvVmInject vcpu id)
    | _ => m_ret tt
    end.
End operations.

(** ** Registers *)

Section registers.
(** The active vCPU and its VM; what the physical controller answers: GICD_CTLR and the identification registers, the
    control, identification and LPI registers of the redistributors; the physical base of the redistributors. *)
Context (core mpidr gic_lrs num : Z) (rk3588 : bool) (elrsr : list Z -> Z) (vcpu : Vcpu) (vm : Vm).
Context (hw_ctlr : Z) (hw_id : Z -> Z) (gicr_ctrl : Z -> Z) (gicr_id : Z -> Z -> Z) (gicr_propbaser gicr_pendbaser : Z -> Z).
Context (gicr_addr : Z).

#[local] Abbreviation set_enable := (set_enable core mpidr gic_lrs num rk3588 elrsr (Some vm) vcpu).
#[local] Abbreviation set_pend := (set_pend core mpidr gic_lrs num rk3588 elrsr (Some vm) vcpu).
#[local] Abbreviation set_active := (set_active core mpidr gic_lrs num rk3588 elrsr (Some vm) vcpu).
#[local] Abbreviation set_icfgr := (set_icfgr core mpidr gic_lrs num rk3588 elrsr (Some vm) vcpu).
#[local] Abbreviation set_prio := (set_prio core mpidr gic_lrs num rk3588 elrsr (Some vm) vcpu).
#[local] Abbreviation vgicd_set_irouter := (vgicd_set_irouter core mpidr gic_lrs num rk3588 elrsr (Some vm) vm vcpu).

Definition vm_has_int (i : Z) : M G3 bool :=
  let! b := m_opt OutOfBounds (has_interrupt vm i) in m_ret (b || emu_has_interrupt vm i).
Fixpoint any_int (ids : list Z) : M G3 bool :=
  match ids with
  | [] => m_ret false
  | i :: rest => let! b := vm_has_int i in if b : bool then m_ret true else any_int rest
  end.

(** The register of the access when it is a write, else 0; the positions below [n]. *)
Definition written (c : EmuContext) : M G3 Z := if write c then get_gpr (reg c) else m_ret 0.
Definition upto (n : Z) : list Z := zrange 0 (Z.to_nat n).
Definition bits_of (c : EmuContext) : Z := usize (width c * 8).

Fixpoint read_bits (f : Z -> M G3 bool) (first : Z) (ids : list Z) (val : Z) : M G3 Z :=
  match ids with
  | [] => m_ret val
  | i :: rest => let! b := f (first + i) in read_bits f first rest (if b : bool then Z.lor val (shlw 64 1 i) else val)
  end.
Fixpoint read_fields (f : Z -> M G3 Z) (bits first : Z) (ks : list Z) (val : Z) : M G3 Z :=
  match ks with
  | [] => m_ret val
  | k :: rest => let! x := f (first + k) in read_fields f bits first rest (Z.lor val (shlw 64 x (bits * k)))
  end.
Definition write_bits (f : Z -> M G3 unit) (first val n : Z) : M G3 unit :=
  m_for (upto n) (fun i => if bit_get val i =? 0 then m_ret tt else f (first + i)).

(** None of the interrupts [first..first+n) is the VM's, for a register that is not that of the SGIs. *)
Definition none_of_vm (first n : Z) : M G3 bool :=
  let! has := any_int (zrange first (Z.to_nat n)) in m_ret ((16 <=? first) && negb has).

Definition low16 (c : EmuContext) : Z := Z.land (address c) 0xffff.

(** src: arch/aarch64/vgicv3.rs 1222-1226 [Vgic::emu_razwi] *)
Definition emu_razwi (c : EmuContext) : M G3 unit := if write c then m_ret tt else set_gpr (reg c) 0.

(** src: arch/aarch64/vgicv3.rs 1228-1255 [Vgic::emu_irouter_access] *)
Definition emu_irouter_access (c : EmuContext) : M G3 unit :=
  let first := usize (bit_extract (address c) 0 16 - 0x6000) / 8 in
  let! val := written c in
  if write c then vgicd_set_irouter first val
  else
    let! v :=
      if gic_is_priv first then m_ret val
      else let! o := get_int vcpu first in let! r := m_opt UnwrapNone o in let! i := read_int r in m_ret (iroute i) in
    set_gpr (reg c) v.

(** src: arch/aarch64/vgicv3.rs 1257-1291 [Vgic::emu_ctrl_access] *)
Definition emu_ctrl_access (c : EmuContext) : M G3 unit :=
  if write c then
    let! prev := m_gets ctlr in
    let! v := get_gpr (reg c) in
    m_modify (with_ctlr (Z.lor (Z.land (u32 v) 2) GICD_CTLR_ARE_NS_BIT)) >>;
    let! cur := m_gets ctlr in
    if Z.lxor prev cur =? 0 then m_ret tt
    else
      let enable := negb (cur =? 0) in
      let! h := gich_hcr in
      gich_set_hcr (if enable then Z.lor h GICH_HCR_EN_BIT else Z.land h (notw 64 GICH_HCR_EN_BIT)) >>;
      emit (EvBroadcast (vm_id vm) (mkInitc VgicdGichEn (vm_id vm) 0 (if enable then 1 else 0)))
  else let! v := m_gets ctlr in set_gpr (reg c) (Z.lor v hw_ctlr).

(** src: arch/aarch64/vgicv3.rs 1293-1301 [Vgic::emu_typer_access] *)
Definition emu_typer_access (c : EmuContext) : M G3 unit := if write c then m_ret tt else let! v := m_gets typer in set_gpr (reg c) v.
(** src: arch/aarch64/vgicv3.rs 1303-1311 [Vgic::emu_iidr_access] *)
Definition emu_iidr_access (c : EmuContext) : M G3 unit := if write c then m_ret tt else let! v := m_gets iidr in set_gpr (reg c) v.

(** src: arch/aarch64/vgicv3.rs 1313-1366 [Vgic::emu_isenabler_access] *)
Definition emu_isenabler_access (c : EmuContext) : M G3 unit :=
  let first := usize (low16 c - 0x100) * 8 in
  let! val := written c in
  let! none := none_of_vm first (bits_of c) in
  if none : bool then m_ret tt
  else if write c then write_bits (fun i => set_enable i true) first val (bits_of c)
  else let! v := read_bits (get_enable vcpu) first (upto (bits_of c)) val in set_gpr (reg c) v.

(** src: arch/aarch64/vgicv3.rs 1506-1561 [Vgic::emu_icenabler_access] *)
Definition emu_icenabler_access (c : EmuContext) : M G3 unit :=
  let first := usize (low16 c - 0x180) * 8 in
  let! val := written c in
  if write c then
    let! none := none_of_vm first 32 in
    if none : bool then m_ret tt else write_bits (fun i => set_enable i false) first val (bits_of c)
  else let! v := read_bits (get_enable vcpu) first (upto (bits_of c)) val in set_gpr (reg c) v.

(** A bit of the state of an interrupt, as the guest reads it. *)
Definition get_state_bit (b int_id : Z) : M G3 bool :=
  let! o := get_int vcpu int_id in
  match o with None => m_fault ExplicitPanic | Some r => let! st := vgic_get_state core r in m_ret (testm st b) end.

(** src: arch/aarch64/vgicv3.rs 1368-1416 [Vgic::emu_pendr_access] *)
Definition emu_pendr_access (c : EmuContext) (set : bool) : M G3 unit :=
  let first := usize (low16 c - (if set then 0x200 else 0x280)) * 8 in
  let! val := written c in
  if write c then write_bits (fun i => set_pend i set) first val (bits_of c)
  else let! v := read_bits (get_state_bit 1) first (upto 32) val in set_gpr (reg c) v.

(** src: arch/aarch64/vgicv3.rs 1418-1425 [Vgic::emu_pidr_access] *)
Definition emu_pidr_access (c : EmuContext) : M G3 unit :=
  if write c then m_ret tt else set_gpr (reg c) (hw_id (usize (Z.land (address c) 0xff - 0xd0) / 4)).

(** src: arch/aarch64/vgicv3.rs 1427-1429 [Vgic::emu_ispendr_access] *)
Definition emu_ispendr_access (c : EmuContext) : M G3 unit := emu_pendr_access c true.
(** src: arch/aarch64/vgicv3.rs 1563-1565 [Vgic::emu_icpendr_access] *)
Definition emu_icpendr_access (c : EmuContext) : M G3 unit := emu_pendr_access c false.

(** src: arch/aarch64/vgicv3.rs 1431-1500 [Vgic::emu_activer_access] *)
Definition emu_activer_access (c : EmuContext) (set : bool) : M G3 unit :=
  let first := usize (8 * usize (low16 c - (if set then 0x300 else 0x380))) in
  let! val := written c in
  let! none := none_of_vm first (bits_of c) in
  if none : bool then m_ret tt
  else if write c then write_bits (fun i => set_active i set) first val (bits_of c)
  else let! v := read_bits (get_state_bit 2) first (upto (bits_of c)) val in set_gpr (reg c) v.

(** src: arch/aarch64/vgicv3.rs 1502-1504 [Vgic::emu_isactiver_access] *)
Definition emu_isactiver_access (c : EmuContext) : M G3 unit := emu_activer_access c true.
(** src: arch/aarch64/vgicv3.rs 1567-1569 [Vgic::emu_icativer_access] *)
Definition emu_icativer_access (c : EmuContext) : M G3 unit := emu_activer_access c false.

(** src: arch/aarch64/vgicv3.rs 1571-1583 [Vgic::emu_probaser_access] *)
Definition emu_probaser_access (c : EmuContext) : M G3 unit :=
  if write c then let! v := get_gpr (reg c) in emit (EvPropbaser core v) else set_gpr (reg c) (gicr_propbaser core).
(** src: arch/aarch64/vgicv3.rs 1585-1597 [Vgic::emu_pendbaser_access] *)
Definition emu_pendbaser_access (c : EmuContext) : M G3 unit :=
  if write c then let! v := get_gpr (reg c) in emit (EvPendbaser core v) else set_gpr (reg c) (gicr_pendbaser core).

(** src: arch/aarch64/vgicv3.rs 1599-1655 [Vgic::emu_icfgr_access] *)
Definition emu_icfgr_access (c : EmuContext) : M G3 unit :=
  let first := usize (usize (low16 c - 0xc00) * 8) / GIC_CONFIG_BITS in
  let ks := upto ((bits_of c + 1) / 2) in
  if write c then
    let! none := none_of_vm first (bits_of c) in
    if none : bool then m_ret tt
    else let! v := get_gpr (reg c) in m_for ks (fun k => set_icfgr (first + k) (u8 (bit_extract v (2 * k) 2)))
  else let! v := read_fields (get_icfgr vcpu) 2 first ks 0 in set_gpr (reg c) v.

(** src: arch/aarch64/vgicv3.rs 1657-1709 [Vgic::emu_ipriorityr_access] *)
Definition emu_ipriorityr_access (c : EmuContext) : M G3 unit :=
  let first := usize (usize (low16 c - 0x400) * 8) / GIC_PRIO_BITS in
  let! val := written c in
  if write c then
    let! none := none_of_vm first (width c) in
    if none : bool then m_ret tt
    else m_for (upto (width c)) (fun k => set_prio (first + k) (u8 (bit_extract val (GIC_PRIO_BITS * k) GIC_PRIO_BITS)))
  else let! v := read_fields (get_prio vcpu) GIC_PRIO_BITS first (upto (width c)) val in set_gpr (reg c) v.

(** ** Dispatch *)

(** src: arch/aarch64/vgicv3.rs 2215-2249 [vgicd_emu_access_is_vaild] *)
Definition vgicd_emu_access_is_vaild (c : EmuContext) : bool :=
  let offset := low16 c in
  let prefix := Z.shiftr (Z.land offset 0xff80) 7 in
  if existsb (Z.eqb prefix) [0; 2; 4; 6; 3; 5; 7; 0x18] then negb (negb (width c =? 4) || testm (address c) 3)
  else if prefix =? 0x1e then
    negb (((width c =? 4) && testm (address c) 3) || ((width c =? 2) && testm (address c) 1))
  else
    negb ((0x400 <=? offset) && (offset <? 0xc00) &&
          (((width c =? 4) && testm (address c) 3) || ((width c =? 2) && testm (address c) 1))).

(** src: arch/aarch64/vgicv3.rs 2094-2167 [Vgic::handler] *)
Definition handler (c : EmuContext) : M G3 bool :=
  let offset := low16 c in
  let prefix := Z.shiftr offset 7 in
  if negb (vgicd_emu_access_is_vaild c) then m_ret false
  else
    (if prefix =? 2 then emu_isenabler_access c
     else if prefix =? 4 then emu_ispendr_access c
     else if prefix =? 6 then emu_isactiver_access c
     else if prefix =? 3 then emu_icenabler_access c
     else if prefix =? 5 then emu_icpendr_access c
     else if prefix =? 7 then emu_icativer_access c
     else if prefix =? 0x18 then emu_icfgr_access c
     else if offset =? 0 then emu_ctrl_access c
     else if offset =? 4 then emu_typer_access c
     else if offset =? 8 then emu_iidr_access c
     else if offset =? 0xf00 then emu_razwi c
     else if (0x400 <=? offset) && (offset <? 0x800) then emu_ipriorityr_access c
     else if (0x800 <=? offset) && (offset <? 0xc00) then emu_razwi c
     else if (0x6000 <=? offset) && (offset <? 0x8000) then emu_irouter_access c
     else if (0xffd0 <=? offset) && (offset <? 0x10000) then emu_pidr_access c
     else emu_razwi c) >>;
    m_ret true.

(** *** Redistributors *)

(** src: arch/aarch64/vgicv3.rs 1847-1850 [vgicr_get_id] *)
Definition vgicr_get_id (c : EmuContext) : Z := u32 (usize (address c - gicr_addr) / 0x20000).

(** src: arch/aarch64/vgicv3.rs 2429-2441 [VgicRedis::vgicr_emul_ctrl_access] *)
Definition vgicr_emul_ctrl_access (c : EmuContext) : M G3 unit :=
  if write c then let! v := get_gpr (reg c) in emit (EvGicrCtlr core v) else set_gpr (reg c) (gicr_ctrl (u32 core)).

(** src: arch/aarch64/vgicv3.rs 571-579 [Vgic::vgicr_emul_typer_access] *)
Definition vgicr_emul_typer_access (c : EmuContext) (id : Z) : M G3 unit :=
  if write c then m_ret tt else let! p := read_priv id in set_gpr (reg c) (r_typer (vigcr p)).

(** src: arch/aarch64/vgicv3.rs 1863-1882 [vgicr_emul_pidr_access] *)
Definition vgicr_emul_pidr_access (c : EmuContext) (id : Z) : M G3 unit :=
  if write c then m_ret tt
  else match vcpuid_to_pcpuid vm id with
       | Some p => set_gpr (reg c) (gicr_id (u32 p) (usize (Z.land (address c) 0xff - 0xd0) / 4))
       | None => m_ret tt
       end.

(** src: arch/aarch64/vgicv3.rs 2453-2513 [VgicRedis::handler] *)
Definition redist_handler (c : EmuContext) : M G3 bool :=
  let id := vgicr_get_id c in
  let offset := Z.land (address c) 0x1ffff in
  (if offset =? 0 then vgicr_emul_ctrl_access c
   else if offset =? 8 then vgicr_emul_typer_access c id
   else if offset =? 0x10100 then emu_isenabler_access c
   else if offset =? 0x10200 then emu_ispendr_access c
   else if offset =? 0x10300 then emu_isactiver_access c
   else if offset =? 0x10180 then emu_icenabler_access c
   else if offset =? 0x10280 then emu_icpendr_access c
   else if offset =? 0x10380 then emu_icativer_access c
   else if (offset =? 0x10c00) || (offset =? 0x10c04) then emu_icfgr_access c
   else if offset =? 0x70 then emu_probaser_access c
   else if offset =? 0x78 then emu_pendbaser_access c
   else if (0x10400 <=? offset) && (offset <? 0x10420) then emu_ipriorityr_access c
   else if (0xffd0 <=? offset) && (offset <? 0x10000) then vgicr_emul_pidr_access c id
   else emu_razwi c) >>;
  m_ret true.

(** *** System registers *)

(** src: arch/aarch64/vgicv3.rs 2602-2607 [vgic_icc_sre_handler] *)
Definition vgic_icc_sre_handler (c : EmuContext) : M G3 bool :=
  (if write c then m_ret tt else set_gpr (reg c) 1) >>; m_ret true.

(** src: arch/aarch64/vgicv3.rs 1929-1950 [vgic_target_translate] *)
Definition vgic_target_translate (trgt : Z) (v2p : bool) : Z :=
  foldl (fun result idx =>
    let x := Z.land (Z.shiftr trgt (8 * idx)) 0xff in
    let v := u32 (if v2p then vcpu_to_pcpu_mask vm x 8 else pcpu_to_vcpu_mask vm x 8) in
    Z.lor result (shlw 32 v (8 * idx))) 0 [0; 1; 2; 3].

(** src: arch/aarch64/vgicv3.rs 2609-2621 [vgic_send_sgi_msg] *)
Definition vgic_send_sgi_msg (pcpu_mask int_id : Z) : M G3 unit :=
  m_for (zrange 0 (Z.to_nat num)) (fun i =>
    if testm pcpu_mask (shlw 64 1 i) then emit (EvIpi i (mkInitc Vgicdinject (vm_id vm) (u16 int_id) 1)) else m_ret tt).

(** src: arch/aarch64/vgicv3.rs 2628-2650 [vgic_icc_sgir_handler: the targets] *)
Definition sgi_targets (sgir : Z) : Z :=
  if testm sgir GICC_SGIR_IRM_BIT then Z.land (ncpu vm) (notw 64 (shlw 64 1 core))
  else
    let vtarget := Z.land sgir 0xffff in
    let vtarget :=
      if testm sgir 0xff0000 && rk3588 then shlw 64 vtarget (Z.shiftr (Z.land sgir 0xf0000) 16) else vtarget in
    vgic_target_translate (u32 vtarget) true.

(** src: arch/aarch64/vgicv3.rs 2623-2658 [vgic_icc_sgir_handler] *)
Definition vgic_icc_sgir_handler (c : EmuContext) : M G3 bool :=
  (if write c then
     let! sgir := get_gpr (reg c) in vgic_send_sgi_msg (sgi_targets sgir) (bit_extract sgir 24 4)
   else m_ret tt) >>;
  m_ret true.
End registers.

(** src: arch/aarch64/vgicv3.rs 2577-2600 [vgic_set_hw_int]
    For a VM with an emulated controller. *)
Definition vgic_set_hw_int (vm : Vm) (int_id : Z) : M G3 unit :=
  let mark v := (let! o := get_int v int_id in match o with Some r => upd_int r (set_hw true) | None => m_ret tt end) in
  if int_id <? GIC_SGIS_NUM then m_ret tt
  else if int_id <? GIC_PRIVINT_NUM then
    m_for (zrange 0 (Z.to_nat (cpu_num (cpu_cfg vm)))) (fun i => let! v := m_opt UnwrapNone (Vm.vcpu vm i) in mark v)
  else let! v := m_opt UnwrapNone (Vm.vcpu vm 0) in mark v.

(** src: arch/aarch64/vgicv3.rs 2358-2383 [emu_intc_init: GICR_TYPER of a vCPU] *)
Definition redist_typer (vcpu_num : Z) (v : Vcpu) (vmpidr : Z) : Z :=
  let typer := shlw 64 (vcpu_id v) 8 in
  let typer := Z.lor typer (shlw 64 (Z.land vmpidr MPIDR_AFF_MSK) 32) in
  let typer := Z.lor typer (shlw 64 (if vcpu_id v =? usize (vcpu_num - 1) then 1 else 0) 4) in
  Z.lor typer 0x21.

(** src: arch/aarch64/vgicv3.rs 2384-2408 [emu_intc_init: the private interrupts of a vCPU] *)
Definition priv_ints_new (v : Vcpu) : list VgicInt :=
  (fun k => if k <? GIC_SGIS_NUM then int_priv_new v (shlw 64 1 (phys_id v)) true (phys_id v) 2
            else int_priv_new v (shlw 64 1 (phys_id v)) false (phys_id v) 0) <$> zrange 0 32.

(** src: arch/aarch64/vgicv3.rs 2340-2414 [emu_intc_init]
    [hw_typer], [hw_iidr], [gicr_ctrl], [gicr_iidr]: registers of the physical controller; [vmpidr]: the guest's view of a
    vCPU's affinity; [h], [l], [g]: the virtual interface and the registers of the core. *)
Definition emu_intc_init (hw_typer hw_iidr : Z) (gicr_ctrl gicr_iidr : Z -> Z) (vmpidr : Vcpu -> Z) (vcpus : list Vcpu)
    (h : Z) (l g : list Z) : G3 :=
  mkG3 2
    (Z.lor (Z.land hw_typer (notw 32 (Z.lor GICD_TYPER_CPUNUM_MSK GICD_TYPER_LPIS)))
       (u32 (Z.land (shlw 64 (usize (zlen vcpus - 1)) 5) GICD_TYPER_CPUNUM_MSK)))
    hw_iidr
    (replicate (Z.to_nat GIC_SPI_MAX) int_new)
    ((fun v => cpu_priv_new (redist_typer (zlen vcpus) v (vmpidr v)) (gicr_ctrl (phys_id v)) (gicr_iidr (phys_id v))
                 (priv_ints_new v)) <$> vcpus)
    h l g [].
