(* ===== verification/Gic3Props.v ===== *)
(** * Gic3Props: queue consistency of the emulated GICv3

    The controller as an instance of [IntQueues], what its operations keep, and the controller as a state machine. *)
From stdpp Require Import list.
From S2P Require Import Prelude Bits Vm VgicState VgicDist IntQueues Gic3State Gic3Lr Gic3Dist.

#[export] Instance g3_queues : QueueOps G3 VgicInt VgicCpuPriv := {
  privs := cpu_priv; set_privs := with_priv; shared := spis; set_shared := with_spis;
  p_ints := priv_ints; set_p_ints := put_priv_ints;
  q_list := fun b p => if b then pend_list p else act_list p;
  q_put := fun b l p => if b then put_pend_list l p else put_act_list l p;
  q_flag := fun b i => if b then in_pend i else in_act i;
  q_set := fun b x i => if b then set_in_pend_state x i else set_in_act_state x i;
}.
#[export] Instance g3_queue_laws : QueueLaws g3_queues.
Proof. split; try done; by intros [] []. Qed.

Definition q3_bit (b : bool) (i : VgicInt) : bool := if b then pending (state i) else active (state i).
Abbreviation g3_inv := (queues_ok (Q:=g3_queues)).
Abbreviation ref_ok vcpu r := (local (vcpu_id vcpu) r).

(** ** The primitives *)

Lemma g3_keeps_upd_int r f : (forall i b, q_flag b (f i) = q_flag b i) -> m_keeps g3_inv (upd_int r f).
Proof. exact (keeps_q_upd_int (Q:=g3_queues) r f). Qed.
Lemma g3_keeps_upd_priv c f :
  (forall p, priv_ints (f p) = priv_ints p) -> (forall b p, q_list b (f p) = q_list b p) -> m_keeps g3_inv (upd_priv c f).
Proof. exact (keeps_q_upd_priv (Q:=g3_queues) c f). Qed.
#[export] Hint Extern 4 (m_keeps g3_inv (upd_int _ _)) => (apply g3_keeps_upd_int; by intros ? []) : keeps.
#[export] Hint Extern 4 (m_keeps g3_inv (upd_priv _ _)) => (apply g3_keeps_upd_priv; [done|by intros []]) : keeps.
#[export] Hint Extern 5 (m_keeps _ _) => (apply reads_keeps; solve [reads_tac]) : keeps.

Lemma g3_keeps_update_int_list vcpu r : ref_ok vcpu r -> m_keeps g3_inv (update_int_list vcpu r).
Proof.
  intros Hr. apply keeps_bind; [|intros _].
  - exact (keeps_update_q (Q:=g3_queues) true (q3_bit true) vcpu r Hr).
  - exact (keeps_update_q (Q:=g3_queues) false (q3_bit false) vcpu r Hr).
Qed.

Lemma g3_reads_read_int r : m_reads (read_int r).
Proof. unfold read_int. reads_tac. Qed.
Lemma g3_reads_read_priv c : m_reads (read_priv c).
Proof. unfold read_priv. reads_tac. Qed.
#[export] Hint Resolve g3_reads_read_int g3_reads_read_priv : reads.
Lemma g3_reads_gich_lr i : m_reads (gich_lr i).
Proof. unfold gich_lr. reads_tac. Qed.
Lemma g3_reads_gich_hcr : m_reads gich_hcr.
Proof. unfold gich_hcr. reads_tac. Qed.
Lemma g3_reads_get_gpr i : m_reads (get_gpr i).
Proof. unfold get_gpr. reads_tac. Qed.
Lemma g3_reads_curr_lrs c i : m_reads (cpu_priv_curr_lrs c i).
Proof. unfold cpu_priv_curr_lrs. reads_tac. Qed.
Lemma g3_reads_get_int v i : m_reads (get_int v i).
Proof. unfold get_int, cpu_priv_interrupt, vgicd_interrupt. reads_tac. Qed.
Lemma g3_reads_owns v r : m_reads (vgic_owns v r).
Proof. unfold vgic_owns. reads_tac. Qed.
Lemma g3_reads_is_hw r : m_reads (vgic_int_is_hw r).
Proof. unfold vgic_int_is_hw. reads_tac. Qed.
#[export] Hint Resolve g3_reads_gich_lr g3_reads_gich_hcr g3_reads_get_gpr g3_reads_curr_lrs g3_reads_get_int g3_reads_owns g3_reads_is_hw : reads.
Lemma g3_reads_gich_get_lr core r : m_reads (gich_get_lr core r).
Proof. unfold gich_get_lr. reads_tac. Qed.
#[export] Hint Resolve g3_reads_gich_get_lr : reads.
Lemma g3_reads_get_state core r : m_reads (vgic_get_state core r).
Proof. unfold vgic_get_state. reads_tac. Qed.
#[export] Hint Resolve g3_reads_get_state : reads.

Lemma g3_keeps_emit e : m_keeps g3_inv (emit e).
Proof. by apply keeps_q_modify. Qed.
Lemma g3_keeps_set_hcr v : m_keeps g3_inv (gich_set_hcr v).
Proof. by apply keeps_q_modify. Qed.
#[export] Hint Resolve g3_keeps_emit g3_keeps_set_hcr : keeps.
Lemma g3_keeps_set_lr i v : m_keeps g3_inv (gich_set_lr i v).
Proof. unfold gich_set_lr. keeps_tac. Qed.
Lemma g3_keeps_set_gpr i v : m_keeps g3_inv (set_gpr i v).
Proof. unfold set_gpr. keeps_tac. Qed.
Lemma g3_keeps_set_curr_lrs c i v : m_keeps g3_inv (set_cpu_priv_curr_lrs c i v).
Proof. unfold set_cpu_priv_curr_lrs. keeps_tac. Qed.
Lemma g3_keeps_get_owner v r : m_keeps g3_inv (vgic_int_get_owner v r).
Proof. unfold vgic_int_get_owner. keeps_tac. Qed.
Lemma g3_keeps_yield core v r : m_keeps g3_inv (vgic_int_yield_owner core v r).
Proof. unfold vgic_int_yield_owner. keeps_tac. Qed.
#[export] Hint Resolve g3_keeps_set_lr g3_keeps_set_gpr g3_keeps_set_curr_lrs g3_keeps_get_owner g3_keeps_yield g3_keeps_update_int_list : keeps.

(** ** Pointers handed out are in order *)

Definition opt_ok (vcpu : Vcpu) (o : option iref) : Prop := forall r, o = Some r -> ref_ok vcpu r.

Lemma g3_yields_get_int vcpu id : m_yields g3_inv (opt_ok vcpu) (get_int vcpu id).
Proof.
  intros s o s' Hs E. assert (s' = s) as -> by (by eapply g3_reads_get_int). split; [done|].
  intros r ->. unfold get_int in E.
  destruct (Z.ltb_spec id GIC_PRIVINT_NUM); [|destruct (_ && _); [|done]].
  - apply m_bind_inv in E as (p & s1 & _ & E). destruct (in_bounds (priv_ints p) id) eqn:Eb; [|done].
    injection E as <- _. apply in_bounds_spec in Eb. unfold GIC_PRIVINT_NUM in *. simpl. lia.
  - unfold vgicd_interrupt, m_bind, m_get in E. destruct (in_bounds (spis s) _) eqn:Eb; [|done].
    injection E as <-. apply in_bounds_spec in Eb. simpl. lia.
Qed.

Lemma g3_keeps_get_int {A} vcpu id (k : option iref -> M G3 A) :
  m_keeps g3_inv (k None) -> (forall r, ref_ok vcpu r -> m_keeps g3_inv (k (Some r))) ->
  m_keeps g3_inv (m_bind (get_int vcpu id) k).
Proof.
  intros Hn Hs. eapply yields_bind; [apply g3_yields_get_int|]. intros [r|] Ho; [apply Hs; by apply Ho|done].
Qed.

(** The smallest by a key is an element of the list, or the one to start from. *)
Lemma min_from_elem key l : forall best r, min_from key l best = Some (Some r) -> r ∈ l \/ exists k, best = Some (r, k).
Proof.
  induction l as [|x l IH]; intros best r; simpl.
  - destruct best as [[b k]|]; [|done]. intros [= ->]. by right; exists k.
  - destruct (key x) as [k|]; [|done]. simpl. intros [?|[k' E]]%IH; [by left; right|].
    destruct best as [[b kb]|]; [case_match|]; simplify_eq; try (by left; left). right. by exists k'.
Qed.

Lemma min_by_key_inv l s o s' : min_by_key l s = Ret o s' -> s' = s /\ (forall r, o = Some r -> r ∈ l).
Proof.
  unfold min_by_key, m_bind, m_get. destruct (min_from (spill_key s) l None) as [o'|] eqn:E; [|done].
  intros [= <- <-]. split; [done|]. intros r ->. by destruct (min_from_elem _ _ _ _ E) as [?|[? ?]].
Qed.

(** The spilled interrupts of a vCPU: its queues, or part of them. *)
Lemma keeps_spilled {A} vcpu (f : VgicCpuPriv -> list iref) (k : option iref -> M G3 A) :
  (forall p r, r ∈ f p -> r ∈ pend_list p ++ act_list p) ->
  m_keeps g3_inv (k None) -> (forall r, ref_ok vcpu r -> m_keeps g3_inv (k (Some r))) ->
  m_keeps g3_inv (let! p := read_priv (vcpu_id vcpu) in m_bind (min_by_key (f p)) k).
Proof.
  intros Hf Hn Hk s a s' Hs (p & s1 & E & E')%m_bind_inv. apply (q_read_priv_inv (Q:=g3_queues)) in E as [-> Ep].
  apply m_bind_inv in E' as (o & s2 & E & E'). apply min_by_key_inv in E as [-> Ho].
  destruct o as [r|]; [|by eapply Hn]. eapply (Hk r); [|exact Hs|exact E'].
  specialize (Ho r eq_refl). apply (Hf p), elem_of_app in Ho as [Ho|Ho].
  - by apply (q_local _ _ _ _ (Hs _ p true Ep)).
  - by apply (q_local _ _ _ _ (Hs _ p false Ep)).
Qed.

Lemma g3_keeps_opt_Some {A B} f (a : A) (k : A -> M G3 B) : m_keeps g3_inv (k a) -> m_keeps g3_inv (m_bind (m_opt f (Some a)) k).
Proof. done. Qed.
Lemma g3_keeps_opt_None {A B} f (k : A -> M G3 B) : m_keeps g3_inv (m_bind (m_opt f None) k).
Proof. by intros s a s'. Qed.

Ltac g3_tac :=
  repeat match goal with
  | |- m_keeps _ (m_bind (get_int _ _) _) => apply g3_keeps_get_int; [|intros ? ?]
  | |- m_keeps _ (m_bind (m_opt _ (Some _)) _) => apply g3_keeps_opt_Some
  | |- m_keeps _ (m_bind (m_opt _ None) _) => apply g3_keeps_opt_None
  | |- m_keeps _ (m_bind _ _) => apply keeps_bind; [|intros ?]
  | |- m_keeps _ (if ?b then _ else _) => apply keeps_if
  | |- m_keeps _ (match ?x with _ => _ end) => destruct x
  | |- m_keeps _ (m_ret _) => apply keeps_ret
  | |- m_keeps _ (m_fault _) => apply keeps_fault
  | |- m_keeps _ (m_opt _ _) => apply keeps_opt
  | |- m_keeps _ (m_for _ _) => apply keeps_for; intros ?
  end; auto with keeps.

(** ** The operations *)

Section keeps_ops.
Context (core mpidr gic_lrs num : Z) (rk3588 : bool) (elrsr eisr : list Z -> Z) (active : option Vm).

#[local] Abbreviation add_lr := (add_lr core gic_lrs elrsr).
#[local] Abbreviation route := (route core mpidr gic_lrs num rk3588 elrsr active).

Lemma g3_keeps_remove_lr vcpu r : ref_ok vcpu r -> m_keeps g3_inv (remove_lr core vcpu r).
Proof. intros Hr. unfold remove_lr. g3_tac. Qed.
Lemma g3_keeps_evict vcpu r i : m_keeps g3_inv (write_lr_evict core vcpu r i).
Proof. unfold write_lr_evict. g3_tac. Qed.
Hint Resolve g3_keeps_remove_lr g3_keeps_evict : keeps.
Lemma g3_keeps_write_lr vcpu r i : ref_ok vcpu r -> m_keeps g3_inv (write_lr core vcpu r i).
Proof. intros Hr. unfold write_lr. g3_tac. Qed.
Hint Resolve g3_keeps_write_lr : keeps.

Lemma g3_reads_scan_victims idxs : forall v, m_reads (scan_victims idxs v).
Proof. induction idxs; intros v; simpl; reads_tac. Qed.
Hint Resolve g3_reads_scan_victims : reads.

Lemma g3_keeps_spill vcpu r : m_keeps g3_inv (spill_lr core gic_lrs vcpu r).
Proof. unfold spill_lr. g3_tac. Qed.
Hint Resolve g3_keeps_spill : keeps.
Lemma reads_elrsr : m_reads (gich_elrsr elrsr).
Proof. unfold gich_elrsr. reads_tac. Qed.
Lemma reads_eisr : m_reads (gich_eisr eisr).
Proof. unfold gich_eisr. reads_tac. Qed.
Hint Resolve reads_elrsr reads_eisr : reads.
Lemma g3_keeps_add_lr vcpu r : ref_ok vcpu r -> m_keeps g3_inv (add_lr vcpu r).
Proof. intros Hr. unfold Gic3Lr.add_lr. g3_tac. Qed.
Hint Resolve g3_keeps_add_lr : keeps.

Lemma reads_is_target vcpu r : m_reads (vgic_int_vcpu_is_target mpidr vcpu r).
Proof. unfold vgic_int_vcpu_is_target. reads_tac. Qed.
Lemma reads_other_target r : m_reads (vgic_int_has_other_target mpidr r).
Proof. unfold vgic_int_has_other_target. reads_tac. Qed.
Lemma reads_ptarget r : m_reads (vgic_int_ptarget_mask core rk3588 active r).
Proof. unfold vgic_int_ptarget_mask. reads_tac. Qed.
Hint Resolve reads_is_target reads_other_target reads_ptarget : reads.
Lemma keeps_ipi_mask mask m : m_keeps g3_inv (ipi_mask num mask m).
Proof. unfold ipi_mask. g3_tac. Qed.
Hint Resolve keeps_ipi_mask : keeps.
Lemma g3_keeps_route vcpu r : ref_ok vcpu r -> m_keeps g3_inv (route vcpu r).
Proof. intros Hr. unfold Gic3Lr.route. g3_tac. Qed.
Hint Resolve g3_keeps_route : keeps.

Lemma keeps_eoir_loop fuel vcpu : forall o, m_keeps g3_inv (eoir_loop core gic_lrs elrsr eisr fuel vcpu o).
Proof. induction fuel; intros o; simpl; unfold eoir_one; g3_tac. Qed.

Lemma g3_keeps_refill_loop fuel vcpu : forall b o, m_keeps g3_inv (refill_loop core gic_lrs elrsr fuel vcpu b o).
Proof.
  induction fuel as [|fuel IH]; intros b [i|]; simpl; [g3_tac..| |g3_tac].
  intros s a s'. unfold vgic_highest_proi_spilled. rewrite m_bind_assoc. revert s a s'.
  apply (keeps_spilled vcpu (fun p => pend_list p ++ (if b then [] else act_list p))); [|g3_tac|intros r Hr; g3_tac].
  intros p r. rewrite !elem_of_app. destruct b; [|done]. intros [?|?%elem_of_nil]; [by left|done].
Qed.

Lemma g3_keeps_eoir_spilled vcpu : m_keeps g3_inv (eoir_highest_spilled_active core gic_lrs elrsr vcpu).
Proof.
  apply (keeps_spilled vcpu act_list); [|g3_tac|intros r Hr; g3_tac].
  intros p r ?. apply elem_of_app. by right.
Qed.
Hint Resolve keeps_eoir_loop g3_keeps_refill_loop g3_keeps_eoir_spilled : keeps.
Lemma g3_keeps_eoi_count fuel vcpu : m_keeps g3_inv (eoi_count_loop core gic_lrs elrsr fuel vcpu).
Proof. induction fuel; simpl; g3_tac. Qed.
Hint Resolve g3_keeps_eoi_count : keeps.
Lemma g3_keeps_maintenance fuel vcpu misr : m_keeps g3_inv (gic_maintenance_handler core gic_lrs elrsr eisr fuel vcpu misr).
Proof. unfold gic_maintenance_handler, handle_trapped_eoir, refill_lrs. g3_tac. Qed.

Lemma g3_keeps_change_state vcpu r b on f : ref_ok vcpu r ->
  m_keeps g3_inv (change_state core mpidr gic_lrs num rk3588 elrsr active vcpu r b on f).
Proof. intros Hr. unfold change_state, phys_ask. g3_tac. Qed.
Hint Resolve g3_keeps_change_state : keeps.
Lemma keeps_ipi_owner i m : m_keeps g3_inv (ipi_owner i m).
Proof. unfold ipi_owner. g3_tac. Qed.
Hint Resolve keeps_ipi_owner : keeps.
Lemma keeps_set_irouter vm vcpu id v :
  m_keeps g3_inv (vgicd_set_irouter core mpidr gic_lrs num rk3588 elrsr active vm vcpu id v).
Proof. unfold vgicd_set_irouter. g3_tac. Qed.
Lemma g3_keeps_set_enable vcpu id en : m_keeps g3_inv (set_enable core mpidr gic_lrs num rk3588 elrsr active vcpu id en).
Proof. unfold set_enable, phys_ask. g3_tac. Qed.
Lemma g3_keeps_set_pend vcpu id p : m_keeps g3_inv (set_pend core mpidr gic_lrs num rk3588 elrsr active vcpu id p).
Proof. unfold set_pend. g3_tac. Qed.
Lemma g3_keeps_set_active vcpu id p : m_keeps g3_inv (set_active core mpidr gic_lrs num rk3588 elrsr active vcpu id p).
Proof. unfold set_active. g3_tac. Qed.
Lemma g3_keeps_set_icfgr vcpu id c : m_keeps g3_inv (set_icfgr core mpidr gic_lrs num rk3588 elrsr active vcpu id c).
Proof. unfold set_icfgr, phys_ask. g3_tac. Qed.
Lemma g3_keeps_set_prio vcpu id p : m_keeps g3_inv (set_prio core mpidr gic_lrs num rk3588 elrsr active vcpu id p).
Proof. unfold set_prio, phys_ask. g3_tac. Qed.
Hint Resolve keeps_set_irouter g3_keeps_set_enable g3_keeps_set_pend g3_keeps_set_active g3_keeps_set_icfgr g3_keeps_set_prio : keeps.
Lemma g3_keeps_inject vcpu id : m_keeps g3_inv (inject core mpidr gic_lrs num rk3588 elrsr active vcpu id).
Proof. unfold inject. g3_tac. Qed.
Lemma g3_keeps_vgic_ipi vm vcpu m :
  m_keeps g3_inv (vgic_ipi_handler core mpidr gic_lrs num rk3588 elrsr active vm vcpu m).
Proof. unfold vgic_ipi_handler, ipi_route. g3_tac. Qed.
End keeps_ops.
#[export] Hint Resolve keeps_set_irouter g3_keeps_set_enable g3_keeps_set_pend g3_keeps_set_active g3_keeps_set_icfgr g3_keeps_set_prio : keeps.

(** ** The handlers *)

Section keeps_handlers.
Context (core mpidr gic_lrs num : Z) (rk3588 : bool) (elrsr : list Z -> Z) (vcpu : Vcpu) (vm : Vm).
Context (hw_ctlr : Z) (hw_id : Z -> Z) (gicr_ctrl : Z -> Z) (gicr_id : Z -> Z -> Z) (gicr_propbaser gicr_pendbaser : Z -> Z).
Context (gicr_addr : Z).

Lemma g3_reads_any_int ids : m_reads (any_int vm ids).
Proof. induction ids; simpl; unfold vm_has_int; reads_tac. Qed.
Lemma g3_reads_written c : m_reads (written c).
Proof. unfold written. reads_tac. Qed.
Hint Resolve g3_reads_any_int g3_reads_written : reads.
Lemma reads_none first n : m_reads (none_of_vm vm first n).
Proof. unfold none_of_vm. reads_tac. Qed.
Lemma g3_reads_getters i : m_reads (get_enable vcpu i) /\ m_reads (get_icfgr vcpu i) /\ m_reads (get_prio vcpu i) /\
  forall b, m_reads (get_state_bit core vcpu b i).
Proof. unfold get_enable, get_icfgr, get_prio, get_state_bit. split_and!; intros; reads_tac. Qed.
Hint Resolve reads_none : reads.
Hint Extern 3 (m_keeps _ (get_enable _ _)) => (apply reads_keeps, g3_reads_getters) : keeps.
Hint Extern 3 (m_keeps _ (get_icfgr _ _)) => (apply reads_keeps, g3_reads_getters) : keeps.
Hint Extern 3 (m_keeps _ (get_prio _ _)) => (apply reads_keeps, g3_reads_getters) : keeps.
Hint Extern 3 (m_keeps _ (get_state_bit _ _ _ _)) => (apply reads_keeps, g3_reads_getters) : keeps.

Lemma g3_keeps_read_bits f first ids : (forall i, m_keeps g3_inv (f i)) -> forall v, m_keeps g3_inv (read_bits f first ids v).
Proof. intros Hf. induction ids; intros v; simpl; g3_tac. Qed.
Lemma g3_keeps_read_fields f bits first ids : (forall i, m_keeps g3_inv (f i)) -> forall v,
  m_keeps g3_inv (read_fields f bits first ids v).
Proof. intros Hf. induction ids; intros v; simpl; g3_tac. Qed.
Lemma g3_keeps_write_bits f first val n : (forall i, m_keeps g3_inv (f i)) -> m_keeps g3_inv (write_bits f first val n).
Proof. intros Hf. unfold write_bits. g3_tac. Qed.
Hint Resolve g3_keeps_read_bits g3_keeps_read_fields g3_keeps_write_bits : keeps.

Lemma keeps_isenabler c : m_keeps g3_inv (emu_isenabler_access core mpidr gic_lrs num rk3588 elrsr vcpu vm c).
Proof. unfold emu_isenabler_access. g3_tac. Qed.
Lemma keeps_icenabler c : m_keeps g3_inv (emu_icenabler_access core mpidr gic_lrs num rk3588 elrsr vcpu vm c).
Proof. unfold emu_icenabler_access. g3_tac. Qed.
Lemma keeps_pendr c b : m_keeps g3_inv (emu_pendr_access core mpidr gic_lrs num rk3588 elrsr vcpu vm c b).
Proof. unfold emu_pendr_access. g3_tac. Qed.
Lemma keeps_activer c b : m_keeps g3_inv (emu_activer_access core mpidr gic_lrs num rk3588 elrsr vcpu vm c b).
Proof. unfold emu_activer_access. g3_tac. Qed.
Lemma keeps_icfgr c : m_keeps g3_inv (emu_icfgr_access core mpidr gic_lrs num rk3588 elrsr vcpu vm c).
Proof. unfold emu_icfgr_access. g3_tac. Qed.
Lemma keeps_ipriorityr c : m_keeps g3_inv (emu_ipriorityr_access core mpidr gic_lrs num rk3588 elrsr vcpu vm c).
Proof. unfold emu_ipriorityr_access. g3_tac. Qed.
Lemma keeps_ctrl c : m_keeps g3_inv (emu_ctrl_access vm hw_ctlr c).
Proof. unfold emu_ctrl_access. g3_tac. Qed.
Lemma keeps_irouter c : m_keeps g3_inv (emu_irouter_access core mpidr gic_lrs num rk3588 elrsr vcpu vm c).
Proof. unfold emu_irouter_access. g3_tac. Qed.
Hint Resolve keeps_isenabler keeps_icenabler keeps_pendr keeps_activer keeps_icfgr keeps_ipriorityr keeps_ctrl
  keeps_irouter : keeps.

Lemma g3_keeps_handler c : m_keeps g3_inv (handler core mpidr gic_lrs num rk3588 elrsr vcpu vm hw_ctlr hw_id c).
Proof.
  unfold handler, emu_ispendr_access, emu_isactiver_access, emu_icpendr_access, emu_icativer_access, emu_typer_access,
    emu_iidr_access, emu_razwi, emu_pidr_access.
  g3_tac.
Qed.

Lemma keeps_redist_handler c :
  m_keeps g3_inv (redist_handler core mpidr gic_lrs num rk3588 elrsr vcpu vm gicr_ctrl gicr_id gicr_propbaser
    gicr_pendbaser gicr_addr c).
Proof.
  unfold redist_handler, vgicr_emul_ctrl_access, vgicr_emul_typer_access, vgicr_emul_pidr_access, emu_ispendr_access,
    emu_isactiver_access, emu_icpendr_access, emu_icativer_access, emu_razwi, emu_probaser_access, emu_pendbaser_access.
  g3_tac.
Qed.

Lemma keeps_sgir c : m_keeps g3_inv (vgic_icc_sgir_handler core num rk3588 vm c).
Proof. unfold vgic_icc_sgir_handler, vgic_send_sgi_msg. g3_tac. Qed.
Lemma keeps_sre c : m_keeps g3_inv (vgic_icc_sre_handler c).
Proof. unfold vgic_icc_sre_handler. g3_tac. Qed.
Lemma g3_keeps_set_hw_int id : m_keeps g3_inv (vgic_set_hw_int vm id).
Proof. unfold vgic_set_hw_int. g3_tac. Qed.
End keeps_handlers.

(** ** The controller as a state machine *)

(** One event: a trapped access of a vCPU to the distributor, a redistributor or a system register, a message from another
    core, an injection, a maintenance interrupt, the marking of a passthrough interrupt, or a switch of the core or of the
    vCPU, which replaces the registers of the core.  Core, environment and vCPU are arbitrary in each step. *)
Inductive g3_step : G3 -> G3 -> Prop :=
  | G3Mmio core aff n num rk el vcpu vm ctl ids c b s s' :
      handler core aff n num rk el vcpu vm ctl ids c s = Ret b s' -> g3_step s s'
  | G3Redist core aff n num rk el vcpu vm ctrl ids pb pnd base c b s s' :
      redist_handler core aff n num rk el vcpu vm ctrl ids pb pnd base c s = Ret b s' -> g3_step s s'
  | G3Sgir core num rk vm c b s s' : vgic_icc_sgir_handler core num rk vm c s = Ret b s' -> g3_step s s'
  | G3Sre c b s s' : vgic_icc_sre_handler c s = Ret b s' -> g3_step s s'
  | G3VgicIpi core aff n num rk el act vm vcpu m s s' :
      vgic_ipi_handler core aff n num rk el act vm vcpu m s = Ret tt s' -> g3_step s s'
  | G3Inject core aff n num rk el act vcpu id s s' :
      inject core aff n num rk el act vcpu id s = Ret tt s' -> g3_step s s'
  | G3Maintenance core n el ei fuel vcpu misr s s' :
      gic_maintenance_handler core n el ei fuel vcpu misr s = Ret tt s' -> g3_step s s'
  | G3SetHw vm id s s' : vgic_set_hw_int vm id s = Ret tt s' -> g3_step s s'
  | G3Switch h l g s : g3_step s (with_hcr h (with_lrs l (with_gpr g s))).

Inductive g3_reachable (s0 : G3) : G3 -> Prop :=
  | G3Init : g3_reachable s0 s0
  | G3Step s s' : g3_reachable s0 s -> g3_step s s' -> g3_reachable s0 s'.

Lemma priv_init_zget typer iidr ct ii mp vcpus h l g c p :
  zget (cpu_priv (emu_intc_init typer iidr ct ii mp vcpus h l g)) c = Some p ->
  exists v, zget vcpus c = Some v /\ priv_ints p = priv_ints_new v /\ pend_list p = [] /\ act_list p = [] /\
    zlen (curr_lrs p) = 64.
Proof.
  unfold emu_intc_init, zget. cbn [cpu_priv]. destruct (0 <=? c); [|done]. rewrite list_lookup_fmap.
  destruct (vcpus !! Z.to_nat c) as [v|]; [|done]. intros [= <-]. exists v. split_and!; done.
Qed.

(** Every private interrupt starts out of the queues. *)
Lemma priv_new_zget v i x : zget (priv_ints_new v) i = Some x ->
  0 <= i < 32 /\ in_pend x = false /\ in_act x = false /\ phys x = Redist (phys_id v) /\ owner x = Some v.
Proof.
  unfold priv_ints_new, zget. destruct (Z.leb_spec 0 i); [|done]. rewrite list_lookup_fmap. intros E.
  destruct (zrange 0 32 !! Z.to_nat i) as [k|] eqn:Ek; [|done]. injection E as <-.
  apply lookup_lt_Some in Ek. change (length (zrange 0 32)) with 32%nat in Ek. split; [lia|]. by destruct (k <? GIC_SGIS_NUM).
Qed.

Lemma g3_inv_init typer iidr ct ii mp vcpus h l g : g3_inv (emu_intc_init typer iidr ct ii mp vcpus h l g).
Proof.
  intros c p b (v & _ & Hi & H1 & H2 & _)%priv_init_zget.
  assert (q_list b p = []) as -> by (destruct b; done).
  split; [by intros r ?%elem_of_nil|constructor|]. intros i x. change (p_ints p) with (priv_ints p). rewrite Hi.
  intros (_ & Ep & Ea & _)%priv_new_zget. assert (q_flag b x = false) as -> by (by destruct b).
  split; [done|]. by intros ?%elem_of_nil.
Qed.

Lemma g3_step_inv s s' : g3_step s s' -> g3_inv s -> g3_inv s'.
Proof.
  intros Hstep Hs. destruct Hstep.
  - by eapply g3_keeps_handler.
  - by eapply keeps_redist_handler.
  - by eapply keeps_sgir.
  - by eapply keeps_sre.
  - by eapply g3_keeps_vgic_ipi.
  - by eapply g3_keeps_inject.
  - by eapply g3_keeps_maintenance.
  - by eapply g3_keeps_set_hw_int.
  - done.
Qed.

(** C2. The queues of spilled interrupts stay consistent on the GICv3 as well.  From the state [emu_intc_init] builds, after any
    sequence of register accesses of a guest to the distributor, the redistributors and the SGI registers, of messages,
    injections, maintenance interrupts and switches, on any cores, the pending (active) queue of every vCPU holds exactly
    those of its private interrupts whose [in_pend] ([in_act]) flag is set, each once, and no pointer to another vCPU's
    private interrupt. *)
Theorem gic3_queues_consistent typer iidr ct ii mp vcpus h l g s c p :
  g3_reachable (emu_intc_init typer iidr ct ii mp vcpus h l g) s -> zget (cpu_priv s) c = Some p ->
  queue_ok c (priv_ints p) in_pend (pend_list p) /\ queue_ok c (priv_ints p) in_act (act_list p).
Proof.
  intros Hr Hp. assert (g3_inv s) as Hs.
  { clear Hp. induction Hr as [|s s' _ IH Hstep]; [apply g3_inv_init|by eapply g3_step_inv]. }
  split; [apply (Hs c p true Hp)|apply (Hs c p false Hp)].
Qed.
