(* ===== verification/Gic3Spec.v ===== *)
(** * Gic3Spec: routing, SGIs and the places where the emulated GICv3 falls short

    A shared interrupt follows its GICD_IROUTER from the core that raises it to a list register of the core it names; a
    write to ICC_SGI1R sends one message to each core it names; the loop that refills the list registers waits for
    interrupts of other vCPUs; and a guest can make the next private interrupt panic. *)
From stdpp Require Import list.
From S2P Require Import Prelude Bits Vm VgicState VgicDist IntQueues Gic3State Gic3Lr Gic3Dist Gic3Props.

(** ** Running the primitives *)

Lemma g3_read_int_eq s r i : find_int s r = Some i -> read_int r s = Ret i s.
Proof. exact (q_read_eq (Q:=g3_queues) s r i). Qed.
Lemma g3_upd_int_eq s r i f : find_int s r = Some i -> upd_int r f s = Ret tt (store_int s r (f i)).
Proof. exact (q_upd_int_eq (Q:=g3_queues) s r i f). Qed.
Lemma g3_read_priv_eq s c p : zget (cpu_priv s) c = Some p -> read_priv c s = Ret p s.
Proof. exact (q_read_priv_eq (Q:=g3_queues) s c p). Qed.
Lemma g3_upd_priv_eq s c p f : zget (cpu_priv s) c = Some p ->
  upd_priv c f s = Ret tt (with_priv (zset (cpu_priv s) c (f p)) s).
Proof. exact (q_upd_priv_eq (Q:=g3_queues) s c p f). Qed.
Lemma g3_find_store s r r' i i' : find_int s r = Some i ->
  find_int (store_int s r i') r' = if decide (r' = r) then Some i' else find_int s r'.
Proof. exact (q_find_store (Q:=g3_queues) s r r' i i'). Qed.
Lemma g3_find_with_priv s c p p' r : zget (cpu_priv s) c = Some p -> priv_ints p' = priv_ints p ->
  find_int (with_priv (zset (cpu_priv s) c p') s) r = find_int s r.
Proof. exact (q_find_priv (Q:=g3_queues) s c p p' r). Qed.

(** The vectors have the sizes [emu_intc_init] and the hardware give them. *)
Definition shape (v : Z) (s : G3) : Prop :=
  (exists p, zget (cpu_priv s) v = Some p /\ zlen (priv_ints p) = 32 /\ zlen (curr_lrs p) = 64) /\
  zlen (spis s) = GIC_SPI_MAX /\ zlen (lrs s) = 16.

Lemma g3_shape_store v s r i i' : shape v s -> find_int s r = Some i -> shape v (store_int s r i').
Proof.
  intros ((p & Hp & H1 & H2) & H3 & H4) Hr. destruct r as [c k|k]; simpl in *.
  - destruct (zget (cpu_priv s) c) as [cp|] eqn:Ec; [|done]. split; [|done]. simpl.
    rewrite zget_zset. case_decide as Hd; [|by exists p]. destruct Hd as [-> _].
    rewrite Hp in Ec. injection Ec as <-. eexists. split; [done|]. simpl. by rewrite zlen_zset.
  - split; [by exists p|]. simpl. by rewrite zlen_zset.
Qed.

Lemma g3_shape_priv v s c p p' : shape v s -> zget (cpu_priv s) c = Some p ->
  zlen (priv_ints p') = zlen (priv_ints p) -> zlen (curr_lrs p') = zlen (curr_lrs p) ->
  shape v (with_priv (zset (cpu_priv s) c p') s).
Proof.
  intros ((q & Hq & H1 & H2) & H3 & H4) Hp E1 E2. split; [|done]. simpl.
  rewrite zget_zset. case_decide as Hd; [|by exists q]. destruct Hd as [-> _].
  rewrite Hq in Hp. injection Hp as <-. exists p'. by rewrite E1, E2.
Qed.

(** Only [r] and what is not an interrupt's data changes; the log grows by [es]. *)
Record only (r : iref) (es : list g3_event) (s s' : G3) : Prop := {
  only_log : glog s' = glog s ++ es;
  only_lrs : lrs s' = lrs s;
  only_hcr : hcr s' = hcr s;
  only_gpr : gpr s' = gpr s;
  only_find : forall r', r' <> r -> find_int s' r' = find_int s r';
  only_shape : forall v, shape v s -> shape v s';
}.

Lemma only_refl r s : only r [] s s.
Proof. split; try done. by rewrite app_nil_r. Qed.

Lemma only_trans r e1 e2 s1 s2 s3 : only r e1 s1 s2 -> only r e2 s2 s3 -> only r (e1 ++ e2) s1 s3.
Proof.
  intros [L1 A1 B1 C1 F1 S1] [L2 A2 B2 C2 F2 S2]. split; try congruence.
  - by rewrite L2, L1, app_assoc.
  - intros r' ?. by rewrite F2, F1.
  - auto.
Qed.

Lemma only_store r s i i' : find_int s r = Some i -> only r [] s (store_int s r i').
Proof.
  intros Hr. split.
  1-4: destruct r; simpl; [case_match|]; by rewrite ?app_nil_r.
  - intros r' ?. rewrite (g3_find_store _ _ _ i), decide_False by done. done.
  - intros v ?. by eapply g3_shape_store.
Qed.

Lemma only_emit r e s : only r [e] s (with_glog (glog s ++ [e]) s).
Proof. split; try done. Qed.

(** ** Operations on an interrupt outside the list registers *)

Section routing.
Context (core mpidr gic_lrs num : Z) (rk3588 : bool) (elrsr : list Z -> Z) (active : option Vm).

Lemma g3_owns_total vcpu q j s : find_int s q = Some j -> exists b, vgic_owns vcpu q s = Ret b s.
Proof.
  intros Hq. unfold vgic_owns. destruct (gic_is_priv (ref_id q)); [by eexists|].
  eexists. eapply m_bind_Ret_r; [by apply g3_read_int_eq|reflexivity].
Qed.

Lemma owns_spi vcpu k i s : find_int s (RSpi k) = Some i -> owner i = Some vcpu -> vgic_owns vcpu (RSpi k) s = Ret true s.
Proof.
  intros Hq Ho. unfold vgic_owns. destruct (gic_is_priv _); [done|].
  eapply m_bind_Ret_r; [by apply g3_read_int_eq|]. cbv beta. by rewrite Ho, !Z.eqb_refl.
Qed.

Lemma remove_lr_out vcpu r i s : find_int s r = Some i -> in_lr i = false -> remove_lr core vcpu r s = Ret false s.
Proof.
  intros Hr Hl. destruct (g3_owns_total vcpu r i s Hr) as [b Eb].
  eapply m_bind_Ret_r; [exact Eb|]. destruct b; [|done]. cbv beta iota delta [negb].
  eapply m_bind_Ret_r; [by apply g3_read_int_eq|]. cbv beta. by rewrite Hl.
Qed.

Lemma g3_get_state_out r i s : find_int s r = Some i -> in_lr i = false -> vgic_get_state core r s = Ret (to_num (state i)) s.
Proof. intros Hr Hl. eapply m_bind_Ret_r; [by apply g3_read_int_eq|]. cbv beta. by rewrite Hl. Qed.

(** Taking an interrupt nobody else has. *)
Definition free_for (vcpu : Vcpu) (i : VgicInt) : Prop := owner i = None \/ owner i = Some vcpu.

Lemma get_owner_free vcpu r i s : find_int s r = Some i -> free_for vcpu i ->
  exists s', vgic_int_get_owner vcpu r s = Ret true s' /\ find_int s' r = Some (set_owner vcpu i) /\ only r [] s s'.
Proof.
  intros Hr Ho. destruct Ho as [Ho|Ho].
  - exists (store_int s r (set_owner vcpu i)). split_and!.
    + eapply m_bind_Ret_r; [by apply g3_read_int_eq|]. cbv beta. rewrite Ho.
      eapply m_bind_Ret_r; [by apply g3_upd_int_eq|reflexivity].
    + rewrite (g3_find_store _ _ _ i), decide_True by done. done.
    + by eapply only_store.
  - exists s. split_and!; [|by rewrite Hr; destruct i; simpl in *; subst|apply only_refl].
    eapply m_bind_Ret_r; [by apply g3_read_int_eq|]. cbv beta. by rewrite Ho, !Z.eqb_refl.
Qed.

(** Giving up an interrupt that is out of the list registers and not active. *)
Lemma yield_spi vcpu k i s : find_int s (RSpi k) = Some i -> owner i = Some vcpu -> in_lr i = false ->
  testm (to_num (state i)) 2 = false ->
  vgic_int_yield_owner core vcpu (RSpi k) s = Ret tt (store_int s (RSpi k) (clear_owner i)).
Proof.
  intros Hr Ho Hl Hs. eapply m_bind_Ret_r; [by eapply owns_spi|]. cbv beta.
  eapply m_bind_Ret_r; [by apply g3_read_int_eq|]. cbv beta. rewrite Hl. cbn [negb orb].
  eapply m_bind_Ret_r; [by eapply g3_get_state_out|]. cbv beta. rewrite Hs. by apply g3_upd_int_eq.
Qed.

Lemma g3_get_int_spi vcpu k i s : zlen (spis s) = GIC_SPI_MAX -> find_int s (RSpi k) = Some i ->
  get_int vcpu (k + 32) s = Ret (Some (RSpi k)) s.
Proof.
  intros Hl Hr. simpl in Hr. apply zget_Some_bounds in Hr. unfold GIC_SPI_MAX in Hl.
  unfold get_int, GIC_PRIVINT_NUM, GIC_INTS_MAX.
  rewrite (proj2 (Z.ltb_ge _ _)), (proj2 (Z.leb_le _ _)), (proj2 (Z.ltb_lt _ _)) by lia. cbn [andb].
  unfold vgicd_interrupt, m_bind, m_get, m_ret. replace (k + 32 - 32) with k by lia. by rewrite in_bounds_true.
Qed.

(** ** GICD_IROUTER *)

(** A write to GICD_IROUTER of an idle shared interrupt. *)
Lemma irouter_write vm vcpu k i val s :
  zlen (spis s) = GIC_SPI_MAX -> find_int s (RSpi k) = Some i -> free_for vcpu i -> in_lr i = false ->
  state i = IrqSInactive ->
  let p := irouter_phys rk3588 vcpu vm val in
  exists s', vgicd_set_irouter core mpidr gic_lrs num rk3588 elrsr active vm vcpu (k + 32) val s = Ret tt s' /\
    find_int s' (RSpi k) =
      Some (clear_owner (set_route_field (Z.land val GICD_IROUTER_RES0_MSK) (set_phys_route p (set_owner vcpu i)))) /\
    only (RSpi k) (if hw i then [EvRoute (k + 32) p] else []) s s'.
Proof.
  intros Hlen Hr Ho Hl Hs p. destruct (get_owner_free vcpu _ i s Hr Ho) as (s1 & E1 & F1 & O1).
  set (i1 := set_owner vcpu i) in *.
  set (s2 := store_int s1 (RSpi k) (set_phys_route p i1)).
  assert (find_int s2 (RSpi k) = Some (set_phys_route p i1)) as F2
    by (unfold s2; by rewrite (g3_find_store _ _ _ i1), decide_True).
  set (i3 := set_route_field (Z.land val GICD_IROUTER_RES0_MSK) (set_phys_route p i1)).
  set (s3 := store_int s2 (RSpi k) i3).
  assert (find_int s3 (RSpi k) = Some i3) as F3 by (unfold s3; rewrite (g3_find_store _ _ _ _ _ F2), decide_True; done).
  set (es := if hw i then [EvRoute (k + 32) p] else []).
  set (s4 := if hw i then with_glog (glog s3 ++ [EvRoute (k + 32) p]) s3 else s3).
  assert (find_int s4 (RSpi k) = Some i3) as F4 by (unfold s4; by destruct (hw i)).
  assert (only (RSpi k) es s3 s4) as O4 by (unfold es, s4; destruct (hw i); [apply only_emit|apply only_refl]).
  exists (store_int s4 (RSpi k) (clear_owner i3)). split_and!.
  - eapply m_bind_Ret_r; [by eapply g3_get_int_spi|]. cbv beta iota.
    eapply m_bind_Ret_r; [exact E1|]. cbv beta iota.
    eapply m_bind_Ret_r; [by eapply remove_lr_out|]. cbv beta zeta. fold p.
    eapply m_bind_Ret_r; [by apply (g3_upd_int_eq s1 _ i1)|].
    eapply m_bind_Ret_r; [by apply (g3_upd_int_eq s2 _ _ _ F2)|]. fold s3.
    eapply m_bind_Ret_r; [by apply g3_read_int_eq|]. cbv beta.
    eapply m_bind_Ret_r; [instantiate (1 := s4); unfold s4; simpl; by destruct (hw i)|].
    eapply m_bind_Ret_r.
    { eapply m_bind_Ret_r; [by apply g3_read_int_eq|]. cbv beta. change (state i3) with (state i). by rewrite Hs. }
    by apply (yield_spi vcpu k i3); [| | |change (state i3) with (state i); rewrite Hs].
  - by rewrite (g3_find_store _ _ _ _ _ F4), decide_True.
  - change es with ([] ++ [] ++ [] ++ es). eapply only_trans; [exact O1|].
    eapply only_trans; [eapply only_store, F1|]. eapply only_trans; [eapply only_store, F2|].
    rewrite <- (app_nil_r es). eapply only_trans; [exact O4|eapply only_store, F4].
Qed.

(** ** Forwarding to the core of the route *)

Definition log (s : G3) (es : list g3_event) : G3 := with_glog (glog s ++ es) s.

(** A loop that logs an event per element whose test holds. *)
Lemma g3_m_for_emit (f : Z -> bool) (g : Z -> g3_event) l s :
  m_for l (fun i => if f i then emit (g i) else m_ret tt) s = Ret tt (log s (g <$> filter (fun i => f i) l)).
Proof.
  revert s. induction l as [|x l IH]; intros s; simpl.
  { unfold log. rewrite app_nil_r. by destruct s. }
  rewrite filter_cons. destruct (f x) eqn:E.
  - rewrite decide_True by done. eapply m_bind_Ret_r; [reflexivity|]. rewrite IH. unfold log. simpl. by rewrite <- app_assoc.
  - rewrite decide_False by (by intros []). by apply IH.
Qed.

Lemma only_log_es r es s : only r es s (log s es).
Proof. by split. Qed.

(** The cores of a mask with one bit. *)
Lemma filter_one p n lo : lo <= p < lo + Z.of_nat n -> filter (fun i => i =? p) (zrange lo n) = [p].
Proof.
  revert lo. induction n as [|n IH]; intros lo Hp; [lia|]. cbn [zrange]. rewrite filter_cons.
  case_decide as Hd; rewrite Is_true_true, Z.eqb_eq in Hd.
  - subst lo. f_equal. destruct (filter _ _) as [|y l] eqn:E; [done|].
    assert (y ∈ filter (fun i => Is_true (i =? p)) (zrange (p + 1) n)) as Hy by (rewrite E; left).
    apply list_elem_of_filter in Hy as [Hy%Is_true_true%Z.eqb_eq Hz%zrange_elem]. lia.
  - apply IH. lia.
Qed.

Lemma ipi_mask_one p m s : 0 <= p < num -> num <= 64 -> ipi_mask num (2 ^ p) m s = Ret tt (log s [EvIpi p m]).
Proof.
  intros Hp Hn. unfold ipi_mask. rewrite (g3_m_for_emit _ (fun i => EvIpi i m)).
  assert (forall l : list Z, (forall i, i ∈ l -> 0 <= i < 64) ->
    filter (fun i => testm (2 ^ p) (shlw 64 1 i)) l = filter (fun i => i =? p) l) as Hf.
  { induction l as [|i l IH]; intros Hl; [done|]. rewrite !filter_cons.
    rewrite testm_shlw64, Z.pow2_bits_eqb by (lia || (apply Hl; left)).
    rewrite IH by (intros; apply Hl; by right). by rewrite (Z.eqb_sym p i). }
  rewrite Hf by (intros i Hi%zrange_elem; lia). by rewrite filter_one by lia.
Qed.

(** Affinities: the route of a core, and the bit [vgic_int_ptarget_mask] makes of it. *)
Definition affinity (p : Z) : Z := Z.land (cpuid2mpidr rk3588 p) MPIDR_AFF_MSK.
Definition core_ok (p : Z) : Prop := 0 <= p < (if rk3588 then 8 else 4).

Lemma affinity_spec p : core_ok p ->
  affinity p = (if rk3588 then Z.shiftl p 8 else p) /\
  i32_bit (if rk3588 then Z.shiftr (affinity p) 8 else affinity p) = 2 ^ p /\ affinity p <> GICD_IROUTER_INV.
Proof.
  unfold core_ok, affinity. intros Hp. destruct rk3588.
  - assert (p = 0 \/ p = 1 \/ p = 2 \/ p = 3 \/ p = 4 \/ p = 5 \/ p = 6 \/ p = 7) as Hc by lia.
    destruct Hc as [->|[->|[->|[->|[->|[->|[->| ->]]]]]]]; (split_and!; [reflexivity..|discriminate]).
  - assert (p = 0 \/ p = 1 \/ p = 2 \/ p = 3) as Hc by lia.
    destruct Hc as [->|[->|[->| ->]]]; (split_and!; [reflexivity..|discriminate]).
Qed.

(** An idle, enabled software interrupt that is routed to core [p], in nobody's hands. *)
Record routed_to (p : Z) (i : VgicInt) : Prop := {
  rt_core : core_ok p;
  rt_phys : phys i = Route (affinity p);
  rt_any : vgic_broadcast i = false;
  rt_owner : owner i = None;
  rt_out : in_lr i = false;
  rt_enabled : enabled i = true;
  rt_sw : hw i = false;
}.

(** Raised on a core it is not routed to, it becomes pending, stays out of the list registers and without owner, and
    exactly the core of the route is told. *)
Lemma pend_forwarded vcpu k i p s :
  zlen (spis s) = GIC_SPI_MAX -> find_int s (RSpi k) = Some i -> routed_to p i -> state i = IrqSInactive ->
  0 <= p < num -> num <= 64 -> phys_id vcpu <> p -> 0 <= phys_id vcpu < 64 -> routed_here mpidr (affinity p) = false ->
  exists s', set_pend core mpidr gic_lrs num rk3588 elrsr active vcpu (k + 32) true s = Ret tt s' /\
    find_int s' (RSpi k) = Some (clear_owner (set_state IrqSPend (set_owner vcpu i))) /\
    only (RSpi k) [EvIpi p (mkInitc VgicdRoute (vcpu_vm_id vcpu) (u16 (k + 32)) 0)] s s'.
Proof.
  intros Hlen Hr [Hc Hph Ha Ho Hl He Hw] Hs Hp Hn Hne Hv Hh.
  destruct (affinity_spec p Hc) as (_ & Hb & Hinv).
  destruct (get_owner_free vcpu _ i s Hr (or_introl Ho)) as (s1 & E1 & F1 & O1).
  set (i1 := set_owner vcpu i) in *. set (i2 := set_state IrqSPend i1).
  set (s2 := store_int s1 (RSpi k) i2).
  assert (find_int s2 (RSpi k) = Some i2) as F2 by (unfold s2; by rewrite (g3_find_store _ _ _ i1), decide_True).
  set (i3 := clear_owner i2). set (s3 := store_int s2 (RSpi k) i3).
  assert (find_int s3 (RSpi k) = Some i3) as F3 by (unfold s3; by rewrite (g3_find_store _ _ _ i2), decide_True).
  set (m := mkInitc VgicdRoute (vcpu_vm_id vcpu) (u16 (k + 32)) 0).
  set (s4 := log s3 [EvIpi p m]).
  exists s4.
  assert (gic_is_priv (ref_id (RSpi k)) = false) as Hpr.
  { simpl in Hr. apply zget_Some_bounds in Hr. apply Z.ltb_ge. simpl. unfold GIC_PRIVINT_NUM. lia. }
  assert (find_int s4 (RSpi k) = Some i3) as F4 by exact F3.
  assert (vgic_owns vcpu (RSpi k) s4 = Ret false s4) as Hy.
  { unfold vgic_owns. rewrite Hpr. by eapply m_bind_Ret_r; [by apply g3_read_int_eq|]. }
  split_and!.
  - eapply m_bind_Ret_r; [by eapply g3_get_int_spi|]. cbv beta iota.
    eapply m_bind_Ret_r; [exact E1|]. cbv beta iota.
    eapply m_bind_Ret_r; [by eapply remove_lr_out|]. cbv beta.
    eapply m_bind_Ret_r; [by apply g3_read_int_eq|]. cbv beta. change (state i1) with (state i). rewrite Hs.
    eapply m_bind_Ret_r; [reflexivity|]. cbv beta.
    eapply m_bind_Ret_r; [by apply (g3_upd_int_eq s1 _ i1)|]. fold s2.
    eapply m_bind_Ret_r; [by apply g3_read_int_eq|]. cbv beta zeta. change (hw i2) with (hw i). rewrite Hw.
    eapply m_bind_Ret_r; [reflexivity|].
    eapply m_bind_Ret_r.
    { eapply m_bind_Ret_r; [by apply g3_read_int_eq|]. cbv beta. simpl state. cbv iota. change (enabled i2) with (enabled i).
      rewrite He. cbv iota delta [negb].
      assert (vgic_int_vcpu_is_target mpidr vcpu (RSpi k) s2 = Ret false s2) as Et.
      { eapply m_bind_Ret_r; [by apply g3_read_int_eq|]. cbv beta. rewrite Hpr. unfold phys_route.
        change (phys i2) with (phys i). rewrite Hph. eapply m_bind_Ret_r; [reflexivity|]. cbv beta.
        rewrite Hh. change (vgic_broadcast i2) with (vgic_broadcast i). by rewrite Ha. }
      eapply m_bind_Ret_r; [exact Et|]. cbv beta iota. eapply m_bind_Ret_r; [reflexivity|].
      eapply m_bind_Ret_r; [by apply g3_read_int_eq|]. cbv beta. change (in_lr i2) with (in_lr i). rewrite Hl. cbv iota.
      assert (vgic_int_has_other_target mpidr (RSpi k) s2 = Ret true s2) as Eo.
      { unfold vgic_int_has_other_target. rewrite Hpr. eapply m_bind_Ret_r; [by apply g3_read_int_eq|]. cbv beta.
        unfold phys_route. change (phys i2) with (phys i). rewrite Hph. eapply m_bind_Ret_r; [reflexivity|]. cbv beta.
        rewrite Hh, (proj2 (Z.eqb_neq _ _) Hinv). by rewrite orb_true_r. }
      eapply m_bind_Ret_r; [exact Eo|]. cbv beta iota.
      eapply m_bind_Ret_r; [by apply (yield_spi vcpu k i2)|]. fold i3 s3.
      assert (vgic_int_ptarget_mask core rk3588 active (RSpi k) s3 = Ret (2 ^ p) s3) as Em.
      { eapply m_bind_Ret_r; [by apply g3_read_int_eq|]. cbv beta. change (vgic_broadcast i3) with (vgic_broadcast i).
        rewrite Ha. unfold phys_route. change (phys i3) with (phys i). rewrite Hph.
        eapply m_bind_Ret_r; [reflexivity|]. cbv beta. by rewrite Hb. }
      eapply m_bind_Ret_r; [exact Em|]. cbv beta.
      replace (Z.land (2 ^ p) (notw 64 (shlw 64 1 (phys_id vcpu)))) with (2 ^ p).
      - by apply ipi_mask_one.
      - rewrite shlw_1 by done. apply Z.bits_inj'. intros j Hj.
        rewrite Z.land_spec, notw_testbit, !Z.pow2_bits_eqb by lia.
        destruct (Z.eqb_spec p j) as [<-|]; [|done]. rewrite (proj2 (Z.eqb_neq _ _) Hne), (proj2 (Z.ltb_lt p 64)) by lia. done. }
    cbv beta. eapply m_bind_Ret_r; [exact Hy|]. cbv beta. by eapply m_bind_Ret_r; [by apply g3_read_int_eq|].
  - done.
  - eapply (only_trans _ []); [exact O1|]. eapply (only_trans _ []); [eapply only_store, F1|].
    eapply (only_trans _ []); [eapply only_store, F2|apply only_log_es].
Qed.

(** ** Presenting the interrupt on the core of the route *)

(** [update_int_list] succeeds; only the flags of [r] and the queues change. *)
Lemma g3_update_q_total b vcpu r i s : shape (vcpu_id vcpu) s -> find_int s r = Some i ->
  exists s' x, update_q b (q3_bit b) vcpu r s = Ret tt s' /\ (shape (vcpu_id vcpu) s' /\ lrs s' = lrs s) /\
    find_int s' r = Some (q_set b x i).
Proof.
  intros Hsh Hr. pose proof Hsh as ((p & Hp & _) & _).
  apply (update_q_run (Q:=g3_queues) (fun t => shape (vcpu_id vcpu) t /\ lrs t = lrs s));
    [| |done|by exists p|done].
  - intros s0 p0 l Hp0 (H & L). split; [|done]. by apply (g3_shape_priv _ _ _ p0); destruct b.
  - intros s0 i0 i' Hr0 (H & L). split; [by eapply g3_shape_store|]. rewrite <- L. by destruct r; simpl; [case_match|].
Qed.

Lemma g3_update_int_list_total vcpu r i s : shape (vcpu_id vcpu) s -> find_int s r = Some i ->
  exists s' x y, update_int_list vcpu r s = Ret tt s' /\ lrs s' = lrs s /\
    find_int s' r = Some (set_in_act_state y (set_in_pend_state x i)).
Proof.
  intros Hsh Hr. destruct (g3_update_q_total true vcpu r i s Hsh Hr) as (s1 & x & E1 & [Hsh1 L1] & F1).
  destruct (g3_update_q_total false vcpu r _ s1 Hsh1 F1) as (s2 & y & E2 & [_ L2] & F2).
  exists s2, x, y. split_and!; [by eapply m_bind_Ret_r; [exact E1|exact E2]|congruence|done].
Qed.

Lemma g3_shape_get_int vcpu id s : shape (vcpu_id vcpu) s ->
  exists o, get_int vcpu id s = Ret o s /\ forall r, o = Some r -> is_Some (find_int s r) /\ ref_id r = id.
Proof.
  intros ((p & Hp & H1 & H2) & H3 & H4). unfold get_int, GIC_PRIVINT_NUM, GIC_INTS_MAX, GIC_SPI_MAX in *.
  destruct (Z.ltb_spec id 32); [|destruct (_ && _) eqn:Eb; [|by exists None]].
  - eexists. split; [eapply m_bind_Ret_r; [by apply g3_read_priv_eq|reflexivity]|].
    intros r. destruct (in_bounds (priv_ints p) id) eqn:Ei; [|done]. intros [= <-].
    split; [|done]. simpl. rewrite Hp. simpl. by apply zget_in_bounds, in_bounds_spec.
  - eexists. split; [reflexivity|]. intros r. destruct (in_bounds (spis s) (id - 32)) eqn:Ei; [|done].
    intros [= <-]. split; [by apply zget_in_bounds, in_bounds_spec|]. simpl. unfold GIC_PRIVINT_NUM. lia.
Qed.

(** Giving up an interrupt out of the list registers: nothing, or its owner is cleared. *)
Lemma g3_yield_total vcpu q j s : find_int s q = Some j -> in_lr j = false ->
  exists s', vgic_int_yield_owner core vcpu q s = Ret tt s' /\ only q [] s s'.
Proof.
  intros Hq Hl. unfold vgic_int_yield_owner. destruct (g3_owns_total vcpu q j s Hq) as [b Eb].
  setoid_rewrite (m_bind_Ret _ _ _ _ _ Eb). setoid_rewrite (m_bind_Ret _ _ _ _ _ (g3_read_int_eq s q j Hq)). rewrite Hl.
  pose proof (only_refl q s). destruct b; simpl; [|by eauto].
  setoid_rewrite (m_bind_Ret _ _ _ _ _ (g3_get_state_out q j s Hq Hl)).
  destruct (testm (to_num (state j)) 2); [by eauto|]. setoid_rewrite (g3_upd_int_eq s q j clear_owner Hq).
  eexists. split; [done|]. by eapply only_store.
Qed.

(** Evicting the previous occupant of the list register does not fault and leaves [r] alone. *)
Lemma g3_evict_total vcpu r i idx s : shape (vcpu_id vcpu) s -> find_int s r = Some i -> 0 <= idx < 64 ->
  exists s', write_lr_evict core vcpu r idx s = Ret tt s' /\ shape (vcpu_id vcpu) s' /\
    find_int s' r = Some i /\ lrs s' = lrs s.
Proof.
  intros Hsh Hr Hidx. pose proof Hsh as ((p & Hp & H1 & H2) & _).
  destruct (zget_in_bounds (curr_lrs p) idx) as [prev Hprev]; [lia|].
  assert (cpu_priv_curr_lrs (vcpu_id vcpu) idx s = Ret prev s) as Ec.
  { eapply m_bind_Ret_r; [by apply g3_read_priv_eq|]. unfold m_idx. by rewrite Hprev. }
  unfold write_lr_evict. setoid_rewrite (m_bind_Ret _ _ _ _ _ Ec).
  destruct ((prev =? ref_id r) || gic_is_priv prev) eqn:Ep; [by exists s|].
  apply orb_false_iff in Ep as [Ep _]. apply Z.eqb_neq in Ep.
  destruct (g3_shape_get_int vcpu prev s Hsh) as (o & Eo & Ho).
  setoid_rewrite (m_bind_Ret _ _ _ _ _ Eo). destruct o as [q|]; [|by exists s].
  destruct (Ho q eq_refl) as [[j Hq] Hid]. assert (r <> q) as Hrq by congruence.
  destruct (g3_owns_total vcpu q j s Hq) as [b Eb]. setoid_rewrite (m_bind_Ret _ _ _ _ _ Eb).
  setoid_rewrite (m_bind_Ret _ _ _ _ _ (g3_read_int_eq s q j Hq)).
  destruct (b && in_lr j && (lr j =? u16 idx)); [|by exists s].
  setoid_rewrite (m_bind_Ret _ _ _ _ _ (g3_upd_int_eq s q j (set_in_lr false) Hq)).
  set (s1 := store_int s q (set_in_lr false j)).
  assert (find_int s1 q = Some (set_in_lr false j)) as Hq1 by (unfold s1; rewrite (g3_find_store _ _ _ j), decide_True by done; done).
  destruct (g3_yield_total vcpu q _ s1 Hq1 eq_refl) as (s2 & E2 & O2).
  pose proof (only_trans _ _ _ _ _ _ (only_store q s j (set_in_lr false j) Hq) O2) as [_ L _ _ F Sh].
  exists s2. split_and!; [exact E2|by apply Sh|by rewrite F|done].
Qed.

(** [write_lr] on a shared software interrupt that is out of the list registers. *)
Lemma g3_write_lr_spi vcpu k i idx s :
  shape (vcpu_id vcpu) s -> find_int s (RSpi k) = Some i -> in_lr i = false -> hw i = false -> 0 <= idx < 16 ->
  exists s' x y, write_lr core vcpu (RSpi k) idx s = Ret tt s' /\
    lrs s' = zset (lrs s) idx (lr_value (ref_id (RSpi k)) (prio i) (to_num (state i)) false) /\
    find_int s' (RSpi k) = Some (set_in_act_state y (set_in_pend_state x
      (set_int_lr (u16 idx) (set_in_lr true (set_state IrqSInactive i))))).
Proof.
  intros Hsh Hr Hl Hw Hidx. destruct (g3_evict_total vcpu _ i idx s Hsh Hr) as (sa & Ea & Hsa & Fa & La); [lia|].
  set (i1 := set_int_lr (u16 idx) (set_in_lr true (set_state IrqSInactive i))).
  set (sb := store_int sa (RSpi k) i1). assert (shape (vcpu_id vcpu) sb) as Hsb by (by eapply g3_shape_store).
  pose proof Hsb as ((p & Hp & P1 & P2) & _ & Lb).
  set (v := lr_value _ _ _ _). set (id := ref_id (RSpi k)) in *.
  set (sc := with_priv (zset (cpu_priv sb) (vcpu_id vcpu) (put_curr_lrs (zset (curr_lrs p) idx (u16 id)) p)) sb).
  set (sd := with_lrs (zset (lrs sc) idx v) sc).
  assert (shape (vcpu_id vcpu) sd) as Hsd.
  { assert (shape (vcpu_id vcpu) sc) as (Q1 & Q2 & Q3) by (apply (g3_shape_priv _ _ _ p); [done|done|done|simpl; by rewrite zlen_zset]).
    split; [done|]. split; [done|]. simpl. by rewrite zlen_zset. }
  assert (find_int sd (RSpi k) = Some i1) as Fd.
  { change (find_int sb (RSpi k) = Some i1). unfold sb. by rewrite (g3_find_store _ _ _ i), decide_True. }
  destruct (g3_update_int_list_total vcpu _ i1 sd Hsd Fd) as (se & x & y & Ee & Le & Fe).
  exists se, x, y. split_and!; [|rewrite Le; unfold sd; simpl; by rewrite La|done].
  eapply m_bind_Ret_r; [by apply g3_read_int_eq|]. cbv beta.
  eapply m_bind_Ret_r; [exact Ea|]. eapply m_bind_Ret_r; [by eapply g3_get_state_out|].
  assert (vgic_int_is_hw (RSpi k) sa = Ret false sa) as Eh.
  { eapply m_bind_Ret_r; [by apply g3_read_int_eq|]. cbv beta. by rewrite Hw, andb_false_r. }
  eapply m_bind_Ret_r; [exact Eh|]. cbv beta. fold id v.
  eapply m_bind_Ret_r; [by apply (g3_upd_int_eq sa _ i)|]. fold sb.
  eapply (m_bind_Ret_r _ _ _ tt sc).
  { unfold set_cpu_priv_curr_lrs. eapply m_bind_Ret_r; [by apply g3_read_priv_eq|]. cbv beta. unfold zstore.
    rewrite in_bounds_true by lia. eapply m_bind_Ret_r; [reflexivity|]. cbv beta. by rewrite (g3_upd_priv_eq sb _ p). }
  eapply (m_bind_Ret_r _ _ _ tt sd); [|exact Ee]. unfold gich_set_lr. eapply m_bind_Ret_r; [reflexivity|]. cbv beta.
  unfold zstore. rewrite in_bounds_true by (change (lrs sc) with (lrs sb); lia). done.
Qed.

(** On the core of the route, the message makes the interrupt pending in the first empty list register. *)
Lemma route_presented vcpu k i p idx s :
  shape (vcpu_id vcpu) s -> find_int s (RSpi k) = Some i -> routed_to p i -> 
  routed_here mpidr (affinity p) = true ->
  first_empty (elrsr (lrs s)) (zrange 0 (Z.to_nat gic_lrs)) = Some idx -> 0 <= idx < 16 ->
  exists s' i', ipi_route core mpidr gic_lrs elrsr vcpu (k + 32) s = Ret tt s' /\
    zget (lrs s') idx = Some (lr_value (k + 32) (prio i) (to_num (state i)) false) /\
    find_int s' (RSpi k) = Some i' /\ in_lr i' = true /\ lr i' = idx /\ owner i' = Some vcpu.
Proof.
  intros Hsh Hr [Hc Hph Ha Ho Hl He Hw] Hh Hf Hidx. pose proof Hsh as (_ & Hlen & Hlrs).
  assert (0 <= k < 992) as Hk by (simpl in Hr; apply zget_Some_bounds in Hr; unfold GIC_SPI_MAX in Hlen; lia).
  destruct (get_owner_free vcpu _ i s Hr (or_introl Ho)) as (s1 & E1 & F1 & O1).
  set (i1 := set_owner vcpu i) in *.
  assert (shape (vcpu_id vcpu) s1) as Hsh1 by (by apply O1).
  assert (lrs s1 = lrs s) as L1 by apply O1.
  destruct (g3_write_lr_spi vcpu k i1 idx s1 Hsh1 F1 Hl Hw Hidx) as (s2 & x & y & E2 & L2 & F2).
  eexists s2, _. split_and!; [|rewrite L2, L1; by apply zget_zset_eq; lia|exact F2|done|by apply wrap_small; unfold in_word; lia|done].
  unfold ipi_route. replace (bit_extract (k + 32) 0 10) with (k + 32).
  2: { apply Z.bits_inj'. intros j Hj. rewrite bit_extract_testbit by lia. rewrite Z.add_0_r.
       destruct (Z.ltb_spec j 10); [done|]. simpl. apply Z.bits_above_log2; [lia|]. apply Z.log2_lt_pow2; [lia|].
       assert (2 ^ 10 <= 2 ^ j) by (apply Z.pow_le_mono_r; lia). lia. }
  eapply m_bind_Ret_r; [by eapply g3_get_int_spi|]. cbv beta iota.
  eapply m_bind_Ret_r; [exact E1|]. cbv beta iota.
  assert (gic_is_priv (ref_id (RSpi k)) = false) as Hpr by (apply Z.ltb_ge; simpl; unfold GIC_PRIVINT_NUM; lia).
  assert (vgic_int_vcpu_is_target mpidr vcpu (RSpi k) s1 = Ret true s1) as Et.
  { eapply m_bind_Ret_r; [by apply g3_read_int_eq|]. cbv beta. rewrite Hpr. unfold phys_route.
    change (phys i1) with (phys i). rewrite Hph. eapply m_bind_Ret_r; [reflexivity|]. cbv beta. by rewrite Hh. }
  eapply m_bind_Ret_r; [exact Et|]. cbv beta iota.
  eapply (m_bind_Ret_r _ _ _ tt s2).
  { eapply m_bind_Ret_r; [|reflexivity]. eapply m_bind_Ret_r; [by apply g3_read_int_eq|]. cbv beta.
    change (enabled i1) with (enabled i). change (in_lr i1) with (in_lr i). rewrite He, Hl. cbn [negb orb].
    eapply m_bind_Ret_r; [reflexivity|]. cbv beta. rewrite L1, Hf.
    eapply m_bind_Ret_r; [reflexivity|]. cbv beta iota. by eapply m_bind_Ret_r; [exact E2|]. }
  cbv beta. eapply m_bind_Ret_r; [by eapply owns_spi|]. cbv beta. by eapply m_bind_Ret_r; [by apply g3_read_int_eq|].
Qed.
End routing.

(** ** An interrupt follows its route *)

Lemma first_empty_in status l idx : first_empty status l = Some idx -> idx ∈ l.
Proof.
  induction l as [|x l IH]; simpl; [done|]. destruct (bit_get status (x mod 32) =? 0); [right; auto|].
  intros [= ->]. left.
Qed.

Lemma testbit_small x n j : 0 <= x < 2 ^ n -> 0 <= n <= j -> Z.testbit x j = false.
Proof.
  intros Hx Hn. destruct (Z.eq_dec x 0) as [->|]; [apply Z.testbit_0_l|].
  apply Z.bits_above_log2; [lia|]. apply Z.log2_lt_pow2; [lia|]. assert (2 ^ n <= 2 ^ j) by (apply Z.pow_le_mono_r; lia). lia.
Qed.

(** The bits of the word of a shared software interrupt: number, EOI bit, priority, group, state. *)
Lemma lr_value_testbit id p st j : 32 <= id -> 0 <= j < 64 ->
  Z.testbit (lr_value id p st false) j =
    Z.testbit id j && (j <? 32) || Z.testbit p (j - 48) && ((48 <=? j) && (j <? 56)) || (j =? 41) ||
    Z.testbit st (j - 62) && (62 <=? j) || (j =? 60).
Proof.
  intros Hid Hj.
  unfold lr_value, gic_is_priv, GICH_LR_VID_MASK, GICH_LR_PRIO_MSK, GICH_LR_EOI_BIT, GICH_LR_STATE_MSK, GICH_LR_GRP_BIT.
  rewrite (proj2 (Z.ltb_ge id GIC_PRIVINT_NUM)) by (unfold GIC_PRIVINT_NUM; lia). cbv iota delta [negb].
  rewrite !Z.lor_spec, !Z.land_spec, shlw_testbit, !Z.shiftl_spec by lia. rewrite Z.testbit_ones_nonneg by lia.
  assert (forall m, Z.testbit 1 (j - m) = (j =? m)) as H1.
  { intros m. change 1 with (2 ^ 0). rewrite Z.pow2_bits_eqb by lia. apply eq_true_iff_eq. rewrite !Z.eqb_eq. lia. }
  assert (forall n m, 0 <= n -> Z.testbit (Z.ones n) (j - m) = (m <=? j) && (j <? m + n)) as Ho.
  { intros n m Hn. destruct (Z.leb_spec m j); [rewrite Z.testbit_ones_nonneg by lia|by rewrite Z.testbit_neg_r by lia].
    apply eq_true_iff_eq. rewrite andb_true_iff, !Z.ltb_lt. lia. }
  rewrite !H1, !Ho by lia. change (62 + 2) with 64. change (48 + 8) with 56. rewrite (proj2 (Z.ltb_lt j 64)) by lia.
  destruct (62 <=? j), (Z.testbit st (j - 62)); simpl; rewrite ?andb_true_r, ?andb_false_r; done.
Qed.

(** A field whose bits are those of [x]. *)
Lemma bit_extract_is v off len x : 0 <= v -> 0 <= off < 64 -> 0 <= len < 64 -> 0 <= x < 2 ^ len ->
  (forall j, 0 <= j < len -> Z.testbit v (j + off) = Z.testbit x j) -> bit_extract v off len = x.
Proof.
  intros ???? H. apply Z.bits_inj'. intros j Hj. rewrite bit_extract_testbit by lia.
  destruct (Z.ltb_spec j len); [apply H; lia|]. by rewrite (testbit_small x len) by lia.
Qed.

Lemma lr_value_nonneg id p st : 0 <= lr_value id p st false.
Proof.
  unfold lr_value. rewrite !Z.lor_nonneg, !Z.land_nonneg. case_match; rewrite ?Z.lor_nonneg, ?Z.land_nonneg;
    repeat match goal with |- _ /\ _ => split | |- _ \/ _ => right end; by vm_compute.
Qed.

(** The word of a list register: number, priority, state, and the EOI bit of a shared software interrupt. *)
Lemma lr_value_fields id p st : 32 <= id < 1024 -> 0 <= p < 256 -> 0 <= st < 4 ->
  let v := lr_value id p st false in
  bit_extract v 0 32 = id /\ bit_extract v 48 8 = p /\ bit_extract v 62 2 = st /\ Z.testbit v 41 = true.
Proof.
  intros Hid Hp Hst v. pose proof (lr_value_nonneg id p st).
  split_and!; [apply bit_extract_is; try lia..|]; [intros j Hj; unfold v; rewrite lr_value_testbit by lia..|].
  - rewrite Z.add_0_r, !(proj2 (Z.leb_gt _ j)), (proj2 (Z.ltb_lt j 32)), !(proj2 (Z.eqb_neq j _)) by lia.
    by rewrite andb_true_r, !andb_false_r, !orb_false_r.
  - rewrite (proj2 (Z.leb_gt 62 _)), (proj2 (Z.leb_le 48 _)), (proj2 (Z.ltb_ge _ 32)), (proj2 (Z.ltb_lt _ 56)),
      !(proj2 (Z.eqb_neq _ _)), Z.add_simpl_r by lia. by rewrite andb_true_r, !andb_false_r, !orb_false_r.
  - rewrite (proj2 (Z.leb_le 62 _)), (proj2 (Z.ltb_ge _ 32)), (proj2 (Z.ltb_ge _ 56)),
      !(proj2 (Z.eqb_neq _ _)), Z.add_simpl_r by lia. by rewrite andb_true_r, !andb_false_r, !orb_false_r.
  - unfold v. rewrite lr_value_testbit by lia. rewrite Z.eqb_refl, !orb_true_r. done.
Qed.

(** The message that says where an interrupt is routed. *)
Definition route_msg (vm : Vm) (id : Z) : IpiInitcMessage := mkInitc VgicdRoute (vm_id vm) id 0.

(** The registers of another core in place of this one's. *)
Definition on_core (h : Z) (l g : list Z) (s : G3) : G3 := with_hcr h (with_lrs l (with_gpr g s)).

Lemma broadcast_low val r : vgic_broadcast (set_route_field (Z.land val GICD_IROUTER_RES0_MSK) r) = testm val GICD_IROUTER_IRM_BIT.
Proof.
  unfold vgic_broadcast, GICD_IROUTER_IRM_BIT, GICD_IROUTER_RES0_MSK. simpl iroute. rewrite !testm_bit by lia.
  by rewrite Z.land_spec, Z.testbit_ones_nonneg, andb_true_r by lia.
Qed.

(** C3. An interrupt follows its route.  A vCPU writes the affinity of another vCPU into the GICD_IROUTER of an idle, enabled
    software interrupt and then raises it.  Exactly one message goes out, to the core of that vCPU, and the interrupt is
    in no list register of this core.  The message, handled on that core with a list register free, puts the interrupt
    into the first free one: pending, with its number, its priority and the EOI bit, owned by the vCPU of that core. *)
Theorem spi_follows_irouter rk num gic_lrs elrsr act core mpidr vcpu vm v val k i s :
  shape (vcpu_id v) s -> find_int s (RSpi k) = Some i -> free_for vcpu i -> in_lr i = false -> state i = IrqSInactive ->
  enabled i = true -> hw i = false -> 0 <= prio i < 256 ->
  testm val GICD_IROUTER_IRM_BIT = false -> get_vcpu_by_mpidr rk vm (Z.land val MPIDR_AFF_MSK) = Some v ->
  core_ok rk (phys_id v) -> phys_id v < num <= 64 -> 0 <= gic_lrs <= 16 ->
  vcpu_vm_id vcpu = vm_id vm -> phys_id vcpu <> phys_id v -> 0 <= phys_id vcpu < 64 ->
  routed_here mpidr (affinity rk (phys_id v)) = false ->
  exists s1 s2,
    vgicd_set_irouter core mpidr gic_lrs num rk elrsr act vm vcpu (k + 32) val s = Ret tt s1 /\
    set_pend core mpidr gic_lrs num rk elrsr act vcpu (k + 32) true s1 = Ret tt s2 /\
    glog s2 = glog s ++ [EvIpi (phys_id v) (route_msg vm (k + 32))] /\ lrs s2 = lrs s /\
    forall act' mpidr' h l g idx, zlen l = 16 -> Z.land mpidr' MPIDR_AFF_MSK = affinity rk (phys_id v) ->
      first_empty (elrsr l) (zrange 0 (Z.to_nat gic_lrs)) = Some idx ->
      exists s3 i3 w,
        vgic_ipi_handler (phys_id v) mpidr' gic_lrs num rk elrsr act' vm v (route_msg vm (k + 32)) (on_core h l g s2) = Ret tt s3 /\
        zget (lrs s3) idx = Some w /\ bit_extract w 0 32 = k + 32 /\ bit_extract w 48 8 = prio i /\ bit_extract w 62 2 = 1 /\
        Z.testbit w 41 = true /\
        find_int s3 (RSpi k) = Some i3 /\ in_lr i3 = true /\ lr i3 = idx /\ owner i3 = Some v.
Proof.
  intros Hsh Hr Hfree Hl Hs He Hw Hprio Hirm Hv Hc Hn Hg Hvm Hne Hvc Hh.
  pose proof Hsh as (_ & Hlen & _). set (p := phys_id v) in *.
  assert (0 <= k < 992) as Hk by (simpl in Hr; apply zget_Some_bounds in Hr; unfold GIC_SPI_MAX in Hlen; lia).
  assert (0 <= p) as Hp by (unfold core_ok in Hc; lia).
  destruct (irouter_write core mpidr gic_lrs num rk elrsr act vm vcpu k i val s Hlen Hr Hfree Hl Hs) as (s1 & E1 & F1 & O1).
  assert (irouter_phys rk vcpu vm val = affinity rk p) as Ep by (unfold irouter_phys; by rewrite Hirm, Hv).
  rewrite Ep, Hw in *. set (i1 := clear_owner _) in F1.
  assert (routed_to rk p i1) as Hrt by (split; try done; by rewrite <- Hirm; apply broadcast_low).
  assert (zlen (spis s1) = GIC_SPI_MAX) as Hlen1 by (by apply (only_shape _ _ _ _ O1) in Hsh as (_ & ? & _)).
  destruct (pend_forwarded core mpidr gic_lrs num rk elrsr act vcpu k i1 p s1 Hlen1 F1 Hrt Hs) as (s2 & E2 & F2 & O2);
    [lia..|done|done|done|].
  rewrite Hvm, (wrap_small 16) in O2 by (unfold in_word; lia). fold (route_msg vm (k + 32)) in O2.
  set (i2 := clear_owner _) in F2. pose proof (only_trans _ _ _ _ _ _ O1 O2) as O.
  exists s1, s2. split_and!; [done|done|apply O|apply O|].
  intros act' mpidr' h l g idx Hll Hm Hf. set (s2' := on_core h l g s2).
  assert (shape (vcpu_id v) s2') as Hsh2 by (apply (only_shape _ _ _ _ O) in Hsh as (? & ? & _); done).
  assert (routed_to rk p i2) as Hrt2 by (destruct Hrt; by split).
  apply first_empty_in in Hf as Hidx. apply zrange_elem in Hidx.
  destruct (route_presented p mpidr' gic_lrs rk elrsr v k i2 p idx s2' Hsh2 F2 Hrt2) as (s3 & i3 & E3 & W & F3 & H1 & H2 & H3);
    [unfold routed_here; by rewrite Hm, Z.lxor_nilpotent|done|lia|].
  destruct (lr_value_fields (k + 32) (prio i2) 1) as (V1 & V2 & V3 & V4); [lia|done|lia|].
  exists s3, i3, (lr_value (k + 32) (prio i2) 1 false). split_and!; try done.
  unfold vgic_ipi_handler. simpl msg_vm_id. by rewrite Z.eqb_refl.
Qed.

(** ** Software-generated interrupts *)

Definition sgi_events (vm : Vm) (id : Z) (cores : list Z) : list g3_event :=
  (fun i => EvIpi i (mkInitc Vgicdinject (vm_id vm) id 1)) <$> cores.

Lemma send_sgi num vm mask id s : num <= 64 ->
  vgic_send_sgi_msg num vm mask id s =
    Ret tt (log s (sgi_events vm (u16 id) (filter (fun i => Z.testbit mask i) (zrange 0 (Z.to_nat num))))).
Proof.
  intros Hn. unfold vgic_send_sgi_msg, sgi_events. rewrite (g3_m_for_emit _ (fun i => EvIpi i (mkInitc Vgicdinject (vm_id vm) (u16 id) 1))).
  do 3 f_equal. assert (forall l : list Z, (forall i, i ∈ l -> 0 <= i < 64) ->
    filter (fun i => testm mask (shlw 64 1 i)) l = filter (fun i => Z.testbit mask i) l) as Hf.
  { induction l as [|i l IH]; intros Hl; [done|]. rewrite !filter_cons.
    rewrite testm_shlw64 by (apply Hl; left). by rewrite IH by (intros; apply Hl; by right). }
  apply Hf. intros i Hi%zrange_elem. lia.
Qed.

(** The low byte of a translated target list. *)
Lemma target_low vm t i : 0 <= i < 8 ->
  Z.testbit (vgic_target_translate vm t true) i = Z.testbit (vcpu_to_pcpu_mask vm (Z.land t 0xff) 8) i.
Proof.
  intros Hi. unfold vgic_target_translate. cbn [foldl].
  rewrite !Z.lor_spec, !shlw_testbit, !wrap_testbit, Z.testbit_0_l by lia.
  rewrite (proj2 (Z.ltb_lt i 32)), (proj2 (Z.leb_le _ i)), !(proj2 (Z.leb_gt _ i)) by lia.
  rewrite Z.sub_0_r, (proj2 (Z.ltb_lt i 32)) by lia. cbn [andb orb]. rewrite Z.mul_0_r, Z.shiftr_0_r.
  by rewrite ?andb_false_r, !orb_false_r.
Qed.

(** How far the target list is shifted: by Aff1, on the board whose cores differ in it. *)
Definition sgi_aff1 (rk3588 : bool) (sgir : Z) : Z :=
  if testm sgir 0xff0000 && rk3588 then Z.shiftr (Z.land sgir 0xf0000) 16 else 0.

Lemma sgi_aff1_range rk sgir : 0 <= sgi_aff1 rk sgir < 16.
Proof.
  unfold sgi_aff1. case_match; [|lia]. rewrite Z.shiftr_land. change (Z.shiftr 0xf0000 16) with (Z.ones 4).
  rewrite Z.land_ones by lia. apply Z.mod_pos_bound. lia.
Qed.

(** The low byte of the target list, as [sgi_targets] computes it. *)
Lemma sgi_list_bit rk sgir v : 0 <= v < 8 ->
  Z.testbit (Z.land (u32 (if testm sgir 0xff0000 && rk then shlw 64 (Z.land sgir 0xffff) (Z.shiftr (Z.land sgir 0xf0000) 16)
                          else Z.land sgir 0xffff)) 0xff) v =
    Z.testbit (Z.shiftl (Z.land sgir 0xffff) (sgi_aff1 rk sgir)) v.
Proof.
  intros Hv. change 0xff with (Z.ones 8). rewrite Z.land_spec, wrap_testbit, Z.testbit_ones_nonneg by lia.
  rewrite (proj2 (Z.ltb_lt v 32)), (proj2 (Z.ltb_lt v 8)), andb_true_r by lia. cbn [andb].
  pose proof (sgi_aff1_range rk sgir) as Ha. unfold sgi_aff1 in *. destruct (testm sgir 0xff0000 && rk); [|by rewrite Z.shiftl_0_r].
  rewrite shlw_testbit, Z.shiftl_spec, (proj2 (Z.ltb_lt v 64)) by lia. cbn [andb].
  destruct (Z.leb_spec (Z.shiftr (Z.land sgir 0xf0000) 16) v); [done|]. by rewrite Z.testbit_neg_r by lia.
Qed.

Lemma sgi_target_bit core rk vm sgir p : vcpus_ok vm -> (length (vcpu_list vm) <= 8)%nat ->
  testm sgir GICC_SGIR_IRM_BIT = false -> 0 <= p < 8 ->
  Z.testbit (sgi_targets core rk vm sgir) p = true <->
  exists v, vcpuid_to_pcpuid vm v = Some p /\ Z.testbit (Z.shiftl (Z.land sgir 0xffff) (sgi_aff1 rk sgir)) v = true.
Proof.
  intros Hok Hlen Hirm Hp. unfold sgi_targets. rewrite Hirm, target_low by done.
  match goal with |- context [vcpu_to_pcpu_mask vm ?m 8] => destruct (cpu_mask_roundtrip vm m Hok Hlen) as [_ Hm] end.
  rewrite Hm by lia.
  assert (forall v, vcpuid_to_pcpuid vm v = Some p -> 0 <= v < 8) as Hv.
  { unfold vcpuid_to_pcpuid. intros v Hv. destruct (zget (vcpu_list vm) v) eqn:E; [|done].
    apply zget_Some_bounds in E. unfold zlen in E. lia. }
  split; intros (v & Hvp & Hb); exists v; (split; [done|]).
  - by rewrite <- sgi_list_bit by (by apply Hv).
  - cbv zeta. by rewrite sgi_list_bit by (by apply Hv).
Qed.

(** A software-generated interrupt reaches its targets.  A guest's write to ICC_SGI1R sends one injection to each physical
    core of a vCPU whose bit is set in the target list (shifted by Aff1 on the board where cores differ in it), or, with
    the routing-mode bit, to each core of the VM but this one; to no other core, and changes nothing else. *)
Theorem sgi_reaches_targets core num rk vm c sgir s :
  write c = true -> get_gpr (reg c) s = Ret sgir s -> 0 <= sgir -> vcpus_ok vm -> (length (vcpu_list vm) <= 8)%nat ->
  0 <= core < 64 -> num <= 8 ->
  exists cores, NoDup cores /\
    vgic_icc_sgir_handler core num rk vm c s = Ret true (log s (sgi_events vm (bit_extract sgir 24 4) cores)) /\
    forall p, p ∈ cores <-> 0 <= p < num /\
      if testm sgir GICC_SGIR_IRM_BIT then Z.testbit (ncpu vm) p = true /\ p <> core
      else exists v, vcpuid_to_pcpuid vm v = Some p /\ Z.testbit (Z.shiftl (Z.land sgir 0xffff) (sgi_aff1 rk sgir)) v = true.
Proof.
  intros Hw Hv Hpos Hok Hlen Hc Hn. set (mask := sgi_targets core rk vm sgir).
  exists (filter (fun i => Z.testbit mask i) (zrange 0 (Z.to_nat num))). split_and!.
  - apply list.NoDup_filter, zrange_NoDup.
  - assert (u16 (bit_extract sgir 24 4) = bit_extract sgir 24 4) as Eid.
    { apply wrap_small. destruct (bit_extract_range sgir 24 4); [lia..|]. split; [done|].
      eapply Z.lt_le_trans; [done|]. done. }
    unfold vgic_icc_sgir_handler. rewrite Hw. eapply m_bind_Ret_r; [|reflexivity].
    eapply m_bind_Ret_r; [exact Hv|]. cbv beta. by rewrite send_sgi, Eid by lia.
  - intros p. rewrite list_elem_of_filter, Is_true_true, zrange_elem.
    assert (forall P Q : Prop, (0 <= p < num -> P <-> Q) -> (P /\ 0 <= p < 0 + Z.of_nat (Z.to_nat num) <-> 0 <= p < num /\ Q)) as Hs
      by (intros P Q H; split; intros [? ?]; (split; [try lia|try lia]); apply H; done || lia).
    apply Hs. intros Hp. unfold mask. destruct (testm sgir GICC_SGIR_IRM_BIT) eqn:Ei.
    + unfold sgi_targets. rewrite Ei, Z.land_spec, notw_testbit, shlw_1, Z.pow2_bits_eqb by lia.
      rewrite (proj2 (Z.ltb_lt p 64)), xorb_true_r, andb_true_iff, negb_true_iff, Z.eqb_neq by lia. naive_solver.
    + apply sgi_target_bit; [done..|lia].
Qed.

(** ** Refilling the list registers *)

(** The vCPU of another VM, or another vCPU of the same. *)
Definition other_vcpu (o v : Vcpu) : Prop := vcpu_vm_id o <> vcpu_vm_id v \/ vcpu_id o <> vcpu_id v.

Lemma get_owner_other vcpu r i o s : find_int s r = Some i -> owner i = Some o -> other_vcpu o vcpu ->
  vgic_int_get_owner vcpu r s = Ret false s.
Proof.
  intros Hr Ho Hne. eapply m_bind_Ret_r; [by apply g3_read_int_eq|]. cbv beta. rewrite Ho. unfold m_ret. f_equal.
  apply andb_false_iff. rewrite !Z.eqb_neq. exact Hne.
Qed.

(** The refill of the list registers waits for other vCPUs.  While a list register is free and the most urgent
    interrupt spilled to a vCPU's queues belongs to another vCPU, [refill_lrs] does nothing and never ends: no amount
    of fuel is enough, since an interrupt it cannot have is looked up again in the same state. *)
Theorem refill_waits_for_owner gic_lrs elrsr vcpu (flag : bool) s idx p r i o :
  bitmap_find_nth (elrsr (lrs s)) 0 gic_lrs 1 true = Some idx -> zget (cpu_priv s) (vcpu_id vcpu) = Some p ->
  min_from (spill_key s) (pend_list p ++ (if flag then [] else act_list p)) None = Some (Some r) ->
  find_int s r = Some i -> owner i = Some o -> other_vcpu o vcpu ->
  forall (core : Z) (fuel : nat), refill_lrs core gic_lrs elrsr fuel vcpu flag s = Fault FuelOut.
Proof.
  intros Hf Hp Hmin Hr Ho Hne core fuel. unfold refill_lrs.
  rewrite (m_bind_Ret (gich_elrsr elrsr) _ s (elrsr (lrs s)) s eq_refl), Hf.
  induction fuel as [|fuel IH]; [done|]. cbn [refill_loop].
  assert (vgic_highest_proi_spilled vcpu flag s = Ret (Some r) s) as Eh.
  { eapply m_bind_Ret_r; [by apply g3_read_priv_eq|]. cbv beta. unfold min_by_key, m_bind, m_get. by rewrite Hmin. }
  rewrite (m_bind_Ret _ _ _ _ _ Eh). by rewrite (m_bind_Ret _ _ _ _ _ (get_owner_other _ _ _ _ _ Hr Ho Hne)).
Qed.

(** ** A guest that routes a private interrupt *)

Section private.
Context (core mpidr gic_lrs num : Z) (rk3588 : bool) (elrsr : list Z -> Z).

(** A private interrupt of [vcpu] that nobody else has, idle, enabled and emulated. *)
Record priv_ready (vcpu : Vcpu) (n : Z) (i : VgicInt) (s : G3) : Prop := {
  pv_find : find_int s (RPriv (vcpu_id vcpu) n) = Some i;
  pv_range : 0 <= n < 32;
  pv_owner : free_for vcpu i;
  pv_out : in_lr i = false;
  pv_idle : state i = IrqSInactive;
  pv_enabled : enabled i = true;
  pv_sw : hw i = false;
}.

Lemma get_int_priv vcpu n i s : find_int s (RPriv (vcpu_id vcpu) n) = Some i -> 0 <= n < 32 ->
  get_int vcpu n s = Ret (Some (RPriv (vcpu_id vcpu) n)) s.
Proof.
  intros Hr Hn. simpl in Hr. destruct (zget (cpu_priv s) (vcpu_id vcpu)) as [p|] eqn:Ep; [|done]. simpl in Hr.
  apply zget_Some_bounds in Hr. unfold get_int, GIC_PRIVINT_NUM. rewrite (proj2 (Z.ltb_lt n 32)) by lia.
  eapply m_bind_Ret_r; [by apply g3_read_priv_eq|]. cbv beta. by rewrite in_bounds_true.
Qed.

(** The write turns what the interrupt belongs to into a route. *)
Lemma irouter_priv vm vcpu n i val s : priv_ready vcpu n i s ->
  exists s' i', vgicd_set_irouter core mpidr gic_lrs num rk3588 elrsr (Some vm) vm vcpu n val s = Ret tt s' /\
    priv_ready vcpu n i' s' /\ exists route, phys i' = Route route.
Proof.
  intros [Hr Hn Ho Hl Hs He Hw]. set (r := RPriv (vcpu_id vcpu) n) in *.
  destruct (get_owner_free vcpu r i s Hr Ho) as (s1 & E1 & F1 & _).
  set (i1 := set_owner vcpu i) in *. set (p := irouter_phys rk3588 vcpu vm val). set (i2 := set_phys_route p i1).
  set (s2 := store_int s1 r i2).
  assert (find_int s2 r = Some i2) as F2 by (unfold s2; by rewrite (g3_find_store _ _ _ i1), decide_True).
  set (i3 := set_route_field (Z.land val GICD_IROUTER_RES0_MSK) i2). set (s3 := store_int s2 r i3).
  assert (find_int s3 r = Some i3) as F3 by (unfold s3; by rewrite (g3_find_store _ _ _ i2), decide_True).
  set (i4 := clear_owner i3). set (s4 := store_int s3 r i4).
  assert (find_int s4 r = Some i4) as F4 by (unfold s4; by rewrite (g3_find_store _ _ _ i3), decide_True).
  exists s4, i4. split_and!; [|by split; try done; left|by exists p].
  eapply m_bind_Ret_r; [by eapply get_int_priv|]. cbv beta iota. fold r.
  eapply m_bind_Ret_r; [exact E1|]. cbv beta iota.
  eapply m_bind_Ret_r; [by eapply remove_lr_out|]. cbv beta zeta. fold p.
  eapply m_bind_Ret_r; [by apply (g3_upd_int_eq s1 _ i1)|]. fold i2 s2.
  eapply m_bind_Ret_r; [by apply (g3_upd_int_eq s2 _ i2)|]. fold i3 s3.
  eapply m_bind_Ret_r; [by apply g3_read_int_eq|]. cbv beta. change (hw i3) with (hw i). rewrite Hw.
  eapply m_bind_Ret_r; [reflexivity|].
  eapply m_bind_Ret_r.
  { eapply m_bind_Ret_r; [by apply g3_read_int_eq|]. cbv beta. change (state i3) with (state i). by rewrite Hs. }
  assert (vgic_owns vcpu r s3 = Ret true s3) as Eo.
  { unfold vgic_owns, gic_is_priv. by rewrite (proj2 (Z.ltb_lt _ _)) by (simpl; unfold GIC_PRIVINT_NUM; lia). }
  eapply m_bind_Ret_r; [exact Eo|]. cbv beta. eapply m_bind_Ret_r; [by apply g3_read_int_eq|]. cbv beta.
  change (in_lr i3) with (in_lr i). rewrite Hl. cbn [negb orb].
  eapply m_bind_Ret_r; [by apply (g3_get_state_out core r i3)|]. cbv beta. change (state i3) with (state i). rewrite Hs.
  by apply (g3_upd_int_eq s3 _ i3).
Qed.

(** Routing an interrupt that should have a redistributor panics. *)
Lemma pend_panics act vcpu n i route s : priv_ready vcpu n i s -> phys i = Route route ->
  set_pend core mpidr gic_lrs num rk3588 elrsr act vcpu n true s = Fault ExplicitPanic.
Proof.
  intros [Hr Hn Ho Hl Hs He Hw] Hph. set (r := RPriv (vcpu_id vcpu) n) in *.
  destruct (get_owner_free vcpu r i s Hr Ho) as (s1 & E1 & F1 & _).
  set (i1 := set_owner vcpu i) in *. set (i2 := set_state IrqSPend i1). set (s2 := store_int s1 r i2).
  assert (find_int s2 r = Some i2) as F2 by (unfold s2; by rewrite (g3_find_store _ _ _ i1), decide_True).
  unfold set_pend. rewrite (m_bind_Ret _ _ _ _ _ (get_int_priv vcpu n i s Hr Hn)). fold r.
  rewrite (m_bind_Ret _ _ _ _ _ E1). unfold change_state.
  rewrite (m_bind_Ret _ _ _ _ _ (remove_lr_out core vcpu r i1 s1 F1 Hl)), (m_bind_Ret _ _ _ _ _ (g3_read_int_eq s1 r i1 F1)).
  change (state i1) with (state i). rewrite Hs.
  rewrite (m_bind_Ret _ _ s1 IrqSPend s1 eq_refl), (m_bind_Ret _ _ _ _ _ (g3_upd_int_eq s1 r i1 (set_state IrqSPend) F1)).
  fold i2 s2. rewrite (m_bind_Ret _ _ _ _ _ (g3_read_int_eq s2 r i2 F2)). cbv beta zeta. change (hw i2) with (hw i). rewrite Hw.
  rewrite (m_bind_Ret _ _ s2 tt s2 eq_refl). unfold m_bind at 1, Gic3Lr.route.
  rewrite (m_bind_Ret _ _ _ _ _ (g3_read_int_eq s2 r i2 F2)). change (enabled i2) with (enabled i). rewrite He.
  change (state i2) with IrqSPend. cbv iota delta [negb]. unfold vgic_int_vcpu_is_target.
  rewrite m_bind_assoc, (m_bind_Ret _ _ _ _ _ (g3_read_int_eq s2 r i2 F2)). unfold gic_is_priv.
  rewrite (proj2 (Z.ltb_lt (ref_id r) _)) by (simpl; unfold GIC_PRIVINT_NUM; lia).
  unfold phys_redist. change (phys i2) with (phys i). by rewrite Hph.
Qed.
End private.

(** An access to GICD_IROUTER<n> reaches [emu_irouter_access]. *)
Lemma handler_irouter core mpidr gic_lrs num rk elrsr vcpu vm hw_ctlr hw_id c n s s' :
  low16 c = 0x6000 + 8 * n -> 0 <= n < 1024 ->
  emu_irouter_access core mpidr gic_lrs num rk elrsr vcpu vm c s = Ret tt s' ->
  handler core mpidr gic_lrs num rk elrsr vcpu vm hw_ctlr hw_id c s = Ret true s'.
Proof.
  intros Ha Hn E. unfold handler, vgicd_emu_access_is_vaild. rewrite Z.shiftr_land, Ha.
  set (off := 0x6000 + 8 * n) in *. assert (0xc0 <= Z.shiftr off 7 < 0x100) as Hp.
  { rewrite Z.shiftr_div_pow2 by lia. change (2 ^ 7) with 128. unfold off. clear - Hn. split; [apply Z.div_le_lower_bound|apply Z.div_lt_upper_bound]; lia. }
  assert (Z.land (Z.shiftr off 7) (Z.shiftr 0xff80 7) = Z.shiftr off 7) as ->.
  { change (Z.shiftr 0xff80 7) with (Z.ones 9). rewrite Z.land_ones by lia. apply Z.mod_small. lia. }
  set (pre := Z.shiftr off 7) in *. cbn [existsb].
  rewrite !(proj2 (Z.eqb_neq pre _)) by lia. cbn [orb]. rewrite (proj2 (Z.leb_le 0x400 off)), (proj2 (Z.ltb_ge off 0xc00)) by lia.
  cbn [andb negb]. rewrite !(proj2 (Z.eqb_neq off _)) by lia. rewrite (proj2 (Z.ltb_ge off 0x800)) by lia.
  rewrite (proj2 (Z.leb_le 0x800 off)), (proj2 (Z.leb_le 0x6000 off)), (proj2 (Z.ltb_lt off 0x8000)) by lia. cbn [andb].
  by eapply m_bind_Ret_r; [exact E|].
Qed.

(** A guest can make its next private interrupt panic.  A write to the (reserved) GICD_IROUTER of an enabled private
    interrupt or SGI, with any value, succeeds; the next injection of that interrupt into that vCPU panics, because the
    write has replaced its redistributor by a route. *)
Theorem private_irouter_panics core mpidr gic_lrs num rk elrsr vcpu vm hw_ctlr hw_id c val n i s :
  write c = true -> get_gpr (reg c) s = Ret val s -> low16 c = 0x6000 + 8 * n -> 0 <= address c -> priv_ready vcpu n i s ->
  exists s', handler core mpidr gic_lrs num rk elrsr vcpu vm hw_ctlr hw_id c s = Ret true s' /\
    forall core' mpidr' act, inject core' mpidr' gic_lrs num rk elrsr act vcpu n s' = Fault ExplicitPanic.
Proof.
  intros Hw Hv Ha Hpos Hp. pose proof (pv_range _ _ _ _ Hp) as Hn.
  destruct (irouter_priv core mpidr gic_lrs num rk elrsr vm vcpu n i val s Hp) as (s' & i' & E & Hp' & route & Hr).
  exists s'. split.
  - eapply handler_irouter; [exact Ha|lia|]. unfold emu_irouter_access, written. rewrite Hw.
    eapply m_bind_Ret_r; [exact Hv|]. cbv beta zeta.
    rewrite bit_extract_value, Z.pow_0_r, Z.div_1_r, <- Z.land_ones by lia. change (Z.land (address c) (Z.ones 16)) with (low16 c).
    rewrite Ha. replace (0x6000 + 8 * n - 0x6000) with (n * 8) by lia.
    rewrite wrap_small, Z.div_mul by (unfold in_word; lia). exact E.
  - intros core' mpidr' act. unfold inject. rewrite (bit_extract_is n 0 10 n) by (lia || (intros; by rewrite Z.add_0_r)).
    rewrite (m_bind_Ret _ _ _ _ _ (get_int_priv vcpu n i' s' (pv_find _ _ _ _ Hp') Hn)).
    rewrite (m_bind_Ret _ _ _ _ _ (g3_read_int_eq _ _ _ (pv_find _ _ _ _ Hp'))), (pv_sw _ _ _ _ Hp').
    by eapply pend_panics.
Qed.

(** On QEMU the cores from 4 on have Aff1 set, which the mask of the targets takes as part of a shift amount: an interrupt
    that is routed to core [p] is forwarded to core [p - 4]. *)
Lemma qemu_route_wraps p : 4 <= p < 8 -> i32_bit (affinity false p) = 2 ^ (p - 4).
Proof.
  intros Hp. assert (p = 4 \/ p = 5 \/ p = 6 \/ p = 7) as Hc by lia. by destruct Hc as [->|[->|[->| ->]]].
Qed.

(** A write to GICD_CTLR, whatever its value, leaves the virtual interface as it is or enables it: the affinity-routing
    bit keeps the register from zero. *)
Lemma ctlr_never_disables vm hw_ctlr c s s' :
  write c = true -> emu_ctrl_access vm hw_ctlr c s = Ret tt s' ->
  ctlr s' <> 0 /\ (hcr s' = hcr s \/ hcr s' = Z.lor (hcr s) GICH_HCR_EN_BIT).
Proof.
  intros Hw. unfold emu_ctrl_access. rewrite Hw.
  destruct (get_gpr (reg c) s) as [v s0|] eqn:Ev; [|by unfold m_bind, m_gets, m_modify; simpl; rewrite Ev].
  assert (s0 = s) as -> by (by eapply g3_reads_get_gpr).
  rewrite (m_bind_Ret (m_gets ctlr) _ s _ s eq_refl), (m_bind_Ret _ _ _ _ _ Ev).
  set (x := Z.lor (Z.land (u32 v) 2) GICD_CTLR_ARE_NS_BIT).
  rewrite (m_bind_Ret (m_modify (with_ctlr x)) _ s tt (with_ctlr x s) eq_refl), (m_bind_Ret (m_gets ctlr) _ (with_ctlr x s) x _ eq_refl).
  assert (x <> 0) as Hx.
  { intros H0. assert (Z.testbit x 4 = false) as H4 by (rewrite H0; apply Z.testbit_0_l).
    unfold x in H4. by rewrite Z.lor_spec, orb_true_r in H4. }
  destruct (Z.lxor (ctlr s) x =? 0); [intros [= <-]; split; [done|by left]|].
  rewrite (proj2 (Z.eqb_neq x 0)) by done. intros [= <-]. split; [done|by right].
Qed.

(** ** Witnesses *)

(** Status of the list registers: bit [j] is set when register [j] is empty. *)
Definition demo_elrsr (l : list Z) : Z :=
  foldl (fun acc j => match zget l j with
                      | Some w => if bit_extract w 62 2 =? 0 then Z.lor acc (Z.shiftl 1 j) else acc
                      | None => acc end) 0 (zrange 0 16).

(** The VM of [Vm.demo_vm], with a device that has interrupt 40: vCPU 0 on core 2, vCPU 1 on core 0, vCPU 2 on core 3. *)
Definition demo_vm3 : Vm :=
  mkVm 1 demo_cpus [mkEmuCfg 0xa003000 0x1000 40 0] [mkVcpu 0 2 1; mkVcpu 1 0 1; mkVcpu 2 3 1] (int_bitmap demo_vm) 1
    [mkVmPa 0x50000000 0x1000000 0x30000000].
Definition demo_v0 : Vcpu := mkVcpu 0 2 1.
Definition demo_v1 : Vcpu := mkVcpu 1 0 1.

Definition demo3_init : G3 :=
  emu_intc_init 0x37a0007 0x43b (fun _ => 0) (fun _ => 0x43b) vcpu_id (vcpu_list demo_vm3) 0 (replicate 16 0) (replicate 31 0).

(** The vCPU writes a register of the distributor. *)
Definition demo_access (core : Z) (v : Vcpu) (addr w val : Z) (s : G3) : outcome G3 bool :=
  handler core (Z.lor 0x80000000 core) 4 4 false demo_elrsr v demo_vm3 0 (fun _ => 0) (mkEmu addr w true 1)
    (with_hcr (hcr s) (with_lrs (lrs s) (with_gpr (replicate 31 val) s))).
Definition after (o : outcome G3 bool) (s : G3) : G3 := match o with Ret _ s' => s' | Fault _ => s end.
Definition demo_write core v addr w val s : G3 := after (demo_access core v addr w val s) s.

Lemma demo_write_reach core v addr w val s0 s :
  (if demo_access core v addr w val s is Ret _ _ then true else false) = true ->
  g3_reachable s0 s -> g3_reachable s0 (demo_write core v addr w val s).
Proof.
  unfold demo_write. destruct (demo_access core v addr w val s) as [b s'|] eqn:E; [|done]. intros _ Hs.
  eapply G3Step; [eapply G3Step; [exact Hs|apply G3Switch]|]. eapply G3Mmio, E.
Qed.

(** vCPU 0 enables interrupt 40, gives it and SGI 3 a priority, keeps 40 for itself, raises both, and lowers both priorities,
    which takes them out of the list registers into its pending queue. *)
Definition demo_enabled : G3 := demo_write 2 demo_v0 0x8000104 4 0x100 demo3_init.
Definition demo_prio : G3 := demo_write 2 demo_v0 0x8000403 1 0x80 (demo_write 2 demo_v0 0x8000428 1 0x80 demo_enabled).
Definition demo_raised : G3 :=
  demo_write 2 demo_v0 0x8000200 4 8 (demo_write 2 demo_v0 0x8000204 4 0x100 (demo_write 2 demo_v0 0x8006140 8 0 demo_prio)).
Definition demo_spilled : G3 := demo_write 2 demo_v0 0x8000403 1 0xa0 (demo_write 2 demo_v0 0x8000428 1 0x90 demo_raised).

Lemma demo_spilled_reach : g3_reachable demo3_init demo_spilled.
Proof. repeat (apply demo_write_reach; [vm_compute; reflexivity|]). apply G3Init. Qed.

Lemma gic3_queues_consistent_witness :
  exists s p, g3_reachable demo3_init s /\ zget (cpu_priv s) 0 = Some p /\ pend_list p = [RSpi 8; RPriv 0 3] /\
    queue_ok 0 (priv_ints p) in_pend (pend_list p) /\ queue_ok 0 (priv_ints p) in_act (act_list p).
Proof.
  destruct (zget (cpu_priv demo_spilled) 0) as [p|] eqn:Ep; [|by vm_compute in Ep].
  assert (pend_list p = [RSpi 8; RPriv 0 3]) as El.
  { assert (pend_list <$> zget (cpu_priv demo_spilled) 0 = Some [RSpi 8; RPriv 0 3]) as E by (vm_compute; reflexivity).
    rewrite Ep in E. by injection E as ->. }
  exists demo_spilled, p. split_and!; [apply demo_spilled_reach|done|done|..];
    eapply (gic3_queues_consistent 0x37a0007 0x43b _ _ _ (vcpu_list demo_vm3)); [apply demo_spilled_reach|exact Ep|apply demo_spilled_reach|exact Ep].
Defined.

(** Then vCPU 1, on its core, routes interrupt 40 to itself, which makes it the owner. *)
Definition demo_stolen : G3 := demo_write 0 demo_v1 0x8006140 8 1 (on_core 0 (replicate 16 0) (replicate 31 0) demo_spilled).
Definition demo_stuck : G3 := on_core 0 (replicate 16 0) (replicate 31 0) demo_stolen.

Lemma refill_waits_for_owner_witness :
  g3_reachable demo3_init demo_stuck /\ forall (core : Z) (fuel : nat), refill_lrs core 4 demo_elrsr fuel demo_v0 true demo_stuck = Fault FuelOut.
Proof.
  split.
  { eapply G3Step; [|apply G3Switch]. apply demo_write_reach; [vm_compute; reflexivity|].
    eapply G3Step; [apply demo_spilled_reach|apply G3Switch]. }
  destruct (zget (cpu_priv demo_stuck) 0) as [p|] eqn:Ep; [|by vm_compute in Ep].
  destruct (find_int demo_stuck (RSpi 8)) as [i|] eqn:Ei; [|by vm_compute in Ei].
  apply (refill_waits_for_owner 4 demo_elrsr demo_v0 true demo_stuck 0 p (RSpi 8) i demo_v1).
  - vm_compute; reflexivity.
  - exact Ep.
  - assert ((p ← zget (cpu_priv demo_stuck) 0; min_from (spill_key demo_stuck) (pend_list p ++ []) None) = Some (Some (RSpi 8))) as E
      by (vm_compute; reflexivity). by rewrite Ep in E.
  - exact Ei.
  - assert ((find_int demo_stuck (RSpi 8) ≫= owner) = Some demo_v1) as E by (vm_compute; reflexivity). by rewrite Ei in E.
  - right. discriminate.
Defined.

(** vCPU 0 routes the enabled interrupt 40 to vCPU 1 and raises it. *)
Definition demo_int40 : VgicInt := set_enabled true int_new.

Lemma demo_enabled_shape v : 0 <= v < 3 -> shape v demo_enabled.
Proof.
  intros Hv. split; [|by vm_compute].
  destruct (zget (cpu_priv demo_enabled) v) as [p|] eqn:Ep.
  - exists p. split; [done|].
    assert (forallb (fun p => (zlen (priv_ints p) =? 32) && (zlen (curr_lrs p) =? 64)) (cpu_priv demo_enabled) = true) as Hall
      by (vm_compute; reflexivity).
    rewrite forallb_forall in Hall. unfold zget in Ep. destruct (0 <=? v); [|done].
    apply list_elem_of_lookup_2, list_elem_of_In in Ep. apply Hall, andb_true_iff in Ep as [H1 H2]. by apply Z.eqb_eq in H1, H2.
  - exfalso. assert (v = 0 \/ v = 1 \/ v = 2) as [->|[->| ->]] by lia; by vm_compute in Ep.
Qed.

Lemma spi_follows_irouter_witness :
  exists s1 s2,
    vgicd_set_irouter 2 0x80000002 4 4 false demo_elrsr None demo_vm3 demo_v0 40 1 demo_enabled = Ret tt s1 /\
    set_pend 2 0x80000002 4 4 false demo_elrsr None demo_v0 40 true s1 = Ret tt s2 /\
    glog s2 = glog demo_enabled ++ [EvIpi 0 (route_msg demo_vm3 40)] /\
    exists s3 i3 w,
      vgic_ipi_handler 0 0x80000000 4 4 false demo_elrsr None demo_vm3 demo_v1 (route_msg demo_vm3 40)
        (on_core 0 (replicate 16 0) [] s2) = Ret tt s3 /\
      zget (lrs s3) 0 = Some w /\ bit_extract w 0 32 = 40 /\ bit_extract w 62 2 = 1 /\
      find_int s3 (RSpi 8) = Some i3 /\ owner i3 = Some demo_v1.
Proof.
  destruct (spi_follows_irouter false 4 4 demo_elrsr None 2 0x80000002 demo_v0 demo_vm3 demo_v1 1 8 demo_int40 demo_enabled)
    as (s1 & s2 & E1 & E2 & L & _ & H);
    [apply demo_enabled_shape; simpl; lia|vm_compute; reflexivity|left; reflexivity|reflexivity|reflexivity|reflexivity|reflexivity
    |simpl; lia|reflexivity|reflexivity|unfold core_ok; simpl; lia|simpl; lia|lia|reflexivity|discriminate|simpl; lia|reflexivity|].
  exists s1, s2. split_and!; [exact E1|exact E2|exact L|].
  destruct (H None 0x80000000 0 (replicate 16 0) [] 0) as (s3 & i3 & w & E3 & W & W1 & _ & W3 & _ & F & _ & _ & O);
    [reflexivity|reflexivity|vm_compute; reflexivity|].
  exists s3, i3, w. split_and!; [exact E3|exact W|exact W1|exact W3|exact F|exact O].
Defined.

(** An SGI to vCPUs 0 and 1, which are on cores 2 and 0. *)
Definition demo_sgi : G3 := with_gpr (replicate 31 0x05000003) demo3_init.

Lemma sgi_reaches_targets_witness :
  exists cores, NoDup cores /\
    vgic_icc_sgir_handler 2 4 false demo_vm3 (mkEmu 0 8 true 1) demo_sgi = Ret true (log demo_sgi (sgi_events demo_vm3 5 cores)) /\
    0 ∈ cores /\ 2 ∈ cores /\ 3 ∉ cores.
Proof.
  destruct (sgi_reaches_targets 2 4 false demo_vm3 (mkEmu 0 8 true 1) 0x05000003 demo_sgi) as (cores & H1 & H2 & H3);
    [reflexivity|reflexivity|lia|exact demo_vcpus_ok|simpl; lia|lia|lia|].
  exists cores. split_and!; [exact H1|exact H2|..]; rewrite H3; simpl.
  - split; [lia|]. by exists 1.
  - split; [lia|]. by exists 0.
  - intros [_ (v & Hv & Hb)]. unfold vcpuid_to_pcpuid in Hv.
    destruct (zget (vcpu_list demo_vm3) v) as [x|] eqn:E; [|done]. apply zget_Some_bounds in E as Hz. unfold zlen in Hz. simpl in Hz.
    assert (v = 0 \/ v = 1 \/ v = 2) as [->|[->| ->]] by lia; [by injection E as <-|by injection E as <-|by vm_compute in Hb].
Defined.

(** SGI 3 of vCPU 0, enabled from the start. *)
Lemma private_irouter_panics_witness :
  exists s', demo_access 2 demo_v0 0x8006018 8 0 demo3_init = Ret true s' /\
    forall core' mpidr' act, inject core' mpidr' 4 4 false demo_elrsr act demo_v0 3 s' = Fault ExplicitPanic.
Proof.
  apply (private_irouter_panics 2 (Z.lor 0x80000000 2) 4 4 false demo_elrsr demo_v0 demo_vm3 0 (fun _ => 0)
    (mkEmu 0x8006018 8 true 1) 0 3 (int_priv_new demo_v0 4 true 2 2)); [reflexivity|reflexivity|reflexivity|simpl; lia|].
  split; [vm_compute; reflexivity|lia|right; reflexivity|reflexivity..].
Defined.
