(* ===== verification/PtTree.v ===== *)
(** * PtTree: page tables as trees in memory

    What the stage-2 page tables of both architectures have in common: memory as a map from
    addresses to 64-bit entries, the walk the hardware makes from the root table, the
    invariant that the tables form a tree, and what one write to a table does to all
    translations.  The entry format is a class; the architectures instantiate it. *)
From stdpp Require Import list gmap.
From S2P Require Import Prelude.

(** ** Memory *)

(** Words at their addresses; what was never written reads as 0. *)
Definition rd (m : gmap Z Z) (a : Z) : Z := default 0 (m !! a).

(** The address of entry [i] of the table at [t]. *)
Definition slot (t i : Z) : Z := t + 8 * i.

(** [n] words of zeros. *)
Definition zero_words (f : Z) (n : nat) (m : gmap Z Z) : gmap Z Z :=
  foldr (fun i m => <[slot f i := 0]> m) m (zrange 0 n).

Lemma rd_insert m a b v : rd (<[a := v]> m) b = if decide (a = b) then v else rd m b.
Proof.
  unfold rd. case_decide as Hd; [subst; by rewrite lookup_insert_eq|by rewrite lookup_insert_ne].
Qed.

Lemma rd_insert_ne m a b v : a <> b -> rd (<[a := v]> m) b = rd m b.
Proof. intros ?. by rewrite rd_insert, decide_False. Qed.

Lemma rd_zero_fold_in f m l i : i ∈ l ->
  rd (foldr (fun i m => <[slot f i := 0]> m) m l) (slot f i) = 0.
Proof.
  induction l as [|j l IH]; [by intros ?%elem_of_nil|]. simpl. rewrite rd_insert.
  case_decide as Hd; [done|]. intros [->|Hi]%elem_of_cons; [done|by apply IH].
Qed.

Lemma rd_zero_fold_out f m l a : (forall i, i ∈ l -> a <> slot f i) ->
  rd (foldr (fun i m => <[slot f i := 0]> m) m l) a = rd m a.
Proof.
  induction l as [|j l IH]; intros H; [done|]. simpl.
  rewrite rd_insert_ne by (intros <-; apply (H j); [left|done]).
  apply IH. intros i Hi. apply H. by right.
Qed.

Lemma rd_zero_words_in f n m i : 0 <= i < Z.of_nat n -> rd (zero_words f n m) (slot f i) = 0.
Proof. intros Hi. apply rd_zero_fold_in, zrange_elem. lia. Qed.

Lemma rd_zero_words_out f n m a : (forall i, 0 <= i < Z.of_nat n -> a <> slot f i) ->
  rd (zero_words f n m) a = rd m a.
Proof. intros Ha. apply rd_zero_fold_out. intros i Hi%zrange_elem. apply Ha. lia. Qed.

(** ** The entry format *)

(** [pte_next e]: the table an entry points to; [pte_leaf k e]: the entry maps memory when [k]
    levels are left below it. *)
Class PteFormat := {
  pte_next : Z -> option Z;
  pte_leaf : nat -> Z -> bool;
}.

Class PteLaws `(F : PteFormat) := {
  pte_next_zero : pte_next 0 = None;
  pte_leaf_zero : forall k, pte_leaf k 0 = false;
}.

Section tree.
Context `{F : PteFormat} {FL : PteLaws F}.
(** Entries of the root table, and the number of levels. *)
Context (R : Z) (D : nat).
Implicit Types m : gmap Z Z.

(** The table a path of indices leads to. *)
Fixpoint follow m (t : Z) (p : list Z) : option Z :=
  match p with
  | [] => Some t
  | i :: p' => match pte_next (rd m (slot t i)) with
               | Some t' => follow m t' p'
               | None => None
               end
  end.

(** The hardware's walk: the last entry read and the number of levels left below it. *)
Fixpoint walk m (t : Z) (p : list Z) : option (Z * nat) :=
  match p with
  | [] => None
  | i :: p' =>
      let e := rd m (slot t i) in
      match p' with
      | [] => Some (e, O)
      | _ => match pte_next e with
             | Some t' => walk m t' p'
             | None => Some (e, length p')
             end
      end
  end.

(** The entry that maps the path, with its level. *)
Definition translate m (t : Z) (p : list Z) : option (Z * nat) :=
  match walk m t p with
  | Some (e, k) => if pte_leaf k e then Some (e, k) else None
  | None => None
  end.

Definition page_ok (t : Z) : Prop := t mod 4096 = 0 /\ 0 < t < 2 ^ 48.

(** A page outside the root table. *)
Definition off_root (d t : Z) : Prop := t + 4096 <= d \/ d + 8 * R <= t.

Definition idx_ok (p : list Z) : Prop :=
  match p with [] => True | i :: r => 0 <= i < R /\ Forall (fun j => 0 <= j < 512) r end.

(** The tables reachable from the root [d] form a tree inside the frames [P]. *)
Record tree_ok m (d : Z) (P : list Z) : Prop := {
  t_root : page_ok d;
  t_pages : Forall (fun t => page_ok t /\ off_root d t) P;
  t_in : forall p t, p <> [] -> (length p < D)%nat -> idx_ok p -> follow m d p = Some t -> t ∈ P;
  t_inj : forall p q t, (length p < D)%nat -> (length q < D)%nat -> idx_ok p -> idx_ok q ->
    follow m d p = Some t -> follow m d q = Some t -> p = q;
}.

(** Every entry of a reachable table is as [good] says for its level. *)
Definition ents_ok (good : nat -> Z -> Prop) m (d : Z) : Prop :=
  forall q j t, (length q < D)%nat -> idx_ok (q ++ [j]) -> follow m d q = Some t ->
  good (length q) (rd m (slot t j)).

(** ** Paths *)

Lemma follow_app m t p q : follow m t (p ++ q) = follow m t p ≫= fun t' => follow m t' q.
Proof.
  revert t. induction p as [|i p IH]; intros t; [done|]. simpl.
  destruct (pte_next (rd m (slot t i))); [apply IH|done].
Qed.

Lemma follow_snoc m t p i :
  follow m t (p ++ [i]) = follow m t p ≫= fun t' => pte_next (rd m (slot t' i)).
Proof. rewrite follow_app. destruct (follow m t p) as [t'|]; [|done]. simpl. by destruct (pte_next _). Qed.

Lemma idx_ok_snoc p i : idx_ok (p ++ [i]) <->
  idx_ok p /\ 0 <= i < (if decide (p = []) then R else 512).
Proof.
  destruct p as [|j p]; simpl.
  - split; [intros [? _]|intros [_ ?]]; (split; [done || constructor|done || constructor]) || done.
  - rewrite list.Forall_app, list.Forall_singleton. tauto.
Qed.

Lemma idx_ok_app p q : idx_ok (p ++ q) -> idx_ok p.
Proof. destruct p; [done|]. simpl. rewrite list.Forall_app. tauto. Qed.

Lemma walk_cons m t i q : q <> [] ->
  walk m t (i :: q) = match pte_next (rd m (slot t i)) with
                      | Some t' => walk m t' q
                      | None => Some (rd m (slot t i), length q)
                      end.
Proof. by destruct q. Qed.

Lemma walk_app m d p t q : follow m d p = Some t -> q <> [] -> walk m d (p ++ q) = walk m t q.
Proof.
  revert d. induction p as [|i p IH]; intros d Hp Hq; [by injection Hp as ->|].
  simpl in Hp. change ((i :: p) ++ q) with (i :: (p ++ q)). rewrite walk_cons by (by destruct p).
  destruct (pte_next (rd m (slot d i))) as [t'|]; [|done]. by apply IH.
Qed.

(** A walk that reads an entry which is no table stops there. *)
Lemma walk_stop m t i q : pte_next (rd m (slot t i)) = None ->
  walk m t (i :: q) = Some (rd m (slot t i), length q).
Proof. intros E. simpl. destruct q; [done|]. by rewrite E. Qed.

(** ** Addresses *)

Lemma slot_page t i : t mod 4096 = 0 -> 0 <= i < 512 -> slot t i / 4096 = t / 4096.
Proof.
  intros Ht Hi. symmetry. apply (Z.div_unique _ _ _ (8 * i)); [lia|].
  pose proof (Z.div_mod t 4096). unfold slot. lia.
Qed.

Lemma slot_inj t i t' i' : t mod 4096 = 0 -> t' mod 4096 = 0 -> 0 <= i < 512 -> 0 <= i' < 512 ->
  slot t i = slot t' i' -> t = t' /\ i = i'.
Proof.
  intros Ht Ht' Hi Hi' E.
  pose proof (slot_page t i Ht Hi) as E1. pose proof (slot_page t' i' Ht' Hi') as E2.
  pose proof (Z.div_mod t 4096). pose proof (Z.div_mod t' 4096). rewrite E in E1.
  assert (t = t') as -> by lia. split; [done|]. unfold slot in E. lia.
Qed.

(** Entries of two tables of the tree are different words. *)
Lemma tree_slot_inj m d P p q t t' i i' : tree_ok m d P ->
  (length p < D)%nat -> (length q < D)%nat -> idx_ok (p ++ [i]) -> idx_ok (q ++ [i']) ->
  follow m d p = Some t -> follow m d q = Some t' -> slot t i = slot t' i' -> p = q /\ i = i'.
Proof.
  intros [Hd HP Hin Hinj] Hp Hq [Ip Ii]%idx_ok_snoc [Iq Ii']%idx_ok_snoc Ep Eq Es.
  rewrite list.Forall_forall in HP.
  destruct (decide (p = [])) as [->|Np], (decide (q = [])) as [->|Nq].
  - injection Ep as <-. injection Eq as <-. split; [done|]. unfold slot in Es. lia.
  - injection Ep as <-. destruct (HP t') as [[Ht' _] Ho]; [by eapply Hin|].
    unfold off_root, slot in *. destruct Ho; lia.
  - injection Eq as <-. destruct (HP t) as [[Ht _] Ho]; [by eapply Hin|].
    unfold off_root, slot in *. destruct Ho; lia.
  - destruct (HP t) as [[Ht _] _]; [by apply (Hin p)|]. destruct (HP t') as [[Ht' _] _]; [by apply (Hin q)|].
    cbn in Ii, Ii'.
    destruct (slot_inj t i t' i') as [-> ->]; [done..|]. split; [|done]. by eapply Hinj.
Qed.

(** ** Memory that agrees on the tables *)

Section same.
Context (m m' : gmap Z Z) (d : Z) (P : list Z).
Hypothesis Ht : tree_ok m d P.
Hypothesis Hroot : forall j, 0 <= j < R -> rd m' (slot d j) = rd m (slot d j).
Hypothesis Htab : forall t j, t ∈ P -> 0 <= j < 512 -> rd m' (slot t j) = rd m (slot t j).

Lemma same_read q t j : (length q < D)%nat -> idx_ok (q ++ [j]) -> follow m d q = Some t ->
  rd m' (slot t j) = rd m (slot t j).
Proof.
  intros Hq [Iq Ij]%idx_ok_snoc E. destruct (decide (q = [])) as [->|Hne].
  - injection E as <-. by apply Hroot.
  - destruct Ht as [_ _ Hin _]. apply Htab; [by apply (Hin q)|done].
Qed.

Lemma same_follow q : (length q <= D)%nat -> idx_ok q -> follow m' d q = follow m d q.
Proof.
  induction q as [|j q IH] using rev_ind; intros Hq Iq; [done|].
  rewrite length_app in Hq. simpl in Hq. rewrite !follow_snoc.
  rewrite IH by (lia || by eapply idx_ok_app).
  destruct (follow m d q) as [t|] eqn:E; [|done]. simpl. by rewrite (same_read q) by (done || lia).
Qed.

Lemma same_tree : tree_ok m' d P.
Proof.
  destruct Ht as [H1 H2 H3 H4]. split; [done|done| |].
  - intros q t Hne Hq Iq. rewrite same_follow by (done || lia). by apply H3.
  - intros q q' t Hq Hq' Iq Iq'. rewrite !same_follow by (done || lia). by apply H4.
Qed.

Lemma same_ents good : ents_ok good m d -> ents_ok good m' d.
Proof.
  intros H q j t Hq Iq. rewrite same_follow by (lia || by eapply idx_ok_app).
  intros E. rewrite (same_read q) by done. by apply H.
Qed.

Lemma same_walk q : (length q = D)%nat -> idx_ok q -> walk m' d q = walk m d q.
Proof.
  intros Hq Iq.
  enough (forall s r t, q = r ++ s -> s <> [] -> follow m d r = Some t -> walk m' t s = walk m t s) as Hall.
  { destruct q; [done|]. by eapply (Hall _ []). }
  induction s as [|j s IH]; intros r t E Hs Er; [done|].
  assert (rd m' (slot t j) = rd m (slot t j)) as Erd.
  { apply (same_read r); [| |done].
    - rewrite E, length_app in Hq. simpl in Hq. lia.
    - rewrite E in Iq. change (r ++ j :: s) with (r ++ [j] ++ s) in Iq. rewrite app_assoc in Iq.
      by eapply idx_ok_app. }
  destruct s as [|j' s']; [simpl; by rewrite Erd|]. rewrite !walk_cons by done. rewrite Erd.
  destruct (pte_next (rd m (slot t j))) as [t2|] eqn:E2; [|done].
  apply (IH (r ++ [j])); [by rewrite <- app_assoc|done|]. rewrite follow_snoc, Er. done.
Qed.

Lemma same_translate q : (length q = D)%nat -> idx_ok q -> translate m' d q = translate m d q.
Proof. intros. unfold translate. by rewrite same_walk. Qed.
End same.

(** Nothing is mapped through a table of zeros. *)
Lemma empty_translate m d p t j s : follow m d p = Some t -> rd m (slot t j) = 0 ->
  translate m d (p ++ j :: s) = None.
Proof.
  intros E E0. unfold translate. rewrite (walk_app _ _ _ t) by done.
  rewrite walk_stop; rewrite E0; [by rewrite pte_leaf_zero|apply pte_next_zero].
Qed.

(** ** One write to a table *)

Section write.
Context (m : gmap Z Z) (d : Z) (P : list Z) (p : list Z) (t i v : Z).
Hypothesis Ht : tree_ok m d P.
Hypothesis Hlen : (length p < D)%nat.
Hypothesis Hidx : idx_ok (p ++ [i]).
Hypothesis Hfol : follow m d p = Some t.
Let m' := <[slot t i := v]> m.

Lemma write_read q t' j : (length q < D)%nat -> idx_ok (q ++ [j]) -> follow m d q = Some t' ->
  rd m' (slot t' j) = if decide (q ++ [j] = p ++ [i]) then v else rd m (slot t' j).
Proof.
  intros Hq Iq Eq. unfold m'. rewrite rd_insert. destruct (decide (q ++ [j] = p ++ [i])) as [E|E].
  - apply app_inj_2 in E as [-> [= ->]]; [|done]. rewrite decide_True; congruence.
  - apply decide_False. intros Es. apply E.
    destruct (tree_slot_inj m d P p q t t' i j) as [-> ->]; done.
Qed.

(** Tables off the written entry are still where they were. *)
Lemma write_follow q : (length q <= D)%nat -> idx_ok q -> ~ (p ++ [i]) `prefix_of` q ->
  follow m' d q = follow m d q.
Proof.
  induction q as [|j q IH] using rev_ind; intros Hq Iq Hn; [done|].
  rewrite length_app in Hq. simpl in Hq. rewrite !follow_snoc.
  assert (follow m' d q = follow m d q) as ->.
  { apply IH; [lia|by eapply idx_ok_app|]. intros Hpre. apply Hn. by apply prefix_app_r. }
  destruct (follow m d q) as [t'|] eqn:Eq; [|done]. simpl.
  rewrite (write_read q) by (done || lia). rewrite decide_False; [done|].
  intros E. apply Hn. by rewrite E.
Qed.

Lemma write_follow_at : follow m' d (p ++ [i]) = pte_next v.
Proof.
  rewrite follow_snoc, write_follow; [|lia|by eapply idx_ok_app|].
  - rewrite Hfol. simpl. by rewrite (write_read p), decide_True by done.
  - intros [k E]. apply (f_equal length) in E. rewrite !length_app in E. simpl in E. lia.
Qed.

(** Translations off the written entry do not change. *)
Lemma write_walk q : (length q = D)%nat -> idx_ok q -> ~ (p ++ [i]) `prefix_of` q ->
  walk m' d q = walk m d q.
Proof.
  intros Hq Iq Hn.
  enough (forall s r t', q = r ++ s -> s <> [] -> follow m d r = Some t' -> walk m' t' s = walk m t' s) as Hall.
  { destruct q; [done|]. by eapply (Hall _ []). }
  induction s as [|j s IH]; intros r t' E Hs Er; [done|].
  assert (rd m' (slot t' j) = rd m (slot t' j)) as Erd.
  { rewrite (write_read r).
    - rewrite decide_False; [done|]. intros E'. apply Hn. rewrite E.
      change (r ++ j :: s) with (r ++ [j] ++ s). rewrite app_assoc, E'. by apply prefix_app_r.
    - rewrite E, length_app in Hq. simpl in Hq. lia.
    - rewrite E in Iq. change (r ++ j :: s) with (r ++ [j] ++ s) in Iq. rewrite app_assoc in Iq.
      by eapply idx_ok_app.
    - done. }
  destruct s as [|j' s']; [simpl; by rewrite Erd|]. rewrite !walk_cons by done. rewrite Erd.
  destruct (pte_next (rd m (slot t' j))) as [t2|] eqn:E2; [|done].
  apply (IH (r ++ [j])); [by rewrite <- app_assoc|done|]. rewrite follow_snoc, Er. done.
Qed.

Lemma write_translate q : (length q = D)%nat -> idx_ok q -> ~ (p ++ [i]) `prefix_of` q ->
  translate m' d q = translate m d q.
Proof. intros. unfold translate. by rewrite write_walk. Qed.

(** The translation of a path through the written entry. *)
Lemma write_walk_at s : pte_next v = None \/ s = [] -> walk m' d (p ++ i :: s) = Some (v, length s).
Proof.
  intros Hv. assert (follow m' d p = Some t) as Ep.
  { rewrite write_follow; [done|lia|by eapply idx_ok_app|].
    intros [k E]. apply (f_equal length) in E. rewrite !length_app in E. simpl in E. lia. }
  rewrite (walk_app _ _ _ t) by done.
  assert (rd m' (slot t i) = v) as Ev by (unfold m'; by rewrite rd_insert, decide_True).
  destruct Hv as [Hv| ->]; [|simpl; by rewrite Ev]. rewrite walk_stop; rewrite Ev; done.
Qed.

Lemma prefix_split q : (p ++ [i]) `prefix_of` q -> exists k, q = (p ++ [i]) ++ k.
Proof. intros [k ->]. by exists k. Qed.

Lemma follow_below k : follow m' d ((p ++ [i]) ++ k) = pte_next v ≫= fun t' => follow m' t' k.
Proof. by rewrite follow_app, write_follow_at. Qed.

(** Writing an entry that is no table: the subtree is cut off. *)
Lemma write_prune : pte_next v = None \/ S (length p) = D -> tree_ok m' d P.
Proof.
  intros Hv. destruct Ht as [H1 H2 H3 H4].
  assert (forall q t', (length q < D)%nat -> idx_ok q -> follow m' d q = Some t' ->
    follow m d q = Some t') as Hback.
  { intros q t' Hq Iq E. rewrite write_follow in E; [done|lia|done|].
    intros [k ->]%prefix_split. rewrite follow_below in E.
    destruct Hv as [Hv|Hv]; [by rewrite Hv in E|]. rewrite !length_app in Hq. simpl in Hq. lia. }
  split; [done|done| |].
  - intros q t' Hne Hq Iq E. apply (H3 q); auto.
  - intros q q' t' Hq Hq' Iq Iq' E E'. apply (H4 q q' t'); auto.
Qed.

Lemma prune_ents good : pte_next v = None \/ S (length p) = D -> good (length p) v ->
  ents_ok good m d -> ents_ok good m' d.
Proof.
  intros Hv Hg H q j t' Hq Iq E. apply idx_ok_app in Iq as Iq'.
  assert (~ (p ++ [i]) `prefix_of` q) as Hn.
  { intros [k ->]%prefix_split. rewrite follow_below in E.
    destruct Hv as [Hv|Hv]; [by rewrite Hv in E|]. rewrite !length_app in Hq. simpl in Hq. lia. }
  rewrite write_follow in E by (done || lia). rewrite (write_read q) by done.
  case_decide as Ed; [|by apply H]. apply app_inj_2 in Ed as [-> _]; done.
Qed.

(** The table that was cut off is free. *)
Lemma write_unlink t0 : pte_next (rd m (slot t i)) = Some t0 -> pte_next v = None ->
  (S (length p) < D)%nat -> tree_ok m' d (filter (fun x => x <> t0) P).
Proof.
  intros E0 Hv Hp. destruct (write_prune (or_introl Hv)) as [H1 H2 H3 H4].
  assert (follow m d (p ++ [i]) = Some t0) as Ef by (by rewrite follow_snoc, Hfol).
  split; [done| | |done].
  - rewrite list.Forall_forall in *. intros x [_ Hx]%list_elem_of_filter. auto.
  - intros q t' Hne Hq Iq E. apply list_elem_of_filter. split; [|by apply (H3 q)]. intros ->.
    assert (~ (p ++ [i]) `prefix_of` q) as Hnp.
    { intros [k ->]%prefix_split. rewrite follow_below, Hv in E. done. }
    rewrite write_follow in E by (done || lia).
    destruct Ht as [_ _ _ Hinj]. apply Hnp. rewrite (Hinj q (p ++ [i]) t0); try done.
    rewrite length_app. simpl. lia.
Qed.

(** Linking a zeroed page as a new table. *)
Section graft.
Context (f : Z).
Hypothesis Hv : pte_next v = Some f.
Hypothesis Hf : page_ok f.
Hypothesis Hoff : off_root d f.
Hypothesis Hnew : f ∉ P.
Hypothesis Hzero : forall j, 0 <= j < 512 -> rd m (slot f j) = 0.

Lemma graft_zero j : 0 <= j < 512 -> rd m' (slot f j) = 0.
Proof.
  intros Hj. unfold m'. rewrite rd_insert_ne; [by apply Hzero|].
  apply idx_ok_snoc in Hidx as Hi. destruct Hi as [Ip Ii]. destruct Ht as [H1 H2 H3 _].
  destruct (decide (p = [])) as [Hp|Np].
  - rewrite Hp in Hfol. injection Hfol as <-. unfold off_root, slot in *. destruct Hoff; lia.
  - intros E. rewrite list.Forall_forall in H2. destruct (H2 t) as [[Ht' _] _]; [by apply (H3 p)|].
    destruct (slot_inj t i f j) as [<- _]; [done|apply Hf|done|done|done|].
    apply Hnew. by apply (H3 p).
Qed.

Lemma graft_follow k j : 0 <= j < 512 -> follow m' d ((p ++ [i]) ++ j :: k) = None.
Proof. intros Hj. rewrite follow_below, Hv. simpl. by rewrite graft_zero, pte_next_zero. Qed.

Lemma write_graft : (S (length p) < D)%nat -> tree_ok m' d (P ++ [f]).
Proof.
  intros Hp. destruct Ht as [H1 H2 H3 H4].
  assert (forall q t', (length q < D)%nat -> idx_ok q -> follow m' d q = Some t' ->
    (q = p ++ [i] /\ t' = f) \/ (~ (p ++ [i]) `prefix_of` q /\ follow m d q = Some t')) as Hback.
  { intros q t' Hq Iq E. destruct (decide ((p ++ [i]) `prefix_of` q)) as [[k ->]%prefix_split|Hn].
    - left. destruct k as [|j k].
      + rewrite app_nil_r, write_follow_at, Hv in E. rewrite app_nil_r. by injection E as ->.
      + rewrite graft_follow in E; [done|].
        destruct p; simpl in Iq; rewrite ?list.Forall_app, ?list.Forall_cons in Iq; tauto.
    - right. split; [done|]. rewrite write_follow in E by (done || lia). done. }
  assert (forall q t', (length q < D)%nat -> idx_ok q -> follow m d q = Some t' -> t' <> f) as Hdiff.
  { intros q t' Hq Iq E ->. destruct (decide (q = [])) as [->|Hne]; [|by apply Hnew, (H3 q)].
    injection E as <-. assert (0 < R) by (clear -Hidx; destruct p; simpl in Hidx; lia).
    unfold off_root in Hoff. lia. }
  split; [done| | |].
  - apply list.Forall_app. split; [done|]. by apply list.Forall_singleton.
  - intros q t' Hne Hq Iq E. apply elem_of_app.
    destruct (Hback q t' Hq Iq E) as [[_ ->]|[_ E']]; [right; by left|left; by apply (H3 q)].
  - intros q q' t' Hq Hq' Iq Iq' E E'.
    destruct (Hback _ _ Hq Iq E) as [[-> ->]|[_ E1]], (Hback _ _ Hq' Iq' E') as [[-> E2]|[_ E2]].
    + done.
    + by destruct (Hdiff _ _ Hq' Iq' E2).
    + subst. by destruct (Hdiff _ _ Hq Iq E1).
    + by apply (H4 q q' t').
Qed.

Lemma graft_ents good : (forall k, good k 0) -> good (length p) v ->
  ents_ok good m d -> ents_ok good m' d.
Proof.
  intros H0 Hg H q j t' Hq Iq E. apply idx_ok_snoc in Iq as Ij. destruct Ij as [Iq' Ij].
  destruct (decide ((p ++ [i]) `prefix_of` q)) as [[k ->]%prefix_split|Hn].
  - assert (0 <= j < 512) as Hj by (rewrite decide_False in Ij; [done|by destruct p]).
    destruct k as [|j' k].
    + rewrite app_nil_r, write_follow_at, Hv in E. injection E as <-. by rewrite graft_zero.
    + rewrite graft_follow in E; [done|].
      destruct p; simpl in Iq'; rewrite ?list.Forall_app, ?list.Forall_cons in Iq'; tauto.
  - rewrite write_follow in E by (done || lia). rewrite (write_read q) by done.
    destruct (decide (q ++ [j] = p ++ [i])) as [Ed|Ed]; [|by apply H]. apply app_inj_2 in Ed as [-> _]; done.
Qed.

(** Nothing is mapped below a new table. *)
Lemma graft_translate j s : 0 <= j < 512 -> translate m' d (p ++ i :: j :: s) = None.
Proof.
  intros Hj. change (p ++ i :: j :: s) with (p ++ [i] ++ (j :: s)). rewrite app_assoc.
  apply (empty_translate _ _ _ f); [by rewrite write_follow_at|by apply graft_zero].
Qed.
End graft.
End write.
End tree.
