(* ===== verification/PageTable.v ===== *)
(** * PageTable: stage-2 page tables on AArch64 ([arch/aarch64/page_table.rs])

    The state is memory, the root directory, the frames the table owns, the frames the global
    heap will hand out, and the frames given back.  [lvl4] is the crate's feature of that name.
    The heap allocator is a library: a call takes the next frame of [supply], zeroed; the
    theorems assume of these frames what the allocator promises, that they are aligned and not
    in use.  An exhausted heap panics in [heap_rescue]. *)
From stdpp Require Import list gmap.
From S2P Require Import Prelude Bits PtTree.

(** ** State *)

(** src: arch/aarch64/page_table.rs 161-164 [PageTable] *)
Record PtS := mkPt {
  mem : gmap Z Z;
  directory : Z;
  pages : list Z;
  supply : list Z;
  dropped : list Z;
}.

Definition with_mem m (s : PtS) := mkPt m (directory s) (pages s) (supply s) (dropped s).
Definition with_pages p (s : PtS) := mkPt (mem s) (directory s) p (supply s) (dropped s).
Definition with_supply l (s : PtS) := mkPt (mem s) (directory s) (pages s) l (dropped s).
Definition with_dropped l (s : PtS) := mkPt (mem s) (directory s) (pages s) (supply s) l.

(** src: arch/aarch64/page_table.rs 168-173 [PageTable::new] *)
Definition pt_new (dir : Z) (m : gmap Z Z) (sup : list Z) : PtS := mkPt m dir [] sup [].

(** src: arch/aarch64/page_table.rs 175-177 [PageTable::base_pa] *)
Definition base_pa (s : PtS) : Z := directory s.

(** [Layout::from_size_align] of the core library. *)
Definition layout_ok (size align : Z) : bool :=
  negb (align =? 0) && (Z.land align (align - 1) =? 0) && (size <=? 2 ^ 63 - align).

(** src: mm/page_frame.rs 23-44 [PageFrame::alloc_pages] *)
Definition alloc_pages (page_num align_page : Z) : M PtS (option Z) :=
  if page_num =? 0 then m_ret None
  else if layout_ok (usize (page_num * PAGE_SIZE)) (usize (align_page * PAGE_SIZE)) then
    let! s := m_get in
    match supply s with
    | [] => m_fault ExplicitPanic
    | f :: rest =>
        m_put (with_supply rest
                 (with_mem (zero_words f (Z.to_nat (page_num * 512)) (mem s)) s)) >>;
        m_ret (Some f)
    end
  else m_ret None.

(** src: kernel/mem.rs 61-63 [mem_page_alloc] *)
Definition mem_page_alloc : M PtS (option Z) := alloc_pages 1 1.

(** ** Entries *)

(** src: arch/aarch64/page_table.rs 19-26 [page table constants] *)
Definition LVL0_SHIFT : Z := 39.
Definition LVL1_SHIFT : Z := 30.
Definition LVL2_SHIFT : Z := 21.
Definition LVL3_SHIFT : Z := 12.
Definition PTE_TABLE : Z := 3.
Definition PTE_BLOCK : Z := 1.

(** src: arch/aarch64/page_table.rs 67-70 [PTE_S2_DEVICE] *)
Definition PTE_S2_DEVICE : Z := Z.lor (Z.lor (Z.lor 0 (Z.shiftl 3 6)) (Z.shiftl 2 8)) (Z.shiftl 1 10).
(** src: arch/aarch64/page_table.rs 72-77 [PTE_S2_NORMAL] *)
Definition PTE_S2_NORMAL : Z :=
  Z.lor (Z.lor (Z.lor (Z.lor (Z.shiftl 3 2) (Z.shiftl 3 4)) (Z.shiftl 3 6)) (Z.shiftl 2 8)) (Z.shiftl 1 10).
(** src: arch/aarch64/page_table.rs 79-84 [PTE_S2_NORMALNOCACHE] *)
Definition PTE_S2_NORMALNOCACHE : Z :=
  Z.lor (Z.lor (Z.lor (Z.lor (Z.shiftl 3 2) (Z.shiftl 1 4)) (Z.shiftl 3 6)) (Z.shiftl 2 8)) (Z.shiftl 1 10).
(** src: arch/aarch64/page_table.rs 86-91 [PTE_S2_RO] *)
Definition PTE_S2_RO : Z :=
  Z.lor (Z.lor (Z.lor (Z.lor (Z.shiftl 3 2) (Z.shiftl 3 4)) (Z.shiftl 1 6)) (Z.shiftl 2 8)) (Z.shiftl 1 10).

(** src: arch/aarch64/page_table.rs 98-100 [pt_lvl0_idx] *)
Definition pt_lvl0_idx (va : Z) : Z := Z.land (Z.shiftr va LVL0_SHIFT) 511.
(** src: arch/aarch64/page_table.rs 102-104 [pt_lvl1_idx] *)
Definition pt_lvl1_idx (va : Z) : Z := Z.land (Z.shiftr va LVL1_SHIFT) 511.
(** src: arch/aarch64/page_table.rs 106-108 [pt_lvl2_idx] *)
Definition pt_lvl2_idx (va : Z) : Z := Z.land (Z.shiftr va LVL2_SHIFT) 511.
(** src: arch/aarch64/page_table.rs 110-112 [pt_lvl3_idx] *)
Definition pt_lvl3_idx (va : Z) : Z := Z.land (Z.shiftr va LVL3_SHIFT) 511.

(** src: arch/aarch64/page_table.rs 132-134 [Aarch64PageTableEntry::to_pa] *)
Definition to_pa (e : Z) : Z := Z.land e 0x0000fffffffff000.
(** src: arch/aarch64/page_table.rs 136-138 [Aarch64PageTableEntry::valid] *)
Definition valid (e : Z) : bool := testm e 3.
(** src: arch/aarch64/page_table.rs 140-144 [Aarch64PageTableEntry::entry] *)
Definition entry (e index : Z) : M PtS Z :=
  m_gets (fun s => rd (mem s) (usize (to_pa e + index * 8))).
(** src: arch/aarch64/page_table.rs 149-152 [Aarch64PageTableEntry::set_entry] *)
Definition set_entry (e index value : Z) : M PtS unit :=
  m_modify (fun s => with_mem (<[usize (to_pa e + index * 8) := value]> (mem s)) s).
(** src: arch/aarch64/page_table.rs 154-156 [Aarch64PageTableEntry::make_table] *)
Definition make_table (frame_pa : Z) : Z := Z.lor frame_pa PTE_TABLE.

(** [l2e.to_pte() & 0b11 == PTE_BLOCK] *)
Definition is_block (e : Z) : bool := Z.land e 3 =? PTE_BLOCK.

(** [e & !(0b11 << 6) | ap] *)
Definition set_ap (e ap : Z) : Z := Z.lor (Z.land e (notw 64 (Z.shiftl 3 6))) ap.

(** [pages.push(frame)] *)
Definition push_page (f : Z) : M PtS unit := m_modify (fun s => with_pages (pages s ++ [f]) s).

(** [pages.retain(|pf| pf.pa != t)]: the frames taken out are dropped, that is given back. *)
Definition retain_ne (t : Z) : M PtS unit :=
  m_modify (fun s => with_dropped (dropped s ++ filter (fun f => f = t) (pages s))
                       (with_pages (filter (fun f => f <> t) (pages s)) s)).

(** src: arch/aarch64/page_table.rs 623-632 [empty_page] *)
Definition empty_page (addr : Z) : M PtS bool :=
  m_gets (fun s => forallb (fun i => rd (mem s) (usize (addr + i * 8)) =? 0) (zrange 0 512)).

Section page_table.
Context (lvl4 : bool).

(** src: arch/aarch64/page_table.rs 392-418 [map: one level of tables]
    The step that [map] and [map_2mb] repeat for each level: read the entry, and when it is
    invalid allocate a table and link it.  [None] when the allocation fails. *)
Definition next_table (e idx : Z) : M PtS (option Z) :=
  let! x := entry e idx in
  if valid x then m_ret (Some x)
  else
    let! o := mem_page_alloc in
    match o with
    | Some frame =>
        let x := make_table frame in
        push_page frame >>; set_entry e idx x >>; m_ret (Some x)
    | None => m_ret None
    end.

(** The entry that points to the level 1 table, made when it is missing. *)
Definition make_l0e (ipa : Z) : M PtS (option Z) :=
  let! d := m_gets directory in
  if lvl4 then next_table d (pt_lvl0_idx ipa) else m_ret (Some d).

(** The same without making it; [None] when it is missing. *)
Definition find_l0e (ipa : Z) : M PtS (option Z) :=
  let! d := m_gets directory in
  if lvl4 then
    let! l0e := entry d (pt_lvl0_idx ipa) in m_ret (if valid l0e then Some l0e else None)
  else m_ret (Some d).

(** src: arch/aarch64/page_table.rs 368-454 [PageTable::map] *)
Definition map (ipa pa pte : Z) : M PtS unit :=
  let! o0 := make_l0e ipa in
  match o0 with
  | None => m_ret tt
  | Some l0e =>
      let! o1 := next_table l0e (pt_lvl1_idx ipa) in
      match o1 with
      | None => m_ret tt
      | Some l1e =>
          let! o2 := next_table l1e (pt_lvl2_idx ipa) in
          match o2 with
          | None => m_ret tt
          | Some l2e =>
              let! l3e := entry l2e (pt_lvl3_idx ipa) in
              if valid l3e then m_ret tt
              else set_entry l2e (pt_lvl3_idx ipa) (Z.lor (Z.lor pa PTE_TABLE) pte)
          end
      end
  end.

(** src: arch/aarch64/page_table.rs 247-313 [PageTable::map_2mb] *)
Definition map_2mb (ipa pa pte : Z) : M PtS unit :=
  let! o0 := make_l0e ipa in
  match o0 with
  | None => m_ret tt
  | Some l0e =>
      let! o1 := next_table l0e (pt_lvl1_idx ipa) in
      match o1 with
      | None => m_ret tt
      | Some l1e =>
          let! l2e := entry l1e (pt_lvl2_idx ipa) in
          if valid l2e then m_ret tt
          else set_entry l1e (pt_lvl2_idx ipa) (Z.lor (Z.lor pa pte) PTE_BLOCK)
      end
  end.

(** Release the table [x] points to, linked at entry [idx] of [e], when it is empty. *)
Definition release_empty (e idx x : Z) : M PtS bool :=
  let! emp := empty_page (to_pa x) in
  if emp then set_entry e idx 0 >>; retain_ne (to_pa x) >>; m_ret true else m_ret false.

(** src: arch/aarch64/page_table.rs 316-365 [PageTable::unmap_2mb] *)
Definition unmap_2mb (ipa : Z) : M PtS unit :=
  let! o0 := find_l0e ipa in
  match o0 with
  | None => m_ret tt
  | Some l0e =>
      let! l1e := entry l0e (pt_lvl1_idx ipa) in
      if valid l1e then
        let! l2e := entry l1e (pt_lvl2_idx ipa) in
        if valid l2e then
          set_entry l1e (pt_lvl2_idx ipa) 0 >>;
          let! _ := release_empty l0e (pt_lvl1_idx ipa) l1e in m_ret tt
        else m_ret tt
      else m_ret tt
  end.

(** src: arch/aarch64/page_table.rs 457-527 [PageTable::unmap] *)
Definition unmap (ipa : Z) : M PtS unit :=
  let! o0 := find_l0e ipa in
  match o0 with
  | None => m_ret tt
  | Some l0e =>
      let! l1e := entry l0e (pt_lvl1_idx ipa) in
      if valid l1e then
        let! l2e := entry l1e (pt_lvl2_idx ipa) in
        if valid l2e then
          let! l3e := entry l2e (pt_lvl3_idx ipa) in
          if valid l3e then
            set_entry l2e (pt_lvl3_idx ipa) 0 >>;
            let! emp := release_empty l1e (pt_lvl2_idx ipa) l2e in
            if emp then let! _ := release_empty l0e (pt_lvl1_idx ipa) l1e in m_ret tt
            else m_ret tt
          else m_ret tt
        else m_ret tt
      else m_ret tt
  end.

(** src: arch/aarch64/page_table.rs 190-242 [access_permission: the loop body]
    One turn of the loop at [ipa]: the new [ipa], [size] and [pa]. *)
Definition permission_step (ipa size pa ap : Z) : M PtS (Z * Z * Z) :=
  let skip n := m_ret (usize (ipa + n), size, pa) in
  let! o0 := find_l0e ipa in
  match o0 with
  | None => skip (512 * 512 * 512 * 4096)
  | Some l0e =>
      let! l1e := entry l0e (pt_lvl1_idx ipa) in
      if negb (valid l1e) then skip (512 * 512 * 4096)
      else
        let! l2e := entry l1e (pt_lvl2_idx ipa) in
        if negb (valid l2e) then skip (512 * 4096)
        else if is_block l2e then
          set_entry l1e (pt_lvl2_idx ipa) (set_ap l2e ap) >>;
          m_ret (usize (ipa + 512 * 4096), usize (size + 512 * 4096), to_pa l2e)
        else
          let! l3e := entry l2e (pt_lvl3_idx ipa) in
          if valid l3e then
            set_entry l2e (pt_lvl3_idx ipa) (set_ap l3e ap) >>;
            m_ret (usize (ipa + 4096), usize (size + 4096), to_pa l3e)
          else skip 4096
  end.

Fixpoint permission_loop (fuel : nat) (stop ap ipa size pa : Z) : M PtS (Z * Z) :=
  if ipa <? stop then
    match fuel with
    | O => m_fault FuelOut
    | S fuel' =>
        let! r := permission_step ipa size pa ap in
        permission_loop fuel' stop ap r.1.1 r.1.2 r.2
    end
  else m_ret (pa, size).

(** src: arch/aarch64/page_table.rs 180-244 [PageTable::access_permission] *)
Definition access_permission (fuel : nat) (start_ipa len ap : Z) : M PtS (Z * Z) :=
  permission_loop fuel (usize (start_ipa + len)) ap start_ipa 0 0.

(** The loop of the four range operations. *)
Definition for_pages (len size : Z) (body : Z -> M PtS unit) : M PtS unit :=
  let! r := m_opt DivByZero (round_up len size) in
  m_for (zrange 0 (Z.to_nat (r / size))) (fun i => body (i * size)).

Definition size_2mb : Z := Z.shiftl 1 LVL2_SHIFT.

(** src: arch/aarch64/page_table.rs 530-537 [PageTable::map_range_2mb] *)
Definition map_range_2mb (ipa len pa pte : Z) : M PtS unit :=
  for_pages len size_2mb (fun o => map_2mb (usize (ipa + o)) (usize (pa + o)) pte).
(** src: arch/aarch64/page_table.rs 540-547 [PageTable::unmap_range_2mb] *)
Definition unmap_range_2mb (ipa len : Z) : M PtS unit :=
  for_pages len size_2mb (fun o => unmap_2mb (usize (ipa + o))).
(** src: arch/aarch64/page_table.rs 550-555 [PageTable::map_range] *)
Definition map_range (ipa len pa pte : Z) : M PtS unit :=
  for_pages len PAGE_SIZE (fun o => map (usize (ipa + o)) (usize (pa + o)) pte).
(** src: arch/aarch64/page_table.rs 558-563 [PageTable::unmap_range] *)
Definition unmap_range (ipa len : Z) : M PtS unit :=
  for_pages len PAGE_SIZE (fun o => unmap (usize (ipa + o))).

(** src: arch/aarch64/page_table.rs 591-609 [PageTable::pt_map_range] *)
Definition pt_map_range (ipa len pa pte : Z) (map_block : bool) : M PtS unit :=
  if (ipa mod size_2mb =? 0) && (len mod size_2mb =? 0) && (pa mod size_2mb =? 0) && map_block
  then map_range_2mb ipa len pa pte else map_range ipa len pa pte.

(** src: arch/aarch64/page_table.rs 612-619 [PageTable::pt_unmap_range] *)
Definition pt_unmap_range (ipa len : Z) (map_block : bool) : M PtS unit :=
  if (ipa mod size_2mb =? 0) && (len mod size_2mb =? 0) && map_block
  then unmap_range_2mb ipa len else unmap_range ipa len.
End page_table.
