(* ===== verification/PageTableSpec.v ===== *)
(** * PageTableSpec: what the AArch64 stage-2 tables translate

    The invariant of the tables, the effect of [map], [unmap], [map_2mb], [unmap_2mb] and of the
    range operations on the translation of every guest page, and what [map] does to a page inside
    a 2 MB block. *)
From stdpp Require Import list gmap.
From S2P Require Import Prelude Bits PtTree PageTable.

(** ** The AArch64 entry format *)

#[export] Instance aarch64_format : PteFormat := {
  pte_next e := if Z.land e 3 =? 3 then Some (to_pa e) else None;
  pte_leaf k e := match k with O => Z.land e 3 =? 3 | S _ => Z.land e 3 =? 1 end;
}.
#[export] Instance aarch64_laws : PteLaws aarch64_format.
Proof. split; [done|by intros []]. Qed.

Lemma testbit_3 i : 0 <= i -> Z.testbit 3 i = (i <? 2).
Proof. intros ?. change 3 with (Z.ones 2). apply Z.testbit_ones_nonneg; lia. Qed.

Lemma to_pa_testbit e i : 0 <= i ->
  Z.testbit (to_pa e) i = (12 <=? i) && (i <? 48) && Z.testbit e i.
Proof.
  intros Hi. unfold to_pa. change 0x0000fffffffff000 with (Z.shiftl (Z.ones 36) 12).
  rewrite Z.land_spec, Z.shiftl_spec by lia. destruct (Z.leb_spec 12 i); simpl.
  - rewrite Z.testbit_ones_nonneg by lia. rewrite andb_comm. f_equal.
    destruct (Z.ltb_spec (i - 12) 36), (Z.ltb_spec i 48); lia || done.
  - rewrite (Z.testbit_neg_r (Z.ones 36)) by lia. by rewrite andb_false_r.
Qed.

Lemma page_ok_testbit t i : page_ok t -> 0 <= i -> Z.testbit t i = (12 <=? i) && (i <? 48) && Z.testbit t i.
Proof.
  intros [Hm Hr] Hi. destruct (Z.leb_spec 12 i); simpl.
  - destruct (Z.ltb_spec i 48); [done|]. apply (testbit_high 48); [unfold in_word; lia|lia].
  - change 4096 with (2 ^ 12) in Hm. rewrite <- (Z.mod_pow2_bits_low t 12 i) by lia. rewrite Hm. apply Z.testbit_0_l.
Qed.

Lemma to_pa_page t : page_ok t -> to_pa t = t.
Proof. intros Ht. apply Z.bits_inj'. intros i Hi. rewrite to_pa_testbit by done. by rewrite <- page_ok_testbit. Qed.

Lemma to_pa_table t : page_ok t -> to_pa (make_table t) = t.
Proof.
  intros Ht. apply Z.bits_inj'. intros i Hi. rewrite to_pa_testbit by done.
  unfold make_table, PTE_TABLE. rewrite Z.lor_spec, testbit_3 by done.
  rewrite (page_ok_testbit t i) by done.
  destruct (Z.leb_spec 12 i); [|done]. destruct (Z.ltb_spec i 2); [lia|]. simpl.
  rewrite orb_false_r. by destruct (i <? 48).
Qed.

Lemma land3_lor_3 a b : Z.land (Z.lor (Z.lor a 3) b) 3 = 3.
Proof.
  apply Z.bits_inj'. intros i Hi. rewrite Z.land_spec, !Z.lor_spec, testbit_3 by done.
  destruct (i <? 2); [|apply andb_false_r]. by rewrite orb_true_r, orb_true_l.
Qed.

Lemma make_table_3 t : Z.land (make_table t) 3 = 3.
Proof. unfold make_table, PTE_TABLE. rewrite <- (Z.lor_0_r (Z.lor t 3)). apply land3_lor_3. Qed.

Section spec.
Context (lvl4 : bool).

(** The depth of the tables and the path of an address. *)
Definition depth : nat := if lvl4 then 4%nat else 3%nat.
Definition root_path (ipa : Z) : list Z := if lvl4 then [pt_lvl0_idx ipa] else [].
Definition path (ipa : Z) : list Z :=
  root_path ipa ++ [pt_lvl1_idx ipa; pt_lvl2_idx ipa; pt_lvl3_idx ipa].

(** Entries are invalid, tables or pages ([0b11]), or blocks one level above the last. *)
Definition good (k : nat) (e : Z) : Prop :=
  Z.land e 3 = 0 \/ Z.land e 3 = 3 \/ (Z.land e 3 = 1 /\ S (S k) = depth).

Record pt_ok (s : PtS) : Prop := {
  ok_tree : tree_ok 512 depth (mem s) (directory s) (pages s);
  ok_ents : ents_ok 512 depth good (mem s) (directory s);
}.

(** What the allocator promises of the frames it will hand out. *)
Definition fresh (s : PtS) : Prop :=
  NoDup (supply s) /\
  Forall (fun f => page_ok f /\ off_root 512 (directory s) f /\ f ∉ pages s) (supply s).

(** The translation of a page: its entry and the number of levels below it. *)
Definition tr (s : PtS) (q : list Z) : option (Z * nat) := translate (mem s) (directory s) q.

(** The path of the last-level table over an address. *)
Definition block_path (ipa : Z) : list Z := (root_path ipa ++ [pt_lvl1_idx ipa]) ++ [pt_lvl2_idx ipa].

Definition full (q : list Z) : Prop := length q = depth /\ idx_ok 512 q.

(** The tables are as sound as before and translate the pages in [Q] as before. *)
Record updated (Q : list Z -> Prop) (s s' : PtS) : Prop := {
  up_ok : pt_ok s';
  up_dir : directory s' = directory s;
  up_fresh : fresh s -> fresh s';
  up_tr : forall q, full q -> Q q -> tr s' q = tr s q;
}.

Lemma updated_refl Q s : pt_ok s -> updated Q s s.
Proof. by split. Qed.

Lemma updated_trans Q Q' s s' s'' : updated Q s s' -> updated Q' s' s'' -> updated (fun q => Q q /\ Q' q) s s''.
Proof.
  intros [A1 A2 A3 A4] [B1 B2 B3 B4]. split; [done|congruence|auto|].
  intros q Hq [H1 H2]. by rewrite B4, A4.
Qed.

Lemma updated_weaken (Q Q' : list Z -> Prop) s s' : (forall q, full q -> Q' q -> Q q) -> updated Q s s' -> updated Q' s s'.
Proof. intros H [A1 A2 A3 A4]. split; auto. Qed.

(** No last-level table among [Q] is new. *)
Definition leaf_tables (Q : list Z -> Prop) (s s' : PtS) : Prop :=
  forall q, S (length q) = depth -> idx_ok 512 q -> Q q ->
    follow (mem s') (directory s') q <> None -> follow (mem s) (directory s) q <> None.

Lemma leaf_tables_trans Q s s' s'' : leaf_tables Q s s' -> leaf_tables Q s' s'' -> leaf_tables Q s s''.
Proof. intros A B q H1 H2 H3 H4. by apply A, B. Qed.

Lemma leaf_tables_weaken (Q Q' : list Z -> Prop) s s' :
  (forall q, S (length q) = depth -> Q' q -> Q q) -> leaf_tables Q s s' -> leaf_tables Q' s s'.
Proof. intros H A q H1 H2 H3 H4. apply A; auto. Qed.

Lemma land_511 x : 0 <= Z.land x 511 < 512.
Proof. change 511 with (Z.ones 9). rewrite Z.land_ones by lia. apply Z.mod_pos_bound. lia. Qed.

Lemma path_full ipa : full (path ipa).
Proof.
  unfold full, path, root_path, depth, pt_lvl0_idx, pt_lvl1_idx, pt_lvl2_idx, pt_lvl3_idx.
  destruct lvl4; (split; [done|]); simpl; rewrite ?list.Forall_cons; split_and!; try apply land_511; done.
Qed.

(** ** Reading and writing entries *)

Lemma table_page s p t : pt_ok s -> (length p < depth)%nat -> idx_ok 512 p ->
  follow (mem s) (directory s) p = Some t -> page_ok t.
Proof.
  intros [[H1 H2 H3 _] _] Hp Ip E. destruct (decide (p = [])) as [->|Hne]; [by injection E as <-|].
  rewrite list.Forall_forall in H2. apply H2. by apply (H3 p).
Qed.

Lemma slot_eq e t i : to_pa e = t -> page_ok t -> 0 <= i < 512 -> usize (to_pa e + i * 8) = slot t i.
Proof.
  intros -> [_ Ht] Hi. unfold slot. rewrite wrap_small by (unfold in_word; lia). lia.
Qed.

Lemma entry_eq s e t i : to_pa e = t -> page_ok t -> 0 <= i < 512 ->
  entry e i s = Ret (rd (mem s) (slot t i)) s.
Proof. intros E Ht Hi. unfold entry, m_gets. by rewrite (slot_eq e t i). Qed.

Lemma set_entry_eq s e t i v : to_pa e = t -> page_ok t -> 0 <= i < 512 ->
  set_entry e i v s = Ret tt (with_mem (<[slot t i := v]> (mem s)) s).
Proof. intros E Ht Hi. unfold set_entry, m_modify. by rewrite (slot_eq e t i). Qed.

Lemma idx_512 p i : idx_ok 512 (p ++ [i]) -> 0 <= i < 512.
Proof. intros [_ H]%idx_ok_snoc. by destruct (decide (p = [])). Qed.

(** The state after a write that cuts nothing off the table, or nothing that matters. *)
Lemma prune_updated s p t i v : pt_ok s -> (length p < depth)%nat -> idx_ok 512 (p ++ [i]) ->
  follow (mem s) (directory s) p = Some t ->
  pte_next v = None \/ S (length p) = depth -> good (length p) v ->
  updated (fun q => ~ (p ++ [i]) `prefix_of` q) s (with_mem (<[slot t i := v]> (mem s)) s).
Proof.
  intros [H1 H2] Hp Ip E Hv Hg. split; simpl; [|done|done|].
  - split; [by eapply write_prune|by eapply prune_ents].
  - intros q [Hq Iq] Hn. by eapply write_translate.
Qed.

Lemma good_cases k e : good k e -> valid e = false /\ Z.land e 3 = 0 \/ valid e = true /\ Z.land e 3 = 3 \/
  valid e = true /\ Z.land e 3 = 1 /\ S (S k) = depth.
Proof. unfold good, valid, testm. intros [E|[E|[E ?]]]; rewrite E; auto. Qed.

Lemma alloc_eq s f rest : supply s = f :: rest ->
  mem_page_alloc s = Ret (Some f) (with_supply rest (with_mem (zero_words f 512 (mem s)) s)).
Proof. intros E. unfold mem_page_alloc, alloc_pages. simpl. unfold m_bind, m_get. by rewrite E. Qed.

(** Memory [m'] has the same words in all tables. *)
Definition tables_same (s : PtS) (m' : gmap Z Z) : Prop :=
  (forall j, 0 <= j < 512 -> rd m' (slot (directory s) j) = rd (mem s) (slot (directory s) j)) /\
  (forall t j, t ∈ pages s -> 0 <= j < 512 -> rd m' (slot t j) = rd (mem s) (slot t j)).

Lemma zero_same s f : pt_ok s -> page_ok f -> off_root 512 (directory s) f -> f ∉ pages s ->
  tables_same s (zero_words f 512 (mem s)).
Proof.
  intros Hok Hf Hoff Hnew. split.
  - intros j Hj. apply rd_zero_words_out. intros i Hi. unfold off_root, slot in *. destruct Hoff; lia.
  - intros t j Hin Hj. apply rd_zero_words_out. intros i Hi E. apply Hnew.
    destruct (ok_tree _ Hok) as [_ HP _ _]. rewrite list.Forall_forall in HP. destruct (HP t Hin) as [[Hm _] _].
    destruct (slot_inj t j f i) as [<- _]; [done|apply Hf|done|lia|done|done].
Qed.

(** Zeroing a fresh frame. *)
Lemma zero_updated s f rest : pt_ok s -> fresh s -> supply s = f :: rest ->
  updated (fun _ => True) s (with_supply rest (with_mem (zero_words f 512 (mem s)) s)).
Proof.
  intros Hok [Hnd Hf] Es. rewrite Es in Hf. apply list.Forall_cons in Hf as [(Hf & Hoff & Hnew) Hrest].
  destruct (zero_same s f Hok Hf Hoff Hnew) as [Hr Ht]. pose proof Hok as [H1 H2].
  split; simpl; [|done| |].
  - split; [by eapply same_tree|by eapply same_ents].
  - intros _. split; simpl; [rewrite Es in Hnd; by apply list.NoDup_cons in Hnd as [_ ?]|done].
  - intros q [Hq Iq] _. by eapply same_translate.
Qed.

Lemma prefix_cases p i q : full q -> (S (length p) < depth)%nat -> (p ++ [i]) `prefix_of` q ->
  exists j k, q = p ++ i :: j :: k /\ 0 <= j < 512.
Proof.
  intros [Hq Iq] Hp [k ->]. destruct k as [|j k]; [rewrite app_nil_r, length_app in Hq; simpl in Hq; lia|].
  exists j, k. rewrite <- app_assoc. split; [done|].
  destruct p; simpl in Iq; rewrite ?list.Forall_app, ?list.Forall_cons in Iq; tauto.
Qed.

(** An invalid entry maps nothing. *)
Lemma invalid_translate m d p t i r : follow m d p = Some t ->
  Z.land (rd m (slot t i)) 3 = 0 -> translate m d (p ++ i :: r) = None.
Proof.
  intros E E0. unfold translate.
  rewrite (walk_app _ _ _ t), walk_stop by (done || (simpl; by rewrite E0)).
  simpl. rewrite E0. by destruct (length r).
Qed.

(** Linking a zeroed fresh frame into an invalid entry. *)
Lemma graft_updated s p t i f : pt_ok s -> (S (length p) < depth)%nat -> idx_ok 512 (p ++ [i]) ->
  follow (mem s) (directory s) p = Some t -> Z.land (rd (mem s) (slot t i)) 3 = 0 ->
  page_ok f -> off_root 512 (directory s) f -> f ∉ pages s -> f ∉ supply s ->
  (forall j, 0 <= j < 512 -> rd (mem s) (slot f j) = 0) ->
  let s' := with_mem (<[slot t i := make_table f]> (mem s)) (with_pages (pages s ++ [f]) s) in
  updated (fun _ => True) s s' /\ follow (mem s') (directory s') (p ++ [i]) = Some f /\
  (forall j, 0 <= j < 512 -> rd (mem s') (slot f j) = 0).
Proof.
  intros [T N] Hp Ip E E0 Hf Hoff Hnew Hsup Hz s'.
  assert (pte_next (make_table f) = Some f) as Hy by (simpl; by rewrite make_table_3, Z.eqb_refl, to_pa_table).
  assert (length p < depth)%nat as Hp' by lia.
  split; [|split; [simpl mem; by rewrite (write_follow_at 512 depth _ _ _ p t i _ T)|
    intros j Hj; simpl mem; by apply (graft_zero 512 depth _ _ (pages s) p t i _ T Hp' Ip E f)]].
  split; simpl; [|done| |].
  - split; [by eapply (write_graft 512 depth _ _ _ p t)|].
    eapply (graft_ents 512 depth _ _ _ p t i _ T); try done; [by left|]. right. left. apply make_table_3.
  - intros [Hnd Hall]. split; [done|]. simpl.
    rewrite list.Forall_forall in *. intros g Hg. destruct (Hall g Hg) as (A1 & A2 & A3).
    split_and!; [done|done|]. rewrite elem_of_app, list_elem_of_singleton. intros [?| ->]; done.
  - intros q Hq _. destruct (decide ((p ++ [i]) `prefix_of` q)) as [Hpre|Hn].
    + destruct (prefix_cases p i q Hq Hp Hpre) as (j & k & -> & Hj). unfold tr. simpl.
      rewrite (graft_translate 512 depth _ _ _ p t i _ T) with (f := f) by done.
      by rewrite (invalid_translate _ _ p t) by done.
    + destruct Hq. unfold tr. simpl. by eapply (write_translate 512 depth _ _ _ p t i _ T).
Qed.

(** What a write to an entry does to the last-level tables: none is new, but the one at that entry. *)
Lemma write_tables s p t i v : pt_ok s -> (length p < depth)%nat -> idx_ok 512 (p ++ [i]) ->
  follow (mem s) (directory s) p = Some t ->
  pte_next v = None \/ (exists f, pte_next v = Some f /\ page_ok f /\ off_root 512 (directory s) f /\ (f ∉ pages s) /\
                          forall j, 0 <= j < 512 -> rd (mem s) (slot f j) = 0) ->
  forall P, leaf_tables (fun q => q <> p ++ [i]) s (with_mem (<[slot t i := v]> (mem s)) (with_pages P s)).
Proof.
  intros [T _] Hp Ip E Hv P q Hq Iq Hne. simpl. destruct (decide ((p ++ [i]) `prefix_of` q)) as [[k ->]|Hn].
  2:{ by rewrite (write_follow 512 depth _ _ _ p t i _ T) by (done || lia). }
  destruct k as [|j k]; [by rewrite app_nil_r in Hne|].
  assert (0 <= j < 512) as Hj.
  { destruct p; simpl in Iq; rewrite ?list.Forall_app, ?list.Forall_cons in Iq; simpl in Iq;
      rewrite ?list.Forall_cons in Iq; tauto. }
  destruct Hv as [Hv|(f & Hv & Hf & Hoff & Hnew & Hz)].
  - rewrite (follow_below 512 depth _ _ _ p t i v T Hp Ip E (j :: k)), Hv. done.
  - rewrite (graft_follow 512 depth _ _ _ p t i v T Hp Ip E f Hv Hf Hoff Hnew Hz k j Hj). done.
Qed.

Lemma zero_tables s f rest : pt_ok s -> fresh s -> supply s = f :: rest ->
  leaf_tables (fun _ => True) s (with_supply rest (with_mem (zero_words f 512 (mem s)) s)).
Proof.
  intros Hok [Hnd Hf] Es. rewrite Es in Hf. apply list.Forall_cons in Hf as [(Hf & Hoff & Hnew) _].
  destruct (zero_same s f Hok Hf Hoff Hnew) as [Hr Ht]. destruct Hok as [H1 _].
  intros q Hq Iq _. simpl. by rewrite (same_follow 512 depth _ _ _ _ H1 Hr Ht) by (done || lia).
Qed.

(** [x] is the entry of the table that [p] leads to. *)
Definition at_table (s : PtS) (p : list Z) (x : Z) : Prop :=
  follow (mem s) (directory s) p = Some (to_pa x) /\ page_ok (to_pa x).

Lemma at_root s : pt_ok s -> at_table s [] (directory s).
Proof. intros [[H _ _ _] _]. unfold at_table. by rewrite to_pa_page. Qed.

(** No 2 MB (or larger) block covers the page. *)
Definition no_block (s : PtS) (q : list Z) : Prop := forall e k, tr s q <> Some (e, S k).

(** Entry [i] of the table is no block. *)
Definition not_block (s : PtS) (x i : Z) : Prop := Z.land (rd (mem s) (slot (to_pa x) i)) 3 <> 1.

Lemma not_block_upper s p x i : pt_ok s -> at_table s p x -> (length p < depth)%nat ->
  S (S (length p)) <> depth -> idx_ok 512 (p ++ [i]) -> not_block s x i.
Proof.
  intros Hok [E _] Hp Hd Ip. destruct (ok_ents _ Hok p i _ Hp Ip E) as [H|[H|[_ H]]];
    unfold not_block; rewrite ?H; done.
Qed.

Lemma not_block_path s p x i r : at_table s p x -> r <> [] -> no_block s (p ++ i :: r) -> not_block s x i.
Proof.
  intros [E _] Hr Hnb E0. apply (Hnb (rd (mem s) (slot (to_pa x) i)) (pred (length r))).
  unfold tr, translate. rewrite (walk_app _ _ _ (to_pa x)), walk_stop by (done || (simpl; by rewrite E0)).
  destruct r; [done|]. simpl. by rewrite E0.
Qed.

Lemma table_entry s p x i : pt_ok s -> at_table s p x ->
  (length p < depth)%nat -> idx_ok 512 (p ++ [i]) -> not_block s x i ->
  let e := rd (mem s) (slot (to_pa x) i) in
  (valid e = false /\ Z.land e 3 = 0) \/ (valid e = true /\ pte_next e = Some (to_pa e)).
Proof.
  intros [H1 H2] [E _] Hp Ip Hnb e. specialize (H2 p i _ Hp Ip E). fold e in H2.
  apply good_cases in H2 as [H|[[Hv E0]|(Hv & E0 & _)]]; [by left| |done].
  right. split; [done|]. simpl. by rewrite E0.
Qed.

(** One level down, making the table when it is missing. *)
Lemma next_table_spec s p x i : pt_ok s -> fresh s -> supply s <> [] ->
  at_table s p x -> (S (length p) < depth)%nat -> idx_ok 512 (p ++ [i]) -> not_block s x i ->
  exists y s', next_table x i s = Ret (Some y) s' /\ updated (fun _ => True) s s' /\
    (length (supply s) <= S (length (supply s')))%nat /\ at_table s' (p ++ [i]) y /\
    ((s' = s /\ y = rd (mem s) (slot (to_pa x) i) /\ valid y = true) \/
     (follow (mem s) (directory s) (p ++ [i]) = None /\ forall j, 0 <= j < 512 -> rd (mem s') (slot (to_pa y) j) = 0)) /\
    leaf_tables (fun q => q <> p ++ [i]) s s'.
Proof.
  intros Hok Hfr Hsup Hx Hp Ip Hnb. pose proof Hx as [E Hpage]. pose proof (idx_512 _ _ Ip) as Hi.
  pose proof (table_entry s p x i Hok Hx ltac:(lia) Ip Hnb) as He. cbv zeta in He.
  set (e := rd (mem s) (slot (to_pa x) i)) in *. unfold next_table.
  pose proof (entry_eq s x _ i eq_refl Hpage Hi) as Ee. fold e in Ee.
  destruct He as [[Hv E0]|[Hv Hn]].
  2: { assert (follow (mem s) (directory s) (p ++ [i]) = Some (to_pa e)) as E'
         by (rewrite follow_snoc, E; exact Hn).
       exists e, s. split; [eapply m_bind_Ret_r; [exact Ee|]; by rewrite Hv|].
       split; [by apply updated_refl|]. split; [lia|]. split; [|split; [by left|by intros q]].
       split; [done|]. eapply table_page; [done| |by exact Ip|exact E']. rewrite length_app. simpl. lia. }
  destruct (supply s) as [|f rest] eqn:Es; [done|].
  pose proof (zero_updated s f rest Hok Hfr Es) as U1.
  pose proof Hfr as [Hnd Hfs]. rewrite Es in Hnd, Hfs. apply list.NoDup_cons in Hnd as [Hnf _].
  apply list.Forall_cons in Hfs as [(Hf & Hoff & Hnew) _].
  destruct (zero_same s f Hok Hf Hoff Hnew) as [Sr St].
  set (s1 := with_supply rest (with_mem (zero_words f 512 (mem s)) s)) in *.
  destruct (graft_updated s1 p (to_pa x) i f) as (U2 & F2 & Z2); try done; [apply U1| | | |].
  - rewrite <- E. eapply (same_follow 512 depth); [apply Hok|done|done|lia|by eapply idx_ok_app].
  - change (rd (mem s1) (slot (to_pa x) i)) with (rd (zero_words f 512 (mem s)) (slot (to_pa x) i)).
    erewrite (same_read 512 depth); [exact E0|apply Hok|done|done| |exact Ip|exact E]. lia.
  - intros j Hj. by apply (rd_zero_words_in f 512).
  - eexists _, _. split_and!; [| |  |split| |].
    + eapply m_bind_Ret_r; [exact Ee|]. cbv beta. rewrite Hv.
      eapply m_bind_Ret_r; [by apply (alloc_eq s f rest)|]. cbv beta zeta iota.
      eapply m_bind_Ret_r; [reflexivity|].
      eapply m_bind_Ret_r; [by apply (set_entry_eq _ x (to_pa x))|reflexivity].
    + eapply updated_weaken; [|eapply updated_trans; [exact U1|exact U2]]. done.
    + simpl. lia.
    + rewrite to_pa_table by done. exact F2.
    + by rewrite to_pa_table.
    + right. split; [|rewrite to_pa_table by done; exact Z2].
      rewrite follow_snoc, E. change (pte_next e = None). simpl. by rewrite E0.
    + eapply leaf_tables_trans; [by eapply leaf_tables_weaken, (zero_tables s f rest)|].
      apply (write_tables s1); [apply U1|lia|done| |right; exists f; split_and!; try done].
      * rewrite <- E. eapply (same_follow 512 depth); [apply Hok|done|done|lia|by eapply idx_ok_app].
      * simpl. by rewrite make_table_3, Z.eqb_refl, to_pa_table.
      * intros j Hj. by apply (rd_zero_words_in f 512).
Qed.

Lemma path_split ipa :
  path ipa = root_path ipa ++ pt_lvl1_idx ipa :: [pt_lvl2_idx ipa; pt_lvl3_idx ipa] /\
  path ipa = (root_path ipa ++ [pt_lvl1_idx ipa]) ++ pt_lvl2_idx ipa :: [pt_lvl3_idx ipa] /\
  path ipa = ((root_path ipa ++ [pt_lvl1_idx ipa]) ++ [pt_lvl2_idx ipa]) ++ pt_lvl3_idx ipa :: [] /\
  S (S (S (length (root_path ipa)))) = depth.
Proof. unfold path, root_path, depth. by destruct lvl4. Qed.

Lemma path_oks ipa :
  idx_ok 512 (root_path ipa ++ [pt_lvl1_idx ipa]) /\
  idx_ok 512 ((root_path ipa ++ [pt_lvl1_idx ipa]) ++ [pt_lvl2_idx ipa]) /\
  idx_ok 512 (((root_path ipa ++ [pt_lvl1_idx ipa]) ++ [pt_lvl2_idx ipa]) ++ [pt_lvl3_idx ipa]).
Proof.
  destruct (path_full ipa) as [_ H]. destruct (path_split ipa) as (_ & _ & E & _). rewrite E in H.
  split_and!; [|by eapply idx_ok_app|done].
  by apply idx_ok_app, idx_ok_app in H.
Qed.

Lemma no_block_updated Q s s' q : updated Q s s' -> full q -> Q q -> no_block s q -> no_block s' q.
Proof. intros U Hq HQ H e k E. apply (H e k). by rewrite <- (up_tr _ _ _ U). Qed.

Lemma make_l0e_spec s ipa : pt_ok s -> fresh s -> supply s <> [] ->
  exists x s', make_l0e lvl4 ipa s = Ret (Some x) s' /\ updated (fun _ => True) s s' /\
    (length (supply s) <= S (length (supply s')))%nat /\ at_table s' (root_path ipa) x /\
    (s' = s \/ (follow (mem s) (directory s) (root_path ipa) = None /\
                forall j, 0 <= j < 512 -> rd (mem s') (slot (to_pa x) j) = 0)) /\
    leaf_tables (fun _ => True) s s'.
Proof.
  intros Hok Hfr Hsup. unfold make_l0e, root_path. pose proof (at_root s Hok) as A0.
  assert (idx_ok 512 ([] ++ [pt_lvl0_idx ipa])) as I0 by (simpl; split; [apply land_511|constructor]).
  destruct lvl4 eqn:El.
  - assert (depth = 4%nat) as Ed by (unfold depth; by rewrite El).
    destruct (next_table_spec s [] (directory s) (pt_lvl0_idx ipa)) as (y & s' & E & U & L & A & O & K); try done.
    + rewrite Ed. simpl. lia.
    + apply (not_block_upper s []); [done|done| |by rewrite Ed|done]. rewrite Ed. simpl. lia.
    + exists y, s'. split; [done|]. split; [done|]. split_and!; [done|done|destruct O as [(-> & _)|?]; [by left|by right]|].
      eapply leaf_tables_weaken; [|exact K]. intros q Hq _ ->. rewrite Ed in Hq. done.
  - exists (directory s), s. split; [done|]. split; [by apply updated_refl|]. split_and!; [lia|done|by left|by intros q].
Qed.

(** The level 2 entry over an address. *)
Definition lvl2_entry (s : PtS) (ipa : Z) : Z :=
  match follow (mem s) (directory s) (root_path ipa ++ [pt_lvl1_idx ipa]) with
  | Some t => rd (mem s) (slot t (pt_lvl2_idx ipa))
  | None => 0
  end.

Lemma lvl2_entry_eq s ipa y : at_table s (root_path ipa ++ [pt_lvl1_idx ipa]) y ->
  lvl2_entry s ipa = rd (mem s) (slot (to_pa y) (pt_lvl2_idx ipa)) /\
  entry y (pt_lvl2_idx ipa) s = Ret (lvl2_entry s ipa) s.
Proof.
  intros [E Hp]. unfold lvl2_entry. rewrite E. split; [done|]. apply entry_eq; [done|done|apply land_511].
Qed.

Lemma supply_ne (l : list Z) k : (k < length l)%nat -> l <> [].
Proof. intros ? ->. simpl in *. lia. Qed.

(** What [map] and [map_2mb] do first: reach the level 1 entry's table, then the level 2 table. *)
Lemma make_l1e_spec s ipa : pt_ok s -> fresh s -> (1 < length (supply s))%nat ->
  exists x y s1 s', make_l0e lvl4 ipa s = Ret (Some x) s1 /\
    next_table x (pt_lvl1_idx ipa) s1 = Ret (Some y) s' /\
    updated (fun _ => True) s s' /\ (length (supply s) <= S (S (length (supply s'))))%nat /\
    at_table s' (root_path ipa ++ [pt_lvl1_idx ipa]) y /\ lvl2_entry s' ipa = lvl2_entry s ipa /\
    leaf_tables (fun _ => True) s s'.
Proof.
  intros Hok Hfr Hsup. destruct (path_split ipa) as (_ & _ & _ & Hd).
  destruct (path_oks ipa) as (O1 & _).
  destruct (make_l0e_spec s ipa) as (x & s1 & M1 & U1 & L1 & A1 & C1 & K1); [done|done|by eapply supply_ne|].
  destruct (next_table_spec s1 (root_path ipa) x (pt_lvl1_idx ipa))
    as (y & s2 & M2 & U2 & L2 & A2 & C2 & K2); try done.
  - apply U1.
  - by apply U1.
  - apply (supply_ne _ 0). lia.
  - lia.
  - eapply not_block_upper; [apply U1|exact A1|lia|lia|done].
  - exists x, y, s1, s2. split; [done|]. split; [done|].
    split; [eapply updated_weaken; [|by eapply updated_trans]; done|]. split_and!; [lia|done| |].
    2:{ eapply leaf_tables_trans; [exact K1|]. eapply leaf_tables_weaken; [|exact K2].
        intros q Hq _ ->. rewrite length_app in Hq. simpl in Hq. lia. }
    destruct C2 as [(-> & Ey & Hv)|[F2 Z2]], C1 as [->|[F1 Z1]].
    + done.
    + rewrite Z1 in Ey by apply land_511. by subst y.
    + rewrite (proj1 (lvl2_entry_eq _ _ _ A2)), Z2 by apply land_511. unfold lvl2_entry. by rewrite F2.
    + rewrite (proj1 (lvl2_entry_eq _ _ _ A2)), Z2 by apply land_511. unfold lvl2_entry.
      by rewrite follow_snoc, F1.
Qed.

Lemma leaf_prefix p i q : full q -> S (length p) = depth -> (p ++ [i]) `prefix_of` q -> q = p ++ [i].
Proof.
  intros [Hq _] Hp [k ->]. destruct k as [|j k]; [by rewrite app_nil_r|].
  rewrite !length_app in Hq. simpl in Hq. lia.
Qed.

(** The translation of a page after a write to its last-level entry. *)
Lemma write_leaf s p x i v : pt_ok s -> at_table s p x -> S (length p) = depth -> idx_ok 512 (p ++ [i]) ->
  Z.land v 3 = 3 \/ v = 0 ->
  let s' := with_mem (<[slot (to_pa x) i := v]> (mem s)) s in
  updated (fun q => q <> p ++ [i]) s s' /\ tr s' (p ++ [i]) = if Z.land v 3 =? 3 then Some (v, O) else None.
Proof.
  intros Hok [E Hpage] Hp Ip Hv s'. assert (length p < depth)%nat as Hlt by lia. split.
  - eapply updated_weaken; [|eapply (prune_updated s p _ i v); try done].
    + simpl. intros q Hf Hq Hpre. by apply Hq, leaf_prefix.
    + by right.
    + destruct Hv as [?| ->]; [by right; left|by left].
  - unfold tr, translate. simpl.
    rewrite (write_walk_at 512 depth _ _ _ p (to_pa x) i v (ok_tree _ Hok)) by (done || by right).
    simpl. done.
Qed.

(** The end of [map]: the last-level entry is written unless it is valid. *)
Lemma map_leaf s ipa pa pte z : pt_ok s -> at_table s (block_path ipa) z ->
  exists s', (let! l3e := entry z (pt_lvl3_idx ipa) in
      if valid l3e then m_ret tt else set_entry z (pt_lvl3_idx ipa) (Z.lor (Z.lor pa PTE_TABLE) pte)) s = Ret tt s' /\
    updated (fun q => q <> path ipa) s s' /\ leaf_tables (fun _ => True) s s' /\ supply s' = supply s /\
    tr s' (path ipa) = match tr s (path ipa) with
                       | Some e => Some e
                       | None => Some (Z.lor (Z.lor pa 3) pte, O)
                       end.
Proof.
  intros Hok [F P]. destruct (path_split ipa) as (_ & _ & E3 & Hd). destruct (path_oks ipa) as (_ & _ & O3).
  fold (block_path ipa) in E3, O3.
  assert (S (length (block_path ipa)) = depth) as Hp by (unfold block_path; rewrite !length_app; simpl; lia).
  set (e := rd (mem s) (slot (to_pa z) (pt_lvl3_idx ipa))).
  assert (entry z (pt_lvl3_idx ipa) s = Ret e s) as Ee by (apply entry_eq; [done|done|apply land_511]).
  assert (tr s (path ipa) = if Z.land e 3 =? 3 then Some (e, O) else None) as Et.
  { rewrite E3. unfold tr, translate. rewrite (walk_app _ _ _ (to_pa z)) by done. reflexivity. }
  pose proof (ok_ents _ Hok (block_path ipa) (pt_lvl3_idx ipa) _ ltac:(lia) O3 F) as Hg. fold e in Hg.
  setoid_rewrite (m_bind_Ret _ _ _ _ _ Ee).
  destruct (write_leaf s (block_path ipa) z (pt_lvl3_idx ipa) (Z.lor (Z.lor pa 3) pte)) as [U4 T4];
    [done|done|done|done|left; apply land3_lor_3|].
  rewrite land3_lor_3 in T4. simpl in T4. rewrite <- E3 in U4, T4.
  apply good_cases in Hg as [[Hv H0]|[[Hv H0]|(_ & _ & ?)]]; [| |lia]; rewrite Hv.
  - eexists. split_and!; [apply (set_entry_eq s z (to_pa z)); [done|done|apply land_511]|exact U4| |done|].
    + intros q Hq Iq _. simpl. rewrite (write_follow 512 depth _ _ _ (block_path ipa) (to_pa z) (pt_lvl3_idx ipa) _ (ok_tree _ Hok));
        [done|lia|done|done|lia|done|]. intros Hpre%prefix_length. rewrite length_app in Hpre. simpl in Hpre. lia.
    + eapply eq_trans; [exact T4|]. by rewrite Et, H0.
  - exists s. split_and!; [done|by apply updated_refl|by intros q|done|]. by rewrite Et, H0.
Qed.

(** [map] on a page, whatever tables are there. *)
Lemma map_page s ipa pa pte :
  pt_ok s -> fresh s -> (3 <= length (supply s))%nat -> no_block s (path ipa) ->
  exists s', map lvl4 ipa pa pte s = Ret tt s' /\
    updated (fun q => q <> path ipa) s s' /\ leaf_tables (fun q => q <> block_path ipa) s s' /\ (length (supply s) <= 3 + length (supply s'))%nat /\
    tr s' (path ipa) = match tr s (path ipa) with
                       | Some e => Some e
                       | None => Some (Z.lor (Z.lor pa 3) pte, O)
                       end.
Proof.
  intros Hok Hfr Hsup Hnb. destruct (path_split ipa) as (_ & E2 & _ & Hd).
  destruct (path_oks ipa) as (_ & O2 & _).
  destruct (make_l1e_spec s ipa) as (x & y & s1 & s2 & M0 & M1 & U & L & A & _ & K); [done..|lia|].
  destruct (next_table_spec s2 (root_path ipa ++ [pt_lvl1_idx ipa]) y (pt_lvl2_idx ipa))
    as (z & s3 & M2 & U2 & L2 & A2 & _ & K2); try done.
  { apply U. } { by apply U. } { apply (supply_ne _ 0). lia. }
  { rewrite length_app. simpl. lia. }
  { eapply not_block_path; [exact A| |rewrite <- E2; by eapply no_block_updated; [exact U|apply path_full| |]]. done. }
  fold (block_path ipa) in A2.
  assert (updated (fun _ => True) s s3) as U3 by (eapply updated_weaken; [|by eapply updated_trans]; done).
  destruct (map_leaf s3 ipa pa pte z) as (s4 & M3 & U4 & K4 & L4 & T4); [apply U3|done|].
  exists s4. split_and!.
  - unfold map. eapply m_bind_Ret_r; [exact M0|]. eapply m_bind_Ret_r; [exact M1|]. eapply m_bind_Ret_r; [exact M2|exact M3].
  - eapply updated_weaken; [|eapply updated_trans; [exact U3|exact U4]]. done.
  - eapply leaf_tables_trans; [by eapply leaf_tables_weaken, K|].
    eapply leaf_tables_trans; [exact K2|by eapply leaf_tables_weaken, K4].
  - rewrite L4. lia.
  - rewrite T4. by rewrite (up_tr _ _ _ U3 _ (path_full ipa)).
Qed.

(** Mapping a 4 KB page.  In a sound table, with enough fresh frames and no block over the
    page, [map] terminates and keeps the tables sound; the page is translated to the given
    address and attributes, or as before if it was mapped already; the translation of every
    other page is what it was. *)
Theorem map_spec s ipa pa pte :
  pt_ok s -> fresh s -> (3 <= length (supply s))%nat -> no_block s (path ipa) ->
  exists s', map lvl4 ipa pa pte s = Ret tt s' /\
    updated (fun q => q <> path ipa) s s' /\ (length (supply s) <= 3 + length (supply s'))%nat /\
    tr s' (path ipa) = match tr s (path ipa) with
                       | Some e => Some e
                       | None => Some (Z.lor (Z.lor pa 3) pte, O)
                       end.
Proof. intros. destruct (map_page s ipa pa pte) as (s' & ? & ? & _ & ? & ?); [done..|]. by exists s'. Qed.

(** ** Unmapping *)

(** What a write to an entry of [p] leaves of the tables above it. *)
Lemma prune_above s p t i v q x : pt_ok s -> (length p < depth)%nat -> idx_ok 512 (p ++ [i]) ->
  follow (mem s) (directory s) p = Some t -> (length q <= length p)%nat -> idx_ok 512 q ->
  at_table s q x ->
  let s' := with_mem (<[slot t i := v]> (mem s)) s in
  at_table s' q x /\
  (forall j, idx_ok 512 (q ++ [j]) -> q ++ [j] <> p ++ [i] ->
     rd (mem s') (slot (to_pa x) j) = rd (mem s) (slot (to_pa x) j)).
Proof.
  intros Hok Hp Ip E Hq Iq [Ex Px] s'. split.
  - split; [|done]. simpl. rewrite <- Ex.
    apply (write_follow 512 depth _ _ _ p t i v (ok_tree _ Hok)); [done..|lia|done|].
    intros [k Ek]. apply (f_equal length) in Ek. rewrite !length_app in Ek. simpl in Ek. lia.
  - intros j Ij Hne. simpl.
    rewrite (write_read 512 depth _ _ _ p t i v (ok_tree _ Hok) Hp Ip E q) by (done || lia).
    by rewrite decide_False.
Qed.

(** Frames given back are no longer in the table. *)
Definition released (s s' : PtS) : Prop :=
  (forall t, t ∈ pages s' -> t ∈ pages s) /\
  (forall t, t ∈ dropped s' -> t ∈ dropped s \/ (t ∈ pages s /\ t ∉ pages s')).

Lemma released_refl s : released s s.
Proof. split; [done|]. intros t ?. by left. Qed.

Lemma released_trans s s1 s2 : released s s1 -> released s1 s2 -> released s s2.
Proof.
  intros [P1 H1] [P2 H2]. split; [auto|]. intros t [Ht|[Ht Hn]]%H2; [|right; auto].
  apply H1 in Ht as [?|[? Hn]]; [by left|]. right. split; [done|]. intros ?. by apply Hn, P2.
Qed.

Lemma empty_page_spec s t : page_ok t ->
  exists b, empty_page t s = Ret b s /\
    (b = true -> forall j, 0 <= j < 512 -> rd (mem s) (slot t j) = 0).
Proof.
  intros Ht. eexists. split; [reflexivity|]. intros Hb j Hj.
  rewrite forallb_forall in Hb. specialize (Hb j). rewrite Z.eqb_eq in Hb.
  pose proof (slot_eq t t j (to_pa_page t Ht) Ht Hj) as E. rewrite (to_pa_page t Ht) in E.
  rewrite <- E. apply Hb. apply list_elem_of_In, zrange_elem. lia.
Qed.

Lemma release_empty_spec s p x i : pt_ok s -> at_table s p x -> (S (length p) < depth)%nat ->
  idx_ok 512 (p ++ [i]) ->
  let e := rd (mem s) (slot (to_pa x) i) in
  pte_next e = Some (to_pa e) -> page_ok (to_pa e) ->
  exists b s', release_empty x i e s = Ret b s' /\ updated (fun _ => True) s s' /\ released s s' /\
    (forall q y, (length q < length p)%nat -> idx_ok 512 q -> at_table s q y ->
       at_table s' q y /\ forall j, idx_ok 512 (q ++ [j]) -> rd (mem s') (slot (to_pa y) j) = rd (mem s) (slot (to_pa y) j)).
Proof.
  intros Hok [E Hpage] Hp Ip e Hn He. destruct (empty_page_spec s (to_pa e) He) as (b & Eb & Hb).
  unfold release_empty. destruct b.
  2: { exists false, s. split_and!; [by eapply m_bind_Ret_r; [exact Eb|]|by apply updated_refl| |].
       - apply released_refl.
       - done. }
  specialize (Hb eq_refl). eexists true, _. split_and!.
  - eapply m_bind_Ret_r; [exact Eb|]. cbv beta iota.
    eapply m_bind_Ret_r; [apply (set_entry_eq s x (to_pa x)); [done|done|by eapply idx_512]|].
    eapply m_bind_Ret_r; reflexivity.
  - assert (length p < depth)%nat as Hp' by lia.
    destruct (prune_updated s p (to_pa x) i 0 Hok Hp' Ip E) as [[T N] _ F W]; [by left|by left|].
    split; simpl; [split; [|done]|done| |].
    + by eapply (write_unlink 512 depth _ _ _ p (to_pa x) i 0 (ok_tree _ Hok)).
    + intros [Hnd Hall]. split; [done|]. rewrite list.Forall_forall in *. intros f Hf.
      destruct (Hall f Hf) as (? & ? & Hnf). split_and!; [done|done|].
      intros [_ ?]%list_elem_of_filter. done.
    + intros q Hq _. destruct (decide ((p ++ [i]) `prefix_of` q)) as [Hpre|Hpre]; [|by apply W].
      destruct (prefix_cases p i q Hq Hp Hpre) as (j & k & -> & Hj). unfold tr. simpl.
      transitivity (None (A := Z * nat)).
      * unfold translate. rewrite (write_walk_at 512 depth _ _ _ p (to_pa x) i 0 (ok_tree _ Hok)) by (done || by left).
        simpl. by destruct (length (j :: k)).
      * symmetry. change (p ++ i :: j :: k) with (p ++ [i] ++ j :: k). rewrite app_assoc.
        apply (empty_translate _ _ _ (to_pa e)); [by rewrite follow_snoc, E|by apply Hb].
  - split; intros t; simpl; rewrite ?elem_of_app, !list_elem_of_filter; [by intros [_ ?]|].
    intros [?|[-> Ht]]; [by left|]. right. split; [done|]. by intros [? _].
  - intros q y Hq Iq A. destruct (prune_above s p (to_pa x) i 0 q y Hok) as [[A1 A2] B]; [lia|done|done|lia|done|done|].
    split; [by split|]. intros j Ij. apply B; [done|]. intros Ej. apply (f_equal length) in Ej.
    rewrite !length_app in Ej. simpl in Ej. lia.
Qed.

(** The table an entry leads to, or nothing is mapped. *)
Lemma entry_spec s p x i : pt_ok s -> at_table s p x -> (S (length p) < depth)%nat ->
  idx_ok 512 (p ++ [i]) -> not_block s x i ->
  let e := rd (mem s) (slot (to_pa x) i) in
  entry x i s = Ret e s /\
  (valid e = false /\ (forall r, tr s (p ++ i :: r) = None) \/
   valid e = true /\ pte_next e = Some (to_pa e) /\ at_table s (p ++ [i]) e).
Proof.
  intros Hok Hx Hp Ip Hnb e. pose proof Hx as [E Hpage]. split.
  { apply entry_eq; [done|done|by eapply idx_512]. }
  destruct (table_entry s p x i Hok Hx ltac:(lia) Ip Hnb) as [[Hv E0]|[Hv Hn]]; fold e in Hv.
  - left. split; [done|]. intros r. by apply (invalid_translate _ _ p (to_pa x)).
  - right. split; [done|]. split; [done|].
    assert (follow (mem s) (directory s) (p ++ [i]) = Some (to_pa e)) as E'
      by (rewrite follow_snoc, E; exact Hn).
    split; [done|]. eapply table_page; [done| |exact Ip|exact E']. rewrite length_app. simpl. lia.
Qed.

Lemma find_l0e_spec s ipa : pt_ok s ->
  exists o, find_l0e lvl4 ipa s = Ret o s /\
    match o with
    | Some x => at_table s (root_path ipa) x
    | None => forall r, tr s (root_path ipa ++ r) = None
    end.
Proof.
  intros Hok. unfold find_l0e, root_path. pose proof (at_root s Hok) as A0.
  assert (idx_ok 512 ([] ++ [pt_lvl0_idx ipa])) as I0 by (simpl; split; [apply land_511|constructor]).
  destruct lvl4 eqn:El.
  - assert (depth = 4%nat) as Ed by (unfold depth; by rewrite El).
    destruct (entry_spec s [] (directory s) (pt_lvl0_idx ipa)) as [Ee He]; try done.
    + rewrite Ed. simpl. lia.
    + apply (not_block_upper s []); [done|done| |by rewrite Ed|done]. rewrite Ed. simpl. lia.
    + eexists. split; [eapply m_bind_Ret_r; [reflexivity|]; eapply m_bind_Ret_r; [exact Ee|reflexivity]|].
      destruct He as [[Hv Ht]|(Hv & _ & Ha)]; rewrite Hv; done.
  - eexists. split; [reflexivity|]. done.
Qed.

(** The chain of tables down to the last level. *)
Record chain (s : PtS) (ipa x y z : Z) : Prop := {
  ch_x : at_table s (root_path ipa) x;
  ch_y : at_table s (root_path ipa ++ [pt_lvl1_idx ipa]) y;
  ch_z : at_table s ((root_path ipa ++ [pt_lvl1_idx ipa]) ++ [pt_lvl2_idx ipa]) z;
  ch_xy : rd (mem s) (slot (to_pa x) (pt_lvl1_idx ipa)) = y;
  ch_yz : rd (mem s) (slot (to_pa y) (pt_lvl2_idx ipa)) = z;
  ch_ny : pte_next y = Some (to_pa y);
  ch_nz : pte_next z = Some (to_pa z);
}.

(** Clearing the last-level entry and releasing what became empty. *)
Lemma clear_leaf s ipa x y z : pt_ok s -> chain s ipa x y z ->
  exists s', (set_entry z (pt_lvl3_idx ipa) 0 >>;
      let! emp := release_empty y (pt_lvl2_idx ipa) z in
      if emp then let! _ := release_empty x (pt_lvl1_idx ipa) y in m_ret tt else m_ret tt) s = Ret tt s' /\
    updated (fun q => q <> path ipa) s s' /\ tr s' (path ipa) = None /\ released s s'.
Proof.
  intros Hok [A0 A1 A2 R0 R1 Ny Nz]. destruct (path_split ipa) as (_ & _ & E3 & Hd).
  destruct (path_oks ipa) as (O1 & O2 & O3).
  set (p1 := root_path ipa ++ [pt_lvl1_idx ipa]) in *. set (p2 := p1 ++ [pt_lvl2_idx ipa]) in *.
  assert (length p1 = S (length (root_path ipa)) /\ length p2 = S (length p1)) as [L1 L2]
    by (unfold p2, p1; rewrite !length_app; simpl; lia).
  pose proof A2 as [F2 P2]. assert (length p2 < depth)%nat as Lt2 by lia.
  destruct (write_leaf s p2 z (pt_lvl3_idx ipa) 0) as [U3 T3]; [done|done|lia|done|by right|].
  simpl in T3. rewrite <- E3 in U3, T3.
  destruct (prune_above s p2 (to_pa z) (pt_lvl3_idx ipa) 0 p1 y Hok Lt2 O3 F2) as [B1 K1]; [lia|by eapply idx_ok_app|done|].
  destruct (prune_above s p2 (to_pa z) (pt_lvl3_idx ipa) 0 (root_path ipa) x Hok Lt2 O3 F2) as [B0 K0]; [lia|by eapply idx_ok_app|done|].
  specialize (K1 (pt_lvl2_idx ipa) O2). specialize (K0 (pt_lvl1_idx ipa) O1). rewrite R1 in K1. rewrite R0 in K0.
  fold p1 in K0. fold p2 in K1.
  specialize (K1 ltac:(intros Ej; apply (f_equal length) in Ej; rewrite !length_app in Ej; simpl in Ej; lia)).
  specialize (K0 ltac:(intros Ej; apply (f_equal length) in Ej; rewrite !length_app in Ej; simpl in Ej; lia)).
  setoid_rewrite (m_bind_Ret _ _ _ _ _ (set_entry_eq s z (to_pa z) _ 0 eq_refl P2 (idx_512 _ _ O3))).
  set (s1 := with_mem (<[slot (to_pa z) (pt_lvl3_idx ipa) := 0]> (mem s)) s) in *.
  assert (forall s', updated (fun _ => True) s1 s' -> released s s' ->
    updated (fun q => q <> path ipa) s s' /\ tr s' (path ipa) = None /\ released s s') as Hdone.
  { intros s' U Rl. split_and!; [| |done].
    - eapply updated_weaken; [|eapply updated_trans; [exact U3|exact U]]. done.
    - rewrite (up_tr _ _ _ U); [done|apply path_full|done]. }
  destruct (release_empty_spec s1 p1 y (pt_lvl2_idx ipa)) as (b & s2 & M4 & U4 & Rl4 & K4);
    [apply U3|done|lia|done|by rewrite K1|rewrite K1; apply A2|].
  rewrite K1 in M4. setoid_rewrite (m_bind_Ret _ _ _ _ _ M4).
  destruct b; [|exists s2; split; [done|by apply Hdone]].
  destruct (K4 (root_path ipa) x) as [B0' K0']; [lia|by eapply idx_ok_app|done|].
  specialize (K0' (pt_lvl1_idx ipa) O1). rewrite K0 in K0'.
  destruct (release_empty_spec s2 (root_path ipa) x (pt_lvl1_idx ipa)) as (b5 & s3 & M5 & U5 & Rl5 & _);
    [apply U4|done|lia|done|by rewrite K0'|rewrite K0'; apply A1|].
  rewrite K0' in M5. setoid_rewrite (m_bind_Ret _ _ _ _ _ M5). exists s3. split; [done|]. apply Hdone.
  - eapply updated_weaken; [|eapply updated_trans; [exact U4|exact U5]]. done.
  - eapply released_trans; [exact Rl4|exact Rl5].
Qed.

(** What [unmap] and [unmap_2mb] do first: find the level 2 entry's table. *)
Lemma find_l1e_spec s ipa : pt_ok s ->
  (find_l0e lvl4 ipa s = Ret None s /\ forall r, tr s (root_path ipa ++ r) = None) \/
  exists x y, find_l0e lvl4 ipa s = Ret (Some x) s /\ entry x (pt_lvl1_idx ipa) s = Ret y s /\
    rd (mem s) (slot (to_pa x) (pt_lvl1_idx ipa)) = y /\ at_table s (root_path ipa) x /\
    (valid y = false /\ (forall r, tr s (root_path ipa ++ pt_lvl1_idx ipa :: r) = None) \/
     valid y = true /\ pte_next y = Some (to_pa y) /\ at_table s (root_path ipa ++ [pt_lvl1_idx ipa]) y).
Proof.
  intros Hok. destruct (path_split ipa) as (_ & _ & _ & Hd). destruct (path_oks ipa) as (O1 & _).
  destruct (find_l0e_spec s ipa Hok) as (o & M0 & A0). destruct o as [x|]; [right|by left].
  destruct (entry_spec s (root_path ipa) x (pt_lvl1_idx ipa)) as [M1 H1];
    [done|done|lia|done|eapply not_block_upper; [done|exact A0|lia|lia|done]|].
  by eexists x, _.
Qed.

(** C12. Unmapping a 4 KB page.  In a sound table with no block over the page, [unmap] terminates and
    keeps the tables sound; the page is no longer mapped and the translation of every other
    page is what it was; the frames given back to the heap were frames of the table and are in
    it no more, so that no table reachable from the root lies in a freed frame. *)
Theorem unmap_spec s ipa : pt_ok s -> no_block s (path ipa) ->
  exists s', unmap lvl4 ipa s = Ret tt s' /\ updated (fun q => q <> path ipa) s s' /\
    tr s' (path ipa) = None /\ released s s'.
Proof.
  intros Hok Hnb. destruct (path_split ipa) as (E1 & E2 & E3 & Hd). destruct (path_oks ipa) as (O1 & O2 & O3).
  assert (tr s (path ipa) = None -> updated (fun q => q <> path ipa) s s /\ tr s (path ipa) = None /\ released s s) as Hsame
    by (intros; split_and!; [by apply updated_refl|done|apply released_refl]).
  unfold unmap. destruct (find_l1e_spec s ipa Hok) as [[M0 T]|(x & y & M0 & M1 & R0 & A0 & H1)];
    setoid_rewrite (m_bind_Ret _ _ _ _ _ M0); [exists s; split; [done|apply Hsame, T]|].
  setoid_rewrite (m_bind_Ret _ _ _ _ _ M1).
  destruct H1 as [[Hv T]|(Hv & Ny & A1)]; rewrite Hv; [exists s; split; [done|apply Hsame; rewrite E1; apply T]|].
  destruct (entry_spec s (root_path ipa ++ [pt_lvl1_idx ipa]) y (pt_lvl2_idx ipa)) as [M2 H2];
    [done|done|rewrite length_app; simpl; lia|done|eapply not_block_path; [exact A1| |by rewrite <- E2]; done|].
  setoid_rewrite (m_bind_Ret _ _ _ _ _ M2).
  destruct H2 as [[Hv2 T]|(Hv2 & Nz & A2)]; rewrite Hv2; [exists s; split; [done|apply Hsame; rewrite E2; apply T]|].
  set (z := rd (mem s) (slot (to_pa y) (pt_lvl2_idx ipa))) in *. pose proof A2 as [F2 P2].
  set (e := rd (mem s) (slot (to_pa z) (pt_lvl3_idx ipa))).
  assert (entry z (pt_lvl3_idx ipa) s = Ret e s) as M3 by (apply entry_eq; [done|done|apply land_511]).
  setoid_rewrite (m_bind_Ret _ _ _ _ _ M3).
  destruct (valid e) eqn:Hv3; [by apply clear_leaf|].
  exists s. split; [done|]. apply Hsame. rewrite E3. apply (invalid_translate _ _ _ (to_pa z)); [done|].
  unfold valid, testm in Hv3. by apply negb_false_iff, Z.eqb_eq in Hv3.
Qed.

(** ** Blocks *)

Definition in_block (ipa : Z) (q : list Z) : Prop := block_path ipa `prefix_of` q.

Lemma block_pages ipa q : full q -> in_block ipa q -> exists j, q = block_path ipa ++ [j].
Proof.
  intros [Hq _] [k ->]. destruct (path_split ipa) as (_ & _ & _ & Hd).
  unfold block_path in *. rewrite !length_app in Hq. simpl in Hq.
  destruct k as [|j [|j' k]]; simpl in Hq; [lia|by exists j|lia].
Qed.

(** A write to the level 2 entry and the pages below it. *)
Lemma write_block s ipa y v : pt_ok s -> at_table s (root_path ipa ++ [pt_lvl1_idx ipa]) y ->
  v = 0 \/ Z.land v 3 = 1 ->
  let s' := with_mem (<[slot (to_pa y) (pt_lvl2_idx ipa) := v]> (mem s)) s in
  updated (fun q => ~ in_block ipa q) s s' /\
  forall q, full q -> in_block ipa q -> tr s' q = if Z.land v 3 =? 1 then Some (v, 1%nat) else None.
Proof.
  intros Hok [E Hpage] Hv s'. destruct (path_split ipa) as (_ & _ & _ & Hd).
  destruct (path_oks ipa) as (O1 & O2 & _).
  assert (length (root_path ipa ++ [pt_lvl1_idx ipa]) = S (length (root_path ipa))) as L1 by (rewrite length_app; simpl; lia).
  assert (pte_next v = None) as Hn by (destruct Hv as [->|Hv]; simpl; [done|by rewrite Hv]).
  split.
  - eapply prune_updated; [done|lia|done|done|by left|].
    destruct Hv as [->|Hv]; [by left|]. right. right. split; [done|lia].
  - intros q Hq Hb. destruct (block_pages ipa q Hq Hb) as [j ->]. unfold tr, translate, block_path.
    rewrite <- app_assoc. simpl.
    rewrite (write_walk_at 512 depth _ _ _ _ (to_pa y) (pt_lvl2_idx ipa) v (ok_tree _ Hok)) by (done || lia || by left).
    destruct Hv as [->|Hv]; [done|]. simpl. by rewrite Hv.
Qed.

(** Mapping a 2 MB block.  In a sound table with two fresh frames [map_2mb] terminates and keeps
    the tables sound.  If a level 2 entry was there nothing is translated differently;
    otherwise every page of the block is translated by the new block entry and all other pages
    as before. *)
Theorem map_2mb_spec s ipa pa pte :
  pt_ok s -> fresh s -> (2 <= length (supply s))%nat -> Z.land (Z.lor pa pte) 3 = 0 ->
  exists s', map_2mb lvl4 ipa pa pte s = Ret tt s' /\
    (length (supply s) <= 2 + length (supply s'))%nat /\
    updated (fun q => in_block ipa q -> valid (lvl2_entry s ipa) = true) s s' /\
    (valid (lvl2_entry s ipa) = false ->
     forall q, full q -> in_block ipa q -> tr s' q = Some (Z.lor (Z.lor pa pte) 1, 1%nat)) /\
    leaf_tables (fun _ => True) s s'.
Proof.
  intros Hok Hfr Hsup Hpte.
  destruct (make_l1e_spec s ipa) as (x & y & s1 & s2 & M0 & M1 & U & L & A & Hl & K); [done..|lia|].
  destruct (lvl2_entry_eq s2 ipa y A) as [_ M2]. rewrite Hl in M2.
  assert (Z.land (Z.lor (Z.lor pa pte) 1) 3 = 1) as Hv by (rewrite Z.land_lor_distr_l, Hpte; done).
  unfold map_2mb. setoid_rewrite (m_bind_Ret _ _ _ _ _ M0). setoid_rewrite (m_bind_Ret _ _ _ _ _ M1).
  setoid_rewrite (m_bind_Ret _ _ _ _ _ M2). destruct (valid (lvl2_entry s ipa)).
  - exists s2. split; [done|]. split; [lia|]. split; [|done]. eapply updated_weaken; [|exact U]. done.
  - destruct (write_block s2 ipa y (Z.lor (Z.lor pa pte) 1)) as [U2 T2]; [apply U|done|by right|].
    rewrite Hv in T2. eexists. split; [apply (set_entry_eq s2 y (to_pa y)); [done|apply A|apply land_511]|].
    split; [simpl; lia|]. split; [|split; [intros _; exact T2|]].
    2:{ eapply leaf_tables_trans; [exact K|]. destruct (path_split ipa) as (_ & _ & _ & Hd). destruct (path_oks ipa) as (_ & O2 & _).
        assert (S (length (root_path ipa ++ [pt_lvl1_idx ipa])) < depth)%nat by (rewrite length_app; simpl; lia).
        assert (forall v, Z.land v 3 = 1 -> pte_next v = None) as Hn by (intros v E; simpl; by rewrite E).
        intros q Hq Iq _ F. destruct (decide (q = block_path ipa)) as [->|Hne].
        - exfalso. apply F. simpl. unfold block_path. destruct A as [A _].
          by rewrite (write_follow_at 512 depth _ _ _ _ (to_pa y) _ _ (ok_tree _ (up_ok _ _ _ U))), Hn by (done || lia).
        - revert F. apply (write_tables s2 (root_path ipa ++ [pt_lvl1_idx ipa]) (to_pa y) _ _ (up_ok _ _ _ U));
            [lia|exact O2|apply A|left; by apply Hn|exact Hq|exact Iq|exact Hne]. }
    eapply updated_weaken; [|eapply updated_trans; [exact U|exact U2]]. simpl. intros q _ H.
    split; [done|]. intros Hb. by specialize (H Hb).
Qed.

(** Unmapping a 2 MB block: no page of the block is translated any more, all others as
    before, the tables stay sound, and what is given back to the heap is no longer in them. *)
Theorem unmap_2mb_spec s ipa : pt_ok s ->
  exists s', unmap_2mb lvl4 ipa s = Ret tt s' /\ updated (fun q => ~ in_block ipa q) s s' /\
    (forall q, full q -> in_block ipa q -> tr s' q = None) /\ released s s'.
Proof.
  intros Hok. destruct (path_split ipa) as (_ & _ & _ & Hd). destruct (path_oks ipa) as (O1 & O2 & _).
  assert ((forall r, tr s (block_path ipa ++ r) = None) ->
    updated (fun q => ~ in_block ipa q) s s /\ (forall q, full q -> in_block ipa q -> tr s q = None) /\ released s s) as Hsame.
  { intros T. split_and!; [by apply updated_refl| |apply released_refl]. intros q _ [k ->]. apply T. }
  unfold unmap_2mb. destruct (find_l1e_spec s ipa Hok) as [[M0 T]|(x & y & M0 & M1 & R0 & A0 & H1)];
    setoid_rewrite (m_bind_Ret _ _ _ _ _ M0).
  { exists s. split; [done|]. apply Hsame. intros r. unfold block_path. rewrite <- !app_assoc. apply T. }
  setoid_rewrite (m_bind_Ret _ _ _ _ _ M1). destruct H1 as [[Hv T]|(Hv & Ny & A1)]; rewrite Hv.
  { exists s. split; [done|]. apply Hsame. intros r. unfold block_path. rewrite <- !app_assoc. apply T. }
  destruct (lvl2_entry_eq s ipa y A1) as [El M2]. setoid_rewrite (m_bind_Ret _ _ _ _ _ M2).
  set (p1 := root_path ipa ++ [pt_lvl1_idx ipa]) in *.
  assert (length p1 = S (length (root_path ipa))) as L1 by (unfold p1; rewrite length_app; simpl; lia).
  pose proof A1 as [F1 P1].
  destruct (valid (lvl2_entry s ipa)) eqn:Hv2.
  2: { exists s. split; [done|]. apply Hsame. intros r. unfold block_path. rewrite <- app_assoc.
       apply (invalid_translate _ _ _ (to_pa y)); [done|]. rewrite <- El.
       unfold valid, testm in Hv2. by apply negb_false_iff, Z.eqb_eq in Hv2. }
  destruct (write_block s ipa y 0 Hok A1) as [U2 T2]; [by left|]. simpl in T2.
  destruct (prune_above s p1 (to_pa y) (pt_lvl2_idx ipa) 0 (root_path ipa) x Hok ltac:(lia) O2 F1) as [B0 K0]; [lia|by eapply idx_ok_app|done|].
  specialize (K0 (pt_lvl1_idx ipa) O1). rewrite R0 in K0.
  specialize (K0 ltac:(intros Ej; apply (f_equal length) in Ej; rewrite !length_app in Ej; simpl in Ej; lia)).
  setoid_rewrite (m_bind_Ret _ _ _ _ _ (set_entry_eq s y (to_pa y) _ 0 eq_refl P1 (land_511 _))).
  set (s1 := with_mem _ s) in *.
  destruct (release_empty_spec s1 (root_path ipa) x (pt_lvl1_idx ipa)) as (b & s2 & M4 & U4 & Rl & _);
    [apply U2|done|lia|done|by rewrite K0|rewrite K0; apply A1|].
  rewrite K0 in M4. setoid_rewrite (m_bind_Ret _ _ _ _ _ M4). exists s2. split_and!; [done| | |exact Rl].
  - eapply updated_weaken; [|eapply updated_trans; [exact U2|exact U4]]. done.
  - intros q Hq Hb. by rewrite (up_tr _ _ _ U4), T2.
Qed.

(** Tables that exist are found, not made. *)
Lemma next_table_found s p x i t : at_table s p x -> idx_ok 512 (p ++ [i]) ->
  follow (mem s) (directory s) (p ++ [i]) = Some t ->
  exists e, next_table x i s = Ret (Some e) s /\ to_pa e = t.
Proof.
  intros [E Hpage] Ip F. rewrite follow_snoc, E in F. set (e := rd (mem s) (slot (to_pa x) i)).
  change (pte_next e = Some t) in F. exists e. simpl in F. destruct (Z.eqb_spec (Z.land e 3) 3) as [E0|]; [|done].
  split; [|by injection F]. unfold next_table.
  eapply m_bind_Ret_r; [apply (entry_eq s x _ i eq_refl Hpage (idx_512 _ _ Ip))|]. cbv beta. fold e.
  unfold valid, testm. by rewrite E0.
Qed.

Lemma make_l0e_found s ipa t : pt_ok s -> follow (mem s) (directory s) (root_path ipa) = Some t ->
  exists x, make_l0e lvl4 ipa s = Ret (Some x) s /\ to_pa x = t.
Proof.
  intros Hok F. unfold make_l0e, root_path in *. pose proof (at_root s Hok) as A0.
  destruct lvl4.
  - destruct (next_table_found s [] (directory s) (pt_lvl0_idx ipa) t) as (e & E & Et); [done| |done|by exists e].
    simpl. split; [apply land_511|constructor].
  - injection F as <-. exists (directory s). split; [done|]. by destruct A0 as [[=] _].
Qed.

Lemma to_pa_range e : 0 <= to_pa e < 2 ^ 48.
Proof.
  assert (0 <= to_pa e) as H0 by (apply Z.land_nonneg; by right). split; [done|].
  apply (in_word_bits 48); [done..|]. intros i Hi. rewrite to_pa_testbit by lia.
  rewrite (proj2 (Z.ltb_ge i 48)) by lia. by rewrite andb_false_r.
Qed.

(** Mapping a page inside a block writes into guest memory.  [map] notices that the level 2
    entry is a block but goes on as if it were a table: when the word it then reads, which
    belongs to the memory the block maps for the guest, looks invalid, the new entry is stored there. *)
Theorem map_inside_block_writes_guest s ipa pa pte :
  pt_ok s -> Z.land (lvl2_entry s ipa) 3 = 1 ->
  let a := slot (to_pa (lvl2_entry s ipa)) (pt_lvl3_idx ipa) in
  valid (rd (mem s) a) = false ->
  map lvl4 ipa pa pte s = Ret tt (with_mem (<[a := Z.lor (Z.lor pa 3) pte]> (mem s)) s).
Proof.
  intros Hok Hb a Hv. destruct (path_oks ipa) as (O1 & O2 & _). destruct (path_split ipa) as (_ & _ & _ & Hd).
  destruct (follow (mem s) (directory s) (root_path ipa ++ [pt_lvl1_idx ipa])) as [t1|] eqn:F1;
    [|unfold lvl2_entry in Hb; by rewrite F1 in Hb].
  destruct (follow (mem s) (directory s) (root_path ipa)) as [t0|] eqn:F0; [|by rewrite follow_snoc, F0 in F1].
  destruct (make_l0e_found s ipa t0 Hok F0) as (x & M0 & Ex).
  assert (at_table s (root_path ipa) x) as A0.
  { split; [by rewrite Ex|]. rewrite Ex. apply (table_page s (root_path ipa)); [done|lia|by eapply idx_ok_app|exact F0]. }
  destruct (next_table_found s (root_path ipa) x (pt_lvl1_idx ipa) t1 A0 O1 F1) as (y & M1 & Ey).
  assert (at_table s (root_path ipa ++ [pt_lvl1_idx ipa]) y) as A1.
  { split; [by rewrite Ey|]. rewrite Ey. eapply table_page; [done| |exact O1|exact F1]. rewrite length_app. simpl. lia. }
  destruct (lvl2_entry_eq s ipa y A1) as [_ M2]. set (z := lvl2_entry s ipa) in *.
  assert (usize (to_pa z + pt_lvl3_idx ipa * 8) = a) as Ea.
  { unfold a, slot. pose proof (to_pa_range z). pose proof (land_511 (Z.shiftr ipa LVL3_SHIFT)).
    unfold pt_lvl3_idx. rewrite wrap_small by (unfold in_word; lia). lia. }
  unfold map. eapply m_bind_Ret_r; [exact M0|]. eapply m_bind_Ret_r; [exact M1|]. cbv beta iota.
  eapply m_bind_Ret_r.
  { eapply m_bind_Ret_r; [exact M2|]. cbv beta. unfold valid, testm. rewrite Hb. reflexivity. }
  cbv beta iota. eapply m_bind_Ret_r; [reflexivity|]. cbv beta. rewrite Ea, Hv.
  unfold set_entry, m_modify. by rewrite Ea.
Qed.

(** ** Ranges *)

Lemma idx_testbit a b k i : Z.land (Z.shiftr a k) 511 = Z.land (Z.shiftr b k) 511 ->
  0 <= k <= i -> i < k + 9 -> Z.testbit a i = Z.testbit b i.
Proof.
  intros E Hk Hi. apply (f_equal (fun x => Z.testbit x (i - k))) in E.
  change 511 with (Z.ones 9) in E. rewrite !Z.land_spec, !Z.shiftr_spec, Z.testbit_ones_nonneg in E by lia.
  rewrite (proj2 (Z.ltb_lt _ _)), !andb_true_r, !Z.sub_add in E by lia. done.
Qed.

(** Bits of an input address. *)
Definition ia_bits : Z := 12 + 9 * Z.of_nat depth.

(** Different pages have different paths. *)
Lemma path_inj a b : 0 <= a < 2 ^ ia_bits -> 0 <= b < 2 ^ ia_bits -> path a = path b -> a / 4096 = b / 4096.
Proof.
  intros Ha Hb E. change 4096 with (2 ^ 12). rewrite <- !Z.shiftr_div_pow2 by lia.
  apply Z.bits_inj'. intros i Hi. rewrite !Z.shiftr_spec by lia.
  destruct (Z.le_gt_cases ia_bits (i + 12)) as [Hge|Hlt].
  { by rewrite !(testbit_high ia_bits) by done. }
  unfold path, root_path, ia_bits, depth in *.
  assert (pt_lvl3_idx a = pt_lvl3_idx b /\ pt_lvl2_idx a = pt_lvl2_idx b /\ pt_lvl1_idx a = pt_lvl1_idx b /\
          (lvl4 = true -> pt_lvl0_idx a = pt_lvl0_idx b)) as (E3 & E2 & E1 & E0).
  { destruct lvl4; simpl in E; [by injection E as -> -> -> ->|by injection E as -> -> ->]. }
  unfold pt_lvl0_idx, pt_lvl1_idx, pt_lvl2_idx, pt_lvl3_idx, LVL0_SHIFT, LVL1_SHIFT, LVL2_SHIFT, LVL3_SHIFT in *.
  destruct (Z.lt_ge_cases (i + 12) 21); [by apply (idx_testbit a b 12); lia|].
  destruct (Z.lt_ge_cases (i + 12) 30); [by apply (idx_testbit a b 21); lia|].
  destruct (Z.lt_ge_cases (i + 12) 39); [by apply (idx_testbit a b 30); lia|].
  destruct lvl4; [|lia]. apply (idx_testbit a b 39); [by apply E0|lia|lia].
Qed.

Lemma path_pages_neq ipa i j n : 0 <= ipa -> ipa + n * 4096 <= 2 ^ ia_bits -> 0 <= i < n -> 0 <= j < n ->
  i <> j -> path (ipa + i * 4096) <> path (ipa + j * 4096).
Proof.
  intros H0 Hn Hi Hj Hne E. apply path_inj in E; [|lia..]. rewrite !Z.div_add in E by lia. lia.
Qed.

(** A page that is translated at the last level has its last-level table. *)
Lemma leaf_table s p j e : tr s (p ++ [j]) = Some (e, O) -> exists t, follow (mem s) (directory s) p = Some t.
Proof.
  unfold tr, translate. destruct (walk _ _ _) as [[e' k]|] eqn:W; [|done]. destruct (pte_leaf k e'); [|done].
  intros [= -> ->]. generalize (directory s) W. clear. induction p as [|i p IH]; intros d W; [by exists d|].
  simpl in *. destruct (p ++ [j]) as [|x r] eqn:E; [by destruct p|].
  destruct (Z.land _ 3 =? 3); [by apply IH|]. by injection W.
Qed.

(** With the last-level table in place [map] takes no frame. *)
Lemma map_found s ipa pa pte t : pt_ok s -> follow (mem s) (directory s) (block_path ipa) = Some t ->
  exists s', map lvl4 ipa pa pte s = Ret tt s' /\ updated (fun q => q <> path ipa) s s' /\ leaf_tables (fun _ => True) s s' /\ supply s' = supply s /\
    tr s' (path ipa) = match tr s (path ipa) with
                       | Some e => Some e
                       | None => Some (Z.lor (Z.lor pa 3) pte, O)
                       end.
Proof.
  intros Hok F. destruct (path_oks ipa) as (O1 & O2 & _). destruct (path_split ipa) as (_ & _ & _ & Hd).
  unfold block_path in F.
  destruct (follow (mem s) (directory s) (root_path ipa ++ [pt_lvl1_idx ipa])) as [t1|] eqn:F1; [|by rewrite follow_snoc, F1 in F].
  destruct (follow (mem s) (directory s) (root_path ipa)) as [t0|] eqn:F0; [|by rewrite follow_snoc, F0 in F1].
  destruct (make_l0e_found s ipa t0 Hok F0) as (x & M0 & Ex).
  assert (forall p e t, to_pa e = t -> (length p < depth)%nat -> idx_ok 512 p -> follow (mem s) (directory s) p = Some t -> at_table s p e) as At.
  { intros p e t' <- Hp Ip Fp. split; [done|]. by apply (table_page s p). }
  assert (at_table s (root_path ipa) x) as A0 by (eapply At; [exact Ex|lia|by eapply idx_ok_app|done]).
  destruct (next_table_found s (root_path ipa) x (pt_lvl1_idx ipa) t1 A0 O1 F1) as (y & M1 & Ey).
  assert (at_table s (root_path ipa ++ [pt_lvl1_idx ipa]) y) as A1 by (eapply At; [exact Ey| |done..]; rewrite length_app; simpl; lia).
  destruct (next_table_found s _ y (pt_lvl2_idx ipa) t A1 O2 F) as (z & M2 & Ez).
  assert (at_table s (block_path ipa) z) as A2.
  { eapply At; [exact Ez| |done|exact F]. unfold block_path. rewrite !length_app. simpl. lia. }
  destruct (map_leaf s ipa pa pte z Hok A2) as (s' & M3 & H). exists s'. split; [|exact H].
  unfold map. eapply m_bind_Ret_r; [exact M0|]. eapply m_bind_Ret_r; [exact M1|]. eapply m_bind_Ret_r; [exact M2|exact M3].
Qed.

(** How many 2 MB blocks the first [k] pages from [ipa] touch, and frames for their tables. *)
Definition spans (ipa k : Z) : Z := if k =? 0 then 0 else (ipa + k * 4096 - 1) / 2 ^ 21 - ipa / 2 ^ 21 + 1.

Lemma same_block a b : a / 2 ^ 21 = b / 2 ^ 21 -> block_path a = block_path b.
Proof.
  intros E. unfold block_path, root_path, pt_lvl0_idx, pt_lvl1_idx, pt_lvl2_idx, LVL0_SHIFT, LVL1_SHIFT, LVL2_SHIFT.
  rewrite !Z.shiftr_div_pow2 by lia. rewrite E.
  replace (2 ^ 39) with (2 ^ 21 * 2 ^ 18) by done. replace (2 ^ 30) with (2 ^ 21 * 2 ^ 9) by done.
  rewrite <- !Z.div_div by lia. by rewrite E.
Qed.

(** One more page: in the block of the page before, or in the next one. *)
Lemma spans_next ipa k : 0 <= ipa -> ipa mod 4096 = 0 -> 0 <= k ->
  spans ipa k <= spans ipa (k + 1) /\
  (0 < k /\ (ipa + k * 4096) / 2 ^ 21 = (ipa + (k - 1) * 4096) / 2 ^ 21 \/ spans ipa (k + 1) = spans ipa k + 1).
Proof.
  intros H0 Hm Hk. unfold spans. rewrite (proj2 (Z.eqb_neq (k + 1) 0)) by lia.
  pose proof (Z.div_mod ipa 4096 ltac:(lia)) as D.
  destruct (Z.eqb_spec k 0) as [->|]; zdiv.
Qed.

Lemma spans_nonneg ipa k : 0 <= ipa -> 0 <= k -> 0 <= spans ipa k.
Proof. intros. unfold spans. destruct (Z.eqb_spec k 0); zdiv. Qed.

(** The first [k] pages of a range. *)
Lemma map_pages s ipa pa pte n (k : nat) : pt_ok s -> fresh s ->
  0 <= ipa -> ipa mod 4096 = 0 -> ipa + n * 4096 <= 2 ^ ia_bits -> 0 <= pa -> pa + n * 4096 <= 2 ^ 64 ->
  Z.of_nat k <= n -> 3 * spans ipa (Z.of_nat k) <= zlen (supply s) ->
  (forall i, 0 <= i < n -> no_block s (path (ipa + i * 4096))) ->
  exists s', m_for (zrange 0 k) (fun i => map lvl4 (usize (ipa + i * PAGE_SIZE)) (usize (pa + i * PAGE_SIZE)) pte) s = Ret tt s' /\
    updated (fun q => forall i, 0 <= i < Z.of_nat k -> q <> path (ipa + i * 4096)) s s' /\
    leaf_tables (fun q => forall i, 0 <= i < Z.of_nat k -> q <> block_path (ipa + i * 4096)) s s' /\
    zlen (supply s) <= 3 * spans ipa (Z.of_nat k) + zlen (supply s') /\
    forall i, 0 <= i < Z.of_nat k -> tr s' (path (ipa + i * 4096)) =
      match tr s (path (ipa + i * 4096)) with
      | Some e => Some e
      | None => Some (Z.lor (Z.lor (pa + i * 4096) 3) pte, O)
      end.
Proof.
  intros Hok Hfr H0 Hal Hn Hp0 Hpn Hk Hsup Hnb. induction k as [|k IH].
  { exists s. split; [done|]. split; [by apply updated_refl|]. split; [by intros q|]. split; [unfold spans; simpl; lia|]. lia. }
  destruct (spans_next ipa (Z.of_nat k) H0 Hal ltac:(lia)) as [Hmono Hcase].
  replace (Z.of_nat k + 1) with (Z.of_nat (S k)) in * by lia.
  destruct IH as (s1 & E1 & U1 & K1 & L1 & T1); [lia|lia|].
  assert (ia_bits <= 64) as Hia by (unfold ia_bits, depth; destruct lvl4; lia).
  assert (2 ^ ia_bits <= 2 ^ 64) as Hpow by (apply Z.pow_le_mono_r; lia).
  assert (usize (ipa + Z.of_nat k * PAGE_SIZE) = ipa + Z.of_nat k * 4096) as Ea
    by (apply wrap_small; unfold in_word, PAGE_SIZE; lia).
  assert (usize (pa + Z.of_nat k * PAGE_SIZE) = pa + Z.of_nat k * 4096) as Ep
    by (apply wrap_small; unfold in_word, PAGE_SIZE; lia).
  assert (forall i, 0 <= i < Z.of_nat k -> path (ipa + Z.of_nat k * 4096) <> path (ipa + i * 4096)) as Hne
    by (intros i Hi; apply (path_pages_neq _ _ _ n); lia).
  set (a := ipa + Z.of_nat k * 4096) in *.
  assert (exists s2, map lvl4 a (pa + Z.of_nat k * 4096) pte s1 = Ret tt s2 /\ updated (fun q => q <> path a) s1 s2 /\
    leaf_tables (fun q => q <> block_path a) s1 s2 /\ zlen (supply s) <= 3 * spans ipa (Z.of_nat (S k)) + zlen (supply s2) /\
    tr s2 (path a) = match tr s1 (path a) with Some e => Some e | None => Some (Z.lor (Z.lor (pa + Z.of_nat k * 4096) 3) pte, O) end)
    as (s2 & E2 & U2 & K2 & L2 & T2).
  { destruct Hcase as [[Hk0 Hb]|Hs].
    - set (b := ipa + (Z.of_nat k - 1) * 4096) in *.
      assert (exists e, tr s1 (path b) = Some (e, O)) as [e Te].
      { unfold b. rewrite T1 by lia. destruct (tr s _) as [[e [|d]]|] eqn:Et; [by exists e| |by eexists].
        exfalso. by apply (Hnb (Z.of_nat k - 1) ltac:(lia) e d). }
      destruct (path_split b) as (_ & _ & E3 & _). rewrite E3 in Te. apply leaf_table in Te as [t Ft].
      fold (block_path b) in Ft. rewrite <- (same_block a b) in Ft by done.
      destruct (map_found s1 a (pa + Z.of_nat k * 4096) pte t (up_ok _ _ _ U1) Ft) as (s2 & ? & ? & K & Hsame & ?).
      exists s2. rewrite Hsame. split_and!; [done|done|by eapply leaf_tables_weaken, K|lia|done].
    - destruct (map_page s1 a (pa + Z.of_nat k * 4096) pte) as (s2 & ? & ? & ? & ? & ?).
      { apply U1. } { by apply U1. } { unfold zlen in *. lia. }
      { eapply no_block_updated; [exact U1|apply path_full|exact Hne|apply Hnb; lia]. }
      exists s2. split_and!; [done|done|done|unfold zlen in *; lia|done]. }
  exists s2. split.
  { rewrite zrange_S, m_for_app. eapply m_bind_Ret_r; [exact E1|]. cbn [m_for].
    eapply m_bind_Ret_r; [|reflexivity]. cbv beta. rewrite Z.add_0_l, Ea, Ep. exact E2. }
  split.
  { eapply updated_weaken; [|eapply updated_trans; [exact U1|exact U2]]. simpl. intros q _ Hq.
    split; [intros i Hi; apply Hq; lia|apply Hq; lia]. }
  split.
  { eapply leaf_tables_trans; [eapply leaf_tables_weaken; [|exact K1]|eapply leaf_tables_weaken; [|exact K2]]; simpl; intros q _ Hq.
    - intros i Hi. apply Hq. lia.
    - apply Hq. lia. }
  split; [lia|]. intros i Hi. destruct (decide (i = Z.of_nat k)) as [->|Hd].
  - fold a. rewrite T2. rewrite (up_tr _ _ _ U1 _ (path_full _)) by done. done.
  - rewrite (up_tr _ _ _ U2 _ (path_full _)); [apply T1; lia|].
    apply (path_pages_neq _ _ _ n); lia.
Qed.

(** [map_range], with the number of frames it takes. *)
Lemma map_range_pages s ipa len pa pte n :
  pt_ok s -> fresh s -> 0 <= ipa -> ipa mod 4096 = 0 -> 0 < len -> n = (len + 4095) / 4096 ->
  ipa + n * 4096 <= 2 ^ ia_bits -> 0 <= pa -> pa + n * 4096 <= 2 ^ 64 ->
  3 * spans ipa n <= zlen (supply s) ->
  (forall i, 0 <= i < n -> no_block s (path (ipa + i * 4096))) ->
  exists s', map_range lvl4 ipa len pa pte s = Ret tt s' /\
    updated (fun q => forall i, 0 <= i < n -> q <> path (ipa + i * 4096)) s s' /\
    leaf_tables (fun q => forall i, 0 <= i < n -> q <> block_path (ipa + i * 4096)) s s' /\
    zlen (supply s) <= 3 * spans ipa n + zlen (supply s') /\
    forall i, 0 <= i < n -> tr s' (path (ipa + i * 4096)) =
      match tr s (path (ipa + i * 4096)) with
      | Some e => Some e
      | None => Some (Z.lor (Z.lor (pa + i * 4096) 3) pte, O)
      end.
Proof.
  intros Hok Hfr H0 Hal Hlen En Hn Hp0 Hpn Hsup Hnb.
  assert (0 <= n) as Hn0 by (rewrite En; apply Z.div_pos; lia).
  destruct (map_pages s ipa pa pte n (Z.to_nat n)) as (s' & E & U & K & L & T); try done; [lia|by rewrite Z2Nat.id by lia|].
  rewrite Z2Nat.id in * by lia. exists s'. split; [|split_and!; [done|done|lia|done]].
  assert (2 ^ ia_bits <= 2 ^ 48) as Hpow
    by (apply Z.pow_le_mono_r; [lia|]; unfold ia_bits, depth; destruct lvl4; lia).
  assert (len <= n * 4096) as Hle
    by (pose proof (Z.div_mod (len + 4095) 4096); pose proof (Z.mod_pos_bound (len + 4095) 4096); lia).
  unfold map_range, for_pages. apply (m_bind_Ret_r _ _ _ (n * 4096) s).
  - unfold round_up. change (PAGE_SIZE =? 0) with false. cbv iota. unfold m_opt, m_ret. f_equal.
    change PAGE_SIZE with 4096. replace (len + 4096 - 1) with (len + 4095) by lia.
    rewrite (wrap_small 64 (len + 4095)), <- En by (unfold in_word; lia).
    apply wrap_small. unfold in_word. lia.
  - cbv beta. change PAGE_SIZE with 4096. rewrite Z.div_mul by lia. exact E.
Qed.

(** Mapping a range.  With fresh frames for three tables per 2 MB of a page-aligned input range inside the
    address space of the tables and no block over it, [map_range] terminates and translates
    page [i] of the range to page [i] of the output range (or as before, where it was mapped),
    and leaves the translation of every page outside the range. *)
Theorem map_range_spec s ipa len pa pte n :
  pt_ok s -> fresh s -> 0 <= ipa -> ipa mod 4096 = 0 -> 0 < len -> n = (len + 4095) / 4096 ->
  ipa + n * 4096 <= 2 ^ ia_bits -> 0 <= pa -> pa + n * 4096 <= 2 ^ 64 ->
  3 * spans ipa n <= zlen (supply s) ->
  (forall i, 0 <= i < n -> no_block s (path (ipa + i * 4096))) ->
  exists s', map_range lvl4 ipa len pa pte s = Ret tt s' /\
    updated (fun q => forall i, 0 <= i < n -> q <> path (ipa + i * 4096)) s s' /\
    forall i, 0 <= i < n -> tr s' (path (ipa + i * 4096)) =
      match tr s (path (ipa + i * 4096)) with
      | Some e => Some e
      | None => Some (Z.lor (Z.lor (pa + i * 4096) 3) pte, O)
      end.
Proof.
  intros. destruct (map_range_pages s ipa len pa pte n) as (s' & E & U & _ & _ & T); [done..|]. by exists s'.
Qed.
End spec.

(** ** A new table *)

Lemma follow_empty d p : p <> [] -> follow ∅ d p = None.
Proof. destruct p as [|i p]; [done|]. intros _. simpl. unfold rd. by rewrite lookup_empty. Qed.

Lemma pt_ok_new lvl4 d sup : page_ok d -> pt_ok lvl4 (pt_new d ∅ sup).
Proof.
  intros Hd. split; simpl.
  - split; [done|constructor| |].
    + intros p t Hp _ _. by rewrite follow_empty.
    + intros p q t _ _ _ _ E E'. destruct p as [|i p], q as [|j q]; [done| | |];
        rewrite follow_empty in E, E' || rewrite follow_empty in E || rewrite follow_empty in E'; done.
  - intros q j t _ _ _. left. unfold rd. by rewrite lookup_empty.
Qed.

Lemma tr_new lvl4 d sup q : full lvl4 q -> tr (pt_new d ∅ sup) q = None.
Proof.
  intros [Hq _]. unfold tr, translate. simpl. destruct q as [|i q]; [done|].
  rewrite walk_stop; unfold rd; rewrite lookup_empty; [by destruct (length q)|done].
Qed.

(** ** Witnesses *)

Definition demo_dir : Z := 0x40000000.
Definition demo_frames : list Z := [0x40001000; 0x40002000; 0x40003000].
Definition demo_pt : PtS := pt_new demo_dir ∅ demo_frames.

Lemma demo_dir_ok : page_ok demo_dir.
Proof. unfold page_ok, demo_dir. split; [done|lia]. Qed.

Lemma demo_pt_ok : pt_ok false demo_pt.
Proof. apply pt_ok_new, demo_dir_ok. Qed.

Lemma demo_fresh : fresh demo_pt.
Proof.
  split; simpl; [by apply (bool_decide_unpack _); vm_compute|].
  unfold demo_frames. repeat (apply list.Forall_cons; split; [|]); [..|constructor];
    unfold page_ok, off_root, demo_dir; (split_and!; [done|lia|lia|lia|by intros ?%elem_of_nil]).
Qed.

Lemma demo_no_block q : full false q -> no_block demo_pt q.
Proof. intros Hq e k. unfold demo_pt. by rewrite (tr_new false). Qed.

Lemma map_spec_witness : exists s', map false 0x50000000 0x80000000 PTE_S2_NORMAL demo_pt = Ret tt s' /\
  updated false (fun q => q <> path false 0x50000000) demo_pt s' /\ (3 <= 3 + length (supply s'))%nat /\
  tr s' (path false 0x50000000) = Some (Z.lor (Z.lor 0x80000000 3) PTE_S2_NORMAL, O).
Proof.
  apply (map_spec false demo_pt 0x50000000 0x80000000 PTE_S2_NORMAL demo_pt_ok demo_fresh).
  - simpl. lia.
  - apply demo_no_block, path_full.
Defined.

Lemma map_2mb_spec_witness : exists s', map_2mb false 0x50000000 0x80000000 PTE_S2_NORMAL demo_pt = Ret tt s' /\
  forall q, full false q -> in_block false 0x50000000 q ->
    tr s' q = Some (Z.lor (Z.lor 0x80000000 PTE_S2_NORMAL) 1, 1%nat).
Proof.
  destruct (map_2mb_spec false demo_pt 0x50000000 0x80000000 PTE_S2_NORMAL demo_pt_ok demo_fresh)
    as (s' & E & _ & _ & H); [simpl; lia|reflexivity|]. exists s'. split; [exact E|]. by apply H.
Defined.

Lemma map_range_spec_witness : exists s', map_range false 0x50000000 0x800 0x80000000 PTE_S2_DEVICE demo_pt = Ret tt s' /\
  tr s' (path false 0x50000000) = Some (Z.lor (Z.lor 0x80000000 3) PTE_S2_DEVICE, O).
Proof.
  destruct (map_range_spec false demo_pt 0x50000000 0x800 0x80000000 PTE_S2_DEVICE 1 demo_pt_ok demo_fresh)
    as (s' & E & _ & H).
  { lia. } { reflexivity. } { lia. } { reflexivity. } { vm_compute. congruence. } { lia. } { lia. } { vm_compute. congruence. }
  { intros i Hi. apply demo_no_block, path_full. }
  exists s'. split; [exact E|]. exact (H 0 ltac:(lia)).
Defined.

(** A table with one level 2 table, first empty and then with a block over 0x50000000. *)
Definition demo_l1 : PtS :=
  with_mem (<[slot demo_dir 1 := make_table 0x40004000]> (mem demo_pt)) (with_pages [0x40004000] demo_pt).
Definition demo_entry : Z := Z.lor (Z.lor 0x80000000 PTE_S2_NORMAL) 1.
Definition demo_block : PtS := with_mem (<[slot 0x40004000 128 := demo_entry]> (mem demo_l1)) demo_l1.

Lemma demo_page_ok : page_ok 0x40004000 /\ page_ok 0x40005000.
Proof. unfold page_ok. split; (split; [done|lia]). Qed.

Lemma demo_l1_ok : pt_ok false demo_l1 /\ at_table demo_l1 [1] (make_table 0x40004000).
Proof.
  destruct demo_page_ok as [Hp _].
  destruct (graft_updated false demo_pt [] demo_dir 1 0x40004000) as (U & F & _).
  { exact demo_pt_ok. } { simpl. unfold depth. lia. } { simpl. split; [lia|constructor]. }
  { done. } { done. } { done. } { unfold off_root. simpl. unfold demo_dir. lia. }
  { by intros ?%elem_of_nil. } { simpl. unfold demo_frames. set_solver. } { done. }
  split; [apply U|]. split; rewrite to_pa_table by done; [exact F|done].
Qed.

Lemma demo_block_ok : pt_ok false demo_block.
Proof.
  destruct demo_l1_ok as [H A].
  destruct (write_block false demo_l1 0x50000000 (make_table 0x40004000) demo_entry H A) as [U2 _]; [by right|].
  apply U2.
Qed.

(** A table with the single page 0x50003000. *)
Definition demo_l2 : PtS :=
  with_mem (<[slot 0x40004000 128 := make_table 0x40005000]> (mem demo_l1))
    (with_pages [0x40004000; 0x40005000] demo_l1).
Definition demo_leaf : Z := Z.lor (Z.lor 0x80003000 3) PTE_S2_NORMAL.
Definition demo_mapped : PtS := with_mem (<[slot 0x40005000 3 := demo_leaf]> (mem demo_l2)) demo_l2.

Lemma demo_mapped_ok : pt_ok false demo_mapped.
Proof.
  destruct demo_l1_ok as [H [F _]]. destruct demo_page_ok as [Hp4 Hp5].
  destruct (graft_updated false demo_l1 [1] 0x40004000 128 0x40005000) as (U & F2 & _).
  { exact H. } { simpl. unfold depth. lia. }
  { simpl. split; [lia|]. apply list.Forall_singleton. lia. }
  { rewrite to_pa_table in F by done. exact F. } { done. } { done. }
  { unfold off_root. simpl. unfold demo_dir. lia. }
  { simpl. set_solver. } { simpl. unfold demo_frames. set_solver. }
  { intros j Hj. change (rd (<[slot demo_dir 1 := make_table 0x40004000]> (mem demo_pt)) (slot 0x40005000 j) = 0).
    rewrite rd_insert_ne; [done|]. unfold slot, demo_dir. lia. }
  destruct (write_leaf false demo_l2 [1; 128] (make_table 0x40005000) 3 demo_leaf) as [U3 _].
  { apply U. } { split; rewrite to_pa_table by done; [exact F2|done]. } { done. }
  { simpl. split; [lia|]. repeat constructor; lia. } { by left. }
  apply U3.
Qed.

Lemma unmap_2mb_spec_witness : exists s', unmap_2mb false 0x50000000 demo_block = Ret tt s' /\
  (forall q, full false q -> in_block false 0x50000000 q -> tr s' q = None) /\ released demo_block s'.
Proof.
  destruct (unmap_2mb_spec false demo_block 0x50000000 demo_block_ok) as (s' & E & _ & H & Rl).
  exists s'. split; [exact E|]. split; [exact H|exact Rl].
Defined.

(** The guest's memory behind the block is zero, so mapping over it stores an entry there. *)
Lemma map_inside_block_writes_guest_witness :
  map false 0x50003000 0x90000000 PTE_S2_NORMAL demo_block =
    Ret tt (with_mem (<[0x80000018 := Z.lor (Z.lor 0x90000000 3) PTE_S2_NORMAL]> (mem demo_block)) demo_block).
Proof.
  exact (map_inside_block_writes_guest false demo_block 0x50003000 0x90000000 PTE_S2_NORMAL
    demo_block_ok eq_refl eq_refl).
Defined.

Lemma unmap_spec_witness : tr demo_mapped (path false 0x50003000) = Some (demo_leaf, O) /\
  exists s', unmap false 0x50003000 demo_mapped = Ret tt s' /\
    tr s' (path false 0x50003000) = None /\ released demo_mapped s'.
Proof.
  split; [vm_compute; reflexivity|].
  destruct (unmap_spec false demo_mapped 0x50003000 demo_mapped_ok) as (s' & E & _ & H & Rl).
  - intros e k H. vm_compute in H. congruence.
  - exists s'. split; [exact E|]. split; [exact H|exact Rl].
Defined.
