(* ===== verification/Stage2.v ===== *)
(** * Stage2: the AArch64 stage-2 tables as a map of addresses

    [stage2] is the walk as a function from guest to physical addresses.  [pt_map_range], by pages or by 2 MB
    blocks, adds one range to it; what several calls build is a lookup in the list of their ranges. *)
From stdpp Require Import list gmap.
From S2P Require Import Prelude Bits PtTree PageTable PageTableSpec.

(** ** Paths and entries *)

Lemma path_page lvl4 a b : a / 4096 = b / 4096 -> path lvl4 a = path lvl4 b.
Proof.
  intros E. assert (forall k, 12 <= k -> Z.shiftr a k = Z.shiftr b k) as H.
  { intros k Hk. replace k with (12 + (k - 12)) by lia. rewrite <- !Z.shiftr_shiftr by lia.
    rewrite !(Z.shiftr_div_pow2 _ 12) by lia. change (2 ^ 12) with 4096. by rewrite E. }
  unfold path, root_path, pt_lvl0_idx, pt_lvl1_idx, pt_lvl2_idx, pt_lvl3_idx, LVL0_SHIFT, LVL1_SHIFT, LVL2_SHIFT, LVL3_SHIFT.
  by rewrite !H by lia.
Qed.


(** The output address of an entry, for an aligned address and attributes in the low bits. *)
Lemma to_pa_lor pa x : pa mod 4096 = 0 -> 0 <= pa < 2 ^ 48 -> 0 <= x < 4096 -> to_pa (Z.lor pa x) = pa.
Proof.
  intros Hm Hr Hx. apply Z.bits_inj'. intros i Hi. rewrite to_pa_testbit, Z.lor_spec by done.
  destruct (Z.leb_spec 12 i); simpl.
  - rewrite (testbit_high 12 x) by (done || lia). rewrite orb_false_r. destruct (Z.ltb_spec i 48); [done|].
    symmetry. apply (testbit_high 48); [unfold in_word; lia|lia].
  - change 4096 with (2 ^ 12) in Hm. rewrite <- (Z.mod_pow2_bits_low pa 12 i) by lia. by rewrite Hm, Z.testbit_0_l.
Qed.

Lemma page_entry_pa pa pte : pa mod 4096 = 0 -> 0 <= pa < 2 ^ 48 -> 0 <= pte < 4096 -> to_pa (Z.lor (Z.lor pa 3) pte) = pa.
Proof.
  intros. rewrite <- Z.lor_assoc. apply to_pa_lor; [done..|]. by apply (lor_in_word 12).
Qed.

Lemma block_entry_pa pa pte : pa mod 4096 = 0 -> 0 <= pa < 2 ^ 48 -> 0 <= pte < 4096 -> to_pa (Z.lor (Z.lor pa pte) 1) = pa.
Proof.
  intros. rewrite <- Z.lor_assoc. apply to_pa_lor; [done..|]. by apply (lor_in_word 12).
Qed.

Section stage2.
Context (lvl4 : bool).
Local Abbreviation ia := (2 ^ ia_bits lvl4).
Local Abbreviation path := (path lvl4).
Local Abbreviation block_path := (block_path lvl4).

(** The guest address [a] as the hardware translates it: the output address of the entry, and the offset in the page or block. *)
Definition stage2 (s : PtS) (a : Z) : option Z :=
  match tr s (path a) with
  | Some (e, k) => Some (to_pa e + a mod (4096 * 512 ^ Z.of_nat k))
  | None => None
  end.

Lemma stage2_none s a : stage2 s a = None <-> tr s (path a) = None.
Proof. unfold stage2. by destruct (tr s (path a)) as [[e k]|]. Qed.

(** Every last-level table has a page. *)
Definition dense (s : PtS) : Prop :=
  forall b, 0 <= b < ia -> follow (mem s) (directory s) (block_path b) <> None ->
    exists a, 0 <= a < ia /\ a / 2 ^ 21 = b / 2 ^ 21 /\ tr s (path a) <> None.

(** Sound tables, and fresh frames to make more. *)
Record sound (s : PtS) : Prop := { so_ok : pt_ok lvl4 s; so_fresh : fresh s; so_dense : dense s }.

Lemma path_block a : path a = block_path a ++ [pt_lvl3_idx a].
Proof. by destruct (path_split lvl4 a) as (_ & _ & -> & _). Qed.

Lemma block_path_inj a b : 0 <= a < ia -> 0 <= b < ia -> block_path a = block_path b -> a / 2 ^ 21 = b / 2 ^ 21.
Proof.
  intros Ha Hb E. set (f := fun x : Z => x / 2 ^ 21 * 2 ^ 21).
  assert (forall x, 0 <= x -> 0 <= f x <= x) as Hf by (intros x ?; unfold f; zdiv).
  assert (forall x, block_path (f x) = block_path x) as Hb' by (intros x; apply same_block; unfold f; by rewrite Z.div_mul by lia).
  assert (forall x, pt_lvl3_idx (f x) = 0) as H3.
  { intros x. unfold pt_lvl3_idx, LVL3_SHIFT. rewrite Z.shiftr_div_pow2 by lia. change 511 with (Z.ones 9). rewrite Z.land_ones by lia.
    unfold f. replace (x / 2 ^ 21 * 2 ^ 21) with (x / 2 ^ 21 * 2 ^ 9 * 2 ^ 12) by lia. rewrite Z.div_mul, Z.mod_mul by lia. done. }
  pose proof (Hf a ltac:(lia)). pose proof (Hf b ltac:(lia)).
  assert (path (f a) = path (f b)) as E' by (by rewrite !path_block, !Hb', !H3, E).
  apply path_inj in E'; [|lia..]. unfold f in E'.
  replace 4096 with (2 ^ 12) in E' by done. replace (2 ^ 21) with (2 ^ 9 * 2 ^ 12) in E' at 2 4 by lia.
  rewrite !Z.mul_assoc, !Z.div_mul in E' by lia. lia.
Qed.

(** Where nothing is translated in a block, the level 2 entry is free. *)
Lemma lvl2_free s b : sound s -> 0 <= b < ia -> (forall a, 0 <= a < ia -> a / 2 ^ 21 = b / 2 ^ 21 -> tr s (path a) = None) ->
  valid (lvl2_entry lvl4 s b) = false.
Proof.
  intros [Hok _ Hd] Hb Hno. destruct (valid _) eqn:Hv; [exfalso|done].
  destruct (path_split lvl4 b) as (_ & E2 & _ & Hdep). destruct (path_oks lvl4 b) as (_ & O2 & _).
  unfold lvl2_entry in Hv. destruct (follow _ _ _) as [t|] eqn:F; [|done].
  set (p := root_path lvl4 b ++ [pt_lvl1_idx b]) in *.
  assert (length p = S (length (root_path lvl4 b))) as Lp by (unfold p; rewrite length_app; simpl; lia).
  destruct (ok_ents _ _ Hok p (pt_lvl2_idx b) t ltac:(lia) O2 F) as [H0|[H3|[H1 _]]].
  - unfold valid, testm in Hv. by rewrite H0 in Hv.
  - destruct (Hd b Hb) as (a & Ha & Eb & Ht); [|by apply Ht, Hno].
    unfold block_path. fold p. rewrite follow_snoc, F. simpl. by rewrite H3.
  - specialize (Hno b Hb eq_refl). revert Hno. unfold tr, translate. rewrite E2. fold p.
    rewrite (walk_app _ _ _ t), walk_stop by (done || (simpl; by rewrite H1)). simpl. by rewrite H1.
Qed.

(** More is translated, and new last-level tables have pages. *)
Lemma dense_grow (Q : list Z -> Prop) s s' : dense s -> leaf_tables lvl4 Q s s' ->
  (forall a, 0 <= a < ia -> tr s (path a) <> None -> tr s' (path a) <> None) ->
  (forall b, 0 <= b < ia -> Q (block_path b) \/ exists a, 0 <= a < ia /\ a / 2 ^ 21 = b / 2 ^ 21 /\ tr s' (path a) <> None) ->
  dense s'.
Proof.
  intros Hd Hl Hm Hn b Hb F. destruct (Hn b Hb) as [HQ|H]; [|done].
  destruct (path_oks lvl4 b) as (_ & O2 & _). destruct (path_split lvl4 b) as (_ & _ & _ & Hdep).
  destruct (Hd b Hb) as (a & Ha & E & Ht).
  - apply Hl; [unfold block_path; rewrite !length_app; simpl; lia|done|done|done].
  - exists a. split_and!; [lia|lia|done|by apply Hm].
Qed.

(** ** One range *)

Definition inside (lo n a : Z) : bool := (lo <=? a) && (a <? lo + n).
(** [s'] translates [n] bytes from [lo] to those from [pa], and everything else as [s]. *)
Definition added (lo n pa : Z) (s s' : PtS) : Prop :=
  forall a, 0 <= a < ia -> stage2 s' a = if inside lo n a then Some (pa + (a - lo)) else stage2 s a.

Lemma inside_spec lo n a : inside lo n a = true <-> lo <= a < lo + n.
Proof. unfold inside. rewrite andb_true_iff, Z.leb_le, Z.ltb_lt. done. Qed.

Lemma inside_false lo n a : inside lo n a = false <-> ~ (lo <= a < lo + n).
Proof. rewrite <- inside_spec. by destruct (inside lo n a). Qed.

Lemma added_mono lo n pa s s' a : added lo n pa s s' -> 0 <= a < ia -> tr s (path a) <> None -> tr s' (path a) <> None.
Proof. intros Ha Hr H. rewrite <- stage2_none in *. rewrite Ha by done. by destruct (inside lo n a). Qed.

(** By pages. *)
Lemma pages_add s lo len pa pte n : sound s -> 0 <= lo -> lo mod 4096 = 0 -> pa mod 4096 = 0 -> 0 < len -> n = (len + 4095) / 4096 ->
  lo + n * 4096 <= ia -> 0 <= pa -> pa + n * 4096 <= 2 ^ 48 -> 0 <= pte < 4096 -> 3 * spans lo n <= zlen (supply s) ->
  (forall a, lo <= a < lo + n * 4096 -> stage2 s a = None) ->
  exists s', map_range lvl4 lo len pa pte s = Ret tt s' /\ sound s' /\ added lo (n * 4096) pa s s' /\
    zlen (supply s) <= 3 * spans lo n + zlen (supply s').
Proof.
  intros [Hok Hfr Hd] H0 Hal Hpal Hlen En Hn Hp0 Hpn Hpte Hsup Hno.
  assert (0 < n) as Hnpos by (rewrite En; zdiv).
  assert (forall i, 0 <= i < n -> tr s (path (lo + i * 4096)) = None) as Hnone
    by (intros i Hi; apply stage2_none, Hno; lia).
  destruct (map_range_pages lvl4 s lo len pa pte n) as (s' & E & U & K & L & T); try done.
  { lia. } { intros i Hi e k Htr. by rewrite Hnone in Htr. }
  assert (added lo (n * 4096) pa s s') as Ha.
  { intros a Ha. destruct (inside lo (n * 4096) a) eqn:Ei; [apply inside_spec in Ei|apply inside_false in Ei].
    - set (i := (a - lo) / 4096).
      assert (0 <= i < n /\ (lo + i * 4096) / 4096 = a / 4096 /\ a mod 4096 = a - (lo + i * 4096)) as (Hi & Eq & Em) by (unfold i; zdiv).
      unfold stage2. rewrite (path_page lvl4 a (lo + i * 4096)) by done. rewrite T, Hnone by done.
      rewrite page_entry_pa; [|by rewrite Z.mod_add by lia|lia|done]. change (4096 * 512 ^ Z.of_nat 0) with 4096. rewrite Em. f_equal. lia.
    - unfold stage2. rewrite (up_tr _ _ _ _ U _ (path_full _ _)); [done|]. intros i Hi E'.
      apply path_inj in E'; [|lia..]. apply Ei. revert E'. rewrite Z.div_add by lia. zdiv. }
  exists s'. split; [done|]. split; [|done]. split; [apply U|by apply U|].
  eapply dense_grow; [exact Hd|exact K|intros a Hr; by eapply added_mono|].
  intros b Hb. set (x := Z.max lo (b / 2 ^ 21 * 2 ^ 21)).
  destruct (decide (x / 2 ^ 21 = b / 2 ^ 21 /\ lo <= x < lo + n * 4096)) as [[Hx Hin]|Hout].
  - right. exists x. split_and!; [lia..|done|]. rewrite <- stage2_none, Ha by lia.
    by rewrite (proj2 (inside_spec _ _ _)) by lia.
  - left. intros i Hi E'. apply block_path_inj in E'; [|lia..]. apply Hout. unfold x. clear -E' Hi H0 Hal Hb. zdiv.
Qed.

(** One block. *)
Lemma block_add s lo pa pte : sound s -> 0 <= lo -> lo mod 2 ^ 21 = 0 -> pa mod 2 ^ 21 = 0 ->
  lo + 2 ^ 21 <= ia -> 0 <= pa -> pa + 2 ^ 21 <= 2 ^ 48 -> 0 <= pte < 4096 -> Z.land pte 3 = 0 -> 2 <= zlen (supply s) ->
  (forall a, lo <= a < lo + 2 ^ 21 -> stage2 s a = None) ->
  exists s', map_2mb lvl4 lo pa pte s = Ret tt s' /\ sound s' /\ added lo (2 ^ 21) pa s s' /\
    zlen (supply s) <= 2 + zlen (supply s').
Proof.
  intros Hs H0 Hal Hpal Hn Hp0 Hpn Hpte Hpt3 Hsup Hno. pose proof Hs as [Hok Hfr Hd].
  assert (pa mod 4096 = 0) as Hpa by zdiv.
  assert (Z.land (Z.lor pa pte) 3 = 0) as H3.
  { rewrite Z.land_lor_distr_l, Hpt3, Z.lor_0_r. change 3 with (Z.ones 2). rewrite Z.land_ones by lia. zdiv. }
  assert (forall a, 0 <= a -> (a / 2 ^ 21 = lo / 2 ^ 21 <-> lo <= a < lo + 2 ^ 21)) as Hblk by (intros a ?; zdiv).
  assert (valid (lvl2_entry lvl4 s lo) = false) as Hv.
  { apply lvl2_free; [done|lia|]. intros a Ha E. apply stage2_none, Hno, Hblk; [lia|done]. }
  destruct (map_2mb_spec lvl4 s lo pa pte Hok Hfr) as (s' & E & L & U & T & K); [unfold zlen in *; lia|done|].
  specialize (T Hv). assert (forall a, in_block lvl4 lo (path a) <-> block_path a = block_path lo) as Hib.
  { intros a. unfold in_block. rewrite path_block. split; [|intros ->; by apply prefix_app_r].
    intros [k Ek]. symmetry. apply (app_inj_1 _ _ _ _) in Ek as [E1 _]; [done|].
    unfold block_path. destruct (path_split lvl4 a) as (_ & _ & _ & ?), (path_split lvl4 lo) as (_ & _ & _ & ?).
    rewrite !length_app. simpl. lia. }
  assert (added lo (2 ^ 21) pa s s') as Ha.
  { intros a Ha. unfold stage2. destruct (inside lo (2 ^ 21) a) eqn:Ei; [apply inside_spec in Ei|apply inside_false in Ei].
    - rewrite T by (apply path_full || (apply Hib, same_block, Hblk; lia)).
      rewrite block_entry_pa by (done || lia). change (4096 * 512 ^ Z.of_nat 1) with (2 ^ 21). f_equal. zdiv.
    - rewrite (up_tr _ _ _ _ U _ (path_full _ _)); [done|]. rewrite Hib. intros Eb.
      apply block_path_inj in Eb; [|lia..]. exfalso. apply Ei, Hblk; [lia|done]. }
  exists s'. split; [done|]. split; [|split; [done|unfold zlen in *; lia]]. split; [apply U|by apply U|].
  eapply dense_grow; [exact Hd|exact K|intros a Hr; by eapply added_mono|by left].
Qed.

Lemma added_step lo n n' pa s s1 s2 : 0 <= n -> 0 <= n' -> added lo n pa s s1 -> added (lo + n) n' (pa + n) s1 s2 ->
  added lo (n + n') pa s s2.
Proof.
  intros ? ? A B a Ha. rewrite B, A by done. unfold inside.
  destruct (Z.leb_spec (lo + n) a), (Z.ltb_spec a (lo + n + n')), (Z.leb_spec lo a), (Z.ltb_spec a (lo + n)), (Z.ltb_spec a (lo + (n + n')));
    simpl; try lia; try done. f_equal. lia.
Qed.

(** By blocks. *)
Lemma blocks_add s lo pa pte (k : nat) : sound s -> 0 <= lo -> lo mod 2 ^ 21 = 0 -> pa mod 2 ^ 21 = 0 ->
  lo + Z.of_nat k * 2 ^ 21 <= ia -> 0 <= pa -> pa + Z.of_nat k * 2 ^ 21 <= 2 ^ 48 -> 0 <= pte < 4096 -> Z.land pte 3 = 0 ->
  2 * Z.of_nat k <= zlen (supply s) -> (forall a, lo <= a < lo + Z.of_nat k * 2 ^ 21 -> stage2 s a = None) ->
  exists s', m_for (zrange 0 k) (fun i => map_2mb lvl4 (usize (lo + i * size_2mb)) (usize (pa + i * size_2mb)) pte) s = Ret tt s' /\
    sound s' /\ added lo (Z.of_nat k * 2 ^ 21) pa s s' /\ zlen (supply s) <= 2 * Z.of_nat k + zlen (supply s').
Proof.
  intros Hs H0 Hal Hpal Hn Hp0 Hpn Hpte Hpt3 Hsup Hno. induction k as [|k IH].
  { exists s. split_and!; [done|done| |simpl; lia]. intros a Ha. rewrite (proj2 (inside_false _ _ _)) by lia. done. }
  assert (ia <= 2 ^ 48) as Hpow by (apply Z.pow_le_mono_r; [lia|]; unfold ia_bits, depth; destruct lvl4; lia).
  destruct IH as (s1 & E1 & S1 & A1 & L1); [lia..|intros; apply Hno; lia|].
  assert (forall x, 0 <= x -> x + Z.of_nat (S k) * 2 ^ 21 <= 2 ^ 48 -> usize (x + Z.of_nat k * size_2mb) = x + Z.of_nat k * 2 ^ 21) as Eu
    by (intros x ? ?; change size_2mb with (2 ^ 21); apply wrap_small; unfold in_word; lia).
  destruct (block_add s1 (lo + Z.of_nat k * 2 ^ 21) (pa + Z.of_nat k * 2 ^ 21) pte) as (s2 & E2 & S2 & A2 & L2); try done; try lia.
  { by rewrite Z.mod_add by lia. } { by rewrite Z.mod_add by lia. }
  { intros a Ha. rewrite A1 by lia. rewrite (proj2 (inside_false _ _ _)) by lia. apply Hno. lia. }
  exists s2. split_and!; [|done| |lia].
  - rewrite zrange_S, m_for_app. eapply m_bind_Ret_r; [exact E1|]. cbn [m_for].
    eapply m_bind_Ret_r; [|reflexivity]. cbv beta. rewrite Z.add_0_l, !Eu by lia. exact E2.
  - replace (Z.of_nat (S k) * 2 ^ 21) with (Z.of_nat k * 2 ^ 21 + 2 ^ 21) by lia. eapply added_step; [lia|lia|exact A1|exact A2].
Qed.

(** [pt_map_range], whichever way it goes. *)
Lemma range_add s lo len pa pte blk n : sound s -> 0 <= lo -> lo mod 4096 = 0 -> pa mod 4096 = 0 -> 0 < len -> n = (len + 4095) / 4096 ->
  lo + n * 4096 <= ia -> 0 <= pa -> pa + n * 4096 <= 2 ^ 48 -> 0 <= pte < 4096 -> Z.land pte 3 = 0 ->
  3 * spans lo n <= zlen (supply s) -> (forall a, lo <= a < lo + n * 4096 -> stage2 s a = None) ->
  exists s', pt_map_range lvl4 lo len pa pte blk s = Ret tt s' /\ sound s' /\ added lo (n * 4096) pa s s' /\
    zlen (supply s) <= 3 * spans lo n + zlen (supply s').
Proof.
  intros Hs H0 Hal Hpal Hlen En Hn Hp0 Hpn Hpte Hpt3 Hsup Hno. unfold pt_map_range. change size_2mb with (2 ^ 21).
  destruct (_ && blk) eqn:Eb; [|by apply pages_add]. bool_to_prop.
  set (k := len / 2 ^ 21). assert (len = k * 2 ^ 21 /\ 0 < k /\ n * 4096 = k * 2 ^ 21) as (Ek & Hk & Enk) by (unfold k; zdiv).
  assert (spans lo n = k) as Esp.
  { unfold spans. rewrite (proj2 (Z.eqb_neq n 0)) by lia. rewrite Enk. clear -H0 Hk H. zdiv. }
  assert (ia <= 2 ^ 48) as Hpow by (apply Z.pow_le_mono_r; [lia|]; unfold ia_bits, depth; destruct lvl4; lia).
  destruct (blocks_add s lo pa pte (Z.to_nat k)) as (s' & E & S & A & L); try done; rewrite ?Z2Nat.id by lia; try lia.
  { intros a Ha. apply Hno. lia. }
  rewrite Z2Nat.id in * by lia. exists s'. rewrite Enk. split_and!; [|done|done|lia].
  unfold map_range_2mb, for_pages. apply (m_bind_Ret_r _ _ _ (k * 2 ^ 21) s).
  - unfold round_up. change size_2mb with (2 ^ 21). change (2 ^ 21 =? 0) with false. cbv iota. unfold m_opt, m_ret. f_equal.
    rewrite (wrap_small 64 (len + 2 ^ 21 - 1)) by (unfold in_word; lia).
    replace ((len + 2 ^ 21 - 1) / 2 ^ 21) with k by (rewrite Ek; zdiv). apply wrap_small. unfold in_word. lia.
  - cbv beta. change size_2mb with (2 ^ 21). rewrite Z.div_mul by lia. exact E.
Qed.

(** ** Lists of ranges *)

(** [r_pages] pages from guest address [r_ipa], at [r_pa]. *)
Record Range := mkRange { r_ipa : Z; r_pages : Z; r_pa : Z }.
Definition covers (a : Z) (r : Range) : bool := inside (r_ipa r) (r_pages r * 4096) a.
Definition look (rs : list Range) (a : Z) : option Z :=
  match List.find (covers a) rs with Some r => Some (r_pa r + (a - r_ipa r)) | None => None end.
Definition range_fits (r : Range) : Prop :=
  0 <= r_ipa r /\ r_ipa r mod 4096 = 0 /\ 0 < r_pages r /\ r_ipa r + r_pages r * 4096 <= ia /\
  0 <= r_pa r /\ r_pa r mod 4096 = 0 /\ r_pa r + r_pages r * 4096 <= 2 ^ 48.
Definition disjoint_ranges (r r' : Range) : Prop :=
  r_ipa r + r_pages r * 4096 <= r_ipa r' \/ r_ipa r' + r_pages r' * 4096 <= r_ipa r.

(** The tables translate what the list says, and nothing else. *)
Record table_is (rs : list Range) (s : PtS) : Prop := {
  ti_sound : sound s;
  ti_look : forall a, 0 <= a < ia -> stage2 s a = look rs a;
}.

Lemma look_none rs a : (forall r, r ∈ rs -> covers a r = false) -> look rs a = None.
Proof.
  intros H. unfold look. destruct (List.find _ _) as [r|] eqn:E; [|done]. apply find_some in E as [Hr%list_elem_of_In Hc].
  by rewrite H in Hc.
Qed.

Lemma look_some rs a b : look rs a = Some b -> exists r, r ∈ rs /\ covers a r = true /\ b = r_pa r + (a - r_ipa r).
Proof.
  unfold look. destruct (List.find _ _) as [r|] eqn:E; [|done]. intros [= <-]. apply find_some in E as [Hr%list_elem_of_In Hc].
  by exists r.
Qed.

Lemma look_snoc rs r a : look (rs ++ [r]) a = match look rs a with Some b => Some b | None => look [r] a end.
Proof. unfold look. induction rs as [|x rs IH]; [done|]. cbn [List.find app]. by destruct (covers a x). Qed.

Lemma covers_disjoint r r' a : disjoint_ranges r r' -> covers a r = true -> covers a r' = false.
Proof. unfold covers, disjoint_ranges. rewrite inside_spec, inside_false. lia. Qed.

(** In a list of disjoint ranges every range counts. *)
Lemma look_in rs r a : ForallOrdPairs disjoint_ranges rs -> r ∈ rs -> covers a r = true -> look rs a = Some (r_pa r + (a - r_ipa r)).
Proof.
  intros Hd Hr Hc. unfold look. induction Hd as [|x rs Hx Hd IH]; [by apply elem_of_nil in Hr|].
  cbn [List.find]. apply elem_of_cons in Hr as [->|Hr]; [by rewrite Hc|].
  destruct (covers a x) eqn:Ex; [|by apply IH]. rewrite list.Forall_forall in Hx.
  pose proof (covers_disjoint x r a (Hx r Hr) Ex). congruence.
Qed.

(** Whether a list fits, as a test. *)
Definition range_fitsb (r : Range) : bool :=
  (0 <=? r_ipa r) && (r_ipa r mod 4096 =? 0) && (0 <? r_pages r) && (r_ipa r + r_pages r * 4096 <=? ia) &&
  (0 <=? r_pa r) && (r_pa r mod 4096 =? 0) && (r_pa r + r_pages r * 4096 <=? 2 ^ 48).
Definition disjointb (r r' : Range) : bool :=
  (r_ipa r + r_pages r * 4096 <=? r_ipa r') || (r_ipa r' + r_pages r' * 4096 <=? r_ipa r).
Fixpoint all_pairs {A} (f : A -> A -> bool) (l : list A) : bool :=
  match l with [] => true | x :: l' => forallb (f x) l' && all_pairs f l' end.

Lemma range_fitsb_spec r : range_fitsb r = true -> range_fits r.
Proof. unfold range_fitsb, range_fits. rewrite !andb_true_iff, !Z.leb_le, !Z.ltb_lt, !Z.eqb_eq. tauto. Qed.

Lemma forallb_Forall {A} (f : A -> bool) (P : A -> Prop) l : (forall x, f x = true -> P x) -> forallb f l = true -> Forall P l.
Proof. intros H. rewrite forallb_forall. intros F. apply list.Forall_forall. intros x Hx%list_elem_of_In. by apply H, F. Qed.

Lemma all_pairs_spec {A} (f : A -> A -> bool) (R : A -> A -> Prop) l : (forall x y, f x y = true -> R x y) ->
  all_pairs f l = true -> ForallOrdPairs R l.
Proof.
  intros H. induction l as [|x l IH]; simpl; [constructor|]. intros [Hx Hl]%andb_true_iff. constructor; [|by apply IH].
  eapply forallb_Forall; [|exact Hx]. apply H.
Qed.

Lemma disjointb_spec r r' : disjointb r r' = true -> disjoint_ranges r r'.
Proof. unfold disjointb, disjoint_ranges. by rewrite orb_true_iff, !Z.leb_le. Qed.

(** One more range, where nothing was mapped. *)
Lemma table_add rs s r len pte blk : table_is rs s -> range_fits r -> Forall (disjoint_ranges r) rs -> 0 < len ->
  r_pages r = (len + 4095) / 4096 -> 0 <= pte < 4096 -> Z.land pte 3 = 0 -> 3 * spans (r_ipa r) (r_pages r) <= zlen (supply s) ->
  exists s', pt_map_range lvl4 (r_ipa r) len (r_pa r) pte blk s = Ret tt s' /\ table_is (rs ++ [r]) s' /\
    zlen (supply s) <= 3 * spans (r_ipa r) (r_pages r) + zlen (supply s').
Proof.
  intros [Hs Hl] (F1 & F2 & F3 & F4 & F5 & F6 & F7) Hd Hlen En Hpte Hpt3 Hsup. rewrite list.Forall_forall in Hd.
  assert (forall a, covers a r = true -> look rs a = None) as Hno.
  { intros a Ha. apply look_none. intros r' Hr'. eapply covers_disjoint; [by apply Hd|done]. }
  destruct (range_add s (r_ipa r) len (r_pa r) pte blk (r_pages r)) as (s' & E & S & A & L); try done.
  { intros a Ha. rewrite Hl by lia. apply Hno, inside_spec. lia. }
  exists s'. split_and!; [done| |done]. split; [done|]. intros a Ha. rewrite A, look_snoc, <- Hl by done.
  assert (look [r] a = if covers a r then Some (r_pa r + (a - r_ipa r)) else None) as -> by (unfold look; cbn [List.find]; by destruct (covers a r)).
  unfold covers in *. destruct (inside _ _ a) eqn:Ei; [by rewrite Hl, Hno|]. by destruct (stage2 s a).
Qed.
End stage2.
