(* ===== verification/PageTableRv.v ===== *)
(** * PageTableRv: stage-2 page tables on RISC-V ([arch/riscv64/page_table.rs])

    Sv39x4: three levels, a root of four pages.  The state and the allocation of frames are those
    of the AArch64 file; the entry format, [map] and [unmap] are the architecture's own.  The
    theorem shows that [unmap] clears another entry than the one of the page. *)
From stdpp Require Import list gmap.
From S2P Require Import Prelude Bits PtTree PageTable.

(** ** Entries *)

(** src: arch/riscv64/page_table.rs 21-33 [level shifts and PTE_V, PTE_R, PTE_X] *)
Definition LVL0_SHIFT : Z := 30.
Definition LVL1_SHIFT : Z := 21.
Definition LVL2_SHIFT : Z := 12.
Definition PTE_V : Z := 1.
Definition PTE_R : Z := 2.
Definition PTE_W : Z := 4.
Definition PTE_X : Z := 8.

(** src: arch/riscv64/page_table.rs 36-45 [PTE_S2_NORMAL and PTE_S2_RO] *)
Definition PTE_S2_NORMAL : Z := 0xdf.
Definition PTE_S2_RO : Z := 0xd3.

(** src: arch/riscv64/page_table.rs 49-51 [pt_lvl0_idx] *)
Definition pt_lvl0_idx (va : Z) : Z := Z.land (Z.shiftr va LVL0_SHIFT) 2047.
(** src: arch/riscv64/page_table.rs 53-55 [pt_lvl1_idx] *)
Definition pt_lvl1_idx (va : Z) : Z := Z.land (Z.shiftr va LVL1_SHIFT) 511.
(** src: arch/riscv64/page_table.rs 57-59 [pt_lvl2_idx] *)
Definition pt_lvl2_idx (va : Z) : Z := Z.land (Z.shiftr va LVL2_SHIFT) 511.

(** src: arch/riscv64/page_table.rs 71-74 [Riscv64PTEntry::from_pa] *)
Definition from_pa (pa : Z) : Z := Z.shiftr (Z.land pa 0x003ffffffffff000) 2.
(** src: arch/riscv64/page_table.rs 80-82 [Riscv64PTEntry::to_pa] *)
Definition to_pa (e : Z) : Z := shlw 64 (Z.land e 0xfffffffffffffc00) 2.
(** src: arch/riscv64/page_table.rs 84-86 [Riscv64PTEntry::valid] *)
Definition valid (e : Z) : bool := testm e PTE_V.
(** src: arch/riscv64/page_table.rs 89-93 [Riscv64PTEntry::entry] *)
Definition entry (e index : Z) : M PtS Z :=
  m_gets (fun s => rd (mem s) (usize (to_pa e + index * 8))).
(** src: arch/riscv64/page_table.rs 99-102 [Riscv64PTEntry::set_entry] *)
Definition set_entry (e index value : Z) : M PtS unit :=
  m_modify (fun s => with_mem (<[usize (to_pa e + index * 8) := value]> (mem s)) s).
(** src: arch/riscv64/page_table.rs 105-107 [Riscv64PTEntry::make_table] *)
Definition make_table (frame_pa : Z) : Z := Z.lor (Z.shiftr frame_pa 2) PTE_V.

(** ** Operations *)

(** The entry [idx] of the table [e], made when it is invalid; [None] when no frame is left. *)
Definition next_table (e idx : Z) : M PtS (option Z) :=
  let! x := entry e idx in
  if valid x then m_ret (Some x)
  else
    let! o := mem_page_alloc in
    match o with
    | Some frame =>
        let x := make_table frame in
        set_entry e idx x >>; push_page frame >>; m_ret (Some x)
    | None => m_ret None
    end.

(** src: arch/riscv64/page_table.rs 146-191 [PageTable::map] *)
Definition map (ipa pa pte : Z) : M PtS unit :=
  let! d := m_gets directory in
  let! o0 := next_table (from_pa d) (pt_lvl0_idx ipa) in
  match o0 with
  | None => m_fault ExplicitPanic
  | Some l0e =>
      let! o1 := next_table l0e (pt_lvl1_idx ipa) in
      match o1 with
      | None => m_ret tt
      | Some l1e =>
          let! l2e := entry l1e (pt_lvl2_idx ipa) in
          if valid l2e then m_ret tt
          else set_entry l1e (pt_lvl2_idx ipa) (Z.lor (Z.shiftr pa 2) pte)
      end
  end.

(** src: arch/riscv64/page_table.rs 193-231 [PageTable::unmap] *)
Definition unmap (ipa : Z) : M PtS unit :=
  let! d := m_gets directory in
  let! l0e := entry (from_pa d) (pt_lvl0_idx ipa) in
  if negb (valid l0e) then m_ret tt
  else
    let! l1e := entry l0e (pt_lvl1_idx ipa) in
    if negb (valid l1e) then m_ret tt
    else
      let! l2e := entry l1e (pt_lvl2_idx ipa) in
      if negb (valid l2e) then m_ret tt
      else
        set_entry l1e (pt_lvl1_idx ipa) 0 >>;
        let! emp1 := empty_page (to_pa l1e) in
        if negb emp1 then m_ret tt
        else
          retain_ne (to_pa l1e) >>;
          set_entry l0e (pt_lvl0_idx ipa) 0 >>;
          let! emp0 := empty_page (to_pa l0e) in
          if negb emp0 then m_ret tt
          else retain_ne (to_pa l0e) >>; set_entry (from_pa d) (pt_lvl0_idx ipa) 0.

(** src: arch/riscv64/page_table.rs 233-254 [PageTable::map_range] *)
Definition map_range (ipa len pa pte : Z) : M PtS unit :=
  for_pages len PAGE_SIZE (fun o => map (usize (ipa + o)) (usize (pa + o)) pte).
(** src: arch/riscv64/page_table.rs 256-261 [PageTable::unmap_range] *)
Definition unmap_range (ipa len : Z) : M PtS unit :=
  for_pages len PAGE_SIZE (fun o => unmap (usize (ipa + o))).
(** src: arch/riscv64/page_table.rs 287-296 [PageTable::pt_map_range] *)
Definition pt_map_range (ipa len pa pte : Z) (map_block : bool) : M PtS unit :=
  map_range ipa len pa pte.
(** src: arch/riscv64/page_table.rs 299-301 [PageTable::pt_unmap_range] *)
Definition pt_unmap_range (ipa len : Z) (map_block : bool) : M PtS unit := unmap_range ipa len.

(** ** The Sv39x4 entry format: an entry is a table when it is valid and has no permission *)

#[export] Instance sv39_format : PteFormat := {
  pte_next e := if Z.testbit e 0 && (Z.land e 14 =? 0) then Some (to_pa e) else None;
  pte_leaf k e := Z.testbit e 0 && negb (Z.land e 10 =? 0);
}.
#[export] Instance sv39_laws : PteLaws sv39_format.
Proof. by split. Qed.

Definition path (ipa : Z) : list Z := [pt_lvl0_idx ipa; pt_lvl1_idx ipa; pt_lvl2_idx ipa].

(** ** [unmap] *)

Lemma valid_testbit e : valid e = Z.testbit e 0.
Proof. unfold valid, PTE_V. change 1 with (Z.shiftl 1 0). by rewrite testm_bit. Qed.

Lemma path_idx_ok ipa : idx_ok 2048 (path ipa).
Proof.
  unfold path, pt_lvl0_idx, pt_lvl1_idx, pt_lvl2_idx. simpl.
  pose proof (land_ones_range (Z.shiftr ipa LVL0_SHIFT) 11).
  pose proof (land_ones_range (Z.shiftr ipa LVL1_SHIFT) 9).
  pose proof (land_ones_range (Z.shiftr ipa LVL2_SHIFT) 9).
  change 2047 with (Z.ones 11). change 511 with (Z.ones 9). split; [lia|]. repeat constructor; lia.
Qed.

Lemma to_pa_root d : page_ok d -> to_pa (from_pa d) = d.
Proof.
  intros [Hm Hr]. unfold to_pa, from_pa. apply Z.bits_inj'. intros i Hi.
  rewrite shlw_testbit, Z.land_spec by lia.
  assert (forall j, 0 <= j < 12 -> Z.testbit d j = false) as Hlow.
  { intros j Hj. change 4096 with (2 ^ 12) in Hm. rewrite <- (Z.mod_pow2_bits_low d 12 j) by lia.
    rewrite Hm. apply Z.testbit_0_l. }
  assert (forall j, 48 <= j -> Z.testbit d j = false) as Hhigh
    by (intros j Hj; apply (testbit_high 48); [unfold in_word; lia|lia]).
  destruct (Z.lt_ge_cases i 12); [|destruct (Z.lt_ge_cases i 48)].
  - rewrite Hlow by lia. destruct (Z.leb_spec 2 i); [|by rewrite andb_false_r].
    rewrite Z.shiftr_spec, Z.land_spec by lia. rewrite Z.sub_add, Hlow by lia.
    by rewrite andb_false_l, !andb_false_r.
  - rewrite Z.shiftr_spec, Z.land_spec, Z.sub_add by lia.
    change 0x003ffffffffff000 with (Z.shiftl (Z.ones 42) 12).
    change 0xfffffffffffffc00 with (Z.shiftl (Z.ones 54) 10).
    rewrite !Z.shiftl_spec, !Z.testbit_ones_nonneg by lia.
    rewrite (proj2 (Z.ltb_lt i 64)), (proj2 (Z.leb_le 2 i)), (proj2 (Z.ltb_lt (i - 12) 42)), (proj2 (Z.ltb_lt (i - 2 - 10) 54)) by lia.
    by rewrite !andb_true_r.
  - rewrite Hhigh by lia. rewrite Z.shiftr_spec, Z.land_spec, Z.sub_add by lia.
    rewrite Hhigh by lia. by rewrite !andb_false_l, !andb_false_r.
Qed.

Lemma entry_at s x t i : to_pa x = t -> page_ok t -> 0 <= i < 2048 ->
  entry x i s = Ret (rd (mem s) (slot t i)) s.
Proof.
  intros <- [_ Hr] Hi. unfold entry, m_gets, slot. rewrite wrap_small by (unfold in_word; lia).
  by replace (8 * i) with (i * 8) by lia.
Qed.

Lemma next_inv e t : pte_next e = Some t -> valid e = true /\ to_pa e = t.
Proof.
  cbn [pte_next sv39_format]. rewrite valid_testbit. destruct (Z.testbit e 0); cbn [andb]; [|done].
  destruct (Z.land e 14 =? 0); [|done]. by intros [= <-].
Qed.

Lemma leaf_inv k e : pte_leaf k e = true -> valid e = true /\ e <> 0.
Proof. cbn [pte_leaf sv39_format]. rewrite valid_testbit. intros [H _]%andb_true_iff. split; [done|]. by intros ->. Qed.

(** Unmapping on RISC-V leaves the page mapped.  For a mapped page whose level 1 and level 2
    indices differ, [unmap] clears entry [pt_lvl1_idx] of the last-level table instead of entry
    [pt_lvl2_idx]: afterwards the page is translated as before, and the page that shares its
    table and has the level 1 index also as level 2 index is not translated any more. *)
Theorem rv_unmap_keeps_page s ipa e :
  tree_ok 2048 3 (mem s) (directory s) (pages s) ->
  translate (mem s) (directory s) (path ipa) = Some (e, O) ->
  pt_lvl1_idx ipa <> pt_lvl2_idx ipa ->
  exists s', unmap ipa s = Ret tt s' /\ directory s' = directory s /\
    translate (mem s') (directory s') (path ipa) = Some (e, O) /\
    translate (mem s') (directory s') [pt_lvl0_idx ipa; pt_lvl1_idx ipa; pt_lvl1_idx ipa] = None.
Proof.
  intros Ht Htr Hne. pose proof (path_idx_ok ipa) as Hidx. pose proof Ht as [Hd HP Hin _].
  rewrite list.Forall_forall in HP. set (d := directory s) in *.
  unfold translate, path, walk in Htr. unfold path in Hidx |- *.
  set (l0 := pt_lvl0_idx ipa) in *. set (l1 := pt_lvl1_idx ipa) in *. set (l2 := pt_lvl2_idx ipa) in *.
  assert (0 <= l0 < 2048 /\ 0 <= l1 < 512 /\ 0 <= l2 < 512) as (B0 & B1 & B2).
  { simpl in Hidx. rewrite !list.Forall_cons in Hidx. tauto. }
  destruct (pte_next (rd (mem s) (slot d l0))) as [t1|] eqn:N1; [|by destruct (pte_leaf _ _)].
  destruct (pte_next (rd (mem s) (slot t1 l1))) as [t2|] eqn:N2; [|by destruct (pte_leaf _ _)].
  destruct (pte_leaf 0 (rd (mem s) (slot t2 l2))) eqn:Lf; [|done]. injection Htr as Htr.
  assert (follow (mem s) d [l0] = Some t1) as F1 by (cbn [follow]; by rewrite N1).
  assert (follow (mem s) d [l0; l1] = Some t2) as F2 by (cbn [follow]; by rewrite N1, N2).
  assert (idx_ok 2048 [l0; l1]) as I2 by (simpl; split; [done|by apply list.Forall_singleton]).
  assert (idx_ok 2048 ([l0; l1] ++ [l1])) as I3 by (simpl; split; [done|repeat constructor; lia]).
  assert (page_ok t1) as P1 by (apply HP, (Hin [l0]); [done|simpl; lia|by split; [|constructor]|done]).
  assert (page_ok t2) as P2 by (apply HP, (Hin [l0; l1]); [done|simpl; lia|done|done]).
  destruct (next_inv _ _ N1) as [V1 T1]. destruct (next_inv _ _ N2) as [V2 T2].
  destruct (leaf_inv _ _ Lf) as [V3 E3].
  set (m' := <[slot t2 l1 := 0]> (mem s)). exists (with_mem m' s).
  assert (rd m' (slot t2 l2) = rd (mem s) (slot t2 l2)) as Er by (apply rd_insert_ne; unfold slot; lia).
  assert (usize (t2 + pt_lvl1_idx ipa * 8) = slot t2 l1) as Ea.
  { fold l1. unfold slot. rewrite wrap_small by (destruct P2; unfold in_word; lia). lia. }
  split_and!.
  - unfold unmap. eapply m_bind_Ret_r; [reflexivity|]. fold d.
    eapply m_bind_Ret_r; [apply (entry_at s _ d l0); [by apply to_pa_root|done|lia]|]. rewrite V1. cbn [negb].
    eapply m_bind_Ret_r; [apply (entry_at s _ t1 l1); [done|done|lia]|]. rewrite V2. cbn [negb].
    eapply m_bind_Ret_r; [apply (entry_at s _ t2 l2); [done|done|lia]|]. rewrite V3. cbn [negb].
    eapply m_bind_Ret_r.
    { unfold set_entry, m_modify. rewrite T2, Ea. reflexivity. }
    eapply m_bind_Ret_r; [reflexivity|]. cbv beta. rewrite T2.
    destruct (forallb _ (zrange 0 512)) eqn:Ef; [|reflexivity]. exfalso.
    rewrite forallb_forall in Ef. specialize (Ef l2). rewrite Z.eqb_eq in Ef. apply E3. rewrite <- Er.
    rewrite <- Ef; [|apply list_elem_of_In, zrange_elem; lia].
    rewrite wrap_small by (destruct P2; unfold in_word; lia). f_equal. unfold slot. lia.
  - done.
  - change (translate m' d [l0; l1; l2] = Some (e, O)).
    assert (translate m' d [l0; l1; l2] = translate (mem s) d [l0; l1; l2]) as ->.
    { apply (write_translate 2048 3 (mem s) d (pages s) [l0; l1] t2 l1 0 Ht); [simpl; lia|exact I3|done|done|done|].
      intros [k E]. simpl in E. injection E as E _. by destruct Hne. }
    unfold translate. cbn [walk]. by rewrite N1, N2, Lf, Htr.
  - change (translate m' d [l0; l1; l1] = None). unfold translate.
    pose proof (write_walk_at 2048 3 (mem s) d (pages s) [l0; l1] t2 l1 0 Ht) as W.
    change ([l0; l1; l1]) with ([l0; l1] ++ l1 :: []). unfold m'. rewrite W; [done|simpl; lia|exact I3|done|by right].
Qed.

(** ** Witness: page 0x80203000, with indices 2, 1 and 3 *)

Definition rv_demo_m1 : gmap Z Z := <[slot 0x40000000 2 := make_table 0x40010000]> ∅.
Definition rv_demo_m2 : gmap Z Z := <[slot 0x40010000 1 := make_table 0x40020000]> rv_demo_m1.
Definition rv_demo_leaf : Z := Z.lor (Z.shiftr 0x90003000 2) PTE_S2_NORMAL.
Definition rv_demo_m3 : gmap Z Z := <[slot 0x40020000 3 := rv_demo_leaf]> rv_demo_m2.
Definition rv_demo : PtS := mkPt rv_demo_m3 0x40000000 [0x40010000; 0x40020000] [] [].

Lemma rv_demo_tree : tree_ok 2048 3 rv_demo_m3 0x40000000 [0x40010000; 0x40020000].
Proof.
  assert (page_ok 0x40000000 /\ page_ok 0x40010000 /\ page_ok 0x40020000) as (P0 & P1 & P2)
    by (unfold page_ok; split_and!; (done || lia)).
  assert (tree_ok 2048 3 ∅ 0x40000000 []) as T0.
  { split; [done|constructor| |].
    - intros [|i p] t ? _ _ E; [done|]. by vm_compute in E.
    - intros [|i p] [|j q] t _ _ _ _ E E'; [done|by vm_compute in E'|by vm_compute in E|by vm_compute in E]. }
  assert (tree_ok 2048 3 rv_demo_m1 0x40000000 [0x40010000]) as T1.
  { apply (write_graft 2048 3 _ _ [] [] 0x40000000 2 _ T0) with (f := 0x40010000); try done; simpl; try lia.
    all: (unfold off_root; lia) || (by intros ?%elem_of_nil). }
  assert (tree_ok 2048 3 rv_demo_m2 0x40000000 [0x40010000; 0x40020000]) as T2.
  { apply (write_graft 2048 3 _ _ [0x40010000] [2] 0x40010000 1 _ T1) with (f := 0x40020000); try done; simpl; try lia.
    - split; [lia|repeat constructor; lia].
    - unfold off_root. lia.
    - set_solver.
    - intros j Hj. unfold rv_demo_m1. rewrite rd_insert_ne; [done|]. unfold slot. lia. }
  apply (write_prune 2048 3 _ _ _ [2; 1] 0x40020000 3 rv_demo_leaf T2); try done; simpl; try lia.
  split; [lia|repeat constructor; lia].
Qed.

Lemma rv_unmap_keeps_page_witness : exists s', unmap 0x80203000 rv_demo = Ret tt s' /\
  translate (mem s') 0x40000000 (path 0x80203000) = Some (rv_demo_leaf, O) /\
  translate (mem s') 0x40000000 [2; 1; 1] = None.
Proof.
  destruct (rv_unmap_keeps_page rv_demo 0x80203000 rv_demo_leaf) as (s' & E & Ed & H1 & H2).
  - exact rv_demo_tree.
  - vm_compute. reflexivity.
  - vm_compute. congruence.
  - rewrite Ed in H1, H2. exists s'. split; [exact E|]. split; [exact H1|exact H2].
Defined.
