(* ===== verification/Sched.v ===== *)
(** * Sched: scheduling the vCPUs of a core

    The round-robin scheduler ([kernel/sched/sched_rr.rs]), the core's active vCPU
    ([kernel/cpu.rs]), the run state and pending interrupts of a vCPU ([kernel/vcpu.rs]), the
    core's vCPU array ([kernel/vcpu_array.rs]) and the injection of interrupts, which wakes a
    sleeping vCPU ([kernel/interrupt.rs]).

    A [Vcpu] is a shared object; the mutable part is kept in a store by the vCPU's identity.
    Saving and restoring register contexts, installing page tables and handing an interrupt to the
    emulated controller are events of a log. *)
From stdpp Require Import list gmap.
From S2P Require Import Prelude Vm.

(** ** State *)

(** src: kernel/vcpu.rs 33-38 [VcpuState] *)
Inductive VcpuState := Invalid | Ready | Running | Sleep.
#[export] Instance VcpuState_eq_dec : EqDecision VcpuState.
Proof. solve_decision. Defined.
#[export] Instance Vcpu_eq_dec : EqDecision Vcpu.
Proof. solve_decision. Defined.

(** src: kernel/vcpu.rs 347-353 [VcpuInnerMut]
    The run state and the interrupts that wait for the vCPU to run. *)
Record VcpuCell := mkCell { cell_state : VcpuState; int_list : list Z }.

(** src: kernel/vcpu.rs 356-365 [VcpuInnerMut::new] *)
Definition cell_new : VcpuCell := mkCell Invalid [].

Inductive sched_event :=
  | EvStore (v : Vcpu)
  | EvRestore (v : Vcpu)
  | EvInstall (v : Vcpu)
  | EvIdle
  | EvCpuRun
  | EvReset (v : Vcpu) (entry ctx : Z)
  | EvBootInfo (v : Vcpu)
  | EvVmBoot
  | EvClearIrq
  | EvInject (v : Vcpu) (int : Z)
  | EvCpuInt (int : Z) (en : bool).

(** src: kernel/sched/sched_rr.rs 13-17 [SchedulerRR]
    With the core's fields the scheduler uses. *)
Record Core := mkCore {
  core_id : Z;
  queue : list Vcpu;
  active_idx : Z;
  base_slice : Z;
  active_vcpu : option Vcpu;
  vcells : gmap (Z * Z) VcpuCell;
  timer_on : bool;
  ctx_null : bool;
  slog : list sched_event;
}.

Definition with_queue q s := mkCore (core_id s) q (active_idx s) (base_slice s) (active_vcpu s) (vcells s) (timer_on s) (ctx_null s) (slog s).
Definition with_idx i s := mkCore (core_id s) (queue s) i (base_slice s) (active_vcpu s) (vcells s) (timer_on s) (ctx_null s) (slog s).
Definition with_active a s := mkCore (core_id s) (queue s) (active_idx s) (base_slice s) a (vcells s) (timer_on s) (ctx_null s) (slog s).
Definition with_vcells c s := mkCore (core_id s) (queue s) (active_idx s) (base_slice s) (active_vcpu s) c (timer_on s) (ctx_null s) (slog s).
Definition with_timer t s := mkCore (core_id s) (queue s) (active_idx s) (base_slice s) (active_vcpu s) (vcells s) t (ctx_null s) (slog s).
Definition with_slog l s := mkCore (core_id s) (queue s) (active_idx s) (base_slice s) (active_vcpu s) (vcells s) (timer_on s) (ctx_null s) l.

Definition sched_emit (e : sched_event) : M Core unit := m_modify (fun s => with_slog (slog s ++ [e]) s).

(** src: kernel/sched/sched_rr.rs 20-26 [SchedulerRR::new] *)
Definition sched_new (id slice : Z) : Core := mkCore id [] 0 slice None ∅ false false [].

(** ** A vCPU's own state *)

Definition vkey (v : Vcpu) : Z * Z := (vcpu_vm_id v, vcpu_id v).
Definition cell (s : Core) (v : Vcpu) : VcpuCell := default cell_new (vcells s !! vkey v).

(** src: kernel/vcpu.rs 174-177 [Vcpu::state] *)
Definition vstate (s : Core) (v : Vcpu) : VcpuState := cell_state (cell s v).

Definition put_cell (v : Vcpu) (c : VcpuCell) (s : Core) : Core := with_vcells (<[vkey v := c]> (vcells s)) s.

(** src: kernel/vcpu.rs 179-182 [Vcpu::set_state] *)
Definition set_vstate (v : Vcpu) (st : VcpuState) : M Core unit :=
  m_modify (fun s => put_cell v (mkCell st (int_list (cell s v))) s).

(** src: kernel/vcpu.rs 252-257 [Vcpu::push_int] *)
Definition push_int (v : Vcpu) (int : Z) : M Core unit :=
  m_modify (fun s => let c := cell s v in
    if existsb (Z.eqb int) (int_list c) then s
    else put_cell v (mkCell (cell_state c) (int_list c ++ [int])) s).

(** src: kernel/timer.rs 46-53 [timer_enable] *)
Definition timer_enable (b : bool) : M Core unit := m_modify (with_timer b).

Section scheduler.
(** [inject v int] is [interrupt_vm_inject] for the vCPU's VM, which the restoring of a context
    calls and which calls the scheduler. *)
Context (inject : Vcpu -> Z -> M Core unit).

(** src: kernel/vcpu.rs 259-272 [Vcpu::inject_int_inlist] *)
Definition inject_int_inlist (v : Vcpu) : M Core unit :=
  let! s := m_get in
  let l := int_list (cell s v) in
  m_put (put_cell v (mkCell (cell_state (cell s v)) []) s) >>; m_for l (inject v).

(** src: kernel/vcpu.rs 96-106 [Vcpu::context_vm_store] *)
Definition context_vm_store (v : Vcpu) : M Core unit := sched_emit (EvStore v).
(** src: kernel/vcpu.rs 108-124 [Vcpu::context_vm_restore] *)
Definition context_vm_restore (v : Vcpu) : M Core unit :=
  sched_emit (EvRestore v) >>; inject_int_inlist v.

(** src: kernel/cpu.rs 185-193 [Cpu::set_active_vcpu] *)
Definition set_active_vcpu (o : option Vcpu) : M Core unit :=
  m_modify (with_active o) >>;
  match o with None => m_ret tt | Some v => set_vstate v Running end.

(** src: kernel/cpu.rs 196-213 [Cpu::schedule_to] *)
Definition schedule_to (next : Vcpu) : M Core unit :=
  let! s := m_get in
  match active_vcpu s with
  | Some prev => set_vstate prev Ready >>; context_vm_store prev
  | None => m_ret tt
  end >>;
  set_active_vcpu (Some next) >>;
  context_vm_restore next >>;
  sched_emit (EvInstall next).

(** src: kernel/sched/sched_rr.rs 36-50 [next: the search] *)
Fixpoint next_from (ks : list Z) : M Core (option Vcpu) :=
  match ks with
  | [] => m_ret None
  | i :: rest =>
      let! s := m_get in
      let idx := usize (active_idx s + i) mod zlen (queue s) in
      match zget (queue s) idx with
      | Some v =>
          match vstate s v with
          | Invalid => next_from rest
          | _ => m_modify (with_idx idx) >>; m_ret (Some v)
          end
      | None => m_fault ExplicitPanic
      end
  end.

(** src: kernel/sched/sched_rr.rs 33-50 [SchedulerRR::next] *)
Definition sched_next : M Core (option Vcpu) :=
  let! s := m_get in next_from (zrange 1 (length (queue s))).

(** src: kernel/sched/sched_rr.rs 53-66 [SchedulerRR::do_schedule] *)
Definition do_schedule : M Core unit :=
  let! o := sched_next in
  match o with
  | Some v => schedule_to v
  | None => let! s := m_get in if ctx_null s then m_ret tt else sched_emit EvIdle
  end.

(** [queue.iter().position(|x| x.vm_id() == id)] *)
Fixpoint position (id : Z) (l : list Vcpu) : option nat :=
  match l with
  | [] => None
  | x :: r => if vcpu_vm_id x =? id then Some O else S <$> position id r
  end.

(** src: kernel/sched/sched_rr.rs 69-97 [SchedulerRR::sleep] *)
Definition sleep (v : Vcpu) : M Core unit :=
  let! s := m_get in
  let! need :=
    match position (vcpu_vm_id v) (queue s) with
    | Some idx =>
        m_put (with_queue (delete idx (queue s)) s) >>;
        if Z.of_nat idx <? active_idx s then m_modify (with_idx (active_idx s - 1)) >>; m_ret false
        else if Z.of_nat idx =? active_idx s then set_active_vcpu None >>; m_ret true
        else m_ret false
    | None => m_ret false
    end in
  set_vstate v Sleep >>;
  let! s := m_get in
  (if zlen (queue s) <=? 1 then timer_enable false else m_ret tt) >>;
  (if need : bool then do_schedule else m_ret tt).

(** src: kernel/sched/sched_rr.rs 100-110 [SchedulerRR::wakeup] *)
Definition wakeup (v : Vcpu) : M Core unit :=
  set_vstate v Ready >>;
  m_modify (fun s => with_queue (queue s ++ [v]) s) >>;
  let! s := m_get in
  (if 1 <? zlen (queue s) then timer_enable true else m_ret tt) >>;
  (if zlen (queue s) =? 1 then do_schedule else m_ret tt).

(** src: kernel/sched/sched_rr.rs 113-121 [SchedulerRR::yield_to] *)
Definition yield_to (v : Vcpu) : M Core unit :=
  m_modify (fun s => with_queue (queue s ++ [v]) s) >>;
  m_modify (fun s => with_idx (zlen (queue s) - 1) s) >>;
  schedule_to v >>;
  let! s := m_get in
  if 1 <? zlen (queue s) then timer_enable true else m_ret tt.

(** src: kernel/sched/sched_rr.rs 125-145 [SchedulerRR::update]
    [lookup vm id] is the vCPU after the update of the hypervisor; the result is the new
    scheduler's queue, index and slice. *)
Definition sched_update (lookup : Z -> Z -> option Vcpu) : M Core (list Vcpu * Z * Z) :=
  let! s := m_get in
  let! q := m_opt UnwrapNone (mapM (fun v => lookup (vcpu_vm_id v) (vcpu_id v)) (queue s)) in
  set_active_vcpu (zget q (active_idx s)) >>;
  m_ret (q, active_idx s, base_slice s).

(** src: kernel/interrupt.rs 82-97 [interrupt_vm_inject: the body] *)
Definition inject_body (v : Vcpu) (int_id : Z) : M Core unit :=
  let! s := m_get in
  if negb (phys_id v =? core_id s) then m_ret tt
  else
    match vstate s v with Sleep => sched_emit EvCpuRun >>; wakeup v | _ => m_ret tt end >>;
    sched_emit (EvInject v int_id).

(** src: arch/aarch64/psci.rs 258-274 [psci_vcpu_on: up to the scheduling] *)
Definition psci_vcpu_on (v : Vcpu) (entry ctx : Z) : M Core unit :=
  let! s := m_get in
  if negb (phys_id v =? core_id s) then m_fault ExplicitPanic
  else
    sched_emit EvCpuRun >>;
    sched_emit (EvReset v entry ctx) >>;
    wakeup v >>;
    do_schedule.
End scheduler.

(** src: kernel/interrupt.rs 82-97 [interrupt_vm_inject] *)
Fixpoint interrupt_vm_inject (fuel : nat) (v : Vcpu) (int_id : Z) : M Core unit :=
  match fuel with
  | O => m_fault FuelOut
  | S fuel' => inject_body (interrupt_vm_inject fuel') v int_id
  end.

(** ** The core's vCPU array *)

(** src: kernel/vcpu_array.rs 12-15 [VcpuArray] *)
Record VcpuArray := mkArray { array : list (option Vcpu); alen : Z }.

(** src: kernel/vm.rs 23-23 [VM_NUM_MAX] *)
Definition VM_NUM_MAX : Z := 8.

(** src: kernel/vcpu_array.rs 18-23 [VcpuArray::new] *)
Definition array_new : VcpuArray := mkArray (replicate (Z.to_nat VM_NUM_MAX) None) 0.

(** src: kernel/vcpu_array.rs 31-36 [VcpuArray::pop_vcpu_through_vmid] *)
Definition pop_vcpu_through_vmid (vm_id : Z) (a : VcpuArray) : option Vcpu :=
  match zget (array a) vm_id with Some o => o | None => None end.

(** src: kernel/vcpu_array.rs 43-57 [VcpuArray::append_vcpu] *)
Definition append_vcpu (v : Vcpu) : M VcpuArray unit := fun a =>
  match zget (array a) (vcpu_vm_id v) with
  | Some None => Ret tt (mkArray (zset (array a) (vcpu_vm_id v) (Some v)) (usize (alen a + 1)))
  | _ => Ret tt a
  end.

(** src: kernel/vcpu_array.rs 59-79 [VcpuArray::remove_vcpu]
    The second result: the guest timer interrupt is turned off. *)
Definition remove_vcpu (vm_id : Z) : M VcpuArray (Vcpu * bool) := fun a =>
  match zget (array a) vm_id with
  | Some (Some v) =>
      let len := usize (alen a - 1) in
      Ret (v, len =? 0) (mkArray (zset (array a) vm_id None) len)
  | _ => Fault ExplicitPanic
  end.

(** ** The core with its vCPU array *)

Record Node := mkNode { narr : VcpuArray; ncore : Core }.

Definition on_core {A} (m : M Core A) : M Node A := fun n =>
  match m (ncore n) with
  | Ret a s => Ret a (mkNode (narr n) s)
  | Fault f => Fault f
  end.
Definition on_array {A} (m : M VcpuArray A) : M Node A := fun n =>
  match m (narr n) with
  | Ret a r => Ret a (mkNode r (ncore n))
  | Fault f => Fault f
  end.

(** src: kernel/ipi.rs 30-35 [PowerEvent] *)
Inductive PowerEvent := PsciIpiVcpuAssignAndCpuOn | PsciIpiCpuOn | PsciIpiCpuOff | PsciIpiCpuReset.

(** src: arch/aarch64/psci.rs 287-343 [psci_ipi_handler]
    [vm_vcpu vm id] is the vCPU [id] of the VM. *)
Definition psci_ipi_handler (inject : Vcpu -> Z -> M Core unit) (vm_vcpu : Z -> Z -> option Vcpu)
    (src vcpuid : Z) (event : PowerEvent) (entry context : Z) : M Node unit :=
  match event with
  | PsciIpiVcpuAssignAndCpuOn =>
      let! v := m_opt UnwrapNone (vm_vcpu src vcpuid) in on_array (append_vcpu v)
  | _ => m_ret tt
  end >>;
  let! n := m_get in
  match pop_vcpu_through_vmid src (narr n) with
  | None => m_ret tt
  | Some v =>
      match event with
      | PsciIpiCpuOn =>
          match vstate (ncore n) v with
          | Invalid => on_core (psci_vcpu_on inject v entry context)
          | _ => m_ret tt
          end
      | PsciIpiCpuOff => m_fault ExplicitPanic
      | PsciIpiCpuReset =>
          let! v := m_opt UnwrapNone (active_vcpu (ncore n)) in on_core (sched_emit (EvBootInfo v))
      | _ => m_ret tt
      end
  end.

(** src: vmm/manager.rs 126-138 [vmm_boot_vm: on the VM's core] *)
Definition vmm_boot_vm_here (inject : Vcpu -> Z -> M Core unit) (vm_id : Z) : M Node unit :=
  let! n := m_get in
  match pop_vcpu_through_vmid vm_id (narr n) with
  | None => m_ret tt
  | Some v => on_core (sched_emit EvClearIrq) >>; on_core (yield_to inject v) >>; on_core (sched_emit EvVmBoot)
  end.

(** src: arch/aarch64/psci.rs 132-142 [smc_guest_handler: PSCI_CPU_SUSPEND_64] *)
Definition psci_cpu_suspend (inject : Vcpu -> Z -> M Core unit) (x2 x3 : Z) : M Core unit :=
  let! s := m_get in
  let! v := m_opt UnwrapNone (active_vcpu s) in
  sched_emit (EvReset v x2 x3) >>;
  sleep inject v.

(** src: vmm/remove.rs 71-81 [vmm_cpu_remove_vcpu] *)
Definition vmm_cpu_remove_vcpu (inject : Vcpu -> Z -> M Core unit) (vmid : Z) : M Node unit :=
  let! (v, last) := on_array (remove_vcpu vmid) in
  (if last : bool then on_core (sched_emit (EvCpuInt 27 false)) else m_ret tt) >>;
  on_core (sleep inject v) >>;
  let! n := m_get in
  if alen (narr n) =? 0 then on_core (sched_emit EvClearIrq >>; sched_emit EvIdle) else m_ret tt.

(** ** Interrupts of a core *)

Section interrupt.
(** [reserved int]: a handler is registered; [vm_has vm int]: [Vm::has_interrupt]. *)
Context (reserved : Z -> bool) (vm_has : Z -> Z -> bool).

(** src: kernel/interrupt.rs 116-131 [interrupt_handler: the search] *)
Fixpoint handler_search (fuel : nat) (int_id : Z) (l : list (option Vcpu)) : M Core bool :=
  match l with
  | [] => m_ret true
  | None :: r => handler_search fuel int_id r
  | Some v :: r =>
      if vm_has (vcpu_vm_id v) int_id then
        let! s := m_get in
        match vstate s v with
        | Invalid | Sleep => m_ret true
        | _ => interrupt_vm_inject fuel v int_id >>; m_ret false
        end
      else handler_search fuel int_id r
  end.

(** src: kernel/interrupt.rs 99-139 [interrupt_handler]
    The registered handler itself is outside this component: [true] is returned for it. *)
Definition interrupt_handler (fuel : nat) (a : VcpuArray) (int_id : Z) : M Core bool :=
  if reserved int_id then m_ret true
  else
    let! s := m_get in
    match (if (16 <=? int_id) && (int_id <? 32) then active_vcpu s else None) with
    | Some v =>
        if vm_has (vcpu_vm_id v) int_id then interrupt_vm_inject fuel v int_id >>; m_ret false
        else m_ret true
    | None => handler_search fuel int_id (array a)
    end.

(** src: kernel/interrupt.rs 142-164 [interrupt_inject_ipi_handler] *)
Definition interrupt_inject_ipi_handler (fuel : nat) (a : VcpuArray) (vm_id int_id : Z) : M Core unit :=
  match pop_vcpu_through_vmid vm_id a with
  | None => m_fault ExplicitPanic
  | Some v => interrupt_vm_inject fuel v int_id
  end.
End interrupt.
