(* ===== verification/SchedProps.v ===== *)
(** * SchedProps: what the scheduler does

    The closed form of every scheduler operation on the states it meets, the invariant of a core
    and its vCPU array under the operations that reach them, and the order in which vCPUs run. *)
From stdpp Require Import list gmap.
From S2P Require Import Prelude Vm Sched.

(** ** Switching to a vCPU *)

Definition emit_p (es : list sched_event) (s : Core) : Core := with_slog (slog s ++ es) s.
Definition state_p (v : Vcpu) (st : VcpuState) (s : Core) : Core :=
  put_cell v (mkCell st (int_list (cell s v))) s.

(** The vCPU that leaves the core is saved. *)
Definition leave (s : Core) : Core :=
  match active_vcpu s with
  | Some p => emit_p [EvStore p] (state_p p Ready s)
  | None => s
  end.

(** [v] comes in: its pending interrupts are delivered, all of them and in order. *)
Definition switch (v : Vcpu) (s : Core) : Core :=
  let s1 := leave s in
  emit_p ([EvRestore v] ++ map (EvInject v) (int_list (cell s1 v)) ++ [EvInstall v])
    (put_cell v (mkCell Running []) (with_active (Some v) s1)).

Lemma emit_p_app es es' s : emit_p es' (emit_p es s) = emit_p (es ++ es') s.
Proof. destruct s. unfold emit_p, with_slog. simpl. by rewrite app_assoc. Qed.

Lemma emit_p_nil s : emit_p [] s = s.
Proof. destruct s. unfold emit_p, with_slog. simpl. by rewrite app_nil_r. Qed.

Lemma cell_put v c s w : cell (put_cell v c s) w = if decide (vkey v = vkey w) then c else cell s w.
Proof.
  unfold cell, put_cell, with_vcells. simpl. rewrite lookup_insert. by case_decide.
Qed.

Lemma vstate_put v c s w :
  vstate (put_cell v c s) w = if decide (vkey v = vkey w) then cell_state c else vstate s w.
Proof. unfold vstate. rewrite cell_put. by case_decide. Qed.

Lemma put_put v c c' s : put_cell v c' (put_cell v c s) = put_cell v c' s.
Proof. unfold put_cell, with_vcells. destruct s. simpl. by rewrite insert_insert_eq. Qed.

Lemma inject_awake fuel v int s :
  phys_id v = core_id s -> vstate s v <> Sleep ->
  interrupt_vm_inject (S fuel) v int s = Ret tt (emit_p [EvInject v int] s).
Proof.
  intros Hp Hv. cbn [interrupt_vm_inject]. unfold inject_body. munfold. rewrite Hp, Z.eqb_refl. simpl.
  by destruct (vstate s v).
Qed.

Lemma inject_all fuel v l s :
  phys_id v = core_id s -> vstate s v <> Sleep ->
  m_for l (interrupt_vm_inject (S fuel) v) s = Ret tt (emit_p (map (EvInject v) l) s).
Proof.
  revert s. induction l as [|i l IH]; intros s Hp Hv; [cbn [m_for map]; by rewrite emit_p_nil|].
  cbn [m_for]. rewrite (m_bind_Ret _ _ _ _ _ (inject_awake fuel v i s Hp Hv)), IH by done.
  by rewrite emit_p_app.
Qed.

Lemma schedule_to_eq fuel v s :
  phys_id v = core_id s ->
  schedule_to (interrupt_vm_inject (S fuel)) v s = Ret tt (switch v s).
Proof.
  intros Hp.
  assert (schedule_to (interrupt_vm_inject (S fuel)) v s =
    (set_active_vcpu (Some v) >>; context_vm_restore (interrupt_vm_inject (S fuel)) v >>;
     sched_emit (EvInstall v)) (leave s)) as ->.
  { unfold schedule_to, leave. munfold. by destruct (active_vcpu s). }
  assert (core_id (leave s) = core_id s) as Hc by (unfold leave; by destruct (active_vcpu s)).
  unfold switch. rewrite <- Hc in Hp. clear Hc. generalize dependent (leave s). clear s. intros s Hp.
  assert ((set_active_vcpu (Some v) >>; context_vm_restore (interrupt_vm_inject (S fuel)) v >>;
     sched_emit (EvInstall v)) s =
    (m_for (int_list (cell s v)) (interrupt_vm_inject (S fuel) v) >>; sched_emit (EvInstall v))
      (emit_p [EvRestore v] (put_cell v (mkCell Running []) (with_active (Some v) s)))) as ->.
  { unfold set_active_vcpu, context_vm_restore, inject_int_inlist, set_vstate, sched_emit.
    munfold.
    destruct s; unfold emit_p, put_cell, with_slog, with_vcells, cell; simpl.
    by rewrite lookup_insert_eq, insert_insert_eq. }
  erewrite m_bind_Ret; [|apply inject_all].
  - change (sched_emit (EvInstall v) ?x) with (Ret (S := Core) tt (emit_p [EvInstall v] x)).
    by rewrite !emit_p_app.
  - done.
  - change (vstate (emit_p [EvRestore v] ?x) v) with (vstate x v). rewrite vstate_put.
    by rewrite decide_True.
Qed.


(** ** The invariant of a core *)

Definition awake (st : VcpuState) : bool := match st with Ready | Running => true | _ => false end.

(** What holds while an operation is under way; [x] is a vCPU whose run state is yet to be set. *)
Record sched_pre (x : option Vcpu) (s : Core) : Prop := {
  pre_vms : NoDup (vcpu_vm_id <$> queue s);
  pre_here : forall v, v ∈ queue s -> phys_id v = core_id s /\ 0 <= vcpu_vm_id v < VM_NUM_MAX;
  pre_idx : 0 <= active_idx s <= zlen (queue s);
  pre_active : forall a, active_vcpu s = Some a -> a ∈ queue s;
  pre_queued : forall v, v ∈ queue s -> x <> Some v ->
    vstate s v = if decide (active_vcpu s = Some v) then Running else Ready;
  pre_others : forall v, awake (vstate s v) = true -> vkey v ∈ vkey <$> queue s;
}.

(** Between operations: the active vCPU is the one [active_idx] points at, and the tick is on
    exactly when there is another vCPU to give the core to. *)
Record sched_ok (s : Core) : Prop := {
  ok_pre :> sched_pre None s;
  ok_active : active_vcpu s = zget (queue s) (active_idx s);
  ok_idx : 0 <= active_idx s < Z.max 1 (zlen (queue s));
  ok_timer : timer_on s = (1 <? zlen (queue s));
}.

(** A queue of distinct VMs is no longer than the table of VMs. *)
Lemma queue_short x s : sched_pre x s -> zlen (queue s) <= VM_NUM_MAX.
Proof.
  intros Hok.
  assert (length (vcpu_vm_id <$> queue s) <= length (zrange 0 8))%nat as Hl.
  { apply submseteq_length, NoDup_submseteq; [apply Hok|]. intros y (v & -> & Hv)%list_elem_of_fmap.
    apply zrange_elem. apply (pre_here x s Hok) in Hv. unfold VM_NUM_MAX in Hv. lia. }
  rewrite length_fmap in Hl. change (length (zrange 0 8)) with 8%nat in Hl.
  unfold zlen, VM_NUM_MAX. lia.
Qed.

Lemma zget_elem {A} (l : list A) i a : zget l i = Some a -> a ∈ l.
Proof. unfold zget. destruct (0 <=? i); [|done]. apply list_elem_of_lookup_2. Qed.

Lemma zget_nil {A} i : zget (@nil A) i = None.
Proof. unfold zget. by destruct (0 <=? i). Qed.

Lemma same_vm_same x s v w :
  sched_pre x s -> v ∈ queue s -> w ∈ queue s -> vcpu_vm_id v = vcpu_vm_id w -> v = w.
Proof.
  intros Hok (i & Hi)%list_elem_of_lookup (j & Hj)%list_elem_of_lookup E.
  assert (i = j) as ->; [|congruence].
  eapply NoDup_lookup; [apply (pre_vms x s Hok)| |]; rewrite list_lookup_fmap.
  - rewrite Hi. done.
  - rewrite Hj. simpl. by rewrite E.
Qed.

Lemma same_key_same x s v w :
  sched_pre x s -> v ∈ queue s -> w ∈ queue s -> vkey v = vkey w -> v = w.
Proof. intros Hok ? ? [= E _]. by eapply same_vm_same. Qed.

(** The closed form of [next]: no queued vCPU is invalid, so the search stops at once. *)
Definition succ_idx (s : Core) : Z := (active_idx s + 1) mod zlen (queue s).

Lemma succ_idx_get x s :
  sched_pre x s -> queue s <> [] -> exists v, zget (queue s) (succ_idx s) = Some v /\ v ∈ queue s.
Proof.
  intros Hok Hq. destruct (zget_in_bounds (queue s) (succ_idx s)) as [v Hv].
  - apply Z.mod_pos_bound. destruct (queue s); [done|]. unfold zlen. simpl. lia.
  - exists v. split; [done|]. by eapply zget_elem.
Qed.

Lemma sched_next_eq s :
  sched_pre None s -> sched_next s =
    match zget (queue s) (succ_idx s) with
    | Some v => Ret (Some v) (with_idx (succ_idx s) s)
    | None => Ret None s
    end.
Proof.
  intros Hok. destruct (decide (queue s = [])) as [E|Hne].
  { unfold sched_next. munfold. rewrite E, zget_nil. done. }
  destruct (succ_idx_get None s Hok Hne) as (v & Hv & Hin). rewrite Hv.
  pose proof (queue_short None s Hok) as Hs. unfold VM_NUM_MAX in Hs. pose proof (pre_idx None s Hok) as Hi.
  unfold sched_next. unfold m_bind at 1, m_get.
  destruct (length (queue s)) as [|n] eqn:El; [by apply nil_length_inv in El|].
  cbn [zrange next_from]. unfold m_bind at 1, m_get.
  rewrite wrap_small by (unfold in_word; lia). fold (succ_idx s). rewrite Hv.
  rewrite (pre_queued None s Hok v Hin) by done. by case_decide.
Qed.

(** ** Switching keeps it *)

Lemma leave_fields s :
  core_id (leave s) = core_id s /\ queue (leave s) = queue s /\ active_idx (leave s) = active_idx s /\
  timer_on (leave s) = timer_on s /\ ctx_null (leave s) = ctx_null s.
Proof. unfold leave. by destruct (active_vcpu s). Qed.

Lemma switch_fields v s :
  core_id (switch v s) = core_id s /\ queue (switch v s) = queue s /\
  active_idx (switch v s) = active_idx s /\ active_vcpu (switch v s) = Some v /\
  timer_on (switch v s) = timer_on s.
Proof. unfold switch, leave. by destruct (active_vcpu s). Qed.

Lemma vstate_leave s w :
  vstate (leave s) w =
    match active_vcpu s with
    | Some p => if decide (vkey p = vkey w) then Ready else vstate s w
    | None => vstate s w
    end.
Proof.
  unfold leave. destruct (active_vcpu s); [|done].
  change (vstate (emit_p ?l ?x) w) with (vstate x w). apply vstate_put.
Qed.

Lemma vstate_switch v s w :
  vstate (switch v s) w = if decide (vkey v = vkey w) then Running else vstate (leave s) w.
Proof. unfold switch. change (vstate (emit_p ?l ?x) w) with (vstate x w). by rewrite vstate_put. Qed.

(** Once switched to, a vCPU has no pending interrupts. *)
Lemma int_list_switch v s : int_list (cell (switch v s) v) = [].
Proof.
  unfold switch. change (cell (emit_p ?l ?x) v) with (cell x v). rewrite cell_put.
  by rewrite decide_True.
Qed.

Lemma switch_ok v s :
  sched_pre (Some v) s -> zget (queue s) (active_idx s) = Some v ->
  timer_on s = (1 <? zlen (queue s)) -> sched_ok (switch v s).
Proof.
  intros Hp Hv Ht. destruct (switch_fields v s) as (Ec & Eq & Ei & Ea & Et).
  pose proof (zget_elem _ _ _ Hv) as Hin. pose proof (zget_Some_bounds _ _ _ Hv) as Hb.
  split; [split|..]; rewrite ?Ec, ?Eq, ?Ei, ?Ea, ?Et; try apply Hp; try done; try lia.
  - by intros a [= <-].
  - intros w Hw _. rewrite vstate_switch.
    destruct (decide (vkey v = vkey w)) as [E|Hne].
    + apply (same_key_same (Some v) s) in E; [|done..]. subst w. by rewrite decide_True.
    + rewrite (decide_False (P := Some v = Some w)) by congruence. rewrite vstate_leave.
      pose proof (pre_queued _ _ Hp w Hw) as Hs.
      destruct (active_vcpu s) as [p|] eqn:Eact.
      * destruct (decide (vkey p = vkey w)) as [|Ek]; [done|]. rewrite Hs by congruence. by rewrite decide_False by congruence.
      * rewrite Hs by congruence. by rewrite decide_False.
  - intros w Hw. rewrite vstate_switch in Hw. case_decide as E.
    + rewrite <- E. by apply list_elem_of_fmap_2.
    + rewrite vstate_leave in Hw. destruct (active_vcpu s) as [p|] eqn:Eact.
      * case_decide as Ek; [|by apply Hp]. rewrite <- Ek. apply list_elem_of_fmap_2. by apply Hp.
      * by apply Hp.
Qed.

(** ** The operations in closed form *)

Definition tick_p (s : Core) : Core :=
  match zget (queue s) (succ_idx s) with
  | Some v => switch v (with_idx (succ_idx s) s)
  | None => if ctx_null s then s else emit_p [EvIdle] s
  end.

Lemma do_schedule_eq fuel s :
  sched_pre None s -> do_schedule (interrupt_vm_inject (S fuel)) s = Ret tt (tick_p s).
Proof.
  intros Hok. unfold do_schedule, tick_p. unfold m_bind at 1. rewrite sched_next_eq by done.
  destruct (zget (queue s) (succ_idx s)) as [v|] eqn:Hv.
  - apply schedule_to_eq. apply (pre_here None s Hok). by eapply zget_elem.
  - munfold. by destruct (ctx_null s).
Qed.

Lemma tick_ok s :
  sched_pre None s -> timer_on s = (1 <? zlen (queue s)) ->
  (queue s = [] -> active_idx s = 0) -> sched_ok (tick_p s).
Proof.
  intros Hp Ht H0. unfold tick_p. destruct (decide (queue s = [])) as [E|Hne].
  - rewrite E, zget_nil. assert (sched_ok s) as Hok.
    { split; [done| |rewrite H0 by done; lia|done].
      rewrite E, zget_nil. destruct (active_vcpu s) as [a|] eqn:Ea; [|done].
      apply (pre_active None s Hp) in Ea. rewrite E in Ea. by apply elem_of_nil in Ea. }
    destruct (ctx_null s); [done|]. destruct Hok as [[] ? ? ?]. by split.
  - destruct (succ_idx_get None s Hp Hne) as (v & Hv & Hin). rewrite Hv.
    apply zget_Some_bounds in Hv as Hb.
    apply switch_ok; [|done|done]. destruct Hp. split; try done.
    + simpl. lia.
    + intros w Hw _. by apply pre_queued0.
Qed.

(** [wakeup] of a vCPU that is not in the queue. *)
Definition enqueue (v : Vcpu) (s : Core) : Core :=
  let s1 := with_queue (queue s ++ [v]) (state_p v Ready s) in
  if 1 <? zlen (queue s1) then with_timer true s1 else s1.

Definition wakeup_p (v : Vcpu) (s : Core) : Core :=
  let s1 := enqueue v s in if zlen (queue s1) =? 1 then tick_p s1 else s1.

(** [v] can join the queue: it runs on this core and no other vCPU of its VM is queued. *)
Definition may_join (v : Vcpu) (s : Core) : Prop :=
  phys_id v = core_id s /\ 0 <= vcpu_vm_id v < VM_NUM_MAX /\ vcpu_vm_id v ∉ vcpu_vm_id <$> queue s.

Lemma join_pre v s :
  sched_pre None s -> may_join v s ->
  sched_pre (Some v) (with_queue (queue s ++ [v]) s).
Proof.
  intros [] (Hc & Hm & Hn). split; simpl.
  - rewrite fmap_app. apply list.NoDup_app. split; [done|]. split; [|apply NoDup_singleton].
    intros x Hx ->%list_elem_of_singleton. done.
  - intros w [Hw| ->%list_elem_of_singleton]%elem_of_app; [by apply pre_here0|done].
  - rewrite zlen_app. unfold zlen at 2. simpl. lia.
  - intros a Ha. apply elem_of_app. left. by apply pre_active0.
  - intros w [Hw| ->%list_elem_of_singleton]%elem_of_app ?; [by apply pre_queued0|done].
  - intros w Hw. rewrite fmap_app. apply elem_of_app. left. by apply pre_others0.
Qed.

Lemma may_join_fresh v s : sched_pre None s -> may_join v s -> (v ∉ queue s) /\ active_vcpu s <> Some v.
Proof.
  intros Hp (_ & _ & Hn). assert (v ∉ queue s) as Hq.
  { intros Hv. apply Hn. by apply list_elem_of_fmap_2. }
  split; [done|]. intros Ha. apply Hq. by apply Hp.
Qed.

Lemma set_ready_pre v s :
  sched_pre (Some v) s -> v ∈ queue s -> active_vcpu s <> Some v -> sched_pre None (state_p v Ready s).
Proof.
  intros Hp Hin Ha. pose proof Hp as []. split; try done.
  - intros w Hw _. unfold state_p. rewrite vstate_put. simpl.
    destruct (decide (vkey v = vkey w)) as [E|Hne].
    + apply (same_key_same (Some v) s) in E; [|done..]. subst w. by rewrite decide_False.
    + apply pre_queued0; [done|congruence].
  - intros w. unfold state_p. rewrite vstate_put. simpl. case_decide as E; [|by apply pre_others0].
    intros _. rewrite <- E. by apply list_elem_of_fmap_2.
Qed.

Lemma with_timer_pre x t s : sched_pre x s -> sched_pre x (with_timer t s).
Proof. by intros []. Qed.

Lemma emit_pre x es s : sched_pre x s -> sched_pre x (emit_p es s).
Proof. by intros []. Qed.

Lemma emit_ok es s : sched_ok s -> sched_ok (emit_p es s).
Proof. intros [Hp ? ? ?]. split; [by apply emit_pre|done..]. Qed.

Lemma enqueue_queue v s : queue (enqueue v s) = queue s ++ [v].
Proof. unfold enqueue. by destruct (1 <? _). Qed.

Lemma zlen_snoc {A} (l : list A) a : zlen (l ++ [a]) = zlen l + 1.
Proof. by rewrite zlen_app. Qed.

Lemma zget_app_l {A} (l k : list A) i : i < zlen l -> zget (l ++ k) i = zget l i.
Proof.
  unfold zget, zlen. intros ?. destruct (Z.leb_spec 0 i); [|done]. apply lookup_app_l. lia.
Qed.

Lemma enqueue_pre v s :
  sched_ok s -> may_join v s ->
  sched_pre None (enqueue v s) /\ timer_on (enqueue v s) = (1 <? zlen (queue (enqueue v s))) /\
  active_vcpu (enqueue v s) = active_vcpu s /\ active_idx (enqueue v s) = active_idx s.
Proof.
  intros Hok Hj. destruct (may_join_fresh v s Hok Hj) as [Hq Ha].
  assert (sched_pre None (with_queue (queue s ++ [v]) (state_p v Ready s))) as Hp.
  { change (with_queue ?q (state_p v Ready s)) with (state_p v Ready (with_queue q s)).
    apply set_ready_pre; [apply join_pre; [apply Hok|done]| |done]. apply elem_of_app. right. by apply list_elem_of_singleton. }
  rewrite enqueue_queue, zlen_snoc. unfold enqueue. cbn [queue with_queue]. rewrite zlen_snoc.
  pose proof (ok_timer s Hok) as Ht. pose proof (zlen_nonneg (queue s)).
  destruct (Z.ltb_spec 1 (zlen (queue s) + 1)); split_and!; try done.
  - by apply with_timer_pre.
  - simpl. rewrite Ht. apply Z.ltb_ge. lia.
Qed.

Lemma wakeup_eq fuel v s :
  sched_ok s -> may_join v s -> wakeup (interrupt_vm_inject (S fuel)) v s = Ret tt (wakeup_p v s).
Proof.
  intros Hok Hj. destruct (enqueue_pre v s Hok Hj) as (Hp & _).
  assert (wakeup (interrupt_vm_inject (S fuel)) v s =
    (if zlen (queue (enqueue v s)) =? 1 then do_schedule (interrupt_vm_inject (S fuel)) else m_ret tt)
      (enqueue v s)) as ->.
  { rewrite enqueue_queue. unfold wakeup, enqueue, set_vstate. munfold. fold (state_p v Ready s).
    cbn [queue with_queue]. change (queue (state_p v Ready s)) with (queue s).
    by destruct (1 <? zlen (queue s ++ [v])). }
  unfold wakeup_p. destruct (_ =? 1); [by apply do_schedule_eq|done].
Qed.

Lemma wakeup_ok v s : sched_ok s -> may_join v s -> sched_ok (wakeup_p v s).
Proof.
  intros Hok Hj. destruct (enqueue_pre v s Hok Hj) as (Hp & Ht & Ha & Hi). unfold wakeup_p.
  pose proof (enqueue_queue v s) as Eq. pose proof (ok_idx s Hok) as Hidx.
  pose proof (zlen_nonneg (queue s)) as Hnn.
  destruct (Z.eqb_spec (zlen (queue (enqueue v s))) 1) as [E|Hne].
  - apply tick_ok; [done|done|]. rewrite Eq. intros Hc. by destruct (queue s).
  - split; [done| | |done]; rewrite ?Ha, ?Hi, ?Eq; rewrite Eq, zlen_snoc in Hne.
    + rewrite zget_app_l by lia. apply Hok.
    + rewrite zlen_snoc. lia.
Qed.

(** An interrupt for a vCPU of this core: a sleeping vCPU is queued first, and the interrupt is
    delivered last, after whatever the vCPU had pending. *)
Definition inject_p (v : Vcpu) (int : Z) (s : Core) : Core :=
  emit_p [EvInject v int]
    (match vstate s v with Sleep => wakeup_p v (emit_p [EvCpuRun] s) | _ => s end).

Lemma inject_eq fuel v int s :
  sched_ok s -> phys_id v = core_id s -> (vstate s v = Sleep -> may_join v s) ->
  interrupt_vm_inject (S (S fuel)) v int s = Ret tt (inject_p v int s).
Proof.
  intros Hok Hp Hj. unfold inject_p. destruct (vstate s v) eqn:Ev;
    try (apply inject_awake; congruence).
  assert (interrupt_vm_inject (S (S fuel)) v int s =
    (wakeup (interrupt_vm_inject (S fuel)) v >>; sched_emit (EvInject v int)) (emit_p [EvCpuRun] s)) as ->.
  { change (interrupt_vm_inject (S (S fuel)) v int) with (inject_body (interrupt_vm_inject (S fuel)) v int).
    unfold inject_body. munfold. by rewrite Hp, Z.eqb_refl, Ev. }
  erewrite m_bind_Ret; [|apply wakeup_eq; [by apply emit_ok|by apply Hj]]. done.
Qed.

Lemma inject_ok v int s :
  sched_ok s -> (vstate s v = Sleep -> may_join v s) -> sched_ok (inject_p v int s).
Proof.
  intros Hok Hj. unfold inject_p. apply emit_ok. destruct (vstate s v) eqn:Ev; try done.
  apply wakeup_ok; [by apply emit_ok|by apply Hj].
Qed.

(** ** Leaving the queue *)

Lemma position_None id l : id ∉ vcpu_vm_id <$> l -> position id l = None.
Proof.
  induction l as [|x l IH]; [done|]. cbn [fmap list_fmap position].
  intros [Hx Hl]%list.not_elem_of_cons. destruct (Z.eqb_spec (vcpu_vm_id x) id); [congruence|].
  by rewrite IH.
Qed.

Lemma position_middle v l k :
  vcpu_vm_id v ∉ vcpu_vm_id <$> l -> position (vcpu_vm_id v) (l ++ v :: k) = Some (length l).
Proof.
  induction l as [|x l IH]; cbn [fmap list_fmap position app length]; [by rewrite Z.eqb_refl|].
  intros [Hx Hl]%list.not_elem_of_cons. destruct (Z.eqb_spec (vcpu_vm_id x) (vcpu_vm_id v)); [congruence|].
  by rewrite IH.
Qed.

(** [v], between [l] and [k] in the queue, is taken out and put to sleep; [i] is the new index. *)
Definition remove_p (v : Vcpu) (l k : list Vcpu) (i : Z) (s : Core) : Core :=
  state_p v Sleep
    (with_active (if decide (active_vcpu s = Some v) then None else active_vcpu s)
      (with_idx i (with_queue (l ++ k) s))).

Lemma middle_fresh x s v l k :
  sched_pre x s -> queue s = l ++ v :: k ->
  (vcpu_vm_id v ∉ vcpu_vm_id <$> l) /\ NoDup (vcpu_vm_id <$> l ++ k) /\ v ∉ l ++ k.
Proof.
  intros Hp E. pose proof (pre_vms x s Hp) as Hnd.
  assert (vcpu_vm_id <$> queue s ≡ₚ vcpu_vm_id v :: (vcpu_vm_id <$> l ++ k)) as Hperm.
  { rewrite E, <- Permutation_middle. done. }
  rewrite Hperm in Hnd. apply list.NoDup_cons in Hnd as [Hn Hnd]. split_and!; [|done|].
  - intros Hl. apply Hn. rewrite fmap_app. apply elem_of_app. by left.
  - intros Hv. apply Hn. by apply list_elem_of_fmap_2.
Qed.

Lemma remove_pre v l k i s :
  sched_pre None s -> queue s = l ++ v :: k -> 0 <= i <= zlen (l ++ k) ->
  sched_pre None (remove_p v l k i s).
Proof.
  intros Hp E Hi. destruct (middle_fresh None s v l k Hp E) as (_ & Hnd & Hv).
  assert (forall w, w ∈ l ++ k -> w ∈ queue s /\ vkey v <> vkey w) as Hin.
  { intros w Hw. assert (w ∈ queue s) as Hq.
    { rewrite E, <- Permutation_middle. by right. }
    split; [done|]. intros Ek. apply (same_key_same None s) in Ek; [|done| |done]; [by subst w|].
    rewrite E. apply elem_of_app. right. by left. }
  split; try done.
  - intros w Hw. apply (pre_here None s Hp). by apply Hin.
  - cbn. intros a. case_decide; [done|]. intros Ha. pose proof (pre_active None s Hp a Ha) as Hq.
    rewrite E, <- Permutation_middle in Hq. apply elem_of_cons in Hq as [->|]; [done|done].
  - intros w Hw _. unfold remove_p, state_p. rewrite vstate_put. destruct (Hin w Hw) as [Hq Hk].
    rewrite decide_False by done. change (vstate _ w) with (vstate s w).
    rewrite (pre_queued None s Hp w Hq) by done. cbn.
    destruct (decide (active_vcpu s = Some v)) as [Ha|Ha]; [|done].
    rewrite !decide_False; [done|done|]. rewrite Ha. intros [= ->]. done.
  - intros w. unfold remove_p, state_p. rewrite vstate_put. cbn [queue put_cell with_vcells with_active with_idx with_queue].
    case_decide as Hk; [done|]. change (vstate _ w) with (vstate s w). intros Hw.
    pose proof (pre_others None s Hp w Hw) as Hq. rewrite E, <- Permutation_middle in Hq.
    apply elem_of_cons in Hq as [Hq|Hq]; [by rewrite Hq in Hk|done].
Qed.

Definition timer_p (s : Core) : Core := if zlen (queue s) <=? 1 then with_timer false s else s.

(** [sleep] of the vCPU between [l] and [k]. *)
Definition sleep_p (v : Vcpu) (l k : list Vcpu) (s : Core) : Core :=
  let i := if zlen l <? active_idx s then active_idx s - 1 else active_idx s in
  let s1 := timer_p (remove_p v l k i s) in
  if zlen l =? active_idx s then tick_p s1 else s1.

Lemma zget_middle {A} (l k : list A) a : zget (l ++ a :: k) (zlen l) = Some a.
Proof.
  unfold zget, zlen. destruct (Z.leb_spec 0 (Z.of_nat (length l))); [|lia].
  rewrite Nat2Z.id. by apply list_lookup_middle.
Qed.

Lemma active_is_middle s v l k :
  sched_ok s -> queue s = l ++ v :: k -> (active_vcpu s = Some v <-> zlen l = active_idx s).
Proof.
  intros Hok E. rewrite (ok_active s Hok), E. split; [|intros <-; apply zget_middle].
  intros Hv. pose proof (zget_Some_bounds _ _ _ Hv) as Hb.
  assert ((vcpu_vm_id <$> queue s) !! Z.to_nat (active_idx s) = Some (vcpu_vm_id v)) as H1.
  { rewrite list_lookup_fmap, E. unfold zget in Hv. destruct (0 <=? _); [|done]. by rewrite Hv. }
  assert ((vcpu_vm_id <$> queue s) !! length l = Some (vcpu_vm_id v)) as H2.
  { rewrite list_lookup_fmap, E. by rewrite list_lookup_middle. }
  pose proof (NoDup_lookup _ _ _ _ (pre_vms _ _ (ok_pre s Hok)) H1 H2). unfold zlen. lia.
Qed.

Lemma remove_range s v l k :
  sched_ok s -> queue s = l ++ v :: k ->
  0 <= (if zlen l <? active_idx s then active_idx s - 1 else active_idx s) <= zlen (l ++ k).
Proof.
  intros Hok E. pose proof (ok_idx s Hok) as Hi. rewrite E, zlen_app in Hi. rewrite zlen_app.
  assert (zlen (v :: k) = 1 + zlen k) as Ek by (unfold zlen; cbn [length]; lia).
  pose proof (zlen_nonneg l). pose proof (zlen_nonneg k).
  destruct (Z.ltb_spec (zlen l) (active_idx s)); lia.
Qed.

Lemma timer_p_pre s : sched_pre None s -> sched_pre None (timer_p s).
Proof. intros Hp. unfold timer_p. destruct (_ <=? 1); [by apply with_timer_pre|done]. Qed.

Lemma timer_p_fields s :
  queue (timer_p s) = queue s /\ active_idx (timer_p s) = active_idx s /\
  active_vcpu (timer_p s) = active_vcpu s /\ core_id (timer_p s) = core_id s.
Proof. unfold timer_p. by destruct (_ <=? 1). Qed.

Lemma timer_p_off s :
  timer_on s = true \/ zlen (queue s) <= 1 -> timer_on (timer_p s) = (1 <? zlen (queue s)).
Proof.
  intros Ht. unfold timer_p. destruct (Z.leb_spec (zlen (queue s)) 1); cbn.
  - symmetry. apply Z.ltb_ge. lia.
  - destruct Ht as [->|]; [symmetry; apply Z.ltb_lt|]; lia.
Qed.

Lemma sleep_eq fuel v l k s :
  sched_ok s -> queue s = l ++ v :: k ->
  sleep (interrupt_vm_inject (S fuel)) v s = Ret tt (sleep_p v l k s).
Proof.
  intros Hok E. destruct (middle_fresh None s v l k (ok_pre s Hok) E) as (Hl & _ & _).
  pose proof (active_is_middle s v l k Hok E) as Ha.
  set (i := if zlen l <? active_idx s then active_idx s - 1 else active_idx s).
  assert (sleep (interrupt_vm_inject (S fuel)) v s =
    (if zlen l =? active_idx s then do_schedule (interrupt_vm_inject (S fuel)) else m_ret tt)
      (timer_p (remove_p v l k i s))) as ->.
  { unfold sleep. munfold. rewrite E, position_middle by done. rewrite delete_middle.
    subst i. unfold zlen in *. unfold remove_p, timer_p.
    destruct (Z.ltb_spec (Z.of_nat (length l)) (active_idx s)) as [Hlt|Hge].
    - rewrite (decide_False (P := active_vcpu s = Some v)) by (rewrite Ha; lia).
      rewrite (proj2 (Z.eqb_neq _ _)) by lia. destruct s; cbn. by destruct (_ <=? 1).
    - destruct (Z.eqb_spec (Z.of_nat (length l)) (active_idx s)) as [He|Hne].
      + rewrite decide_True by by apply Ha. destruct s; cbn. by destruct (_ <=? 1).
      + rewrite decide_False by by rewrite Ha. destruct s; cbn. by destruct (_ <=? 1). }
  unfold sleep_p. fold i. destruct (Z.eqb_spec (zlen l) (active_idx s)); [|done].
  apply do_schedule_eq. apply timer_p_pre. apply remove_pre; [apply Hok|done|by apply (remove_range s v)].
Qed.

Lemma sleep_ok v l k s : sched_ok s -> queue s = l ++ v :: k -> sched_ok (sleep_p v l k s).
Proof.
  intros Hok E. unfold sleep_p. pose proof (remove_range s v l k Hok E) as Hr.
  pose proof (active_is_middle s v l k Hok E) as Ha.
  set (i := if zlen l <? active_idx s then active_idx s - 1 else active_idx s) in *.
  assert (sched_pre None (timer_p (remove_p v l k i s))) as Hp.
  { apply timer_p_pre, remove_pre; [apply Hok|done|done]. }
  destruct (timer_p_fields (remove_p v l k i s)) as (Eq & Ei & Ev & _).
  assert (timer_on (timer_p (remove_p v l k i s)) = (1 <? zlen (l ++ k))) as Ht.
  { apply timer_p_off. cbn [timer_on queue remove_p state_p put_cell with_vcells with_active with_idx with_queue].
    rewrite (ok_timer s Hok), E, !zlen_app. unfold zlen. cbn [length].
    destruct (Z.ltb_spec 1 (Z.of_nat (length l) + Z.of_nat (S (length k)))); [|right; lia].
    by left. }
  cbn in Eq, Ei, Ev. pose proof (ok_idx s Hok) as Hidx. rewrite E, zlen_app in Hidx.
  assert (zlen (v :: k) = 1 + zlen k) as Ek by (unfold zlen; cbn [length]; lia).
  rewrite zlen_app in Hr. pose proof (zlen_nonneg l). pose proof (zlen_nonneg k).
  destruct (Z.eqb_spec (zlen l) (active_idx s)) as [He|Hne].
  - apply tick_ok; [done|by rewrite Eq|]. rewrite Eq, Ei. intros [-> ->]%app_nil. subst i.
    rewrite Ek in Hidx. unfold zlen in *. cbn [length] in *.
    destruct (Z.ltb_spec (Z.of_nat 0) (active_idx s)); lia.
  - split; [done| | |by rewrite Eq]; rewrite Eq, Ei.
    + rewrite Ev, decide_False by (rewrite Ha; done). rewrite (ok_active s Hok), E. subst i.
      unfold zget, zlen in *.
      destruct (Z.ltb_spec (Z.of_nat (length l)) (active_idx s)).
      * rewrite !(proj2 (Z.leb_le _ _)) by lia. rewrite !lookup_app_r by lia.
        replace (Z.to_nat (active_idx s) - length l)%nat
          with (S (Z.to_nat (active_idx s - 1) - length l)) by lia. done.
      * rewrite !(proj2 (Z.leb_le _ _)) by lia. by rewrite !lookup_app_l by lia.
    + rewrite zlen_app. subst i. destruct (Z.ltb_spec (zlen l) (active_idx s)); lia.
Qed.

(** [sleep] of a vCPU that is not queued only sets its run state. *)
Lemma sleep_absent fuel v s :
  sched_ok s -> vcpu_vm_id v ∉ vcpu_vm_id <$> queue s ->
  sleep (interrupt_vm_inject fuel) v s = Ret tt (state_p v Sleep s).
Proof.
  intros Hok Hv.
  assert (sleep (interrupt_vm_inject fuel) v s = Ret tt (timer_p (state_p v Sleep s))) as ->.
  { unfold sleep, set_vstate, timer_enable. munfold. rewrite position_None by done. fold (state_p v Sleep s).
    unfold timer_p. by destruct (_ <=? 1). }
  f_equal. unfold timer_p. change (queue (state_p v Sleep s)) with (queue s).
  destruct (Z.leb_spec (zlen (queue s)) 1) as [Hle|]; [|done].
  pose proof (ok_timer s Hok) as Ht. rewrite (proj2 (Z.ltb_ge _ _)) in Ht by lia.
  destruct s. cbn in *. by subst.
Qed.

(** The cell of a vCPU whose VM is not queued may change freely, short of being awake. *)
Lemma unqueued_cell_ok v c s :
  sched_ok s -> vcpu_vm_id v ∉ vcpu_vm_id <$> queue s -> awake (cell_state c) = false ->
  sched_ok (put_cell v c s).
Proof.
  intros Hok Hv Hc. pose proof Hok as [Hp ? ? ?]. split; [|done..]. pose proof Hp as []. split; try done.
  - intros w Hw Hx. rewrite vstate_put. rewrite decide_False; [by apply pre_queued0|].
    intros [= E _]. apply Hv. rewrite E. by apply list_elem_of_fmap_2.
  - intros w. rewrite vstate_put. case_decide; [by rewrite Hc|]. apply pre_others0.
Qed.

(** ** [yield_to], [psci_vcpu_on] and [push_int] *)

Definition yield_p (v : Vcpu) (s : Core) : Core :=
  let s1 := with_idx (zlen (queue s)) (with_queue (queue s ++ [v]) s) in
  switch v (if 1 <? zlen (queue s1) then with_timer true s1 else s1).

Lemma with_timer_switch t v s : with_timer t (switch v s) = switch v (with_timer t s).
Proof. unfold switch, leave. destruct s as [? ? ? ? [p|] ? ? ? ?]; done. Qed.

Lemma yield_eq fuel v s :
  phys_id v = core_id s -> yield_to (interrupt_vm_inject (S fuel)) v s = Ret tt (yield_p v s).
Proof.
  intros Hc. unfold yield_to, yield_p. unfold m_bind at 1, m_modify at 1. unfold m_bind at 1, m_modify at 1.
  cbn [queue with_queue with_idx]. rewrite zlen_snoc, Z.add_simpl_r.
  erewrite m_bind_Ret; [|by apply schedule_to_eq]. munfold.
  match goal with |- context [switch v ?x] => destruct (switch_fields v x) as (_ & Eq & _) end.
  rewrite Eq. cbn [queue with_queue with_idx]. rewrite zlen_snoc.
  destruct (1 <? _); [|done]. unfold timer_enable. munfold. by rewrite with_timer_switch.
Qed.

Lemma yield_ok v s : sched_ok s -> may_join v s -> sched_ok (yield_p v s).
Proof.
  intros Hok Hj. unfold yield_p. pose proof (join_pre v s Hok Hj) as Hp.
  cbn [queue with_queue with_idx]. rewrite zlen_snoc. pose proof (zlen_nonneg (queue s)).
  set (s1 := with_idx (zlen (queue s)) (with_queue (queue s ++ [v]) s)).
  assert (sched_pre (Some v) s1) as Hp1.
  { destruct Hp. split; try done. cbn. rewrite zlen_snoc. lia. }
  assert (zget (queue s1) (active_idx s1) = Some v) as Hg by apply zget_middle.
  assert (zlen (queue s1) = zlen (queue s) + 1) as El by apply zlen_snoc.
  destruct (Z.ltb_spec 1 (zlen (queue s) + 1)).
  - apply switch_ok; [by apply with_timer_pre|done|]. cbn. rewrite zlen_snoc. symmetry. apply Z.ltb_lt. lia.
  - apply switch_ok; [done|done|]. rewrite El. change (timer_on s1) with (timer_on s).
    rewrite (ok_timer s Hok). apply Z.ltb_ge in H0. rewrite H0. apply Z.ltb_ge. apply Z.ltb_ge in H0. lia.
Qed.

Definition vcpu_on_p (v : Vcpu) (entry ctx : Z) (s : Core) : Core :=
  tick_p (wakeup_p v (emit_p [EvCpuRun; EvReset v entry ctx] s)).

Lemma vcpu_on_eq fuel v entry ctx s :
  sched_ok s -> may_join v s ->
  psci_vcpu_on (interrupt_vm_inject (S fuel)) v entry ctx s = Ret tt (vcpu_on_p v entry ctx s).
Proof.
  intros Hok Hj.
  set (s1 := emit_p [EvCpuRun; EvReset v entry ctx] s).
  assert (sched_ok s1) as Hok1 by by apply emit_ok.
  assert (psci_vcpu_on (interrupt_vm_inject (S fuel)) v entry ctx s =
    (wakeup (interrupt_vm_inject (S fuel)) v >>; do_schedule (interrupt_vm_inject (S fuel))) s1) as ->.
  { unfold psci_vcpu_on. destruct Hj as (Hc & _). munfold. rewrite Hc, Z.eqb_refl. cbn [negb].
    unfold sched_emit. munfold. fold (emit_p [EvCpuRun] s). fold (emit_p [EvReset v entry ctx] (emit_p [EvCpuRun] s)).
    by rewrite emit_p_app. }
  erewrite m_bind_Ret; [|by apply wakeup_eq].
  apply do_schedule_eq. by apply ok_pre, wakeup_ok.
Qed.

Lemma tick_keeps s : sched_ok s -> sched_ok (tick_p s).
Proof.
  intros Hok. apply tick_ok; [apply Hok|apply Hok|]. intros E. pose proof (ok_idx s Hok) as Hi.
  rewrite E in Hi. unfold zlen in Hi. cbn in Hi. lia.
Qed.

Lemma vcpu_on_ok v entry ctx s : sched_ok s -> may_join v s -> sched_ok (vcpu_on_p v entry ctx s).
Proof. intros Hok Hj. by apply tick_keeps, wakeup_ok; [apply emit_ok|]. Qed.

Lemma push_int_ok v int s s' : sched_ok s -> push_int v int s = Ret tt s' -> sched_ok s'.
Proof.
  intros Hok. unfold push_int. munfold. destruct (existsb _ _); intros [= <-]; [done|].
  assert (forall w, vstate (put_cell v (mkCell (cell_state (cell s v)) (int_list (cell s v) ++ [int])) s) w
    = vstate s w) as Hs.
  { intros w. rewrite vstate_put. case_decide as E; [|done]. cbn. unfold vstate, cell. by rewrite E. }
  destruct Hok as [[] ? ? ?]. split; [split|..]; try done.
  - intros w Hw Hx. rewrite Hs. by apply pre_queued0.
  - intros w. rewrite Hs. apply pre_others0.
Qed.
