(* ===== verification/SchedSpec.v ===== *)
(** * SchedSpec: the runs of a core

    A core with its vCPU array is driven by the timer, interrupts, messages from other cores and
    its guests' own power calls.  The states it can reach keep the invariant of [SchedProps], none
    of these operations faults, and the timer serves the queued vCPUs in turn. *)
From stdpp Require Import list gmap.
From S2P Require Import Prelude Vm Sched SchedProps.

(** ** The vCPU array *)

(** The number of occupied slots. *)
Fixpoint occupied (l : list (option Vcpu)) : Z :=
  match l with
  | [] => 0
  | Some _ :: r => 1 + occupied r
  | None :: r => occupied r
  end.

Record array_ok (core : Z) (a : VcpuArray) : Prop := {
  arr_len : zlen (array a) = VM_NUM_MAX;
  arr_slot : forall i v, zget (array a) i = Some (Some v) -> vcpu_vm_id v = i /\ phys_id v = core;
  arr_count : alen a = occupied (array a);
}.

Lemma occupied_bounds l : 0 <= occupied l <= zlen l.
Proof.
  induction l as [|[v|] l IH]; cbn [occupied]; [done|..]; unfold zlen in *; cbn [length]; lia.
Qed.

Definition is_occ (o : option Vcpu) : Z := match o with Some _ => 1 | None => 0 end.

Lemma occupied_zset l i x y :
  zget l i = Some y -> occupied (zset l i x) = occupied l - is_occ y + is_occ x.
Proof.
  unfold zget, zset. destruct (0 <=? i); [|done]. generalize (Z.to_nat i). clear i. intros i.
  revert i. induction l as [|o l IH]; intros [|i]; [done|done| |].
  - intros [= ->]. cbn [insert list_insert occupied]. destruct x, y; cbn; lia.
  - intros H. specialize (IH i H). change (<[S i:=x]> (o :: l)) with (o :: <[i:=x]> l).
    cbn [occupied]. destruct o; rewrite IH; lia.
Qed.

Lemma array_new_ok core : array_ok core array_new.
Proof.
  split; [done| |done]. intros i v Hv. pose proof (zget_Some_bounds _ _ _ Hv) as Hb.
  cbn [array array_new] in *. rewrite zlen_replicate in Hb. rewrite zget_replicate in Hv by done. discriminate.
Qed.

Lemma pop_Some vm a v : pop_vcpu_through_vmid vm a = Some v <-> zget (array a) vm = Some (Some v).
Proof.
  unfold pop_vcpu_through_vmid. destruct (zget (array a) vm) as [[w|]|]; split; congruence.
Qed.

Lemma append_free core a v :
  array_ok core a -> 0 <= vcpu_vm_id v < VM_NUM_MAX -> phys_id v = core ->
  pop_vcpu_through_vmid (vcpu_vm_id v) a = None ->
  exists a', append_vcpu v a = Ret tt a' /\ array_ok core a' /\ alen a' = alen a + 1 /\
    forall vm, pop_vcpu_through_vmid vm a' =
      if decide (vm = vcpu_vm_id v) then Some v else pop_vcpu_through_vmid vm a.
Proof.
  intros [Hl Hs Hc] Hm Hp Hn. unfold append_vcpu. unfold pop_vcpu_through_vmid in Hn.
  destruct (zget_in_bounds (array a) (vcpu_vm_id v)) as [o Ho]; [by rewrite Hl|].
  rewrite Ho in Hn. subst o. rewrite Ho. pose proof (occupied_bounds (array a)) as Hb.
  rewrite <- Hc, Hl in Hb. unfold VM_NUM_MAX in Hb.
  rewrite wrap_small by (unfold in_word; lia). eexists. split; [done|]. split_and!; [|done|].
  - split; cbn [array alen].
    + by rewrite zlen_zset.
    + intros i w. rewrite zget_zset. case_decide as Hd; [|apply Hs]. intros [= <-].
      split; [apply Hd|done].
    + erewrite occupied_zset by exact Ho. cbn. lia.
  - intros vm. unfold pop_vcpu_through_vmid. cbn [array]. rewrite zget_zset, Hl.
    destruct (decide (vm = vcpu_vm_id v)) as [->|Hne]; [by rewrite decide_True|].
    rewrite decide_False; [done|]. intros [E _]. by symmetry in E.
Qed.

Lemma remove_occupied core a vm v :
  array_ok core a -> pop_vcpu_through_vmid vm a = Some v ->
  exists a', remove_vcpu vm a = Ret (v, alen a' =? 0) a' /\ array_ok core a' /\ alen a' = alen a - 1 /\
    forall k, pop_vcpu_through_vmid k a' = if decide (k = vm) then None else pop_vcpu_through_vmid k a.
Proof.
  intros [Hl Hs Hc] Hv. apply pop_Some in Hv. unfold remove_vcpu. rewrite Hv.
  pose proof (zget_Some_bounds _ _ _ Hv) as Hvm.
  pose proof (occupied_zset (array a) vm None (Some v) Hv) as Ho. cbn in Ho.
  pose proof (occupied_bounds (zset (array a) vm None)) as Hb. rewrite zlen_zset, Hl in Hb.
  unfold VM_NUM_MAX in Hb. rewrite wrap_small by (unfold in_word; lia).
  exists (mkArray (zset (array a) vm None) (alen a - 1)). split; [done|]. split_and!; [|done|].
  - split; cbn [array alen].
    + by rewrite zlen_zset.
    + intros i w. rewrite zget_zset. case_decide; [done|apply Hs].
    + lia.
  - intros k. unfold pop_vcpu_through_vmid. cbn [array]. rewrite zget_zset.
    destruct (decide (k = vm)) as [->|Hne]; [by rewrite decide_True|].
    rewrite decide_False; [done|]. intros [E _]. by symmetry in E.
Qed.

(** ** Operations from outside *)

Section runs.
(** The handlers registered for interrupts, and the interrupts of each VM. *)
Context (reserved : Z -> bool) (vm_has : Z -> Z -> bool).

Inductive sched_op :=
  | OpTick
  | OpIrq (int : Z)
  | OpInjectIpi (vm int : Z)
  | OpPush (v : Vcpu) (int : Z)
  | OpCpuOn (vm entry ctx : Z)
  | OpSuspend (x2 x3 : Z)
  | OpBoot (vm : Z)
  | OpAssign (v : Vcpu)
  | OpRemove (vm : Z).

(** Two levels of nesting are enough: an interrupt may wake a vCPU, whose pending interrupts are then
    delivered to a running vCPU. *)
Definition inj : Vcpu -> Z -> M Core unit := interrupt_vm_inject 2.

Definition run_op (o : sched_op) : M Node unit :=
  match o with
  | OpTick => on_core (do_schedule inj)
  | OpIrq int => let! n := m_get in
      on_core (interrupt_handler reserved vm_has 2 (narr n) int) >>; m_ret tt
  | OpInjectIpi vm int => let! n := m_get in
      on_core (interrupt_inject_ipi_handler 2 (narr n) vm int)
  | OpPush v int => on_core (push_int v int)
  | OpCpuOn vm entry ctx => psci_ipi_handler inj (fun _ _ => None) vm 0 PsciIpiCpuOn entry ctx
  | OpSuspend x2 x3 => on_core (psci_cpu_suspend inj x2 x3)
  | OpBoot vm => vmm_boot_vm_here inj vm
  | OpAssign v => on_core (m_modify (put_cell v cell_new)) >>; on_array (append_vcpu v)
  | OpRemove vm => vmm_cpu_remove_vcpu inj vm
  end.

Definition slot (n : Node) (vm : Z) : option Vcpu := pop_vcpu_through_vmid vm (narr n).

(** When an operation is asked for: messages name VMs with a vCPU on this core, a VM is booted
    once, a vCPU that is created has a free slot, and only a running guest suspends itself. *)
Definition op_enabled (o : sched_op) (n : Node) : Prop :=
  match o with
  | OpInjectIpi vm _ | OpRemove vm => slot n vm <> None
  | OpSuspend _ _ => active_vcpu (ncore n) <> None
  | OpBoot vm => forall v, slot n vm = Some v -> v ∉ queue (ncore n)
  | OpAssign v => slot n (vcpu_vm_id v) = None /\ 0 <= vcpu_vm_id v < VM_NUM_MAX /\
      phys_id v = core_id (ncore n)
  | _ => True
  end.

Inductive reach : Node -> Prop :=
  | reach_init id slice : reach (mkNode array_new (sched_new id slice))
  | reach_op o n n' : reach n -> op_enabled o n -> run_op o n = Ret tt n' -> reach n'.

(** *** The invariant *)

Record node_ok (n : Node) : Prop := {
  node_core : sched_ok (ncore n);
  node_array : array_ok (core_id (ncore n)) (narr n);
  node_queue : forall v, v ∈ queue (ncore n) -> slot n (vcpu_vm_id v) = Some v;
}.

Lemma slot_facts n vm v :
  node_ok n -> slot n vm = Some v -> vcpu_vm_id v = vm /\ phys_id v = core_id (ncore n) /\
    0 <= vm < VM_NUM_MAX.
Proof.
  intros [_ Ha _] Hv%pop_Some. destruct (arr_slot _ _ Ha _ _ Hv) as [E Hp].
  pose proof (zget_Some_bounds _ _ _ Hv) as Hb. rewrite (arr_len _ _ Ha) in Hb. done.
Qed.

(** A vCPU of the array that is not queued may join the queue. *)
Lemma slot_join n vm v :
  node_ok n -> slot n vm = Some v -> v ∉ queue (ncore n) -> may_join v (ncore n).
Proof.
  intros Hok Hv Hq. destruct (slot_facts n vm v Hok Hv) as (E & Hp & Hb). split_and!; [done|lia|lia|].
  intros (w & Ew & Hw)%list_elem_of_fmap. pose proof (node_queue n Hok w Hw) as Hs.
  rewrite <- Ew, E, Hv in Hs. congruence.
Qed.

Lemma queued_awake s v : sched_ok s -> v ∈ queue s -> awake (vstate s v) = true.
Proof. intros Hok Hv. rewrite (pre_queued _ _ (ok_pre s Hok) v Hv) by done. by case_decide. Qed.

Lemma asleep_join n vm v :
  node_ok n -> slot n vm = Some v -> awake (vstate (ncore n) v) = false -> may_join v (ncore n).
Proof.
  intros Hok Hv Hs. eapply slot_join; [done|done|]. intros Hq.
  rewrite (queued_awake _ _ (node_core n Hok) Hq) in Hs. done.
Qed.

(** A step of the core alone keeps the invariant when the vCPUs it queues are in the array. *)
Lemma core_step n s' :
  node_ok n -> sched_ok s' -> core_id s' = core_id (ncore n) ->
  (forall v, v ∈ queue s' -> v ∈ queue (ncore n) \/ slot n (vcpu_vm_id v) = Some v) ->
  node_ok (mkNode (narr n) s').
Proof.
  intros Hok Hs Hc Hq. split; [done| |].
  - cbn. rewrite Hc. apply Hok.
  - intros v [Hv|Hv]%Hq; [by apply (node_queue n Hok)|done].
Qed.

Lemma tick_fields s : core_id (tick_p s) = core_id s /\ queue (tick_p s) = queue s.
Proof.
  unfold tick_p. destruct (zget _ _) as [v|]; [|by destruct (ctx_null s)].
  by destruct (switch_fields v (with_idx (succ_idx s) s)) as (-> & -> & _).
Qed.

Lemma enqueue_core v s : core_id (enqueue v s) = core_id s.
Proof. unfold enqueue. by destruct (1 <? _). Qed.

Lemma wakeup_fields v s : core_id (wakeup_p v s) = core_id s /\ queue (wakeup_p v s) = queue s ++ [v].
Proof.
  unfold wakeup_p. destruct (_ =? 1); [destruct (tick_fields (enqueue v s)) as [-> ->]|];
    by rewrite enqueue_core, enqueue_queue.
Qed.

Lemma inject_fields v int s :
  core_id (inject_p v int s) = core_id s /\
  queue (inject_p v int s) = match vstate s v with Sleep => queue s ++ [v] | _ => queue s end.
Proof. unfold inject_p. destruct (vstate s v); try done. apply (wakeup_fields v (emit_p [EvCpuRun] s)). Qed.

Lemma sleep_fields v l k s :
  core_id (sleep_p v l k s) = core_id s /\ queue (sleep_p v l k s) = l ++ k.
Proof.
  unfold sleep_p. set (x := remove_p _ _ _ _ _). destruct (timer_p_fields x) as (Eq & _ & _ & Ec).
  destruct (_ =? active_idx s); [destruct (tick_fields (timer_p x)) as [-> ->]|]; by rewrite Ec, Eq.
Qed.

Lemma yield_fields v s : core_id (yield_p v s) = core_id s /\ queue (yield_p v s) = queue s ++ [v].
Proof.
  unfold yield_p. cbn [queue with_queue with_idx].
  match goal with |- context [switch v ?x] => destruct (switch_fields v x) as (-> & -> & _) end.
  by destruct (1 <? _).
Qed.

(** *** Each operation returns and keeps the invariant *)

Lemma on_core_Ret {A} (m : M Core A) n a s' :
  m (ncore n) = Ret a s' -> on_core m n = Ret a (mkNode (narr n) s').
Proof. unfold on_core. by intros ->. Qed.

Lemma emit_node n es : node_ok n -> node_ok (mkNode (narr n) (emit_p es (ncore n))).
Proof. intros Hok. apply core_step; [done|by apply emit_ok, Hok|done|by left]. Qed.

Lemma sched_emit_eq e s : sched_emit e s = Ret tt (emit_p [e] s).
Proof. done. Qed.

Lemma tick_node n : node_ok n ->
  do_schedule inj (ncore n) = Ret tt (tick_p (ncore n)) /\ node_ok (mkNode (narr n) (tick_p (ncore n))).
Proof.
  intros Hok. split; [apply do_schedule_eq, ok_pre, Hok|]. destruct (tick_fields (ncore n)) as [Ec Eq].
  apply core_step; [done|by apply tick_keeps, Hok|done|rewrite Eq; by left].
Qed.

Lemma inject_node n vm v int :
  node_ok n -> slot n vm = Some v ->
  interrupt_vm_inject 2 v int (ncore n) = Ret tt (inject_p v int (ncore n)) /\
  node_ok (mkNode (narr n) (inject_p v int (ncore n))).
Proof.
  intros Hok Hv. destruct (slot_facts n vm v Hok Hv) as (Em & Hp & _).
  assert (vstate (ncore n) v = Sleep -> may_join v (ncore n)) as Hj.
  { intros E. eapply asleep_join; [done|done|]. by rewrite E. }
  split; [apply inject_eq; [apply Hok|done|done]|].
  destruct (inject_fields v int (ncore n)) as [Ec Eq].
  apply core_step; [done|apply inject_ok; [apply Hok|done]|done|]. rewrite Eq. intros w Hw.
  assert (w ∈ queue (ncore n) \/ w = v) as [| ->]; [|by left|right; by rewrite Em].
  destruct (vstate (ncore n) v); try (by left).
  apply elem_of_app in Hw as [|Hw%list_elem_of_singleton]; [by left|by right].
Qed.

Lemma handler_search_node n int l :
  node_ok n -> (forall v, Some v ∈ l -> slot n (vcpu_vm_id v) = Some v) ->
  exists b s', handler_search vm_has 2 int l (ncore n) = Ret b s' /\ node_ok (mkNode (narr n) s').
Proof.
  intros Hok. assert (node_ok (mkNode (narr n) (ncore n))) as Hn by by destruct n.
  induction l as [|[v|] l IH]; intros Hl; cbn [handler_search].
  - by exists true, (ncore n).
  - destruct (vm_has (vcpu_vm_id v) int); [|apply IH; intros w Hw; apply Hl; by right].
    destruct (inject_node n (vcpu_vm_id v) v int) as [E Hi]; [done|apply Hl; by left|].
    unfold m_bind at 1. unfold m_get.
    destruct (vstate (ncore n) v); [by exists true, (ncore n)|..|by exists true, (ncore n)].
    all: exists false; eexists; split; [erewrite m_bind_Ret by exact E; done|done].
  - apply IH. intros w Hw. apply Hl. by right.
Qed.

Lemma irq_node n int : node_ok n -> exists b s',
  interrupt_handler reserved vm_has 2 (narr n) int (ncore n) = Ret b s' /\ node_ok (mkNode (narr n) s').
Proof.
  intros Hok. assert (node_ok (mkNode (narr n) (ncore n))) as Hn by by destruct n.
  unfold interrupt_handler. destruct (reserved int); [by exists true, (ncore n)|].
  unfold m_bind at 1. unfold m_get.
  destruct (if (16 <=? int) && (int <? 32) then active_vcpu (ncore n) else None) as [v|] eqn:Ea.
  - destruct (vm_has (vcpu_vm_id v) int); [|by exists true, (ncore n)].
    assert (v ∈ queue (ncore n)) as Hq.
    { apply (pre_active _ _ (ok_pre _ (node_core n Hok))). by destruct (_ && _). }
    destruct (inject_node n (vcpu_vm_id v) v int) as [E Hi]; [done|by apply Hok|].
    exists false. eexists. split; [erewrite m_bind_Ret by exact E; done|done].
  - apply handler_search_node; [done|]. intros v (i & Hi)%list_elem_of_lookup. apply pop_Some.
    assert (zget (array (narr n)) (Z.of_nat i) = Some (Some v)) as Hz.
    { unfold zget. rewrite (proj2 (Z.leb_le _ _)) by lia. by rewrite Nat2Z.id. }
    destruct (arr_slot _ _ (node_array n Hok) _ _ Hz) as [-> _]. done.
Qed.

Lemma suspend_node n x2 x3 v :
  node_ok n -> active_vcpu (ncore n) = Some v ->
  exists l k, queue (ncore n) = l ++ v :: k /\
    psci_cpu_suspend inj x2 x3 (ncore n) = Ret tt (sleep_p v l k (emit_p [EvReset v x2 x3] (ncore n))) /\
    node_ok (mkNode (narr n) (sleep_p v l k (emit_p [EvReset v x2 x3] (ncore n)))).
Proof.
  intros Hok Ha. pose proof (node_core n Hok) as Hs.
  destruct (list_elem_of_split (queue (ncore n)) v) as (l & k & E).
  { by apply (pre_active _ _ (ok_pre _ Hs)). }
  set (s1 := emit_p [EvReset v x2 x3] (ncore n)).
  assert (sched_ok s1) as Hs1 by by apply emit_ok.
  exists l, k. split_and!; [done| |].
  - unfold psci_cpu_suspend. unfold m_get. unfold m_bind at 1. rewrite Ha. cbn [m_opt]. rewrite m_bind_ret.
    rewrite (m_bind_Ret _ _ _ _ _ (sched_emit_eq (EvReset v x2 x3) (ncore n))). by apply sleep_eq.
  - destruct (sleep_fields v l k s1) as [Ec Eq]. apply core_step; [done|by apply sleep_ok|done|].
    rewrite Eq, E. intros w Hw. left. rewrite <- Permutation_middle. by right.
Qed.

Lemma boot_node n vm v :
  node_ok n -> slot n vm = Some v -> v ∉ queue (ncore n) ->
  yield_to inj v (ncore n) = Ret tt (yield_p v (ncore n)) /\ node_ok (mkNode (narr n) (yield_p v (ncore n))).
Proof.
  intros Hok Hv Hq. destruct (slot_facts n vm v Hok Hv) as (Em & Hp & _).
  split; [by apply yield_eq|]. destruct (yield_fields v (ncore n)) as [Ec Eq].
  apply core_step; [done|apply yield_ok; [apply Hok|by eapply slot_join]|done|]. rewrite Eq.
  intros w [Hw|Hw%list_elem_of_singleton]%elem_of_app; [by left|right]. by rewrite Hw, Em.
Qed.

Lemma cpu_on_node n vm v entry ctx :
  node_ok n -> slot n vm = Some v -> vstate (ncore n) v = Invalid ->
  psci_vcpu_on inj v entry ctx (ncore n) = Ret tt (vcpu_on_p v entry ctx (ncore n)) /\
  node_ok (mkNode (narr n) (vcpu_on_p v entry ctx (ncore n))).
Proof.
  intros Hok Hv Hi. destruct (slot_facts n vm v Hok Hv) as (Em & Hp & _).
  assert (may_join v (ncore n)) as Hj by (eapply asleep_join; [done|done|by rewrite Hi]).
  split; [apply vcpu_on_eq; [apply Hok|done]|]. unfold vcpu_on_p.
  set (s1 := emit_p _ _). destruct (wakeup_fields v s1) as [Ec Eq].
  destruct (tick_fields (wakeup_p v s1)) as [Ec2 Eq2].
  apply core_step; [done|by apply vcpu_on_ok; [apply Hok|]|by rewrite Ec2|]. rewrite Eq2, Eq.
  intros w [Hw|Hw%list_elem_of_singleton]%elem_of_app; [by left|right]. by rewrite Hw, Em.
Qed.

Lemma slot_unqueued n vm :
  node_ok n -> slot n vm = None -> vm ∉ vcpu_vm_id <$> queue (ncore n).
Proof.
  intros Hok Hn (w & -> & Hw)%list_elem_of_fmap. rewrite (node_queue n Hok w Hw) in Hn. done.
Qed.

Lemma assign_node n v :
  node_ok n -> op_enabled (OpAssign v) n ->
  exists n', run_op (OpAssign v) n = Ret tt n' /\ node_ok n'.
Proof.
  intros Hok (Hn & Hb & Hp).
  destruct (append_free (core_id (ncore n)) (narr n) v) as (a' & Ea & Ha & _ & Hpop); [apply Hok|done..|].
  exists (mkNode a' (put_cell v cell_new (ncore n))). split.
  - cbn [run_op]. erewrite m_bind_Ret by by apply on_core_Ret. unfold on_array. cbn [narr ncore].
    by rewrite Ea.
  - pose proof (slot_unqueued n _ Hok Hn) as Hq. split; [apply unqueued_cell_ok; [apply Hok|done|done]|done|].
    intros w Hw. unfold slot. cbn [narr]. rewrite Hpop, decide_False; [by apply Hok|].
    intros E. apply Hq. rewrite <- E. by apply list_elem_of_fmap_2.
Qed.

(** Removing the core's vCPU of a VM: the slot is freed and the vCPU leaves the queue. *)
Lemma remove_node n vm :
  node_ok n -> slot n vm <> None ->
  exists n', run_op (OpRemove vm) n = Ret tt n' /\ node_ok n' /\ slot n' vm = None.
Proof.
  intros Hok Hv. destruct (slot n vm) as [v|] eqn:Es; [|done].
  destruct (slot_facts n vm v Hok Es) as (Em & Hp & _).
  destruct (remove_occupied (core_id (ncore n)) (narr n) vm v) as (a' & Er & Ha & _ & Hpop); [apply Hok|done|].
  set (s0 := if alen a' =? 0 then emit_p [EvCpuInt 27 false] (ncore n) else ncore n).
  assert (sched_ok s0) as Hs0.
  { unfold s0. destruct (_ =? 0); [apply emit_ok|]; apply Hok. }
  assert (core_id s0 = core_id (ncore n) /\ queue s0 = queue (ncore n)) as [Ec0 Eq0]
    by (unfold s0; by destruct (_ =? 0)).
  assert (exists s1, sleep inj v s0 = Ret tt s1 /\ sched_ok s1 /\ core_id s1 = core_id (ncore n) /\
    (forall w, w ∈ queue s1 -> w ∈ queue (ncore n) /\ vcpu_vm_id w <> vm)) as (s1 & E1 & Hok1 & Ec1 & Hq1).
  { destruct (decide (v ∈ queue s0)) as [Hq|Hq].
    - destruct (list_elem_of_split _ _ Hq) as (l & k & E).
      exists (sleep_p v l k s0). destruct (sleep_fields v l k s0) as [Ec Eq].
      split_and!; [by apply sleep_eq|by apply sleep_ok|by rewrite Ec|]. rewrite Eq. intros w Hw.
      destruct (middle_fresh None s0 v l k (ok_pre _ Hs0) E) as (_ & _ & Hnv).
      assert (w ∈ queue s0) as Hw0 by (rewrite E, <- Permutation_middle; by right).
      split; [by rewrite <- Eq0|]. intros Ew. apply Hnv.
      by rewrite (same_vm_same None s0 v w (ok_pre _ Hs0) Hq Hw0) by congruence.
    - rewrite Eq0 in Hq. destruct (slot_join n vm v Hok Es Hq) as (_ & _ & Hnv).
      exists (state_p v Sleep s0). rewrite <- Eq0 in Hnv.
      split_and!; [by apply sleep_absent|by apply unqueued_cell_ok|done|]. intros w Hw.
      change (queue (state_p v Sleep s0)) with (queue s0) in Hw. split; [by rewrite <- Eq0|].
      intros Ew. apply Hnv. rewrite Em, <- Ew. by apply list_elem_of_fmap_2. }
  exists (mkNode a' (if alen a' =? 0 then emit_p [EvClearIrq; EvIdle] s1 else s1)). split_and!.
  - cbn [run_op]. unfold vmm_cpu_remove_vcpu, on_array, on_core. munfold. rewrite Er. cbn [narr ncore].
    unfold s0 in E1. destruct (alen a' =? 0) eqn:E0.
    + rewrite sched_emit_eq. cbn [narr ncore]. rewrite E1. cbn [narr ncore]. rewrite E0.
      cbn [narr ncore]. by rewrite sched_emit_eq, sched_emit_eq, emit_p_app.
    + cbn [narr ncore]. rewrite E1. cbn [narr ncore]. by rewrite E0.
  - assert (node_ok (mkNode a' s1)) as Hn1.
    { split; [done|cbn; by rewrite Ec1|]. intros w Hw. destruct (Hq1 w Hw) as [Hw0 Hne].
      unfold slot. cbn [narr]. rewrite Hpop, decide_False by done. by apply Hok. }
    destruct (alen a' =? 0); [by apply (emit_node (mkNode a' s1))|done].
  - unfold slot. cbn [narr]. rewrite Hpop. by rewrite decide_True.
Qed.

Lemma op_node o n :
  node_ok n -> op_enabled o n -> exists n', run_op o n = Ret tt n' /\ node_ok n'.
Proof.
  intros Hok He.
  assert (node_ok (mkNode (narr n) (ncore n))) as Hn by by destruct n.
  destruct o as [|int|vm int|v int|vm entry ctx|x2 x3|vm|v|vm]; cbn [run_op op_enabled] in *.
  - destruct (tick_node n Hok) as [E Hi]. eexists. split; [by apply on_core_Ret|done].
  - destruct (irq_node n int Hok) as (b & s' & E & Hi). eexists. split; [|exact Hi].
    munfold. unfold on_core. by rewrite E.
  - destruct (slot n vm) as [v|] eqn:Es; [|done].
    destruct (inject_node n vm v int Hok Es) as [E Hi]. eexists. split; [|exact Hi].
    munfold. apply on_core_Ret. unfold interrupt_inject_ipi_handler. unfold slot in Es. by rewrite Es.
  - unfold on_core. destruct (push_int v int (ncore n)) as [[] s'|] eqn:E.
    + eexists. split; [done|]. apply core_step; [done|eapply push_int_ok; [apply Hok|exact E]|..];
        unfold push_int, m_modify in E; destruct (existsb _ _); injection E as <-; intros; by auto.
    + unfold push_int, m_modify in E. by destruct (existsb _ _).
  - unfold psci_ipi_handler. rewrite m_bind_ret. unfold m_get, m_bind.
    destruct (pop_vcpu_through_vmid vm (narr n)) as [v|] eqn:Es; [|by exists n].
    destruct (vstate (ncore n) v) eqn:Ev; try (by exists n).
    destruct (cpu_on_node n vm v entry ctx Hok Es Ev) as [E Hi].
    eexists. split; [by apply on_core_Ret|done].
  - destruct (active_vcpu (ncore n)) as [v|] eqn:Ea; [|done].
    destruct (suspend_node n x2 x3 v Hok Ea) as (l & k & _ & E & Hi).
    eexists. split; [by apply on_core_Ret|done].
  - unfold vmm_boot_vm_here. unfold m_get. unfold m_bind at 1.
    destruct (pop_vcpu_through_vmid vm (narr n)) as [v|] eqn:Es; [|by exists n].
    pose proof (emit_node n [EvClearIrq] Hok) as Hok1. set (n1 := mkNode _ _) in Hok1.
    destruct (boot_node n1 vm v Hok1 Es) as [E Hi]; [by apply He|].
    assert (on_core (sched_emit EvClearIrq) n = Ret tt n1) as E0 by done.
    eexists. split; [rewrite (m_bind_Ret _ _ _ _ _ E0), (m_bind_Ret _ _ _ _ _ (on_core_Ret _ _ _ _ E)); by apply on_core_Ret|].
    by apply (emit_node (mkNode (narr n1) (yield_p v (ncore n1)))).
  - by apply assign_node.
  - destruct (remove_node n vm Hok He) as (n' & E & Hi & _). by exists n'.
Qed.

Lemma sched_new_ok id slice : sched_ok (sched_new id slice).
Proof.
  split; [split|..]; cbn; try done; try lia.
  - apply NoDup_nil_2.
  - by intros v Hv%elem_of_nil.
  - by intros v Hv%elem_of_nil.
Qed.

Lemma reach_ok n : reach n -> node_ok n.
Proof.
  induction 1 as [id slice|o n n' Hr IH He Hrun].
  - split; [apply sched_new_ok|apply array_new_ok|]. by intros v Hv%elem_of_nil.
  - destruct (op_node o n IH He) as (n1 & E & Hi). rewrite Hrun in E. by injection E as <-.
Qed.
End runs.

(** *** Checking a run by evaluation *)

#[export] Instance op_enabled_dec o n : Decision (op_enabled o n).
Proof.
  destruct o as [|int|vm int|v int|vm entry ctx|x2 x3|vm|v|vm]; cbn [op_enabled]; try apply _.
  destruct (slot n vm) as [v|].
  - destruct (decide (v ∈ queue (ncore n))) as [H|H]; [right|left].
    + intros Hn. by apply (Hn v).
    + intros w [= <-]. done.
  - by left.
Defined.

Fixpoint run_ops (reserved : Z -> bool) (vm_has : Z -> Z -> bool) (ops : list sched_op) (n : Node) : option Node :=
  match ops with
  | [] => Some n
  | o :: ops' =>
      if decide (op_enabled o n) then
        match run_op reserved vm_has o n with
        | Ret _ n' => run_ops reserved vm_has ops' n'
        | Fault _ => None
        end
      else None
  end.

Lemma run_ops_reach reserved vm_has ops n n' :
  reach reserved vm_has n -> run_ops reserved vm_has ops n = Some n' -> reach reserved vm_has n'.
Proof.
  revert n. induction ops as [|o ops IH]; cbn [run_ops]; intros n Hr; [by intros [= <-]|].
  case_decide as He; [|done]. destruct (run_op reserved vm_has o n) as [[] n1|] eqn:E; [|done].
  apply IH. by eapply reach_op.
Qed.

(** Three VMs booted on core 0; the last one runs. *)
Definition demo_vcpu (vm : Z) : Vcpu := mkVcpu 0 0 vm.
Definition demo_ops : list sched_op :=
  [OpAssign (demo_vcpu 0); OpAssign (demo_vcpu 1); OpAssign (demo_vcpu 2); OpBoot 0; OpBoot 1; OpBoot 2].
Definition demo_has (vm int : Z) : bool := int =? 40 + vm.
Definition demo_node (ops : list sched_op) : Node :=
  default (mkNode array_new (sched_new 0 1))
    (run_ops (fun _ => false) demo_has ops (mkNode array_new (sched_new 0 1))).

Lemma demo_reach ops : reach (fun _ => false) demo_has (demo_node ops).
Proof.
  unfold demo_node. destruct (run_ops _ _ _ _) as [n|] eqn:E; [|apply reach_init].
  eapply run_ops_reach; [apply reach_init|exact E].
Qed.

(** ** What a run guarantees *)

(** An operation that finds nobody to act on. *)
Definition no_target (o : sched_op) (n : Node) : Prop :=
  match o with
  | OpInjectIpi vm _ | OpRemove vm => slot n vm = None
  | OpSuspend _ _ => active_vcpu (ncore n) = None
  | _ => False
  end.

Lemma no_target_faults reserved vm_has o n : no_target o n -> exists f, run_op reserved vm_has o n = Fault f.
Proof.
  unfold no_target, slot. destruct o; try done; intros H; cbn [run_op]; eexists.
  - unfold m_bind, m_get, on_core, interrupt_inject_ipi_handler. rewrite H. reflexivity.
  - unfold on_core, psci_cpu_suspend, m_bind, m_get. rewrite H. reflexivity.
  - unfold vmm_cpu_remove_vcpu, m_bind, on_array, remove_vcpu. unfold pop_vcpu_through_vmid in H.
    destruct (zget _ _) as [[v|]|]; [discriminate H|reflexivity..].
Qed.

(** C13. A core is asked for timer ticks, interrupts, messages, power calls, the booting, creation and removal of VMs, each
    within its contract ([op_enabled]): an injection or a removal names a VM with a vCPU on the core, only a running guest
    suspends itself, a VM is booted while its vCPU is not queued, and a vCPU is created for this core and a free place of its
    array.  On every state reached in this way: the queue holds at most one vCPU of a VM, each one the
    core's vCPU of its VM; the active vCPU is the one [active_idx] points at and there is one
    exactly when the queue is not empty; of the core's vCPUs the active one alone is [Running],
    and those that are [Running] or [Ready] are the queued ones; the tick is on exactly when two
    vCPUs share the core.  No operation within its contract faults; an injection or removal for a VM without a vCPU
    here, and a suspend without a running guest, panic. *)
Theorem sched_active_is_running reserved vm_has n :
  reach reserved vm_has n ->
  let s := ncore n in
  NoDup (vcpu_vm_id <$> queue s) /\
  (forall v, v ∈ queue s -> slot n (vcpu_vm_id v) = Some v /\ phys_id v = core_id s) /\
  active_vcpu s = zget (queue s) (active_idx s) /\
  (active_vcpu s = None <-> queue s = []) /\
  (forall vm v, slot n vm = Some v -> (vstate s v = Running <-> active_vcpu s = Some v)) /\
  (forall vm v, slot n vm = Some v ->
    (vstate s v = Running \/ vstate s v = Ready <-> v ∈ queue s)) /\
  timer_on s = (1 <? zlen (queue s)) /\
  (forall o, op_enabled o n -> exists n', run_op reserved vm_has o n = Ret tt n') /\
  (forall o, no_target o n -> exists f, run_op reserved vm_has o n = Fault f).
Proof.
  intros Hr s. pose proof (reach_ok _ _ n Hr) as Hok. pose proof (node_core n Hok) as Hs. fold s in Hs.
  assert (forall vm v, slot n vm = Some v -> awake (vstate s v) = true -> v ∈ queue s) as Haw.
  { intros vm v Hv Ha. destruct (slot_facts n vm v Hok Hv) as (Em & _).
    pose proof (pre_others _ _ (ok_pre s Hs) v Ha) as (w & Ek & Hw)%list_elem_of_fmap.
    injection Ek as Ek _. pose proof (node_queue n Hok w Hw) as Hsw. rewrite <- Ek, Em, Hv in Hsw.
    by injection Hsw as ->. }
  pose proof (pre_queued _ _ (ok_pre s Hs)) as Hq.
  assert (forall v, active_vcpu s = Some v -> v ∈ queue s) as Hact by apply Hs.
  split_and!.
  - apply Hs.
  - intros v Hv. split; [by apply Hok|by apply (pre_here _ _ (ok_pre s Hs))].
  - apply Hs.
  - rewrite (ok_active s Hs). split; [|intros ->; apply zget_nil]. intros Hn%zget_None.
    pose proof (ok_idx s Hs) as Hi. destruct (queue s); [done|]. unfold zlen in *. cbn [length] in *. lia.
  - intros vm v Hv. split.
    + intros E. specialize (Haw vm v Hv). rewrite E in Haw. specialize (Haw eq_refl).
      rewrite (Hq v Haw) in E by done. by case_decide.
    + intros Ea. rewrite (Hq v) by (done || by apply Hact). by rewrite decide_True.
  - intros vm v Hv. split.
    + intros E. apply (Haw vm v Hv). by destruct E as [-> | ->].
    + intros Hin. rewrite (Hq v Hin) by done. case_decide; [by left|by right].
  - apply Hs.
  - intros o Ho. destruct (op_node reserved vm_has o n Hok Ho) as (n' & E & _). by exists n'.
  - intros o. apply no_target_faults.
Qed.

(** Outside of the contract: a VM that runs is booted again.  Its vCPU is then queued twice, and has two turns. *)
Lemma boot_again_queues_twice : exists n', run_op (fun _ => false) demo_has (OpBoot 2) (demo_node demo_ops) = Ret tt n' /\
  queue (ncore n') = [demo_vcpu 0; demo_vcpu 1; demo_vcpu 2; demo_vcpu 2].
Proof. eexists. split; vm_compute; reflexivity. Qed.

Lemma sched_active_is_running_witness :
  timer_on (ncore (demo_node demo_ops)) = true /\
  vstate (ncore (demo_node demo_ops)) (demo_vcpu 2) = Running /\
  exists n', run_op (fun _ => false) demo_has (OpRemove 2) (demo_node demo_ops) = Ret tt n'.
Proof.
  destruct (sched_active_is_running _ _ _ (demo_reach demo_ops)) as (_ & _ & _ & _ & Hv & _ & Ht & Hp & _).
  split; [rewrite Ht; vm_compute; reflexivity|]. split.
  - apply (Hv 2); vm_compute; reflexivity.
  - apply Hp. apply (bool_decide_unpack _). vm_compute. exact I.
Defined.

(** [k] timer ticks. *)
Fixpoint ticks (k : nat) : M Core unit :=
  match k with O => m_ret tt | S k' => ticks k' >>; do_schedule inj end.

Lemma tick_succ s :
  sched_ok s -> queue s <> [] ->
  queue (tick_p s) = queue s /\ active_idx (tick_p s) = succ_idx s.
Proof.
  intros Hok Hq. split; [apply tick_fields|]. unfold tick_p.
  destruct (succ_idx_get None s Hok Hq) as (v & -> & _).
  by destruct (switch_fields v (with_idx (succ_idx s) s)) as (_ & _ & -> & _).
Qed.

Lemma ticks_eq k s :
  sched_ok s -> queue s <> [] ->
  exists s', ticks k s = Ret tt s' /\ sched_ok s' /\ queue s' = queue s /\
    active_idx s' = (active_idx s + Z.of_nat k) mod zlen (queue s).
Proof.
  intros Hok Hq. induction k as [|k (s' & E & Hok' & Eq & Ei)].
  - exists s. split_and!; try done. pose proof (ok_idx s Hok) as Hi.
    assert (0 < zlen (queue s)) by (destruct (queue s); [done|]; unfold zlen; cbn [length]; lia).
    rewrite Z.mod_small by lia. lia.
  - exists (tick_p s'). cbn [ticks]. rewrite (m_bind_Ret _ _ _ _ _ E).
    destruct (tick_succ s' Hok') as [Eq2 Ei2]; [by rewrite Eq|].
    split_and!; [by apply do_schedule_eq, Hok'|by apply tick_keeps|congruence|].
    rewrite Ei2. unfold succ_idx. rewrite Eq, Ei, Zplus_mod_idemp_l. f_equal. lia.
Qed.

(** C26. The timer serves the queue in turn: after [k] ticks the queue is what it was and the active
    vCPU is the [k]-th after the one that was active, cyclically; so every queued vCPU gets the
    core within as many ticks as there are vCPUs in the queue. *)
Theorem sched_round_robin reserved vm_has n k :
  reach reserved vm_has n -> queue (ncore n) <> [] ->
  let s := ncore n in
  (exists s', ticks k s = Ret tt s' /\ queue s' = queue s /\
    active_vcpu s' = zget (queue s) ((active_idx s + Z.of_nat k) mod zlen (queue s))) /\
  (forall v, v ∈ queue s -> exists j s', (1 <= j <= length (queue s))%nat /\
    ticks j s = Ret tt s' /\ active_vcpu s' = Some v /\ vstate s' v = Running).
Proof.
  intros Hr Hq s. pose proof (node_core n (reach_ok _ _ n Hr)) as Hok. fold s in Hok, Hq.
  split.
  - destruct (ticks_eq k s Hok Hq) as (s' & E & Hok' & Eq & Ei). exists s'. split_and!; [done|done|].
    by rewrite (ok_active s' Hok'), Eq, Ei.
  - intros v (i & Hi)%list_elem_of_lookup. pose proof (lookup_lt_Some _ _ _ Hi) as Hlt.
    pose proof (ok_idx s Hok) as Hidx. unfold zlen in Hidx.
    set (len := Z.of_nat (length (queue s))) in *.
    set (d := (Z.of_nat i - active_idx s - 1) mod len).
    assert (0 <= d < len) as Hd by (apply Z.mod_pos_bound; lia).
    destruct (ticks_eq (Z.to_nat (d + 1)) s Hok Hq) as (s' & E & Hok' & Eq & Ei).
    exists (Z.to_nat (d + 1)), s'.
    assert (active_vcpu s' = Some v) as Ha.
    { rewrite (ok_active s' Hok'), Eq, Ei, Z2Nat.id by lia. unfold zlen. fold len.
      replace (active_idx s + (d + 1)) with (active_idx s + 1 + d) by lia. unfold d.
      rewrite Zplus_mod_idemp_r. replace (active_idx s + 1 + (Z.of_nat i - active_idx s - 1)) with (Z.of_nat i) by lia.
      rewrite Z.mod_small by lia. unfold zget. rewrite (proj2 (Z.leb_le _ _)) by lia. by rewrite Nat2Z.id. }
    split_and!; [lia|lia|done|done|].
    rewrite (pre_queued _ _ (ok_pre _ Hok')) by (done || by apply (pre_active _ _ (ok_pre _ Hok'))).
    by rewrite decide_True.
Qed.

Lemma sched_round_robin_witness :
  exists s', ticks 2 (ncore (demo_node demo_ops)) = Ret tt s' /\ active_vcpu s' = Some (demo_vcpu 1).
Proof.
  destruct (sched_round_robin _ _ (demo_node demo_ops) 2 (demo_reach demo_ops)) as [(s' & E & _ & A) _].
  - vm_compute. discriminate.
  - exists s'. split; [exact E|]. rewrite A. vm_compute. reflexivity.
Defined.

(** ** Suspending *)

Lemma zget_delete {A} (l k : list A) a j :
  0 <= j -> zget (l ++ k) j = zget (l ++ a :: k) (if j <? zlen l then j else j + 1).
Proof.
  intros Hj. unfold zget, zlen. destruct (Z.ltb_spec j (Z.of_nat (length l))).
  - rewrite !(proj2 (Z.leb_le _ _)) by lia. by rewrite !lookup_app_l by lia.
  - rewrite !(proj2 (Z.leb_le _ _)) by lia. rewrite !lookup_app_r by lia.
    by replace (Z.to_nat (j + 1) - length l)%nat with (S (Z.to_nat j - length l)) by lia.
Qed.

(** The place two after [a], once the element at [a] is gone: [b] elements follow it. *)
Lemma skip_index a b :
  0 <= a -> 0 <= b -> 3 <= a + 1 + b ->
  (if (a + 1) mod (a + b) <? a then (a + 1) mod (a + b) else (a + 1) mod (a + b) + 1)
    = (a + 2) mod (a + 1 + b).
Proof.
  intros. destruct (decide (2 <= b)); [|destruct (decide (b = 1)) as [->|]; [|assert (b = 0) as -> by lia]].
  - rewrite !Z.mod_small by lia. rewrite (proj2 (Z.ltb_ge _ _)); lia.
  - replace (a + 2) with (a + 1 + 1) by lia. rewrite !Z_mod_same_full. by rewrite (proj2 (Z.ltb_lt _ _)) by lia.
  - rewrite <- (Z.mod_unique (a + 1) (a + 0) 1 1), <- (Z.mod_unique (a + 2) (a + 1 + 0) 1 1) by lia.
    by rewrite (proj2 (Z.ltb_lt _ _)) by lia.
Qed.

Lemma mod_succ_ne a m : 2 <= m -> (a + 1) mod m <> (a + 2) mod m.
Proof.
  intros Hm E. assert ((a + 2 - (a + 1)) mod m = 0) as H.
  { rewrite Zminus_mod, E, Z.sub_diag. apply Z.mod_0_l. lia. }
  replace (a + 2 - (a + 1)) with 1 in H by lia. rewrite Z.mod_small in H; lia.
Qed.

Lemma zget_NoDup {A} (l : list A) i j :
  zget l i = zget l j -> NoDup l -> 0 <= i < zlen l -> 0 <= j < zlen l -> i = j.
Proof.
  unfold zget, zlen. intros E Hn Hi Hj. rewrite !(proj2 (Z.leb_le _ _)) in E by lia.
  destruct (lookup_lt_is_Some_2 l (Z.to_nat i)) as [x Hx]; [lia|].
  pose proof (NoDup_lookup l (Z.to_nat i) (Z.to_nat j) x Hn Hx). rewrite <- E, Hx in H. specialize (H eq_refl). lia.
Qed.

(** A guest that suspends itself while at least three vCPUs share the core hands it to the vCPU
    after next: the one that was next in line, which a timer tick would have chosen, is passed
    over ([sleep] leaves [active_idx] at the freed place, where the next in line now is, and
    [next] starts one place further). *)
Theorem sched_suspend_skips_next reserved vm_has n x2 x3 :
  reach reserved vm_has n -> 3 <= zlen (queue (ncore n)) ->
  let s := ncore n in
  exists s1 s2,
    do_schedule inj s = Ret tt s1 /\
    active_vcpu s1 = zget (queue s) ((active_idx s + 1) mod zlen (queue s)) /\
    psci_cpu_suspend inj x2 x3 s = Ret tt s2 /\
    active_vcpu s2 = zget (queue s) ((active_idx s + 2) mod zlen (queue s)) /\
    active_vcpu s1 <> active_vcpu s2.
Proof.
  intros Hr Hlen s. pose proof (reach_ok _ _ n Hr) as Hok. pose proof (node_core n Hok) as Hs. fold s in Hs, Hlen.
  assert (queue s <> []) as Hne by (intros E; rewrite E in Hlen; unfold zlen in Hlen; cbn in Hlen; lia).
  destruct (active_vcpu s) as [v|] eqn:Ea.
  2: { rewrite (ok_active s Hs) in Ea. apply zget_None in Ea. pose proof (ok_idx s Hs). lia. }
  destruct (suspend_node n x2 x3 v Hok Ea) as (l & k & Eq & E2 & Hn2). fold s in Eq, E2, Hn2.
  assert (active_vcpu (tick_p s) = zget (queue s) (succ_idx s)) as E1.
  { destruct (tick_succ s Hs Hne) as [Hq1 Hi1]. by rewrite (ok_active _ (tick_keeps s Hs)), Hq1, Hi1. }
  set (s2 := sleep_p v l k (emit_p [EvReset v x2 x3] s)) in *.
  pose proof (proj1 (active_is_middle s v l k Hs Eq) Ea) as Hi.
  assert (zlen (queue s) = zlen l + 1 + zlen k) as El.
  { rewrite Eq, zlen_app. unfold zlen. cbn [length]. lia. }
  pose proof (zlen_nonneg l). pose proof (zlen_nonneg k).
  assert (active_vcpu s2 = zget (l ++ k) ((zlen l + 1) mod zlen (l ++ k))) as E2a.
  { pose proof (node_core _ Hn2) as Hs2. cbn [ncore] in Hs2. rewrite (ok_active s2 Hs2).
    destruct (sleep_fields v l k (emit_p [EvReset v x2 x3] s)) as [_ Hq2]. fold s2 in Hq2. rewrite Hq2. f_equal.
    subst s2. unfold sleep_p. change (active_idx (emit_p [EvReset v x2 x3] s)) with (active_idx s).
    rewrite <- Hi, Z.eqb_refl, Z.ltb_irrefl.
    set (r := remove_p _ _ _ _ _). destruct (timer_p_fields r) as (Eqr & Eir & _).
    assert (zget (queue (timer_p r)) (succ_idx (timer_p r)) <> None) as Hg.
    { rewrite zget_None. intros Hb. apply Hb. apply Z.mod_pos_bound. rewrite Eqr. subst r. cbn. rewrite zlen_app. lia. }
    unfold tick_p. destruct (zget (queue (timer_p r)) (succ_idx (timer_p r))) as [w|]; [|done].
    destruct (switch_fields w (with_idx (succ_idx (timer_p r)) (timer_p r))) as (_ & _ & -> & _).
    cbn [active_idx with_idx]. unfold succ_idx. by rewrite Eqr, Eir. }
  exists (tick_p s), s2. split_and!; [by apply do_schedule_eq, Hs|done|done| |].
  - rewrite E2a, (zget_delete l k v), <- Eq, <- Hi by (apply Z.mod_pos_bound; rewrite zlen_app; lia).
    f_equal. rewrite zlen_app, El. apply skip_index; lia.
  - rewrite E1, E2a, (zget_delete l k v), <- Eq by (apply Z.mod_pos_bound; rewrite zlen_app; lia).
    rewrite zlen_app, skip_index by lia. unfold succ_idx. rewrite <- Hi, El. intros Ee.
    apply zget_NoDup in Ee; [|apply (NoDup_fmap_1 vcpu_vm_id), Hs|rewrite El; apply Z.mod_pos_bound; lia..].
    revert Ee. apply mod_succ_ne. lia.
Qed.

Lemma sched_suspend_skips_next_witness :
  exists s2, psci_cpu_suspend inj 0 0 (ncore (demo_node demo_ops)) = Ret tt s2 /\
    active_vcpu s2 = Some (demo_vcpu 1).
Proof.
  destruct (sched_suspend_skips_next _ _ (demo_node demo_ops) 0 0 (demo_reach demo_ops)) as (s1 & s2 & _ & _ & E & A & _).
  - vm_compute. discriminate.
  - exists s2. split; [exact E|]. rewrite A. vm_compute. reflexivity.
Defined.

(** ** Delivery of interrupts *)

Lemma switch_log v s :
  exists store, slog (switch v s) =
    slog s ++ store ++ [EvRestore v] ++ map (EvInject v) (int_list (cell s v)) ++ [EvInstall v].
Proof.
  unfold switch, leave. destruct (active_vcpu s) as [p|].
  - exists [EvStore p].
    assert (int_list (cell (emit_p [EvStore p] (state_p p Ready s)) v) = int_list (cell s v)) as ->.
    { change (cell (emit_p ?l ?x) v) with (cell x v). unfold state_p. rewrite cell_put.
      case_decide as E; [|done]. cbn. unfold cell. by rewrite E. }
    cbn [slog emit_p with_slog put_cell with_vcells with_active state_p]. by rewrite <- app_assoc.
  - by exists [].
Qed.

(** Interrupts reach their vCPU. [IPI]-injected into a vCPU of this core, an interrupt is handed
    to the controller at the end, after anything the vCPU had pending; a sleeping vCPU is in the
    queue afterwards, and if the core was idle it runs. Interrupts that wait in a vCPU's list are
    all handed over, once and in order, when the timer gives it the core. *)
Theorem sched_interrupts_delivered reserved vm_has n fuel vm v int :
  reach reserved vm_has n -> slot n vm = Some v ->
  let s := ncore n in
  (exists s' es,
    interrupt_inject_ipi_handler (S (S fuel)) (narr n) vm int s = Ret tt s' /\
    slog s' = slog s ++ es ++ [EvInject v int] /\
    (vstate s v <> Sleep -> es = [] /\ queue s' = queue s) /\
    (vstate s v = Sleep -> queue s' = queue s ++ [v]) /\
    (vstate s v = Sleep -> queue s = [] ->
      active_vcpu s' = Some v /\ vstate s' v = Running /\
      es = [EvCpuRun; EvRestore v] ++ map (EvInject v) (int_list (cell s v)) ++ [EvInstall v])) /\
  (zget (queue s) ((active_idx s + 1) mod zlen (queue s)) = Some v ->
    exists s' store, do_schedule inj s = Ret tt s' /\
      slog s' = slog s ++ store ++ [EvRestore v] ++ map (EvInject v) (int_list (cell s v)) ++ [EvInstall v] /\
      int_list (cell s' v) = []).
Proof.
  intros Hr Hv s. pose proof (reach_ok _ _ n Hr) as Hok. pose proof (node_core n Hok) as Hs. fold s in Hs.
  destruct (slot_facts n vm v Hok Hv) as (_ & Hp & _). fold s in Hp.
  assert (vstate s v = Sleep -> may_join v s) as Hj.
  { intros E. eapply asleep_join; [done|done|]. fold s. by rewrite E. }
  split.
  - exists (inject_p v int s).
    assert (interrupt_inject_ipi_handler (S (S fuel)) (narr n) vm int s = Ret tt (inject_p v int s)) as ->.
    { unfold interrupt_inject_ipi_handler. unfold slot in Hv. rewrite Hv. by apply inject_eq. }
    destruct (decide (vstate s v = Sleep)) as [E|E].
    2: { exists []. unfold inject_p. split_and!; [done|by destruct (vstate s v)|..|done|done].
      intros _. by destruct (vstate s v). }
    specialize (Hj E). set (s1 := emit_p [EvCpuRun] s).
    assert (exists es, slog (wakeup_p v s1) = slog s ++ es /\
      (queue s = [] -> active_vcpu (wakeup_p v s1) = Some v /\ vstate (wakeup_p v s1) v = Running /\
        es = [EvCpuRun; EvRestore v] ++ map (EvInject v) (int_list (cell s v)) ++ [EvInstall v]))
      as (es & El & He).
    { assert (slog (enqueue v s1) = slog s ++ [EvCpuRun]) as Hlog by (unfold enqueue; by destruct (1 <? _)).
      unfold wakeup_p. rewrite enqueue_queue. change (queue s1) with (queue s). rewrite zlen_snoc.
      destruct (Z.eqb_spec (zlen (queue s) + 1) 1) as [Hz|Hz].
      2: { exists [EvCpuRun]. split; [done|]. intros Hq. rewrite Hq in Hz. by unfold zlen in Hz. }
      assert (queue s = []) as Hq by (destruct (queue s); [done|]; unfold zlen in Hz; cbn [length] in Hz; lia).
      assert (queue (enqueue v s1) = [v]) as Hqe by (rewrite enqueue_queue; change (queue s1) with (queue s); by rewrite Hq).
      assert (active_vcpu (enqueue v s1) = None) as Hae.
      { destruct (enqueue_pre v s1) as (_ & _ & -> & _); [by apply emit_ok|done|].
        change (active_vcpu s1) with (active_vcpu s). rewrite (ok_active s Hs), Hq. apply zget_nil. }
      assert (tick_p (enqueue v s1) = switch v (with_idx 0 (enqueue v s1))) as ->.
      { unfold tick_p, succ_idx. rewrite Hqe. change (zlen [v]) with 1. by rewrite Z.mod_1_r. }
      assert (int_list (cell (with_idx 0 (enqueue v s1)) v) = int_list (cell s v)) as Hc.
      { change (cell (with_idx 0 ?x) v) with (cell x v).
        assert (cell (enqueue v s1) v = cell (state_p v Ready s1) v) as -> by (unfold enqueue; by destruct (1 <? _)).
        unfold state_p. rewrite cell_put. by rewrite decide_True. }
      eexists. split.
      + unfold switch, leave. cbn [active_vcpu with_idx]. rewrite Hae, Hc.
        cbn [slog emit_p with_slog put_cell with_vcells with_active with_idx]. rewrite Hlog.
        rewrite <- app_assoc. reflexivity.
      + intros _. destruct (switch_fields v (with_idx 0 (enqueue v s1))) as (_ & _ & _ & -> & _).
        split_and!; [done| |done]. rewrite vstate_switch. by rewrite decide_True. }
    exists es. unfold inject_p. rewrite E. fold s1. destruct (wakeup_fields v s1) as [_ Hq].
    split_and!; [done| |done|done|].
    + cbn [slog emit_p with_slog]. rewrite El. by rewrite <- app_assoc.
    + intros _ Hq0. destruct (He Hq0) as (Ha & Hst & Hes). done.
  - intros Hg. destruct (switch_log v (with_idx (succ_idx s) s)) as [store Hl].
    exists (tick_p s), store. unfold succ_idx in Hl.
    assert (do_schedule inj s = Ret tt (tick_p s)) as -> by apply do_schedule_eq, Hs.
    unfold tick_p, succ_idx.
    rewrite Hg. split_and!; [done|exact Hl|apply int_list_switch].
Qed.

(** VM 1 suspended itself with interrupt 41 pending and the core is idle: interrupt 33 wakes it and
    both are delivered, 41 first. *)
Definition idle_ops : list sched_op :=
  [OpAssign (demo_vcpu 1); OpBoot 1; OpSuspend 0 0; OpPush (demo_vcpu 1) 41].

Lemma sched_interrupts_delivered_witness :
  exists s', interrupt_inject_ipi_handler 2 (narr (demo_node idle_ops)) 1 33 (ncore (demo_node idle_ops)) = Ret tt s' /\
    vstate s' (demo_vcpu 1) = Running.
Proof.
  destruct (sched_interrupts_delivered _ _ (demo_node idle_ops) 0 1 (demo_vcpu 1) 33 (demo_reach idle_ops))
    as [(s' & es & E & _ & _ & _ & H) _].
  - vm_compute. reflexivity.
  - exists s'. split; [exact E|]. apply H; vm_compute; reflexivity.
Defined.

(** ** The vCPU array as a finite map *)

(** The per-core array behaves as a map from VM ids below [VM_NUM_MAX] to vCPUs that knows its
    size: appending fills a free slot and leaves an occupied or missing one alone, removing frees
    an occupied slot and returns its vCPU, reporting when it was the last, and panics on a free
    or missing one; every operation keeps each vCPU at its VM's id and the length the number
    of occupied slots. *)
Theorem vcpu_array_is_map core a :
  array_ok core a ->
  0 <= alen a <= VM_NUM_MAX /\
  (forall v, phys_id v = core ->
    exists a', append_vcpu v a = Ret tt a' /\ array_ok core a' /\
      ((pop_vcpu_through_vmid (vcpu_vm_id v) a = None /\ 0 <= vcpu_vm_id v < VM_NUM_MAX /\
          alen a' = alen a + 1 /\
          forall vm, pop_vcpu_through_vmid vm a' =
            if decide (vm = vcpu_vm_id v) then Some v else pop_vcpu_through_vmid vm a)
       \/ ((pop_vcpu_through_vmid (vcpu_vm_id v) a <> None \/ ~ 0 <= vcpu_vm_id v < VM_NUM_MAX) /\ a' = a))) /\
  (forall vm, match pop_vcpu_through_vmid vm a with
    | Some v => exists a', remove_vcpu vm a = Ret (v, alen a' =? 0) a' /\ array_ok core a' /\
        alen a' = alen a - 1 /\
        forall k, pop_vcpu_through_vmid k a' = if decide (k = vm) then None else pop_vcpu_through_vmid k a
    | None => remove_vcpu vm a = Fault ExplicitPanic
    end).
Proof.
  intros Hok. pose proof Hok as [Hl Hs Hc]. split_and!.
  - rewrite Hc. apply occupied_bounds.
  - rewrite Hc, <- Hl. apply occupied_bounds.
  - intros v Hp. destruct (zget (array a) (vcpu_vm_id v)) as [[w|]|] eqn:E.
    + exists a. unfold append_vcpu, pop_vcpu_through_vmid. rewrite E. split_and!; try done. right. split; [by left|done].
    + assert (pop_vcpu_through_vmid (vcpu_vm_id v) a = None) as Hn by (unfold pop_vcpu_through_vmid; by rewrite E).
      pose proof (zget_Some_bounds _ _ _ E) as Hb. rewrite Hl in Hb.
      destruct (append_free core a v Hok Hb Hp Hn) as (a' & Ea & Ha & Hlen & Hpop).
      exists a'. split_and!; [done..|]. left. done.
    + exists a. unfold append_vcpu. rewrite E. split_and!; try done. right.
      split; [right|done]. apply zget_None in E. by rewrite Hl in E.
  - intros vm. destruct (pop_vcpu_through_vmid vm a) as [v|] eqn:E; [by apply remove_occupied|].
    unfold remove_vcpu. unfold pop_vcpu_through_vmid in E. by destruct (zget (array a) vm) as [[w|]|].
Qed.

Lemma vcpu_array_is_map_witness :
  exists a', append_vcpu (demo_vcpu 3) array_new = Ret tt a' /\
    pop_vcpu_through_vmid 3 a' = Some (demo_vcpu 3).
Proof.
  destruct (vcpu_array_is_map 0 array_new (array_new_ok 0)) as (_ & Ha & _).
  destruct (Ha (demo_vcpu 3) eq_refl) as (a' & E & _ & [(_ & _ & _ & H)|[[H|H] _]]).
  - exists a'. split; [exact E|]. rewrite H. reflexivity.
  - exfalso. apply H. reflexivity.
  - exfalso. apply H. vm_compute. split; [discriminate|reflexivity].
Defined.

(** ** The message that assigns a vCPU *)

(** The message [PsciIpiVcpuAssignAndCpuOn] puts the vCPU in the core's array and stops there: the
    core is not touched, so the vCPU is neither made ready nor queued, although the name of the
    message and its entry point and context ask for it to be powered on. *)
Theorem psci_assign_does_not_power_on reserved vm_has n vm_vcpu vm id v entry ctx :
  reach reserved vm_has n -> vm_vcpu vm id = Some v -> vcpu_vm_id v = vm ->
  phys_id v = core_id (ncore n) -> 0 <= vm < VM_NUM_MAX -> slot n vm = None ->
  exists n', psci_ipi_handler inj vm_vcpu vm id PsciIpiVcpuAssignAndCpuOn entry ctx n = Ret tt n' /\
    slot n' vm = Some v /\ ncore n' = ncore n /\ v ∉ queue (ncore n').
Proof.
  intros Hr Hv Em Hp Hb Hn. pose proof (reach_ok _ _ n Hr) as Hok. subst vm.
  destruct (append_free (core_id (ncore n)) (narr n) v) as (a' & Ea & Ha & _ & Hpop); [apply Hok|done..|].
  exists (mkNode a' (ncore n)). assert (slot (mkNode a' (ncore n)) (vcpu_vm_id v) = Some v) as Hs.
  { unfold slot. cbn [narr]. rewrite Hpop. by rewrite decide_True. }
  split_and!; [|done|done|].
  - unfold psci_ipi_handler. rewrite Hv. cbn [m_opt]. rewrite m_bind_ret.
    assert (on_array (append_vcpu v) n = Ret tt (mkNode a' (ncore n))) as E by (unfold on_array; by rewrite Ea).
    rewrite (m_bind_Ret _ _ _ _ _ E). unfold m_get, m_bind. unfold slot in Hs. by rewrite Hs.
  - intros Hq. rewrite (node_queue n Hok v Hq) in Hn. done.
Qed.

Lemma psci_assign_does_not_power_on_witness :
  exists n', psci_ipi_handler inj (fun vm id => Some (mkVcpu id 0 vm)) 3 0 PsciIpiVcpuAssignAndCpuOn 4096 0
      (demo_node demo_ops) = Ret tt n' /\ slot n' 3 = Some (demo_vcpu 3) /\ demo_vcpu 3 ∉ queue (ncore n').
Proof.
  destruct (psci_assign_does_not_power_on _ _ (demo_node demo_ops) (fun vm id => Some (mkVcpu id 0 vm)) 3 0
    (demo_vcpu 3) 4096 0 (demo_reach demo_ops)) as (n' & E & Hs & _ & Hq); try (vm_compute; reflexivity).
  - split; [discriminate|reflexivity].
  - exists n'. split; [exact E|]. split; [exact Hs|exact Hq].
Defined.
