(* ===== verification/GuestMem.v ===== *)
(** * GuestMem: byte-addressed memory shared with the guests

    Guest pages are mapped into the hypervisor one to one, so a device model reads and writes them by
    physical address.  Memory is a finite map from addresses to bytes (0 where nothing was
    written), with little-endian loads and stores of any width and the copying of byte lists. *)
From stdpp Require Import gmap list.
From S2P Require Import Prelude.

Abbreviation Mem := (gmap Z Z).

Definition ld8 (m : Mem) (a : Z) : Z := wrap 8 (default 0 (m !! a)).

(** A little-endian load of [n] bytes. *)
Fixpoint ld (n : nat) (m : Mem) (a : Z) : Z :=
  match n with O => 0 | S k => ld8 m a + 256 * ld k m (a + 1) end.

(** The [n] low bytes of [v], lowest first. *)
Fixpoint split_le (n : nat) (v : Z) : list Z :=
  match n with O => [] | S k => v mod 256 :: split_le k (v / 256) end.

Definition ld16 := ld 2.
Definition ld32 := ld 4.
Definition ld64 := ld 8.

(** Write the bytes [bs] at the addresses [ds], one after the other. *)
Fixpoint write_at (m : Mem) (ds bs : list Z) : Mem :=
  match ds, bs with
  | d :: ds', b :: bs' => write_at (<[d := b]> m) ds' bs'
  | _, _ => m
  end.

Definition st (n : nat) (m : Mem) (a v : Z) : Mem := write_at m (zrange a n) (split_le n v).
Definition st8 (m : Mem) (a v : Z) : Mem := st 1 m a v.
Definition st16 := st 2.
Definition st32 := st 4.

Definition ld_bytes (m : Mem) (a : Z) (n : nat) : list Z := ld8 m <$> zrange a n.

(** [memcpy]: [n] bytes from [s] to [d]. *)
Definition memcpy (m : Mem) (d s n : Z) : Mem :=
  write_at m (zrange d (Z.to_nat n)) (ld_bytes m s (Z.to_nat n)).

(** ** Bytes *)

Lemma ld8_range m a : 0 <= ld8 m a < 256.
Proof. apply (wrap_range 8). lia. Qed.

Lemma ld_range n m a : 0 <= ld n m a < 256 ^ Z.of_nat n.
Proof.
  revert a. induction n as [|n IH]; intros a; cbn [ld]; [done|].
  rewrite Nat2Z.inj_succ, Z.pow_succ_r by lia. pose proof (ld8_range m a). specialize (IH (a + 1)). lia.
Qed.

Lemma ld16_range m a : 0 <= ld16 m a < 65536.
Proof. apply (ld_range 2). Qed.

Lemma length_split_le n v : length (split_le n v) = n.
Proof. revert v. induction n as [|n IH]; intros v; cbn [split_le length]; by rewrite ?IH. Qed.

Lemma split_le_bytes n v : Forall (fun b => 0 <= b < 256) (split_le n v).
Proof.
  revert v. induction n as [|n IH]; intros v; cbn [split_le]; constructor; [|done].
  by apply Z.mod_pos_bound.
Qed.

Lemma length_zrange lo n : length (zrange lo n) = n.
Proof. revert lo. induction n as [|n IH]; intros lo; cbn [zrange length]; by rewrite ?IH. Qed.

Lemma zrange_app lo n k : zrange lo (n + k) = zrange lo n ++ zrange (lo + Z.of_nat n) k.
Proof.
  revert lo. induction n as [|n IH]; intros lo; cbn [zrange Nat.add app]; [by rewrite Z.add_0_r|].
  rewrite IH. do 3 f_equal. lia.
Qed.

Lemma zrange_shift lo d n : (fun x => x + d) <$> zrange lo n = zrange (lo + d) n.
Proof.
  revert lo. induction n as [|n IH]; intros lo; cbn [zrange fmap list_fmap]; [done|].
  unfold fmap in IH. rewrite IH. do 2 f_equal. lia.
Qed.

Lemma zrange_lookup lo n k : (k < n)%nat -> zrange lo n !! k = Some (lo + Z.of_nat k).
Proof.
  revert lo k. induction n as [|n IH]; intros lo [|k] Hk; try lia; cbn [zrange].
  - cbn. f_equal. lia.
  - change ((lo :: zrange (lo + 1) n) !! S k) with (zrange (lo + 1) n !! k). rewrite IH by lia. f_equal. lia.
Qed.

(** ** Reading back what was written *)

Lemma ld8_insert m d b a :
  ld8 (<[d := b]> m) a = if decide (a = d) then wrap 8 b else ld8 m a.
Proof.
  unfold ld8. rewrite lookup_insert.
  destruct (decide (a = d)) as [->|Hne]; [by rewrite decide_True|]. by rewrite decide_False.
Qed.

Lemma ld8_write_out m ds bs a : a ∉ ds -> ld8 (write_at m ds bs) a = ld8 m a.
Proof.
  revert m bs. induction ds as [|d ds IH]; intros m [|b bs]; cbn [write_at]; try done.
  intros [Hd Hds]%list.not_elem_of_cons. rewrite IH by done. rewrite ld8_insert.
  by rewrite decide_False.
Qed.

Lemma ld8_write_in m ds bs i d b :
  NoDup ds -> ds !! i = Some d -> bs !! i = Some b -> ld8 (write_at m ds bs) d = wrap 8 b.
Proof.
  revert m bs i. induction ds as [|x ds IH]; intros m bs i Hn Hd Hb; [by destruct i|].
  apply list.NoDup_cons in Hn as [Hx Hn]. destruct bs as [|y bs]; [by destruct i|].
  cbn [write_at]. destruct i as [|i].
  - injection Hd as ->. injection Hb as ->. rewrite ld8_write_out by done. rewrite ld8_insert.
    by rewrite decide_True.
  - by apply (IH _ _ i).
Qed.

Lemma ld_bytes_write m ds bs :
  NoDup ds -> length ds = length bs -> Forall (fun b => 0 <= b < 256) bs ->
  (ld8 (write_at m ds bs) <$> ds) = bs.
Proof.
  intros Hn Hl Hb. apply list_eq. intros i. rewrite list_lookup_fmap.
  destruct (ds !! i) as [d|] eqn:Ed.
  - destruct (lookup_lt_is_Some_2 bs i) as [b Eb].
    { rewrite <- Hl. by eapply lookup_lt_Some. }
    rewrite Eb. cbn. f_equal. rewrite (ld8_write_in m ds bs i d b) by done.
    apply wrap_small. by apply (proj1 (Forall_lookup _ _) Hb i).
  - cbn. symmetry. apply lookup_ge_None. rewrite <- Hl. by apply lookup_ge_None.
Qed.

(** A load only depends on the bytes it reads. *)
Lemma ld_ext n m m' a :
  (forall x, a <= x < a + Z.of_nat n -> ld8 m' x = ld8 m x) -> ld n m' a = ld n m a.
Proof.
  revert a. induction n as [|n IH]; intros a H; cbn [ld]; [done|].
  rewrite H by lia. rewrite IH; [done|]. intros x Hx. apply H. lia.
Qed.

Lemma ld8_st_out n m a v x : ~ (a <= x < a + Z.of_nat n) -> ld8 (st n m a v) x = ld8 m x.
Proof. intros Hx. apply ld8_write_out. by rewrite zrange_elem. Qed.

Lemma ld_st_out n k m a v b :
  b + Z.of_nat k <= a \/ a + Z.of_nat n <= b -> ld k (st n m a v) b = ld k m b.
Proof. intros H. apply ld_ext. intros x Hx. apply ld8_st_out. lia. Qed.

Lemma ld_le_bytes n m a :
  ld n m a = foldr (fun b r => b + 256 * r) 0 (ld_bytes m a n).
Proof.
  revert a. induction n as [|n IH]; intros a; [done|]. unfold ld_bytes in *.
  cbn [ld zrange fmap list_fmap foldr]. by rewrite IH.
Qed.

Lemma foldr_split_le n v : foldr (fun b r => b + 256 * r) 0 (split_le n v) = v mod 256 ^ Z.of_nat n.
Proof.
  revert v. induction n as [|n IH]; intros v; cbn [split_le foldr]; [by rewrite Z.mod_1_r|].
  rewrite IH, Nat2Z.inj_succ, Z.pow_succ_r by lia.
  rewrite Z.rem_mul_r by lia. lia.
Qed.

Lemma ld_st n m a v : ld n (st n m a v) a = v mod 256 ^ Z.of_nat n.
Proof.
  rewrite ld_le_bytes. unfold ld_bytes, st.
  rewrite ld_bytes_write by
    (apply zrange_NoDup || apply split_le_bytes || by rewrite length_zrange, length_split_le).
  apply foldr_split_le.
Qed.
