(* ===== verification/Virtq.v ===== *)
(** * Virtq: the split virtqueue ([device/virtio/queue.rs])

    A queue is three structures in guest memory (descriptor table, available ring, used ring), found
    by the addresses the driver wrote, and the device's own counters.  The descriptor table
    is a slice of 512 entries and both rings have 512 places, whatever size the driver chose
    ([num]): an index past 512 is an out-of-bounds panic. *)
From stdpp Require Import gmap list.
From S2P Require Import Prelude GuestMem.

(** src: device/virtio/queue.rs 14-20 [queue constants] *)
Definition VIRTQ_READY : Z := 1.
Definition VIRTQ_DESC_F_NEXT : Z := 1.
Definition VIRTQ_DESC_F_WRITE : Z := 2.
Definition VRING_USED_F_NO_NOTIFY : Z := 1.
Definition DESC_QUEUE_SIZE : Z := 512.

(** The handler a queue calls when the guest notifies it. *)
Inductive notify_kind := NotifyBlk | NotifyMediatedBlk | NotifyNet | NotifyNetCtrl | NotifyConsole.

(** src: device/virtio/queue.rs 469-493 [VirtqInner]
    With the index and handler of [Virtq]; the references to the three structures are their
    physical addresses. *)
Record Virtq := mkVq {
  vq_index : Z; notify_handler : notify_kind;
  ready : Z; num : Z;
  desc_table : option Z; avail : option Z; used : option Z;
  last_avail_idx : Z; last_used_idx : Z; used_flags : Z;
  desc_table_addr : Z; avail_addr : Z; used_addr : Z;
}.

Definition set_last_avail x q := mkVq (vq_index q) (notify_handler q) (ready q) (num q) (desc_table q) (avail q) (used q) x (last_used_idx q) (used_flags q) (desc_table_addr q) (avail_addr q) (used_addr q).
Definition set_used_flags x q := mkVq (vq_index q) (notify_handler q) (ready q) (num q) (desc_table q) (avail q) (used q) (last_avail_idx q) (last_used_idx q) x (desc_table_addr q) (avail_addr q) (used_addr q).

(** src: device/virtio/queue.rs 107-118 [Virtq::new] *)
Definition vq_new (index : Z) (h : notify_kind) : Virtq := mkVq index h 0 0 None None None 0 0 0 0 0 0.

(** src: device/virtio/queue.rs 515-528 [VirtqInner::reset] *)
Definition vq_reset (q : Virtq) : Virtq := mkVq (vq_index q) (notify_handler q) 0 0 None None None 0 0 0 0 0 0.

(** src: device/virtio/queue.rs 279-282 [Virtq::set_last_used_idx] *)
Definition set_last_used_idx x q := mkVq (vq_index q) (notify_handler q) (ready q) (num q) (desc_table q) (avail q) (used q) (last_avail_idx q) x (used_flags q) (desc_table_addr q) (avail_addr q) (used_addr q).
(** src: device/virtio/queue.rs 285-288 [Virtq::set_num] *)
Definition set_num x q := mkVq (vq_index q) (notify_handler q) (ready q) x (desc_table q) (avail q) (used q) (last_avail_idx q) (last_used_idx q) (used_flags q) (desc_table_addr q) (avail_addr q) (used_addr q).
(** src: device/virtio/queue.rs 291-294 [Virtq::set_ready] *)
Definition set_ready x q := mkVq (vq_index q) (notify_handler q) x (num q) (desc_table q) (avail q) (used q) (last_avail_idx q) (last_used_idx q) (used_flags q) (desc_table_addr q) (avail_addr q) (used_addr q).
(** src: device/virtio/queue.rs 297-300 [Virtq::or_desc_table_addr] *)
Definition or_desc_table_addr a q := mkVq (vq_index q) (notify_handler q) (ready q) (num q) (desc_table q) (avail q) (used q) (last_avail_idx q) (last_used_idx q) (used_flags q) (Z.lor (desc_table_addr q) a) (avail_addr q) (used_addr q).
(** src: device/virtio/queue.rs 303-306 [Virtq::or_avail_addr] *)
Definition or_avail_addr a q := mkVq (vq_index q) (notify_handler q) (ready q) (num q) (desc_table q) (avail q) (used q) (last_avail_idx q) (last_used_idx q) (used_flags q) (desc_table_addr q) (Z.lor (avail_addr q) a) (used_addr q).
(** src: device/virtio/queue.rs 309-312 [Virtq::or_used_addr] *)
Definition or_used_addr a q := mkVq (vq_index q) (notify_handler q) (ready q) (num q) (desc_table q) (avail q) (used q) (last_avail_idx q) (last_used_idx q) (used_flags q) (desc_table_addr q) (avail_addr q) (Z.lor (used_addr q) a).
(** src: device/virtio/queue.rs 318-324 [Virtq::set_desc_table] *)
Definition set_desc_table a q := mkVq (vq_index q) (notify_handler q) (ready q) (num q) (Some a) (avail q) (used q) (last_avail_idx q) (last_used_idx q) (used_flags q) (desc_table_addr q) (avail_addr q) (used_addr q).
(** src: device/virtio/queue.rs 330-333 [Virtq::set_avail] *)
Definition set_avail a q := mkVq (vq_index q) (notify_handler q) (ready q) (num q) (desc_table q) (Some a) (used q) (last_avail_idx q) (last_used_idx q) (used_flags q) (desc_table_addr q) (avail_addr q) (used_addr q).
(** src: device/virtio/queue.rs 339-342 [Virtq::set_used] *)
Definition set_used a q := mkVq (vq_index q) (notify_handler q) (ready q) (num q) (desc_table q) (avail q) (Some a) (last_avail_idx q) (last_used_idx q) (used_flags q) (desc_table_addr q) (avail_addr q) (used_addr q).

(** A queue and the memory it lives in. *)
Record QS := mkQS { qmem : Mem; vq : Virtq }.
Definition with_vq (q : Virtq) (s : QS) : QS := mkQS (qmem s) q.
Definition with_qmem (m : Mem) (s : QS) : QS := mkQS m (vq s).

(** ** The descriptor table *)

(** src: device/virtio/queue.rs 25-34 [VringDesc]
    The address of a descriptor, 16 bytes each: [addr] at 0, [len] at 8, [flags] at 12, [next]
    at 14. *)
Definition vring_desc (t idx : Z) : Z := t + 16 * idx.

(** [desc_table[idx]]: a missing table and an index past its end panic. *)
Definition desc_at (idx : Z) : M QS Z :=
  let! s := m_get in
  match desc_table (vq s) with
  | None => m_fault UnwrapNone
  | Some t => if (0 <=? idx) && (idx <? DESC_QUEUE_SIZE) then m_ret (vring_desc t idx) else m_fault OutOfBounds
  end.

(** src: device/virtio/queue.rs 413-417 [Virtq::desc_addr] *)
Definition desc_addr (idx : Z) : M QS Z :=
  let! d := desc_at idx in m_gets (fun s => ld64 (qmem s) d).
(** src: device/virtio/queue.rs 420-424 [Virtq::desc_flags] *)
Definition desc_flags (idx : Z) : M QS Z :=
  let! d := desc_at idx in m_gets (fun s => ld16 (qmem s) (d + 12)).
(** src: device/virtio/queue.rs 427-431 [Virtq::desc_next] *)
Definition desc_next (idx : Z) : M QS Z :=
  let! d := desc_at idx in m_gets (fun s => ld16 (qmem s) (d + 14)).
(** src: device/virtio/queue.rs 434-438 [Virtq::desc_len] *)
Definition desc_len (idx : Z) : M QS Z :=
  let! d := desc_at idx in m_gets (fun s => ld32 (qmem s) (d + 8)).
(** src: device/virtio/queue.rs 190-194 [Virtq::desc_is_writable] *)
Definition desc_is_writable (idx : Z) : M QS bool :=
  let! f := desc_flags idx in m_ret (testm f VIRTQ_DESC_F_WRITE).
(** src: device/virtio/queue.rs 197-201 [Virtq::desc_has_next] *)
Definition desc_has_next (idx : Z) : M QS bool :=
  let! f := desc_flags idx in m_ret (testm f VIRTQ_DESC_F_NEXT).

(** ** The available ring *)

(** src: device/virtio/queue.rs 39-46 [VringAvail]
    [flags] at 0, [idx] at 2, the entries from 4, two bytes each. *)
Definition avail_ring (a i : Z) : Z := a + 4 + 2 * i.

(** src: device/virtio/queue.rs 441-445 [Virtq::avail_flags] *)
Definition avail_flags : M QS Z :=
  let! s := m_get in
  match avail (vq s) with None => m_fault UnwrapNone | Some a => m_ret (ld16 (qmem s) a) end.
(** src: device/virtio/queue.rs 448-452 [Virtq::avail_idx] *)
Definition avail_idx : M QS Z :=
  let! s := m_get in
  match avail (vq s) with None => m_fault UnwrapNone | Some a => m_ret (ld16 (qmem s) (a + 2)) end.

(** src: device/virtio/queue.rs 127-144 [Virtq::pop_avail_desc_idx] *)
Definition pop_avail_desc_idx (avail_idx : Z) : M QS (option Z) :=
  let! s := m_get in
  let q := vq s in
  match avail q with
  | Some a =>
      if avail_idx =? last_avail_idx q then m_ret None
      else if num q =? 0 then m_fault DivByZero
      else
        let idx := last_avail_idx q mod num q in
        if idx <? DESC_QUEUE_SIZE then
          let avail_desc_idx := ld16 (qmem s) (avail_ring a idx) in
          m_put (with_vq (set_last_avail (u16 (last_avail_idx q + 1)) q) s) >>;
          m_ret (Some avail_desc_idx)
        else m_fault OutOfBounds
  | None => m_ret None
  end.

(** src: device/virtio/queue.rs 147-157 [Virtq::put_back_avail_desc_idx] *)
Definition put_back_avail_desc_idx : M QS unit :=
  m_modify (fun s => let q := vq s in
    match avail q with
    | Some _ => with_vq (set_last_avail (u16 (last_avail_idx q - 1)) q) s
    | None => s
    end).

(** src: device/virtio/queue.rs 160-163 [Virtq::avail_is_avail] *)
Definition avail_is_avail : M QS bool :=
  m_gets (fun s => match avail (vq s) with Some _ => true | None => false end).

(** src: device/virtio/queue.rs 166-172 [Virtq::disable_notify] *)
Definition disable_notify : M QS unit :=
  m_modify (fun s => with_vq (set_used_flags (Z.lor (used_flags (vq s)) VRING_USED_F_NO_NOTIFY) (vq s)) s).
(** src: device/virtio/queue.rs 175-181 [Virtq::enable_notify] *)
Definition enable_notify : M QS unit :=
  m_modify (fun s =>
    if testm (used_flags (vq s)) VRING_USED_F_NO_NOTIFY
    then with_vq (set_used_flags (Z.land (used_flags (vq s)) (notw 16 VRING_USED_F_NO_NOTIFY)) (vq s)) s
    else s).

(** src: device/virtio/queue.rs 184-187 [Virtq::check_avail_idx] *)
Definition check_avail_idx (avail_idx : Z) : M QS bool :=
  m_gets (fun s => last_avail_idx (vq s) =? avail_idx).

(** ** The used ring *)

(** src: device/virtio/queue.rs 86-93 [VringUsed]
    [flags] at 0, [idx] at 2, the entries from 4, eight bytes each: [id] and [len]. *)
Definition used_ring (u i : Z) : Z := u + 4 + 8 * i.

(** src: device/virtio/queue.rs 461-465 [Virtq::used_idx] *)
Definition used_idx : M QS Z :=
  let! s := m_get in
  match used (vq s) with None => m_fault UnwrapNone | Some u => m_ret (ld16 (qmem s) (u + 2)) end.

(** src: device/virtio/queue.rs 204-221 [Virtq::update_used_ring] *)
Definition update_used_ring (len desc_chain_head_idx : Z) : M QS bool :=
  let! s := m_get in
  let q := vq s in
  match used q with
  | Some u =>
      let m := st16 (qmem s) u (used_flags q) in
      if num q =? 0 then m_fault DivByZero
      else
        let idx := ld16 m (u + 2) in
        let i := idx mod num q in
        if i <? DESC_QUEUE_SIZE then
          let m := st32 m (used_ring u i) desc_chain_head_idx in
          let m := st32 m (used_ring u i + 4) len in
          m_put (with_qmem (st16 m (u + 2) (u16 (idx + 1))) s) >>; m_ret true
        else m_fault OutOfBounds
  | None => m_ret false
  end.

(** ** Draining the available ring *)

(** The entries the driver has published and the device has not taken. *)
Definition pending (q : Virtq) (avail_idx : Z) : nat := Z.to_nat ((avail_idx - last_avail_idx q) mod 65536).

(** [while let Some(d) = pop_avail_desc_idx(avail_idx)], collecting the heads. *)
Fixpoint drain (fuel : nat) (avail_idx : Z) : M QS (list Z) :=
  match fuel with
  | O => m_fault FuelOut
  | S fuel' =>
      let! o := pop_avail_desc_idx avail_idx in
      match o with
      | None => m_ret []
      | Some d => let! l := drain fuel' avail_idx in m_ret (d :: l)
      end
  end.

(** The [k]-th entry that is waiting. *)
Definition waiting (s : QS) (a k : Z) : Z :=
  ld16 (qmem s) (avail_ring a ((last_avail_idx (vq s) + k) mod 65536 mod num (vq s))).

Lemma pending_0 q ai : 0 <= ai < 65536 -> 0 <= last_avail_idx q < 65536 ->
  pending q ai = O <-> ai = last_avail_idx q.
Proof.
  intros H1 H2. unfold pending. split; [|intros ->; by rewrite Z.sub_diag].
  pose proof (Z.mod_pos_bound (ai - last_avail_idx q) 65536 ltac:(lia)).
  intros E. assert ((ai - last_avail_idx q) mod 65536 = 0) as H' by lia.
  apply Z.mod_divide in H' as [c Hc]; lia.
Qed.

Lemma pending_S q ai k : 0 <= ai < 65536 -> 0 <= last_avail_idx q < 65536 ->
  pending q ai = S k -> pending (set_last_avail (u16 (last_avail_idx q + 1)) q) ai = k.
Proof.
  intros H1 H2. unfold pending. cbn [last_avail_idx set_last_avail]. unfold u16.
  change (2 ^ 16) with 65536. rewrite Zminus_mod_idemp_r. intros E.
  pose proof (Z.mod_pos_bound (ai - last_avail_idx q) 65536 ltac:(lia)) as Hb.
  replace (ai - (last_avail_idx q + 1)) with (ai - last_avail_idx q - 1) by lia.
  rewrite <- (Zminus_mod_idemp_l (ai - last_avail_idx q)). rewrite Z.mod_small by lia. lia.
Qed.

Lemma pop_avail_eq s a ai :
  avail (vq s) = Some a -> 0 < num (vq s) <= DESC_QUEUE_SIZE ->
  pop_avail_desc_idx ai s =
    if ai =? last_avail_idx (vq s) then Ret None s
    else Ret (Some (ld16 (qmem s) (avail_ring a (last_avail_idx (vq s) mod num (vq s)))))
             (with_vq (set_last_avail (u16 (last_avail_idx (vq s) + 1)) (vq s)) s).
Proof.
  intros Ha Hn. unfold pop_avail_desc_idx, DESC_QUEUE_SIZE in *. munfold. rewrite Ha.
  destruct (ai =? last_avail_idx (vq s)); [done|].
  rewrite (proj2 (Z.eqb_neq _ _)) by lia.
  pose proof (Z.mod_pos_bound (last_avail_idx (vq s)) (num (vq s)) ltac:(lia)).
  by rewrite (proj2 (Z.ltb_lt _ _)) by lia.
Qed.

Lemma waiting_0 s a : 0 <= last_avail_idx (vq s) < 65536 ->
  waiting s a 0 = ld16 (qmem s) (avail_ring a (last_avail_idx (vq s) mod num (vq s))).
Proof. intros H. unfold waiting. by rewrite Z.add_0_r, (Z.mod_small _ 65536). Qed.

Lemma waiting_S s a k :
  waiting (with_vq (set_last_avail (u16 (last_avail_idx (vq s) + 1)) (vq s)) s) a k = waiting s a (k + 1).
Proof.
  unfold waiting. cbn [vq qmem with_vq num set_last_avail last_avail_idx]. unfold wrap.
  change (2 ^ 16) with 65536. rewrite Zplus_mod_idemp_l. by replace (last_avail_idx (vq s) + 1 + k) with (last_avail_idx (vq s) + (k + 1)) by lia.
Qed.

(** C16. The device takes what the driver published: with a ring set up and a size between 1 and 512,
    popping until [None] terminates and returns exactly the [avail_idx - last_avail_idx]
    (modulo 2^16) entries that were waiting, each once and in order, also when the counters wrap;
    afterwards none is waiting, and neither memory nor the rest of the queue has changed. *)
Theorem virtq_drains_in_order s a ai :
  avail (vq s) = Some a -> 0 < num (vq s) <= DESC_QUEUE_SIZE ->
  0 <= ai < 65536 -> 0 <= last_avail_idx (vq s) < 65536 ->
  let k := pending (vq s) ai in
  drain (S k) ai s = Ret (waiting s a <$> zrange 0 k) (with_vq (set_last_avail ai (vq s)) s).
Proof.
  intros Ha Hn Hai Hl k.
  remember k as n eqn:En. unfold k in En. clear k. symmetry in En.
  revert s Ha Hn Hl En. induction n as [|n IH]; intros s Ha Hn Hl En.
  - apply pending_0 in En; [|done..]. cbn [drain]. unfold m_bind at 1. rewrite (pop_avail_eq s a) by done.
    subst ai. rewrite Z.eqb_refl. munfold. f_equal. by destruct s as [m []].
  - change (drain (S (S n)) ai) with
      (let! o := pop_avail_desc_idx ai in
       match o with None => m_ret [] | Some d => let! l := drain (S n) ai in m_ret (d :: l) end).
    unfold m_bind at 1. rewrite (pop_avail_eq s a) by done.
    assert (ai <> last_avail_idx (vq s)) as Hne.
    { intros E. apply (pending_0 (vq s) ai) in E; [|done..]. congruence. }
    rewrite (proj2 (Z.eqb_neq _ _)) by done.
    set (s1 := with_vq _ s). rewrite (m_bind_Ret _ _ s1 (waiting s1 a <$> zrange 0 n) (with_vq (set_last_avail ai (vq s1)) s1)).
    + munfold. rewrite <- (waiting_0 s a) by done. cbn [zrange fmap list_fmap]. do 2 f_equal.
      rewrite <- (zrange_shift 0 1 n), <- list_fmap_compose. apply list_fmap_ext.
      intros i x _. unfold compose. subst s1. by rewrite waiting_S.
    + apply IH; try done; [cbn; apply (wrap_range 16); lia|]. by apply pending_S.
Qed.

(** Four entries 9, 7, 5, 3 at the end of the counter's range, in a ring of 8. *)
Definition demo_q : Virtq :=
  mkVq 0 NotifyNet 1 8 (Some 0x1000) (Some 0x2000) (Some 0x3000) 65534 0 0 0x1000 0x2000 0x3000.
Definition demo_ring : QS :=
  mkQS (st16 (st16 (st16 (st16 ∅ (avail_ring 0x2000 6) 9) (avail_ring 0x2000 7) 7) (avail_ring 0x2000 0) 5)
         (avail_ring 0x2000 1) 3) demo_q.

Lemma virtq_drains_in_order_witness :
  exists s', drain 5 2 demo_ring = Ret [9; 7; 5; 3] s' /\ last_avail_idx (vq s') = 2.
Proof.
  pose proof (virtq_drains_in_order demo_ring 0x2000 2 eq_refl ltac:(done) ltac:(done) ltac:(done)) as H.
  eexists. split; [exact H|reflexivity].
Defined.

(** ** Publishing on the used ring *)

Lemma split_entry_bounds i n : 0 < n <= 512 -> 0 <= i mod n < 512.
Proof. intros ?. pose proof (Z.mod_pos_bound i n). lia. Qed.

(** One update: the entry at the old index, the index one further, nothing else but the flags. *)
Lemma update_used_ring_spec s u len id :
  used (vq s) = Some u -> 0 < num (vq s) <= DESC_QUEUE_SIZE ->
  let i := ld16 (qmem s) (u + 2) mod num (vq s) in
  exists m', update_used_ring len id s = Ret true (mkQS m' (vq s)) /\
    ld16 m' (u + 2) = u16 (ld16 (qmem s) (u + 2) + 1) /\
    ld32 m' (used_ring u i) = u32 id /\ ld32 m' (used_ring u i + 4) = u32 len /\
    (forall x, ~ (u <= x < u + 4) -> ~ (used_ring u i <= x < used_ring u i + 8) -> ld8 m' x = ld8 (qmem s) x).
Proof.
  intros Hu Hn i. unfold DESC_QUEUE_SIZE in *.
  pose proof (split_entry_bounds (ld16 (qmem s) (u + 2)) (num (vq s)) Hn) as Hi. fold i in Hi.
  unfold update_used_ring. munfold. rewrite Hu. rewrite (proj2 (Z.eqb_neq _ _)) by lia.
  set (m0 := st16 (qmem s) u (used_flags (vq s))).
  assert (ld16 m0 (u + 2) = ld16 (qmem s) (u + 2)) as E0 by (apply ld_st_out; lia).
  rewrite E0. fold i. rewrite (proj2 (Z.ltb_lt _ _)) by (unfold DESC_QUEUE_SIZE; lia).
  set (m1 := st32 m0 (used_ring u i) id). set (m2 := st32 m1 (used_ring u i + 4) len).
  eexists. split; [done|]. unfold used_ring in *. split_and!.
  - unfold ld16, st16 at 1. rewrite ld_st. apply Z.mod_small. apply (wrap_range 16). lia.
  - unfold ld32, st16 at 1. rewrite ld_st_out by lia. subst m2. unfold st32. rewrite ld_st_out by lia.
    subst m1. unfold st32. by rewrite ld_st.
  - unfold ld32, st16 at 1. rewrite ld_st_out by lia. subst m2. unfold st32. by rewrite ld_st.
  - intros x H1 H2. unfold st16 at 1. rewrite ld8_st_out by lia. subst m2. unfold st32. rewrite ld8_st_out by lia.
    subst m1. unfold st32. rewrite ld8_st_out by lia. subst m0. unfold st16. by rewrite ld8_st_out by lia.
Qed.

(** Publish a list of (length, head) pairs. *)
Definition publish (l : list (Z * Z)) : M QS unit :=
  m_for l (fun p => let! _ := update_used_ring p.1 p.2 in m_ret tt).

Definition used_slot (s : QS) (u k : Z) : Z := used_ring u ((ld16 (qmem s) (u + 2) + k) mod num (vq s)).

Lemma used_slot_next s m' u k : (num (vq s) | 65536) -> 0 < num (vq s) ->
  ld16 m' (u + 2) = u16 (ld16 (qmem s) (u + 2) + 1) ->
  used_slot (mkQS m' (vq s)) u k = used_slot s u (1 + k).
Proof.
  intros Hd Hn E. unfold used_slot. cbn [qmem vq]. rewrite E. unfold wrap. change (2 ^ 16) with 65536.
  rewrite <- Zplus_mod_idemp_l, Z.mod_mod_divide, Zplus_mod_idemp_l by done. do 2 f_equal. lia.
Qed.

Lemma mod_offset_ne a n i j : 0 < n -> 0 <= i < n -> 0 <= j < n -> i <> j -> (a + i) mod n <> (a + j) mod n.
Proof.
  intros Hn Hi Hj Hne E. apply Hne.
  assert ((i - j) mod n = 0) as H.
  { replace (i - j) with (a + i - (a + j)) by lia. rewrite Zminus_mod, E, Z.sub_diag. by apply Z.mod_0_l; lia. }
  apply Z.mod_divide in H as [c Hc]; [|lia]. assert (c = 0) by nia. lia.
Qed.

Lemma used_slots_apart s u i j n :
  n = num (vq s) -> 0 < n -> 0 <= i < n -> 0 <= j < n -> i <> j ->
  used_slot s u i + 8 <= used_slot s u j \/ used_slot s u j + 8 <= used_slot s u i.
Proof.
  intros -> Hn Hi Hj Hne. pose proof (mod_offset_ne (ld16 (qmem s) (u + 2)) _ i j Hn Hi Hj Hne).
  unfold used_slot, used_ring. lia.
Qed.

Lemma used_slot_range s u k : 0 < num (vq s) -> u + 4 <= used_slot s u k < u + 4 + 8 * num (vq s).
Proof. intros Hn. pose proof (Z.mod_pos_bound (ld16 (qmem s) (u + 2) + k) _ Hn). unfold used_slot, used_ring. lia. Qed.

Definition in_u32 (p : Z * Z) : Prop := 0 <= p.1 < 2 ^ 32 /\ 0 <= p.2 < 2 ^ 32.

Lemma publish_spec l s u :
  used (vq s) = Some u -> 0 < num (vq s) <= DESC_QUEUE_SIZE -> (num (vq s) | 65536) ->
  zlen l <= num (vq s) -> Forall in_u32 l ->
  exists m', publish l s = Ret tt (mkQS m' (vq s)) /\
    ld16 m' (u + 2) = (ld16 (qmem s) (u + 2) + zlen l) mod 65536 /\
    (forall k p, l !! k = Some p ->
      ld32 m' (used_slot s u (Z.of_nat k)) = p.2 /\ ld32 m' (used_slot s u (Z.of_nat k) + 4) = p.1) /\
    (forall x, ~ (u <= x < u + 4) ->
      (forall k, 0 <= k < zlen l -> ~ (used_slot s u k <= x < used_slot s u k + 8)) ->
      ld8 m' x = ld8 (qmem s) x).
Proof.
  intros Hu Hn Hd. revert s Hu Hn Hd. induction l as [|[len id] l IH]; intros s Hu Hn Hd Hlen Hb.
  - exists (qmem s). unfold publish. cbn [m_for]. split_and!; [by destruct s| |by intros []|done].
    rewrite Z.add_0_r. symmetry. apply Z.mod_small, ld16_range.
  - apply list.Forall_cons in Hb as [[Hlb Hib] Hb]. cbn [fst snd] in Hlb, Hib.
    assert (zlen ((len, id) :: l) = 1 + zlen l) as El by (unfold zlen; cbn [length]; lia).
    rewrite El in Hlen. pose proof (zlen_nonneg l) as Hl0.
    destruct (update_used_ring_spec s u len id Hu Hn) as (m1 & E1 & Ei & Eid & Elen & Eo).
    destruct (IH (mkQS m1 (vq s))) as (m' & E & Hidx & Hent & Ho); try done; [cbn [vq]; lia|].
    cbn [vq qmem] in *.
    assert (forall k, used_slot (mkQS m1 (vq s)) u k = used_slot s u (1 + k)) as Hs.
    { intros k. apply used_slot_next; [done|lia|done]. }
    assert (used_ring u (ld16 (qmem s) (u + 2) mod num (vq s)) = used_slot s u 0) as H0
      by (unfold used_slot; by rewrite Z.add_0_r).
    rewrite H0 in *. pose proof (used_slot_range s u 0 ltac:(lia)) as Hr0.
    assert (forall k, 0 <= k < 8 -> ld8 m' (used_slot s u 0 + k) = ld8 m1 (used_slot s u 0 + k)) as Hkeep.
    { intros k Hk. apply Ho; [lia|]. intros j Hj. rewrite Hs.
      pose proof (used_slots_apart s u 0 (1 + j) _ eq_refl). lia. }
    exists m'. split_and!.
    + unfold publish in *. cbn [m_for fst snd]. erewrite m_bind_Ret; [exact E|].
      erewrite m_bind_Ret by exact E1. done.
    + rewrite Hidx, Ei, El. unfold wrap. change (2 ^ 16) with 65536. rewrite Zplus_mod_idemp_l.
      f_equal. lia.
    + intros [|k] p Hk.
      * injection Hk as <-. cbn [fst snd]. change (Z.of_nat 0) with 0.
        rewrite (wrap_small 32 id) in Eid by done. rewrite (wrap_small 32 len) in Elen by done.
        split; [rewrite <- Eid|rewrite <- Elen]; apply ld_ext; intros x Hx;
          [replace x with (used_slot s u 0 + (x - used_slot s u 0)) by lia
          |replace x with (used_slot s u 0 + (x - used_slot s u 0)) by lia]; apply Hkeep; lia.
      * replace (Z.of_nat (S k)) with (1 + Z.of_nat k) by lia. rewrite <- Hs. by apply Hent.
    + intros x Hx Hk. rewrite Ho; [|done|].
      * apply Eo; [done|]. apply Hk. lia.
      * intros k Hk'. rewrite Hs. apply Hk. lia.
Qed.

(** What the device publishes the driver reads: when the ring size is a power of two up to 512 (the
    virtio rule), publishing at most [num] completions leaves the used ring's index advanced by their
    number, modulo 2^16, and at the places the index passed over, in order, exactly their
    (head, length) pairs; memory outside the ring is untouched, and so is the queue. *)
Theorem used_ring_roundtrip l s u :
  used (vq s) = Some u -> 0 < num (vq s) <= DESC_QUEUE_SIZE -> (num (vq s) | 65536) ->
  zlen l <= num (vq s) -> Forall in_u32 l ->
  exists m', publish l s = Ret tt (mkQS m' (vq s)) /\
    ld16 m' (u + 2) = (ld16 (qmem s) (u + 2) + zlen l) mod 65536 /\
    ((fun k => (ld32 m' (used_slot s u k + 4), ld32 m' (used_slot s u k))) <$> zrange 0 (length l)) = l /\
    (forall x, ~ (u <= x < u + 4 + 8 * num (vq s)) -> ld8 m' x = ld8 (qmem s) x).
Proof.
  intros Hu Hn Hd Hl Hb. destruct (publish_spec l s u Hu Hn Hd Hl Hb) as (m' & E & Hi & He & Ho).
  exists m'. split_and!; [done|done| |].
  - apply list_eq. intros k. rewrite list_lookup_fmap. destruct (l !! k) as [p|] eqn:Ek.
    + rewrite zrange_lookup by by eapply lookup_lt_Some. cbn [fmap option_fmap option_map].
      destruct (He k p Ek) as [H1 H2]. rewrite Z.add_0_l, H1, H2. by destruct p.
    + rewrite lookup_ge_None_2; [done|]. rewrite length_zrange. by apply lookup_ge_None.
  - intros x Hx. apply Ho; [lia|]. intros k Hk. pose proof (used_slot_range s u k ltac:(lia)) as Hr.
    unfold used_slot, used_ring in *. pose proof (Z.mod_pos_bound (ld16 (qmem s) (u + 2) + k) (num (vq s)) ltac:(lia)). lia.
Qed.

Lemma used_ring_roundtrip_witness :
  exists m', publish [(10, 3); (20, 9)] demo_ring = Ret tt (mkQS m' demo_q) /\ ld16 m' 0x3002 = 2.
Proof.
  destruct (used_ring_roundtrip [(10, 3); (20, 9)] demo_ring 0x3000) as (m' & E & Hi & _).
  - reflexivity.
  - done.
  - exists 8192. reflexivity.
  - done.
  - repeat constructor; done.
  - exists m'. split; [exact E|]. etransitivity; [exact Hi|vm_compute; reflexivity].
Defined.
