(* ===== verification/Iov.v ===== *)
(** * Iov: scatter-gather vectors ([device/virtio/iov.rs])

    A [VirtioIov] is a list of buffers of guest memory.  [to_buf] and [from_buf] copy between a vector
    and one buffer; [write_through_iov] copies one vector into another piece by piece, which is
    proved to be the copy of the one's bytes, in order, to the other's addresses. *)
From stdpp Require Import gmap list.
From S2P Require Import Prelude GuestMem.

(** src: device/virtio/iov.rs 208-211 [VirtioIovData] *)
Record VirtioIovData := mkIov { buf : Z; len : Z }.
Abbreviation VirtioIov := (list VirtioIovData).

(** src: device/virtio/iov.rs 29-31 [VirtioIov::push_data] *)
Definition push_data (l : VirtioIov) (b n : Z) : VirtioIov := l ++ [mkIov b n].
(** src: device/virtio/iov.rs 34-36 [VirtioIov::get_buf] *)
Definition get_buf {S} (l : VirtioIov) (idx : Z) : M S Z := let! v := m_idx l idx in m_ret (buf v).
(** src: device/virtio/iov.rs 104-106 [VirtioIov::get_len] *)
Definition get_len {S} (l : VirtioIov) (idx : Z) : M S Z := let! v := m_idx l idx in m_ret (len v).

(** The common loop of [to_buf] and [from_buf]: the piece at offset [total - size] is copied by
    [copy], the last one shortened to what is left. *)
Fixpoint buf_loop (copy : VirtioIovData -> Z -> Z -> Mem -> Mem) (l : VirtioIov) (total size : Z) (m : Mem) : Mem :=
  match l with
  | [] => m
  | v :: l' =>
      let offset := usize (total - size) in
      if size <=? len v then copy v offset size m
      else buf_loop copy l' total (usize (size - len v)) (copy v offset (len v) m)
  end.

(** src: device/virtio/iov.rs 39-66 [VirtioIov::to_buf] *)
Definition to_buf (l : VirtioIov) (addr n : Z) (m : Mem) : Mem :=
  buf_loop (fun v off k m => memcpy m (usize (addr + off)) (buf v) k) l n n m.

(** src: device/virtio/iov.rs 69-96 [VirtioIov::from_buf] *)
Definition from_buf (l : VirtioIov) (addr n : Z) (m : Mem) : Mem :=
  buf_loop (fun v off k m => memcpy m (buf v) (usize (addr + off)) k) l n n m.

(** src: device/virtio/iov.rs 109-131 [VirtioIov::get_ptr]
    The 14 bytes at offset [size], or a slice of one zero when the vector is shorter. *)
Fixpoint get_ptr (trace : bool) (l : VirtioIov) (idx : Z) : M Mem (list Z) :=
  match l with
  | [] => m_ret [0]
  | v :: l' =>
      if idx <? len v then
        if trace && (usize (buf v + idx) <? 0x1000) then m_fault ExplicitPanic
        else m_gets (fun m => ld_bytes m (usize (buf v + idx)) 14)
      else get_ptr trace l' (usize (idx - len v))
  end.

(** The variables of the loop of [write_through_iov]. *)
Record Cursor := mkCur {
  dst_iov_idx : Z; src_iov_idx : Z;
  dst_ptr : Z; src_ptr : Z;
  dst_vlen_remain : Z; src_vlen_remain : Z;
  remain : Z;
}.

Section write_through.
Context (trace : bool) (src dst : VirtioIov).

(** src: device/virtio/iov.rs 152-200 [write_through_iov: the loop body] *)
Definition write_step (c : Cursor) : M Mem Cursor :=
  let check : M Mem unit :=
    if trace && ((dst_ptr c <? 0x1000) || (src_ptr c <? 0x1000)) then m_fault ExplicitPanic else m_ret tt in
  if src_vlen_remain c <? dst_vlen_remain c then
    let written := src_vlen_remain c in
    check >>;
    m_modify (fun m => memcpy m (dst_ptr c) (src_ptr c) written) >>;
    let si := usize (src_iov_idx c + 1) in
    m_ret
      match zget src si with
      | Some v => mkCur (dst_iov_idx c) si (usize (dst_ptr c + written)) (buf v)
                    (usize (dst_vlen_remain c - written)) (len v) (usize (remain c - written))
      | None => mkCur (dst_iov_idx c) si (dst_ptr c) (src_ptr c) (dst_vlen_remain c) (src_vlen_remain c)
                  (usize (remain c - written))
      end
  else
    let written := dst_vlen_remain c in
    check >>;
    m_modify (fun m => memcpy m (dst_ptr c) (src_ptr c) written) >>;
    let di := usize (dst_iov_idx c + 1) in
    let c' :=
      match zget dst di with
      | Some v => mkCur di (src_iov_idx c) (buf v) (usize (src_ptr c + written))
                    (len v) (usize (src_vlen_remain c - written)) (usize (remain c - written))
      | None => mkCur di (src_iov_idx c) (dst_ptr c) (src_ptr c) (dst_vlen_remain c) (src_vlen_remain c)
                  (usize (remain c - written))
      end in
    let! cur := m_idx src (src_iov_idx c) in
    m_ret
      (if len cur =? 0 then
         let si := usize (src_iov_idx c + 1) in
         match zget src si with
         | Some v => mkCur (dst_iov_idx c') si (dst_ptr c') (buf v) (dst_vlen_remain c') (len v) (remain c')
         | None => mkCur (dst_iov_idx c') si (dst_ptr c') (src_ptr c') (dst_vlen_remain c') (src_vlen_remain c') (remain c')
         end
       else c').

Fixpoint write_loop (fuel : nat) (c : Cursor) : M Mem Z :=
  if remain c =? 0 then m_ret 0
  else if (dst_iov_idx c =? zlen dst) || (src_iov_idx c =? zlen src) then m_ret (remain c)
  else
    match fuel with
    | O => m_fault FuelOut
    | S fuel' => let! c' := write_step c in write_loop fuel' c'
    end.

(** src: device/virtio/iov.rs 134-203 [VirtioIov::write_through_iov]
    Each turn finishes a buffer of one vector. *)
Definition write_through_iov (total : Z) : M Mem Z :=
  let! dp := get_buf dst 0 in
  let! sv := m_idx src 0 in
  let! dn := get_len dst 0 in
  write_loop (length src + length dst) (mkCur 0 0 dp (buf sv) dn (len sv) total).
End write_through.

(** ** The copy of one list of addresses to another *)

(** The addresses of a vector's bytes, in order. *)
Definition bytes_of (b n : Z) : list Z := zrange b (Z.to_nat n).
Definition flat (l : VirtioIov) : list Z := l ≫= (fun v => bytes_of (buf v) (len v)).

(** Copy the bytes at [ss], read beforehand, to the first addresses of [ds]. *)
Definition copy_bytes (m : Mem) (ds ss : list Z) : Mem := write_at m ds (ld8 m <$> ss).

Lemma write_at_app m d1 d2 b1 b2 : length d1 = length b1 ->
  write_at m (d1 ++ d2) (b1 ++ b2) = write_at (write_at m d1 b1) d2 b2.
Proof.
  revert m b1. induction d1 as [|d d1 IH]; intros m [|b b1] Hl; try done.
  cbn [app write_at]. apply IH. by injection Hl.
Qed.

Lemma memcpy_copy m d s n : memcpy m d s n = copy_bytes m (bytes_of d n) (bytes_of s n).
Proof. done. Qed.

(** A copy may be done in two parts when the second part's source is not overwritten by the first. *)
Lemma copy_bytes_app m d1 d2 s1 s2 : length d1 = length s1 ->
  (forall x, x ∈ s2 -> x ∉ d1) ->
  copy_bytes m (d1 ++ d2) (s1 ++ s2) = copy_bytes (copy_bytes m d1 s1) d2 s2.
Proof.
  intros Hl Hd. unfold copy_bytes. rewrite fmap_app, write_at_app by by rewrite length_fmap.
  f_equal. apply list_fmap_ext. intros i x Hx. symmetry. apply ld8_write_out. apply Hd.
  by eapply list_elem_of_lookup_2.
Qed.

Lemma copy_bytes_nil m ds : copy_bytes m ds [] = m.
Proof. by destruct ds. Qed.

Lemma length_bytes_of b n : 0 <= n -> zlen (bytes_of b n) = n.
Proof. intros ?. unfold zlen, bytes_of. rewrite length_zrange. lia. Qed.

Lemma bytes_of_split b n k : 0 <= k <= n -> bytes_of b n = bytes_of b k ++ bytes_of (b + k) (n - k).
Proof.
  intros ?. unfold bytes_of. replace (Z.to_nat n) with (Z.to_nat k + Z.to_nat (n - k))%nat by lia.
  rewrite zrange_app. by rewrite Z2Nat.id by lia.
Qed.

Lemma bytes_of_0 b : bytes_of b 0 = [].
Proof. done. Qed.

Lemma zlen_cons {A} (a : A) l : zlen (a :: l) = 1 + zlen l.
Proof. unfold zlen. cbn [length]. lia. Qed.

Lemma drop_zget {A} (l : list A) i a :
  zget l i = Some a -> drop (Z.to_nat i) l = a :: drop (Z.to_nat (i + 1)) l.
Proof.
  unfold zget. destruct (Z.leb_spec 0 i); [|done]. intros E.
  replace (Z.to_nat (i + 1)) with (S (Z.to_nat i)) by lia. by apply drop_S.
Qed.

Lemma flat_cons v l : flat (v :: l) = bytes_of (buf v) (len v) ++ flat l.
Proof. done. Qed.

(** ** [write_through_iov] is that copy *)

Section write_through_spec.
Context (trace : bool) (src dst : VirtioIov).

(** A buffer does not wrap around, and with the address check on is above the first page. *)
Definition iov_ok (v : VirtioIovData) : Prop :=
  0 <= buf v /\ 0 <= len v /\ buf v + len v < 2 ^ 64 /\ (trace = true -> 0x1000 <= buf v).

Context (Hsrc : Forall iov_ok src) (Hdst : Forall iov_ok dst).
Context (Hls : zlen src < 2 ^ 63) (Hld : zlen dst < 2 ^ 63).

(** What is left of a vector when buffer [i] has [n] bytes left at [p]. *)
Definition left_of (l : VirtioIov) (i p n : Z) : list Z :=
  if i <? zlen l then bytes_of p n ++ flat (drop (Z.to_nat (i + 1)) l) else [].

(** The cursor is inside its buffers. *)
Definition at_ok (l : VirtioIov) (i p n : Z) : Prop :=
  0 <= i <= zlen l /\
  forall v, zget l i = Some v -> buf v <= p /\ 0 <= n /\ p + n = buf v + len v.

Lemma iov_at l i v : Forall iov_ok l -> zget l i = Some v -> iov_ok v.
Proof. intros Hl Hv. eapply (proj1 (list.Forall_forall _ _) Hl). unfold zget in Hv. destruct (0 <=? i); [|done]. by eapply list_elem_of_lookup_2. Qed.

Lemma at_start l i v : 0 <= i -> Forall iov_ok l -> zget l i = Some v -> at_ok l i (buf v) (len v).
Proof.
  intros Hi Hl Hv. pose proof (zget_Some_bounds _ _ _ Hv). split; [lia|].
  intros w Hw. rewrite Hv in Hw. injection Hw as <-. pose proof (iov_at l i v Hl Hv) as (? & ? & _). lia.
Qed.

Lemma left_start l i v : 0 <= i -> zget l i = Some v -> left_of l i (buf v) (len v) = flat (drop (Z.to_nat i) l).
Proof.
  intros Hi Hv. unfold left_of. rewrite (proj2 (Z.ltb_lt _ _)) by (apply zget_Some_bounds in Hv; lia).
  by rewrite (drop_zget l i v Hv).
Qed.

Lemma left_end l i p n : zlen l <= i -> left_of l i p n = [].
Proof. intros ?. unfold left_of. by rewrite (proj2 (Z.ltb_ge _ _)). Qed.

(** Taking the rest of a buffer leaves what the next one starts with. *)
Lemma left_next l i p n : 0 <= i < zlen l ->
  left_of l i p n = bytes_of p n ++
    match zget l (i + 1) with Some v => left_of l (i + 1) (buf v) (len v) | None => [] end.
Proof.
  intros Hi. unfold left_of at 1. rewrite (proj2 (Z.ltb_lt _ _)) by lia. f_equal.
  destruct (zget l (i + 1)) as [v|] eqn:E.
  - symmetry. apply left_start; [lia|done].
  - apply zget_None in E. rewrite drop_ge; [done|]. unfold zlen in *. lia.
Qed.

Lemma left_take l i p n k : 0 <= i < zlen l -> 0 <= k <= n ->
  left_of l i p n = bytes_of p k ++ left_of l i (p + k) (n - k).
Proof.
  intros Hi Hk. unfold left_of. rewrite (proj2 (Z.ltb_lt _ _)) by lia.
  by rewrite (bytes_of_split p n k Hk), <- app_assoc.
Qed.

Definition dst_left (c : Cursor) : list Z := left_of dst (dst_iov_idx c) (dst_ptr c) (dst_vlen_remain c).
Definition src_left (c : Cursor) : list Z := left_of src (src_iov_idx c) (src_ptr c) (src_vlen_remain c).

Record cur_ok (c : Cursor) : Prop := {
  cur_dst : at_ok dst (dst_iov_idx c) (dst_ptr c) (dst_vlen_remain c);
  cur_src : at_ok src (src_iov_idx c) (src_ptr c) (src_vlen_remain c);
  cur_remain : remain c = zlen (src_left c);
  cur_word : remain c < 2 ^ 64;
  cur_fits : zlen (src_left c) <= zlen (dst_left c);
}.

Definition turns (c : Cursor) : Z := (zlen dst - dst_iov_idx c) + (zlen src - src_iov_idx c).

(** What one turn copies, and the two ways it leaves the cursor: everything is copied, or the rest is
    still to do. *)
Definition step_post (c c' : Cursor) (k : Z) : Prop :=
  0 <= k /\
  ((remain c' = 0 /\ src_left c = bytes_of (src_ptr c) k /\ exists d, dst_left c = bytes_of (dst_ptr c) k ++ d) \/
   (src_left c = bytes_of (src_ptr c) k ++ src_left c' /\ dst_left c = bytes_of (dst_ptr c) k ++ dst_left c' /\
    cur_ok c' /\ turns c' < turns c)).

Lemma check_passes (m : Mem) c : cur_ok c -> dst_iov_idx c < zlen dst -> src_iov_idx c < zlen src ->
  (if trace && ((dst_ptr c <? 0x1000) || (src_ptr c <? 0x1000)) then m_fault ExplicitPanic else m_ret tt) m
    = Ret tt m.
Proof.
  intros [[Hd0 Hd] [Hs0 Hs] _ _ _] H1 H2.
  destruct (zget_in_bounds dst (dst_iov_idx c)) as [v Hv]; [lia|].
  destruct (zget_in_bounds src (src_iov_idx c)) as [w Hw]; [lia|].
  pose proof (iov_at _ _ _ Hdst Hv) as (_ & _ & _ & T1). pose proof (iov_at _ _ _ Hsrc Hw) as (_ & _ & _ & T2).
  specialize (Hd v Hv). specialize (Hs w Hw). destruct trace; [|done]. specialize (T1 eq_refl). specialize (T2 eq_refl).
  by rewrite !(proj2 (Z.ltb_ge _ _)) by lia.
Qed.

(** The next turn of a cursor whose rest is known. *)
Lemma cur_ok_next c c' k :
  cur_ok c -> 0 <= k ->
  at_ok dst (dst_iov_idx c') (dst_ptr c') (dst_vlen_remain c') ->
  at_ok src (src_iov_idx c') (src_ptr c') (src_vlen_remain c') ->
  src_left c = bytes_of (src_ptr c) k ++ src_left c' -> dst_left c = bytes_of (dst_ptr c) k ++ dst_left c' ->
  remain c' = usize (remain c - k) -> cur_ok c'.
Proof.
  intros [_ _ Hr Hw Hf] Hk H1 H2 Es Ed Er. rewrite Es, Ed, !zlen_app, !length_bytes_of in Hf by done.
  rewrite Es, zlen_app, length_bytes_of in Hr by done. pose proof (zlen_nonneg (src_left c')).
  rewrite wrap_small in Er by (unfold in_word; lia). split; [done|done|lia|lia|lia].
Qed.

Lemma finished_remain c k : cur_ok c -> 0 <= k -> src_left c = bytes_of (src_ptr c) k -> usize (remain c - k) = 0.
Proof. intros [_ _ Hr _ _] Hk E. rewrite Hr, E, length_bytes_of, Z.sub_diag by done. done. Qed.

Lemma write_step_spec c m :
  cur_ok c -> dst_iov_idx c < zlen dst -> src_iov_idx c < zlen src ->
  exists c' k, write_step trace src dst c m = Ret c' (memcpy m (dst_ptr c) (src_ptr c) k) /\ step_post c c' k.
Proof.
  intros Hc H1 H2. pose proof Hc as [[Hd0 Hd] [Hs0 Hs] Hr Hw Hf].
  destruct (zget_in_bounds dst (dst_iov_idx c)) as [dv Hdv]; [lia|].
  destruct (zget_in_bounds src (src_iov_idx c)) as [sv Hsv]; [lia|].
  pose proof (iov_at _ _ _ Hdst Hdv) as (Db & Dl & Dw & _). pose proof (iov_at _ _ _ Hsrc Hsv) as (Sb & Sl & Sw & _).
  specialize (Hd dv Hdv) as (Hd1 & Hd2 & Hd3). specialize (Hs sv Hsv) as (Hs1 & Hs2 & Hs3).
  unfold write_step. rewrite (wrap_small 64 (src_iov_idx c + 1)), (wrap_small 64 (dst_iov_idx c + 1)) by (unfold in_word; lia).
  pose proof (check_passes m c Hc H1 H2) as Hck.
  destruct (Z.ltb_spec (src_vlen_remain c) (dst_vlen_remain c)) as [Hlt|Hge].
  - set (k := src_vlen_remain c). eexists _, k.
    split; [rewrite (m_bind_Ret _ _ _ _ _ Hck); unfold m_modify, m_bind, m_ret; reflexivity|].
    split; [done|].
    pose proof (left_next src (src_iov_idx c) (src_ptr c) k ltac:(lia)) as Es. fold (src_left c) in Es.
    pose proof (left_take dst (dst_iov_idx c) (dst_ptr c) (dst_vlen_remain c) k ltac:(lia) ltac:(lia)) as Ed. fold (dst_left c) in Ed.
    destruct (zget src (src_iov_idx c + 1)) as [v|] eqn:Hv.
    + right. cbn [src_left dst_left src_iov_idx dst_iov_idx src_ptr dst_ptr src_vlen_remain dst_vlen_remain turns].
      rewrite !wrap_small by (unfold in_word; lia).
      set (c' := mkCur _ _ _ _ _ _ _). assert (src_left c = bytes_of (src_ptr c) k ++ src_left c') as Es' by done.
      assert (dst_left c = bytes_of (dst_ptr c) k ++ dst_left c') as Ed' by done.
      split_and!; [done|done| |unfold turns; cbn; lia].
      apply (cur_ok_next c _ k); try done.
      * split; [cbn; lia|]. cbn. intros w Hw'. rewrite Hdv in Hw'. injection Hw' as <-. lia.
      * apply at_start; [cbn; lia|done|done].
    + left. rewrite app_nil_r in Es. split_and!; [by apply finished_remain|done|by eexists].
  - set (k := dst_vlen_remain c).
    pose proof (left_next dst (dst_iov_idx c) (dst_ptr c) k ltac:(lia)) as Ed. change (left_of dst _ _ k) with (dst_left c) in Ed.
    pose proof (left_take src (src_iov_idx c) (src_ptr c) (src_vlen_remain c) k ltac:(lia) ltac:(lia)) as Es. fold (src_left c) in Es.
    pose proof (left_next src (src_iov_idx c) (src_ptr c) (src_vlen_remain c) ltac:(lia)) as Es0. fold (src_left c) in Es0.
    eexists _, k.
    split; [rewrite (m_bind_Ret _ _ _ _ _ Hck); unfold m_modify, m_bind, m_ret, m_idx, m_opt; rewrite Hsv; reflexivity|].
    split; [done|].
    destruct (zget dst (dst_iov_idx c + 1)) as [v|] eqn:Hv.
    2: { left. assert (src_left c = bytes_of (src_ptr c) k) as E.
      { rewrite Es. rewrite Es, Ed, app_nil_r, zlen_app, !length_bytes_of in Hf by done.
        destruct (left_of src _ _ _); [by rewrite app_nil_r|]. rewrite zlen_cons in Hf. pose proof (zlen_nonneg l). lia. }
      split_and!; [|done|by eexists].
      pose proof (finished_remain c k Hc Hd2 E) as Hfin.
      destruct (len sv =? 0); [destruct (zget src (src_iov_idx c + 1))|]; exact Hfin. }
    destruct (Z.eqb_spec (len sv) 0) as [Hz|Hnz].
    + assert (src_vlen_remain c = 0) as Hsr by lia. assert (k = 0) as Hk by (unfold k in *; lia).
      rewrite Hsr, bytes_of_0 in Es0.
      destruct (zget src (src_iov_idx c + 1)) as [w|] eqn:Hw'.
      * right. set (c' := mkCur _ _ _ _ _ _ _).
        assert (src_left c = bytes_of (src_ptr c) k ++ src_left c') as Es' by (rewrite Hk, bytes_of_0; done).
        assert (dst_left c = bytes_of (dst_ptr c) k ++ dst_left c') as Ed' by done.
        split_and!; [done|done| |unfold turns; cbn; lia].
        apply (cur_ok_next c _ k); try done; (apply at_start; [cbn; lia|done|done]).
      * left. split_and!; [|rewrite Hk, bytes_of_0; done|by eexists].
        apply finished_remain; [done|done|rewrite Hk, bytes_of_0; done].
    + right. rewrite (wrap_small 64 (src_ptr c + k)), (wrap_small 64 (src_vlen_remain c - k)) by (unfold in_word; lia).
      set (c' := mkCur _ _ _ _ _ _ _).
      assert (src_left c = bytes_of (src_ptr c) k ++ src_left c') as Es' by done.
      assert (dst_left c = bytes_of (dst_ptr c) k ++ dst_left c') as Ed' by done.
      split_and!; [done|done| |unfold turns; cbn; lia].
      apply (cur_ok_next c _ k); try done.
      * apply at_start; [cbn; lia|done|done].
      * split; [cbn; lia|]. cbn. intros w Hw'. rewrite Hsv in Hw'. injection Hw' as <-. lia.
Qed.

Lemma copy_bytes_excess m d1 d2 ss : length d1 = length ss -> copy_bytes m (d1 ++ d2) ss = copy_bytes m d1 ss.
Proof.
  intros Hl. unfold copy_bytes. rewrite <- (app_nil_r (ld8 m <$> ss)), write_at_app by by rewrite length_fmap.
  rewrite app_nil_r. by destruct d2.
Qed.

Lemma bytes_of_same_length a b n : length (bytes_of a n) = length (bytes_of b n).
Proof. unfold bytes_of. by rewrite !length_zrange. Qed.

Lemma write_loop_spec fuel c m :
  cur_ok c -> turns c <= Z.of_nat fuel ->
  (forall x, x ∈ src_left c -> x ∉ dst_left c) ->
  write_loop trace src dst fuel c m = Ret 0 (copy_bytes m (dst_left c) (src_left c)).
Proof.
  revert c m. induction fuel as [|fuel IH]; intros c m Hc Ht Hdis; cbn [write_loop].
  all: destruct (Z.eqb_spec (remain c) 0) as [Hr|Hr].
  1, 3: rewrite (cur_remain c Hc) in Hr; assert (src_left c = []) as ->
    by (destruct (src_left c); [done|rewrite zlen_cons in Hr; pose proof (zlen_nonneg l); lia]);
    by rewrite copy_bytes_nil.
  all: assert (dst_iov_idx c < zlen dst /\ src_iov_idx c < zlen src) as [H1 H2].
  1, 3: pose proof (cur_remain c Hc) as Hr'; pose proof (cur_fits c Hc) as Hf;
    destruct (Z.ltb_spec (dst_iov_idx c) (zlen dst)) as [Hd|Hd];
    [destruct (Z.ltb_spec (src_iov_idx c) (zlen src)) as [Hs|Hs]; [done|]|];
    [unfold src_left in Hr'; rewrite left_end in Hr' by done; by unfold zlen in Hr'
    |unfold dst_left in Hf; rewrite left_end in Hf by done; pose proof (zlen_nonneg (src_left c));
     unfold zlen at 2 in Hf; cbn in Hf; lia].
  - unfold turns in Ht. lia.
  - rewrite !(proj2 (Z.eqb_neq _ _)) by lia. cbn [orb].
    destruct (write_step_spec c m Hc H1 H2) as (c' & k & E & Hk & Hpost).
    rewrite (m_bind_Ret _ _ _ _ _ E), memcpy_copy.
    destruct Hpost as [(Hr0 & Es & d & Ed)|(Es & Ed & Hc' & Ht')].
    + assert (forall m', write_loop trace src dst fuel c' m' = Ret 0 m') as ->
        by (intros m'; destruct fuel; cbn [write_loop]; by rewrite Hr0).
      by rewrite Es, Ed, copy_bytes_excess by apply bytes_of_same_length.
    + rewrite IH; [|done|lia|].
      * rewrite Es, Ed, copy_bytes_app; [done|apply bytes_of_same_length|].
        intros x Hx Hx'. apply (Hdis x); [rewrite Es|rewrite Ed]; apply elem_of_app; [by right|by left].
      * intros x Hx Hx'. apply (Hdis x); [rewrite Es|rewrite Ed]; apply elem_of_app; by right.
Qed.
End write_through_spec.

Lemma flat_cursor l : flat l = match l with [] => [] | v :: l' => bytes_of (buf v) (len v) ++ flat l' end.
Proof. by destruct l. Qed.

Lemma ld8_copy_in m ds ss : NoDup ds -> (length ss <= length ds)%nat ->
  (ld8 (copy_bytes m ds ss) <$> take (length ss) ds) = ld8 m <$> ss.
Proof.
  intros Hn Hl. rewrite <- (take_drop (length ss) ds) in Hn |- * at 1.
  apply list.NoDup_app in Hn as (Hn & _ & _).
  rewrite copy_bytes_excess by (rewrite length_take; lia). unfold copy_bytes.
  apply ld_bytes_write; [done|rewrite length_take, length_fmap; lia|].
  apply list.Forall_forall. intros b (x & -> & _)%list_elem_of_fmap. apply ld8_range.
Qed.

Lemma write_through_iov_eq trace src dst m :
  src <> [] -> dst <> [] -> Forall (iov_ok trace) src -> Forall (iov_ok trace) dst ->
  zlen src < 2 ^ 63 -> zlen dst < 2 ^ 63 ->
  zlen (flat src) <= zlen (flat dst) -> zlen (flat src) < 2 ^ 64 ->
  (forall x, x ∈ flat src -> x ∉ flat dst) ->
  write_through_iov trace src dst (zlen (flat src)) m = Ret 0 (copy_bytes m (flat dst) (flat src)).
Proof.
  intros Hs Hd Hsrc Hdst Hls Hld Hfit Hword Hdis.
  destruct src as [|sv src]; [done|]. destruct dst as [|dv dst]; [done|].
  set (c := mkCur 0 0 (buf dv) (buf sv) (len dv) (len sv) (zlen (flat (sv :: src)))).
  assert (dst_left (dv :: dst) c = flat (dv :: dst)) as Ed by by apply (left_start _ 0 dv).
  assert (src_left (sv :: src) c = flat (sv :: src)) as Es by by apply (left_start _ 0 sv).
  assert (cur_ok (sv :: src) (dv :: dst) c) as Hc.
  { split; [by apply (at_start trace _ 0 dv)|by apply (at_start trace _ 0 sv)| | |]; rewrite ?Es, ?Ed; done. }
  pose proof (write_loop_spec trace (sv :: src) (dv :: dst) Hsrc Hdst Hls Hld
    (length (sv :: src) + length (dv :: dst)) c m Hc) as H.
  rewrite Es, Ed in H. apply H; [|done]. unfold turns, zlen. cbn [dst_iov_idx src_iov_idx c]. lia.
Qed.

(** C17. [write_through_iov] is the copy of one vector's bytes to the other's, whatever the sizes of
    the buffers: when the bytes to send are all of the source's, the destination has room and the two
    do not overlap, it returns 0 (nothing left) and memory is what copying the source's bytes, in
    order, to the destination's addresses gives; so the destination then reads as the source did, and
    nothing outside the destination has changed. *)
Theorem write_through_iov_copies trace src dst m :
  src <> [] -> dst <> [] -> Forall (iov_ok trace) src -> Forall (iov_ok trace) dst ->
  zlen src < 2 ^ 63 -> zlen dst < 2 ^ 63 ->
  zlen (flat src) <= zlen (flat dst) -> zlen (flat src) < 2 ^ 64 ->
  (forall x, x ∈ flat src -> x ∉ flat dst) ->
  let m' := copy_bytes m (flat dst) (flat src) in
  write_through_iov trace src dst (zlen (flat src)) m = Ret 0 m' /\
  (NoDup (flat dst) -> (ld8 m' <$> take (length (flat src)) (flat dst)) = ld8 m <$> flat src) /\
  (forall x, x ∉ flat dst -> ld8 m' x = ld8 m x).
Proof.
  intros Hs Hd Hsrc Hdst Hls Hld Hfit Hword Hdis m'. split_and!.
  - by apply write_through_iov_eq.
  - intros Hn. apply ld8_copy_in; [done|]. unfold zlen in Hfit. lia.
  - intros x Hx. by apply ld8_write_out.
Qed.

Definition demo_src : VirtioIov := [mkIov 0x1000 3; mkIov 0x1100 0; mkIov 0x1200 4].
Definition demo_dst : VirtioIov := [mkIov 0x2000 2; mkIov 0x2100 2; mkIov 0x2200 8].

Lemma write_through_iov_copies_witness :
  exists m', write_through_iov true demo_src demo_dst 7 (st8 ∅ 0x1200 99) = Ret 0 m' /\ ld8 m' 0x2101 = 99.
Proof.
  destruct (write_through_iov_copies true demo_src demo_dst (st8 ∅ 0x1200 99)) as (E & H & _).
  1, 2: done.
  1, 2: repeat constructor; done.
  1-4: done.
  - apply list.Forall_forall. apply (bool_decide_unpack _). vm_compute. exact I.
  - eexists. split; [exact E|].
    assert (NoDup (flat demo_dst)) as Hn by (apply (bool_decide_unpack _); vm_compute; exact I).
    specialize (H Hn). apply (f_equal (fun l => nth 3 l 0)) in H. etransitivity; [exact H|by vm_compute].
Defined.

(** ** It always comes to an end *)

Definition cur_in (src dst : VirtioIov) (c : Cursor) : Prop :=
  0 <= dst_iov_idx c <= zlen dst /\ 0 <= src_iov_idx c <= zlen src.

Lemma write_step_progress trace src dst c m :
  zlen src < 2 ^ 63 -> zlen dst < 2 ^ 63 -> cur_in src dst c ->
  dst_iov_idx c < zlen dst -> src_iov_idx c < zlen src ->
  (exists c' m', write_step trace src dst c m = Ret c' m' /\ cur_in src dst c' /\ turns src dst c' < turns src dst c) \/
  write_step trace src dst c m = Fault ExplicitPanic.
Proof.
  intros Hls Hld [Hd Hs] H1 H2. unfold write_step.
  rewrite (wrap_small 64 (src_iov_idx c + 1)), (wrap_small 64 (dst_iov_idx c + 1)) by (unfold in_word; lia).
  destruct (zget_in_bounds src (src_iov_idx c)) as [sv Hsv]; [lia|].
  munfold. unfold m_idx, m_opt. rewrite Hsv.
  destruct (src_vlen_remain c <? dst_vlen_remain c);
    (destruct (trace && _); [by right|left]; do 2 eexists; split; [done|]).
  - unfold cur_in, turns. destruct (zget src (src_iov_idx c + 1)); cbn [dst_iov_idx src_iov_idx]; lia.
  - unfold cur_in, turns. destruct (len sv =? 0), (zget src (src_iov_idx c + 1)), (zget dst (dst_iov_idx c + 1)); cbn [dst_iov_idx src_iov_idx]; lia.
Qed.

(** C18. [write_through_iov] terminates on every input: each turn of its loop finishes at least one
    buffer of one of the two vectors, so that [length src + length dst] turns are enough, whatever the
    lengths in the vectors and whatever number of bytes is asked for (even when [remain] wraps
    around). *)
Theorem write_through_iov_terminates trace src dst total m :
  zlen src < 2 ^ 63 -> zlen dst < 2 ^ 63 ->
  write_through_iov trace src dst total m <> Fault FuelOut.
Proof.
  intros Hls Hld.
  assert (forall fuel c m, cur_in src dst c -> turns src dst c <= Z.of_nat fuel ->
    write_loop trace src dst fuel c m <> Fault FuelOut) as Hloop.
  { clear m. induction fuel as [|fuel IH]; intros c m Hc Ht; cbn [write_loop];
      (destruct (remain c =? 0); [done|]);
      destruct (Z.eqb_spec (dst_iov_idx c) (zlen dst)) as [|Hd]; try done;
      destruct (Z.eqb_spec (src_iov_idx c) (zlen src)) as [|Hs]; try done;
      destruct Hc as [Hc1 Hc2]; cbn [orb].
    - unfold turns in Ht. lia.
    - destruct (write_step_progress trace src dst c m) as [(c' & m' & E & Hc' & Ht')|E]; try done; try lia.
      + rewrite (m_bind_Ret _ _ _ _ _ E). apply IH; [done|lia].
      + unfold m_bind. by rewrite E. }
  unfold write_through_iov, get_buf, get_len. unfold m_bind, m_idx, m_opt, m_ret.
  destruct (zget dst 0) as [dv|], (zget src 0) as [sv|]; try done.
  apply Hloop.
  - pose proof (zlen_nonneg src). pose proof (zlen_nonneg dst). unfold cur_in. cbn. lia.
  - unfold turns, zlen. cbn. lia.
Qed.

Lemma write_through_iov_terminates_witness :
  write_through_iov false [mkIov 0 9] [mkIov 16 1; mkIov 32 1] 1 ∅ <> Fault FuelOut.
Proof. apply write_through_iov_terminates; done. Defined.
