(* ===== verification/VirtioDev.v ===== *)
(** * VirtioDev: virtio devices and their state ([device/virtio/dev.rs], [mmio.rs], [mac.rs])

    A device has registers, queues and a configuration space and belongs to a VM.  The state of the
    component is guest memory, the devices (a device is referred to by its place in the list, for the
    shared pointers of the code), the table from MAC addresses to network devices, the registers of
    the core that handles the access, and a log of interrupts and IPIs. *)
From stdpp Require Import gmap list.
From S2P Require Import Prelude Bits GuestMem Virtq Iov Vm.

(** src: device/virtio/dev.rs 15-20 [VirtioDeviceType] *)
Inductive VirtioDeviceType := TypeNone | TypeNet | TypeBlock | TypeConsole.
Definition device_type_id (t : VirtioDeviceType) : Z :=
  match t with TypeNone => 0 | TypeNet => 1 | TypeBlock => 2 | TypeConsole => 3 end.

(** src: device/virtio/dev.rs 22-27 [DevDesc]
    With the fields that are set; the rest of the block descriptor is zero. *)
Inductive DevDesc :=
  | BlkDesc (capacity : Z)
  | NetDesc (mac : list Z) (status : Z)
  | ConsoleDesc (oppo_end_vmid oppo_end_ipa : Z).

(** src: device/virtio/blk.rs 145-148 [VirtioBlkReq] *)
Record VirtioBlkReq := mkVBlkReq { req_start : Z; req_size : Z; req_mediated : bool }.

(** src: device/virtio/dev.rs 29-36 [VirtDev] *)
Record VirtDev := mkDev {
  dev_type : VirtioDeviceType; int_id : Z; desc : DevDesc; features : Z;
  req : option VirtioBlkReq; activated : bool; generation : Z;
}.

(** src: device/virtio/mmio.rs 60-74 [VirtMmioRegs] *)
Record VirtMmioRegs := mkRegs {
  magic : Z; version : Z; device_id : Z; vendor_id : Z;
  dev_feature : Z; dev_feature_sel : Z; drv_feature : Z; drv_feature_sel : Z;
  q_sel : Z; q_num_max : Z; irt_stat : Z; irt_ack : Z; dev_stat : Z;
}.

(** src: device/virtio/mmio.rs 109-116 [VirtioInnerConst]
    With [VirtioMmioInnerMut]: [driver_features] and the registers. *)
Record VirtioMmio := mkMmio {
  base : Z; length : Z; queues : list Virtq; dev : VirtDev; upper_vm : Vm;
  driver_features : Z; regs : VirtMmioRegs;
}.

Inductive wevent :=
  | EvInject (vm int : Z)                  (** [interrupt_vm_inject] on this core *)
  | EvIpiInject (cpu vm int : Z)           (** the same, by IPI *)
  | EvIpiEthernet (cpu : Z) (nic : Z)
  | EvMediatedTask (vm dev queue : Z).     (** [add_async_task]: the executor is [AsyncTask] *)

Record World := mkWorld {
  wmem : Mem;
  devs : list VirtioMmio;
  mac2nic : list (list Z * Z);
  gprs : gmap Z Z;
  wlog : list wevent;
}.

Definition with_wmem m w := mkWorld m (devs w) (mac2nic w) (gprs w) (wlog w).
Definition with_devs d w := mkWorld (wmem w) d (mac2nic w) (gprs w) (wlog w).
Definition with_mac n w := mkWorld (wmem w) (devs w) n (gprs w) (wlog w).
Definition with_gprs g w := mkWorld (wmem w) (devs w) (mac2nic w) g (wlog w).
Definition with_wlog l w := mkWorld (wmem w) (devs w) (mac2nic w) (gprs w) l.

Definition with_queues q d := mkMmio (base d) (length d) q (dev d) (upper_vm d) (driver_features d) (regs d).
Definition with_dev x d := mkMmio (base d) (length d) (queues d) x (upper_vm d) (driver_features d) (regs d).
Definition with_features f d := mkMmio (base d) (length d) (queues d) (dev d) (upper_vm d) f (regs d).
Definition with_regs r d := mkMmio (base d) (length d) (queues d) (dev d) (upper_vm d) (driver_features d) r.

(** ** Access to the parts of the state *)

Definition wemit (e : wevent) : M World unit := m_modify (fun w => with_wlog (wlog w ++ [e]) w).

(** The device [d]; a reference always has its device. *)
Definition get_dev (d : Z) : M World VirtioMmio :=
  let! w := m_get in m_opt UnwrapNone (zget (devs w) d).
Definition put_dev (d : Z) (x : VirtioMmio) : M World unit :=
  m_modify (fun w => with_devs (zset (devs w) d x) w).
Definition mod_dev (d : Z) (f : VirtioMmio -> VirtioMmio) : M World unit :=
  let! x := get_dev d in put_dev d (f x).

Definition on_mem {A} (m : M Mem A) : M World A := fun w =>
  match m (wmem w) with
  | Ret a m' => Ret a (with_wmem m' w)
  | Fault f => Fault f
  end.

(** An operation on queue [i] of device [d]. *)
Definition on_vq {A} (d i : Z) (m : M QS A) : M World A := fun w =>
  match zget (devs w) d with
  | Some x =>
      match zget (queues x) i with
      | Some q =>
          match m (mkQS (wmem w) q) with
          | Ret a s => Ret a (with_wmem (qmem s) (with_devs (zset (devs w) d (with_queues (zset (queues x) i (vq s)) x)) w))
          | Fault f => Fault f
          end
      | None => Fault UnwrapNone
      end
  | None => Fault UnwrapNone
  end.

(** [vm.ipa2pa]: a region index past the list panics. *)
Definition w_ipa2pa (vm : Vm) (ipa : Z) : M World Z := m_opt OutOfBounds (ipa2pa vm ipa).

(** src: device/virtio/mmio.rs 394-399 [VirtioMmio::vq] *)
Definition has_vq (d i : Z) : M World bool :=
  let! x := get_dev d in m_ret (match zget (queues x) i with Some _ => true | None => false end).

(** ** Construction *)

(** src: device/virtio/blk.rs 43-45 [blk_features] *)
Definition blk_features : Z := Z.lor (Z.lor (Z.shiftl 1 32) (Z.shiftl 1 1)) (Z.shiftl 1 2).
(** src: device/virtio/net.rs 159-174 [net_features] *)
Definition net_features : Z := foldr (fun b r => Z.lor (Z.shiftl 1 b) r) 0 [32; 1; 5; 0; 7; 8; 10; 11; 12; 14; 13; 17; 21; 16].
(** src: device/virtio/console.rs 105-107 [console_features] *)
Definition console_features : Z := Z.lor (Z.shiftl 1 32) (Z.shiftl 1 0).

(** The configuration of an emulated virtio device. *)
Record VirtioCfg := mkVCfg { emu_cfg : VmEmulatedDeviceConfig; cfg_list : list Z; cfg_mediated : bool }.

(** src: device/virtio/net.rs 87-95 [NetDesc::new] *)
Definition net_desc_new (mac : list Z) : DevDesc :=
  let given := wrap 8 <$> take 6 mac in NetDesc (given ++ replicate (6 - List.length given) 0) 1.

(** src: device/virtio/dev.rs 40-79 [VirtDev::new] *)
Definition virt_dev_new (t : VirtioDeviceType) (c : VirtioCfg) : M World VirtDev :=
  let mk d f r := mkDev t (irq_id (emu_cfg c)) d f r false 0 in
  match t with
  | TypeBlock =>
      let! c1 := m_idx (cfg_list c) 1 in let! c0 := m_idx (cfg_list c) 0 in
      m_ret (mk (BlkDesc c1) blk_features (Some (mkVBlkReq c0 c1 (cfg_mediated c))))
  | TypeNet => m_ret (mk (net_desc_new (cfg_list c)) net_features None)
  | TypeConsole =>
      let! c0 := m_idx (cfg_list c) 0 in let! c1 := m_idx (cfg_list c) 1 in
      m_ret (mk (ConsoleDesc (u16 c0) c1) console_features None)
  | TypeNone => m_fault ExplicitPanic
  end.

(** src: device/virtio/mmio.rs 97-105 [VirtMmioRegs::init]
    From the default registers, which are zero. *)
Definition regs_init (t : VirtioDeviceType) : VirtMmioRegs :=
  mkRegs 0x74726976 2 (device_type_id t) 0x8888 0 0 0 0 0 0 0 0 0.

(** src: device/virtio/mmio.rs 156-202 [VirtioMmio::virtio_queue_init] *)
Definition virtio_queue_init (t : VirtioDeviceType) (mediated : bool) : Z * list Virtq :=
  match t with
  | TypeBlock => (256, [vq_new 0 (if mediated then NotifyMediatedBlk else NotifyBlk)])
  | TypeNet => (256, [vq_new 0 NotifyNet; vq_new 1 NotifyNet; vq_new 2 NotifyNetCtrl])
  | TypeConsole => (64, (fun i => vq_new i NotifyConsole) <$> zrange 0 4)
  | TypeNone => (0, [])
  end.

Definition set_q_num_max x r := mkRegs (magic r) (version r) (device_id r) (vendor_id r) (dev_feature r) (dev_feature_sel r) (drv_feature r) (drv_feature_sel r) (q_sel r) x (irt_stat r) (irt_ack r) (dev_stat r).

(** src: device/virtio/mmio.rs 126-142 [VirtioMmio::new]
    Followed by [init] and [virtio_queue_init], as [emu_virtio_mmio_init] does. *)
Definition mmio_new (vm : Vm) (t : VirtioDeviceType) (c : VirtioCfg) : M World VirtioMmio :=
  let! d := virt_dev_new t c in
  let '(qmax, qs) := virtio_queue_init t (cfg_mediated c && match t with TypeBlock => true | _ => false end) in
  m_ret (mkMmio (base_ipa (emu_cfg c)) (emu_length (emu_cfg c)) qs d vm 0 (set_q_num_max qmax (regs_init t))).

(** ** MAC addresses *)

(** The order of [BTreeMap]'s keys. *)
Fixpoint mac_ltb (a b : list Z) : bool :=
  match a, b with
  | x :: a', y :: b' => (x <? y) || ((x =? y) && mac_ltb a' b')
  | _, _ => false
  end.

(** src: device/virtio/mac.rs 25-27 [set_mac_info] *)
Fixpoint set_mac_info (mac : list Z) (nic : Z) (l : list (list Z * Z)) : list (list Z * Z) :=
  match l with
  | [] => [(mac, nic)]
  | (k, n) :: l' =>
      if mac_ltb mac k then (mac, nic) :: (k, n) :: l'
      else if mac_ltb k mac then (k, n) :: set_mac_info mac nic l'
      else (k, nic) :: l'
  end.

(** src: device/virtio/mac.rs 29-31 [mac_to_nic] *)
Fixpoint mac_to_nic (mac : list Z) (l : list (list Z * Z)) : option Z :=
  match l with
  | [] => None
  | (k, n) :: l' => if bool_decide (k = mac) then Some n else mac_to_nic mac l'
  end.

(** src: device/virtio/mac.rs 43-51 [remove_virtio_nic] *)
Definition remove_virtio_nic (vmid : Z) : M World unit :=
  m_modify (fun w => with_mac
    (List.filter (fun p => match zget (devs w) p.2 with Some d => negb (vm_id (upper_vm d) =? vmid) | None => false end)
       (mac2nic w)) w).

(** src: device/virtio/mmio.rs 749-781 [emu_virtio_mmio_init] *)
Definition emu_virtio_mmio_init (vm : Vm) (c : VirtioCfg) : M World (option Z) :=
  let t := match emu_type (emu_cfg c) with 3 => TypeBlock | 4 => TypeNet | 5 => TypeConsole | _ => TypeNone end in
  match t with
  | TypeNone => m_ret None
  | _ =>
      let! x := mmio_new vm t c in
      let! w := m_get in
      let d := zlen (devs w) in
      m_put (with_devs (devs w ++ [x]) w) >>;
      match t with
      | TypeNet =>
          let mac := wrap 8 <$> take 6 (cfg_list c) in
          (* [mac[0..6]] *)
          (if zlen mac <? 6 then m_fault OutOfBounds
           else m_modify (fun w => with_mac (set_mac_info mac d (mac2nic w)) w)) >>;
          m_ret (Some d)
      | _ => m_ret (Some d)
      end
  end.

(** ** Interrupts to the guest *)

Section notify.
(** The core that runs the handler. *)
Context (core : Z).

Definition set_irt_stat x r := mkRegs (magic r) (version r) (device_id r) (vendor_id r) (dev_feature r) (dev_feature_sel r) (drv_feature r) (drv_feature_sel r) (q_sel r) (q_num_max r) x (irt_ack r) (dev_stat r).

(** src: device/virtio/mmio.rs 235-258 [VirtioMmio::notify]
    [cause] is the bit set in the interrupt status: 1 for the queues; [notify_config] is the same
    with 2. *)
Definition notify_cause (cause d : Z) : M World unit :=
  mod_dev d (fun x => with_regs (set_irt_stat (Z.lor (irt_stat (regs x)) cause) (regs x)) x) >>;
  let! x := get_dev d in
  let vm := upper_vm x in
  let int := int_id (dev x) in
  let! target := m_opt UnwrapNone (vcpu vm 0) in
  if phys_id target =? core then wemit (EvInject (vm_id vm) int)
  else wemit (EvIpiInject (phys_id target) (vm_id vm) int).

Definition notify (d : Z) : M World unit := notify_cause 1 d.
(** src: device/virtio/mmio.rs 209-232 [VirtioMmio::notify_config] *)
Definition notify_config (d : Z) : M World unit := notify_cause 2 d.
End notify.
