(* ===== verification/VirtioNet.v ===== *)
(** * VirtioNet: network and console devices ([device/virtio/net.rs], [console.rs])

    The virtual switch: a frame a guest sends on its transmit queue is copied to the receive
    queue of the network device it is addressed to, or of all others; the console device sends to one
    peer.  Each handler walks descriptor chains that the guest wrote; the walks take fuel, since the
    guest can make a chain that never ends. *)
From stdpp Require Import gmap list.
From S2P Require Import Prelude Bits GuestMem Virtq Iov Vm VirtioDev.

Definition NET_HDR : Z := 12.

Section handlers.
(** The core that runs the handler, the address-check switch, and the other cores: how many there
    are and which one is the master of a VM. *)
Context (core : Z) (trace : bool) (cpu_count : Z) (vm_master : Z -> option Z).
(** Where the locals [ctrl] and [status] of [virtio_net_handle_ctrl] are on the stack. *)
Context (ctrl_addr status_addr : Z).
(** The list of VMs. *)
Context (vms : list Vm).

(** ** Reading a chain *)

(** src: device/virtio/net.rs 274-288 [virtio_net_notify_handler: the chain]
    Also the loop of [virtio_console_notify_handler]: the buffers of a chain and their total
    length; [None] when an address is not the guest's. *)
Fixpoint tx_chain (fuel : nat) (d i : Z) (vm : Vm) (idx len : Z) (iov : VirtioIov) : M World (option (VirtioIov * Z)) :=
  match fuel with
  | O => m_fault FuelOut
  | S fuel' =>
      let! ipa := on_vq d i (desc_addr idx) in
      let! addr := w_ipa2pa vm ipa in
      if addr =? 0 then m_ret None
      else
        let! n := on_vq d i (desc_len idx) in
        let iov := push_data iov addr n in
        let len := usize (len + n) in
        let! flags := on_vq d i (desc_flags idx) in
        if flags =? 0 then m_ret (Some (iov, len))
        else let! next := on_vq d i (desc_next idx) in tx_chain fuel' d i vm next len iov
  end.

(** src: device/virtio/net.rs 473-498 [ethernet_send_to: the chain]
    Also the loop of [virtio_console_recv]: buffers to receive [total] bytes. *)
Fixpoint rx_chain (fuel : nat) (d i : Z) (vm : Vm) (total idx len : Z) (iov : VirtioIov) : M World (option (VirtioIov * Z)) :=
  match fuel with
  | O => m_fault FuelOut
  | S fuel' =>
      let! ipa := on_vq d i (desc_addr idx) in
      let! dst := w_ipa2pa vm ipa in
      if dst =? 0 then m_ret None
      else
        let! n := on_vq d i (desc_len idx) in
        let iov := push_data iov dst n in
        let len := usize (len + n) in
        if total <=? len then m_ret (Some (iov, len))
        else
          let! flags := on_vq d i (desc_flags idx) in
          if negb (testm flags 1) then m_ret (Some (iov, len))
          else let! next := on_vq d i (desc_next idx) in rx_chain fuel' d i vm total next len iov
  end.

(** [pop_avail_desc_idx(avail_idx())]: the argument is evaluated first. *)
Definition pop_next (d i : Z) : M World (option Z) :=
  let! ai := on_vq d i avail_idx in on_vq d i (pop_avail_desc_idx ai).

(** ** Receiving *)

(** What [ethernet_send_to] and [virtio_console_recv] share: take a chain of receive buffers, copy
    the bytes ([prepare] runs before the copy) and publish the chain.  [fst]: there was a chain to
    take; [snd]: everything went well. *)
Definition receive (fuel : nat) (vm : Vm) (d : Z) (prepare : M World unit) (tx_iov : VirtioIov) (len : Z) : M World (bool * bool) :=
  let! head := pop_next d 0 in
  let! av := on_vq d 0 avail_is_avail in
  if negb av then m_ret (true, false)
  else
    match head with
    | None => m_ret (false, false)
    | Some head =>
        let! r := rx_chain fuel d 0 vm len head 0 [] in
        match r with
        | None => m_ret (true, false)
        | Some (rx_iov, rx_len) =>
            if rx_len <? len then on_vq d 0 put_back_avail_desc_idx >>; m_ret (true, false)
            else
              prepare >>;
              let! rest := on_mem (write_through_iov trace tx_iov rx_iov len) in
              if 0 <? rest then m_ret (true, false)
              else
                let! ok := on_vq d 0 (update_used_ring (u32 len) head) in
                m_ret (true, ok)
        end
    end.

(** src: device/virtio/net.rs 441-525 [ethernet_send_to] *)
Definition ethernet_send_to (fuel : nat) (vm : Vm) (nic : Z) (tx_iov : VirtioIov) (len : Z) : M World bool :=
  let! x := get_dev nic in
  if negb (activated (dev x)) then m_ret false
  else
    let! q := has_vq nic 0 in
    if negb q then m_ret false
    else
      let prepare :=
        let! b := get_buf tx_iov 0 in
        if trace && (b <? 0x1000) then m_fault ExplicitPanic
        else on_mem (m_modify (fun m => st16 m (b + 10) 1)) in   (* header.num_buffers = 1 *)
      let! r := receive fuel vm nic prepare tx_iov len in
      m_ret (r.1 && r.2).

(** src: device/virtio/console.rs 180-290 [virtio_console_recv]
    The loop over the pages of each buffer computes nothing.  A VM or device that is missing,
    and a queue without a buffer, count as success. *)
Definition virtio_console_recv (fuel : nat) (trgt_vmid trgt_ipa : Z) (tx_iov : VirtioIov) (len : Z) : M World bool :=
  match vm_by_id trgt_vmid vms with
  | None => m_ret true
  | Some vm =>
      let! w := m_get in
      let is_dev (x : VirtioMmio) := (vm_id (upper_vm x) =? trgt_vmid) && (base x <=? trgt_ipa) && (trgt_ipa <? usize (base x + length x)) in
      match List.find (fun p => is_dev p.2) (zip (zrange 0 (List.length (devs w))) (devs w)) with
      | None => m_ret true
      | Some (d, x) =>
          if negb (activated (dev x)) then m_ret false
          else
            let! q := has_vq d 0 in
            if negb q then m_ret false
            else
              let! r := receive fuel vm d (m_ret tt) tx_iov len in
              match r with
              | (false, _) => m_ret true
              | (true, false) => m_ret false
              | (true, true) => notify core d >>; m_ret true
              end
      end
  end.

(** ** Switching *)

(** [&frame[i]] *)
Definition byte_at (frame : list Z) (i : Z) : M World Z := m_idx frame i.

(** src: device/virtio/net.rs 528-530 [ethernet_is_arp] *)
Definition ethernet_is_arp (frame : list Z) : M World bool :=
  let! b := byte_at frame 12 in
  if b =? 8 then let! c := byte_at frame 13 in m_ret (c =? 6) else m_ret false.

(** src: device/virtio/net.rs 421-438 [ethernet_broadcast] *)
Fixpoint broadcast_to (fuel : nat) (nics : list (list Z * Z)) (tx_iov : VirtioIov) (len cur_vm : Z) : M World (list Z) :=
  match nics with
  | [] => m_ret []
  | (_, nic) :: nics' =>
      let! x := get_dev nic in
      let! sent :=
        if vm_id (upper_vm x) =? cur_vm then m_ret false
        else ethernet_send_to fuel (upper_vm x) nic tx_iov len in
      let! rest := broadcast_to fuel nics' tx_iov len cur_vm in
      m_ret (if sent : bool then nic :: rest else rest)
  end.
Definition ethernet_broadcast (fuel : nat) (tx_iov : VirtioIov) (len cur_vm : Z) : M World (list Z) :=
  let! w := m_get in broadcast_to fuel (mac2nic w) tx_iov len cur_vm.

(** src: device/virtio/net.rs 373-418 [ethernet_transmit]
    The devices that got the frame; [None] and the empty list are the same to the caller. *)
Definition ethernet_transmit (fuel : nat) (tx_iov : VirtioIov) (len : Z) (vm : Vm) : M World (list Z) :=
  if (len <? NET_HDR) || (len - NET_HDR <? 14) then m_ret []
  else
    let! frame := on_mem (get_ptr trace tx_iov NET_HDR) in
    if zlen frame <? 6 then m_fault OutOfBounds   (* frame[0..6] *)
    else if bool_decide (take 6 frame = replicate 6 255) then
      let! arp := ethernet_is_arp frame in
      if arp : bool then ethernet_broadcast fuel tx_iov len (vm_id vm) else m_ret []
    else
      let! b0 := byte_at frame 0 in
      let! b1 := byte_at frame 1 in
      if (b0 =? 0x33) && (b1 =? 0x33) then
        let! b12 := byte_at frame 12 in
        let! b13 := byte_at frame 13 in
        if negb ((b12 =? 0x86) && (b13 =? 0xdd)) then m_ret []
        else ethernet_broadcast fuel tx_iov len (vm_id vm)
      else
        let! w := m_get in
        match mac_to_nic (take 6 frame) (mac2nic w) with
        | Some nic =>
            let! x := get_dev nic in
            let! ok := ethernet_send_to fuel (upper_vm x) nic tx_iov len in
            m_ret (if ok : bool then [nic] else [])
        | None => m_ret []
        end.

(** src: device/virtio/net.rs 269-303 [virtio_net_notify_handler: the loop]
    [None] for [return false]. *)
Fixpoint net_tx_loop (fuel : nat) (d i : Z) (vm : Vm) : M World (option (list Z)) :=
  match fuel with
  | O => m_fault FuelOut
  | S fuel' =>
      let! head := pop_next d i in
      match head with
      | None => m_ret (Some [])
      | Some head =>
          let! r := tx_chain fuel d i vm head 0 [] in
          match r with
          | None => m_ret None
          | Some (tx_iov, len) =>
              let! sent := ethernet_transmit fuel tx_iov len vm in
              let! ok := on_vq d i (update_used_ring (u32 (len - NET_HDR)) head) in
              if negb ok then m_ret None
              else
                let! rest := net_tx_loop fuel' d i vm in
                m_ret (match rest with Some l => Some (sent ++ l) | None => None end)
          end
      end
  end.

(** The receive queue of [nic] is ready and wants interrupts. *)
Definition rx_wants_irq (nic : Z) : M World bool :=
  let! q := on_vq nic 0 (m_gets (fun s => ready (vq s))) in
  if q =? 0 then m_ret false
  else let! f := on_vq nic 0 avail_flags in m_ret (f =? 0).

(** src: device/virtio/net.rs 311-338 [virtio_net_notify_handler: the devices that received] *)
Fixpoint notify_receivers (nics : list Z) : M World bool :=
  match nics with
  | [] => m_ret true
  | nic :: nics' =>
      let! x := get_dev nic in
      let! target := m_opt UnwrapNone (vcpu (upper_vm x) 0) in
      if phys_id target =? core then
        let! q := has_vq nic 0 in
        if negb q then m_ret false
        else
          let! want := rx_wants_irq nic in
          (if want : bool then notify core nic else m_ret tt) >>; notify_receivers nics'
      else
        match vm_master (vm_id (upper_vm x)) with
        | Some cpu =>
            if cpu_count <=? cpu then m_ret false
            else wemit (EvIpiEthernet cpu nic) >>; notify_receivers nics'
        | None => m_ret false
        end
  end.

(** src: device/virtio/net.rs 252-341 [virtio_net_notify_handler] *)
Definition virtio_net_notify_handler (fuel : nat) (d i : Z) (vm : Vm) : M World bool :=
  let! rdy := on_vq d i (m_gets (fun s => ready (vq s))) in
  if rdy =? 0 then m_ret false
  else
    let! ix := on_vq d i (m_gets (fun s => vq_index (vq s))) in
    if negb (ix =? 1) then m_ret true
    else
      let! r := net_tx_loop fuel d i vm in
      match r with
      | None => m_ret false
      | Some nics =>
          let! av := on_vq d i avail_is_avail in
          if negb av then m_ret false
          else notify core d >>; notify_receivers nics
      end.

(** src: device/virtio/net.rs 344-368 [ethernet_ipi_rev_handler] *)
Definition ethernet_ipi_rev_handler (nic : Z) : M World unit :=
  let! q := has_vq nic 0 in
  if negb q then m_ret tt
  else
    let! want := rx_wants_irq nic in
    if want : bool then notify core nic else m_ret tt.

(** src: device/virtio/net.rs 539-547 [virtio_net_announce]
    VMs are compared by identity: their id. *)
Definition virtio_net_announce (vmid : Z) : M World unit :=
  let! w := m_get in
  m_for (mac2nic w) (fun p =>
    let! x := get_dev p.2 in
    if vm_id (upper_vm x) =? vmid then notify_config core p.2 else m_ret tt).

(** ** The control queue *)

(** src: device/virtio/net.rs 197-217 [virtio_net_handle_ctrl: the chain] *)
Fixpoint ctrl_chain (fuel : nat) (d i : Z) (vm : Vm) (idx len : Z) (out_iov in_iov : VirtioIov)
  : M World (option (VirtioIov * VirtioIov * Z)) :=
  match fuel with
  | O => m_fault FuelOut
  | S fuel' =>
      let! ipa := on_vq d i (desc_addr idx) in
      let! addr := w_ipa2pa vm ipa in
      if addr =? 0 then m_ret None
      else
        let! flags := on_vq d i (desc_flags idx) in
        let! n := on_vq d i (desc_len idx) in
        let wr := testm flags VIRTQ_DESC_F_WRITE in
        let in_iov := if wr then push_data in_iov addr n else in_iov in
        let out_iov := if wr then out_iov else push_data out_iov addr n in
        let len := usize (len + n) in
        if negb (flags =? VIRTQ_DESC_F_NEXT) then m_ret (Some (out_iov, in_iov, len))
        else let! next := on_vq d i (desc_next idx) in ctrl_chain fuel' d i vm next len out_iov in_iov
  end.

Definition set_net_status (st : Z) (x : VirtioMmio) : VirtioMmio :=
  let v := dev x in
  with_dev (mkDev (dev_type v) (int_id v)
    (match desc v with NetDesc mac _ => NetDesc mac st | o => o end) (features v) (req v) (activated v) (generation v)) x.

(** src: device/virtio/net.rs 218-238 [virtio_net_handle_ctrl: one command] *)
Definition ctrl_command (d : Z) (out_iov in_iov : VirtioIov) : M World unit :=
  on_mem (m_modify (fun m => to_buf out_iov ctrl_addr 2 (st16 m ctrl_addr 0))) >>;
  let! class := on_mem (m_gets (fun m => ld8 m ctrl_addr)) in
  let! command := on_mem (m_gets (fun m => ld8 m (ctrl_addr + 1))) in
  if class =? 3 then
    let! status :=
      if command =? 0 then
        let! x := get_dev d in
        match desc (dev x) with
        | NetDesc _ _ => mod_dev d (set_net_status 1) >>; m_ret 0
        | _ => m_fault ExplicitPanic
        end
      else m_ret 1 in
    on_mem (m_modify (fun m => from_buf in_iov status_addr 1 (st8 m status_addr status)))
  else m_ret tt.

Fixpoint ctrl_loop (fuel : nat) (d i : Z) (vm : Vm) : M World bool :=
  match fuel with
  | O => m_fault FuelOut
  | S fuel' =>
      let! head := pop_next d i in
      match head with
      | None => m_ret true
      | Some head =>
          let! r := ctrl_chain fuel d i vm head 0 [] [] in
          match r with
          | None => m_ret false
          | Some (out_iov, in_iov, len) =>
              ctrl_command d out_iov in_iov >>;
              let! ok := on_vq d i (update_used_ring (u32 len) head) in
              if negb ok then m_ret false else ctrl_loop fuel' d i vm
          end
      end
  end.

(** src: device/virtio/net.rs 182-248 [virtio_net_handle_ctrl] *)
Definition virtio_net_handle_ctrl (fuel : nat) (d i : Z) (vm : Vm) : M World bool :=
  let! rdy := on_vq d i (m_gets (fun s => ready (vq s))) in
  if rdy =? 0 then m_ret false
  else
    let! ok := ctrl_loop fuel d i vm in
    if negb ok then m_ret false else notify core d >>; m_ret true.

(** ** The console *)

Fixpoint console_loop (fuel : nat) (d i : Z) (vm : Vm) (trgt_vmid trgt_ipa : Z) : M World bool :=
  match fuel with
  | O => m_fault FuelOut
  | S fuel' =>
      let! head := pop_next d i in
      match head with
      | None => m_ret true
      | Some head =>
          let! r := tx_chain fuel d i vm head 0 [] in
          match r with
          | None => m_ret false
          | Some (tx_iov, len) =>
              let! _ := virtio_console_recv fuel trgt_vmid trgt_ipa tx_iov len in
              let! ok := on_vq d i (update_used_ring (u32 len) head) in
              if negb ok then m_ret false else console_loop fuel' d i vm trgt_vmid trgt_ipa
          end
      end
  end.

(** src: device/virtio/console.rs 112-176 [virtio_console_notify_handler] *)
Definition virtio_console_notify_handler (fuel : nat) (d i : Z) (vm : Vm) : M World bool :=
  let! ix := on_vq d i (m_gets (fun s => vq_index (vq s))) in
  if negb (ix mod 4 =? 1) then m_ret true
  else
    let! rdy := on_vq d i (m_gets (fun s => ready (vq s))) in
    if rdy =? 0 then m_ret false
    else
      let! x := get_dev d in
      match desc (dev x) with
      | ConsoleDesc trgt_vmid trgt_ipa =>
          let! ok := console_loop fuel d i vm trgt_vmid trgt_ipa in
          if negb ok then m_ret false
          else
            let! av := on_vq d i avail_is_avail in
            if negb av then m_ret false else notify core d >>; m_ret true
      | _ => m_ret false
      end.
End handlers.
