(* ===== verification/VirtioBlk.v ===== *)
(** * VirtioBlk: parsing block requests ([device/virtio/blk.rs])

    When a guest's requests are processed, [virtio_blk_notify_handler] takes all chains its driver has
    published: a header that says what is asked for, buffers, and a byte for the status.  The
    requests it builds are what [AsyncTask.generate_blk_req] turns into I/O tasks. *)
From stdpp Require Import gmap list.
From S2P Require Import Prelude Bits GuestMem Virtq Iov Vm VirtioDev.
From S2P Require AsyncTask.

Abbreviation ReqNode := AsyncTask.ReqNode.

(** src: device/virtio/blk.rs 207-217 [VirtioBlkReqNode::default] *)
Definition req_default : ReqNode := AsyncTask.mkNode 0 0 0 [] 0 0.

(** src: device/virtio/blk.rs 31-41 [request types and status codes] *)
Definition VIRTIO_BLK_T_GET_ID : Z := 8.
Definition VIRTIO_BLK_S_OK : Z := 0.
Definition VIRTIO_BLK_S_UNSUPP : Z := 2.

Definition req_head (h : Z) (n : ReqNode) : ReqNode :=
  AsyncTask.mkNode (AsyncTask.rn_req_type n) (AsyncTask.rn_sector n) h (AsyncTask.rn_iov n) (AsyncTask.rn_iov_sum_up n) (AsyncTask.rn_iov_total n).
Definition req_type_sector (t s : Z) (n : ReqNode) : ReqNode :=
  AsyncTask.mkNode t s (AsyncTask.rn_desc_chain_head_idx n) (AsyncTask.rn_iov n) (AsyncTask.rn_iov_sum_up n) (AsyncTask.rn_iov_total n).
(** [iov_sum_up += iov.len; iov.push(iov)] *)
Definition req_push (a l : Z) (n : ReqNode) : ReqNode :=
  AsyncTask.mkNode (AsyncTask.rn_req_type n) (AsyncTask.rn_sector n) (AsyncTask.rn_desc_chain_head_idx n)
    (AsyncTask.rn_iov n ++ [AsyncTask.mkBlkIov a l]) (usize (AsyncTask.rn_iov_sum_up n + l)) (AsyncTask.rn_iov_total n).
(** [iov_total = iov_sum_up] *)
Definition req_total (n : ReqNode) : ReqNode :=
  AsyncTask.mkNode (AsyncTask.rn_req_type n) (AsyncTask.rn_sector n) (AsyncTask.rn_desc_chain_head_idx n)
    (AsyncTask.rn_iov n) (AsyncTask.rn_iov_sum_up n) (AsyncTask.rn_iov_sum_up n).

Section blk.
(** The core that runs the handler and the VM that is active on it. *)
Context (core active_vm_id : Z).

(** The status the guest is given for a request of this type. *)
Definition blk_status (req_type : Z) : Z :=
  if (1 <? req_type) && negb (req_type =? VIRTIO_BLK_T_GET_ID) then VIRTIO_BLK_S_UNSUPP else VIRTIO_BLK_S_OK.

(** src: device/virtio/blk.rs 461-539 [virtio_blk_notify_handler: one chain]
    [head]: the header is still to be read; [None] for [return false]. *)
Fixpoint blk_chain (fuel : nat) (d i : Z) (vm : Vm) (head : bool) (idx : Z) (node : ReqNode) : M World (option ReqNode) :=
  match fuel with
  | O => m_fault FuelOut
  | S fuel' =>
      let! more := on_vq d i (desc_has_next idx) in
      if more : bool then
        let! flags := on_vq d i (desc_flags idx) in
        let! r :=
          if head then
            if testm flags VIRTQ_DESC_F_WRITE then notify core d >>; m_ret None
            else
              let! ipa := on_vq d i (desc_addr idx) in
              let! vreq := w_ipa2pa vm ipa in
              if vreq =? 0 then m_ret None
              else
                let! t := on_mem (m_gets (fun m => ld32 m vreq)) in
                let! s := on_mem (m_gets (fun m => ld64 m (vreq + 8))) in
                m_ret (Some (req_type_sector t s node))
          else if Z.shiftr (Z.land flags 2) 1 =? AsyncTask.rn_req_type node then notify core d >>; m_ret None
          else
            let! ipa := on_vq d i (desc_addr idx) in
            let! data_bg := w_ipa2pa vm ipa in
            if data_bg =? 0 then m_ret None
            else let! n := on_vq d i (desc_len idx) in m_ret (Some (req_push data_bg n node)) in
        match r with
        | None => m_ret None
        | Some node =>
            let! next := on_vq d i (desc_next idx) in blk_chain fuel' d i vm false next node
        end
      else
        let! wr := on_vq d i (desc_is_writable idx) in
        if negb wr then notify core d >>; m_ret None
        else
          let! ipa := on_vq d i (desc_addr idx) in
          let! vstatus := w_ipa2pa vm ipa in
          if vstatus =? 0 then m_ret None
          else
            on_mem (m_modify (fun m => st8 m vstatus (blk_status (AsyncTask.rn_req_type node)))) >>;
            m_ret (Some node)
  end.

(** src: device/virtio/blk.rs 448-545 [virtio_blk_notify_handler: the loop] *)
Fixpoint blk_loop (fuel : nat) (d i : Z) (vm : Vm) (avail_idx : Z) : M World (option (list ReqNode)) :=
  match fuel with
  | O => m_fault FuelOut
  | S fuel' =>
      let! o := on_vq d i (pop_avail_desc_idx avail_idx) in
      match o with
      | None => m_ret (Some [])
      | Some h =>
          on_vq d i disable_notify >>;
          let! last := on_vq d i (check_avail_idx avail_idx) in
          (if last : bool then on_vq d i enable_notify else m_ret tt) >>;
          let! r := blk_chain fuel d i vm true h (req_head h req_default) in
          match r with
          | None => m_ret None
          | Some node =>
              let! rest := blk_loop fuel' d i vm avail_idx in
              m_ret (match rest with Some l => Some (req_total node :: l) | None => None end)
          end
      end
  end.

(** src: device/virtio/blk.rs 419-545 [virtio_blk_notify_handler: up to the list of requests] *)
Definition blk_requests (fuel : nat) (d i : Z) (vm : Vm) : M World (option (list ReqNode)) :=
  if (vm_id vm =? 0) && (active_vm_id =? 0) then m_fault ExplicitPanic
  else
    let! ai := on_vq d i avail_idx in
    let! rdy := on_vq d i (m_gets (fun s => ready (vq s))) in
    if rdy =? 0 then m_ret None
    else
      let! x := get_dev d in
      match req (dev x) with
      | None => m_fault ExplicitPanic
      | Some _ => blk_loop fuel d i vm ai
      end.
End blk.
