(* ===== verification/VirtioMmio.v ===== *)
(** * VirtioMmio: the register file of a virtio device ([device/virtio/mmio.rs])

    What a guest's access to a page of virtio registers does: feature negotiation, status and reset,
    the set-up of queues, notification of a queue, the configuration space. *)
From stdpp Require Import gmap list.
From S2P Require Import Prelude Bits GuestMem Virtq Iov Vm VirtioDev VirtioNet VirtioBlk.
From S2P Require VgicDist.

Abbreviation EmuContext := VgicDist.EmuContext.
Abbreviation mkEmu := VgicDist.mkEmu.

(** ** The registers of the core *)

(** src: kernel/cpu.rs 23-23 [CONTEXT_GPR_NUM]
    On AArch64. *)
Definition CONTEXT_GPR_NUM : Z := 31.
(** src: kernel/cpu.rs 162-167 [set_gpr] *)
Definition set_gpr (i v : Z) : M World unit :=
  if CONTEXT_GPR_NUM <=? i then m_ret tt else m_modify (fun w => with_gprs (<[i := v]> (gprs w)) w).
(** src: kernel/cpu.rs 169-174 [get_gpr] *)
Definition get_gpr (i : Z) : M World Z :=
  if CONTEXT_GPR_NUM <=? i then m_ret 0 else m_gets (fun w => default 0 (gprs w !! i)).

(** ** Setters of the register file *)

(** src: device/virtio/mmio.rs 275-278 [VirtioMmio::set_irt_stat] *)
Definition mmio_set_irt_stat (d x : Z) : M World unit := mod_dev d (fun v => with_regs (set_irt_stat x (regs v)) v).
Definition set_irt_ack (x : Z) (r : VirtMmioRegs) : VirtMmioRegs :=
  mkRegs (magic r) (version r) (device_id r) (vendor_id r) (dev_feature r) (dev_feature_sel r) (drv_feature r) (drv_feature_sel r) (q_sel r) (q_num_max r) (irt_stat r) x (dev_stat r).
(** src: device/virtio/mmio.rs 281-284 [VirtioMmio::set_irt_ack] *)
Definition mmio_set_irt_ack (d x : Z) : M World unit := mod_dev d (fun v => with_regs (set_irt_ack x (regs v)) v).
Definition set_q_sel (x : Z) (r : VirtMmioRegs) : VirtMmioRegs :=
  mkRegs (magic r) (version r) (device_id r) (vendor_id r) (dev_feature r) (dev_feature_sel r) (drv_feature r) (drv_feature_sel r) x (q_num_max r) (irt_stat r) (irt_ack r) (dev_stat r).
(** src: device/virtio/mmio.rs 287-290 [VirtioMmio::set_q_sel] *)
Definition mmio_set_q_sel (d x : Z) : M World unit := mod_dev d (fun v => with_regs (set_q_sel x (regs v)) v).
Definition set_dev_stat (x : Z) (r : VirtMmioRegs) : VirtMmioRegs :=
  mkRegs (magic r) (version r) (device_id r) (vendor_id r) (dev_feature r) (dev_feature_sel r) (drv_feature r) (drv_feature_sel r) (q_sel r) (q_num_max r) (irt_stat r) (irt_ack r) x.
(** src: device/virtio/mmio.rs 293-296 [VirtioMmio::set_dev_stat] *)
Definition mmio_set_dev_stat (d x : Z) : M World unit := mod_dev d (fun v => with_regs (set_dev_stat x (regs v)) v).
Definition set_dev_feature (x : Z) (r : VirtMmioRegs) : VirtMmioRegs :=
  mkRegs (magic r) (version r) (device_id r) (vendor_id r) x (dev_feature_sel r) (drv_feature r) (drv_feature_sel r) (q_sel r) (q_num_max r) (irt_stat r) (irt_ack r) (dev_stat r).
(** src: device/virtio/mmio.rs 299-302 [VirtioMmio::set_dev_feature] *)
Definition mmio_set_dev_feature (d x : Z) : M World unit := mod_dev d (fun v => with_regs (set_dev_feature x (regs v)) v).
Definition set_dev_feature_sel (x : Z) (r : VirtMmioRegs) : VirtMmioRegs :=
  mkRegs (magic r) (version r) (device_id r) (vendor_id r) (dev_feature r) x (drv_feature r) (drv_feature_sel r) (q_sel r) (q_num_max r) (irt_stat r) (irt_ack r) (dev_stat r).
(** src: device/virtio/mmio.rs 305-308 [VirtioMmio::set_dev_feature_sel] *)
Definition mmio_set_dev_feature_sel (d x : Z) : M World unit := mod_dev d (fun v => with_regs (set_dev_feature_sel x (regs v)) v).
Definition set_drv_feature (x : Z) (r : VirtMmioRegs) : VirtMmioRegs :=
  mkRegs (magic r) (version r) (device_id r) (vendor_id r) (dev_feature r) (dev_feature_sel r) x (drv_feature_sel r) (q_sel r) (q_num_max r) (irt_stat r) (irt_ack r) (dev_stat r).
(** src: device/virtio/mmio.rs 311-314 [VirtioMmio::set_drv_feature] *)
Definition mmio_set_drv_feature (d x : Z) : M World unit := mod_dev d (fun v => with_regs (set_drv_feature x (regs v)) v).
(** src: device/virtio/mmio.rs 317-320 [VirtioMmio::set_drv_feature_sel]
    It assigns [drv_feature]. *)
Definition mmio_set_drv_feature_sel (d x : Z) : M World unit := mod_dev d (fun v => with_regs (set_drv_feature x (regs v)) v).
(** src: device/virtio/mmio.rs 323-326 [VirtioMmio::or_driver_feature] *)
Definition or_driver_feature (d x : Z) : M World unit := mod_dev d (fun v => with_features (Z.lor (driver_features v) x) v).
(** src: device/virtio/dev.rs 114-117 [VirtDev::set_activated] *)
Definition set_activated (a : bool) (v : VirtDev) : VirtDev :=
  mkDev (dev_type v) (int_id v) (desc v) (features v) (req v) a (generation v).

(** src: device/virtio/mmio.rs 261-272 [VirtioMmio::dev_reset] *)
Definition dev_reset (d : Z) : M World unit :=
  mod_dev d (fun v => with_regs (set_irt_stat 0 (set_dev_stat 0 (regs v))) v) >>;
  let! v := get_dev d in
  let! _ := m_idx (queues v) (q_sel (regs v)) in     (* vq[idx].set_ready(0): then reset as well *)
  mod_dev d (fun v => with_dev (set_activated false (dev v)) (with_queues (vq_reset <$> queues v) v)).

(** ** The configuration space *)

(** src: device/virtio/blk.rs 110-126 [BlkDescInner]
    The bytes of the fields; those of padding are not given. *)
Definition blk_desc_byte (capacity o : Z) : option Z :=
  let le (v k : Z) := Some (Z.land (Z.shiftr v (8 * k)) 255) in
  if (0 <=? o) && (o <? 8) then le capacity o
  else if (8 <=? o) && (o <? 12) then le (128 * 4096) (o - 8)
  else if (12 <=? o) && (o <? 16) then le 512 (o - 12)
  else if ((16 <=? o) && (o <? 20)) || ((24 <=? o) && (o <? 68)) then Some 0
  else None.

(** src: device/virtio/net.rs 135-138 [NetDescInner] *)
Definition net_desc_byte (mac : list Z) (status o : Z) : option Z :=
  if (0 <=? o) && (o <? 6) then zget mac o
  else if o =? 6 then Some (status mod 256)
  else if o =? 7 then Some (status / 256)
  else None.

Section mmio.
(** The core that runs the handler, the address-check switch, the other cores, the stack locals and
    the VMs as in [VirtioNet]; the VM that is active; what is in memory where a
    descriptor has no field; and the fuel for the loops of the notification handlers. *)
Context (core : Z) (trace : bool) (cpu_count : Z) (vm_master : Z -> option Z).
Context (ctrl_addr status_addr : Z) (vms : list Vm).
Context (active_vm : option Vm) (beyond : DevDesc -> Z -> Z) (fuel : nat).

Definition desc_byte (x : DevDesc) (o : Z) : Z :=
  default (beyond x o)
    match x with
    | BlkDesc c => blk_desc_byte c o
    | NetDesc mac st => net_desc_byte mac st o
    | ConsoleDesc _ _ => None
    end.

(** src: device/virtio/blk.rs 95-104 [BlkDesc::offset_data]
    Also [NetDesc::offset_data]: a load of 1, 2, 4 or 8 bytes, 0 for another width. *)
Definition offset_data (x : DevDesc) (offset width : Z) : Z :=
  if (width =? 1) || (width =? 2) || (width =? 4) || (width =? 8) then
    foldr (fun b r => b + 256 * r) 0 ((fun o => desc_byte x o) <$> zrange offset (Z.to_nat width))
  else 0.

(** src: device/virtio/mmio.rs 703-746 [virtio_mmio_cfg_access] *)
Definition virtio_mmio_cfg_access (d : Z) (ctx : EmuContext) (offset : Z) (write : bool) : M World unit :=
  if negb write then
    let! v := get_dev d in
    if offset =? 0xfc then set_gpr (VgicDist.reg ctx) (generation (dev v))
    else if (0x100 <=? offset) && (offset <=? 0x1ff) then
      match desc (dev v) with
      | ConsoleDesc _ _ => m_fault ExplicitPanic
      | x => set_gpr (VgicDist.reg ctx) (offset_data x (offset - 0x100) (VgicDist.width ctx))
      end
    else m_ret tt
  else m_ret tt.

(** ** Features and status *)

(** src: device/virtio/mmio.rs 426-503 [virtio_mmio_prologue_access] *)
Definition virtio_mmio_prologue_access (d : Z) (ctx : EmuContext) (offset : Z) (write : bool) : M World unit :=
  if negb write then
    let! v := get_dev d in
    let r := regs v in
    if offset =? 0x000 then set_gpr (VgicDist.reg ctx) (magic r)
    else if offset =? 0x004 then set_gpr (VgicDist.reg ctx) (version r)
    else if offset =? 0x008 then set_gpr (VgicDist.reg ctx) (device_id r)
    else if offset =? 0x00c then set_gpr (VgicDist.reg ctx) (vendor_id r)
    else if offset =? 0x010 then
      let value := if negb (dev_feature_sel r =? 0) then u32 (Z.shiftr (features (dev v)) 32) else u32 (features (dev v)) in
      mmio_set_dev_feature d value >>; set_gpr (VgicDist.reg ctx) value
    else if offset =? 0x070 then set_gpr (VgicDist.reg ctx) (dev_stat r)
    else m_ret tt
  else
    let! g := get_gpr (VgicDist.reg ctx) in
    let value := u32 g in
    if offset =? 0x014 then mmio_set_dev_feature_sel d value
    else if offset =? 0x020 then
      mmio_set_drv_feature d value >>;
      let! v := get_dev d in
      if negb (drv_feature_sel (regs v) =? 0) then or_driver_feature d (shlw 64 value 32)
      else or_driver_feature d value
    else if offset =? 0x024 then mmio_set_drv_feature_sel d value
    else if offset =? 0x070 then
      mmio_set_dev_stat d value >>;
      if value =? 0 then dev_reset d
      else if value =? 0xf then mod_dev d (fun v => with_dev (set_activated true (dev v)) v)
      else m_ret tt
    else m_ret tt.

(** ** Queues *)

(** [mmio.vq(q_sel)], whose [Err] every register of a queue turns into a panic. *)
Definition on_sel {A} (d q : Z) (m : M QS A) : M World A :=
  let! ok := has_vq d q in if ok : bool then on_vq d q m else m_fault ExplicitPanic.

Definition upd_vq (f : Virtq -> Virtq) : M QS unit := m_modify (fun s => with_vq (f (vq s)) s).

(** The three [..._HIGH] registers: the upper half of an address, and the translation of the whole. *)
Definition set_ring_addr (d q value : Z) (or_addr : Z -> Virtq -> Virtq) (addr : Virtq -> Z)
    (set_ptr : Z -> Virtq -> Virtq) : M World unit :=
  let! ipa := on_sel d q (upd_vq (or_addr (shlw 64 value 32)) >>; m_gets (fun s => addr (vq s))) in
  let! vm := m_opt UnwrapNone active_vm in
  let! pa := m_opt OutOfBounds (vm_ipa2pa vm ipa) in
  if pa =? 0 then m_ret tt else on_sel d q (upd_vq (set_ptr pa)).

(** src: device/virtio/mmio.rs 506-700 [virtio_mmio_queue_access] *)
Definition virtio_mmio_queue_access (d : Z) (ctx : EmuContext) (offset : Z) (write : bool) : M World unit :=
  let! v := get_dev d in
  let q := q_sel (regs v) in
  if negb write then
    if offset =? 0x034 then set_gpr (VgicDist.reg ctx) (q_num_max (regs v))
    else if offset =? 0x044 then
      let! rdy := on_sel d q (m_gets (fun s => ready (vq s))) in set_gpr (VgicDist.reg ctx) (u32 rdy)
    else m_ret tt
  else
    let! value := get_gpr (VgicDist.reg ctx) in
    let low := Z.land value (Z.ones 32) in
    if offset =? 0x030 then mmio_set_q_sel d (u32 value)
    else if offset =? 0x038 then on_sel d q (upd_vq (set_num value))
    else if offset =? 0x044 then on_sel d q (upd_vq (set_ready value))
    else if offset =? 0x080 then on_sel d q (upd_vq (or_desc_table_addr low))
    else if offset =? 0x084 then set_ring_addr d q value or_desc_table_addr desc_table_addr set_desc_table
    else if offset =? 0x090 then on_sel d q (upd_vq (or_avail_addr low))
    else if offset =? 0x094 then set_ring_addr d q value or_avail_addr avail_addr set_avail
    else if offset =? 0x0a0 then on_sel d q (upd_vq (or_used_addr low))
    else if offset =? 0x0a4 then set_ring_addr d q value or_used_addr used_addr set_used
    else m_ret tt.

(** ** Notification *)

(** src: device/virtio/blk.rs 419-569 [virtio_blk_notify_handler]
    When it is called by the guest's notification, which it only is for a disk that is not mediated:
    after the requests are parsed it is [unimplemented!]. *)
Definition virtio_blk_notify (d i : Z) (vm : Vm) : M World bool :=
  let! r := blk_requests core (vm_id vm) fuel d i vm in
  match r with None => m_ret false | Some _ => m_fault ExplicitPanic end.

(** src: device/virtio/queue.rs 224-230 [Virtq::call_notify_handler]
    By the kind of handler the queue was made with.  A mediated disk's handler hands the work to the
    executor. *)
Definition call_notify_handler (d i : Z) (vm : Vm) (h : notify_kind) : M World bool :=
  match h with
  | NotifyBlk => virtio_blk_notify d i vm
  | NotifyMediatedBlk => wemit (EvMediatedTask (vm_id vm) d i) >>; m_ret true
  | NotifyNet => virtio_net_notify_handler core trace cpu_count vm_master fuel d i vm
  | NotifyNetCtrl => virtio_net_handle_ctrl core ctrl_addr status_addr fuel d i vm
  | NotifyConsole => virtio_console_notify_handler core trace vms fuel d i vm
  end.

(** src: device/virtio/mmio.rs 793-837 [VirtioMmio::handler] *)
Definition handler (d : Z) (ctx : EmuContext) : M World bool :=
  let! v := get_dev d in
  let offset := usize (VgicDist.address ctx - base v) in
  let write := VgicDist.write ctx in
  if (offset =? 0x050) && write then
    mmio_set_irt_stat d 1 >>;
    let! idx := get_gpr (VgicDist.reg ctx) in
    let! q := m_idx (queues v) idx in
    let! vm := m_opt UnwrapNone active_vm in
    let! _ := call_notify_handler d idx vm (notify_handler q) in
    m_ret true
  else if (offset =? 0x060) && negb write then
    set_gpr (VgicDist.reg ctx) (irt_stat (regs v)) >>; m_ret true
  else if (offset =? 0x064) && write then
    let! g := get_gpr (VgicDist.reg ctx) in
    mmio_set_irt_stat d (Z.land (irt_stat (regs v)) (notw 32 (u32 g))) >>;
    mmio_set_irt_ack d (u32 g) >>; m_ret true
  else if ((0 <=? offset) && (offset <=? 0x024)) || (offset =? 0x070) then
    virtio_mmio_prologue_access d ctx offset write >>; m_ret true
  else if (0x030 <=? offset) && (offset <=? 0x0a4) then
    virtio_mmio_queue_access d ctx offset write >>; m_ret true
  else if (0x0fc <=? offset) && (offset <=? 0x200) then
    virtio_mmio_cfg_access d ctx offset write >>; m_ret true
  else m_ret false.

(** ** Dispatch of a trapped access *)

(** src: kernel/vm.rs 429-435 [Vm::find_emu_dev]
    Among the virtio devices: the first of the VM whose range contains the address. *)
Definition find_emu_dev (vm : Vm) (ipa : Z) (l : list VirtioMmio) : option Z :=
  (fun p => p.1) <$> List.find (fun p => (vm_id (upper_vm p.2) =? vm_id vm) &&
    (base p.2 <=? ipa) && (ipa <? usize (base p.2 + length p.2))) (zip (zrange 0 (List.length l)) l).

(** src: device/emu.rs 177-191 [emu_handler] *)
Definition emu_handler (ctx : EmuContext) : M World bool :=
  let! vm := m_opt UnwrapNone active_vm in
  let! w := m_get in
  match find_emu_dev vm (VgicDist.address ctx) (devs w) with
  | Some d => handler d ctx
  | None => m_ret false
  end.
End mmio.
