(* ===== verification/VirtioChain.v ===== *)
(** * VirtioChain: descriptor chains, read from a device's queue

    What the handlers' walks over descriptor chains compute: on a chain that is linked properly and
    whose buffers are the guest's, the list of its buffers; on a chain whose links run in a
    circle, nothing, ever. *)
From stdpp Require Import gmap list.
From S2P Require Import Prelude GuestMem Virtq Iov Vm VirtioDev VirtioNet.

(** ** Queue operations on the world *)

(** Queue [i] of device [d]. *)
Definition queue_at (w : World) (d i : Z) : option Virtq :=
  x ← zget (devs w) d; zget (queues x) i.

Definition set_queue (w : World) (d i : Z) (q : Virtq) : World :=
  match zget (devs w) d with
  | Some x => with_devs (zset (devs w) d (with_queues (zset (queues x) i q) x)) w
  | None => w
  end.

Lemma on_vq_Ret {A} (m : M QS A) w d i q a s :
  queue_at w d i = Some q -> m (mkQS (wmem w) q) = Ret a s ->
  on_vq d i m w = Ret a (with_wmem (qmem s) (set_queue w d i (vq s))).
Proof.
  unfold queue_at, on_vq, set_queue. destruct (zget (devs w) d) as [x|]; [|done].
  cbn [mbind option_bind]. intros -> ->. done.
Qed.

Lemma on_vq_Fault {A} (m : M QS A) w d i q f :
  queue_at w d i = Some q -> m (mkQS (wmem w) q) = Fault f -> on_vq d i m w = Fault f.
Proof.
  unfold queue_at, on_vq. destruct (zget (devs w) d) as [x|]; [|done].
  cbn [mbind option_bind]. intros -> ->. done.
Qed.

Lemma set_queue_same w d i q : queue_at w d i = Some q -> set_queue w d i q = w.
Proof.
  unfold queue_at, set_queue. destruct (zget (devs w) d) as [x|] eqn:Ed; [|done].
  cbn [mbind option_bind]. intros Eq. rewrite (zset_same (queues x) i q) by done.
  destruct x, w. simpl in *. by rewrite zset_same.
Qed.

Lemma queue_at_set w d i q q' : queue_at w d i = Some q -> queue_at (set_queue w d i q') d i = Some q'.
Proof.
  unfold queue_at, set_queue. destruct (zget (devs w) d) as [x|] eqn:Ed; [|done].
  cbn [mbind option_bind]. intros Eq. cbn [with_devs devs]. rewrite zget_zset_eq by by eapply zget_Some_bounds.
  cbn [mbind option_bind with_queues queues]. rewrite zget_zset_eq; [done|]. by eapply zget_Some_bounds.
Qed.

Lemma queue_at_wmem w m d i : queue_at (with_wmem m w) d i = queue_at w d i.
Proof. done. Qed.

Lemma wmem_set_queue w d i q : wmem (set_queue w d i q) = wmem w.
Proof. unfold set_queue. by destruct (zget (devs w) d). Qed.

Lemma with_wmem_same w : with_wmem (wmem w) w = w.
Proof. by destruct w. Qed.

(** An operation that only reads. *)
Lemma on_vq_read {A} (m : M QS A) w d i q a :
  queue_at w d i = Some q -> m (mkQS (wmem w) q) = Ret a (mkQS (wmem w) q) -> on_vq d i m w = Ret a w.
Proof.
  intros Hq E. rewrite (on_vq_Ret m w d i q a _ Hq E). cbn [qmem vq].
  by rewrite set_queue_same, with_wmem_same.
Qed.

Lemma get_dev_ok w d x : zget (devs w) d = Some x -> get_dev d w = Ret x w.
Proof. intros E. unfold get_dev. munfold. by rewrite E. Qed.

Lemma has_vq_ok w d i q : queue_at w d i = Some q -> has_vq d i w = Ret true w.
Proof.
  unfold queue_at, has_vq. intros Hq. destruct (zget (devs w) d) as [x|] eqn:E; [|done].
  rewrite (m_bind_Ret _ _ _ _ _ (get_dev_ok _ _ _ E)). cbn [mbind option_bind] in Hq. by rewrite Hq.
Qed.

(** ** Descriptors *)

Record Desc := mkDesc { d_addr : Z; d_len : Z; d_flags : Z; d_next : Z }.

Definition desc_of (m : Mem) (t idx : Z) : Desc :=
  let a := vring_desc t idx in mkDesc (ld64 m a) (ld32 m (a + 8)) (ld16 m (a + 12)) (ld16 m (a + 14)).

Section descriptors.
Context (w : World) (d i t : Z) (q : Virtq).
Context (Hq : queue_at w d i = Some q) (Ht : desc_table q = Some t).

Lemma desc_at_ok m idx : 0 <= idx < DESC_QUEUE_SIZE -> desc_at idx (mkQS m q) = Ret (vring_desc t idx) (mkQS m q).
Proof.
  intros Hi. unfold desc_at. munfold. cbn [vq]. rewrite Ht.
  by rewrite (proj2 (Z.leb_le _ _)), (proj2 (Z.ltb_lt _ _)) by lia.
Qed.

Lemma desc_flags_ok m idx : 0 <= idx < DESC_QUEUE_SIZE ->
  desc_flags idx (mkQS m q) = Ret (d_flags (desc_of m t idx)) (mkQS m q).
Proof. intros Hi. unfold desc_flags. by rewrite (m_bind_Ret _ _ _ _ _ (desc_at_ok _ _ Hi)). Qed.

Lemma w_desc_addr idx : 0 <= idx < DESC_QUEUE_SIZE -> on_vq d i (desc_addr idx) w = Ret (d_addr (desc_of (wmem w) t idx)) w.
Proof. intros Hi. eapply on_vq_read; [exact Hq|]. unfold desc_addr. by rewrite (m_bind_Ret _ _ _ _ _ (desc_at_ok _ _ Hi)). Qed.
Lemma w_desc_len idx : 0 <= idx < DESC_QUEUE_SIZE -> on_vq d i (desc_len idx) w = Ret (d_len (desc_of (wmem w) t idx)) w.
Proof. intros Hi. eapply on_vq_read; [exact Hq|]. unfold desc_len. by rewrite (m_bind_Ret _ _ _ _ _ (desc_at_ok _ _ Hi)). Qed.
Lemma w_desc_flags idx : 0 <= idx < DESC_QUEUE_SIZE -> on_vq d i (desc_flags idx) w = Ret (d_flags (desc_of (wmem w) t idx)) w.
Proof. intros Hi. eapply on_vq_read; [exact Hq|]. unfold desc_flags. by rewrite (m_bind_Ret _ _ _ _ _ (desc_at_ok _ _ Hi)). Qed.
Lemma w_desc_next idx : 0 <= idx < DESC_QUEUE_SIZE -> on_vq d i (desc_next idx) w = Ret (d_next (desc_of (wmem w) t idx)) w.
Proof. intros Hi. eapply on_vq_read; [exact Hq|]. unfold desc_next. by rewrite (m_bind_Ret _ _ _ _ _ (desc_at_ok _ _ Hi)). Qed.
Lemma w_desc_has_next idx : 0 <= idx < DESC_QUEUE_SIZE ->
  on_vq d i (desc_has_next idx) w = Ret (testm (d_flags (desc_of (wmem w) t idx)) VIRTQ_DESC_F_NEXT) w.
Proof.
  intros Hi. eapply on_vq_read; [exact Hq|]. unfold desc_has_next.
  by rewrite (m_bind_Ret _ _ _ _ _ (desc_flags_ok _ _ Hi)).
Qed.
Lemma w_desc_is_writable idx : 0 <= idx < DESC_QUEUE_SIZE ->
  on_vq d i (desc_is_writable idx) w = Ret (testm (d_flags (desc_of (wmem w) t idx)) VIRTQ_DESC_F_WRITE) w.
Proof.
  intros Hi. eapply on_vq_read; [exact Hq|]. unfold desc_is_writable.
  by rewrite (m_bind_Ret _ _ _ _ _ (desc_flags_ok _ _ Hi)).
Qed.
End descriptors.

(** ** Linked chains *)

(** The descriptors [l] are linked in this order: all but the last say that there is more. *)
Fixpoint linked (more : Z -> bool) (m : Mem) (t : Z) (l : list Z) : Prop :=
  match l with
  | [] => False
  | idx :: l' =>
      0 <= idx < DESC_QUEUE_SIZE /\
      match l' with
      | [] => more (d_flags (desc_of m t idx)) = false
      | next :: _ => more (d_flags (desc_of m t idx)) = true /\ d_next (desc_of m t idx) = next /\ linked more m t l'
      end
  end.

(** The buffer of a descriptor, when its address is the guest's. *)
Definition guest_addr (vm : Vm) (a : Z) : option Z :=
  match ipa2pa vm a with Some pa => if pa =? 0 then None else Some pa | None => None end.
Definition buf_of (vm : Vm) (m : Mem) (t idx : Z) : VirtioIovData :=
  mkIov (default 0 (guest_addr vm (d_addr (desc_of m t idx)))) (d_len (desc_of m t idx)).
Definition mapped (vm : Vm) (m : Mem) (t idx : Z) : Prop := is_Some (guest_addr vm (d_addr (desc_of m t idx))).

Lemma w_ipa2pa_mapped vm m t idx (w : World) : mapped vm m t idx ->
  w_ipa2pa vm (d_addr (desc_of m t idx)) w = Ret (buf (buf_of vm m t idx)) w /\ (buf (buf_of vm m t idx) =? 0) = false.
Proof.
  unfold mapped, buf_of, w_ipa2pa, guest_addr. cbn [buf]. destruct (ipa2pa vm _) as [pa|]; [|by intros []].
  destruct (pa =? 0) eqn:E; [by intros []|]. done.
Qed.

Definition total_len (l : VirtioIov) : Z := foldr (fun v r => len v + r) 0 l.

Lemma total_len_app l k : total_len (l ++ k) = total_len l + total_len k.
Proof. unfold total_len. induction l as [|v l IH]; cbn [app foldr]; lia. Qed.

Lemma len_buf_of vm m t idx : 0 <= len (buf_of vm m t idx) < 2 ^ 32.
Proof. apply (ld_range 4). Qed.

Lemma total_len_bufs vm m t l : 0 <= total_len (buf_of vm m t <$> l).
Proof.
  unfold total_len. induction l as [|idx l IH]; [done|]. rewrite fmap_cons. cbn [foldr].
  pose proof (len_buf_of vm m t idx). lia.
Qed.

(** The shortest prefix of a list of buffers that holds [need] bytes; all of it if none does. *)
Fixpoint fill (need : Z) (l : VirtioIov) : VirtioIov :=
  match l with
  | [] => []
  | v :: l' => v :: (if need <=? len v then [] else fill (need - len v) l')
  end.

Section walks.
Context (w : World) (d i t : Z) (q : Virtq) (vm : Vm).
Context (Hq : queue_at w d i = Some q) (Ht : desc_table q = Some t).
Abbreviation bufs l := (buf_of vm (wmem w) t <$> l).

Definition ne_zero (f : Z) : bool := negb (f =? 0).

(** A transmit chain is read in full. *)
Lemma tx_chain_linked l fuel n iov :
  linked ne_zero (wmem w) t l -> Forall (mapped vm (wmem w) t) l -> (List.length l <= fuel)%nat ->
  0 <= n -> n + total_len (bufs l) < 2 ^ 64 ->
  tx_chain fuel d i vm (hd 0 l) n iov w = Ret (Some (iov ++ bufs l, n + total_len (bufs l))) w.
Proof.
  revert fuel n iov. induction l as [|idx l IH]; intros fuel n iov Hl Hm Hf Hn Hw; [done|].
  cbn [linked] in Hl. destruct Hl as [Hi Hl].
  apply list.Forall_cons in Hm as [Hmi Hm]. destruct fuel as [|fuel]; [cbn in Hf; lia|].
  cbn [tx_chain hd]. rewrite (m_bind_Ret _ _ _ _ _ (w_desc_addr w d i t q Hq Ht idx Hi)).
  destruct (w_ipa2pa_mapped vm (wmem w) t idx w Hmi) as [E0 E1].
  rewrite (m_bind_Ret _ _ _ _ _ E0), E1. rewrite (m_bind_Ret _ _ _ _ _ (w_desc_len w d i t q Hq Ht idx Hi)).
  rewrite (m_bind_Ret _ _ _ _ _ (w_desc_flags w d i t q Hq Ht idx Hi)).
  change (d_len (desc_of (wmem w) t idx)) with (len (buf_of vm (wmem w) t idx)).
  pose proof (len_buf_of vm (wmem w) t idx) as Hlen. pose proof (total_len_bufs vm (wmem w) t l) as Htot.
  assert (total_len (bufs (idx :: l)) = len (buf_of vm (wmem w) t idx) + total_len (bufs l)) as Et by done.
  rewrite Et in Hw |- *. rewrite (wrap_small 64) by (unfold in_word; lia).
  unfold push_data. change (mkIov (buf (buf_of vm (wmem w) t idx)) (len (buf_of vm (wmem w) t idx))) with (buf_of vm (wmem w) t idx).
  destruct l as [|next l].
  - unfold ne_zero in Hl. apply negb_false_iff in Hl. rewrite Hl. unfold m_ret. cbn [fmap list_fmap total_len foldr].
    by rewrite Z.add_0_r.
  - destruct Hl as (Hmore & Hnext & Hl). unfold ne_zero in Hmore. apply negb_true_iff in Hmore. rewrite Hmore.
    rewrite (m_bind_Ret _ _ _ _ _ (w_desc_next w d i t q Hq Ht idx Hi)), Hnext.
    change next with (hd 0 (next :: l)) at 1.
    rewrite (IH fuel) by (done || (cbn in Hf |- *; lia) || lia).
    rewrite <- app_assoc, Z.add_assoc. done.
Qed.

(** A receive chain is read until there is room for [total] bytes. *)
Lemma rx_chain_linked l fuel total n iov :
  linked (fun f => testm f 1) (wmem w) t l -> Forall (mapped vm (wmem w) t) l -> (List.length l <= fuel)%nat ->
  0 <= n -> n + total_len (bufs l) < 2 ^ 64 ->
  let got := fill (total - n) (bufs l) in
  rx_chain fuel d i vm total (hd 0 l) n iov w = Ret (Some (iov ++ got, n + total_len got)) w.
Proof.
  revert fuel n iov. induction l as [|idx l IH]; intros fuel n iov Hl Hm Hf Hn Hw; [done|].
  cbn [linked] in Hl. destruct Hl as [Hi Hl].
  apply list.Forall_cons in Hm as [Hmi Hm]. destruct fuel as [|fuel]; [cbn in Hf; lia|].
  cbn [rx_chain hd]. rewrite (m_bind_Ret _ _ _ _ _ (w_desc_addr w d i t q Hq Ht idx Hi)).
  destruct (w_ipa2pa_mapped vm (wmem w) t idx w Hmi) as [E0 E1].
  rewrite (m_bind_Ret _ _ _ _ _ E0), E1. rewrite (m_bind_Ret _ _ _ _ _ (w_desc_len w d i t q Hq Ht idx Hi)).
  change (d_len (desc_of (wmem w) t idx)) with (len (buf_of vm (wmem w) t idx)).
  pose proof (len_buf_of vm (wmem w) t idx) as Hlen. pose proof (total_len_bufs vm (wmem w) t l) as Htot.
  assert (total_len (bufs (idx :: l)) = len (buf_of vm (wmem w) t idx) + total_len (bufs l)) as Et by done.
  rewrite Et in Hw. rewrite (wrap_small 64) by (unfold in_word; lia).
  unfold push_data. change (mkIov (buf (buf_of vm (wmem w) t idx)) (len (buf_of vm (wmem w) t idx))) with (buf_of vm (wmem w) t idx).
  cbn [fmap list_fmap fill].
  replace (total <=? n + len (buf_of vm (wmem w) t idx)) with (total - n <=? len (buf_of vm (wmem w) t idx))
    by (zcases; lia).
  destruct (total - n <=? len (buf_of vm (wmem w) t idx)).
  - cbn [total_len foldr]. by rewrite Z.add_0_r.
  - rewrite (m_bind_Ret _ _ _ _ _ (w_desc_flags w d i t q Hq Ht idx Hi)). destruct l as [|next l].
    + rewrite Hl. cbn [fmap list_fmap fill total_len foldr]. by rewrite Z.add_0_r.
    + destruct Hl as (-> & Hnext & Hl). cbn [negb].
      rewrite (m_bind_Ret _ _ _ _ _ (w_desc_next w d i t q Hq Ht idx Hi)), Hnext.
      change next with (hd 0 (next :: l)) at 1.
      rewrite (IH fuel) by (done || (cbn in Hf |- *; lia) || lia).
      rewrite <- app_assoc. cbn [app total_len foldr]. unfold total_len, fmap.
      replace (total - (n + len (buf_of vm (wmem w) t idx))) with (total - n - len (buf_of vm (wmem w) t idx)) by lia.
      rewrite Z.add_assoc. done.
Qed.
End walks.

(** ** Taking a chain *)

(** Entry [head] is the next one on the available ring of a queue that is set up. *)
Record waits (m : Mem) (q : Virtq) (a head : Z) : Prop := {
  waits_avail : avail q = Some a;
  waits_num : 0 < num q <= DESC_QUEUE_SIZE;
  waits_some : ld16 m (a + 2) <> last_avail_idx q;
  waits_head : ld16 m (avail_ring a (last_avail_idx q mod num q)) = head;
}.

Definition taken (q : Virtq) : Virtq := set_last_avail (u16 (last_avail_idx q + 1)) q.

Lemma pop_next_waits w d i q a head : queue_at w d i = Some q -> waits (wmem w) q a head ->
  pop_next d i w = Ret (Some head) (set_queue w d i (taken q)).
Proof.
  intros Hq [Ha Hn Hs Hh]. unfold pop_next.
  rewrite (m_bind_Ret _ _ _ _ _ (on_vq_read avail_idx w d i q (ld16 (wmem w) (a + 2)) Hq
    ltac:(unfold avail_idx; munfold; cbn [vq]; by rewrite Ha))).
  rewrite (on_vq_Ret _ w d i q (Some head) (mkQS (wmem w) (taken q)) Hq).
  - f_equal. cbn [qmem vq]. rewrite <- (wmem_set_queue w d i (taken q)). apply with_wmem_same.
  - rewrite (pop_avail_eq _ a) by done. cbn [vq qmem]. rewrite (proj2 (Z.eqb_neq _ _)) by done.
    by rewrite Hh.
Qed.

(** ** Chains without an end *)

(** A set of descriptors that say there is more and link to one another. *)
Definition circular (more : Z -> bool) (vm : Vm) (m : Mem) (t : Z) (l : list Z) : Prop :=
  Forall (fun idx => 0 <= idx < DESC_QUEUE_SIZE /\ more (d_flags (desc_of m t idx)) = true /\
                     mapped vm m t idx /\ d_next (desc_of m t idx) ∈ l) l.

(** The walk of a transmit chain through such a set does not come to an end, whatever the fuel. *)
Lemma tx_chain_circular w d i t q vm l : queue_at w d i = Some q -> desc_table q = Some t ->
  circular ne_zero vm (wmem w) t l ->
  forall fuel idx n iov, idx ∈ l -> tx_chain fuel d i vm idx n iov w = Fault FuelOut.
Proof.
  intros Hq Ht Hc. induction fuel as [|fuel IH]; intros idx n iov Hidx; [done|].
  apply (proj1 (list.Forall_forall _ _) Hc) in Hidx as (Hi & Hmore & Hm & Hnext).
  cbn [tx_chain]. rewrite (m_bind_Ret _ _ _ _ _ (w_desc_addr w d i t q Hq Ht idx Hi)).
  destruct (w_ipa2pa_mapped vm (wmem w) t idx w Hm) as [E0 E1].
  rewrite (m_bind_Ret _ _ _ _ _ E0), E1. rewrite (m_bind_Ret _ _ _ _ _ (w_desc_len w d i t q Hq Ht idx Hi)).
  rewrite (m_bind_Ret _ _ _ _ _ (w_desc_flags w d i t q Hq Ht idx Hi)).
  unfold ne_zero in Hmore. apply negb_true_iff in Hmore. rewrite Hmore.
  rewrite (m_bind_Ret _ _ _ _ _ (w_desc_next w d i t q Hq Ht idx Hi)). by apply IH.
Qed.
