(* ===== verification/VirtioSpec.v ===== *)
(** * VirtioSpec: what the virtio devices guarantee, and what they do not

    Theorems about [VirtioNet] and [VirtioBlk] on the chain lemmas of [VirtioChain]: delivery of a
    frame, parsing of a block request, and two ways in which a guest's descriptors reach past what
    the code checks. *)
From stdpp Require Import gmap list.
From S2P Require Import Prelude Bits GuestMem Virtq Iov Vm VirtioDev VirtioNet VirtioBlk VirtioChain.
From S2P Require AsyncTask.

(** ** Delivery of a frame *)

(** The place of the next used entry. *)
Definition next_used (m : Mem) (u n : Z) : Z := used_ring u (ld16 m (u + 2) mod n).

(** Queue 0 of [nic] is set up, and the chain [l] waits on it: linked, its buffers in the
    guest's memory. *)
Record rx_ready (trace : bool) (w : World) (nic : Z) (vm : Vm) (q : Virtq) (a t u : Z) (l : list Z) : Prop := {
  rx_queue : queue_at w nic 0 = Some q;
  rx_table : desc_table q = Some t;
  rx_used : used q = Some u;
  rx_waits : waits (wmem w) q a (hd 0 l);
  rx_linked : linked (fun f => testm f 1) (wmem w) t l;
  rx_mapped : Forall (mapped vm (wmem w) t) l;
  rx_ok : Forall (iov_ok trace) (buf_of vm (wmem w) t <$> l);
  rx_total : total_len (buf_of vm (wmem w) t <$> l) < 2 ^ 64;
  rx_short : zlen l <= DESC_QUEUE_SIZE;
}.

Lemma zlen_flat trace l : Forall (iov_ok trace) l -> zlen (flat l) = total_len l.
Proof.
  intros Hl. unfold total_len. induction Hl as [|v l (H1 & H2 & H3) Hl IH]; [done|].
  rewrite flat_cons, zlen_app, length_bytes_of by done. cbn [foldr]. lia.
Qed.

Lemma fill_prefix need l : exists k, l = fill need l ++ k.
Proof.
  revert need. induction l as [|v l IH]; intros need; cbn [fill]; [by exists []|].
  destruct (need <=? len v); [by exists l|]. destruct (IH (need - len v)) as [k Hk].
  exists k. cbn [app]. by rewrite <- Hk.
Qed.

Lemma fill_enough need l : need <= total_len l -> need <= total_len (fill need l).
Proof.
  unfold total_len. revert need. induction l as [|v l IH]; intros need; cbn [fill foldr]; [done|].
  intros H. destruct (Z.leb_spec need (len v)); cbn [foldr]; [lia|]. specialize (IH (need - len v)). lia.
Qed.

Lemma flat_app l k : flat (l ++ k) = flat l ++ flat k.
Proof. unfold flat. apply bind_app. Qed.

Lemma fill_length need l : zlen (fill need l) <= zlen l.
Proof. destruct (fill_prefix need l) as [k Hk]. rewrite Hk at 2. rewrite zlen_app. pose proof (zlen_nonneg k). lia. Qed.

Lemma linked_hd more m t l : linked more m t l -> 0 <= hd 0 l < DESC_QUEUE_SIZE.
Proof. destruct l; [done|]. by intros [Hi _]. Qed.

Section delivery.
Context (trace : bool) (fuel : nat) (w : World) (nic : Z) (vm : Vm) (q : Virtq) (a t u : Z) (l : list Z).
Context (tx_iov : VirtioIov).
Context (Hrx : rx_ready trace w nic vm q a t u l).
Context (Hfuel : (List.length l <= fuel)%nat).
Abbreviation rx_iov := (buf_of vm (wmem w) t <$> l).
Abbreviation len_tx := (total_len tx_iov).
Abbreviation ring x := (u <= x < u + 4 + 8 * num q).

(** The buffers to send: some, none wraps around, and they fit in the chain, which holds no address
    twice; neither is part of the other or of the used ring. *)
Record fits (hdr : list Z) : Prop := {
  fits_tx : tx_iov <> [];
  fits_ok : Forall (iov_ok trace) tx_iov;
  fits_short : zlen tx_iov < 2 ^ 63;
  fits_word : len_tx < 2 ^ 32;
  fits_room : len_tx <= total_len rx_iov;
  fits_nodup : NoDup (flat rx_iov);
  fits_apart : forall x, x ∈ flat tx_iov ++ hdr -> x ∉ flat rx_iov;
  fits_ring : forall x, x ∈ flat rx_iov ++ hdr -> ~ ring x;
}.

(** [prepare] writes [hdr] only, and the result is [mh]. *)
Lemma receive_delivers hdr mh prepare : fits hdr ->
  (forall w', wmem w' = wmem w -> prepare w' = Ret tt (with_wmem mh w')) ->
  (forall x, x ∉ hdr -> ld8 mh x = ld8 (wmem w) x) ->
  exists m', receive trace fuel vm nic prepare tx_iov len_tx w =
      Ret (true, true) (with_wmem m' (set_queue w nic 0 (taken q))) /\
    (ld8 m' <$> take (List.length (flat tx_iov)) (flat rx_iov)) = ld8 mh <$> flat tx_iov /\
    (let e := next_used (wmem w) u (num q) in
     ld16 m' (u + 2) = u16 (ld16 (wmem w) (u + 2) + 1) /\ ld32 m' e = hd 0 l /\ ld32 m' (e + 4) = len_tx) /\
    (forall x, x ∉ flat rx_iov -> x ∉ hdr -> ~ ring x -> ld8 m' x = ld8 (wmem w) x).
Proof.
  intros Hfit Hprep Hmh.
  destruct Hrx as [Hq Ht Hu Hw Hl Hm Hok Htot Hshort]. destruct Hfit as [Htx Htok Htsh Htw Hroom Hnd Hap Hring].
  assert (0 < num q <= DESC_QUEUE_SIZE) as Hnum by apply Hw.
  set (w1 := set_queue w nic 0 (taken q)).
  assert (wmem w1 = wmem w) as Ew1 by apply wmem_set_queue.
  assert (queue_at w1 nic 0 = Some (taken q)) as Hq1 by by apply (queue_at_set _ _ _ q).
  set (got := fill len_tx rx_iov).
  assert (exists k, rx_iov = got ++ k) as [k Hk] by apply fill_prefix.
  assert (flat rx_iov = flat got ++ flat k) as Hfk by (rewrite Hk at 1; apply flat_app).
  assert (Forall (iov_ok trace) got) as Hgok by (rewrite Hk in Hok; by apply Forall_app in Hok as [? _]).
  assert (len_tx <= total_len got) as Hgroom by by apply fill_enough.
  pose proof (zlen_flat trace tx_iov Htok) as Hztx. pose proof (zlen_flat trace got Hgok) as Hzgot.
  assert (NoDup (flat got)) as Hgnd by (rewrite Hfk in Hnd; by apply list.NoDup_app in Hnd as [? _]).
  unfold receive. rewrite (m_bind_Ret _ _ _ _ _ (pop_next_waits w nic 0 q a (hd 0 l) Hq Hw)). fold w1.
  rewrite (m_bind_Ret _ _ _ _ _ (on_vq_read avail_is_avail w1 nic 0 (taken q) true Hq1
    ltac:(unfold avail_is_avail, m_gets; cbn [vq taken set_last_avail avail]; by rewrite (waits_avail _ _ _ _ Hw)))).
  cbn [negb].
  pose proof (rx_chain_linked w1 nic 0 t (taken q) vm Hq1 Ht l fuel len_tx 0 []) as Hchain.
  rewrite Ew1, Z.sub_0_r in Hchain. specialize (Hchain Hl Hm Hfuel ltac:(lia) ltac:(lia)). cbv zeta in Hchain.
  fold got in Hchain. cbn [app] in Hchain. rewrite Z.add_0_l in Hchain.
  rewrite (m_bind_Ret _ _ _ _ _ Hchain). rewrite (proj2 (Z.ltb_ge _ _)) by lia.
  rewrite (m_bind_Ret _ _ _ _ _ (Hprep w1 Ew1)).
  set (m2 := copy_bytes mh (flat got) (flat tx_iov)).
  assert (got <> []) as Hgne.
  { subst got. destruct l; [done|]. by rewrite fmap_cons. }
  assert (write_through_iov trace tx_iov got len_tx mh = Ret 0 m2) as Hcopy.
  { rewrite <- Hztx. apply write_through_iov_eq; try done; try lia.
    - pose proof (fill_length len_tx rx_iov). unfold zlen in *. rewrite length_fmap in *. unfold DESC_QUEUE_SIZE in *. fold got in H. lia.
    - intros x Hx1 Hx2. apply (Hap x); [set_solver|]. rewrite Hfk. set_solver. }
  rewrite (m_bind_Ret (on_mem _) _ _ 0 (with_wmem m2 w1)) by (unfold on_mem; cbn [with_wmem wmem]; by rewrite Hcopy).
  cbn [Z.ltb Z.compare].
  assert (forall x, ring x -> ld8 m2 x = ld8 (wmem w) x) as Hm2.
  { intros x Hx. subst m2. unfold copy_bytes. rewrite ld8_write_out.
    - apply Hmh. intros Hh. apply (Hring x); [set_solver|done].
    - intros Hg. apply (Hring x); [rewrite Hfk; set_solver|done]. }
  destruct (update_used_ring_spec (mkQS m2 (taken q)) u (u32 len_tx) (hd 0 l) Hu Hnum) as (m' & E & Ei & Eid & El & Eo).
  cbn [qmem vq taken set_last_avail num] in Ei, Eid, El, Eo.
  assert (ld16 m2 (u + 2) = ld16 (wmem w) (u + 2)) as Ed by (apply ld_ext; intros; apply Hm2; lia).
  rewrite Ed in *. fold (next_used (wmem w) u (num q)) in *.
  exists m'. split; [|split; [|split]].
  - rewrite (m_bind_Ret _ _ _ _ _ (on_vq_Ret _ (with_wmem m2 w1) nic 0 (taken q) true _ Hq1 E)).
    cbn [qmem vq]. rewrite set_queue_same by done. done.
  - rewrite Hfk, take_app_le by (unfold zlen in *; lia).
    rewrite <- (ld8_copy_in mh (flat got) (flat tx_iov)) by (done || unfold zlen in *; lia).
    apply list_fmap_ext. intros j x Hx%list_elem_of_lookup_2. fold m2.
    assert (x ∈ flat rx_iov) as Hin.
    { rewrite Hfk. apply elem_of_app. left. rewrite <- (take_drop (List.length (flat tx_iov)) (flat got)). set_solver. }
    apply Eo; [|unfold next_used, used_ring in *; pose proof (Z.mod_pos_bound (ld16 (wmem w) (u + 2)) (num q))];
      intros Hr; apply (Hring x); [set_solver|lia|set_solver|lia].
  - cbv zeta. split; [done|]. rewrite Eid, El, wrap_idemp.
    pose proof (linked_hd _ _ _ _ Hl) as Hh. unfold DESC_QUEUE_SIZE in Hh.
    rewrite !wrap_small by (unfold in_word; pose proof (zlen_nonneg (flat tx_iov)); lia). done.
  - intros x Hx1 Hx2 Hx3. pose proof (Z.mod_pos_bound (ld16 (wmem w) (u + 2)) (num q)).
    rewrite Eo by (unfold next_used, used_ring; lia). subst m2. unfold copy_bytes.
    rewrite ld8_write_out by (rewrite Hfk in Hx1; set_solver). by apply Hmh.
Qed.
End delivery.

(** The field [num_buffers] of the header at the start of the frame. *)
Definition hdr_at (tx_iov : VirtioIov) : Z := match tx_iov with [] => 0 | v :: _ => buf v + 10 end.

Lemma send_to_spec trace fuel w nic x vm q a t u l tx_iov :
  zget (devs w) nic = Some x -> activated (dev x) = true ->
  rx_ready trace w nic vm q a t u l -> (List.length l <= fuel)%nat ->
  let h := hdr_at tx_iov in
  fits trace w vm q t u l tx_iov [h; h + 1] ->
  let bufs := flat (buf_of vm (wmem w) t <$> l) in
  let mh := st16 (wmem w) h 1 in
  let e := next_used (wmem w) u (num q) in
  exists m', ethernet_send_to trace fuel vm nic tx_iov (total_len tx_iov) w =
      Ret true (with_wmem m' (set_queue w nic 0 (taken q))) /\
    (ld8 m' <$> take (List.length (flat tx_iov)) bufs) = ld8 mh <$> flat tx_iov /\
    (ld16 m' (u + 2) = u16 (ld16 (wmem w) (u + 2) + 1) /\ ld32 m' e = hd 0 l /\ ld32 m' (e + 4) = total_len tx_iov) /\
    (forall y, y ∉ bufs -> y ∉ [h; h + 1] -> ~ (u <= y < u + 4 + 8 * num q) -> ld8 m' y = ld8 (wmem w) y).
Proof.
  intros Hx Hact Hrx Hfuel h Hfit bufs mh e.
  destruct (tx_iov) as [|v tx'] eqn:Etx; [by destruct Hfit|]. rewrite <- Etx in *.
  set (prepare := let! b := get_buf tx_iov 0 in
        if trace && (b <? 0x1000) then m_fault ExplicitPanic
        else on_mem (m_modify (fun m => st16 m (b + 10) 1))).
  destruct (receive_delivers trace fuel w nic vm q a t u l tx_iov Hrx Hfuel [h; h + 1] mh prepare Hfit) as (m' & E & Hm').
  - intros w' Ew. subst prepare h mh. rewrite Etx. unfold get_buf, m_idx. cbn [hdr_at zget Z.leb Z.compare].
    munfold. change ((v :: tx') !! Z.to_nat 0) with (Some v). cbv beta iota.
    unfold m_ret. cbv beta iota.
    assert (trace && (buf v <? 0x1000) = false) as ->.
    { destruct trace; [cbn|done]. destruct Hfit as [_ Hok _ _ _ _ _ _]. rewrite Etx in Hok.
      apply list.Forall_cons in Hok as [(_ & _ & _ & Ht) _]. specialize (Ht eq_refl). by apply Z.ltb_ge. }
    unfold on_mem. rewrite Ew. done.
  - intros y Hy. apply (ld8_st_out 2). set_solver by lia.
  - exists m'. split; [|done]. unfold ethernet_send_to.
    rewrite (m_bind_Ret _ _ _ _ _ (get_dev_ok _ _ _ Hx)), Hact. cbn [negb].
    rewrite (m_bind_Ret _ _ _ _ _ (has_vq_ok _ _ _ _ (rx_queue _ _ _ _ _ _ _ _ _ Hrx))). cbn [negb].
    fold prepare. by rewrite (m_bind_Ret _ _ _ _ _ E).
Qed.

(** C14. The virtual switch delivers: when the receiving device is active and a linked chain of the
    guest's own buffers with room for the frame waits on its receive queue, [ethernet_send_to]
    returns true; the buffers then hold the frame's bytes, in order, the header saying that one buffer was
    used; the chain's head and the frame's length are the next entry of the used ring, whose
    index is one further; the chain is taken off the available ring; and no other memory, no other
    queue and no other device has changed. *)
Theorem ethernet_send_to_delivers trace fuel w nic x vm q a t u l tx_iov :
  zget (devs w) nic = Some x -> activated (dev x) = true ->
  rx_ready trace w nic vm q a t u l -> (List.length l <= fuel)%nat ->
  let h := hdr_at tx_iov in
  fits trace w vm q t u l tx_iov [h; h + 1] ->
  let bufs := flat (buf_of vm (wmem w) t <$> l) in
  let mh := st16 (wmem w) h 1 in
  let e := next_used (wmem w) u (num q) in
  exists m', ethernet_send_to trace fuel vm nic tx_iov (total_len tx_iov) w =
      Ret true (with_wmem m' (set_queue w nic 0 (taken q))) /\
    (ld8 m' <$> take (List.length (flat tx_iov)) bufs) = ld8 mh <$> flat tx_iov /\
    (ld16 m' (u + 2) = u16 (ld16 (wmem w) (u + 2) + 1) /\ ld32 m' e = hd 0 l /\ ld32 m' (e + 4) = total_len tx_iov) /\
    (forall y, y ∉ bufs -> y ∉ [h; h + 1] -> ~ (u <= y < u + 4 + 8 * num q) -> ld8 m' y = ld8 (wmem w) y).
Proof. intros Hx Hact Hrx Hfuel h Hfit. by apply (send_to_spec trace fuel w nic x vm q a t u l tx_iov Hx Hact). Qed.

(** *** A frame of 60 bytes in two buffers, for a chain of two buffers 40 and 100 long *)

Definition st_desc (t idx addr len flags next : Z) (m : Mem) : Mem :=
  let d := vring_desc t idx in st16 (st16 (st32 (st 8 m d addr) (d + 8) len) (d + 12) flags) (d + 14) next.

Definition rx_q : Virtq := mkVq 0 NotifyNet 1 8 (Some 0x50001000) (Some 0x50004000) (Some 0x50006000) 65535 0 0
  0x80001000 0x80004000 0x80006000.
Definition demo_nic : VirtioMmio :=
  mkMmio 0xa000000 0x1000 [rx_q; vq_new 1 NotifyNet; vq_new 2 NotifyNetCtrl]
    (mkDev TypeNet 48 (net_desc_new [1; 2; 3; 4; 5; 6]) net_features None true 0) demo_vm 0 (regs_init TypeNet).
Definition demo_mem : Mem :=
  st_desc 0x50001000 3 0x80010000 40 3 5 (st_desc 0x50001000 5 0x80010100 100 2 0
    (st16 (st16 (st16 ∅ 0x50004002 1) (avail_ring 0x50004000 7) 3) 0x50006002 65535)).
Definition demo_world : World := mkWorld demo_mem [demo_nic] [([1; 2; 3; 4; 5; 6], 0)] ∅ [].
Definition demo_frame : VirtioIov := [mkIov 0x40001000 12; mkIov 0x40002000 48].

(** [iov_ok], decided. *)
Definition iov_okb (trace : bool) (v : VirtioIovData) : bool :=
  (0 <=? buf v) && (0 <=? len v) && (buf v + len v <? 2 ^ 64) && (negb trace || (0x1000 <=? buf v)).
Lemma iov_okb_ok trace l : forallb (iov_okb trace) l = true -> Forall (iov_ok trace) l.
Proof.
  induction l as [|v l IH]; cbn [forallb]; [constructor|]. intros [Hv Hl]%andb_true_iff. constructor; [|by apply IH].
  unfold iov_okb in Hv. bool_to_prop. split_and!; [done..|]. intros ->. by apply Z.leb_le.
Qed.

Definition mappedb (vm : Vm) (m : Mem) (t idx : Z) : bool :=
  match guest_addr vm (d_addr (desc_of m t idx)) with Some _ => true | None => false end.
Lemma mappedb_ok vm m t l : forallb (mappedb vm m t) l = true -> Forall (mapped vm m t) l.
Proof.
  induction l as [|v l IH]; cbn [forallb]; [constructor|]. intros [Hv Hl]%andb_true_iff. constructor; [|by apply IH].
  unfold mapped. unfold mappedb in Hv. destruct (guest_addr _ _); [by eexists|done].
Qed.

Lemma demo_rx_ready : rx_ready true demo_world 0 demo_vm rx_q 0x50004000 0x50001000 0x50006000 [3; 5].
Proof.
  split; [reflexivity..| | | | | |].
  - split; [reflexivity|by split|by vm_compute|by vm_compute].
  - cbn [linked]. split_and!; by vm_compute.
  - apply mappedb_ok. by vm_compute.
  - apply iov_okb_ok. by vm_compute.
  - by vm_compute.
  - by vm_compute.
Qed.

Lemma demo_fits : fits true demo_world demo_vm rx_q 0x50001000 0x50006000 [3; 5] demo_frame [0x4000100a; 0x4000100b].
Proof.
  split.
  - done.
  - apply iov_okb_ok. by vm_compute.
  - done.
  - done.
  - by vm_compute.
  - apply (bool_decide_unpack _). vm_compute. exact I.
  - apply list.Forall_forall. apply (bool_decide_unpack _). vm_compute. exact I.
  - apply list.Forall_forall. apply (bool_decide_unpack _). vm_compute. exact I.
Qed.

Lemma ethernet_send_to_delivers_witness :
  exists m', ethernet_send_to true 2 demo_vm 0 demo_frame 60 demo_world =
      Ret true (with_wmem m' (set_queue demo_world 0 0 (taken rx_q))) /\
    ld16 m' 0x50006002 = 0 /\ ld32 m' (used_ring 0x50006000 7) = 3.
Proof.
  destruct (ethernet_send_to_delivers true 2 demo_world 0 demo_nic demo_vm rx_q 0x50004000 0x50001000 0x50006000
    [3; 5] demo_frame eq_refl eq_refl demo_rx_ready (le_n 2) demo_fits) as (m' & E & _ & (E1 & E2 & _) & _).
  exists m'. split; [exact E|]. split; [etransitivity; [exact E1|vm_compute; reflexivity]|exact E2].
Defined.

(** ** Parsing a block request *)

Section blk_request.
Context (core d i t : Z) (q : Virtq) (vm : Vm) (w : World).
Context (Hq : queue_at w d i = Some q) (Ht : desc_table q = Some t).
Abbreviation m := (wmem w).
Abbreviation bufs l := (buf_of vm m t <$> l).
Abbreviation flags idx := (d_flags (desc_of m t idx)).
Abbreviation more f := (testm f VIRTQ_DESC_F_NEXT).

(** The data buffers are read in order; a reading request has buffers the device writes, a writing one
    buffers it reads. *)
Definition data_ok (ty : Z) (idx : Z) : Prop :=
  Z.shiftr (Z.land (flags idx) 2) 1 <> ty /\ mapped vm m t idx.

Definition push_all (l : VirtioIov) (node : ReqNode) : ReqNode := foldl (fun n v => req_push (buf v) (len v) n) node l.

Definition with_status (st : Z) (node : ReqNode) : World := with_wmem (st8 m (buf (buf_of vm m t st)) (blk_status (AsyncTask.rn_req_type node))) w.

Lemma req_type_push_all l node : AsyncTask.rn_req_type (push_all l node) = AsyncTask.rn_req_type node.
Proof. revert node. induction l as [|v l IH]; intros node; [done|]. cbn [push_all foldl]. unfold push_all in IH. by rewrite IH. Qed.

Lemma push_all_bufs l n : 0 <= AsyncTask.rn_iov_sum_up n -> AsyncTask.rn_iov_sum_up n + total_len (bufs l) < 2 ^ 64 ->
  push_all (bufs l) n = AsyncTask.mkNode (AsyncTask.rn_req_type n) (AsyncTask.rn_sector n) (AsyncTask.rn_desc_chain_head_idx n)
    (AsyncTask.rn_iov n ++ ((fun v => AsyncTask.mkBlkIov (buf v) (len v)) <$> bufs l))
    (AsyncTask.rn_iov_sum_up n + total_len (bufs l)) (AsyncTask.rn_iov_total n).
Proof.
  revert n. induction l as [|idx l IH]; intros n Hn Hw.
  - cbn. rewrite Z.add_0_r, app_nil_r. by destruct n.
  - rewrite fmap_cons in *. unfold total_len in *. cbn [foldr push_all foldl] in *. unfold push_all in IH.
    pose proof (total_len_bufs vm m t l) as H1. pose proof (len_buf_of vm m t idx) as H2. unfold total_len in H1.
    rewrite IH; unfold req_push;
      cbn [AsyncTask.rn_iov_sum_up AsyncTask.rn_req_type AsyncTask.rn_sector AsyncTask.rn_desc_chain_head_idx AsyncTask.rn_iov AsyncTask.rn_iov_total];
      rewrite wrap_small by (unfold in_word; lia); [|lia..].
    rewrite <- app_assoc, Z.add_assoc, fmap_cons. done.
Qed.

Lemma linked_snoc idx data st : linked (fun f => more f) m t (idx :: data ++ [st]) ->
  0 <= idx < DESC_QUEUE_SIZE /\ more (flags idx) = true /\ d_next (desc_of m t idx) = hd 0 (data ++ [st]) /\
  linked (fun f => more f) m t (data ++ [st]).
Proof. cbn [linked]. intros [Hi Hl]. destruct (data ++ [st]) as [|n l'] eqn:E; [by destruct data|]. by destruct Hl as (? & ? & ?). Qed.

Lemma blk_chain_data data st fuel node :
  linked (fun f => more f) m t (data ++ [st]) -> Forall (data_ok (AsyncTask.rn_req_type node)) data ->
  testm (flags st) VIRTQ_DESC_F_WRITE = true -> mapped vm m t st -> (List.length data < fuel)%nat ->
  blk_chain core fuel d i vm false (hd 0 (data ++ [st])) node w =
    Ret (Some (push_all (bufs data) node)) (with_status st node).
Proof.
  revert fuel node. induction data as [|idx data IH]; intros fuel node Hl Hd Hst Hms Hf;
    (destruct fuel as [|fuel]; [cbn in Hf; lia|]); cbn [blk_chain hd app].
  - cbn [app linked] in Hl. destruct Hl as [Hi Hmore].
    rewrite (m_bind_Ret _ _ _ _ _ (w_desc_has_next w d i t q Hq Ht st Hi)), Hmore.
    rewrite (m_bind_Ret _ _ _ _ _ (w_desc_is_writable w d i t q Hq Ht st Hi)), Hst. cbn [negb].
    rewrite (m_bind_Ret _ _ _ _ _ (w_desc_addr w d i t q Hq Ht st Hi)).
    destruct (w_ipa2pa_mapped vm m t st w Hms) as [E0 E1]. by rewrite (m_bind_Ret _ _ _ _ _ E0), E1.
  - apply list.Forall_cons in Hd as [[Hty Hmd] Hd].
    apply linked_snoc in Hl as (Hi & Hmore & Hnext & Hl').
    rewrite (m_bind_Ret _ _ _ _ _ (w_desc_has_next w d i t q Hq Ht idx Hi)), Hmore.
    rewrite (m_bind_Ret _ _ _ _ _ (w_desc_flags w d i t q Hq Ht idx Hi)).
    destruct (w_ipa2pa_mapped vm m t idx w Hmd) as [E0 E1].
    rewrite (proj2 (Z.eqb_neq _ _)) by done.
    erewrite (m_bind_Ret (m_bind _ _)); [|
      rewrite (m_bind_Ret _ _ _ _ _ (w_desc_addr w d i t q Hq Ht idx Hi)), (m_bind_Ret _ _ _ _ _ E0), E1,
        (m_bind_Ret _ _ _ _ _ (w_desc_len w d i t q Hq Ht idx Hi)); reflexivity].
    cbv beta iota.
    rewrite (m_bind_Ret _ _ _ _ _ (w_desc_next w d i t q Hq Ht idx Hi)), Hnext.
    rewrite (IH fuel) by (done || (cbn in Hf; lia)). done.
Qed.

(** A block request is parsed as the driver wrote it: a chain of a header the device reads, data
    buffers whose direction is that of the request, and a byte the device writes, all in the
    guest's memory, gives the request's type and sector from the header, exactly the data buffers, in
    order and translated, and their total length; the last byte gets the status (OK, or UNSUPP for a type
    the device does not know), and nothing else changes. *)
Theorem blk_chain_parses hdr data st fuel h :
  linked (fun f => more f) m t (hdr :: data ++ [st]) -> (S (List.length data) < fuel)%nat ->
  testm (flags hdr) VIRTQ_DESC_F_WRITE = false -> mapped vm m t hdr ->
  let p := buf (buf_of vm m t hdr) in
  let ty := ld32 m p in
  Forall (data_ok ty) data -> total_len (bufs data) < 2 ^ 64 ->
  testm (flags st) VIRTQ_DESC_F_WRITE = true -> mapped vm m t st ->
  let node := AsyncTask.mkNode ty (ld64 m (p + 8)) h ((fun v => AsyncTask.mkBlkIov (buf v) (len v)) <$> bufs data)
                (total_len (bufs data)) 0 in
  blk_chain core fuel d i vm true hdr (req_head h req_default) w =
    Ret (Some node) (with_wmem (st8 m (buf (buf_of vm m t st))
      (if (1 <? ty) && negb (ty =? VIRTIO_BLK_T_GET_ID) then VIRTIO_BLK_S_UNSUPP else VIRTIO_BLK_S_OK)) w).
Proof.
  intros Hl Hf Hhw Hmh p ty Hd Htot Hst Hms node. destruct fuel as [|fuel]; [lia|].
  apply linked_snoc in Hl as (Hi & Hmore & Hnext & Hl').
  cbn [blk_chain]. rewrite (m_bind_Ret _ _ _ _ _ (w_desc_has_next w d i t q Hq Ht hdr Hi)), Hmore.
  rewrite (m_bind_Ret _ _ _ _ _ (w_desc_flags w d i t q Hq Ht hdr Hi)), Hhw.
  destruct (w_ipa2pa_mapped vm m t hdr w Hmh) as [E0 E1].
  erewrite (m_bind_Ret (m_bind _ _)); [|
    rewrite (m_bind_Ret _ _ _ _ _ (w_desc_addr w d i t q Hq Ht hdr Hi)), (m_bind_Ret _ _ _ _ _ E0), E1; reflexivity].
  cbv beta iota.
  rewrite !with_wmem_same, (m_bind_Ret _ _ _ _ _ (w_desc_next w d i t q Hq Ht hdr Hi)), Hnext.
  rewrite (blk_chain_data data st fuel) by (done || lia).
  unfold with_status. f_equal. f_equal. fold p. fold ty.
  rewrite push_all_bufs by (cbn; lia). done.
Qed.
End blk_request.

(** A read of sector 77 into two buffers. *)
Definition blk_mem : Mem :=
  st_desc 0x50001000 0 0x80002000 16 1 1 (st_desc 0x50001000 1 0x80003000 512 3 2
    (st_desc 0x50001000 2 0x80005000 1024 3 7 (st_desc 0x50001000 7 0x80002010 1 2 0 (st 8 ∅ 0x50002008 77)))).
Definition blk_q : Virtq := mkVq 0 NotifyMediatedBlk 1 8 (Some 0x50001000) (Some 0x50004000) (Some 0x50006000) 0 0 0
  0x80001000 0x80004000 0x80006000.
Definition blk_dev : VirtioMmio :=
  mkMmio 0xa000000 0x1000 [blk_q] (mkDev TypeBlock 48 (BlkDesc 1000) blk_features (Some (mkVBlkReq 0 1000 true)) true 0)
    demo_vm 0 (regs_init TypeBlock).
Definition blk_world : World := mkWorld blk_mem [blk_dev] [] ∅ [].

Lemma blk_chain_parses_witness :
  exists w', blk_chain 0 5 0 0 demo_vm true 0 (req_head 0 req_default) blk_world =
    Ret (Some (AsyncTask.mkNode 0 77 0 [AsyncTask.mkBlkIov 0x50003000 512; AsyncTask.mkBlkIov 0x50005000 1024] 1536 0)) w'.
Proof.
  eexists. etransitivity; [apply (blk_chain_parses 0 0 0 0x50001000 blk_q demo_vm blk_world eq_refl eq_refl 0 [1; 2] 7 5 0)|].
  - cbn [linked app]. split_and!; by vm_compute.
  - cbn. lia.
  - by vm_compute.
  - eexists. by vm_compute.
  - repeat constructor; try (by vm_compute); eexists; by vm_compute.
  - by vm_compute.
  - by vm_compute.
  - eexists. by vm_compute.
  - f_equal.
Defined.

(** ** What a guest's descriptors can do *)

(** A loop that no amount of fuel is enough for. *)
Definition never_returns {A} (run : nat -> M World A) (w : World) : Prop := forall fuel, run fuel w = Fault FuelOut.

(** A guest can stop the core that serves it: with a descriptor that links to itself (or a set of
    descriptors that link to one another) on its transmit queue, the notification handler does not
    return, however long it runs; the code bounds neither the number of descriptors it follows nor
    the buffers it collects. *)
Theorem circular_chain_never_ends core trace cpu_count vm_master w d i q vm a t head l :
  queue_at w d i = Some q -> desc_table q = Some t -> ready q <> 0 -> vq_index q = 1 ->
  waits (wmem w) q a head -> circular ne_zero vm (wmem w) t l -> head ∈ l ->
  never_returns (fun fuel => virtio_net_notify_handler core trace cpu_count vm_master fuel d i vm) w.
Proof.
  intros Hq Ht Hr Hix Hw Hc Hh fuel. unfold virtio_net_notify_handler.
  rewrite (m_bind_Ret _ _ _ _ _ (on_vq_read (m_gets (fun s => ready (vq s))) w d i q (ready q) Hq eq_refl)).
  rewrite (proj2 (Z.eqb_neq _ _)) by done.
  rewrite (m_bind_Ret _ _ _ _ _ (on_vq_read (m_gets (fun s => vq_index (vq s))) w d i q (vq_index q) Hq eq_refl)).
  rewrite Hix. cbn [Z.eqb Pos.eqb negb]. unfold m_bind at 1. destruct fuel as [|fuel]; [done|].
  cbn [net_tx_loop]. rewrite (m_bind_Ret _ _ _ _ _ (pop_next_waits w d i q a head Hq Hw)).
  set (w1 := set_queue w d i (taken q)).
  assert (wmem w1 = wmem w) as Ew1 by apply wmem_set_queue.
  unfold m_bind at 1. rewrite (tx_chain_circular w1 d i t (taken q) vm l); [done| |done| |done].
  - by apply (queue_at_set _ _ _ q).
  - by rewrite Ew1.
Qed.

(** Descriptor 3 links to itself. *)
Definition circle_mem : Mem :=
  st_desc 0x50001000 3 0x80010000 40 1 3 (st16 (st16 ∅ 0x50004002 1) (avail_ring 0x50004000 0) 3).
Definition circle_q : Virtq := mkVq 1 NotifyNet 1 8 (Some 0x50001000) (Some 0x50004000) (Some 0x50006000) 0 0 0
  0x80001000 0x80004000 0x80006000.
Definition circle_world : World :=
  mkWorld circle_mem [with_queues [vq_new 0 NotifyNet; circle_q; vq_new 2 NotifyNetCtrl] demo_nic] [] ∅ [].

Lemma circular_chain_never_ends_witness :
  virtio_net_notify_handler 0 true 4 (fun _ => None) 1000 0 1 demo_vm circle_world = Fault FuelOut.
Proof.
  apply (circular_chain_never_ends 0 true 4 (fun _ => None) circle_world 0 1 circle_q demo_vm 0x50004000 0x50001000 3 [3]);
    try reflexivity; try done.
  - constructor; [|constructor]. split_and!; try (by vm_compute); [eexists; by vm_compute|]. left.
  - left.
Defined.

(** A guest can have memory outside its own overwritten: of a receive buffer only the address is
    translated and its length is taken as the descriptor gives it, so when the chain reaches past the
    end of the guest's memory the bytes of a frame are written there, at addresses that belong to no
    region of the guest. *)
Theorem receive_writes_past_region trace fuel w nic x vm q a t u l tx_iov j y :
  zget (devs w) nic = Some x -> activated (dev x) = true ->
  rx_ready trace w nic vm q a t u l -> (List.length l <= fuel)%nat ->
  let h := hdr_at tx_iov in
  fits trace w vm q t u l tx_iov [h; h + 1] ->
  (j < List.length (flat tx_iov))%nat -> flat (buf_of vm (wmem w) t <$> l) !! j = Some y ->
  (forall r, r ∈ pa_region vm -> ~ (pa_start r <= y < pa_start r + pa_length r)) ->
  exists w', ethernet_send_to trace fuel vm nic tx_iov (total_len tx_iov) w = Ret true w' /\
    Some (ld8 (wmem w') y) = ld8 (st16 (wmem w) h 1) <$> flat tx_iov !! j.
Proof.
  intros Hx Hact Hrx Hfuel h Hfit Hj Hy _.
  destruct (send_to_spec trace fuel w nic x vm q a t u l tx_iov Hx Hact Hrx Hfuel Hfit) as (m' & E & H & _).
  eexists. split; [exact E|]. apply (f_equal (fun k => k !! j)) in H.
  rewrite !list_lookup_fmap, lookup_take_lt, Hy in H by done. exact H.
Qed.

(** The buffer starts at the last byte of the region and is 100 bytes long. *)
Definition past_mem : Mem :=
  st_desc 0x50001000 3 0x80ffffff 100 2 0
    (st16 (st16 (st16 (write_at ∅ (zrange 0x40002000 48) (zrange 1 48)) 0x50004002 1) (avail_ring 0x50004000 7) 3) 0x50006002 65535).
Definition past_world : World := mkWorld past_mem [demo_nic] [([1; 2; 3; 4; 5; 6], 0)] ∅ [].

Lemma past_rx_ready : rx_ready true past_world 0 demo_vm rx_q 0x50004000 0x50001000 0x50006000 [3].
Proof.
  split; [reflexivity..| | | | | |].
  - split; [reflexivity|by split|by vm_compute|by vm_compute].
  - cbn [linked]. split_and!; by vm_compute.
  - apply mappedb_ok. by vm_compute.
  - apply iov_okb_ok. by vm_compute.
  - by vm_compute.
  - by vm_compute.
Qed.

Lemma past_fits : fits true past_world demo_vm rx_q 0x50001000 0x50006000 [3] demo_frame [0x4000100a; 0x4000100b].
Proof.
  split.
  - done.
  - apply iov_okb_ok. by vm_compute.
  - done.
  - done.
  - by vm_compute.
  - apply (bool_decide_unpack _). vm_compute. exact I.
  - apply list.Forall_forall. apply (bool_decide_unpack _). vm_compute. exact I.
  - apply list.Forall_forall. apply (bool_decide_unpack _). vm_compute. exact I.
Qed.

Lemma receive_writes_past_region_witness :
  exists w', ethernet_send_to true 1 demo_vm 0 demo_frame 60 past_world = Ret true w' /\
    Some (ld8 (wmem w') 0x51000020) = Some 22.
Proof.
  destruct (receive_writes_past_region true 1 past_world 0 demo_nic demo_vm rx_q 0x50004000 0x50001000 0x50006000
    [3] demo_frame 33 0x51000020 eq_refl eq_refl past_rx_ready (le_n 1) past_fits) as (w' & E & H).
  - vm_compute. lia.
  - by vm_compute.
  - apply list.Forall_forall. constructor; [|constructor]. unfold pa_start, pa_length. lia.
  - exists w'. split; [exact E|]. etransitivity; [exact H|by vm_compute].
Defined.
