(* ===== verification/VirtioInv.v ===== *)
(** * VirtioInv: the invariant of the virtio devices

    Whatever a guest writes to its registers and puts in its queues, the registers stay
    32-bit words, the counters of a queue 16-bit words, a device keeps the queues, handlers and
    configuration descriptor of its type, and the table of MAC addresses refers to network devices.
    The theorems of [VirtioRegs] start from it. *)
From stdpp Require Import gmap list.
From S2P Require Import Prelude Bits GuestMem Virtq Iov Vm VirtioDev VirtioNet VirtioBlk VirtioMmio.

(** ** The invariant *)

Definition reg_list (r : VirtMmioRegs) : list Z :=
  [magic r; version r; device_id r; vendor_id r; dev_feature r; dev_feature_sel r; drv_feature r; drv_feature_sel r;
   q_sel r; q_num_max r; irt_stat r; irt_ack r; dev_stat r].
Definition regs_wf (r : VirtMmioRegs) : Prop := Forall (in_word 32) (reg_list r) /\ drv_feature_sel r = 0.

Record vq_wf (q : Virtq) : Prop := {
  wf_ready : in_word 64 (ready q);
  wf_num : in_word 64 (num q);
  wf_last_avail : in_word 16 (last_avail_idx q);
  wf_flags : in_word 16 (used_flags q);
  wf_addrs : Forall (in_word 64) [desc_table_addr q; avail_addr q; used_addr q];
}.

(** The handlers of a device's queues, and its descriptor, by its type. *)
Definition type_queues (t : VirtioDeviceType) (mediated : bool) : list notify_kind :=
  match t with
  | TypeNone => []
  | TypeBlock => [if mediated then NotifyMediatedBlk else NotifyBlk]
  | TypeNet => [NotifyNet; NotifyNet; NotifyNetCtrl]
  | TypeConsole => [NotifyConsole; NotifyConsole; NotifyConsole; NotifyConsole]
  end.
Definition type_desc (t : VirtioDeviceType) (x : DevDesc) : Prop :=
  match t, x with
  | TypeBlock, BlkDesc c => in_word 64 c
  | TypeNet, NetDesc mac st => Forall (in_word 8) mac /\ List.length mac = 6%nat /\ in_word 16 st
  | TypeConsole, ConsoleDesc _ _ => True
  | _, _ => False
  end.
Definition is_mediated (x : VirtDev) : bool := match req x with Some r => req_mediated r | None => false end.

Record dev_wf (x : VirtioMmio) : Prop := {
  wf_regs : regs_wf (regs x);
  wf_queues : Forall vq_wf (queues x);
  wf_handlers : notify_handler <$> queues x = type_queues (dev_type (dev x)) (is_mediated (dev x));
  wf_indices : vq_index <$> queues x = zrange 0 (List.length (queues x));
  wf_desc : type_desc (dev_type (dev x)) (desc (dev x));
  wf_features : in_word 32 (driver_features x);
  wf_generation : in_word 64 (generation (dev x));
}.

Record world_wf (w : World) : Prop := {
  wf_devs : Forall dev_wf (devs w);
  wf_macs : Forall (fun p => exists x, zget (devs w) p.2 = Some x /\ dev_type (dev x) = TypeNet) (mac2nic w);
  wf_gprs : map_Forall (fun _ v => in_word 64 v) (gprs w);
}.

(** ** The parts of the state *)

Lemma zget_Forall {A} (P : A -> Prop) l i x : Forall P l -> zget l i = Some x -> P x.
Proof. unfold zget. destruct (0 <=? i); [|done]. intros Hl. by apply (proj1 (Forall_lookup _ _) Hl). Qed.

Lemma zset_Forall {A} (P : A -> Prop) l i x : Forall P l -> P x -> Forall P (zset l i x).
Proof. unfold zset. destruct (0 <=? i); [|done]. intros Hl Hx. by apply Forall_insert. Qed.

Lemma zset_fmap {A B} (f : A -> B) l i x y : zget l i = Some y -> f x = f y -> f <$> zset l i x = f <$> l.
Proof.
  unfold zget, zset. destruct (0 <=? i); [|done]. intros Hy Hf.
  rewrite list_fmap_insert, Hf. apply list_insert_id. by rewrite list_lookup_fmap, Hy.
Qed.

Lemma put_dev_wf w d x x' : world_wf w -> zget (devs w) d = Some x -> dev_type (dev x') = dev_type (dev x) -> dev_wf x' ->
  world_wf (with_devs (zset (devs w) d x') w).
Proof.
  intros [Hd Hm Hg] Hx Ht Hx'. split; [by apply zset_Forall| |done].
  cbn [devs mac2nic with_devs]. eapply list.Forall_impl; [exact Hm|]. intros p (y & Hy & Hty).
  destruct (decide (d = p.2)) as [Hp|Hne]; [exists x'|exists y].
  - rewrite <- Hp in *. split; [apply zget_zset_eq; by eapply zget_Some_bounds|congruence].
  - by rewrite zget_zset_ne.
Qed.

Lemma keeps_get_dev d : m_yields world_wf dev_wf (get_dev d).
Proof.
  intros w x w' Hw E. unfold get_dev in E. munfold. destruct (zget (devs w) d) as [y|] eqn:Ex; [|done].
  injection E as <- <-. split; [done|].
  eapply (zget_Forall dev_wf); [apply Hw|done].
Qed.

Lemma keeps_mod_dev d f :
  (forall x, dev_wf x -> dev_wf (f x)) -> (forall x, dev_type (dev (f x)) = dev_type (dev x)) ->
  m_keeps world_wf (mod_dev d f).
Proof.
  intros Hf Ht w [] w' Hw E. unfold mod_dev, get_dev, put_dev in E. munfold.
  destruct (zget (devs w) d) as [x|] eqn:Ex; [|done]. injection E as <-.
  eapply put_dev_wf; [done|done|apply Ht|]. apply Hf. eapply (zget_Forall dev_wf); [apply Hw|done].
Qed.

(** What an operation on a queue has to keep. *)
Definition queue_inv (ix : Z) (h : notify_kind) (s : QS) : Prop :=
  vq_wf (vq s) /\ vq_index (vq s) = ix /\ notify_handler (vq s) = h.

Lemma keeps_on_vq {A} d i (m : M QS A) :
  (forall ix h, m_keeps (queue_inv ix h) m) -> m_keeps world_wf (on_vq d i m).
Proof.
  intros Hm w a w' Hw E. unfold on_vq in E.
  destruct (zget (devs w) d) as [x|] eqn:Ex; [|done]. destruct (zget (queues x) i) as [q|] eqn:Eq; [|done].
  destruct (m (mkQS (wmem w) q)) as [a' s|] eqn:Em; [|done]. injection E as -> <-.
  pose proof (zget_Forall _ _ _ _ (wf_devs _ Hw) Ex) as Hx.
  pose proof (zget_Forall _ _ _ _ (wf_queues _ Hx) Eq) as Hq.
  destruct (Hm (vq_index q) (notify_handler q) (mkQS (wmem w) q) a s ltac:(by split_and!) Em) as (Hs & Hix & Hh).
  assert (world_wf (with_devs (zset (devs w) d (with_queues (zset (queues x) i (vq s)) x)) w)) as [? ? ?]; [|by split].
  eapply put_dev_wf; [done|exact Ex|done|]. destruct Hx as [? ? Hhs His ? ? ?].
  split; cbn [with_queues regs queues dev driver_features upper_vm]; try done.
  - by apply zset_Forall.
  - by rewrite (zset_fmap _ _ _ _ q).
  - by rewrite (zset_fmap _ _ _ _ q), length_zset.
Qed.

Lemma keeps_on_mem {A} (m : M Mem A) : m_keeps world_wf (on_mem m).
Proof. intros w a w' [? ? ?] E. unfold on_mem in E. destruct (m (wmem w)); [|done]. injection E as _ <-. by split. Qed.

Lemma keeps_wemit e : m_keeps world_wf (wemit e).
Proof. intros w [] w' [? ? ?] [= <-]. by split. Qed.

Lemma keeps_w_ipa2pa vm a : m_keeps world_wf (w_ipa2pa vm a).
Proof. apply keeps_opt. Qed.

Lemma keeps_get_dev' d : m_keeps world_wf (get_dev d).
Proof. intros w x w' Hw E. by apply (keeps_get_dev d w x w'). Qed.
#[export] Hint Resolve keeps_on_mem keeps_wemit keeps_w_ipa2pa keeps_get_dev' : keeps.

(** ** Queue operations *)

Section queue_ops.
Context (ix : Z) (h : notify_kind).
Abbreviation Q := (queue_inv ix h).

Lemma q_desc_at idx : m_keeps Q (desc_at idx).
Proof. unfold desc_at. keeps_tac. Qed.
Hint Resolve q_desc_at : keeps.
Lemma q_desc_addr idx : m_keeps Q (desc_addr idx). Proof. unfold desc_addr. keeps_tac. Qed.
Lemma q_desc_flags idx : m_keeps Q (desc_flags idx). Proof. unfold desc_flags. keeps_tac. Qed.
Lemma q_desc_next idx : m_keeps Q (desc_next idx). Proof. unfold desc_next. keeps_tac. Qed.
Lemma q_desc_len idx : m_keeps Q (desc_len idx). Proof. unfold desc_len. keeps_tac. Qed.
Hint Resolve q_desc_flags : keeps.
Lemma q_desc_is_writable idx : m_keeps Q (desc_is_writable idx). Proof. unfold desc_is_writable. keeps_tac. Qed.
Lemma q_desc_has_next idx : m_keeps Q (desc_has_next idx). Proof. unfold desc_has_next. keeps_tac. Qed.
Lemma q_avail_flags : m_keeps Q avail_flags. Proof. unfold avail_flags. keeps_tac. Qed.
Lemma q_avail_idx : m_keeps Q avail_idx. Proof. unfold avail_idx. keeps_tac. Qed.
Lemma q_avail_is_avail : m_keeps Q avail_is_avail. Proof. apply keeps_m_gets. Qed.
Lemma q_check_avail_idx x : m_keeps Q (check_avail_idx x). Proof. apply keeps_m_gets. Qed.

(** A change of the queue's own fields. *)
Lemma q_modify f :
  (forall q, vq_wf q -> vq_wf (f q)) -> (forall q, vq_index (f q) = vq_index q) ->
  (forall q, notify_handler (f q) = notify_handler q) ->
  m_keeps Q (m_modify (fun s => with_vq (f (vq s)) s)).
Proof.
  intros Hf Hi Hh s [] s' (Hq & Hix & Hhd) [= <-]. unfold queue_inv. cbn [vq with_vq].
  rewrite Hi, Hh. auto.
Qed.

Lemma vq_wf_last_avail x q : vq_wf q -> vq_wf (set_last_avail (u16 x) q).
Proof. intros []. split; try done. cbn [set_last_avail last_avail_idx]. by apply (wrap_range 16). Qed.
Lemma vq_wf_flags x q : in_word 16 x -> vq_wf q -> vq_wf (set_used_flags x q).
Proof. intros ? []. by split. Qed.

Lemma q_pop ai : m_keeps Q (pop_avail_desc_idx ai).
Proof.
  unfold pop_avail_desc_idx. apply keeps_get. intros s a s' Hs E. cbv zeta in E.
  destruct (avail (vq s)); [|by injection E as _ <-].
  destruct (ai =? _); [by injection E as _ <-|]. destruct (num _ =? 0); [done|].
  destruct (_ <? _); [|done]. injection E as _ <-. destruct Hs as (Hq & Hi & Hh).
  split; [|done]. by apply vq_wf_last_avail.
Qed.

Lemma q_put_back : m_keeps Q put_back_avail_desc_idx.
Proof.
  intros s [] s' (Hq & Hi & Hh) E. unfold put_back_avail_desc_idx, m_modify in E. cbv zeta in E.
  destruct (avail (vq s)); injection E as <-; [|done]. split; [|done]. by apply vq_wf_last_avail.
Qed.

Lemma q_disable : m_keeps Q disable_notify.
Proof.
  apply (q_modify (fun q => set_used_flags (Z.lor (used_flags q) VRING_USED_F_NO_NOTIFY) q)); [|done..]. intros q Hq. apply vq_wf_flags; [|done].
  apply lor_in_word; [done|apply Hq|done].
Qed.

Lemma q_enable : m_keeps Q enable_notify.
Proof.
  intros s [] s' (Hq & Hi & Hh) E. unfold enable_notify, m_modify in E.
  destruct (testm _ _); injection E as <-; [|done]. split; [|done]. apply vq_wf_flags; [|done].
  apply land_in_word; [done|apply Hq|done].
Qed.

Lemma q_update_used len id : m_keeps Q (update_used_ring len id).
Proof.
  unfold update_used_ring. apply keeps_get. intros s a s' Hs E. cbv zeta in E.
  destruct (used (vq s)); [|by injection E as _ <-]. destruct (num _ =? 0); [done|].
  destruct (_ <? _); [|done]. by injection E as _ <-.
Qed.
End queue_ops.

(** The leaves: one queue operation, on the world. *)
Ltac keeps_queue := apply keeps_on_vq; intros ? ?;
  first [apply q_desc_addr|apply q_desc_flags|apply q_desc_next|apply q_desc_len|apply q_desc_has_next
        |apply q_desc_is_writable|apply q_avail_flags|apply q_avail_idx|apply q_avail_is_avail|apply q_check_avail_idx
        |apply q_pop|apply q_put_back|apply q_disable|apply q_enable|apply q_update_used|apply keeps_m_gets].
#[export] Hint Extern 1 (m_keeps world_wf (on_vq _ _ _)) => keeps_queue : keeps.

(** ** The handlers *)

Lemma keeps_has_vq d i : m_keeps world_wf (has_vq d i).
Proof. unfold has_vq. keeps_tac. Qed.
Lemma keeps_pop_next d i : m_keeps world_wf (pop_next d i).
Proof. unfold pop_next. keeps_tac. Qed.
#[export] Hint Resolve keeps_has_vq keeps_pop_next : keeps.

Ltac forall_split :=
  unfold reg_list in *; rewrite !list.Forall_cons, !list.Forall_nil in *; destruct_and?; split_and?; try done.

Lemma regs_wf_irt x r : in_word 32 x -> regs_wf r -> regs_wf (set_irt_stat x r).
Proof. intros Hx [Hr Hs]. split; [|done]. forall_split. Qed.

Lemma dev_wf_regs r x : regs_wf r -> dev_wf x -> dev_wf (with_regs r x).
Proof. intros Hr []. by split. Qed.

Lemma keeps_notify_cause core cause d : in_word 32 cause -> m_keeps world_wf (notify_cause core cause d).
Proof.
  intros Hc. unfold notify_cause. apply keeps_bind; [|intros _; keeps_tac].
  apply keeps_mod_dev; [|done]. intros x Hx. apply dev_wf_regs; [|done]. apply regs_wf_irt; [|apply Hx].
  apply lor_in_word; [done| |done].
  pose proof (proj1 (wf_regs _ Hx)) as Hr. forall_split.
Qed.
Lemma keeps_notify core d : m_keeps world_wf (notify core d).
Proof. by apply keeps_notify_cause. Qed.
#[export] Hint Resolve keeps_notify : keeps.

Section handlers.
Context (core : Z) (trace : bool) (cpu_count : Z) (vm_master : Z -> option Z) (ctrl_addr status_addr : Z) (vms : list Vm).
Abbreviation keeps m := (m_keeps world_wf m).

Lemma k_tx_chain fuel d i vm idx n iov : keeps (tx_chain fuel d i vm idx n iov).
Proof. revert idx n iov. induction fuel as [|fuel IH]; intros idx n iov; cbn [tx_chain]; keeps_tac. Qed.
Lemma k_rx_chain fuel d i vm total idx n iov : keeps (rx_chain fuel d i vm total idx n iov).
Proof. revert idx n iov. induction fuel as [|fuel IH]; intros idx n iov; cbn [rx_chain]; keeps_tac. Qed.
Lemma k_ctrl_chain fuel d i vm idx n o j : keeps (ctrl_chain fuel d i vm idx n o j).
Proof. revert idx n o j. induction fuel as [|fuel IH]; intros idx n o j; cbn [ctrl_chain]; keeps_tac. Qed.
Lemma k_blk_chain fuel d i vm head idx node : keeps (blk_chain core fuel d i vm head idx node).
Proof. revert head idx node. induction fuel as [|fuel IH]; intros head idx node; cbn [blk_chain]; keeps_tac. Qed.
Hint Resolve k_tx_chain k_rx_chain k_ctrl_chain k_blk_chain : keeps.

Lemma k_receive fuel vm d prepare tx n : keeps prepare -> keeps (receive trace fuel vm d prepare tx n).
Proof. intros Hp. unfold receive. keeps_tac. Qed.
Hint Resolve k_receive : keeps.
Lemma k_ethernet_send_to fuel vm nic tx n : keeps (ethernet_send_to trace fuel vm nic tx n).
Proof. unfold ethernet_send_to, get_buf. keeps_tac. Qed.
Hint Resolve k_ethernet_send_to : keeps.
Lemma k_console_recv fuel v a tx n : keeps (virtio_console_recv core trace vms fuel v a tx n).
Proof. unfold virtio_console_recv. keeps_tac. Qed.
Hint Resolve k_console_recv : keeps.
Lemma k_broadcast_to fuel nics tx n vm : keeps (broadcast_to trace fuel nics tx n vm).
Proof. induction nics as [|[mac nic] nics IH]; cbn [broadcast_to]; keeps_tac. Qed.
Hint Resolve k_broadcast_to : keeps.
Lemma k_transmit fuel tx n vm : keeps (ethernet_transmit trace fuel tx n vm).
Proof. unfold ethernet_transmit, ethernet_broadcast, ethernet_is_arp, byte_at. keeps_tac. Qed.
Hint Resolve k_transmit : keeps.
Lemma k_net_tx_loop fuel d i vm : keeps (net_tx_loop trace fuel d i vm).
Proof. induction fuel as [|fuel IH]; cbn [net_tx_loop]; keeps_tac. Qed.
Hint Resolve k_net_tx_loop : keeps.
Lemma k_notify_receivers nics : keeps (notify_receivers core cpu_count vm_master nics).
Proof. induction nics as [|nic nics IH]; cbn [notify_receivers]; unfold rx_wants_irq; keeps_tac. Qed.
Hint Resolve k_notify_receivers : keeps.
Lemma k_net_handler fuel d i vm : keeps (virtio_net_notify_handler core trace cpu_count vm_master fuel d i vm).
Proof. unfold virtio_net_notify_handler. keeps_tac. Qed.
Lemma k_console_loop fuel d i vm v a : keeps (console_loop core trace vms fuel d i vm v a).
Proof. induction fuel as [|fuel IH]; cbn [console_loop]; keeps_tac. Qed.
Hint Resolve k_console_loop : keeps.
Lemma k_console_handler fuel d i vm : keeps (virtio_console_notify_handler core trace vms fuel d i vm).
Proof. unfold virtio_console_notify_handler. keeps_tac. Qed.
Lemma k_blk_loop fuel d i vm ai : keeps (blk_loop core fuel d i vm ai).
Proof. induction fuel as [|fuel IH]; cbn [blk_loop]; keeps_tac. Qed.
Hint Resolve k_blk_loop : keeps.
Lemma k_blk_requests a fuel d i vm : keeps (blk_requests core a fuel d i vm).
Proof. unfold blk_requests. keeps_tac. Qed.
End handlers.

Section control.
Context (core ctrl_addr status_addr : Z).

Lemma k_ctrl_command d o j : m_keeps world_wf (ctrl_command ctrl_addr status_addr d o j).
Proof.
  unfold ctrl_command. keeps_tac. apply keeps_mod_dev; [|done]. intros x [? ? ? ? Hd ? ?]. split; try done.
  unfold set_net_status. cbn [dev with_dev dev_type desc]. destruct (dev_type (dev x)), (desc (dev x)); cbn [type_desc] in *; try done.
  destruct Hd as (Hm & Hl & _). by split_and!.
Qed.
Hint Resolve k_ctrl_command k_ctrl_chain : keeps.
Lemma k_ctrl_loop fuel d i vm : m_keeps world_wf (ctrl_loop ctrl_addr status_addr fuel d i vm).
Proof. induction fuel as [|fuel IH]; cbn [ctrl_loop]; keeps_tac. Qed.
Hint Resolve k_ctrl_loop : keeps.
Lemma k_handle_ctrl fuel d i vm : m_keeps world_wf (virtio_net_handle_ctrl core ctrl_addr status_addr fuel d i vm).
Proof. unfold virtio_net_handle_ctrl. keeps_tac. Qed.
End control.

(** ** The register file *)

Lemma y_get_gpr r : m_yields world_wf (in_word 64) (get_gpr r).
Proof.
  unfold get_gpr. intros w a w' Hw E. destruct (_ <=? _); injection E as <- <-; (split; [done|]); [done|].
  destruct (gprs w !! r) as [v|] eqn:Ev; [|done]. by apply (wf_gprs _ Hw r v).
Qed.
Lemma keeps_get_gpr r : m_keeps world_wf (get_gpr r).
Proof. intros w a w' Hw E. by apply (y_get_gpr r w a w'). Qed.
Lemma keeps_put_gpr r v : in_word 64 v -> m_keeps world_wf (set_gpr r v).
Proof.
  intros Hv. unfold set_gpr. apply keeps_if; [apply keeps_ret|]. apply keeps_modify. intros w [? ? Hg].
  split; try done. cbn [gprs with_gprs]. by apply map_Forall_insert_2.
Qed.
#[export] Hint Resolve keeps_get_gpr : keeps.

Lemma word_32_64 x : in_word 32 x -> in_word 64 x.
Proof. unfold in_word. lia. Qed.
#[export] Hint Resolve word_32_64 : word.

(** A change of the registers. *)
Lemma keeps_mod_regs d f : (forall r, regs_wf r -> regs_wf (f r)) ->
  m_keeps world_wf (mod_dev d (fun v => with_regs (f (regs v)) v)).
Proof. intros Hf. apply keeps_mod_dev; [|done]. intros x Hx. apply dev_wf_regs; [|done]. apply Hf, Hx. Qed.

Ltac keeps_reg := intros ?; apply keeps_mod_regs; intros r [Hr Hs]; (split; [|done]); forall_split.
Lemma keeps_set_irt_stat d x : in_word 32 x -> m_keeps world_wf (mmio_set_irt_stat d x). Proof. unfold mmio_set_irt_stat. keeps_reg. Qed.
Lemma keeps_set_irt_ack d x : in_word 32 x -> m_keeps world_wf (mmio_set_irt_ack d x). Proof. unfold mmio_set_irt_ack. keeps_reg. Qed.
Lemma keeps_set_q_sel d x : in_word 32 x -> m_keeps world_wf (mmio_set_q_sel d x). Proof. unfold mmio_set_q_sel. keeps_reg. Qed.
Lemma keeps_set_dev_stat d x : in_word 32 x -> m_keeps world_wf (mmio_set_dev_stat d x). Proof. unfold mmio_set_dev_stat. keeps_reg. Qed.
Lemma keeps_set_dev_feature d x : in_word 32 x -> m_keeps world_wf (mmio_set_dev_feature d x). Proof. unfold mmio_set_dev_feature. keeps_reg. Qed.
Lemma keeps_set_dev_feature_sel d x : in_word 32 x -> m_keeps world_wf (mmio_set_dev_feature_sel d x). Proof. unfold mmio_set_dev_feature_sel. keeps_reg. Qed.
Lemma keeps_set_drv_feature d x : in_word 32 x -> m_keeps world_wf (mmio_set_drv_feature d x). Proof. unfold mmio_set_drv_feature. keeps_reg. Qed.
Lemma keeps_set_drv_feature_sel d x : in_word 32 x -> m_keeps world_wf (mmio_set_drv_feature_sel d x). Proof. unfold mmio_set_drv_feature_sel. keeps_reg. Qed.
Lemma keeps_or_driver_feature d x : in_word 32 x -> m_keeps world_wf (or_driver_feature d x).
Proof.
  intros Hx. apply keeps_mod_dev; [|done]. intros v []. split; try done. by apply lor_in_word.
Qed.

Lemma keeps_set_activated d a : m_keeps world_wf (mod_dev d (fun v => with_dev (set_activated a (dev v)) v)).
Proof. apply keeps_mod_dev; [|done]. intros v []. by split. Qed.

Lemma vq_reset_wf q : vq_wf (vq_reset q).
Proof. split; try done. repeat constructor; done. Qed.

Lemma keeps_dev_reset d : m_keeps world_wf (dev_reset d).
Proof.
  unfold dev_reset. apply keeps_bind.
  { apply (keeps_mod_regs d (fun r => set_irt_stat 0 (set_dev_stat 0 r))). intros r [Hr Hs]. split; [|done]. forall_split. }
  intros _. keeps_tac. apply keeps_mod_dev; [|done]. intros v [? ? Hh Hi ? ? ?].
  split; try done; cbn [queues with_queues with_dev set_activated dev dev_type].
  - apply list.Forall_fmap, list.Forall_forall. intros q _. apply vq_reset_wf.
  - by rewrite <- list_fmap_compose.
  - rewrite <- list_fmap_compose, length_fmap. done.
Qed.

Lemma bytes_word (f : Z -> Z) o n : (forall k, 0 <= f k < 256) ->
  0 <= foldr (fun b r => b + 256 * r) 0 (f <$> zrange o n) < 256 ^ Z.of_nat n.
Proof.
  intros Hf. revert o. induction n as [|n IH]; intros o; [done|]. cbn [zrange]. rewrite fmap_cons. cbn [foldr].
  rewrite Nat2Z.inj_succ, Z.pow_succ_r by lia. specialize (IH (o + 1)). specialize (Hf o). lia.
Qed.

Section mmio.
Context (core : Z) (trace : bool) (cpu_count : Z) (vm_master : Z -> option Z).
Context (ctrl_addr status_addr : Z) (vms : list Vm) (active_vm : option Vm) (beyond : DevDesc -> Z -> Z) (fuel : nat).
(** What is in memory is bytes. *)
Context (Hbeyond : forall x o, 0 <= beyond x o < 256).
Abbreviation keeps m := (m_keeps world_wf m).

Lemma desc_byte_range t x o : type_desc t x -> 0 <= desc_byte beyond x o < 256.
Proof.
  intros Ht. unfold desc_byte.
  assert (forall v k, 0 <= Z.land (Z.shiftr v (8 * k)) 255 < 256) as Hle.
  { intros v k. change 255 with (Z.ones 8). rewrite Z.land_ones by lia. by apply Z.mod_pos_bound. }
  destruct x as [c|mac st|]; [| |apply Hbeyond].
  - unfold blk_desc_byte. cbv zeta. repeat match goal with |- context [if ?b then _ else _] => destruct b end;
      cbn [from_option id]; first [apply Hle|apply Hbeyond|lia].
  - unfold net_desc_byte. destruct t; try done. destruct Ht as (Hm & _ & Hst). unfold in_word in Hst.
    destruct (_ && _); [|destruct (o =? 6); [|destruct (o =? 7)]]; cbn [from_option id]; [| | |apply Hbeyond].
    + destruct (zget mac o) as [b|] eqn:Eb; [|apply Hbeyond]. by apply (zget_Forall _ _ _ _ Hm Eb).
    + by apply Z.mod_pos_bound.
    + split; [apply Z.div_pos; lia|apply Z.div_lt_upper_bound; lia].
Qed.

Lemma offset_data_word t x o width : type_desc t x -> in_word 64 (offset_data beyond x o width).
Proof.
  intros Ht. unfold offset_data. destruct ((width =? 1) || (width =? 2) || (width =? 4) || (width =? 8)) eqn:E; [|done].
  pose proof (bytes_word (desc_byte beyond x) o (Z.to_nat width) (fun k => desc_byte_range t x k Ht)) as H.
  assert (256 ^ Z.of_nat (Z.to_nat width) <= 2 ^ 64); [|split; [apply H|eapply Z.lt_le_trans; [apply H|done]]].
  assert (width = 1 \/ width = 2 \/ width = 4 \/ width = 8) as [->|[->|[->| ->]]]; [|done..].
  rewrite !orb_true_iff, !Z.eqb_eq in E. lia.
Qed.

Lemma k_cfg_access d ctx offset write : keeps (virtio_mmio_cfg_access beyond d ctx offset write).
Proof.
  unfold virtio_mmio_cfg_access. apply keeps_if; [|apply keeps_ret].
  apply (yields_bind _ dev_wf); [apply keeps_get_dev|]. intros v Hv.
  apply keeps_if; [apply keeps_put_gpr, Hv|]. apply keeps_if; [|apply keeps_ret].
  pose proof (wf_desc _ Hv) as Hd. destruct (desc (dev v)); [| |apply keeps_fault];
    eapply keeps_put_gpr, offset_data_word, Hd.
Qed.

Lemma keeps_gpr_k {A} r (k : Z -> M World A) : (forall v, in_word 64 v -> keeps (k v)) -> keeps (m_bind (get_gpr r) k).
Proof. intros Hk. by apply (yields_bind _ (in_word 64)); [apply y_get_gpr|]. Qed.

Lemma u32_word x : in_word 32 (u32 x).
Proof. by apply wrap_range. Qed.

Lemma keeps_or_feature d value : in_word 32 value ->
  keeps (let! v := get_dev d in
         if negb (drv_feature_sel (regs v) =? 0) then or_driver_feature d (shlw 64 value 32) else or_driver_feature d value).
Proof.
  intros Hval. apply (yields_bind _ dev_wf); [apply keeps_get_dev|]. intros v Hv.
  rewrite (proj2 (wf_regs _ Hv)). cbn [Z.eqb negb]. by apply keeps_or_driver_feature.
Qed.

Lemma k_prologue d ctx offset write : keeps (virtio_mmio_prologue_access d ctx offset write).
Proof.
  unfold virtio_mmio_prologue_access. destruct write; cbn [negb].
  - apply keeps_gpr_k. intros g Hg. pose proof (u32_word g) as Hw.
    apply keeps_if; [by apply keeps_set_dev_feature_sel|].
    apply keeps_if; [apply keeps_bind; [by apply keeps_set_drv_feature|intros _; by apply keeps_or_feature]|].
    apply keeps_if; [by apply keeps_set_drv_feature_sel|]. apply keeps_if; [|apply keeps_ret].
    apply keeps_bind; [by apply keeps_set_dev_stat|intros _].
    apply keeps_if; [apply keeps_dev_reset|]. apply keeps_if; [apply keeps_set_activated|apply keeps_ret].
  - apply (yields_bind _ dev_wf); [apply keeps_get_dev|]. intros v Hv. pose proof (proj1 (wf_regs _ Hv)) as Hregs.
    assert (forall x, x ∈ reg_list (regs v) -> keeps (set_gpr (VgicDist.reg ctx) x)) as Hset.
    { intros x Hx. apply keeps_put_gpr, word_32_64. by apply (proj1 (list.Forall_forall _ _) Hregs). }
    unfold reg_list in Hset.
    repeat (apply keeps_if; [try (apply Hset; rewrite ?elem_of_cons; tauto)|]); [|apply keeps_ret].
    apply keeps_bind; [|intros _; apply keeps_put_gpr, word_32_64; destruct (negb _); apply u32_word].
    apply keeps_set_dev_feature. destruct (negb _); apply u32_word.
Qed.

Lemma keeps_upd_vq d q f : (forall v, vq_wf v -> vq_wf (f v)) -> (forall v, vq_index (f v) = vq_index v) ->
  (forall v, notify_handler (f v) = notify_handler v) -> keeps (on_sel d q (upd_vq f)).
Proof.
  intros Hf Hi Hh. unfold on_sel. apply keeps_bind; [apply keeps_has_vq|intros ok].
  apply keeps_if; [|apply keeps_fault]. apply keeps_on_vq. intros ix h. by apply q_modify.
Qed.

(** The three rings' addresses. *)
Lemma keeps_set_ring_addr d q value or_addr addr set_ptr :
  (forall a v, in_word 64 a -> vq_wf v -> vq_wf (or_addr a v)) -> (forall a v, vq_wf v -> vq_wf (set_ptr a v)) ->
  (forall a v, vq_index (or_addr a v) = vq_index v /\ notify_handler (or_addr a v) = notify_handler v) ->
  (forall a v, vq_index (set_ptr a v) = vq_index v /\ notify_handler (set_ptr a v) = notify_handler v) ->
  keeps (set_ring_addr active_vm d q value or_addr addr set_ptr).
Proof.
  intros Ho Hs Hoi Hsi. unfold set_ring_addr. apply keeps_bind.
  - unfold on_sel. apply keeps_bind; [apply keeps_has_vq|intros ok]. apply keeps_if; [|apply keeps_fault].
    apply keeps_on_vq. intros ix h. apply keeps_bind; [|intros _; apply keeps_m_gets].
    apply q_modify; [|apply Hoi|apply Hoi]. intros v. apply Ho. apply (wrap_range 64). lia.
  - intros ipa. keeps_tac. apply keeps_upd_vq; [apply Hs|apply Hsi|apply Hsi].
Qed.

Lemma vq_wf_or (a b c : bool) v x : vq_wf v -> in_word 64 x ->
  Forall (in_word 64) [Z.lor (desc_table_addr v) (if a then x else 0); Z.lor (avail_addr v) (if b then x else 0);
    Z.lor (used_addr v) (if c then x else 0)].
Proof.
  intros [_ _ _ _ Ha] Hx. rewrite !list.Forall_cons, list.Forall_nil in *. destruct_and!.
  split_and!; try done; apply lor_in_word; try done; by case_match.
Qed.

Lemma vq_wf_or_desc x v : in_word 64 x -> vq_wf v -> vq_wf (or_desc_table_addr x v).
Proof. intros Hx Hv. pose proof (vq_wf_or true false false v x Hv Hx) as Ha. rewrite !Z.lor_0_r in Ha. destruct Hv. by split. Qed.
Lemma vq_wf_or_avail x v : in_word 64 x -> vq_wf v -> vq_wf (or_avail_addr x v).
Proof. intros Hx Hv. pose proof (vq_wf_or false true false v x Hv Hx) as Ha. rewrite !Z.lor_0_r in Ha. destruct Hv. by split. Qed.
Lemma vq_wf_or_used x v : in_word 64 x -> vq_wf v -> vq_wf (or_used_addr x v).
Proof. intros Hx Hv. pose proof (vq_wf_or false false true v x Hv Hx) as Ha. rewrite !Z.lor_0_r in Ha. destruct Hv. by split. Qed.

Lemma low_word value : in_word 64 (Z.land value (Z.ones 32)).
Proof. rewrite Z.land_ones by lia. apply word_32_64, (wrap_range 32). lia. Qed.

Lemma k_queue_access d ctx offset write : keeps (virtio_mmio_queue_access active_vm d ctx offset write).
Proof.
  unfold virtio_mmio_queue_access. apply (yields_bind _ dev_wf); [apply keeps_get_dev|]. intros v Hv.
  destruct write; cbn [negb].
  - apply keeps_gpr_k. intros value Hg. pose proof (low_word value) as Hlow.
    repeat (apply keeps_if; [|]); try apply keeps_ret; try (by apply keeps_set_q_sel, u32_word);
      try (apply keeps_upd_vq; try done); try (apply keeps_set_ring_addr; try done);
      eauto using vq_wf_or_desc, vq_wf_or_avail, vq_wf_or_used.
    all: try (intros ? []; by split). all: intros ? ? []; by split.
  - apply keeps_if; [apply keeps_put_gpr, word_32_64|apply keeps_if; [|apply keeps_ret]].
    + pose proof (proj1 (wf_regs _ Hv)). forall_split.
    + apply keeps_bind; [|intros r; apply keeps_put_gpr, word_32_64, u32_word].
      unfold on_sel. apply keeps_bind; [apply keeps_has_vq|intros ok]. keeps_tac.
Qed.

Lemma k_call_notify d i vm h : keeps (call_notify_handler core trace cpu_count vm_master ctrl_addr status_addr vms fuel d i vm h).
Proof.
  destruct h; cbn [call_notify_handler].
  - unfold virtio_blk_notify. apply keeps_bind; [apply k_blk_requests|intros o; keeps_tac].
  - keeps_tac.
  - apply k_net_handler.
  - apply k_handle_ctrl.
  - apply k_console_handler.
Qed.

Lemma handler_keeps d ctx :
  keeps (handler core trace cpu_count vm_master ctrl_addr status_addr vms active_vm beyond fuel d ctx).
Proof.
  unfold handler. apply (yields_bind _ dev_wf); [apply keeps_get_dev|]. intros v Hv. cbv zeta.
  assert (in_word 32 (irt_stat (regs v))) as Hirt by (pose proof (proj1 (wf_regs _ Hv)); forall_split).
  apply keeps_if; [|apply keeps_if; [|apply keeps_if; [|apply keeps_if; [|apply keeps_if; [|apply keeps_if]]]]].
  - apply keeps_bind; [by apply keeps_set_irt_stat|intros _]. apply keeps_bind; [apply keeps_get_gpr|intros idx].
    keeps_tac. apply k_call_notify.
  - apply keeps_bind; [|intros _; apply keeps_ret]. by apply keeps_put_gpr, word_32_64.
  - apply keeps_gpr_k. intros g Hg. apply keeps_bind; [|intros _; apply keeps_bind; [|intros _; apply keeps_ret]].
    + apply keeps_set_irt_stat, land_in_word; [done|done|]. apply notw_in_word; [done|apply u32_word].
    + apply keeps_set_irt_ack, u32_word.
  - apply keeps_bind; [apply k_prologue|intros _; apply keeps_ret].
  - apply keeps_bind; [apply k_queue_access|intros _; apply keeps_ret].
  - apply keeps_bind; [apply k_cfg_access|intros _; apply keeps_ret].
  - apply keeps_ret.
Qed.
End mmio.

(** ** Construction *)

Definition cfg_wf (c : VirtioCfg) : Prop := Forall (in_word 64) (cfg_list c).

Lemma virt_dev_new_ok t c w v w' : cfg_wf c -> virt_dev_new t c w = Ret v w' ->
  w' = w /\ dev_type v = t /\ type_desc t (desc v) /\ generation v = 0 /\
  type_queues t (is_mediated v) = notify_handler <$> (virtio_queue_init t (cfg_mediated c && match t with TypeBlock => true | _ => false end)).2.
Proof.
  intros Hc E. destruct t; unfold virt_dev_new in E; [done| | |].
  - injection E as <- <-. split_and!; try done. unfold net_desc_new. cbn [desc type_desc].
    split_and!; [|rewrite length_app, length_replicate, length_fmap, length_take; lia|done].
    apply Forall_app. split; [apply list.Forall_fmap, list.Forall_forall; intros x _; by apply wrap_range|].
    apply list.Forall_forall. intros x [-> _]%elem_of_replicate. done.
  - apply m_bind_inv in E as (c1 & ? & [H1 ->]%m_idx_inv & E). apply m_bind_inv in E as (c0 & ? & [H0 ->]%m_idx_inv & E).
    injection E as <- <-. split_and!; try done.
    + by apply (zget_Forall _ _ _ _ Hc H1).
    + cbn [type_queues is_mediated req req_mediated virtio_queue_init snd fmap list_fmap]. by rewrite andb_true_r.
  - apply m_bind_inv in E as (c0 & ? & [H0 ->]%m_idx_inv & E). apply m_bind_inv in E as (c1 & ? & [H1 ->]%m_idx_inv & E).
    by injection E as <- <-.
Qed.

Lemma mmio_new_wf vm t c w x w' : cfg_wf c -> mmio_new vm t c w = Ret x w' ->
  w' = w /\ dev_type (dev x) = t /\ dev_wf x.
Proof.
  intros Hc E. unfold mmio_new in E. apply m_bind_inv in E as (v & w1 & E1 & E).
  destruct (virt_dev_new_ok _ _ _ _ _ Hc E1) as (-> & Ht & Hd & Hg & Hq).
  destruct (virtio_queue_init t _) as [qmax qs] eqn:Eq. injection E as <- <-. split_and!; [done|done|].
  cbn [snd] in Hq. split; cbn [regs queues dev driver_features]; rewrite ?Ht; try done.
  - split; [|done]. destruct t; injection Eq as <- _; repeat constructor; done.
  - destruct t; injection Eq as _ <-; repeat constructor; done.
  - destruct t; by injection Eq as _ <-.
  - by rewrite Hg.
Qed.

Lemma set_mac_info_elem mac nic l p : p ∈ set_mac_info mac nic l -> p.2 = nic \/ p ∈ l.
Proof.
  induction l as [|[k n] l IH]; cbn [set_mac_info].
  - intros ->%list_elem_of_singleton. by left.
  - destruct (mac_ltb mac k); [intros [->|?]%elem_of_cons; [by left|by right]|].
    destruct (mac_ltb k mac); intros [->|H]%elem_of_cons; rewrite ?elem_of_cons; try tauto.
Qed.

Lemma zget_snoc_l {A} (l : list A) i x y : zget l i = Some x -> zget (l ++ [y]) i = Some x.
Proof. unfold zget. destruct (0 <=? i); [|done]. apply lookup_app_l_Some. Qed.
Lemma zget_snoc {A} (l : list A) y : zget (l ++ [y]) (zlen l) = Some y.
Proof. unfold zget, zlen. rewrite (proj2 (Z.leb_le _ _)) by lia. rewrite Nat2Z.id. by apply list_lookup_middle. Qed.

Lemma emu_virtio_mmio_init_keeps vm c : cfg_wf c -> m_keeps world_wf (emu_virtio_mmio_init vm c).
Proof.
  intros Hc w o w' [Hd Hm Hg] E. unfold emu_virtio_mmio_init in E.
  set (t := match emu_type (emu_cfg c) with 3 => TypeBlock | 4 => TypeNet | 5 => TypeConsole | _ => TypeNone end) in E.
  assert (forall t, (let! x := mmio_new vm t c in let! w := m_get in let d := zlen (devs w) in
      m_put (with_devs (devs w ++ [x]) w) >>; match t with
      | TypeNet => let mac := wrap 8 <$> take 6 (cfg_list c) in
          (if zlen mac <? 6 then m_fault OutOfBounds else m_modify (fun w => with_mac (set_mac_info mac d (mac2nic w)) w)) >>; m_ret (Some d)
      | _ => m_ret (Some d) end) w = Ret o w' -> world_wf w') as Hall.
  { clear t E. intros t E. apply m_bind_inv in E as (x & w1 & E1 & E).
    destruct (mmio_new_wf _ _ _ _ _ _ Hc E1) as (-> & Ht & Hx). munfold. cbv zeta in E.
    set (w2 := with_devs (devs w ++ [x]) w) in *.
    assert (world_wf w2) as [Hd2 Hm2 Hg2].
    { split; [apply Forall_app; by split; [|constructor]| |done]. cbn [w2 devs mac2nic with_devs].
      eapply list.Forall_impl; [exact Hm|]. intros p (y & Hy & Hty). exists y. split; [by apply zget_snoc_l|done]. }
    assert (world_wf w2) as Hw2 by by split.
    destruct t; try (by injection E as _ <-).
    destruct (_ <? _); [done|]. injection E as _ <-. split; [done| |done]. cbn [mac2nic with_mac devs].
    apply list.Forall_forall. intros p [->|Hp]%set_mac_info_elem; [|by apply (proj1 (list.Forall_forall _ _) Hm2)].
    exists x. split; [apply zget_snoc|done]. }
  destruct t; [by injection E as _ <-|by apply Hall in E..].
Qed.

(** ** A world with one device *)

Definition empty_world : World := mkWorld ∅ [] [] ∅ [].
Definition net_cfg : VirtioCfg := mkVCfg (mkEmuCfg 0xa000000 0x1000 48 4) [2; 0; 0; 0; 0; 7] false.
Definition one_nic : World :=
  match emu_virtio_mmio_init demo_vm net_cfg empty_world with Ret _ w => w | Fault _ => empty_world end.

Lemma empty_world_wf : world_wf empty_world.
Proof. by split. Qed.

Lemma net_cfg_wf : cfg_wf net_cfg.
Proof. repeat constructor; done. Qed.
Lemma one_nic_wf : world_wf one_nic.
Proof. by apply (emu_virtio_mmio_init_keeps demo_vm net_cfg net_cfg_wf empty_world (Some 0)); [apply empty_world_wf|]. Qed.
