(* ===== verification/VirtioRegs.v ===== *)
(** * VirtioRegs: theorems about the register file

    Which accesses of a guest stop the hypervisor, what becomes of the features it accepts, what
    it reads in the configuration space, and the table of MAC addresses. *)
From Stdlib Require Import Sorting.Sorted.
From stdpp Require Import gmap list.
From S2P Require Import Prelude Bits GuestMem Virtq Iov Vm VirtioDev VirtioNet VirtioBlk VirtioMmio VirtioChain VirtioInv.

Definition put_at (w : World) (d : Z) (x : VirtioMmio) : World := with_devs (zset (devs w) d x) w.

Lemma mod_dev_ok w d x f : zget (devs w) d = Some x -> mod_dev d f w = Ret tt (put_at w d (f x)).
Proof. intros E. unfold mod_dev. by rewrite (m_bind_Ret _ _ _ _ _ (get_dev_ok _ _ _ E)). Qed.

Lemma zget_put w d x y : zget (devs w) d = Some y -> zget (devs (put_at w d x)) d = Some x.
Proof. intros E. cbn [put_at with_devs devs]. apply zget_zset_eq. by eapply zget_Some_bounds. Qed.

Lemma get_gpr_ok w r : 0 <= r < 31 -> get_gpr r w = Ret (default 0 (gprs w !! r)) w.
Proof. intros Hr. unfold get_gpr, CONTEXT_GPR_NUM. by rewrite (proj2 (Z.leb_gt _ _)) by lia. Qed.

(** The offset of an access. *)
Definition offset_of (x : VirtioMmio) (ctx : EmuContext) : Z := usize (VgicDist.address ctx - base x).

(** ** Panics *)

Definition faults {A} (o : outcome World A) : bool := match o with Ret _ _ => false | Fault _ => true end.
Definition total {A} (m : M World A) : Prop := forall w, faults (m w) = false.

Lemma faults_bind_total {A B} (m : M World A) (k : A -> M World B) w :
  (forall a, total (k a)) -> faults (m_bind m k w) = faults (m w).
Proof. intros Hk. unfold m_bind. destruct (m w); [apply Hk|done]. Qed.

Lemma total_ret {A} (a : A) : total (m_ret a). Proof. done. Qed.
Lemma total_set_gpr r v : total (set_gpr r v).
Proof. intros w. unfold set_gpr. by destruct (_ <=? _). Qed.
Lemma total_get_gpr r : total (get_gpr r).
Proof. intros w. unfold get_gpr. by destruct (_ <=? _). Qed.

(** The selected queue does not exist. *)
Definition no_queue (x : VirtioMmio) : bool := zlen (queues x) <=? q_sel (regs x).
Definition is_console (x : VirtioMmio) : bool := match desc (dev x) with ConsoleDesc _ _ => true | _ => false end.
Definition gpr_value (w : World) (r : Z) : Z := if 31 <=? r then 0 else default 0 (gprs w !! r).

(** The offsets of the registers of a queue. *)
Definition queue_regs : list Z := [0x38; 0x44; 0x80; 0x84; 0x90; 0x94; 0xa0; 0xa4].

(** The accesses that stop the hypervisor. *)
Definition bad_access (x : VirtioMmio) (off : Z) (write : bool) (value : Z) : bool :=
  if write then
    ((off =? 0x70) && (u32 value =? 0) && no_queue x) || (existsb (Z.eqb off) queue_regs && no_queue x)
  else ((off =? 0x44) && no_queue x) || ((0x100 <=? off) && (off <=? 0x1ff) && is_console x).

Section panics.
Context (w : World) (d : Z) (x : VirtioMmio) (Hx : zget (devs w) d = Some x) (Hsel : 0 <= q_sel (regs x)).
Abbreviation q := (q_sel (regs x)).

Lemma faults_mod_dev f : faults (mod_dev d f w) = false.
Proof. by rewrite (mod_dev_ok w d x f Hx). Qed.

Lemma sel_queue : if no_queue x then zget (queues x) q = None else exists v, queue_at w d q = Some v.
Proof.
  unfold no_queue. destruct (Z.leb_spec (zlen (queues x)) q); [apply zget_None; lia|].
  unfold queue_at. rewrite Hx. cbn [mbind option_bind]. destruct (zget_in_bounds (queues x) q) as [v Hv]; [lia|by exists v].
Qed.

Lemma on_sel_none {A} (m : M QS A) : no_queue x = true -> on_sel d q m w = Fault ExplicitPanic.
Proof.
  intros Hn. pose proof sel_queue as Hs. rewrite Hn in Hs. unfold on_sel, has_vq.
  unfold m_bind at 1. rewrite (m_bind_Ret _ _ _ _ _ (get_dev_ok _ _ _ Hx)). by rewrite Hs.
Qed.

Lemma on_sel_some {A} (m : M QS A) v a s : queue_at w d q = Some v -> m (mkQS (wmem w) v) = Ret a s ->
  on_sel d q m w = Ret a (with_wmem (qmem s) (set_queue w d q (vq s))).
Proof.
  intros Hv E. unfold on_sel. rewrite (m_bind_Ret _ _ _ _ _ (has_vq_ok _ _ _ _ Hv)). by apply (on_vq_Ret _ _ _ _ v).
Qed.

Lemma faults_upd_vq f : faults (on_sel d q (upd_vq f) w) = no_queue x.
Proof.
  pose proof sel_queue as Hs. destruct (no_queue x) eqn:En; [by rewrite on_sel_none|].
  destruct Hs as [v Hv]. by erewrite (on_sel_some _ v).
Qed.

Lemma faults_ready r : faults ((let! rdy := on_sel d q (m_gets (fun s => ready (vq s))) in set_gpr r (u32 rdy)) w) = no_queue x.
Proof.
  rewrite faults_bind_total by (intros a; apply total_set_gpr).
  pose proof sel_queue as Hs. destruct (no_queue x) eqn:En; [by rewrite on_sel_none|].
  destruct Hs as [v Hv]. by erewrite (on_sel_some _ v).
Qed.

Lemma faults_dev_reset : faults (dev_reset d w) = no_queue x.
Proof.
  unfold dev_reset. rewrite (m_bind_Ret _ _ _ _ _ (mod_dev_ok w d x _ Hx)).
  set (x1 := with_regs _ x). set (w1 := put_at w d x1).
  assert (zget (devs w1) d = Some x1) as Hx1 by by eapply zget_put.
  rewrite (m_bind_Ret _ _ _ _ _ (get_dev_ok _ _ _ Hx1)).
  change (queues x1) with (queues x). change (q_sel (regs x1)) with q. unfold no_queue, m_idx.
  destruct (Z.leb_spec (zlen (queues x)) q).
  - by rewrite (proj2 (zget_None (queues x) q)) by lia.
  - destruct (zget_in_bounds (queues x) q) as [v ->]; [lia|].
    unfold m_opt. rewrite m_bind_ret. by rewrite (mod_dev_ok w1 d x1).
Qed.

(** Translations by the active VM. *)
Definition vm_ok (vm : Vm) : Prop := mem_region_num vm <= zlen (pa_region vm).

Lemma vm_ipa2pa_total vm ipa : vm_ok vm -> is_Some (vm_ipa2pa vm ipa).
Proof.
  intros Hv. unfold vm_ipa2pa. destruct (ipa =? 0); [done|].
  assert (forall l, (forall i, i ∈ l -> 0 <= i < zlen (pa_region vm)) -> is_Some (ipa2pa_from (pa_region vm) ipa l)) as H.
  { induction l as [|i l IH]; intros Hl; [done|]. cbn [ipa2pa_from].
    destruct (zget_in_bounds (pa_region vm) i) as [r ->]; [apply Hl; by left|].
    destruct (in_range _ _ _); [done|]. apply IH. intros j Hj. apply Hl. by right. }
  apply H. intros i Hi%zrange_elem. unfold vm_ok in Hv. lia.
Qed.

Lemma faults_set_ring_addr vm value or_addr addr set_ptr : vm_ok vm ->
  faults (set_ring_addr (Some vm) d q value or_addr addr set_ptr w) = no_queue x.
Proof.
  intros Hvm. unfold set_ring_addr. pose proof sel_queue as Hs. destruct (no_queue x) eqn:En.
  - unfold m_bind at 1. by rewrite on_sel_none.
  - destruct Hs as [v Hv]. erewrite m_bind_Ret by by eapply (on_sel_some _ v). cbn [qmem vq with_vq upd_vq m_modify].
    set (v' := or_addr _ v). unfold m_opt at 1. rewrite m_bind_ret.
    destruct (vm_ipa2pa_total vm (addr v') Hvm) as [pa ->].
    unfold m_opt. rewrite m_bind_ret. destruct (pa =? 0); [done|].
    match goal with |- faults (on_sel _ _ _ ?w1) = _ =>
      assert (queue_at w1 d q = Some v') as Hv' by apply (queue_at_set w d q v v' Hv) end.
    unfold on_sel. rewrite (m_bind_Ret _ _ _ _ _ (has_vq_ok _ _ _ v' Hv')).
    by erewrite (on_vq_Ret _ _ d q v') by first [exact Hv'|reflexivity].
Qed.
End panics.

Section access_panics.
Context (core : Z) (trace : bool) (cpu_count : Z) (vm_master : Z -> option Z).
Context (ctrl_addr status_addr : Z) (vms : list Vm) (vm : Vm) (beyond : DevDesc -> Z -> Z) (fuel : nat).
Context (w : World) (d : Z) (x : VirtioMmio) (ctx : EmuContext).
Context (Hx : zget (devs w) d = Some x) (Hsel : 0 <= q_sel (regs x)) (Hvm : vm_ok vm).
Abbreviation value := (gpr_value w (VgicDist.reg ctx)).

Lemma get_gpr_value r : get_gpr r w = Ret (gpr_value w r) w.
Proof. unfold get_gpr, gpr_value, CONTEXT_GPR_NUM. by destruct (31 <=? r). Qed.

Lemma prologue_faults off write :
  faults (virtio_mmio_prologue_access d ctx off write w) = write && (off =? 0x70) && (u32 value =? 0) && no_queue x.
Proof.
  unfold virtio_mmio_prologue_access. destruct write; cbn [negb andb].
  - rewrite (m_bind_Ret _ _ _ _ _ (get_gpr_value _)). cbv zeta.
    destruct (Z.eqb_spec off 0x14) as [->|]; [by apply (faults_mod_dev w d x)|].
    destruct (Z.eqb_spec off 0x20) as [->|].
    { unfold mmio_set_drv_feature. rewrite (m_bind_Ret _ _ _ _ _ (mod_dev_ok w d x _ Hx)).
      assert (forall y, exists z, zget (devs (put_at w d y)) d = Some z) as Hz by (intros y; eexists; by eapply zget_put).
      destruct (Hz (with_regs (set_drv_feature (u32 value) (regs x)) x)) as [z Ez].
      rewrite (m_bind_Ret _ _ _ _ _ (get_dev_ok _ _ _ Ez)). by destruct (negb _); apply (faults_mod_dev _ d z). }
    destruct (Z.eqb_spec off 0x24) as [->|]; [by apply (faults_mod_dev w d x)|].
    destruct (Z.eqb_spec off 0x70) as [->|]; [|done]. cbn [andb].
    unfold mmio_set_dev_stat. rewrite (m_bind_Ret _ _ _ _ _ (mod_dev_ok w d x _ Hx)).
    set (x1 := with_regs _ x). assert (zget (devs (put_at w d x1)) d = Some x1) as Hx1 by by eapply zget_put.
    destruct (u32 value =? 0); [by apply (faults_dev_reset (put_at w d x1) d x1)|].
    destruct (_ =? 15); [by apply (faults_mod_dev _ d x1)|done].
  - rewrite (m_bind_Ret _ _ _ _ _ (get_dev_ok _ _ _ Hx)).
    repeat (destruct (off =? _); [first [apply total_set_gpr|
      rewrite faults_bind_total by (intros; apply total_set_gpr); by apply (faults_mod_dev w d x)]|]). done.
Qed.

Lemma queue_faults off write :
  faults (virtio_mmio_queue_access (Some vm) d ctx off write w) =
    if write then existsb (Z.eqb off) queue_regs && no_queue x else (off =? 0x44) && no_queue x.
Proof.
  unfold virtio_mmio_queue_access. rewrite (m_bind_Ret _ _ _ _ _ (get_dev_ok _ _ _ Hx)). cbv zeta.
  destruct write; cbn [negb].
  - rewrite (m_bind_Ret _ _ _ _ _ (get_gpr_value _)). cbn [existsb queue_regs].
    destruct (Z.eqb_spec off 0x30) as [->|]; [by apply (faults_mod_dev w d x)|].
    destruct (off =? 0x38); [by apply faults_upd_vq|]. destruct (off =? 0x44); [by apply faults_upd_vq|].
    destruct (off =? 0x80); [by apply faults_upd_vq|]. destruct (off =? 0x84); [by apply faults_set_ring_addr|].
    destruct (off =? 0x90); [by apply faults_upd_vq|]. destruct (off =? 0x94); [by apply faults_set_ring_addr|].
    destruct (off =? 0xa0); [by apply faults_upd_vq|]. by destruct (off =? 0xa4); [apply faults_set_ring_addr|].
  - destruct (Z.eqb_spec off 0x34) as [->|]; [apply total_set_gpr|]. by destruct (off =? 0x44); [apply faults_ready|].
Qed.

Lemma cfg_faults off write :
  faults (virtio_mmio_cfg_access beyond d ctx off write w) =
    negb write && ((0x100 <=? off) && (off <=? 0x1ff) && is_console x).
Proof.
  unfold virtio_mmio_cfg_access. destruct write; cbn [negb andb]; [done|].
  rewrite (m_bind_Ret _ _ _ _ _ (get_dev_ok _ _ _ Hx)).
  destruct (Z.eqb_spec off 0xfc) as [->|]; [apply total_set_gpr|]. unfold is_console.
  destruct (_ && _); [|done]. destruct (desc (dev x)); [apply total_set_gpr..|done].
Qed.

(** C24. Exactly which register accesses stop the hypervisor: apart from the notification of a queue,
    an access panics if and only if it is one of these: a reset, a read of QUEUE_READY or a write to a register of
    a queue while QUEUE_SEL names a queue that the device does not have, or a read of the configuration
    space of a console.  The guest can do each of them, and every other access is harmless. *)
Theorem register_access_panics_iff :
  let off := offset_of x ctx in
  ~ (off = 0x50 /\ VgicDist.write ctx = true) ->
  (exists f, handler core trace cpu_count vm_master ctrl_addr status_addr vms (Some vm) beyond fuel d ctx w = Fault f) <->
  bad_access x off (VgicDist.write ctx) value = true.
Proof.
  intros off Hn. set (o := handler _ _ _ _ _ _ _ _ _ _ _ _ _).
  assert (faults o = bad_access x off (VgicDist.write ctx) value) as <-.
  2: { destruct o as [|f]; cbn [faults]; [split; [by intros []|done]|split; [done|by exists f]]. }
  subst o. unfold handler. rewrite (m_bind_Ret _ _ _ _ _ (get_dev_ok _ _ _ Hx)). cbv zeta. fold (offset_of x ctx). fold off.
  assert (0 <= off) as Hoff by (apply (wrap_range 64); lia).
  destruct (VgicDist.write ctx) eqn:Ew; cbn [negb andb]; rewrite ?andb_true_r, ?andb_false_r; unfold bad_access.
  - rewrite (proj2 (Z.eqb_neq off 0x50)) by tauto.
    destruct (Z.eqb_spec off 0x64) as [->|].
    { rewrite (m_bind_Ret _ _ _ _ _ (get_gpr_value _)). unfold mmio_set_irt_stat, mmio_set_irt_ack.
      rewrite (m_bind_Ret _ _ _ _ _ (mod_dev_ok w d x _ Hx)). rewrite faults_bind_total by (intros; apply total_ret).
      by erewrite (faults_mod_dev _ d) by by eapply zget_put. }
    destruct (((0 <=? off) && (off <=? 0x24)) || (off =? 0x70)) eqn:E1.
    { rewrite faults_bind_total by (intros; apply total_ret). rewrite prologue_faults. cbn [andb].
      assert (existsb (Z.eqb off) queue_regs = false) as ->; [|by rewrite orb_false_r].
      apply not_true_is_false. rewrite existsb_exists. intros (y & Hy & ->%Z.eqb_eq).
      unfold queue_regs in Hy. cbn [In] in Hy. destruct_or! Hy; subst y; by vm_compute in E1. }
    apply orb_false_iff in E1 as [E1 E2]. rewrite E2. cbn [andb orb].
    destruct ((0x30 <=? off) && (off <=? 0xa4)) eqn:E3.
    { rewrite faults_bind_total by (intros; apply total_ret). by rewrite queue_faults. }
    assert (existsb (Z.eqb off) queue_regs = false) as ->.
    { apply not_true_is_false. rewrite existsb_exists. intros (y & Hy & ->%Z.eqb_eq).
      unfold queue_regs in Hy. cbn [In] in Hy. destruct_or! Hy; subst y; by vm_compute in E3. }
    cbn [andb]. destruct ((0xfc <=? off) && (off <=? 0x200)); [|done]. rewrite faults_bind_total by (intros; apply total_ret). by rewrite cfg_faults.
  - destruct (Z.eqb_spec off 0x60) as [->|].
    { rewrite faults_bind_total by (intros; apply total_ret). apply total_set_gpr. }
    destruct (((0 <=? off) && (off <=? 0x24)) || (off =? 0x70)) eqn:E1.
    { rewrite faults_bind_total by (intros; apply total_ret). rewrite prologue_faults. cbn [andb]. symmetry.
      apply orb_true_iff in E1 as [E1|E1]; bool_to_prop.
      - rewrite (proj2 (Z.eqb_neq off 0x44)), (proj2 (Z.leb_gt 0x100 off)) by lia. done.
      - rewrite (proj2 (Z.eqb_neq off 0x44)), (proj2 (Z.leb_gt 0x100 off)) by lia. done. }
    destruct ((0x30 <=? off) && (off <=? 0xa4)) eqn:E3.
    { rewrite faults_bind_total by (intros; apply total_ret). rewrite queue_faults. bool_to_prop.
      rewrite (proj2 (Z.leb_gt 0x100 off)) by lia. by rewrite orb_false_r. }
    assert ((off =? 0x44) = false) as -> by (apply Z.eqb_neq; intros ->; by vm_compute in E3). cbn [andb orb].
    destruct ((0xfc <=? off) && (off <=? 0x200)) eqn:E4.
    { rewrite faults_bind_total by (intros; apply total_ret). by rewrite cfg_faults. }
    symmetry. apply not_true_is_false. intros H. bool_to_prop. apply andb_false_iff in E4 as [E4|E4]; bool_to_prop; lia.
Qed.
End access_panics.

Section regs.
Context (core : Z) (trace : bool) (cpu_count : Z) (vm_master : Z -> option Z).
Context (ctrl_addr status_addr : Z) (vms : list Vm) (active_vm : option Vm) (beyond : DevDesc -> Z -> Z) (fuel : nat).
Abbreviation handler := (handler core trace cpu_count vm_master ctrl_addr status_addr vms active_vm beyond fuel).

(** ** Features *)

Lemma prologue_write_ok w d x ctx off : zget (devs w) d = Some x -> offset_of x ctx = off ->
  VgicDist.write ctx = true -> 0 <= off <= 0x24 ->
  handler d ctx w = (virtio_mmio_prologue_access d ctx off true >>; m_ret true) w.
Proof.
  intros Hx Ho Hw Hr. unfold VirtioMmio.handler. rewrite (m_bind_Ret _ _ _ _ _ (get_dev_ok _ _ _ Hx)). cbv zeta.
  fold (offset_of x ctx). rewrite Ho, Hw. cbn [negb andb].
  rewrite (proj2 (Z.eqb_neq off 80)), (proj2 (Z.eqb_neq off 96)), (proj2 (Z.eqb_neq off 100)) by lia. cbn [andb].
  rewrite (proj2 (Z.leb_le 0 off)), (proj2 (Z.leb_le off 36)) by lia. done.
Qed.

(** The upper half of the features a driver accepts is lost: the driver writes 1 to
    GUEST_FEATURES_SEL and then the upper word to GUEST_FEATURES, and the word is put in the lower
    half, since the setter of the selector assigns another register.  In a well-formed world (which every access
    keeps) the features stay below 2^32: the bit VIRTIO_F_VERSION_1 that every device offers is
    never recorded. *)
Theorem upper_features_lost w d x ctx1 ctx2 :
  world_wf w -> zget (devs w) d = Some x ->
  VgicDist.write ctx1 = true -> VgicDist.write ctx2 = true ->
  offset_of x ctx1 = 0x24 -> offset_of x ctx2 = 0x20 ->
  0 <= VgicDist.reg ctx1 < 31 -> 0 <= VgicDist.reg ctx2 < 31 ->
  let value := u32 (default 0 (gprs w !! VgicDist.reg ctx2)) in
  exists w' x', (let! _ := handler d ctx1 in handler d ctx2) w = Ret true w' /\ zget (devs w') d = Some x' /\
    driver_features x' = Z.lor (driver_features x) value /\ driver_features x' < 2 ^ 32.
Proof.
  intros Hw Hx Hw1 Hw2 Ho1 Ho2 Hr1 Hr2 value.
  assert (dev_wf x) as Hxw by (eapply (zget_Forall dev_wf); [apply Hw|done]).
  set (v1 := u32 (default 0 (gprs w !! VgicDist.reg ctx1))).
  set (x1 := with_regs (set_drv_feature v1 (regs x)) x). set (w1 := put_at w d x1).
  assert (zget (devs w1) d = Some x1) as Hx1 by by eapply zget_put.
  set (x2 := with_regs (set_drv_feature value (regs x1)) x1). set (w2 := put_at w1 d x2).
  assert (zget (devs w2) d = Some x2) as Hx2 by by eapply zget_put.
  set (x3 := with_features (Z.lor (driver_features x2) value) x2).
  exists (put_at w2 d x3), x3. split_and!.
  - rewrite (m_bind_Ret _ _ w true w1).
    + rewrite (prologue_write_ok w1 d x1 ctx2 0x20) by (done || lia).
      unfold virtio_mmio_prologue_access. cbn [negb].
      rewrite (m_bind_Ret _ _ w1 tt (put_at w2 d x3)); [done|].
      rewrite (m_bind_Ret _ _ _ _ _ (get_gpr_ok w1 _ Hr2)). change (gprs w1) with (gprs w). fold value.
      cbn [Z.eqb Pos.eqb]. unfold mmio_set_drv_feature.
      rewrite (m_bind_Ret _ _ _ _ _ (mod_dev_ok w1 d x1 _ Hx1)). fold x2 w2.
      rewrite (m_bind_Ret _ _ _ _ _ (get_dev_ok w2 d x2 Hx2)).
      change (drv_feature_sel (regs x2)) with (drv_feature_sel (regs x)). rewrite (proj2 (wf_regs _ Hxw)).
      cbn [Z.eqb negb]. by apply (mod_dev_ok w2 d x2).
    + rewrite (prologue_write_ok w d x ctx1 0x24) by (done || lia).
      unfold virtio_mmio_prologue_access. cbn [negb].
      rewrite (m_bind_Ret _ _ w tt w1); [done|].
      rewrite (m_bind_Ret _ _ _ _ _ (get_gpr_ok w _ Hr1)). fold v1.
      cbn [Z.eqb Pos.eqb]. by apply (mod_dev_ok w d x).
  - by eapply zget_put.
  - done.
  - apply lor_in_word; [done|apply Hxw|apply u32_word].
Qed.
End regs.

Lemma upper_features_lost_witness :
  exists w' x', (let! _ := handler 0 true 4 (fun _ => None) 0 0 [] None (fun _ _ => 0) 0 0 (mkEmu 0xa000024 4 true 1) in
      handler 0 true 4 (fun _ => None) 0 0 [] None (fun _ _ => 0) 0 0 (mkEmu 0xa000020 4 true 1))
      (with_gprs {[1 := 1]} one_nic) = Ret true w' /\ zget (devs w') 0 = Some x' /\ driver_features x' = 1.
Proof.
  assert (world_wf (with_gprs {[1 := 1]} one_nic)) as H.
  { destruct one_nic_wf as [H1 H2 _]. split; [exact H1|exact H2|]. cbn [gprs with_gprs].
    by apply map_Forall_singleton. }
  destruct (zget (devs (with_gprs {[1 := 1]} one_nic)) 0) as [x|] eqn:Ex; [|by vm_compute in Ex].
  destruct (upper_features_lost 0 true 4 (fun _ => None) 0 0 [] None (fun _ _ => 0) 0 (with_gprs {[1 := 1]} one_nic) 0 x
    (mkEmu 0xa000024 4 true 1) (mkEmu 0xa000020 4 true 1) H Ex) as (w' & x' & E & E' & Ef & _); try done;
    try (vm_compute in Ex; injection Ex as <-; by vm_compute).
  exists w', x'. split; [exact E|]. split; [exact E'|]. rewrite Ef. vm_compute in Ex. injection Ex as <-. by vm_compute.
Defined.

(** Three queues, QUEUE_SEL 7, and 0 written to STATUS. *)
Definition bad_sel_nic : VirtioMmio :=
  with_regs (set_q_sel 7 (regs_init TypeNet))
    (mkMmio 0xa000000 0x1000 [vq_new 0 NotifyNet; vq_new 1 NotifyNet; vq_new 2 NotifyNetCtrl]
      (mkDev TypeNet 48 (net_desc_new [1; 2; 3; 4; 5; 6]) net_features None true 0) demo_vm 0 (regs_init TypeNet)).
Definition bad_sel_world : World := mkWorld ∅ [bad_sel_nic] [] ∅ [].

Lemma register_access_panics_iff_witness :
  exists f, handler 0 true 4 (fun _ => None) 0 0 [] (Some demo_vm) (fun _ _ => 0) 5 0 (mkEmu 0xa000070 4 true 3) bad_sel_world = Fault f.
Proof.
  apply (proj2 (register_access_panics_iff 0 true 4 (fun _ => None) 0 0 [] demo_vm (fun _ _ => 0) 5 bad_sel_world 0 bad_sel_nic
    (mkEmu 0xa000070 4 true 3) eq_refl ltac:(done) ltac:(done) ltac:(by intros [H _]; vm_compute in H))).
  by vm_compute.
Defined.

(** A notification of a queue the device does not have. *)
Lemma notify_bad_index_panics core trace cpu_count vm_master ctrl_addr status_addr vms active beyond fuel w d x ctx :
  zget (devs w) d = Some x -> offset_of x ctx = 0x50 -> VgicDist.write ctx = true ->
  zget (queues x) (gpr_value w (VgicDist.reg ctx)) = None ->
  handler core trace cpu_count vm_master ctrl_addr status_addr vms active beyond fuel d ctx w = Fault OutOfBounds.
Proof.
  intros Hx Ho Hw Hq. unfold handler. rewrite (m_bind_Ret _ _ _ _ _ (get_dev_ok _ _ _ Hx)). cbv zeta.
  fold (offset_of x ctx). rewrite Ho, Hw. cbn [Z.eqb Pos.eqb andb].
  unfold mmio_set_irt_stat. rewrite (m_bind_Ret _ _ _ _ _ (mod_dev_ok w d x _ Hx)).
  rewrite (m_bind_Ret _ _ _ _ _ (get_gpr_value _ _)). unfold m_idx.
  change (gpr_value (put_at w d _)) with (gpr_value w). by rewrite Hq.
Qed.

(** ** The table of MAC addresses *)

(** The keys are in the order of a [BTreeMap]. *)
Definition mac_table (l : list (list Z * Z)) : Prop :=
  StronglySorted (fun p q => mac_ltb p.1 q.1 = true) l /\ Forall (fun p => List.length p.1 = 6%nat) l.

Lemma mac_ltb_irrefl a : mac_ltb a a = false.
Proof. induction a as [|x a IH]; [done|]. cbn [mac_ltb]. by rewrite Z.ltb_irrefl, Z.eqb_refl, IH. Qed.

Lemma mac_ltb_trans a b c : mac_ltb a b = true -> mac_ltb b c = true -> mac_ltb a c = true.
Proof.
  revert b c. induction a as [|x a IH]; intros [|y b] [|z c]; cbn [mac_ltb]; try done.
  rewrite !orb_true_iff, !andb_true_iff, !Z.ltb_lt, !Z.eqb_eq.
  intros [H1|[-> H1]] [H2|[-> H2]]; [left; lia|by left|by left|right; split; [done|by eapply IH]].
Qed.

Lemma mac_ltb_total a b : List.length a = List.length b -> mac_ltb a b = false -> mac_ltb b a = false -> a = b.
Proof.
  revert b. induction a as [|x a IH]; intros [|y b] Hl; cbn [mac_ltb]; try done.
  rewrite !orb_false_iff, !andb_false_iff, !Z.ltb_ge, !Z.eqb_neq. intros [H1 H2] [H3 H4].
  assert (x = y) as -> by lia. f_equal. apply IH; [by injection Hl|by destruct H2|by destruct H4].
Qed.

Lemma mac_table_cons k n l : mac_table ((k, n) :: l) <->
  mac_table l /\ Forall (fun q => mac_ltb k q.1 = true) l /\ List.length k = 6%nat.
Proof.
  unfold mac_table. rewrite list.Forall_cons. cbn [fst]. split.
  - intros [Hs [Hk Hl]]. apply StronglySorted_inv in Hs as [Hs Hf]. done.
  - intros ([Hs Hl] & Hf & Hk). split; [by constructor|done].
Qed.

Lemma mac_to_nic_above mac l : Forall (fun q => mac_ltb mac q.1 = true) l -> mac_to_nic mac l = None.
Proof.
  induction 1 as [|[k n] l Hk Hl IH]; [done|]. cbn [mac_to_nic fst] in *.
  rewrite bool_decide_false; [done|]. intros ->. by rewrite mac_ltb_irrefl in Hk.
Qed.

Lemma set_mac_info_above k mac nic l : mac_ltb k mac = true -> Forall (fun q => mac_ltb k q.1 = true) l ->
  Forall (fun q => mac_ltb k q.1 = true) (set_mac_info mac nic l).
Proof.
  intros Hk. induction 1 as [|[k' n] l Hk' Hl IH]; cbn [set_mac_info]; [by repeat constructor|].
  destruct (mac_ltb mac k'); [by repeat constructor|]. by destruct (mac_ltb k' mac); constructor.
Qed.

Lemma set_mac_info_sorted mac nic l : List.length mac = 6%nat -> mac_table l -> mac_table (set_mac_info mac nic l).
Proof.
  intros Hm. induction l as [|[k n] l IH]; cbn [set_mac_info]; intros Ht.
  - apply mac_table_cons. split_and!; try done. 
  - pose proof Ht as Ht'. apply mac_table_cons in Ht as (Ht & Hf & Hk). destruct (mac_ltb mac k) eqn:E1.
    + apply mac_table_cons. split_and!; [done| |done]. constructor; [done|].
      eapply list.Forall_impl; [exact Hf|]. intros q Hq. by eapply mac_ltb_trans.
    + destruct (mac_ltb k mac) eqn:E2; apply mac_table_cons; split_and!; try done; [by apply IH|].
      by apply set_mac_info_above.
Qed.

Lemma mac_to_nic_set mac nic m l : List.length mac = 6%nat -> mac_table l ->
  mac_to_nic m (set_mac_info mac nic l) = if decide (m = mac) then Some nic else mac_to_nic m l.
Proof.
  intros Hm. induction l as [|[k n] l IH]; cbn [set_mac_info]; intros Ht.
  - cbn [mac_to_nic]. destruct (decide (m = mac)) as [->|Hne]; [by rewrite bool_decide_true|by rewrite bool_decide_false].
  - apply mac_table_cons in Ht as (Ht & Hf & Hk). destruct (mac_ltb mac k) eqn:E1.
    + cbn [mac_to_nic]. destruct (decide (m = mac)) as [->|Hne]; [by rewrite bool_decide_true|by rewrite bool_decide_false].
    + destruct (mac_ltb k mac) eqn:E2; cbn [mac_to_nic].
      * rewrite IH by done. destruct (decide (m = mac)) as [->|Hne]; [|done]. rewrite bool_decide_false; [done|].
        intros ->. by rewrite mac_ltb_irrefl in E2.
      * assert (mac = k) as -> by (apply mac_ltb_total; [congruence|done|done]).
        destruct (decide (m = k)) as [->|Hne]; [by rewrite bool_decide_true|by rewrite bool_decide_false].
Qed.

Lemma mac_to_nic_filter (f : Z -> bool) m l : mac_table l ->
  mac_table (List.filter (fun p => f p.2) l) /\
  mac_to_nic m (List.filter (fun p => f p.2) l) = (n ← mac_to_nic m l; if f n then Some n else None).
Proof.
  induction l as [|[k n] l IH]; [done|]. intros (Ht & Hf & Hk)%mac_table_cons. destruct (IH Ht) as [IH1 IH2].
  cbn [List.filter snd mac_to_nic].
  assert (Forall (fun q => mac_ltb k q.1 = true) (List.filter (fun p => f p.2) l)) as Hf'.
  { apply list.Forall_forall. intros q Hq%list_elem_of_In%filter_In. apply (proj1 (list.Forall_forall _ _) Hf).
    apply list_elem_of_In, Hq. }
  destruct (f n) eqn:En.
  - split; [by apply mac_table_cons|]. cbn [mac_to_nic]. case_bool_decide; [cbn [mbind option_bind]; by rewrite En|done].
  - split; [done|]. case_bool_decide as Hkm; [|done]. subst m. cbn [mbind option_bind]. rewrite En.
    by apply mac_to_nic_above.
Qed.

(** The table of MAC addresses is a finite map: it stays sorted without duplicates, [set_mac_info]
    binds one address and no other (a second device with the same address replaces the first), and
    [remove_virtio_nic] unbinds exactly the addresses of the VM's devices. *)
Theorem mac_table_is_map l mac nic : mac_table l -> List.length mac = 6%nat ->
  mac_table (set_mac_info mac nic l) /\
  (forall m, mac_to_nic m (set_mac_info mac nic l) = if decide (m = mac) then Some nic else mac_to_nic m l) /\
  (forall w vmid, mac2nic w = l -> exists w', remove_virtio_nic vmid w = Ret tt w' /\ devs w' = devs w /\ mac_table (mac2nic w') /\
    forall m, mac_to_nic m (mac2nic w') =
      (n ← mac_to_nic m l; x ← zget (devs w) n; if vm_id (upper_vm x) =? vmid then None else Some n)).
Proof.
  intros Ht Hm. split_and!; [by apply set_mac_info_sorted|intros m; by apply mac_to_nic_set|].
  intros w vmid <-. eexists. split; [reflexivity|]. cbn [devs with_mac mac2nic].
  set (f n := match zget (devs w) n with Some d => negb (vm_id (upper_vm d) =? vmid) | None => false end).
  change (List.filter _ (mac2nic w)) with (List.filter (fun p => f p.2) (mac2nic w)).
  split_and!; [done|by apply (mac_to_nic_filter f [])|]. intros m. rewrite (proj2 (mac_to_nic_filter f m _ Ht)).
  destruct (mac_to_nic m (mac2nic w)) as [n|]; [|done]. cbn [mbind option_bind]. unfold f.
  destruct (zget (devs w) n) as [y|]; [|done]. cbn [mbind option_bind]. by destruct (_ =? _).
Qed.

Lemma mac_table_is_map_witness :
  mac_table (set_mac_info [2; 0; 0; 0; 0; 1] 5 [([1; 0; 0; 0; 0; 9], 3)]) /\
  mac_to_nic [2; 0; 0; 0; 0; 1] (set_mac_info [2; 0; 0; 0; 0; 1] 5 [([1; 0; 0; 0; 0; 9], 3)]) = Some 5.
Proof.
  destruct (mac_table_is_map [([1; 0; 0; 0; 0; 9], 3)] [2; 0; 0; 0; 0; 1] 5) as (H1 & H2 & _); [|done|].
  - split; [constructor; constructor|by repeat constructor].
  - split; [exact H1|]. rewrite H2. by rewrite decide_True.
Defined.

(** ** The configuration space of a disk *)

Definition le_sum (l : list Z) : Z := foldr (fun b r => b + 256 * r) 0 l.

Lemma le_field v j n : 0 <= j ->
  le_sum ((fun k => Z.land (Z.shiftr v (8 * k)) 255) <$> zrange j n) = Z.shiftr v (8 * j) mod 256 ^ Z.of_nat n.
Proof.
  unfold le_sum. intros Hj. revert j Hj. induction n as [|n IH]; intros j Hj; [cbn; by rewrite Z.mod_1_r|].
  cbn [zrange]. rewrite fmap_cons. cbn [foldr]. rewrite IH by lia.
  rewrite Nat2Z.inj_succ, Z.pow_succ_r by lia. rewrite Z.rem_mul_r by lia.
  change 255 with (Z.ones 8). rewrite Z.land_ones by lia. change (2 ^ 8) with 256.
  replace (8 * (j + 1)) with (8 * j + 8) by lia. rewrite <- Z.shiftr_shiftr by lia.
  rewrite (Z.shiftr_div_pow2 _ 8) by lia. done.
Qed.

Lemma fmap_zrange_ext (f g : Z -> Z) j n : (forall k, j <= k < j + Z.of_nat n -> f k = g k) -> f <$> zrange j n = g <$> zrange j n.
Proof.
  intros H. apply list_fmap_ext. intros i k Hk%list_elem_of_lookup_2. apply H. by apply zrange_elem.
Qed.

Section config.
Context (beyond : DevDesc -> Z -> Z) (c : Z) (Hc : in_word 64 c).

Lemma offset_data_eq x o width : width ∈ [1; 2; 4; 8] ->
  offset_data beyond x o width = le_sum (desc_byte beyond x <$> zrange o (Z.to_nat width)).
Proof. intros Hw. unfold offset_data. rewrite !elem_of_cons in Hw. by destruct_or? Hw; subst; [..|by apply elem_of_nil in Hw]. Qed.

Lemma blk_capacity_byte k : 0 <= k < 8 -> desc_byte beyond (BlkDesc c) k = Z.land (Z.shiftr c (8 * k)) 255.
Proof.
  intros Hk. unfold desc_byte, blk_desc_byte. cbv zeta.
  by rewrite (proj2 (Z.leb_le 0 k)), (proj2 (Z.ltb_lt k 8)) by lia.
Qed.

Lemma blk_capacity j n : 0 <= j -> j + Z.of_nat n <= 8 ->
  le_sum (desc_byte beyond (BlkDesc c) <$> zrange j n) = Z.shiftr c (8 * j) mod 256 ^ Z.of_nat n.
Proof.
  intros Hj Hn. rewrite <- le_field by done. f_equal. apply fmap_zrange_ext. intros k Hk. apply blk_capacity_byte. lia.
Qed.

Lemma blk_past_end k : 72 <= k -> desc_byte beyond (BlkDesc c) k = beyond (BlkDesc c) k.
Proof.
  intros Hk. unfold desc_byte, blk_desc_byte. cbv zeta.
  rewrite (proj2 (Z.ltb_ge k 8)), (proj2 (Z.ltb_ge k 12)), (proj2 (Z.ltb_ge k 16)), (proj2 (Z.ltb_ge k 20)), (proj2 (Z.ltb_ge k 68)) by lia.
  by rewrite !andb_false_r.
Qed.

(** Reads of a disk's configuration space: the capacity is read whole with 8 bytes and in two halves with
    4, the limits on segments follow it; but an offset past the descriptor's 72 bytes, up to 0x1ff, is
    not refused: the guest gets the bytes of hypervisor memory that lie there. *)
Theorem blk_config_reads w d x r : zget (devs w) d = Some x -> desc (dev x) = BlkDesc c -> 0 <= r < 31 ->
  let read off width := virtio_mmio_cfg_access beyond d (mkEmu (base x + off) width false r) off false w in
  let returns v := Ret tt (with_gprs (<[r := v]> (gprs w)) w) in
  read 0x100 8 = returns c /\
  read 0x100 4 = returns (c mod 2 ^ 32) /\ read 0x104 4 = returns (c / 2 ^ 32) /\
  read 0x108 4 = returns (128 * 4096) /\ read 0x10c 4 = returns 512 /\
  (forall off width, 0x100 + 72 <= off <= 0x1ff -> width ∈ [1; 2; 4; 8] ->
     read off width = returns (le_sum (beyond (BlkDesc c) <$> zrange (off - 0x100) (Z.to_nat width)))).
Proof.
  intros Hx Hd Hr read returns.
  assert (forall off width, 0x100 <= off <= 0x1ff -> read off width = returns (offset_data beyond (BlkDesc c) (off - 0x100) width)) as H.
  { intros off width Ho. unfold read, virtio_mmio_cfg_access. cbn [negb].
    rewrite (m_bind_Ret _ _ _ _ _ (get_dev_ok _ _ _ Hx)), Hd.
    rewrite (proj2 (Z.eqb_neq off 0xfc)), (proj2 (Z.leb_le 0x100 off)), (proj2 (Z.leb_le off 0x1ff)) by lia.
    cbn [andb VgicDist.reg VgicDist.width]. unfold set_gpr, CONTEXT_GPR_NUM. by rewrite (proj2 (Z.leb_gt 31 r)) by lia. }
  unfold in_word in Hc. split_and!.
  - rewrite H, offset_data_eq by (lia || set_solver). change (Z.to_nat 8) with 8%nat. rewrite blk_capacity by (cbn; lia).
    cbn [Z.sub Z.opp Z.add Z.pos_sub Pos.pred_double Z.mul]. rewrite Z.shiftr_0_r, Z.mod_small by (cbn; lia). done.
  - rewrite H, offset_data_eq by (lia || set_solver). change (Z.to_nat 4) with 4%nat. rewrite blk_capacity by (cbn; lia).
    by change (8 * (0x100 - 0x100)) with 0.
  - rewrite H, offset_data_eq by (lia || set_solver). change (Z.to_nat 4) with 4%nat. rewrite blk_capacity by (cbn; lia).
    change (8 * (0x104 - 0x100)) with 32. rewrite Z.shiftr_div_pow2, Z.mod_small; [done| |lia].
    split; [apply Z.div_pos; lia|apply Z.div_lt_upper_bound; cbn; lia].
  - rewrite H by lia. done.
  - rewrite H by lia. done.
  - intros off width Ho Hw. rewrite H, offset_data_eq by (done || lia).
    rewrite (fmap_zrange_ext _ (beyond (BlkDesc c))); [done|]. intros k Hk. apply blk_past_end. lia.
Qed.
End config.

Lemma blk_config_reads_witness :
  let w := mkWorld ∅ [mkMmio 0xa000000 0x1000 [vq_new 0 NotifyBlk]
    (mkDev TypeBlock 48 (BlkDesc 0x100000002) blk_features None true 0) demo_vm 0 (regs_init TypeBlock)] [] ∅ [] in
  virtio_mmio_cfg_access (fun _ o => o) 0 (mkEmu 0xa000104 4 false 3) 0x104 false w = Ret tt (with_gprs {[3 := 1]} w) /\
  virtio_mmio_cfg_access (fun _ o => o) 0 (mkEmu 0xa000180 1 false 3) 0x180 false w = Ret tt (with_gprs {[3 := 128]} w).
Proof.
  intros w. assert (in_word 64 0x100000002) as Hc by done.
  destruct (blk_config_reads (fun _ o => o) 0x100000002 Hc w 0 _ 3 eq_refl eq_refl ltac:(lia)) as (_ & _ & H1 & _ & _ & H2).
  split; [exact H1|]. apply (H2 0x180 1); [lia|]. left.
Defined.
