(* ===== verification/VirtioSetup.v ===== *)
(** * VirtioSetup: a driver sets up a device through its registers

    The register writes of a driver from the reset to DRIVER_OK, carried out by the register file of [VirtioMmio] one trap after
    the other, whatever the driver before it left in the device. *)
From stdpp Require Import gmap list.
From S2P Require Import Prelude Bits GuestMem Virtq Vm VirtioDev VirtioMmio VirtioChain VirtioInv VirtioRegs.

(** ** The driver *)

(** The parts of a queue as the driver allocated them, at guest addresses. *)
Record Ring := mkRing { r_num : Z; r_desc : Z; r_avail : Z; r_used : Z }.

(** The halves of a 64-bit value that are written to two registers. *)
Definition lo32 (a : Z) : Z := a mod 2 ^ 32.
Definition hi32 (a : Z) : Z := a / 2 ^ 32.

(** The writes (offset and value) that set up queue [i]: QUEUE_SEL, QUEUE_NUM, the three addresses, QUEUE_READY. *)
Definition queue_writes (p : Z * Ring) : list (Z * Z) :=
  let '(i, k) := p in
  [(0x30, i); (0x38, r_num k); (0x80, lo32 (r_desc k)); (0x84, hi32 (r_desc k)); (0x90, lo32 (r_avail k)); (0x94, hi32 (r_avail k));
   (0xa0, lo32 (r_used k)); (0xa4, hi32 (r_used k)); (0x44, 1)].
(** Reset, ACKNOWLEDGE, DRIVER, the features' two words, FEATURES_OK, the queues, DRIVER_OK. *)
Definition driver_writes (features : Z) (rings : list (Z * Ring)) : list (Z * Z) :=
  [(0x70, 0); (0x70, 1); (0x70, 3); (0x24, 1); (0x20, hi32 features); (0x24, 0); (0x20, lo32 features); (0x70, 0xb)] ++
  concat (queue_writes <$> rings) ++ [(0x70, 0xf)].

(** A queue that was reset and set up. *)
Definition set_up (vm : Vm) (k : Ring) (q : Virtq) : Virtq :=
  mkVq (vq_index q) (notify_handler q) 1 (r_num k) (vm_ipa2pa vm (r_desc k)) (vm_ipa2pa vm (r_avail k)) (vm_ipa2pa vm (r_used k))
    0 0 0 (r_desc k) (r_avail k) (r_used k).

(** The guest has memory at the addresses. *)
Definition mapped (vm : Vm) (a : Z) : Prop := in_word 64 a /\ exists pa, vm_ipa2pa vm a = Some pa /\ pa <> 0.
Record ring_ok (vm : Vm) (k : Ring) : Prop := {
  rg_num : in_word 32 (r_num k);
  rg_desc : mapped vm (r_desc k);
  rg_avail : mapped vm (r_avail k);
  rg_used : mapped vm (r_used k);
}.

Section setup.
Context (core : Z) (trace : bool) (cpu_count : Z) (vm_master : Z -> option Z).
Context (ctrl_addr status_addr : Z) (vms : list Vm) (vm : Vm) (beyond : DevDesc -> Z -> Z) (fuel : nat).
(** The device, its page of registers, and the general register that the driver stores from. *)
Context (d page r : Z) (Hr : 0 <= r < 31) (Hpage : 0 <= page < 2 ^ 64 - 0x200).

(** One store of the driver, which traps. *)
Definition store (off v : Z) : M World bool :=
  m_modify (fun w => with_gprs (<[r := v]> (gprs w)) w) >>;
  handler core trace cpu_count vm_master ctrl_addr status_addr vms (Some vm) beyond fuel d (mkEmu (page + off) 4 true r).
(** A sequence of them: whether all were handled. *)
Fixpoint stores (l : list (Z * Z)) : M World bool :=
  match l with
  | [] => m_ret true
  | (off, v) :: l' => let! b := store off v in let! b' := stores l' in m_ret (b && b')
  end.

(** [w'] is [w] with the device changed to [x], and perhaps another value in the driver's register. *)
Definition now (w : World) (x : VirtioMmio) (w' : World) : Prop :=
  base x = page /\ exists g, w' = with_gprs g (put_at w d x) /\ forall j, j <> r -> g !! j = gprs w !! j.

Lemma now_dev w x w' : is_Some (zget (devs w) d) -> now w x w' -> zget (devs w') d = Some x.
Proof. intros [y Hy] (_ & g & -> & _). cbn. eapply zget_zset_eq, zget_Some_bounds, Hy. Qed.

(** A store takes the device from [x] to [y]; a sequence of them. *)
Definition moves (off v : Z) (x y : VirtioMmio) : Prop :=
  forall w w', is_Some (zget (devs w) d) -> now w x w' -> exists w'', store off v w' = Ret true w'' /\ now w y w''.
Inductive script : list (Z * Z) -> VirtioMmio -> VirtioMmio -> Prop :=
  | sc_nil x : script [] x x
  | sc_cons off v l x y z : moves off v x y -> script l y z -> script ((off, v) :: l) x z.

Lemma script_app l k x y z : script l x y -> script k y z -> script (l ++ k) x z.
Proof. induction 1; [done|]. intros. eapply sc_cons; eauto. Qed.

Lemma script_run l x y : script l x y -> forall w w', is_Some (zget (devs w) d) -> now w x w' ->
  exists w'', stores l w' = Ret true w'' /\ now w y w''.
Proof.
  induction 1 as [x|off v l x y z Hm _ IH]; intros w w' Hd Hn; [by exists w'|].
  destruct (Hm w w' Hd Hn) as (w1 & E1 & N1). destruct (IH w w1 Hd N1) as (w2 & E2 & N2).
  exists w2. split; [|done]. cbn [stores]. by rewrite (m_bind_Ret _ _ _ _ _ E1), (m_bind_Ret _ _ _ _ _ E2).
Qed.

(** ** One store *)

Local Abbreviation ctx off := (mkEmu (page + off) 4 true r).

Lemma offset_ok off x : base x = page -> 0 <= off < 0x200 -> offset_of x (ctx off) = off.
Proof. intros Hb Ho. unfold offset_of. cbn. rewrite Hb. replace (page + off - page) with off by lia. apply wrap_small. unfold in_word. lia. Qed.

Lemma moves_intro off v x y : base x = page -> base y = page ->
  (forall w1, zget (devs w1) d = Some x -> gprs w1 !! r = Some v ->
     handler core trace cpu_count vm_master ctrl_addr status_addr vms (Some vm) beyond fuel d (ctx off) w1 = Ret true (put_at w1 d y)) ->
  moves off v x y.
Proof.
  intros Hx Hy H w w' Hd (_ & g & -> & Hg). eexists. split.
  - unfold store. eapply m_bind_Ret_r; [reflexivity|]. apply H; [|apply lookup_insert_eq].
    cbn. destruct Hd as [z Hz]. by eapply zget_zset_eq, zget_Some_bounds.
  - split; [done|]. exists (<[r := v]> g). unfold put_at, with_gprs, with_devs. cbn. rewrite zset_zset. split; [done|].
    intros j Hj. rewrite lookup_insert_ne by done. by apply Hg.
Qed.

(** The registers before the queues'. *)
Lemma prologue_moves off v x y : base x = page -> base y = page -> (0 <= off <= 0x24 \/ off = 0x70) ->
  (forall w1, zget (devs w1) d = Some x -> gprs w1 !! r = Some v ->
     virtio_mmio_prologue_access d (ctx off) off true w1 = Ret tt (put_at w1 d y)) -> moves off v x y.
Proof.
  intros Hx Hy Ho H. apply moves_intro; [done..|]. intros w1 H1 Hv. specialize (H w1 H1 Hv).
  unfold handler. rewrite (m_bind_Ret _ _ _ _ _ (get_dev_ok _ _ _ H1)). cbv zeta.
  change (usize (VgicDist.address (ctx off) - base x)) with (offset_of x (ctx off)). rewrite offset_ok by (done || lia).
  change (VgicDist.write (ctx off)) with true. cbn [negb]. rewrite andb_false_r, !andb_true_r.
  rewrite (proj2 (Z.eqb_neq off 0x50)), (proj2 (Z.eqb_neq off 0x64)) by lia.
  assert ((0 <=? off) && (off <=? 0x24) || (off =? 0x70) = true) as ->
    by (rewrite orb_true_iff, andb_true_iff, !Z.leb_le, Z.eqb_eq; lia).
  by rewrite (m_bind_Ret _ _ _ _ _ H).
Qed.

Lemma queue_moves off v x y : base x = page -> base y = page -> 0x30 <= off <= 0xa4 -> off <> 0x50 -> off <> 0x64 -> off <> 0x70 ->
  (forall w1, zget (devs w1) d = Some x -> gprs w1 !! r = Some v ->
     virtio_mmio_queue_access (Some vm) d (ctx off) off true w1 = Ret tt (put_at w1 d y)) -> moves off v x y.
Proof.
  intros Hx Hy Ho H5 H6 H7 H. apply moves_intro; [done..|]. intros w1 H1 Hv. specialize (H w1 H1 Hv).
  unfold handler. rewrite (m_bind_Ret _ _ _ _ _ (get_dev_ok _ _ _ H1)). cbv zeta.
  change (usize (VgicDist.address (ctx off) - base x)) with (offset_of x (ctx off)). rewrite offset_ok by (done || lia).
  change (VgicDist.write (ctx off)) with true. cbn [negb]. rewrite andb_false_r, !andb_true_r.
  rewrite (proj2 (Z.eqb_neq off 0x50)), (proj2 (Z.eqb_neq off 0x64)), (proj2 (Z.eqb_neq off 0x70)) by done.
  rewrite (proj2 (Z.leb_le 0 off)), (proj2 (Z.leb_gt off 0x24)), (proj2 (Z.leb_le 0x30 off)), (proj2 (Z.leb_le off 0xa4)) by lia.
  cbn [andb orb]. by rewrite (m_bind_Ret _ _ _ _ _ H).
Qed.

Lemma gpr_stored w1 v : gprs w1 !! r = Some v -> get_gpr r w1 = Ret v w1.
Proof. intros E. by rewrite get_gpr_ok, E by done. Qed.

(** ** Status and features *)

(** What a reset leaves. *)
Definition reset_of (x : VirtioMmio) : VirtioMmio :=
  with_dev (set_activated false (dev x)) (with_queues (vq_reset <$> queues x) (with_regs (set_irt_stat 0 (set_dev_stat 0 (regs x))) x)).

Lemma reset_moves x : base x = page -> 0 <= q_sel (regs x) < zlen (queues x) -> moves 0x70 0 x (reset_of x).
Proof.
  intros Hb Hq. apply prologue_moves; [done|done|lia|]. intros w1 H1 Hv. unfold virtio_mmio_prologue_access. cbn [negb].
  rewrite (m_bind_Ret _ _ _ _ _ (gpr_stored w1 0 Hv)). cbn [Z.eqb Pos.eqb]. unfold mmio_set_dev_stat.
  rewrite (m_bind_Ret _ _ _ _ _ (mod_dev_ok w1 d x _ H1)). cbn [u32 wrap Z.modulo]. change (u32 0 =? 0) with true. cbv iota.
  set (x1 := with_regs _ x). assert (zget (devs (put_at w1 d x1)) d = Some x1) as H2 by by eapply zget_put.
  unfold dev_reset. rewrite (m_bind_Ret _ _ _ _ _ (mod_dev_ok _ d x1 _ H2)).
  set (x2 := with_regs _ x1). assert (zget (devs (put_at (put_at w1 d x1) d x2)) d = Some x2) as H3 by by eapply zget_put.
  rewrite (m_bind_Ret _ _ _ _ _ (get_dev_ok _ _ _ H3)). change (queues x2) with (queues x). change (q_sel (regs x2)) with (q_sel (regs x)).
  destruct (zget_in_bounds (queues x) (q_sel (regs x)) Hq) as [q Eq]. unfold m_idx. rewrite Eq. unfold m_opt. rewrite m_bind_ret.
  rewrite (mod_dev_ok _ d x2 _ H3). unfold put_at, with_devs. cbn. by rewrite !zset_zset.
Qed.

Lemma status_moves v x : base x = page -> in_word 32 v -> v <> 0 -> v <> 0xf -> moves 0x70 v x (with_regs (set_dev_stat v (regs x)) x).
Proof.
  intros Hb Hv H0 Hf. apply prologue_moves; [done|done|lia|]. intros w1 H1 Hg. unfold virtio_mmio_prologue_access. cbn [negb].
  rewrite (m_bind_Ret _ _ _ _ _ (gpr_stored w1 v Hg)). cbn [Z.eqb Pos.eqb]. rewrite (wrap_small 32 v) by done. unfold mmio_set_dev_stat.
  rewrite (m_bind_Ret _ _ _ _ _ (mod_dev_ok w1 d x _ H1)).
  by rewrite (proj2 (Z.eqb_neq v 0)), (proj2 (Z.eqb_neq v 0xf)) by done.
Qed.

Lemma ok_moves x : base x = page ->
  moves 0x70 0xf x (with_dev (set_activated true (dev x)) (with_regs (set_dev_stat 0xf (regs x)) x)).
Proof.
  intros Hb. apply prologue_moves; [done|done|lia|]. intros w1 H1 Hg. unfold virtio_mmio_prologue_access. cbn [negb].
  rewrite (m_bind_Ret _ _ _ _ _ (gpr_stored w1 0xf Hg)). cbn [Z.eqb Pos.eqb]. change (u32 0xf) with 0xf. unfold mmio_set_dev_stat.
  rewrite (m_bind_Ret _ _ _ _ _ (mod_dev_ok w1 d x _ H1)). cbn [Z.eqb Pos.eqb].
  set (x1 := with_regs _ x). assert (zget (devs (put_at w1 d x1)) d = Some x1) as H2 by by eapply zget_put.
  rewrite (mod_dev_ok _ d x1 _ H2). unfold put_at, with_devs. cbn. by rewrite zset_zset.
Qed.

Lemma sel_moves v x : base x = page -> in_word 32 v -> moves 0x24 v x (with_regs (set_drv_feature v (regs x)) x).
Proof.
  intros Hb Hv. apply prologue_moves; [done|done|lia|]. intros w1 H1 Hg. unfold virtio_mmio_prologue_access. cbn [negb].
  rewrite (m_bind_Ret _ _ _ _ _ (gpr_stored w1 v Hg)). cbn [Z.eqb Pos.eqb]. rewrite (wrap_small 32 v) by done.
  exact (mod_dev_ok w1 d x _ H1).
Qed.

Lemma features_moves v x : base x = page -> in_word 32 v -> drv_feature_sel (regs x) = 0 ->
  moves 0x20 v x (with_features (Z.lor (driver_features x) v) (with_regs (set_drv_feature v (regs x)) x)).
Proof.
  intros Hb Hv Hs. apply prologue_moves; [done|done|lia|]. intros w1 H1 Hg. unfold virtio_mmio_prologue_access. cbn [negb].
  rewrite (m_bind_Ret _ _ _ _ _ (gpr_stored w1 v Hg)). cbn [Z.eqb Pos.eqb]. rewrite (wrap_small 32 v) by done.
  unfold mmio_set_drv_feature. rewrite (m_bind_Ret _ _ _ _ _ (mod_dev_ok w1 d x _ H1)).
  set (x1 := with_regs _ x). assert (zget (devs (put_at w1 d x1)) d = Some x1) as H2 by by eapply zget_put.
  rewrite (m_bind_Ret _ _ _ _ _ (get_dev_ok _ _ _ H2)). change (drv_feature_sel (regs x1)) with (drv_feature_sel (regs x)). rewrite Hs.
  cbn [Z.eqb negb]. unfold or_driver_feature. rewrite (mod_dev_ok _ d x1 _ H2). unfold put_at, with_devs. cbn. by rewrite zset_zset.
Qed.

(** ** Queues *)

Lemma select_moves i x : base x = page -> in_word 32 i -> moves 0x30 i x (with_regs (set_q_sel i (regs x)) x).
Proof.
  intros Hb Hv. apply queue_moves; [done|done|lia..|]. intros w1 H1 Hg. unfold virtio_mmio_queue_access.
  rewrite (m_bind_Ret _ _ _ _ _ (get_dev_ok _ _ _ H1)). cbv zeta. cbn [negb].
  rewrite (m_bind_Ret _ _ _ _ _ (gpr_stored w1 i Hg)). cbn [Z.eqb Pos.eqb]. rewrite (wrap_small 32 i) by done.
  exact (mod_dev_ok w1 d x _ H1).
Qed.

Section queue.
Context (y : VirtioMmio) (i : Z) (Hb : base y = page) (Hsel : q_sel (regs y) = i) (Hi : 0 <= i < zlen (queues y)).

(** The device with the selected queue changed. *)
Definition sel (q : Virtq) : VirtioMmio := with_queues (zset (queues y) i q) y.

Lemma on_sel_sel {A} (m : M QS A) w1 q a q' : zget (devs w1) d = Some (sel q) -> m (mkQS (wmem w1) q) = Ret a (mkQS (wmem w1) q') ->
  on_sel d i m w1 = Ret a (put_at w1 d (sel q')).
Proof.
  intros H1 E. assert (queue_at w1 d i = Some q) as Hq.
  { unfold queue_at. rewrite H1. cbn. by apply zget_zset_eq. }
  unfold on_sel. rewrite (m_bind_Ret _ _ _ _ _ (has_vq_ok _ _ _ _ Hq)). rewrite (on_vq_Ret _ _ _ _ q _ _ Hq E).
  unfold set_queue. rewrite H1. unfold sel, put_at. cbn. rewrite zset_zset. by destruct w1.
Qed.

Lemma sel_moves_by off v q q' : 0x38 <= off <= 0xa4 -> off <> 0x50 -> off <> 0x64 -> off <> 0x70 ->
  (forall w1, zget (devs w1) d = Some (sel q) -> gprs w1 !! r = Some v ->
     virtio_mmio_queue_access (Some vm) d (ctx off) off true w1 = Ret tt (put_at w1 d (sel q'))) -> moves off v (sel q) (sel q').
Proof. intros. apply queue_moves; [done|done|lia|done..]. Qed.

Local Ltac at_register v H1 Hg := unfold virtio_mmio_queue_access;
  rewrite (m_bind_Ret _ _ _ _ _ (get_dev_ok _ _ _ H1)); cbv zeta; cbn [negb];
  rewrite (m_bind_Ret _ _ _ _ _ (gpr_stored _ v Hg)); cbn [Z.eqb Pos.eqb];
  change (q_sel (regs (sel _))) with (q_sel (regs y)); rewrite Hsel.

Lemma num_moves v q : moves 0x38 v (sel q) (sel (set_num v q)).
Proof. apply sel_moves_by; [lia..|]. intros w1 H1 Hg. at_register v H1 Hg. by eapply on_sel_sel. Qed.
Lemma ready_moves v q : moves 0x44 v (sel q) (sel (set_ready v q)).
Proof. apply sel_moves_by; [lia..|]. intros w1 H1 Hg. at_register v H1 Hg. by eapply on_sel_sel. Qed.

Lemma desc_low_moves v q : moves 0x80 v (sel q) (sel (or_desc_table_addr (Z.land v (Z.ones 32)) q)).
Proof. apply sel_moves_by; [lia..|]. intros w1 H1 Hg. at_register v H1 Hg. by eapply on_sel_sel. Qed.
Lemma avail_low_moves v q : moves 0x90 v (sel q) (sel (or_avail_addr (Z.land v (Z.ones 32)) q)).
Proof. apply sel_moves_by; [lia..|]. intros w1 H1 Hg. at_register v H1 Hg. by eapply on_sel_sel. Qed.
Lemma used_low_moves v q : moves 0xa0 v (sel q) (sel (or_used_addr (Z.land v (Z.ones 32)) q)).
Proof. apply sel_moves_by; [lia..|]. intros w1 H1 Hg. at_register v H1 Hg. by eapply on_sel_sel. Qed.

(** The upper half of an address: the whole is translated. *)
Lemma set_ring_addr_run w1 v q or_addr addr set_ptr pa : zget (devs w1) d = Some (sel q) ->
  vm_ipa2pa vm (addr (or_addr (shlw 64 v 32) q)) = Some pa -> pa <> 0 ->
  set_ring_addr (Some vm) d i v or_addr addr set_ptr w1 = Ret tt (put_at w1 d (sel (set_ptr pa (or_addr (shlw 64 v 32) q)))).
Proof.
  intros H1 Ht Hp. unfold set_ring_addr. set (q1 := or_addr _ q) in *.
  rewrite (m_bind_Ret _ _ w1 (addr q1) (put_at w1 d (sel q1))) by (by eapply on_sel_sel).
  unfold m_opt at 1. rewrite m_bind_ret, Ht. unfold m_opt. rewrite m_bind_ret, (proj2 (Z.eqb_neq pa 0)) by done.
  rewrite (on_sel_sel _ _ q1 tt (set_ptr pa q1)); [|by eapply zget_put|done].
  unfold put_at, with_devs. cbn. by rewrite zset_zset.
Qed.

Lemma desc_high_moves v q pa : vm_ipa2pa vm (desc_table_addr (or_desc_table_addr (shlw 64 v 32) q)) = Some pa -> pa <> 0 ->
  moves 0x84 v (sel q) (sel (set_desc_table pa (or_desc_table_addr (shlw 64 v 32) q))).
Proof. intros. apply sel_moves_by; [lia..|]. intros w1 H1 Hg. at_register v H1 Hg. by apply set_ring_addr_run. Qed.
Lemma avail_high_moves v q pa : vm_ipa2pa vm (avail_addr (or_avail_addr (shlw 64 v 32) q)) = Some pa -> pa <> 0 ->
  moves 0x94 v (sel q) (sel (set_avail pa (or_avail_addr (shlw 64 v 32) q))).
Proof. intros. apply sel_moves_by; [lia..|]. intros w1 H1 Hg. at_register v H1 Hg. by apply set_ring_addr_run. Qed.
Lemma used_high_moves v q pa : vm_ipa2pa vm (used_addr (or_used_addr (shlw 64 v 32) q)) = Some pa -> pa <> 0 ->
  moves 0xa4 v (sel q) (sel (set_used pa (or_used_addr (shlw 64 v 32) q))).
Proof. intros. apply sel_moves_by; [lia..|]. intros w1 H1 Hg. at_register v H1 Hg. by apply set_ring_addr_run. Qed.

(** The halves make the address, when nothing is there before. *)
Lemma addr_halves a : in_word 64 a -> Z.lor (Z.land (lo32 a) (Z.ones 32)) (shlw 64 (hi32 a) 32) = a.
Proof.
  intros Ha. unfold in_word in Ha. assert (0 <= hi32 a < 2 ^ 32) as Hh by (unfold hi32; zdiv).
  unfold shlw. change (32 mod 64) with 32. rewrite Z.shiftl_mul_pow2, wrap_small by (unfold in_word; lia).
  unfold lo32. rewrite Z.land_ones, Z.mod_mod, Z.lor_comm, lor_low by (lia || (apply Z.mod_pos_bound; lia)).
  unfold hi32. rewrite Z.mul_comm. symmetry. apply Z.div_mod. lia.
Qed.

(** The writes of one queue after QUEUE_SEL, on a queue that was reset. *)
Lemma queue_script k q : ring_ok vm k -> script (tail (queue_writes (i, k))) (sel (vq_reset q)) (sel (set_up vm k q)).
Proof.
  intros [Hn [Hd (pd & Ed & Pd)] [Ha (pa & Ea & Pa)] [Hu (pu & Eu & Pu)]]. cbn [queue_writes tail].
  eapply sc_cons; [apply num_moves|]. eapply sc_cons; [apply desc_low_moves|].
  eapply sc_cons; [apply (desc_high_moves _ _ pd); [rewrite <- Ed; f_equal; exact (addr_halves _ Hd)|done]|]. eapply sc_cons; [apply avail_low_moves|].
  eapply sc_cons; [apply (avail_high_moves _ _ pa); [rewrite <- Ea; f_equal; exact (addr_halves _ Ha)|done]|]. eapply sc_cons; [apply used_low_moves|].
  eapply sc_cons; [apply (used_high_moves _ _ pu); [rewrite <- Eu; f_equal; exact (addr_halves _ Hu)|done]|]. eapply sc_cons; [apply ready_moves|].
  match goal with |- script [] ?x ?z => replace z with x; [apply sc_nil|] end. unfold sel. f_equal. f_equal.
  unfold set_up. rewrite Ed, Ea, Eu.
  cbv [set_ready set_used or_used_addr set_avail or_avail_addr set_desc_table or_desc_table_addr set_num vq_reset
       vq_index notify_handler ready num desc_table avail used last_avail_idx last_used_idx used_flags desc_table_addr avail_addr used_addr].
  f_equal; by apply addr_halves.
Qed.
End queue.

(** [z] is [y] with other queues and another selection. *)
Definition queues_only (y z : VirtioMmio) : Prop := exists i, z = with_queues (queues z) (with_regs (set_q_sel i (regs y)) y).

Lemma rings_script rings : forall y, base y = page -> NoDup rings.*1 ->
  (forall i k, (i, k) ∈ rings -> ring_ok vm k /\ in_word 32 i /\ exists q, zget (queues y) i = Some (vq_reset q)) ->
  exists z, script (concat (queue_writes <$> rings)) y z /\ queues_only y z /\
    (forall i k q, (i, k) ∈ rings -> zget (queues y) i = Some q -> zget (queues z) i = Some (set_up vm k q)) /\
    (forall i, i ∉ rings.*1 -> zget (queues z) i = zget (queues y) i).
Proof.
  induction rings as [|[i k] rings IH]; intros y Hb Hn Hks.
  { exists y. split; [constructor|]. split; [exists (q_sel (regs y)); destruct y as [? ? ? ? ? ? []]; done|].
    split; [|done]. intros i k q Hi. by apply elem_of_nil in Hi. }
  rewrite fmap_cons in Hn. apply list.NoDup_cons in Hn as [Hi Hn].
  destruct (Hks i k) as (Hk & Hw & q & Hq); [by left|]. pose proof (zget_Some_bounds _ _ _ Hq) as Hbd.
  set (y1 := with_regs (set_q_sel i (regs y)) y). set (y2 := with_queues (zset (queues y) i (set_up vm k q)) y1).
  assert (script (queue_writes (i, k)) y y2) as S1.
  { eapply sc_cons; [by apply select_moves|]. pose proof (queue_script y1 i Hb eq_refl Hbd k q Hk) as Hs.
    replace (sel y1 i (vq_reset q)) with y1 in Hs; [exact Hs|]. unfold sel. change (queues y1) with (queues y).
    rewrite zset_same by done. reflexivity. }
  destruct (IH y2) as (z & S2 & (j0 & Ez) & Hz1 & Hz2); [done|done| |].
  { intros j k' Hj. destruct (Hks j k') as (? & ? & q' & Hq'); [by right|]. split; [done|]. split; [done|]. exists q'.
    change (queues y2) with (zset (queues y) i (set_up vm k q)). rewrite zget_zset_ne; [done|]. intros ->.
    apply Hi. by apply (list_elem_of_fmap_2 fst _ (j, k')). }
  exists z. split; [by eapply script_app|]. split; [by exists j0|]. split.
  - intros j k' q' Hj Hq'. apply elem_of_cons in Hj as [[= -> ->]|Hj].
    + rewrite (Hz2 i Hi). change (queues y2) with (zset (queues y) i (set_up vm k q)). rewrite zget_zset_eq by done.
      rewrite Hq in Hq'. by injection Hq' as <-.
    + apply (Hz1 j k' q' Hj). change (queues y2) with (zset (queues y) i (set_up vm k q)). rewrite zget_zset_ne; [done|]. intros ->.
      apply Hi. by apply (list_elem_of_fmap_2 fst _ (j, k')).
  - intros j Hj. rewrite fmap_cons, elem_of_cons in Hj. rewrite Hz2 by tauto.
    change (queues y2) with (zset (queues y) i (set_up vm k q)). apply zget_zset_ne. intros <-. apply Hj. by left.
Qed.

(** C15. A driver sets up a device.  The device may be in any state in which QUEUE_SEL is at one of its queues (a reset panics
    otherwise) and drv_feature_sel is 0 (it starts so, and no operation writes it).  A driver makes its 32-bit stores from one general register,
    in this order: a reset, ACKNOWLEDGE, DRIVER, the two words of the features, FEATURES_OK, for each of some distinct queues of the device
    the number of entries (32 bits), the three addresses and QUEUE_READY, and DRIVER_OK; the addresses are such that the guest has
    memory there, not at physical address 0.  Then every store is handled, without a panic, and changes nothing but
    the device and the driver's register.  The device is activated, its status is 0xf, no interrupt
    is pending; each queue that was set up has its size, is ready, has taken nothing, and has its three parts where the guest's addresses
    are translated, whatever the driver before had put there; the other queues are as after a reset.  Both words of the features are recorded
    in the same word, together with those of the driver before. *)
Theorem driver_sets_up_device w x features rings : zget (devs w) d = Some x -> base x = page -> drv_feature_sel (regs x) = 0 ->
  0 <= q_sel (regs x) < zlen (queues x) -> in_word 64 features -> NoDup rings.*1 ->
  (forall i k, (i, k) ∈ rings -> ring_ok vm k /\ in_word 32 i /\ i < zlen (queues x)) ->
  exists w' x', stores (driver_writes features rings) w = Ret true w' /\
    devs w' = zset (devs w) d x' /\ wmem w' = wmem w /\ mac2nic w' = mac2nic w /\ wlog w' = wlog w /\
    dev_stat (regs x') = 0xf /\ irt_stat (regs x') = 0 /\ activated (dev x') = true /\
    driver_features x' = Z.lor (Z.lor (driver_features x) (hi32 features)) (lo32 features) /\
    (forall i k q, (i, k) ∈ rings -> zget (queues x) i = Some q -> zget (queues x') i = Some (set_up vm k q)) /\
    (forall i q, i ∉ rings.*1 -> zget (queues x) i = Some q -> zget (queues x') i = Some (vq_reset q)).
Proof.
  intros Hx Hb Hsel0 Hq Hfe Hn Hks. unfold in_word in Hfe.
  assert (in_word 32 (hi32 features) /\ in_word 32 (lo32 features)) as [Hh Hl] by (unfold in_word, hi32, lo32; zdiv).
  set (y1 := with_features (Z.lor (Z.lor (driver_features x) (hi32 features)) (lo32 features)) (with_regs
    (set_dev_stat 0xb (set_drv_feature (lo32 features) (regs (reset_of x)))) (reset_of x))).
  assert (script [(0x70, 0); (0x70, 1); (0x70, 3); (0x24, 1); (0x20, hi32 features); (0x24, 0); (0x20, lo32 features); (0x70, 0xb)] x y1)
    as S1.
  { eapply sc_cons; [by apply reset_moves|]. eapply sc_cons; [by apply status_moves|]. eapply sc_cons; [by apply status_moves|].
    eapply sc_cons; [by apply sel_moves|]. eapply sc_cons; [by apply features_moves|]. eapply sc_cons; [by apply sel_moves|].
    eapply sc_cons; [by apply features_moves|]. eapply sc_cons; [by apply status_moves|]. apply sc_nil. }
  assert (forall i q, zget (queues x) i = Some q -> zget (queues y1) i = Some (vq_reset q)) as Hy.
  { intros i q Hi. change (queues y1) with (vq_reset <$> queues x). unfold zget in *. destruct (0 <=? i); [|done].
    by rewrite list_lookup_fmap, Hi. }
  destruct (rings_script rings y1) as (z & S2 & (j & Ez) & Hz1 & Hz2); [done|done| |].
  { intros i k Hi. destruct (Hks i k Hi) as (? & Hw & Hlt). split; [done|]. split; [done|]. unfold in_word in Hw.
    destruct (zget_in_bounds (queues x) i) as [q Eq]; [lia|]. exists q. by apply Hy. }
  set (x' := with_dev (set_activated true (dev z)) (with_regs (set_dev_stat 0xf (regs z)) z)).
  assert (script (driver_writes features rings) x x') as S.
  { unfold driver_writes. eapply script_app; [exact S1|]. eapply script_app; [exact S2|].
    eapply sc_cons; [apply ok_moves; by rewrite Ez|apply sc_nil]. }
  destruct (script_run _ _ _ S w w) as (w' & E & _ & g & Ew & Hg); [by eexists|split; [done|]|].
  { exists (gprs w). split; [|done]. unfold put_at. rewrite zset_same by done. by destruct w. }
  exists w', x'. split; [exact E|]. subst w'. split_and!; try done; try (by subst x'; rewrite Ez).
  - intros i k q Hi Hq'. apply (Hz1 i k (vq_reset q) Hi). by apply Hy.
  - intros i q Hi Hq'. change (queues x') with (queues z). rewrite (Hz2 i Hi). by apply Hy.
Qed.
End setup.

(** ** Witness *)

(** A network device that a driver has used before, and memory at 0x40000000. *)
Definition setup_vm : Vm := mkVm 1 (cpu_cfg demo_vm) [] [] (int_bitmap demo_vm) 1 [mkVmPa 0x50000000 0x100000 (0x40000000 - 0x50000000)].
Definition setup_ring : Ring := mkRing 256 0x40001000 0x40002000 0x40003000.

Lemma setup_ring_ok : ring_ok setup_vm setup_ring.
Proof. split; [by vm_compute|..]; (split; [by vm_compute|]; eexists; split; [by vm_compute|done]). Qed.

Lemma driver_sets_up_device_witness : exists w' q,
  stores 0 true 4 (fun _ => None) 0 0 [] setup_vm (fun _ _ => 0) 5 0 0xa000000 3 (driver_writes 0x100000020 [(1, setup_ring)]) one_nic =
    Ret true w' /\ queue_at w' 0 1 = Some q /\ ready q = 1 /\ desc_table q = Some 0x50001000.
Proof.
  destruct (zget (devs one_nic) 0) as [x|] eqn:Ex; [|discriminate Ex].
  assert (base x = 0xa000000 /\ drv_feature_sel (regs x) = 0 /\ q_sel (regs x) = 0 /\ zlen (queues x) = 3) as (Hb & Hf & Hs & Hz)
    by (vm_compute in Ex; injection Ex as <-; vm_compute; done).
  destruct (zget_in_bounds (queues x) 1) as [q Hq]; [rewrite Hz; lia|].
  destruct (driver_sets_up_device 0 true 4 (fun _ => None) 0 0 [] setup_vm (fun _ _ => 0) 5 0 0xa000000 3 ltac:(lia) ltac:(lia)
    one_nic x 0x100000020 [(1, setup_ring)] Ex Hb Hf) as (w' & x' & E & Ed & _ & _ & _ & _ & _ & _ & _ & H & _).
  - rewrite Hs, Hz. lia.
  - unfold in_word. lia.
  - repeat constructor. apply not_elem_of_nil.
  - intros i k [= -> ->]%list_elem_of_singleton. split; [apply setup_ring_ok|]. rewrite Hz. unfold in_word. lia.
  - exists w', (set_up setup_vm setup_ring q). split; [exact E|]. split; [|split; [reflexivity|vm_compute; reflexivity]].
    unfold queue_at. rewrite Ed, (zget_zset_eq _ _ _ (zget_Some_bounds _ _ _ Ex)). exact (H 1 setup_ring q (list_elem_of_here _ _) Hq).
Defined.
