(* ===== verification/VPlic.v ===== *)
(** * VPlic: the emulated PLIC of RISC-V guests ([arch/riscv64/vplic.rs])

    A guest's external interrupts: counters of pending interrupts, enable bits and thresholds per
    context, the register file through which the guest sets them and claims an interrupt, and
    the injection by the hypervisor.  Arrays of fixed size start out as zeros and are finite maps (absent is
    0), an array of booleans is the set of its true places; an index that the code does not
    check is checked here and panics.  Requests to the physical PLIC are logged. *)
From stdpp Require Import gmap list.
From S2P Require Import Prelude Bits Bitmap Vm.
From S2P Require VgicDist.

(** src: arch/riscv64/plic.rs 9-12 [PLICMode] *)
Inductive PLICMode := Machine | Supervisor.
#[export] Instance PLICMode_eq_dec : EqDecision PLICMode.
Proof. solve_decision. Defined.

(** src: arch/riscv64/plic.rs 14-27 [PLIC_MAX_IRQ and the register ranges] *)
Definition PLIC_MAX_IRQ : Z := 511.
Definition MAX_HARTS : Z := 8.

(** src: arch/riscv64/interrupt.rs 25-27 [IRQ_IPI, IRQ_GUEST_TIMER] *)
Definition IRQ_IPI : Z := 60.
Definition IRQ_GUEST_TIMER : Z := 62.

(** src: arch/riscv64/vplic.rs 25-35 [VPlicInner]
    Without [m_claim] and [s_claim], which nothing uses. *)
Record VPlicInner := mkVP {
  emulated_base_addr : Z;
  priority : gmap Z Z;
  pending_cnt : gmap Z Z;
  m_enables : gset (Z * Z);
  s_enables : gset (Z * Z);
  m_thresholds : gmap Z Z;
  s_thresholds : gmap Z Z;
}.

Inductive pevent :=
  | PhysSetPriority (irq prio : Z)
  | PhysSetEnable (irq : Z) (mode : PLICMode) (hart : Z)
  | PhysClearEnable (irq : Z) (mode : PLICMode) (hart : Z).

(** The device, the interrupt lines of the vCPU that runs ([hvip]), whether the timer interrupt is
    enabled, its registers. *)
Record PS := mkPS {
  vplic : VPlicInner;
  hvip_external : bool; hvip_timer : bool; hvip_software : bool; stimer : bool;
  pgpr : gmap Z Z;
  plog : list pevent;
}.

Definition with_vplic v s := mkPS v (hvip_external s) (hvip_timer s) (hvip_software s) (stimer s) (pgpr s) (plog s).
Definition with_external b s := mkPS (vplic s) b (hvip_timer s) (hvip_software s) (stimer s) (pgpr s) (plog s).
Definition with_timer_line b s := mkPS (vplic s) (hvip_external s) b (hvip_software s) (stimer s) (pgpr s) (plog s).
Definition with_software b s := mkPS (vplic s) (hvip_external s) (hvip_timer s) b (stimer s) (pgpr s) (plog s).
Definition with_stimer b s := mkPS (vplic s) (hvip_external s) (hvip_timer s) (hvip_software s) b (pgpr s) (plog s).
Definition with_pgpr g s := mkPS (vplic s) (hvip_external s) (hvip_timer s) (hvip_software s) (stimer s) g (plog s).
Definition pemit e : M PS unit := m_modify (fun s => mkPS (vplic s) (hvip_external s) (hvip_timer s) (hvip_software s) (stimer s) (pgpr s) (plog s ++ [e])).
Definition upd_vplic (f : VPlicInner -> VPlicInner) : M PS unit := m_modify (fun s => with_vplic (f (vplic s)) s).

Definition with_priority x v := mkVP (emulated_base_addr v) x (pending_cnt v) (m_enables v) (s_enables v) (m_thresholds v) (s_thresholds v).
Definition with_pending x v := mkVP (emulated_base_addr v) (priority v) x (m_enables v) (s_enables v) (m_thresholds v) (s_thresholds v).
Definition with_enables (mode : PLICMode) x v :=
  match mode with
  | Machine => mkVP (emulated_base_addr v) (priority v) (pending_cnt v) x (s_enables v) (m_thresholds v) (s_thresholds v)
  | Supervisor => mkVP (emulated_base_addr v) (priority v) (pending_cnt v) (m_enables v) x (m_thresholds v) (s_thresholds v)
  end.
Definition with_thresholds (mode : PLICMode) x v :=
  match mode with
  | Machine => mkVP (emulated_base_addr v) (priority v) (pending_cnt v) (m_enables v) (s_enables v) x (s_thresholds v)
  | Supervisor => mkVP (emulated_base_addr v) (priority v) (pending_cnt v) (m_enables v) (s_enables v) (m_thresholds v) x
  end.
Definition enables (mode : PLICMode) v := match mode with Machine => m_enables v | Supervisor => s_enables v end.
Definition thresholds (mode : PLICMode) v := match mode with Machine => m_thresholds v | Supervisor => s_thresholds v end.

(** src: arch/riscv64/vplic.rs 38-53 [VPlic::new] *)
Definition vplic_new (base : Z) : VPlicInner := mkVP base ∅ ∅ ∅ ∅ ∅ ∅.

(** An interrupt that has a source; a context that exists. *)
Definition irq_ok (irq : Z) : bool := (irq <=? PLIC_MAX_IRQ) && (0 <? irq).
Definition ctx_ok (mode : PLICMode) (hart : Z) : bool :=
  negb (MAX_HARTS <=? hart) && negb (bool_decide (mode = Supervisor) && (hart =? 0)).

(** ** Reading the state *)

(** src: arch/riscv64/vplic.rs 82-89 [VPlic::get_priority] *)
Definition get_priority (irq : Z) (v : VPlicInner) : Z := if irq_ok irq then default 0 (priority v !! irq) else 0.
(** src: arch/riscv64/vplic.rs 108-115 [VPlic::get_pending] *)
Definition get_pending (irq : Z) (v : VPlicInner) : bool := if irq_ok irq then 0 <? default 0 (pending_cnt v !! irq) else false.
(** src: arch/riscv64/vplic.rs 118-131 [VPlic::get_enable] *)
Definition get_enable (irq : Z) (mode : PLICMode) (hart : Z) (v : VPlicInner) : bool :=
  if negb (irq_ok irq) || negb (ctx_ok mode hart) then false else bool_decide ((hart, irq) ∈ enables mode v).
(** src: arch/riscv64/vplic.rs 184-193 [VPlic::get_threshold] *)
Definition get_threshold (mode : PLICMode) (hart : Z) (v : VPlicInner) : Z :=
  if ctx_ok mode hart then default 0 (thresholds mode v !! hart) else 0.

(** An interrupt that context may take. *)
Definition takes (mode : PLICMode) (hart : Z) (v : VPlicInner) (i : Z) : bool :=
  get_pending i v && get_enable i mode hart v && (get_threshold mode hart v <=? get_priority i v).

(** src: arch/riscv64/vplic.rs 62-77 [VPlic::get_pending_irq] *)
Definition get_pending_irq (mode : PLICMode) (hart : Z) (v : VPlicInner) : Z :=
  default 0 (List.find (takes mode hart v) (zrange 1 (Z.to_nat PLIC_MAX_IRQ))).

(** ** The physical PLIC's registers *)

(** src: arch/riscv64/plic.rs 72-120 [PLIC::get_enable_array_addr]
    Not on the board u740. *)
Definition get_enable_array_addr (base irq : Z) (mode : PLICMode) (hart : Z) : option Z :=
  if negb (irq_ok irq) then None
  else Some (match mode with
             | Machine => base + 0x2000 + 0x80 + 0x100 * hart + 4 * (irq / 32)
             | Supervisor => base + 0x2000 + 0x100 + 0x100 * hart + 4 * (irq / 32)
             end).

(** src: arch/riscv64/plic.rs 123-167 [PLIC::get_prio_claim_baseaddr]
    Not on the board u740. *)
Definition get_prio_claim_baseaddr (base : Z) (mode : PLICMode) (hart : Z) : option Z :=
  Some (match mode with
        | Machine => base + 0x200000 + 0x1000 + 0x2000 * hart
        | Supervisor => base + 0x200000 + 0x2000 + 0x2000 * hart
        end).

Section vplic.
(** The active VM and the number of its vCPU that runs. *)
Context (vm : Vm) (vcpu_num : Z).

(** ** Changing the state *)

(** [vm.has_interrupt(irq)]: a bitmap of 4096. *)
Definition p_has_interrupt (irq : Z) : M PS bool := m_opt OutOfBounds (has_interrupt vm irq).

(** src: arch/riscv64/vplic.rs 92-105 [VPlic::set_priority] *)
Definition set_priority (irq prio : Z) : M PS unit :=
  if negb (irq_ok irq) then m_ret tt
  else
    let! h := p_has_interrupt irq in
    (if h : bool then pemit (PhysSetPriority irq 1) else m_ret tt) >>;
    upd_vplic (fun v => with_priority (<[irq := u32 prio]> (priority v)) v).

(** The physical core of a hart, when the VM has it. *)
Definition forward (irq hart : Z) (e : Z -> pevent) : M PS unit :=
  match vcpu vm hart with
  | Some c => let! h := p_has_interrupt irq in if h : bool then pemit (e (phys_id c)) else m_ret tt
  | None => m_ret tt
  end.

(** src: arch/riscv64/vplic.rs 134-157 [VPlic::set_enable] *)
Definition set_enable (irq : Z) (mode : PLICMode) (hart : Z) : M PS unit :=
  if negb (irq_ok irq) || negb (ctx_ok mode hart) then m_ret tt
  else
    upd_vplic (fun v => with_enables mode ({[(hart, irq)]} ∪ enables mode v) v) >>;
    forward irq hart (PhysSetEnable irq mode).

(** src: arch/riscv64/vplic.rs 160-181 [VPlic::clear_enable] *)
Definition clear_enable (irq : Z) (mode : PLICMode) (hart : Z) : M PS unit :=
  if negb (irq_ok irq) || negb (ctx_ok mode hart) then m_ret tt
  else
    upd_vplic (fun v => with_enables mode (enables mode v ∖ {[(hart, irq)]}) v) >>;
    forward irq hart (PhysClearEnable irq mode).

(** src: arch/riscv64/vplic.rs 196-206 [VPlic::set_threshold] *)
Definition set_threshold (mode : PLICMode) (hart threshold : Z) : M PS unit :=
  if ctx_ok mode hart then upd_vplic (fun v => with_thresholds mode (<[hart := u32 threshold]> (thresholds mode v)) v)
  else m_ret tt.

(** src: arch/riscv64/vplic.rs 208-222 [VPlic::get_claim] *)
Definition get_claim (mode : PLICMode) (hart : Z) : M PS Z :=
  let! irq := m_gets (fun s => get_pending_irq mode hart (vplic s)) in
  (if negb (irq =? 0) then upd_vplic (fun v => with_pending (<[irq := usize (default 0 (pending_cnt v !! irq) - 1)]> (pending_cnt v)) v)
   else m_ret tt) >>;
  m_modify (with_external false) >>; m_ret irq.

(** src: arch/riscv64/vplic.rs 225-227 [VPlic::set_complete] *)
Definition set_complete (mode : PLICMode) (hart irq : Z) : M PS unit := m_ret tt.

(** ** The register file *)

(** A word whose bit [i] is [f i]. *)
Definition word_of (f : Z -> bool) : Z := foldr (fun i r => if f i : bool then Z.lor (Z.shiftl 1 i) r else r) 0 (zrange 0 32).

(** src: arch/riscv64/vplic.rs 238-247 [VPlic::get_pending_reg] *)
Definition get_pending_reg (index : Z) : M PS Z :=
  if PLIC_MAX_IRQ <? index * 32 + 31 then m_fault OutOfBounds
  else m_gets (fun s => word_of (fun i => 0 <? default 0 (pending_cnt (vplic s) !! (index * 32 + i)))).

(** src: arch/riscv64/vplic.rs 249-257 [VPlic::get_enable_reg] *)
Definition get_enable_reg (index : Z) (mode : PLICMode) (hart : Z) (v : VPlicInner) : Z :=
  word_of (fun i => get_enable (index * 32 + i) mode hart v).

(** src: arch/riscv64/vplic.rs 259-273 [VPlic::edit_enable_reg] *)
Definition edit_enable_reg (index : Z) (mode : PLICMode) (hart val : Z) : M PS unit :=
  m_for (zrange 0 32) (fun i =>
    if testm val (Z.shiftl 1 i) then set_enable (index * 32 + i) mode hart
    else clear_enable (index * 32 + i) mode hart).

(** src: arch/riscv64/vplic.rs 302-310 [VPlic::vm_read_register]
    The context an enable register belongs to (not on the board u740). *)
Definition enable_ctx (offset : Z) : PLICMode * Z :=
  (if testm offset 0x80 then Machine else Supervisor, usize ((offset - 0x1f80) / 0x100 - 1)).

(** src: arch/riscv64/vplic.rs 331-339 [VPlic::vm_read_register]
    The context a threshold or claim register belongs to (not on the board u740). *)
Definition claim_ctx (offset : Z) : PLICMode * Z :=
  (if testm offset 0x2000 then Supervisor else Machine, (offset - 0x200000) / 0x2000).

(** src: arch/riscv64/vplic.rs 278-354 [VPlic::vm_read_register] *)
Definition vm_read_register (addr : Z) : M PS Z :=
  let! s := m_get in
  let offset := Z.land (usize (addr - emulated_base_addr (vplic s))) (notw 64 3) in
  if offset <=? 0xfff then m_ret (u32 (get_priority (offset / 4) (vplic s)))
  else if offset <=? 0x1fff then get_pending_reg ((offset - 0x1000) / 4)
  else if offset <=? 0x1fffff then
    let index := Z.land offset 0x7f / 4 in
    let '(mode, hart) := enable_ctx offset in
    m_ret (get_enable_reg index mode hart (vplic s))
  else if offset <=? 0x3fffff then
    let reg := Z.land offset 0xfff in
    let '(mode, hart) := claim_ctx offset in
    if reg =? 0 then m_ret (u32 (get_threshold mode hart (vplic s)))
    else if reg =? 4 then let! irq := get_claim mode hart in m_ret (u32 irq)
    else m_ret 0
  else m_fault ExplicitPanic.

(** src: arch/riscv64/vplic.rs 356-430 [VPlic::vm_write_register] *)
Definition vm_write_register (addr val : Z) : M PS unit :=
  let! s := m_get in
  let offset := Z.land (usize (addr - emulated_base_addr (vplic s))) (notw 64 3) in
  if offset <=? 0xfff then set_priority (offset / 4) val
  else if (0x2000 <=? offset) && (offset <=? 0x1fffff) then
    let index := Z.land offset 0x7f / 4 in
    let '(mode, hart) := enable_ctx offset in edit_enable_reg index mode hart val
  else if (0x200000 <=? offset) && (offset <=? 0x3fffff) then
    let reg := Z.land offset 0xfff in
    let '(mode, hart) := claim_ctx offset in
    if reg =? 0 then set_threshold mode hart val
    else if reg =? 4 then set_complete mode hart val
    else m_ret tt
  else m_fault ExplicitPanic.

(** ** Injection *)

(** src: arch/riscv64/vplic.rs 445-459 [VPlic::inject_external_intr] *)
Definition inject_external_intr (irq : Z) : M PS unit :=
  if (irq <? 0) || (PLIC_MAX_IRQ <? irq) then m_fault OutOfBounds
  else
    upd_vplic (fun v => with_pending (<[irq := usize (default 0 (pending_cnt v !! irq) + 1)]> (pending_cnt v)) v) >>;
    let! fetched := m_gets (fun s => get_pending_irq Machine vcpu_num (vplic s)) in
    if negb (fetched =? 0) then m_modify (with_external true) else m_ret tt.

(** src: arch/riscv64/vplic.rs 432-442 [VPlic::inject_intr] *)
Definition inject_intr (irq : Z) : M PS unit :=
  if irq =? IRQ_GUEST_TIMER then m_modify (with_timer_line true) >>; m_modify (with_stimer false)
  else if irq =? IRQ_IPI then m_modify (with_software true)
  else inject_external_intr irq.

(** src: arch/riscv64/vplic.rs 486-507 [VPlic::handler] *)
Definition vplic_handler (ctx : VgicDist.EmuContext) : M PS bool :=
  if negb (VgicDist.width ctx =? 4) then m_fault ExplicitPanic
  else
    let r := VgicDist.reg ctx in
    (if VgicDist.write ctx then
       let! s := m_get in
       vm_write_register (VgicDist.address ctx) (u32 (if 32 <=? r then 0 else default 0 (pgpr s !! r)))
     else
       let! val := vm_read_register (VgicDist.address ctx) in
       if 32 <=? r then m_ret tt else m_modify (fun s => with_pgpr (<[r := val]> (pgpr s)) s)) >>;
    m_ret true.
End vplic.
