(* ===== verification/VPlicSpec.v ===== *)
(** * VPlicSpec: theorems about the emulated PLIC *)
From stdpp Require Import gmap list.
From S2P Require Import Prelude Bits Bitmap Vm VPlic.
From S2P Require VgicDist.

(** ** The interrupt that is claimed *)

Lemma irq_ok_range i : irq_ok i = true <-> 1 <= i <= 511.
Proof. unfold irq_ok, PLIC_MAX_IRQ. rewrite andb_true_iff, Z.leb_le, Z.ltb_lt. lia. Qed.

Lemma takes_ok mode hart v i : takes mode hart v i = true -> 1 <= i <= 511.
Proof.
  unfold takes, get_pending. intros H. apply irq_ok_range. destruct (irq_ok i); [done|by rewrite andb_false_l in H].
Qed.

Lemma zrange_get lo n k x : zrange lo n !! k = Some x -> x = lo + Z.of_nat k /\ (k < n)%nat.
Proof.
  revert lo k. induction n as [|n IH]; intros lo [|k] H; cbn [zrange] in H; try done.
  - injection H as <-. lia.
  - apply (IH (lo + 1) k) in H. lia.
Qed.

Lemma zrange_at lo n k : (k < n)%nat -> zrange lo n !! k = Some (lo + Z.of_nat k).
Proof.
  revert lo k. induction n as [|n IH]; intros lo [|k] H; cbn [zrange]; try lia.
  - cbn. f_equal. lia.
  - change ((lo :: zrange (lo + 1) n) !! S k) with (zrange (lo + 1) n !! k). rewrite IH by lia. f_equal. lia.
Qed.

(** The lowest interrupt the context may take, 0 when there is none. *)
Definition lowest_taken (mode : PLICMode) (hart : Z) (v : VPlicInner) (irq : Z) : Prop :=
  (irq = 0 /\ forall i, takes mode hart v i = false) \/
  (takes mode hart v irq = true /\ forall i, i < irq -> takes mode hart v i = false).

Lemma get_pending_irq_lowest mode hart v : lowest_taken mode hart v (get_pending_irq mode hart v).
Proof.
  unfold get_pending_irq. destruct (List.find _ _) as [i|] eqn:E; cbn [from_option id].
  - right. apply find_first in E as (k & Hk & Hf & Hb). apply zrange_get in Hk as [-> Hk].
    split; [done|]. intros j Hj. destruct (takes mode hart v j) eqn:Ej; [|done]. exfalso.
    pose proof (takes_ok _ _ _ _ Ej). unfold PLIC_MAX_IRQ in *.
    assert (takes mode hart v j = false); [|congruence].
    apply (Hb (Z.to_nat (j - 1)) j); [lia|]. rewrite zrange_at by lia. f_equal. lia.
  - left. split; [done|]. intros i. destruct (takes mode hart v i) eqn:Ei; [|done]. exfalso.
    pose proof (takes_ok _ _ _ _ Ei). unfold PLIC_MAX_IRQ in *.
    assert (i ∈ zrange 1 (Z.to_nat 511)) as Hin by (apply zrange_elem; lia).
    apply list_elem_of_In, (find_none _ _ E) in Hin. congruence.
Qed.

Lemma lowest_taken_unique mode hart v i j : lowest_taken mode hart v i -> lowest_taken mode hart v j -> i = j.
Proof.
  intros [[-> Hi]|[Hi Hli]] [[-> Hj]|[Hj Hlj]]; try done; try congruence.
  destruct (Z.lt_trichotomy i j) as [H|[H|H]]; [|done|].
  - rewrite (Hlj i H) in Hi. done.
  - rewrite (Hli j H) in Hj. done.
Qed.

Definition cnt (v : VPlicInner) (irq : Z) : Z := default 0 (pending_cnt v !! irq).
Definition add_cnt (irq k : Z) (v : VPlicInner) : VPlicInner := with_pending (<[irq := usize (cnt v irq + k)]> (pending_cnt v)) v.

Lemma cnt_add irq k v j : cnt (add_cnt irq k v) j = if decide (j = irq) then usize (cnt v irq + k) else cnt v j.
Proof.
  unfold cnt at 1, add_cnt. cbn [pending_cnt with_pending]. rewrite lookup_insert.
  destruct (decide (irq = j)) as [->|]; [by rewrite decide_True|by rewrite decide_False].
Qed.

Lemma takes_cnt mode hart v i : takes mode hart v i = true -> 0 < cnt v i.
Proof. unfold takes, get_pending. destruct (irq_ok i); [|done]. rewrite !andb_true_iff, Z.ltb_lt. tauto. Qed.

Lemma get_claim_eq mode hart s :
  let irq := get_pending_irq mode hart (vplic s) in
  get_claim mode hart s =
    Ret irq (with_external false (with_vplic (if irq =? 0 then vplic s else add_cnt irq (-1) (vplic s)) s)).
Proof.
  intros irq. unfold get_claim. munfold. fold irq. destruct (irq =? 0); cbn [negb]; [by destruct s|]. done.
Qed.

(** A claim takes the right interrupt: the value is the lowest interrupt that is pending, enabled for
    the context and not below its threshold, or 0 when there is none; its counter goes down
    by one, no other counter and no setting changes.  And the external interrupt line of the vCPU is
    cleared in any case, also when another interrupt can still be taken: no later event but
    a new injection raises it again. *)
Theorem vplic_claim_spec mode hart s :
  exists irq v', get_claim mode hart s = Ret irq (with_external false (with_vplic v' s)) /\
    lowest_taken mode hart (vplic s) irq /\
    (forall j, cnt v' j = if decide (j = irq /\ irq <> 0) then usize (cnt (vplic s) j - 1) else cnt (vplic s) j) /\
    priority v' = priority (vplic s) /\ enables Machine v' = enables Machine (vplic s) /\
    enables Supervisor v' = enables Supervisor (vplic s) /\ thresholds mode v' = thresholds mode (vplic s).
Proof.
  pose proof (get_claim_eq mode hart s) as E. cbv zeta in E. eexists _, _. split; [exact E|].
  split; [apply get_pending_irq_lowest|].
  destruct (Z.eqb_spec (get_pending_irq mode hart (vplic s)) 0) as [E0|Hne].
  - split; [|done]. intros j. rewrite decide_False; [done|]. intros [_ H]. done.
  - split; [|by destruct mode]. intros j. rewrite cnt_add.
    destruct (decide (j = _)) as [->|]; [by rewrite decide_True|]. rewrite decide_False; [done|]. tauto.
Qed.

(** ** Interrupts are neither lost from the counters nor claimed twice *)

Section runs.
Context (vm : Vm) (vcpu_num : Z).

Inductive plic_op := OpInject (irq : Z) | OpWrite (addr val : Z) | OpRead (addr : Z).

Definition offset_at (v : VPlicInner) (addr : Z) : Z := Z.land (usize (addr - emulated_base_addr v)) (notw 64 3).
Definition is_claim (v : VPlicInner) (addr : Z) : bool :=
  let o := offset_at v addr in (0x1fffff <? o) && (o <=? 0x3fffff) && (Z.land o 0xfff =? 4).

(** One operation of the guest or of the hypervisor; the interrupt a claim returned. *)
Definition op_run (op : plic_op) : M PS (option Z) :=
  match op with
  | OpInject irq => inject_intr vcpu_num irq >>; m_ret None
  | OpWrite addr val => vm_write_register vm addr val >>; m_ret None
  | OpRead addr =>
      let! s := m_get in
      let! x := vm_read_register addr in m_ret (if is_claim (vplic s) addr then Some x else None)
  end.

Fixpoint run_plic (ops : list plic_op) : M PS (list (option Z)) :=
  match ops with
  | [] => m_ret []
  | op :: ops' => let! r := op_run op in let! rs := run_plic ops' in m_ret (r :: rs)
  end.

(** How often [irq] was injected, and claimed. *)
Fixpoint injected (irq : Z) (ops : list plic_op) : Z :=
  match ops with
  | [] => 0
  | OpInject i :: ops' => (if decide (i = irq) then 1 else 0) + injected irq ops'
  | _ :: ops' => injected irq ops'
  end.
Fixpoint claimed (irq : Z) (rs : list (option Z)) : Z :=
  match rs with
  | [] => 0
  | r :: rs' => (if decide (r = Some irq) then 1 else 0) + claimed irq rs'
  end.

Definition same_cnt (p : gmap Z Z) (s : PS) : Prop := pending_cnt (vplic s) = p.

Lemma keeps_pemit p e : m_keeps (same_cnt p) (pemit e).
Proof. apply keeps_modify. done. Qed.
Lemma keeps_upd_vplic p f : (forall v, pending_cnt (f v) = pending_cnt v) -> m_keeps (same_cnt p) (upd_vplic f).
Proof. intros Hf. apply keeps_modify. intros s Hs. unfold same_cnt in *. cbn [vplic with_vplic]. by rewrite Hf. Qed.
Hint Resolve keeps_pemit : keeps.

Lemma keeps_forward p irq hart e : m_keeps (same_cnt p) (forward vm irq hart e).
Proof. unfold forward, p_has_interrupt. keeps_tac. Qed.

Lemma keeps_set_priority p irq prio : m_keeps (same_cnt p) (set_priority vm irq prio).
Proof. unfold set_priority, p_has_interrupt. keeps_tac. by apply keeps_upd_vplic. Qed.
Lemma keeps_edit p index mode hart val : m_keeps (same_cnt p) (edit_enable_reg vm index mode hart val).
Proof.
  unfold edit_enable_reg, set_enable, clear_enable. apply keeps_for. intros i.
  keeps_tac; try apply keeps_forward; apply keeps_upd_vplic; by destruct mode.
Qed.
Lemma keeps_set_threshold p mode hart val : m_keeps (same_cnt p) (set_threshold mode hart val).
Proof. unfold set_threshold. keeps_tac. apply keeps_upd_vplic. by destruct mode. Qed.
Hint Resolve keeps_set_priority keeps_edit keeps_set_threshold : keeps.

Lemma keeps_write p addr val : m_keeps (same_cnt p) (vm_write_register vm addr val).
Proof. unfold vm_write_register, set_complete. keeps_tac. Qed.

(** What an access does to the counters. *)
Lemma read_cnt addr s x s' irq : vm_read_register addr s = Ret x s' -> 1 <= irq -> (forall j, 0 <= cnt (vplic s) j < 2 ^ 64) ->
  cnt (vplic s') irq = cnt (vplic s) irq - (if decide ((if is_claim (vplic s) addr then Some x else None) = Some irq) then 1 else 0).
Proof.
  unfold vm_read_register, is_claim. cbv zeta. rewrite (m_bind_Ret m_get _ s s s) by done. fold (offset_at (vplic s) addr).
  set (o := offset_at (vplic s) addr). intros E Hirq Hb.
  destruct (Z.leb_spec o 0xfff).
  { apply Ret_inj in E as [_ <-]. rewrite (proj2 (Z.ltb_ge 0x1fffff o)) by lia. cbn [andb]. rewrite decide_False by done. lia. }
  destruct (Z.leb_spec o 0x1fff).
  { unfold get_pending_reg in E. destruct (_ <? _); [done|]. apply Ret_inj in E as [_ <-].
    rewrite (proj2 (Z.ltb_ge 0x1fffff o)) by lia. cbn [andb]. rewrite decide_False by done. lia. }
  destruct (Z.leb_spec o 0x1fffff).
  { destruct (enable_ctx o). apply Ret_inj in E as [_ <-]. rewrite (proj2 (Z.ltb_ge 0x1fffff o)) by lia. cbn [andb].
    rewrite decide_False by done. lia. }
  rewrite (proj2 (Z.ltb_lt 0x1fffff o)) by lia. destruct (o <=? 0x3fffff); [|done]. cbn [andb].
  destruct (claim_ctx o) as [mode hart]. destruct (Z.eqb_spec (Z.land o 0xfff) 0) as [E0|_].
  { apply Ret_inj in E as [_ <-]. rewrite E0. cbn [Z.eqb]. rewrite decide_False by done. lia. }
  destruct (Z.land o 0xfff =? 4).
  - pose proof (get_claim_eq mode hart s) as Ec. cbv zeta in Ec. rewrite (m_bind_Ret _ _ _ _ _ Ec) in E. apply Ret_inj in E as [<- <-].
    cbn [vplic with_external with_vplic].
    destruct (get_pending_irq_lowest mode hart (vplic s)) as [[Hz0 _]|[Ht _]].
    + rewrite Hz0. cbn [Z.eqb]. rewrite decide_False; [lia|]. intros [= Hz]. by subst irq.
    + pose proof (takes_ok _ _ _ _ Ht). pose proof (takes_cnt _ _ _ _ Ht). rewrite (proj2 (Z.eqb_neq _ 0)) by lia.
      rewrite wrap_small by (unfold in_word; lia). rewrite cnt_add. destruct (decide (irq = _)) as [->|Hne].
      * rewrite decide_True by done. rewrite wrap_small by (unfold in_word; specialize (Hb (get_pending_irq mode hart (vplic s))); lia). lia.
      * rewrite decide_False; [lia|]. intros [= Hx]. done.
  - apply Ret_inj in E as [_ <-]. rewrite decide_False by done. lia.
Qed.

Definition cnts_wf (v : VPlicInner) : Prop := forall j, 0 <= cnt v j < 2 ^ 64.

Lemma add_cnt_wf irq k v : cnts_wf v -> cnts_wf (add_cnt irq k v).
Proof. intros H j. rewrite cnt_add. destruct (decide _); [apply (wrap_range 64); lia|apply H]. Qed.

Lemma keeps_cnts_wf_read addr : m_keeps (fun s => cnts_wf (vplic s)) (vm_read_register addr).
Proof.
  assert (forall mode hart, m_keeps (fun s => cnts_wf (vplic s)) (get_claim mode hart)) as Hc.
  { intros mode hart s x s' Hs E. rewrite get_claim_eq in E. apply Ret_inj in E as [_ <-].
    cbn [vplic with_external with_vplic]. destruct (_ =? 0); [done|]. by apply add_cnt_wf. }
  unfold vm_read_register, get_pending_reg. keeps_tac.
Qed.

Lemma inject_cnt i s s' irq : inject_intr vcpu_num i s = Ret tt s' -> cnts_wf (vplic s) ->
  irq <> IRQ_IPI -> irq <> IRQ_GUEST_TIMER -> cnt (vplic s) irq + (if decide (i = irq) then 1 else 0) < 2 ^ 64 ->
  cnts_wf (vplic s') /\ cnt (vplic s') irq = cnt (vplic s) irq + (if decide (i = irq) then 1 else 0).
Proof.
  intros E Hw H1 H2 Hb. unfold inject_intr in E.
  destruct (Z.eqb_spec i IRQ_GUEST_TIMER) as [->|_].
  { apply Ret_inj in E as [_ <-]. split; [done|]. rewrite decide_False by done. cbn. lia. }
  destruct (Z.eqb_spec i IRQ_IPI) as [->|_].
  { apply Ret_inj in E as [_ <-]. split; [done|]. rewrite decide_False by done. cbn. lia. }
  unfold inject_external_intr in E. destruct (_ || _); [done|].
  set (s1 := with_vplic (add_cnt i 1 (vplic s)) s).
  rewrite (m_bind_Ret (upd_vplic _) _ s tt s1) in E by done.
  assert (vplic s' = vplic s1) as ->.
  { unfold m_bind, m_gets in E. destruct (negb _); by apply Ret_inj in E as [_ <-]. }
  subst s1. cbn [vplic with_vplic]. split; [by apply add_cnt_wf|]. rewrite cnt_add.
  destruct (decide (irq = i)) as [->|Hne].
  - rewrite decide_True in Hb |- * by done. apply wrap_small. unfold in_word. specialize (Hw i). lia.
  - rewrite decide_False by done. lia.
Qed.

Lemma write_cnt addr val s s' irq : vm_write_register vm addr val s = Ret tt s' -> cnts_wf (vplic s) ->
  cnts_wf (vplic s') /\ cnt (vplic s') irq = cnt (vplic s) irq.
Proof.
  intros E Hw. pose proof (keeps_write (pending_cnt (vplic s)) addr val s tt s' eq_refl E) as Hp. unfold same_cnt in Hp.
  unfold cnts_wf, cnt in *. by rewrite Hp.
Qed.

Lemma injected_nonneg irq ops : 0 <= injected irq ops.
Proof. induction ops as [|[i| |] ops IH]; cbn [injected]; [done| |done|done]. destruct (decide _); lia. Qed.

(** C32. No external interrupt is lost from the device's books and none is claimed twice: over any sequence of
    injections by the hypervisor and register accesses of the guest that does not panic, the number of
    times an interrupt is pending at the end is the number at the beginning plus its injections
    minus the times a claim returned it.  In particular it is never claimed more often than it
    was injected. *)
Theorem vplic_counts_interrupts ops s rs s' irq :
  run_plic ops s = Ret rs s' -> cnts_wf (vplic s) ->
  1 <= irq -> irq <> IRQ_IPI -> irq <> IRQ_GUEST_TIMER ->
  cnt (vplic s) irq + injected irq ops < 2 ^ 64 ->
  cnt (vplic s') irq = cnt (vplic s) irq + injected irq ops - claimed irq rs /\
  claimed irq rs <= cnt (vplic s) irq + injected irq ops.
Proof.
  intros E Hw Hirq H1 H2 Hb.
  assert (cnts_wf (vplic s') /\ cnt (vplic s') irq = cnt (vplic s) irq + injected irq ops - claimed irq rs) as [Hw' Heq].
  { revert s rs E Hw Hb. induction ops as [|op ops IH]; intros s rs E Hw Hb; cbn [run_plic] in E.
    { apply Ret_inj in E as [<- <-]. cbn [injected claimed]. split; [done|lia]. }
    apply m_bind_inv in E as (r & s1 & E1 & E). apply m_bind_inv in E as (rs1 & s2 & E2 & E).
    apply Ret_inj in E as [<- <-]. pose proof (injected_nonneg irq ops) as Hn.
    assert (cnts_wf (vplic s1) /\ cnt (vplic s1) irq = cnt (vplic s) irq + injected irq [op] - claimed irq [r]) as [Hw1 Hc1].
    { destruct op as [i|addr val|addr]; cbn [op_run] in E1; apply m_bind_inv in E1 as (x & s3 & E3 & E1).
      - apply Ret_inj in E1 as [<- <-]. destruct x. cbn [injected] in Hb.
        destruct (inject_cnt i s s3 irq E3 Hw H1 H2) as [? Hc]; [lia|].
        split; [done|]. cbn [injected claimed]. rewrite Hc. rewrite (decide_False (P := None = Some irq)) by done. lia.
      - apply Ret_inj in E1 as [<- <-]. destruct x. destruct (write_cnt addr val s s3 irq E3 Hw) as [? Hc].
        split; [done|]. cbn [injected claimed]. rewrite decide_False by done. lia.
      - apply Ret_inj in E3 as [<- <-]. apply m_bind_inv in E1 as (y & s4 & E4 & E1). apply Ret_inj in E1 as [<- <-].
        split; [by eapply keeps_cnts_wf_read|]. cbn [injected claimed]. rewrite (read_cnt addr s y s4 irq E4 Hirq Hw). lia. }
    destruct (IH s1 rs1 E2 Hw1) as [Hw2 Hc2].
    - rewrite Hc1. destruct op; cbn [injected claimed] in *; destruct (decide (r = Some irq)); lia.
    - split; [done|]. rewrite Hc2, Hc1. destruct op; cbn [injected claimed]; lia. }
  split; [done|]. specialize (Hw' irq). lia.
Qed.
End runs.

Definition demo_ps : PS := mkPS (vplic_new 0x0c000000) false false false true ∅ [].
(** Interrupt 5 enabled for context (Machine, 0), injected twice, claimed three times. *)
Definition demo_ops : list plic_op :=
  [OpWrite 0x0c002080 0x20; OpWrite 0x0c000014 1; OpInject 5; OpInject 5; OpRead 0x0c201004; OpRead 0x0c201004; OpRead 0x0c201004].
Definition rv_vm : Vm := mkVm 1 (mkCpuCfg 1 1 None) [] [mkVcpu 0 0 1] DEFAULT 0 [].

Lemma new_cnts_wf base : cnts_wf (vplic_new base).
Proof. intros j. unfold cnt, vplic_new. cbn [pending_cnt]. by rewrite lookup_empty. Qed.

Lemma vplic_counts_interrupts_witness :
  exists rs s', run_plic rv_vm 0 demo_ops demo_ps = Ret rs s' /\ cnt (vplic s') 5 = 0 + 2 - claimed 5 rs.
Proof.
  destruct (run_plic rv_vm 0 demo_ops demo_ps) as [rs s'|] eqn:E; [|by vm_compute in E].
  exists rs, s'. split; [reflexivity|].
  refine (proj1 (vplic_counts_interrupts rv_vm 0 demo_ops demo_ps rs s' 5 E (new_cnts_wf 0x0c000000) _ _ _ _)).
  - lia.
  - by vm_compute.
  - by vm_compute.
  - by vm_compute.
Defined.

(** ** Contexts *)

Lemma testm_pow2 x k : 0 <= k -> testm x (2 ^ k) = Z.testbit x k.
Proof. intros Hk. rewrite <- (testm_bit x k), Z.shiftl_1_l by done. done. Qed.

Lemma enable_ctx_at mode hart k : 0 <= hart < MAX_HARTS -> 0 <= k < 32 ->
  let offset := 0x2080 + (match mode with Machine => 0 | Supervisor => 0x80 end) + 0x100 * hart + 4 * k in
  enable_ctx offset = (mode, hart).
Proof.
  intros Hh Hk offset. unfold enable_ctx, MAX_HARTS in *. f_equal.
  - change 0x80 with (2 ^ 7). rewrite testm_pow2 by lia. rewrite Z.testbit_eqb by lia. change (2 ^ 7) with 128.
    assert ((offset / 128) mod 2 = match mode with Machine => 1 | Supervisor => 0 end) as ->
      by (unfold offset; destruct mode; zdiv). by destruct mode.
  - unfold offset. rewrite wrap_small; destruct mode; unfold in_word; zdiv.
Qed.

(** The context that the threshold and claim registers of (mode, hart) are taken to belong to. *)
Lemma claim_ctx_at mode hart o : 0 <= hart < MAX_HARTS -> 0 <= o < 0x1000 ->
  let offset := 0x201000 + (match mode with Machine => 0 | Supervisor => 0x1000 end) + 0x2000 * hart + o in
  claim_ctx offset =
    match mode with
    | Machine => (if Z.odd hart then Supervisor else Machine, hart)
    | Supervisor => (if Z.odd hart then Machine else Supervisor, hart + 1)
    end.
Proof.
  intros Hh Ho offset. unfold claim_ctx, MAX_HARTS in *.
  assert (testm offset 0x2000 = Z.odd (offset / 0x2000)) as ->.
  { change 0x2000 with (2 ^ 13). rewrite testm_pow2 by lia. rewrite <- Z.bit0_odd, (Z.div_pow2_bits _ 13 0) by lia. done. }
  destruct mode; f_equal; unfold offset.
  - replace ((0x201000 + 0 + 0x2000 * hart + o) / 0x2000) with (256 + hart) by zdiv. rewrite Z.odd_add. cbn [Z.odd xorb]. by destruct (Z.odd hart).
  - zdiv.
  - replace ((0x201000 + 0x1000 + 0x2000 * hart + o) / 0x2000) with (256 + hart + 1) by zdiv.
    rewrite !Z.odd_add. cbn [Z.odd xorb]. by destruct (Z.odd hart).
  - zdiv.
Qed.

(** The address [a] is decoded as the enable bit of [irq] for the context; as its threshold or claim register. *)
Definition decodes_enable (base a irq : Z) (mode : PLICMode) (hart : Z) : Prop :=
  enable_ctx (a - base) = (mode, hart) /\ Z.land (a - base) 0x7f / 4 * 32 + irq mod 32 = irq.
Definition decodes_claim (base a : Z) (mode : PLICMode) (hart : Z) : Prop := claim_ctx (a - base) = (mode, hart).

(** The two halves of the register file disagree about contexts: a guest uses the addresses of the
    physical PLIC.  The enable register of (mode, hart) and interrupt [irq] there is decoded as that very
    context, for every interrupt and hart; the threshold and claim registers of the context are decoded as it
    only for the machine context of an even hart.  The claim register of an odd hart acts on the supervisor
    context, which has its own enable bits. *)
Theorem vplic_contexts_disagree base mode hart irq : 0 <= hart < MAX_HARTS -> 1 <= irq <= PLIC_MAX_IRQ ->
  (exists a, get_enable_array_addr base irq mode hart = Some a /\ decodes_enable base a irq mode hart) /\
  (exists a, get_prio_claim_baseaddr base mode hart = Some a /\
     (decodes_claim base a mode hart <-> mode = Machine /\ Z.even hart = true)).
Proof.
  intros Hh Hi. split.
  - unfold get_enable_array_addr. rewrite (proj2 (irq_ok_range irq)) by (unfold PLIC_MAX_IRQ in Hi; lia). cbn [negb].
    eexists. split; [done|]. unfold decodes_enable. unfold PLIC_MAX_IRQ in Hi.
    assert (0 <= irq / 32 < 32) as Hk by zdiv.
    assert (forall m, match m with Machine => base + 0x2000 + 0x80 + 0x100 * hart + 4 * (irq / 32)
      | Supervisor => base + 0x2000 + 0x100 + 0x100 * hart + 4 * (irq / 32) end - base =
      0x2080 + (match m with Machine => 0 | Supervisor => 0x80 end) + 0x100 * hart + 4 * (irq / 32)) as -> by (intros []; lia).
    split; [by apply enable_ctx_at|]. change 0x7f with (Z.ones 7). rewrite Z.land_ones by lia. change (2 ^ 7) with 128.
    destruct mode; zdiv.
  - eexists. split; [done|]. unfold decodes_claim.
    pose proof (claim_ctx_at mode hart 0 Hh ltac:(lia)) as H. cbv zeta in H.
    assert (forall m, match m with Machine => base + 0x200000 + 0x1000 + 0x2000 * hart
      | Supervisor => base + 0x200000 + 0x2000 + 0x2000 * hart end - base =
      0x201000 + (match m with Machine => 0 | Supervisor => 0x1000 end) + 0x2000 * hart + 0) as -> by (intros []; lia).
    rewrite H, <- Z.negb_odd. destruct mode, (Z.odd hart); cbn [negb]; split; intros Hx; try done;
      try (by destruct Hx); injection Hx; lia.
Qed.

Lemma vplic_contexts_disagree_witness :
  exists a, get_prio_claim_baseaddr 0x0c000000 Machine 1 = Some a /\ claim_ctx (a - 0x0c000000) <> (Machine, 1).
Proof.
  destruct (vplic_contexts_disagree 0x0c000000 Machine 1 5 ltac:(done) ltac:(done)) as [_ (a & E & H)].
  exists a. split; [exact E|]. intros [_ Hc]%H. done.
Defined.

(** The vCPU of an odd hart whose guest enables interrupts for the context it claims from: nothing is
    returned, and the line is cleared. *)
Lemma odd_hart_claims_nothing hart s : Z.odd hart = true -> 0 <= hart < MAX_HARTS ->
  (forall irq, (hart, irq) ∉ s_enables (vplic s)) -> emulated_base_addr (vplic s) = 0x0c000000 ->
  vm_read_register (0x0c201004 + 0x2000 * hart) s = Ret 0 (with_external false s).
Proof.
  intros Ho Hh He Hb. unfold vm_read_register. rewrite (m_bind_Ret m_get _ s s s) by done. cbv zeta. rewrite Hb.
  unfold MAX_HARTS in Hh.
  assert (usize (0x0c201004 + 0x2000 * hart - 0x0c000000) = 0x201004 + 0x2000 * hart) as -> by (rewrite wrap_small; unfold in_word; lia).
  assert (Z.land (0x201004 + 0x2000 * hart) (notw 64 3) = 0x201004 + 0x2000 * hart) as ->.
  { assert (hart = 1 \/ hart = 3 \/ hart = 5 \/ hart = 7) as [->|[->|[->| ->]]]; [|by vm_compute..].
    assert (hart = 0 \/ hart = 1 \/ hart = 2 \/ hart = 3 \/ hart = 4 \/ hart = 5 \/ hart = 6 \/ hart = 7) as Hc by lia.
    destruct_or! Hc; subst hart; try done; lia. }
  rewrite (proj2 (Z.leb_gt _ 0xfff)), (proj2 (Z.leb_gt _ 0x1fff)), (proj2 (Z.leb_gt _ 0x1fffff)), (proj2 (Z.leb_le _ 0x3fffff)) by lia.
  pose proof (claim_ctx_at Machine hart 4 Hh ltac:(lia)) as Hc. cbv zeta in Hc. rewrite Ho in Hc.
  replace (0x201000 + 0 + 0x2000 * hart + 4) with (0x201004 + 0x2000 * hart) in Hc by lia. rewrite Hc.
  assert (Z.land (0x201004 + 0x2000 * hart) 0xfff = 4) as ->.
  { change 0xfff with (Z.ones 12). rewrite Z.land_ones by lia. change (2 ^ 12) with 4096. zdiv. }
  cbn [Z.eqb Pos.eqb]. assert (get_pending_irq Supervisor hart (vplic s) = 0) as E0.
  { destruct (get_pending_irq_lowest Supervisor hart (vplic s)) as [[E _]|[Ht _]]; [done|]. exfalso.
    unfold takes, get_enable in Ht. rewrite !andb_true_iff in Ht. destruct Ht as [[_ Ht] _].
    destruct (_ || _); [done|]. apply bool_decide_eq_true in Ht. by apply (He (get_pending_irq Supervisor hart (vplic s))). }
  pose proof (get_claim_eq Supervisor hart s) as Ec. cbv zeta in Ec. rewrite E0 in Ec. cbn [Z.eqb] in Ec.
  rewrite (m_bind_Ret _ _ _ _ _ Ec). by destruct s.
Qed.

(** A write to a pending register, which the PLIC ignores, stops the hypervisor. *)
Lemma write_pending_panics vm addr val s :
  0x1000 <= offset_at (vplic s) addr <= 0x1fff -> vm_write_register vm addr val s = Fault ExplicitPanic.
Proof.
  intros Ho. unfold vm_write_register. rewrite (m_bind_Ret m_get _ s s s) by done. cbv zeta. fold (offset_at (vplic s) addr).
  rewrite (proj2 (Z.leb_gt _ 0xfff)), (proj2 (Z.leb_gt 0x2000 _)), (proj2 (Z.leb_gt 0x200000 _)) by lia. done.
Qed.
