(* ===== verification/VAPlic.v ===== *)
(** * VAPlic: the emulated APLIC of RISC-V guests ([arch/riscv64/vaplic.rs])

    The guest's accesses to the registers of its interrupt controller: some are kept, most are
    passed on to the physical controller, whose operations are logged; what it answers is a
    parameter.  Arrays of fixed size start out as zeros and are finite maps. *)
From stdpp Require Import gmap list.
From S2P Require Import Prelude Bits Bitmap Vm.
From S2P Require VgicDist VPlic.

(** src: arch/riscv64/aplic.rs 56-63 [SourceModes] *)
Inductive SourceModes := Inactive | Detached | RisingEdge | FallingEdge | LevelHigh | LevelLow.
Definition mode_num (m : SourceModes) : Z :=
  match m with Inactive => 0 | Detached => 1 | RisingEdge => 4 | FallingEdge => 5 | LevelHigh => 6 | LevelLow => 7 end.

(** src: arch/riscv64/vaplic.rs 34-55 [VAPlicInner]
    The fields that are used. *)
Record VAPlicInner := mkVA {
  emulated_base : Z;
  domaincfg : Z;
  sourcecfg : gmap Z Z;
  smsiaddrcfg : Z; smsiaddrcfgh : Z;
  setip : gmap Z Z; setipnum : Z; in_clrip : gmap Z Z;
  setie : gmap Z Z; setienum : Z; clrie : gmap Z Z; clrienum : Z;
  reg_setipnum_le : Z;
  target : gmap Z Z;
}.

(** The operations on the physical APLIC, and the message an injection sends. *)
Inductive aevent :=
  | PhysDomaincfg (bigendian msimode enabled : bool)
  | PhysSourcecfg (irq : Z) (mode : SourceModes)
  | PhysDelegate (irq child : Z)
  | PhysMsiaddr (addr : Z)
  | PhysPending (irqidx value : Z) (pending : bool)
  | PhysPendingNum (value : Z)
  | PhysInClrip (irqidx value : Z)
  | PhysEnable (irqidx value : Z) (enabled : bool)
  | PhysEnableNum (value : Z)
  | PhysClrEnableNum (value : Z)
  | PhysSetipnumLe (value : Z)
  | PhysTargetMsi (irq hart guest eiid : Z)
  | PhysTargetDirect (irq hart prio : Z)
  | ImsicTrigger (hart guest eiid : Z).

Record AS := mkAS {
  va : VAPlicInner;
  hvip_timer : bool; hvip_software : bool; stimer : bool;
  agpr : gmap Z Z;
  alog : list aevent;
}.

Definition upd_va (f : VAPlicInner -> VAPlicInner) : M AS unit :=
  m_modify (fun s => mkAS (f (va s)) (hvip_timer s) (hvip_software s) (stimer s) (agpr s) (alog s)).
Definition aemit (e : aevent) : M AS unit :=
  m_modify (fun s => mkAS (va s) (hvip_timer s) (hvip_software s) (stimer s) (agpr s) (alog s ++ [e])).
Definition aassert (b : bool) : M AS unit := if b then m_ret tt else m_fault ExplicitPanic.

(** src: arch/riscv64/vaplic.rs 58-84 [VAPlic::new] *)
Definition vaplic_new (base : Z) : VAPlicInner := mkVA base 0 ∅ 0 0 ∅ 0 ∅ ∅ 0 ∅ 0 0 ∅.

Definition with_domaincfg x v := mkVA (emulated_base v) x (sourcecfg v) (smsiaddrcfg v) (smsiaddrcfgh v) (setip v) (setipnum v) (in_clrip v) (setie v) (setienum v) (clrie v) (clrienum v) (reg_setipnum_le v) (target v).
Definition with_sourcecfg x v := mkVA (emulated_base v) (domaincfg v) x (smsiaddrcfg v) (smsiaddrcfgh v) (setip v) (setipnum v) (in_clrip v) (setie v) (setienum v) (clrie v) (clrienum v) (reg_setipnum_le v) (target v).
Definition with_msiaddr x y v := mkVA (emulated_base v) (domaincfg v) (sourcecfg v) x y (setip v) (setipnum v) (in_clrip v) (setie v) (setienum v) (clrie v) (clrienum v) (reg_setipnum_le v) (target v).
Definition with_setip x v := mkVA (emulated_base v) (domaincfg v) (sourcecfg v) (smsiaddrcfg v) (smsiaddrcfgh v) x (setipnum v) (in_clrip v) (setie v) (setienum v) (clrie v) (clrienum v) (reg_setipnum_le v) (target v).
Definition with_setipnum x v := mkVA (emulated_base v) (domaincfg v) (sourcecfg v) (smsiaddrcfg v) (smsiaddrcfgh v) (setip v) x (in_clrip v) (setie v) (setienum v) (clrie v) (clrienum v) (reg_setipnum_le v) (target v).
Definition with_in_clrip x v := mkVA (emulated_base v) (domaincfg v) (sourcecfg v) (smsiaddrcfg v) (smsiaddrcfgh v) (setip v) (setipnum v) x (setie v) (setienum v) (clrie v) (clrienum v) (reg_setipnum_le v) (target v).
Definition with_setie x v := mkVA (emulated_base v) (domaincfg v) (sourcecfg v) (smsiaddrcfg v) (smsiaddrcfgh v) (setip v) (setipnum v) (in_clrip v) x (setienum v) (clrie v) (clrienum v) (reg_setipnum_le v) (target v).
Definition with_setienum x v := mkVA (emulated_base v) (domaincfg v) (sourcecfg v) (smsiaddrcfg v) (smsiaddrcfgh v) (setip v) (setipnum v) (in_clrip v) (setie v) x (clrie v) (clrienum v) (reg_setipnum_le v) (target v).
Definition with_clrie x v := mkVA (emulated_base v) (domaincfg v) (sourcecfg v) (smsiaddrcfg v) (smsiaddrcfgh v) (setip v) (setipnum v) (in_clrip v) (setie v) (setienum v) x (clrienum v) (reg_setipnum_le v) (target v).
Definition with_clrienum x v := mkVA (emulated_base v) (domaincfg v) (sourcecfg v) (smsiaddrcfg v) (smsiaddrcfgh v) (setip v) (setipnum v) (in_clrip v) (setie v) (setienum v) (clrie v) x (reg_setipnum_le v) (target v).
Definition with_setipnum_le x v := mkVA (emulated_base v) (domaincfg v) (sourcecfg v) (smsiaddrcfg v) (smsiaddrcfgh v) (setip v) (setipnum v) (in_clrip v) (setie v) (setienum v) (clrie v) (clrienum v) x (target v).
Definition with_target x v := mkVA (emulated_base v) (domaincfg v) (sourcecfg v) (smsiaddrcfg v) (smsiaddrcfgh v) (setip v) (setipnum v) (in_clrip v) (setie v) (setienum v) (clrie v) (clrienum v) (reg_setipnum_le v) x.

Section vaplic.
(** The active VM, and the physical controller's [domaincfg]. *)
Context (vm : Vm) (phys_domaincfg : Z).

Definition a_has_interrupt (irq : Z) : M AS bool := m_opt OutOfBounds (has_interrupt vm irq).
Definition irq_in (irq : Z) : bool := (0 <? irq) && (irq <? 1024).
Definition idx_in (i : Z) : bool := i <? 32.

(** Pass [e] on when the interrupt is the VM's. *)
Definition pass (irq : Z) (e : aevent) : M AS unit :=
  let! h := a_has_interrupt irq in if h : bool then aemit e else m_ret tt.

(** src: arch/riscv64/vaplic.rs 99-110 [VAPlic::set_domaincfg] *)
Definition set_domaincfg (bigendian msimode enabled : bool) : M AS unit :=
  aemit (PhysDomaincfg bigendian msimode enabled) >>;
  upd_va (with_domaincfg (Z.lor (Z.lor (Z.shiftl (Z.b2z enabled) 8) (Z.shiftl (Z.b2z msimode) 2)) (Z.b2z bigendian))).
(** src: arch/riscv64/vaplic.rs 112-119 [VAPlic::get_domaincfg] *)
Definition get_domaincfg : M AS Z := m_ret phys_domaincfg.
(** src: arch/riscv64/vaplic.rs 121-126 [VAPlic::get_msimode] *)
Definition get_msimode : M AS bool := m_ret (negb (Z.land (Z.shiftr phys_domaincfg 2) 1 =? 0)).
(** src: arch/riscv64/vaplic.rs 134-142 [VAPlic::set_sourcecfg] *)
Definition set_sourcecfg (irq : Z) (mode : SourceModes) : M AS unit :=
  aassert (irq_in irq) >>; pass irq (PhysSourcecfg irq mode) >>;
  upd_va (fun v => with_sourcecfg (<[irq - 1 := mode_num mode]> (sourcecfg v)) v).
(** src: arch/riscv64/vaplic.rs 149-157 [VAPlic::set_sourcecfg_delegate] *)
Definition set_sourcecfg_delegate (irq child : Z) : M AS unit :=
  aassert (irq_in irq) >>; pass irq (PhysDelegate irq child) >>;
  upd_va (fun v => with_sourcecfg (<[irq - 1 := Z.lor (Z.shiftl 1 10) (Z.land child 0x3ff)]> (sourcecfg v)) v).
(** src: arch/riscv64/vaplic.rs 159-163 [VAPlic::get_sourcecfg] *)
Definition get_sourcecfg (irq : Z) : M AS Z :=
  aassert (irq_in irq) >>; m_gets (fun s => default 0 (sourcecfg (va s) !! (irq - 1))).
(** src: arch/riscv64/vaplic.rs 171-176 [VAPlic::set_msiaddr] *)
Definition set_msiaddr (addr : Z) : M AS unit :=
  aemit (PhysMsiaddr addr) >>; upd_va (with_msiaddr (u32 (Z.shiftr addr 12)) 0).
(** src: arch/riscv64/vaplic.rs 178-182 [VAPlic::get_pending] *)
Definition get_pending (i : Z) : M AS Z := aassert (idx_in i) >>; m_gets (fun s => default 0 (setip (va s) !! i)).
(** src: arch/riscv64/vaplic.rs 189-200 [VAPlic::set_pending] *)
Definition set_pending (i value : Z) (pending : bool) : M AS unit :=
  aassert (idx_in i) >>; aemit (PhysPending i value pending) >>;
  upd_va (fun v => if pending then with_setip (<[i := value]> (setip v)) v else with_in_clrip (<[i := value]> (in_clrip v)) v).
(** src: arch/riscv64/vaplic.rs 202-206 [VAPlic::set_pending_num] *)
Definition set_pending_num (value : Z) : M AS unit := aemit (PhysPendingNum value) >>; upd_va (with_setipnum value).
(** src: arch/riscv64/vaplic.rs 208-212 [VAPlic::get_in_clrip] *)
Definition get_in_clrip (i : Z) : M AS Z := aassert (idx_in i) >>; m_gets (fun s => default 0 (in_clrip (va s) !! i)).
(** src: arch/riscv64/vaplic.rs 214-219 [VAPlic::set_in_clrip] *)
Definition set_in_clrip (i value : Z) : M AS unit :=
  aassert (idx_in i) >>; aemit (PhysInClrip i value) >>; upd_va (fun v => with_in_clrip (<[i := value]> (in_clrip v)) v).
(** src: arch/riscv64/vaplic.rs 221-225 [VAPlic::get_enable] *)
Definition get_enable (i : Z) : M AS Z := aassert (idx_in i) >>; m_gets (fun s => default 0 (setie (va s) !! i)).
(** src: arch/riscv64/vaplic.rs 227-231 [VAPlic::get_clr_enable] *)
Definition get_clr_enable (i : Z) : M AS Z := aassert (idx_in i) >>; m_gets (fun s => default 0 (clrie (va s) !! i)).
(** src: arch/riscv64/vaplic.rs 238-247 [VAPlic::set_enable] *)
Definition set_enable (i value : Z) (enabled : bool) : M AS unit :=
  aassert (idx_in i) >>; aemit (PhysEnable i value enabled) >>;
  upd_va (fun v => if enabled then with_setie (<[i := value]> (setie v)) v else with_clrie (<[i := value]> (clrie v)) v).
(** src: arch/riscv64/vaplic.rs 249-253 [VAPlic::set_enable_num] *)
Definition set_enable_num (value : Z) : M AS unit := aemit (PhysEnableNum value) >>; upd_va (with_setienum value).
(** src: arch/riscv64/vaplic.rs 255-259 [VAPlic::clr_enable_num] *)
Definition clr_enable_num (value : Z) : M AS unit := aemit (PhysClrEnableNum value) >>; upd_va (with_clrienum value).
(** src: arch/riscv64/vaplic.rs 261-265 [VAPlic::setipnum_le] *)
Definition setipnum_le (value : Z) : M AS unit := aemit (PhysSetipnumLe value) >>; upd_va (with_setipnum_le value).
(** src: arch/riscv64/vaplic.rs 274-282 [VAPlic::set_target_msi] *)
Definition set_target_msi (irq hart guest eiid : Z) : M AS unit :=
  aassert (irq_in irq) >>; pass irq (PhysTargetMsi irq hart guest eiid) >>;
  upd_va (fun v => with_target (<[irq - 1 := u32 (Z.lor (Z.lor (Z.shiftl hart 18) (Z.shiftl guest 12)) eiid)]> (target v)) v).
(** src: arch/riscv64/vaplic.rs 290-298 [VAPlic::set_target_direct] *)
Definition set_target_direct (irq hart prio : Z) : M AS unit :=
  aassert (irq_in irq) >>; pass irq (PhysTargetDirect irq hart prio) >>;
  upd_va (fun v => with_target (<[irq - 1 := u32 (Z.lor (Z.shiftl hart 18) (Z.land prio 0xff))]> (target v)) v).
(** src: arch/riscv64/vaplic.rs 300-303 [VAPlic::get_target] *)
Definition get_target (irq : Z) : M AS Z :=
  if (irq <? 1) || (1023 <? irq) then m_fault OutOfBounds else m_gets (fun s => default 0 (target (va s) !! (irq - 1))).

(** ** The register file *)

Definition offset_at (v : VAPlicInner) (addr : Z) : Z := Z.land (usize (addr - emulated_base v)) (notw 64 3).

(** src: arch/riscv64/vaplic.rs 307-381 [VAPlic::vm_read_register] *)
Definition vm_read_register (addr : Z) : M AS Z :=
  let! s := m_get in
  let offset := offset_at (va s) addr in
  if offset <=? 0x0003 then get_domaincfg
  else if (0x1d00 <=? offset) && (offset <=? 0x1d7f) then get_in_clrip ((offset - 0x1d00) / 4)
  else m_fault ExplicitPanic.

(** src: arch/riscv64/vaplic.rs 414-422 [VAPlic::vm_write_register] *)
Definition source_mode (value : Z) : option SourceModes :=
  match value with
  | 0 => Some Inactive | 1 => Some Detached | 4 => Some RisingEdge | 5 => Some FallingEdge
  | 6 => Some LevelHigh | 7 => Some LevelLow | _ => None
  end.

(** src: arch/riscv64/vaplic.rs 401-431 [VAPlic::vm_write_register]
    A write to [sourcecfg]. *)
Definition write_sourcecfg (irq value : Z) : M AS unit :=
  if Z.land (Z.shiftr value 10) 1 =? 1 then set_sourcecfg_delegate irq (Z.land value 0x3ff)
  else
    let! mode := m_opt ExplicitPanic (source_mode value) in
    let! h := a_has_interrupt irq in
    if h : bool then set_sourcecfg irq mode else m_ret tt.

(** src: arch/riscv64/vaplic.rs 511-548 [VAPlic::vm_write_register]
    A write to [target]: the guest's hart is replaced by the physical core of its vCPU, and the guest
    number by the VM's. *)
Definition write_target (irq value : Z) : M AS unit :=
  let hart := Z.land (Z.shiftr value 18) 0x3f in
  let pcpu := match vcpu vm hart with Some c => phys_id c | None => 0 end in
  let! msi := get_msimode in
  if msi : bool then
    let guest := u32 (Z.land (Z.shiftr value 12) 0x3f + vm_id vm + 1) in
    let! h := a_has_interrupt irq in
    if h : bool then set_target_msi irq pcpu guest (Z.land value 0xfff) else m_ret tt
  else if vm_id vm =? 0 then set_target_direct irq pcpu (Z.land value 0xff) else m_ret tt.

(** src: arch/riscv64/vaplic.rs 383-555 [VAPlic::vm_write_register] *)
Definition vm_write_register (addr value : Z) : M AS unit :=
  let! s := m_get in
  let offset := offset_at (va s) addr in
  let within lo hi := (lo <=? offset) && (offset <=? hi) in
  if within 0x0000 0x0003 then
    if vm_id vm =? 0 then
      set_domaincfg (negb (Z.land value 1 =? 0)) (negb (Z.land (Z.shiftr value 2) 1 =? 0)) (negb (Z.land (Z.shiftr value 8) 1 =? 0))
    else m_ret tt
  else if within 0x0004 0x0fff then write_sourcecfg (u32 ((offset - 0x0004) / 4 + 1)) value
  else if within 0x1bc8 0x1bcf then set_msiaddr (shlw 64 value 12)
  else if within 0x1c00 0x1c7f || within 0x1cdc 0x1cdf || within 0x1d00 0x1d7f || within 0x1ddc 0x1ddf || within 0x1e00 0x1e7f
  then m_fault ExplicitPanic
  else if within 0x1edc 0x1edf then set_enable_num value
  else if within 0x1f00 0x1f7f then
    if vm_id vm =? 0 then set_enable ((offset - 0x1f00) / 4) value false else m_ret tt
  else if within 0x1fdc 0x1fdf then clr_enable_num value
  else if within 0x2000 0x2003 then setipnum_le value
  else if within 0x2004 0x2007 then m_ret tt
  else if within 0x3000 0x3003 then m_fault ExplicitPanic
  else if within 0x3004 0x3fff then write_target (u32 ((offset - 0x3004) / 4 + 1)) value
  else m_fault ExplicitPanic.

(** src: arch/riscv64/vaplic.rs 556-571 [VAPlic::inject_intr] *)
Definition inject_intr (irq : Z) : M AS unit :=
  if irq =? VPlic.IRQ_GUEST_TIMER then
    m_modify (fun s => mkAS (va s) true (hvip_software s) false (agpr s) (alog s))
  else if irq =? VPlic.IRQ_IPI then
    m_modify (fun s => mkAS (va s) (hvip_timer s) true (stimer s) (agpr s) (alog s))
  else
    let! t := get_target irq in
    aemit (ImsicTrigger (Z.land (Z.shiftr t 18) 0x3f) (Z.land (Z.shiftr t 12) 0x3f) (Z.land t 0xfff)).

(** src: arch/riscv64/vaplic.rs 596-617 [VAPlic::handler] *)
Definition vaplic_handler (ctx : VgicDist.EmuContext) : M AS bool :=
  if negb (VgicDist.width ctx =? 4) then m_fault ExplicitPanic
  else
    let r := VgicDist.reg ctx in
    (if VgicDist.write ctx then
       let! s := m_get in
       vm_write_register (VgicDist.address ctx) (u32 (if 32 <=? r then 0 else default 0 (agpr s !! r)))
     else
       let! val := vm_read_register (VgicDist.address ctx) in
       if 32 <=? r then m_ret tt
       else m_modify (fun s => mkAS (va s) (hvip_timer s) (hvip_software s) (stimer s) (<[r := val]> (agpr s)) (alog s))) >>;
    m_ret true.
End vaplic.
