(* ===== verification/VAPlicSpec.v ===== *)
(** * VAPlicSpec: theorems about the emulated APLIC

    What a guest's register writes reach of the physical controller, and the way from a target register
    to the message an injection sends. *)
From stdpp Require Import gmap list.
From S2P Require Import Prelude Bits Bitmap Vm VAPlic.
From S2P Require VPlic VPlicSpec.

(** ** What a guest reaches *)

(** An operation on the physical controller concerns only the VM: an interrupt it has; VM 0 alone
    configures the domain and clears enable words. *)
Definition guarded (vm : Vm) (e : aevent) : Prop :=
  match e with
  | PhysSourcecfg irq _ | PhysDelegate irq _ | PhysTargetMsi irq _ _ _ | PhysTargetDirect irq _ _ => has_interrupt vm irq = Some true
  | PhysDomaincfg _ _ _ => vm_id vm = 0
  | PhysEnable _ _ en => vm_id vm = 0 /\ en = false
  | _ => False
  end.
(** The operations that are passed on unchecked. *)
Definition unchecked (e : aevent) : Prop :=
  match e with PhysMsiaddr _ | PhysEnableNum _ | PhysClrEnableNum _ | PhysSetipnumLe _ => True | _ => False end.

(** [m] adds events of [R] to the log. *)
Definition alogs {A} (R : aevent -> Prop) (m : M AS A) : Prop :=
  forall s a s', m s = Ret a s' -> exists new, alog s' = alog s ++ new /\ Forall R new.

Section alogs.
Context (R : aevent -> Prop).

Lemma alogs_none {A} (m : M AS A) : (forall s a s', m s = Ret a s' -> alog s' = alog s) -> alogs R m.
Proof. intros H s a s' E. exists []. rewrite app_nil_r. split; [by eapply H|constructor]. Qed.
Lemma alogs_ret {A} (a : A) : alogs R (m_ret a).
Proof. apply alogs_none. by intros s a' s' [= _ <-]. Qed.
Lemma alogs_fault {A} f : alogs (A := A) R (m_fault f).
Proof. by intros s a s' E. Qed.
Lemma alogs_opt {A} f (o : option A) : alogs R (m_opt f o).
Proof. destruct o; [apply alogs_ret|apply alogs_fault]. Qed.
Lemma alogs_get : alogs R m_get.
Proof. apply alogs_none. by intros s a s' [= _ <-]. Qed.
Lemma alogs_gets {A} (f : AS -> A) : alogs R (m_gets f).
Proof. apply alogs_none. by intros s a s' [= _ <-]. Qed.
Lemma alogs_bind {A B} (m : M AS A) (k : A -> M AS B) : alogs R m -> (forall a, alogs R (k a)) -> alogs R (m_bind m k).
Proof.
  intros Hm Hk s b s'' (a & s' & E1 & E2)%m_bind_inv.
  destruct (Hm _ _ _ E1) as (n1 & H1 & F1). destruct (Hk _ _ _ _ E2) as (n2 & H2 & F2).
  exists (n1 ++ n2). rewrite H2, H1, app_assoc. split; [done|by apply Forall_app].
Qed.
Lemma alogs_if {A} (b : bool) (m1 m2 : M AS A) : (b = true -> alogs R m1) -> (b = false -> alogs R m2) -> alogs R (if b then m1 else m2).
Proof. destruct b; auto. Qed.
Lemma alogs_emit e : R e -> alogs R (aemit e).
Proof. intros He s [] s' [= <-]. exists [e]. split; [done|by repeat constructor]. Qed.
Lemma alogs_upd f : alogs R (upd_va f).
Proof. apply alogs_none. by intros s [] s' [= <-]. Qed.
Lemma alogs_assert b : alogs R (aassert b).
Proof. destruct b; [apply alogs_ret|apply alogs_fault]. Qed.
End alogs.

Create HintDb alogs discriminated.
#[export] Hint Resolve alogs_ret alogs_fault alogs_opt alogs_get alogs_gets alogs_emit alogs_upd alogs_assert : alogs.
Ltac alogs_tac :=
  repeat match goal with
  | |- alogs _ (m_bind _ _) => apply alogs_bind; [|intros ?]
  | |- alogs _ (if _ then _ else _) => apply alogs_if; intros ?
  end; auto with alogs.

Section guest.
Context (vm : Vm) (phys : Z).
Abbreviation allowed := (fun e => guarded vm e \/ unchecked e).

Lemma alogs_pass irq e : (has_interrupt vm irq = Some true -> allowed e) -> alogs allowed (pass vm irq e).
Proof.
  intros He s a s' E. unfold pass, a_has_interrupt in E.
  destruct (has_interrupt vm irq) as [h|]; [|done]. unfold m_opt in E. rewrite m_bind_ret in E.
  destruct h; [eapply alogs_emit; [by apply He|exact E]|eapply (alogs_ret allowed tt); exact E].
Qed.

Lemma alogs_write_sourcecfg irq value : alogs allowed (write_sourcecfg vm irq value).
Proof.
  unfold write_sourcecfg, set_sourcecfg, set_sourcecfg_delegate, a_has_interrupt.
  alogs_tac; apply alogs_pass; intros Hi; by left.
Qed.

Lemma alogs_write_target irq value : alogs allowed (write_target vm phys irq value).
Proof.
  unfold write_target, set_target_msi, set_target_direct, a_has_interrupt, get_msimode. cbv zeta.
  alogs_tac; apply alogs_pass; intros Hi; by left.
Qed.

(** C33. What a guest's APLIC driver reaches of the physical controller: a write changes the source or target of
    an interrupt only if it is the VM's own, and only VM 0 sets the domain's mode or clears words of enable
    bits.  But four registers are passed on without a check, whatever VM writes them and
    whatever value: so any guest enables, disables or raises any interrupt of the machine by number,
    and moves the address to which the controller sends all its messages. *)
Theorem aplic_guest_writes s addr value :
  (forall s', vm_write_register vm phys addr value s = Ret tt s' ->
     exists new, alog s' = alog s ++ new /\ Forall (fun e => guarded vm e \/ unchecked e) new) /\
  (forall off e, (off, e) ∈ [(0x1bc8, PhysMsiaddr (shlw 64 value 12)); (0x1edc, PhysEnableNum value);
                            (0x1fdc, PhysClrEnableNum value); (0x2000, PhysSetipnumLe value)] ->
     offset_at (va s) addr = off ->
     exists s', vm_write_register vm phys addr value s = Ret tt s' /\ alog s' = alog s ++ [e]).
Proof.
  split.
  - assert (alogs allowed (vm_write_register vm phys addr value)) as H; [|intros s'; apply H].
    unfold vm_write_register. cbv zeta.
    alogs_tac; try (by apply alogs_write_sourcecfg); try (by apply alogs_write_target);
      unfold set_domaincfg, set_msiaddr, set_enable_num, set_enable, clr_enable_num, setipnum_le; alogs_tac;
      apply alogs_emit; bool_to_prop; cbn [guarded unchecked]; tauto.
  - intros off e He Ho. unfold vm_write_register. rewrite (m_bind_Ret m_get _ s s s) by done. rewrite Ho.
    rewrite !elem_of_cons in He. destruct_or! He; [..|by apply elem_of_nil in He];
      injection He as -> ->; eexists; (split; [reflexivity|]); done.
Qed.
End guest.

(** ** From a target register to the message *)

(** The fields of a target register that is written with [hart], [guest] and [eiid] as the code packs them. *)
Lemma target_fields hart guest eiid : 0 <= hart < 64 -> 0 <= guest < 64 -> 0 <= eiid < 4096 ->
  let t := u32 (Z.lor (Z.lor (Z.shiftl hart 18) (Z.shiftl guest 12)) eiid) in
  Z.land (Z.shiftr t 18) 0x3f = hart /\ Z.land (Z.shiftr t 12) 0x3f = guest /\ Z.land t 0xfff = eiid.
Proof.
  intros Hh Hg He t.
  assert (t = hart * 2 ^ 18 + guest * 2 ^ 12 + eiid) as ->.
  { unfold t. rewrite !Z.shiftl_mul_pow2 by done.
    rewrite (lor_low hart (guest * 2 ^ 12) 18) by lia.
    replace (hart * 2 ^ 18 + guest * 2 ^ 12) with ((hart * 2 ^ 6 + guest) * 2 ^ 12) by lia.
    rewrite (lor_low _ eiid 12) by lia. apply wrap_small. unfold in_word. lia. }
  change 0x3f with (Z.ones 6). change 0xfff with (Z.ones 12). rewrite !Z.land_ones, !Z.shiftr_div_pow2 by done.
  repeat split; zdiv.
Qed.

Section msi.
Context (vm : Vm) (phys : Z).

(** In MSI mode: [irq] is the VM's, the hart field of [value] is that of its vCPU [c], and its guest field
    leaves room for the VM's number. *)
Definition msi_routed (irq value : Z) (c : Vcpu) : Prop :=
  has_interrupt vm irq = Some true /\ Z.testbit phys 2 = true /\
  vcpu vm (Z.land (Z.shiftr value 18) 0x3f) = Some c /\ 0 <= phys_id c < 64 /\
  0 <= vm_id vm /\ Z.land (Z.shiftr value 12) 0x3f + vm_id vm + 1 < 64.

Lemma vm_write_register_target s addr irq value : 1 <= irq < 1024 ->
  offset_at (va s) addr = 0x3000 + 4 * irq ->
  vm_write_register vm phys addr value s = write_target vm phys irq value s.
Proof.
  intros Hi Ho. unfold vm_write_register. rewrite (m_bind_Ret m_get _ s s s) by done. cbv zeta. rewrite Ho.
  repeat match goal with |- context [0x3000 + 4 * irq <=? ?b] =>
    first [rewrite (proj2 (Z.leb_gt (0x3000 + 4 * irq) b)) by lia|rewrite (proj2 (Z.leb_le (0x3000 + 4 * irq) b)) by lia] end.
  rewrite (proj2 (Z.leb_le 0x3004 _)) by lia. rewrite !andb_false_r. cbn [orb andb].
  replace ((0x3000 + 4 * irq - 0x3004) / 4 + 1) with irq by zdiv. rewrite wrap_small by (unfold in_word; lia). done.
Qed.

(** An interrupt that a guest routes goes to the core its vCPU runs on: in MSI mode, when the guest
    writes the target register of one of its own interrupts, with the number of its vCPU [c] as hart, the
    physical controller is programmed with the core of [c] and the guest number
    shifted by the VM's; and when the hypervisor later injects the interrupt, the message it
    sends has exactly that core, guest number and identity, read back from the packed register. *)
Theorem aplic_target_roundtrip s addr irq value c :
  1 <= irq < 1024 -> irq <> VPlic.IRQ_IPI -> irq <> VPlic.IRQ_GUEST_TIMER ->
  offset_at (va s) addr = 0x3000 + 4 * irq -> msi_routed irq value c ->
  let guest := Z.land (Z.shiftr value 12) 0x3f + vm_id vm + 1 in
  let eiid := Z.land value 0xfff in
  exists s1 s2, vm_write_register vm phys addr value s = Ret tt s1 /\ inject_intr irq s1 = Ret tt s2 /\
    alog s2 = alog s ++ [PhysTargetMsi irq (phys_id c) guest eiid; ImsicTrigger (phys_id c) guest eiid].
Proof.
  intros Hi H1 H2 Ho (Hh & Hm & Hc & Hp & Hv & Hg) guest eiid.
  rewrite (vm_write_register_target s addr irq value) by done.
  pose proof (land_ones_range (Z.shiftr value 12) 6 ltac:(lia)) as Hg0.
  change (Z.ones 6) with 0x3f in Hg0.
  pose proof (land_ones_range value 12 ltac:(lia)) as He. change (Z.ones 12) with 0xfff in He.
  destruct (target_fields (phys_id c) guest eiid Hp ltac:(lia) He) as (F1 & F2 & F3). cbv zeta in F1, F2, F3.
  set (t := u32 (Z.lor (Z.lor (Z.shiftl (phys_id c) 18) (Z.shiftl guest 12)) eiid)) in *.
  set (s1 := mkAS (with_target (<[irq - 1 := t]> (target (va s))) (va s)) (hvip_timer s) (hvip_software s) (stimer s) (agpr s)
    (alog s ++ [PhysTargetMsi irq (phys_id c) guest eiid])).
  assert (write_target vm phys irq value s = Ret tt s1) as Ew.
  { unfold write_target. cbv zeta. rewrite Hc. unfold get_msimode. rewrite m_bind_ret.
    assert (negb (Z.land (Z.shiftr phys 2) 1 =? 0) = true) as ->.
    { change 1 with (Z.ones 1). rewrite Z.land_ones, Z.shiftr_div_pow2 by done. rewrite Z.testbit_eqb in Hm by done.
      apply Z.eqb_eq in Hm. change (2 ^ 1) with 2. by rewrite Hm. }
    unfold a_has_interrupt, m_opt. rewrite Hh, m_bind_ret. fold eiid.
    rewrite (wrap_small 32) by (unfold in_word; lia). fold guest.
    unfold set_target_msi, pass, a_has_interrupt, m_opt, irq_in.
    rewrite (proj2 (Z.ltb_lt 0 irq)), (proj2 (Z.ltb_lt irq 1024)), Hh by lia. cbn [andb aassert].
    rewrite !m_bind_ret. done. }
  exists s1. eexists. split; [exact Ew|]. unfold inject_intr.
  rewrite (proj2 (Z.eqb_neq _ _) H2), (proj2 (Z.eqb_neq _ _) H1). unfold get_target.
  rewrite (proj2 (Z.ltb_ge irq 1)), (proj2 (Z.ltb_ge 1023 irq)) by lia. cbn [orb].
  rewrite (m_bind_Ret (m_gets _) _ s1 t s1).
  - split; [reflexivity|]. cbn [alog]. rewrite F1, F2, F3. subst s1. cbn [alog]. by rewrite <- app_assoc.
  - unfold m_gets. subst s1. cbn [va with_target target]. by rewrite lookup_insert_eq.
Qed.
End msi.

Definition demo_as : AS := mkAS (vaplic_new 0x0d000000) false false true ∅ [].
(** VM 2 with interrupt 5 and one vCPU, on core 3. *)
Definition aplic_vm : Vm := mkVm 2 (mkCpuCfg 1 8 None) [] [mkVcpu 0 3 2] (default DEFAULT (ba_set (DEFAULT : BitAlloc4K) 5)) 0 [].

Lemma aplic_target_roundtrip_witness :
  exists s1 s2, vm_write_register aplic_vm 4 0x0d003014 0x1007 demo_as = Ret tt s1 /\ inject_intr 5 s1 = Ret tt s2 /\
    alog s2 = [PhysTargetMsi 5 3 4 7; ImsicTrigger 3 4 7].
Proof.
  refine (aplic_target_roundtrip aplic_vm 4 demo_as 0x0d003014 5 0x1007 (mkVcpu 0 3 2) _ _ _ _ _).
  - lia.
  - done.
  - done.
  - by vm_compute.
  - unfold msi_routed. repeat split; by vm_compute.
Defined.

(** VM 2 raises interrupt 9, which it does not have. *)
Lemma aplic_guest_writes_witness :
  has_interrupt aplic_vm 9 = Some false /\
  exists s', vm_write_register aplic_vm 4 0x0d002000 9 demo_as = Ret tt s' /\ alog s' = [PhysSetipnumLe 9].
Proof.
  split; [by vm_compute|].
  refine (proj2 (aplic_guest_writes aplic_vm 4 demo_as 0x0d002000 9) 0x2000 (PhysSetipnumLe 9) _ _).
  - repeat (first [apply list_elem_of_here|apply list_elem_of_further]).
  - by vm_compute.
Defined.
