(* ===== verification/Config.v ===== *)
(** * Config: the configuration table of VMs ([config/config.rs])

    The entries of the table, the allocation of VM ids, and the hypercalls with which a guest (the
    management VM's tool) adds, edits and deletes the configuration of a VM.  Arguments that are guest
    addresses are translated for the active VM and read from memory; the lists of assigned mediated
    disks ([device/virtio/mediated.rs]) are part of the state.  Vectors are taken to fit the
    hypervisor's heap. *)
From stdpp Require Import gmap list.
From S2P Require Import Prelude Bitmap GuestMem.
From S2P Require Vm.

(** src: kernel/vm.rs 93-97 [VmType] *)
Inductive VmType := VmTOs | VmTBma.
(** src: kernel/vm.rs 100-106 [VmType::from] *)
Definition VmType_from (v : Z) : option VmType := match v with 0 => Some VmTOs | 1 => Some VmTBma | _ => None end.

(** src: device/emu.rs 86-101 [EmuDeviceType] *)
Inductive EmuDeviceType :=
  | EmuDeviceTConsole | EmuDeviceTGicd | EmuDeviceTGPPT | EmuDeviceTVirtioBlk | EmuDeviceTVirtioNet
  | EmuDeviceTVirtioConsole | EmuDeviceTTinyvm | EmuDeviceTVirtioBlkMediated | EmuDeviceTIOMMU
  | EmuDeviceTGICR | EmuDeviceTMeta | EmuDeviceTPlic | EmuDeviceTAPlic.
(** src: device/emu.rs 153-170 [EmuDeviceType::from_usize]
    [None] is the panic. *)
Definition EmuDeviceType_from_usize (v : Z) : option EmuDeviceType :=
  match v with
  | 0 => Some EmuDeviceTConsole | 1 => Some EmuDeviceTGicd | 2 => Some EmuDeviceTGPPT
  | 3 => Some EmuDeviceTVirtioBlk | 4 => Some EmuDeviceTVirtioNet | 5 => Some EmuDeviceTVirtioConsole
  | 6 => Some EmuDeviceTTinyvm | 7 => Some EmuDeviceTVirtioBlkMediated | 8 => Some EmuDeviceTIOMMU
  | 11 => Some EmuDeviceTGICR | 12 => Some EmuDeviceTMeta | 13 => Some EmuDeviceTPlic | 14 => Some EmuDeviceTAPlic
  | _ => None
  end.
#[export] Instance EmuDeviceType_eq_dec : EqDecision EmuDeviceType.
Proof. solve_decision. Defined.

(** src: config/config.rs 31-38 [DtbDevType] *)
Inductive DtbDevType := DevSerial | DevGicd | DevGicc | DevGicr | DevPlic | DevAPlic.
#[export] Instance DtbDevType_eq_dec : EqDecision DtbDevType.
Proof. solve_decision. Defined.
(** src: config/config.rs 42-52 [DtbDevType::from] *)
Definition DtbDevType_from (v : Z) : option DtbDevType :=
  match v with
  | 0 => Some DevSerial | 1 => Some DevGicd | 2 => Some DevGicc | 3 => Some DevGicr | 4 => Some DevPlic | 5 => Some DevAPlic
  | _ => None
  end.

(** ** Entries *)

(** src: config/config.rs 57-72 [VmEmulatedDeviceConfig] *)
Record VmEmulatedDeviceConfig := mkEmu {
  emu_name : list Z; emu_base_ipa : Z; emu_length : Z; emu_irq_id : Z;
  cfg_list : list Z; emu_type : EmuDeviceType; mediated : bool;
}.
(** src: config/config.rs 83-92 [PassthroughRegion] *)
Record PassthroughRegion := mkPt { pt_ipa : Z; pt_pa : Z; pt_length : Z; dev_property : bool }.
(** src: config/config.rs 104-111 [VmPassthroughDeviceConfig] *)
Record VmPassthroughDeviceConfig := mkPtCfg { regions : list PassthroughRegion; irqs : list Z; streams_ids : list Z }.
(** src: config/config.rs 115-120 [VmRegion] *)
Record VmRegion := mkRegion { ipa_start : Z; rg_length : Z }.
(** src: config/config.rs 130-137 [VmImageConfig]
    The name of the built-in kernel is not kept. *)
Record VmImageConfig := mkImage {
  kernel_load_ipa : Z; kernel_entry_point : Z; device_tree_load_ipa : Z; ramdisk_load_ipa : Z;
  mediated_block_index : option Z;
}.
(** src: config/config.rs 141-154 [VmImageConfig::new] *)
Definition VmImageConfig_new (kernel dtb ramdisk : Z) : VmImageConfig := mkImage kernel kernel dtb ramdisk None.
(** src: config/config.rs 202-207 [VmDtbDevConfig] *)
Record VmDtbDevConfig := mkDtb { dtb_name : list Z; dev_type : DtbDevType; dtb_irqs : list Z; addr_region : VmRegion }.

(** src: config/config.rs 217-232 [VmConfigEntry] *)
Record VmConfigEntry := mkEntry {
  id : Z; name : list Z; os_type : VmType; cmdline : list Z; image : VmImageConfig;
  memory : list VmRegion; cpu : Vm.VmCpuConfig;
  emu_dev_list : list VmEmulatedDeviceConfig; pt_dev : VmPassthroughDeviceConfig;
  dtb_device_list : list VmDtbDevConfig; fdt_overlay : list Z;
}.

(** src: config/config.rs 237-256 [VmConfigEntry::new]
    [None] is the panic of [VmType::from]. *)
Definition VmConfigEntry_new (nm cl : list Z) (vm_type kernel dtb ramdisk : Z) : option VmConfigEntry :=
  t ← VmType_from vm_type;
  Some (mkEntry 0 nm t cl (VmImageConfig_new kernel dtb ramdisk) [] (Vm.mkCpuCfg 0 0 None) [] (mkPtCfg [] [] []) [] []).

Definition with_id x e := mkEntry x (name e) (os_type e) (cmdline e) (image e) (memory e) (cpu e) (emu_dev_list e) (pt_dev e) (dtb_device_list e) (fdt_overlay e).
Definition with_image x e := mkEntry (id e) (name e) (os_type e) (cmdline e) x (memory e) (cpu e) (emu_dev_list e) (pt_dev e) (dtb_device_list e) (fdt_overlay e).
Definition with_memory x e := mkEntry (id e) (name e) (os_type e) (cmdline e) (image e) x (cpu e) (emu_dev_list e) (pt_dev e) (dtb_device_list e) (fdt_overlay e).
Definition with_cpu x e := mkEntry (id e) (name e) (os_type e) (cmdline e) (image e) (memory e) x (emu_dev_list e) (pt_dev e) (dtb_device_list e) (fdt_overlay e).
Definition with_emu x e := mkEntry (id e) (name e) (os_type e) (cmdline e) (image e) (memory e) (cpu e) x (pt_dev e) (dtb_device_list e) (fdt_overlay e).
Definition with_pt x e := mkEntry (id e) (name e) (os_type e) (cmdline e) (image e) (memory e) (cpu e) (emu_dev_list e) x (dtb_device_list e) (fdt_overlay e).
Definition with_dtb x e := mkEntry (id e) (name e) (os_type e) (cmdline e) (image e) (memory e) (cpu e) (emu_dev_list e) (pt_dev e) x (fdt_overlay e).
Definition with_overlay x e := mkEntry (id e) (name e) (os_type e) (cmdline e) (image e) (memory e) (cpu e) (emu_dev_list e) (pt_dev e) (dtb_device_list e) x.

(** src: config/config.rs 279-281 [VmConfigEntry::set_mediated_block_index] *)
Definition set_mediated_block_index (i : Z) (e : VmConfigEntry) : VmConfigEntry :=
  let m := image e in
  with_image (mkImage (kernel_load_ipa m) (kernel_entry_point m) (device_tree_load_ipa m) (ramdisk_load_ipa m) (Some i)) e.
(** src: config/config.rs 314-316 [VmConfigEntry::add_memory_cfg] *)
Definition add_memory_cfg (ipa len : Z) (e : VmConfigEntry) : VmConfigEntry := with_memory (memory e ++ [mkRegion ipa len]) e.
(** src: config/config.rs 349-351 [VmConfigEntry::add_emulated_device_cfg] *)
Definition add_emulated_device_cfg (c : VmEmulatedDeviceConfig) (e : VmConfigEntry) : VmConfigEntry := with_emu (emu_dev_list e ++ [c]) e.
(** src: config/config.rs 369-381 [VmConfigEntry::add_passthrough_device_region] *)
Definition add_passthrough_device_region (ipa pa len : Z) (e : VmConfigEntry) : VmConfigEntry :=
  let p := pt_dev e in with_pt (mkPtCfg (regions p ++ [mkPt ipa pa len true]) (irqs p) (streams_ids p)) e.
(** src: config/config.rs 384-386 [VmConfigEntry::add_passthrough_device_irqs] *)
Definition add_passthrough_device_irqs (l : list Z) (e : VmConfigEntry) : VmConfigEntry :=
  let p := pt_dev e in with_pt (mkPtCfg (regions p) (irqs p ++ l) (streams_ids p)) e.
(** src: config/config.rs 389-394 [VmConfigEntry::add_passthrough_device_streams_ids] *)
Definition add_passthrough_device_streams_ids (l : list Z) (e : VmConfigEntry) : VmConfigEntry :=
  let p := pt_dev e in with_pt (mkPtCfg (regions p) (irqs p) (streams_ids p ++ l)) e.
(** src: config/config.rs 402-404 [VmConfigEntry::add_dtb_device] *)
Definition add_dtb_device (c : VmDtbDevConfig) (e : VmConfigEntry) : VmConfigEntry := with_dtb (dtb_device_list e ++ [c]) e.

(** The first device of a type: its address, or 0. *)
Definition dtb_addr (t : DtbDevType) (e : VmConfigEntry) : Z :=
  match List.find (fun d => bool_decide (dev_type d = t)) (dtb_device_list e) with Some d => ipa_start (addr_region d) | None => 0 end.
(** src: config/config.rs 407-414 [VmConfigEntry::gicc_addr] *)
Definition gicc_addr : VmConfigEntry -> Z := dtb_addr DevGicc.
(** src: config/config.rs 417-424 [VmConfigEntry::gicd_addr] *)
Definition gicd_addr : VmConfigEntry -> Z := dtb_addr DevGicd.
(** src: config/config.rs 427-434 [VmConfigEntry::gicr_addr] *)
Definition gicr_addr : VmConfigEntry -> Z := dtb_addr DevGicr.

(** ** The cores of a VM *)

Definition count_ones (x : Z) : Z := zlen (filter (fun i => Z.testbit x i = true) (zrange 0 64)).
Definition trailing_zeros (x : Z) : Z := match List.find (Z.testbit x) (zrange 0 64) with Some i => i | None => 64 end.

(** src: config/config.rs 176-183 [VmCpuConfig::new: the loop]
    The walk to the bit after the [remain]-th set one. *)
Fixpoint cpu_index (fuel : nat) (bm index remain : Z) : option Z :=
  if (0 <? remain) && (index <=? bm) then
    match fuel with
    | O => None
    | S fuel' => cpu_index fuel' bm (shlw 64 index 1) (if testm bm index then remain - 1 else remain)
    end
  else Some index.

(** src: config/config.rs 167-197 [VmCpuConfig::new] *)
Definition VmCpuConfig_new (num allocate_bitmap master : Z) : option Vm.VmCpuConfig :=
  let num := Z.min num (count_ones allocate_bitmap) in
  index ← cpu_index 64 allocate_bitmap (shlw 64 1 (trailing_zeros allocate_bitmap)) num;
  let bm := u32 (Z.land allocate_bitmap (usize (index - 1))) in
  Some (Vm.mkCpuCfg num bm (if testm bm (shlw 32 1 master) then Some master else None)).

(** ** The table *)

Definition VM_NUM_MAX : Z := 8.

(** src: config/config.rs 439-444 [VmConfigTable]
    The name of the table is only printed. *)
Record VmConfigTable := mkTable { vm_bitmap : BitAlloc16; vm_num : Z; entries : list VmConfigEntry }.
(** src: config/config.rs 449-456 [VmConfigTable::new] *)
Definition VmConfigTable_new : VmConfigTable := mkTable DEFAULT 0 [].

(** src: config/config.rs 459-467 [VmConfigTable::generate_vm_id] *)
Definition generate_vm_id (t : VmConfigTable) : option (Z * VmConfigTable) :=
  match List.find (fun i => ba16_get (vm_bitmap t) i =? 0) (zrange 0 (Z.to_nat VM_NUM_MAX)) with
  | Some i => Some (i, mkTable (ba16_set (vm_bitmap t) i) (vm_num t) (entries t))
  | None => None
  end.
(** src: config/config.rs 470-475 [VmConfigTable::remove_vm_id]
    An id that is not in use is reported and cleared all the same. *)
Definition remove_vm_id (i : Z) (t : VmConfigTable) : VmConfigTable := mkTable (ba16_clear (vm_bitmap t) i) (vm_num t) (entries t).

(** ** The state of the hypercalls *)

(** [blk_avail] has the flag [avail] of every mediated disk; [vms] are the VMs that exist, each with the
    configuration it was made with. *)
Record CS := mkCS {
  table : VmConfigTable;
  blk_avail : list bool;
  gmem : Mem;
  vms : list (Vm.Vm * VmConfigEntry);
}.
Definition with_table t s := mkCS t (blk_avail s) (gmem s) (vms s).
Definition with_blk b s := mkCS (table s) b (gmem s) (vms s).
Definition with_gmem m s := mkCS (table s) (blk_avail s) m (vms s).

(** src: device/virtio/mediated.rs 45-54 [mediated_blk_request] *)
Definition mediated_blk_request : M CS (option Z) := fun s =>
  match list_find (fun b => b = true) (blk_avail s) with
  | Some (i, _) => Ret (Some (Z.of_nat i)) (with_blk (<[i := false]> (blk_avail s)) s)
  | None => Ret None s
  end.
(** src: device/virtio/mediated.rs 57-60 [mediated_blk_free] *)
Definition mediated_blk_free (i : Z) : M CS unit := fun s =>
  match zstore (blk_avail s) i true with Some l => Ret tt (with_blk l s) | None => Fault OutOfBounds end.

(** src: config/config.rs 495-504 [vm_type] *)
Definition vm_type (vmid : Z) (s : CS) : VmType :=
  match List.find (fun e => id e =? vmid) (entries (table s)) with Some e => os_type e | None => VmTOs end.
(** src: config/config.rs 507-514 [vm_id_list] *)
Definition vm_id_list (s : CS) : list Z := id <$> entries (table s).
(** src: config/config.rs 517-526 [vm_cfg_entry] *)
Definition vm_cfg_entry (vmid : Z) (s : CS) : option VmConfigEntry := List.find (fun e => id e =? vmid) (entries (table s)).

(** src: config/config.rs 528-540 [vm_cfg_editor]
    The closure gets the first entry with the id and may fail ([None]) after changing it.  It runs under
    the table's lock and does not touch the table otherwise. *)
Definition vm_cfg_editor (vmid : Z) (editor : VmConfigEntry -> M CS (option Z * VmConfigEntry)) : M CS (option Z) :=
  let! s := m_get in
  match list_find (fun e => id e = vmid) (entries (table s)) with
  | None => m_ret None
  | Some (i, e) =>
      let! re := editor e in
      m_modify (fun s => let t := table s in with_table (mkTable (vm_bitmap t) (vm_num t) (<[i := re.2]> (entries t))) s) >>;
      m_ret re.1
  end.

(** src: config/config.rs 543-572 [vm_cfg_add_vm_entry] *)
Definition vm_cfg_add_vm_entry (e : VmConfigEntry) : M CS (option Z) := fun s =>
  match generate_vm_id (table s) with
  | None => Ret None s
  | Some (i, t) =>
      if (i =? 0) && (negb (zlen (entries t) =? 0) || (0 <? vm_num t)) then Fault ExplicitPanic
      else Ret (Some i) (with_table (mkTable (vm_bitmap t) (usize (vm_num t + 1)) (entries t ++ [with_id i e])) s)
  end.

(** src: config/config.rs 575-593 [vm_cfg_remove_vm_entry] *)
Definition vm_cfg_remove_vm_entry (vmid : Z) : M CS unit :=
  let! s := m_get in
  match list_find (fun e => id e = vmid) (entries (table s)) with
  | None => m_ret tt
  | Some (i, e) =>
      let t := table s in
      m_put (with_table (remove_vm_id vmid (mkTable (vm_bitmap t) (usize (vm_num t - 1)) (entries t))) s) >>;
      (match mediated_block_index (image e) with None => m_ret tt | Some b => mediated_blk_free b end) >>;
      m_modify (fun s => let t := table s in with_table (mkTable (vm_bitmap t) (vm_num t) (delete i (entries t))) s)
  end.

(** ** Arguments in guest memory *)

(** [CStr::from_ptr]: the bytes before the first zero byte; [None] when [fuel] bytes hold none. *)
Fixpoint cstr (fuel : nat) (m : Mem) (a : Z) : option (list Z) :=
  match fuel with
  | O => None
  | S fuel' => let b := ld8 m a in if b =? 0 then Some [] else l ← cstr fuel' m (a + 1); Some (b :: l)
  end.

Definition cont (lo hi : Z) (l : list Z) : bool := match l with b :: _ => (lo <=? b) && (b <=? hi) | [] => false end.
(** The length of the sequence at the head of a byte string as UTF-8, and whether it is well-formed: of an
    ill-formed one, the part that could have begun a character. *)
Definition utf8_step (l : list Z) : nat * bool :=
  match l with
  | [] => (O, true)
  | b :: l1 =>
      if b <? 0x80 then (1%nat, true)
      else if (0xc2 <=? b) && (b <=? 0xdf) then if cont 0x80 0xbf l1 then (2%nat, true) else (1%nat, false)
      else if (0xe0 <=? b) && (b <=? 0xef) then
        let lo := if b =? 0xe0 then 0xa0 else 0x80 in
        let hi := if b =? 0xed then 0x9f else 0xbf in
        if cont lo hi l1 then if cont 0x80 0xbf (tail l1) then (3%nat, true) else (2%nat, false) else (1%nat, false)
      else if (0xf0 <=? b) && (b <=? 0xf4) then
        let lo := if b =? 0xf0 then 0x90 else 0x80 in
        let hi := if b =? 0xf4 then 0x8f else 0xbf in
        if cont lo hi l1 then
          if cont 0x80 0xbf (tail l1) then
            if cont 0x80 0xbf (tail (tail l1)) then (4%nat, true) else (3%nat, false)
          else (2%nat, false)
        else (1%nat, false)
      else (1%nat, false)
  end.
(** [to_string_lossy]: an ill-formed sequence becomes U+FFFD. *)
Fixpoint to_string_lossy (fuel : nat) (l : list Z) : list Z :=
  match fuel, l with
  | S fuel', _ :: _ =>
      let '(n, ok) := utf8_step l in
      (if ok : bool then take n l else [0xef; 0xbf; 0xbd]) ++ to_string_lossy fuel' (drop n l)
  | _, _ => []
  end.

(** [n] 64-bit words at [a]. *)
Definition ld_words (m : Mem) (a n : Z) : list Z := (fun k => ld64 m (a + 8 * k)) <$> zrange 0 (Z.to_nat n).

(** src: config/config.rs 24-24 [CFG_MAX_NUM] *)
Definition CFG_MAX_NUM : Z := 16.

Section hypercalls.
(** The active VM, and how many bytes a string may have. *)
Context (vm : Vm.Vm) (fuel : nat).

Definition vm_ipa2pa (ipa : Z) : M CS Z := m_opt OutOfBounds (Vm.vm_ipa2pa vm ipa).

Definition read_string (pa : Z) : M CS (list Z) :=
  let! s := m_get in
  let! l := m_opt FuelOut (cstr fuel (gmem s) pa) in
  m_ret (to_string_lossy (length l) l).

(** A copy of [n] words into a vector that has room for [room]: the code copies past the end of a
    smaller one, which the model turns into a fault. *)
Definition read_words (pa n room : Z) : M CS (list Z) :=
  if room <? n then m_fault OutOfBounds else m_gets (fun s => ld_words (gmem s) pa n).

(** src: config/config.rs 596-640 [vm_cfg_add_vm] *)
Definition vm_cfg_add_vm (config_ipa : Z) : M CS (option Z) :=
  let! config_pa := vm_ipa2pa config_ipa in
  let! w := m_gets (fun s => fun k => ld64 (gmem s) (config_pa + 8 * k)) in
  let! vm_name_pa := vm_ipa2pa (w 0) in
  if vm_name_pa =? 0 then m_ret None
  else
    let! vm_name_str := read_string vm_name_pa in
    let! cmdline_pa := vm_ipa2pa (w 3) in
    if cmdline_pa =? 0 then m_ret None
    else
      let! cmdline_str := read_string cmdline_pa in
      let! new_vm_cfg := m_opt ExplicitPanic (VmConfigEntry_new vm_name_str cmdline_str (w 2) (w 5) (w 6) (w 7)) in
      vm_cfg_add_vm_entry new_vm_cfg.

(** src: config/config.rs 643-647 [vm_cfg_del_vm] *)
Definition vm_cfg_del_vm (vmid : Z) : M CS (option Z) := vm_cfg_remove_vm_entry vmid >>; m_ret (Some 0).

(** An edit that cannot fail. *)
Definition edit (vmid : Z) (f : VmConfigEntry -> VmConfigEntry) : M CS (option Z) :=
  vm_cfg_editor vmid (fun e => m_ret (Some 0, f e)).

(** src: config/config.rs 650-663 [vm_cfg_add_mem_region] *)
Definition vm_cfg_add_mem_region (vmid ipa len : Z) : M CS (option Z) := edit vmid (add_memory_cfg ipa len).
(** src: config/config.rs 666-685 [vm_cfg_set_cpu] *)
Definition vm_cfg_set_cpu (vmid num bm master : Z) : M CS (option Z) :=
  vm_cfg_editor vmid (fun e =>
    let! c := m_opt FuelOut (VmCpuConfig_new num bm master) in m_ret (Some 0, with_cpu c e)).

(** The device that a request describes: a mediated disk is a disk that is marked so. *)
Definition emu_device (nm : list Z) (base len irq : Z) (cfgs : list Z) (t : EmuDeviceType) : VmEmulatedDeviceConfig :=
  let med := bool_decide (t = EmuDeviceTVirtioBlkMediated) in
  mkEmu nm base len irq cfgs (if med then EmuDeviceTVirtioBlk else t) med.

(** src: config/config.rs 688-780 [vm_cfg_add_emu_dev] *)
Definition vm_cfg_add_emu_dev (vmid name_ipa base len irq cfg_list_ipa ty : Z) : M CS (option Z) :=
  vm_cfg_editor vmid (fun e =>
    let! name_pa := vm_ipa2pa name_ipa in
    if name_pa =? 0 then m_ret (None, e)
    else
      let! name_str := read_string name_pa in
      let! cfg_list_pa := vm_ipa2pa cfg_list_ipa in
      if cfg_list_pa =? 0 then m_ret (None, e)
      else
        let! cfgs := read_words cfg_list_pa CFG_MAX_NUM CFG_MAX_NUM in
        let! t := m_opt ExplicitPanic (EmuDeviceType_from_usize ty) in
        let e := add_emulated_device_cfg (emu_device name_str base len irq cfgs t) e in
        if bool_decide (t = EmuDeviceTVirtioBlkMediated) then
          let! b := mediated_blk_request in
          match b with
          | Some i => m_ret (Some 0, set_mediated_block_index i e)
          | None => m_ret (None, e)
          end
        else m_ret (Some 0, e)).

(** src: config/config.rs 783-799 [vm_cfg_add_passthrough_device_region] *)
Definition vm_cfg_add_passthrough_device_region (vmid ipa pa len : Z) : M CS (option Z) :=
  edit vmid (add_passthrough_device_region ipa pa len).

(** [vec![0; n]]: the length in bytes must not exceed [isize::MAX]. *)
Definition vec_capacity (n : Z) : M CS unit := if 2 ^ 63 <=? 8 * n then m_fault ExplicitPanic else m_ret tt.

(** src: config/config.rs 802-837 [vm_cfg_add_passthrough_device_irqs] *)
Definition vm_cfg_add_passthrough_device_irqs (vmid irqs_base_ipa irqs_length : Z) : M CS (option Z) :=
  let! pa := vm_ipa2pa irqs_base_ipa in
  if pa =? 0 then m_ret None
  else
    vec_capacity irqs_length >>;
    let! l := read_words pa irqs_length irqs_length in
    edit vmid (add_passthrough_device_irqs l).

(** src: config/config.rs 840-876 [vm_cfg_add_passthrough_device_streams_ids]
    The vector is [vec![0_usize, streams_ids_length]]: two words, 0 and the length. *)
Definition vm_cfg_add_passthrough_device_streams_ids (vmid base_ipa n : Z) : M CS (option Z) :=
  let! pa := vm_ipa2pa base_ipa in
  if pa =? 0 then m_ret None
  else
    let! l := read_words pa n 2 in
    edit vmid (add_passthrough_device_streams_ids (l ++ drop (length l) [0; n])).

(** src: config/config.rs 879-947 [vm_cfg_add_dtb_dev]
    The temporary array is [[0_usize, irq_list_length]]: two words. *)
Definition vm_cfg_add_dtb_dev (vmid name_ipa ty irq_list_ipa n region_ipa region_len : Z) : M CS (option Z) :=
  let! name_pa := vm_ipa2pa name_ipa in
  if name_pa =? 0 then m_ret None
  else
    let! name_str := read_string name_pa in
    let! irq_list_pa := vm_ipa2pa irq_list_ipa in
    if irq_list_pa =? 0 then m_ret None
    else
      let! l := read_words irq_list_pa n 2 in
      let! t := m_opt ExplicitPanic (DtbDevType_from ty) in
      edit vmid (add_dtb_device (mkDtb name_str t l (mkRegion region_ipa region_len))).

(** src: config/config.rs 1017-1044 [vm_cfg_upload_device_tree] *)
Definition vm_cfg_upload_device_tree (vmid img_size cache_ipa load_offset load_size : Z) : M CS (option Z) :=
  let! cache_pa := vm_ipa2pa cache_ipa in
  if cache_pa =? 0 then m_ret None
  else
    let! src := m_gets (fun s => ld_bytes (gmem s) cache_pa (Z.to_nat load_size)) in
    edit vmid (fun e => with_overlay (fdt_overlay e ++ src) e).

(** src: config/config.rs 971-1014 [vm_cfg_upload_kernel_image]
    [init_gvm] makes a VM that does not exist yet ([vmm_init_gvm]). *)
Definition vm_cfg_upload_kernel_image (init_gvm : Z -> M CS unit) (vmid img_size cache_ipa load_offset load_size : Z) : M CS (option Z) :=
  let find s := List.find (fun v : Vm.Vm * VmConfigEntry => Vm.vm_id v.1 =? vmid) (vms s) in
  let! v := m_gets find in
  let! v :=
    match v with
    | Some v => m_ret v
    | None => init_gvm vmid >>; let! v := m_gets find in m_opt ExplicitPanic v
    end in
  let! cache_pa := vm_ipa2pa cache_ipa in
  let! dest_pa := m_opt OutOfBounds (Vm.ipa2pa v.1 (usize (kernel_load_ipa (image v.2) + load_offset))) in
  if cache_pa =? 0 then m_ret None
  else
    m_modify (fun s => with_gmem (memcpy (gmem s) dest_pa cache_pa load_size) s) >>; m_ret (Some 0).

(** src: kernel/hvc.rs 113-124 [the events of HVC_CONFIG] *)
Inductive config_event :=
  | ADD_VM | DELETE_VM | CPU | MEMORY_REGION | EMULATED_DEVICE | PASSTHROUGH_DEVICE_REGION
  | PASSTHROUGH_DEVICE_IRQS | PASSTHROUGH_DEVICE_STREAMS_IDS | DTB_DEVICE | UPLOAD_KERNEL_IMAGE | UPLOAD_DEVICE_TREE.
(** The number 10 (MEMORY_COLOR_BUDGET) has no handler. *)
Definition config_event_of (n : Z) : option config_event :=
  match n with
  | 0 => Some ADD_VM | 1 => Some DELETE_VM | 2 => Some CPU | 3 => Some MEMORY_REGION | 4 => Some EMULATED_DEVICE
  | 5 => Some PASSTHROUGH_DEVICE_REGION | 6 => Some PASSTHROUGH_DEVICE_IRQS | 7 => Some PASSTHROUGH_DEVICE_STREAMS_IDS
  | 8 => Some DTB_DEVICE | 9 => Some UPLOAD_KERNEL_IMAGE | 11 => Some UPLOAD_DEVICE_TREE | _ => None
  end.

(** src: kernel/hvc.rs 232-271 [hvc_config_handler] *)
Definition hvc_config_handler (init_gvm : Z -> M CS unit) (event x0 x1 x2 x3 x4 x5 x6 : Z) : M CS (option Z) :=
  match config_event_of event with
  | None => m_ret None
  | Some ADD_VM => vm_cfg_add_vm x0
  | Some DELETE_VM => vm_cfg_del_vm x0
  | Some CPU => vm_cfg_set_cpu x0 x1 x2 x3
  | Some MEMORY_REGION => vm_cfg_add_mem_region x0 x1 x2
  | Some EMULATED_DEVICE => vm_cfg_add_emu_dev x0 x1 x2 x3 x4 x5 x6
  | Some PASSTHROUGH_DEVICE_REGION => vm_cfg_add_passthrough_device_region x0 x1 x2 x3
  | Some PASSTHROUGH_DEVICE_IRQS => vm_cfg_add_passthrough_device_irqs x0 x1 x2
  | Some PASSTHROUGH_DEVICE_STREAMS_IDS => vm_cfg_add_passthrough_device_streams_ids x0 x1 x2
  | Some DTB_DEVICE => vm_cfg_add_dtb_dev x0 x1 x2 x3 x4 x5 x6
  | Some UPLOAD_KERNEL_IMAGE => vm_cfg_upload_kernel_image init_gvm x0 x1 x2 x3 x4
  | Some UPLOAD_DEVICE_TREE => vm_cfg_upload_device_tree x0 x1 x2 x3 x4
  end.
End hypercalls.
