(* ===== verification/ConfigSpec.v ===== *)
(** * ConfigSpec: theorems about the configuration of VMs

    What a configuration hypercall does to the table, as a step relation; the invariant of the table and its
    refinement of a finite map from ids to entries; the cores a configuration asks for. *)
From stdpp Require Import gmap list.
From S2P Require Import Prelude Bits Bitmap GuestMem Config.
From S2P Require Vm.

(** ** The steps of the table *)

Definition entries_of (s : CS) : list VmConfigEntry := entries (table s).
Definition upd_entries (f : list VmConfigEntry -> list VmConfigEntry) (t : VmConfigTable) : VmConfigTable :=
  mkTable (vm_bitmap t) (vm_num t) (f (entries t)).
Definition has_id (vmid : Z) (e : VmConfigEntry) : Prop := id e = vmid.
#[export] Instance has_id_dec vmid e : Decision (has_id vmid e).
Proof. unfold has_id. apply _. Defined.
Definition disk (e : VmConfigEntry) : option Z := mediated_block_index (image e).

(** An edit of one entry: the disk is the old one, or one that was free and is now taken. *)
Definition edited (s : CS) (e e' : VmConfigEntry) (s' : CS) : Prop :=
  id e' = id e /\
  ((disk e' = disk e /\ s' = s) \/
   exists b, disk e' = Some b /\ zget (blk_avail s) b = Some true /\ s' = with_blk (zset (blk_avail s) b false) s).

Inductive config_step (vmid : Z) (s : CS) : option Z -> CS -> Prop :=
  | step_none : config_step vmid s None s
  | step_add i t e : generate_vm_id (table s) = Some (i, t) -> disk e = None ->
      (i = 0 -> entries_of s = []) ->
      config_step vmid s (Some i) (with_table (mkTable (vm_bitmap t) (usize (vm_num t + 1)) (entries t ++ [with_id i e])) s)
  | step_del_none : Forall (fun e => id e <> vmid) (entries_of s) -> config_step vmid s (Some 0) s
  | step_del k e l : list_find (has_id vmid) (entries_of s) = Some (k, e) ->
      match disk e with Some b => zstore (blk_avail s) b true = Some l | None => l = blk_avail s end ->
      config_step vmid s (Some 0)
        (with_blk l (with_table (mkTable (ba16_clear (vm_bitmap (table s)) vmid) (usize (vm_num (table s) - 1)) (delete k (entries_of s))) s))
  | step_edit r k e e' s1 : list_find (has_id vmid) (entries_of s) = Some (k, e) -> edited s e e' s1 ->
      config_step vmid s r (with_table (upd_entries <[k := e']> (table s)) s1).

Section steps.
Context (vm : Vm.Vm) (fuel : nat).

Lemma reads_words pa n room : m_reads (read_words pa n room).
Proof. unfold read_words. destruct (_ <? _); [apply reads_fault|apply reads_gets]. Qed.
Lemma reads_string pa : m_reads (read_string fuel pa).
Proof.
  intros s a s' E. unfold read_string in E. apply (reads_inv m_get) in E as (x & _ & E); [|apply reads_get].
  apply reads_inv in E as (y & _ & E); [|apply reads_opt]. by apply Ret_inj in E as [_ <-].
Qed.
Lemma reads_ipa ipa : m_reads (vm_ipa2pa vm ipa). Proof. apply reads_opt. Qed.
Lemma reads_capacity n : m_reads (vec_capacity n).
Proof. unfold vec_capacity. destruct (_ <=? _); [apply reads_fault|apply reads_ret]. Qed.

(** What an editor may do. *)
Definition edits (f : VmConfigEntry -> M CS (option Z * VmConfigEntry)) : Prop :=
  forall e s re s', f e s = Ret re s' -> edited s e re.2 s'.

Lemma editor_step vmid f s r s' : edits f -> vm_cfg_editor vmid f s = Ret r s' -> config_step vmid s r s'.
Proof.
  intros Hf E. unfold vm_cfg_editor in E. rewrite (m_bind_Ret m_get _ s s s) in E by done.
  destruct (list_find _ _) as [[k e]|] eqn:Ef; [|apply Ret_inj in E as [<- <-]; apply step_none].
  apply m_bind_inv in E as (re & s1 & E1 & E). apply Hf in E1 as He.
  apply Ret_inj in E as [<- <-].
  assert (table s1 = table s) as -> by (destruct He as [_ [[_ ->]|(b & _ & _ & ->)]]; done).
  by eapply (step_edit vmid s re.1 k e re.2 s1).
Qed.

Lemma edits_pure f : (forall e, id (f e) = id e /\ disk (f e) = disk e) -> edits (fun e => m_ret (Some 0, f e)).
Proof. intros Hf e s re s' [<- <-]%Ret_inj. destruct (Hf e). split; [done|by left]. Qed.

Lemma edit_step vmid f s r s' : (forall e, id (f e) = id e /\ disk (f e) = disk e) ->
  edit vmid f s = Ret r s' -> config_step vmid s r s'.
Proof. intros Hf. apply editor_step. by apply edits_pure. Qed.

Ltac step_read H := let x := fresh "x" in let Ex := fresh "Ex" in
  apply reads_inv in H as (x & Ex & H);
  [|first [apply reads_ipa|apply reads_string|apply reads_words|apply reads_capacity|apply reads_opt|apply reads_gets]].
Ltac step_none_if H := match type of H with (if ?b then m_ret None else _) _ = _ =>
  destruct b; [apply Ret_inj in H as [<- <-]; apply step_none|] end.

Lemma request_edited e e' s r s' : disk e' = disk e -> id e' = id e ->
  mediated_blk_request s = Ret r s' ->
  match r with Some i => edited s e (set_mediated_block_index i e') s' | None => s' = s end.
Proof.
  intros Hd Hi E. unfold mediated_blk_request in E. destruct (list_find _ _) as [[k b]|] eqn:Ef; apply Ret_inj in E as [<- <-]; [|done].
  apply list_find_Some in Ef as (Hk & -> & _). split; [done|]. right. exists (Z.of_nat k). split; [done|].
  unfold zget, zset. rewrite (proj2 (Z.leb_le 0 _)) by lia. by rewrite !Nat2Z.id.
Qed.

Lemma add_emu_dev_step vmid a1 a2 a3 a4 a5 a6 s r s' :
  vm_cfg_add_emu_dev vm fuel vmid a1 a2 a3 a4 a5 a6 s = Ret r s' -> config_step vmid s r s'.
Proof.
  apply editor_step. clear s r s'. intros e s re s' E.
  assert (edited s e e s) as Hsame by (split; [done|by left]).
  step_read E. destruct (_ =? 0); [by apply Ret_inj in E as [<- <-]|].
  step_read E. step_read E. destruct (_ =? 0); [by apply Ret_inj in E as [<- <-]|].
  step_read E. step_read E. cbv zeta in E.
  set (e1 := add_emulated_device_cfg _ e) in E.
  destruct (bool_decide _); [|apply Ret_inj in E as [<- <-]; split; [done|by left]].
  apply m_bind_inv in E as (i & s1 & E1 & E). apply (request_edited e e1) in E1; [|done..].
  destruct i as [i|]; apply Ret_inj in E as [<- <-]; [done|]. subst s1. split; [done|by left].
Qed.

Lemma add_vm_step vmid a s r s' : vm_cfg_add_vm vm fuel a s = Ret r s' -> config_step vmid s r s'.
Proof.
  intros E. unfold vm_cfg_add_vm in E. do 3 step_read E. step_none_if E. do 2 step_read E. step_none_if E.
  step_read E. apply reads_inv in E as (e & Ee & E); [|apply reads_opt].
  assert (disk e = None) as Hd.
  { unfold VmConfigEntry_new in Ee. destruct (VmType_from _); [|done]. by apply Ret_inj in Ee as [<- _]. }
  unfold vm_cfg_add_vm_entry in E. destruct (generate_vm_id (table s)) as [[i t]|] eqn:Eg;
    [|apply Ret_inj in E as [<- <-]; apply step_none].
  destruct (_ && _) eqn:Ei in E; [done|]. apply Ret_inj in E as [<- <-]. apply step_add; [done|done|].
  intros ->. rewrite Z.eqb_refl in Ei. cbn [andb] in Ei. apply orb_false_iff in Ei as [Ei _].
  apply negb_false_iff, Z.eqb_eq in Ei. unfold entries_of. unfold generate_vm_id in Eg. destruct (List.find _ _); [|done].
  injection Eg as _ <-. cbn [entries] in Ei. unfold zlen in Ei. destruct (entries (table s)); [done|cbn [length] in Ei; lia].
Qed.

Lemma del_vm_step vmid s r s' : vm_cfg_del_vm vmid s = Ret r s' -> config_step vmid s r s'.
Proof.
  intros E. unfold vm_cfg_del_vm, vm_cfg_remove_vm_entry in E. apply m_bind_inv in E as ([] & s1 & E1 & E).
  apply Ret_inj in E as [<- <-]. rewrite (m_bind_Ret m_get _ s s s) in E1 by done.
  destruct (list_find _ _) as [[k e]|] eqn:Ef.
  2:{ apply Ret_inj in E1 as [_ <-]. apply step_del_none. by apply list_find_None in Ef. }
  set (s0 := with_table _ s) in E1. rewrite (m_bind_Ret (m_put s0) _ s tt s0) in E1 by done.
  assert (exists l, s1 = with_blk l (with_table (mkTable (ba16_clear (vm_bitmap (table s)) vmid) (usize (vm_num (table s) - 1)) (delete k (entries_of s))) s)
    /\ match disk e with Some b => zstore (blk_avail s) b true = Some l | None => l = blk_avail s end) as (l & -> & Hl);
    [|by eapply step_del].
  unfold disk in *. destruct (mediated_block_index (image e)) as [b|].
  - apply m_bind_inv in E1 as ([] & s2 & E2 & E1). unfold mediated_blk_free in E2.
    destruct (zstore _ _ _) as [l|] eqn:Ez in E2; [|done]. apply Ret_inj in E2 as [_ <-].
    apply Ret_inj in E1 as [_ <-]. by exists l.
  - rewrite m_bind_ret in E1. apply Ret_inj in E1 as [_ <-]. exists (blk_avail s). split; [by destruct s|done].
Qed.

Lemma handler_step init event x0 x1 x2 x3 x4 x5 x6 s r s' : config_event_of event <> Some UPLOAD_KERNEL_IMAGE ->
  hvc_config_handler vm fuel init event x0 x1 x2 x3 x4 x5 x6 s = Ret r s' -> config_step x0 s r s'.
Proof.
  intros Hn E. unfold hvc_config_handler in E.
  destruct (config_event_of event) as [[]|]; [..|apply Ret_inj in E as [<- <-]; apply step_none]; try done.
  - by eapply add_vm_step.
  - by apply del_vm_step.
  - revert E. apply editor_step. intros e s1 re s2 E. step_read E. apply Ret_inj in E as [<- <-]. split; [done|by left].
  - by apply edit_step in E.
  - by eapply add_emu_dev_step.
  - by apply edit_step in E.
  - unfold vm_cfg_add_passthrough_device_irqs in E. step_read E. step_none_if E. do 2 step_read E. by apply edit_step in E.
  - unfold vm_cfg_add_passthrough_device_streams_ids in E. step_read E. step_none_if E. step_read E. by apply edit_step in E.
  - unfold vm_cfg_add_dtb_dev in E. step_read E. step_none_if E. do 2 step_read E. step_none_if E. do 2 step_read E. by apply edit_step in E.
  - unfold vm_cfg_upload_device_tree in E. step_read E. step_none_if E. step_read E. by apply edit_step in E.
Qed.
End steps.

(** ** The invariant, and the table as a map *)

Definition ids (l : list VmConfigEntry) : list Z := id <$> l.

Record table_ok (s : CS) : Prop := {
  ok_wf : ba_wf (vm_bitmap (table s));
  ok_ids : NoDup (ids (entries_of s));
  ok_bits : forall i, 0 <= i < VM_NUM_MAX -> ba16_get (vm_bitmap (table s)) i = if decide (i ∈ ids (entries_of s)) then 1 else 0;
  ok_range : forall e, e ∈ entries_of s -> 0 <= id e < VM_NUM_MAX;
  ok_num : vm_num (table s) = zlen (entries_of s);
  ok_disk : forall e b, e ∈ entries_of s -> disk e = Some b -> zget (blk_avail s) b = Some false;
  ok_disks : forall e e' b, e ∈ entries_of s -> e' ∈ entries_of s -> disk e = Some b -> disk e' = Some b -> id e = id e';
}.

Definition as_map (l : list VmConfigEntry) : gmap Z VmConfigEntry := list_to_map ((fun e => (id e, e)) <$> l).
Definition abs (s : CS) : gmap Z VmConfigEntry := as_map (entries_of s).

Lemma as_map_lookup l i e : NoDup (ids l) -> as_map l !! i = Some e <-> e ∈ l /\ id e = i.
Proof.
  intros Hn. unfold as_map. rewrite <- elem_of_list_to_map.
  - rewrite list_elem_of_fmap. split; [by intros (x & [= -> ->] & ?)|]. intros [? <-]. by exists e.
  - rewrite <- list_fmap_compose. done.
Qed.

Lemma map_ext {A} (m1 m2 : gmap Z A) : (forall i x, m1 !! i = Some x <-> m2 !! i = Some x) -> m1 = m2.
Proof. intros H. apply map_eq. intros i. apply option_eq. intros x. apply H. Qed.

Lemma ids_at (l : list VmConfigEntry) k e : l !! k = Some e -> ids l !! k = Some (id e).
Proof. intros E. unfold ids. by rewrite list_lookup_fmap, E. Qed.

Lemma ids_edit l k e e' : l !! k = Some e -> id e' = id e -> ids (<[k := e']> l) = ids l.
Proof. intros E Hi. unfold ids. rewrite list_fmap_insert, Hi. apply list_insert_id. by apply ids_at. Qed.

Lemma elem_edit l k e e' x : NoDup (ids l) -> l !! k = Some e -> id e' = id e ->
  x ∈ <[k := e']> l <-> x = e' \/ (x ∈ l /\ id x <> id e).
Proof.
  intros Hn E Hi. pose proof (lookup_lt_Some _ _ _ E) as Hk. rewrite list_elem_of_lookup. split.
  - intros [j Hj]. destruct (decide (j = k)) as [->|Hne].
    + rewrite list_lookup_insert_eq in Hj by done. injection Hj as <-. by left.
    + rewrite list_lookup_insert_ne in Hj by done. right. split; [by eapply list_elem_of_lookup_2|].
      intros Hx. apply Hne. eapply NoDup_lookup; [exact Hn|by apply ids_at|]. rewrite Hx. by apply ids_at.
  - intros [->|[Hx Hne]]; [exists k; by apply list_lookup_insert_eq|].
    apply list_elem_of_lookup in Hx as [j Hj]. exists j. rewrite list_lookup_insert_ne; [done|]. intros ->. congruence.
Qed.

Lemma perm_delete (l : list VmConfigEntry) k e : l !! k = Some e -> l ≡ₚ e :: delete k l.
Proof. apply delete_Permutation. Qed.

Lemma ids_delete l k e : NoDup (ids l) -> l !! k = Some e -> NoDup (ids (delete k l)) /\
  forall x, x ∈ delete k l <-> x ∈ l /\ id x <> id e.
Proof.
  intros Hn E. pose proof (perm_delete l k e E) as Hp.
  assert (NoDup (id e :: ids (delete k l))) as Hn'.
  { change (NoDup (ids (e :: delete k l))). unfold ids. by rewrite <- Hp. }
  apply list.NoDup_cons in Hn' as [Hni Hn']. split; [done|]. intros x.
  assert (x ∈ l <-> x ∈ e :: delete k l) as -> by (by rewrite <- Hp). rewrite elem_of_cons. split.
  - intros Hx. split; [by right|]. intros Hi. apply Hni. rewrite <- Hi. apply list_elem_of_fmap. eauto.
  - intros [[->|Hx] Hne]; done.
Qed.

Lemma find_id vmid s k e : list_find (has_id vmid) (entries_of s) = Some (k, e) -> entries_of s !! k = Some e /\ id e = vmid.
Proof. intros (E & Hi & _)%list_find_Some. done. Qed.

(** What a step does to the map: nothing, a new entry at the lowest free id, a deletion, or the change of
    the entry that was named. *)
Inductive map_step (vmid : Z) (m : gmap Z VmConfigEntry) : option Z -> gmap Z VmConfigEntry -> Prop :=
  | map_none : map_step vmid m None m
  | map_add i e : 0 <= i < VM_NUM_MAX -> m !! i = None -> (forall j, 0 <= j < i -> is_Some (m !! j)) ->
      (i = 0 -> m = ∅) -> id e = i -> map_step vmid m (Some i) (<[i := e]> m)
  | map_del : map_step vmid m (Some 0) (delete vmid m)
  | map_edit r e e' : m !! vmid = Some e -> id e' = vmid -> map_step vmid m r (<[vmid := e']> m).

Lemma generate_lowest s i t : table_ok s -> generate_vm_id (table s) = Some (i, t) ->
  0 <= i < VM_NUM_MAX /\ (i ∉ ids (entries_of s)) /\ (forall j, 0 <= j < i -> j ∈ ids (entries_of s)) /\
  t = mkTable (ba16_set (vm_bitmap (table s)) i) (vm_num (table s)) (entries_of s).
Proof.
  intros Hok E. unfold generate_vm_id in E. destruct (List.find _ _) as [i'|] eqn:Ef; [|done]. injection E as -> <-.
  apply find_first in Ef as (k & Hk & Hz & Hlow). apply Z.eqb_eq in Hz.
  pose proof (lookup_lt_Some _ _ _ Hk) as Hl. rewrite length_zrange in Hl. rewrite zrange_lookup in Hk by done. injection Hk as <-.
  unfold VM_NUM_MAX in *. assert (0 <= 0 + Z.of_nat k < 8) as Hr by lia.
  split; [done|]. split.
  { intros Hin. rewrite (ok_bits s Hok) in Hz by done. by rewrite decide_True in Hz. }
  split; [|done]. intros j Hj. specialize (Hlow (Z.to_nat j) j ltac:(lia)).
  rewrite zrange_lookup in Hlow by lia. specialize (Hlow ltac:(f_equal; lia)). apply Z.eqb_neq in Hlow.
  rewrite (ok_bits s Hok) in Hlow by (unfold VM_NUM_MAX; lia). by destruct (decide _).
Qed.

Lemma ba16_set_get m i j : ba_wf m -> 0 <= i < 16 -> 0 <= j < 16 -> ba16_get (ba16_set m i) j = if decide (i = j) then 1 else ba16_get m j.
Proof.
  intros Hm Hi Hj. destruct (set_law m i Hm Hi) as (m' & [= <-] & _ & Hg). specialize (Hg j Hj).
  cbn [ba_get BitAlloc16_BitAlloc] in Hg. destruct (decide (i = j)); by injection Hg.
Qed.
Lemma ba16_clear_get m i j : ba_wf m -> 0 <= i < 16 -> 0 <= j < 16 -> ba16_get (ba16_clear m i) j = if decide (i = j) then 0 else ba16_get m j.
Proof.
  intros Hm Hi Hj. destruct (clear_law m i Hm Hi) as (m' & [= <-] & _ & Hg). specialize (Hg j Hj).
  cbn [ba_get BitAlloc16_BitAlloc] in Hg. destruct (decide (i = j)); by injection Hg.
Qed.
Lemma ba16_set_wf (m : BitAlloc16) i : ba_wf m -> 0 <= i < 16 -> ba_wf (ba16_set m i).
Proof. intros Hm Hi. by destruct (set_law m i Hm Hi) as (m' & [= <-] & ? & _). Qed.
Lemma ba16_clear_wf (m : BitAlloc16) i : ba_wf m -> 0 <= i < 16 -> ba_wf (ba16_clear m i).
Proof. intros Hm Hi. by destruct (clear_law m i Hm Hi) as (m' & [= <-] & ? & _). Qed.

Lemma ids_length l : NoDup (ids l) -> (forall e, e ∈ l -> 0 <= id e < VM_NUM_MAX) -> zlen l <= VM_NUM_MAX.
Proof.
  intros Hn Hr. assert (length (ids l) <= length (zrange 0 8))%nat as Hl.
  { apply submseteq_length, NoDup_submseteq; [done|]. intros i (e & -> & He)%list_elem_of_fmap.
    apply zrange_elem. specialize (Hr e He). unfold VM_NUM_MAX in Hr. lia. }
  unfold ids in Hl. rewrite length_fmap, length_zrange in Hl. unfold zlen, VM_NUM_MAX. lia.
Qed.

(** *** Each step keeps the invariant *)

Lemma add_ok s i t e : table_ok s -> generate_vm_id (table s) = Some (i, t) -> disk e = None ->
  table_ok (with_table (mkTable (vm_bitmap t) (usize (vm_num t + 1)) (entries t ++ [with_id i e])) s).
Proof.
  intros Hok Eg Hd. destruct (generate_lowest s i t Hok Eg) as (Hi & Hni & _ & ->).
  assert (NoDup (ids (entries_of s ++ [with_id i e]))) as Hn.
  { unfold ids. rewrite fmap_app. apply list.NoDup_app. split; [apply Hok|]. split; [|apply NoDup_singleton].
    intros x Hx Hx'. apply list_elem_of_singleton in Hx' as ->. done. }
  assert (forall x, x ∈ entries_of s ++ [with_id i e] -> 0 <= id x < VM_NUM_MAX) as Hr.
  { intros x [Hx| ->%list_elem_of_singleton]%elem_of_app; [by apply Hok|done]. }
  constructor; cbn [table with_table vm_bitmap vm_num entries entries_of blk_avail] in *.
  - apply ba16_set_wf; [apply Hok|unfold VM_NUM_MAX in Hi; lia].
  - done.
  - intros j Hj. unfold VM_NUM_MAX in *. rewrite ba16_set_get by (apply Hok || lia). unfold ids. cbn [entries_of table entries].
    rewrite fmap_app. rewrite (ok_bits s Hok) by (unfold VM_NUM_MAX; lia).
    destruct (decide (i = j)) as [->|Hne].
    + rewrite decide_True; [done|]. apply elem_of_app. right. by apply list_elem_of_singleton.
    + apply decide_ext. unfold ids. rewrite elem_of_app. split; [by left|]. intros [?|Hx]; [done|].
      apply list_elem_of_singleton in Hx. cbn in Hx. congruence.
  - done.
  - rewrite (ok_num s Hok). pose proof (ids_length _ Hn Hr) as Hl. rewrite zlen_app in *. change (zlen [with_id i e]) with 1 in *.
    pose proof (zlen_nonneg (entries_of s)). unfold VM_NUM_MAX in Hl. apply wrap_small. unfold in_word. lia.
  - intros x b [Hx| ->%list_elem_of_singleton]%elem_of_app Hb; [by eapply (ok_disk s Hok)|]. unfold disk in *. cbn in Hb. congruence.
  - intros x y b Hx Hy Hb Hb'.
    apply elem_of_app in Hx as [Hx|Hx]; [|apply list_elem_of_singleton in Hx as ->; unfold disk in *; cbn in Hb; congruence].
    apply elem_of_app in Hy as [Hy|Hy]; [|apply list_elem_of_singleton in Hy as ->; unfold disk in *; cbn in Hb'; congruence].
    by eapply (ok_disks s Hok).
Qed.

Lemma del_ok s vmid k e l : table_ok s -> list_find (has_id vmid) (entries_of s) = Some (k, e) ->
  match disk e with Some b => zstore (blk_avail s) b true = Some l | None => l = blk_avail s end ->
  table_ok (with_blk l (with_table (mkTable (ba16_clear (vm_bitmap (table s)) vmid) (usize (vm_num (table s) - 1)) (delete k (entries_of s))) s)).
Proof.
  intros Hok Ef Hl. destruct (find_id vmid s k e Ef) as [Ek <-].
  destruct (ids_delete _ k e (ok_ids s Hok) Ek) as [Hn Hin].
  assert (e ∈ entries_of s) as He by (by eapply list_elem_of_lookup_2).
  pose proof (ok_range s Hok e He) as Hr. unfold VM_NUM_MAX in Hr.
  constructor; cbn [table with_table with_blk vm_bitmap vm_num entries entries_of blk_avail].
  - apply ba16_clear_wf; [apply Hok|lia].
  - done.
  - intros j Hj. unfold VM_NUM_MAX in *. rewrite ba16_clear_get by (apply Hok || lia).
    rewrite (ok_bits s Hok) by (unfold VM_NUM_MAX; lia). unfold ids. destruct (decide (id e = j)) as [<-|Hne].
    + rewrite decide_False; [done|]. intros (x & Hx & Hx')%list_elem_of_fmap. apply Hin in Hx'. by destruct Hx'.
    + apply decide_ext. rewrite !list_elem_of_fmap. split; intros (x & -> & Hx); exists x; (split; [done|]).
      * apply Hin. split; [done|]. congruence.
      * by apply Hin in Hx as [? _].
  - intros x [Hx _]%Hin. by apply (ok_range s Hok).
  - rewrite (ok_num s Hok). pose proof (ids_length _ (ok_ids s Hok) (ok_range s Hok)) as Hle.
    pose proof (Permutation_length (perm_delete _ k e Ek)) as Hpl. cbn [length] in Hpl. unfold zlen, VM_NUM_MAX in *.
    rewrite wrap_small; [lia|]. unfold in_word. lia.
  - intros x b [Hx Hne]%Hin Hb. pose proof (ok_disk s Hok x b Hx Hb) as Ha. destruct (disk e) as [b'|] eqn:Ed; [|by subst l].
    unfold zstore in Hl. destruct (in_bounds _ _); [|done]. injection Hl as <-. rewrite zget_zset_ne; [done|].
    intros ->. apply Hne. by eapply (ok_disks s Hok).
  - intros x y b [Hx _]%Hin [Hy _]%Hin. by apply (ok_disks s Hok).
Qed.

Lemma edit_ok s vmid k e e' s1 : table_ok s -> list_find (has_id vmid) (entries_of s) = Some (k, e) -> edited s e e' s1 ->
  table_ok (with_table (upd_entries <[k := e']> (table s)) s1).
Proof.
  intros Hok Ef [Hi Hd]. destruct (find_id vmid s k e Ef) as [Ek <-].
  assert (e ∈ entries_of s) as He by (by eapply list_elem_of_lookup_2).
  pose proof (fun x => elem_edit _ k e e' x (ok_ids s Hok) Ek Hi) as Hin.
  assert (ids (<[k := e']> (entries_of s)) = ids (entries_of s)) as Hids by (by apply (ids_edit _ k e)).
  unfold entries_of in *. constructor; cbn [table with_table vm_bitmap vm_num entries entries_of blk_avail upd_entries] in *.
  - apply Hok.
  - rewrite Hids. apply Hok.
  - intros j Hj. rewrite Hids. by apply (ok_bits s Hok).
  - intros x [->|[Hx _]]%Hin; [rewrite Hi|]; by apply (ok_range s Hok).
  - unfold zlen. rewrite length_insert. apply Hok.
  - intros x b Hx Hb. destruct Hd as [[Hd ->]|(b' & Hd & Hfree & ->)]; cbn [blk_avail with_blk].
    + apply Hin in Hx as [->|[Hx _]]; [rewrite Hd in Hb|]; by eapply (ok_disk s Hok).
    + pose proof (zget_Some_bounds _ _ _ Hfree). apply Hin in Hx as [->|[Hx _]].
      * rewrite Hd in Hb. injection Hb as <-. by apply zget_zset_eq.
      * pose proof (ok_disk s Hok x b Hx Hb) as Ha. rewrite zget_zset_ne; [done|]. intros ->. congruence.
  - intros x y b Hx Hy Hbx Hby. apply Hin in Hx as [->|[Hx Hnx]], Hy as [->|[Hy Hny]]; [done| | |by eapply (ok_disks s Hok)].
    + destruct Hd as [[Hd ->]|(b' & Hd & Hfree & ->)].
      * rewrite Hi. rewrite Hd in Hbx. by eapply (ok_disks s Hok).
      * rewrite Hd in Hbx. injection Hbx as ->. pose proof (ok_disk s Hok y b Hy Hby). congruence.
    + destruct Hd as [[Hd ->]|(b' & Hd & Hfree & ->)].
      * rewrite Hi. rewrite Hd in Hby. by eapply (ok_disks s Hok).
      * rewrite Hd in Hby. injection Hby as ->. pose proof (ok_disk s Hok x b Hx Hbx). congruence.
Qed.

Lemma step_refines vmid s r s' : table_ok s -> config_step vmid s r s' ->
  table_ok s' /\ map_step vmid (abs s) r (abs s').
Proof.
  intros Hok H. assert (table_ok s') as Hok'.
  { destruct H; [done|by apply add_ok|done|by apply (del_ok s vmid k e)|by eapply edit_ok]. }
  split; [done|]. pose proof (fun i x => as_map_lookup (entries_of s) i x (ok_ids s Hok)) as L.
  pose proof (fun i x => as_map_lookup (entries_of s') i x (ok_ids s' Hok')) as L'.
  change (as_map (entries_of s)) with (abs s) in L. change (as_map (entries_of s')) with (abs s') in L'.
  destruct H as [|i t e Eg Hd H0|Hf|k e l Ef Hl|r k e e' s1 Ef He].
  - apply map_none.
  - destruct (generate_lowest s i t Hok Eg) as (Hi & Hni & Hlow & ->).
    replace (abs (with_table _ s)) with (<[i := with_id i e]> (abs s)).
    + apply map_add; [done| | |intros Hz; unfold abs; by rewrite (H0 Hz)|done].
      * apply eq_None_not_Some. intros [x Hx]. apply L in Hx as [Hx <-]. apply Hni. apply list_elem_of_fmap. eauto.
      * intros j Hj. apply Hlow in Hj. apply list_elem_of_fmap in Hj as (x & -> & Hx). exists x. by apply L.
    + apply map_ext. intros j x. rewrite L', lookup_insert_Some, L. cbn [entries_of table with_table entries].
      rewrite elem_of_app, list_elem_of_singleton. symmetry. split.
      * intros [[Hx| ->] <-]; [|by left].
        right. split; [|done]. intros ->. apply Hni. apply list_elem_of_fmap. eauto.
      * intros [[<- <-]|(Hne & Hx & <-)]; [split; [by right|done]|split; [by left|done]].
  - replace (abs s) with (delete vmid (abs s)) at 2; [apply map_del|]. apply delete_id.
    apply eq_None_not_Some. intros [x Hx]. apply L in Hx as [Hx <-]. rewrite list.Forall_forall in Hf. by apply (Hf x Hx).
  - replace (abs (with_blk _ _)) with (delete vmid (abs s)); [apply map_del|]. apply map_ext. intros j x.
    rewrite L', lookup_delete_Some, L. cbn [entries_of table with_table with_blk entries].
    destruct (find_id vmid s k e Ef) as [Ek <-]. rewrite (proj2 (ids_delete _ k e (ok_ids s Hok) Ek)).
    split; [intros (? & ? & <-); split; [by split|done]|intros [[? ?] <-]; done].
  - destruct (find_id vmid s k e Ef) as [Ek <-]. destruct He as [Hi _].
    replace (abs (with_table _ s1)) with (<[id e := e']> (abs s)).
    + apply (map_edit _ _ r e e'); [|done]. apply L. split; [by eapply list_elem_of_lookup_2|done].
    + apply map_ext. intros j x. rewrite L', lookup_insert_Some, L. cbn [entries_of table with_table upd_entries entries].
      change (entries (table s)) with (entries_of s). rewrite (elem_edit _ k e e' x (ok_ids s Hok) Ek Hi).
      symmetry. split; [intros [[->|[? ?]] <-]; [by left|by right]|intros [[<- <-]|(? & ? & <-)]; [by split; [left|]|by split; [right|]]].
Qed.

Section claims.
Context (vm : Vm.Vm) (fuel : nat) (init_gvm : Z -> M CS unit).
(** The construction of a VM leaves the table and the disks alone. *)
Context (Hinit : forall i s s', init_gvm i s = Ret tt s' -> table s' = table s /\ blk_avail s' = blk_avail s).

Lemma upload_same a1 a2 a3 a4 a5 s r s' :
  vm_cfg_upload_kernel_image vm init_gvm a1 a2 a3 a4 a5 s = Ret r s' -> table s' = table s /\ blk_avail s' = blk_avail s.
Proof.
  intros E. unfold vm_cfg_upload_kernel_image in E. apply reads_inv in E as (v & Ev & E); [|apply reads_gets].
  apply m_bind_inv in E as (w & s1 & E1 & E).
  assert (table s1 = table s /\ blk_avail s1 = blk_avail s) as [<- <-].
  { destruct v as [v|]; [by apply Ret_inj in E1 as [_ <-]|].
    apply m_bind_inv in E1 as ([] & s2 & E2 & E1). apply reads_inv in E1 as (x & _ & E1); [|apply reads_gets].
    pose proof (reads_opt _ _ _ _ _ E1) as ->. by eapply Hinit. }
  apply reads_inv in E as (cp & _ & E); [|apply reads_ipa]. apply reads_inv in E as (dp & _ & E); [|apply reads_opt].
  destruct (_ =? 0); by apply Ret_inj in E as [_ <-].
Qed.

(** C30. The configuration table is a map from VM ids to configurations, whatever hypercall a guest makes: a
    call either leaves the map alone, or adds one entry at the lowest free id below 8, or deletes
    the named entry, or replaces the named entry and no other.  The invariant is kept:
    ids are unique and are the set bits of the bitmap, the counter of VMs is the number of entries, and
    every disk that an entry has is taken and belongs to no other entry. *)
Theorem config_table_refines_map event x0 x1 x2 x3 x4 x5 x6 s r s' :
  table_ok s -> hvc_config_handler vm fuel init_gvm event x0 x1 x2 x3 x4 x5 x6 s = Ret r s' ->
  table_ok s' /\
  (map_step x0 (abs s) r (abs s') \/ (config_event_of event = Some UPLOAD_KERNEL_IMAGE /\ abs s' = abs s)).
Proof.
  intros Hok E. destruct (decide (event = 9)) as [->|Hne].
  - apply (upload_same x0 x1 x2 x3 x4) in E as [Et Eb]. split; [|right; split; [done|unfold abs, entries_of; by rewrite Et]].
    destruct Hok. unfold entries_of in *. by constructor; unfold entries_of; rewrite ?Et, ?Eb.
  - apply handler_step in E.
    + destruct (step_refines x0 s r s' Hok E). auto.
    + intros He. apply Hne. unfold config_event_of in He. clear E. repeat case_match; done.
Qed.

Lemma edit_none vmid f s s' : edit vmid f s = Ret None s' -> s' = s.
Proof.
  unfold edit, vm_cfg_editor. rewrite (m_bind_Ret m_get _ s s s) by done. destruct (list_find _ _) as [[k e]|]; [done|].
  by intros [_ <-]%Ret_inj.
Qed.

Ltac none_read E := apply reads_inv in E as (? & ? & E);
  [|first [apply reads_ipa|apply reads_string|apply reads_words|apply reads_capacity|apply reads_opt|apply reads_gets]].
Ltac none_if E := match type of E with (if ?b then m_ret None else _) _ = _ =>
  destruct b; [apply Ret_inj in E as [_ <-]; by left|] end.

Lemma emu_type_mediated v : EmuDeviceType_from_usize v = Some EmuDeviceTVirtioBlkMediated -> v = 7.
Proof.
  unfold EmuDeviceType_from_usize. destruct v as [|p|p]; [done| |done].
  do 4 (destruct p as [p|p|]; try done).
Qed.

Lemma add_emu_dev_none vmid a1 a2 a3 a4 a5 a6 s s' : vm_cfg_add_emu_dev vm fuel vmid a1 a2 a3 a4 a5 a6 s = Ret None s' ->
  s' = s \/ (a6 = 7 /\ Forall (fun b => b <> true) (blk_avail s) /\
    exists k e d, list_find (has_id vmid) (entries_of s) = Some (k, e) /\ mediated d = true /\
      s' = with_table (upd_entries <[k := add_emulated_device_cfg d e]> (table s)) s).
Proof.
  intros E. unfold vm_cfg_add_emu_dev, vm_cfg_editor in E. rewrite (m_bind_Ret m_get _ s s s) in E by done.
  destruct (list_find _ _) as [[k e]|] eqn:Ef; [|apply Ret_inj in E as [_ <-]; by left].
  assert (forall s1, table s1 = table s -> list_find (has_id vmid) (entries_of s) = Some (k, e) ->
    with_table (upd_entries <[k := e]> (table s1)) s = s) as Hsame.
  { intros s1 -> (Hk & _)%list_find_Some. unfold upd_entries. rewrite list_insert_id by done. by destruct s as [[]]. }
  apply m_bind_inv in E as (re & s1 & E1 & E). apply Ret_inj in E as [Hr <-].
  none_read E1. destruct (_ =? 0); [apply Ret_inj in E1 as [<- <-]; left; by apply Hsame|].
  do 2 none_read E1. destruct (_ =? 0); [apply Ret_inj in E1 as [<- <-]; left; by apply Hsame|].
  none_read E1. apply reads_inv in E1 as (t & Et & E1); [|apply reads_opt]. cbv zeta in E1.
  destruct (bool_decide (t = EmuDeviceTVirtioBlkMediated)) eqn:Eb; [|apply Ret_inj in E1 as [<- _]; done].
  apply bool_decide_eq_true in Eb as ->. apply m_bind_inv in E1 as (b & s2 & E2 & E1). unfold mediated_blk_request in E2.
  destruct (list_find (fun b => b = true) (blk_avail s)) as [[j ?]|] eqn:Ea; apply Ret_inj in E2 as [<- <-];
    apply Ret_inj in E1 as [<- <-]; [done|]. right. split; [|split; [exact (proj1 (list_find_None _ _) Ea)|]].
  - apply emu_type_mediated. destruct (EmuDeviceType_from_usize a6); [|done]. by apply Ret_inj in Et as [-> _].
  - eexists k, e, _. split; [done|]. split; [|reflexivity]. done.
Qed.

(** A configuration call that reports an error has changed nothing, with one exception: when a
    mediated disk is asked for and none is free, the error comes after the device was added, and the entry
    keeps a mediated disk without a disk behind it. *)
Theorem config_error_leaves_table event x0 x1 x2 x3 x4 x5 x6 s s' : config_event_of event <> Some UPLOAD_KERNEL_IMAGE ->
  hvc_config_handler vm fuel init_gvm event x0 x1 x2 x3 x4 x5 x6 s = Ret None s' ->
  s' = s \/ (config_event_of event = Some EMULATED_DEVICE /\ x6 = 7 /\ Forall (fun b => b <> true) (blk_avail s) /\
    exists k e d, list_find (has_id x0) (entries_of s) = Some (k, e) /\ mediated d = true /\
      s' = with_table (upd_entries <[k := add_emulated_device_cfg d e]> (table s)) s).
Proof.
  intros Hn E. unfold hvc_config_handler in E.
  destruct (config_event_of event) as [[]|]; [..|apply Ret_inj in E as [_ <-]; by left]; try done.
  - left. unfold vm_cfg_add_vm in E. do 3 none_read E. destruct (_ =? 0); [by apply Ret_inj in E as [_ <-]|].
    do 2 none_read E. destruct (_ =? 0); [by apply Ret_inj in E as [_ <-]|]. do 2 none_read E.
    unfold vm_cfg_add_vm_entry in E. destruct (generate_vm_id _) as [[i t]|]; [|by apply Ret_inj in E as [_ <-]].
    by destruct (_ && _) in E.
  - unfold vm_cfg_del_vm in E. by apply m_bind_inv in E as (? & ? & _ & E).
  - left. unfold vm_cfg_set_cpu, vm_cfg_editor in E. rewrite (m_bind_Ret m_get _ s s s) in E by done.
    destruct (list_find _ _) as [[k e]|]; [|by apply Ret_inj in E as [_ <-]].
    apply m_bind_inv in E as (re & s1 & E1 & E). none_read E1. apply Ret_inj in E1 as [<- _]. done.
  - left. by apply edit_none in E.
  - apply add_emu_dev_none in E as [->|(-> & ? & ?)]; [by left|]. right. by split.
  - left. by apply edit_none in E.
  - unfold vm_cfg_add_passthrough_device_irqs in E. none_read E. none_if E. do 2 none_read E. left. by apply edit_none in E.
  - unfold vm_cfg_add_passthrough_device_streams_ids in E. none_read E. none_if E. none_read E. left. by apply edit_none in E.
  - unfold vm_cfg_add_dtb_dev in E. none_read E. none_if E. do 2 none_read E. none_if E. do 2 none_read E. left. by apply edit_none in E.
  - unfold vm_cfg_upload_device_tree in E. none_read E. none_if E. none_read E. left. by apply edit_none in E.
Qed.

End claims.

(** ** The cores of a configuration *)

(** The set bits of [x] below [k]. *)
Definition bits_below (x : Z) (k : nat) : list Z := filter (fun i => Z.testbit x i = true) (zrange 0 k).

Lemma bits_below_S x k : bits_below x (S k) = bits_below x k ++ (if Z.testbit x (Z.of_nat k) then [Z.of_nat k] else []).
Proof.
  unfold bits_below. rewrite zrange_S, list.filter_app, Z.add_0_l. f_equal. rewrite filter_cons, filter_nil.
  destruct (Z.testbit x (Z.of_nat k)); [by rewrite decide_True|by rewrite decide_False].
Qed.

Lemma zlen_bits_S x k : zlen (bits_below x (S k)) = zlen (bits_below x k) + (if Z.testbit x (Z.of_nat k) then 1 else 0).
Proof. rewrite bits_below_S, zlen_app. by destruct (Z.testbit _ _). Qed.

Lemma elem_bits x k i : i ∈ bits_below x k <-> 0 <= i < Z.of_nat k /\ Z.testbit x i = true.
Proof. unfold bits_below. rewrite list_elem_of_filter, zrange_elem. intuition lia. Qed.

Lemma bits_NoDup x k : NoDup (bits_below x k).
Proof. apply list.NoDup_filter, zrange_NoDup. Qed.

Lemma bits_mono x k n : (k <= n)%nat -> zlen (bits_below x k) <= zlen (bits_below x n).
Proof.
  intros Hk. induction Hk as [|n Hk IH]; [lia|]. rewrite zlen_bits_S. destruct (Z.testbit _ _); lia.
Qed.

(** Above the highest bit there is nothing left to count. *)
Lemma bits_above x k n : 0 <= x < 2 ^ Z.of_nat k -> (k <= n)%nat -> zlen (bits_below x n) = zlen (bits_below x k).
Proof.
  intros Hx Hk. induction Hk as [|n Hk IH]; [done|]. rewrite zlen_bits_S, IH.
  rewrite (testbit_high (Z.of_nat k)); [lia| |lia]. done.
Qed.

Lemma cpu_index_spec fuel bm : in_word 64 bm -> forall k remain, (k <= 64)%nat -> (64 <= k + fuel)%nat ->
  0 <= remain -> zlen (bits_below bm k) + remain <= zlen (bits_below bm 64) ->
  exists k', (k <= k' <= 64)%nat /\ cpu_index fuel bm (usize (2 ^ Z.of_nat k)) remain = Some (usize (2 ^ Z.of_nat k')) /\
    zlen (bits_below bm k') = zlen (bits_below bm k) + remain.
Proof.
  intros Hb. induction fuel as [|fuel IH]; intros k remain Hk Hf Hr Hle; cbn [cpu_index].
  - assert (k = 64%nat) as -> by lia. assert (remain = 0) as -> by lia. cbn [Z.ltb Z.compare andb].
    exists 64%nat. split; [lia|]. split; [done|lia].
  - destruct (Z.ltb_spec 0 remain) as [Hpos|]; cbn [andb].
    2:{ exists k. split; [lia|]. split; [done|lia]. }
    assert (k < 64)%nat as Hk' by (destruct (decide (k = 64%nat)) as [->|]; lia).
    assert (usize (2 ^ Z.of_nat k) = 2 ^ Z.of_nat k) as Ek.
    { apply wrap_small. split; [lia|]. apply Z.pow_lt_mono_r; lia. }
    rewrite Ek. destruct (Z.leb_spec (2 ^ Z.of_nat k) bm) as [Hle2|Hlt].
    2:{ rewrite (bits_above bm k 64) in Hle; [lia| |lia]. unfold in_word in Hb. lia. }
    assert (shlw 64 (2 ^ Z.of_nat k) 1 = usize (2 ^ Z.of_nat (S k))) as ->.
    { unfold shlw. rewrite Z.shiftl_mul_pow2 by done. f_equal. change (1 mod 64) with 1. rewrite Nat2Z.inj_succ, Z.pow_succ_r by lia. lia. }
    assert (testm bm (2 ^ Z.of_nat k) = Z.testbit bm (Z.of_nat k)) as -> by (by rewrite <- testm_bit, Z.shiftl_1_l by lia).
    pose proof (zlen_bits_S bm k) as Hs.
    destruct (IH (S k) (if Z.testbit bm (Z.of_nat k) then remain - 1 else remain)) as (k' & Hk1 & E & Hz); [lia|lia|destruct (Z.testbit _ _); lia|destruct (Z.testbit _ _); lia|].
    exists k'. split; [lia|]. split; [exact E|]. destruct (Z.testbit _ _); lia.
Qed.

Lemma trailing_spec bm : in_word 64 bm ->
  exists k, (k < 64)%nat /\ shlw 64 1 (trailing_zeros bm) = usize (2 ^ Z.of_nat k) /\ bits_below bm k = [].
Proof.
  intros Hb. unfold trailing_zeros. destruct (List.find _ _) as [i|] eqn:E.
  - apply find_first in E as (k & Hk & _ & Hlow). pose proof (lookup_lt_Some _ _ _ Hk) as Hl. rewrite length_zrange in Hl.
    rewrite zrange_lookup in Hk by done. injection Hk as <-. rewrite Z.add_0_l. exists k. split; [done|]. split.
    + rewrite shlw_1 by lia. symmetry. apply wrap_small. split; [lia|]. apply Z.pow_lt_mono_r; lia.
    + apply list.elem_of_nil_inv. intros j [Hj Ht]%elem_bits. rewrite (Hlow (Z.to_nat j) j) in Ht; [done|lia|].
      rewrite zrange_lookup by lia. f_equal. lia.
  - exists O. split; [lia|]. by split.
Qed.

(** The mask that is kept: the bits below a place. *)
Lemma keep_low bm k : (k <= 64)%nat -> in_word 64 bm -> Z.land bm (usize (usize (2 ^ Z.of_nat k) - 1)) = Z.land bm (Z.ones (Z.of_nat k)).
Proof.
  intros Hk Hb. f_equal. destruct (decide (k = 64%nat)) as [->|]; [done|].
  rewrite (wrap_small 64 (2 ^ Z.of_nat k)), Z.ones_equiv by (split; [lia|apply Z.pow_lt_mono_r; lia]).
  rewrite <- Z.sub_1_r. apply wrap_small. assert (2 ^ Z.of_nat k < 2 ^ 64) by (apply Z.pow_lt_mono_r; lia). unfold in_word. lia.
Qed.

Lemma rank_lt bm k i : 0 <= i -> Z.testbit bm i = true ->
  i < Z.of_nat k <-> zlen (bits_below bm (Z.to_nat i)) < zlen (bits_below bm k).
Proof.
  intros Hi Ht. pose proof (zlen_bits_S bm (Z.to_nat i)) as Hs. rewrite Z2Nat.id, Ht in Hs by done. split; intros H.
  - pose proof (bits_mono bm (S (Z.to_nat i)) k ltac:(lia)). lia.
  - destruct (Z.lt_ge_cases i (Z.of_nat k)); [done|]. pose proof (bits_mono bm k (Z.to_nat i) ltac:(lia)). lia.
Qed.

Lemma testbit_land_ones bm k i : 0 <= i -> Z.testbit (Z.land bm (Z.ones (Z.of_nat k))) i = Z.testbit bm i && (i <? Z.of_nat k).
Proof.
  intros Hi. rewrite Z.land_spec. f_equal. destruct (Z.ltb_spec i (Z.of_nat k)).
  - by apply Z.ones_spec_low.
  - apply Z.ones_spec_high. lia.
Qed.

(** The list of vCPUs that a normalised configuration yields. *)
Lemma vcpus_of vmid c : in_word 32 (Vm.allocate_bitmap c) -> (forall m, Vm.master c = Some m -> 0 <= m < 32) ->
  Vm.cpu_num c = zlen (bits_below (Vm.allocate_bitmap c) 32) -> 0 < Vm.cpu_num c ->
  exists l, Vm.make_vcpu_list vmid c = Some l /\ zlen l = Vm.cpu_num c /\
    (forall p, p ∈ Vm.phys_id <$> l <-> 0 <= p /\ Z.testbit (Vm.allocate_bitmap c) p = true) /\
    (forall m, Vm.master c = Some m -> Z.testbit (Vm.allocate_bitmap c) m = true -> Vm.phys_id <$> head l = Some m).
Proof.
  intros Hw Hm Hn Hpos. destruct (Vm.cal_phys_id_list_spec c Hw Hm) as (Hnd & Hin & Hhd).
  set (ids := Vm.cal_phys_id_list c) in *.
  assert (ids ≡ₚ bits_below (Vm.allocate_bitmap c) 32) as Hp.
  { apply NoDup_Permutation; [done|apply bits_NoDup|]. intros p. rewrite Hin, elem_bits. split; [|by intros [[? _] ?]].
    intros [Hp Ht]. split; [|done]. split; [done|]. destruct (Z.lt_ge_cases p 32); [lia|].
    by rewrite (testbit_high 32 _ p Hw) in Ht. }
  assert (zlen ids = Vm.cpu_num c) as El by (rewrite Hn; unfold zlen; by rewrite Hp).
  unfold Vm.make_vcpu_list. fold ids. rewrite El, Z.eqb_refl.
  assert (Vm.phys_id <$> zip_with (fun v p => Vm.mkVcpu v p vmid) (zrange 0 (length ids)) ids = ids) as Ef.
  { apply fmap_zip_with_r; [done|]. by rewrite length_zrange. }
  destruct ids as [|p0 ids'] eqn:Ei; [unfold zlen in El; cbn [length] in El; lia|].
  eexists. split; [reflexivity|]. split; [|split].
  - rewrite <- El. unfold zlen. rewrite length_zip_with, length_zrange. lia.
  - intros p. by rewrite Ef.
  - intros m Em Ht. rewrite <- (Hhd m Em Ht). rewrite <- Ef at 2. cbn [length zrange zip_with fmap list_fmap head]. done.
Qed.

(** The cores a guest asks for are the cores it gets.  A request for [num] cores out of a bitmap of
    32 keeps the lowest cores of the bitmap, as many as asked for or as there are, and the count
    agrees with the bitmap; so the VM can be built from it whenever a core is left: one vCPU per core, and the
    requested master first if it was kept. *)
Theorem configured_cpus_become_vcpus vmid num bm master : 0 <= num -> in_word 32 bm -> 0 <= master < 32 ->
  exists c, VmCpuConfig_new num bm master = Some c /\
    Vm.cpu_num c = Z.min num (count_ones bm) /\
    (forall i, 0 <= i -> Z.testbit (Vm.allocate_bitmap c) i = true <->
       Z.testbit bm i = true /\ zlen (bits_below bm (Z.to_nat i)) < num) /\
    (0 < Vm.cpu_num c -> exists l, Vm.make_vcpu_list vmid c = Some l /\ zlen l = Vm.cpu_num c /\
       (forall p, p ∈ Vm.phys_id <$> l <-> 0 <= p /\ Z.testbit (Vm.allocate_bitmap c) p = true) /\
       (Z.testbit (Vm.allocate_bitmap c) master = true -> Vm.phys_id <$> head l = Some master)).
Proof.
  intros Hnum Hw Hm. assert (in_word 64 bm) as Hw64 by (unfold in_word in *; lia).
  destruct (trailing_spec bm Hw64) as (k & Hk & Et & Ek). pose proof (zlen_nonneg (bits_below bm 64)) as Hnn.
  change (count_ones bm) with (zlen (bits_below bm 64)). set (n := Z.min num (zlen (bits_below bm 64))).
  destruct (cpu_index_spec 64 bm Hw64 k n) as (k' & Hk' & Ei & Ez); [lia|lia|lia|rewrite Ek; change (zlen []) with 0; lia|].
  rewrite Ek in Ez. change (zlen []) with 0 in Ez. rewrite Z.add_0_l in Ez.
  set (al := Z.land bm (Z.ones (Z.of_nat k'))).
  assert (in_word 32 al) as Hal.
  { apply land_in_word; [lia|done|]. rewrite Z.ones_equiv. pose proof (Z.pow_pos_nonneg 2 (Z.of_nat k')). lia. }
  unfold VmCpuConfig_new. change (count_ones bm) with (zlen (bits_below bm 64)). fold n. rewrite Et, Ei. cbn [mbind option_bind].
  rewrite keep_low by (lia || done). fold al. rewrite (wrap_small 32 al) by done.
  assert (testm al (shlw 32 1 master) = Z.testbit al master) as ->.
  { unfold shlw. rewrite (Z.mod_small master 32), Z.shiftl_1_l by lia. rewrite wrap_small by (split; [lia|apply Z.pow_lt_mono_r; lia]).
    by rewrite <- testm_bit, Z.shiftl_1_l by lia. }
  assert (forall i, 0 <= i -> Z.testbit al i = true <-> Z.testbit bm i = true /\ i < Z.of_nat k') as Hb.
  { intros i Hi. unfold al. rewrite testbit_land_ones, andb_true_iff, Z.ltb_lt by done. done. }
  eexists. split; [reflexivity|]. cbn [Vm.cpu_num Vm.allocate_bitmap]. split; [done|]. split.
  - intros i Hi. rewrite Hb by done. split; intros [Ht Hr]; (split; [done|]).
    + apply (proj1 (rank_lt bm k' i Hi Ht)) in Hr. lia.
    + apply (proj2 (rank_lt bm k' i Hi Ht)). pose proof (bits_mono bm (S (Z.to_nat i)) 64) as Hmono.
      pose proof (zlen_bits_S bm (Z.to_nat i)) as Hs. rewrite Z2Nat.id, Ht in Hs by done.
      assert (i < 64). { destruct (Z.lt_ge_cases i 64); [done|]. by rewrite (testbit_high 64 bm i Hw64) in Ht. }
      specialize (Hmono ltac:(lia)). lia.
  - intros Hpos. set (c := Vm.mkCpuCfg n al _).
    destruct (vcpus_of vmid c) as (l & El & Hl & Hp & Hh); [done| | |done|].
    + intros m. cbn. destruct (Z.testbit al master); [|done]. by intros [= <-].
    + cbn [c Vm.cpu_num Vm.allocate_bitmap]. rewrite <- Ez. unfold zlen. f_equal. apply Permutation_length.
      apply NoDup_Permutation; [apply bits_NoDup..|]. intros i. rewrite !elem_bits. split.
      * intros [[Hi Hik] Ht]. split; [|by apply Hb]. split; [done|]. destruct (Z.lt_ge_cases i 32); [done|].
        by rewrite (testbit_high 32 bm i Hw) in Ht.
      * intros [[Hi _] Ht]. apply Hb in Ht as [Ht Hik]; [|done]. done.
    + exists l. split; [done|]. split; [done|]. split; [done|]. intros Ht. apply Hh; [|done]. cbn. by rewrite Ht.
Qed.

(** A guest can make the construction of a VM fail an assertion, which stops the hypervisor: a bitmap wider than
    32 bits is counted in full but kept only in part. *)
Lemma wide_bitmap_fails_assertion :
  exists c, VmCpuConfig_new 2 0x100000001 0 = Some c /\ Vm.cpu_num c = 2 /\ Vm.allocate_bitmap c = 1 /\ Vm.make_vcpu_list 1 c = None.
Proof. eexists. split; [by vm_compute|]. by vm_compute. Qed.

(** ** Errors *)

Lemma edit_found vmid f s k e : list_find (has_id vmid) (entries_of s) = Some (k, e) ->
  edit vmid f s = Ret (Some 0) (with_table (upd_entries <[k := f e]> (table s)) s).
Proof.
  intros Ef. unfold edit, vm_cfg_editor. rewrite (m_bind_Ret m_get _ s s s) by done.
  change (list_find (fun e => id e = vmid) (entries (table s))) with (list_find (has_id vmid) (entries_of s)).
  rewrite Ef. by rewrite m_bind_ret.
Qed.

(** Stream ids of passthrough devices arrive only in pairs: the vector they are copied to is
    [vec![0, n]], which has two elements, instead of [n] zeros.  So no id adds two zeros, one id
    adds a spurious id 1 after it, two are added as they are, and from three on the copy runs past the
    vector. *)
Theorem stream_ids_only_in_pairs vm vmid ipa n pa s k e :
  list_find (has_id vmid) (entries_of s) = Some (k, e) -> Vm.vm_ipa2pa vm ipa = Some pa -> pa <> 0 -> 0 <= n ->
  let call := vm_cfg_add_passthrough_device_streams_ids vm vmid ipa n s in
  let adds l := exists e', call = Ret (Some 0) (with_table (upd_entries <[k := e']> (table s)) s) /\
                  streams_ids (pt_dev e') = streams_ids (pt_dev e) ++ l in
  (n = 0 -> adds [0; 0]) /\ (n = 1 -> adds [ld64 (gmem s) pa; 1]) /\
  (n = 2 -> adds (ld_words (gmem s) pa 2)) /\ (2 < n -> call = Fault OutOfBounds).
Proof.
  intros Ef Ep Hp Hn call adds.
  assert (call = (let! l := read_words pa n 2 in
    edit vmid (add_passthrough_device_streams_ids (l ++ drop (length l) [0; n]))) s) as Ec.
  { unfold call, vm_cfg_add_passthrough_device_streams_ids, vm_ipa2pa, m_opt. rewrite Ep, m_bind_ret.
    by rewrite (proj2 (Z.eqb_neq pa 0)). }
  assert (n <= 2 -> adds (ld_words (gmem s) pa n ++ drop (length (ld_words (gmem s) pa n)) [0; n])) as Ha.
  { intros Hle. eexists. rewrite Ec. unfold read_words. rewrite (proj2 (Z.ltb_ge 2 n)) by lia.
    unfold m_gets, m_bind. rewrite (edit_found vmid _ s k e Ef). split; [reflexivity|]. reflexivity. }
  split_and!.
  - intros ->. by apply Ha.
  - intros ->. specialize (Ha ltac:(lia)). unfold ld_words in Ha. change (Z.to_nat 1) with 1%nat in Ha. cbn [zrange fmap list_fmap] in Ha.
    rewrite Z.add_0_r in Ha. exact Ha.
  - intros ->. specialize (Ha ltac:(lia)). change (length (ld_words (gmem s) pa 2)) with 2%nat in Ha. cbn [drop] in Ha. by rewrite app_nil_r in Ha.
  - intros Hgt. rewrite Ec. unfold read_words. by rewrite (proj2 (Z.ltb_lt 2 n)).
Qed.

(** A guest that deletes the management VM's entry while another VM is configured makes the next request to add
    a VM stop the hypervisor: the id 0 is handed out again, which the code takes for an initialisation that
    ran twice. *)
Lemma add_after_vm0_deleted_panics s e : table_ok s -> 0 ∉ ids (entries_of s) -> entries_of s <> [] ->
  vm_cfg_add_vm_entry e s = Fault ExplicitPanic.
Proof.
  intros Hok H0 Hne. unfold vm_cfg_add_vm_entry. destruct (generate_vm_id (table s)) as [[i t]|] eqn:Eg.
  - destruct (generate_lowest s i t Hok Eg) as (Hi & _ & Hlow & ->). cbn [entries vm_num].
    assert (i = 0) as -> by (destruct (Z.le_gt_cases i 0); [lia|]; by destruct H0; apply Hlow; lia).
    cbn [Z.eqb andb]. assert (zlen (entries_of s) <> 0) as Hz by (unfold zlen; by destruct (entries_of s)).
    by rewrite (proj2 (Z.eqb_neq _ 0) Hz).
  - exfalso. unfold generate_vm_id in Eg. destruct (List.find _ _) eqn:Ef; [done|]. clear Eg.
    assert (List.In 0 (zrange 0 (Z.to_nat VM_NUM_MAX))) as Hin by (by left). apply (List.find_none _ _ Ef) in Hin.
    rewrite (ok_bits s Hok) in Hin by (unfold VM_NUM_MAX; lia). by rewrite decide_False in Hin.
Qed.

(** ** Concrete runs *)

(** The active VM's memory starts at guest address 0x80000000 (0x50000000 in physical memory): a request for a
    VM [vm1] with an empty command line. *)
Definition demo_gmem : Mem :=
  let w k v m := st 8 m (0x50000000 + 8 * k) v in
  write_at (w 0 0x80001000 (w 1 4 (w 2 0 (w 3 0x80002000 (w 4 0 (w 5 0x90080000 (w 6 0x90000000 (w 7 0 ∅))))))))
    [0x50001000; 0x50001001; 0x50001002] [118; 109; 49].
Definition demo_vm0_entry : VmConfigEntry :=
  mkEntry 0 [109] VmTOs [] (VmImageConfig_new 0 0 0) [] (Vm.mkCpuCfg 1 1 (Some 0)) [] (mkPtCfg [] [] []) [] [].
Definition demo_cs : CS := mkCS (mkTable (mkBitAlloc16 1) 1 [demo_vm0_entry]) [] demo_gmem [].
Definition no_init (_ : Z) : M CS unit := m_ret tt.

Lemma demo_cs_ok : table_ok demo_cs.
Proof.
  constructor; unfold entries_of; cbn [demo_cs table entries vm_bitmap vm_num blk_avail].
  - done.
  - apply NoDup_singleton.
  - intros i Hi. unfold VM_NUM_MAX in Hi.
    assert (i = 0 \/ i = 1 \/ i = 2 \/ i = 3 \/ i = 4 \/ i = 5 \/ i = 6 \/ i = 7) as Hc by lia. by destruct_or! Hc; subst i.
  - by intros e ->%list_elem_of_singleton.
  - done.
  - by intros e b ->%list_elem_of_singleton.
  - by intros e e' b ->%list_elem_of_singleton ->%list_elem_of_singleton.
Qed.

Lemma config_table_refines_map_witness :
  exists s', hvc_config_handler Vm.demo_vm 64 no_init 0 0x80000000 0 0 0 0 0 0 demo_cs = Ret (Some 1) s' /\ table_ok s' /\
    name <$> (entries_of s' !! 1%nat) = Some [118; 109; 49].
Proof.
  destruct (hvc_config_handler Vm.demo_vm 64 no_init 0 0x80000000 0 0 0 0 0 0 demo_cs) as [r s'|] eqn:E; [|by vm_compute in E].
  assert (r = Some 1 /\ name <$> (entries_of s' !! 1%nat) = Some [118; 109; 49]) as [-> Hn].
  { vm_compute in E. apply Ret_inj in E as [<- <-]. by vm_compute. }
  exists s'. split; [done|]. split; [|exact Hn].
  refine (proj1 (config_table_refines_map Vm.demo_vm 64 no_init _ 0 0x80000000 0 0 0 0 0 0 demo_cs (Some 1) s' demo_cs_ok E)).
  by intros i s s1 [_ <-]%Ret_inj.
Defined.

(** A mediated disk for VM 0 when there is none. *)
Lemma config_error_leaves_table_witness :
  exists s', hvc_config_handler Vm.demo_vm 64 no_init 4 0 0x80001000 0x0a000000 0x1000 48 0x80002000 7 demo_cs = Ret None s' /\
    (s' = demo_cs \/ exists k e d, list_find (has_id 0) (entries_of demo_cs) = Some (k, e) /\ mediated d = true /\
      s' = with_table (upd_entries <[k := add_emulated_device_cfg d e]> (table demo_cs)) demo_cs).
Proof.
  destruct (hvc_config_handler Vm.demo_vm 64 no_init 4 0 0x80001000 0x0a000000 0x1000 48 0x80002000 7 demo_cs) as [r s'|] eqn:E;
    [|by vm_compute in E].
  assert (r = None) as -> by (vm_compute in E; by apply Ret_inj in E as [<- _]).
  exists s'. split; [done|].
  assert (config_event_of 4 <> Some UPLOAD_KERNEL_IMAGE) as Hn by done.
  destruct (config_error_leaves_table Vm.demo_vm 64 no_init _ 0 0x80001000 0x0a000000 0x1000 48 0x80002000 7 demo_cs s' Hn E)
    as [->|(_ & _ & _ & H)]; [by left|by right].
Defined.

Lemma configured_cpus_become_vcpus_witness :
  exists c l, VmCpuConfig_new 2 0xb 1 = Some c /\ Vm.make_vcpu_list 1 c = Some l /\ Vm.phys_id <$> head l = Some 1.
Proof.
  destruct (configured_cpus_become_vcpus 1 2 0xb 1) as (c & Ec & _ & _ & H); [done|done|done|].
  assert (c = Vm.mkCpuCfg 2 3 (Some 1)) as Hc by (vm_compute in Ec; by injection Ec as <-).
  destruct H as (l & El & _ & _ & Hh); [by rewrite Hc|]. exists c, l. split; [done|]. split; [done|]. apply Hh. by rewrite Hc.
Defined.

Lemma stream_ids_only_in_pairs_witness :
  exists e', vm_cfg_add_passthrough_device_streams_ids Vm.demo_vm 0 0x80001000 1 demo_cs =
    Ret (Some 0) (with_table (upd_entries <[0%nat := e']> (table demo_cs)) demo_cs) /\
    streams_ids (pt_dev e') = [0x316d76; 1].
Proof.
  destruct (stream_ids_only_in_pairs Vm.demo_vm 0 0x80001000 1 0x50001000 demo_cs 0 demo_vm0_entry) as (_ & H & _ & _); [done|by vm_compute|done|done|].
  exact (H eq_refl).
Defined.
