(* ===== verification/Hvc.v ===== *)
(** * Hvc: hypercalls ([kernel/hvc.rs], with [kernel/ivc.rs], [vmm/manager.rs] and [device/virtio/mediated.rs])

    The interface record of every VM, the ring of messages to a VM, and the dispatch of hypercalls.  The
    configuration calls are those of [Config]; what the calls ask of the scheduler, of other cores and
    of the removal of VMs is logged. *)
From stdpp Require Import gmap list.
From S2P Require Import Prelude Bits GuestMem Config.
From S2P Require Vm Sched.

(** src: kernel/vm.rs 85-90 [VmState] *)
Inductive VmState := VmInv | VmPending | VmActive.
Definition state_num (s : VmState) : Z := match s with VmInv => 0 | VmPending => 1 | VmActive => 2 end.
Definition type_num (t : VmType) : Z := match t with VmTOs => 0 | VmTBma => 1 end.

(** src: kernel/vm.rs 109-116 [VmInterface] *)
Record VmInterface := mkIf {
  master_cpu_id : option Z; if_state : VmState; if_type : VmType; mac : list Z; ivc_arg : Z; ivc_arg_ptr : Z;
}.
(** src: kernel/vm.rs 119-128 [VmInterface::default] *)
Definition VmInterface_default : VmInterface := mkIf None VmPending VmTOs (replicate 6 0) 0 0.

(** What leaves the component. *)
Inductive hevent :=
  | IpiHvc (core src_vm trgt_vm fid event : Z)     (** [IpiTHvc] *)
  | IpiVmmBoot (core vmid : Z) | IpiVmmReboot (core vmid : Z)
  | Inject (vmid irq : Z)                          (** [interrupt_vm_inject] on this core's vCPU of the VM *)
  | CpuOn (vmpidr vmid : Z)                        (** [psci_vm_maincpu_on] *)
  | BootHere (vmid : Z)                            (** [yield_to] and [vmm_boot] *)
  | RebootHere | RemoveVm (vmid : Z)               (** [vmm_reboot], [vmm_remove_vm] *)
  | BlkDone (avail : bool).                        (** the executor after a disk's completion *)

(** [blk_content]: the address of the request area of every mediated disk, in the order of [blk_avail].
    [var]: the vCPUs of this core. *)
Record HS := mkHS {
  cs : CS;
  vm_if : list VmInterface;
  blk_content : list Z;
  var : Sched.VcpuArray;
  gpr : gmap Z Z;
  share_mem : gmap Z Z;
  hlog : list hevent;
}.
Definition with_cs c s := mkHS c (vm_if s) (blk_content s) (var s) (gpr s) (share_mem s) (hlog s).
Definition with_if l s := mkHS (cs s) l (blk_content s) (var s) (gpr s) (share_mem s) (hlog s).
Definition with_content l s := mkHS (cs s) (vm_if s) l (var s) (gpr s) (share_mem s) (hlog s).
Definition with_gpr g s := mkHS (cs s) (vm_if s) (blk_content s) (var s) g (share_mem s) (hlog s).
Definition with_share m s := mkHS (cs s) (vm_if s) (blk_content s) (var s) (gpr s) m (hlog s).
Definition hmem (s : HS) : Mem := gmem (cs s).
Definition with_hmem m s := with_cs (with_gmem m (cs s)) s.
Definition hemit (e : hevent) : M HS unit :=
  m_modify (fun s => mkHS (cs s) (vm_if s) (blk_content s) (var s) (gpr s) (share_mem s) (hlog s ++ [e])).

(** A configuration call in the larger state. *)
Definition on_cs {A} (m : M CS A) : M HS A := fun s =>
  match m (cs s) with Ret a c => Ret a (with_cs c s) | Fault f => Fault f end.

(** ** The interface records *)

Definition vm_if_upd (vm_id : Z) (f : VmInterface -> VmInterface) : M HS unit := fun s =>
  match zget (vm_if s) vm_id with
  | Some i => Ret tt (with_if (zset (vm_if s) vm_id (f i)) s)
  | None => Fault OutOfBounds
  end.
Definition vm_if_get {A} (f : VmInterface -> A) (vm_id : Z) : M HS A :=
  let! s := m_get in let! i := m_idx (vm_if s) vm_id in m_ret (f i).

(** src: kernel/vm.rs 27-30 [vm_if_reset] *)
Definition vm_if_reset (vm_id : Z) : M HS unit := vm_if_upd vm_id (fun _ => VmInterface_default).
(** src: kernel/vm.rs 32-35 [vm_if_set_state] *)
Definition vm_if_set_state (vm_id : Z) (x : VmState) : M HS unit :=
  vm_if_upd vm_id (fun i => mkIf (master_cpu_id i) x (if_type i) (mac i) (ivc_arg i) (ivc_arg_ptr i)).
(** src: kernel/vm.rs 37-40 [vm_if_get_state] *)
Definition vm_if_get_state : Z -> M HS VmState := vm_if_get if_state.
(** src: kernel/vm.rs 42-45 [vm_if_set_type] *)
Definition vm_if_set_type (vm_id : Z) (x : VmType) : M HS unit :=
  vm_if_upd vm_id (fun i => mkIf (master_cpu_id i) (if_state i) x (mac i) (ivc_arg i) (ivc_arg_ptr i)).
(** src: kernel/vm.rs 47-50 [vm_if_get_type] *)
Definition vm_if_get_type : Z -> M HS VmType := vm_if_get if_type.
(** src: kernel/vm.rs 52-56 [vm_if_set_cpu_id]
    A core that is set stays ([call_once]). *)
Definition vm_if_set_cpu_id (vm_id core : Z) : M HS unit :=
  vm_if_upd vm_id (fun i =>
    mkIf (Some (default core (master_cpu_id i))) (if_state i) (if_type i) (mac i) (ivc_arg i) (ivc_arg_ptr i)).
(** src: kernel/vm.rs 58-61 [vm_if_get_cpu_id] *)
Definition vm_if_get_cpu_id : Z -> M HS (option Z) := vm_if_get master_cpu_id.
(** src: kernel/vm.rs 63-66 [vm_if_set_ivc_arg] *)
Definition vm_if_set_ivc_arg (vm_id x : Z) : M HS unit :=
  vm_if_upd vm_id (fun i => mkIf (master_cpu_id i) (if_state i) (if_type i) (mac i) x (ivc_arg_ptr i)).
(** src: kernel/vm.rs 68-71 [vm_if_ivc_arg] *)
Definition vm_if_ivc_arg : Z -> M HS Z := vm_if_get ivc_arg.
(** src: kernel/vm.rs 73-76 [vm_if_set_ivc_arg_ptr] *)
Definition vm_if_set_ivc_arg_ptr (vm_id x : Z) : M HS unit :=
  vm_if_upd vm_id (fun i => mkIf (master_cpu_id i) (if_state i) (if_type i) (mac i) (ivc_arg i) x).
(** src: kernel/vm.rs 78-81 [vm_if_ivc_arg_ptr] *)
Definition vm_if_ivc_arg_ptr : Z -> M HS Z := vm_if_get ivc_arg_ptr.

(** ** Messages to a VM *)

Definition PAGE_SIZE : Z := 4096.
(** The size of a slot of the message ring. *)
Definition SLOT : Z := PAGE_SIZE / VM_NUM_MAX.

(** src: kernel/hvc.rs 138-171 [HvcGuestMsg and its structs]
    The variant for the file system library is behind a feature and left out. *)
Inductive HvcGuestMsg :=
  | Default (fid event : Z)
  | Manage (fid event vm_id : Z)
  | Migrate (fid event vm_id oper page_num : Z).

(** The words of the struct that is copied; [None] is [todo!()]. *)
Definition msg_words (m : HvcGuestMsg) : option (list Z) :=
  match m with
  | Default f e => Some [f; e]
  | Manage f e v => Some [f; e; v]
  | Migrate _ _ _ _ _ => None
  end.
Definition msg_fid (m : HvcGuestMsg) : Z := match m with Default f _ | Manage f _ _ | Migrate f _ _ _ _ => f end.
Definition msg_event (m : HvcGuestMsg) : Z := match m with Default _ e | Manage _ e _ | Migrate _ e _ _ _ => e end.

(** [memcpy] of 64-bit words to [a]. *)
Fixpoint st_words (m : Mem) (a : Z) (ws : list Z) : Mem :=
  match ws with [] => m | w :: ws' => st_words (st 8 m a w) (a + 8) ws' end.

Section hvc.
(** The active VM and its core; the interrupt of messages; whether a core has not been started. *)
Context (vm : Vm.Vm) (core HVC_IRQ : Z) (cpu_inv : Z -> bool).
(** The trace flag; how many bytes a string may have; the bytes behind a vector on the heap. *)
Context (trace : bool) (fuel : nat) (heap : list Z -> list Z).
(** The construction of a VM, and the executor of the mediated disks. *)
Context (init_gvm : Z -> M CS unit).

Definition find_vm (vmid : Z) (s : HS) : option (Vm.Vm * VmConfigEntry) :=
  List.find (fun v : Vm.Vm * VmConfigEntry => Vm.vm_id v.1 =? vmid) (vms (cs s)).

(** src: kernel/hvc.rs 494-508 [hvc_guest_notify] *)
Definition hvc_guest_notify (vm_id : Z) : M HS unit :=
  let! s := m_get in
  let! _ := m_opt UnwrapNone (find_vm vm_id s) in
  match Sched.pop_vcpu_through_vmid vm_id (var s) with
  | None => m_ret tt
  | Some _ => hemit (Inject vm_id HVC_IRQ)
  end.

(** src: kernel/hvc.rs 388-491 [hvc_send_msg_to_vm] *)
Definition hvc_send_msg_to_vm (vm_id : Z) (msg : HvcGuestMsg) : M HS bool :=
  let! ptr0 := vm_if_ivc_arg_ptr vm_id in
  let! arg := vm_if_ivc_arg vm_id in
  let! target :=
    if negb (ptr0 =? 0) then
      let ptr := usize (ptr0 + SLOT) in
      if PAGE_SIZE <=? usize (ptr - arg) then vm_if_set_ivc_arg_ptr vm_id arg >>; m_ret arg
      else vm_if_set_ivc_arg_ptr vm_id ptr >>; m_ret ptr
    else m_ret 0 in
  if target =? 0 then m_ret false
  else if trace && (target <? 0x1000) then m_fault ExplicitPanic
  else
    let! ws := m_opt ExplicitPanic (msg_words msg) in
    m_modify (fun s => with_hmem (st_words (hmem s) target ws) s) >>;
    let! cpu_trgt := vm_if_get_cpu_id vm_id in
    match cpu_trgt with
    | Some c =>
        (if negb (c =? core) then hemit (IpiHvc c 0 vm_id (msg_fid msg) (msg_event msg)) else hvc_guest_notify vm_id) >>;
        m_ret true
    | None => m_ret false
    end.

(** src: kernel/ivc.rs 23-43 [ivc_update_mq] *)
Definition ivc_update_mq (receive_ipa cfg_ipa : Z) : M HS bool :=
  let! receive_pa := m_opt OutOfBounds (Vm.vm_ipa2pa vm receive_ipa) in
  let! cfg_pa := m_opt OutOfBounds (Vm.vm_ipa2pa vm cfg_ipa) in
  if receive_pa =? 0 then m_ret false
  else
    vm_if_set_ivc_arg (Vm.vm_id vm) cfg_pa >>;
    vm_if_set_ivc_arg_ptr (Vm.vm_id vm) (usize (cfg_pa - SLOT)) >>;
    m_modify (fun s => with_gpr (<[0 := Vm.vm_id vm]> (gpr s)) s) >>; m_ret true.

(** src: kernel/hvc.rs 184-187 [add_share_mem] *)
Definition add_share_mem (ty base : Z) : M HS unit := m_modify (fun s => with_share (<[ty := base]> (share_mem s)) s).
(** src: kernel/hvc.rs 189-197 [get_share_mem] *)
Definition get_share_mem (ty : Z) : M HS Z := let! s := m_get in m_opt ExplicitPanic (share_mem s !! ty).

(** ** Management of VMs *)

(** src: vmm/manager.rs 100-143 [vmm_boot_vm] *)
Definition vmm_boot_vm (vm_id : Z) : M HS unit :=
  let! phys := vm_if_get_cpu_id vm_id in
  match phys with
  | None => m_ret tt
  | Some c =>
      let! s := m_get in
      if negb (c =? core) then
        if cpu_inv c then
          let! v := m_opt UnwrapNone (find_vm vm_id s) in
          let! vmpidr := m_opt UnwrapNone (Vm.pcpuid_to_vcpuid v.1 c) in
          hemit (CpuOn vmpidr vm_id)
        else hemit (IpiVmmBoot c vm_id)
      else
        match Sched.pop_vcpu_through_vmid vm_id (var s) with
        | None => m_ret tt
        | Some _ => hemit (BootHere vm_id)
        end
  end.

Definition HVC_VMM : Z := 1.
Definition HVC_MEDIATED : Z := 3.
Definition HVC_CONFIG : Z := 0x11.
Definition HVC_VMM_REBOOT_VM : Z := 4.

(** src: vmm/manager.rs 151-184 [vmm_reboot_vm] *)
Definition vmm_reboot_vm (arg : Z) : M HS unit :=
  let vm_id := bit_extract arg 0 16 in
  if negb (bit_extract arg 16 16 =? 0) then
    if Vm.vm_id vm =? vm_id then hemit RebootHere
    else
      let! c := vm_if_get_cpu_id vm_id in
      match c with Some c => hemit (IpiVmmReboot c vm_id) | None => m_ret tt end
  else hvc_send_msg_to_vm vm_id (Manage HVC_VMM HVC_VMM_REBOOT_VM vm_id) >>; m_ret tt.

(** src: vmm/manager.rs 264-276 [get_vm_id] *)
Definition get_vm_id (id_ipa : Z) : M HS bool :=
  let! pa := m_opt OutOfBounds (Vm.vm_ipa2pa vm id_ipa) in
  if pa =? 0 then m_ret false
  else m_modify (fun s => with_hmem (st 8 (hmem s) pa (Vm.vm_id vm)) s) >>; m_ret true.

Definition NAME_MAX_LEN : Z := 32.
(** The place of the [idx]-th [VMInfo] in a [VMInfoList]: 44 bytes each, after the number of VMs. *)
Definition info_at (pa idx : Z) : Z := pa + 8 + 44 * idx.

(** One turn of the loop: the fields, the name with what follows it on the heap, then its terminator. *)
Definition list_one (pa idx vmid : Z) : M HS unit :=
  let! s := m_get in
  match vm_cfg_entry vmid (cs s) with
  | None => m_ret tt
  | Some e =>
      let! st_ := vm_if_get_state vmid in
      if VM_NUM_MAX <=? idx then m_fault OutOfBounds else
      let a := info_at pa idx in
      let nm := name e in
      m_modify (fun s =>
        let m := st 4 (hmem s) a (u32 vmid) in
        let m := st 4 m (a + 36) (type_num (vm_type vmid (cs s))) in
        let m := st 4 m (a + 40) (state_num st_) in
        with_hmem (write_at m (zrange (a + 4) (Z.to_nat NAME_MAX_LEN)) (take (Z.to_nat NAME_MAX_LEN) (nm ++ heap nm))) s) >>;
      if NAME_MAX_LEN <=? zlen nm then m_fault OutOfBounds
      else m_modify (fun s => with_hmem (st8 (hmem s) (a + 4 + zlen nm) 0) s)
  end.

(** src: vmm/manager.rs 296-342 [vmm_list_vm] *)
Definition vmm_list_vm (vm_info_ipa : Z) : M HS (option Z) :=
  let! pa := m_opt OutOfBounds (Vm.vm_ipa2pa vm vm_info_ipa) in
  if pa =? 0 then m_ret None
  else
    m_modify (fun s => with_hmem (st 8 (hmem s) pa (zlen (entries (table (cs s))))) s) >>;
    let! l := m_gets (fun s => vm_id_list (cs s)) in
    m_for (zip (zrange 0 (length l)) l) (fun '(idx, vmid) => list_one pa idx vmid) >>;
    m_ret (Some 0).

(** ** Mediated disks *)

(** Offsets in the request area of a disk ([MediatedBlkContent]). *)
Definition NREQ : Z := 0.
Definition CACHE_IPA : Z := 112.
Definition CACHE_PA : Z := 120.
Definition REQ_TYPE : Z := 128.
Definition REQ_SECTOR : Z := 136.
Definition REQ_COUNT : Z := 144.

(** src: device/virtio/mediated.rs 23-40 [mediated_blk_list_push]
    A VM that was configured for the disk's number takes it. *)
Definition mediated_blk_list_push (content : Z) : M HS unit := fun s =>
  let n := zlen (blk_avail (cs s)) in
  let taken := existsb (fun v : Vm.Vm * VmConfigEntry => bool_decide (mediated_block_index (image v.2) = Some n)) (vms (cs s)) in
  Ret tt (with_content (blk_content s ++ [content]) (with_cs (with_blk (blk_avail (cs s) ++ [negb taken]) (cs s)) s)).

(** src: device/virtio/mediated.rs 184-206 [mediated_dev_append] *)
Definition mediated_dev_append (class_id mmio_ipa : Z) : M HS (option Z) :=
  let! blk_pa := m_opt OutOfBounds (Vm.vm_ipa2pa vm mmio_ipa) in
  m_modify (fun s => with_hmem (st 8 (hmem s) (blk_pa + NREQ) 0) s) >>;
  let! cache_ipa := m_gets (fun s => ld64 (hmem s) (blk_pa + CACHE_IPA)) in
  let! cache_pa := m_opt OutOfBounds (Vm.vm_ipa2pa vm cache_ipa) in
  m_modify (fun s => with_hmem (st 8 (hmem s) (blk_pa + CACHE_PA) cache_pa) s) >>;
  mediated_blk_list_push blk_pa >>; m_ret (Some 0).

(** src: device/virtio/mediated.rs 69-77 [mediated_blk_list_get_from_pa] *)
Definition mediated_blk_list_get_from_pa (pa : Z) (s : HS) : option bool :=
  match list_find (fun a => a = pa) (blk_content s) with
  | Some (i, _) => blk_avail (cs s) !! i
  | None => None
  end.

(** src: device/virtio/mediated.rs 210-233 [mediated_blk_notify_handler]
    The completion itself is [AsyncTask.mediated_blk_complete]. *)
Definition mediated_blk_notify_handler (dev_ipa_reg : Z) : M HS (option Z) :=
  let! pa := m_opt OutOfBounds (Vm.vm_ipa2pa vm dev_ipa_reg) in
  let! s := m_get in
  match mediated_blk_list_get_from_pa pa s with
  | None => m_ret None
  | Some avail => hemit (BlkDone avail) >>; m_ret (Some 0)
  end.

(** The common part of the two requests: the request area is filled in, then the management VM is told. *)
Definition mediated_blk_io (ty blk_idx sector count : Z) : M HS unit :=
  let! s := m_get in
  let! a := m_idx (blk_content s) blk_idx in
  m_modify (fun s =>
    let m := hmem s in
    let m := st 8 m (a + NREQ) (usize (ld64 m (a + NREQ) + 1)) in
    let m := st 4 m (a + REQ_TYPE) ty in
    let m := st 8 m (a + REQ_SECTOR) sector in
    with_hmem (st 8 m (a + REQ_COUNT) count) s) >>;
  hvc_send_msg_to_vm 0 (Default HVC_MEDIATED 50) >>; m_ret tt.
(** src: device/virtio/mediated.rs 253-269 [mediated_blk_read] *)
Definition mediated_blk_read : Z -> Z -> Z -> M HS unit := mediated_blk_io 0.
(** src: device/virtio/mediated.rs 272-289 [mediated_blk_write] *)
Definition mediated_blk_write : Z -> Z -> Z -> M HS unit := mediated_blk_io 1.

(** ** Dispatch *)

(** src: kernel/hvc.rs 273-284 [hvc_sys_handler] *)
Definition hvc_sys_handler (event x0 : Z) : M HS (option Z) :=
  match event with 3 => m_fault ExplicitPanic | 4 => m_ret (Some 0) | _ => m_ret None end.

(** src: kernel/hvc.rs 286-326 [hvc_vmm_handler] *)
Definition hvc_vmm_handler (event x0 x1 : Z) : M HS (option Z) :=
  match event with
  | 0 => vmm_list_vm x0
  | 1 | 3 => m_fault ExplicitPanic
  | 2 => vmm_boot_vm x0 >>; m_ret (Some 0)
  | 4 => vmm_reboot_vm x0 >>; m_ret (Some 0)
  | 8 => get_vm_id x0 >>; m_ret (Some 0)
  | 16 => hemit (RemoveVm x0) >>; m_ret (Some 0)
  | _ => m_ret None
  end.

(** src: kernel/hvc.rs 328-346 [hvc_ivc_handler] *)
Definition hvc_ivc_handler (event x0 x1 : Z) : M HS (option Z) :=
  match event with
  | 0 => let! ok := ivc_update_mq x0 x1 in m_ret (if ok : bool then Some 0 else None)
  | 7 => m_ret (Some 0)
  | _ => m_ret None
  end.

(** src: kernel/hvc.rs 348-361 [hvc_mediated_handler] *)
Definition hvc_mediated_handler (event x0 x1 : Z) : M HS (option Z) :=
  match event with 0x30 => mediated_dev_append x0 x1 | 0x31 => mediated_blk_notify_handler x0 | _ => m_ret None end.

(** src: kernel/hvc.rs 201-229 [hvc_guest_handler] *)
Definition hvc_guest_handler (hvc_type event x0 x1 x2 x3 x4 x5 x6 : Z) : M HS (option Z) :=
  match hvc_type with
  | 0 => hvc_sys_handler event x0
  | 1 => hvc_vmm_handler event x0 x1
  | 2 => hvc_ivc_handler event x0 x1
  | 3 => hvc_mediated_handler event x0 x1
  | 0x11 => on_cs (hvc_config_handler vm fuel init_gvm event x0 x1 x2 x3 x4 x5 x6)
  | _ => m_ret None
  end.

Definition get_gpr (i : Z) (s : HS) : Z := default 0 (gpr s !! i).

(** src: arch/aarch64/sync.rs 106-133 [hvc_handler]
    Register 0 takes the result. *)
Definition hvc_handler : M HS unit :=
  let! s := m_get in
  let mode := get_gpr 7 s in
  let hvc_type := Z.land (Z.shiftr mode 8) 0xff in
  let event := Z.land mode 0xff in
  let! r := hvc_guest_handler hvc_type event (get_gpr 0 s) (get_gpr 1 s) (get_gpr 2 s) (get_gpr 3 s)
              (get_gpr 4 s) (get_gpr 5 s) (get_gpr 6 s) in
  m_modify (fun s => with_gpr (<[0 := default (2 ^ 64 - 1) r]> (gpr s)) s).

(** src: kernel/hvc.rs 510-564 [hvc_ipi_handler]
    On the core that gets the message. *)
Definition hvc_ipi_handler (trgt_vmid fid event : Z) : M HS unit :=
  let! s := m_get in
  match Sched.pop_vcpu_through_vmid trgt_vmid (var s) with
  | None => m_ret tt
  | Some _ =>
      match fid with
      | 3 => hvc_guest_notify trgt_vmid
      | 1 => if event =? 10 then hvc_guest_notify trgt_vmid else m_ret tt
      | 0x11 => if event =? 9 then hvc_guest_notify trgt_vmid else m_fault ExplicitPanic
      | _ => m_fault ExplicitPanic
      end
  end.
End hvc.
