(* ===== verification/HvcSpec.v ===== *)
(** * HvcSpec: theorems about hypercalls

    The ring of messages to a VM keeps the last eight; the list of VMs reports the table; calls that stop the
    hypervisor. *)
From stdpp Require Import gmap list.
From S2P Require Import Prelude Bits Bitmap GuestMem Config ConfigSpec Hvc.
From S2P Require Vm Sched.

(** ** Words in memory *)

Lemma ld8_st_words m a ws x : ~ (a <= x < a + 8 * zlen ws) -> ld8 (st_words m a ws) x = ld8 m x.
Proof.
  revert m a. induction ws as [|w ws IH]; intros m a Hx; cbn [st_words]; [done|].
  unfold zlen in *. cbn [length] in Hx. rewrite IH by lia. apply ld8_st_out. lia.
Qed.

Lemma ld_words_ext m m' a n : (forall x, a <= x < a + 8 * n -> ld8 m' x = ld8 m x) -> ld_words m' a n = ld_words m a n.
Proof.
  intros H. unfold ld_words. apply list_fmap_ext. intros i k Hi. apply list_elem_of_lookup_2, zrange_elem in Hi.
  apply ld_ext. intros x Hx. apply H. lia.
Qed.

Lemma ld_words_cons m a n : 0 <= n -> ld_words m a (n + 1) = ld64 m a :: ld_words m (a + 8) n.
Proof.
  intros Hn. unfold ld_words. rewrite Z2Nat.inj_add, Nat.add_1_r by lia. cbn [zrange fmap list_fmap].
  rewrite Z.add_0_r. f_equal. rewrite <- (zrange_shift 0 1 (Z.to_nat n)). change (list_fmap Z Z) with (fmap (M := list) (A := Z) (B := Z)).
  rewrite <- list_fmap_compose. apply list_fmap_ext. intros i k _. unfold compose. by replace (a + 8 * (k + 1)) with (a + 8 + 8 * k) by lia.
Qed.

Lemma ld_words_st_words m a ws : Forall (in_word 64) ws -> ld_words (st_words m a ws) a (zlen ws) = ws.
Proof.
  revert m a. induction ws as [|w ws IH]; intros m a Hw; cbn [st_words]; [done|].
  apply list.Forall_cons in Hw as [Hw Hws]. assert (zlen (w :: ws) = zlen ws + 1) as -> by (unfold zlen; cbn [length]; lia).
  rewrite ld_words_cons by (unfold zlen; lia). rewrite IH by done. f_equal.
  unfold ld64. rewrite (ld_ext 8 (st 8 m a w)).
  - rewrite (ld_st 8). by apply Z.mod_small.
  - intros x Hx. apply ld8_st_words. lia.
Qed.

(** ** The ring of messages *)

Section ring.
Context (core irq : Z) (trace : bool) (vmid c A : Z).
Hypothesis HA : 0x1000 <= A /\ A + PAGE_SIZE < 2 ^ 64.
Hypothesis Hc : c <> core.

(** The VM's interface when [k] messages have been sent to the page at [A]. *)
Definition ring_at (k : Z) (s : HS) : Prop :=
  exists i, zget (vm_if s) vmid = Some i /\ ivc_arg i = A /\ master_cpu_id i = Some c /\
    ivc_arg_ptr i = if k =? 0 then A - SLOT else A + SLOT * ((k - 1) mod 8).
(** The place of the [k]-th message. *)
Definition slot_of (k : Z) : Z := A + SLOT * (k mod 8).

Definition send (m : HvcGuestMsg) : M HS unit := hvc_send_msg_to_vm core irq trace vmid m >>; m_ret tt.

(** One message: it goes to its slot, the core of the VM is told, and nothing else changes. *)
Lemma send_one k s m ws : 0 <= k -> ring_at k s -> msg_words m = Some ws ->
  exists s', send m s = Ret tt s' /\ ring_at (k + 1) s' /\
    hmem s' = st_words (hmem s) (slot_of k) ws /\ hlog s' = hlog s ++ [IpiHvc c 0 vmid (msg_fid m) (msg_event m)].
Proof.
  intros Hk (i & Ei & EA & Ec & Ep) Ew. unfold send, hvc_send_msg_to_vm.
  set (p := ivc_arg_ptr i) in *. change SLOT with 512 in *. unfold PAGE_SIZE in *.
  assert (vm_if_ivc_arg_ptr vmid s = Ret p s /\ vm_if_ivc_arg vmid s = Ret A s) as [E1 E2].
  { unfold vm_if_ivc_arg_ptr, vm_if_ivc_arg, vm_if_get, m_bind, m_get, m_idx. rewrite Ei. cbn [m_opt m_ret]. by rewrite EA. }
  set (t := slot_of k). set (i' := mkIf (master_cpu_id i) (if_state i) (if_type i) (mac i) (ivc_arg i) t).
  set (s1 := with_if (zset (vm_if s) vmid i') s).
  assert (0 <= k mod 8 < 8) as Hkm by (apply Z.mod_pos_bound; lia).
  assert (p <> 0 /\ (let ptr := usize (p + 512) in if 4096 <=? usize (ptr - A) then ptr = A + 4096 /\ t = A else t = ptr)) as [Hp Ht].
  { unfold t, slot_of. change SLOT with 512. destruct (Z.eqb_spec k 0) as [->|Hk0]; rewrite Ep.
    - split; [lia|]. rewrite (wrap_small 64 (A - 512 + 512)) by (unfold in_word; lia). rewrite (wrap_small 64) by (unfold in_word; lia).
      rewrite (proj2 (Z.leb_gt 4096 _)) by lia. change (0 mod 8) with 0. lia.
    - assert (0 <= (k - 1) mod 8 < 8) as Hkm1 by (apply Z.mod_pos_bound; lia). split; [lia|].
      rewrite (wrap_small 64 (A + 512 * ((k - 1) mod 8) + 512)) by (unfold in_word; lia). rewrite (wrap_small 64) by (unfold in_word; lia).
      destruct (Z.leb_spec 4096 (A + 512 * ((k - 1) mod 8) + 512 - A)).
      + assert ((k - 1) mod 8 = 7) as H7 by lia. assert (k mod 8 = 0) as -> by zdiv. rewrite H7. lia.
      + assert (k mod 8 = (k - 1) mod 8 + 1) as -> by zdiv. lia. }
  rewrite !(m_bind_assoc), (m_bind_Ret _ _ _ _ _ E1), m_bind_assoc, (m_bind_Ret _ _ _ _ _ E2).
  rewrite (proj2 (Z.eqb_neq p 0) Hp). cbn [negb].
  assert ((if 4096 <=? usize (usize (p + 512) - A) then vm_if_set_ivc_arg_ptr vmid A >>; m_ret A
           else vm_if_set_ivc_arg_ptr vmid (usize (p + 512)) >>; m_ret (usize (p + 512))) s = Ret t s1) as Et.
  { cbv zeta in Ht. destruct (_ <=? _); [destruct Ht as [_ <-]|rewrite <- Ht];
      unfold vm_if_set_ivc_arg_ptr, vm_if_upd, m_bind; by rewrite Ei. }
  change PAGE_SIZE with 4096. rewrite m_bind_assoc, (m_bind_Ret _ _ _ _ _ Et).
  assert (0x1000 <= t) as Ht1 by (unfold t, slot_of; change SLOT with 512; lia).
  rewrite (proj2 (Z.eqb_neq t 0)), (proj2 (Z.ltb_ge t 0x1000)), andb_false_r by lia.
  unfold m_opt. rewrite Ew, m_bind_assoc, m_bind_ret, m_bind_assoc.
  set (s2 := with_hmem (st_words (hmem s1) t ws) s1).
  rewrite (m_bind_Ret (m_modify _) _ s1 tt s2) by done.
  assert (zget (vm_if s2) vmid = Some i') as E3.
  { apply zget_zset_eq. by apply zget_Some_bounds in Ei. }
  assert (vm_if_get_cpu_id vmid s2 = Ret (Some c) s2) as Ecpu.
  { unfold vm_if_get_cpu_id, vm_if_get, m_bind, m_get, m_idx. rewrite E3. cbn [m_opt m_ret]. by rewrite <- Ec. }
  rewrite m_bind_assoc, (m_bind_Ret _ _ _ _ _ Ecpu). rewrite (proj2 (Z.eqb_neq c core) Hc). cbn [negb].
  eexists. split; [reflexivity|]. split; [|split; reflexivity].
  exists i'. split; [exact E3|]. split; [done|]. split; [done|].
  rewrite (proj2 (Z.eqb_neq (k + 1) 0)) by lia. by rewrite Z.add_simpl_r.
Qed.
(** Messages that can be sent, with words of 64 bits. *)
Definition sendable (m : HvcGuestMsg) : Prop := exists ws, msg_words m = Some ws /\ Forall (in_word 64) ws.
Definition told (m : HvcGuestMsg) : hevent := IpiHvc c 0 vmid (msg_fid m) (msg_event m).

Lemma words_fit m ws : msg_words m = Some ws -> 8 * zlen ws <= 24.
Proof. destruct m; intros [= <-]; done. Qed.

Lemma slots_apart k j : 0 < j < 8 -> slot_of (k + j) + SLOT <= slot_of k \/ slot_of k + SLOT <= slot_of (k + j).
Proof. unfold slot_of. change SLOT with 512. intros Hj. Z.div_mod_to_equations. lia. Qed.

Lemma send_all msgs : forall k s, 0 <= k -> ring_at k s -> Forall sendable msgs ->
  exists s', m_for msgs send s = Ret tt s' /\ ring_at (k + zlen msgs) s' /\ hlog s' = hlog s ++ (told <$> msgs) /\
    (forall j m ws, msgs !! j = Some m -> zlen msgs - 8 <= Z.of_nat j -> msg_words m = Some ws ->
       ld_words (hmem s') (slot_of (k + Z.of_nat j)) (zlen ws) = ws) /\
    (forall x, (forall j, 0 <= j < zlen msgs -> ~ (slot_of (k + j) <= x < slot_of (k + j) + SLOT)) -> ld8 (hmem s') x = ld8 (hmem s) x).
Proof.
  induction msgs as [|m msgs IH]; intros k s Hk Hr Hs.
  { exists s. rewrite app_nil_r, Z.add_0_r. split_and!; [done|done|done| |done]. by intros [|j]. }
  apply list.Forall_cons in Hs as [(ws & Ew & Hw) Hs]. destruct (send_one k s m ws Hk Hr Ew) as (s1 & E1 & Hr1 & Hm1 & Hl1).
  destruct (IH (k + 1) s1 ltac:(lia) Hr1 Hs) as (s' & E & Hr' & Hl' & Hin & Hout).
  assert (zlen (m :: msgs) = zlen msgs + 1) as El by (unfold zlen; cbn [length]; lia).
  pose proof (words_fit m ws Ew) as Hfit. exists s'. split_and!.
  - cbn [m_for]. by rewrite (m_bind_Ret _ _ _ _ _ E1).
  - rewrite El. by replace (k + (zlen msgs + 1)) with (k + 1 + zlen msgs) by lia.
  - rewrite Hl', Hl1, <- app_assoc. done.
  - intros [|j] m' ws' Hj Hlast Ew'.
    + injection Hj as <-. rewrite Ew in Ew'. injection Ew' as <-. rewrite Z.add_0_r.
      rewrite (ld_words_ext (st_words (hmem s) (slot_of k) ws)); [by apply ld_words_st_words|].
      intros x Hx. rewrite <- Hm1. apply Hout. intros j' Hj'. rewrite <- Z.add_assoc.
      pose proof (slots_apart k (1 + j') ltac:(lia)) as Ha. change SLOT with 512 in *. lia.
    + specialize (Hin j m' ws' Hj ltac:(lia) Ew'). by replace (k + Z.of_nat (S j)) with (k + 1 + Z.of_nat j) by lia.
  - intros x Hx. rewrite Hout.
    + rewrite Hm1. apply ld8_st_words. specialize (Hx 0). rewrite Z.add_0_r, El in Hx. change SLOT with 512 in *.
      pose proof (zlen_nonneg msgs). lia.
    + intros j Hj. rewrite <- Z.add_assoc. apply Hx. lia.
Qed.

Lemma update_mq_ring vm r_ipa cfg_ipa rpa i s : Vm.vm_id vm = vmid ->
  Vm.vm_ipa2pa vm r_ipa = Some rpa -> rpa <> 0 -> Vm.vm_ipa2pa vm cfg_ipa = Some A ->
  zget (vm_if s) vmid = Some i -> master_cpu_id i = Some c ->
  exists s1, ivc_update_mq vm r_ipa cfg_ipa s = Ret true s1 /\ ring_at 0 s1 /\ hmem s1 = hmem s /\ hlog s1 = hlog s.
Proof.
  intros Hv Er Hr Ecfg Ei Ec. unfold ivc_update_mq. rewrite Er, Ecfg, Hv. unfold m_opt. rewrite !m_bind_ret.
  rewrite (proj2 (Z.eqb_neq rpa 0) Hr). pose proof (zget_Some_bounds _ _ _ Ei) as Hb.
  set (i1 := mkIf (master_cpu_id i) (if_state i) (if_type i) (mac i) A (ivc_arg_ptr i)).
  set (s1 := with_if (zset (vm_if s) vmid i1) s).
  assert (vm_if_set_ivc_arg vmid A s = Ret tt s1) as E1 by (unfold vm_if_set_ivc_arg, vm_if_upd; by rewrite Ei).
  rewrite (m_bind_Ret _ _ _ _ _ E1).
  assert (zget (vm_if s1) vmid = Some i1) as Ei1 by (by apply zget_zset_eq).
  set (i2 := mkIf (master_cpu_id i) (if_state i) (if_type i) (mac i) A (usize (A - SLOT))).
  set (s2 := with_if (zset (vm_if s1) vmid i2) s1).
  assert (vm_if_set_ivc_arg_ptr vmid (usize (A - SLOT)) s1 = Ret tt s2) as E2 by (unfold vm_if_set_ivc_arg_ptr, vm_if_upd; by rewrite Ei1).
  rewrite (m_bind_Ret _ _ _ _ _ E2). eexists. split; [reflexivity|]. split; [|done].
  exists i2. split; [apply zget_zset_eq; by apply zget_Some_bounds in Ei1|]. split; [done|]. split; [done|].
  cbn [ivc_arg_ptr i2 Z.eqb]. apply wrap_small. unfold in_word. change SLOT with 512. unfold PAGE_SIZE in HA. lia.
Qed.

Lemma slot_in_page k x : ~ (A <= x < A + PAGE_SIZE) -> ~ (slot_of k <= x < slot_of k + SLOT).
Proof.
  unfold slot_of. change SLOT with 512. unfold PAGE_SIZE. pose proof (Z.mod_pos_bound k 8). lia.
Qed.
End ring.

(** C31. Messages to a VM: when a guest registers a page for messages and any number of messages is then sent to
    it from another core, every send succeeds and tells the VM's core once, in order; nothing outside
    the page is written; and the last eight messages can be read back, message [k] from the
    slot [k mod 8] of the page.  Older ones are overwritten, whether the guest has read them or not. *)
Theorem ivc_ring_holds_last_messages core irq trace c A vm r_ipa cfg_ipa rpa i s msgs :
  0x1000 <= A -> A + PAGE_SIZE < 2 ^ 64 -> c <> core ->
  Vm.vm_ipa2pa vm r_ipa = Some rpa -> rpa <> 0 -> Vm.vm_ipa2pa vm cfg_ipa = Some A ->
  zget (vm_if s) (Vm.vm_id vm) = Some i -> master_cpu_id i = Some c -> Forall sendable msgs ->
  exists s1 s2, ivc_update_mq vm r_ipa cfg_ipa s = Ret true s1 /\ m_for msgs (send core irq trace (Vm.vm_id vm)) s1 = Ret tt s2 /\
    hlog s2 = hlog s ++ (told (Vm.vm_id vm) c <$> msgs) /\
    (forall k m ws, msgs !! k = Some m -> zlen msgs - 8 <= Z.of_nat k -> msg_words m = Some ws ->
       ld_words (hmem s2) (slot_of A (Z.of_nat k)) (zlen ws) = ws) /\
    (forall x, ~ (A <= x < A + PAGE_SIZE) -> ld8 (hmem s2) x = ld8 (hmem s) x).
Proof.
  intros HA1 HA2 Hc Er Hr Ecfg Ei Ec Hs.
  destruct (update_mq_ring (Vm.vm_id vm) c A (conj HA1 HA2) vm r_ipa cfg_ipa rpa i s eq_refl Er Hr Ecfg Ei Ec)
    as (s1 & E1 & Hr1 & Hm1 & Hl1).
  destruct (send_all core irq trace (Vm.vm_id vm) c A (conj HA1 HA2) Hc msgs 0 s1 ltac:(lia) Hr1 Hs) as (s2 & E2 & _ & Hl2 & Hin & Hout).
  exists s1, s2. split; [done|]. split; [done|]. split; [by rewrite Hl2, Hl1|]. split.
  - intros k m ws Hk Hlast Ew. by apply (Hin k m ws).
  - intros x Hx. rewrite Hout, Hm1; [done|]. intros j _. by apply slot_in_page.
Qed.

(** ** The list of VMs *)

Section list_vm.
Context (heap : list Z -> list Z).

(** The memory after an entry was written at [a]. *)
Definition info_mem (m : Mem) (a : Z) (e : VmConfigEntry) (x : VmState) : Mem :=
  let m := st 4 m a (u32 (id e)) in
  let m := st 4 m (a + 36) (type_num (os_type e)) in
  let m := st 4 m (a + 40) (state_num x) in
  let m := write_at m (zrange (a + 4) (Z.to_nat NAME_MAX_LEN)) (take (Z.to_nat NAME_MAX_LEN) (name e ++ heap (name e))) in
  st8 m (a + 4 + zlen (name e)) 0.

(** What a guest finds at [a]: the id, the type, the state and the name as a C string. *)
Definition reported (m : Mem) (a : Z) (e : VmConfigEntry) (x : VmState) : Prop :=
  ld32 m a = id e /\ ld32 m (a + 36) = type_num (os_type e) /\ ld32 m (a + 40) = state_num x /\
  ld_bytes m (a + 4) (length (name e)) = name e /\ ld8 m (a + 4 + zlen (name e)) = 0.

Lemma reported_ext m m' a e x : (forall y, a <= y < a + 44 -> ld8 m' y = ld8 m y) -> zlen (name e) < NAME_MAX_LEN ->
  reported m a e x -> reported m' a e x.
Proof.
  unfold NAME_MAX_LEN, zlen. intros H Hl (H1 & H2 & H3 & H4 & H5). split_and!.
  - rewrite <- H1. apply (ld_ext 4). intros y Hy. apply H. lia.
  - rewrite <- H2. apply (ld_ext 4). intros y Hy. apply H. lia.
  - rewrite <- H3. apply (ld_ext 4). intros y Hy. apply H. lia.
  - rewrite <- H4 at 2. unfold ld_bytes. apply list_fmap_ext. intros k y Hy. apply list_elem_of_lookup_2, zrange_elem in Hy. apply H. lia.
  - rewrite <- H5. unfold zlen. apply H. lia.
Qed.

Lemma info_mem_frame m a e x y : zlen (name e) < NAME_MAX_LEN -> ~ (a <= y < a + 44) -> ld8 (info_mem m a e x) y = ld8 m y.
Proof.
  unfold NAME_MAX_LEN. intros Hl Hy. pose proof (zlen_nonneg (name e)). unfold info_mem, st8, NAME_MAX_LEN.
  rewrite ld8_st_out by lia. rewrite ld8_write_out by (rewrite zrange_elem; lia). by rewrite !ld8_st_out by lia.
Qed.

Lemma info_mem_reported m a e x : zlen (name e) < NAME_MAX_LEN -> 0 <= id e < VM_NUM_MAX -> Forall (fun b => 0 <= b < 256) (name e) ->
  reported (info_mem m a e x) a e x.
Proof.
  unfold NAME_MAX_LEN, VM_NUM_MAX. intros Hl Hid Hb. pose proof (zlen_nonneg (name e)) as Hn.
  assert (forall n b, b + Z.of_nat n <= a + 4 \/ a + 36 <= b -> forall m, ld n (st8 (write_at m (zrange (a + 4) (Z.to_nat NAME_MAX_LEN))
    (take (Z.to_nat NAME_MAX_LEN) (name e ++ heap (name e)))) (a + 4 + zlen (name e)) 0) b = ld n m b) as Hout.
  { intros n b Hnb m'. apply ld_ext. intros y Hy. unfold st8, NAME_MAX_LEN. rewrite ld8_st_out by lia.
    apply ld8_write_out. rewrite zrange_elem. lia. }
  unfold reported, info_mem. split_and!.
  - unfold ld32. rewrite Hout by lia. rewrite !ld_st_out by lia. rewrite (ld_st 4).
    rewrite wrap_small by (unfold in_word; lia). apply Z.mod_small. lia.
  - unfold ld32. rewrite Hout by lia. rewrite ld_st_out by lia. rewrite (ld_st 4). by destruct (os_type e).
  - unfold ld32. rewrite Hout by lia. rewrite (ld_st 4). by destruct x.
  - unfold ld_bytes. apply list_eq. intros k. rewrite list_lookup_fmap. destruct (name e !! k) as [b|] eqn:Ek.
    + pose proof (lookup_lt_Some _ _ _ Ek) as Hk. rewrite zrange_lookup by done. cbn [fmap option_fmap option_map]. f_equal.
      unfold st8, NAME_MAX_LEN. rewrite ld8_st_out by (unfold zlen; lia).
      rewrite (ld8_write_in _ _ _ k _ b); [|apply zrange_NoDup|apply zrange_lookup; unfold zlen in Hl; lia|].
      * apply wrap_small. apply (proj1 (Forall_lookup _ _) Hb k b Ek).
      * rewrite lookup_take_lt by (unfold zlen in Hl; lia). by apply lookup_app_l_Some.
    + apply lookup_ge_None in Ek. rewrite (proj2 (lookup_ge_None (zrange _ _) k)); [done|]. by rewrite length_zrange.
  - unfold st8, st. rewrite (ld8_write_in _ _ _ 0 _ 0); [done|apply zrange_NoDup|done|done].
Qed.

Lemma list_one_eq pa idx s e i : 0 <= idx < VM_NUM_MAX -> vm_cfg_entry (id e) (cs s) = Some e ->
  zget (vm_if s) (id e) = Some i ->
  list_one heap pa idx (id e) s =
    if NAME_MAX_LEN <=? zlen (name e) then Fault OutOfBounds
    else Ret tt (with_hmem (info_mem (hmem s) (info_at pa idx) e (if_state i)) s).
Proof.
  intros Hidx Ee Ei. unfold list_one. rewrite (m_bind_Ret m_get _ s s s) by done. rewrite Ee.
  assert (vm_if_get_state (id e) s = Ret (if_state i) s) as Es.
  { unfold vm_if_get_state, vm_if_get, m_bind, m_get, m_idx. by rewrite Ei. }
  rewrite (m_bind_Ret _ _ _ _ _ Es). rewrite (proj2 (Z.leb_gt VM_NUM_MAX idx)) by lia.
  unfold m_bind, m_modify. destruct (_ <=? _); [done|]. unfold info_mem.
  assert (vm_type (id e) (cs s) = os_type e) as -> by (unfold vm_type, vm_cfg_entry in *; by rewrite Ee). done.
Qed.

(** One turn of the loop, for the entry after [pre]. *)
Lemma list_turn pa s pre e l : table_ok (cs s) -> zlen (vm_if s) = VM_NUM_MAX -> entries_of (cs s) = pre ++ e :: l ->
  0 <= id e < VM_NUM_MAX /\ exists i, zget (vm_if s) (id e) = Some i /\ forall m,
    list_one heap pa (zlen pre) (id e) (with_hmem m s) =
      if NAME_MAX_LEN <=? zlen (name e) then Fault OutOfBounds
      else Ret tt (with_hmem (info_mem m (info_at pa (zlen pre)) e (if_state i)) s).
Proof.
  intros Hok Hif Hpre. assert (e ∈ entries_of (cs s)) as He by (rewrite Hpre; apply elem_of_app; right; by left).
  pose proof (ok_range (cs s) Hok e He) as Hr. split; [done|].
  destruct (zget_in_bounds (vm_if s) (id e)) as [i Ei]; [lia|]. exists i. split; [done|]. intros m.
  pose proof (ids_length _ (ok_ids _ Hok) (ok_range _ Hok)) as Hlen. rewrite Hpre, zlen_app in Hlen.
  assert (zlen (e :: l) = zlen l + 1) as El by (unfold zlen; cbn [length]; lia). pose proof (zlen_nonneg pre). pose proof (zlen_nonneg l).
  apply (list_one_eq pa (zlen pre) (with_hmem m s) e i); [lia| |done].
  unfold vm_cfg_entry. destruct (List.find _ _) as [e'|] eqn:Ef.
  - f_equal. apply List.find_some in Ef as [Hin Hid]. apply list_elem_of_In in Hin. apply Z.eqb_eq in Hid.
    pose proof (as_map_lookup (entries_of (cs s)) (id e) e (ok_ids _ Hok)) as L1.
    pose proof (as_map_lookup (entries_of (cs s)) (id e) e' (ok_ids _ Hok)) as L2.
    assert (Some e = Some e') as [= ->]; [|done]. rewrite <- (proj2 L1), <- (proj2 L2) by done. done.
  - apply list_elem_of_In in He. pose proof (List.find_none _ _ Ef e He) as Hn. cbn in Hn. by rewrite Z.eqb_refl in Hn.
Qed.

(** The state of the loop: only the memory differs from [s]. *)
Lemma list_loop pa s l : forall pre s1, table_ok (cs s) -> zlen (vm_if s) = VM_NUM_MAX ->
  entries_of (cs s) = pre ++ l -> (exists m, s1 = with_hmem m s) ->
  Forall (fun e => zlen (name e) < NAME_MAX_LEN /\ Forall (fun b => 0 <= b < 256) (name e)) l ->
  exists s2, m_for (zip (zrange (zlen pre) (length (id <$> l))) (id <$> l)) (fun '(idx, vmid) => list_one heap pa idx vmid) s1 = Ret tt s2 /\
    (exists m, s2 = with_hmem m s) /\
    (forall k e, l !! k = Some e -> exists i, zget (vm_if s) (id e) = Some i /\
       reported (hmem s2) (info_at pa (zlen pre + Z.of_nat k)) e (if_state i)) /\
    (forall y, ~ (info_at pa (zlen pre) <= y < info_at pa (zlen pre + zlen l)) -> ld8 (hmem s2) y = ld8 (hmem s1) y).
Proof.
  induction l as [|e l IH]; intros pre s1 Hok Hif Hpre [m1 ->] Hl.
  { exists (with_hmem m1 s). split; [done|]. split; [by exists m1|]. by split. }
  apply list.Forall_cons in Hl as [[Hle Hby] Hl].
  destruct (list_turn pa s pre e l Hok Hif Hpre) as (Hr & i & Ei & E1). specialize (E1 m1).
  assert (zlen (e :: l) = zlen l + 1) as El by (unfold zlen; cbn [length]; lia). pose proof (zlen_nonneg pre). pose proof (zlen_nonneg l).
  rewrite (proj2 (Z.leb_gt _ _) Hle) in E1. set (s1' := with_hmem (info_mem _ _ e (if_state i)) s) in E1.
  destruct (IH (pre ++ [e]) s1' Hok Hif) as (s2 & E2 & Hm2 & Hin & Hout); [by rewrite <- app_assoc|by eexists|done|].
  assert (zlen (pre ++ [e]) = zlen pre + 1) as Ep by (by rewrite zlen_app). rewrite Ep in *.
  exists s2. split_and!; [|done| |].
  - cbn [fmap list_fmap length zrange zip zip_with m_for]. by rewrite (m_bind_Ret _ _ _ _ _ E1).
  - intros [|k] e' Hk.
    + injection Hk as <-. exists i. split; [done|]. rewrite Z.add_0_r.
      apply (reported_ext (info_mem m1 (info_at pa (zlen pre)) e (if_state i))); [|done|by apply info_mem_reported].
      intros y Hy. rewrite Hout; [done|]. unfold info_at in *. lia.
    + replace (zlen pre + Z.of_nat (S k)) with (zlen pre + 1 + Z.of_nat k) by lia. by apply Hin.
  - intros y Hy. rewrite Hout by (unfold info_at in *; lia). apply info_mem_frame; [done|]. unfold info_at in *. lia.
Qed.

(** One long name is enough. *)
Lemma list_loop_long pa s l : forall pre m1, table_ok (cs s) -> zlen (vm_if s) = VM_NUM_MAX ->
  entries_of (cs s) = pre ++ l -> Exists (fun e => NAME_MAX_LEN <= zlen (name e)) l ->
  m_for (zip (zrange (zlen pre) (length (id <$> l))) (id <$> l)) (fun '(idx, vmid) => list_one heap pa idx vmid) (with_hmem m1 s) =
    Fault OutOfBounds.
Proof.
  induction l as [|e l IH]; intros pre m1 Hok Hif Hpre Hl; [by apply Exists_nil in Hl|].
  destruct (list_turn pa s pre e l Hok Hif Hpre) as (_ & i & _ & E1). specialize (E1 m1).
  cbn [fmap list_fmap length zrange zip zip_with m_for]. unfold m_bind. rewrite E1.
  destruct (Z.leb_spec NAME_MAX_LEN (zlen (name e))) as [|Hlt]; [done|].
  assert (zlen pre + 1 = zlen (pre ++ [e])) as -> by (by rewrite zlen_app).
  apply IH; [done|done|by rewrite <- app_assoc|]. apply Exists_cons in Hl as [Hl|Hl]; [lia|done].
Qed.

(** The list of VMs reports the table: for a management VM that passes a valid buffer it holds the number of VMs and,
    for every entry in order, its id, type and state and its name as a C string; nothing outside
    the list is written.  A name of 32 bytes or more, which a guest may choose when it adds a VM,
    stops the hypervisor as soon as the VMs are listed. *)
Theorem vmm_list_vm_reports vm vm_info_ipa pa s : table_ok (cs s) -> zlen (vm_if s) = VM_NUM_MAX ->
  Vm.vm_ipa2pa vm vm_info_ipa = Some pa -> pa <> 0 -> Forall (fun e => Forall (fun b => 0 <= b < 256) (name e)) (entries_of (cs s)) ->
  (Forall (fun e => zlen (name e) < NAME_MAX_LEN) (entries_of (cs s)) ->
   exists s', vmm_list_vm vm heap vm_info_ipa s = Ret (Some 0) s' /\
     ld64 (hmem s') pa = zlen (entries_of (cs s)) /\
     (forall k e, entries_of (cs s) !! k = Some e -> exists i, zget (vm_if s) (id e) = Some i /\
        reported (hmem s') (info_at pa (Z.of_nat k)) e (if_state i)) /\
     (forall y, ~ (pa <= y < info_at pa VM_NUM_MAX) -> ld8 (hmem s') y = ld8 (hmem s) y)) /\
  (Exists (fun e => NAME_MAX_LEN <= zlen (name e)) (entries_of (cs s)) ->
   vmm_list_vm vm heap vm_info_ipa s = Fault OutOfBounds).
Proof.
  intros Hok Hif Ep Hp Hb. unfold vmm_list_vm. rewrite Ep. unfold m_opt. rewrite m_bind_ret, (proj2 (Z.eqb_neq pa 0) Hp).
  set (m1 := st 8 (hmem s) pa (zlen (entries_of (cs s)))).
  rewrite (m_bind_Ret (m_modify _) _ s tt (with_hmem m1 s)) by done.
  rewrite (m_bind_Ret (m_gets _) _ (with_hmem m1 s) (id <$> entries_of (cs s)) (with_hmem m1 s)) by done.
  pose proof (ids_length _ (ok_ids _ Hok) (ok_range _ Hok)) as Hlen. pose proof (zlen_nonneg (entries_of (cs s))). unfold VM_NUM_MAX in Hlen. split.
  - intros Hs. destruct (list_loop pa s (entries_of (cs s)) [] (with_hmem m1 s)) as (s2 & E2 & _ & Hin & Hout); try done.
    + by eexists.
    + apply list.Forall_forall. intros e He. rewrite list.Forall_forall in Hs, Hb. auto.
    + change (zlen []) with 0 in *. rewrite (m_bind_Ret _ _ _ _ _ E2). exists s2. split; [done|]. split.
      * rewrite <- (Z.mod_small (zlen (entries_of (cs s))) (256 ^ Z.of_nat 8)) by lia. rewrite <- (ld_st 8 (hmem s) pa).
        apply (ld_ext 8). intros y Hy. rewrite Hout; [done|]. unfold info_at. lia.
      * split; [intros k e Hk; by apply (Hin k e)|]. intros y Hy. rewrite Hout.
        -- apply ld8_st_out. unfold info_at, VM_NUM_MAX in Hy. lia.
        -- unfold info_at, VM_NUM_MAX in *. lia.
  - intros Hl. pose proof (list_loop_long pa s (entries_of (cs s)) [] m1 Hok Hif eq_refl Hl) as E.
    change (zlen []) with 0 in E. unfold m_bind, vm_id_list. unfold entries_of in *. by rewrite E.
Qed.
End list_vm.

(** ** Calls that stop the hypervisor *)

(** A guest that names a VM id from 8 on in a boot or reboot request indexes past the interface records. *)
Lemma boot_bad_id_panics core cpu_inv vmid s : VM_NUM_MAX <= vmid -> zlen (vm_if s) = VM_NUM_MAX ->
  vmm_boot_vm core cpu_inv vmid s = Fault OutOfBounds.
Proof.
  intros Hv Hif. unfold vmm_boot_vm, vm_if_get_cpu_id, vm_if_get, m_bind, m_get, m_idx.
  by rewrite (proj2 (zget_None _ _)) by lia.
Qed.

(** ** Concrete runs *)

Definition demo_if : list VmInterface := replicate 8 VmInterface_default.
Definition demo_hs : HS := mkHS demo_cs demo_if [] Sched.array_new ∅ ∅ [].
(** The interface of VM 1, whose core is 2. *)
Definition demo_hs1 : HS := with_if (zset demo_if 1 (mkIf (Some 2) VmActive VmTOs [] 0 0)) demo_hs.

Lemma ivc_ring_holds_last_messages_witness :
  exists s1 s2, ivc_update_mq Vm.demo_vm 0x80003000 0x80004000 demo_hs1 = Ret true s1 /\
    m_for (replicate 9 (Default 3 50) ++ [Manage 1 4 7]) (send 0 96 true 1) s1 = Ret tt s2 /\
    ld_words (hmem s2) (0x50004000 + 512) 3 = [1; 4; 7].
Proof.
  destruct (ivc_ring_holds_last_messages 0 96 true 2 0x50004000 Vm.demo_vm 0x80003000 0x80004000 0x50003000
    (mkIf (Some 2) VmActive VmTOs [] 0 0) demo_hs1 (replicate 9 (Default 3 50) ++ [Manage 1 4 7]))
    as (s1 & s2 & E1 & E2 & _ & H & _).
  - done.
  - done.
  - done.
  - by vm_compute.
  - done.
  - by vm_compute.
  - done.
  - done.
  - apply Forall_app. split; [apply Forall_replicate|apply Forall_singleton]; (eexists; split; [reflexivity|]);
      repeat (apply list.Forall_cons; split; [unfold in_word; lia|]); by apply list.Forall_nil.
  - exists s1, s2. split; [exact E1|]. split; [exact E2|]. exact (H 9%nat (Manage 1 4 7) [1; 4; 7] eq_refl ltac:(done) eq_refl).
Defined.

Lemma vmm_list_vm_reports_witness :
  exists s', vmm_list_vm Vm.demo_vm (fun _ => []) 0x80005000 demo_hs = Ret (Some 0) s' /\ ld64 (hmem s') 0x50005000 = 1.
Proof.
  destruct (vmm_list_vm_reports (fun _ => []) Vm.demo_vm 0x80005000 0x50005000 demo_hs) as [H _].
  - exact demo_cs_ok.
  - done.
  - by vm_compute.
  - done.
  - by repeat constructor.
  - destruct H as (s' & E & H & _); [by repeat constructor|]. exists s'. split; [exact E|exact H].
Defined.
