(* ===== verification/VmmInit.v ===== *)
(** * VmmInit: construction and removal of a VM ([vmm/init.rs], [vmm/remove.rs])

    What gives a VM its memory, its passthrough devices and its cores, and what takes them back.  It composes
    the allocator of VM memory ([MemRegion]), the stage-2 tables ([PageTable]) and the VM object
    ([Vm]).  Loading images is modelled; the device tree that is put next to the kernel is built by
    libraries and is not. *)
From stdpp Require Import gmap list.
From S2P Require Import Prelude Bitmap GuestMem.
From S2P Require PageTable MemRegion Vm Config Sched.

(** What leaves the component. *)
Inductive ievent :=
  | IpiAssignCpu (core vmid : Z) | IpiRemoveCpu (core vmid : Z)
  | HwInt (vmid irq : Z)           (** [IntCtrl::vm_register] *)
  | IntOff (irq : Z)               (** [interrupt_cpu_enable(irq, false)] *)
  | IntcClear                      (** the interrupt controller of the core is reset *)
  | RemoveRest (vmid : Z).         (** tasks, network interfaces and the entry of the VM *)

(** [ipt]: the hypervisor's heap, and from [set_pt] on the VM's tables.  [glb]: the interrupts that have an
    owner.  [var]: the vCPUs of this core. *)
Record VI := mkVI {
  ipt : PageTable.PtS;
  pt_set : bool;
  vm_region : list MemRegion.MemRegion;
  ivm : Vm.Vm;
  imem : Mem;
  glb : BitAlloc4K;
  handlers : list Z;
  var : Sched.VcpuArray;
  ilog : list ievent;
}.
Definition with_ipt p s := mkVI p (pt_set s) (vm_region s) (ivm s) (imem s) (glb s) (handlers s) (var s) (ilog s).
Definition with_pt p s := mkVI p true (vm_region s) (ivm s) (imem s) (glb s) (handlers s) (var s) (ilog s).
Definition with_region r s := mkVI (ipt s) (pt_set s) r (ivm s) (imem s) (glb s) (handlers s) (var s) (ilog s).
Definition with_vm v s := mkVI (ipt s) (pt_set s) (vm_region s) v (imem s) (glb s) (handlers s) (var s) (ilog s).
Definition with_imem m s := mkVI (ipt s) (pt_set s) (vm_region s) (ivm s) m (glb s) (handlers s) (var s) (ilog s).
Definition with_glb g s := mkVI (ipt s) (pt_set s) (vm_region s) (ivm s) (imem s) g (handlers s) (var s) (ilog s).
Definition with_handlers h s := mkVI (ipt s) (pt_set s) (vm_region s) (ivm s) (imem s) (glb s) h (var s) (ilog s).
Definition with_var v s := mkVI (ipt s) (pt_set s) (vm_region s) (ivm s) (imem s) (glb s) (handlers s) v (ilog s).
Definition iemit (e : ievent) : M VI unit :=
  m_modify (fun s => mkVI (ipt s) (pt_set s) (vm_region s) (ivm s) (imem s) (glb s) (handlers s) (var s) (ilog s ++ [e])).

(** The operations of a component on its part of the state. *)
Definition on_pt {A} (m : M PageTable.PtS A) : M VI A := fun s =>
  match m (ipt s) with Ret a p => Ret a (with_ipt p s) | Fault f => Fault f end.
Definition on_region {A} (m : M (list MemRegion.MemRegion) A) : M VI A := fun s =>
  match m (vm_region s) with Ret a r => Ret a (with_region r s) | Fault f => Fault f end.
Definition on_var {A} (m : M Sched.VcpuArray A) : M VI A := fun s =>
  match m (var s) with Ret a r => Ret a (with_var r s) | Fault f => Fault f end.

(** A signed 64-bit difference. *)
Definition isize (z : Z) : Z := (z + 2 ^ 63) mod 2 ^ 64 - 2 ^ 63.

(** src: kernel/vm.rs 479-482 [Vm::set_pt]
    The frame becomes the root of a new table. *)
Definition set_pt (dir : Z) : M VI unit :=
  m_modify (fun s => with_pt (PageTable.pt_new dir (PageTable.mem (ipt s)) (PageTable.supply (ipt s))) s).
(** src: kernel/vm.rs 503-506 [Vm::add_region] *)
Definition add_region (r : Vm.VmPa) : M VI unit :=
  m_modify (fun s => let v := ivm s in
    with_vm (Vm.mkVm (Vm.vm_id v) (Vm.cpu_cfg v) (Vm.emu_dev_list v) (Vm.vcpu_list v) (Vm.int_bitmap v) (Vm.mem_region_num v) (Vm.pa_region v ++ [r])) s).
(** src: kernel/vm.rs 528-531 [Vm::set_mem_region_num] *)
Definition set_mem_region_num (n : Z) : M VI unit :=
  m_modify (fun s => let v := ivm s in
    with_vm (Vm.mkVm (Vm.vm_id v) (Vm.cpu_cfg v) (Vm.emu_dev_list v) (Vm.vcpu_list v) (Vm.int_bitmap v) n (Vm.pa_region v)) s).

Section init.
(** The depth of the tables; this core. *)
Context (lvl4 : bool) (core : Z).

(** src: kernel/vm.rs 437-452 [Vm::pt_map_range] *)
Definition vm_pt_map_range (ipa len pa pte : Z) (map_block : bool) : M VI unit :=
  let! s := m_get in
  if pt_set s then on_pt (PageTable.pt_map_range lvl4 ipa len pa pte map_block) else m_fault ExplicitPanic.

(** src: vmm/init.rs 65-92 [vmm_init_memory: the loop over the regions] *)
Fixpoint init_regions (rs : list Config.VmRegion) : M VI bool :=
  match rs with
  | [] => m_ret true
  | r :: rs' =>
      let! pa := on_region (MemRegion.mem_vm_region_alloc (Config.rg_length r)) in
      if pa =? 0 then m_ret false
      else
        vm_pt_map_range (Config.ipa_start r) (Config.rg_length r) pa PageTable.PTE_S2_NORMAL false >>;
        add_region (Vm.mkVmPa pa (Config.rg_length r) (isize (Config.ipa_start r - pa))) >>;
        init_regions rs'
  end.

(** src: vmm/init.rs 45-93 [vmm_init_memory]
    On AArch64, where the root of the tables is one page. *)
Definition vmm_init_memory (memory : list Config.VmRegion) : M VI bool :=
  let! f := on_pt PageTable.mem_page_alloc in
  match f with
  | None => m_ret false
  | Some dir => set_pt dir >>; set_mem_region_num (zlen memory) >>; init_regions memory
  end.

(** ** Images *)

(** src: vmm/init.rs 95-141 [vmm_load_image]
    The trace flag is on; the pieces of memory are those of the VM, in the order of the configuration. *)
Fixpoint load_image_from (memory : list Config.VmRegion) (idx load_ipa : Z) (bin : list Z) : M VI unit :=
  match memory with
  | [] => m_fault ExplicitPanic
  | r :: memory' =>
      if (load_ipa <? Config.ipa_start r) || (usize (Config.ipa_start r + Config.rg_length r) <? usize (load_ipa + zlen bin))
      then load_image_from memory' (idx + 1) load_ipa bin
      else
        let! s := m_get in
        let! p := m_idx (Vm.pa_region (ivm s)) idx in
        let a := usize (Vm.pa_start p + (load_ipa - Config.ipa_start r)) in
        if a <? 0x1000 then m_fault ExplicitPanic
        else m_put (with_imem (write_at (imem s) (zrange a (length bin)) bin) s)
  end.
Definition vmm_load_image (memory : list Config.VmRegion) (load_ipa : Z) (bin : list Z) : M VI unit :=
  load_image_from memory 0 load_ipa bin.

(** ** Interrupts and passthrough devices *)

Definition GIC_SGIS_NUM : Z := 16.
Definition GIC_PRIVINT_NUM : Z := 32.

(** src: kernel/interrupt.rs 27-32 [interrupt_reserve_int]
    [NUM_MAX] is 1024; the handlers are kept by number only. *)
Definition interrupt_reserve_int (int_id : Z) : M VI unit :=
  if int_id <? 1024 then
    m_modify (fun s => with_handlers (int_id :: handlers s) s) >>;
    let! s := m_get in
    let! g := m_opt OutOfBounds (ba_set (glb s) int_id) in m_put (with_glb g s)
  else m_ret tt.
(** src: kernel/interrupt.rs 34-36 [interrupt_is_reserved] *)
Definition interrupt_is_reserved (int_id : Z) (s : VI) : bool := bool_decide (int_id ∈ handlers s).
(** src: kernel/interrupt.rs 57-69 [interrupt_vm_register] *)
Definition interrupt_vm_register (vmid id : Z) : M VI bool :=
  let! s := m_get in
  let! b := m_opt OutOfBounds (ba_get (glb s) id) in
  if negb (b =? 0) && (GIC_PRIVINT_NUM <=? id) then m_ret false
  else
    iemit (HwInt vmid id) >>;
    let! s := m_get in
    let! g := m_opt OutOfBounds (ba_set (glb s) id) in m_put (with_glb g s) >>; m_ret true.
(** src: kernel/interrupt.rs 72-80 [interrupt_vm_remove] *)
Definition interrupt_vm_remove (id : Z) : M VI unit :=
  let! s := m_get in
  let! g := m_opt OutOfBounds (ba_clear (glb s) id) in
  m_put (with_glb g s) >>;
  if GIC_PRIVINT_NUM <=? id then iemit (IntOff id) else m_ret tt.

Fixpoint register_all (vmid : Z) (irqs : list Z) : M VI bool :=
  match irqs with
  | [] => m_ret true
  | i :: irqs' => let! ok := interrupt_vm_register vmid i in if ok : bool then register_all vmid irqs' else m_ret false
  end.

(** src: vmm/init.rs 325-366 [vmm_init_passthrough_device] *)
Definition vmm_init_passthrough_device (p : Config.VmPassthroughDeviceConfig) : M VI bool :=
  m_for (Config.regions p) (fun r =>
    vm_pt_map_range (Config.pt_ipa r) (Config.pt_length r) (Config.pt_pa r)
      (if Config.dev_property r then PageTable.PTE_S2_DEVICE else PageTable.PTE_S2_NORMALNOCACHE) true) >>;
  let! s := m_get in register_all (Vm.vm_id (ivm s)) (Config.irqs p).

(** src: kernel/iommu.rs 19-23 [iommmu_vm_init] *)
Definition iommmu_vm_init : M VI bool := m_ret false.
(** src: kernel/iommu.rs 26-30 [iommu_add_device] *)
Definition iommu_add_device (stream_id : Z) : M VI bool := m_ret false.

Fixpoint add_streams (ids : list Z) : M VI bool :=
  match ids with
  | [] => m_ret true
  | i :: ids' => if i =? 0 then m_ret true else let! ok := iommu_add_device i in if ok : bool then add_streams ids' else m_ret false
  end.
(** src: vmm/init.rs 368-387 [vmm_init_iommu_device]
    A device of type IOMMU is tried once. *)
Definition vmm_init_iommu_device (e : Config.VmConfigEntry) : M VI bool :=
  let! ok :=
    if existsb (fun d => match Config.emu_type d with Config.EmuDeviceTIOMMU => true | _ => false end) (Config.emu_dev_list e)
    then iommmu_vm_init else m_ret true in
  if ok : bool then add_streams (Config.streams_ids (Config.pt_dev e)) else m_ret false.

(** ** Cores *)

(** src: vmm/init.rs 749-776 [vmm_assign_vcpu_percore]
    The first vCPU of the VM on this core. *)
Definition vmm_assign_vcpu_percore (v : Vm.Vm) : M VI unit :=
  match List.find (fun c => Vm.phys_id c =? core) (Vm.vcpu_list v) with
  | Some c => on_var (Sched.append_vcpu c)
  | None => m_ret tt
  end.
(** src: vmm/init.rs 721-747 [vmm_init_cpu] *)
Definition vmm_init_cpu : M VI unit :=
  let! s := m_get in
  m_for (Vm.vcpu_list (ivm s)) (fun c =>
    if negb (Vm.phys_id c =? core) then iemit (IpiAssignCpu (Vm.phys_id c) (Vm.vm_id (ivm s)))
    else vmm_assign_vcpu_percore (ivm s)).

(** ** Removal *)

(** src: vmm/remove.rs 103-109 [vmm_remove_vcpu_percore] *)
Definition vmm_remove_vcpu_percore (vmid : Z) : M VI unit :=
  let! _ := on_var (Sched.remove_vcpu vmid) in
  let! s := m_get in
  if 0 <? Sched.alen (var s) then m_ret tt else iemit IntcClear.
(** src: vmm/remove.rs 83-101 [vmm_remove_vcpu] *)
Definition vmm_remove_vcpu : M VI unit :=
  let! s := m_get in
  m_for (Vm.vcpu_list (ivm s)) (fun c =>
    if Vm.phys_id c =? core then vmm_remove_vcpu_percore (Vm.vm_id (ivm s))
    else iemit (IpiRemoveCpu (Vm.phys_id c) (Vm.vm_id (ivm s)))).
(** src: vmm/remove.rs 111-117 [vmm_remove_passthrough_device] *)
Definition vmm_remove_passthrough_device (irqs : list Z) : M VI unit :=
  m_for irqs (fun i => if GIC_SGIS_NUM <? i then interrupt_vm_remove i else m_ret tt).
(** src: vmm/remove.rs 41-48 [vmm_remove_vm: the memory]
    Every piece is cleared and given back; the merge loop gets the number of regions as fuel. *)
Definition remove_memory : M VI unit :=
  let! s := m_get in
  m_for (Vm.pa_region (ivm s)) (fun p =>
    m_modify (fun s => with_imem (write_at (imem s) (zrange (Vm.pa_start p) (Z.to_nat (Vm.pa_length p)))
                                    (replicate (Z.to_nat (Vm.pa_length p)) 0)) s) >>;
    on_region (fun l => MemRegion.mem_vm_region_free (length l) (Vm.pa_start p) (Vm.pa_length p) l)).
(** src: vmm/remove.rs 22-65 [vmm_remove_vm]
    For a VM that exists and is not VM 0; what the other components do follows the passthrough devices. *)
Definition vmm_remove_vm (irqs : list Z) : M VI unit :=
  let! s := m_get in
  vmm_remove_vcpu >>; remove_memory >>; vmm_remove_passthrough_device irqs >>; iemit (RemoveRest (Vm.vm_id (ivm s))).
End init.
