(* ===== verification/VmmInitSpec.v ===== *)
(** * VmmInitSpec: the memory a VM is given

    The allocator, the stage-2 tables and the VM's own list of its memory agree: after
    [vmm_init_memory] the hardware's walk and [vm_ipa2pa] translate every byte of a configured region
    alike, to bytes that were free and now belong to the VM. *)
From stdpp Require Import gmap list.
From S2P Require Import Prelude Bits Bitmap GuestMem PtTree PageTable PageTableSpec Stage2 VmmInit.
From S2P Require MemRegion Vm Config.

Local Abbreviation len r := (Config.rg_length r).
Local Abbreviation ipa r := (Config.ipa_start r).

(** ** A new table in used memory *)

(** The root's words are zero: nothing is mapped. *)
Section new.
Context (lvl4 : bool) (d : Z) (m : gmap Z Z) (sup : list Z).
Hypothesis Hd : page_ok d.
Hypothesis Hz : forall j, 0 <= j < 512 -> rd m (slot d j) = 0.

Lemma follow_zero p : p <> [] -> idx_ok 512 p -> follow m d p = None.
Proof. destruct p as [|i p]; [done|]. intros _ [Hi _]. simpl. by rewrite Hz. Qed.

Lemma pt_ok_zero : pt_ok lvl4 (pt_new d m sup).
Proof.
  split; simpl.
  - split; [done|constructor| |].
    + intros p t Hp _ Ip. by rewrite follow_zero.
    + intros p q t _ _ Ip Iq. destruct p, q; try done; rewrite ?(follow_zero (_ :: _)) by done; done.
  - intros q j t _ Iq E. left. destruct q as [|i q]; [injection E as <-; destruct Iq as [Iq _]; by rewrite Hz|].
    apply idx_ok_app in Iq. by rewrite follow_zero in E.
Qed.

Lemma tr_zero q : full lvl4 q -> tr (pt_new d m sup) q = None.
Proof.
  intros [Hq Iq]. destruct q as [|i q]; [by destruct lvl4|]. destruct Iq as [Hi _].
  change (i :: q) with ([] ++ i :: q). eapply (empty_translate _ _ _ d); [done|by apply Hz].
Qed.

(** A table without entries. *)
Lemma table_zero : fresh (pt_new d m sup) -> table_is lvl4 [] (pt_new d m sup).
Proof.
  intros Hf. split; [split; [apply pt_ok_zero|done|]|intros a _; apply stage2_none, tr_zero, path_full].
  intros b _ F. exfalso. apply F. destruct (path_oks lvl4 b) as (_ & O2 & _). apply follow_zero; [|done].
  unfold block_path. by destruct (root_path lvl4 b ++ _).
Qed.
End new.

(** Frames of the heap: pages, each once. *)
Definition heap_ok (sup : list Z) : Prop := NoDup sup /\ Forall page_ok sup.

Lemma page_off_root d f : page_ok d -> page_ok f -> f <> d -> off_root 512 d f.
Proof.
  intros [Hd _] [Hf _] Hne. unfold off_root.
  pose proof (Z.div_mod d 4096). pose proof (Z.div_mod f 4096). lia.
Qed.

Lemma heap_fresh d rest m : heap_ok (d :: rest) -> fresh (pt_new d m rest).
Proof.
  intros [[Hn Hnd]%list.NoDup_cons [Hd Hp]%list.Forall_cons]. split; [done|]. simpl.
  rewrite list.Forall_forall in *. intros f Hf. split_and!; [by apply Hp| |by intros ?%elem_of_nil].
  apply page_off_root; [done|by apply Hp|]. by intros ->.
Qed.

(** ** Regions of memory on page boundaries *)

Definition on_pages (l : list MemRegion.MemRegion) : Prop :=
  Forall (fun r => MemRegion.base r mod 4096 = 0 /\ 4096 <= MemRegion.base r /\
                   MemRegion.base r + MemRegion.size r * 4096 <= 2 ^ 48) l.

(** Page-aligned memory stays so: what [mem_vm_region_alloc] gives. *)
Lemma alloc_pages_spec l n : MemRegion.mem_wf l -> on_pages l -> 0 < n ->
  (Forall (fun r => MemRegion.free r < n) l /\ MemRegion.mem_vm_region_alloc (n * 4096) l = Ret 0 l) \/
  exists pa l', MemRegion.mem_vm_region_alloc (n * 4096) l = Ret pa l' /\ MemRegion.mem_wf l' /\ on_pages l' /\
    pa mod 4096 = 0 /\ 4096 <= pa /\ pa + n * 4096 <= 2 ^ 48 /\
    (forall a, MemRegion.in_range pa (n * 4096) a -> MemRegion.free_byte l a) /\
    (forall a, MemRegion.free_byte l' a <-> MemRegion.free_byte l a /\ ~ MemRegion.in_range pa (n * 4096) a) /\
    (forall a, MemRegion.used_byte l' a <-> MemRegion.used_byte l a \/ MemRegion.in_range pa (n * 4096) a) /\
    (exists u, u ∈ l' /\ MemRegion.base u = pa /\ MemRegion.size u = n /\ MemRegion.free u = 0) /\
    (forall x, MemRegion.free x = 0 -> x ∈ l -> x ∈ l').
Proof.
  intros Hwf Hal Hn. destruct (MemRegion.mem_vm_region_alloc_carve l n Hwf Hn)
    as [H|(pa & l' & u & i & r & E1 & E2 & Eb & E & Hwf' & H1 & H2 & H3 & Ui & Ub & Us & Uf & Hp)]; [by left|right].
  exists pa, l'. assert (r ∈ l) as Hr by (by eapply list_elem_of_lookup_2).
  pose proof Hal as Hal'. unfold on_pages in Hal'. rewrite list.Forall_forall in Hal'. destruct (Hal' r Hr) as (A1 & A2 & A3).
  assert (n <= MemRegion.size r) as Hs.
  { apply MemRegion.first_fit_Some in E1 as (r' & E1 & Hf). assert (r' = r) as -> by congruence.
    destruct Hwf as [Hok _]. rewrite list.Forall_forall in Hok. destruct (Hok r Hr) as (_ & _ & _ & [?|?]); lia. }
  split_and!; try done; [|by subst|lia|lia|by exists u|].
  2: { intros x Hx Hin. rewrite Hp. right. apply elem_of_app. right. rewrite (MemRegion.lookup_perm l i r E2) in Hin.
       apply elem_of_cons in Hin as [->|?]; [|done].
       apply MemRegion.first_fit_Some in E1 as (r' & E1 & Hf). assert (r' = r) as -> by congruence. lia. }
  unfold on_pages. rewrite Hp. apply list.Forall_cons. split; [rewrite Ub, Us; subst; lia|]. apply list.Forall_app. split.
  - unfold MemRegion.carve_rest. destruct (n <? MemRegion.size r); [|constructor]. apply list.Forall_singleton. simpl.
    unfold MemRegion.PAGE_SIZE. rewrite Z.mod_add by lia. split; [done|lia].
  - by apply Forall_delete.
Qed.

(** ** The pieces of memory of a VM *)

(** A configured region with the address of the memory it was given. *)
Abbreviation piece := (Config.VmRegion * Z)%type.
Definition npages (r : Config.VmRegion) : Z := len r / 4096.
Definition rspans (r : Config.VmRegion) : Z := spans (ipa r) (npages r).
(** The range of the tables that a piece is. *)
Definition rng (p : piece) : Range := mkRange (ipa p.1) (npages p.1) p.2.
Definition holds (p : piece) (a : Z) : Prop := MemRegion.in_range p.2 (len p.1) a.

Section build.
Context (lvl4 : bool).

(** What a configuration has to satisfy: whole pages in the input space of the tables. *)
Definition region_fits (r : Config.VmRegion) : Prop :=
  0 <= ipa r /\ ipa r mod 4096 = 0 /\ 0 < len r /\ len r mod 4096 = 0 /\ ipa r + len r <= 2 ^ ia_bits lvl4.

(** Two regions that do not overlap, and two with a gap between them besides. *)
Definition apart (r r' : Config.VmRegion) : Prop := ipa r + len r <= ipa r' \/ ipa r' + len r' <= ipa r.
Definition gap (r r' : Config.VmRegion) : Prop := ipa r + len r < ipa r' \/ ipa r' + len r' < ipa r.

(** The VM has the pieces [ps], out of the memory free in [l0]. *)
Record built (l0 : list MemRegion.MemRegion) (ps : list piece) (s : VI) : Prop := {
  b_set : pt_set s = true;
  b_table : table_is lvl4 (rng <$> ps) (ipt s);
  b_wf : MemRegion.mem_wf (vm_region s);
  b_pages : on_pages (vm_region s);
  b_vm : Vm.pa_region (ivm s) = (fun p => Vm.mkVmPa p.2 (len p.1) (isize (ipa p.1 - p.2))) <$> ps;
  b_fits : Forall (fun p => region_fits p.1 /\ p.2 mod 4096 = 0 /\ 4096 <= p.2 /\ p.2 + len p.1 <= 2 ^ 48) ps;
  b_free : forall a, MemRegion.free_byte (vm_region s) a <-> MemRegion.free_byte l0 a /\ ~ exists p, p ∈ ps /\ holds p a;
  b_used : forall a, MemRegion.used_byte (vm_region s) a <-> MemRegion.used_byte l0 a \/ exists p, p ∈ ps /\ holds p a;
  b_reg : forall p, p ∈ ps -> exists u, u ∈ vm_region s /\ MemRegion.base u = p.2 /\ MemRegion.size u = npages p.1 /\ MemRegion.free u = 0;
  b_own : forall p a, p ∈ ps -> holds p a -> MemRegion.free_byte l0 a;
  b_disj : forall i j p p' a, ps !! i = Some p -> ps !! j = Some p' -> holds p a -> holds p' a -> i = j;
}.

Lemma ia_48 : 2 ^ ia_bits lvl4 <= 2 ^ 48.
Proof. apply Z.pow_le_mono_r; [lia|]. unfold ia_bits, depth. destruct lvl4; lia. Qed.

Lemma fits_pages r : region_fits r -> 0 < npages r /\ len r = npages r * 4096 /\ (len r + 4095) / 4096 = npages r.
Proof.
  intros (_ & _ & H & E & _). unfold npages. pose proof (Z.div_mod (len r) 4096) as D.
  assert (len r = len r / 4096 * 4096) as F by lia. split_and!; [lia|done|].
  rewrite F, Z.div_add_l by lia. change (4095 / 4096) with 0. rewrite Z.div_mul by lia. lia.
Qed.

Lemma piece_holds_free l0 ps s p a : built l0 ps s -> p ∈ ps -> holds p a -> ~ MemRegion.free_byte (vm_region s) a.
Proof. intros B Hp Ha Hf. apply (b_free _ _ _ B) in Hf as [_ Hn]. apply Hn. by exists p. Qed.

Lemma piece_range r pa : region_fits r -> pa mod 4096 = 0 -> 4096 <= pa -> pa + len r <= 2 ^ 48 -> range_fits lvl4 (rng (r, pa)).
Proof.
  intros Hr Hm Hlo Hhi. destruct (fits_pages r Hr) as (Hn & L & _). destruct Hr as (H1 & H2 & H3 & H4 & H5).
  unfold range_fits, rng. simpl. rewrite <- L. split_and!; lia || done.
Qed.

(** The tables after a new region has been mapped. *)
Lemma map_region l0 ps s r pa : built l0 ps s -> region_fits r -> Forall (fun p => apart p.1 r) ps ->
  pa mod 4096 = 0 -> 4096 <= pa -> pa + len r <= 2 ^ 48 -> 3 * rspans r <= zlen (supply (ipt s)) ->
  exists t, pt_map_range lvl4 (ipa r) (len r) pa PTE_S2_NORMAL false (ipt s) = Ret tt t /\
    table_is lvl4 (rng <$> (ps ++ [(r, pa)])) t /\ zlen (supply (ipt s)) <= 3 * rspans r + zlen (supply t).
Proof.
  intros B Hr Hap Hm Hlo Hhi Hsup. destruct (fits_pages r Hr) as (Hn & L & En).
  pose proof (b_fits _ _ _ B) as Hfits. rewrite list.Forall_forall in Hap, Hfits.
  destruct (table_add lvl4 (rng <$> ps) (ipt s) (rng (r, pa)) (len r) PTE_S2_NORMAL false) as (t & E & T & Ls).
  { apply B. } { by apply piece_range. }
  { apply list.Forall_fmap, list.Forall_forall. intros p Hp. destruct (fits_pages p.1) as (_ & Lp & _); [by apply Hfits|].
    specialize (Hap p Hp). unfold disjoint_ranges, apart in *. simpl. lia. }
  { apply Hr. } { done. } { by vm_compute. } { done. } { done. }
  exists t. rewrite fmap_app. done.
Qed.

(** What one turn of the loop leaves. *)
Definition grown (t : PtS) (l : list MemRegion.MemRegion) (r : Config.VmRegion) (pa : Z) (s : VI) : VI :=
  let v := ivm s in
  with_vm (Vm.mkVm (Vm.vm_id v) (Vm.cpu_cfg v) (Vm.emu_dev_list v) (Vm.vcpu_list v) (Vm.int_bitmap v) (Vm.mem_region_num v)
             (Vm.pa_region v ++ [Vm.mkVmPa pa (len r) (isize (ipa r - pa))])) (with_ipt t (with_region l s)).

Lemma pieces_snoc (ps : list piece) (p : piece) a :
  (exists q, q ∈ ps ++ [p] /\ holds q a) <-> (exists q, q ∈ ps /\ holds q a) \/ holds p a.
Proof.
  split.
  - intros (q & [Hq| ->%list_elem_of_singleton]%elem_of_app & Ha); [left; by exists q|by right].
  - intros [(q & Hq & Ha)|Ha]; [exists q|exists p]; (split; [apply elem_of_app; set_solver|done]).
Qed.

Lemma disj_snoc l0 ps s p : built l0 ps s -> (forall a, holds p a -> MemRegion.free_byte (vm_region s) a) ->
  forall i j q q' a, (ps ++ [p]) !! i = Some q -> (ps ++ [p]) !! j = Some q' -> holds q a -> holds q' a -> i = j.
Proof.
  intros B Hf i j q q' a Hi Hj Hq Hq'.
  assert (forall q, q ∈ ps -> holds q a -> ~ holds p a) as Hno by (intros x Hx Ha Hp; by apply (piece_holds_free _ _ _ _ a B Hx Ha), Hf).
  apply lookup_app_Some in Hi as [Hi|[Hi1 Hi]], Hj as [Hj|[Hj1 Hj]].
  - by eapply (b_disj _ _ _ B).
  - apply list_lookup_singleton_Some in Hj as [_ <-]. destruct (Hno q); [by eapply list_elem_of_lookup_2|done..].
  - apply list_lookup_singleton_Some in Hi as [_ <-]. destruct (Hno q'); [by eapply list_elem_of_lookup_2|done..].
  - apply list_lookup_singleton_Some in Hi as [? _], Hj as [? _]. lia.
Qed.

(** One region: no memory for it, or one more piece. *)
Lemma init_region_spec l0 ps s r rs : built l0 ps s -> region_fits r -> Forall (fun p => apart p.1 r) ps ->
  3 * rspans r <= zlen (supply (ipt s)) ->
  (Forall (fun f => MemRegion.free f < npages r) (vm_region s) /\ init_regions lvl4 (r :: rs) s = Ret false s) \/
  exists pa t l, init_regions lvl4 (r :: rs) s = init_regions lvl4 rs (grown t l r pa s) /\
    built l0 (ps ++ [(r, pa)]) (grown t l r pa s) /\ zlen (supply (ipt s)) <= 3 * rspans r + zlen (supply t).
Proof.
  intros B Hr Hap Hsup. destruct (fits_pages r Hr) as (Hn & L & _).
  destruct (alloc_pages_spec (vm_region s) (npages r) (b_wf _ _ _ B) (b_pages _ _ _ B) Hn)
    as [[Hno E]|(pa & l & E & Wf & Al & M1 & M2 & M3 & Hfr & Hfb & Hub & Hreg & Hkeep)]; rewrite <- L in *.
  - left. split; [done|]. cbn [init_regions]. unfold on_region. unfold m_bind. rewrite E. by destruct s.
  - right. destruct (map_region l0 ps s r pa B Hr Hap M1 M2 M3 Hsup) as (t & Em & Ht & Hs).
    exists pa, t, l. split; [|split; [|done]].
    { cbn [init_regions]. erewrite m_bind_Ret by (unfold on_region; by rewrite E). cbv beta.
      rewrite (proj2 (Z.eqb_neq pa 0)) by lia. erewrite m_bind_Ret.
      2:{ unfold vm_pt_map_range. erewrite m_bind_Ret by reflexivity. cbn [pt_set with_region]. rewrite (b_set _ _ _ B).
          unfold on_pt. cbn [ipt with_region]. by rewrite Em. }
      by erewrite m_bind_Ret by reflexivity. }
    assert (forall a, holds (r, pa) a <-> MemRegion.in_range pa (len r) a) as Hh by done.
    split; unfold grown; cbn [pt_set ipt vm_region ivm with_vm with_ipt with_region Vm.pa_region]; try done.
    + apply B.
    + by rewrite (b_vm _ _ _ B), fmap_app.
    + apply list.Forall_app. split; [apply B|]. by apply list.Forall_singleton.
    + intros a. rewrite Hfb, (b_free _ _ _ B), pieces_snoc, Hh. tauto.
    + intros a. rewrite Hub, (b_used _ _ _ B), pieces_snoc, Hh. tauto.
    + intros p [Hp| ->%list_elem_of_singleton]%elem_of_app; [|done].
      destruct (b_reg _ _ _ B p Hp) as (u & Hu & ? & ? & Hf). exists u. split; [by apply Hkeep|done].
    + intros p a [Hp| ->%list_elem_of_singleton]%elem_of_app Ha; [by eapply (b_own _ _ _ B)|].
      by apply (b_free _ _ _ B), Hfr.
    + by apply (disj_snoc l0 ps s).
Qed.

(** Frames for the tables: three per 2 MB that a region touches. *)
Definition total_spans (rs : list Config.VmRegion) : Z := foldr (fun r n => rspans r + n) 0 rs.

Lemma total_spans_nonneg rs : Forall region_fits rs -> 0 <= total_spans rs.
Proof.
  induction 1 as [|r rs Hr _ IH]; simpl; [lia|]. pose proof (fits_pages r Hr). unfold rspans.
  assert (0 <= spans (ipa r) (npages r)) by (apply spans_nonneg; destruct Hr; lia). lia.
Qed.

Lemma init_regions_spec l0 rs : forall ps s,
  built l0 ps s -> Forall region_fits rs -> ForallOrdPairs apart rs -> Forall (fun p => Forall (apart p.1) rs) ps ->
  3 * total_spans rs <= zlen (supply (ipt s)) ->
  exists b s', init_regions lvl4 rs s = Ret b s' /\
    if b then Vm.mem_region_num (ivm s') = Vm.mem_region_num (ivm s) /\
              zlen (supply (ipt s)) <= 3 * total_spans rs + zlen (supply (ipt s')) /\
              exists pas, length pas = length rs /\ built l0 (ps ++ zip rs pas) s'
    else exists r, r ∈ rs /\ Forall (fun f => MemRegion.free f < npages r) (vm_region s').
Proof.
  induction rs as [|r rs IH]; intros ps s B Hf Ho Hap Hs.
  { exists true, s. split; [done|]. split; [done|]. split; [simpl; lia|]. exists []. by rewrite app_nil_r. }
  apply list.Forall_cons in Hf as [Hr Hf]. inversion Ho as [|? ? Hr' Ho']; subst.
  simpl in Hs. pose proof (total_spans_nonneg rs Hf).
  assert (Forall (fun p => apart p.1 r) ps) as Hap1 by (eapply list.Forall_impl; [exact Hap|]; intros p Hp; by inversion Hp).
  destruct (init_region_spec l0 ps s r rs B Hr Hap1) as [[Hno E]|(pa & t & l & E & B' & Hsup)]; [lia| |].
  { exists false, s. split; [done|]. exists r. split; [by left|done]. }
  destruct (IH (ps ++ [(r, pa)]) _ B' Hf Ho') as (b & s' & E' & Hb).
  - apply list.Forall_app. split; [|by apply list.Forall_singleton].
    eapply list.Forall_impl; [exact Hap|]. intros p Hp. by inversion Hp.
  - simpl. lia.
  - rewrite E. exists b, s'. split; [done|]. destruct b.
    + destruct Hb as (Hnum & Hs' & pas & Hlen & HB). split; [done|]. split; [simpl in *; lia|]. exists (pa :: pas). simpl. split; [by rewrite Hlen|].
      by rewrite <- app_assoc in HB.
    + destruct Hb as (r' & Hin & Hno). exists r'. split; [by right|done].
Qed.
End build.

(** ** The translation of [vm_ipa2pa] *)

Lemma ipa2pa_from_unique regions a idx k r : k ∈ idx -> zget regions k = Some r ->
  Bits.in_range (usize (a - Vm.pa_offset r)) (Vm.pa_start r) (Vm.pa_length r) = true ->
  (forall i, i ∈ idx -> i <> k -> exists r', zget regions i = Some r' /\
     Bits.in_range (usize (a - Vm.pa_offset r')) (Vm.pa_start r') (Vm.pa_length r') = false) ->
  Vm.ipa2pa_from regions a idx = Some (usize (a - Vm.pa_offset r)).
Proof.
  intros Hk Hr Hin Hne. induction idx as [|i idx IH]; [by apply elem_of_nil in Hk|]. simpl.
  destruct (decide (i = k)) as [->|Hd]; [by rewrite Hr, Hin|].
  destruct (Hne i) as (r' & -> & ->); [by left|done|]. apply IH; [set_solver|].
  intros j Hj. apply Hne. by right.
Qed.

(** A piece of memory as the VM records it, and the test [ipa2pa] makes on it. *)
Lemma piece_test lvl4 r pa a : region_fits lvl4 r -> 4096 <= pa -> pa + len r <= 2 ^ 48 -> 0 <= a < 2 ^ 48 ->
  let v := Vm.mkVmPa pa (len r) (isize (ipa r - pa)) in
  (Bits.in_range (usize (a - Vm.pa_offset v)) pa (len r) = true <-> ipa r <= a <= ipa r + len r) /\
  (ipa r <= a -> usize (a - Vm.pa_offset v) = pa + (a - ipa r)).
Proof.
  intros (H1 & _ & H2 & _ & H3) Hlo Hhi Ha v. pose proof (ia_48 lvl4).
  assert (isize (ipa r - pa) = ipa r - pa) as Ei by (unfold isize; rewrite Z.mod_small by lia; lia).
  subst v. simpl. rewrite Ei.
  assert (ipa r <= a -> usize (a - (ipa r - pa)) = pa + (a - ipa r)) as Eu
    by (intros ?; rewrite wrap_small by (unfold in_word; lia); lia).
  split; [|done]. rewrite Vm.in_range_spec; [|by apply wrap_range|lia|unfold in_word; lia].
  destruct (Z.le_gt_cases (ipa r) a) as [Hge|Hlt]; [rewrite Eu by done; lia|].
  split; [|lia]. intros [Hw1 Hw2]. destruct (Z.le_gt_cases 0 (a - (ipa r - pa))) as [?|?].
  - rewrite wrap_small in Hw1 by (unfold in_word; lia). lia.
  - assert (usize (a - (ipa r - pa)) = a - (ipa r - pa) + 2 ^ 64) as Ew; [|lia].
    unfold usize, wrap. rewrite <- (Z.mod_add _ 1) by lia. rewrite Z.mod_small by lia. lia.
Qed.

Lemma gap_lookup l : ForallOrdPairs gap l -> forall i j r r',
  l !! i = Some r -> l !! j = Some r' -> i <> j -> gap r r'.
Proof.
  assert (forall r r', gap r r' -> gap r' r) as Hsym by (unfold gap; tauto).
  induction 1 as [|r0 l Hr0 _ IH]; intros i j r r' Hi Hj Hne; [done|]. rewrite list.Forall_forall in Hr0.
  destruct i as [|i], j as [|j]; simpl in *; [done| | |].
  - injection Hi as <-. apply Hr0. by eapply list_elem_of_lookup_2.
  - injection Hj as <-. apply Hsym, Hr0. by eapply list_elem_of_lookup_2.
  - eapply IH; [exact Hi|exact Hj|lia].
Qed.

(** In a VM that has been built, both translations of a byte of a piece. *)
Section built.
Context (lvl4 : bool) (l0 : list MemRegion.MemRegion) (memory : list Config.VmRegion) (pas : list Z) (s : VI).
Let ps := zip memory pas.
Hypothesis Hlen : length pas = length memory.
Hypothesis B : built lvl4 l0 ps s.
Hypothesis Ho : ForallOrdPairs apart memory.
Hypothesis Hnum : Vm.mem_region_num (ivm s) = zlen memory.

Lemma piece_fits r pa : (r, pa) ∈ ps -> region_fits lvl4 r /\ pa mod 4096 = 0 /\ 4096 <= pa /\ pa + len r <= 2 ^ 48.
Proof. intros Hp. pose proof (b_fits _ _ _ _ B) as H. rewrite list.Forall_forall in H. exact (H _ Hp). Qed.

Lemma built_ipa2pa r pa x : ForallOrdPairs gap memory -> 0 < ipa r -> (r, pa) ∈ ps -> 0 <= x < len r -> Vm.vm_ipa2pa (ivm s) (ipa r + x) = Some (pa + x).
Proof.
  intros Hg Hpos Hp Hx. destruct (piece_fits r pa Hp) as (Hr & _ & Hlo & Hhi). pose proof Hr as (H1 & _ & _ & _ & H2). pose proof (ia_48 lvl4).
  apply list_elem_of_lookup in Hp as [k Hk]. unfold Vm.vm_ipa2pa. rewrite (proj2 (Z.eqb_neq _ 0)) by lia.
  destruct (piece_test lvl4 r pa (ipa r + x) Hr Hlo Hhi) as [Ht Hu]; [lia|].
  assert (forall i p, ps !! i = Some p -> zget (Vm.pa_region (ivm s)) (Z.of_nat i) =
    Some (Vm.mkVmPa p.2 (len p.1) (isize (ipa p.1 - p.2)))) as Hget.
  { intros i p Hi. unfold zget. rewrite (proj2 (Z.leb_le 0 _)), Nat2Z.id, (b_vm _ _ _ _ B), list_lookup_fmap by lia. by rewrite Hi. }
  assert (length ps = length memory) as Hl by (unfold ps; rewrite length_zip; lia).
  rewrite (ipa2pa_from_unique (Vm.pa_region (ivm s)) (ipa r + x) (zrange 0 (Z.to_nat (Vm.mem_region_num (ivm s)))) (Z.of_nat k)
    (Vm.mkVmPa pa (len r) (isize (ipa r - pa)))); [|..]; cycle 2.
  - exact (Hget _ _ Hk).
  - apply Ht. lia.
  - intros i [Hi0 Hi]%zrange_elem Hne. rewrite Hnum in Hi. unfold zlen in Hi.
    destruct (lookup_lt_is_Some_2 ps (Z.to_nat i)) as [[r' pa'] Hi']; [lia|].
    exists (Vm.mkVmPa pa' (len r') (isize (ipa r' - pa'))).
    split; [rewrite <- (Z2Nat.id i) by lia; exact (Hget _ _ Hi')|]. simpl.
    destruct (piece_fits r' pa') as (Hr' & _ & Hlo' & Hhi'); [by eapply list_elem_of_lookup_2|].
    apply not_true_is_false. rewrite (proj1 (piece_test lvl4 r' pa' (ipa r + x) Hr' Hlo' Hhi' ltac:(lia))).
    pose proof Hi' as [Em' _]%lookup_zip_Some. pose proof Hk as [Em _]%lookup_zip_Some.
    pose proof (gap_lookup memory Hg _ _ _ _ Em Em' ltac:(lia)) as Ha. unfold gap in Ha. lia.
  - rewrite Hu by lia. f_equal. lia.
  - rewrite Hnum. apply zrange_elem. apply lookup_lt_Some in Hk. unfold zlen. lia.
Qed.

Lemma built_disjoint : ForallOrdPairs disjoint_ranges (rng <$> ps).
Proof.
  assert (Forall (fun p => region_fits lvl4 p.1) ps) as Hf by (apply list.Forall_forall; intros [r pa] Hp; apply (piece_fits r pa Hp)).
  clear -Hf Ho Hlen. subst ps. revert pas Hlen Hf. induction Ho as [|r memory Hr _ IH]; intros [|pa pas] Hl Hf; simpl in Hf; try constructor; [|].
  - apply list.Forall_cons in Hf as [Hfr Hf]. apply list.Forall_fmap, list.Forall_forall. intros [r' pa'] Hp.
    rewrite list.Forall_forall in Hr. rewrite list.Forall_forall in Hf. specialize (Hr r' ltac:(by eapply elem_of_zip_l)). specialize (Hf _ Hp). simpl in *.
    destruct (fits_pages lvl4 r Hfr) as (_ & L & _), (fits_pages lvl4 r' Hf) as (_ & L' & _).
    unfold disjoint_ranges, apart in *. simpl. lia.
  - apply list.Forall_cons in Hf as [_ Hf]. inversion Ho. apply IH; [done|simpl in Hl; lia|done].
Qed.

Lemma built_look r pa x : (r, pa) ∈ ps -> 0 <= x < len r -> look (rng <$> ps) (ipa r + x) = Some (pa + x).
Proof.
  intros Hp Hx. destruct (piece_fits r pa Hp) as (Hr & _). destruct (fits_pages lvl4 r Hr) as (_ & L & _).
  rewrite (look_in _ (rng (r, pa))); [simpl; f_equal; lia|exact built_disjoint|by apply list_elem_of_fmap_2|].
  apply inside_spec. simpl. lia.
Qed.

Lemma built_walk r pa x : (r, pa) ∈ ps -> 0 <= x < len r -> stage2 lvl4 (ipt s) (ipa r + x) = Some (pa + x).
Proof.
  intros Hp Hx. destruct (piece_fits r pa Hp) as (Hr & _). pose proof Hr as (H1 & _ & _ & _ & H2).
  rewrite (ti_look _ _ _ (b_table _ _ _ _ B)) by lia. by apply built_look.
Qed.
End built.

(** ** The claim *)

(** A hypervisor about to give a new VM its memory. *)
Record ready (lvl4 : bool) (memory : list Config.VmRegion) (s : VI) : Prop := {
  rd_heap : heap_ok (supply (ipt s));
  rd_wf : MemRegion.mem_wf (vm_region s);
  rd_pages : on_pages (vm_region s);
  rd_vm : Vm.pa_region (ivm s) = [];
  rd_fits : Forall (region_fits lvl4) memory;
  rd_apart : ForallOrdPairs apart memory;
  rd_frames : 1 + 3 * total_spans memory <= zlen (supply (ipt s));
}.

(** Byte [x] of the piece [p] is the VM's, for its own list and for the tables. *)
Definition owns (lvl4 : bool) (s : VI) (p : piece) (x : Z) : Prop :=
  Vm.vm_ipa2pa (ivm s) (ipa p.1 + x) = Some (p.2 + x) /\
  stage2 lvl4 (ipt s) (ipa p.1 + x) = Some (p.2 + x).

(** The state before the first region. *)
Lemma built_start lvl4 memory s : ready lvl4 memory s ->
  exists s1, vmm_init_memory lvl4 memory s = init_regions lvl4 memory s1 /\ built lvl4 (vm_region s) [] s1 /\
    Vm.mem_region_num (ivm s1) = zlen memory /\ 3 * total_spans memory <= zlen (supply (ipt s1)) /\
    zlen (supply (ipt s)) = 1 + zlen (supply (ipt s1)) /\ glb s1 = glb s.
Proof.
  intros [Hh Hw Hp Hv Hf Ho Hn]. pose proof (total_spans_nonneg lvl4 memory Hf).
  destruct (supply (ipt s)) as [|d rest] eqn:Es; [unfold zlen in Hn; simpl in Hn; lia|].
  pose proof Hh as [_ [Hd _]%list.Forall_cons].
  eexists. split.
  - unfold vmm_init_memory. erewrite m_bind_Ret by (unfold on_pt; by rewrite (alloc_eq _ _ _ Es)). cbv beta iota.
    erewrite m_bind_Ret by reflexivity. erewrite m_bind_Ret by reflexivity. reflexivity.
  - cbn. split; [|split_and!; [done|unfold zlen in *; simpl in *; lia|unfold zlen; simpl; lia|done]].
    assert (forall j, 0 <= j < 512 -> rd (zero_words d 512 (mem (ipt s))) (slot d j) = 0) as Hz
      by (intros j Hj; by apply rd_zero_words_in).
    split; cbn; try done.
    + by apply table_zero, heap_fresh.
    + intros a. set_solver.
    + intros a. set_solver.
    + intros p Hp'. by apply elem_of_nil in Hp'.
    + intros p a Hp'. by apply elem_of_nil in Hp'.
Qed.

(** C34. A VM's memory.  For regions of whole pages above address 0 with a gap between any two of them, a VM without memory, and
    frames for the tables (three per 2 MB touched), [vmm_init_memory] terminates.  When it succeeds, every byte of every region is translated
    by the list of the VM ([vm_ipa2pa]) and by the walk of the tables to the same byte, which was free before and
    belongs to a VM after; no byte is given twice, and outside of the regions the tables map nothing.
    It fails only when some region finds no free memory of its size. *)
Theorem vm_memory_agrees lvl4 memory s : ready lvl4 memory s -> ForallOrdPairs gap memory -> Forall (fun r => 0 < ipa r) memory ->
  exists b s', vmm_init_memory lvl4 memory s = Ret b s' /\
    if b then exists pas, length pas = length memory /\
      (forall p x, p ∈ zip memory pas -> 0 <= x < len p.1 ->
         owns lvl4 s' p x /\ MemRegion.free_byte (vm_region s) (p.2 + x) /\ MemRegion.used_byte (vm_region s') (p.2 + x)) /\
      (forall i j p p' a, zip memory pas !! i = Some p -> zip memory pas !! j = Some p' -> holds p a -> holds p' a -> i = j) /\
      (forall a, 0 <= a < 2 ^ ia_bits lvl4 -> (forall r, r ∈ memory -> ~ (ipa r <= a < ipa r + len r)) ->
         stage2 lvl4 (ipt s') a = None)
    else exists r, r ∈ memory /\ Forall (fun f => MemRegion.free f < npages r) (vm_region s').
Proof.
  intros Hr Hg Hpos. pose proof Hr as [_ _ _ _ Hf Ho _]. destruct (built_start lvl4 memory s Hr) as (s1 & -> & B1 & Hnum & Hs1 & _).
  destruct (init_regions_spec lvl4 (vm_region s) memory [] s1 B1 Hf Ho ltac:(constructor) Hs1) as (b & s' & E & Hb).
  exists b, s'. split; [exact E|]. destruct b; [|exact Hb]. destruct Hb as (Hnum' & _ & pas & Hlen & B). rewrite Hnum in Hnum'.
  exists pas. split; [done|]. split; [|split; [exact (b_disj _ _ _ _ B)|]].
  - intros [r pa] x Hp Hx. cbn [fst snd] in *.
    assert (holds (r, pa) (pa + x)) as Hh by (unfold holds, MemRegion.in_range; simpl; lia).
    split; [split|split].
    + rewrite list.Forall_forall in Hpos. apply (built_ipa2pa lvl4 (vm_region s) memory pas); try done. apply Hpos. by eapply elem_of_zip_l.
    + by apply (built_walk lvl4 (vm_region s) memory pas).
    + by apply (b_own _ _ _ _ B (r, pa)).
    + apply (b_used _ _ _ _ B). right. by exists (r, pa).
  - intros a Ha Hout. rewrite (ti_look _ _ _ (b_table _ _ _ _ B)) by done. apply look_none.
    intros q ([r pa] & -> & Hp)%list_elem_of_fmap. apply inside_false. simpl. intros Hin.
    destruct (piece_fits lvl4 _ _ _ _ B r pa Hp) as (Hfit & _). destruct (fits_pages lvl4 r Hfit) as (_ & L & _).
    apply (Hout r); [by eapply elem_of_zip_l|]. lia.
Qed.

(** ** Removal *)

Lemma ld8_zeros ds : forall n m a, length ds = n ->
  ld8 (write_at m ds (replicate n 0)) a = if decide (a ∈ ds) then 0 else ld8 m a.
Proof.
  induction ds as [|d ds IH]; intros n m a <-; [done|]. cbn [length replicate write_at]. rewrite IH by done.
  destruct (decide (a ∈ ds)) as [H|H]; [by rewrite decide_True by (by right)|].
  destruct (decide (a = d)) as [->|Hd].
  - rewrite decide_True by (by left). unfold ld8. by rewrite lookup_insert_eq.
  - rewrite decide_False by (intros [?|?]%elem_of_cons; done). unfold ld8. by rewrite lookup_insert_ne by done.
Qed.

(** The memory of a VM as its own list has it. *)
Definition vmpa_of (p : piece) : Vm.VmPa := Vm.mkVmPa p.2 (len p.1) (isize (ipa p.1 - p.2)).

#[export] Instance holds_dec p a : Decision (holds p a).
Proof. unfold holds, MemRegion.in_range. apply _. Defined.

(** A region of the allocator is the piece's. *)
Definition is_region (p : piece) (u : MemRegion.MemRegion) : Prop :=
  MemRegion.base u = p.2 /\ MemRegion.size u * 4096 = len p.1 /\ MemRegion.free u = 0.

Definition apart_pieces (ps : list piece) : Prop :=
  forall i j p p' a, ps !! i = Some p -> ps !! j = Some p' -> holds p a -> holds p' a -> i = j.

Lemma apart_cons p ps : apart_pieces (p :: ps) ->
  apart_pieces ps /\ forall p', p' ∈ ps -> 0 < len p'.1 -> 0 < len p.1 -> p'.2 <> p.2.
Proof.
  intros H. split.
  - intros i j q q' a Hi Hj Hq Hq'. specialize (H (S i) (S j) q q' a Hi Hj Hq Hq'). lia.
  - intros p' [i Hi]%list_elem_of_lookup H1 H2 E. unfold holds, MemRegion.in_range in H.
    cut (0%nat = S i); [done|]. apply (H 0%nat (S i) p p' p.2 eq_refl Hi); unfold holds, MemRegion.in_range; lia.
Qed.

(** Each piece is zeroed and given back. *)
Lemma free_pieces ps : forall s, MemRegion.mem_wf (vm_region s) -> apart_pieces ps ->
  Forall (fun p => 0 < len p.1 /\ exists u, u ∈ vm_region s /\ is_region p u) ps ->
  exists s', m_for (vmpa_of <$> ps) (fun p =>
      m_modify (fun s => with_imem (write_at (imem s) (zrange (Vm.pa_start p) (Z.to_nat (Vm.pa_length p)))
                                      (replicate (Z.to_nat (Vm.pa_length p)) 0)) s) >>;
      on_region (fun l => MemRegion.mem_vm_region_free (length l) (Vm.pa_start p) (Vm.pa_length p) l)) s = Ret tt s' /\
    MemRegion.mem_wf (vm_region s') /\
    (forall a, MemRegion.free_byte (vm_region s') a <-> MemRegion.free_byte (vm_region s) a \/ exists p, p ∈ ps /\ holds p a) /\
    (forall a, MemRegion.used_byte (vm_region s') a <-> MemRegion.used_byte (vm_region s) a /\ ~ exists p, p ∈ ps /\ holds p a) /\
    (forall a, (exists p, p ∈ ps /\ holds p a) -> ld8 (imem s') a = 0) /\
    (forall a, (~ exists p, p ∈ ps /\ holds p a) -> ld8 (imem s') a = ld8 (imem s) a).
Proof.
  induction ps as [|p ps IH]; intros s Hwf Hap Hps.
  { exists s. split; [done|]. split; [done|]. set_solver. }
  apply apart_cons in Hap as [Hap Hne]. apply list.Forall_cons in Hps as [(Hl & u & Hu & Hb & Hs & Hf) Hps].
  destruct (MemRegion.mem_vm_region_free_keeps (vm_region s) u Hwf Hu Hf)
    as (l & _ & _ & E & Hwf' & Hfb & Hub & _ & _ & _ & _ & Hk).
  assert (forall a, MemRegion.in_region a u <-> holds p a) as Hin
    by (intros a; unfold MemRegion.in_region, holds, MemRegion.in_range; change MemRegion.PAGE_SIZE with 4096; rewrite Hb, Hs; done).
  rewrite Hb in E. change MemRegion.PAGE_SIZE with 4096 in E. rewrite Hs in E.
  set (m1 := write_at (imem s) (zrange p.2 (Z.to_nat (len p.1))) (replicate (Z.to_nat (len p.1)) 0)).
  assert (forall a, ld8 m1 a = if decide (a ∈ zrange p.2 (Z.to_nat (len p.1))) then 0 else ld8 (imem s) a) as Hm
    by (intros a; apply ld8_zeros; apply length_zrange).
  assert (forall a, a ∈ zrange p.2 (Z.to_nat (len p.1)) <-> holds p a) as Hz
    by (intros a; rewrite zrange_elem; unfold holds, MemRegion.in_range; lia).
  destruct (IH (with_region l (with_imem m1 s))) as (s' & E' & Hwf2 & Hfb2 & Hub2 & Hz2 & Ho2); [done|done| |].
  { rewrite list.Forall_forall in *. intros p' Hp'. destruct (Hps p' Hp') as (Hl' & u' & Hu' & Hb' & Hr').
    split; [done|]. exists u'. split; [|by split]. apply Hk; [by destruct Hr'| |done]. intros ->.
    apply (Hne p' Hp' Hl' Hl). congruence. }
  exists s'. split.
  { rewrite fmap_cons. cbn [m_for vmpa_of Vm.pa_start Vm.pa_length]. eapply m_bind_Ret_r; [|exact E'].
    eapply m_bind_Ret_r; [reflexivity|]. cbv beta. unfold on_region. cbn [vm_region with_imem]. rewrite E. reflexivity. }
  cbn [vm_region with_region with_imem imem] in *.
  assert (forall a, (exists q, q ∈ p :: ps /\ holds q a) <-> holds p a \/ exists q, q ∈ ps /\ holds q a) as Hc
    by (intros a; set_solver).
  split; [done|]. split_and!; intros a; rewrite Hc.
  - rewrite Hfb2, Hfb, Hin. tauto.
  - rewrite Hub2, Hub, Hin. tauto.
  - intros Ha. destruct (decide (Exists (fun q => holds q a) ps)) as [H%list.Exists_exists|H]; [by apply Hz2|].
    rewrite list.Exists_exists in H.
    rewrite Ho2, Hm by done. rewrite decide_True; [done|]. rewrite Hz. tauto.
  - intros Ha. rewrite Ho2, Hm by tauto. rewrite decide_False; [done|]. rewrite Hz. tauto.
Qed.

Lemma free_not_used l a : MemRegion.mem_wf l -> MemRegion.free_byte l a -> MemRegion.used_byte l a -> False.
Proof.
  induction l as [|r l IH]; [intros _ (r & Hr & _); by apply elem_of_nil in Hr|].
  intros (_ & Hd & Hwf)%MemRegion.mem_wf_cons. unfold MemRegion.disjoint_from in Hd. rewrite list.Forall_forall in Hd.
  rewrite MemRegion.free_byte_cons, MemRegion.used_byte_cons.
  intros [[? Hr]|Hf] [[? Hr']|Hu]; [done| | |by apply IH].
  - destruct Hu as (x & Hx & _ & Hu). by apply (Hd x Hx a).
  - destruct Hf as (x & Hx & _ & Hu). by apply (Hd x Hx a).
Qed.

(** C35. Building a VM's memory and removing it is a round trip on the allocator.  For regions whose addresses and lengths are
    whole pages and that do not overlap (they may be adjacent), within the guest's address space, a VM without memory, an allocator whose memory
    is on page boundaries, not at address 0 and below 2^48, and frames for the tables (three per 2 MB touched): after a successful
    [vmm_init_memory] the removal terminates, every byte is again free or in use as it was before the VM, and
    exactly the bytes the VM had hold zeros: nothing of it is left for the next VM. *)
Theorem vm_memory_returned lvl4 memory s s1 : ready lvl4 memory s -> vmm_init_memory lvl4 memory s = Ret true s1 ->
  exists s2, remove_memory s1 = Ret tt s2 /\ MemRegion.mem_wf (vm_region s2) /\
    (forall a, MemRegion.free_byte (vm_region s2) a <-> MemRegion.free_byte (vm_region s) a) /\
    (forall a, MemRegion.used_byte (vm_region s2) a <-> MemRegion.used_byte (vm_region s) a) /\
    let vms a := MemRegion.free_byte (vm_region s) a /\ MemRegion.used_byte (vm_region s1) a in
    (forall a, vms a -> ld8 (imem s2) a = 0) /\ (forall a, ~ vms a -> ld8 (imem s2) a = ld8 (imem s1) a).
Proof.
  intros Hr E. pose proof Hr as [_ Hw _ _ Hf Ho _]. destruct (built_start lvl4 memory s Hr) as (s0 & E0 & B0 & _ & Hs0 & _).
  destruct (init_regions_spec lvl4 (vm_region s) memory [] s0 B0 Hf Ho ltac:(constructor) Hs0) as (b & s1' & E1 & Hb).
  rewrite E0, E1 in E. apply Ret_inj in E as [-> ->]. destruct Hb as (_ & _ & pas & _ & B). cbn [app] in B.
  set (ps := zip memory pas) in *. destruct (free_pieces ps s1) as (s2 & E2 & Hwf & Hfb & Hub & Hz & Hz').
  { apply B. }
  { exact (b_disj _ _ _ _ B). }
  { pose proof (b_fits _ _ _ _ B) as HF. rewrite list.Forall_forall in *. intros p Hp. destruct (HF p Hp) as (Hfit & _).
    destruct (fits_pages lvl4 p.1 Hfit) as (_ & L & _). split; [apply Hfit|].
    destruct (b_reg _ _ _ _ B p Hp) as (u & Hu & Eb & Es & Ef). exists u. split; [done|]. split; [done|]. by rewrite Es. }
  assert (forall a, MemRegion.free_byte (vm_region s) a /\ MemRegion.used_byte (vm_region s1) a <-> exists p, p ∈ ps /\ holds p a) as Hv.
  { intros a. rewrite (b_used _ _ _ _ B). split.
    - intros [Hfr [Hu|?]]; [by destruct (free_not_used _ a Hw Hfr Hu)|done].
    - intros Hp. split; [|by right]. destruct Hp as (p & Hp & Ha). by apply (b_own _ _ _ _ B p). }
  exists s2. split.
  { unfold remove_memory. eapply m_bind_Ret_r; [reflexivity|]. cbv beta. rewrite (b_vm _ _ _ _ B). exact E2. }
  split; [done|]. split; [|split].
  - intros a. rewrite Hfb, (b_free _ _ _ _ B). pose proof (Hv a) as Hva.
    destruct (decide (Exists (fun q => holds q a) ps)) as [H%list.Exists_exists|H]; [tauto|]. rewrite list.Exists_exists in H. tauto.
  - intros a. rewrite Hub, (b_used _ _ _ _ B). pose proof (Hv a) as Hva.
    assert (MemRegion.used_byte (vm_region s) a -> ~ exists p, p ∈ ps /\ holds p a); [|tauto].
    intros Hu Hp. apply Hv in Hp as [Hfr _]. by apply (free_not_used _ a Hw).
  - cbv zeta. split; intros a; rewrite Hv; auto.
Qed.

(** ** Witness *)

Definition demo_memory : list Config.VmRegion := [Config.mkRegion 0x80000000 0x2000; Config.mkRegion 0x90000000 0x1000].
Definition demo_heap : list Z := (fun i => 0x40000000 + i * 4096) <$> zrange 0 10.
Definition demo_vi : VI :=
  mkVI (pt_new 0 ∅ demo_heap) false MemRegion.demo_regions
    (Vm.mkVm 1 (Vm.mkCpuCfg 1 1 None) [] [] DEFAULT 0 []) ∅ DEFAULT [] (Sched.array_new) [].

Lemma demo_ready : ready false demo_memory demo_vi.
Proof.
  split; simpl.
  - split; [by apply (bool_decide_unpack _); vm_compute|].
    unfold demo_heap. repeat (apply list.Forall_cons; split; [unfold page_ok; split; [done|simpl; lia]|]). constructor.
  - exact MemRegion.demo_regions_wf.
  - unfold on_pages, MemRegion.demo_regions. repeat (apply list.Forall_cons; split; [simpl; split_and!; [done|lia|lia]|]). constructor.
  - done.
  - unfold demo_memory. repeat (apply list.Forall_cons; split; [unfold region_fits; simpl; vm_compute; split_and!; congruence|]). constructor.
  - constructor; [|repeat constructor]. constructor; [left; simpl; lia|constructor].
  - vm_compute. congruence.
Qed.

(** A length that is not a number of whole pages: the allocator rounds it down, the tables round it up, and the guest is given
    bytes that stay free for the next VM. *)
Lemma partial_page_is_shared : exists s' b, vmm_init_memory false [Config.mkRegion 0x80000000 0x1800] demo_vi = Ret true s' /\
  stage2 false (ipt s') 0x80001900 = Some b /\ MemRegion.free_byte (vm_region s') b.
Proof.
  assert (match vmm_init_memory false [Config.mkRegion 0x80000000 0x1800] demo_vi with
          | Ret ok s' => ok && match stage2 false (ipt s') 0x80001900 with
              | Some b => existsb (fun r => negb (MemRegion.free r =? 0) && (MemRegion.base r <=? b) &&
                                            (b <? MemRegion.base r + MemRegion.size r * 4096)) (vm_region s')
              | None => false end
          | Fault _ => false end = true) as H by (vm_compute; reflexivity).
  destruct (vmm_init_memory _ _ _) as [ok s'|]; [|discriminate H]. destruct ok; [|discriminate H]. cbn [andb] in H.
  destruct (stage2 _ _ _) as [b|] eqn:E; [|discriminate H]. exists s', b. split; [done|]. split; [done|].
  apply existsb_exists in H as (r & Hr & H). rewrite !andb_true_iff, negb_true_iff, Z.leb_le, Z.ltb_lt, Z.eqb_neq in H.
  exists r. split; [by apply list_elem_of_In|]. unfold MemRegion.in_region. change MemRegion.PAGE_SIZE with 4096. tauto.
Qed.

Lemma demo_gaps : ForallOrdPairs gap demo_memory.
Proof. repeat constructor. Qed.
Lemma demo_positive : Forall (fun r => 0 < ipa r) demo_memory.
Proof. repeat constructor. Qed.

Lemma vm_memory_agrees_witness : exists s' pa, vmm_init_memory false demo_memory demo_vi = Ret true s' /\
  Vm.vm_ipa2pa (ivm s') 0x80001234 = Some (pa + 0x1234) /\
  stage2 false (ipt s') 0x80001234 = Some (pa + 0x1234).
Proof.
  destruct (vm_memory_agrees false demo_memory demo_vi demo_ready demo_gaps demo_positive) as (b & s' & E & H).
  assert (match vmm_init_memory false demo_memory demo_vi with Ret b _ => b | Fault _ => false end = true) as Hc
    by (vm_compute; reflexivity).
  rewrite E in Hc. subst b. destruct H as (pas & Hlen & H & _). destruct pas as [|pa [|pb []]]; [discriminate Hlen|discriminate Hlen| |discriminate Hlen].
  exists s', pa. split; [exact E|].
  exact (proj1 (H (Config.mkRegion 0x80000000 0x2000, pa) 0x1234 (list_elem_of_here _ _) ltac:(simpl; lia))).
Defined.

(** The VM of the example, created and removed. *)
Lemma vm_memory_returned_witness : exists s1 s2, vmm_init_memory false demo_memory demo_vi = Ret true s1 /\
  remove_memory s1 = Ret tt s2 /\ forall a, MemRegion.free_byte (vm_region s2) a <-> MemRegion.free_byte (vm_region demo_vi) a.
Proof.
  assert (match vmm_init_memory false demo_memory demo_vi with Ret b _ => b | Fault _ => false end = true) as Hc
    by (vm_compute; reflexivity).
  destruct (vmm_init_memory false demo_memory demo_vi) as [b s1|f] eqn:E; [|discriminate Hc]. subst b.
  destruct (vm_memory_returned false demo_memory demo_vi s1 demo_ready E) as (s2 & E2 & _ & Hf & _).
  exists s1, s2. split; [reflexivity|]. split; [exact E2|exact Hf].
Defined.
