(* ===== verification/VmStage2.v ===== *)
(** * VmStage2: what a VM's stage-2 tables translate when it has been built

    After [vmm_init_memory] and [vmm_init_passthrough_device] the tables are the list of the configuration's ranges:
    memory where the allocator put it, passthrough regions where they are.  The registration of interrupts succeeds
    when no other VM has them. *)
From stdpp Require Import gmap list.
From S2P Require Import Prelude Bits Bitmap PageTable PageTableSpec Stage2 VmmInit VmmInitSpec.
From S2P Require MemRegion Vm Config.

Local Abbreviation len r := (Config.rg_length r).
Local Abbreviation ipa r := (Config.ipa_start r).

(** ** Passthrough regions *)

Definition pt_rng (r : Config.PassthroughRegion) : Range :=
  mkRange (Config.pt_ipa r) ((Config.pt_length r + 4095) / 4096) (Config.pt_pa r).
Definition range_spans (rs : list Range) : Z := foldr (fun r n => spans (r_ipa r) (r_pages r) + n) 0 rs.
Definition pt_attributes (r : Config.PassthroughRegion) : Z :=
  if Config.dev_property r then PTE_S2_DEVICE else PTE_S2_NORMALNOCACHE.

Lemma pt_attributes_ok r : 0 <= pt_attributes r < 4096 /\ Z.land (pt_attributes r) 3 = 0.
Proof. unfold pt_attributes. destruct (Config.dev_property r); split; (done || by vm_compute). Qed.

Lemma range_spans_nonneg lvl4 rs : Forall (range_fits lvl4) rs -> 0 <= range_spans rs.
Proof.
  induction 1 as [|r rs Hr _ IH]; simpl; [lia|].
  assert (0 <= spans (r_ipa r) (r_pages r)) by (destruct Hr as (? & _ & ? & _); apply spans_nonneg; lia). lia.
Qed.

Section passthrough.
Context (lvl4 : bool).

Lemma map_passthrough ps : forall rs s, pt_set s = true -> table_is lvl4 rs (ipt s) ->
  Forall (range_fits lvl4) (pt_rng <$> ps) -> ForallOrdPairs disjoint_ranges (rs ++ (pt_rng <$> ps)) ->
  Forall (fun r => 0 < Config.pt_length r) ps -> 3 * range_spans (pt_rng <$> ps) <= zlen (supply (ipt s)) ->
  exists t, m_for ps (fun r => vm_pt_map_range lvl4 (Config.pt_ipa r) (Config.pt_length r) (Config.pt_pa r)
      (if Config.dev_property r then PTE_S2_DEVICE else PTE_S2_NORMALNOCACHE) true) s = Ret tt (with_ipt t s) /\
    table_is lvl4 (rs ++ (pt_rng <$> ps)) t.
Proof.
  induction ps as [|r ps IH]; intros rs s Hset Ht Hf Hd Hl Hs.
  { exists (ipt s). rewrite app_nil_r. split; [by destruct s|done]. }
  rewrite fmap_cons in *. apply list.Forall_cons in Hf as [Hr Hf], Hl as [Hlr Hl].
  change (3 * (spans (r_ipa (pt_rng r)) (r_pages (pt_rng r)) + range_spans (pt_rng <$> ps)) <= zlen (supply (ipt s))) in Hs.
  pose proof (range_spans_nonneg lvl4 _ Hf). destruct (pt_attributes_ok r) as [A1 A2].
  destruct (table_add lvl4 rs (ipt s) (pt_rng r) (Config.pt_length r) (pt_attributes r) true) as (t & E & Tt & Ls); try done; [|lia|].
  { apply list.Forall_forall. intros q [i Hi]%list_elem_of_lookup.
    assert (forall x y, disjoint_ranges x y -> disjoint_ranges y x) as Hsym by (unfold disjoint_ranges; tauto).
    apply Hsym. clear -Hd Hi. revert i Hi. induction rs as [|x rs IH]; intros i Hi; [done|]. inversion Hd as [|? ? Hx Hd']; subst.
    destruct i as [|i]; simpl in Hi; [|by eapply IH]. injection Hi as ->. rewrite list.Forall_forall in Hx. apply Hx. set_solver. }
  destruct (IH (rs ++ [pt_rng r]) (with_ipt t s)) as (t' & E' & Tt'); try done.
  { rewrite <- app_assoc. exact Hd. } { simpl. lia. }
  exists t'. rewrite <- app_assoc in Tt'. split; [|exact Tt'].
  cbn [m_for]. eapply m_bind_Ret_r; [|exact E'].
  unfold vm_pt_map_range. eapply m_bind_Ret_r; [reflexivity|]. cbv beta. rewrite Hset. unfold on_pt.
  change (if Config.dev_property r then PTE_S2_DEVICE else PTE_S2_NORMALNOCACHE) with (pt_attributes r).
  change (Config.pt_ipa r) with (r_ipa (pt_rng r)). change (Config.pt_pa r) with (r_pa (pt_rng r)). by rewrite E.
Qed.

(** ** Interrupts *)

(** Nobody else has the interrupt, or it is private to a core. *)
Definition unowned (g : BitAlloc4K) (i : Z) : Prop := 0 <= i < 4096 /\ exists b, ba_get g i = Some b /\ (32 <= i -> b = 0).

Lemma register_all_ok vmid irqs : forall s, ba_wf (glb s) -> NoDup irqs -> Forall (unowned (glb s)) irqs ->
  exists s', register_all vmid irqs s = Ret true s' /\ ipt s' = ipt s /\ vm_region s' = vm_region s /\ ivm s' = ivm s.
Proof.
  induction irqs as [|i irqs IH]; intros s Hw Hn Hu; [by exists s|].
  apply list.NoDup_cons in Hn as [Hi Hn]. apply list.Forall_cons in Hu as [(Hr & b & Eb & H0) Hu].
  destruct (set_law (glb s) i) as (g & Eg & Hw' & Hg); [done|done|].
  set (s1 := with_glb g (mkVI (ipt s) (pt_set s) (vm_region s) (ivm s) (imem s) (glb s) (handlers s) (var s) (ilog s ++ [HwInt vmid i]))).
  destruct (IH s1) as (s' & E' & ? & ? & ?); [done|done| |].
  { rewrite list.Forall_forall in *. intros j Hj. destruct (Hu j Hj) as (Hjr & c & Ec & Hc). split; [done|]. exists c.
    change (glb s1) with g. rewrite Hg by done. rewrite decide_False; [done|]. by intros <-. }
  exists s'. split; [|done]. cbn [register_all]. apply (m_bind_Ret_r _ _ _ true s1); [|exact E'].
  unfold interrupt_vm_register. eapply m_bind_Ret_r; [reflexivity|]. cbv beta.
  eapply m_bind_Ret_r; [by rewrite Eb|]. cbv beta.
  assert (negb (b =? 0) && (GIC_PRIVINT_NUM <=? i) = false) as ->.
  { unfold GIC_PRIVINT_NUM. destruct (Z.leb_spec 32 i); [by rewrite H0|by rewrite andb_false_r]. }
  eapply m_bind_Ret_r; [reflexivity|]. cbv beta. eapply m_bind_Ret_r; [reflexivity|]. cbv beta.
  eapply m_bind_Ret_r; [|reflexivity]. cbn [glb]. by rewrite Eg.
Qed.
End passthrough.

(** ** The VM that has been built *)

(** A configuration whose parts do not overlap, on a hypervisor with frames for the tables and the interrupts free. *)
Record placeable (lvl4 : bool) (memory : list Config.VmRegion) (p : Config.VmPassthroughDeviceConfig) (s : VI) : Prop := {
  pl_ready : ready lvl4 memory s;
  pl_fits : Forall (range_fits lvl4) (pt_rng <$> Config.regions p);
  pl_length : Forall (fun r => 0 < Config.pt_length r) (Config.regions p);
  pl_disjoint : ForallOrdPairs disjoint_ranges (((fun r => rng (r, 0)) <$> memory) ++ (pt_rng <$> Config.regions p));
  pl_frames : 1 + 3 * total_spans memory + 3 * range_spans (pt_rng <$> Config.regions p) <= zlen (supply (ipt s));
  pl_glb : ba_wf (glb s);
  pl_irqs : NoDup (Config.irqs p);
  pl_unowned : Forall (unowned (glb s)) (Config.irqs p);
}.

(** Where the pieces are does not matter for their being disjoint. *)
Lemma disjoint_pas memory pas qs : length pas = length memory ->
  ForallOrdPairs disjoint_ranges (((fun r => rng (r, 0)) <$> memory) ++ qs) ->
  ForallOrdPairs disjoint_ranges ((rng <$> zip memory pas) ++ qs).
Proof.
  revert pas. induction memory as [|r memory IH]; intros [|pa pas] Hl H; [done..|].
  simpl in *. inversion H as [|? ? Hr Hd]; subst. constructor; [|by apply IH; [lia|]].
  rewrite list.Forall_app in *. destruct Hr as [Hr Hq]. split; [|exact Hq]. clear -Hr Hl.
  revert pas Hl. induction memory as [|r' memory IH]; intros [|pa' pas] Hl; [done..|]. simpl in *.
  apply list.Forall_cons in Hr as [H1 Hr]. constructor; [exact H1|]. apply IH; [done|lia].
Qed.

(** What [vmm_init_memory] does to the bitmap of interrupts: nothing. *)
Lemma init_regions_glb lvl4 rs : forall s b s', init_regions lvl4 rs s = Ret b s' -> glb s' = glb s.
Proof.
  induction rs as [|r rs IH]; intros s b s' E; [by injection E as _ <-|]. cbn [init_regions] in E.
  apply m_bind_inv in E as (pa & s1 & E1 & E). unfold on_region in E1. destruct (MemRegion.mem_vm_region_alloc _ _); [|done].
  injection E1 as -> <-. destruct (pa =? 0); [by injection E as _ <-|].
  apply m_bind_inv in E as ([] & s2 & E2 & E). unfold vm_pt_map_range in E2. apply m_bind_inv in E2 as (? & ? & [= <- <-] & E2).
  cbn [pt_set with_region] in E2. destruct (pt_set s); [|done]. unfold on_pt in E2.
  destruct (pt_map_range _ _ _ _ _ _ _); [|done]. injection E2 as _ <-.
  apply m_bind_inv in E as ([] & s3 & E3 & E). injection E3 as <-. by apply IH in E.
Qed.

(** Memory, then passthrough devices. *)
Lemma vm_stage2_of lvl4 memory p s : placeable lvl4 memory p s ->
  exists b s1, vmm_init_memory lvl4 memory s = Ret b s1 /\
    if b then exists s2 pas, vmm_init_passthrough_device lvl4 p s1 = Ret true s2 /\ length pas = length memory /\
      (forall a, 0 <= a < 2 ^ ia_bits lvl4 ->
         stage2 lvl4 (ipt s2) a = look ((rng <$> zip memory pas) ++ (pt_rng <$> Config.regions p)) a) /\
      (forall q x, q ∈ zip memory pas -> 0 <= x < len q.1 -> MemRegion.free_byte (vm_region s) (q.2 + x))
    else exists r, r ∈ memory /\ Forall (fun f => MemRegion.free f < npages r) (vm_region s1).
Proof.
  intros [Hr Hf Hl Hd Hs Hg Hn Hu]. pose proof Hr as [_ _ _ _ Hfit Ho _].
  destruct (built_start lvl4 memory s Hr) as (s0 & E0 & B0 & _ & Hs0 & Hlen0 & Hg0).
  destruct (init_regions_spec lvl4 (vm_region s) memory [] s0 B0 Hfit Ho ltac:(constructor) Hs0) as (b & s1 & E1 & Hb).
  exists b, s1. rewrite E0. split; [exact E1|]. destruct b; [|exact Hb]. destruct Hb as (_ & Hs1 & pas & Hlen & B).
  cbn [app] in B. pose proof (init_regions_glb _ _ _ _ _ E1) as Hg1. rewrite Hg0 in Hg1.
  destruct (map_passthrough lvl4 (Config.regions p) (rng <$> zip memory pas) s1) as (t & Et & Ht);
    [apply B|apply B|done|by apply disjoint_pas|done|lia|].
  destruct (register_all_ok (Vm.vm_id (ivm s1)) (Config.irqs p) (with_ipt t s1)) as (s2 & E2 & Hpt & _);
    [simpl; by rewrite Hg1|done|simpl; by rewrite Hg1|].
  exists s2, pas. split; [|split; [done|split]].
  - unfold vmm_init_passthrough_device. eapply m_bind_Ret_r; [exact Et|]. eapply m_bind_Ret_r; [reflexivity|]. exact E2.
  - intros a Ha. rewrite Hpt. by apply (ti_look _ _ _ Ht).
  - intros q x Hq Hx. apply (b_own _ _ _ _ B q); [done|]. unfold holds, MemRegion.in_range. lia.
Qed.


(** ** Witness *)

(** The VM of [VmmInitSpec]'s example with the UART of the board. *)
Definition demo_pt : Config.VmPassthroughDeviceConfig := Config.mkPtCfg [Config.mkPt 0x9000000 0x9100000 0x100 true] [27; 33] [].

Lemma demo_placeable : placeable false demo_memory demo_pt demo_vi.
Proof.
  split.
  - exact demo_ready.
  - constructor; [|constructor]. unfold range_fits. vm_compute. repeat split; congruence.
  - constructor; [done|constructor].
  - eapply all_pairs_spec; [apply disjointb_spec|vm_compute; reflexivity].
  - vm_compute. congruence.
  - apply default_wf.
  - apply (bool_decide_unpack _). by vm_compute.
  - repeat constructor; try lia; (exists 0; split; [by apply default_get|done]).
Qed.

