(* ===== verification/WaitList.v ===== *)
(** * WaitList: the intrusive wait list of TinyOS ([tinyos/rust/tiny/src/list.rs])

    A doubly-linked list whose nodes live inside the futures that wait on it.  The model keeps every
    pinned future at its address, with the raw pointers between the nodes as the code has them; what
    the list promises to its clients is the class at the end of the file, stated on the plain queue of
    waiters.  [WaitListSpec] proves that the pointers implement the queue. *)
From stdpp Require Import gmap list.
From S2P Require Import Prelude.

(** ** Ordering of the contents *)

(** [<=] of the contents' [PartialOrd]. *)
Class PartialOrd (T : Type) := ple : T -> T -> bool.

(** [()]: every two values are equal. *)
#[export] Instance unit_ord : PartialOrd unit := fun _ _ => true.
(** [TickTime]. *)
#[export] Instance Z_ord : PartialOrd Z := Z.leb.

(** src: tinyos/rust/tiny/src/list.rs 645-657 [Meta]
    With its [PartialOrd]: all values look the same to the list. *)
Record Meta (A : Type) := mkMeta { meta : A }.
Arguments mkMeta {A} meta.
Arguments meta {A} m.
#[export] Instance meta_ord {A} : PartialOrd (Meta A) := fun _ _ => true.

(** src: tinyos/rust/tiny/src/list.rs 615-627 [OrderAndMeta] *)
Record OrderAndMeta (A B : Type) := mkOrdMeta { ord : A; extra : B }.
Arguments mkOrdMeta {A B} ord extra.
Arguments ord {A B} o.
#[export] Instance ord_meta_ord {A B} `{PartialOrd A} : PartialOrd (OrderAndMeta A B) := fun x y => ple (ord x) (ord y).

(** ** Nodes, futures and the list *)

(** src: tinyos/rust/tiny/src/list.rs 517-548 [Node]
    [nlist]: the pointer to the list is set. *)
Record Node (T : Type) := mkNode {
  prev : option nat;
  next : option nat;
  waker : option Z;
  contents : T;
  nlist : bool;
}.
Arguments mkNode {T} prev next waker contents nlist.
Arguments prev {T} n.
Arguments next {T} n.
Arguments waker {T} n.
Arguments contents {T} n.
Arguments nlist {T} n.

(** src: tinyos/rust/tiny/src/list.rs 338-345 [WaitForDetach]
    [f_list]: the list it has still to join; [f_cleanup]: the action of [WaitWithCleanup] is still there. *)
Record Fut (T : Type) := mkFut { f_list : bool; f_node : Node T; f_cleanup : bool }.
Arguments mkFut {T} f_list f_node f_cleanup.
Arguments f_list {T} f.
Arguments f_node {T} f.
Arguments f_cleanup {T} f.

(** src: tinyos/rust/tiny/src/list.rs 127-132 [List]
    With the futures at their addresses, and the wakers called, in order. *)
Record WL (T : Type) := mkWL {
  root : option (nat * nat);
  futs : gmap nat (Fut T);
  woken : list Z;
}.
Arguments mkWL {T} root futs woken.
Arguments root {T} w.
Arguments futs {T} w.
Arguments woken {T} w.

Section ops.
Context {T : Type} `{PartialOrd T}.

Definition with_root r (s : WL T) : WL T := mkWL r (futs s) (woken s).
Definition with_futs (f : gmap nat (Fut T)) (s : WL T) : WL T := mkWL (root s) f (woken s).

(** Dereference a pointer. *)
Definition deref (a : nat) : M (WL T) (Fut T) := fun s =>
  match futs s !! a with Some f => Ret f s | None => Fault OutOfBounds end.
(** Change a field of the node at [a] through its [Cell]. *)
Definition set_node (a : nat) (g : Node T -> Node T) : M (WL T) unit :=
  let! f := deref a in
  m_modify (fun s => with_futs (<[a := mkFut (f_list f) (g (f_node f)) (f_cleanup f)]> (futs s)) s).
Definition set_prev p : Node T -> Node T := fun n => mkNode p (next n) (waker n) (contents n) (nlist n).
Definition set_next p : Node T -> Node T := fun n => mkNode (prev n) p (waker n) (contents n) (nlist n).
Definition set_waker w : Node T -> Node T := fun n => mkNode (prev n) (next n) w (contents n) (nlist n).
Definition set_nlist b : Node T -> Node T := fun n => mkNode (prev n) (next n) (waker n) (contents n) b.
Definition set_root r : M (WL T) unit := m_modify (with_root r).
(** Call a waker. *)
Definition wake (w : Z) : M (WL T) unit := m_modify (fun s => mkWL (root s) (futs s) (woken s ++ [w])).

(** src: tinyos/rust/tiny/src/list.rs 139-144 [List::new] *)
Definition wl_new : WL T := mkWL None ∅ [].
(** src: tinyos/rust/tiny/src/list.rs 147-149 [List::is_empty] *)
Definition is_empty : M (WL T) bool := m_gets (fun s => match root s with None => true | _ => false end).

(** src: tinyos/rust/tiny/src/list.rs 268-286 [List::join]
    lines 310-333 [List::join_with_cleanup] do the same with a cleanup: the future comes to rest at address [a]. *)
Definition join (a : nat) (c : T) (cleanup : bool) : M (WL T) unit :=
  m_modify (fun s => with_futs (<[a := mkFut true (mkNode None None None c false) cleanup]> (futs s)) s).

(** src: tinyos/rust/tiny/src/list.rs 184-238 [List::wake_head_if]
    The predicate may change its environment. *)
Definition wake_head_if {E} (pred : T -> E -> bool * E) (e : E) : M (WL T) (bool * E) :=
  let! s := m_get in
  match root s with
  | None => m_ret (false, e)
  | Some (h, t) =>
      let! f := deref h in
      let '(ok, e) := pred (contents (f_node f)) e in
      if negb ok then m_ret (false, e)
      else
        (if Nat.eqb h t then set_root None
         else
           match next (f_node f) with
           | None => m_fault ExplicitPanic
           | Some n => set_node h (set_next None) >>; set_node n (set_prev None) >>; set_root (Some (n, t))
           end) >>;
        set_node h (set_nlist false) >>;
        match waker (f_node f) with
        | None => m_fault ExplicitPanic
        | Some w => set_node h (set_waker None) >>; wake w >>; m_ret (true, e)
        end
  end.

(** src: tinyos/rust/tiny/src/list.rs 356-385 [WaitForDetach::poll: the search from the tail]
    When [cand] or one before it is not larger, the node goes behind it; otherwise [None]. *)
Fixpoint insert_from (fuel : nat) (a : nat) (c : T) (h t : nat) (cand : option nat) : M (WL T) (option nat) :=
  match cand with
  | None => m_ret None
  | Some p =>
      match fuel with
      | O => m_fault FuelOut
      | S fuel' =>
          let! f := deref p in
          if ple (contents (f_node f)) c then
            set_node p (set_next (Some a)) >>;
            (match next (f_node f) with
             | Some n => set_node n (set_prev (Some a))
             | None => m_ret tt
             end) >>;
            set_node a (set_next (next (f_node f))) >>;
            set_node a (set_prev (Some p)) >>;
            (if Nat.eqb p t then set_root (Some (h, a)) else m_ret tt) >>;
            m_ret (Some p)
          else insert_from fuel' a c h t (prev (f_node f))
      end
  end.

(** src: tinyos/rust/tiny/src/list.rs 350-437 [WaitForDetach::poll]
    [w] is the context's waker; the result says whether the future is ready. *)
Definition poll_wait (a : nat) (w : Z) : M (WL T) bool :=
  let! f := deref a in
  if f_list f then
    m_modify (fun s => with_futs (<[a := mkFut false (f_node f) (f_cleanup f)]> (futs s)) s) >>;
    let! s := m_get in
    (match root s with
     | Some (h, t) =>
         let! r := insert_from (size (futs s)) a (contents (f_node f)) h t (Some t) in
         match r with
         | Some _ => m_ret tt
         | None => set_node h (set_prev (Some a)) >>; set_node a (set_next (Some h)) >>; set_root (Some (a, t))
         end
     | None => set_root (Some (a, a))
     end) >>;
    set_node a (set_nlist true) >>; set_node a (set_waker (Some w)) >>; m_ret false
  else if negb (nlist (f_node f)) then m_ret true
  else set_node a (set_waker (Some w)) >>; m_ret false.

Definition set_cleanup (a : nat) (b : bool) : M (WL T) unit :=
  let! f := deref a in m_modify (fun s => with_futs (<[a := mkFut (f_list f) (f_node f) b]> (futs s)) s).

(** src: tinyos/rust/tiny/src/list.rs 467-480 [WaitWithCleanup::poll] *)
Definition poll (a : nat) (w : Z) : M (WL T) bool :=
  let! ready := poll_wait a w in
  if ready : bool then set_cleanup a false >>; m_ret true else m_ret false.

(** src: tinyos/rust/tiny/src/list.rs 450-461 [WaitWithCleanup::drop]
    Whether the cleanup is to run, in which case it is taken; the node is dropped after it. *)
Definition take_cleanup (a : nat) : M (WL T) bool :=
  let! f := deref a in
  if negb (f_list f) && negb (nlist (f_node f)) && f_cleanup f then set_cleanup a false >>; m_ret true
  else m_ret false.

(** src: tinyos/rust/tiny/src/list.rs 551-597 [Node::drop]
    After which the future is gone. *)
Definition drop_node (a : nat) : M (WL T) unit :=
  let! f := deref a in
  let n := f_node f in
  (if nlist n then
     set_node a (set_nlist false) >>;
     (match prev n with Some p => set_node p (set_next (next n)) | None => m_ret tt end) >>;
     (match next n with Some q => set_node q (set_prev (prev n)) | None => m_ret tt end) >>;
     match prev n, next n with
     | None, None => set_root None
     | Some p, None => let! s := m_get in let! r := m_opt UnwrapNone (root s) in set_root (Some (r.1, p))
     | None, Some q => let! s := m_get in let! r := m_opt UnwrapNone (root s) in set_root (Some (q, r.2))
     | Some _, Some _ => m_ret tt
     end
   else m_ret tt) >>;
  m_modify (fun s => with_futs (delete a (futs s)) s).
End ops.
