(* ===== verification/WaitQueue.v ===== *)
(** * WaitQueue: what the wait list promises

    The list of [list.rs] as its clients see it: a queue of waiters in the order of their contents, and
    for every future whether it has joined, waits, or has been let go.  A class holds the operations, a
    second one the laws that tie them to the queue; the locks of TinyOS ([Semaphore], [RwLock]) are
    written and proved against them, and [WaitListSpec] shows that the pointers of [WaitList] satisfy them. *)
From stdpp Require Import gmap list sorting.
From S2P Require Import Prelude WaitList.

(** A future: not joined yet; waiting, with its waker; let go.  The flag: its cleanup is still to be run
    when it is dropped. *)
Inductive waiter (T : Type) :=
  | Fresh (c : T) (cleanup : bool)
  | Waiting (cleanup : bool) (w : Z)
  | Gone (c : T) (cleanup : bool).
Arguments Fresh {T} c cleanup.
Arguments Waiting {T} cleanup w.
Arguments Gone {T} c cleanup.

(** [line]: who waits, in order.  [calls]: the wakers called. *)
Record WQ (T : Type) := mkWQ { line : list (nat * T); st : gmap nat (waiter T); calls : list Z }.
Arguments mkWQ {T} line st calls.
Arguments line {T} w.
Arguments st {T} w.
Arguments calls {T} w.

Section queue.
Context {T : Type} `{PartialOrd T}.
Implicit Types l : list (nat * T).

Definition q_new : WQ T := mkWQ [] ∅ [].

(** Behind the last one that is not larger. *)
Fixpoint ins (x : nat * T) (l : list (nat * T)) : list (nat * T) :=
  match l with
  | [] => [x]
  | y :: l' => if existsb (fun z => ple z.2 x.2) l then y :: ins x l' else x :: l
  end.

Lemma filter_off a l : a ∉ l.*1 -> filter (fun x => x.1 <> a) l = l.
Proof.
  induction l as [|y l IH]; [done|]. rewrite fmap_cons. intros [Hy Hl]%list.not_elem_of_cons.
  by rewrite filter_cons_True, IH by congruence.
Qed.

(** Without an order the line is by arrival. *)
Lemma ins_last x l : (forall c d : T, ple c d = true) -> ins x l = l ++ [x].
Proof. intros Ht. induction l as [|y l IH]; [done|]. cbn [ins existsb]. by rewrite Ht, IH. Qed.

(** With a total order a sorted line stays sorted, and equals stay in the order of arrival. *)
Lemma ins_sorted x l : (forall c d e : T, ple c d = true -> ple d e = true -> ple c e = true) ->
  StronglySorted (fun y z => ple y.2 z.2 = true) l ->
  ins x l = filter (fun y => ple y.2 x.2 = true) l ++ x :: filter (fun y => ple y.2 x.2 = false) l.
Proof.
  intros Htr. induction 1 as [|y l Hs IH Hy]; [done|]. cbn [ins existsb]. destruct (ple y.2 x.2) eqn:E.
  - cbn [orb]. by rewrite IH, filter_cons_True, filter_cons_False by (rewrite E; done).
  - cbn [orb]. assert (forall z, z ∈ l -> ple z.2 x.2 = false) as Hl.
    { intros z Hz. rewrite list.Forall_forall in Hy. apply not_true_is_false. intros Ez. by rewrite (Htr y.2 z.2 x.2 (Hy z Hz) Ez) in E. }
    assert (existsb (fun z => ple z.2 x.2) l = false) as ->.
    { apply not_true_is_false. intros (z & Hz & Ez)%existsb_exists. rewrite Hl in Ez; [done|by apply list_elem_of_In]. }
    rewrite filter_cons_False, filter_cons_True by (rewrite E; done).
    assert (filter (fun y => ple y.2 x.2 = true) l = []) as ->.
    { clear -Hl. induction l as [|z l IH]; [done|]. rewrite filter_cons_False by (rewrite Hl; [done|by left]). apply IH. intros ??. apply Hl. by right. }
    assert (filter (fun y => ple y.2 x.2 = false) l = l) as ->; [|done].
    clear -Hl. induction l as [|z l IH]; [done|]. rewrite filter_cons_True by (apply Hl; by left). f_equal. apply IH. intros ??. apply Hl. by right.
Qed.

Lemma ins_Permutation x l : ins x l ≡ₚ x :: l.
Proof. induction l as [|y l IH]; [done|]. cbn [ins]. case_match; [|done]. rewrite IH. by constructor. Qed.

Lemma list_filter_fmap_fst a l : (filter (fun x => x.1 <> a) l).*1 = filter (fun i => i <> a) l.*1.
Proof.
  induction l as [|y l IH]; [done|]. destruct (decide (y.1 = a)).
  - rewrite fmap_cons, !filter_cons_False by (cbn; congruence). done.
  - rewrite fmap_cons, !filter_cons_True by done. by rewrite fmap_cons, IH.
Qed.

Definition q_join (a : nat) (c : T) (cl : bool) (q : WQ T) : option (unit * WQ T) :=
  match st q !! a with
  | None => Some (tt, mkWQ (line q) (<[a := Fresh c cl]> (st q)) (calls q))
  | Some _ => None
  end.
Definition q_poll (a : nat) (w : Z) (q : WQ T) : option (bool * WQ T) :=
  match st q !! a with
  | Some (Fresh c cl) => Some (false, mkWQ (ins (a, c) (line q)) (<[a := Waiting cl w]> (st q)) (calls q))
  | Some (Waiting cl _) => Some (false, mkWQ (line q) (<[a := Waiting cl w]> (st q)) (calls q))
  | Some (Gone c cl) => Some (true, mkWQ (line q) (<[a := Gone c false]> (st q)) (calls q))
  | None => None
  end.
Definition q_wake_head_if {E} (pred : T -> E -> bool * E) (e : E) (q : WQ T) : option (bool * E * WQ T) :=
  match line q with
  | [] => Some (false, e, q)
  | (h, c) :: l =>
      let r := pred c e in
      if r.1 then
        match st q !! h with
        | Some (Waiting cl w) => Some (true, r.2, mkWQ l (<[h := Gone c cl]> (st q)) (calls q ++ [w]))
        | _ => None
        end
      else Some (false, r.2, q)
  end.
Definition q_take_cleanup (a : nat) (q : WQ T) : option (bool * WQ T) :=
  match st q !! a with
  | Some (Gone c true) => Some (true, mkWQ (line q) (<[a := Gone c false]> (st q)) (calls q))
  | Some _ => Some (false, q)
  | None => None
  end.
Definition q_drop (a : nat) (q : WQ T) : option (unit * WQ T) :=
  match st q !! a with
  | Some _ => Some (tt, mkWQ (filter (fun x => x.1 <> a) (line q)) (delete a (st q)) (calls q))
  | None => None
  end.
Definition q_empty (q : WQ T) : option (bool * WQ T) :=
  Some (match line q with [] => true | _ => false end, q).
End queue.

(** ** The interface *)

Class WaitQueue (L T : Type) := {
  wq_new : L;
  wq_join : nat -> T -> bool -> M L unit;
  wq_poll : nat -> Z -> M L bool;
  wq_wake_head_if : forall {E}, (T -> E -> bool * E) -> E -> M L (bool * E);
  wq_take_cleanup : nat -> M L bool;
  wq_drop : nat -> M L unit;
  wq_is_empty : M L bool;
  wq_calls : L -> list Z;  (** the wakers called *)
  wq_size : L -> nat;      (** how many futures there are: fuel for the loops *)
}.

(** [m] does on the representation what [o] says for the queue. *)
Definition implements {L T A} (rep : L -> WQ T -> Prop) (m : M L A) (o : WQ T -> option (A * WQ T)) : Prop :=
  forall l q x q', rep l q -> o q = Some (x, q') -> exists l', m l = Ret x l' /\ rep l' q'.

Class WaitQueueLaws {L T} `{PartialOrd T} (W : WaitQueue L T) := {
  wq_rep : L -> WQ T -> Prop;
  wq_rep_new : wq_rep wq_new q_new;
  wq_join_ok a c cl : implements wq_rep (wq_join a c cl) (q_join a c cl);
  wq_poll_ok a w : implements wq_rep (wq_poll a w) (q_poll a w);
  wq_wake_ok E (pred : T -> E -> bool * E) e : implements wq_rep (wq_wake_head_if pred e) (q_wake_head_if pred e);
  wq_take_ok a : implements wq_rep (wq_take_cleanup a) (q_take_cleanup a);
  wq_drop_ok a : implements wq_rep (wq_drop a) (q_drop a);
  wq_empty_ok : implements wq_rep wq_is_empty q_empty;
  wq_rep_nodup l q : wq_rep l q -> NoDup ((line q).*1);
  wq_rep_line l q a : wq_rep l q -> (a ∈ (line q).*1) <-> exists cl w, st q !! a = Some (Waiting cl w);
  wq_calls_ok l q : wq_rep l q -> wq_calls l = calls q;
  wq_size_ok l q : wq_rep l q -> (length (line q) <= wq_size l)%nat;
}.

Lemma implements_bind {L T A B} (rep : L -> WQ T -> Prop) (m : M L A) o (k : A -> M L B) p :
  implements rep m o -> (forall x, implements rep (k x) (p x)) ->
  implements rep (m_bind m k) (fun q => '(x, q1) ← o q; p x q1).
Proof.
  intros Hm Hk l q y q' R. destruct (o q) as [[x q1]|] eqn:E; [|done]. cbn. intros E2.
  destruct (Hm l q x q1 R E) as (l1 & E1 & R1). destruct (Hk x l1 q1 y q' R1 E2) as (l2 & E3 & R2).
  exists l2. split; [|done]. by eapply m_bind_Ret_r.
Qed.

Lemma implements_ret {L T A} (rep : L -> WQ T -> Prop) (x : A) : implements rep (m_ret x) (fun q => Some (x, q)).
Proof. intros l q y q' R [= <- <-]. by exists l. Qed.

(** ** What [list.rs] builds of [wake_head_if] *)

Section generic.
Context {L T : Type} `{W : WaitQueue L T}.

(** src: tinyos/rust/tiny/src/list.rs 158-170 [List::wake_while]
    The fuel is the number of futures and one. *)
Fixpoint wake_while_from (fuel : nat) {E} (pred : T -> E -> bool * E) (e : E) (any : bool) : M L (bool * E) :=
  match fuel with
  | O => m_fault FuelOut
  | S fuel' =>
      let! r := wq_wake_head_if pred e in
      if r.1 then wake_while_from fuel' pred r.2 true else m_ret (any, r.2)
  end.
Definition wake_while {E} (pred : T -> E -> bool * E) (e : E) : M L (bool * E) :=
  let! l := m_get in wake_while_from (S (wq_size l)) pred e false.
(** src: tinyos/rust/tiny/src/list.rs 175-177 [List::wake_all] *)
Definition wake_all : M L bool := let! r := wake_while (fun _ e => (true, e)) tt in m_ret r.1.
(** src: tinyos/rust/tiny/src/list.rs 243-245 [List::wake_one] *)
Definition wake_one : M L bool := let! r := wq_wake_head_if (fun _ e => (true, e)) tt in m_ret r.1.

(** [wake_while] on the queue. *)
Fixpoint q_wake_while_from {E} (pred : T -> E -> bool * E) (n : nat) (e : E) (any : bool) (q : WQ T) : option (bool * E * WQ T) :=
  match n with
  | O => None
  | S n' =>
      match q_wake_head_if pred e q with
      | Some (true, e', q') => q_wake_while_from pred n' e' true q'
      | Some (false, e', q') => Some (any, e', q')
      | None => None
      end
  end.
Definition q_wake_while {E} (pred : T -> E -> bool * E) (e : E) (q : WQ T) : option (bool * E * WQ T) :=
  q_wake_while_from pred (S (length (line q))) e false q.

Context `{PartialOrd T} {WL : WaitQueueLaws W}.

Lemma q_wake_head_length {E} (pred : T -> E -> bool * E) e q e' q' :
  q_wake_head_if pred e q = Some (true, e', q') -> length (line q) = S (length (line q')).
Proof.
  unfold q_wake_head_if. destruct (line q) as [|[h c] l]; [done|].
  destruct (pred c e).1; [|done]. destruct (st q !! h) as [[]|]; [done| |done|done]. by intros [= <- <-].
Qed.

(** More fuel than the line is long is enough. *)
Lemma wake_while_from_ok {E} (pred : T -> E -> bool * E) n : forall k e any, (n <= k)%nat ->
  implements wq_rep (wake_while_from k pred e any) (q_wake_while_from pred n e any).
Proof.
  induction n as [|n IH]; intros k e any Hk l q x q' Hr; [done|]. destruct k as [|k]; [lia|]. cbn [q_wake_while_from wake_while_from].
  destruct (q_wake_head_if pred e q) as [[[[] e1] q1]|] eqn:E1; [| |done].
  - destruct (wq_wake_ok E pred e l q _ _ Hr E1) as (l1 & El & Hr1). intros E2.
    destruct (IH k e1 true ltac:(lia) l1 q1 x q' Hr1 E2) as (l2 & El2 & Hr2). exists l2. split; [|done].
    by eapply m_bind_Ret_r.
  - intros [= <- <-]. destruct (wq_wake_ok E pred e l q _ _ Hr E1) as (l1 & El & Hr1). exists l1.
    split; [|done]. by eapply m_bind_Ret_r.
Qed.

Lemma wake_while_ok {E} (pred : T -> E -> bool * E) e : implements wq_rep (wake_while pred e) (q_wake_while pred e).
Proof.
  intros l q x q' Hr E1. unfold q_wake_while in E1. pose proof (wq_size_ok l q Hr).
  destruct (wake_while_from_ok pred (S (length (line q))) (S (wq_size l)) e false ltac:(lia) l q x q' Hr E1) as (l' & E2 & ?).
  exists l'. split; [|done]. by eapply m_bind_Ret_r.
Qed.

Definition q_wake_one (q : WQ T) : option (bool * WQ T) :=
  match q_wake_head_if (fun _ e => (true, e)) tt q with Some (b, _, q') => Some (b, q') | None => None end.

Lemma wake_one_ok : implements wq_rep wake_one q_wake_one.
Proof.
  intros l q x q' Hr. unfold q_wake_one. destruct (q_wake_head_if _ tt q) as [[[b u] q1]|] eqn:E1; [|done].
  intros [= <- <-]. destruct (wq_wake_ok _ _ _ l q _ _ Hr E1) as (l1 & El & Hr1). exists l1. split; [|done].
  by eapply m_bind_Ret_r.
Qed.

(** ** Awaiting a [join_with_cleanup] *)

(** The first poll of the future, which is created in place at [a]; a later poll; and, when it is dropped before it
    is ready, whether its cleanup runs (the caller runs it, then drops the node). *)
Definition await_first (a : nat) (c : T) (w : Z) : M L bool := wq_join a c true >>; wq_poll a w.
Definition await_next (a : nat) (w : Z) : M L bool :=
  let! ready := wq_poll a w in if ready : bool then wq_drop a >>; m_ret true else m_ret false.

Lemma await_first_ok a c w l q : wq_rep l q -> st q !! a = None ->
  exists l', await_first a c w l = Ret false l' /\
    wq_rep l' (mkWQ (ins (a, c) (line q)) (<[a := Waiting true w]> (st q)) (calls q)).
Proof.
  intros R E. destruct (wq_join_ok a c true l q tt (mkWQ (line q) (<[a := Fresh c true]> (st q)) (calls q)) R) as (l1 & E1 & R1);
    [unfold q_join; by rewrite E|].
  destruct (wq_poll_ok a w l1 _ false (mkWQ (ins (a, c) (line q)) (<[a := Waiting true w]> (st q)) (calls q)) R1) as (l2 & E2 & R2).
  { unfold q_poll. cbn [st line calls]. by rewrite lookup_insert_eq, insert_insert_eq. }
  exists l2. split; [|done]. by eapply m_bind_Ret_r.
Qed.

Lemma await_next_ok a w l q : wq_rep l q ->
  match st q !! a with
  | Some (Waiting cl _) => exists l', await_next a w l = Ret false l' /\
      wq_rep l' (mkWQ (line q) (<[a := Waiting cl w]> (st q)) (calls q))
  | Some (Gone _ _) => exists l', await_next a w l = Ret true l' /\
      wq_rep l' (mkWQ (line q) (delete a (st q)) (calls q))
  | _ => True
  end.
Proof.
  intros R. destruct (st q !! a) as [[|cl w0|c cl]|] eqn:E; try done.
  - destruct (wq_poll_ok a w l q false (mkWQ (line q) (<[a := Waiting cl w]> (st q)) (calls q)) R) as (l1 & E1 & R1);
      [unfold q_poll; by rewrite E|]. exists l1. split; [|done]. by eapply m_bind_Ret_r.
  - destruct (wq_poll_ok a w l q true (mkWQ (line q) (<[a := Gone c false]> (st q)) (calls q)) R) as (l1 & E1 & R1);
      [unfold q_poll; by rewrite E|].
    destruct (wq_drop_ok a l1 _ tt (mkWQ (line q) (delete a (st q)) (calls q)) R1) as (l2 & E2 & R2).
    { unfold q_drop. cbn [st line calls]. rewrite lookup_insert_eq, delete_insert_eq, filter_off; [done|].
      rewrite (wq_rep_line l q a R), E. by intros (? & ? & ?). }
    exists l2. split; [|done]. eapply m_bind_Ret_r; [exact E1|]. cbn. by eapply m_bind_Ret_r.
Qed.

(** Dropping an awaited future. *)
Lemma await_drop_ok a l q : wq_rep l q ->
  match st q !! a with
  | Some (Waiting cl w) => exists l1 l2, wq_take_cleanup a l = Ret false l1 /\ wq_drop a l1 = Ret tt l2 /\
      wq_rep l2 (mkWQ (filter (fun x => x.1 <> a) (line q)) (delete a (st q)) (calls q))
  | Some (Gone c true) => exists l1, wq_take_cleanup a l = Ret true l1 /\ wq_rep l1 (mkWQ (line q) (<[a := Gone c false]> (st q)) (calls q))
  | _ => True
  end.
Proof.
  intros R. destruct (st q !! a) as [[|cl w|c []]|] eqn:E; try done.
  - destruct (wq_take_ok a l q false q R) as (l1 & E1 & R1); [unfold q_take_cleanup; by rewrite E|].
    destruct (wq_drop_ok a l1 q tt (mkWQ (filter (fun x => x.1 <> a) (line q)) (delete a (st q)) (calls q)) R1) as (l2 & E2 & R2); [unfold q_drop; by rewrite E|]. by exists l1, l2.
  - destruct (wq_take_ok a l q true (mkWQ (line q) (<[a := Gone c false]> (st q)) (calls q)) R) as (l1 & E1 & R1);
      [unfold q_take_cleanup; by rewrite E|]. by exists l1.
Qed.

(** Dropping the node of a future that is not in the line. *)
Lemma drop_gone_ok a l q c cl : wq_rep l q -> st q !! a = Some (Gone c cl) ->
  exists l', wq_drop a l = Ret tt l' /\ wq_rep l' (mkWQ (line q) (delete a (st q)) (calls q)).
Proof.
  intros R E. apply (wq_drop_ok a l q tt); [done|]. unfold q_drop. rewrite E, filter_off; [done|].
  rewrite (wq_rep_line l q a R), E. by intros (? & ? & ?).
Qed.
End generic.

(** ** Letting the head go *)

Section pop.
Context {T : Type} `{PartialOrd T}.
Implicit Types q : WQ T.

(** What the representations guarantee of a queue ([wq_rep_nodup], [wq_rep_line]). *)
Definition q_ok q : Prop :=
  NoDup ((line q).*1) /\ forall a, (a ∈ (line q).*1) <-> exists cl w, st q !! a = Some (Waiting cl w).

Definition q_pop q : WQ T :=
  match line q with
  | [] => q
  | (h, c) :: l =>
      match st q !! h with
      | Some (Waiting cl w) => mkWQ l (<[h := Gone c cl]> (st q)) (calls q ++ [w])
      | _ => q
      end
  end.
Definition q_pops (m : nat) q : WQ T := Nat.iter m q_pop q.
Definition q_remove (a : nat) q : WQ T := mkWQ (filter (fun x => x.1 <> a) (line q)) (delete a (st q)) (calls q).
Definition waker_of q (x : nat * T) : Z := match st q !! x.1 with Some (Waiting _ w) => w | _ => 0 end.

Lemma q_ok_head q h c l : q_ok q -> line q = (h, c) :: l -> exists cl w, st q !! h = Some (Waiting cl w).
Proof. intros [_ Hw] E. apply Hw. rewrite E. by left. Qed.

Lemma q_pop_cons q h c l : q_ok q -> line q = (h, c) :: l -> exists cl w, st q !! h = Some (Waiting cl w) /\
  q_pop q = mkWQ l (<[h := Gone c cl]> (st q)) (calls q ++ [w]).
Proof. intros Hq E. destruct (q_ok_head q h c l Hq E) as (cl & w & Es). exists cl, w. split; [done|]. unfold q_pop. by rewrite E, Es. Qed.

Lemma q_pop_ok q : q_ok q -> q_ok (q_pop q).
Proof.
  intros Hq. destruct (line q) as [|[h c] l] eqn:E; [unfold q_pop; by rewrite E|].
  destruct (q_pop_cons q h c l Hq E) as (cl & w & Es & ->). destruct Hq as [Hn Hw]. rewrite E in Hn, Hw.
  rewrite fmap_cons in Hn. apply list.NoDup_cons in Hn as [Hh Hn]. split; [done|]. cbn [line st]. intros a.
  destruct (decide (a = h)) as [->|Ha]; [rewrite lookup_insert_eq; split; [done|]; by intros (? & ? & ?)|].
  rewrite lookup_insert_ne, <-Hw by done. rewrite fmap_cons, elem_of_cons. split; [by right|]. by intros [?|?].
Qed.

Lemma q_pops_ok m q : q_ok q -> q_ok (q_pops m q).
Proof. intros Hq. induction m as [|m IH]; [done|]. by apply q_pop_ok. Qed.

Lemma q_pops_S m q : q_pops (S m) q = q_pops m (q_pop q).
Proof. unfold q_pops. by rewrite Nat.iter_succ_r. Qed.

(** The first [m] of the line go, in its order, and each one's waker is called. *)
Lemma q_pops_line m : forall q, q_ok q ->
  line (q_pops m q) = drop m (line q) /\ calls (q_pops m q) = calls q ++ map (waker_of q) (take m (line q)).
Proof.
  induction m as [|m IH]; intros q Hq; [by rewrite take_0, app_nil_r|]. rewrite q_pops_S.
  destruct (IH (q_pop q) (q_pop_ok q Hq)) as [-> ->]. destruct (line q) as [|[h c] l] eqn:E.
  - unfold q_pop. rewrite E. rewrite E. by rewrite drop_nil, take_nil.
  - destruct (q_pop_cons q h c l Hq E) as (cl & w & Es & ->). cbn [line calls]. split; [done|].
    rewrite firstn_cons, map_cons, <-app_assoc. f_equal. cbn [app]. f_equal; [unfold waker_of; cbn; by rewrite Es|].
    apply map_ext_in. intros x Hx%list_elem_of_In. unfold waker_of. cbn [st]. rewrite lookup_insert_ne; [done|]. intros Eh.
    destruct Hq as [Hn _]. rewrite E, fmap_cons in Hn. apply list.NoDup_cons in Hn as [Hh _]. apply Hh.
    apply list_elem_of_fmap. exists x. split; [done|]. apply elem_of_take in Hx as (i & Hx & _). by eapply list_elem_of_lookup_2.
Qed.

(** Who has been let go stays let go; who waits still waits or was let go with its contents. *)
Lemma q_pops_gone m : forall q i c cl, q_ok q -> st q !! i = Some (Gone c cl) -> st (q_pops m q) !! i = Some (Gone c cl).
Proof.
  induction m as [|m IH]; intros q i c cl Hq E; [done|]. rewrite q_pops_S. apply IH; [by apply q_pop_ok|].
  destruct (line q) as [|[h d] l] eqn:El; [unfold q_pop; by rewrite El|].
  destruct (q_pop_cons q h d l Hq El) as (cl' & w & Es & ->). cbn [st]. rewrite lookup_insert_ne; [done|]. congruence.
Qed.

Lemma q_pops_none m : forall q i, q_ok q -> st q !! i = None -> st (q_pops m q) !! i = None.
Proof.
  induction m as [|m IH]; intros q i Hq E; [done|]. rewrite q_pops_S. apply IH; [by apply q_pop_ok|].
  destruct (line q) as [|[h d] l] eqn:El; [unfold q_pop; by rewrite El|].
  destruct (q_pop_cons q h d l Hq El) as (cl' & w & Es & ->). cbn [st]. rewrite lookup_insert_ne; [done|]. congruence.
Qed.

Lemma q_pops_waiting m : forall q i c cl w, q_ok q -> (i, c) ∈ line q -> st q !! i = Some (Waiting cl w) ->
  (i, c) ∈ line (q_pops m q) /\ st (q_pops m q) !! i = Some (Waiting cl w) \/ st (q_pops m q) !! i = Some (Gone c cl).
Proof.
  induction m as [|m IH]; intros q i c cl w Hq Hi E; [by left|]. rewrite q_pops_S.
  destruct (line q) as [|[h d] l] eqn:El; [by apply elem_of_nil in Hi|].
  destruct (q_pop_cons q h d l Hq El) as (cl' & w' & Es & Ep). pose proof (q_pop_ok q Hq) as Hq'. rewrite Ep in *.
  destruct (decide (i = h)) as [->|Hne].
  - right. apply q_pops_gone; [done|]. cbn [st]. rewrite lookup_insert_eq. rewrite Es in E. injection E as -> ->.
    apply elem_of_cons in Hi as [[= ->]|Hi]; [done|]. exfalso. destruct Hq as [Hn _]. rewrite El, fmap_cons in Hn.
    apply list.NoDup_cons in Hn as [Hh _]. apply Hh. by apply (list_elem_of_fmap_2 fst) in Hi.
  - apply IH; [done| |cbn [st]; by rewrite lookup_insert_ne]. cbn [line]. apply elem_of_cons in Hi as [[= -> ->]|Hi]; done.
Qed.

Lemma q_pops_taken m : forall q i c, q_ok q -> (i, c) ∈ take m (line q) ->
  exists cl w, st q !! i = Some (Waiting cl w) /\ st (q_pops m q) !! i = Some (Gone c cl).
Proof.
  induction m as [|m IH]; intros q i c Hq Hi; [by apply elem_of_nil in Hi|]. rewrite q_pops_S.
  destruct (line q) as [|[h d] l] eqn:E; [by apply elem_of_nil in Hi|]. pose proof (q_pop_ok q Hq) as Hq'.
  destruct (q_pop_cons q h d l Hq E) as (cl & w & Es & Ep). rewrite Ep in *. rewrite firstn_cons in Hi.
  apply elem_of_cons in Hi as [[= -> ->]|Hi].
  - exists cl, w. split; [done|]. apply q_pops_gone; [done|]. cbn. by rewrite lookup_insert_eq.
  - destruct (IH _ i c Hq' Hi) as (cl' & w' & E1 & E2). exists cl', w'. split; [|done]. cbn in E1.
    destruct (decide (i = h)) as [->|Hne]; [by rewrite lookup_insert_eq in E1|]. by rewrite lookup_insert_ne in E1.
Qed.

Lemma q_remove_ok a q : q_ok q -> q_ok (q_remove a q).
Proof.
  intros [Hn Hw]. split; cbn [line st q_remove].
  - rewrite (list_filter_fmap_fst a). by apply list.NoDup_filter.
  - intros i. rewrite (list_filter_fmap_fst a), list_elem_of_filter, Hw. destruct (decide (i = a)) as [->|Hi].
    + rewrite lookup_delete_eq. split; [by intros [? _]|]. by intros (? & ? & ?).
    + rewrite lookup_delete_ne by done. split; [by intros [_ ?]|done].
Qed.

Lemma q_ok_enq a c w q : q_ok q -> st q !! a = None ->
  q_ok (mkWQ (ins (a, c) (line q)) (<[a := Waiting true w]> (st q)) (calls q)).
Proof.
  intros [Hn Hw] Ha. assert (a ∉ (line q).*1) as Hna by (rewrite Hw, Ha; by intros (? & ? & ?)).
  pose proof (ins_Permutation (a, c) (line q)) as Hp. split; cbn [line st].
  - rewrite Hp, fmap_cons. by apply list.NoDup_cons.
  - intros i. rewrite Hp, fmap_cons, elem_of_cons, Hw. cbn [fst]. destruct (decide (i = a)) as [->|Hi].
    + rewrite lookup_insert_eq. split; [eauto|by left].
    + rewrite lookup_insert_ne by done. split; [by intros [?|?]|by right].
Qed.

Lemma q_wake_head_pop {E} (pred : T -> E -> bool * E) e q : q_ok q ->
  q_wake_head_if pred e q = match line q with
    | [] => Some (false, e, q)
    | (_, c) :: _ => if (pred c e).1 then Some (true, (pred c e).2, q_pop q) else Some (false, (pred c e).2, q)
    end.
Proof.
  intros Hq. unfold q_wake_head_if. destruct (line q) as [|[h c] l] eqn:E1; [done|]. destruct (pred c e).1; [|done].
  destruct (q_pop_cons q h c l Hq E1) as (cl & w & -> & ->). done.
Qed.

(** The longest prefix that passes a test. *)
Fixpoint prefix_len {A} (p : A -> bool) (l : list A) : nat :=
  match l with x :: l' => if p x then S (prefix_len p l') else O | [] => O end.

(** [wake_while] with a plain predicate lets that prefix go. *)
Lemma q_wake_while_pred {E} (p : T -> bool) (e : E) : forall n q any, q_ok q -> (length (line q) < n)%nat ->
  exists any', q_wake_while_from (fun c e => (p c, e)) n e any q = Some (any', e, q_pops (prefix_len (fun x => p x.2) (line q)) q).
Proof.
  induction n as [|n IH]; intros q any Hq Hl; [lia|]. cbn [q_wake_while_from]. rewrite q_wake_head_pop by done.
  destruct (line q) as [|[h c] l] eqn:E1; [by exists any|]. cbn [fst snd prefix_len]. destruct (p c); [|by exists any].
  destruct (q_pop_cons q h c l Hq E1) as (cl & w & Es & Ep). assert (line (q_pop q) = l) as El by (by rewrite Ep). cbn [length] in Hl.
  destruct (IH (q_pop q) true (q_pop_ok q Hq)) as (any' & E2); [rewrite El; lia|]. exists any'. by rewrite E2, El, q_pops_S.
Qed.

(** In a sorted line it is everything that passes a test that is closed downwards. *)
Lemma prefix_len_sorted (p : T -> bool) (l : list (nat * T)) : StronglySorted (fun y z => ple y.2 z.2 = true) l ->
  (forall c d : T, ple c d = true -> p d = true -> p c = true) ->
  take (prefix_len (fun x => p x.2) l) l = filter (fun x => p x.2 = true) l /\ drop (prefix_len (fun x => p x.2) l) l = filter (fun x => p x.2 = false) l.
Proof.
  intros Hs Hp. induction Hs as [|x l Hs IH Hx]; [done|]. cbn [prefix_len]. destruct (p x.2) eqn:E.
  - rewrite filter_cons_True, filter_cons_False by (rewrite E; done). destruct IH as [IH1 IH2]. rewrite firstn_cons, IH1. by split.
  - assert (forall y, y ∈ l -> p y.2 = false) as Hl.
    { intros y Hy. rewrite list.Forall_forall in Hx. apply not_true_is_false. intros Ey. by rewrite (Hp _ _ (Hx y Hy) Ey) in E. }
    rewrite filter_cons_False, filter_cons_True by (rewrite E; done). rewrite take_0, drop_0. clear IH Hs Hx. split.
    + induction l as [|y l IH]; [done|]. rewrite filter_cons_False by (rewrite Hl by (by left); done). apply IH. intros ??. apply Hl. by right.
    + f_equal. induction l as [|y l IH]; [done|]. rewrite filter_cons_True by (apply Hl; by left). f_equal. apply IH. intros ??. apply Hl. by right.
Qed.
End pop.

Lemma rep_ok {L T} `{PartialOrd T} (W : WaitQueue L T) `{!WaitQueueLaws W} l q : wq_rep l q -> q_ok q.
Proof. intros R. split; [by eapply wq_rep_nodup|]. intros a. by eapply wq_rep_line. Qed.

(** ** Counting futures *)

Definition msum {A} (f : A -> Z) (m : gmap nat A) : Z := map_fold (fun _ x n => f x + n) 0 m.

Lemma msum_delete {A} (f : A -> Z) m i x : m !! i = Some x -> msum f m = f x + msum f (delete i m).
Proof. intros Hi. unfold msum. apply (map_fold_delete_L (fun _ x n => f x + n)); [|done]. intros. lia. Qed.

Lemma msum_insert {A} (f : A -> Z) m i x : msum f (<[i := x]> m) = f x + msum f (delete i m).
Proof. rewrite (msum_delete f _ i x) by apply lookup_insert_eq. by rewrite delete_insert_eq. Qed.

Lemma msum_new {A} (f : A -> Z) m i x : m !! i = None -> msum f (<[i := x]> m) = f x + msum f m.
Proof. intros Hi. by rewrite msum_insert, delete_id. Qed.

Lemma msum_update {A} (f : A -> Z) m i x y : m !! i = Some y -> msum f (<[i := x]> m) = f x - f y + msum f m.
Proof. intros Hi. rewrite msum_insert, (msum_delete f m i y Hi). lia. Qed.

Lemma msum_nonneg {A} (f : A -> Z) m : (forall x, 0 <= f x) -> 0 <= msum f m.
Proof. intros Hf. unfold msum. apply (map_fold_weak_ind (fun r _ => 0 <= r)); [done|]. intros i x m' r _ Hr. specialize (Hf x). lia. Qed.

Lemma msum_empty {A} (f : A -> Z) : msum f ∅ = 0.
Proof. apply map_fold_empty. Qed.
