(* ===== verification/WaitListSpec.v ===== *)
(** * WaitListSpec: the pointers of the wait list implement the queue

    The representation predicate cuts the list into segments, as one does for doubly-linked lists: each
    cell names its neighbours, and a change to the list touches the cells at the cut only.  The operations
    never meet an invalid pointer or one of the code's [panic!]s. *)
From stdpp Require Import gmap list.
From S2P Require Import Prelude WaitList WaitQueue.

Section rep.
Context {T : Type} `{PartialOrd T}.
Implicit Types m : gmap nat (Fut T).
Implicit Types s : WL T.
Implicit Types l : list (nat * T).

(** What clients know of a future. *)
Definition wabs (f : Fut T) : waiter T :=
  if f_list f then Fresh (contents (f_node f)) (f_cleanup f)
  else if nlist (f_node f) then Waiting (f_cleanup f) (default 0 (waker (f_node f)))
  else Gone (contents (f_node f)) (f_cleanup f).

(** A node of the list between two neighbours, and one outside of it. *)
Definition in_list p n (c : T) cl w : Fut T := mkFut false (mkNode p n (Some w) c true) cl.
Definition off_list b (c : T) cl : Fut T := mkFut b (mkNode None None None c false) cl.

Definition cell m (x : nat * T) (p n : option nat) : Prop := exists cl w, m !! x.1 = Some (in_list p n x.2 cl w).

Definition first_or l (n : option nat) : option nat := match l with [] => n | y :: _ => Some y.1 end.
Fixpoint last_or l (p : option nat) : option nat := match l with [] => p | y :: l' => last_or l' (Some y.1) end.

Fixpoint seg m (p : option nat) l (n : option nat) : Prop :=
  match l with [] => True | x :: l' => cell m x p (first_or l' n) /\ seg m (Some x.1) l' n end.

Lemma first_or_app l k n : first_or (l ++ k) n = first_or l (first_or k n).
Proof. by destruct l. Qed.
Lemma last_or_app l k p : last_or (l ++ k) p = last_or k (last_or l p).
Proof. revert p. induction l as [|x l IH]; intros p; [done|]. apply IH. Qed.

Lemma seg_app m p l k n : seg m p (l ++ k) n <-> seg m p l (first_or k n) /\ seg m (last_or l p) k n.
Proof.
  revert p. induction l as [|x l IH]; intros p; simpl; [tauto|]. rewrite IH, first_or_app. tauto.
Qed.

(** Cells elsewhere do not matter. *)
Lemma seg_frame m m' p l n : (forall x, x ∈ l -> m' !! x.1 = m !! x.1) -> seg m p l n -> seg m' p l n.
Proof.
  revert p. induction l as [|x l IH]; intros p Hm; [done|]. simpl. intros [(cl & w & Hx) Hs]. split.
  - exists cl, w. rewrite Hm by (by left). done.
  - apply IH; [|done]. intros y Hy. apply Hm. by right.
Qed.

Lemma seg_insert m a f p l n : a ∉ l.*1 -> seg m p l n -> seg (<[a := f]> m) p l n.
Proof.
  intros Ha. apply seg_frame. intros x Hx. rewrite lookup_insert_ne; [done|]. intros ->. by apply Ha, list_elem_of_fmap_2.
Qed.

Lemma seg_delete m a p l n : a ∉ l.*1 -> seg m p l n -> seg (delete a m) p l n.
Proof.
  intros Ha. apply seg_frame. intros x Hx. rewrite lookup_delete_ne; [done|]. intros ->. by apply Ha, list_elem_of_fmap_2.
Qed.

Lemma seg_elem m p l n x : seg m p l n -> x ∈ l -> exists p' n' cl w, m !! x.1 = Some (in_list p' n' x.2 cl w).
Proof.
  revert p. induction l as [|y l IH]; intros p Hs Hx; [by apply elem_of_nil in Hx|]. destruct Hs as [(cl & w & Hy) Hs].
  apply elem_of_cons in Hx as [->|Hx]; [by exists p, (first_or l n), cl, w|]. by apply (IH (Some y.1)).
Qed.

(** The ends of the list. *)
Definition ends l : option (nat * nat) :=
  match l with [] => None | x :: l' => Some (x.1, default x.1 (last_or l' (Some x.1))) end.

Record rep s (q : WQ T) : Prop := {
  r_root : root s = ends (line q);
  r_dup : NoDup ((line q).*1);
  r_seg : seg (futs s) None (line q) None;
  r_off : forall a f, futs s !! a = Some f -> a ∉ (line q).*1 -> exists b c cl, f = off_list b c cl;
  r_st : st q = wabs <$> futs s;
  r_calls : calls q = woken s;
}.

(** ** Steps of the machine *)

Definition on_node (g : Node T -> Node T) (f : Fut T) : Fut T := mkFut (f_list f) (g (f_node f)) (f_cleanup f).

Lemma insert_alter m a f (g : Fut T -> Fut T) : m !! a = Some f -> <[a := g f]> m = alter g a m.
Proof.
  intros E. apply map_eq. intros b. destruct (decide (a = b)) as [<-|Hne].
  - by rewrite lookup_insert_eq, lookup_alter_eq, E.
  - by rewrite lookup_insert_ne, lookup_alter_ne.
Qed.

Lemma set_node_eq s a g : is_Some (futs s !! a) ->
  set_node a g s = Ret tt (with_futs (alter (on_node g) a (futs s)) s).
Proof.
  intros [f E]. unfold set_node, deref. unfold m_bind. rewrite E. unfold m_modify.
  by rewrite <- (insert_alter _ _ f (on_node g)).
Qed.

Lemma set_node_mk r m ws a g : is_Some (m !! a) -> set_node a g (mkWL r m ws) = Ret tt (mkWL r (alter (on_node g) a m) ws).
Proof. apply (set_node_eq (mkWL r m ws)). Qed.

Lemma deref_eq s a f : futs s !! a = Some f -> deref a s = Ret f s.
Proof. intros E. unfold deref. by rewrite E. Qed.

(** Pointer changes are not seen by clients. *)
Lemma wabs_alter m a g : (forall n, contents (g n) = contents n /\ nlist (g n) = nlist n /\ waker (g n) = waker n) ->
  wabs <$> alter (on_node g) a m = wabs <$> m.
Proof.
  intros Hg. apply map_eq. intros b. rewrite !lookup_fmap. destruct (decide (a = b)) as [<-|Hne]; [|by rewrite lookup_alter_ne].
  rewrite lookup_alter_eq. destruct (m !! a) as [f|]; [|done]. cbn. f_equal. unfold wabs, on_node. cbn.
  destruct (Hg (f_node f)) as (-> & -> & ->). done.
Qed.

Lemma seg_alter m a g p l n : a ∉ l.*1 -> seg m p l n -> seg (alter g a m) p l n.
Proof.
  intros Ha. apply seg_frame. intros x Hx. rewrite lookup_alter_ne; [done|]. intros ->. by apply Ha, list_elem_of_fmap_2.
Qed.

(** Only the next pointer of the last cell, or only the previous pointer of the first one, changes. *)
Lemma seg_set_next m p l x n n' : NoDup ((l ++ [x]).*1) -> seg m p (l ++ [x]) n ->
  seg (alter (on_node (set_next n')) x.1 m) p (l ++ [x]) n'.
Proof.
  rewrite fmap_app, !seg_app. intros (_ & Hd & _)%list.NoDup_app [Hl [(cl & w & Hx) _]]. split.
  - apply seg_alter; [|done]. intros Hin. apply (Hd _ Hin). by left.
  - split; [|done]. exists cl, w. by rewrite lookup_alter_eq, Hx.
Qed.

Lemma seg_set_prev m p p' x l n : NoDup ((x :: l).*1) -> seg m p (x :: l) n ->
  seg (alter (on_node (set_prev p')) x.1 m) p' (x :: l) n.
Proof.
  rewrite fmap_cons. intros [Hx _]%list.NoDup_cons [(cl & w & E) Hl]. split; [|by apply seg_alter].
  exists cl, w. by rewrite lookup_alter_eq, E.
Qed.

Lemma last_or_Some l x : exists y, last_or l (Some x) = Some y.
Proof. revert x. induction l as [|y l IH]; intros x; [by exists x|]. apply IH. Qed.

Lemma ends_snoc l x : ends (l ++ [x]) = Some (default x.1 (first_or l None), x.1).
Proof. destruct l as [|y l]; [done|]. simpl. by rewrite last_or_app. Qed.

Lemma ends_first x l : exists t, ends (x :: l) = Some (x.1, t).
Proof. by eexists. Qed.

(** ** Joining *)

Lemma ins_split x l : exists l1 l2, l = l1 ++ l2 /\ ins x l = l1 ++ x :: l2 /\
  (forall z, z ∈ l2 -> ple z.2 x.2 = false) /\ (l1 = [] \/ exists k z, l1 = k ++ [z] /\ ple z.2 x.2 = true).
Proof.
  induction l as [|y l IH]; [by exists [], []; split_and!; try done; [set_solver|left]|]. cbn [ins].
  destruct (existsb (fun z => ple z.2 x.2) (y :: l)) eqn:E.
  - destruct IH as (l1 & l2 & -> & -> & Hf & Hl). exists (y :: l1), l2. split_and!; try done. right.
    destruct Hl as [->|(k & z & -> & Hz)]; [|by exists (y :: k), z].
    exists [], y. split; [done|]. simpl in E. apply orb_true_iff in E as [E|E]; [done|].
    apply existsb_exists in E as (z & Hz & E). rewrite Hf in E; [done|by apply list_elem_of_In].
  - exists [], (y :: l). split_and!; [done|done| |by left]. intros z Hz. apply not_true_is_false. intros Ez.
    apply not_true_iff_false in E. apply E, existsb_exists. exists z. split; [by apply list_elem_of_In|done].
Qed.

(** The search skips what is larger. *)
Lemma insert_skip a (c : T) h t s l1 k : forall n rest, seg (futs s) None (l1 ++ k ++ rest) None ->
  (forall z, z ∈ k -> ple z.2 c = false) ->
  insert_from (n + length k) a c h t (last_or (l1 ++ k) None) s = insert_from n a c h t (last_or l1 None) s.
Proof.
  induction k as [|z k IH] using rev_ind; intros n rest Hs Hk; [by rewrite Nat.add_0_r, app_nil_r|].
  rewrite length_app, app_assoc, last_or_app, Nat.add_1_r, Nat.add_succ_r. cbn [last_or insert_from].
  rewrite <- app_assoc in Hs. pose proof Hs as Hs'. rewrite (app_assoc l1), seg_app in Hs'. destruct Hs' as [_ [(cl & w & E) _]].
  rewrite (m_bind_Ret _ _ _ _ _ (deref_eq _ _ _ E)). cbn [in_list f_node contents prev].
  rewrite Hk by (apply elem_of_app; right; by left). apply (IH n ([z] ++ rest)); [done|]. intros y Hy. apply Hk, elem_of_app. by left.
Qed.

(** The pointers after the node [a] has been linked behind [z]. *)
Definition linked m (a : nat) (z : nat) (nx : option nat) : gmap nat (Fut T) :=
  alter (on_node (set_prev (Some z))) a (alter (on_node (set_next nx)) a
    (match nx with Some n => alter (on_node (set_prev (Some a))) n | None => id end
       (alter (on_node (set_next (Some a))) z m))).

Lemma ends_eq l h t : ends l = Some (h, t) <-> first_or l None = Some h /\ last_or l None = Some t.
Proof.
  destruct l as [|x l]; simpl; [naive_solver|]. destruct (last_or_Some l x.1) as [y ->]. simpl. naive_solver.
Qed.

Lemma last_or_in l p t : l <> [] -> last_or l p = Some t -> t ∈ l.*1.
Proof.
  destruct l as [|x l _] using rev_ind; [done|]. intros _. rewrite last_or_app, fmap_app. intros [= <-].
  apply elem_of_app. right. by left.
Qed.

Lemma first_or_in l n t : l <> [] -> first_or l n = Some t -> t ∈ l.*1.
Proof. destruct l as [|x l]; [done|]. intros _ [= <-]. by left. Qed.

(** The node before the cut is the last one exactly when nothing follows. *)
Lemma cut_last k z l2 t : NoDup ((k ++ z :: l2).*1) -> last_or (k ++ z :: l2) None = Some t ->
  Nat.eqb z.1 t = match l2 with [] => true | _ => false end.
Proof.
  rewrite last_or_app, fmap_app, fmap_cons. cbn [last_or]. intros (_ & _ & [Hz _]%list.NoDup_cons)%list.NoDup_app Ht.
  destruct l2 as [|y l2]; [injection Ht as <-; apply Nat.eqb_refl|].
  apply Nat.eqb_neq. intros E. apply Hz. rewrite E. by apply (last_or_in (y :: l2) (Some z.1)).
Qed.

Lemma seg_first m p l n a : seg m p l n -> first_or l None = Some a -> is_Some (m !! a).
Proof. destruct l as [|x l]; [done|]. intros [(cl & w & E) _] [= <-]. by eexists. Qed.

Lemma alter_some m a b g : is_Some (m !! a) -> is_Some (alter g b m !! a).
Proof.
  intros [f E]. destruct (decide (b = a)) as [->|Hne]; [by rewrite lookup_alter_eq, E|by rewrite lookup_alter_ne, E].
Qed.

Lemma insert_here a (c : T) cl h t s k z l2 n : seg (futs s) None (k ++ z :: l2) None -> NoDup ((k ++ z :: l2).*1) ->
  futs s !! a = Some (off_list false c cl) -> ple z.2 c = true -> ends (k ++ z :: l2) = Some (h, t) ->
  insert_from (S n) a c h t (last_or (k ++ [z]) None) s =
    Ret (Some z.1) (with_root (match l2 with [] => Some (h, a) | _ => root s end)
                      (with_futs (linked (futs s) a z.1 (first_or l2 None)) s)).
Proof.
  intros Hs Hd Ha Hz [_ Ht]%ends_eq. apply (cut_last k z l2 t) in Hd; [|done].
  apply seg_app in Hs as [_ [(cl' & w & E) Hl2]].
  rewrite last_or_app. cbn [last_or insert_from]. rewrite (m_bind_Ret _ _ _ _ _ (deref_eq _ _ _ E)).
  cbn [in_list f_node contents next]. rewrite Hz, Hd. unfold linked.
  destruct s as [r m ws]. cbn [futs root with_root with_futs woken] in *.
  rewrite (m_bind_Ret _ _ _ _ _ (set_node_mk _ _ _ _ _ (mk_is_Some _ _ E))).
  set (m1 := alter (on_node (set_next (Some a))) z.1 m).
  assert (is_Some (m1 !! a)) as Ha1 by (apply alter_some; by eexists).
  destruct l2 as [|y l2]; cbn [first_or].
  - rewrite m_bind_ret.
    rewrite (m_bind_Ret _ _ _ _ _ (set_node_mk _ _ _ _ _ Ha1)).
    rewrite (m_bind_Ret _ _ _ _ _ (set_node_mk _ _ _ _ _ (alter_some _ _ _ _ Ha1))). reflexivity.
  - assert (is_Some (m1 !! y.1)) as Hy1 by (apply alter_some; destruct Hl2 as [(cl2 & w2 & Ey) _]; by eexists).
    rewrite (m_bind_Ret _ _ _ _ _ (set_node_mk _ _ _ _ _ Hy1)).
    rewrite (m_bind_Ret _ _ _ _ _ (set_node_mk _ _ _ _ _ (alter_some _ _ _ _ Ha1))).
    by rewrite (m_bind_Ret _ _ _ _ _ (set_node_mk _ _ _ _ _ (alter_some _ _ _ _ (alter_some _ _ _ _ Ha1)))).
Qed.

(** *** The new node takes its place *)

(** [m] is the memory of a list from which [a] is still unlinked, [mx] the one after linking. *)
Record links m mx (a : nat) (c : T) cl l1 l2 : Prop := {
  lk_left : seg mx None l1 (Some a);
  lk_right : seg mx (Some a) l2 None;
  lk_self : mx !! a = Some (mkFut false (mkNode (last_or l1 None) (first_or l2 None) None c false) cl);
  lk_abs : wabs <$> mx = wabs <$> m;
  lk_out : forall b, b ∉ (l1 ++ l2).*1 -> b <> a -> mx !! b = m !! b;
}.

Definition settle (a : nat) (w : Z) m : gmap nat (Fut T) :=
  alter (on_node (set_waker (Some w))) a (alter (on_node (set_nlist true)) a m).

Lemma settle_ne a w m b : b <> a -> settle a w m !! b = m !! b.
Proof. intros ?. unfold settle. by rewrite !lookup_alter_ne. Qed.

Lemma rep_joined s q a c cl l1 l2 mx w : rep s q -> line q = l1 ++ l2 -> a ∉ (line q).*1 ->
  links (<[a := off_list false c cl]> (futs s)) mx a c cl l1 l2 ->
  rep (mkWL (ends (l1 ++ (a, c) :: l2)) (settle a w mx) (woken s))
      (mkWQ (l1 ++ (a, c) :: l2) (<[a := Waiting cl w]> (st q)) (calls q)).
Proof.
  intros R El Ha [K1 K2 K3 K4 K5]. rewrite El in Ha. pose proof (r_dup _ _ R) as Hd. rewrite El in Hd.
  rewrite fmap_app in Ha. apply not_elem_of_app in Ha as [Ha1 Ha2].
  split; cbn [root futs woken line st calls]; [done| | | | |apply R].
  - rewrite fmap_app in Hd |- *. rewrite fmap_cons. apply list.NoDup_app in Hd as (Hd1 & Hd & Hd2).
    apply list.NoDup_app. split; [done|]. split; [|by apply list.NoDup_cons].
    intros x Hx [->|Hx']%elem_of_cons; [done|by apply (Hd x)].
  - apply seg_app. split; [by unfold settle; apply seg_alter, seg_alter|]. split; [|by unfold settle; apply seg_alter, seg_alter].
    exists cl, w. unfold settle. by rewrite !lookup_alter_eq, K3.
  - intros b f Hb Hn. rewrite fmap_app, fmap_cons in Hn.
    apply not_elem_of_app in Hn as [Hn1 [Hne Hn2]%list.not_elem_of_cons]. rewrite settle_ne in Hb by done.
    assert (b ∉ (l1 ++ l2).*1) as Hn by (rewrite fmap_app; by apply not_elem_of_app).
    rewrite K5, lookup_insert_ne in Hb by done. apply (r_off _ _ R b f Hb). by rewrite El.
  - rewrite (r_st _ _ R). apply map_eq. intros b. rewrite lookup_fmap. destruct (decide (b = a)) as [->|Hne].
    + rewrite lookup_insert_eq. unfold settle. by rewrite !lookup_alter_eq, K3.
    + rewrite settle_ne, <- lookup_fmap, K4, lookup_fmap, !lookup_insert_ne, lookup_fmap by done. done.
Qed.

Lemma wabs_next a v m : wabs <$> alter (on_node (set_next v)) a m = wabs <$> m.
Proof. by apply wabs_alter. Qed.
Lemma wabs_prev a v m : wabs <$> alter (on_node (set_prev v)) a m = wabs <$> m.
Proof. by apply wabs_alter. Qed.

(** Linking behind [z], at the front, and into an empty list. *)
Lemma links_behind m a c cl k z l2 : seg m None ((k ++ [z]) ++ l2) None -> NoDup (((k ++ [z]) ++ l2).*1) ->
  a ∉ ((k ++ [z]) ++ l2).*1 -> m !! a = Some (off_list false c cl) ->
  links m (linked m a z.1 (first_or l2 None)) a c cl (k ++ [z]) l2.
Proof.
  intros Hs Hd Ha E. apply seg_app in Hs as [Hl Hr]. pose proof Ha as Ha'. rewrite fmap_app in Hd, Ha.
  apply list.NoDup_app in Hd as (Hd1 & Hdis & Hd2). apply not_elem_of_app in Ha as [Ha1 Ha2].
  assert (z.1 ∈ (k ++ [z]).*1) as Hz by (rewrite fmap_app; apply elem_of_app; right; by left).
  apply (seg_set_next m None k z _ (Some a) Hd1) in Hl. unfold linked. set (m1 := alter (on_node (set_next (Some a))) z.1 m) in *.
  assert (m1 !! a = Some (off_list false c cl)) as E1 by (unfold m1; rewrite lookup_alter_ne; [done|]; congruence).
  rewrite last_or_app in Hr. cbn [last_or] in Hr.
  assert (seg m1 (Some z.1) l2 None) as Hr1 by (apply seg_alter; [|done]; intros Hin; by apply (Hdis z.1)).
  destruct l2 as [|y l2]; cbn [first_or id] in *.
  - split.
    + by apply seg_alter, seg_alter.
    + done.
    + rewrite !lookup_alter_eq, E1, last_or_app. done.
    + unfold m1. by rewrite wabs_prev, !wabs_next.
    + intros b Hb Hne. rewrite app_nil_r in Hb. unfold m1. rewrite !lookup_alter_ne; congruence.
  - assert (a <> y.1) as Hay by (intros ->; apply Ha2; by left). split.
    + apply seg_alter, seg_alter, seg_alter; try done. intros Hin. apply (Hdis y.1 Hin). by left.
    + apply seg_alter; [done|]. apply seg_alter; [done|]. by apply seg_set_prev with (p := Some z.1).
    + rewrite !lookup_alter_eq, lookup_alter_ne, E1, last_or_app by done. done.
    + unfold m1. by rewrite wabs_prev, wabs_next, wabs_prev, wabs_next.
    + intros b Hb Hne. rewrite fmap_app in Hb. apply not_elem_of_app in Hb as [Hb1 Hb2].
      unfold m1. rewrite !lookup_alter_ne; [done|congruence|intros <-; apply Hb2; by left|congruence|congruence].
Qed.

Lemma links_front m a c cl x l : seg m None (x :: l) None -> NoDup ((x :: l).*1) -> a ∉ (x :: l).*1 ->
  m !! a = Some (off_list false c cl) ->
  links m (alter (on_node (set_next (Some x.1))) a (alter (on_node (set_prev (Some a))) x.1 m)) a c cl [] (x :: l).
Proof.
  intros Hs Hd Ha E. assert (x.1 <> a) as Hne by (intros <-; apply Ha; by left). split.
  - done.
  - apply seg_alter; [done|]. by apply seg_set_prev with (p := None).
  - by rewrite lookup_alter_eq, lookup_alter_ne, E by done.
  - by rewrite wabs_next, wabs_prev.
  - intros b Hb Hba. rewrite !lookup_alter_ne; [done|intros <-; apply Hb; by left|done].
Qed.

Lemma links_empty m a c cl : m !! a = Some (off_list false c cl) -> links m m a c cl [] [].
Proof. by split. Qed.

(** *** The representation of one future *)

Lemma rep_lookup s q a : rep s q -> st q !! a = wabs <$> futs s !! a.
Proof. intros R. by rewrite (r_st _ _ R), lookup_fmap. Qed.

Lemma line_waiting s q a : rep s q -> (a ∈ (line q).*1) <-> exists cl w, st q !! a = Some (Waiting cl w).
Proof.
  intros R. rewrite (rep_lookup s q a R). split.
  - intros (x & -> & Hx)%list_elem_of_fmap. destruct (seg_elem _ _ _ _ x (r_seg _ _ R) Hx) as (p & n & cl & w & ->).
    by exists cl, w.
  - intros (cl & w & E). destruct (decide (a ∈ (line q).*1)) as [?|Hn]; [done|].
    destruct (futs s !! a) as [f|] eqn:Ef; [|done]. destruct (r_off _ _ R a f Ef Hn) as (b & c & cl' & ->).
    by destruct b.
Qed.

Lemma rep_off s q a b : rep s q -> st q !! a = Some b -> (forall cl w, b <> Waiting cl w) ->
  (a ∉ (line q).*1) /\ exists fl c cl, futs s !! a = Some (off_list fl c cl) /\ b = (if fl then Fresh c cl else Gone c cl).
Proof.
  intros R E Hb. assert (a ∉ (line q).*1) as Hn.
  { rewrite (line_waiting s q a R). intros (cl & w & E'). rewrite E in E'. injection E' as ->. by apply (Hb cl w). }
  split; [done|]. rewrite (rep_lookup s q a R) in E. destruct (futs s !! a) as [f|] eqn:Ef; [|done].
  destruct (r_off _ _ R a f Ef Hn) as (fl & c & cl & ->). exists fl, c, cl. split; [done|].
  injection E as <-. by destruct fl.
Qed.

Lemma rep_on s q a cl w : rep s q -> st q !! a = Some (Waiting cl w) ->
  exists l1 c l2, line q = l1 ++ (a, c) :: l2 /\
    futs s !! a = Some (in_list (last_or l1 None) (first_or l2 None) c cl w).
Proof.
  intros R E. assert (a ∈ (line q).*1) as Hin by (apply (line_waiting s q a R); by exists cl, w).
  apply list_elem_of_fmap in Hin as ([a' c] & -> & Hin). apply list_elem_of_split in Hin as (l1 & l2 & El).
  exists l1, c, l2. split; [done|]. pose proof (r_seg _ _ R) as Hs. rewrite El in Hs.
  apply seg_app in Hs as [_ [(cl' & w' & Ef) _]]. cbn [fst snd] in *.
  rewrite (rep_lookup s q a' R), Ef in E. by injection E as <- <-.
Qed.

Lemma rep_size s q a : rep s q -> a ∉ (line q).*1 -> is_Some (futs s !! a) -> (length (line q) < size (futs s))%nat.
Proof.
  intros R Ha [f Hf]. rewrite <- (length_fmap fst), <- size_dom.
  assert (NoDup (a :: (line q).*1)) as Hd by (apply list.NoDup_cons; split; [done|apply R]).
  apply (Nat.lt_le_trans _ (length (a :: (line q).*1))); [simpl; lia|].
  rewrite <- (size_list_to_set (C := gset nat)) by done. apply subseteq_size. intros b Hb%elem_of_list_to_set. apply elem_of_dom.
  apply elem_of_cons in Hb as [->|(x & -> & Hx)%list_elem_of_fmap]; [by eexists|].
  destruct (seg_elem _ _ _ _ x (r_seg _ _ R) Hx) as (p & n & cl & w & ->). by eexists.
Qed.

(** A change of one future that clients see, with no pointer touched. *)
Lemma rep_touch s q a f f' : rep s q -> futs s !! a = Some f ->
  (if decide (a ∈ (line q).*1) then exists p n c cl w cl' w', f = in_list p n c cl w /\ f' = in_list p n c cl' w'
   else exists b c cl, f' = off_list b c cl) ->
  rep (with_futs (<[a := f']> (futs s)) s) (mkWQ (line q) (<[a := wabs f']> (st q)) (calls q)).
Proof.
  intros R Ef Hf. split; cbn [root futs woken line st calls with_futs]; [apply R|apply R| | | |apply R].
  - destruct (decide (a ∈ (line q).*1)) as [Hin|Hn]; [|apply seg_insert; [done|apply R]].
    destruct Hf as (p & n & c & cl & w & cl' & w' & -> & ->). apply list_elem_of_fmap in Hin as (x & -> & Hin).
    apply list_elem_of_split in Hin as (l1 & l2 & El). pose proof (r_seg _ _ R) as Hs. pose proof (r_dup _ _ R) as Hd.
    rewrite El in Hs, Hd |- *. rewrite fmap_app, fmap_cons in Hd. apply list.NoDup_app in Hd as (_ & Hd1 & [Hd2 _]%list.NoDup_cons).
    apply seg_app in Hs as [Hs1 [(cl0 & w0 & E0) Hs2]]. apply seg_app. split; [|split].
    + apply seg_insert; [|done]. intros Hin. apply (Hd1 _ Hin). by left.
    + exists cl', w'. rewrite lookup_insert_eq. rewrite Ef in E0. injection E0 as -> -> _ -> _. done.
    + by apply seg_insert.
  - intros b g Hb Hn. destruct (decide (a = b)) as [<-|Hne].
    + rewrite decide_False in Hf by done. rewrite lookup_insert_eq in Hb. by injection Hb as <-.
    + rewrite lookup_insert_ne in Hb by done. by apply (r_off _ _ R b g).
  - by rewrite fmap_insert, (r_st _ _ R).
Qed.

Lemma rep_same s q : rep s q -> rep (with_futs (futs s) s) q.
Proof. by destruct s. Qed.

(** ** The operations *)

(** The last two writes of a poll that joins. *)
Lemma settle_eq r m ws a w : is_Some (m !! a) ->
  (set_node a (set_nlist true) >>; set_node a (set_waker (Some w)) >>; m_ret false) (mkWL r m ws) =
    Ret false (mkWL r (settle a w m) ws).
Proof.
  intros Hm. rewrite (m_bind_Ret _ _ _ _ _ (set_node_mk _ _ _ _ _ Hm)).
  by rewrite (m_bind_Ret _ _ _ _ _ (set_node_mk _ _ _ _ _ (alter_some _ _ _ _ Hm))).
Qed.

Lemma links_self_some m mx a c cl l1 l2 : links m mx a c cl l1 l2 -> is_Some (mx !! a).
Proof. intros K. rewrite (lk_self _ _ _ _ _ _ _ K). by eexists. Qed.

(** Linking, on a memory [m] in which [a] has left its future's [list] field. *)
Definition link_in (a : nat) (c : T) : M (WL T) unit :=
  let! s := m_get in
  match root s with
  | Some (h, t) =>
      let! r := insert_from (size (futs s)) a c h t (Some t) in
      match r with
      | Some _ => m_ret tt
      | None => set_node h (set_prev (Some a)) >>; set_node a (set_next (Some h)) >>; set_root (Some (a, t))
      end
  | None => set_root (Some (a, a))
  end.

Lemma link_in_ok m ws a c cl l : seg m None l None -> NoDup (l.*1) -> a ∉ l.*1 -> (length l < size m)%nat ->
  m !! a = Some (off_list false c cl) ->
  exists l1 l2 mx, l = l1 ++ l2 /\ ins (a, c) l = l1 ++ (a, c) :: l2 /\ links m mx a c cl l1 l2 /\
    link_in a c (mkWL (ends l) m ws) = Ret tt (mkWL (ends (l1 ++ (a, c) :: l2)) mx ws).
Proof.
  intros Hs Hd Ha Hsz E. destruct (ins_split (a, c) l) as (l1 & l2 & El & Ei & Hf & Hl). exists l1, l2.
  unfold link_in. erewrite m_bind_Ret by reflexivity. cbn [root futs].
  destruct Hl as [->|(k & z & -> & Hz)].
  - cbn [app] in *. subst l2. destruct l as [|x l].
    { exists m. split_and!; [done|done|by apply links_empty|done]. }
    eexists. split_and!; [done|done|by apply links_front|]. destruct (ends_first x l) as [t Et]. rewrite Et.
    pose proof Et as [_ Elast]%ends_eq. pose proof (insert_skip a c x.1 t (mkWL (Some (x.1, t)) m ws) [] (x :: l) (size m - length (x :: l)) []) as Hskip.
    cbn [app last_or] in Hskip, Elast. rewrite Elast, Nat.sub_add in Hskip by lia.
    rewrite (m_bind_Ret _ _ _ (None) (mkWL (Some (x.1, t)) m ws)).
    2: { rewrite Hskip; [|by rewrite app_nil_r|done]. by destruct (size m - length (x :: l))%nat. }
    destruct Hs as [(cl' & w' & Ex) _].
    rewrite (m_bind_Ret _ _ _ _ _ (set_node_mk _ _ _ _ _ (mk_is_Some _ _ Ex))).
    rewrite (m_bind_Ret _ _ _ _ _ (set_node_mk _ _ _ _ _ (alter_some _ _ _ _ (mk_is_Some _ _ E)))).
    unfold set_root, m_modify, with_root. cbn [futs woken]. do 3 f_equal. symmetry. apply ends_eq. done.
  - exists (linked m a z.1 (first_or l2 None)). split_and!; [done|done|subst l; by apply links_behind|].
    destruct (ends l) as [[h t]|] eqn:Et; [|subst l; by destruct k]. pose proof Et as [Efst Elast]%ends_eq.
    rewrite <- Elast. subst l. rewrite length_app in Hsz.
    rewrite (m_bind_Ret _ _ _ (Some z.1) (mkWL (ends ((k ++ [z]) ++ (a, c) :: l2)) (linked m a z.1 (first_or l2 None)) ws)); [done|].
    replace (size m) with (S (pred (size m - length l2)) + length l2)%nat by lia.
    rewrite (insert_skip a c h t (mkWL (Some (h, t)) m ws) (k ++ [z]) l2 _ []) by (rewrite ?app_nil_r; done).
    rewrite <- app_assoc in Hs, Hd, Et. rewrite (insert_here a c cl h t (mkWL (Some (h, t)) m ws) k z l2); try done.
    unfold with_root, with_futs. cbn [futs woken root]. do 2 f_equal.
    rewrite <- app_assoc in Efst. rewrite <- app_assoc. cbn [app]. destruct l2 as [|y l2].
    + symmetry. apply ends_eq. split; [by destruct k|]. by rewrite last_or_app.
    + symmetry. apply ends_eq. split; [by destruct k|]. rewrite <- app_assoc, last_or_app in Elast. by rewrite last_or_app.
Qed.

Lemma poll_wait_ok s q a w b q' : rep s q -> q_poll a w q = Some (b, q') ->
  exists s', poll_wait a w s = Ret b s' /\
    if b then s' = s /\ exists c cl, st q !! a = Some (Gone c cl) else rep s' q'.
Proof.
  intros R. unfold q_poll. destruct (st q !! a) as [[c cl|cl w0|c cl]|] eqn:E; [| | |done]; intros [= <- <-].
  - destruct (rep_off s q a _ R E) as (Ha & fl & c' & cl' & Ef & Eb); [done|]. destruct fl; [injection Eb as -> ->|done].
    destruct (link_in_ok (<[a := off_list false c' cl']> (futs s)) (woken s) a c' cl' (line q)) as (l1 & l2 & mx & El & -> & K & Eq).
    { apply seg_insert; [done|apply R]. } { apply R. } { done. }
    { rewrite map_size_insert, Ef. by apply (rep_size s q a). } { apply lookup_insert_eq. }
    eexists. split; [|by apply (rep_joined s q a c' cl' l1 l2 mx)].
    unfold poll_wait. rewrite (m_bind_Ret _ _ _ _ _ (deref_eq _ _ _ Ef)). cbn [off_list f_list].
    erewrite m_bind_Ret by reflexivity. cbn [f_node f_cleanup off_list contents].
    rewrite <- m_bind_assoc. erewrite m_bind_Ret.
    2: { unfold with_futs. rewrite (r_root _ _ R). exact Eq. }
    apply settle_eq. by eapply links_self_some.
  - destruct (rep_on s q a cl w0 R E) as (l1 & c & l2 & El & Ef).
    eexists. split.
    + unfold poll_wait. rewrite (m_bind_Ret _ _ _ _ _ (deref_eq _ _ _ Ef)). cbn [in_list f_list f_node nlist negb].
      rewrite (m_bind_Ret _ _ _ _ _ (set_node_eq s a _ (mk_is_Some _ _ Ef))).
      rewrite <- (insert_alter _ _ _ (on_node (set_waker (Some w))) Ef). reflexivity.
    + apply (rep_touch s q a _ (in_list (last_or l1 None) (first_or l2 None) c cl w) R Ef). rewrite decide_True by (rewrite El, fmap_app, fmap_cons; apply elem_of_app; right; by left).
      by eexists _, _, _, _, _, _, _.
  - destruct (rep_off s q a _ R E) as (Ha & fl & c' & cl' & Ef & Eb); [done|]. destruct fl; [done|injection Eb as -> ->].
    exists s. split; [|split; [done|by eexists _, _]]. unfold poll_wait. by rewrite (m_bind_Ret _ _ _ _ _ (deref_eq _ _ _ Ef)).
Qed.

Lemma set_cleanup_eq s a f b : futs s !! a = Some f ->
  set_cleanup a b s = Ret tt (with_futs (<[a := mkFut (f_list f) (f_node f) b]> (futs s)) s).
Proof. intros E. unfold set_cleanup. by rewrite (m_bind_Ret _ _ _ _ _ (deref_eq _ _ _ E)). Qed.

(** Taking the cleanup of a future that has been let go. *)
Lemma untie_ok s q a c cl : rep s q -> st q !! a = Some (Gone c cl) ->
  exists s', set_cleanup a false s = Ret tt s' /\ rep s' (mkWQ (line q) (<[a := Gone c false]> (st q)) (calls q)).
Proof.
  intros R E. destruct (rep_off s q a _ R E) as (Ha & fl & c' & cl' & Ef & Eb); [done|]. destruct fl; [done|].
  injection Eb as -> ->. eexists. split; [exact (set_cleanup_eq s a _ false Ef)|].
  apply (rep_touch s q a _ (off_list false c' false) R Ef). rewrite decide_False by done. by exists false, c', false.
Qed.

Lemma poll_ok a w : implements rep (poll a w) (q_poll a w).
Proof.
  intros s q b q' R E. destruct (poll_wait_ok s q a w b q' R E) as (s' & Ew & Hs'). unfold poll.
  rewrite (m_bind_Ret _ _ _ _ _ Ew). destruct b; [|by exists s']. destruct Hs' as (-> & c & cl & Eg).
  destruct (untie_ok s q a c cl R Eg) as (s2 & Eu & R2). exists s2. rewrite (m_bind_Ret _ _ _ _ _ Eu). split; [done|].
  unfold q_poll in E. rewrite Eg in E. by injection E as <-.
Qed.

Lemma take_cleanup_ok a : implements rep (take_cleanup a) (q_take_cleanup a).
Proof.
  intros s q b q' R. unfold q_take_cleanup. destruct (st q !! a) as [x|] eqn:E; [|done].
  pose proof (rep_lookup s q a R) as Ex. rewrite E in Ex. destruct (futs s !! a) as [f|] eqn:Ef; [|done]. injection Ex as ->.
  unfold take_cleanup. rewrite (m_bind_Ret _ _ _ _ _ (deref_eq _ _ _ Ef)). unfold wabs in E |- *.
  destruct (f_list f); [intros [= <- <-]; by exists s|]. destruct (nlist (f_node f)); [intros [= <- <-]; by exists s|].
  destruct (f_cleanup f); intros [= <- <-]; [|by exists s].
  destruct (untie_ok s q a _ true R E) as (s2 & Eu & R2). exists s2. cbn [negb andb]. by rewrite (m_bind_Ret _ _ _ _ _ Eu).
Qed.

Lemma join_ok a c cl : implements rep (join a c cl) (q_join a c cl).
Proof.
  intros s q b q' R. unfold q_join. destruct (st q !! a) eqn:E; [done|]. intros [= <- <-]. eexists. split; [reflexivity|].
  assert (a ∉ (line q).*1) as Ha by (rewrite (line_waiting s q a R); intros (cl' & w & E'); congruence).
  split; cbn; [apply R|apply R| | | |apply R].
  - apply seg_insert; [done|apply R].
  - intros a' f Hf Hn. destruct (decide (a = a')) as [<-|Hne].
    + rewrite lookup_insert_eq in Hf. injection Hf as <-. by exists true, c, cl.
    + rewrite lookup_insert_ne in Hf by done. by apply (r_off _ _ R a' f).
  - by rewrite fmap_insert, (r_st _ _ R).
Qed.

Lemma is_empty_ok : implements rep (is_empty) q_empty.
Proof.
  intros s q b q' R [= <- <-]. exists s. split; [|done]. unfold is_empty, m_gets. rewrite (r_root _ _ R). by destruct (line q).
Qed.

(** *** Leaving the list *)

Definition at_opt (g : Fut T -> Fut T) (p : option nat) : gmap nat (Fut T) -> gmap nat (Fut T) :=
  match p with Some a => alter g a | None => id end.
Definition unlink m (p n : option nat) : gmap nat (Fut T) :=
  at_opt (on_node (set_prev p)) n (at_opt (on_node (set_next n)) p m).

Lemma at_opt_ne g p m b : p <> Some b -> at_opt g p m !! b = m !! b.
Proof. intros Hp. destruct p as [a|]; [|done]. apply lookup_alter_ne. congruence. Qed.

Lemma seg_at_opt m g o p l n : (forall a, o = Some a -> a ∉ l.*1) -> seg m p l n -> seg (at_opt g o m) p l n.
Proof. intros Ho Hs. destruct o as [a|]; [|done]. apply seg_alter; [by apply Ho|done]. Qed.

Lemma first_or_none_in l a : first_or l None = Some a -> a ∈ l.*1.
Proof. destruct l as [|x l]; [done|]. intros [= <-]. by left. Qed.
Lemma last_or_none_in l a : last_or l None = Some a -> a ∈ l.*1.
Proof. destruct l as [|x l]; [done|]. by apply last_or_in. Qed.

Lemma seg_unlink m l1 x l2 : NoDup ((l1 ++ x :: l2).*1) -> seg m None (l1 ++ x :: l2) None ->
  seg (unlink m (last_or l1 None) (first_or l2 None)) None (l1 ++ l2) None.
Proof.
  rewrite fmap_app, fmap_cons. intros (Hd1 & Hdis & [_ Hd2]%list.NoDup_cons)%list.NoDup_app [Hs1 [_ Hs2]]%seg_app.
  apply seg_app. unfold unlink. split.
  - apply seg_at_opt; [intros b Hb%first_or_none_in Hin; apply (Hdis b Hin); by right|].
    destruct (decide (l1 = [])) as [->|Hne]; [done|]. destruct (@exists_last _ l1 Hne) as (k & z & ->).
    rewrite last_or_app. cbn [last_or at_opt]. by apply (seg_set_next m None k z (Some x.1) _ Hd1).
  - assert (seg (at_opt (on_node (set_next (first_or l2 None))) (last_or l1 None) m) (Some x.1) l2 None) as Hs.
    { apply seg_at_opt; [|done]. intros b Hb%last_or_none_in Hin. apply (Hdis b Hb). by right. }
    destruct l2 as [|y l2]; [done|]. cbn [first_or at_opt] in *. by apply seg_set_prev with (p := Some x.1).
Qed.

Lemma wabs_at_next m p v : wabs <$> at_opt (on_node (set_next v)) p m = wabs <$> m.
Proof. destruct p; [apply wabs_next|done]. Qed.
Lemma wabs_at_prev m p v : wabs <$> at_opt (on_node (set_prev v)) p m = wabs <$> m.
Proof. destruct p; [apply wabs_prev|done]. Qed.

(** The list without [x], whose future becomes [o] (or goes away). *)
Lemma rep_left s q l1 x l2 mx o : rep s q -> line q = l1 ++ x :: l2 ->
  (forall b, b <> x.1 -> mx !! b = unlink (futs s) (last_or l1 None) (first_or l2 None) !! b) ->
  mx !! x.1 = o -> (o = None \/ exists c cl, o = Some (off_list false c cl)) ->
  forall ws, rep (mkWL (ends (l1 ++ l2)) mx ws) (mkWQ (l1 ++ l2) (partial_alter (fun _ => wabs <$> o) x.1 (st q)) ws).
Proof.
  intros R El Hm Hx Ho ws. pose proof (r_dup _ _ R) as Hd. rewrite El in Hd.
  assert (forall y, y ∈ l1 ++ l2 -> y.1 <> x.1) as Hne.
  { rewrite fmap_app, fmap_cons in Hd. apply list.NoDup_app in Hd as (_ & Hdis & [Hn _]%list.NoDup_cons).
    intros y [Hy|Hy]%elem_of_app E; [apply (Hdis y.1); [by apply list_elem_of_fmap_2|rewrite E; by left]|].
    apply Hn. rewrite <- E. by apply list_elem_of_fmap_2. }
  pose proof (r_seg _ _ R) as Hs. rewrite El in Hs.
  split; cbn [root futs woken line st calls]; [done| | | | |done].
  - rewrite fmap_app, fmap_cons in Hd. rewrite fmap_app. apply list.NoDup_app in Hd as (Hd1 & Hdis & [_ Hd2]%list.NoDup_cons).
    apply list.NoDup_app. split_and!; [done| |done]. intros y Hy Hy2. apply (Hdis y Hy). by right.
  - eapply seg_frame; [|exact (seg_unlink _ _ _ _ Hd Hs)]. intros y Hy. apply Hm. by apply Hne.
  - intros b f Hb Hn. destruct (decide (b = x.1)) as [->|Hbx].
    + rewrite Hx in Hb. destruct Ho as [->|(c & cl & ->)]; [done|]. injection Hb as <-. by exists false, c, cl.
    + rewrite Hm in Hb by done. rewrite fmap_app in Hn. apply not_elem_of_app in Hn as [Hn1 Hn2]. unfold unlink in Hb.
      rewrite !at_opt_ne in Hb; [|intros E; by apply Hn1, last_or_none_in|intros E; by apply Hn2, first_or_none_in].
      apply (r_off _ _ R b f Hb). rewrite El, fmap_app, fmap_cons. apply not_elem_of_app. split; [done|]. by apply list.not_elem_of_cons.
  - apply map_eq. intros b. rewrite lookup_fmap. destruct (decide (b = x.1)) as [->|Hbx].
    + by rewrite lookup_partial_alter_eq, Hx.
    + rewrite lookup_partial_alter_ne, Hm by done. rewrite (r_st _ _ R). rewrite <- lookup_fmap. unfold unlink.
      by rewrite wabs_at_prev, wabs_at_next.
Qed.

Lemma wake_ok E (pred : T -> E -> bool * E) e : implements rep (wake_head_if pred e) (q_wake_head_if pred e).
Proof.
  intros s q b q' R. unfold q_wake_head_if, wake_head_if. erewrite m_bind_Ret by reflexivity. rewrite (r_root _ _ R).
  destruct (line q) as [|[h c] l] eqn:El; [intros [= <- <-]; by exists s|].
  pose proof (r_seg _ _ R) as Hs. rewrite El in Hs. destruct Hs as [(cl & w & Eh) Hs2]. cbn [fst snd] in *.
  destruct (ends_first (h, c) l) as [t Et]. rewrite Et. rewrite (m_bind_Ret _ _ _ _ _ (deref_eq _ _ _ Eh)).
  cbn [in_list f_node contents fst]. destruct (pred c e) as [ok e']. cbn [fst snd].
  destruct ok; cbn [negb]; [|intros [= <- <-]; by exists s].
  rewrite (rep_lookup s q h R), Eh. cbn. intros [= <- <-].
  pose proof (r_dup _ _ R) as Hd. rewrite El in Hd. apply ends_eq in Et as Ht. destruct Ht as [_ Ht].
  pose proof (cut_last [] (h, c) l t Hd Ht) as Heq. cbn [fst] in Heq. rewrite Heq.
  destruct s as [r m ws]. cbn [futs woken root] in *.
  set (m0 := match l with [] => m | y :: _ => alter (on_node (set_prev None)) y.1 (alter (on_node (set_next None)) h m) end).
  assert (forall y, y ∈ l -> y.1 <> h) as Hne.
  { intros y Hy <-. rewrite fmap_cons in Hd. apply list.NoDup_cons in Hd as [Hn _]. apply Hn; cbn [fst]; by apply list_elem_of_fmap_2. }
  assert (m0 !! h = Some (in_list None None c cl w)) as Hh.
  { unfold m0. destruct l as [|y l]; [done|]. rewrite lookup_alter_ne by (apply Hne; by left). by rewrite lookup_alter_eq, Eh. }
  assert (forall b, b <> h -> m0 !! b = unlink m None (first_or l None) !! b) as Hb.
  { intros b Hb. unfold m0, unlink. destruct l as [|y l]; [done|]. cbn [first_or at_opt id].
    destruct (decide (y.1 = b)) as [<-|Hyb]; [rewrite !lookup_alter_eq, lookup_alter_ne; done|].
    by rewrite !lookup_alter_ne. }
  assert (is_Some (m0 !! h)) as Hsome by (rewrite Hh; by eexists).
  exists (mkWL (ends l) (alter (on_node (set_waker None)) h (alter (on_node (set_nlist false)) h m0)) (ws ++ [w])). split.
  - rewrite (m_bind_Ret _ _ _ tt (mkWL (ends l) m0 ws)).
    + rewrite (m_bind_Ret _ _ _ _ _ (set_node_mk _ _ _ _ _ Hsome)).
      by rewrite (m_bind_Ret _ _ _ _ _ (set_node_mk _ _ _ _ _ (alter_some _ _ _ _ Hsome))).
    + unfold m0. destruct l as [|y l]; [done|]. cbn [next in_list first_or].
      rewrite (m_bind_Ret _ _ _ _ _ (set_node_mk _ _ _ _ _ (mk_is_Some _ _ Eh))).
      destruct Hs2 as [(cl2 & w2 & Ey) _].
      rewrite (m_bind_Ret _ _ _ _ _ (set_node_mk _ _ _ y.1 _ (alter_some _ _ _ _ (mk_is_Some _ _ Ey)))).
      unfold set_root, m_modify, with_root. cbn [futs woken]. do 2 f_equal. symmetry. by apply ends_eq.
  - rewrite (r_calls _ _ R). cbn [woken].
    apply (rep_left (mkWL r m ws) q [] (h, c) l _ (Some (off_list false c cl)) R El).
    + intros b Hbh. cbn [fst last_or futs] in *. rewrite !lookup_alter_ne by done. by apply Hb.
    + cbn [fst]. by rewrite !lookup_alter_eq, Hh.
    + right. by eexists _, _.
Qed.

(** The unlinked memory does not depend on the node that leaves. *)
Lemma unlink_ne m g a p n b : b <> a -> unlink (alter g a m) p n !! b = unlink m p n !! b.
Proof.
  intros Hb. unfold unlink, at_opt. assert (forall m m' g (c : nat), m !! b = m' !! b -> alter g c m !! b = alter g c m' !! b) as Ha.
  { intros m1 m2 g' c E. destruct (decide (c = b)) as [->|Hc]; [by rewrite !lookup_alter_eq, E|by rewrite !lookup_alter_ne]. }
  assert (alter g a m !! b = m !! b) as E by (by rewrite lookup_alter_ne). destruct n, p; repeat apply Ha; exact E.
Qed.

(** What the list's ends become. *)
Definition new_root (r : option (nat * nat)) (p n : option nat) : option (nat * nat) :=
  match p, n with
  | None, None => None
  | Some p, None => (fun r => (r.1, p)) <$> r
  | None, Some n => (fun r => (n, r.2)) <$> r
  | Some _, Some _ => r
  end.

Lemma new_root_ends l1 x l2 : new_root (ends (l1 ++ x :: l2)) (last_or l1 None) (first_or l2 None) = ends (l1 ++ l2).
Proof.
  destruct (ends (l1 ++ x :: l2)) as [[h t]|] eqn:E; [|by destruct l1]. apply ends_eq in E as [Eh Et].
  rewrite last_or_app in Et. cbn [last_or] in Et. rewrite first_or_app in Eh. symmetry.
  destruct l1 as [|y l1]; cbn [last_or app] in *.
  - destruct l2 as [|z l2]; [done|]. cbn in *. rewrite Et. done.
  - destruct (last_or_Some l1 y.1) as [p Ep]. rewrite Ep. cbn in Eh. injection Eh as <-.
    destruct l2 as [|z l2]; cbn [new_root first_or]; apply (ends_eq (y :: _)).
    + rewrite app_nil_r. done.
    + split; [done|]. cbn [last_or]. rewrite last_or_app. cbn [last_or] in *. done.
Qed.

(** Removing a node that still waits. *)
Lemma drop_waiting s q a cl w : rep s q -> st q !! a = Some (Waiting cl w) ->
  exists s', drop_node a s = Ret tt s' /\ rep s' (mkWQ (filter (fun x => x.1 <> a) (line q)) (delete a (st q)) (calls q)).
Proof.
  intros R E. destruct (rep_on s q a cl w R E) as (l1 & c & l2 & El & Ea).
  pose proof (r_dup _ _ R) as Hd. pose proof (r_seg _ _ R) as Hs. pose proof (r_root _ _ R) as Hr. rewrite El in Hd, Hs, Hr.
  assert (filter (fun x => x.1 <> a) (line q) = l1 ++ l2) as ->.
  { rewrite fmap_app, fmap_cons in Hd. apply list.NoDup_app in Hd as (_ & Hdis & [Hn _]%list.NoDup_cons). cbn [fst] in *.
    rewrite El, list.filter_app. rewrite filter_cons_False by (cbn; tauto). rewrite !filter_off; [done|done|].
    intros Ha. apply (Hdis a Ha). by left. }
  destruct s as [r m ws]. cbn [futs root woken] in *. set (p := last_or l1 None) in *. set (n := first_or l2 None) in *.
  set (m1 := alter (on_node (set_nlist false)) a m).
  assert (forall b, b ∈ (l1 ++ l2).*1 -> is_Some (m1 !! b)) as Hsome.
  { intros b (y & -> & Hy)%list_elem_of_fmap. apply alter_some.
    destruct (seg_elem _ _ _ _ y Hs) as (? & ? & ? & ? & ->); [|by eexists].
    apply elem_of_app in Hy as [Hy|Hy]; apply elem_of_app; [by left|right; by right]. }
  exists (mkWL (ends (l1 ++ l2)) (delete a (unlink m1 p n)) ws). split.
  - unfold drop_node. rewrite (m_bind_Ret _ _ _ _ _ (deref_eq (mkWL r m ws) _ _ Ea)). cbn [in_list f_node nlist prev next].
    rewrite (m_bind_Ret _ _ _ tt (mkWL (ends (l1 ++ l2)) (unlink m1 p n) ws)); [reflexivity|].
    rewrite (m_bind_Ret _ _ _ _ _ (set_node_mk _ _ _ _ _ (mk_is_Some _ _ Ea))). fold m1.
    rewrite (m_bind_Ret _ _ _ tt (mkWL r (at_opt (on_node (set_next n)) p m1) ws)).
    2: { unfold p. destruct (last_or l1 None) as [b|] eqn:Ep; [|done]. apply set_node_mk, Hsome. rewrite fmap_app. apply elem_of_app.
         left. by apply last_or_none_in. }
    rewrite (m_bind_Ret _ _ _ tt (mkWL r (unlink m1 p n) ws)).
    2: { unfold n. destruct (first_or l2 None) as [b|] eqn:En; [|done]. apply set_node_mk. unfold at_opt.
         assert (is_Some (m1 !! b)) by (apply Hsome; rewrite fmap_app; apply elem_of_app; right; by apply first_or_none_in).
         destruct p; [by apply alter_some|done]. }
    subst r. pose proof (new_root_ends l1 (a, c) l2) as Hn. fold p n in Hn.
    destruct (ends (l1 ++ (a, c) :: l2)) as [[h t]|] eqn:Er; [|by destruct l1].
    rewrite <- Hn. destruct p as [p|], n as [n|]; reflexivity.
  - rewrite (r_calls _ _ R). cbn [woken]. apply (rep_left (mkWL r m ws) q l1 (a, c) l2 _ None R El); [|apply lookup_delete_eq|by left].
    intros b Hb. cbn [fst] in *. rewrite lookup_delete_ne by done. cbn [futs]. by apply unlink_ne.
Qed.

Lemma drop_ok a : implements rep (drop_node a) (q_drop a).
Proof.
  intros s q b q' R. unfold q_drop. destruct (st q !! a) as [x|] eqn:E; [|done]. intros [= <- <-].
  assert (x = Waiting (match x with Waiting cl _ => cl | _ => false end) (match x with Waiting _ w => w | _ => 0 end) \/
          forall cl w, x <> Waiting cl w) as [Hx|Hx] by (destruct x; by (left + right)).
  { rewrite Hx in E. by eapply drop_waiting. }
  destruct (rep_off s q a x R E Hx) as (Ha & fl & c & cl & Ef & _). rewrite filter_off by done.
  eexists. split.
  - unfold drop_node. rewrite (m_bind_Ret _ _ _ _ _ (deref_eq _ _ _ Ef)). cbn [off_list f_node nlist]. reflexivity.
  - split; cbn; [apply R|apply R|apply seg_delete; [done|apply R]| | |apply R].
    + intros b f Hb Hn. apply lookup_delete_Some in Hb as [_ Hb]. by apply (r_off _ _ R b f).
    + by rewrite fmap_delete, (r_st _ _ R).
Qed.

Lemma rep_new : rep wl_new q_new.
Proof. split; cbn; [done|constructor|done|intros a f; by rewrite lookup_empty|by rewrite fmap_empty|done]. Qed.

Lemma rep_length s q : rep s q -> (length (line q) <= size (futs s))%nat.
Proof.
  intros R. rewrite <- (length_fmap fst), <- size_dom. rewrite <- (size_list_to_set (C := gset nat)) by apply R.
  apply subseteq_size. intros b Hb%elem_of_list_to_set. apply elem_of_dom.
  apply list_elem_of_fmap in Hb as (x & -> & Hx).
  destruct (seg_elem _ _ _ _ x (r_seg _ _ R) Hx) as (p & n & cl & w & ->). by eexists.
Qed.
End rep.

(** ** The pointers implement the interface *)

Lemma rep_calls {T} `{PartialOrd T} (s : WL T) q : rep s q -> woken s = calls q.
Proof. intros R. symmetry. apply R. Qed.

#[export] Instance list_queue {T} `{PartialOrd T} : WaitQueue (WL T) T := {
  wq_new := wl_new;
  wq_join := join;
  wq_poll := poll;
  wq_wake_head_if := fun E => wake_head_if;
  wq_take_cleanup := take_cleanup;
  wq_drop := drop_node;
  wq_calls := woken;
  wq_is_empty := is_empty;
  wq_size s := size (futs s);
}.
#[export] Instance list_queue_laws {T} `{PartialOrd T} : WaitQueueLaws (T := T) list_queue.
Proof.
  exact {| wq_rep := rep; wq_rep_new := rep_new; wq_join_ok := join_ok; wq_poll_ok := poll_ok; wq_wake_ok := wake_ok;
           wq_take_ok := take_cleanup_ok; wq_drop_ok := drop_ok; wq_empty_ok := is_empty_ok;
           wq_rep_nodup := r_dup; wq_rep_line := line_waiting; wq_calls_ok := rep_calls; wq_size_ok := rep_length |}.
Defined.

(** ** Histories *)

Inductive list_op (T : Type) :=
  | OJoin (a : nat) (c : T) (cleanup : bool)
  | OPoll (a : nat) (w : Z)
  | OWake (pred : T -> bool)          (** [wake_head_if] *)
  | OTake (a : nat)                   (** the first half of dropping a future with a cleanup *)
  | ODrop (a : nat)
  | OEmpty.
Arguments OJoin {T} a c cleanup.
Arguments OPoll {T} a w.
Arguments OWake {T} pred.
Arguments OTake {T} a.
Arguments ODrop {T} a.
Arguments OEmpty {T}.

Section history.
Context {T : Type} `{PartialOrd T}.

Definition do_op (o : list_op T) : M (WL T) bool :=
  match o with
  | OJoin a c cl => join a c cl >>; m_ret true
  | OPoll a w => poll a w
  | OWake pred => let! r := wake_head_if (fun c e => (pred c, e)) tt in m_ret r.1
  | OTake a => take_cleanup a
  | ODrop a => drop_node a >>; m_ret true
  | OEmpty => is_empty
  end.
Fixpoint do_ops (os : list (list_op T)) : M (WL T) (list bool) :=
  match os with
  | [] => m_ret []
  | o :: os' => let! b := do_op o in let! bs := do_ops os' in m_ret (b :: bs)
  end.

(** The same on the queue. *)
Definition q_op (o : list_op T) (q : WQ T) : option (bool * WQ T) :=
  match o with
  | OJoin a c cl => '(_, q') ← q_join a c cl q; Some (true, q')
  | OPoll a w => q_poll a w q
  | OWake pred => '(r, q') ← q_wake_head_if (fun c e => (pred c, e)) tt q; Some (r.1, q')
  | OTake a => q_take_cleanup a q
  | ODrop a => '(_, q') ← q_drop a q; Some (true, q')
  | OEmpty => q_empty q
  end.
Fixpoint q_ops (os : list (list_op T)) (q : WQ T) : option (list bool * WQ T) :=
  match os with
  | [] => Some ([], q)
  | o :: os' => '(b, q1) ← q_op o q; '(bs, q2) ← q_ops os' q1; Some (b :: bs, q2)
  end.

(** A future is created once, at a free address, and used only until it is dropped; the borrow checker
    and the pinning see to it. *)
Definition op_legal (ids : gset nat) (o : list_op T) : Prop :=
  match o with
  | OJoin a _ _ => a ∉ ids
  | OPoll a _ | OTake a | ODrop a => a ∈ ids
  | OWake _ | OEmpty => True
  end.
Definition op_ids (ids : gset nat) (o : list_op T) : gset nat :=
  match o with OJoin a _ _ => {[a]} ∪ ids | ODrop a => ids ∖ {[a]} | _ => ids end.
Fixpoint legal (ids : gset nat) (os : list (list_op T)) : Prop :=
  match os with [] => True | o :: os' => op_legal ids o /\ legal (op_ids ids o) os' end.

(** A legal operation is defined on the queue, and the pointers follow. *)
Lemma op_refines s q o : rep s q -> op_legal (dom (st q)) o ->
  exists b s' q', do_op o s = Ret b s' /\ q_op o q = Some (b, q') /\ rep s' q' /\ dom (st q') = op_ids (dom (st q)) o.
Proof.
  assert (forall a x, st q !! a = Some x -> {[a]} ∪ dom (st q) = dom (st q)) as Hdom.
  { intros a x Ha. apply (elem_of_dom_2 (D := gset nat)) in Ha. set_solver. }
  intros R Hl. destruct o as [a c cl|a w|pred|a|a|]; cbn [op_legal op_ids do_op q_op] in *.
  - apply not_elem_of_dom in Hl. destruct (q_join a c cl q) as [[u q']|] eqn:E; [|unfold q_join in E; by rewrite Hl in E].
    destruct (join_ok a c cl s q u q' R E) as (s' & E' & R'). exists true, s', q'. rewrite (m_bind_Ret _ _ _ _ _ E').
    split_and!; [done|done|done|]. unfold q_join in E. rewrite Hl in E. injection E as _ <-. apply dom_insert_L.
  - apply elem_of_dom in Hl as [x Hx]. destruct (q_poll a w q) as [[b q']|] eqn:E; [|unfold q_poll in E; rewrite Hx in E; by destruct x].
    destruct (poll_ok a w s q b q' R E) as (s' & E' & R'). exists b, s', q'. split_and!; [done|done|done|].
    unfold q_poll in E. rewrite Hx in E. destruct x; injection E as <- <-; cbn; rewrite dom_insert_L; by eapply Hdom.
  - destruct (q_wake_head_if (fun c e => (pred c, e)) tt q) as [[[b u] q']|] eqn:E.
    + destruct (wake_ok unit _ tt s q _ q' R E) as (s' & E' & R'). exists b, s', q'. rewrite (m_bind_Ret _ _ _ _ _ E').
      split_and!; [done|done|done|]. unfold q_wake_head_if in E. destruct (line q) as [|[h c] l]; [by injection E as <- <- <-|].
      cbn in E. destruct (pred c); [|by injection E as <- <- <-].
      destruct (st q !! h) as [[| |]|] eqn:Eh; try done. injection E as <- <- <-. cbn. rewrite dom_insert_L. by eapply Hdom.
    + exfalso. unfold q_wake_head_if in E. destruct (line q) as [|[h c] l] eqn:El; [done|]. cbn in E. destruct (pred c); [|done].
      assert (h ∈ (line q).*1) as Hin by (rewrite El; by left). apply (line_waiting s q h R) in Hin as (cl & w & Eh). by rewrite Eh in E.
  - apply elem_of_dom in Hl as [x Hx]. destruct (q_take_cleanup a q) as [[b q']|] eqn:E; [|unfold q_take_cleanup in E; rewrite Hx in E; by destruct x as [| |? []]].
    destruct (take_cleanup_ok a s q b q' R E) as (s' & E' & R'). exists b, s', q'. split_and!; [done|done|done|].
    unfold q_take_cleanup in E. rewrite Hx in E. destruct x as [| |? []]; injection E as <- <-; cbn; rewrite ?dom_insert_L; try done; by eapply Hdom.
  - apply elem_of_dom in Hl as [x Hx]. destruct (q_drop a q) as [[u q']|] eqn:E; [|unfold q_drop in E; by rewrite Hx in E].
    destruct (drop_ok a s q u q' R E) as (s' & E' & R'). exists true, s', q'. rewrite (m_bind_Ret _ _ _ _ _ E').
    split_and!; [done|done|done|]. unfold q_drop in E. rewrite Hx in E. injection E as _ <-. apply dom_delete_L.
  - destruct (is_empty_ok s q _ q R eq_refl) as (s' & E & R'). by eexists _, s', q.
Qed.

Lemma ops_refine os : forall s q, rep s q -> legal (dom (st q)) os ->
  exists bs s' q', do_ops os s = Ret bs s' /\ q_ops os q = Some (bs, q') /\ rep s' q'.
Proof.
  induction os as [|o os IH]; intros s q R Hl; [by exists [], s, q|]. destruct Hl as [Ho Hl].
  destruct (op_refines s q o R Ho) as (b & s1 & q1 & E1 & Q1 & R1 & D1). rewrite <- D1 in Hl.
  destruct (IH s1 q1 R1 Hl) as (bs & s2 & q2 & E2 & Q2 & R2). exists (b :: bs), s2, q2. split_and!; [|cbn; by rewrite Q1; cbn; rewrite Q2|done].
  cbn [do_ops]. rewrite (m_bind_Ret _ _ _ _ _ E1). by rewrite (m_bind_Ret _ _ _ _ _ E2).
Qed.

(** C19. The wait list is a queue.  For every history in which a future is created once and not used after
    it was dropped, the intrusive doubly-linked list follows no dangling pointer and meets none of
    its panics; every operation answers as the plain queue does, and the same wakers have been called in the same order. *)
Theorem wait_list_refines_queue os : legal ∅ os ->
  exists bs s' q', do_ops os wl_new = Ret bs s' /\ q_ops os q_new = Some (bs, q') /\ woken s' = calls q'.
Proof.
  intros Hl. destruct (ops_refine os wl_new q_new rep_new) as (bs & s' & q' & E & Q & R); [by cbn; rewrite dom_empty_L|].
  exists bs, s', q'. split_and!; [done|done|]. symmetry. apply R.
Qed.
End history.

(** Three timers, of which the earliest is let go and another dropped while it waits. *)
Definition list_demo : list (list_op Z) :=
  [OJoin 1%nat 30 true; OPoll 1%nat 10; OJoin 2%nat 20 false; OPoll 2%nat 11; OJoin 3%nat 25 true; OPoll 3%nat 12;
   OWake (fun t => t <=? 20); OPoll 2%nat 11; ODrop 2%nat; ODrop 3%nat; OEmpty].
Lemma wait_list_refines_queue_witness : legal ∅ list_demo /\
  exists bs s' q', do_ops list_demo wl_new = Ret bs s' /\ q_ops list_demo q_new = Some (bs, q') /\ woken s' = calls q'.
Proof.
  assert (legal ∅ list_demo) as Hl by (repeat split; set_solver). split; [exact Hl|]. exact (wait_list_refines_queue list_demo Hl).
Defined.
