(* ===== verification/LockFut.v ===== *)
(** * LockFut: the futures of the locks of TinyOS

    [Semaphore::acquire], [Mutex::lock], [LockImpl::lock_shared] and [LockImpl::lock_exclusive] are the same
    [async fn] around four pieces of their own: try; join the wait list with a cleanup; on being let go, check
    and be ready.  This file is that function as the state its future is in between two polls, written against
    the interface of the wait list ([WaitQueue]), and the invariant of any interleaving of polls, drops and direct
    calls, from laws about the four pieces.  [Semaphore], [Mutex] and [RwLock] supply the pieces and the laws. *)
From stdpp Require Import gmap list.
From S2P Require Import Prelude WaitQueue WaitList.

Create HintDb locks.

(** A future that was made, waits in the line (its node lives at the future's own address), was ready. *)
Inductive phase := AStart | AWait | ADone.

(** [word]: the counter of the lock.  [futures]: the futures that are alive, with what they ask for. *)
Record Lock (L T : Type) := mkLock { word : Z; waiters : L; futures : gmap nat (T * phase) }.
Arguments mkLock {L T} word waiters futures.
Arguments word {L T} l.
Arguments waiters {L T} l.
Arguments futures {L T} l.

(** The pieces: try to get what is asked for; check when let go; the cleanup, when the future is dropped
    after it was let go; what happens when it is dropped while it waits; and the other calls. *)
Record LockOps (L T X : Type) := mkLockOps {
  lo_try : T -> M (Lock L T) bool;
  lo_ready : T -> M (Lock L T) unit;
  lo_cleanup : T -> M (Lock L T) unit;
  lo_cancelled : T -> M (Lock L T) unit;
  lo_extra : X -> M (Lock L T) unit;
}.
Arguments mkLockOps {L T X}.
Arguments lo_try {L T X}.
Arguments lo_ready {L T X}.
Arguments lo_cleanup {L T X}.
Arguments lo_cancelled {L T X}.
Arguments lo_extra {L T X}.

(** A call on a lock: a future is made for [c] at address [i]; it is polled with the waker [w]; it is dropped; a
    direct try; another call. *)
Inductive lock_op (T X : Type) :=
  | Enter (i : nat) (c : T)
  | Poll (i : nat) (w : Z)
  | Drop (i : nat)
  | Try (c : T)
  | Extra (x : X).
Arguments Enter {T X}.
Arguments Poll {T X}.
Arguments Drop {T X}.
Arguments Try {T X}.
Arguments Extra {T X}.

Section skeleton.
Context {L T X : Type} `{W : WaitQueue L T}.
Implicit Types (s : Lock L T) (ops : LockOps L T X).

Definition with_word v s : Lock L T := mkLock v (waiters s) (futures s).
Definition with_waiters l s : Lock L T := mkLock (word s) l (futures s).
Definition with_futures f s : Lock L T := mkLock (word s) (waiters s) f.
Definition set_word (v : Z) : M (Lock L T) unit := m_modify (with_word v).
Definition on_waiters {A} (m : M L A) : M (Lock L T) A := fun s =>
  match m (waiters s) with Ret a l => Ret a (with_waiters l s) | Fault f => Fault f end.
Definition set_phase (i : nat) (c : T) (p : phase) : M (Lock L T) unit :=
  m_modify (fun s => with_futures (<[i := (c, p)]> (futures s)) s).

(** One poll of the future at [i]: whether it is ready. *)
Definition fut_poll ops (i : nat) (w : Z) : M (Lock L T) bool :=
  let! s := m_get in
  let! f := m_opt UnwrapNone (futures s !! i) in
  let '(c, p) := f in
  match p with
  | AStart =>
      let! got := lo_try ops c in
      if got : bool then set_phase i c ADone >>; m_ret true
      else
        let! ready := on_waiters (await_first i c w) in
        set_phase i c (if ready : bool then ADone else AWait) >>; m_ret ready
  | AWait =>
      let! ready := on_waiters (await_next i w) in
      if ready : bool then lo_ready ops c >>; set_phase i c ADone >>; m_ret true else m_ret false
  | ADone => m_fault ExplicitPanic
  end.

(** Dropping the future at [i]. *)
Definition fut_drop ops (i : nat) : M (Lock L T) unit :=
  let! s := m_get in
  let! f := m_opt UnwrapNone (futures s !! i) in
  let '(c, p) := f in
  (match p with
   | AWait =>
       let! due := on_waiters (wq_take_cleanup i) in
       if due : bool then lo_cleanup ops c >>; on_waiters (wq_drop i)
       else on_waiters (wq_drop i) >>; lo_cancelled ops c
   | _ => m_ret tt
   end) >>;
  m_modify (fun s => with_futures (delete i (futures s)) s).

Definition lock_step ops (o : lock_op T X) : M (Lock L T) bool :=
  match o with
  | Enter i c => set_phase i c AStart >>; m_ret true
  | Poll i w => fut_poll ops i w
  | Drop i => fut_drop ops i >>; m_ret true
  | Try c => lo_try ops c
  | Extra x => lo_extra ops x >>; m_ret true
  end.

Lemma on_waiters_Ret {A} (m : M L A) s a l : m (waiters s) = Ret a l -> on_waiters m s = Ret a (with_waiters l s).
Proof. unfold on_waiters. by intros ->. Qed.
End skeleton.

(** ** The laws

    [G]: what the callers hold, where [gain c] adds one [c].  [J v q k]: the invariant between the
    word, the queue and the holdings, where what was given to a future that has not been polled yet counts as
    owed to it ([Gone] with its cleanup). *)
Section laws.
Context {L T X : Type} `{PartialOrd T} {W : WaitQueue L T} {WL : WaitQueueLaws W}.
Context {G : Type} (gain : T -> G -> G) (extra_legal : X -> Z -> G -> Prop) (extra_effect : X -> G -> G).
Context (J : Z -> WQ T -> G -> Prop) (ops : LockOps L T X).

Definition q_set (i : nat) (x : waiter T) (q : WQ T) : WQ T := mkWQ (line q) (<[i := x]> (st q)) (calls q).
Definition q_forget (i : nat) (q : WQ T) : WQ T := mkWQ (line q) (delete i (st q)) (calls q).
Definition q_enter (i : nat) (c : T) (w : Z) (q : WQ T) : WQ T :=
  mkWQ (ins (i, c) (line q)) (<[i := Waiting true w]> (st q)) (calls q).

(** A call that lets the first few of the line go. *)
Definition lets_go (m : M (Lock L T) unit) (s : Lock L T) (q : WQ T) (P : Z -> WQ T -> Prop) : Prop :=
  exists s' n, m s = Ret tt s' /\ wq_rep (waiters s') (q_pops n q) /\ futures s' = futures s /\ P (word s') (q_pops n q).

Record LockLaws : Prop := mkLockLaws {
  (** the invariant does not look at wakers, nor at futures that were given nothing *)
  ll_waker v q k i w w' : J v q k -> st q !! i = Some (Waiting true w) -> J v (q_set i (Waiting true w') q) k;
  ll_forget v q k i c : J v q k -> st q !! i = Some (Gone c false) -> J v (q_forget i q) k;
  (** what is owed is handed over *)
  ll_take v q k i c : J v q k -> st q !! i = Some (Gone c true) -> J v (q_set i (Gone c false) q) (gain c k);
  ll_ready s q k i c : J (word s) q k -> st q !! i = Some (Gone c true) -> lo_ready ops c s = Ret tt s;
  (** a try succeeds, or the future may wait *)
  ll_try s q k c : wq_rep (waiters s) q -> J (word s) q k ->
    exists b s', lo_try ops c s = Ret b s' /\ wq_rep (waiters s') q /\ futures s' = futures s /\
      J (word s') q (if b then gain c k else k) /\
      (b = false -> forall i w, st q !! i = None -> J (word s') (q_enter i c w q) k);
  (** the cleanup gives it back *)
  ll_cleanup s q k i c : wq_rep (waiters s) q -> J (word s) q k -> st q !! i = Some (Gone c true) ->
    forall l, wq_rep l (q_set i (Gone c false) q) ->
    lets_go (lo_cleanup ops c) (with_waiters l s) (q_set i (Gone c false) q) (fun v q' => J v q' k);
  (** leaving the line *)
  ll_cancelled s q k i c w : q_ok q -> J (word s) q k -> st q !! i = Some (Waiting true w) -> (i, c) ∈ line q ->
    forall l, wq_rep l (q_remove i q) ->
    lets_go (lo_cancelled ops c) (with_waiters l s) (q_remove i q) (fun v q' => J v q' k);
  ll_extra s q k x : wq_rep (waiters s) q -> J (word s) q k -> extra_legal x (word s) k ->
    lets_go (lo_extra ops x) s q (fun v q' => J v q' (extra_effect x k));
}.

(** ** The invariant *)

(** The futures that wait are those the queue knows. *)
Definition fut_ok (f : option (T * phase)) (i : nat) (q : WQ T) : Prop :=
  match f with
  | Some (c, AWait) => ((i, c) ∈ line q /\ exists w, st q !! i = Some (Waiting true w)) \/ st q !! i = Some (Gone c true)
  | _ => st q !! i = None
  end.
Definition phase_ok (s : Lock L T) (q : WQ T) : Prop := forall i, fut_ok (futures s !! i) i q.
Definition lock_inv (s : Lock L T) (q : WQ T) (k : G) : Prop :=
  wq_rep (waiters s) q /\ phase_ok s q /\ J (word s) q k.

Lemma fut_ok_pops f i n q : q_ok q -> fut_ok f i q -> fut_ok f i (q_pops n q).
Proof.
  intros Hq. destruct f as [[c []]|]; cbn; try (intros E; by apply q_pops_none).
  intros [[Hi [w E]]|E]; [|right; by apply q_pops_gone].
  destruct (q_pops_waiting n q i c true w Hq Hi E) as [[? ?]|?]; [left; split; [done|by exists w]|by right].
Qed.

(** What happens at [i] does not matter to the others. *)
Lemma fut_ok_ext f i q q' : st q' !! i = st q !! i -> (forall c, (i, c) ∈ line q -> (i, c) ∈ line q') -> fut_ok f i q -> fut_ok f i q'.
Proof. intros E Hl. destruct f as [[c []]|]; cbn; rewrite E; try done. intros [[? ?]|?]; [left; auto|by right]. Qed.

Lemma phase_ok_upd s q i s' q' : phase_ok s q ->
  (forall j, j <> i -> st q' !! j = st q !! j /\ (forall c, (j, c) ∈ line q -> (j, c) ∈ line q')) ->
  fut_ok (futures s' !! i) i q' -> (forall j, j <> i -> futures s' !! j = futures s !! j) -> phase_ok s' q'.
Proof.
  intros Hp Hq Hi Hf j. destruct (decide (j = i)) as [->|Hj]; [done|]. rewrite (Hf j Hj). destruct (Hq j Hj) as [E El].
  by eapply fut_ok_ext; [exact E|exact El|].
Qed.

Lemma phase_await s q i c : phase_ok s q -> futures s !! i = Some (c, AWait) ->
  ((i, c) ∈ line q /\ exists w, st q !! i = Some (Waiting true w)) \/ st q !! i = Some (Gone c true).
Proof. intros Hp E. specialize (Hp i). by rewrite E in Hp. Qed.

Lemma phase_idle s q i : phase_ok s q -> (forall c, futures s !! i <> Some (c, AWait)) -> st q !! i = None.
Proof. intros Hp E. specialize (Hp i). destruct (futures s !! i) as [[c []]|]; cbn in Hp; [done|by destruct (E c)|done|done]. Qed.

(** A future is made at a free address, not polled after it was ready, and used until it is dropped. *)
Definition lock_legal (s : Lock L T) (k : G) (o : lock_op T X) : Prop :=
  match o with
  | Enter i _ => futures s !! i = None
  | Poll i _ => exists c p, futures s !! i = Some (c, p) /\ p <> ADone
  | Drop i => is_Some (futures s !! i)
  | Try _ => True
  | Extra x => extra_legal x (word s) k
  end.

(** What the callers hold after an operation with result [b]. *)
Definition lock_effect (s : Lock L T) (o : lock_op T X) (b : bool) (k : G) : G :=
  match o with
  | Poll i _ => match futures s !! i with Some (c, _) => if b then gain c k else k | None => k end
  | Try c => if b then gain c k else k
  | Extra x => extra_effect x k
  | _ => k
  end.

(** The states a lock with the word [v0] gets into, with what its callers hold. *)
Inductive lock_reach (v0 : Z) (k0 : G) : Lock L T -> G -> Prop :=
  | lr_new : lock_reach v0 k0 (mkLock v0 wq_new ∅) k0
  | lr_step s k o b s' : lock_reach v0 k0 s k -> lock_legal s k o -> lock_step ops o s = Ret b s' ->
      lock_reach v0 k0 s' (lock_effect s o b k).

(** ** Every step keeps the invariant, and none panics *)

Context (LL : LockLaws).

Definition step_goal (s : Lock L T) (o : lock_op T X) (k : G) : Prop :=
  exists b s' q', lock_step ops o s = Ret b s' /\ lock_inv s' q' (lock_effect s o b k).

Lemma enter_ok s q k i c : lock_inv s q k -> futures s !! i = None -> step_goal s (Enter i c) k.
Proof.
  intros (R & Hp & HJ) Hi. exists true, (with_futures (<[i := (c, AStart)]> (futures s)) s), q. split; [done|].
  split; [done|]. split; [|done]. apply (phase_ok_upd s q i); [done|done| |].
  - cbn. rewrite lookup_insert_eq. cbn. apply (phase_idle s q i Hp). by rewrite Hi.
  - intros j Hj. cbn. by rewrite lookup_insert_ne.
Qed.

Lemma try_ok s q k c : lock_inv s q k -> step_goal s (Try c) k.
Proof.
  intros (R & Hp & HJ). destruct (ll_try LL s q k c R HJ) as (b & s' & E & R' & Ef & HJ' & _).
  exists b, s', q. split; [done|]. split; [done|]. split; [|done]. intros j. rewrite Ef. apply Hp.
Qed.

Lemma lets_go_inv m s q s0 k : lets_go m s q (fun v q' => J v q' k) -> (forall i, fut_ok (futures s !! i) i q) -> q_ok q -> s0 = s ->
  exists s' q', m s0 = Ret tt s' /\ lock_inv s' q' k.
Proof.
  intros (s' & n & E & R & Ef & HJ) Hp Hq ->. exists s', (q_pops n q). split; [done|]. split; [done|]. split; [|done].
  intros j. rewrite Ef. by apply fut_ok_pops.
Qed.

Lemma extra_ok s q k x : lock_inv s q k -> extra_legal x (word s) k -> step_goal s (Extra x) k.
Proof.
  intros (R & Hp & HJ) Hx. destruct (lets_go_inv (lo_extra ops x) s q s (extra_effect x k)) as (s' & q' & E & HI);
    [by eapply ll_extra|done|by eapply (rep_ok W)|done|].
  exists true, s', q'. split; [|done]. cbn. by rewrite (m_bind_Ret _ _ _ _ _ E).
Qed.

Lemma q_enter_others i c w q j d : (j, d) ∈ line q -> (j, d) ∈ line (q_enter i c w q).
Proof. intros Hj. cbn. rewrite ins_Permutation. by right. Qed.

Lemma poll_start_ok s q k i c w : lock_inv s q k -> futures s !! i = Some (c, AStart) -> step_goal s (Poll i w) k.
Proof.
  intros (R & Hp & HJ) Hi. destruct (ll_try LL s q k c R HJ) as (b & s1 & E & R1 & Ef & HJ1 & Hw).
  assert (st q !! i = None) as Hs by (apply (phase_idle s q i Hp); intros d; by rewrite Hi).
  unfold step_goal. cbn [lock_step]. unfold fut_poll. rewrite (m_bind_Ret _ _ _ s s) by done. rewrite Hi. cbn [m_opt].
  erewrite m_bind_Ret by reflexivity. cbn [lock_effect]. rewrite Hi. destruct b.
  - exists true, (with_futures (<[i := (c, ADone)]> (futures s1)) s1), q. rewrite (m_bind_Ret _ _ _ _ _ E). split; [done|].
    split; [done|]. split; [|done]. apply (phase_ok_upd s q i); [done|done| |].
    + cbn. by rewrite lookup_insert_eq.
    + intros j Hj. cbn. by rewrite lookup_insert_ne, Ef.
  - destruct (await_first_ok i c w (waiters s1) q R1 Hs) as (l & El & Rl).
    exists false, (with_futures (<[i := (c, AWait)]> (futures s1)) (with_waiters l s1)), (q_enter i c w q).
    rewrite (m_bind_Ret _ _ _ _ _ E). cbn beta iota. rewrite (m_bind_Ret _ _ _ _ _ (on_waiters_Ret _ _ _ _ El)).
    split; [done|]. split; [done|]. split; [|by apply Hw]. apply (phase_ok_upd s q i); [done| | |].
    + intros j Hj. split; [cbn; by rewrite lookup_insert_ne|]. intros d. apply q_enter_others.
    + cbn. rewrite lookup_insert_eq. cbn. left. rewrite ins_Permutation, lookup_insert_eq. split; [by left|by exists w].
    + intros j Hj. cbn. by rewrite lookup_insert_ne, Ef.
Qed.

(** Who has been let go is ready at its next poll. *)
Lemma poll_gone_ok s q k i c w : lock_inv s q k -> st q !! i = Some (Gone c true) ->
  exists s', fut_poll ops i w s = Ret true s' /\ lock_inv s' (q_forget i q) (gain c k).
Proof.
  intros (R & Hp & HJ) Es. assert (futures s !! i = Some (c, AWait)) as Hi.
  { specialize (Hp i). destruct (futures s !! i) as [[d []]|]; cbn in Hp; rewrite Es in Hp; try discriminate Hp.
    destruct Hp as [(_ & ? & [=])|[= ->]]. done. }
  pose proof (await_next_ok i w (waiters s) q R) as Hn. rewrite Es in Hn. destruct Hn as (l & El & Rl).
  exists (with_futures (<[i := (c, ADone)]> (futures s)) (with_waiters l s)). split; [|split; [done|split]].
  - unfold fut_poll. rewrite (m_bind_Ret _ _ _ s s) by done. rewrite Hi. cbn [m_opt]. erewrite m_bind_Ret by reflexivity.
    cbn beta iota. rewrite (m_bind_Ret _ _ _ _ _ (on_waiters_Ret _ _ _ _ El)). cbn beta iota. by erewrite m_bind_Ret by (by eapply ll_ready).
  - apply (phase_ok_upd s q i); [done| | |].
    + intros j Hj. split; [cbn; by rewrite lookup_delete_ne|done].
    + cbn. by rewrite lookup_insert_eq; cbn; rewrite lookup_delete_eq.
    + intros j Hj. cbn. by rewrite lookup_insert_ne.
  - pose proof (ll_take LL _ q k i c HJ Es) as HJ1. apply (ll_forget LL _ _ _ i c) in HJ1; [|cbn; by rewrite lookup_insert_eq].
    unfold q_forget, q_set in HJ1. cbn [st line calls] in HJ1. by rewrite delete_insert_eq in HJ1.
Qed.

(** And no try in between takes it away. *)
Lemma gone_after_try s q k i c w d b s1 : lock_inv s q k -> st q !! i = Some (Gone c true) -> lo_try ops d s = Ret b s1 ->
  exists s2, fut_poll ops i w s1 = Ret true s2.
Proof.
  intros (R & Hp & HJ) Es E. destruct (ll_try LL s q k d R HJ) as (b' & s1' & E1' & R1 & Ef & HJ1 & _).
  rewrite E1' in E. injection E as -> ->. destruct (poll_gone_ok s1 q (if b then gain d k else k) i c w) as (s2 & E2 & _); [|done|by exists s2].
  split; [done|]. split; [|done]. intros j. rewrite Ef. apply Hp.
Qed.

Lemma poll_joined_ok s q k i c w : lock_inv s q k -> futures s !! i = Some (c, AWait) -> step_goal s (Poll i w) k.
Proof.
  intros HI Hi. pose proof HI as (R & Hp & HJ). pose proof (await_next_ok i w (waiters s) q R) as Hn.
  unfold step_goal. cbn [lock_step lock_effect]. rewrite Hi.
  destruct (phase_await s q i c Hp Hi) as [(Hl & w0 & Es)|Es].
  - rewrite Es in Hn. destruct Hn as (l & El & Rl). exists false, (with_waiters l s), (q_set i (Waiting true w) q). split.
    { unfold fut_poll. rewrite (m_bind_Ret _ _ _ s s) by done. rewrite Hi. cbn [m_opt]. erewrite m_bind_Ret by reflexivity.
      cbn beta iota. by rewrite (m_bind_Ret _ _ _ _ _ (on_waiters_Ret _ _ _ _ El)). }
    split; [done|]. split; [|by eapply ll_waker]. apply (phase_ok_upd s q i); [done| | |done].
    + intros j Hj. split; [cbn; by rewrite lookup_insert_ne|done].
    + cbn. rewrite Hi. cbn. left. rewrite lookup_insert_eq. split; [done|by exists w].
  - destruct (poll_gone_ok s q k i c w HI Es) as (s' & E & HI'). by exists true, s', (q_forget i q).
Qed.

Lemma drop_idle_ok s q k i c p : lock_inv s q k -> futures s !! i = Some (c, p) -> p <> AWait -> step_goal s (Drop i) k.
Proof.
  intros (R & Hp & HJ) Hi Hne. exists true, (with_futures (delete i (futures s)) s), q. split.
  - cbn [lock_step]. unfold fut_drop. munfold. rewrite Hi. by destruct p.
  - split; [done|]. split; [|done]. apply (phase_ok_upd s q i); [done|done| |].
    + cbn. rewrite lookup_delete_eq. apply (phase_idle s q i Hp). rewrite Hi. congruence.
    + intros j Hj. cbn. by rewrite lookup_delete_ne.
Qed.

Lemma drop_await_ok s q k i c : lock_inv s q k -> futures s !! i = Some (c, AWait) -> step_goal s (Drop i) k.
Proof.
  intros (R & Hp & HJ) Hi. pose proof (rep_ok W _ _ R) as Hq. pose proof (await_drop_ok i (waiters s) q R) as Hd.
  unfold step_goal. cbn [lock_step lock_effect]. unfold fut_drop.
  destruct (phase_await s q i c Hp Hi) as [(Hl & w0 & Es)|Es]; rewrite Es in Hd.
  - destruct Hd as (l1 & l2 & E1 & E2 & Rl).
    destruct (ll_cancelled LL s q k i c w0 Hq HJ Es Hl l2 Rl) as (s' & n & E & R' & Ef & HJ').
    exists true, (with_futures (delete i (futures s')) s'), (q_pops n (q_remove i q)). split.
    + munfold. rewrite Hi. unfold m_ret. cbn beta iota. rewrite (on_waiters_Ret _ _ _ _ E1). cbn beta iota. rewrite (on_waiters_Ret _ (with_waiters l1 s) _ _ E2).
      change (with_waiters l2 (with_waiters l1 s)) with (with_waiters l2 s). by rewrite E.
    + split; [done|]. split; [|done]. intros j. cbn [futures with_futures with_waiters]. rewrite Ef. cbn [futures with_waiters]. apply fut_ok_pops; [by apply q_remove_ok|].
      assert (phase_ok (with_futures (delete i (futures s)) s) (q_remove i q)) as Hr; [|apply Hr].
      apply (phase_ok_upd s q i); [done| | |].
      * intros j' Hj. split; [cbn; by rewrite lookup_delete_ne|]. intros d. cbn. by rewrite list_elem_of_filter.
      * cbn. rewrite lookup_delete_eq. cbn. by rewrite lookup_delete_eq.
      * intros j' Hj. cbn. by rewrite lookup_delete_ne.
  - destruct Hd as (l1 & E1 & Rl). pose proof (rep_ok W _ _ Rl) as Hq1.
    destruct (ll_cleanup LL s q k i c R HJ Es l1 Rl) as (s' & n & E & R' & Ef & HJ'). fold (q_set i (Gone c false) q) in Hq1.
    assert (st (q_pops n (q_set i (Gone c false) q)) !! i = Some (Gone c false)) as Eg by (apply q_pops_gone; [done|]; cbn; by rewrite lookup_insert_eq).
    destruct (drop_gone_ok i (waiters s') _ c false R' Eg) as (l2 & E2 & R2).
    exists true, (with_futures (delete i (futures s')) (with_waiters l2 s')), (q_forget i (q_pops n (q_set i (Gone c false) q))). split.
    + munfold. rewrite Hi. unfold m_ret. cbn beta iota. rewrite (on_waiters_Ret _ _ _ _ E1). cbn beta iota. rewrite E. by rewrite (on_waiters_Ret _ _ _ _ E2).
    + split; [done|]. split; [|by eapply ll_forget]. intros j. cbn [futures with_futures with_waiters]. rewrite Ef. cbn [futures with_waiters]. destruct (decide (j = i)) as [->|Hj].
      * rewrite lookup_delete_eq. cbn. by rewrite lookup_delete_eq.
      * rewrite lookup_delete_ne by done. apply (fut_ok_ext _ _ (q_pops n (q_set i (Gone c false) q))); [cbn; by rewrite lookup_delete_ne|done|].
        apply fut_ok_pops; [done|]. apply (fut_ok_ext _ _ q); [cbn; by rewrite lookup_insert_ne|done|apply Hp].
Qed.

Lemma lock_step_ok s q k o : lock_inv s q k -> lock_legal s k o -> step_goal s o k.
Proof.
  intros HI Hl. destruct o as [i c|i w|i|c|x].
  - by eapply enter_ok.
  - destruct Hl as (c & [] & Hi & Hd); [by eapply poll_start_ok|by eapply poll_joined_ok|done].
  - destruct Hl as [[c p] Hi]. destruct p; [by eapply drop_idle_ok|by eapply drop_await_ok|by eapply drop_idle_ok].
  - by eapply try_ok.
  - by eapply extra_ok.
Qed.

(** A history, and what it asks for. *)
Fixpoint lock_run (os : list (lock_op T X)) (s : Lock L T) (k : G) : option (Lock L T * G) :=
  match os with
  | [] => Some (s, k)
  | o :: os => match lock_step ops o s with Ret b s' => lock_run os s' (lock_effect s o b k) | Fault _ => None end
  end.
Fixpoint legal_run (os : list (lock_op T X)) (s : Lock L T) (k : G) : Prop :=
  match os with
  | [] => True
  | o :: os => lock_legal s k o /\ match lock_step ops o s with Ret b s' => legal_run os s' (lock_effect s o b k) | Fault _ => True end
  end.

(** The legality of a history without other calls can be computed. *)
Fixpoint legal_runb (os : list (lock_op T X)) (s : Lock L T) : bool :=
  match os with
  | [] => true
  | o :: os =>
      match o with
      | Enter i _ => match futures s !! i with None => true | _ => false end
      | Poll i _ => match futures s !! i with Some (_, ADone) | None => false | _ => true end
      | Drop i => match futures s !! i with None => false | _ => true end
      | Try _ => true
      | Extra _ => false
      end && match lock_step ops o s with Ret _ s' => legal_runb os s' | Fault _ => false end
  end.
Lemma legal_runb_ok os : forall s k, legal_runb os s = true -> legal_run os s k.
Proof.
  induction os as [|o os IH]; intros s k E; [done|]. cbn in E. apply andb_true_iff in E as [E1 E2]. split.
  - destruct o as [i c|i w|i|c|x]; cbn; [|..|done]; try (destruct (futures s !! i) as [[d []]|] eqn:Ei; try discriminate E1); try done.
    all: by eexists _, _.
  - destruct (lock_step ops o s); [|done]. by apply IH.
Qed.

Lemma lock_reach_run v0 k0 os : forall s k s' k', lock_reach v0 k0 s k -> legal_run os s k -> lock_run os s k = Some (s', k') ->
  lock_reach v0 k0 s' k'.
Proof.
  induction os as [|o os IH]; intros s k s' k' Hr Hl E; [by injection E as <- <-|]. cbn in Hl, E. destruct Hl as [Ho Hl].
  destruct (lock_step ops o s) as [b s1|f] eqn:Es; [|done]. eapply IH; [|exact Hl|exact E]. by eapply lr_step.
Qed.

Lemma lock_reach_inv v0 k0 s k : J v0 q_new k0 -> lock_reach v0 k0 s k ->
  exists q, lock_inv s q k.
Proof.
  intros HJ. induction 1 as [|s k o b s' _ [q HI] Hl E]; [exists q_new|].
  - split; [apply wq_rep_new|]. split; [|done]. intros i. cbn. by rewrite lookup_empty.
  - destruct (lock_step_ok s q k o HI Hl) as (b' & s1 & q' & E' & HI'). rewrite E' in E. injection E as -> ->. by exists q'.
Qed.
End laws.
Arguments LockLaws {L T X H W WL G}.

(** ** What is owed to futures that were let go *)

Section debt.
Context {T : Type} `{PartialOrd T}.
Implicit Types q : WQ T.

Definition owed (f : T -> Z) (x : waiter T) : Z := match x with Gone c true => f c | _ => 0 end.
Definition debt (f : T -> Z) q : Z := msum (owed f) (st q).
(** Every waiting future has its cleanup. *)
Definition q_clean q : Prop := forall i cl w, st q !! i = Some (Waiting cl w) -> cl = true.

Lemma debt_new f : debt f q_new = 0.
Proof. apply msum_empty. Qed.

Lemma debt_nonneg f q : (forall c, 0 <= f c) -> 0 <= debt f q.
Proof. intros Hf. apply msum_nonneg. intros [| |c []]; cbn; try lia. apply Hf. Qed.

Lemma debt_waker f q i w w' : st q !! i = Some (Waiting true w) -> debt f (q_set i (Waiting true w') q) = debt f q.
Proof. intros E. unfold debt. cbn [st q_set]. rewrite (msum_update _ _ _ _ _ E). cbn. lia. Qed.

Lemma debt_forget f q i c : st q !! i = Some (Gone c false) -> debt f (q_forget i q) = debt f q.
Proof. intros E. unfold debt. cbn [st q_forget]. rewrite (msum_delete _ (st q) _ _ E). cbn. lia. Qed.

Lemma debt_take f q i c : st q !! i = Some (Gone c true) -> debt f (q_set i (Gone c false) q) = debt f q - f c.
Proof. intros E. unfold debt. cbn [st q_set]. rewrite (msum_update _ _ _ _ _ E). cbn. lia. Qed.

Lemma debt_owes f q i c : (forall c, 0 <= f c) -> st q !! i = Some (Gone c true) -> f c <= debt f q.
Proof. intros Hf E. pose proof (debt_nonneg f (q_set i (Gone c false) q) Hf). rewrite (debt_take f q i c E) in *. lia. Qed.

Lemma debt_enter f q i c w : st q !! i = None -> debt f (q_enter i c w q) = debt f q.
Proof. intros E. unfold debt. cbn [st q_enter]. rewrite msum_new by done. cbn. lia. Qed.

Lemma debt_remove f q i w : st q !! i = Some (Waiting true w) -> debt f (q_remove i q) = debt f q.
Proof. intros E. unfold debt. cbn [st q_remove]. rewrite (msum_delete _ (st q) _ _ E). cbn. lia. Qed.

Lemma debt_pop f q h c l : q_ok q -> q_clean q -> line q = (h, c) :: l -> debt f (q_pop q) = f c + debt f q.
Proof.
  intros Hq Hc E. destruct (q_pop_cons q h c l Hq E) as (cl & w & Es & ->). unfold debt. cbn [st].
  rewrite (msum_update _ _ _ _ _ Es). rewrite (Hc _ _ _ Es). cbn. lia.
Qed.

Lemma clean_new : q_clean q_new.
Proof. intros i cl w. cbn. by rewrite lookup_empty. Qed.

(** One entry is replaced by one that does not wait without a cleanup. *)
Lemma clean_insert q i x l cs : q_clean q -> (forall cl w, x = Waiting cl w -> cl = true) -> q_clean (mkWQ l (<[i := x]> (st q)) cs).
Proof.
  intros Hc Hx j cl w. cbn. destruct (decide (j = i)) as [->|Hj]; [rewrite lookup_insert_eq; intros [= ->]; by eapply Hx|].
  rewrite lookup_insert_ne by done. apply Hc.
Qed.

Lemma clean_delete q i l cs : q_clean q -> q_clean (mkWQ l (delete i (st q)) cs).
Proof.
  intros Hc j cl w. cbn. destruct (decide (j = i)) as [->|Hj]; [by rewrite lookup_delete_eq|].
  rewrite lookup_delete_ne by done. apply Hc.
Qed.

Lemma clean_pop q : q_ok q -> q_clean q -> q_clean (q_pop q).
Proof.
  intros Hq Hc. destruct (line q) as [|[h c] l] eqn:E; [unfold q_pop; by rewrite E|].
  destruct (q_pop_cons q h c l Hq E) as (cl & w & Es & ->). by apply clean_insert.
Qed.

Lemma clean_pops n q : q_ok q -> q_clean q -> q_clean (q_pops n q).
Proof. intros Hq Hc. induction n as [|n IH]; [done|]. apply (clean_pop (q_pops n q)); [by apply q_pops_ok|done]. Qed.
End debt.

#[export] Hint Resolve clean_new clean_insert clean_delete clean_pop clean_pops : locks.
