(* ===== verification/Semaphore.v ===== *)
(** * Semaphore: the counting semaphore of TinyOS ([tinyos/rust/tiny/src/semaphore.rs])

    The pieces of [LockFut] for the semaphore: its word is [available], all futures ask for the same. *)
From stdpp Require Import gmap list.
From S2P Require Import Prelude WaitQueue WaitList WaitListSpec LockFut.

Section semaphore.
Context {L : Type} `{W : WaitQueue L unit}.
Local Abbreviation Sem := (Lock L unit).
Implicit Types (s : Lock L unit) (q : WQ unit).

(** src: tinyos/rust/tiny/src/semaphore.rs 222-227 [Semaphore::new] *)
Definition sem_new (permits : Z) : Sem := mkLock permits wq_new ∅.

(** src: tinyos/rust/tiny/src/semaphore.rs 146-153 [Semaphore::try_acquire] *)
Definition try_acquire : M Sem bool :=
  let! s := m_get in
  if word s =? 0 then m_ret false else set_word (word s - 1) >>; m_ret true.

(** src: tinyos/rust/tiny/src/semaphore.rs 160-162 [Semaphore::permits_available] *)
Definition permits_available : M Sem Z := m_gets word.

(** src: tinyos/rust/tiny/src/semaphore.rs 185-191 [release_multiple: the loop]
    The fuel is the number of futures and one. *)
Fixpoint release_from (fuel : nat) (n : Z) : M Sem Z :=
  if 0 <? n then
    match fuel with
    | O => m_fault FuelOut
    | S fuel' => let! woke := on_waiters wake_one in if woke : bool then release_from fuel' (n - 1) else m_ret n
    end
  else m_ret n.
(** src: tinyos/rust/tiny/src/semaphore.rs 181-210 [Semaphore::release_multiple]
    With its [debug_assert!]; the addition wraps. *)
Definition release_multiple (n : Z) : M Sem unit :=
  if n <=? 0 then m_fault ExplicitPanic
  else
    let! s := m_get in
    let! rest := release_from (S (wq_size (waiters s))) n in
    if 0 <? rest then let! s := m_get in set_word (usize (word s + rest)) else m_ret tt.
(** src: tinyos/rust/tiny/src/semaphore.rs 166-168 [Semaphore::release] *)
Definition release : M Sem unit := release_multiple 1.

(** src: tinyos/rust/tiny/src/semaphore.rs 125-142 [Semaphore::acquire]
    The pieces of its future; the cleanup is lines 132-139. *)
Definition acquire_ops : LockOps L unit Z :=
  mkLockOps (fun _ => try_acquire) (fun _ => m_ret tt) (fun _ => release) (fun _ => m_ret tt) release_multiple.

(** ** Permits held by the callers *)

Definition sem_gain (_ : unit) (k : Z) : Z := k + 1.
Definition sem_legal (n _ _ : Z) : Prop := 0 < n < 2 ^ 64.
Definition sem_effect (n k : Z) : Z := k - n.
(** A semaphore of [n0] permits, after any operations. *)
Definition sem_reach (n0 : Z) : Sem -> Z -> Prop := lock_reach sem_gain sem_legal sem_effect acquire_ops n0 0.

Context {WL : WaitQueueLaws W}.

Definition one (_ : unit) : Z := 1.
Definition sem_inv (n0 : Z) (v : Z) (q : WQ unit) (k : Z) : Prop :=
  in_word 64 v /\ (0 < v -> line q = []) /\ (v + debt one q + k) mod 2 ^ 64 = n0 /\ q_clean q.

Lemma wake_one_pop s q : wq_rep (waiters s) q ->
  exists l, on_waiters wake_one s = Ret (negb (bool_decide (line q = []))) (with_waiters l s) /\ wq_rep l (q_pop q).
Proof.
  intros R. pose proof (rep_ok W _ _ R) as Hq.
  destruct (wake_one_ok (waiters s) q (negb (bool_decide (line q = []))) (q_pop q) R) as (l & E & R').
  - unfold q_wake_one. rewrite q_wake_head_pop by done. destruct (line q) as [|[h c] ll] eqn:El; [|done]. unfold q_pop. by rewrite El.
  - exists l. split; [by apply on_waiters_Ret|done].
Qed.

(** The loop lets the first [n] go, or all of them. *)
Lemma release_from_ok n : forall fuel m s q, wq_rep (waiters s) q -> (length (line q) < fuel)%nat ->
  n = Nat.min (Z.to_nat m) (length (line q)) -> 0 <= m ->
  exists l, release_from fuel m s = Ret (m - Z.of_nat n) (with_waiters l s) /\ wq_rep l (q_pops n q).
Proof.
  induction n as [|n IH]; intros fuel m s q R Hf Hn Hm.
  - destruct fuel as [|fuel]; [lia|]. cbn [release_from]. destruct (0 <? m) eqn:Em.
    + bool_to_prop. destruct (wake_one_pop s q R) as (l & E & R'). assert (line q = []) as El by (destruct (line q); [done|cbn in *; lia]).
      rewrite bool_decide_eq_true_2 in E by done. exists l. rewrite (m_bind_Ret _ _ _ _ _ E). rewrite Z.sub_0_r. split; [done|].
      unfold q_pop in R'. by rewrite El in R'.
    + bool_to_prop. exists (waiters s). rewrite Z.sub_0_r. by destruct s.
  - destruct fuel as [|fuel]; [lia|]. cbn [release_from]. rewrite (proj2 (Z.ltb_lt 0 m)) by lia.
    destruct (wake_one_pop s q R) as (l & E & R'). pose proof (rep_ok W _ _ R) as Hq.
    destruct (line q) as [|[h c] ll] eqn:El; [cbn in Hn; lia|]. rewrite bool_decide_eq_false_2 in E by done.
    rewrite (m_bind_Ret _ _ _ _ _ E). cbn [negb]. cbn [length] in *.
    assert (line (q_pop q) = ll) as Ep by (destruct (q_pop_cons q h c ll Hq El) as (? & ? & _ & ->); done).
    destruct (IH fuel (m - 1) (with_waiters l s) (q_pop q) R') as (l' & E' & R''); [rewrite Ep; lia|rewrite Ep; lia|lia|].
    exists l'. rewrite E', q_pops_S. split; [|done]. f_equal. lia.
Qed.

Lemma release_multiple_run n s q : wq_rep (waiters s) q -> 0 < n ->
  let m := Nat.min (Z.to_nat n) (length (line q)) in
  exists l, wq_rep l (q_pops m q) /\
    release_multiple n s = Ret tt (mkLock (if Z.of_nat m <? n then usize (word s + (n - Z.of_nat m)) else word s) l (futures s)).
Proof.
  intros R Hn m. destruct (release_from_ok m (S (wq_size (waiters s))) n s q R) as (l & E & R'); [|done|lia|].
  { pose proof (wq_size_ok _ _ R). lia. }
  exists l. split; [done|]. unfold release_multiple. rewrite (proj2 (Z.leb_gt n 0)) by lia.
  erewrite m_bind_Ret by reflexivity. rewrite (m_bind_Ret _ _ _ _ _ E).
  assert ((0 <? n - Z.of_nat m) = (Z.of_nat m <? n)) as -> by (zcases; lia). by destruct (Z.of_nat m <? n).
Qed.

Lemma debt_pops m : forall q, q_ok q -> q_clean q -> (m <= length (line q))%nat -> debt one (q_pops m q) = debt one q + Z.of_nat m.
Proof.
  induction m as [|m IH]; intros q Hq Hc Hm; [cbn; lia|]. rewrite q_pops_S. destruct (line q) as [|[h c] l] eqn:E; [cbn in Hm; lia|].
  rewrite IH; [|by apply q_pop_ok|by apply clean_pop|].
  - rewrite (debt_pop one q h c l) by done. unfold one. lia.
  - destruct (q_pop_cons q h c l Hq E) as (? & ? & _ & ->). cbn in *. lia.
Qed.

Lemma sem_inv_release n0 v q k n : q_ok q -> sem_inv n0 v q k -> 0 < n ->
  let m := Nat.min (Z.to_nat n) (length (line q)) in
  sem_inv n0 (if Z.of_nat m <? n then usize (v + (n - Z.of_nat m)) else v) (q_pops m q) (k - n).
Proof.
  intros Hq (Hv & Hl & Hk & Hc) Hn m. pose proof (debt_pops m q Hq Hc ltac:(lia)) as Hd.
  destruct (q_pops_line m q Hq) as [Hpl _]. split; [|split; [|split; [|by apply clean_pops]]].
  - destruct (Z.of_nat m <? n); [by apply wrap_range|done].
  - intros H0. rewrite Hpl. destruct (Z.ltb_spec (Z.of_nat m) n); [apply drop_ge; lia|]. rewrite (Hl H0). by rewrite drop_nil.
  - rewrite Hd, <-Hk. destruct (Z.ltb_spec (Z.of_nat m) n); [|f_equal; lia]. unfold wrap.
    rewrite <-Z.add_assoc, Zplus_mod_idemp_l. f_equal. lia.
Qed.

Lemma release_multiple_laws n0 n s q k : wq_rep (waiters s) q -> sem_inv n0 (word s) q k -> 0 < n < 2 ^ 64 ->
  lets_go (release_multiple n) s q (fun v q' => sem_inv n0 v q' (k - n)).
Proof.
  intros R HJ Hn. destruct (release_multiple_run n s q R ltac:(lia)) as (l & R' & E).
  eexists _, _. split; [exact E|]. split; [exact R'|]. split; [done|]. apply sem_inv_release; [by eapply (rep_ok W)|done|lia].
Qed.

Lemma sem_laws n0 : LockLaws sem_gain sem_legal sem_effect (sem_inv n0) acquire_ops.
Proof.
  constructor.
  - intros v q k i w w' (Hv & Hl & Hk & Hc) E. split; [done|]. split; [done|]. rewrite (debt_waker _ _ _ _ _ E).
    split; [done|]. apply clean_insert; [done|]. by intros ?? [= ->].
  - intros v q k i c (Hv & Hl & Hk & Hc) E. split; [done|]. split; [done|]. rewrite (debt_forget _ _ _ _ E).
    split; [done|]. by apply clean_delete.
  - intros v q k i c (Hv & Hl & Hk & Hc) E. split; [done|]. split; [done|]. rewrite (debt_take _ _ _ _ E).
    split; [rewrite <-Hk; f_equal; unfold sem_gain, one; lia|]. by apply clean_insert.
  - done.
  - intros s q k c R (Hv & Hl & Hk & Hc). cbn. destruct (Z.eqb_spec (word s) 0) as [E|E].
    + exists false, s. split; [done|]. split; [done|]. split; [done|].
      split; [done|]. intros _ i w Hi. split; [done|]. split; [lia|]. rewrite debt_enter by done. split; [done|].
      apply clean_insert; [done|]. by intros ?? [= ->].
    + exists true, (with_word (word s - 1) s). split; [done|]. split; [done|]. split; [done|].
      split; [|done]. pose proof Hv as Hv'. unfold in_word in Hv'. split; [unfold in_word; cbn [word with_word]; lia|].
      split; [intros _; apply Hl; lia|]. split; [|done].
      rewrite <-Hk. f_equal. unfold sem_gain. cbn [word with_word]. lia.
  - intros s q k i c R (Hv & Hl & Hk & Hc) E l Rl. replace k with (k + 1 - 1) by lia.
    apply (release_multiple_laws n0 1 (with_waiters l s)); [done| |lia]. split; [done|]. split; [done|]. rewrite (debt_take _ _ _ _ E).
    split; [rewrite <-Hk; f_equal; unfold one; cbn [word with_waiters]; lia|]. by apply clean_insert.
  - intros s q k i c w Hq (Hv & Hl & Hk & Hc) E Hi l Rl. exists (with_waiters l s), O. split; [done|]. split; [done|]. split; [done|].
    split; [done|]. split; [intros H0; rewrite (Hl H0) in Hi; by apply elem_of_nil in Hi|].
    cbn [q_pops Nat.iter]. rewrite (debt_remove _ _ _ _ E). split; [done|]. by apply clean_delete.
  - intros s q k x R HJ Hx. by apply release_multiple_laws.
Qed.

Lemma sem_reach_inv n0 s k : in_word 64 n0 -> sem_reach n0 s k -> exists q, lock_inv (sem_inv n0) s q k.
Proof.
  intros Hn. apply (lock_reach_inv _ _ _ _ _ (sem_laws n0)). split; [done|]. split; [done|]. rewrite debt_new.
  split; [|apply clean_new]. rewrite !Z.add_0_r. by apply Z.mod_small.
Qed.
End semaphore.

Section theorems.
Context {L : Type} `{W : WaitQueue L unit} {WL : WaitQueueLaws W}.

(** In every state a semaphore of [n0] permits reaches by any interleaving of [acquire] futures made, polled and
    dropped, [try_acquire], [release] and [release_multiple], the permits in the counter, those owed to futures that were let go
    but not polled again, and those the callers hold (a negative number when they released more than they took) add up to [n0],
    modulo the word; nobody waits while a permit is available; and no legal call panics. *)
Theorem semaphore_conserves_permits (n0 : Z) (s : Lock L unit) (k : Z) (Hn : in_word 64 n0) (Hr : sem_reach n0 s k) :
  exists q, wq_rep (waiters s) q /\ (word s + debt one q + k) mod 2 ^ 64 = n0 /\ (0 < word s -> line q = []) /\
    forall o, lock_legal sem_legal s k o -> exists b s', lock_step acquire_ops o s = Ret b s'.
Proof.
  destruct (sem_reach_inv n0 s k Hn Hr) as (q & HI). exists q. pose proof HI as (R & _ & _ & Hl & Hk & _).
  split; [done|]. split; [done|]. split; [done|]. intros o Ho.
  destruct (lock_step_ok _ _ _ _ _ (sem_laws n0) s q k o HI Ho) as (b & s' & _ & E & _). by exists b, s'.
Qed.

(** Releasing [n] permits lets the first [n] of the line go in the order they came, calling each one's waker in that
    order, and each of them is ready when it is polled next, whatever [try_acquire] does in between; what is left of [n]
    goes to the counter, and only then. *)
Theorem semaphore_release_fifo (n0 : Z) (s : Lock L unit) (k n : Z) (Hn : in_word 64 n0) (Hr : sem_reach n0 s k) (H0 : 0 < n < 2 ^ 64) :
  exists q, wq_rep (waiters s) q /\ exists s' q', release_multiple n s = Ret tt s' /\ wq_rep (waiters s') q' /\
    line q' = drop (Z.to_nat n) (line q) /\
    calls q' = calls q ++ map (waker_of q) (take (Z.to_nat n) (line q)) /\
    word s' = (if zlen (line q) <? n then usize (word s + (n - zlen (line q))) else word s) /\
    forall i, i ∈ (take (Z.to_nat n) (line q)).*1 -> forall b s1, try_acquire s' = Ret b s1 -> forall w, exists s2, fut_poll acquire_ops i w s1 = Ret true s2.
Proof.
  destruct (sem_reach_inv n0 s k Hn Hr) as (q & R & Hp & HJ). exists q. split; [done|].
  pose proof (rep_ok W _ _ R) as Hq. destruct (release_multiple_run n s q R ltac:(lia)) as (l & Rl & E).
  set (m := Nat.min _ _) in *. exists (mkLock (if Z.of_nat m <? n then usize (word s + (n - Z.of_nat m)) else word s) l (futures s)), (q_pops m q).
  split; [exact E|]. split; [done|]. destruct (q_pops_line m q Hq) as [-> ->].
  assert (take m (line q) = take (Z.to_nat n) (line q)) as Ht.
  { unfold m. destruct (Nat.min_spec (Z.to_nat n) (length (line q))) as [[? ->]|[? ->]]; [done|]. by rewrite !take_ge by lia. }
  assert (drop m (line q) = drop (Z.to_nat n) (line q)) as ->.
  { unfold m. destruct (Nat.min_spec (Z.to_nat n) (length (line q))) as [[? ->]|[? ->]]; [done|]. by rewrite !drop_ge by lia. }
  rewrite Ht. split; [done|]. split; [done|]. split.
  { cbn. unfold zlen. destruct (Z.ltb_spec (Z.of_nat m) n), (Z.ltb_spec (Z.of_nat (length (line q))) n); try lia.
    do 2 f_equal. lia. }
  intros i Hi b s1 E1 w. rewrite <-Ht in Hi. apply list_elem_of_fmap in Hi as ([i' c] & -> & Hi).
  destruct (q_pops_taken m q i' c Hq Hi) as (cl & w' & Es & Eg). assert (cl = true) as -> by (destruct HJ as (_ & _ & _ & Hc); by eapply Hc).
  refine (gone_after_try _ _ _ _ _ (sem_laws n0) _ (q_pops m q) (k - n) i' c w tt b s1 _ Eg E1).
  split; [done|]. split; [|apply sem_inv_release; [done|done|lia]]. intros j. by apply fut_ok_pops.
Qed.
End theorems.

(** ** On the wait list itself *)

(** A permit is taken, two wait, two more permits come back. *)
Definition sem_demo : list (lock_op unit Z) :=
  [Try tt; Enter 7%nat tt; Poll 7%nat 70; Enter 8%nat tt; Poll 8%nat 80; Drop 7%nat].

Lemma sem_demo_reach : exists s, sem_reach (L := WL unit) 1 s 1 /\ word s = 0.
Proof.
  eexists. split.
  - eapply (lock_reach_run _ _ _ _ _ _ sem_demo); [apply lr_new| |vm_compute; reflexivity].
    apply legal_runb_ok. vm_compute. reflexivity.
  - reflexivity.
Defined.

Lemma semaphore_conserves_permits_witness : exists s : Lock (WL unit) unit, sem_reach 1 s 1 /\
  exists q, wq_rep (waiters s) q /\ (word s + debt one q + 1) mod 2 ^ 64 = 1.
Proof.
  destruct sem_demo_reach as (s & Hr & _). exists s. split; [done|].
  destruct (semaphore_conserves_permits 1 s 1 ltac:(done) Hr) as (q & R & E & _). by exists q.
Defined.

(** Of the two permits one goes to the future at 8, the other to the counter. *)
Lemma semaphore_release_fifo_witness : exists s s' : Lock (WL unit) unit, sem_reach 1 s 1 /\ release_multiple 2 s = Ret tt s' /\
  exists q q', wq_rep (waiters s) q /\ wq_rep (waiters s') q' /\ line q' = drop 2 (line q).
Proof.
  destruct sem_demo_reach as (s & Hr & _).
  destruct (semaphore_release_fifo 1 s 1 2 ltac:(done) Hr ltac:(lia)) as (q & R & s' & q' & E & R' & El & _).
  exists s, s'. split; [done|]. split; [done|]. by exists q, q'.
Defined.
