(* ===== verification/Mutex.v ===== *)
(** * Mutex: the fair mutex of TinyOS ([tinyos/rust/tiny/src/mutex.rs])

    The pieces of [LockFut] for the mutex: its word is [state], 1 when it is locked.  The guarded value is
    touched only by a holder ([ActionPermit::perform], [MutexGuard]), so that one holder at a time is what the
    mutex has to ensure. *)
From stdpp Require Import gmap list.
From S2P Require Import Prelude WaitQueue WaitList WaitListSpec LockFut Semaphore.

Section mutex.
Context {L : Type} `{W : WaitQueue L unit}.
Implicit Types (s : Lock L unit) (q : WQ unit).

(** src: tinyos/rust/tiny/src/mutex.rs 117-123 [Mutex::create] *)
Definition mutex_create : Lock L unit := mkLock 0 wq_new ∅.

(** src: tinyos/rust/tiny/src/mutex.rs 135-141 [Mutex::try_lock]
    [try_lock_assuming_cancel_safe] does the same. *)
Definition try_lock : M (Lock L unit) bool :=
  let! s := m_get in set_word (Z.lor (word s) 1) >>; m_ret (word s =? 0).

(** src: tinyos/rust/tiny/src/mutex.rs 158-168 [Mutex::unlock]
    What dropping an [ActionPermit] or a [MutexGuard] does. *)
Definition unlock : M (Lock L unit) unit :=
  let! woke := on_waiters wake_one in if woke : bool then m_ret tt else set_word 0.

(** src: tinyos/rust/tiny/src/mutex.rs 198-227 [Mutex::lock]
    The pieces of its future; [lock_assuming_cancel_safe] is the same. *)
Definition mutex_ops : LockOps L unit unit :=
  mkLockOps (fun _ => try_lock)
    (fun _ => let! s := m_get in if word s =? 1 then m_ret tt else m_fault ExplicitPanic)
    (fun _ => unlock) (fun _ => m_ret tt) (fun _ => unlock).

(** ** Holders *)

Definition mutex_gain (_ : unit) (k : Z) : Z := k + 1.
(** Only a holder unlocks (the safety condition of [unlock]). *)
Definition mutex_legal (_ : unit) (_ k : Z) : Prop := 0 < k.
Definition mutex_effect (_ : unit) (k : Z) : Z := k - 1.
Definition mutex_reach : Lock L unit -> Z -> Prop := lock_reach mutex_gain mutex_legal mutex_effect mutex_ops 0 0.

Context {WL : WaitQueueLaws W}.

Definition mutex_inv (v : Z) q (k : Z) : Prop :=
  (v = 0 \/ v = 1) /\ debt one q + k = v /\ 0 <= k /\ (v = 0 -> line q = []) /\ q_clean q.

Lemma one_nonneg : forall c, 0 <= one c.
Proof. intros []. done. Qed.

(** Unlocking: the first of the line gets it, or nobody. *)
Lemma unlock_run s q : wq_rep (waiters s) q ->
  exists l, wq_rep l (q_pop q) /\
    unlock s = Ret tt (mkLock (match line q with [] => 0 | _ => word s end) l (futures s)).
Proof.
  intros R. destruct (wake_one_pop s q R) as (l & E & R'). exists l. split; [done|]. unfold unlock.
  rewrite (m_bind_Ret _ _ _ _ _ E). by destruct (line q).
Qed.

Lemma unlock_inv v q k : q_ok q -> mutex_inv v q k -> 0 < k ->
  mutex_inv (match line q with [] => 0 | _ => v end) (q_pop q) (k - 1).
Proof.
  intros Hq (Hv & Hk & H0 & Hl & Hc) Hh. pose proof (debt_nonneg one q one_nonneg).
  destruct (line q) as [|[h c] l] eqn:E.
  - assert (q_pop q = q) as -> by (unfold q_pop; by rewrite E).
    split; [by left|]. split; [lia|]. split; [lia|]. by split.
  - split; [done|]. rewrite (debt_pop one q h c l Hq Hc E). split; [change (one c) with 1; lia|]. split; [lia|].
    split; [lia|]. by apply clean_pop.
Qed.

Lemma unlock_laws s q k : wq_rep (waiters s) q -> mutex_inv (word s) q k -> 0 < k ->
  lets_go unlock s q (fun v q' => mutex_inv v q' (k - 1)).
Proof.
  intros R HJ Hh. destruct (unlock_run s q R) as (l & R' & E). eexists _, 1%nat. split; [exact E|]. split; [exact R'|].
  split; [done|]. apply unlock_inv; [by eapply (rep_ok W)|done|done].
Qed.

Lemma mutex_laws : LockLaws mutex_gain mutex_legal mutex_effect mutex_inv mutex_ops.
Proof.
  constructor.
  - intros v q k i w w' (Hv & Hk & H0 & Hl & Hc) E. split; [done|]. rewrite (debt_waker _ _ _ _ _ E).
    split_and!; try done. apply clean_insert; [done|]. by intros ?? [= ->].
  - intros v q k i c (Hv & Hk & H0 & Hl & Hc) E. split; [done|]. rewrite (debt_forget _ _ _ _ E).
    split_and!; try done. by apply clean_delete.
  - intros v q k i c (Hv & Hk & H0 & Hl & Hc) E. split; [done|]. rewrite (debt_take _ _ _ _ E).
    split; [unfold mutex_gain; change (one c) with 1; lia|]. split; [unfold mutex_gain; lia|]. split; [done|]. by apply clean_insert.
  - intros s q k i c (Hv & Hk & H0 & Hl & Hc) E. pose proof (debt_owes one q i c one_nonneg E) as Ho. change (one c) with 1 in Ho.
    assert (word s = 1) as Hw by lia. cbn. by rewrite Hw.
  - intros s q k c R (Hv & Hk & H0 & Hl & Hc). exists (word s =? 0), (with_word 1 s). split.
    { cbn. unfold m_bind, m_ret, set_word, m_modify. by destruct Hv as [-> | ->]. }
    split; [done|]. split; [done|]. pose proof (debt_nonneg one q one_nonneg). destruct Hv as [Hv|Hv]; rewrite Hv in *; cbn [Z.eqb].
    + split; [|done]. split; [by right|]. cbn [word with_word]. unfold mutex_gain. split_and!; try done; lia.
    + split; [split; [by right|]; by split_and!|]. intros _ i w Hi. split; [by right|]. rewrite debt_enter by done.
      split_and!; try done. apply clean_insert; [done|]. by intros ?? [= ->].
  - intros s q k i c R (Hv & Hk & H0 & Hl & Hc) E l Rl. replace k with (k + 1 - 1) by lia.
    apply (unlock_laws (with_waiters l s)); [done| |lia]. split; [done|]. rewrite (debt_take _ _ _ _ E).
    split; [change (one c) with 1; cbn [word with_waiters]; lia|]. split; [lia|]. split; [done|]. by apply clean_insert.
  - intros s q k i c w Hq (Hv & Hk & H0 & Hl & Hc) E Hi l Rl. exists (with_waiters l s), O. split; [done|]. split; [done|]. split; [done|].
    split; [done|]. cbn [q_pops Nat.iter]. rewrite (debt_remove _ _ _ _ E). split_and!; try done; [|by apply clean_delete].
    intros Hw. cbn in Hw. rewrite (Hl Hw) in Hi. by apply elem_of_nil in Hi.
  - intros s q k x R HJ Hx. by apply unlock_laws.
Qed.

Lemma mutex_reach_inv s k : mutex_reach s k -> exists q, lock_inv mutex_inv s q k.
Proof.
  apply (lock_reach_inv _ _ _ _ _ mutex_laws). split; [by left|]. rewrite debt_new. by split_and!; try apply clean_new.
Qed.

(** Mutual exclusion and hand-off.  After any interleaving of [lock] futures made, polled and dropped at any point,
    [try_lock] and the unlocking of permits, there is at most one holder, counting a future that was let go and not polled yet;
    no legal call panics, the assertion of [lock] included; and when a holder unlocks while others wait, the first of the line
    is ready at its next poll, even if a [try_lock], which fails, comes first. *)
Theorem mutex_exclusive s k (Hr : mutex_reach s k) : exists q, wq_rep (waiters s) q /\ 0 <= k /\ 0 <= debt one q /\ k + debt one q = word s /\ word s <= 1 /\
  (forall o, lock_legal mutex_legal s k o -> exists b s', lock_step mutex_ops o s = Ret b s') /\
  (0 < k -> exists s', unlock s = Ret tt s' /\
    match line q with
    | [] => word s' = 0
    | (h, _) :: _ => exists s1, try_lock s' = Ret false s1 /\ forall w, exists s2, fut_poll mutex_ops h w s1 = Ret true s2
    end).
Proof.
  destruct (mutex_reach_inv s k Hr) as (q & HI). exists q. pose proof HI as (R & Hp & HJ). pose proof HJ as (Hv & Hk & H0 & Hl & Hc).
  pose proof (debt_nonneg one q one_nonneg). split_and!; [done|done|done|lia|lia| |].
  - intros o Ho. destruct (lock_step_ok _ _ _ _ _ mutex_laws s q k o HI Ho) as (b & s' & _ & E & _). by exists b, s'.
  - intros Hh. destruct (unlock_run s q R) as (l & Rl & E). eexists. split; [exact E|].
    pose proof (rep_ok W _ _ R) as Hq. pose proof (unlock_inv (word s) q k Hq HJ Hh) as HJ'.
    destruct (line q) as [|[h c] ll] eqn:El; [done|]. assert (word s = 1) as Hw by (destruct Hv; [lia|done]).
    set (s' := mkLock (word s) l (futures s)) in *. exists (with_word 1 s').
    assert (try_lock s' = Ret false (with_word 1 s')) as Et by (unfold try_lock, s'; munfold; by rewrite Hw).
    split; [done|]. intros w. destruct (q_pop_cons q h c ll Hq El) as (cl & w' & Es & Ep). rewrite (Hc _ _ _ Es) in Ep.
    refine (gone_after_try _ _ _ _ _ mutex_laws s' (q_pop q) (k - 1) h c w tt false _ _ _ Et).
    + split; [done|]. split; [|done]. intros j. by apply (fut_ok_pops _ _ 1).
    + rewrite Ep. cbn. by rewrite lookup_insert_eq.
Qed.
End mutex.

(** The mutex is held and a future waits. *)
Lemma mutex_exclusive_witness : exists s : Lock (WL unit) unit, mutex_reach s 1 /\ word s = 1 /\
  exists s', unlock s = Ret tt s'.
Proof.
  eassert (mutex_reach (L := WL unit) _ 1) as Hr.
  { eapply (lock_reach_run _ _ _ _ _ _ [Try tt; Enter 7%nat tt; Poll 7%nat 70]); [apply lr_new| |vm_compute; reflexivity].
    apply legal_runb_ok. vm_compute. reflexivity. }
  eexists. split; [exact Hr|]. destruct (mutex_exclusive _ _ Hr) as (q & _ & _ & _ & _ & _ & _ & Hu).
  split; [reflexivity|]. destruct (Hu ltac:(lia)) as (s' & E & _). by exists s'.
Defined.
