(* ===== verification/RwLock.v ===== *)
(** * RwLock: the read-write lock of TinyOS ([tinyos/rust/tiny/src/rwlock.rs])

    The pieces of [LockFut] for [LockImpl]: its word is [readers], positive for shared and negative for
    exclusive locks.  [RwLock] itself adds the contents, which its guards reach only while they hold the lock, so
    the lock is what has to keep readers and writers apart. *)
From stdpp Require Import gmap list.
From S2P Require Import Prelude WaitQueue WaitList WaitListSpec LockFut.

(** src: tinyos/rust/tiny/src/rwlock.rs 473-478 [Access] *)
Inductive Access := Shared | Exclusive.
#[export] Instance Access_eq_dec : EqDecision Access.
Proof. solve_decision. Defined.

Definition isize_MAX : Z := 2 ^ 63 - 1.
Definition isize_MIN : Z := - 2 ^ 63.

Section rwlock.
Context {L : Type} `{W : WaitQueue L (Meta Access)}.
Local Abbreviation LockImpl := (Lock L (Meta Access)).
Implicit Types (s : Lock L (Meta Access)) (q : WQ (Meta Access)).

(** src: tinyos/rust/tiny/src/rwlock.rs 235-244 [RwLock::new] *)
Definition rwlock_new : LockImpl := mkLock 0 wq_new ∅.

(** src: tinyos/rust/tiny/src/rwlock.rs 284-300 [LockImpl::try_lock_shared] *)
Definition try_lock_shared : M LockImpl bool :=
  let! empty := on_waiters wq_is_empty in
  if negb empty then m_ret false
  else
    let! s := m_get in
    if (0 <=? word s) && (word s <? isize_MAX) then set_word (word s + 1) >>; m_ret true else m_ret false.

(** src: tinyos/rust/tiny/src/rwlock.rs 367-377 [LockImpl::try_lock_exclusive] *)
Definition try_lock_exclusive : M LockImpl bool :=
  let! s := m_get in if word s =? 0 then set_word (-1) >>; m_ret true else m_ret false.

(** src: tinyos/rust/tiny/src/rwlock.rs 410-421 [the closure of wake_while]
    Also lines 307-318.  The counter it changes is its environment. *)
Definition count_shared (c : Meta Access) (r : Z) : bool * Z :=
  match meta c with
  | Shared => if r <? isize_MAX then (true, r + 1) else (false, r)
  | Exclusive => (false, r)
  end.
Definition wake_shared : M LockImpl unit :=
  let! s := m_get in let! r := on_waiters (wake_while count_shared (word s)) in set_word r.2.
(** [wake_head_if] for one kind of access. *)
Definition wake_access (a : Access) : M LockImpl bool :=
  let! r := on_waiters (wq_wake_head_if (fun c e => (bool_decide (meta c = a), e)) tt) in m_ret r.1.

(** src: tinyos/rust/tiny/src/rwlock.rs 302-320 [LockImpl::process_exclusive_cancellation] *)
Definition process_exclusive_cancellation : M LockImpl unit :=
  let! s := m_get in if 0 <=? word s then wake_shared else m_ret tt.

(** src: tinyos/rust/tiny/src/rwlock.rs 385-424 [LockImpl::release_exclusive]
    With its [debug_assert!], after which the additions cannot overflow. *)
Definition release_exclusive : M LockImpl unit :=
  let! s := m_get in
  let prev := word s in
  if negb (prev <? 0) then m_fault ExplicitPanic
  else
    set_word (prev + 1) >>;
    if prev =? -1 then
      let! woke := wake_access Exclusive in
      if woke : bool then set_word (-1) else wake_shared
    else m_ret tt.

(** src: tinyos/rust/tiny/src/rwlock.rs 432-468 [LockImpl::release_shared] *)
Definition release_shared : M LockImpl unit :=
  let! s := m_get in
  let prev := word s in
  if negb (0 <? prev) then m_fault ExplicitPanic
  else
    set_word (prev - 1) >>;
    if prev =? 1 then let! woke := wake_access Exclusive in if woke : bool then set_word (-1) else m_ret tt
    else if prev =? isize_MAX then let! woke := wake_access Shared in if woke : bool then set_word isize_MAX else m_ret tt
    else m_ret tt.

(** src: tinyos/rust/tiny/src/rwlock.rs 485-494 [SharedInternal::clone]
    What [SharedGuard::map_split] does to the lock. *)
Definition clone_shared : M LockImpl unit :=
  let! s := m_get in if word s =? isize_MAX then m_fault ExplicitPanic else set_word (word s + 1).
(** src: tinyos/rust/tiny/src/rwlock.rs 597-606 [ExclusiveInternal::clone]
    What [map_split] of [ActionPermit] and [ExclusiveGuard] does to the lock. *)
Definition clone_exclusive : M LockImpl unit :=
  let! s := m_get in if word s =? isize_MIN then m_fault ExplicitPanic else set_word (word s - 1).

(** The calls on guards: dropping one (lines 496-502, 608-617), splitting one. *)
Inductive guard_op := DropGuard (a : Access) | SplitGuard (a : Access).
Definition guard_step (x : guard_op) : M LockImpl unit :=
  match x with
  | DropGuard Shared => release_shared
  | DropGuard Exclusive => release_exclusive
  | SplitGuard Shared => clone_shared
  | SplitGuard Exclusive => clone_exclusive
  end.

(** The pieces of the future of a lock attempt: what it tries, its cleanup, and its trap, which runs when it is dropped while
    it waits, after its node was taken out of the line. *)
Record attempt := mkAttempt { at_try : M LockImpl bool; at_cleanup : M LockImpl unit; at_trap : M LockImpl unit }.
(** src: tinyos/rust/tiny/src/rwlock.rs 256-282 [LockImpl::lock_shared] *)
Definition lock_shared : attempt := mkAttempt try_lock_shared release_shared (m_ret tt).
(** src: tinyos/rust/tiny/src/rwlock.rs 322-365 [LockImpl::lock_exclusive]
    Its cleanup disarms the trap first. *)
Definition lock_exclusive : attempt := mkAttempt try_lock_exclusive release_exclusive process_exclusive_cancellation.
Definition attempt_for (c : Meta Access) : attempt := match meta c with Shared => lock_shared | Exclusive => lock_exclusive end.
Definition rwlock_ops : LockOps L (Meta Access) guard_op :=
  mkLockOps (fun c => at_try (attempt_for c)) (fun _ => m_ret tt) (fun c => at_cleanup (attempt_for c))
    (fun c => at_trap (attempt_for c)) guard_step.

(** ** Holders: shared, exclusive, and how many exclusive ones were split off so far *)

Record held := mkHeld { h_shared : Z; h_excl : Z; h_split : Z }.
Definition rw_gain (c : Meta Access) (k : held) : held :=
  match meta c with
  | Shared => mkHeld (h_shared k + 1) (h_excl k) (h_split k)
  | Exclusive => mkHeld (h_shared k) (h_excl k + 1) (h_split k)
  end.
(** A guard is dropped or split by its owner; one more than the counter holds is a panic. *)
Definition rw_legal (x : guard_op) (v : Z) (k : held) : Prop :=
  match x with
  | DropGuard Shared => 0 < h_shared k
  | DropGuard Exclusive => 0 < h_excl k
  | SplitGuard Shared => 0 < h_shared k /\ v <> isize_MAX
  | SplitGuard Exclusive => 0 < h_excl k /\ v <> isize_MIN
  end.
Definition rw_effect (x : guard_op) (k : held) : held :=
  match x with
  | DropGuard Shared => mkHeld (h_shared k - 1) (h_excl k) (h_split k)
  | DropGuard Exclusive => mkHeld (h_shared k) (h_excl k - 1) (h_split k)
  | SplitGuard Shared => mkHeld (h_shared k + 1) (h_excl k) (h_split k)
  | SplitGuard Exclusive => mkHeld (h_shared k) (h_excl k + 1) (h_split k + 1)
  end.
Definition rw_reach : LockImpl -> held -> Prop := lock_reach rw_gain rw_legal rw_effect rwlock_ops 0 (mkHeld 0 0 0).
End rwlock.

(** ** The invariant *)

Section proofs.
Context {L : Type} `{W : WaitQueue L (Meta Access)} {WL : WaitQueueLaws W}.
Implicit Types (s : Lock L (Meta Access)) (q : WQ (Meta Access)).

Definition n_shared (c : Meta Access) : Z := match meta c with Shared => 1 | Exclusive => 0 end.
Definition n_excl (c : Meta Access) : Z := match meta c with Shared => 0 | Exclusive => 1 end.
(** Everyone with access, whether polled since or not. *)
Definition readers q (k : held) : Z := h_shared k + debt n_shared q.
Definition writers q (k : held) : Z := h_excl k + debt n_excl q.
Definition head_not (a : Access) (l : list (nat * Meta Access)) : Prop := match l with x :: _ => meta x.2 <> a | [] => True end.

Record rw_inv (v : Z) q (k : held) : Prop := mkRwInv {
  ri_word : v = readers q k - writers q k;
  ri_excl : readers q k = 0 \/ writers q k = 0;
  ri_held : 0 <= h_shared k /\ 0 <= h_excl k /\ 0 <= h_split k;
  ri_range : isize_MIN <= v <= isize_MAX;
  ri_split : writers q k <= 1 + h_split k;
  ri_free : v = 0 -> line q = [];
  ri_head : 0 <= v < isize_MAX -> head_not Shared (line q);
  ri_clean : q_clean q;
}.

Lemma n_shared_nonneg c : 0 <= n_shared c.
Proof. unfold n_shared. destruct (meta c); lia. Qed.
Lemma n_excl_nonneg c : 0 <= n_excl c.
Proof. unfold n_excl. destruct (meta c); lia. Qed.
Lemma debts_nonneg q : 0 <= debt n_shared q /\ 0 <= debt n_excl q.
Proof. split; apply debt_nonneg; [apply n_shared_nonneg|apply n_excl_nonneg]. Qed.

(** How many at the head of the line want shared access. *)
Fixpoint shared_prefix (l : list (nat * Meta Access)) : nat :=
  match l with x :: l' => match meta x.2 with Shared => S (shared_prefix l') | Exclusive => O end | [] => O end.

(** [wake_while] with the counting closure. *)
Lemma wake_while_shared fuel : forall q e any, q_ok q -> q_clean q -> (length (line q) < fuel)%nat -> e <= isize_MAX ->
  let n := Nat.min (Z.to_nat (isize_MAX - e)) (shared_prefix (line q)) in
  exists any', q_wake_while_from count_shared fuel e any q = Some (any', e + Z.of_nat n, q_pops n q) /\
    debt n_shared (q_pops n q) = debt n_shared q + Z.of_nat n /\ debt n_excl (q_pops n q) = debt n_excl q.
Proof.
  induction fuel as [|fuel IH]; intros q e any Hq Hc Hf He n; [lia|]. cbn [q_wake_while_from]. rewrite q_wake_head_pop by done.
  destruct (line q) as [|[h c] l] eqn:El; [|destruct (meta c) eqn:Ec].
  - exists any. unfold n. cbn [shared_prefix]. rewrite Nat.min_0_r. cbn. by rewrite !Z.add_0_r.
  - destruct (Z.ltb_spec e isize_MAX) as [Hm|Hm].
    + assert (count_shared c e = (true, e + 1)) as -> by (unfold count_shared; by rewrite Ec, (proj2 (Z.ltb_lt _ _) Hm)). cbn [fst snd]. destruct (q_pop_cons q h c l Hq El) as (cl & w & Es & Ep).
      assert (line (q_pop q) = l) as Elp by (by rewrite Ep). cbn [length] in Hf.
      destruct (IH (q_pop q) (e + 1) true (q_pop_ok q Hq) (clean_pop q Hq Hc)) as (any' & E & D1 & D2); [rewrite Elp; lia|lia|].
      rewrite Elp in E, D1, D2. set (m := Nat.min (Z.to_nat (isize_MAX - (e + 1))) (shared_prefix l)) in *. assert (n = S m) as En.
      { unfold n, m. cbn [shared_prefix snd]. rewrite Ec. lia. }
      rewrite En, q_pops_S. exists any'. split; [by replace (e + Z.of_nat (S m)) with (e + 1 + Z.of_nat m) by lia|]. rewrite D1, D2.
      rewrite !(debt_pop _ q h c l Hq Hc El). assert (n_shared c = 1) by (unfold n_shared; by rewrite Ec).
      assert (n_excl c = 0) by (unfold n_excl; by rewrite Ec). split; lia.
    + assert (count_shared c e = (false, e)) as -> by (unfold count_shared; by rewrite Ec, (proj2 (Z.ltb_ge _ _) Hm)).
      exists any. assert (n = O) as -> by (unfold n; lia). cbn. by rewrite !Z.add_0_r.
  - assert (count_shared c e = (false, e)) as -> by (unfold count_shared; by rewrite Ec). exists any. unfold n. cbn [shared_prefix snd]. rewrite Ec, Nat.min_0_r. cbn. by rewrite !Z.add_0_r.
Qed.

Lemma wake_shared_run s q : wq_rep (waiters s) q -> q_clean q -> word s <= isize_MAX ->
  let n := Nat.min (Z.to_nat (isize_MAX - word s)) (shared_prefix (line q)) in
  exists l, wake_shared s = Ret tt (mkLock (word s + Z.of_nat n) l (futures s)) /\ wq_rep l (q_pops n q) /\
    debt n_shared (q_pops n q) = debt n_shared q + Z.of_nat n /\ debt n_excl (q_pops n q) = debt n_excl q.
Proof.
  intros R Hc Hw n. pose proof (rep_ok W _ _ R) as Hq.
  destruct (wake_while_shared (S (length (line q))) q (word s) false Hq Hc ltac:(lia) Hw) as (any & E & D1 & D2).
  destruct (wake_while_ok count_shared (word s) (waiters s) q _ _ R E) as (l & El & Rl). exists l. split_and!; try done.
  unfold wake_shared. rewrite (m_bind_Ret _ _ _ s s) by done. by rewrite (m_bind_Ret _ _ _ _ _ (on_waiters_Ret _ _ _ _ El)).
Qed.

Lemma wake_access_run a s q : wq_rep (waiters s) q ->
  let b := match line q with (_, c) :: _ => bool_decide (meta c = a) | [] => false end in
  exists l, wake_access a s = Ret b (with_waiters l s) /\ wq_rep l (if b then q_pop q else q).
Proof.
  intros R b. pose proof (rep_ok W _ _ R) as Hq.
  destruct (wq_wake_ok unit (fun c e => (bool_decide (meta c = a), e)) tt (waiters s) q (b, tt) (if b then q_pop q else q) R) as (l & E & Rl).
  { rewrite q_wake_head_pop by done. unfold b. destruct (line q) as [|[h c] l]; [done|]. cbn [fst snd]. by destruct (bool_decide (meta c = a)). }
  exists l. split; [|done]. unfold wake_access. by rewrite (m_bind_Ret _ _ _ _ _ (on_waiters_Ret _ _ _ _ E)).
Qed.

(** After the shared ones at the head were woken, the next is exclusive, or the counter is full. *)
Lemma shared_prefix_head l m : (shared_prefix l <= m)%nat -> head_not Shared (drop (Nat.min m (shared_prefix l)) l).
Proof.
  intros Hm. rewrite Nat.min_r by done. clear Hm. induction l as [|x l IH]; [done|]. cbn. destruct (meta x.2) eqn:E; [done|]. cbn. congruence.
Qed.
(** ** Handing the lock over *)

Definition held_ok (k : held) : Prop := 0 <= h_shared k /\ 0 <= h_excl k /\ 0 <= h_split k.

Lemma inv_give_exclusive q k h c l : q_ok q -> q_clean q -> held_ok k -> readers q k = 0 -> writers q k = 0 ->
  line q = (h, c) :: l -> meta c = Exclusive -> rw_inv (-1) (q_pop q) k.
Proof.
  intros Hq Hc Hk Hr Hw El Ec. unfold readers, writers in *. pose proof (debt_pop n_shared q h c l Hq Hc El) as D1.
  pose proof (debt_pop n_excl q h c l Hq Hc El) as D2. assert (n_shared c = 0) by (unfold n_shared; by rewrite Ec). assert (n_excl c = 1) by (unfold n_excl; by rewrite Ec).
  unfold held_ok in Hk. split; unfold readers, writers; try lia; try (unfold isize_MIN, isize_MAX; lia); try done. by apply clean_pop.
Qed.

Lemma inv_give_shared q k : q_ok q -> q_clean q -> held_ok k -> writers q k = 0 -> readers q k <= isize_MAX ->
  (readers q k = 0 -> head_not Exclusive (line q)) ->
  let n := Nat.min (Z.to_nat (isize_MAX - readers q k)) (shared_prefix (line q)) in
  debt n_shared (q_pops n q) = debt n_shared q + Z.of_nat n -> debt n_excl (q_pops n q) = debt n_excl q ->
  rw_inv (readers q k + Z.of_nat n) (q_pops n q) k.
Proof.
  intros Hq Hc Hk Hw Hr Hh n D1 D2. pose proof (debts_nonneg q) as [Hns Hne]. unfold held_ok in Hk.
  destruct (q_pops_line n q Hq) as [El _]. unfold readers, writers in *. assert (0 < isize_MAX) by done. assert (isize_MIN <= 0) by done.
  split; unfold readers, writers; try lia; [| |by apply clean_pops]; rewrite El.
  - intros Hz. assert (n = O) as Hn by lia. rewrite Hn. unfold n in Hn. specialize (Hh ltac:(lia)).
    destruct (line q) as [|x l]; [done|]. cbn [head_not shared_prefix] in *. destruct (meta x.2); [lia|done].
  - intros Hlt. apply shared_prefix_head. lia.
Qed.

Lemma rw_inv_ok v q k : rw_inv v q k -> held_ok k.
Proof. by intros []. Qed.

Lemma head_cases a (l : list (nat * Meta Access)) :
  (exists h c l', l = (h, c) :: l' /\ meta c = a /\ bool_decide (meta c = a) = true) \/
  (head_not a l /\ match l with (_, c) :: _ => bool_decide (meta c = a) | [] => false end = false).
Proof.
  destruct l as [|[h c] l]; [by right|]. destruct (decide (meta c = a)) as [Ha|Ha].
  - left. exists h, c, l. split; [done|]. split; [done|]. by apply bool_decide_eq_true.
  - right. split; [done|]. by apply bool_decide_eq_false.
Qed.

(** The last exclusive lock goes: to the first of the line if it wants exclusive access, otherwise to all the shared ones
    that are in front. *)
Lemma release_last_exclusive s q k : wq_rep (waiters s) q -> rw_inv (word s) q k -> 0 < h_excl k -> word s = -1 ->
  exists l v n, release_exclusive s = Ret tt (mkLock v l (futures s)) /\ wq_rep l (q_pops n q) /\
    rw_inv v (q_pops n q) (rw_effect (DropGuard Exclusive) k) /\
    (~ head_not Exclusive (line q) /\ v = -1 /\ n = 1%nat \/
     head_not Exclusive (line q) /\ v = Z.of_nat n /\ n = Nat.min (Z.to_nat isize_MAX) (shared_prefix (line q))).
Proof.
  intros R [Hw He Hk Hrg Hsp Hf Hh Hc] H0 Hv. pose proof (rep_ok W _ _ R) as Hq. pose proof (debts_nonneg q) as [? ?].
  set (k' := rw_effect (DropGuard Exclusive) k).
  assert (readers q k' = 0 /\ writers q k' = 0 /\ held_ok k') as (Hr' & Hw' & Hk').
  { unfold k', held_ok, readers, writers in *. cbn. lia. }
  destruct (wake_access_run Exclusive (with_word 0 s) q R) as (l1 & E1 & R1). unfold release_exclusive.
  rewrite (m_bind_Ret _ _ _ s s) by done. cbn zeta. rewrite Hv. cbn [Z.ltb Z.compare negb Z.eqb Pos.eqb].
  rewrite (m_bind_Ret _ _ _ tt (with_word 0 s)) by done. rewrite (m_bind_Ret _ _ _ _ _ E1).
  destruct (head_cases Exclusive (line q)) as [(h & c & ll & El & Ec & Eb)|[Hn Eb]].
  - rewrite El, Eb in *. exists l1, (-1), 1%nat. split; [done|]. split; [done|]. split; [by eapply inv_give_exclusive|].
    left. split; [|done]. intros Hx. by apply Hx.
  - rewrite Eb in *. destruct (wake_shared_run (with_waiters l1 (with_word 0 s)) q R1 Hc) as (l & E & Rl & D1 & D2); [done|].
    change (word (with_waiters l1 (with_word 0 s))) with 0 in *. rewrite Z.sub_0_r in *.
    pose proof (inv_give_shared q k' Hq Hc Hk' Hw') as HI. cbn zeta in HI. rewrite Hr', Z.sub_0_r in HI.
    set (m := Nat.min (Z.to_nat isize_MAX) (shared_prefix (line q))) in *. change (0 + Z.of_nat m) with (Z.of_nat m) in *.
    exists l, (Z.of_nat m), m. split; [exact E|]. split; [exact Rl|]. split; [by apply HI|]. right. by split.
Qed.

(** [readers] when one exclusive lock of several goes. *)
Lemma release_exclusive_laws s q k : wq_rep (waiters s) q -> rw_inv (word s) q k -> 0 < h_excl k ->
  lets_go release_exclusive s q (fun v q' => rw_inv v q' (rw_effect (DropGuard Exclusive) k)).
Proof.
  intros R HJ H0. destruct (decide (word s = -1)) as [Hv|Hv].
  - destruct (release_last_exclusive s q k R HJ H0 Hv) as (l & v & n & E & Rl & HJ' & _). by exists (mkLock v l (futures s)), n.
  - pose proof (debts_nonneg q) as [? ?]. destruct HJ as [Hw He Hk Hrg Hsp Hf Hh Hc]. unfold readers, writers in *.
    assert (word s < -1) as Hlt by lia. exists (with_word (word s + 1) s), O. split; [|split; [done|split; [done|]]].
    + unfold release_exclusive. rewrite (m_bind_Ret _ _ _ s s) by done. cbn zeta.
      rewrite (proj2 (Z.ltb_lt (word s) 0)), (proj2 (Z.eqb_neq (word s) (-1))) by lia. done.
    + assert (0 < isize_MAX) by done. cbn [word with_word q_pops Nat.iter]. split; unfold readers, writers; cbn; try lia; try done; intros; lia.
Qed.

Lemma release_shared_laws s q k : wq_rep (waiters s) q -> rw_inv (word s) q k -> 0 < h_shared k ->
  lets_go release_shared s q (fun v q' => rw_inv v q' (rw_effect (DropGuard Shared) k)).
Proof.
  intros R [Hw He Hk Hrg Hsp Hf Hh Hc] H0. pose proof (rep_ok W _ _ R) as Hq. pose proof (debts_nonneg q) as [? ?].
  set (k' := rw_effect (DropGuard Shared) k). assert (readers q k' = word s - 1 /\ writers q k' = 0 /\ held_ok k') as (Hr' & Hw' & Hk').
  { unfold k', held_ok, readers, writers in *. cbn. lia. }
  assert (0 < word s) as Hpos by (unfold readers, writers in *; lia). assert (isize_MIN < 0 < isize_MAX) as Hmax by done.
  unfold lets_go, release_shared. rewrite (m_bind_Ret _ _ _ s s) by done. cbn zeta. rewrite (proj2 (Z.ltb_lt 0 (word s)) Hpos). cbn [negb].
  rewrite (m_bind_Ret _ _ _ tt (with_word (word s - 1) s)) by done.
  destruct (Z.eqb_spec (word s) 1) as [E|E]; [|destruct (Z.eqb_spec (word s) isize_MAX) as [E2|E2]].
  - destruct (wake_access_run Exclusive (with_word (word s - 1) s) q R) as (l1 & E1 & R1). rewrite (m_bind_Ret _ _ _ _ _ E1).
    specialize (Hh ltac:(unfold isize_MAX; lia)).
    destruct (head_cases Exclusive (line q)) as [(h & c & ll & El & Ec & Eb)|[Hn Eb]].
    + rewrite El, Eb in *. eexists _, 1%nat. split; [reflexivity|]. split; [exact R1|]. split; [done|].
      eapply inv_give_exclusive; try done. lia.
    + rewrite Eb in *. eexists _, O. split; [reflexivity|]. split; [exact R1|]. split; [done|]. change (q_pops 0 q) with q. cbn [word with_waiters with_word].
      assert (line q = []) as El by (destruct (line q) as [|[h c] ll]; [done|cbn in Hh, Hn; by destruct (meta c)]).
      unfold held_ok in Hk'. split; try lia; try done.
  - destruct (wake_access_run Shared (with_word (word s - 1) s) q R) as (l1 & E1 & R1). rewrite (m_bind_Ret _ _ _ _ _ E1).
    destruct (head_cases Shared (line q)) as [(h & c & ll & El & Ec & Eb)|[Hn Eb]].
    + rewrite El, Eb in *. eexists _, 1%nat. split; [reflexivity|]. split; [exact R1|]. split; [done|].
      pose proof (debt_pop n_shared q h c ll Hq Hc El) as D1. pose proof (debt_pop n_excl q h c ll Hq Hc El) as D2.
      assert (n_shared c = 1) as Dc by (unfold n_shared; by rewrite Ec). assert (n_excl c = 0) as Dc' by (unfold n_excl; by rewrite Ec).
      change (q_pops 1 q) with (q_pop q). cbn [word with_word]. unfold held_ok, readers, writers in *.
      split; unfold readers, writers; try lia. by apply clean_pop.
    + rewrite Eb in *. eexists _, O. split; [reflexivity|]. split; [exact R1|]. split; [done|]. change (q_pops 0 q) with q. cbn [word with_waiters with_word].
      unfold held_ok in Hk'. split; try lia; try done.
  - eexists _, O. split; [reflexivity|]. split; [exact R|]. split; [done|]. change (q_pops 0 q) with q. cbn [word with_waiters with_word].
    unfold held_ok in Hk'. split; try lia; try done. intros _. apply Hh. lia.
Qed.

Lemma clone_shared_laws s q k : rw_inv (word s) q k -> 0 < h_shared k -> word s <> isize_MAX ->
  clone_shared s = Ret tt (with_word (word s + 1) s) /\ rw_inv (word s + 1) q (rw_effect (SplitGuard Shared) k).
Proof.
  intros [Hw He Hk Hrg Hsp Hf Hh Hc] H0 Hm. pose proof (debts_nonneg q) as [? ?]. unfold readers, writers in *. split.
  - unfold clone_shared. munfold. by rewrite (proj2 (Z.eqb_neq _ _) Hm).
  - split; unfold readers, writers; cbn [rw_effect h_shared h_excl h_split]; try lia; try done; intros; first [lia|apply Hh; lia].
Qed.

Lemma clone_exclusive_laws s q k : rw_inv (word s) q k -> 0 < h_excl k -> word s <> isize_MIN ->
  clone_exclusive s = Ret tt (with_word (word s - 1) s) /\ rw_inv (word s - 1) q (rw_effect (SplitGuard Exclusive) k).
Proof.
  intros [Hw He Hk Hrg Hsp Hf Hh Hc] H0 Hm. pose proof (debts_nonneg q) as [? ?]. unfold readers, writers in *.
  assert (0 < isize_MAX) by done. split.
  - unfold clone_exclusive. munfold. by rewrite (proj2 (Z.eqb_neq _ _) Hm).
  - split; unfold readers, writers; cbn [rw_effect h_shared h_excl h_split]; try lia; try done; intros; lia.
Qed.

Lemma guard_laws s q k x : wq_rep (waiters s) q -> rw_inv (word s) q k -> rw_legal x (word s) k ->
  lets_go (guard_step x) s q (fun v q' => rw_inv v q' (rw_effect x k)).
Proof.
  intros R HJ Hx. destruct x as [[]|[]]; cbn [guard_step rw_legal] in *.
  - by apply release_shared_laws.
  - by apply release_exclusive_laws.
  - destruct Hx as [H0 Hm]. destruct (clone_shared_laws s q k HJ H0 Hm) as [E HJ']. by exists (with_word (word s + 1) s), O.
  - destruct Hx as [H0 Hm]. destruct (clone_exclusive_laws s q k HJ H0 Hm) as [E HJ']. by exists (with_word (word s - 1) s), O.
Qed.

(** Joining the line after a failed try. *)
Lemma head_enter a i (c : Meta Access) l : head_not a l -> (l = [] -> meta c <> a) -> head_not a (ins (i, c) l).
Proof. intros Hh Hc. rewrite ins_last by done. destruct l as [|x l]; [by apply Hc|done]. Qed.

Lemma inv_enter v q k i c w : rw_inv v q k -> st q !! i = None -> v <> 0 ->
  (meta c = Shared -> line q = [] -> v < 0 \/ v = isize_MAX) -> rw_inv v (q_enter i c w q) k.
Proof.
  intros [Hw He Hk Hrg Hsp Hf Hh Hc] Hi Hv Hs.
  split; unfold readers, writers; rewrite ?debt_enter by done; fold (readers q k) (writers q k); try done.
  - intros Hm. apply head_enter; [by apply Hh|]. intros El Ec. destruct (Hs Ec El); lia.
  - apply clean_insert; [done|]. by intros ?? [= ->].
Qed.

Lemma try_lock_shared_laws s q k : wq_rep (waiters s) q -> rw_inv (word s) q k ->
  exists b s', try_lock_shared s = Ret b s' /\ wq_rep (waiters s') q /\ futures s' = futures s /\
    rw_inv (word s') q (if b then rw_gain (mkMeta Shared) k else k) /\
    (b = false -> forall i w, st q !! i = None -> rw_inv (word s') (q_enter i (mkMeta Shared) w q) k).
Proof.
  intros R HJ. destruct (wq_empty_ok (waiters s) q _ q R eq_refl) as (l & E & Rl).
  unfold try_lock_shared. rewrite (m_bind_Ret _ _ _ _ _ (on_waiters_Ret _ _ _ _ E)). pose proof HJ as [Hw He Hk Hrg Hsp Hf Hh Hc].
  destruct (line q) as [|x ll] eqn:El; cbn [negb].
  - rewrite (m_bind_Ret _ _ _ (with_waiters l s) (with_waiters l s)) by done. cbn [word with_waiters].
    destruct ((0 <=? word s) && (word s <? isize_MAX)) eqn:Eb; bool_to_prop.
    + exists true. eexists. split; [reflexivity|]. split; [done|]. split; [done|]. split; [|done]. cbn [word with_word].
      pose proof (debts_nonneg q) as [? ?]. unfold readers, writers in *. split; unfold readers, writers; cbn [rw_gain meta h_shared h_excl h_split]; try lia; try done. by rewrite El.
    + exists false. eexists. split; [reflexivity|]. split; [done|]. split; [done|]. split; [done|]. intros _ i w Hi. cbn [word with_waiters].
      assert (word s <> 0) by (intros Hz; assert (0 < isize_MAX) by done; lia).
      apply inv_enter; try done. intros _ _. lia.
  - exists false. eexists. split; [reflexivity|]. split; [done|]. split; [done|]. split; [done|]. intros _ i w Hi. cbn [word with_waiters].
    apply inv_enter; [done|done| |by rewrite El]. intros Hz. by specialize (Hf Hz).
Qed.

Lemma try_lock_exclusive_laws s q k : wq_rep (waiters s) q -> rw_inv (word s) q k ->
  exists b s', try_lock_exclusive s = Ret b s' /\ wq_rep (waiters s') q /\ futures s' = futures s /\
    rw_inv (word s') q (if b then rw_gain (mkMeta Exclusive) k else k) /\
    (b = false -> forall i w, st q !! i = None -> rw_inv (word s') (q_enter i (mkMeta Exclusive) w q) k).
Proof.
  intros R HJ. unfold try_lock_exclusive. rewrite (m_bind_Ret _ _ _ s s) by done. destruct (Z.eqb_spec (word s) 0) as [E|E].
  - exists true, (with_word (-1) s). split; [done|]. split; [done|]. split; [done|]. split; [|done].
    destruct HJ as [Hw He Hk Hrg Hsp Hf Hh Hc]. pose proof (debts_nonneg q) as [? ?]. unfold readers, writers in *. assert (isize_MIN < -1 < isize_MAX) by done.
    split; unfold readers, writers; cbn [rw_gain meta h_shared h_excl h_split word with_word]; try lia; done.
  - exists false, s. split; [done|]. split; [done|]. split; [done|]. split; [done|]. intros _ i w Hi. by apply inv_enter.
Qed.
(** What is owed becomes held. *)
Lemma inv_take v q k i c : rw_inv v q k -> st q !! i = Some (Gone c true) -> rw_inv v (q_set i (Gone c false) q) (rw_gain c k).
Proof.
  intros [Hw He Hk Hrg Hsp Hf Hh Hc] E. pose proof (debt_take n_shared q i c E) as D1. pose proof (debt_take n_excl q i c E) as D2.
  pose proof (debt_owes n_shared q i c n_shared_nonneg E). pose proof (debt_owes n_excl q i c n_excl_nonneg E).
  unfold rw_gain. destruct (meta c) eqn:Ec.
  all: assert (n_shared c = match meta c with Shared => 1 | Exclusive => 0 end) as E1 by done; rewrite Ec in E1.
  all: assert (n_excl c = match meta c with Shared => 0 | Exclusive => 1 end) as E2 by done; rewrite Ec in E2.
  all: unfold readers, writers in *; split; unfold readers, writers; cbn [h_shared h_excl h_split]; try lia; try done; by apply clean_insert.
Qed.

(** A cancelled attempt leaves the line; if it was exclusive, it may have been in the way of shared ones. *)
Lemma inv_cancel_shared v q k i c : q_ok q -> rw_inv v q k -> (i, c) ∈ line q -> meta c = Shared -> (exists w, st q !! i = Some (Waiting true w)) ->
  rw_inv v (q_remove i q) k.
Proof.
  intros Hq [Hw He Hk Hrg Hsp Hf Hh Hc] Hi Ec [w E].
  split; unfold readers, writers; rewrite ?(debt_remove _ _ _ _ E); fold (readers q k) (writers q k); try done; [| |by apply clean_delete].
  - intros Hz. rewrite (Hf Hz) in Hi. by apply elem_of_nil in Hi.
  - intros Hm. specialize (Hh Hm). cbn [line q_remove]. destruct (line q) as [|[h d] l] eqn:El; [done|].
    destruct (decide (h = i)) as [->|Hne]; [|by rewrite filter_cons_True].
    exfalso. apply elem_of_cons in Hi as [[= ->]|Hi]; [done|]. destruct Hq as [Hn _]. rewrite El, fmap_cons in Hn.
    apply list.NoDup_cons in Hn as [Hx _]. apply Hx. by apply (list_elem_of_fmap_2 fst) in Hi.
Qed.

Lemma inv_cancel_exclusive s q k i w l : q_ok q -> rw_inv (word s) q k -> (exists c, (i, c) ∈ line q) -> st q !! i = Some (Waiting true w) ->
  wq_rep l (q_remove i q) ->
  lets_go process_exclusive_cancellation (with_waiters l s) (q_remove i q) (fun v q' => rw_inv v q' k).
Proof.
  intros Hq [Hw He Hk Hrg Hsp Hf Hh Hc] [c Hi] E Rl. assert (word s <> 0) as Hz by (intros Hz; rewrite (Hf Hz) in Hi; by apply elem_of_nil in Hi).
  assert (readers (q_remove i q) k = readers q k /\ writers (q_remove i q) k = writers q k) as [Er Ew]
    by (unfold readers, writers; by rewrite !(debt_remove _ _ _ _ E)).
  assert (q_clean (q_remove i q)) as Hc' by (by apply clean_delete).
  unfold lets_go, process_exclusive_cancellation. rewrite (m_bind_Ret _ _ _ (with_waiters l s) (with_waiters l s)) by done. cbn [word with_waiters].
  pose proof (debts_nonneg q) as [Hns Hne]. destruct (Z.leb_spec 0 (word s)) as [Hge|Hlt].
  - assert (writers q k = 0 /\ word s = readers q k) as [Hw0 Hwr] by (unfold readers, writers in *; lia).
    destruct (wake_shared_run (with_waiters l s) (q_remove i q) Rl Hc') as (l' & E' & Rl' & D1 & D2); [cbn; lia|].
    eexists _, _. split; [exact E'|]. split; [exact Rl'|]. split; [done|]. cbn [word with_waiters] in *. rewrite Hwr, <-Er in *.
    apply inv_give_shared; try done; [by apply q_remove_ok|by rewrite Ew|lia].
  - eexists _, O. split; [reflexivity|]. split; [done|]. split; [done|]. change (q_pops 0 (q_remove i q)) with (q_remove i q). cbn [word with_waiters].
    split; rewrite ?Er, ?Ew; try done; intros; lia.
Qed.

Lemma rw_laws : LockLaws rw_gain rw_legal rw_effect rw_inv rwlock_ops.
Proof.
  constructor.
  - intros v q k i w w' [Hw He Hk Hrg Hsp Hf Hh Hc] E. split; unfold readers, writers; rewrite ?(debt_waker _ _ _ _ _ E); try done.
    apply clean_insert; [done|]. by intros ?? [= ->].
  - intros v q k i c [Hw He Hk Hrg Hsp Hf Hh Hc] E. split; unfold readers, writers; rewrite ?(debt_forget _ _ _ _ E); try done.
    by apply clean_delete.
  - intros v q k i c HJ E. by apply inv_take.
  - done.
  - intros s q k [[]] R HJ; [by apply try_lock_shared_laws|by apply try_lock_exclusive_laws].
  - intros s q k i c R HJ E l Rl. pose proof (inv_take _ _ _ _ _ HJ E) as HJ1.
    assert (rw_effect (DropGuard (meta c)) (rw_gain c k) = k) as Ek.
    { unfold rw_gain. destruct k as [a b d], (meta c); cbn; f_equal; lia. }
    pose proof (ri_held _ _ _ HJ) as Hk. rewrite <-Ek. destruct c as [[]]; cbn [meta rw_gain] in *.
    + apply (release_shared_laws (with_waiters l s)); [done|done|cbn; lia].
    + apply (release_exclusive_laws (with_waiters l s)); [done|done|cbn; lia].
  - intros s q k i c w Hq HJ E Hi l Rl. destruct c as [[]]; cbn [rwlock_ops lo_cancelled attempt_for meta lock_shared lock_exclusive at_trap].
    + exists (with_waiters l s), O. split; [done|]. split; [done|]. split; [done|]. eapply inv_cancel_shared; try done. by exists w.
    + eapply inv_cancel_exclusive; try done. by exists (mkMeta Exclusive).
  - intros s q k x R HJ Hx. by apply guard_laws.
Qed.

Lemma rw_reach_inv s k : rw_reach s k -> exists q, lock_inv rw_inv s q k.
Proof.
  apply (lock_reach_inv _ _ _ _ _ rw_laws). split; unfold readers, writers; rewrite ?debt_new; cbn; try lia; try done.
Qed.

(** C21. Readers and writers.  After any interleaving of shared and exclusive attempts made, polled and dropped at any point, of
    tries, and of guards dropped and split: there are no readers while there is a writer, counting those who were let in
    and have not been polled since; there is at most one writer, unless an exclusive guard was split; the counter is their number, with its sign;
    nobody waits for a free lock, and as long as readers can come in the first of the line is a writer; a try for shared access
    fails when anyone waits; and no legal call panics, the debug assertions included. *)
Theorem rwlock_excludes s k (Hr : rw_reach s k) : exists q, wq_rep (waiters s) q /\
  (readers q k = 0 \/ writers q k = 0) /\ 0 <= h_shared k <= readers q k /\ 0 <= h_excl k <= writers q k /\ writers q k <= 1 + h_split k /\
  word s = readers q k - writers q k /\
  (word s = 0 -> line q = []) /\ (0 <= word s < isize_MAX -> head_not Shared (line q)) /\
  (line q <> [] -> forall b s', try_lock_shared s = Ret b s' -> b = false) /\
  (forall o, lock_legal rw_legal s k o -> exists b s', lock_step rwlock_ops o s = Ret b s').
Proof.
  destruct (rw_reach_inv s k Hr) as (q & HI). exists q. pose proof HI as (R & Hp & HJ). pose proof HJ as [Hw He Hk Hrg Hsp Hf Hh Hc].
  pose proof (debts_nonneg q). split; [done|]. split; [done|]. split; [unfold readers; lia|]. split; [unfold writers; lia|]. split; [done|].
  split; [done|]. split; [done|]. split; [done|]. split.
  - intros Hl b s' E. destruct (wq_empty_ok (waiters s) q _ q R eq_refl) as (l & El & _). unfold try_lock_shared in E.
    rewrite (m_bind_Ret _ _ _ _ _ (on_waiters_Ret _ _ _ _ El)) in E. destruct (line q); [done|]. by injection E as <-.
  - intros o Ho. destruct (lock_step_ok _ _ _ _ _ rw_laws s q k o HI Ho) as (b & s' & _ & E & _). by exists b, s'.
Qed.

(** Handing over.  When the last exclusive lock goes, the first of the line gets it if it wants exclusive access; otherwise all the
    shared ones in front of the line, up to the largest count there can be, are let in at once, in order, each one's waker called; and
    whoever was let in is ready at its next poll, whatever tries come first. *)
Theorem rwlock_hands_over s k (Hr : rw_reach s k) (Hh : 0 < h_excl k) (Hw : word s = -1) : exists q, wq_rep (waiters s) q /\
  exists s' q' n, release_exclusive s = Ret tt s' /\ wq_rep (waiters s') q' /\
    line q' = drop n (line q) /\ calls q' = calls q ++ map (waker_of q) (take n (line q)) /\
    (~ head_not Exclusive (line q) /\ word s' = -1 /\ n = 1%nat \/
     head_not Exclusive (line q) /\ word s' = Z.of_nat n /\ n = Nat.min (Z.to_nat isize_MAX) (shared_prefix (line q))) /\
    forall i, i ∈ (take n (line q)).*1 -> forall c b s1, lo_try rwlock_ops c s' = Ret b s1 -> forall w, exists s2, fut_poll rwlock_ops i w s1 = Ret true s2.
Proof.
  destruct (rw_reach_inv s k Hr) as (q & R & Hp & HJ). exists q. split; [done|]. pose proof (rep_ok W _ _ R) as Hq.
  destruct (release_last_exclusive s q k R HJ Hh Hw) as (l & v & n & E & Rl & HJ' & Hn).
  exists (mkLock v l (futures s)), (q_pops n q), n. split; [done|]. split; [done|]. destruct (q_pops_line n q Hq) as [-> ->].
  split; [done|]. split; [done|]. split; [done|]. intros i Hi c b s1 E1 w. apply list_elem_of_fmap in Hi as ([i' d] & -> & Hi).
  destruct (q_pops_taken n q i' d Hq Hi) as (cl & w' & Es & Eg). rewrite (ri_clean _ _ _ HJ _ _ _ Es) in Eg.
  refine (gone_after_try _ _ _ _ _ rw_laws _ (q_pops n q) _ i' d w c b s1 _ Eg E1).
  split; [exact Rl|]. split; [|exact HJ']. intros j. by apply fut_ok_pops.
Qed.
End proofs.

(** A writer holds the lock, three readers and a writer wait, and the first of the readers gives up. *)
Definition rw_demo : list (lock_op (Meta Access) guard_op) :=
  [Try (mkMeta Exclusive); Enter 7%nat (mkMeta Shared); Poll 7%nat 70; Enter 8%nat (mkMeta Shared); Poll 8%nat 80;
   Enter 9%nat (mkMeta Shared); Poll 9%nat 90; Enter 10%nat (mkMeta Exclusive); Poll 10%nat 100; Drop 7%nat].
Lemma rw_demo_reach : exists s, rw_reach (L := WL (Meta Access)) s (mkHeld 0 1 0) /\ word s = -1.
Proof.
  eexists. split.
  - eapply (lock_reach_run _ _ _ _ _ _ rw_demo); [apply lr_new| |vm_compute; reflexivity].
    apply legal_runb_ok. vm_compute. reflexivity.
  - reflexivity.
Defined.

Lemma rwlock_excludes_witness : exists s : Lock (WL (Meta Access)) (Meta Access), rw_reach s (mkHeld 0 1 0) /\
  exists q, wq_rep (waiters s) q /\ readers q (mkHeld 0 1 0) = 0.
Proof.
  destruct rw_demo_reach as (s & Hr & Hw). exists s. split; [done|].
  destruct (rwlock_excludes s _ Hr) as (q & R & He & _ & H2 & _). exists q. split; [done|]. cbn in H2. destruct He; [done|lia].
Defined.

Lemma rwlock_hands_over_witness : exists s s' : Lock (WL (Meta Access)) (Meta Access), rw_reach s (mkHeld 0 1 0) /\ release_exclusive s = Ret tt s'.
Proof.
  destruct rw_demo_reach as (s & Hr & Hw).
  destruct (rwlock_hands_over s _ Hr ltac:(cbn; lia) Hw) as (q & R & s' & q' & n & E & _). by exists s, s'.
Defined.
