(* ===== verification/Atomic.v ===== *)
(** * Atomic: programs as sequences of atomic actions

    Code that an interrupt handler or another core may come between.  A program is written once, as a tree of atomic
    actions on a shared state; it runs alone ([run]), or one action at a time ([advance]) between the actions of
    others.  Interleaving is sequentially consistent. *)
From S2P Require Import Prelude.

(** [touch]: the memory cell the action reads or writes without an atomic instruction, if any. *)
Inductive prog (S A : Type) : Type :=
  | Done (a : A)
  | Act {X : Type} (touch : option Z) (m : M S X) (k : X -> prog S A).
Arguments Done {S A} a.
Arguments Act {S A X} touch m k.

Notation "'do!' x := m 'in' k" := (Act None m (fun x => k)) (at level 60, x name, m at level 60, k at level 60, right associativity).
Notation "'do!' x := m 'on' i 'in' k" := (Act (Some i) m (fun x => k)) (at level 60, x name, m at level 60, i at level 60, k at level 60, right associativity).

Fixpoint andthen {S A B} (p : prog S A) (f : A -> prog S B) : prog S B :=
  match p with Done a => f a | Act t m k => Act t m (fun x => andthen (k x) f) end.

Fixpoint run {S A} (p : prog S A) : M S A :=
  match p with Done a => m_ret a | Act _ m k => let! x := m in run (k x) end.

(** The next action. *)
Definition advance {S A} (p : prog S A) : M S (prog S A) :=
  match p with Done a => m_ret (Done a) | Act _ m k => let! x := m in m_ret (k x) end.

(** The cell the next action touches. *)
Definition touching {S A} (p : prog S A) : option Z := match p with Act t _ _ => t | Done _ => None end.

Lemma run_andthen {S A B} (p : prog S A) (f : A -> prog S B) s : run (andthen p f) s = (let! a := run p in run (f a)) s.
Proof.
  revert s. induction p as [a|X t m k IH]; intros s; [done|]. cbn. unfold m_bind. destruct (m s) as [x s'|]; [|done]. by rewrite IH.
Qed.

(** Running is advancing until it is done. *)
Lemma run_advance {S A} (p : prog S A) s : run p s = (let! p' := advance p in run p') s.
Proof. destruct p as [a|X t m k]; [done|]. cbn. unfold m_bind, m_ret. by destruct (m s). Qed.

(** ** Two programs, interleaved *)

Definition unfinished {S A} (p : prog S A) : Prop := match p with Done _ => False | Act _ _ _ => True end.
Inductive interleave {S A B} : prog S A -> prog S B -> S -> A -> B -> S -> Prop :=
  | i_done a b s : interleave (Done a) (Done b) s a b s
  | i_left p p' r s s1 a b s2 : unfinished p -> advance p s = Ret p' s1 -> interleave p' r s1 a b s2 -> interleave p r s a b s2
  | i_right p r r' s s1 a b s2 : unfinished r -> advance r s = Ret r' s1 -> interleave p r' s1 a b s2 -> interleave p r s a b s2.
