(* ===== verification/Exec.v ===== *)
(** * Exec: the executor, [Notify] and timers of TinyOS ([tinyos/rust/tiny/src/task.rs], [time.rs])

    A word of wake bits, the loop that polls the tasks whose bits are set, the timer list, which is a wait list
    ([WaitQueue]) ordered by deadline, the clock, and the futures built on them.  Tasks are parameters: their polls are
    any programs on the state.  What an interrupt handler may come between is written as atomic actions ([Atomic]). *)
From stdpp Require Import gmap list sorting.
From S2P Require Import Prelude Atomic WaitList WaitQueue.

(** ** Wake masks *)

(** src: tinyos/rust/tiny/src/task.rs 168-173 [wake_mask_for_index]
    Also [waker_for_task] and [extract_mask]: a waker is its mask. *)
Definition wake_mask_for_index (index : Z) : Z := Z.shiftl 1 (index mod 64).

(** ** The clock *)

(** src: tinyos/rust/tiny/src/time.rs 95-98 [TICK, EPOCH] *)
Record Clock := mkClock { TICK : Z; EPOCH : Z }.
(** src: tinyos/rust/tiny/src/time.rs 497-501 [SysTick] *)
Definition SysTick (c : Clock) : Clock :=
  mkClock (u32 (TICK c + 1)) (if TICK c =? 2 ^ 32 - 1 then u32 (EPOCH c + 1) else EPOCH c).
Definition ticks (n : nat) (c : Clock) : Clock := Nat.iter n SysTick c.
(** The time the clock shows. *)
Definition time_of (c : Clock) : Z := Z.lor (shlw 64 (EPOCH c) 32) (TICK c).

(** src: tinyos/rust/tiny/src/time.rs 122-134 [TickTime::now]
    Fuel for its loop. *)
Fixpoint now_loop (fuel : nat) : prog Clock Z :=
  match fuel with
  | O => Act None (m_fault FuelOut) Done
  | S fuel' =>
      do! e := m_gets EPOCH in
      do! t := m_gets TICK in
      do! e2 := m_gets EPOCH in
      if e =? e2 then Done (Z.lor (shlw 64 e 32) t) else now_loop fuel'
  end.
(** The interrupt comes any number of times before each action: what is left of the schedule when the program is done, its result and
    the clock. *)
Fixpoint interrupted {A} (sched : nat -> nat) (at_ : nat) (p : prog Clock A) (c : Clock) : outcome Clock (A * nat) :=
  match p with
  | Done a => Ret (a, at_) c
  | Act _ m k =>
      match m (ticks (sched at_) c) with
      | Ret x c' => interrupted sched (S at_) (k x) c'
      | Fault f => Fault f
      end
  end.

(** src: tinyos/rust/tiny/src/time.rs 158-160 [TickTime::millis_since] *)
Definition millis_since {S} (self earlier : Z) : M S Z := m_opt UnwrapNone (if earlier <=? self then Some (self - earlier) else None).
(** src: tinyos/rust/tiny/src/time.rs 177-179 [TickTime::checked_add] *)
Definition checked_add (self millis : Z) : option Z := if self + millis <? 2 ^ 64 then Some (self + millis) else None.
(** src: tinyos/rust/tiny/src/time.rs 183-185 [TickTime::checked_sub] *)
Definition checked_sub (self millis : Z) : option Z := if millis <=? self then Some (self - millis) else None.
(** src: tinyos/rust/tiny/src/time.rs 229-234 [TickTime::add] *)
Definition tick_add (self other : Z) : Z := usize (self + other).

(** ** The system *)

Record Os (L U : Type) := mkOs {
  WAKE_BITS : Z;
  timers : L;
  clock : Clock;
  sleepers : gmap nat (Z * bool);    (** the futures of [sleep_until]: the deadline, and whether it has joined the list *)
  polled : list nat;                 (** the tasks polled, in order *)
  idles : nat;                       (** how often the idle hook was called *)
  user : U;                          (** what the tasks work on *)
}.
Arguments mkOs {L U} WAKE_BITS timers clock sleepers polled idles user.
Arguments WAKE_BITS {L U} o.
Arguments timers {L U} o.
Arguments clock {L U} o.
Arguments sleepers {L U} o.
Arguments polled {L U} o.
Arguments idles {L U} o.
Arguments user {L U} o.

Section exec.
Context {L U : Type} `{W : WaitQueue L Z}.
Implicit Types s : Os L U.

Definition with_bits b s : Os L U := mkOs b (timers s) (clock s) (sleepers s) (polled s) (idles s) (user s).
Definition with_timers t s : Os L U := mkOs (WAKE_BITS s) t (clock s) (sleepers s) (polled s) (idles s) (user s).
Definition with_sleepers f s : Os L U := mkOs (WAKE_BITS s) (timers s) (clock s) f (polled s) (idles s) (user s).
Definition with_polled p s : Os L U := mkOs (WAKE_BITS s) (timers s) (clock s) (sleepers s) p (idles s) (user s).
Definition with_idles n s : Os L U := mkOs (WAKE_BITS s) (timers s) (clock s) (sleepers s) (polled s) n (user s).

(** src: tinyos/rust/tiny/src/task.rs 909-911 [wake_tasks_by_mask] *)
Definition wake_tasks_by_mask (mask : Z) : M (Os L U) unit := m_modify (fun s => with_bits (Z.lor (WAKE_BITS s) mask) s).
(** src: tinyos/rust/tiny/src/task.rs 919-921 [wake_task_by_index] *)
Definition wake_task_by_index (index : Z) : M (Os L U) unit := wake_tasks_by_mask (wake_mask_for_index index).

Definition on_timers {A} (m : M L A) : M (Os L U) A := fun s =>
  match m (timers s) with Ret a l => Ret a (with_timers l s) | Fault f => Fault f end.
(** The wakers of the list are the executor's: each one called sets its bits. *)
Definition waking {A} (m : M L A) : M (Os L U) A :=
  let! s := m_get in
  let! a := on_timers m in
  let! s' := m_get in
  m_for (drop (length (wq_calls (timers s))) (wq_calls (timers s'))) wake_tasks_by_mask >>; m_ret a.

(** src: tinyos/rust/tiny/src/task.rs 554-558 [the scan for expired timers] *)
Definition expire (now : Z) : M (Os L U) bool :=
  let! r := waking (wake_while (fun t e => (t <=? now, e)) tt) in m_ret r.1.

(** src: tinyos/rust/tiny/src/task.rs 286-291 [poll_task] *)
Definition poll_task (index : nat) (future : M (Os L U) unit) : M (Os L U) unit :=
  m_modify (fun s => with_polled (polled s ++ [index]) s) >>; future.

(** src: tinyos/rust/tiny/src/task.rs 566-570 [the loop over the futures] *)
Fixpoint poll_woken (mask : Z) (i : nat) (futures : list (M (Os L U) unit)) : M (Os L U) unit :=
  match futures with
  | [] => m_ret tt
  | f :: futures' =>
      (if testm mask (wake_mask_for_index (Z.of_nat i)) then poll_task i f else m_ret tt) >>;
      poll_woken mask (S i) futures'
  end.

(** src: tinyos/rust/tiny/src/task.rs 551-582 [run_tasks_with_preemption_and_idle: one round]
    Interrupts are masked in it; the idle hook is counted. *)
Definition round (futures : list (M (Os L U) unit)) : M (Os L U) unit :=
  let! s := m_get in
  expire (time_of (clock s)) >>;
  let! s := m_get in
  let mask := WAKE_BITS s in
  m_put (with_bits 0 s) >>;
  poll_woken mask 0 futures >>;
  let! s := m_get in
  if WAKE_BITS s =? 0 then m_put (with_idles (S (idles s)) s) else m_ret tt.

(** src: tinyos/rust/tiny/src/time.rs 282-290 [sleep_until]
    One poll of its future, which lives at [i], with the waker [w]; it is made with its deadline and not joined. *)
Definition sleep_poll (i : nat) (w : Z) : M (Os L U) bool :=
  let! s := m_get in
  let! f := m_opt UnwrapNone (sleepers s !! i) in
  let '(deadline, joined) := f in
  if joined : bool then on_timers (wq_poll i w)
  else if deadline <=? time_of (clock s) then m_ret true
  else
    m_modify (fun s => with_sleepers (<[i := (deadline, true)]> (sleepers s)) s) >>;
    on_timers (wq_join i deadline false >>; wq_poll i w).

(** src: tinyos/rust/tiny/src/time.rs 391-399 [TimeLimited::poll]
    [None]: pending. *)
Definition limited_poll {B} (limiter : M (Os L U) bool) (process : M (Os L U) (option B)) : M (Os L U) (option (option B)) :=
  let! late := limiter in
  if late : bool then m_ret (Some None) else let! r := process in m_ret (Some <$> r).
End exec.

(** ** The period *)

(** src: tinyos/rust/tiny/src/time.rs 436-439 [PeriodicGate] *)
Record PeriodicGate := mkGate { interval : Z; gate_next : Z }.
(** src: tinyos/rust/tiny/src/time.rs 467-472 [PeriodicGate::new_shift] *)
Definition new_shift (now interval delay : Z) : PeriodicGate := mkGate interval (tick_add now delay).
(** src: tinyos/rust/tiny/src/time.rs 476-478 [PeriodicGate::is_lagging] *)
Definition is_lagging (now : Z) (g : PeriodicGate) : bool := gate_next g <=? now.
(** src: tinyos/rust/tiny/src/time.rs 487-490 [PeriodicGate::next_time]
    What it does after its sleep. *)
Definition next_time (g : PeriodicGate) : PeriodicGate := mkGate (interval g) (tick_add (gate_next g) (interval g)).

(** ** [Notify] *)

(** What a [Notify] and an interrupt handler share with the executor; [event]: what the handler reports. *)
Record Shared (E : Type) := mkShared { n_mask : Z; bits : Z; event : E }.
Arguments mkShared {E} n_mask bits event.
Arguments n_mask {E} s.
Arguments bits {E} s.
Arguments event {E} s.

Section notify.
Context {E : Type}.
Implicit Types s : Shared E.

(** src: tinyos/rust/tiny/src/task.rs 701-703 [Notify::subscribe] *)
Definition subscribe (w : Z) : M (Shared E) unit := m_modify (fun s => mkShared (Z.lor (n_mask s) w) (bits s) (event s)).
(** src: tinyos/rust/tiny/src/task.rs 711-713 [Notify::notify] *)
Definition notify : prog (Shared E) unit :=
  do! m := (let! s := m_get in m_put (mkShared 0 (bits s) (event s)) >>; m_ret (n_mask s)) in
  do! _u := m_modify (fun s => mkShared (n_mask s) (Z.lor (bits s) m) (event s)) in
  Done tt.
End notify.

(** The futures, on any state, from the subscription to their [Notify]. *)
Section until.
Context {S B : Type}.

(** src: tinyos/rust/tiny/src/task.rs 864-872 [Until::poll] *)
Definition until_poll (sub : M S unit) (cond : prog S (option B)) : prog S (option B) :=
  andthen cond (fun r => match r with Some x => Done (Some x) | None => do! _u := sub in Done None end).
(** src: tinyos/rust/tiny/src/task.rs 892-900 [UntilRacy::poll] *)
Definition until_racy_poll (sub : M S unit) (cond : prog S (option B)) : prog S (option B) :=
  do! _u := sub in cond.
End until.
