(* ===== verification/ExecSpec.v ===== *)
(** * ExecSpec: theorems on the executor, [Notify], the timers and the clock of TinyOS *)
From stdpp Require Import gmap list sorting.
From S2P Require Import Prelude Atomic WaitList WaitQueue WaitListSpec Exec.

(** ** The clock *)

Definition clock_at (t : Z) : Clock := mkClock (t mod 2 ^ 32) (t / 2 ^ 32).

Lemma SysTick_at t : 0 <= t -> t + 1 < 2 ^ 64 -> SysTick (clock_at t) = clock_at (t + 1).
Proof.
  intros H0 H1. unfold SysTick, clock_at. cbn [TICK EPOCH]. unfold wrap. rewrite Zplus_mod_idemp_l. f_equal.
  pose proof (Z.mod_pos_bound t (2 ^ 32) ltac:(lia)). pose proof (Z.div_mod t (2 ^ 32) ltac:(lia)).
  destruct (Z.eqb_spec (t mod 2 ^ 32) (2 ^ 32 - 1)) as [E|E].
  - assert ((t + 1) / 2 ^ 32 = t / 2 ^ 32 + 1) as -> by (symmetry; apply (Z.div_unique _ _ _ 0); lia).
    apply Z.mod_small. pose proof (Z.div_pos t (2 ^ 32) ltac:(lia) ltac:(lia)). lia.
  - apply (Z.div_unique _ _ _ (t mod 2 ^ 32 + 1)); lia.
Qed.

Lemma ticks_at n t : 0 <= t -> t + Z.of_nat n < 2 ^ 64 -> ticks n (clock_at t) = clock_at (t + Z.of_nat n).
Proof.
  intros H0. unfold ticks. induction n as [|n IH]; intros H1; [by rewrite Z.add_0_r|]. rewrite Nat.iter_succ, IH by lia.
  rewrite SysTick_at by lia. f_equal. lia.
Qed.

Lemma time_of_at t : 0 <= t < 2 ^ 64 -> time_of (clock_at t) = t.
Proof.
  intros Ht. unfold time_of, clock_at, shlw. cbn [TICK EPOCH]. change (32 mod 64) with 32. rewrite Z.shiftl_mul_pow2 by lia.
  assert (t / 2 ^ 32 * 2 ^ 32 < 2 ^ 64) by (pose proof (Z.mul_div_le t (2 ^ 32) ltac:(lia)); lia).
  assert (0 <= t / 2 ^ 32) by (apply Z.div_pos; lia). rewrite wrap_small by (unfold in_word; lia).
  rewrite lor_low by first [lia|apply Z.mod_pos_bound; lia]. pose proof (Z.div_mod t (2 ^ 32) ltac:(lia)). lia.
Qed.

(** Two loads of the epoch around one of the tick: when they agree, the value is the time of the load in the middle. *)
Lemma epochs_agree a b c : 0 <= a -> a <= b <= c -> c < 2 ^ 64 -> EPOCH (clock_at a) = EPOCH (clock_at c) ->
  Z.lor (shlw 64 (EPOCH (clock_at a)) 32) (TICK (clock_at b)) = b.
Proof.
  intros Ha Hb Hc E. cbn [EPOCH clock_at] in E.
  pose proof (Z.div_le_mono a b (2 ^ 32) ltac:(lia) ltac:(lia)). pose proof (Z.div_le_mono b c (2 ^ 32) ltac:(lia) ltac:(lia)).
  replace (EPOCH (clock_at a)) with (EPOCH (clock_at b)) by (cbn [EPOCH clock_at]; lia). apply time_of_at. lia.
Qed.

Definition late (sched : nat -> nat) : Z := Z.of_nat (sched 0 + sched 1 + sched 2 + sched 3 + sched 4 + sched 5)%nat.

(** C23. [TickTime::now], with the SysTick interrupt coming any number of times before each of its loads, fewer than 2^32 times in all: its loop ends in the
    second round at the latest, and the value it returns is the time at some moment of the call, although the counter is two words. *)
Theorem now_is_a_time_during_the_call (t : Z) (sched : nat -> nat) (H0 : 0 <= t)
    (Hs : late sched < 2 ^ 32) (Hw : t + late sched < 2 ^ 64) :
  exists v n t', interrupted sched 0 (now_loop 2) (clock_at t) = Ret (v, n) (clock_at t') /\ t <= v <= t' /\ t' <= t + late sched.
Proof.
  unfold late in *. set (t1 := t + Z.of_nat (sched 0%nat)). set (t2 := t1 + Z.of_nat (sched 1%nat)). set (t3 := t2 + Z.of_nat (sched 2%nat)).
  set (t4 := t3 + Z.of_nat (sched 3%nat)). set (t5 := t4 + Z.of_nat (sched 4%nat)). set (t6 := t5 + Z.of_nat (sched 5%nat)).
  assert (t6 < 2 ^ 64 /\ t6 - t < 2 ^ 32) as [Hw6 Hs6] by (unfold t6, t5, t4, t3, t2, t1; lia).
  assert (t <= t1 <= t2 /\ t2 <= t3 <= t4 /\ t4 <= t5 <= t6) as Hord by (unfold t6, t5, t4, t3, t2, t1; lia).
  cbn [now_loop interrupted]. unfold m_gets. rewrite !ticks_at by (unfold t6, t5, t4, t3, t2, t1 in *; lia). fold t1 t2 t3.
  destruct (Z.eqb_spec (EPOCH (clock_at t1)) (EPOCH (clock_at t3))) as [E|E].
  - cbn [interrupted]. exists t2, 3%nat, t3. rewrite (epochs_agree t1 t2 t3) by (done || lia). split; [done|]. split; [lia|].
    unfold t6, t5, t4, t3, t2, t1 in *; lia.
  - cbn [interrupted]. rewrite !ticks_at by (unfold t6, t5, t4, t3, t2, t1 in *; lia). fold t4 t5 t6.
    destruct (Z.eqb_spec (EPOCH (clock_at t4)) (EPOCH (clock_at t6))) as [E'|E'].
    + cbn [interrupted]. exists t5, 6%nat, t6. rewrite (epochs_agree t4 t5 t6) by (done || lia). split; [done|]. split; [lia|].
      unfold t6, t5, t4, t3, t2, t1 in *; lia.
    + exfalso. cbn [EPOCH clock_at] in E, E'. clearbody t1 t2 t3 t4 t5 t6. clear Hs Hw.
      pose proof (Z.div_le_mono t1 t3 (2 ^ 32) ltac:(lia) ltac:(lia)). pose proof (Z.div_le_mono t3 t4 (2 ^ 32) ltac:(lia) ltac:(lia)).
      pose proof (Z.div_le_mono t4 t6 (2 ^ 32) ltac:(lia) ltac:(lia)). pose proof (Z.div_mod t1 (2 ^ 32) ltac:(lia)).
      pose proof (Z.mod_pos_bound t1 (2 ^ 32) ltac:(lia)). pose proof (Z.mul_div_le t6 (2 ^ 32) ltac:(lia)). lia.
Qed.

(** The epoch changes between the first two loads. *)
Lemma now_is_a_time_during_the_call_witness : exists v n t',
  interrupted (fun k => if Nat.eqb k 1 then 2%nat else O) 0 (now_loop 2) (clock_at (2 ^ 32 - 1)) = Ret (v, n) (clock_at t') /\ 2 ^ 32 - 1 <= v <= t'.
Proof.
  destruct (now_is_a_time_during_the_call (2 ^ 32 - 1) (fun k => if Nat.eqb k 1 then 2%nat else O) ltac:(lia) ltac:(vm_compute; reflexivity) ltac:(vm_compute; reflexivity))
    as (v & n & t' & E & Hv & _). by exists v, n, t'.
Defined.

(** ** Timers *)

Definition by_deadline (l : list (nat * Z)) : Prop := StronglySorted (fun x y => ple x.2 y.2 = true) l.

Lemma sorted_filter (P : nat * Z -> Prop) `{forall x, Decision (P x)} l : by_deadline l -> by_deadline (filter P l).
Proof.
  induction 1 as [|x l Hs IH Hx]; [constructor|]. destruct (decide (P x)).
  - rewrite filter_cons_True by done. constructor; [done|]. apply list.Forall_forall. intros y [_ Hy]%list_elem_of_filter.
    rewrite list.Forall_forall in Hx. by apply Hx.
  - by rewrite filter_cons_False.
Qed.

Lemma ins_by_deadline x l : by_deadline l -> by_deadline (ins x l).
Proof.
  induction 1 as [|y l Hs IH Hy]; [repeat constructor|]. rewrite list.Forall_forall in Hy. cbn [ins].
  destruct (existsb (fun z => ple z.2 x.2) (y :: l)) eqn:E.
  - constructor; [done|]. apply list.Forall_forall. intros z Hz. rewrite ins_Permutation in Hz. apply elem_of_cons in Hz as [->|Hz]; [|by apply Hy].
    apply existsb_exists in E as (w & [->|Hw%list_elem_of_In] & E); [done|]. specialize (Hy w Hw). unfold ple, Z_ord in *. bool_to_prop. lia.
  - assert (forall z, z ∈ y :: l -> ple x.2 z.2 = true) as Hx.
    { intros z Hz. unfold ple, Z_ord. apply Z.leb_le. destruct (Z.le_gt_cases x.2 z.2); [done|]. exfalso.
      assert (existsb (fun z => ple z.2 x.2) (y :: l) = true) as E'; [|by rewrite E' in E].
      apply existsb_exists. exists z. split; [by apply list_elem_of_In|]. unfold ple, Z_ord. apply Z.leb_le. lia. }
    constructor; [constructor; [done|by apply list.Forall_forall]|]. apply list.Forall_forall. intros z Hz. by apply Hx.
Qed.

(** Every operation on the queue keeps its line sorted. *)
Lemma q_op_sorted (o : list_op Z) q b q' : q_op o q = Some (b, q') -> by_deadline (line q) -> by_deadline (line q').
Proof.
  intros E Hs. destruct o as [a c cl|a w|pred|a|a|]; cbn in E.
  - unfold q_join in E. destruct (st q !! a); [done|]. by injection E as <- <-.
  - unfold q_poll in E. destruct (st q !! a) as [[]|]; try done; injection E as <- <-; try done. by apply ins_by_deadline.
  - unfold q_wake_head_if in E. destruct (line q) as [|[h c] l] eqn:El; cbn in E; [by injection E as <- <-; rewrite El|].
    destruct (pred c); [|by injection E as <- <-; rewrite El]. destruct (st q !! h) as [[]|]; try done. injection E as <- <-. by inversion Hs.
  - unfold q_take_cleanup in E. destruct (st q !! a) as [[| |? []]|]; try done; by injection E as <- <-.
  - unfold q_drop in E. destruct (st q !! a); [|done]. injection E as <- <-. by apply sorted_filter.
  - by injection E as <- <-.
Qed.

Lemma timer_line_sorted os : forall q bs q', by_deadline (line q) -> q_ops os q = Some (bs, q') -> by_deadline (line q').
Proof.
  induction os as [|o os IH]; intros q bs q' Hs E; [by injection E as <- <-|]. cbn in E.
  destruct (q_op o q) as [[b q1]|] eqn:E1; [|done]. cbn in E. destruct (q_ops os q1) as [[bs1 q2]|] eqn:E2; [|done]. injection E as <- <-.
  eapply IH; [|exact E2]. by eapply q_op_sorted.
Qed.

Section exec.
Context {L U : Type} `{W : WaitQueue L Z} {WL : WaitQueueLaws W}.
Implicit Types (s : Os L U) (q : WQ Z).

Definition or_all (ws : list Z) (b : Z) : Z := fold_left Z.lor ws b.

Lemma wake_all_masks ws : forall s, m_for ws wake_tasks_by_mask s = Ret tt (with_bits (or_all ws (WAKE_BITS s)) s).
Proof.
  induction ws as [|w ws IH]; intros s; [by destruct s|]. cbn [m_for]. rewrite (m_bind_Ret _ _ _ tt (with_bits (Z.lor (WAKE_BITS s) w) s)) by done.
  by rewrite IH.
Qed.

Lemma waking_ok {A} (m : M L A) o s q x q' ws : implements wq_rep m o -> wq_rep (timers s) q -> o q = Some (x, q') -> calls q' = calls q ++ ws ->
  exists l, waking m s = Ret x (with_bits (or_all ws (WAKE_BITS s)) (with_timers l s)) /\ wq_rep l q'.
Proof.
  intros Hm R E Ec. destruct (Hm _ _ _ _ R E) as (l & El & Rl). exists l. split; [|done]. unfold waking.
  rewrite (m_bind_Ret _ _ _ s s) by done. rewrite (m_bind_Ret _ _ _ x (with_timers l s)) by (unfold on_timers; by rewrite El).
  rewrite (m_bind_Ret _ _ _ (with_timers l s) (with_timers l s)) by done. cbn [timers with_timers].
  rewrite (wq_calls_ok _ _ R), (wq_calls_ok _ _ Rl), Ec, drop_app_length. rewrite (m_bind_Ret _ _ _ _ _ (wake_all_masks _ _)). done.
Qed.

(** The line at [now]: those that are due, and the others. *)
Definition due (now : Z) q : list (nat * Z) := filter (fun x => (x.2 <=? now) = true) (line q).
Definition not_due (now : Z) q : list (nat * Z) := filter (fun x => (x.2 <=? now) = false) (line q).

Lemma due_prefix now q : by_deadline (line q) ->
  let n := prefix_len (fun x => x.2 <=? now) (line q) in take n (line q) = due now q /\ drop n (line q) = not_due now q.
Proof. intros Hs. apply (prefix_len_sorted (fun t => t <=? now)); [done|]. unfold ple, Z_ord. intros c d ??. bool_to_prop. lia. Qed.

Lemma expire_run now s q : wq_rep (timers s) q -> by_deadline (line q) ->
  let n := prefix_len (fun x => x.2 <=? now) (line q) in
  exists b l, expire now s = Ret b (with_bits (or_all (map (waker_of q) (due now q)) (WAKE_BITS s)) (with_timers l s)) /\ wq_rep l (q_pops n q).
Proof.
  intros R Hs n. pose proof (rep_ok W _ _ R) as Hq.
  destruct (q_wake_while_pred (fun t => t <=? now) tt (S (length (line q))) q false Hq ltac:(lia)) as (b & E).
  destruct (due_prefix now q Hs) as [Hd _]. destruct (q_pops_line n q Hq) as [_ Hc].
  destruct (waking_ok _ _ s q _ _ (map (waker_of q) (due now q)) (wake_while_ok _ tt) R E) as (l & El & Rl).
  { fold n. rewrite Hc. unfold n. by rewrite Hd. }
  exists b, l. split; [|done]. unfold expire. by rewrite (m_bind_Ret _ _ _ _ _ El).
Qed.
(** The scan for expired timers.  With the list in order of the deadlines, which every operation on it keeps ([timer_line_sorted]), exactly the timers whose
    deadline is not after [now] leave it, earliest first and equals in the order they came; the wake bits gain the masks of their tasks and nothing
    else; and of the sleeping futures exactly those are ready at their next poll. *)
Theorem timers_expire (now : Z) s q (R : wq_rep (timers s) q) (Hs : by_deadline (line q)) :
  exists b s' q', expire now s = Ret b s' /\ wq_rep (timers s') q' /\ line q = due now q ++ line q' /\ line q' = not_due now q /\ by_deadline (line q') /\
    WAKE_BITS s' = or_all (map (waker_of q) (due now q)) (WAKE_BITS s) /\
    forall i d w, sleepers s !! i = Some (d, true) -> (i, d) ∈ line q -> exists s2, sleep_poll i w s' = Ret (d <=? now) s2.
Proof.
  destruct (expire_run now s q R Hs) as (b & l & E & Rl). set (n := prefix_len _ _) in *. pose proof (rep_ok W _ _ R) as Hq.
  destruct (due_prefix now q Hs) as [Hd Hn]. fold n in Hd, Hn. destruct (q_pops_line n q Hq) as [El _].
  eexists b, _, (q_pops n q). split; [exact E|]. split; [exact Rl|]. split; [by rewrite El, <-Hd, take_drop|]. split; [by rewrite El|].
  split; [rewrite El, Hn; by apply sorted_filter|]. split; [done|]. intros i d w Hi Hl. set (s' := with_bits _ _).
  assert (forall r q1, q_poll i w (q_pops n q) = Some (r, q1) -> exists s2, sleep_poll i w s' = Ret r s2) as Hp.
  { intros r q1 Ep. destruct (wq_poll_ok i w _ _ _ _ Rl Ep) as (l2 & E2 & _). exists (with_timers l2 s'). unfold sleep_poll.
    rewrite (m_bind_Ret _ _ _ s' s') by done. unfold s'. cbn [sleepers with_bits with_timers]. rewrite Hi. cbn [m_opt].
    erewrite m_bind_Ret by reflexivity. unfold on_timers. cbn [timers with_bits with_timers]. by rewrite E2. }
  pose proof Hq as [_ Hw]. destruct (Hw i) as [Hw1 _]. destruct Hw1 as (cl & w0 & Es); [by apply (list_elem_of_fmap_2 fst) in Hl|].
  destruct (Z.leb_spec d now) as [Hle|Hgt].
  - assert ((i, d) ∈ take n (line q)) as Ht by (rewrite Hd; apply list_elem_of_filter; split; [cbn; lia|done]).
    destruct (q_pops_taken n q i d Hq Ht) as (cl' & w1 & _ & Eg). eapply Hp. unfold q_poll. by rewrite Eg.
  - destruct (q_pops_waiting n q i d cl w0 Hq Hl Es) as [[_ Ew]|Eg]; [eapply Hp; unfold q_poll; by rewrite Ew|]. exfalso.
    destruct (q_pops_ok n q Hq) as [_ Hw']. assert ((i, d) ∈ line (q_pops n q)) as Hin by (rewrite El, Hn; apply list_elem_of_filter; split; [cbn; lia|done]).
    destruct (Hw' i) as [Hx _]. destruct Hx as (? & ? & Ex); [by apply (list_elem_of_fmap_2 fst) in Hin|]. by rewrite Eg in Ex.
Qed.

(** ** The loop *)

(** What the executor asks of a task: its poll returns, leaves the executor's log alone, and clears no wake bit ([WAKE_BITS] is private; the
    functions that write it only add bits). *)
Definition task_ok (f : M (Os L U) unit) : Prop := forall s, exists s', f s = Ret tt s' /\ polled s' = polled s /\ idles s' = idles s /\
  forall i, Z.testbit (WAKE_BITS s) i = true -> Z.testbit (WAKE_BITS s') i = true.

Lemma poll_woken_ok mask fs : forall i s, Forall task_ok fs ->
  exists s', poll_woken mask i fs s = Ret tt s' /\ idles s' = idles s /\
    polled s' = polled s ++ filter (fun j => testm mask (wake_mask_for_index (Z.of_nat j)) = true) (seq i (length fs)) /\
    forall j, Z.testbit (WAKE_BITS s) j = true -> Z.testbit (WAKE_BITS s') j = true.
Proof.
  induction fs as [|f fs IH]; intros i s Hf; [exists s; cbn; by rewrite app_nil_r|]. apply list.Forall_cons in Hf as [Hf Hfs].
  cbn [poll_woken length seq]. destruct (testm mask (wake_mask_for_index (Z.of_nat i))) eqn:E.
  - destruct (Hf (with_polled (polled s ++ [i]) s)) as (s1 & E1 & P1 & I1 & B1). destruct (IH (S i) s1 Hfs) as (s2 & E2 & I2 & P2 & B2).
    exists s2. split; [|split; [by rewrite I2, I1|split]].
    + unfold poll_task. rewrite (m_bind_Ret _ _ _ tt s1); [done|]. by rewrite (m_bind_Ret _ _ _ tt (with_polled (polled s ++ [i]) s)).
    + rewrite P2, P1. cbn [polled with_polled]. rewrite filter_cons_True by done. by rewrite <-app_assoc.
    + intros j Hj. apply B2, B1. done.
  - destruct (IH (S i) s Hfs) as (s2 & E2 & I2 & P2 & B2). exists s2. rewrite (m_bind_Ret _ _ _ tt s) by done. split; [done|].
    split; [done|]. split; [|done]. by rewrite filter_cons_False by (rewrite E; done).
Qed.

Lemma poll_woken_app mask fs gs : forall i s, poll_woken mask i (fs ++ gs) s = (poll_woken mask i fs >>; poll_woken mask (i + length fs) gs) s.
Proof.
  induction fs as [|f fs IH]; intros i s; [cbn; by rewrite Nat.add_0_r|]. cbn [poll_woken app length]. set (m := if testm mask _ then _ else _).
  unfold m_bind. destruct (m s) as [[] s1|]; [|done]. rewrite IH. unfold m_bind. by replace (i + S (length fs))%nat with (S i + length fs)%nat by lia.
Qed.

(** The wake bits as a round finds them: those that were set, and those of the timers that are due. *)
Definition ready_bits s q : Z := or_all (map (waker_of q) (due (time_of (clock s)) q)) (WAKE_BITS s).

(** C22. A round of the executor polls every task whose wake bit is set or whose timer is due, once, in the order of the tasks, and those that share their bits, and no
    other.  A bit that is set while the tasks are polled, by whichever of them, is still set at the end, so that its task is polled in the
    next round; and the idle hook is called only when there is no such bit. *)
Theorem round_polls_woken (futures : list (M (Os L U) unit)) s q (R : wq_rep (timers s) q) (Hs : by_deadline (line q)) (Hf : Forall task_ok futures) :
  exists s', round futures s = Ret tt s' /\
    polled s' = polled s ++ filter (fun i => testm (ready_bits s q) (wake_mask_for_index (Z.of_nat i)) = true) (seq 0 (length futures)) /\
    idles s' = (if WAKE_BITS s' =? 0 then S (idles s) else idles s) /\
    forall fs gs, futures = fs ++ gs -> exists l s1, poll_woken (ready_bits s q) 0 fs (with_bits 0 (with_timers l s)) = Ret tt s1 /\
      forall i, Z.testbit (WAKE_BITS s1) i = true -> Z.testbit (WAKE_BITS s') i = true.
Proof.
  destruct (expire_run (time_of (clock s)) s q R Hs) as (b & l & E & _). fold (ready_bits s q) in E.
  set (s0 := with_bits 0 (with_timers l s)).
  destruct (poll_woken_ok (ready_bits s q) futures 0 s0 Hf) as (s1 & E1 & I1 & P1 & B1).
  assert (round futures s = Ret tt (if WAKE_BITS s1 =? 0 then with_idles (S (idles s1)) s1 else s1)) as Er.
  { unfold round. rewrite (m_bind_Ret _ _ _ s s) by done. rewrite (m_bind_Ret _ _ _ _ _ E). erewrite m_bind_Ret by reflexivity.
    erewrite m_bind_Ret by reflexivity. cbn zeta. change (with_bits 0 (with_bits (ready_bits s q) (with_timers l s))) with s0.
    cbn [WAKE_BITS with_bits]. rewrite (m_bind_Ret _ _ _ _ _ E1). rewrite (m_bind_Ret _ _ _ s1 s1) by done. by destruct (WAKE_BITS s1 =? 0). }
  assert (WAKE_BITS (if WAKE_BITS s1 =? 0 then with_idles (S (idles s1)) s1 else s1) = WAKE_BITS s1) as Eb by (by destruct (WAKE_BITS s1 =? 0)).
  eexists. split; [exact Er|]. split; [|split].
  - destruct (WAKE_BITS s1 =? 0); cbn [polled with_idles]; by rewrite P1.
  - rewrite Eb. destruct (WAKE_BITS s1 =? 0); cbn [idles with_idles]; by rewrite I1.
  - intros fs gs ->. exists l. apply list.Forall_app in Hf as [Hf Hg].
    destruct (poll_woken_ok (ready_bits s q) fs 0 s0 Hf) as (s2 & E2 & _). exists s2. split; [done|]. intros i Hi. rewrite Eb.
    rewrite poll_woken_app, (m_bind_Ret _ _ _ _ _ E2) in E1. destruct (poll_woken_ok (ready_bits s q) gs (0 + length fs) s2 Hg) as (s3 & E3 & _ & _ & B3).
    rewrite E3 in E1. injection E1 as ->. by apply B3.
Qed.

(** A sleeper whose deadline passes while the tasks of a round are polled is not ready before the next scan, whatever the clock says; so a task that is wrapped in
    [with_deadline] can complete at or after its deadline. *)
Theorem sleeper_waits_for_the_scan i d w s q cl w0 : wq_rep (timers s) q -> sleepers s !! i = Some (d, true) -> st q !! i = Some (Waiting cl w0) ->
  d <= time_of (clock s) -> exists s', sleep_poll i w s = Ret false s'.
Proof.
  intros R Hi Es _. destruct (wq_poll_ok i w _ _ false (mkWQ (line q) (<[i := Waiting cl w]> (st q)) (calls q)) R) as (l & El & _).
  { unfold q_poll. by rewrite Es. }
  exists (with_timers l s). unfold sleep_poll. rewrite (m_bind_Ret _ _ _ s s) by done. rewrite Hi. cbn [m_opt]. erewrite m_bind_Ret by reflexivity.
  unfold on_timers. by rewrite El.
Qed.
End exec.

(** ** Waiting for an interrupt *)

Section race.
Context {E B : Type} (cond : E -> option B).

(** The condition is read in one action; the handler records its event and notifies. *)
Definition check : prog (Shared E) (option B) := do! r := m_gets (fun s => cond (event s)) in Done r.
Definition handler (e : E) : prog (Shared E) unit := do! _u := m_modify (fun s => mkShared (n_mask s) (bits s) e) in notify.

(** All interleavings of two short programs. *)
Ltac advances H :=
  cbv [advance m_bind m_modify m_ret m_gets m_get m_put subscribe handler check notify until_racy_poll] in H; injection H as <- <-.
Ltac interleavings :=
  repeat match goal with
  | H : unfinished (Done _) |- _ => destruct H
  | H : advance _ _ = Ret _ _ |- _ => advances H
  | H : interleave _ _ _ _ _ _ |- _ => inversion H; subst; clear H
  end.

(** A poll of [until_racy], with the interrupt handler coming between any of its actions, never loses the event: when the handler makes the condition true and the
    poll still finds it false, the task is woken. *)
Theorem until_racy_keeps_wakeups w e s r s' (Hi : interleave (until_racy_poll (subscribe w) check) (handler e) s r tt s')
    (He : cond e <> None) (Hr : r = None) : forall i, Z.testbit w i = true -> Z.testbit (bits s') i = true.
Proof.
  unfold until_racy_poll, handler, check, notify in Hi. intros i Hw. interleavings; cbn [event n_mask bits] in *; try done;
    rewrite ?Z.lor_spec, ?Hw, ?orb_true_r; try done.
Qed.

(** [until], for code that is not preempted, does: the handler may come between the check and the subscription. *)
Theorem until_misses_a_wakeup w e s : cond (event s) = None ->
  interleave (until_poll (subscribe w) check) (handler e) s None tt (mkShared (Z.lor 0 w) (Z.lor (bits s) (n_mask s)) e).
Proof.
  intros Hc. unfold until_poll, check. cbn [andthen]. eapply i_left; [done|reflexivity|]. cbn [andthen]. rewrite Hc.
  unfold handler, notify. do 3 (eapply i_right; [done|reflexivity|]). eapply i_left; [done|reflexivity|]. apply i_done.
Qed.
End race.

(** ** Witnesses *)

(** Two timers on the list itself, at 30 and 20, of the tasks with the masks 1 and 2. *)
Definition timer_demo : list (list_op Z) := [OJoin 1%nat 30 false; OPoll 1%nat 1; OJoin 2%nat 20 false; OPoll 2%nat 2].
Lemma timers_expire_witness : exists (s : Os (WL Z) unit) q, wq_rep (timers s) q /\ line q = [(2%nat, 20); (1%nat, 30)] /\
  exists b s', expire 25 s = Ret b s' /\ WAKE_BITS s' = 2.
Proof.
  destruct (ops_refine timer_demo wl_new q_new rep_new) as (bs & l & q & _ & Q & R); [repeat split; set_solver|].
  assert (line q = [(2%nat, 20); (1%nat, 30)] /\ waker_of q (2%nat, 20) = 2) as [El Ew] by (vm_compute in Q; injection Q as _ <-; by vm_compute).
  set (s := mkOs 0 l (clock_at 0) ∅ [] 0 tt : Os (WL Z) unit).
  destruct (timers_expire (WL := list_queue_laws) 25 s q R) as (b & s' & q' & E & _ & _ & _ & _ & Eb & _); [rewrite El; by repeat constructor|].
  exists s, q. split; [exact R|]. split; [exact El|]. exists b, s'. split; [exact E|]. rewrite Eb. unfold due. rewrite El.
  change (Z.lor 0 (waker_of q (2%nat, 20)) = 2). by rewrite Ew.
Defined.

(** Task 0 wakes task 1; task 1 does nothing. *)
Definition round_demo : list (M (Os (WL Z) unit) unit) := [wake_task_by_index 1; m_ret tt].
Lemma round_polls_woken_witness : exists s s' : Os (WL Z) unit, WAKE_BITS s = 1 /\ round round_demo s = Ret tt s' /\ polled s' = [0%nat].
Proof.
  set (s := mkOs 1 wl_new (clock_at 0) ∅ [] 0 tt : Os (WL Z) unit).
  destruct (round_polls_woken (WL := list_queue_laws) round_demo s q_new rep_new) as (s' & E & P & _); [constructor|..].
  - repeat constructor; intros t; eexists; (split; [reflexivity|]); try done. split; [done|]. split; [done|]. intros i Hi. cbn. by rewrite Z.lor_spec, Hi.
  - exists s, s'. split; [done|]. split; [exact E|]. by rewrite P.
Defined.

(** The handler comes after the subscription. *)
Lemma until_racy_keeps_wakeups_witness : exists s', interleave (until_racy_poll (subscribe 4) (check (fun e : bool => if e then Some tt else None))) (handler true)
    (mkShared 0 0 false) None tt s' /\ Z.testbit (bits s') 2 = true.
Proof.
  eassert (interleave (until_racy_poll (subscribe 4) (check (fun e : bool => if e then Some tt else None))) (handler true) (mkShared 0 0 false) None tt _) as Hi.
  { do 2 (eapply i_left; [done|reflexivity|]). do 3 (eapply i_right; [done|reflexivity|]). apply i_done. }
  eexists. split; [exact Hi|]. exact (until_racy_keeps_wakeups _ _ _ _ _ _ Hi ltac:(done) eq_refl 2 ltac:(done)).
Defined.
