(* ===== verification/Spsc.v ===== *)
(** * Spsc: the queue between one producer and one consumer ([tinyos/rust/tiny/src/spsc.rs])

    A Lamport queue: [head] belongs to the pusher, [tail] to the popper, one slot stays empty.  The operations are
    sequences of atomic actions ([Atomic]), so that either end may run in an interrupt handler that
    comes between any two actions of the other.  Acquire and release are taken as sequentially consistent. *)
From S2P Require Import Prelude Atomic Exec.

(** src: tinyos/rust/tiny/src/spsc.rs 55-69 [Queue]
    A slot is [None] while it is not initialised.  [pushed], [popped]: the masks of the two [Notify]; [wake_bits]: the executor's word. *)
Record Queue (T : Type) := mkQueue {
  storage : list (option T);
  head : Z;
  tail : Z;
  pushed : Z;
  popped : Z;
  wake_bits : Z;
}.
Arguments mkQueue {T} storage head tail pushed popped wake_bits.
Arguments storage {T} q.
Arguments head {T} q.
Arguments tail {T} q.
Arguments pushed {T} q.
Arguments popped {T} q.
Arguments wake_bits {T} q.

(** src: tinyos/rust/tiny/src/spsc.rs 364-369 [Entry]
    The reference to the slot is its index. *)
Record Entry := mkEntry { slot : Z; h_next : Z }.

Section queue.
Context {T : Type}.
Implicit Types q : Queue T.
Local Abbreviation Q := (Queue T).

Definition with_storage l q : Q := mkQueue l (head q) (tail q) (pushed q) (popped q) (wake_bits q).
Definition with_head h q : Q := mkQueue (storage q) h (tail q) (pushed q) (popped q) (wake_bits q).
Definition with_tail t q : Q := mkQueue (storage q) (head q) t (pushed q) (popped q) (wake_bits q).
Definition with_pushed m q : Q := mkQueue (storage q) (head q) (tail q) m (popped q) (wake_bits q).
Definition with_popped m q : Q := mkQueue (storage q) (head q) (tail q) (pushed q) m (wake_bits q).
Definition with_wake b q : Q := mkQueue (storage q) (head q) (tail q) (pushed q) (popped q) b.

(** src: tinyos/rust/tiny/src/spsc.rs 78-101 [Queue::new]
    The storage it is given is uninitialised. *)
Definition q_new (n : nat) : Q := mkQueue (replicate n None) 0 0 0 0 0.

(** src: tinyos/rust/tiny/src/spsc.rs 122-131 [Queue::next_index] *)
Definition next_index q (i : Z) : Z := let ni := usize (i + 1) in if ni =? zlen (storage q) then 0 else ni.

(** [get_unchecked]: out of range is undefined behaviour. *)
Definition slot_ref (i : Z) : M Q unit := let! q := m_get in if in_bounds (storage q) i then m_ret tt else m_fault OutOfBounds.
(** [MaybeUninit::write] through the reference. *)
Definition write_slot (i : Z) (v : T) : M Q unit :=
  let! q := m_get in let! l := m_opt OutOfBounds (zstore (storage q) i (Some v)) in m_put (with_storage l q).
(** [assume_init_read]: the slot counts as uninitialised afterwards; reading it then is undefined behaviour. *)
Definition read_slot (i : Z) : M Q T :=
  let! q := m_get in
  let! o := m_opt OutOfBounds (zget (storage q) i) in
  let! v := m_opt UnwrapNone o in
  m_put (with_storage (zset (storage q) i None) q) >>; m_ret v.

Definition load_head : M Q Z := m_gets head.
Definition load_tail : M Q Z := m_gets tail.
Definition store_head (h : Z) : M Q unit := m_modify (with_head h).
Definition store_tail (t : Z) : M Q unit := m_modify (with_tail t).
(** [Notify::notify]: take the mask, then wake its tasks. *)
Definition swap_pushed : M Q Z := let! q := m_get in m_put (with_pushed 0 q) >>; m_ret (pushed q).
Definition swap_popped : M Q Z := let! q := m_get in m_put (with_popped 0 q) >>; m_ret (popped q).
Definition wake_mask (m : Z) : M Q unit := m_modify (fun q => with_wake (Z.lor (wake_bits q) m) q).

(** src: tinyos/rust/tiny/src/spsc.rs 181-186 [Pusher::can_push] *)
Definition can_push : prog Q bool :=
  do! h := load_head in do! t := load_tail in do! q := m_get in Done (negb (next_index q h =? t)).

(** src: tinyos/rust/tiny/src/spsc.rs 192-219 [Pusher::try_reserve] *)
Definition try_reserve : prog Q (option Entry) :=
  do! h := load_head in
  do! t := load_tail in
  do! q := m_get in
  let h_next := next_index q h in
  if h_next =? t then Done None
  else do! _u := slot_ref h in Done (Some (mkEntry h h_next)).

(** src: tinyos/rust/tiny/src/spsc.rs 377-381 [Entry::push] *)
Definition entry_push (e : Entry) (v : T) : prog Q unit :=
  do! _u := write_slot (slot e) v on (slot e) in
  do! _u := store_head (h_next e) in
  do! m := swap_pushed in
  do! _u := wake_mask m in
  Done tt.

(** src: tinyos/rust/tiny/src/spsc.rs 255-262 [Pusher::try_push]
    [false]: the value is handed back. *)
Definition try_push (v : T) : prog Q bool :=
  andthen try_reserve (fun r => match r with Some e => andthen (entry_push e v) (fun _ => Done true) | None => Done false end).

(** src: tinyos/rust/tiny/src/spsc.rs 288-292 [Popper::can_pop] *)
Definition can_pop : prog Q bool := do! t := load_tail in do! h := load_head in Done (negb (h =? t)).

(** src: tinyos/rust/tiny/src/spsc.rs 297-327 [Popper::try_pop] *)
Definition try_pop : prog Q (option T) :=
  do! t := load_tail in
  do! h := load_head in
  if h =? t then Done None
  else
    do! q := m_get in
    let t_next := next_index q t in
    do! _u := slot_ref t in
    do! result := read_slot t on t in
    do! _u := store_tail t_next in
    do! m := swap_popped in
    do! _u := wake_mask m in
    Done (Some result).

(** [Notify::subscribe]. *)
Definition subscribe_pushed (w : Z) : M Q unit := m_modify (fun q => with_pushed (Z.lor (pushed q) w) q).
Definition subscribe_popped (w : Z) : M Q unit := m_modify (fun q => with_popped (Z.lor (popped q) w) q).
(** src: tinyos/rust/tiny/src/spsc.rs 347-352 [Popper::pop]
    One poll of its future with the waker [w]. *)
Definition pop_poll (w : Z) : prog Q (option T) := until_poll (subscribe_pushed w) try_pop.
(** src: tinyos/rust/tiny/src/spsc.rs 244-246 [Pusher::reserve] *)
Definition reserve_poll (w : Z) : prog Q (option Entry) := until_poll (subscribe_popped w) try_reserve.

(** src: tinyos/rust/tiny/src/spsc.rs 138-156 [Queue::drop]
    The elements it drops, in order; the fuel is the number of slots. *)
Fixpoint drop_from (fuel : nat) (h t : Z) : M Q (list T) :=
  if h =? t then m_ret []
  else match fuel with
  | O => m_fault FuelOut
  | S fuel' =>
      let! v := read_slot t in
      let! q := m_get in
      let! vs := drop_from fuel' h (next_index q t) in
      m_ret (v :: vs)
  end.
Definition drop_queue : M Q (list T) := let! q := m_get in drop_from (length (storage q)) (head q) (tail q).

End queue.
