(* ===== verification/SpscSpec.v ===== *)
(** * SpscSpec: the single-producer single-consumer queue is a FIFO queue, from two threads

    The invariant counts pushes [H] and pops [T] without wrapping; [head] and [tail] are these modulo the
    number of slots, and the element number [i] is in the slot [i mod N] from the moment the head passes it until it
    is read. *)
From S2P Require Import Prelude Atomic Spsc.

Section threads.
Context {T : Type}.
Implicit Types q : Queue T.
Local Abbreviation Q := (Queue T).

(** ** Two threads

    What each end is doing.  An entry may be kept for any time before it is used or dropped. *)
Inductive pusher :=
  | PIdle
  | PReserving (p : prog Q (option Entry))
  | PHolding (e : Entry)
  | PPushing (p : prog Q unit).
Inductive popper :=
  | CIdle
  | CPopping (p : prog Q (option T)).

(** [sent]: the values pushed through entries so far, in order; [got]: the values popped. *)
Record sys := mkSys { queue : Q; pu : pusher; po : popper; sent : list T; got : list T }.

(** One step of either end; an end that faults has no step. *)
Inductive sys_step : sys -> sys -> Prop :=
  | s_reserve q po se go : sys_step (mkSys q PIdle po se go) (mkSys q (PReserving try_reserve) po se go)
  | s_reserving q q' p p' po se go : advance p q = Ret p' q' ->
      sys_step (mkSys q (PReserving p) po se go) (mkSys q' (PReserving p') po se go)
  | s_full q po se go : sys_step (mkSys q (PReserving (Done None)) po se go) (mkSys q PIdle po se go)
  | s_reserved q e po se go : sys_step (mkSys q (PReserving (Done (Some e))) po se go) (mkSys q (PHolding e) po se go)
  | s_drop_entry q e po se go : sys_step (mkSys q (PHolding e) po se go) (mkSys q PIdle po se go)
  | s_push q e v po se go : sys_step (mkSys q (PHolding e) po se go) (mkSys q (PPushing (entry_push e v)) po (se ++ [v]) go)
  | s_pushing q q' p p' po se go : advance p q = Ret p' q' ->
      sys_step (mkSys q (PPushing p) po se go) (mkSys q' (PPushing p') po se go)
  | s_pushed q po se go : sys_step (mkSys q (PPushing (Done tt)) po se go) (mkSys q PIdle po se go)
  | s_pop q pu se go : sys_step (mkSys q pu CIdle se go) (mkSys q pu (CPopping try_pop) se go)
  | s_popping q q' p p' pu se go : advance p q = Ret p' q' ->
      sys_step (mkSys q pu (CPopping p) se go) (mkSys q' pu (CPopping p') se go)
  | s_empty q pu se go : sys_step (mkSys q pu (CPopping (Done None)) se go) (mkSys q pu CIdle se go)
  | s_popped q v pu se go : sys_step (mkSys q pu (CPopping (Done (Some v))) se go) (mkSys q pu CIdle se (go ++ [v])).

Inductive sys_reach (n : nat) : sys -> Prop :=
  | sr_start : sys_reach n (mkSys (q_new n) PIdle CIdle [] [])
  | sr_next s s' : sys_reach n s -> sys_step s s' -> sys_reach n s'.

(** The cells the next actions of the two ends touch. *)
Definition pu_touching (p : pusher) : option Z :=
  match p with PReserving p => touching p | PPushing p => touching p | _ => None end.
Definition po_touching (p : popper) : option Z := match p with CPopping p => touching p | CIdle => None end.
(** Whether an end's next action faults. *)
Definition pu_faults (p : pusher) (q : Q) : Prop :=
  match p with
  | PReserving p => exists f, advance p q = Fault f
  | PPushing p => exists f, advance p q = Fault f
  | _ => False
  end.
Definition po_faults (p : popper) (q : Q) : Prop := match p with CPopping p => exists f, advance p q = Fault f | CIdle => False end.

(** What is in the queue, from the tail to the head. *)
Definition queued q : list T :=
  omap (fun k => match zget (storage q) ((tail q + k) mod zlen (storage q)) with Some o => o | None => None end)
    (zrange 0 (Z.to_nat ((head q - tail q) mod zlen (storage q)))).
End threads.

Section proofs.
Context {T : Type} (N : Z) (HN : 0 < N < 2 ^ 64).
Implicit Types (q : Queue T) (se go : list T).

Lemma next_index_mod q i : zlen (storage q) = N -> 0 <= i -> next_index q (i mod N) = (i + 1) mod N.
Proof using HN.
  intros HL Hi. unfold next_index. pose proof (Z.mod_pos_bound i N ltac:(lia)).
  rewrite HL, wrap_small by (unfold in_word; lia). destruct (Z.eqb_spec (i mod N + 1) N) as [E|E].
  - rewrite <-(Zplus_mod_idemp_l i 1), E. by rewrite Z.mod_same by lia.
  - rewrite <-(Zplus_mod_idemp_l i 1). symmetry. apply Z.mod_small. lia.
Qed.

(** Indices less than [N] apart are in different slots. *)
Lemma mod_apart i j : 0 <= i -> i < j < i + N -> i mod N <> j mod N.
Proof using HN.
  intros Hi Hj E.
  assert ((j - i) mod N = 0) as E' by (rewrite Zminus_mod, E, Z.sub_diag; apply Z.mod_0_l; lia).
  rewrite Z.mod_small in E'; lia.
Qed.

(** ** The invariant *)

(** [rd]: the popper has read the element number [T] and not yet advanced the tail. *)
Record base q (H t : Z) (rd : bool) se : Prop := mkBase {
  b_len : zlen (storage q) = N;
  b_head : head q = H mod N;
  b_tail : tail q = t mod N;
  b_order : 0 <= t <= H;
  b_room : H - t < N;
  b_sent : H <= zlen se;
  b_slots i : t <= i < H -> (rd = true -> i <> t) -> zget (storage q) (i mod N) = Some (zget se i);
}.

Definition entry_at (H : Z) : Entry := mkEntry (H mod N) ((H + 1) mod N).

Inductive pu_inv q (H t : Z) se : pusher -> Prop :=
  | pi_idle : zlen se = H -> pu_inv q H t se PIdle
  | pi_start : zlen se = H -> pu_inv q H t se (PReserving try_reserve)
  | pi_head : zlen se = H -> pu_inv q H t se (PReserving (do! t := load_tail in do! q := m_get in
      let hn := next_index q (H mod N) in
      if hn =? t then Done None else do! _u := slot_ref (H mod N) in Done (Some (mkEntry (H mod N) hn))))
  | pi_tail t0 : zlen se = H -> ((H + 1) mod N <> t0 -> H - t < N - 1) -> pu_inv q H t se (PReserving (do! q := m_get in
      let hn := next_index q (H mod N) in
      if hn =? t0 then Done None else do! _u := slot_ref (H mod N) in Done (Some (mkEntry (H mod N) hn))))
  | pi_none : zlen se = H -> pu_inv q H t se (PReserving (Done None))
  | pi_ref : zlen se = H -> H - t < N - 1 -> pu_inv q H t se (PReserving (do! _u := slot_ref (H mod N) in Done (Some (entry_at H))))
  | pi_some : zlen se = H -> H - t < N - 1 -> pu_inv q H t se (PReserving (Done (Some (entry_at H))))
  | pi_hold : zlen se = H -> H - t < N - 1 -> pu_inv q H t se (PHolding (entry_at H))
  | pi_write v : zlen se = H + 1 -> zget se H = Some v -> H - t < N - 1 -> pu_inv q H t se (PPushing (entry_push (entry_at H) v))
  | pi_store : zlen se = H + 1 -> H - t < N - 1 -> zget (storage q) (H mod N) = Some (zget se H) ->
      pu_inv q H t se (PPushing (do! _u := store_head ((H + 1) mod N) in do! m := swap_pushed in do! _u := wake_mask m in Done tt))
  | pi_swap : zlen se = H -> pu_inv q H t se (PPushing (do! m := swap_pushed in do! _u := wake_mask m in Done tt))
  | pi_wake m : zlen se = H -> pu_inv q H t se (PPushing (do! _u := wake_mask m in Done tt))
  | pi_done : zlen se = H -> pu_inv q H t se (PPushing (Done tt)).

(** The popper after it read [v]. *)
Definition pop_rest (t : Z) (v : T) : prog (Queue T) (option T) :=
  do! _u := store_tail ((t + 1) mod N) in do! m := swap_popped in do! _u := wake_mask m in Done (Some v).

Inductive po_inv (H t : Z) se go : bool -> popper -> Prop :=
  | ci_idle : go = take (Z.to_nat t) se -> po_inv H t se go false CIdle
  | ci_start : go = take (Z.to_nat t) se -> po_inv H t se go false (CPopping try_pop)
  | ci_tail : go = take (Z.to_nat t) se -> po_inv H t se go false (CPopping (do! h := load_head in
      if h =? t mod N then Done None
      else do! q := m_get in do! _u := slot_ref (t mod N) in do! r := read_slot (t mod N) on (t mod N) in
        do! _u := store_tail (next_index q (t mod N)) in do! m := swap_popped in do! _u := wake_mask m in Done (Some r)))
  | ci_none : go = take (Z.to_nat t) se -> po_inv H t se go false (CPopping (Done None))
  | ci_head : go = take (Z.to_nat t) se -> t < H -> po_inv H t se go false (CPopping (
      do! q := m_get in do! _u := slot_ref (t mod N) in do! r := read_slot (t mod N) on (t mod N) in
      do! _u := store_tail (next_index q (t mod N)) in do! m := swap_popped in do! _u := wake_mask m in Done (Some r)))
  | ci_ref : go = take (Z.to_nat t) se -> t < H -> po_inv H t se go false (CPopping (
      do! _u := slot_ref (t mod N) in do! r := read_slot (t mod N) on (t mod N) in pop_rest t r))
  | ci_read : go = take (Z.to_nat t) se -> t < H -> po_inv H t se go false (CPopping (
      do! r := read_slot (t mod N) on (t mod N) in pop_rest t r))
  | ci_store v : go = take (Z.to_nat t) se -> t < H -> zget se t = Some v -> po_inv H t se go true (CPopping (pop_rest t v))
  | ci_swap v : 0 < t -> go = take (Z.to_nat (t - 1)) se -> zget se (t - 1) = Some v ->
      po_inv H t se go false (CPopping (do! m := swap_popped in do! _u := wake_mask m in Done (Some v)))
  | ci_wake m v : 0 < t -> go = take (Z.to_nat (t - 1)) se -> zget se (t - 1) = Some v ->
      po_inv H t se go false (CPopping (do! _u := wake_mask m in Done (Some v)))
  | ci_some v : 0 < t -> go = take (Z.to_nat (t - 1)) se -> zget se (t - 1) = Some v -> po_inv H t se go false (CPopping (Done (Some v))).

Definition sys_inv (s : sys (T := T)) : Prop := exists H t rd,
  base (queue s) H t rd (sent s) /\ pu_inv (queue s) H t (sent s) (pu s) /\ po_inv H t (sent s) (got s) rd (po s).

(** ** Each end leaves the other alone *)

Lemma pu_inv_pop q q' H t t' se p : pu_inv q H t se p -> t <= t' ->
  zget (storage q') (H mod N) = zget (storage q) (H mod N) -> pu_inv q' H t' se p.
Proof using HN. destruct 1; intros Ht Hz; econstructor; try done; try lia; try (by rewrite Hz); intros Hne; assert (H - t < N - 1) by auto; lia.
Qed.

Lemma po_inv_push H H' t se se' go rd p : po_inv H t se go rd p -> H <= H' -> t <= zlen se -> se' = se \/ (exists v, se' = se ++ [v]) ->
  po_inv H' t se' go rd p.
Proof using HN.
  intros Hi HH Ht Hs.
  assert (forall k, k <= t -> take (Z.to_nat k) se' = take (Z.to_nat k) se) as Htk.
  { intros k Hk. destruct Hs as [-> | [v ->]]; [done|]. rewrite take_app_le; [done|]. unfold zlen in Ht. lia. }
  assert (forall k v, zget se k = Some v -> zget se' k = Some v) as Hg.
  { intros k v Hk. destruct Hs as [-> | [w ->]]; [done|]. unfold zget in *. destruct (0 <=? k); [|done]. by apply lookup_app_l_Some. }
  destruct Hi; econstructor; try done; try lia; try (by rewrite Htk by lia); by apply Hg.
Qed.
Lemma sent_old (t : Z) se v k : k <= zlen se -> take (Z.to_nat k) (se ++ [v]) = take (Z.to_nat k) se.
Proof. intros Hk. unfold zlen in Hk. apply take_app_le. lia. Qed.

Lemma take_next t se v : 0 <= t -> zget se t = Some v -> take (Z.to_nat (t + 1)) se = take (Z.to_nat t) se ++ [v].
Proof.
  intros Ht Hv. unfold zget in Hv. rewrite (proj2 (Z.leb_le _ _) Ht) in Hv. replace (Z.to_nat (t + 1)) with (S (Z.to_nat t)) by lia.
  by apply take_S_r.
Qed.

Lemma zget_last se v : zget (se ++ [v]) (zlen se) = Some v.
Proof. unfold zget, zlen. rewrite (proj2 (Z.leb_le _ _)) by lia. rewrite Nat2Z.id. by rewrite list_lookup_middle. Qed.

Lemma base_same q q' H t rd se : base q H t rd se -> storage q' = storage q -> head q' = head q -> tail q' = tail q -> base q' H t rd se.
Proof. intros []. intros E1 E2 E3. constructor; rewrite ?E1, ?E2, ?E3; done. Qed.

Lemma base_more q H t rd se v : base q H t rd se -> base q H t rd (se ++ [v]).
Proof.
  intros [HL Hh Ht Ho Hr Hs Hl]. constructor; try done.
  - rewrite zlen_app. change (zlen [v]) with 1. lia.
  - intros i Hi Hrd. rewrite (Hl i Hi Hrd). f_equal. unfold zget. rewrite (proj2 (Z.leb_le _ _)) by lia.
    unfold zlen in *. rewrite lookup_app_l; [done|lia].
Qed.

(** ** The next action of either end: no fault, and the invariant again *)

Lemma slot_ok q H t rd se i : base q H t rd se -> in_bounds (storage q) (i mod N) = true.
Proof using HN. intros []. apply in_bounds_true. rewrite b_len0. apply Z.mod_pos_bound. lia. Qed.

Lemma reserving_step q H t rd se r : base q H t rd se -> pu_inv q H t se (PReserving r) ->
  exists r', advance r q = Ret r' q /\ pu_inv q H t se (PReserving r').
Proof using HN.
  intros HB Hp. pose proof HB as [HL Hh Ht Ho Hr Hs Hl]. inversion Hp; subst r.
  - eexists. split; [reflexivity|]. rewrite Hh. by apply pi_head.
  - eexists. split; [reflexivity|]. apply pi_tail; [done|]. intros Hne. rewrite Ht in Hne.
    destruct (decide (H - t = N - 1)) as [E|E]; [|lia]. exfalso. apply Hne. replace (H + 1) with (t + 1 * N) by lia. by rewrite Z_mod_plus_full.
  - eexists. split; [reflexivity|]. cbn zeta. rewrite next_index_mod by (done || lia).
    destruct (Z.eqb_spec ((H + 1) mod N) t0); [by apply pi_none|]. apply pi_ref; auto.
  - eexists. split; [reflexivity|]. by apply pi_none.
  - eexists. split; [|by apply pi_some]. cbn. unfold slot_ref. munfold. by rewrite (slot_ok q H t rd se H HB).
  - eexists. split; [reflexivity|]. by apply pi_some.
Qed.

Lemma zget_write q i j (x : option T) : zlen (storage q) = N -> 0 <= i -> 0 <= j ->
  zget (zset (storage q) (i mod N) x) (j mod N) = if decide (i mod N = j mod N) then Some x else zget (storage q) (j mod N).
Proof using HN.
  intros HL Hi Hj. pose proof (Z.mod_pos_bound i N ltac:(lia)). destruct (decide (i mod N = j mod N)) as [E|E].
  - rewrite <-E. apply zget_zset_eq. lia.
  - by apply zget_zset_ne.
Qed.

Lemma pushing_step q H t rd se r : base q H t rd se -> pu_inv q H t se (PPushing r) ->
  exists r' q' H', advance r q = Ret r' q' /\ H <= H' /\ base q' H' t rd se /\ pu_inv q' H' t se (PPushing r').
Proof using HN.
  intros HB Hp. pose proof HB as [HL Hh Ht Ho Hr Hs Hl]. inversion Hp; subst r.
  - eexists _, (with_storage (zset (storage q) (H mod N) (Some v)) q), H. split; [|split; [lia|split]].
    + cbn. unfold write_slot, zstore. munfold. by rewrite (slot_ok q H t rd se H HB).
    + constructor; cbn; try done; [by rewrite zlen_zset|]. intros i Hi Hrd. rewrite zget_write by (done || lia).
      destruct (decide (H mod N = i mod N)) as [E|E]; [|by apply Hl]. symmetry in E. apply mod_apart in E; [done|lia|lia].
    + apply pi_store; [done|done|]. cbn. rewrite zget_write by (done || lia). destruct (decide _); [congruence|done].
  - eexists _, (with_head ((H + 1) mod N) q), (H + 1). split; [reflexivity|]. split; [lia|]. split; [|by apply pi_swap].
    constructor; cbn; try done; try lia. intros i Hi Hrd. destruct (decide (i = H)) as [->|]; [done|]. apply Hl; [lia|done].
  - eexists _, (with_pushed 0 q), H. split; [reflexivity|]. split; [lia|]. split; [by eapply base_same|]. by apply pi_wake.
  - eexists _, (with_wake _ q), H. split; [reflexivity|]. split; [lia|]. split; [by eapply base_same|]. by apply pi_done.
  - eexists _, q, H. split; [reflexivity|]. split; [lia|]. split; [done|]. by apply pi_done.
Qed.

Lemma popping_step q H t rd se go r : base q H t rd se -> po_inv H t se go rd (CPopping r) ->
  exists r' q' t' rd', advance r q = Ret r' q' /\ t <= t' /\ base q' H t' rd' se /\ po_inv H t' se go rd' (CPopping r') /\
    zget (storage q') (H mod N) = zget (storage q) (H mod N).
Proof using HN.
  intros HB Hp. pose proof HB as [HL Hh Ht Ho Hr Hs Hl]. inversion Hp; subst r; subst rd.
  - eexists _, q, t, false. split; [reflexivity|]. split; [lia|]. split; [done|]. split; [|done]. rewrite Ht. by apply ci_tail.
  - eexists _, q, t, false. split; [reflexivity|]. split; [lia|]. split; [done|]. split; [|done]. rewrite Hh.
    destruct (Z.eqb_spec (H mod N) (t mod N)) as [E|E]; [by apply ci_none|]. apply ci_head; [done|].
    destruct (decide (t = H)) as [->|]; [done|lia].
  - eexists _, q, t, false. split; [reflexivity|]. split; [lia|]. split; [done|]. split; [|done]. by apply ci_none.
  - eexists _, q, t, false. split; [reflexivity|]. split; [lia|]. split; [done|]. split; [|done]. cbn beta zeta.
    rewrite next_index_mod by (done || lia). by apply ci_ref.
  - eexists _, q, t, false. split; [|split; [lia|split; [done|split; [|done]]]]; [|by apply ci_read].
    cbn. unfold slot_ref. munfold. by rewrite (slot_ok q H t false se t HB).
  - destruct (zget se t) as [v|] eqn:Ev.
    2: { unfold zget in Ev. rewrite (proj2 (Z.leb_le _ _)) in Ev by lia. apply lookup_ge_None in Ev. unfold zlen in *. lia. }
    eexists _, (with_storage (zset (storage q) (t mod N) None) q), t, true. split; [|split; [lia|split; [|split]]].
    + cbn. unfold read_slot. munfold. rewrite (Hl t ltac:(lia)) by done. by rewrite Ev.
    + constructor; cbn; try done; [by rewrite zlen_zset|]. intros i Hi Hrd. specialize (Hrd eq_refl). rewrite zget_write by (done || lia).
      destruct (decide (t mod N = i mod N)) as [E|E]; [|by apply Hl]. apply mod_apart in E; [done|lia|lia].
    + by apply ci_store.
    + cbn. rewrite zget_write by (done || lia). destruct (decide (t mod N = H mod N)) as [E|E]; [|done].
      apply mod_apart in E; [done|lia|lia].
  - eexists _, (with_tail ((t + 1) mod N) q), (t + 1), false. split; [reflexivity|]. split; [lia|]. split; [|split; [|done]].
    + constructor; cbn; try done; try lia. intros i Hi _. apply Hl; [lia|]. intros _. lia.
    + apply ci_swap; [lia|by replace (t + 1 - 1) with t by lia|by replace (t + 1 - 1) with t by lia].
  - eexists _, (with_popped 0 q), t, false. split; [reflexivity|]. split; [lia|]. split; [by eapply base_same|]. split; [|done]. by apply ci_wake.
  - eexists _, (with_wake _ q), t, false. split; [reflexivity|]. split; [lia|]. split; [by eapply base_same|]. split; [|done]. by apply ci_some.
  - eexists _, q, t, false. split; [reflexivity|]. split; [lia|]. split; [done|]. split; [|done]. by apply ci_some.
Qed.

Lemma step_inv s s' : sys_inv s -> sys_step s s' -> sys_inv s'.
Proof using HN.
  intros (H & t & rd & HB & Hp & Hc) Hs. destruct Hs; cbn [SpscSpec.queue SpscSpec.pu SpscSpec.po SpscSpec.sent SpscSpec.got] in *; unfold sys_inv; cbn [SpscSpec.queue SpscSpec.pu SpscSpec.po SpscSpec.sent SpscSpec.got].
  - exists H, t, rd. split; [done|]. split; [|done]. inversion Hp; subst. by apply pi_start.
  - destruct (reserving_step _ _ _ _ _ _ HB Hp) as (r' & E & Hp'). rewrite E in H0. injection H0 as -> <-. by exists H, t, rd.
  - exists H, t, rd. split; [done|]. split; [|done]. inversion Hp; subst. by apply pi_idle.
  - exists H, t, rd. split; [done|]. split; [|done]. inversion Hp; subst. by apply pi_hold.
  - exists H, t, rd. split; [done|]. split; [|done]. inversion Hp; subst. by apply pi_idle.
  - exists H, t, rd. split; [by apply base_more|]. inversion Hp; subst. pose proof HB as [HL Hh Ht Ho Hr Hsn Hl]. split.
    + apply pi_write; [by rewrite zlen_app|apply zget_last|done].
    + eapply po_inv_push; [exact Hc|lia|lia|]. right. by exists v.
  - destruct (pushing_step _ _ _ _ _ _ HB Hp) as (r' & q1 & H' & E & Hle & HB' & Hp'). rewrite E in H0. injection H0 as -> <-.
    exists H', t, rd. split; [done|]. split; [done|]. pose proof HB as [HL Hh Ht Ho Hr Hsn Hl]. eapply po_inv_push; [exact Hc|lia|lia|by left].
  - exists H, t, rd. split; [done|]. split; [|done]. inversion Hp; subst. by apply pi_idle.
  - exists H, t, rd. split; [done|]. split; [done|]. inversion Hc; subst. by apply ci_start.
  - destruct (popping_step _ _ _ _ _ _ _ HB Hc) as (r' & q1 & t' & rd' & E & Hle & HB' & Hc' & Hz). rewrite E in H0. injection H0 as -> <-.
    exists H, t', rd'. split; [done|]. split; [|done]. by eapply pu_inv_pop.
  - exists H, t, rd. split; [done|]. split; [done|]. inversion Hc; subst. by apply ci_idle.
  - exists H, t, rd. split; [done|]. split; [done|]. inversion Hc; subst. apply ci_idle.
    rewrite <-take_next; [by replace (t - 1 + 1) with t by lia|lia|done].
Qed.

Lemma reach_inv s : sys_reach (Z.to_nat N) s -> sys_inv s.
Proof using HN.
  induction 1 as [|s s' _ IH Hs]; [|by eapply step_inv]. exists 0, 0, false. cbn. split; [|split; [by apply pi_idle|by apply ci_idle]].
  constructor; cbn; try lia; try (rewrite Z.mod_0_l by lia; done); [|done]. rewrite zlen_replicate. lia.
Qed.
(** ** What the invariant says of the threads *)

Lemma pu_touch q H t se p i : pu_inv q H t se p -> pu_touching p = Some i -> i = H mod N /\ H - t < N - 1.
Proof. destruct 1; intros E; try discriminate E. injection E as <-. by split. Qed.

Lemma po_touch H t se go rd p i : po_inv H t se go rd p -> po_touching p = Some i -> i = t mod N /\ t < H.
Proof. destruct 1; intros E; try discriminate E. injection E as <-. by split. Qed.

Lemma pu_sent q H t se p rd : base q H t rd se -> pu_inv q H t se p -> zlen se - t < N.
Proof using HN. intros [HL Hh Ht Ho Hr Hs Hl]. destruct 1; lia. Qed.

Lemma po_got H t se go rd p : 0 <= t -> po_inv H t se go rd p -> exists k, go = take (Z.to_nat k) se /\ t - 1 <= k <= t /\ 0 <= k.
Proof. intros Ht. destruct 1; first [exists t; split; [done|lia]|exists (t - 1); split; [done|lia]]. Qed.

(** ** What is in the queue *)

Lemma queued_stream q H t se : base q H t false se -> queued q = take (Z.to_nat (H - t)) (drop (Z.to_nat t) se).
Proof using HN.
  intros [HL Hh Ht Ho Hr Hs Hl]. unfold queued. rewrite HL, Hh, Ht.
  replace ((H mod N - t mod N) mod N) with (H - t) by (rewrite <-Zminus_mod, Z.mod_small; lia).
  assert (forall n, Z.of_nat n <= H - t ->
    omap (fun k => match zget (storage q) ((t mod N + k) mod N) with Some o => o | None => None end) (zrange 0 n)
    = take n (drop (Z.to_nat t) se)) as Hn; [|apply Hn; lia].
  induction n as [|n IH]; intros Hle; [by rewrite take_0|]. rewrite zrange_S, omap_app, IH by lia. cbn [omap list_omap].
  rewrite Zplus_mod_idemp_l. rewrite (Hl (t + (0 + Z.of_nat n))) by (lia || done).
  unfold zget. rewrite (proj2 (Z.leb_le _ _)) by lia. replace (Z.to_nat (t + (0 + Z.of_nat n))) with (Z.to_nat t + n)%nat by lia.
  rewrite <-lookup_drop. destruct (drop (Z.to_nat t) se !! n) as [v|] eqn:E; [by rewrite (take_S_r _ _ _ E)|].
  apply lookup_ge_None in E. rewrite length_drop in E. unfold zlen in Hs. lia.
Qed.
(** ** One end alone *)

Lemma try_reserve_run q H t se : base q H t false se -> zlen se = H ->
  run try_reserve q = Ret (if H - t <? N - 1 then Some (entry_at H) else None) q.
Proof using HN.
  intros HB Hz. pose proof HB as [HL Hh Ht Ho Hr Hs Hl]. unfold try_reserve. cbn [run]. unfold load_head, load_tail, slot_ref. munfold.
  rewrite Hh, Ht. cbn zeta. rewrite next_index_mod by (done || lia).
  destruct (Z.ltb_spec (H - t) (N - 1)) as [E|E]; destruct (Z.eqb_spec ((H + 1) mod N) (t mod N)) as [E'|E'].
  - symmetry in E'. apply mod_apart in E'; lia.
  - cbn [run]. munfold. by rewrite (slot_ok q H t false se H HB).
  - done.
  - exfalso. apply E'. replace (H + 1) with (t + 1 * N) by lia. by rewrite Z_mod_plus_full.
Qed.

(** The queue after a push through [e]. *)
Definition pushed_at (e : Entry) (v : T) q : Queue T :=
  mkQueue (zset (storage q) (slot e) (Some v)) (h_next e) (tail q) 0 (popped q) (Z.lor (wake_bits q) (pushed q)).

Lemma entry_push_run e v q : in_bounds (storage q) (slot e) = true ->
  run (entry_push e v) q = Ret tt (pushed_at e v q).
Proof.
  intros Hi. unfold entry_push, write_slot, zstore, store_head, swap_pushed, wake_mask. cbn [run]. munfold. rewrite Hi. done.
Qed.

Lemma base_push q q' H t se v : base q H t false se -> zlen se = H -> H - t < N - 1 -> storage q' = zset (storage q) (H mod N) (Some v) ->
  head q' = (H + 1) mod N -> tail q' = tail q -> base q' (H + 1) t false (se ++ [v]).
Proof using HN.
  intros [HL Hh Ht Ho Hr Hs Hl] Hz Hroom E1 E2 E3. constructor; rewrite ?E1, ?E2, ?E3; try done; try lia.
  - by rewrite zlen_zset.
  - rewrite zlen_app. change (zlen [v]) with 1. lia.
  - intros i Hi _. rewrite zget_write by (done || lia). destruct (decide (i = H)) as [->|Hne].
    + rewrite decide_True by done. rewrite <-Hz. by rewrite zget_last.
    + rewrite decide_False by (intros E; symmetry in E; apply mod_apart in E; lia). rewrite Hl by (done || lia).
      unfold zget. rewrite (proj2 (Z.leb_le _ _)) by lia. unfold zlen in *. rewrite lookup_app_l; [done|lia].
Qed.

Lemma try_pop_run q H t se : base q H t false se ->
  if t <? H then exists v q', zget se t = Some v /\ run try_pop q = Ret (Some v) q' /\ base q' H (t + 1) false se
  else run try_pop q = Ret None q.
Proof using HN.
  intros HB. pose proof HB as [HL Hh Ht Ho Hr Hs Hl]. unfold try_pop. cbn [run].
  unfold load_head, load_tail, slot_ref, read_slot, store_tail, swap_popped, wake_mask. munfold. rewrite Hh, Ht. destruct (Z.ltb_spec t H) as [E|E].
  - destruct (zget se t) as [v|] eqn:Ev.
    2: { unfold zget in Ev. rewrite (proj2 (Z.leb_le _ _)) in Ev by lia. apply lookup_ge_None in Ev. unfold zlen in *. lia. }
    exists v. rewrite (proj2 (Z.eqb_neq _ _)) by (intros E'; symmetry in E'; apply mod_apart in E'; lia). cbn [run].
    munfold. rewrite (slot_ok q H t false se t HB). rewrite (Hl t ltac:(lia)) by done. rewrite Ev. rewrite next_index_mod by (done || lia).
    eexists. split; [done|]. split; [reflexivity|]. constructor; cbn; try done; try lia; [by rewrite zlen_zset|].
    intros i Hi _. rewrite zget_write by (done || lia). rewrite decide_False by (intros E'; apply mod_apart in E'; lia). apply Hl; [lia|done].
  - assert (t = H) as -> by lia. by rewrite Z.eqb_refl.
Qed.

Lemma drop_run fuel : forall q H t se, zlen (storage q) = N -> 0 <= t <= H -> H - t < N -> H <= zlen se ->
  (forall i, t <= i < H -> zget (storage q) (i mod N) = Some (zget se i)) -> H - t <= Z.of_nat fuel ->
  exists q', drop_from fuel (H mod N) (t mod N) q = Ret (take (Z.to_nat (H - t)) (drop (Z.to_nat t) se)) q'.
Proof using HN.
  induction fuel as [|fuel IH]; intros q H t se HL Ho Hr Hs Hl Hf; cbn [drop_from].
  - assert (t = H) as -> by lia. rewrite Z.eqb_refl, Z.sub_diag. by exists q.
  - destruct (decide (t = H)) as [->|Hne]; [rewrite Z.eqb_refl, Z.sub_diag; by exists q|].
    rewrite (proj2 (Z.eqb_neq _ _)) by (intros E; symmetry in E; apply mod_apart in E; lia).
    destruct (drop (Z.to_nat t) se) as [|v l] eqn:Ed.
    { apply (f_equal length) in Ed. rewrite length_drop in Ed. unfold zlen in *. cbn in Ed. lia. }
    assert (zget se t = Some v) as Ev.
    { unfold zget. rewrite (proj2 (Z.leb_le _ _)) by lia. rewrite <-(Nat.add_0_r (Z.to_nat t)), <-lookup_drop, Ed. done. }
    set (q1 := with_storage (zset (storage q) (t mod N) None) q).
    assert (read_slot (t mod N) q = Ret v q1) as E1 by (unfold read_slot; munfold; rewrite (Hl t) by lia; by rewrite Ev).
    assert (zlen (storage q1) = N) as HL1 by (cbn; by rewrite zlen_zset).
    rewrite (m_bind_Ret _ _ _ _ _ E1). rewrite (m_bind_Ret _ _ _ q1 q1) by done. rewrite next_index_mod by (done || lia).
    destruct (IH q1 H (t + 1) se HL1) as (q' & E); try lia.
    { intros i Hi. unfold q1. cbn [storage with_storage]. rewrite zget_write by (done || lia).
      rewrite decide_False by (intros E'; apply mod_apart in E'; lia). apply Hl. lia. }
    exists q'. rewrite (m_bind_Ret _ _ _ _ _ E). replace (Z.to_nat (H - t)) with (S (Z.to_nat (H - (t + 1)))) by lia.
    replace (Z.to_nat (t + 1)) with (Z.to_nat t + 1)%nat by lia. rewrite <-drop_drop, Ed. done.
Qed.

Lemma can_push_run q H t se : base q H t false se -> run can_push q = Ret (H - t <? N - 1) q.
Proof using HN.
  intros [HL Hh Ht Ho Hr Hs Hl]. unfold can_push. cbn [run]. unfold load_head, load_tail. munfold. rewrite Hh, Ht, next_index_mod by (done || lia).
  f_equal. destruct (Z.ltb_spec (H - t) (N - 1)) as [E|E]; destruct (Z.eqb_spec ((H + 1) mod N) (t mod N)) as [E'|E']; try done.
  - symmetry in E'. apply mod_apart in E'; lia.
  - exfalso. apply E'. replace (H + 1) with (t + 1 * N) by lia. by rewrite Z_mod_plus_full.
Qed.

Lemma can_pop_run q H t se : base q H t false se -> run can_pop q = Ret (t <? H) q.
Proof using HN.
  intros [HL Hh Ht Ho Hr Hs Hl]. unfold can_pop. cbn [run]. unfold load_head, load_tail. munfold. rewrite Hh, Ht. f_equal.
  destruct (Z.ltb_spec t H) as [E|E]; destruct (Z.eqb_spec (H mod N) (t mod N)) as [E'|E']; try done.
  - symmetry in E'. apply mod_apart in E'; lia.
  - exfalso. apply E'. f_equal. lia.
Qed.

(** What is in an idle queue. *)
Lemma queued_idle q H t se : base q H t false se -> zlen se = H -> queued q = drop (Z.to_nat t) se.
Proof using HN.
  intros HB Hz. rewrite (queued_stream _ _ _ _ HB). pose proof HB as [HL Hh Ht Ho Hr Hs Hl]. apply take_ge. rewrite length_drop. unfold zlen in *. lia.
Qed.

(** An idle queue, for any counts. *)
Lemma idle_queued q H t se : base q H t false se -> zlen se = H -> length (queued q) = Z.to_nat (H - t).
Proof using HN.
  intros HB Hz. rewrite (queued_stream _ _ _ _ HB). pose proof HB as [HL Hh Ht Ho Hr Hs Hl]. rewrite length_take, length_drop. unfold zlen in *. lia.
Qed.
End proofs.

Section theorems.
Context {T : Type}.
Implicit Types (s : sys (T := T)) (q : Queue T).

(** A queue in a state that both ends have left idle. *)
Definition settled (n : nat) q : Prop := exists se go, sys_reach n (mkSys q PIdle CIdle se go).

Lemma settled_base (n : nat) q : 0 < Z.of_nat n < 2 ^ 64 -> settled n q -> exists H t se, base (Z.of_nat n) q H t false se /\ zlen se = H.
Proof.
  intros Hn (se & go & Hr). replace n with (Z.to_nat (Z.of_nat n)) in Hr by lia.
  destruct (reach_inv (Z.of_nat n) Hn _ Hr) as (H & t & rd & HB & Hp & Hc). exists H, t, se. cbn in *.
  inversion Hp. inversion Hc; subst rd. done.
Qed.

(** Alone, the ends are those of a bounded queue of [n - 1] elements: [try_push] adds at the back unless the queue is full, [try_pop] takes
    from the front unless it is empty, [can_push] and [can_pop] tell which, and dropping the queue drops exactly what is in it. *)
Theorem spsc_bounded_queue (n : nat) q v (Hn : 0 < Z.of_nat n < 2 ^ 64) (Hq : settled n q) :
  (if bool_decide (length (queued q) < n - 1)%nat
   then run can_push q = Ret true q /\ exists q', run (try_push v) q = Ret true q' /\ queued q' = queued q ++ [v]
   else run can_push q = Ret false q /\ run (try_push v) q = Ret false q) /\
  match queued q with
  | x :: l => run can_pop q = Ret true q /\ exists q', run try_pop q = Ret (Some x) q' /\ queued q' = l
  | [] => run can_pop q = Ret false q /\ run try_pop q = Ret None q
  end /\
  exists q', drop_queue q = Ret (queued q) q'.
Proof.
  destruct (settled_base n q Hn Hq) as (H & t & se & HB & Hz). pose proof HB as [HL Hh Ht Ho Hr Hs Hl].
  pose proof (idle_queued _ Hn _ _ _ _ HB Hz) as Hlen. set (N := Z.of_nat n) in *. split; [|split].
  - rewrite (can_push_run N Hn _ _ _ _ HB). unfold try_push. rewrite run_andthen, (m_bind_Ret _ _ _ _ _ (try_reserve_run N Hn _ _ _ _ HB Hz)).
    case_bool_decide as E; [rewrite (proj2 (Z.ltb_lt _ _)) by lia|by rewrite (proj2 (Z.ltb_ge _ _)) by lia].
    split; [done|]. exists (pushed_at (entry_at N H) v q). rewrite run_andthen. rewrite (m_bind_Ret _ _ _ _ _ (entry_push_run (entry_at N H) v q (slot_ok N Hn _ _ _ _ _ H HB))).
    split; [reflexivity|]. assert (H - t < N - 1) as Hroom by lia.
    assert (base N (pushed_at (entry_at N H) v q) (H + 1) t false (se ++ [v])) as HB' by (by apply (base_push N Hn q)).
    rewrite (queued_idle N Hn _ _ _ _ HB'), (queued_idle N Hn _ _ _ _ HB Hz) by (by rewrite zlen_app, Hz).
    rewrite drop_app_le; [done|]. unfold zlen in Hz. lia.
  - rewrite (can_pop_run N Hn _ _ _ _ HB). pose proof (try_pop_run N Hn _ _ _ _ HB) as Hp. rewrite (queued_idle N Hn _ _ _ _ HB Hz).
    destruct (Z.ltb_spec t H) as [E|E].
    + destruct Hp as (x & q' & Ex & Ep & HB'). unfold zget in Ex. rewrite (proj2 (Z.leb_le _ _)) in Ex by lia. rewrite (drop_S _ _ _ Ex).
      split; [done|]. exists q'. split; [done|]. rewrite (queued_idle N Hn _ _ _ _ HB' Hz). f_equal. lia.
    + rewrite drop_ge; [done|]. unfold zlen in Hz. lia.
  - unfold drop_queue. rewrite (m_bind_Ret _ _ _ q q) by done. rewrite Hh, Ht, (queued_stream _ Hn _ _ _ _ HB).
    apply (drop_run N Hn); try done; try lia; [intros i Hi; by apply Hl|unfold zlen in HL; lia].
Qed.

(** The type of [try_reserve] ([Option<Entry<'q, T>>], not a borrow of the pusher) lets a second entry be taken while the first is
    held.  Both are the same slot: the value that was pushed through the first is overwritten, neither popped nor dropped. *)
Theorem two_entries_lose_a_value (n : nat) q v1 v2 (Hn : 0 < Z.of_nat n < 2 ^ 64) (Hq : settled n q) (Hroom : (length (queued q) < n - 1)%nat) :
  exists e q1 q2, run try_reserve q = Ret (Some e) q /\ run (entry_push e v1) q = Ret tt q1 /\ run (entry_push e v2) q1 = Ret tt q2 /\
    queued q1 = queued q ++ [v1] /\ queued q2 = queued q ++ [v2].
Proof.
  destruct (settled_base n q Hn Hq) as (H & t & se & HB & Hz). pose proof HB as [HL Hh Ht Ho Hr Hs Hl].
  pose proof (idle_queued _ Hn _ _ _ _ HB Hz) as Hlen. set (N := Z.of_nat n) in *. assert (H - t < N - 1) as Hlt by lia.
  exists (entry_at N H), (pushed_at (entry_at N H) v1 q), (pushed_at (entry_at N H) v2 (pushed_at (entry_at N H) v1 q)). split; [rewrite (try_reserve_run N Hn _ _ _ _ HB Hz); by rewrite (proj2 (Z.ltb_lt _ _)) by lia|].
  split; [apply entry_push_run; by eapply slot_ok|]. split; [apply entry_push_run; cbn [pushed_at storage slot entry_at]|].
  { apply in_bounds_true. rewrite zlen_zset, HL. apply Z.mod_pos_bound. lia. }
  assert (base N (pushed_at (entry_at N H) v1 q) (H + 1) t false (se ++ [v1])) as HB1 by (by apply (base_push N Hn q)).
  assert (base N (pushed_at (entry_at N H) v2 (pushed_at (entry_at N H) v1 q)) (H + 1) t false (se ++ [v2])) as HB2.
  { apply (base_push N Hn q); try done. cbn [pushed_at storage slot entry_at]. unfold zset. case_match; [|done]. by rewrite list_insert_insert_eq. }
  rewrite (queued_idle N Hn _ _ _ _ HB1), (queued_idle N Hn _ _ _ _ HB2), (queued_idle N Hn _ _ _ _ HB Hz) by (by rewrite zlen_app, Hz).
  rewrite !drop_app_le by (unfold zlen in Hz; lia). done.
Qed.

(** Without any storage the index of the sentinel is out of range: the first [try_reserve] takes a reference past the end. *)
Lemma empty_storage_out_of_bounds : run try_reserve (q_new (T := T) 0) = Fault OutOfBounds.
Proof. reflexivity. Qed.

(** C20. For any interleaving of the atomic actions of a pusher and a popper on a queue with [n] slots, at least one and less than
    2^64, where the pusher holds one entry at a time and uses or drops it before it reserves the next: no end ever meets a fault (a slot out of
    range, an element that is not there), the two never touch the same slot at the same time, and what was popped is a prefix of
    what was pushed, in order, at most [n] behind.  When both ends are idle, what was pushed is what was popped and then what is in
    the queue, which is less than [n]. *)
Theorem spsc_fifo (n : nat) s (Hn : 0 < Z.of_nat n < 2 ^ 64) (Hr : sys_reach n s) :
  ~ pu_faults (pu s) (queue s) /\ ~ po_faults (po s) (queue s) /\
  (forall i, pu_touching (pu s) = Some i -> po_touching (po s) <> Some i) /\
  (exists rest, sent s = got s ++ rest /\ (length rest <= n)%nat) /\
  (pu s = PIdle -> po s = CIdle -> sent s = got s ++ queued (queue s) /\ (length (queued (queue s)) < n)%nat).
Proof.
  replace n with (Z.to_nat (Z.of_nat n)) in Hr by lia.
  destruct (reach_inv (Z.of_nat n) Hn s Hr) as (H & t & rd & HB & Hp & Hc). set (N := Z.of_nat n) in *.
  pose proof HB as [HL Hh Ht Ho Hrm Hs Hl]. split_and!.
  - destruct (pu s) as [|r|e|r] eqn:Ep; cbn; try (by intros []); intros [f E].
    + destruct (reserving_step N Hn _ _ _ _ _ r HB Hp) as (r' & E' & _). by rewrite E' in E.
    + destruct (pushing_step N Hn _ _ _ _ _ r HB Hp) as (r' & q' & H' & E' & _). by rewrite E' in E.
  - destruct (po s) as [|r] eqn:Ep; cbn; [by intros []|]. intros [f E].
    destruct (popping_step N Hn _ _ _ _ _ _ r HB Hc) as (r' & q' & t' & rd' & E' & _). by rewrite E' in E.
  - intros i E1 E2. destruct (pu_touch N _ _ _ _ _ _ Hp E1) as [-> Hroom]. destruct (po_touch N _ _ _ _ _ _ _ Hc E2) as [E Hlt].
    symmetry in E. by apply (mod_apart N Hn) in E; lia.
  - destruct (po_got N _ _ _ _ _ _ (proj1 Ho) Hc) as (k & -> & Hk & H0). exists (drop (Z.to_nat k) (sent s)). split; [by rewrite take_drop|].
    pose proof (pu_sent N Hn _ _ _ _ _ _ HB Hp) as Hlt. rewrite length_drop. unfold zlen in Hlt. lia.
  - intros Ep Ec. rewrite Ep in Hp. rewrite Ec in Hc. inversion Hp as [Hz| | | | | | | | | | | |]. inversion Hc as [Hg| | | | | | | | | |]; subst rd.
    rewrite (queued_stream N Hn _ _ _ _ HB). rewrite (take_ge (drop _ _)) by (rewrite length_drop; unfold zlen in *; lia).
    split; [by rewrite Hg, take_drop|]. rewrite length_drop. unfold zlen in *. lia.
Qed.
End theorems.

(** [pop] waits with [until], which is for code that is not preempted: a push from an interrupt handler that comes between its failed [try_pop] and its
    subscription wakes nobody, and the popper sleeps although the queue is not empty. *)
Lemma pop_misses_an_interrupt : exists q, interleave (pop_poll 4) (try_push 5) (q_new (T := Z) 3) None true q /\
  queued q = [5] /\ wake_bits q = 0.
Proof.
  eexists. split; [|split].
  - do 2 (eapply i_left; [done|reflexivity|]). do 8 (eapply i_right; [done|reflexivity|]). eapply i_left; [done|reflexivity|]. apply i_done.
  - reflexivity.
  - reflexivity.
Qed.

(** The popper starts while the pusher is in the middle of pushing 5. *)
Lemma spsc_fifo_witness : exists s : sys (T := Z), sys_reach 2 s /\ sent s = [5] /\ (exists p, pu s = PPushing p) /\ ~ po_faults (po s) (queue s).
Proof.
  pose proof (sr_start (T := Z) 2) as Hr. eapply sr_next in Hr; [|apply s_reserve].
  do 4 (eapply sr_next in Hr; [|apply s_reserving; reflexivity]). eapply sr_next in Hr; [|apply s_reserved].
  eapply sr_next in Hr; [|apply (s_push _ _ 5)]. eapply sr_next in Hr; [|apply s_pushing; reflexivity].
  eapply sr_next in Hr; [|apply s_pop].
  eexists. split; [exact Hr|]. destruct (spsc_fifo 2 _ ltac:(lia) Hr) as (_ & Hf & _). split; [reflexivity|]. split; [by eexists|exact Hf].
Defined.

Lemma spsc_bounded_queue_witness : settled 3 (q_new (T := Z) 3) /\ exists q', run (try_push 7) (q_new 3) = Ret true q' /\ queued q' = [7].
Proof.
  assert (settled 3 (q_new (T := Z) 3)) as Hq by (exists [], []; apply sr_start). split; [exact Hq|].
  destruct (spsc_bounded_queue 3 (q_new 3) 7 ltac:(lia) Hq) as ([_ (q' & E & Eq)] & _). exists q'. split; [exact E|]. exact Eq.
Defined.
