(* ===== verification/Watch.v ===== *)
(** * Watch: a value that is watched for changes ([tinyos/rust/tiny/src/watch.rs])

    The value is in a [RefCell], whose borrows are counted, so that a closure that gets at the value while it
    is lent out meets the panic the code has.  Closures are programs on the same state: they may call back. *)
From stdpp Require Import gmap list.
From S2P Require Import Prelude Atomic Exec.

(** src: tinyos/rust/tiny/src/watch.rs 117-121 [Watch]
    [borrow]: -1 while it is lent out for writing, otherwise how often for reading.  [update], [wbits]: the mask of its [Notify] and
    the executor's wake bits.  [seen]: the versions of its receivers. *)
Record Watch (T : Type) := mkWatch {
  version : Z;
  wcontents : T;
  borrow : Z;
  update : Z;
  wbits : Z;
  seen : gmap nat Z;
}.
Arguments mkWatch {T} version wcontents borrow update wbits seen.
Arguments version {T} w.
Arguments wcontents {T} w.
Arguments borrow {T} w.
Arguments update {T} w.
Arguments wbits {T} w.
Arguments seen {T} w.

Section watch.
Context {T : Type}.
Implicit Types w : Watch T.

Definition with_version v w : Watch T := mkWatch v (wcontents w) (borrow w) (update w) (wbits w) (seen w).
Definition with_contents c w : Watch T := mkWatch (version w) c (borrow w) (update w) (wbits w) (seen w).
Definition with_borrow b w : Watch T := mkWatch (version w) (wcontents w) b (update w) (wbits w) (seen w).
Definition with_seen m w : Watch T := mkWatch (version w) (wcontents w) (borrow w) (update w) (wbits w) m.
Definition with_update m b w : Watch T := mkWatch (version w) (wcontents w) (borrow w) m b (seen w).

(** src: tinyos/rust/tiny/src/watch.rs 125-131 [Watch::new] *)
Definition watch_new (c : T) : Watch T := mkWatch 0 c 0 0 0 ∅.

(** [Notify::notify]. *)
Definition watch_notify : M (Watch T) unit := m_modify (fun w => with_update 0 (Z.lor (wbits w) (update w)) w).

(** src: tinyos/rust/tiny/src/watch.rs 205-216 [Sender::send_modify]
    The closure gets the value and returns its result and the new value. *)
Definition send_modify {R} (body : T -> M (Watch T) (R * T)) : M (Watch T) R :=
  let! w := m_get in
  if negb (borrow w =? 0) then m_fault ExplicitPanic
  else
    m_modify (with_borrow (-1)) >>;
    let! r := body (wcontents w) in
    m_modify (with_contents r.2) >>;
    m_modify (fun w => with_version (usize (version w + 1)) w) >>;
    watch_notify >>;
    m_modify (with_borrow 0) >>;
    m_ret r.1.
(** src: tinyos/rust/tiny/src/watch.rs 190-192 [Sender::send_replace] *)
Definition send_replace (value : T) : M (Watch T) T := send_modify (fun r => m_ret (r, value)).
(** src: tinyos/rust/tiny/src/watch.rs 175-177 [Sender::send] *)
Definition send (value : T) : M (Watch T) unit := send_replace value >>; m_ret tt.

(** src: tinyos/rust/tiny/src/watch.rs 144-150 [Watch::subscribe]
    The receiver is the entry [i]. *)
Definition watch_subscribe (i : nat) : M (Watch T) unit := m_modify (fun w => with_seen (<[i := version w]> (seen w)) w).

Definition receiver (i : nat) : M (Watch T) Z := let! w := m_get in m_opt UnwrapNone (seen w !! i).
Definition set_receiver (i : nat) (v : Z) : M (Watch T) unit := m_modify (fun w => with_seen (<[i := v]> (seen w)) w).

(** src: tinyos/rust/tiny/src/watch.rs 279-283 [Receiver::is_changed] *)
Definition is_changed (i : nat) : M (Watch T) bool :=
  let! r := receiver i in let! w := m_get in m_ret (negb (version w =? r)).

(** src: tinyos/rust/tiny/src/watch.rs 261-275 [Receiver::changed]
    One poll of its future: its condition, then the version it saw. *)
Definition changed_cond (i : nat) : prog (Watch T) (option Z) :=
  do! r := receiver i in do! v := m_gets version in Done (if v =? r then None else Some v).
Definition changed_poll (i : nat) (waker : Z) : M (Watch T) bool :=
  let! r := run (until_poll (m_modify (fun w => with_update (Z.lor (update w) waker) (wbits w) w)) (changed_cond i)) in
  match r with Some v => set_receiver i v >>; m_ret true | None => m_ret false end.

(** src: tinyos/rust/tiny/src/watch.rs 323-328 [Receiver::glimpse] *)
Definition glimpse {R} (body : T -> M (Watch T) R) : M (Watch T) R :=
  let! w := m_get in
  if borrow w <? 0 then m_fault ExplicitPanic
  else
    m_modify (with_borrow (borrow w + 1)) >>;
    let! r := body (wcontents w) in
    m_modify (fun w => with_borrow (borrow w - 1) w) >>;
    m_ret r.
(** src: tinyos/rust/tiny/src/watch.rs 343-348 [Receiver::copy_current] *)
Definition copy_current : M (Watch T) T := glimpse m_ret.

(** src: tinyos/rust/tiny/src/watch.rs 413-415 [Receiver::mark_as_seen] *)
Definition mark_as_seen (i : nat) : M (Watch T) unit := let! w := m_get in set_receiver i (version w).
(** src: tinyos/rust/tiny/src/watch.rs 404-409 [Receiver::mark_as_unseen] *)
Definition mark_as_unseen (i : nat) : M (Watch T) unit := let! w := m_get in set_receiver i (usize (version w - 1)).
(** src: tinyos/rust/tiny/src/watch.rs 376-380 [Receiver::glimpse_and_update] *)
Definition glimpse_and_update {R} (i : nat) (body : T -> M (Watch T) R) : M (Watch T) R :=
  let! r := glimpse body in mark_as_seen i >>; m_ret r.
(** src: tinyos/rust/tiny/src/watch.rs 394-399 [Receiver::copy_current_and_update] *)
Definition copy_current_and_update (i : nat) : M (Watch T) T := glimpse_and_update i m_ret.

(** ** A run of sends *)

Fixpoint sends (vs : list T) : M (Watch T) unit :=
  match vs with [] => m_ret tt | v :: vs' => send v >>; sends vs' end.

(** The value sent last. *)
Definition latest (vs : list T) (c : T) : T := fold_left (fun _ x => x) vs c.

Lemma send_run v w : borrow w = 0 ->
  send v w = Ret tt (mkWatch (usize (version w + 1)) v 0 0 (Z.lor (wbits w) (update w)) (seen w)).
Proof. intros Hb. unfold send, send_replace, send_modify, watch_notify. munfold. by rewrite Hb. Qed.

Lemma sends_run vs : forall w, borrow w = 0 -> in_word 64 (version w) ->
  sends vs w = Ret tt (mkWatch (usize (version w + zlen vs)) (latest vs (wcontents w)) 0
    (match vs with [] => update w | _ => 0 end) (match vs with [] => wbits w | _ => Z.lor (wbits w) (update w) end) (seen w)).
Proof.
  induction vs as [|v vs IH]; intros w Hb Hv.
  - cbn. rewrite Z.add_0_r, wrap_small by done. destruct w; cbn in *; by subst.
  - cbn [sends]. rewrite (m_bind_Ret _ _ _ _ _ (send_run v w Hb)). rewrite IH; [|done|by apply wrap_range]. cbn [version wcontents update wbits seen].
    assert (usize (usize (version w + 1) + zlen vs) = usize (version w + zlen (v :: vs))) as ->.
    { unfold wrap. rewrite Zplus_mod_idemp_l. f_equal. unfold zlen. cbn [length]. lia. }
    destruct vs; [done|]. by rewrite Z.lor_0_r.
Qed.

(** A receiver that has seen the present version knows, after fewer than 2^64 values were sent, whether there was any: [is_changed] says so; a poll of [changed] is ready then, and marks
    the last version as seen; [copy_current] is the value sent last; and if the receiver's task waited for [changed] before the first one, it has been woken. *)
Theorem watch_collapses_sends (w : Watch T) (i : nat) (waker : Z) (vs : list T) (Hb : borrow w = 0) (Hv : in_word 64 (version w)) (Hi : seen w !! i = Some (version w))
    (Hn : zlen vs < 2 ^ 64) :
  exists w1 w2, changed_poll i waker w = Ret false w1 /\ sends vs w1 = Ret tt w2 /\
    is_changed i w2 = Ret (negb (bool_decide (vs = []))) w2 /\
    copy_current w2 = Ret (latest vs (wcontents w)) w2 /\
    (exists w3, changed_poll i waker w2 = Ret (negb (bool_decide (vs = []))) w3 /\ (vs <> [] -> is_changed i w3 = Ret false w3)) /\
    (vs <> [] -> forall j, Z.testbit waker j = true -> Z.testbit (wbits w2) j = true).
Proof.
  set (w1 := with_update (Z.lor (update w) waker) (wbits w) w).
  assert (changed_poll i waker w = Ret false w1) as E1.
  { unfold changed_poll, until_poll, changed_cond, receiver. cbn [andthen run]. munfold. rewrite Hi. cbn [run]. munfold. by rewrite Z.eqb_refl. }
  pose proof (sends_run vs w1 Hb Hv) as E2. set (w2 := mkWatch _ _ _ _ _ _) in E2. exists w1, w2. split; [done|]. split; [done|].
  assert ((version w2 =? version w) = bool_decide (vs = [])) as Hvs.
  { cbn [w2 w1 version with_update]. unfold in_word, wrap in *. pose proof (zlen_nonneg vs). case_bool_decide as E.
    - subst. change (zlen []) with 0. rewrite Z.add_0_r, Z.mod_small by lia. by rewrite Z.eqb_refl.
    - assert (0 < zlen vs) by (destruct vs; [done|unfold zlen; cbn [length]; lia]). apply Z.eqb_neq. intros E'.
      destruct (Z.lt_ge_cases (version w + zlen vs) (2 ^ 64)); [rewrite Z.mod_small in E' by lia; lia|].
      replace (version w + zlen vs) with (version w + zlen vs - 2 ^ 64 + 1 * 2 ^ 64) in E' by lia. rewrite Z_mod_plus_full, Z.mod_small in E' by lia. lia. }
  split_and!.
  - unfold is_changed, receiver. munfold. change (seen w2) with (seen w). rewrite Hi. munfold. cbn beta iota. by rewrite Hvs.
  - unfold copy_current, glimpse. munfold. done.
  - unfold changed_poll, until_poll, changed_cond, receiver. cbn [andthen run]. munfold. change (seen w2) with (seen w). rewrite Hi. munfold. cbn [run]. munfold. rewrite Hvs.
    case_bool_decide as E; cbn [run negb]; munfold; eexists; (split; [reflexivity|]); [done|]. intros _. unfold is_changed, receiver. munfold.
    cbn [seen with_seen]. rewrite lookup_insert_eq. munfold. by rewrite Z.eqb_refl.
  - intros Hne j Hj. cbn [w2 wbits]. destruct vs; [done|]. cbn [w1 wbits update with_update]. by rewrite !Z.lor_spec, Hj, !orb_true_r.
Qed.

(** A send from inside a [glimpse], or a [glimpse] from inside a [send_modify], panics. *)
Theorem watch_reentrance_panics w v : borrow w = 0 ->
  glimpse (fun _ => send v) w = Fault ExplicitPanic /\ send_modify (fun c => let! x := copy_current in m_ret (x, c)) w = Fault ExplicitPanic.
Proof. intros Hb. split; [unfold glimpse, send, send_replace, send_modify|unfold send_modify, copy_current, glimpse]; munfold; by rewrite Hb. Qed.
End watch.

Lemma watch_collapses_sends_witness : exists w2, sends [1; 2; 3] (with_seen {[0%nat := 0]} (watch_new 9)) = Ret tt w2 /\ copy_current w2 = Ret 3 w2.
Proof.
  destruct (watch_collapses_sends (with_seen {[0%nat := 0]} (watch_new 9)) 0 0 [1; 2; 3] eq_refl ltac:(done) eq_refl ltac:(done))
    as (w1 & w2 & E1 & E2 & _ & E3 & _). exists w2. split; [|exact E3]. vm_compute in E1. injection E1 as <-. exact E2.
Defined.
