(* ===== verification/Ipi.v ===== *)
(** * Ipi: messages between the cores

    The message queues of the cores and the interrupt that announces a message ([kernel/ipi.rs], the [CpuIf] records of
    [kernel/cpu.rs], the sending in [kernel/interrupt.rs], the acknowledgement in [arch/riscv64/interrupt.rs]).

    The state has the list of the cores' records, the set of the cores for which the interrupt is pending, and the rest
    of the world, which the handlers of messages act on.  A core's handler of the interrupt is written twice: as the code
    runs it, and as one action per critical section ([irq_action]), between which the other cores go on. *)
From stdpp Require Import list gmap.
From S2P Require Import Prelude Vm Sched.

(** ** Messages *)

(** src: kernel/ipi.rs 15-26 [InitcEvent] *)
Inductive InitcEvent :=
  | VgicdGichEn | VgicdSetEn | VgicdSetAct | VgicdSetPend | VgicdSetPrio | VgicdSetTrgt | VgicdSetCfg | VgicdRoute
  | Vgicdinject | InitcNone.

(** src: vmm/manager.rs 37-42 [VmmEvent] *)
Inductive VmmEvent := VmmBoot | VmmReboot | VmmShutdown.
(** src: vmm/manager.rs 44-48 [VmmPercoreEvent] *)
Inductive VmmPercoreEvent := VmmAssignCpu | VmmRemoveCpu.

(** src: kernel/ipi.rs 37-44 [IpiInitcMessage] *)
Record IpiInitcMessage := mkInitc { im_event : InitcEvent; im_vm_id : Z; im_int_id : Z; im_val : Z }.
(** src: kernel/ipi.rs 46-57 [IpiPowerMessage] *)
Record IpiPowerMessage := mkPower { pm_src : Z; pm_vcpuid : Z; pm_event : PowerEvent; pm_entry : Z; pm_context : Z }.
(** src: kernel/ipi.rs 65-69 [IpiEthernetMsg]
    A shared object ([Arc]) is its number, here and below. *)
Record IpiEthernetMsg := mkEther { trgt_nic : Z }.
(** src: kernel/ipi.rs 71-76 [IpiVmmMsg] *)
Record IpiVmmMsg := mkVmmMsg { vm_vmid : Z; vm_event : VmmEvent }.
(** src: kernel/ipi.rs 78-83 [IpiVmmPercoreMsg] *)
Record IpiVmmPercoreMsg := mkPercore { pc_vm : Z; pc_event : VmmPercoreEvent }.
(** src: kernel/ipi.rs 85-92 [IpiMediatedMsg] *)
Record IpiMediatedMsg := mkMediated { md_src_vm : Z; md_vq : Z; md_blk : Z }.
(** src: kernel/ipi.rs 94-98 [IpiMediatedNotifyMsg] *)
Record IpiMediatedNotifyMsg := mkNotifyMsg { mn_vm_id : Z }.
(** src: kernel/ipi.rs 100-107 [IpiHvcMsg] *)
Record IpiHvcMsg := mkHvcMsg { hm_src_vmid : Z; hm_trgt_vmid : Z; hm_fid : Z; hm_event : Z }.
(** src: kernel/ipi.rs 109-114 [IpiIntInjectMsg] *)
Record IpiIntInjectMsg := mkIntInject { ii_vm_id : Z; ii_int_id : Z }.

(** src: kernel/ipi.rs 130-144 [IpiInnerMsg] *)
Inductive IpiInnerMsg :=
  | Initc (m : IpiInitcMessage)
  | Power (m : IpiPowerMessage)
  | EnternetMsg (m : IpiEthernetMsg)
  | VmmMsg (m : IpiVmmMsg)
  | VmmPercoreMsg (m : IpiVmmPercoreMsg)
  | MediatedMsg (m : IpiMediatedMsg)
  | MediatedNotifyMsg (m : IpiMediatedNotifyMsg)
  | HvcMsg (m : IpiHvcMsg)
  | IntInjectMsg (m : IpiIntInjectMsg)
  | HyperFreshMsg
  | NoneMsg.

(** src: kernel/ipi.rs 116-128 [IpiType] *)
Inductive IpiType := IpiTIntc | IpiTPower | IpiTEthernetMsg | IpiTHvc | IpiTVMM | IpiTMediatedDev | IpiTIntInject.
Definition ipi_type_num (t : IpiType) : nat :=
  match t with
  | IpiTIntc => 0 | IpiTPower => 1 | IpiTEthernetMsg => 2 | IpiTHvc => 3 | IpiTVMM => 4 | IpiTMediatedDev => 5
  | IpiTIntInject => 6
  end%nat.

(** src: kernel/ipi.rs 146-150 [IpiMessage] *)
Record IpiMessage := mkIpi { ipi_type : IpiType; ipi_message : IpiInnerMsg }.

#[export] Instance IpiMessage_eq_dec : EqDecision IpiMessage.
Proof.
  assert (EqDecision InitcEvent) by solve_decision. assert (EqDecision VmmEvent) by solve_decision.
  assert (EqDecision VmmPercoreEvent) by solve_decision. assert (EqDecision PowerEvent) by solve_decision.
  assert (EqDecision IpiInnerMsg) by (unfold EqDecision, Decision; decide equality; solve_decision).
  assert (EqDecision IpiType) by solve_decision. solve_decision.
Defined.

(** ** The records of the cores *)

(** src: kernel/cpu.rs 30-35 [CpuState] *)
Inductive CpuState := CpuInv | CpuIdle | CpuRun.
#[export] Instance CpuState_eq_dec : EqDecision CpuState.
Proof. solve_decision. Defined.
(** src: kernel/cpu.rs 43-48 [StartReason] *)
Inductive StartReason := MainCore | SecondaryCore | NoReason.

(** src: kernel/cpu.rs 50-60 [CpuIf] *)
Record CpuIf := mkCpuIf {
  msg_queue : list IpiMessage;
  if_entry : Z;
  if_ctx : Z;
  if_vm_id : Z;
  state_for_start : CpuState;
  if_vcpuid : Z;
  start_reason : StartReason;
}.
Definition with_msgs q c :=
  mkCpuIf q (if_entry c) (if_ctx c) (if_vm_id c) (state_for_start c) (if_vcpuid c) (start_reason c).
Definition with_start st c :=
  mkCpuIf (msg_queue c) (if_entry c) (if_ctx c) (if_vm_id c) st (if_vcpuid c) (start_reason c).

(** src: kernel/cpu.rs 63-74 [CpuIf::default] *)
Definition CpuIf_default : CpuIf := mkCpuIf [] 0 0 0 CpuInv 0 NoReason.

(** src: kernel/cpu.rs 75-77 [CpuIf::push] *)
Definition cpu_if_push (m : IpiMessage) (c : CpuIf) : CpuIf := with_msgs (msg_queue c ++ [m]) c.

(** src: kernel/cpu.rs 79-81 [CpuIf::pop]
    [Vec::pop] takes the last element. *)
Definition cpu_if_pop (c : CpuIf) : option IpiMessage * CpuIf :=
  match rev (msg_queue c) with
  | [] => (None, c)
  | m :: r => (Some m, with_msgs (rev r) c)
  end.

(** src: board/platform_common.rs 11-11 [PLATFORM_CPU_NUM_MAX] *)
Definition PLATFORM_CPU_NUM_MAX : Z := 8.

(** src: kernel/cpu.rs 87-93 [cpu_if_init] *)
Definition cpu_if_init : list CpuIf := replicate (Z.to_nat PLATFORM_CPU_NUM_MAX) CpuIf_default.

(** [cpu_if_list]: the static [CPU_IF_LIST].  [pending]: the cores whose IPI is pending (the SGI of the GIC, [SSIP] of a
    hart). *)
Record Sys (W : Type) := mkSys { cpu_if_list : list CpuIf; pending : gset Z; world : W }.
Arguments mkSys {W}.
Arguments cpu_if_list {W}.
Arguments pending {W}.
Arguments world {W}.

Section ipi.
Context {W : Type}.
(** [cpu_num]: [PLAT_DESC.cpu_desc.num].  [handlers]: [IPI_HANDLER_LIST].  [riscv]: the target. *)
Context (num : Z) (handlers : list (IpiMessage -> M (Sys W) unit)) (riscv : bool).

Definition with_ifs l (s : Sys W) : Sys W := mkSys l (pending s) (world s).
Definition with_pending p (s : Sys W) : Sys W := mkSys (cpu_if_list s) p (world s).
Definition with_world w (s : Sys W) : Sys W := mkSys (cpu_if_list s) (pending s) w.

(** An access to the record of a core, under the lock. *)
Definition on_if {A} (c : Z) (f : CpuIf -> A * CpuIf) : M (Sys W) A := fun s =>
  match zget (cpu_if_list s) c with
  | Some r => Ret (f r).1 (with_ifs (zset (cpu_if_list s) c (f r).2) s)
  | None => Fault OutOfBounds
  end.

Definition queue_pop (c : Z) : M (Sys W) (option IpiMessage) := on_if c cpu_if_pop.

(** src: kernel/interrupt.rs 23-25 [interrupt_cpu_ipi_send] *)
Definition interrupt_cpu_ipi_send (target : Z) : M (Sys W) unit := m_modify (fun s => with_pending ({[target]} ∪ pending s) s).

(** src: arch/riscv64/interrupt.rs 214-226 [deactivate_soft_intr]
    On the core it runs on. *)
Definition deactivate_soft_intr (c : Z) : M (Sys W) unit := m_modify (fun s => with_pending (pending s ∖ {[c]}) s).

(** ** Sending *)

(** src: kernel/ipi.rs 178-196 [ipi_send] *)
Definition ipi_send (target : Z) (msg : IpiMessage) : M (Sys W) bool :=
  if num <=? target then m_ret false
  else
    on_if target (fun r => (tt, cpu_if_push msg r)) >>;
    interrupt_cpu_ipi_send target >>;
    m_ret true.

(** src: kernel/ipi.rs 198-209 [ipi_send_msg] *)
Definition ipi_send_msg (target : Z) (t : IpiType) (m : IpiInnerMsg) : M (Sys W) bool := ipi_send target (mkIpi t m).

(** src: kernel/ipi.rs 218-232 [ipi_intra_broadcast_msg: the loop]
    [cur] is the core it runs on; the shift amount is taken modulo 64. *)
Fixpoint broadcast_from (fuel : nat) (cur : Z) (vm : Vm) (t : IpiType) (msg : IpiInnerMsg) (i n : Z) : M (Sys W) bool :=
  match fuel with
  | O => m_fault FuelOut
  | S fuel' =>
      if n <? usize (cpu_num (cpu_cfg vm) - 1) then
        if testm (shlw 64 1 i) (ncpu vm) && negb (i =? cur) then
          let! ok := ipi_send_msg i t msg in
          if ok : bool then broadcast_from fuel' cur vm t msg (usize (i + 1)) (usize (n + 1)) else m_ret false
        else broadcast_from fuel' cur vm t msg (usize (i + 1)) n
      else m_ret true
  end.

(** src: kernel/ipi.rs 211-233 [ipi_intra_broadcast_msg] *)
Definition ipi_intra_broadcast_msg (fuel : nat) (cur : Z) (vm : Vm) (t : IpiType) (msg : IpiInnerMsg) : M (Sys W) bool :=
  broadcast_from fuel cur vm t msg 0 0.

(** ** Receiving *)

(** src: kernel/ipi.rs 168-172 [ipi_irq_handler: the call of a handler] *)
Definition dispatch (m : IpiMessage) : M (Sys W) unit :=
  match handlers !! ipi_type_num (ipi_type m) with Some h => h m | None => m_ret tt end.

(** src: kernel/ipi.rs 164-176 [ipi_irq_handler: the loop] *)
Fixpoint irq_loop (fuel : nat) (c : Z) (msg : option IpiMessage) : M (Sys W) unit :=
  match msg with
  | None => m_ret tt
  | Some m =>
      match fuel with
      | O => m_fault FuelOut
      | S fuel' => dispatch m >>; let! msg' := queue_pop c in irq_loop fuel' c msg'
      end
  end.

(** src: kernel/ipi.rs 154-176 [ipi_irq_handler] *)
Definition ipi_irq_handler (fuel : nat) (c : Z) : M (Sys W) unit :=
  let! msg := queue_pop c in
  (if riscv then deactivate_soft_intr c else m_ret tt) >>;
  irq_loop fuel c msg.

(** ** The handler one action at a time *)

(** Where it stands: before the first [pop], before the deactivation, at the test of the loop, before the [pop] of the
    loop, at the end. *)
Inductive irq_at := AtFirst | AtClear (o : option IpiMessage) | AtLoop (o : option IpiMessage) | AtPop | AtEnd.

(** src: kernel/ipi.rs 154-176 [ipi_irq_handler] *)
Definition irq_action (c : Z) (p : irq_at) : M (Sys W) irq_at :=
  match p with
  | AtFirst => let! o := queue_pop c in m_ret (if riscv then AtClear o else AtLoop o)
  | AtClear o => deactivate_soft_intr c >>; m_ret (AtLoop o)
  | AtLoop None => m_ret AtEnd
  | AtLoop (Some m) => dispatch m >>; m_ret AtPop
  | AtPop => let! o := queue_pop c in m_ret (AtLoop o)
  | AtEnd => m_ret AtEnd
  end.

Fixpoint irq_actions (k : nat) (c : Z) (p : irq_at) : M (Sys W) irq_at :=
  match k with O => m_ret p | S k' => let! p' := irq_action c p in irq_actions k' c p' end.
End ipi.
