(* ===== verification/IpiSpec.v ===== *)
(** * IpiSpec: what the messages between the cores guarantee

    Alone, a core handles what is in its queue, newest first.  Between the other cores' sends, no message is lost or
    handled twice on AArch64, where taking the interrupt clears it; on RISC-V, where the handler clears it after its
    first look into the queue, one can be.  A broadcast reaches every other core of a VM. *)
From stdpp Require Import list gmap.
From S2P Require Import Prelude Vm Sched Ipi.

(** ** A core's record *)

Section records.
Context {W : Type}.
Implicit Types s : Sys W.

Lemma on_if_eq {A} c (f : CpuIf -> A * CpuIf) s r : zget (cpu_if_list s) c = Some r ->
  on_if c f s = Ret (f r).1 (with_ifs (zset (cpu_if_list s) c (f r).2) s).
Proof. unfold on_if. by intros ->. Qed.

Lemma pop_snoc q m r : cpu_if_pop (with_msgs (q ++ [m]) r) = (Some m, with_msgs q r).
Proof. unfold cpu_if_pop. cbn. rewrite rev_app_distr. cbn. by rewrite rev_involutive. Qed.

(** The first action of a sequence. *)
Lemma m_bind_out {S A B} (m : M S A) (k : A -> M S B) (s : S) :
  m_bind m k s = match m s with Ret a s' => k a s' | Fault f => Fault f end.
Proof. done. Qed.

Lemma with_msgs_eta r : with_msgs (msg_queue r) r = r.
Proof. by destruct r. Qed.

End records.

(** ** A handler alone *)

Section alone.
Context {W : Type} (hs : list (IpiMessage -> M W unit)) (riscv : bool).

(** Handlers that act on the world only. *)
Definition on_world (m : M W unit) : M (Sys W) unit := fun s =>
  match m (world s) with Ret _ w => Ret tt (with_world w s) | Fault f => Fault f end.
Definition world_handlers : list (IpiMessage -> M (Sys W) unit) := (fun h m => on_world (h m)) <$> hs.
Definition call (m : IpiMessage) : M W unit :=
  match hs !! ipi_type_num (ipi_type m) with Some h => h m | None => m_ret tt end.

Lemma dispatch_world m s : dispatch world_handlers m s = on_world (call m) s.
Proof.
  unfold dispatch, call, world_handlers. rewrite list_lookup_fmap. destruct (hs !! _); [done|]. cbn. unfold on_world.
  cbn. by destruct s.
Qed.

Lemma pop_last c l p (w : W) r q m : zget l c = Some r -> msg_queue r = q ++ [m] ->
  queue_pop c (mkSys l p w) = Ret (Some m) (mkSys (zset l c (with_msgs q r)) p w).
Proof.
  intros Hr Hq. unfold queue_pop. erewrite on_if_eq by done.
  replace r with (with_msgs (q ++ [m]) r) at 1 2 by (rewrite <- Hq; apply with_msgs_eta). by rewrite pop_snoc.
Qed.

Lemma pop_empty c l p (w : W) r : zget l c = Some r -> msg_queue r = [] ->
  queue_pop c (mkSys l p w) = Ret None (mkSys l p w).
Proof.
  intros Hr Hq. unfold queue_pop. erewrite on_if_eq by done. unfold cpu_if_pop. rewrite Hq. cbn. unfold with_ifs. cbn.
  by rewrite zset_same.
Qed.

Lemma loop_newest_first c r q : forall l fuel m p w,
  zget l c = Some r -> msg_queue r = q -> (S (length q) <= fuel)%nat ->
  irq_loop world_handlers fuel c (Some m) (mkSys l p w) =
    match m_for (m :: rev q) call w with
    | Ret _ w' => Ret tt (mkSys (zset l c (with_msgs [] r)) p w')
    | Fault f => Fault f
    end.
Proof.
  revert r. induction q as [|m' q IH] using rev_ind; intros r l fuel m p w Hr Hq Hf;
    (destruct fuel as [|fuel]; [cbn in Hf; lia|]);
    change (irq_loop world_handlers (S fuel) c (Some m)) with
      (dispatch world_handlers m >>; let! msg' := queue_pop c in irq_loop world_handlers fuel c msg');
    change (m_for (m :: rev ?k) call w) with ((call m >>; m_for (rev k) call) w);
    unfold m_bind at 1; rewrite dispatch_world; unfold on_world; cbn [world];
    rewrite (m_bind_out (call m)); (destruct (call m w) as [[] w'|f]; [|done]); cbn [with_world cpu_if_list pending].
  - erewrite m_bind_Ret by (by eapply pop_empty). replace (irq_loop _ _ _ None) with (m_ret (S := Sys W) tt) by by destruct fuel.
    cbn. unfold m_ret. rewrite <- Hq, with_msgs_eta. by rewrite zset_same.
  - erewrite m_bind_Ret by (by eapply pop_last). rewrite rev_app_distr. cbn [app rev].
    rewrite length_app in Hf. cbn in Hf. erewrite (IH (with_msgs q r)).
    + by rewrite zset_zset.
    + apply zget_zset_eq, (zget_Some_bounds _ _ _ Hr).
    + done.
    + lia.
Qed.

(** A core alone handles every message of its queue once, the newest first, and leaves the queue empty: [CpuIf::pop]
    takes the message that was pushed last.  A handler that panics stops it. *)
Theorem ipi_handled_newest_first c s r fuel :
  zget (cpu_if_list s) c = Some r -> (length (msg_queue r) <= fuel)%nat ->
  ipi_irq_handler world_handlers riscv fuel c s =
    match m_for (rev (msg_queue r)) call (world s) with
    | Ret _ w => Ret tt (mkSys (zset (cpu_if_list s) c (with_msgs [] r))
                               (if riscv then pending s ∖ {[c]} else pending s) w)
    | Fault f => Fault f
    end.
Proof.
  intros Hr Hf. destruct s as [l p w]. cbn [cpu_if_list pending world] in *. unfold ipi_irq_handler.
  assert (forall l', (if riscv then deactivate_soft_intr c else m_ret tt) (mkSys l' p w) =
    Ret tt (mkSys l' (if riscv then p ∖ {[c]} else p) w)) as Hd by (intros; by destruct riscv).
  destruct (msg_queue r) as [|m q _] eqn:Hq using rev_ind.
  - erewrite m_bind_Ret by (by eapply pop_empty). erewrite m_bind_Ret by apply Hd.
    cbn. rewrite <- Hq, with_msgs_eta, zset_same by done. by destruct fuel.
  - erewrite m_bind_Ret by (by eapply pop_last). erewrite m_bind_Ret by apply Hd. rewrite rev_app_distr. cbn [app rev].
    rewrite length_app in Hf. cbn in Hf. erewrite (loop_newest_first c (with_msgs q r) q).
    + by rewrite zset_zset.
    + apply zget_zset_eq, (zget_Some_bounds _ _ _ Hr).
    + done.
    + lia.
Qed.
End alone.

(** The handler one action at a time does what the handler does. *)
Lemma irq_loop_actions {W} (hs : list (IpiMessage -> M (Sys W) unit)) riscv c fuel : forall o s s',
  irq_loop hs fuel c o s = Ret tt s' -> exists k, irq_actions hs riscv k c (AtLoop o) s = Ret AtEnd s'.
Proof.
  induction fuel as [|fuel IH]; intros [m|] s s'; cbn [irq_loop].
  1: done. 1, 3: intros [= <-]; by exists 1%nat.
  intros H. unfold m_bind in H. destruct (dispatch hs m s) as [[] s1|] eqn:E1; [|done].
  destruct (queue_pop c s1) as [o s2|] eqn:E2; [|done]. apply IH in H as [k Hk]. exists (S (S k)).
  cbn [irq_actions irq_action]. unfold m_bind, m_ret. rewrite E1. cbn [irq_actions irq_action]. unfold m_bind, m_ret. by rewrite E2.
Qed.

Lemma irq_actions_run {W} (hs : list (IpiMessage -> M (Sys W) unit)) riscv fuel c s s' :
  ipi_irq_handler hs riscv fuel c s = Ret tt s' -> exists k, irq_actions hs riscv k c AtFirst s = Ret AtEnd s'.
Proof.
  unfold ipi_irq_handler. intros H. unfold m_bind in H. destruct (queue_pop c s) as [o s1|] eqn:E1; [|done].
  destruct riscv.
  - cbn in H. apply (irq_loop_actions _ true) in H as [k Hk]. exists (S (S k)).
    cbn [irq_actions irq_action]. unfold m_bind, m_ret. rewrite E1. exact Hk.
  - cbn in H. apply (irq_loop_actions _ false) in H as [k Hk]. exists (S k).
    cbn [irq_actions irq_action]. unfold m_bind, m_ret. rewrite E1. exact Hk.
Qed.

(** ** The cores together *)

(** [nirq]: where the handlers that run stand.  [nraise]: the sends between the push and the interrupt.  [nsent]: what was
    sent, newest first.  The world records what was handled. *)
Record Net := mkNet {
  nsys : Sys (list (Z * IpiMessage));
  nirq : gmap Z irq_at;
  nraise : list Z;
  nsent : list (Z * IpiMessage);
}.

Section net.
Context (num : Z) (riscv : bool).

Definition recorder (c : Z) (m : IpiMessage) : M (Sys (list (Z * IpiMessage))) unit :=
  fun s => Ret tt (with_world ((c, m) :: world s) s).
Definition recorders (c : Z) := replicate 7 (recorder c).

(** The interrupt is taken when it is pending and the core is not in the handler; the GIC clears it then, a hart leaves it
    to the handler.  What a handler sends itself is a send like any other. *)
Inductive net_step : Net -> Net -> Prop :=
  | ns_push n t m s' : (num <=? t) = false -> on_if t (fun r => (tt, cpu_if_push m r)) (nsys n) = Ret tt s' ->
      net_step n (mkNet s' (nirq n) (t :: nraise n) ((t, m) :: nsent n))
  | ns_raise n l t k s' : nraise n = l ++ t :: k -> interrupt_cpu_ipi_send t (nsys n) = Ret tt s' ->
      net_step n (mkNet s' (nirq n) (l ++ k) (nsent n))
  | ns_enter n c : c ∈ pending (nsys n) -> nirq n !! c = None ->
      net_step n (mkNet (if riscv then nsys n else with_pending (pending (nsys n) ∖ {[c]}) (nsys n))
        (<[c := AtFirst]> (nirq n)) (nraise n) (nsent n))
  | ns_act n c p p' s' : nirq n !! c = Some p -> irq_action (recorders c) riscv c p (nsys n) = Ret p' s' ->
      net_step n (mkNet s' (<[c := p']> (nirq n)) (nraise n) (nsent n))
  | ns_leave n c : nirq n !! c = Some AtEnd -> net_step n (mkNet (nsys n) (delete c (nirq n)) (nraise n) (nsent n)).

Definition net_init : Net := mkNet (mkSys cpu_if_init ∅ []) ∅ [] [].
Definition net_reach : Net -> Prop := rtc net_step net_init.

(** The messages of a core. *)
Definition msgs (c : Z) (l : list (Z * IpiMessage)) : list IpiMessage := (filter (fun x => x.1 = c) l).*2.
Definition in_hand (p : option irq_at) : list IpiMessage :=
  match p with Some (AtClear (Some m)) | Some (AtLoop (Some m)) => [m] | _ => [] end.
(** The handler will look into the queue again. *)
Definition looking (p : option irq_at) : Prop :=
  match p with Some AtFirst | Some AtPop | Some (AtLoop (Some _)) | Some (AtClear (Some _)) => True | _ => False end.

#[local] Arguments msgs : simpl never.

Record net_ok (n : Net) : Prop := {
  ok_msgs c r : zget (cpu_if_list (nsys n)) c = Some r ->
    msgs c (nsent n) ≡ₚ msgs c (world (nsys n)) ++ msg_queue r ++ in_hand (nirq n !! c);
  ok_look c r : riscv = false -> zget (cpu_if_list (nsys n)) c = Some r -> msg_queue r <> [] ->
    c ∈ pending (nsys n) \/ c ∈ nraise n \/ looking (nirq n !! c);
  ok_clear c o : riscv = false -> nirq n !! c <> Some (AtClear o);
}.

Lemma msgs_cons c c' m l : msgs c ((c', m) :: l) = (if decide (c' = c) then [m] else []) ++ msgs c l.
Proof. unfold msgs. rewrite filter_cons. cbn. by case_decide. Qed.

Lemma net_init_ok : net_ok net_init.
Proof.
  assert (forall c r, zget cpu_if_init c = Some r -> msg_queue r = []) as Hq.
  { intros c r Hr. pose proof (zget_Some_bounds _ _ _ Hr) as Hb. unfold cpu_if_init in *. rewrite zlen_replicate in Hb.
    rewrite zget_replicate in Hr by done. by injection Hr as <-. }
  split; cbn.
  - intros c r Hr. by rewrite (Hq c r Hr), lookup_empty.
  - intros c r _ Hr. by rewrite (Hq c r Hr).
  - intros c o _. by rewrite lookup_empty.
Qed.

Lemma on_if_inv {A W} c (f : CpuIf -> A * CpuIf) (s : Sys W) a s' : on_if c f s = Ret a s' ->
  exists r, zget (cpu_if_list s) c = Some r /\ a = (f r).1 /\ s' = with_ifs (zset (cpu_if_list s) c (f r).2) s.
Proof. unfold on_if. destruct (zget _ _) as [r|]; [|done]. intros [= <- <-]. eauto. Qed.

Lemma pop_inv {W} c (s : Sys W) o s' : queue_pop c s = Ret o s' ->
  exists r q, zget (cpu_if_list s) c = Some r /\ msg_queue r = q ++ option_list o /\
    (o = None -> q = []) /\ s' = with_ifs (zset (cpu_if_list s) c (with_msgs q r)) s.
Proof.
  intros (r & Hr & -> & ->)%on_if_inv. exists r. unfold cpu_if_pop.
  destruct (msg_queue r) as [|m q _] eqn:E using rev_ind; [exists []|exists q; rewrite rev_app_distr; cbn; rewrite rev_involutive].
  - split_and!; [done..|]. cbn. by rewrite <- E, with_msgs_eta.
  - by split_and!.
Qed.

Lemma elem_cut {A} (x y : A) l k : x <> y -> x ∈ l ++ y :: k -> x ∈ l ++ k.
Proof. rewrite !elem_of_app, elem_of_cons. naive_solver. Qed.

Lemma push_ok n t m s' : net_ok n -> on_if t (fun r => (tt, cpu_if_push m r)) (nsys n) = Ret tt s' ->
  net_ok (mkNet s' (nirq n) (t :: nraise n) ((t, m) :: nsent n)).
Proof.
  intros [Hm Hl Hc] (r & Hr & _ & ->)%on_if_inv. split; cbn; [| |exact Hc].
  - intros c r'. rewrite zget_zset, msgs_cons. pose proof (zget_Some_bounds _ _ _ Hr).
    destruct (decide (t = c)) as [->|Hne].
    + rewrite decide_True by done. intros [= <-]. cbn. rewrite (Hm c r Hr). solve_Permutation.
    + rewrite decide_False by naive_solver. intros Hr'. cbn. by apply Hm.
  - intros c r' Ha. rewrite zget_zset. case_decide as Hd.
    + destruct Hd as [-> _]. intros _ _. right; left. by left.
    + intros Hr' Hq. destruct (Hl c r' Ha Hr' Hq) as [?|[?|?]]; [by left|right; left; by right|by right; right].
Qed.

Lemma raise_ok n l t k s' : net_ok n -> nraise n = l ++ t :: k -> interrupt_cpu_ipi_send t (nsys n) = Ret tt s' ->
  net_ok (mkNet s' (nirq n) (l ++ k) (nsent n)).
Proof.
  intros [Hm Hl Hc] Hr [= <-]. split; cbn; [done| |done]. intros c r Ha Hg Hq.
  destruct (Hl c r Ha Hg Hq) as [?|[Hin|?]]; [left; set_solver| |by right; right].
  destruct (decide (c = t)) as [->|Hne]; [left; set_solver|]. right; left. rewrite Hr in Hin. by eapply elem_cut.
Qed.

Lemma irq_enter_ok n c : net_ok n -> c ∈ pending (nsys n) -> nirq n !! c = None ->
  net_ok (mkNet (if riscv then nsys n else with_pending (pending (nsys n) ∖ {[c]}) (nsys n))
    (<[c := AtFirst]> (nirq n)) (nraise n) (nsent n)).
Proof.
  intros [Hm Hl Hc] Hp Hn. split; cbn [nsys nirq nraise nsent].
  - intros c' r Hr. assert (zget (cpu_if_list (nsys n)) c' = Some r) as Hr' by by destruct riscv.
    replace (world (if riscv then _ else _)) with (world (nsys n)) by by destruct riscv.
    rewrite (Hm c' r Hr'). destruct (decide (c = c')) as [->|]; [by rewrite lookup_insert_eq, Hn|by rewrite lookup_insert_ne].
  - intros c' r Ha. rewrite Ha. cbn [with_pending cpu_if_list pending]. intros Hr Hq.
    destruct (decide (c = c')) as [->|]; [rewrite lookup_insert_eq; by right; right|]. rewrite lookup_insert_ne by done.
    destruct (Hl c' r Ha Hr Hq) as [?|[?|?]]; [left; set_solver|by right; left|by right; right].
  - intros c' o Ha. destruct (decide (c = c')) as [->|]; [by rewrite lookup_insert_eq|]. rewrite lookup_insert_ne by done.
    by apply Hc.
Qed.

(** A step of the handler of [c] that changes the record of [c] only. *)
Lemma act_ok n c p p' ifs pend w :
  net_ok n -> nirq n !! c = Some p ->
  (forall c' r, zget ifs c' = Some r -> c <> c' -> zget (cpu_if_list (nsys n)) c' = Some r) ->
  (forall r', zget ifs c = Some r' -> exists r, zget (cpu_if_list (nsys n)) c = Some r /\
     msgs c (world (nsys n)) ++ msg_queue r ++ in_hand (Some p) ≡ₚ msgs c w ++ msg_queue r' ++ in_hand (Some p') /\
     (msg_queue r' <> [] -> ~ looking (Some p') -> msg_queue r <> [] /\ ~ looking (Some p))) ->
  (forall c', c <> c' -> msgs c' w = msgs c' (world (nsys n))) ->
  (riscv = false -> pend = pending (nsys n) /\ (forall o, p' <> AtClear o)) ->
  net_ok (mkNet (mkSys ifs pend w) (<[c := p']> (nirq n)) (nraise n) (nsent n)).
Proof.
  intros [Hm Hl Hc] Hp Hother Hown Hw Ha. split; cbn.
  - intros c' r1 Hr1. destruct (decide (c = c')) as [<-|Hne].
    + destruct (Hown r1 Hr1) as (r & Hr & Hperm & _). by rewrite lookup_insert_eq, (Hm c r Hr), Hp.
    + rewrite lookup_insert_ne, Hw by done. by apply Hm, Hother.
  - intros c' r1 Hf Hr1 Hq. destruct (Ha Hf) as (-> & _). destruct (decide (c = c')) as [<-|Hne].
    + destruct (Hown r1 Hr1) as (r & Hr & _ & Hlk). rewrite lookup_insert_eq.
      assert (looking (Some p') \/ ~ looking (Some p')) as [?|Hn] by (destruct p' as [|[]|[]| |]; cbn; tauto); [by right; right|].
      destruct (Hlk Hq Hn) as [Hq' Hn']. destruct (Hl c r Hf Hr Hq') as [?|[?|Hk]]; [by left|by right; left|].
      by rewrite Hp in Hk.
    + rewrite lookup_insert_ne by done. apply (Hl c' r1 Hf); auto.
  - intros c' o Hf. destruct (decide (c = c')) as [<-|Hne].
    + rewrite lookup_insert_eq. destruct (Ha Hf) as (_ & Hno). intros [= E]. by eapply Hno.
    + rewrite lookup_insert_ne by done. by apply Hc.
Qed.

Lemma pop_ok n c p p' o s' :
  net_ok n -> nirq n !! c = Some p -> in_hand (Some p) = [] -> queue_pop c (nsys n) = Ret o s' ->
  p' = AtLoop o \/ riscv = true /\ p' = AtClear o ->
  net_ok (mkNet s' (<[c := p']> (nirq n)) (nraise n) (nsent n)).
Proof.
  intros Hn Hp Hh (r & q & Hr & Hq & Ho & ->)%pop_inv Hp'. pose proof (zget_Some_bounds _ _ _ Hr) as Hb.
  apply (act_ok n c p p'); [done|done| | |done|].
  - intros c' r1. rewrite zget_zset. intros H Hne. by rewrite decide_False in H by naive_solver.
  - intros r'. rewrite zget_zset, decide_True by done. intros [= <-]. exists r. split; [done|]. cbn [with_msgs msg_queue]. split.
    + rewrite Hq, Hh, app_nil_r. assert (in_hand (Some p') = option_list o) as ->; [|done].
      destruct Hp' as [->|[_ ->]]; by destruct o.
    + intros Hne Hl. destruct o as [m|]; [destruct Hp' as [->|[_ ->]]; by destruct Hl|]. by destruct Hne; apply Ho.
  - intros Hf. destruct Hp' as [->|[? _]]; [done|congruence].
Qed.

(** A step that leaves the records alone. *)
Lemma keep_ok n c p p' pend w :
  net_ok n -> nirq n !! c = Some p ->
  msgs c (world (nsys n)) ++ in_hand (Some p) ≡ₚ msgs c w ++ in_hand (Some p') ->
  (~ looking (Some p') -> ~ looking (Some p)) ->
  (forall c', c <> c' -> msgs c' w = msgs c' (world (nsys n))) ->
  (riscv = false -> pend = pending (nsys n) /\ (forall o, p' <> AtClear o)) ->
  net_ok (mkNet (mkSys (cpu_if_list (nsys n)) pend w) (<[c := p']> (nirq n)) (nraise n) (nsent n)).
Proof.
  intros Hn Hp Hperm Hl Hw Ha. apply (act_ok n c p p'); [done..| |done|done]. intros r Hr. exists r. split; [done|].
  split; [|by auto]. rewrite (Permutation_app_comm (msg_queue r)), !(assoc_L (++)), Hperm. solve_Permutation.
Qed.

Lemma act_step_ok n c p p' s' : net_ok n -> nirq n !! c = Some p ->
  irq_action (recorders c) riscv c p (nsys n) = Ret p' s' ->
  net_ok (mkNet s' (<[c := p']> (nirq n)) (nraise n) (nsent n)).
Proof.
  intros Hn Hp. destruct p as [|o|[m|]| |]; cbn [irq_action].
  - intros (o & s1 & E & H)%m_bind_inv. injection H as <- <-. eapply pop_ok; [done|exact Hp|done|done|].
    destruct riscv; auto.
  - intros [= <- <-]. apply (keep_ok n c (AtClear o)); [done|done|by destruct o|by destruct o|done|].
    intros Hf. by destruct (ok_clear n Hn c o Hf).
  - unfold m_bind, dispatch. unfold recorders. rewrite lookup_replicate_2 by (destruct (ipi_type m); cbn; lia).
    intros [= <- <-]. apply (keep_ok n c (AtLoop (Some m))); [done|done| | | |done].
    + rewrite msgs_cons, decide_True by done. cbn [in_hand]. solve_Permutation.
    + intros []. by cbn.
    + intros c' Hne. by rewrite msgs_cons, decide_False.
  - intros [= <- <-]. destruct n as [[ifs pend w] irqs rs sent].
    by apply (keep_ok (mkNet (mkSys ifs pend w) irqs rs sent) c (AtLoop None)).
  - intros (o & s1 & E & H)%m_bind_inv. injection H as <- <-. eapply pop_ok; [done|exact Hp|done|done|auto].
  - intros [= <- <-]. destruct n as [[ifs pend w] irqs rs sent].
    by apply (keep_ok (mkNet (mkSys ifs pend w) irqs rs sent) c AtEnd).
Qed.

Lemma leave_ok n c : net_ok n -> nirq n !! c = Some AtEnd -> net_ok (mkNet (nsys n) (delete c (nirq n)) (nraise n) (nsent n)).
Proof.
  intros [Hm Hl Hc] Hp. split; cbn; intros c'; destruct (decide (c = c')) as [<-|Hne];
    rewrite ?lookup_delete_eq, ?lookup_delete_ne by done; [|by apply Hm| |by apply Hl|done|by apply Hc].
  - intros r Hr. by rewrite (Hm c r Hr), Hp.
  - intros r Hf Hr Hq. destruct (Hl c r Hf Hr Hq) as [?|[?|H]]; [by left|by right; left|by rewrite Hp in H].
Qed.

Lemma net_reach_ok n : net_reach n -> net_ok n.
Proof.
  revert n. apply (rtc_ind_r net_ok net_init); [apply net_init_ok|]. intros n n' _ Hs IH.
  destruct Hs; eauto using push_ok, raise_ok, irq_enter_ok, act_step_ok, leave_ok.
Qed.

(** Runs that can be computed. *)
Inductive label := LPush (t : Z) (m : IpiMessage) | LRaise (i : nat) | LEnter (c : Z) | LAct (c : Z) | LLeave (c : Z).

Definition net_do (l : label) (n : Net) : option Net :=
  match l with
  | LPush t m =>
      if num <=? t then None
      else match on_if t (fun r => (tt, cpu_if_push m r)) (nsys n) with
           | Ret _ s' => Some (mkNet s' (nirq n) (t :: nraise n) ((t, m) :: nsent n))
           | Fault _ => None
           end
  | LRaise i =>
      t ← nraise n !! i;
      match interrupt_cpu_ipi_send t (nsys n) with
      | Ret _ s' => Some (mkNet s' (nirq n) (take i (nraise n) ++ drop (S i) (nraise n)) (nsent n))
      | Fault _ => None
      end
  | LEnter c =>
      if decide (c ∈ pending (nsys n) /\ nirq n !! c = None) then
        Some (mkNet (if riscv then nsys n else with_pending (pending (nsys n) ∖ {[c]}) (nsys n))
          (<[c := AtFirst]> (nirq n)) (nraise n) (nsent n))
      else None
  | LAct c =>
      p ← nirq n !! c;
      match irq_action (recorders c) riscv c p (nsys n) with
      | Ret p' s' => Some (mkNet s' (<[c := p']> (nirq n)) (nraise n) (nsent n))
      | Fault _ => None
      end
  | LLeave c =>
      match nirq n !! c with
      | Some AtEnd => Some (mkNet (nsys n) (delete c (nirq n)) (nraise n) (nsent n))
      | _ => None
      end
  end.

Fixpoint net_run (ls : list label) (n : Net) : option Net :=
  match ls with [] => Some n | l :: ls' => n' ← net_do l n; net_run ls' n' end.

Lemma net_do_step l n n' : net_do l n = Some n' -> net_step n n'.
Proof.
  destruct l as [t m|i|c|c|c]; cbn [net_do].
  - destruct (num <=? t) eqn:E; [done|]. destruct (on_if _ _ _) as [[] s'|] eqn:E'; [|done]. intros [= <-]. by apply ns_push.
  - destruct (nraise n !! i) as [t|] eqn:E; [|done]. intros [= <-]. eapply ns_raise; [|done]. symmetry. by apply take_drop_middle.
  - case_decide as Hd; [|done]. destruct Hd. intros [= <-]. by apply ns_enter.
  - destruct (nirq n !! c) as [p|] eqn:E; [|done]. cbn. destruct (irq_action _ _ _ _ _) as [p' s'|] eqn:E'; [|done].
    intros [= <-]. by eapply ns_act.
  - destruct (nirq n !! c) as [[]|] eqn:E; try done. intros [= <-]. by apply ns_leave.
Qed.

Lemma net_run_reach ls : forall n n', net_reach n -> net_run ls n = Some n' -> net_reach n'.
Proof.
  induction ls as [|l ls IH]; intros n n' Hn; cbn; [by intros [= <-]|].
  destruct (net_do l n) as [n1|] eqn:E; [|done]. apply IH. eapply rtc_r; [exact Hn|by eapply net_do_step].
Qed.

(** C36. No message between cores is lost or handled twice, with sends and handlers interleaved action by action in any
    way: what was sent to a core is what it handled, what is queued and what its handler has in hand.  On AArch64, while a
    message is queued, the interrupt is pending, or about to be raised, or the handler will look into the queue again: when
    all is quiet, everything sent was handled. *)
Theorem ipi_no_message_lost n c r :
  net_reach n -> zget (cpu_if_list (nsys n)) c = Some r ->
  msgs c (nsent n) ≡ₚ msgs c (world (nsys n)) ++ msg_queue r ++ in_hand (nirq n !! c) /\
  (riscv = false -> msg_queue r <> [] -> c ∈ pending (nsys n) \/ c ∈ nraise n \/ looking (nirq n !! c)) /\
  (riscv = false -> c ∉ pending (nsys n) -> c ∉ nraise n -> nirq n !! c = None ->
     msg_queue r = [] /\ msgs c (nsent n) ≡ₚ msgs c (world (nsys n))).
Proof.
  intros Hr Hg. apply net_reach_ok in Hr as [Hm Hl Hc]. specialize (Hm c r Hg). split; [done|].
  split; [intros Hf; by apply (Hl c r Hf)|]. intros Hf Hp Hn Hi.
  assert (msg_queue r = []) as Hq.
  { destruct (msg_queue r) as [|m q] eqn:E; [done|].
    destruct (Hl c r Hf Hg) as [?|[?|H]]; [by rewrite E|done|done|by rewrite Hi in H]. }
  split; [done|]. by rewrite Hm, Hq, Hi, app_nil_r.
Qed.
End net.

(** ** Examples *)

Definition demo_msg (k : Z) : IpiMessage := mkIpi IpiTIntInject (IntInjectMsg (mkIntInject 1 k)).

(** Core 1 takes its interrupt twice; a second message arrives while the first is handled, a third between the handler's
    first look into the queue and what follows. *)
Definition demo_labels : list label :=
  [LPush 1 (demo_msg 1); LRaise 0; LEnter 1; LAct 1; LAct 1; LPush 1 (demo_msg 2); LRaise 0; LAct 1; LAct 1; LAct 1; LAct 1;
   LAct 1; LLeave 1; LEnter 1; LAct 1; LPush 1 (demo_msg 3); LRaise 0; LAct 1; LAct 1; LLeave 1].

(** On RISC-V a message can be left behind: after this run of core 1, with two messages handled, the third is queued, no
    interrupt is pending, nothing is about to be sent and no handler runs.  The handler clears the pending interrupt after
    its first look into the queue, so an interrupt that was raised between the two is forgotten; that the first look finds
    nothing happens whenever the message of an interrupt was handled by the run before it. *)
Lemma riscv_ipi_can_be_lost : exists n r,
  net_reach 4 true n /\ nirq n = ∅ /\ nraise n = [] /\ pending (nsys n) = ∅ /\
  zget (cpu_if_list (nsys n)) 1 = Some r /\ msg_queue r = [demo_msg 3] /\
  world (nsys n) = [(1, demo_msg 2); (1, demo_msg 1)].
Proof.
  destruct (net_run 4 true demo_labels net_init) as [n|] eqn:E; [|by vm_compute in E].
  exists n. pose proof (net_run_reach 4 true _ _ _ (rtc_refl _ _) E) as Hr. vm_compute in E. injection E as <-.
  eexists. split; [exact Hr|]. by split_and!.
Qed.

Lemma ipi_no_message_lost_witness : exists n r,
  net_reach 4 false n /\ zget (cpu_if_list (nsys n)) 1 = Some r /\ msg_queue r = [] /\
  msgs 1 (nsent n) ≡ₚ [demo_msg 1; demo_msg 2].
Proof.
  destruct (net_run 4 false [LPush 1 (demo_msg 1); LRaise 0; LEnter 1; LPush 1 (demo_msg 2); LAct 1; LAct 1; LAct 1; LAct 1;
    LAct 1; LAct 1; LLeave 1; LRaise 0; LEnter 1; LAct 1; LAct 1; LLeave 1] net_init) as [n|] eqn:E; [|by vm_compute in E].
  pose proof (net_run_reach 4 false _ _ _ (rtc_refl _ _) E) as Hr. vm_compute in E. injection E as <-.
  eexists _, _. split; [exact Hr|]. split; [reflexivity|].
  destruct (ipi_no_message_lost 4 false _ 1 _ Hr eq_refl) as (_ & _ & H). destruct H as [H1 H2]; [done|by apply (bool_decide_unpack _); vm_compute|apply not_elem_of_nil|done|].
  split; [exact H1|]. rewrite H2. by vm_compute.
Defined.

Definition demo_ifs (q : list IpiMessage) : list CpuIf := zset cpu_if_init 1 (with_msgs q CpuIf_default).

(** Two messages that wait together are handled in the reverse of the order they were sent in. *)
Lemma ipi_handled_newest_first_witness :
  length [demo_msg 1; demo_msg 2] = 2%nat /\
  ipi_irq_handler (world_handlers (replicate 7 (fun m s => Ret tt (s ++ [m])))) false 2 1
    (mkSys (demo_ifs [demo_msg 1; demo_msg 2]) ∅ []) =
  Ret tt (mkSys (demo_ifs []) ∅ [demo_msg 2; demo_msg 1]).
Proof.
  split; [done|].
  rewrite (ipi_handled_newest_first (replicate 7 (fun m s => Ret tt (s ++ [m]))) false 1
    (mkSys (demo_ifs [demo_msg 1; demo_msg 2]) ∅ []) (with_msgs [demo_msg 1; demo_msg 2] CpuIf_default) 2 eq_refl (le_n 2)).
  by vm_compute.
Defined.

(** ** Broadcast *)

Section broadcast.
Context {W : Type} (num : Z).

(** The state after the message was sent to every core of a list. *)
Definition send_to (t : Z) (m : IpiMessage) (s : Sys W) : Sys W :=
  match zget (cpu_if_list s) t with
  | Some r => with_pending ({[t]} ∪ pending s) (with_ifs (zset (cpu_if_list s) t (cpu_if_push m r)) s)
  | None => s
  end.
Definition send_all (l : list Z) (m : IpiMessage) (s : Sys W) : Sys W := foldl (fun s t => send_to t m s) s l.

Lemma ipi_send_eq t m (s : Sys W) : t < num -> 0 <= t < zlen (cpu_if_list s) -> ipi_send num t m s = Ret true (send_to t m s).
Proof.
  intros Ht Hb. unfold ipi_send, send_to. destruct (Z.leb_spec num t); [lia|].
  destruct (zget_in_bounds (cpu_if_list s) t Hb) as [r Hr]. unfold m_bind. erewrite on_if_eq by done. by rewrite Hr.
Qed.

Lemma send_to_ifs t m (s : Sys W) c : zget (cpu_if_list (send_to t m s)) c =
  if decide (c = t) then cpu_if_push m <$> zget (cpu_if_list s) c else zget (cpu_if_list s) c.
Proof.
  unfold send_to. destruct (zget (cpu_if_list s) t) as [r|] eqn:Hr; cbn.
  - rewrite zget_zset. pose proof (zget_Some_bounds _ _ _ Hr). case_decide as Hd.
    + destruct Hd as [-> _]. by rewrite decide_True, Hr.
    + rewrite decide_False; [done|]. intros ->. by destruct Hd.
  - case_decide; [subst; by rewrite Hr|done].
Qed.

Lemma send_to_len t m (s : Sys W) : zlen (cpu_if_list (send_to t m s)) = zlen (cpu_if_list s).
Proof. unfold send_to. destruct (zget _ _); [|done]. cbn. by rewrite zlen_zset. Qed.

Lemma send_all_spec m l : forall s : Sys W, NoDup l -> (forall t, t ∈ l -> 0 <= t < zlen (cpu_if_list s)) ->
  (forall c, zget (cpu_if_list (send_all l m s)) c =
     if decide (c ∈ l) then cpu_if_push m <$> zget (cpu_if_list s) c else zget (cpu_if_list s) c) /\
  pending (send_all l m s) = list_to_set l ∪ pending s /\ world (send_all l m s) = world s.
Proof.
  induction l as [|t l IH]; intros s Hnd Hb; cbn.
  - split_and!; [|set_solver|done]. intros c. by rewrite decide_False by apply not_elem_of_nil.
  - apply list.NoDup_cons in Hnd as [Hnin Hnd]. destruct (IH (send_to t m s)) as (H1 & H2 & H3); [done| |].
    { intros k Hk. rewrite send_to_len. apply Hb. by right. }
    unfold send_all in *. cbn. rewrite H2, H3. destruct (zget_in_bounds (cpu_if_list s) t) as [r Hr]; [apply Hb; by left|].
    split_and!; [|unfold send_to; rewrite Hr; cbn; set_solver|unfold send_to; by rewrite Hr].
    intros c. rewrite H1, !send_to_ifs. destruct (decide (c ∈ l)) as [Hc|Hc].
    + rewrite decide_False by (intros ->; done). by rewrite decide_True by by right.
    + destruct (decide (c = t)) as [->|Hne]; [by rewrite decide_True by by left|].
      rewrite decide_False; [done|]. by intros [?|?]%elem_of_cons.
Qed.

(** The cores of the VM other than [cur], from [i] on. *)
Definition targets (vm : Vm) (cur i : Z) (j : nat) : list Z :=
  filter (fun k => Z.testbit (ncpu vm) k = true /\ k <> cur) (zrange i j).

Lemma targets_S vm cur i j : targets vm cur i (S j) =
  (if Z.testbit (ncpu vm) i && negb (i =? cur) then [i] else []) ++ targets vm cur (i + 1) j.
Proof.
  unfold targets. cbn [zrange]. rewrite filter_cons.
  case_decide as Hd; destruct (Z.testbit (ncpu vm) i), (Z.eqb_spec i cur); cbn; naive_solver.
Qed.

Lemma broadcast_from_eq cur vm t msg j : forall i n (s : Sys W), 0 <= i -> i + Z.of_nat j = 64 -> 0 <= n ->
  (forall k, 0 <= k -> Z.testbit (ncpu vm) k = true -> k < num) -> num <= zlen (cpu_if_list s) ->
  n + zlen (targets vm cur i j) = cpu_num (cpu_cfg vm) - 1 -> cpu_num (cpu_cfg vm) <= 64 ->
  broadcast_from num (S j) cur vm t msg i n s = Ret true (send_all (targets vm cur i j) (mkIpi t msg) s).
Proof.
  induction j as [|j IH]; intros i n s Hi Hj Hn Hnum Hlen Hc Hc64.
  - unfold zlen in Hc. cbn in Hc. cbn [broadcast_from]. rewrite wrap_small by (unfold in_word; lia).
    destruct (Z.ltb_spec n (cpu_num (cpu_cfg vm) - 1)); [lia|done].
  - assert (testm (shlw 64 1 i) (ncpu vm) = Z.testbit (ncpu vm) i) as Hb.
    { unfold testm. rewrite Z.land_comm. fold (testm (ncpu vm) (shlw 64 1 i)). unfold shlw. rewrite (Z.mod_small i) by lia.
      rewrite wrap_small; [by apply testm_bit|]. rewrite Z.shiftl_1_l. split; [lia|]. apply Z.pow_lt_mono_r; lia. }
    rewrite targets_S in *. remember (S j) as fuel. cbn [broadcast_from]. subst fuel. rewrite Hb.
    rewrite (wrap_small 64 (cpu_num _ - 1)), !(wrap_small 64 (_ + 1)) by (unfold in_word; unfold zlen in *; lia).
    rewrite zlen_app in Hc. pose proof (zlen_nonneg (targets vm cur (i + 1) j)) as Hnn'.
    destruct (Z.ltb_spec n (cpu_num (cpu_cfg vm) - 1)) as [Hlt|Hge].
    + destruct (Z.testbit (ncpu vm) i && negb (i =? cur)) eqn:E.
      * apply andb_true_iff in E as [Ei _]. pose proof (Hnum i Hi Ei). unfold zlen in Hc. cbn in Hc.
        unfold m_bind, ipi_send_msg. rewrite ipi_send_eq by lia. cbn [app send_all foldl].
        apply IH; try (unfold zlen in *; lia); [done|]. by rewrite send_to_len.
      * cbn in *. unfold zlen in Hc. cbn in Hc. apply IH; try (unfold zlen in *; lia); done.
    + assert ((if Z.testbit (ncpu vm) i && negb (i =? cur) then [i] else []) = [] /\ targets vm cur (i + 1) j = []) as [-> ->]; [|done].
      unfold zlen in *. destruct (Z.testbit (ncpu vm) i && negb (i =? cur)); cbn in *; [lia|]. split; [done|].
      apply length_zero_iff_nil. lia.
Qed.
End broadcast.

(** *** One message *)

(** The message that was sent last is the first that the core's handler handles, whatever else is in the queue, and its
    handler meets the queue as it was.  The handler's outcome is that of its world, whatever the records of the cores. *)
Lemma first_message {W} (hs : list (IpiMessage -> M (Sys W) unit)) riscv c m h r (S : Sys W) t t' :
  zget (cpu_if_list S) c = Some r -> dispatch hs m = h m ->
  let p := if riscv : bool then ({[c]} ∪ pending S) ∖ {[c]} else {[c]} ∪ pending S in
  h m (mkSys (cpu_if_list S) p t) = Ret tt (mkSys (cpu_if_list S) p t') ->
  irq_actions hs riscv (if riscv then 3 else 2) c AtFirst (with_world t (send_to c m S)) = Ret AtPop (mkSys (cpu_if_list S) p t').
Proof.
  intros Hr Hh p E. pose proof (zget_Some_bounds _ _ _ Hr) as Hb.
  assert (queue_pop c (with_world t (send_to c m S)) = Ret (Some m) (mkSys (cpu_if_list S) ({[c]} ∪ pending S) t)) as Ep.
  { unfold with_world, send_to. rewrite Hr. cbn [cpu_if_list pending with_pending with_ifs].
    erewrite (pop_last _ _ _ _ (cpu_if_push m r) (msg_queue r)); [|by apply zget_zset_eq|done]. f_equal. f_equal.
    rewrite zset_zset. unfold cpu_if_push. replace (with_msgs (msg_queue r) (with_msgs _ r)) with r; [by apply zset_same|by destruct r]. }
  assert (irq_action hs riscv c (AtLoop (Some m)) (mkSys (cpu_if_list S) p t) = Ret AtPop (mkSys (cpu_if_list S) p t')) as El.
  { cbn [irq_action]. rewrite Hh. by rewrite (m_bind_Ret _ _ _ _ _ E). }
  assert (irq_action hs riscv c AtFirst (with_world t (send_to c m S)) =
    Ret (if riscv then AtClear (Some m) else AtLoop (Some m)) (mkSys (cpu_if_list S) ({[c]} ∪ pending S) t)) as Ef
    by (cbn [irq_action]; by rewrite (m_bind_Ret _ _ _ _ _ Ep)).
  destruct riscv; cbn [irq_actions]; rewrite (m_bind_Ret _ _ _ _ _ Ef).
  - rewrite (m_bind_Ret (irq_action _ _ _ (AtClear _)) _ _ (AtLoop (Some m)) (mkSys (cpu_if_list S) p t)) by done.
    by rewrite (m_bind_Ret _ _ _ _ _ El).
  - by rewrite (m_bind_Ret _ _ _ _ _ El).
Qed.

(** A core with nothing to do that is sent one message handles it, and is left with an empty queue.  The handler's outcome
    is that of its world, whatever the records of the cores. *)
Lemma one_message {W} (hs : list (IpiMessage -> M (Sys W) unit)) riscv fuel c m h r (S : Sys W) t t' :
  zget (cpu_if_list S) c = Some r -> msg_queue r = [] -> dispatch hs m = h m -> (1 <= fuel)%nat ->
  let p := if riscv : bool then ({[c]} ∪ pending S) ∖ {[c]} else {[c]} ∪ pending S in
  h m (mkSys (cpu_if_list S) p t) = Ret tt (mkSys (cpu_if_list S) p t') ->
  ipi_irq_handler hs riscv fuel c (with_world t (send_to c m S)) = Ret tt (mkSys (cpu_if_list S) p t').
Proof.
  intros Hr Hq Hh Hf p E. pose proof (zget_Some_bounds _ _ _ Hr) as Hb. destruct fuel as [|fuel]; [lia|].
  unfold ipi_irq_handler, with_world, send_to. rewrite Hr. cbn [cpu_if_list pending with_pending with_ifs].
  erewrite m_bind_Ret by (eapply (pop_last _ _ _ _ (cpu_if_push m r) []); [by apply zget_zset_eq|cbn; by rewrite Hq]).
  assert (zset (zset (cpu_if_list S) c (cpu_if_push m r)) c (with_msgs [] (cpu_if_push m r)) = cpu_if_list S) as ->.
  { rewrite zset_zset. unfold cpu_if_push. replace (with_msgs [] (with_msgs _ r)) with r; [by apply zset_same|].
    destruct r. cbn in *. by subst. }
  rewrite (m_bind_Ret _ _ _ tt (mkSys (cpu_if_list S) p t)) by by destruct riscv. cbn [irq_loop]. rewrite Hh.
  rewrite (m_bind_Ret _ _ _ _ _ E). rewrite (m_bind_Ret _ _ _ _ _ (pop_empty c _ p t' r Hr Hq)). by destruct fuel.
Qed.

Lemma NoDup_zrange j : forall i, NoDup (zrange i j).
Proof.
  induction j as [|j IH]; intros i; [constructor|]. cbn. apply list.NoDup_cons. split; [|apply IH].
  rewrite zrange_elem. lia.
Qed.

Lemma NoDup_targets vm cur i j : NoDup (targets vm cur i j).
Proof. apply list.NoDup_filter, NoDup_zrange. Qed.

Lemma targets_elem vm cur c : in_word 64 (ncpu vm) ->
  c ∈ targets vm cur 0 64 <-> 0 <= c /\ Z.testbit (ncpu vm) c = true /\ c <> cur.
Proof.
  intros Hw. unfold targets. rewrite list_elem_of_filter, zrange_elem. split; [naive_solver lia|].
  intros (? & Hb & ?). split_and!; [done..|]. destruct (Z.lt_ge_cases c 64); [lia|].
  by rewrite (testbit_high 64 _ c Hw) in Hb by lia.
Qed.

(** The cores a VM was given are one more than those other than one of them. *)
Lemma targets_count vm cur :
  in_word 32 (ncpu vm) -> (forall m, master (cpu_cfg vm) = Some m -> 0 <= m < 32) ->
  0 <= cur -> Z.testbit (ncpu vm) cur = true ->
  zlen (targets vm cur 0 64) = zlen (cal_phys_id_list (cpu_cfg vm)) - 1 /\ zlen (cal_phys_id_list (cpu_cfg vm)) <= 64.
Proof.
  intros Hw Hm Hc Hb. destruct (cal_phys_id_list_spec (cpu_cfg vm) Hw Hm) as (Hnd & Hel & _).
  assert (in_word 64 (ncpu vm)) as Hw' by (unfold in_word in *; lia).
  assert (cal_phys_id_list (cpu_cfg vm) ≡ₚ cur :: targets vm cur 0 64) as Hp.
  { apply NoDup_Permutation; [done| |].
    - apply list.NoDup_cons. split; [|apply NoDup_targets]. rewrite targets_elem by done. tauto.
    - intros c. rewrite Hel, elem_of_cons, targets_elem by done. fold (ncpu vm). split.
      + intros [? ?]. destruct (decide (c = cur)); [by left|by right].
      + intros [->|(? & ? & _)]; done. }
  apply Permutation_length in Hp as Hlen. rewrite length_cons in Hlen. unfold zlen. split; [lia|].
  assert (cur ∉ targets vm cur 0 64) as Hnin by (rewrite targets_elem by done; tauto).
  assert (length (cur :: targets vm cur 0 64) <= length (zrange 0 64))%nat as H; [|rewrite length_cons in H; change (length (zrange 0 64)) with 64%nat in H; lia].
  apply submseteq_length, NoDup_submseteq; [by apply list.NoDup_cons; split; [|apply NoDup_targets]|].
  intros c. rewrite elem_of_cons, targets_elem, zrange_elem by done.
  assert (forall k, Z.testbit (ncpu vm) k = true -> 0 <= k -> k < 64) as Hk.
  { intros k Hk ?. destruct (Z.lt_ge_cases k 64); [done|]. by rewrite (testbit_high 64 _ k Hw') in Hk by lia. }
  intros [->|(? & Hk' & _)]; [split; [done|by apply Hk]|split; [done|by apply Hk]].
Qed.

Definition other_core (vm : Vm) (cur c : Z) : Prop := 0 <= c /\ Z.testbit (ncpu vm) c = true /\ c <> cur.

(** A broadcast in a VM reaches every other core of the VM once and no one else: for a VM built by the hypervisor,
    from one of its own cores, 65 turns of the loop are enough, the message is at the back of the queue of each other core,
    whose interrupt is pending, and nothing else changed. *)
Theorem broadcast_reaches_others {W} num cur vm t msg (s : Sys W) :
  make_vcpu_list (vm_id vm) (cpu_cfg vm) = Some (vcpu_list vm) ->
  in_word 32 (ncpu vm) -> (forall m, master (cpu_cfg vm) = Some m -> 0 <= m < 32) ->
  0 <= cur -> Z.testbit (ncpu vm) cur = true ->
  (forall k, 0 <= k -> Z.testbit (ncpu vm) k = true -> k < num) -> num <= zlen (cpu_if_list s) ->
  exists s', ipi_intra_broadcast_msg num 65 cur vm t msg s = Ret true s' /\ world s' = world s /\
    forall c,
      (c ∈ pending s' <-> c ∈ pending s \/ other_core vm cur c) /\
      zget (cpu_if_list s') c =
        (if Z.testbit (ncpu vm) c && negb (c =? cur) then cpu_if_push (mkIpi t msg) <$> zget (cpu_if_list s) c
         else zget (cpu_if_list s) c).
Proof.
  unfold other_core.
  intros Hmk Hw Hm Hc Hb Hnum Hlen. destruct (targets_count vm cur Hw Hm Hc Hb) as [Hcnt Hle].
  unfold make_vcpu_list in Hmk. destruct (Z.eqb_spec (zlen (cal_phys_id_list (cpu_cfg vm))) (cpu_num (cpu_cfg vm))) as [E|]; [|done].
  assert (in_word 64 (ncpu vm)) as Hw' by (unfold in_word in *; lia).
  exists (send_all (targets vm cur 0 64) (mkIpi t msg) s).
  destruct (send_all_spec (mkIpi t msg) (targets vm cur 0 64) s) as (H1 & H2 & H3).
  { apply NoDup_targets. }
  { intros k. rewrite targets_elem by done. intros (? & Hk & _). specialize (Hnum k ltac:(done) Hk). lia. }
  split_and!; [|done|].
  - unfold ipi_intra_broadcast_msg. apply broadcast_from_eq; (done || lia).
  - intros c. pose proof (targets_elem vm cur c Hw') as Ht. rewrite H1, H2, elem_of_union, elem_of_list_to_set.
    split; [tauto|]. case_decide as Hd.
    + apply Ht in Hd as (_ & -> & Hne). by destruct (Z.eqb_spec c cur).
    + destruct (Z.testbit (ncpu vm) c) eqn:Et; [|done]. destruct (Z.eqb_spec c cur); [done|]. cbn [andb negb].
      destruct Hd. apply Ht. split_and!; [|done..]. destruct (Z.lt_ge_cases c 0); [by rewrite Z.testbit_neg_r in Et|done].
Qed.


Lemma broadcast_reaches_others_witness : exists s' : Sys unit,
  ipi_intra_broadcast_msg 4 65 0 demo_vm IpiTIntInject NoneMsg (mkSys cpu_if_init ∅ tt) = Ret true s' /\
  (fun r => msg_queue r) <$> zget (cpu_if_list s') 3 = Some [mkIpi IpiTIntInject NoneMsg].
Proof.
  destruct (broadcast_reaches_others 4 0 demo_vm IpiTIntInject NoneMsg (mkSys cpu_if_init ∅ tt)) as (s' & H1 & _ & H2).
  - by vm_compute.
  - by vm_compute.
  - intros m [= <-]. lia.
  - lia.
  - done.
  - intros k Hk Hb. destruct (Z.lt_ge_cases k 4); [done|]. rewrite (testbit_high 4) in Hb; [done| |lia]. by vm_compute.
  - by vm_compute.
  - exists s'. split; [exact H1|]. destruct (H2 3) as [_ ->]. by vm_compute.
Defined.
