(* ===== verification/Trap.v ===== *)
(** * Trap: the registers of the guests around the scheduler

    A trap from a guest leaves its registers in a frame on the core's stack ([Cpu::ctx]); the handlers read and write
    them there, and the scheduler replaces the frame when it changes the vCPU ([context_vm_store], [context_vm_restore]
    of [kernel/vcpu.rs], [run_idle_thread]).  [Sched] logs these moves in order; here the log is carried out on the frame and
    on the frames that are saved with the vCPUs.  What differs between the architectures is a class. *)
From stdpp Require Import list gmap.
From S2P Require Import Prelude Vm Sched Config Ipi.

(** ** Frames *)

(** src: arch/aarch64/context_frame.rs 34-40 [Aarch64ContextFrame]
    Without [spsr] and [sp], which the handlers do not use; likewise for RISC-V. *)
Record Frame := mkFrame { gprs : list Z; fpc : Z }.

(** src: arch/aarch64/context_frame.rs 100-102 [ContextFrameTrait::set_gpr]
    [None] is the panic. *)
Definition frame_set (idx v : Z) (f : Frame) : option Frame := l ← zstore (gprs f) idx v; Some (mkFrame l (fpc f)).
(** src: arch/aarch64/context_frame.rs 84-86 [ContextFrameTrait::set_exception_pc] *)
Definition frame_pc (pc : Z) (f : Frame) : Frame := mkFrame (gprs f) pc.

(** [gpr_num]: [CONTEXT_GPR_NUM].  [reset_regs v entry ctx]: what [psci_vcpu_on] writes into the saved frame of [v] before it
    is woken.  [boot_regs core cfg]: [Vcpu::init_boot_info]. *)
Class Arch := {
  gpr_num : nat;
  reset_regs : Vcpu -> Z -> Z -> Frame -> option Frame;
  boot_regs : Z -> VmConfigEntry -> Frame -> option Frame;
}.

Definition os_boot_arg (c : VmConfigEntry) : option Z :=
  match os_type c with
  | VmTOs => Some (device_tree_load_ipa (image c))
  | _ => r ← head (memory c); Some (usize (ipa_start r + rg_length r))
  end.

(** src: arch/aarch64/vcpu.rs 15-26 [Vcpu::init_boot_info] *)
Definition aarch64_boot_regs (_ : Z) (c : VmConfigEntry) (f : Frame) : option Frame :=
  arg ← os_boot_arg c; f ← frame_set 0 arg f; Some (frame_pc (kernel_entry_point (image c)) f).

(** src: arch/aarch64/psci.rs 268-269 [psci_vcpu_on: the registers] *)
Definition aarch64_reset_regs (_ : Vcpu) (entry ctx : Z) (f : Frame) : option Frame :=
  f ← frame_set 0 ctx f; Some (frame_pc entry f).

Definition aarch64 : Arch := {| gpr_num := 31; reset_regs := aarch64_reset_regs; boot_regs := aarch64_boot_regs |}.

Definition A0_NUM : Z := 10.
Definition A1_NUM : Z := 11.

(** src: arch/riscv64/vcpu.rs 12-37 [Vcpu::init_boot_info] *)
Definition riscv64_boot_regs (core : Z) (c : VmConfigEntry) (f : Frame) : option Frame :=
  f ← match os_type c with
      | VmTOs => f ← frame_set A0_NUM core f; frame_set A1_NUM (device_tree_load_ipa (image c)) f
      | _ => arg ← os_boot_arg c; frame_set A0_NUM arg f
      end;
  Some (frame_pc (kernel_entry_point (image c)) f).

(** src: arch/riscv64/power.rs 74-76 [psci_vcpu_on: the registers] *)
Definition riscv64_reset_regs (v : Vcpu) (entry ctx : Z) (f : Frame) : option Frame :=
  f ← frame_set A0_NUM (vcpu_id v) f; f ← frame_set A1_NUM ctx f; Some (frame_pc entry f).

Definition riscv64 : Arch := {| gpr_num := 32; reset_regs := riscv64_reset_regs; boot_regs := riscv64_boot_regs |}.

(** ** A core with frames *)

(** What leaves for the firmware and the hart: the PSCI calls of the [smccc] crate by name and calls made directly, the SBI
    calls of the [sbi_rt] crate (their masks of harts have base 0), timer registers. *)
Inductive FwCall :=
  | FwSmc (fid x1 x2 x3 : Z)
  | FwVersion | FwCpuOff | FwAffinityInfo (mpidr lowest : Z) | FwMigrate (target : Z) | FwMigrateInfoType
  | FwMigrateInfoUpCpu | FwSystemOff | FwSystemReset | FwSystemReset2 (reset_type cookie : Z) | FwMemProtect (enabled : bool)
  | FwMemProtectCheckRange (base length : Z) | FwCpuFreeze | FwCpuDefaultSuspend (entry context : Z)
  | FwNodeHwState (cpu level : Z) | FwSystemSuspend (entry context : Z) | FwSetSuspendMode (os : bool)
  | FwStatResidency (cpu state : Z) | FwStatCount (cpu state : Z)
  | FwReset                                      (** the whole machine, by the hypervisor itself *)
  | SbiConsoleWriteByte (byte : Z) | SbiConsoleRead
  | SbiRemoteFenceI (harts : Z) | SbiRemoteHfenceVvma (harts start size : Z) | SbiRemoteHfenceVvmaAsid (harts start size asid : Z)
  | ClearTimingInterrupt | SetSTimer | NextTimerIntr (vm vcpu time : Z).   (** registers of the hart and the vCPU's timer *)
#[export] Instance FwCall_eq_dec : EqDecision FwCall.
Proof. solve_decision. Defined.

(** [tframe]: the frame of the trap; [saved]: those of the vCPUs; [vms]: the list of VMs; [fw_log]: the calls made. *)
Record TS := mkTS {
  tnode : Node;
  tframe : Frame;
  saved : gmap (Z * Z) Frame;
  vms : list Vm;
  fw_log : list FwCall;
}.
Definition with_frame f s := mkTS (tnode s) f (saved s) (vms s) (fw_log s).
Definition with_fw l s := mkTS (tnode s) (tframe s) (saved s) (vms s) l.

Section trap.
Context {arch : Arch}.
(** [idle]: the frame of the idle thread.  [config id]: the configuration the VM was made with. *)
Context (idle : Frame) (config : Z -> VmConfigEntry).

(** src: kernel/cpu.rs 162-167 [Cpu::set_gpr] *)
Definition set_gpr (idx v : Z) : M TS unit := fun s =>
  if Z.of_nat gpr_num <=? idx then Ret tt s
  else match frame_set idx v (tframe s) with Some f => Ret tt (with_frame f s) | None => Fault OutOfBounds end.

(** src: kernel/cpu.rs 169-174 [Cpu::get_gpr] *)
Definition get_gpr (idx : Z) : M TS Z := fun s =>
  if Z.of_nat gpr_num <=? idx then Ret 0 s
  else match zget (gprs (tframe s)) idx with Some v => Ret v s | None => Fault OutOfBounds end.

(** src: kernel/cpu.rs 176-178 [Cpu::get_elr] *)
Definition get_elr : M TS Z := m_gets (fun s => fpc (tframe s)).
(** src: kernel/cpu.rs 180-182 [Cpu::set_elr] *)
Definition set_elr (v : Z) : M TS unit := m_modify (fun s => with_frame (frame_pc v (tframe s)) s).

Definition frame_new : Frame := mkFrame (replicate gpr_num 0) 0.
Definition saved_frame (m : gmap (Z * Z) Frame) (v : Vcpu) : Frame := default frame_new (m !! vkey v).

(** src: kernel/vcpu.rs 136-172 [Vcpu::save_cpu_ctx, Vcpu::restore_cpu_ctx]
    One move of the scheduler on the trap's frame and the saved frames.  [core] is where it runs. *)
Definition frame_event (core : Z) (e : sched_event) (fs : Frame * gmap (Z * Z) Frame) : option (Frame * gmap (Z * Z) Frame) :=
  let '(cur, m) := fs in
  match e with
  | EvStore v => Some (cur, <[vkey v := cur]> m)
  | EvRestore v => Some (saved_frame m v, m)
  | EvReset v entry ctx => f ← reset_regs v entry ctx (saved_frame m v); Some (cur, <[vkey v := f]> m)
  | EvBootInfo v => f ← boot_regs core (config (vcpu_vm_id v)) (saved_frame m v); Some (cur, <[vkey v := f]> m)
  | EvIdle => Some (idle, m)
  | _ => Some fs
  end.

Definition frame_events (core : Z) (es : list sched_event) (fs : Frame * gmap (Z * Z) Frame) : option (Frame * gmap (Z * Z) Frame) :=
  foldl (fun o e => fs ← o; frame_event core e fs) (Some fs) es.

(** The events an operation added to the log. *)
Definition new_events (s s' : Core) : list sched_event := drop (length (slog s)) (slog s').

(** An operation of the scheduler, with what it does to the frames. *)
Definition on_sched {A} (m : M Node A) : M TS A := fun s =>
  match m (tnode s) with
  | Ret a n' =>
      match frame_events (core_id (ncore n')) (new_events (ncore (tnode s)) (ncore n')) (tframe s, saved s) with
      | Some (f, m') => Ret a (mkTS n' f m' (vms s) (fw_log s))
      | None => Fault OutOfBounds
      end
  | Fault f => Fault f
  end.

Definition cur_core (s : TS) : Z := core_id (ncore (tnode s)).
Definition cur_vcpu (s : TS) : option Vcpu := active_vcpu (ncore (tnode s)).

(** src: kernel/cpu.rs 250-255 [active_vm] *)
Definition active_vm (s : TS) : option Vm := v ← cur_vcpu s; vm_by_id (vcpu_vm_id v) (vms s).

Definition fw (c : FwCall) : M TS unit := m_modify (fun s => with_fw (fw_log s ++ [c]) s).

(** ** In the system of all cores *)

Definition on_ts {A} (m : M TS A) : M (Sys TS) A := fun s =>
  match m (world s) with Ret a w => Ret a (with_world w s) | Fault f => Fault f end.
End trap.

(** *** Frames *)

Lemma frame_set_Some idx v f : 0 <= idx < zlen (gprs f) -> frame_set idx v f = Some (mkFrame (zset (gprs f) idx v) (fpc f)).
Proof. intros H. unfold frame_set, zstore. by rewrite in_bounds_true. Qed.

Lemma frame_events_app {A : Arch} idle config core es es' fs :
  frame_events idle config core (es ++ es') fs = (fs' ← frame_events idle config core es fs; frame_events idle config core es' fs').
Proof.
  unfold frame_events. rewrite foldl_app. destruct (foldl _ (Some fs) es) as [fs'|]; [done|]. cbn.
  induction es' as [|e es' IH]; [done|]. exact IH.
Qed.
