(* ===== verification/TrapSpec.v ===== *)
(** * TrapSpec: registers follow their vCPUs

    Whatever the scheduler does on a core, every vCPU keeps its registers: they are in the trap's frame while it is the
    active one, in its saved frame otherwise.  This is proved for any operation built from the scheduler's, without the
    scheduler's own invariant; only an operation that takes the active vCPU away without saving it, or that resets a vCPU,
    changes registers, and then that vCPU's alone. *)
From stdpp Require Import list gmap.
From S2P Require Import Prelude Vm Sched SchedProps SchedSpec Config Ipi Trap.

(** What the architecture's register writes keep: a frame has [gpr_num] registers. *)
Definition frame_ok {A : Arch} (f : Frame) : Prop := length (gprs f) = gpr_num.

Class ArchLaws (A : Arch) := {
  reset_ok v entry ctx f : frame_ok f -> exists f', reset_regs v entry ctx f = Some f' /\ frame_ok f';
  boot_keeps core c f f' : frame_ok f -> boot_regs core c f = Some f' -> frame_ok f';
}.

Lemma frame_set_len idx v f f' : frame_set idx v f = Some f' -> length (gprs f') = length (gprs f).
Proof. unfold frame_set, zstore. destruct (in_bounds _ _); [|done]. intros [= <-]. apply length_zset. Qed.

Lemma frame_set_ok idx v f : 0 <= idx < zlen (gprs f) -> exists f', frame_set idx v f = Some f' /\ length (gprs f') = length (gprs f).
Proof. intros H. rewrite frame_set_Some by done. eexists. split; [done|]. apply length_zset. Qed.

#[export] Instance aarch64_laws : ArchLaws aarch64.
Proof.
  split; unfold frame_ok; cbn.
  - intros v entry ctx f Hf. unfold aarch64_reset_regs.
    destruct (frame_set_ok 0 ctx f) as (f1 & -> & Hl); [unfold zlen; lia|]. eexists. split; [done|]. by rewrite <- Hf.
  - intros core c f f' Hf. unfold aarch64_boot_regs. destruct (os_boot_arg c) as [a|]; [|done]. cbn.
    destruct (frame_set 0 a f) as [f1|] eqn:E; [|done]. intros [= <-]. cbn. by rewrite (frame_set_len _ _ _ _ E).
Qed.

#[export] Instance riscv64_laws : ArchLaws riscv64.
Proof.
  split; unfold frame_ok; cbn.
  - intros v entry ctx f Hf. unfold riscv64_reset_regs.
    destruct (frame_set_ok A0_NUM (vcpu_id v) f) as (f1 & -> & Hl); [unfold zlen, A0_NUM; lia|]. cbn.
    destruct (frame_set_ok A1_NUM ctx f1) as (f2 & -> & Hl2); [unfold zlen, A1_NUM; lia|]. eexists.
    split; [done|]. cbn. congruence.
  - intros core c f f' Hf H. unfold riscv64_boot_regs in H.
    destruct (match os_type c with VmTOs => _ | _ => _ end) as [f1|] eqn:E; [|done]. injection H as <-. cbn.
    rewrite <- Hf. destruct (os_type c).
    + destruct (frame_set A0_NUM core f) as [f2|] eqn:E2; [|done]. cbn in E.
      by rewrite (frame_set_len _ _ _ _ E), (frame_set_len _ _ _ _ E2).
    + destruct (os_boot_arg c) as [a|]; [|done]. cbn in E. by rewrite (frame_set_len _ _ _ _ E).
Qed.

Section regs.
Context {arch : Arch} {laws : ArchLaws arch} (idle : Frame) (config : Z -> VmConfigEntry).
Context (idle_ok : frame_ok idle).

(** The registers of a vCPU. *)
Definition regs (a : option Vcpu) (cur : Frame) (m : gmap (Z * Z) Frame) (w : Vcpu) : Frame :=
  if decide (a = Some w) then cur else saved_frame m w.
Definition frames_ok (cur : Frame) (m : gmap (Z * Z) Frame) : Prop := frame_ok cur /\ forall w, frame_ok (saved_frame m w).

Lemma saved_insert m p f w : saved_frame (<[vkey p := f]> m) w = if decide (vkey p = vkey w) then f else saved_frame m w.
Proof. unfold saved_frame. case_decide as E; [by rewrite E, lookup_insert_eq|by rewrite lookup_insert_ne]. Qed.

(** [P]: the vCPUs of the core, one of each VM.  [D]: those whose registers are to be kept. *)
Context (P D : Vcpu -> Prop).
Context (P_vm : forall v w, P v -> P w -> vcpu_vm_id v = vcpu_vm_id w -> v = w) (D_P : forall w, D w -> P w).

Definition good (s : Core) : Prop := (forall v, v ∈ queue s -> P v) /\ (forall v, active_vcpu s = Some v -> P v).

Record moved (s s' : Core) : Prop := {
  mv_good : good s';
  mv_core : core_id s' = core_id s;
  mv_log : exists es, slog s' = slog s ++ es /\
    forall cur m, frames_ok cur m -> exists cur' m', frame_events idle config (core_id s) es (cur, m) = Some (cur', m') /\
      frames_ok cur' m' /\ forall w, D w -> regs (active_vcpu s') cur' m' w = regs (active_vcpu s) cur m w;
}.

Lemma moved_still s s' : good s -> good s' -> core_id s' = core_id s -> active_vcpu s' = active_vcpu s -> slog s' = slog s -> moved s s'.
Proof.
  intros Hg Hg' Hc Ha Hl. split; [done|done|]. exists []. rewrite app_nil_r. split; [done|]. intros cur m Hf.
  exists cur, m. by rewrite Ha.
Qed.

Lemma moved_refl s : good s -> moved s s.
Proof. intros Hg. by apply moved_still. Qed.

Lemma moved_trans s1 s2 s3 : moved s1 s2 -> moved s2 s3 -> moved s1 s3.
Proof.
  intros [_ Hc1 (es1 & Hl1 & H1)] [Hg Hc2 (es2 & Hl2 & H2)]. split; [done|congruence|].
  exists (es1 ++ es2). split; [by rewrite Hl2, Hl1, app_assoc|]. intros cur m Hf.
  destruct (H1 cur m Hf) as (cur1 & m1 & E1 & Hf1 & Hr1). destruct (H2 cur1 m1 Hf1) as (cur2 & m2 & E2 & Hf2 & Hr2).
  exists cur2, m2. split; [|split; [done|]].
  - rewrite frame_events_app, E1. cbn. by rewrite <- Hc1.
  - intros w Hw. by rewrite Hr2, Hr1.
Qed.

(** An event that does not concern frames. *)
Definition no_frames (e : sched_event) : bool :=
  match e with EvStore _ | EvRestore _ | EvReset _ _ _ | EvBootInfo _ | EvIdle => false | _ => true end.

Lemma moved_emit es s : forallb no_frames es = true -> good s -> moved s (emit_p es s).
Proof.
  intros He Hg. split; [done|done|]. exists es. split; [done|]. intros cur m Hf. exists cur, m. split; [|done].
  clear Hf. induction es as [|e es IH]; [done|]. cbn in He. apply andb_true_iff in He as [He1 He2].
  change (e :: es) with ([e] ++ es). rewrite frame_events_app. replace (frame_events _ _ _ [e] _) with (Some (cur, m)); [by apply IH|].
  by destruct e.
Qed.

(** *** Switching *)

Definition store_events (s : Core) : list sched_event := match active_vcpu s with Some p => [EvStore p] | None => [] end.
Definition stored (s : Core) (cur : Frame) (m : gmap (Z * Z) Frame) : gmap (Z * Z) Frame :=
  match active_vcpu s with Some p => <[vkey p := cur]> m | None => m end.

Lemma quiet_events core es fs : forallb no_frames es = true -> frame_events idle config core es fs = Some fs.
Proof.
  destruct fs as [cur m]. induction es as [|e es IH]; [done|]. cbn [forallb]. intros [He1 He2]%andb_true_iff.
  change (e :: es) with ([e] ++ es). rewrite frame_events_app.
  replace (frame_events _ _ _ [e] _) with (Some (cur, m)) by (by destruct e). by apply IH.
Qed.

(** What a switch does to the frames, whatever they are. *)
Lemma switch_events v s : exists es, slog (switch v s) = slog s ++ es /\
  forall core cur m, frame_events idle config core es (cur, m) = Some (saved_frame (stored s cur m) v, stored s cur m).
Proof.
  exists (store_events s ++ [EvRestore v] ++ map (EvInject v) (int_list (cell (leave s) v)) ++ [EvInstall v]). split.
  - unfold switch, store_events, leave. destruct (active_vcpu s); [|done]. cbn. by rewrite <- app_assoc.
  - intros core cur m. rewrite frame_events_app.
    assert (frame_events idle config core (store_events s) (cur, m) = Some (cur, stored s cur m)) as ->
      by (unfold store_events, stored; by destruct (active_vcpu s)).
    cbn [mbind option_bind]. rewrite frame_events_app. cbn [frame_events foldl frame_event mbind option_bind].
    apply quiet_events. rewrite forallb_app. cbn. rewrite andb_true_r. by induction (int_list _).
Qed.

Lemma stored_ok s cur m : frames_ok cur m -> frames_ok cur (stored s cur m).
Proof.
  intros [Hc Hm]. split; [done|]. intros w. unfold stored. destruct (active_vcpu s) as [p|]; [|done].
  rewrite saved_insert. by case_decide.
Qed.

Lemma key_inj v w : P v -> P w -> vkey v = vkey w -> v = w.
Proof. intros Hv Hw [= E _]. by apply P_vm. Qed.

Lemma moved_switch v s : good s -> P v -> moved s (switch v s).
Proof.
  intros [Hq Ha] Hv. destruct (switch_fields v s) as (Ec & Eq & _ & Ea & _). split.
  - split; [by rewrite Eq|]. rewrite Ea. by intros w [= <-].
  - done.
  - destruct (switch_events v s) as (es & Hes & Hf). exists es. split; [done|]. intros cur m Hok.
    pose proof (stored_ok s cur m Hok) as [Hc Hm]. eexists _, _. split; [apply Hf|]. split; [by split|].
    intros w Hw%D_P. rewrite Ea. unfold regs at 1.
    assert (saved_frame (stored s cur m) w = regs (active_vcpu s) cur m w) as Hr.
    { unfold stored, regs. destruct (active_vcpu s) as [p|]; [|by rewrite decide_False]. rewrite saved_insert.
      destruct (decide (p = w)) as [->|Hne]; [by rewrite !decide_True|].
      rewrite !decide_False; [done|congruence|]. intros E. apply Hne, key_inj; auto. }
    case_decide as E; [by injection E as ->|done].
Qed.

(** *** The scheduler's operations *)

Lemma moved_tick s : sched_pre None s -> good s -> moved s (tick_p s).
Proof.
  intros Hp Hg. unfold tick_p. destruct (zget (queue s) (succ_idx s)) as [v|] eqn:Ev.
  - eapply (moved_trans s (with_idx (succ_idx s) s)); [by apply moved_still|]. apply moved_switch; [done|].
    apply (proj1 Hg). by eapply zget_elem.
  - assert (active_vcpu s = None) as Ha.
    { destruct (decide (queue s = [])) as [E|Hne].
      - destruct (active_vcpu s) as [a|] eqn:Ea; [|done]. apply (pre_active None s Hp) in Ea. rewrite E in Ea.
        by apply elem_of_nil in Ea.
      - destruct (succ_idx_get None s Hp Hne) as (v & Hv & _). congruence. }
    destruct (ctx_null s); [by apply moved_refl|]. split; [done|done|]. exists [EvIdle]. split; [done|].
    intros cur m [Hc Hm]. exists idle, m. split; [done|]. split; [done|]. intros w _. cbn. by rewrite Ha.
Qed.

Lemma moved_enqueue v s : good s -> P v -> moved s (enqueue v s).
Proof.
  intros [Hq Ha] Hv.
  assert (active_vcpu (enqueue v s) = active_vcpu s /\ slog (enqueue v s) = slog s /\ core_id (enqueue v s) = core_id s) as (E1 & E2 & E3)
    by (unfold enqueue; by destruct (1 <? _)).
  apply moved_still; [done| |done..]. split; [|by rewrite E1]. rewrite enqueue_queue. intros w [?|Hw]%elem_of_app; [auto|].
  apply list_elem_of_singleton in Hw. by subst.
Qed.

Lemma moved_wakeup v s : sched_ok s -> may_join v s -> good s -> P v -> moved s (wakeup_p v s).
Proof.
  intros Hok Hj Hg Hv. pose proof (moved_enqueue v s Hg Hv) as Hm. unfold wakeup_p. destruct (_ =? 1); [|done].
  eapply moved_trans; [exact Hm|]. apply moved_tick; [by apply enqueue_pre|apply Hm].
Qed.

Lemma moved_inject v int s : sched_ok s -> (vstate s v = Sleep -> may_join v s) -> good s -> P v -> moved s (inject_p v int s).
Proof.
  intros Hok Hj Hg Hv. unfold inject_p.
  assert (moved s (match vstate s v with Sleep => wakeup_p v (emit_p [EvCpuRun] s) | _ => s end)) as Hm.
  { destruct (vstate s v) eqn:E; try (by apply moved_refl). eapply moved_trans; [by apply (moved_emit [EvCpuRun])|].
    by apply moved_wakeup; [apply emit_ok|apply Hj| |]. }
  eapply moved_trans; [exact Hm|]. by apply moved_emit; [|apply Hm].
Qed.

Lemma moved_yield v s : good s -> P v -> moved s (yield_p v s).
Proof.
  intros [Hq Ha] Hv. unfold yield_p. cbn [queue with_idx with_queue].
  eapply moved_trans; [|apply moved_switch; [|exact Hv]]; [apply moved_still| ]; try (by destruct (1 <? _)); [done|..];
    (split; [|by destruct (1 <? _)]); (replace (queue (if 1 <? _ then _ else _)) with (queue s ++ [v]) by by destruct (1 <? _));
    intros w [?|Hw]%elem_of_app; auto; apply list_elem_of_singleton in Hw; by subst.
Qed.

(** Taking a vCPU off the core: those that are to be kept are others. *)
Lemma moved_sleep v l k s : sched_ok s -> queue s = l ++ v :: k -> good s -> ~ D v -> moved s (sleep_p v l k s).
Proof.
  intros Hok E [Hq Ha] Hv. unfold sleep_p.
  set (i := if zlen l <? active_idx s then active_idx s - 1 else active_idx s).
  destruct (timer_p_fields (remove_p v l k i s)) as (Eq & Ei & Ev & Ec).
  assert (good (timer_p (remove_p v l k i s))) as Hg'.
  { split.
    - rewrite Eq. cbn. intros w Hw. apply Hq. rewrite E, <- Permutation_middle. by right.
    - rewrite Ev. cbn. intros w. case_decide; [done|]. apply Ha. }
  assert (moved s (timer_p (remove_p v l k i s))) as Hm.
  { split; [done|by rewrite Ec|]. exists []. rewrite app_nil_r. split; [unfold timer_p; by destruct (_ <=? 1)|].
    intros cur m Hf. exists cur, m. split; [done|]. split; [done|]. intros w Hw. rewrite Ev. cbn.
    destruct (decide (active_vcpu s = Some v)) as [Ea|]; [|done]. rewrite Ea. unfold regs. rewrite decide_False by done.
    rewrite decide_False; [done|]. intros [= ->]. done. }
  destruct (_ =? active_idx s); [|done]. eapply moved_trans; [exact Hm|]. apply moved_tick; [|done].
  apply timer_p_pre, remove_pre; [apply Hok|done|by apply (remove_range s v)].
Qed.
End regs.

(** ** The runs of a core *)

Section runs.
Context {arch : Arch} {laws : ArchLaws arch} (idle : Frame) (config : Z -> VmConfigEntry) (idle_ok : frame_ok idle).
Context (reserved : Z -> bool) (vm_has : Z -> Z -> bool).

#[local] Abbreviation moved := (moved idle config).
#[local] Abbreviation run_op := (run_op reserved vm_has).

(** The vCPUs of the core's array. *)
Definition owned (n : Node) (w : Vcpu) : Prop := slot n (vcpu_vm_id w) = Some w.

(** The vCPU an operation is about, whose registers it may change. *)
Definition touched (o : sched_op) (n : Node) : option Vcpu :=
  match o with
  | OpCpuOn vm _ _ | OpRemove vm => slot n vm
  | OpSuspend _ _ => active_vcpu (ncore n)
  | OpAssign v => Some v
  | _ => None
  end.
Definition kept (o : sched_op) (n : Node) (w : Vcpu) : Prop := owned n w /\ touched o n <> Some w.

Lemma owned_vm n v w : owned n v -> owned n w -> vcpu_vm_id v = vcpu_vm_id w -> v = w.
Proof. unfold owned. intros Hv Hw E. rewrite E in Hv. congruence. Qed.

Lemma kept_owned o n w : kept o n w -> owned n w.
Proof. by intros []. Qed.

Lemma node_good n : node_ok n -> good (owned n) (ncore n).
Proof.
  intros Hok. split; [apply (node_queue n Hok)|]. intros v Hv. apply (node_queue n Hok).
  by apply (pre_active _ _ (ok_pre _ (node_core n Hok))).
Qed.

Lemma slot_owned n vm v : node_ok n -> slot n vm = Some v -> owned n v.
Proof. intros Hok Hv. destruct (slot_facts n vm v Hok Hv) as (E & _). unfold owned. by rewrite E. Qed.

#[local] Hint Resolve owned_vm kept_owned node_good slot_owned node_core : core.

Lemma inject_moved o n v int : node_ok n -> owned n v ->
  moved (owned n) (kept o n) (ncore n) (inject_p v int (ncore n)).
Proof.
  intros Hok Hv. apply moved_inject; eauto. intros E. eapply asleep_join; [done|exact Hv|by rewrite E].
Qed.

Lemma handler_search_moved o n int l b s' : node_ok n -> (forall v, Some v ∈ l -> owned n v) ->
  handler_search vm_has 2 int l (ncore n) = Ret b s' -> moved (owned n) (kept o n) (ncore n) s'.
Proof.
  intros Hok. induction l as [|[v|] l IH]; intros Hl; cbn [handler_search].
  - intros [= _ <-]. apply moved_refl; eauto.
  - destruct (vm_has (vcpu_vm_id v) int); [|apply IH; intros w Hw; apply Hl; by right].
    assert (owned n v) as Hv by (apply Hl; by left). destruct (inject_node n (vcpu_vm_id v) v int) as [E _]; [done..|].
    unfold m_bind at 1. unfold m_get. pose proof (inject_moved o n v int Hok Hv).
    destruct (vstate (ncore n) v); try (intros [= _ <-]; apply moved_refl; by eauto);
      (erewrite m_bind_Ret by exact E); by intros [= _ <-].
  - apply IH. intros w Hw. apply Hl. by right.
Qed.

Lemma irq_moved o n int b s' : node_ok n -> interrupt_handler reserved vm_has 2 (narr n) int (ncore n) = Ret b s' ->
  moved (owned n) (kept o n) (ncore n) s'.
Proof.
  intros Hok. unfold interrupt_handler. destruct (reserved int); [intros [= _ <-]; apply moved_refl; by eauto|].
  unfold m_bind at 1. unfold m_get.
  destruct (if (16 <=? int) && (int <? 32) then active_vcpu (ncore n) else None) as [v|] eqn:Ea.
  - destruct (vm_has (vcpu_vm_id v) int); [|intros [= _ <-]; apply moved_refl; by eauto].
    assert (owned n v) as Hv by (apply (node_good n Hok); by destruct (_ && _)).
    destruct (inject_node n (vcpu_vm_id v) v int) as [E _]; [done..|].
    erewrite m_bind_Ret by exact E. intros [= _ <-]. by apply inject_moved.
  - apply handler_search_moved; [done|]. intros v (i & Hi)%list_elem_of_lookup. unfold owned. apply pop_Some.
    assert (zget (array (narr n)) (Z.of_nat i) = Some (Some v)) as Hz.
    { unfold zget. rewrite (proj2 (Z.leb_le _ _)) by lia. by rewrite Nat2Z.id. }
    destruct (arr_slot _ _ (node_array n Hok) _ _ Hz) as [-> _]. done.
Qed.

(** A reset writes the registers of one vCPU. *)
Lemma moved_reset P D s es v entry ctx :
  (forall a b, P a -> P b -> vcpu_vm_id a = vcpu_vm_id b -> a = b) -> (forall w, D w -> P w) ->
  forallb no_frames es = true -> good P s -> P v -> ~ D v -> moved P D s (emit_p (es ++ [EvReset v entry ctx]) s).
Proof.
  intros Hvm HD Hes Hg Hv Hn. split; [done|done|]. eexists. split; [done|]. intros cur m [Hc Hm].
  destruct (reset_ok v entry ctx (saved_frame m v) (Hm v)) as (f & Ef & Hf).
  exists cur, (<[vkey v := f]> m). rewrite frame_events_app, quiet_events by done. cbn. rewrite Ef. cbn. split; [done|].
  split.
  - split; [done|]. intros w. rewrite saved_insert. by case_decide.
  - intros w Hw. unfold regs. case_decide; [done|]. rewrite saved_insert, decide_False; [done|]. intros [= E _].
    apply Hn. by rewrite (Hvm v w) by auto.
Qed.

Lemma cpu_on_moved P D s v entry ctx :
  (forall a b, P a -> P b -> vcpu_vm_id a = vcpu_vm_id b -> a = b) -> (forall w, D w -> P w) ->
  sched_ok s -> may_join v s -> good P s -> P v -> ~ D v -> moved P D s (vcpu_on_p v entry ctx s).
Proof.
  intros Hvm HD Hok Hj Hg Hv Hn. unfold vcpu_on_p. pose proof (moved_reset P D s [EvCpuRun] v entry ctx Hvm HD eq_refl Hg Hv Hn) as H1.
  assert (sched_ok (emit_p [EvCpuRun; EvReset v entry ctx] s)) as Hok1 by by apply emit_ok.
  assert (moved P D (emit_p [EvCpuRun; EvReset v entry ctx] s) (wakeup_p v (emit_p [EvCpuRun; EvReset v entry ctx] s))) as H2.
  { apply moved_wakeup; auto; apply H1. }
  eapply moved_trans; [exact H1|]. eapply moved_trans; [exact H2|]. apply moved_tick; auto; [|apply H2].
  by apply ok_pre, wakeup_ok.
Qed.

Lemma moved_again P D s s' es : forallb no_frames es = true -> moved P D s s' -> moved P D s (emit_p es s').
Proof. intros He Hm. eapply moved_trans; [exact Hm|]. by apply moved_emit; [|apply Hm]. Qed.

(** Removing a vCPU: when it was the last one of the core, the core idles. *)
Lemma remove_moved n vm n' : node_ok n -> slot n vm <> None -> run_op (OpRemove vm) n = Ret tt n' ->
  moved (owned n) (kept (OpRemove vm) n) (ncore n) (ncore n').
Proof.
  intros Hok Hv. destruct (slot n vm) as [v|] eqn:Es; [|done]. clear Hv.
  assert (owned n v) as Hov by eauto. assert (~ kept (OpRemove vm) n v) as Hnv by (intros [_ Hk]; by apply Hk).
  destruct (remove_occupied (core_id (ncore n)) (narr n) vm v) as (a' & Er & Ha & Hlen & Hpop); [apply Hok|done|].
  set (es := if alen a' =? 0 then [EvCpuInt 27 false] else []).
  assert (moved (owned n) (kept (OpRemove vm) n) (ncore n) (emit_p es (ncore n))) as H0
    by (apply moved_emit; [unfold es; by destruct (_ =? 0)|eauto]).
  assert (sched_ok (emit_p es (ncore n))) as Hok0 by (apply emit_ok; eauto).
  assert (exists s1, sleep inj v (emit_p es (ncore n)) = Ret tt s1 /\ moved (owned n) (kept (OpRemove vm) n) (emit_p es (ncore n)) s1)
    as (s1 & E1 & H1).
  { destruct (decide (v ∈ queue (ncore n))) as [Hq|Hq].
    - destruct (list_elem_of_split _ _ Hq) as (l & k & E). exists (sleep_p v l k (emit_p es (ncore n))).
      split; [by apply sleep_eq|]. apply moved_sleep; eauto. apply H0.
    - destruct (slot_facts n vm v Hok Es) as (Em & _). destruct (slot_join n vm v Hok Es Hq) as (_ & _ & Hn).
      exists (state_p v Sleep (emit_p es (ncore n))). split; [by apply sleep_absent|]. by apply moved_still; try apply H0. }
  assert (moved (owned n) (kept (OpRemove vm) n) (ncore n) s1) as H2 by (eapply moved_trans; eauto).
  cbn [SchedSpec.run_op]. unfold vmm_cpu_remove_vcpu, on_array, on_core. munfold. rewrite Er. cbn [narr ncore].
  unfold es in E1. destruct (alen a' =? 0) eqn:E0.
  - rewrite sched_emit_eq. cbn [narr ncore]. rewrite E1. cbn [narr ncore]. rewrite E0. cbn [narr ncore].
    rewrite sched_emit_eq, sched_emit_eq, emit_p_app. intros [= <-]. cbn [ncore].
    eapply moved_trans; [exact H2|]. split; [apply H2|done|]. exists [EvClearIrq; EvIdle]. split; [done|].
    intros cur m [Hc Hm]. exists idle, m. split; [done|]. split; [done|]. intros w [Hw Hk]. exfalso.
    assert (slot n (vcpu_vm_id w) = Some w) as Hw' by exact Hw.
    assert (vcpu_vm_id w <> vm) as Hne by (intros E; apply Hk; cbn; by rewrite <- E).
    assert (pop_vcpu_through_vmid (vcpu_vm_id w) a' = Some w) as Hp by (by rewrite Hpop, decide_False).
    apply pop_Some in Hp. apply (occupied_zset _ _ None) in Hp. cbn in Hp.
    pose proof (occupied_bounds (zset (array a') (vcpu_vm_id w) None)). rewrite <- (arr_count _ _ Ha) in Hp.
    apply Z.eqb_eq in E0. lia.
  - rewrite emit_p_nil in E1. cbn [narr ncore]. rewrite E1. cbn [narr ncore]. rewrite E0. by intros [= <-].
Qed.

Lemma op_moved o n n' : node_ok n -> op_enabled o n -> run_op o n = Ret tt n' ->
  moved (owned n) (kept o n) (ncore n) (ncore n').
Proof.
  intros Hok He. assert (moved (owned n) (kept o n) (ncore n) (ncore n)) as Hr by (apply moved_refl; eauto).
  destruct o as [|int|vm int|v int|vm entry ctx|x2 x3|vm|v|vm]; cbn [op_enabled] in *.
  - destruct (tick_node n Hok) as [E _]. cbn [SchedSpec.run_op]. rewrite (on_core_Ret _ _ _ _ E). intros [= <-]. apply moved_tick; eauto.
    by apply ok_pre, node_core.
  - cbn [SchedSpec.run_op]. unfold m_bind, m_get, on_core. destruct (interrupt_handler _ _ _ _ _ _) as [b s'|] eqn:E; [|done].
    intros [= <-]. eapply irq_moved; eauto.
  - destruct (slot n vm) as [v|] eqn:Es; [|done]. destruct (inject_node n vm v int Hok Es) as [E _]. cbn [SchedSpec.run_op].
    unfold m_bind, m_get, on_core, interrupt_inject_ipi_handler. unfold slot in Es. rewrite Es, E. intros [= <-].
    apply inject_moved; eauto.
  - cbn [SchedSpec.run_op]. unfold on_core, push_int, m_modify. destruct (existsb _ _); intros [= <-]; [by destruct (ncore n)|].
    apply moved_still; try done; eauto. by apply node_good in Hok.
  - cbn [SchedSpec.run_op]. unfold psci_ipi_handler. rewrite m_bind_ret. unfold m_get, m_bind.
    destruct (pop_vcpu_through_vmid vm (narr n)) as [v|] eqn:Es; [|by intros [= <-]].
    destruct (vstate (ncore n) v) eqn:Ev; try (by intros [= <-]).
    destruct (cpu_on_node n vm v entry ctx Hok Es Ev) as [E _]. rewrite (on_core_Ret _ _ _ _ E). intros [= <-].
    apply cpu_on_moved; eauto.
    + eapply asleep_join; [done|exact Es|by rewrite Ev].
    + intros [_ Hk]. by apply Hk.
  - destruct (active_vcpu (ncore n)) as [v|] eqn:Ea; [|done].
    destruct (suspend_node n x2 x3 v Hok Ea) as (l & k & Eq & E & _). cbn [SchedSpec.run_op]. rewrite (on_core_Ret _ _ _ _ E). intros [= <-].
    assert (owned n v) as Hv by (by apply (node_good n Hok)). assert (~ kept (OpSuspend x2 x3) n v) as Hn by (intros [_ Hk]; by apply Hk).
    assert (moved (owned n) (kept (OpSuspend x2 x3) n) (ncore n) (emit_p [EvReset v x2 x3] (ncore n))) as H1.
    { apply (moved_reset _ _ _ []); eauto. }
    eapply moved_trans; [exact H1|]. apply moved_sleep; eauto; [by apply emit_ok, node_core|apply H1].
  - cbn [SchedSpec.run_op]. unfold vmm_boot_vm_here. unfold m_get. unfold m_bind at 1.
    destruct (pop_vcpu_through_vmid vm (narr n)) as [v|] eqn:Es; [|by intros [= <-]].
    pose proof (emit_node n [EvClearIrq] Hok) as Hok1. set (n1 := mkNode _ _) in Hok1.
    destruct (boot_node n1 vm v Hok1 Es) as [E _]; [by apply He|].
    assert (on_core (sched_emit EvClearIrq) n = Ret tt n1) as E0 by done.
    rewrite (m_bind_Ret _ _ _ _ _ E0), (m_bind_Ret _ _ _ _ _ (on_core_Ret _ _ _ _ E)). intros [= <-]. cbn [ncore].
    apply moved_again; [done|]. eapply moved_trans; [by apply (moved_emit _ _ _ _ [EvClearIrq]); [|eauto]|].
    apply moved_yield; eauto. by apply node_good in Hok.
  - destruct He as (Hn & Hb & Hp). cbn [SchedSpec.run_op]. unfold m_bind, on_core, on_array. cbn.
    destruct (append_vcpu v (narr n)) as [[] a'|] eqn:Ea; [|done]. intros [= <-].
    apply moved_still; try done; eauto. by apply node_good in Hok.
  - apply remove_moved; done.
Qed.

(** *** On a core with frames *)

(** The registers of a vCPU, wherever they are. *)
Definition vregs (s : TS) (w : Vcpu) : Frame := regs (cur_vcpu s) (tframe s) (saved s) w.
Definition ts_ok (s : TS) : Prop := frames_ok (tframe s) (saved s).

Lemma on_sched_moved {A} P D (m : M Node A) s a n' :
  ts_ok s -> m (tnode s) = Ret a n' -> moved P D (ncore (tnode s)) (ncore n') ->
  exists s', on_sched idle config m s = Ret a s' /\ tnode s' = n' /\ ts_ok s' /\ vms s' = vms s /\ fw_log s' = fw_log s /\
    forall w, D w -> vregs s' w = vregs s w.
Proof.
  intros Hs Hm [_ Hc (es & Hl & Hf)]. destruct (Hf _ _ Hs) as (cur & m' & E & Hok & Hr).
  unfold on_sched. rewrite Hm. unfold new_events. rewrite Hl, drop_app_length, Hc, E.
  eexists. split; [done|]. by split_and!.
Qed.

Lemma on_ts_Ret {A} (m : M TS A) (S : Sys TS) a w : m (world S) = Ret a w -> on_ts m S = Ret a (with_world w S).
Proof. unfold on_ts. by intros ->. Qed.

Lemma with_world_self (S : Sys TS) : with_world (world S) S = S.
Proof. by destruct S. Qed.

Lemma on_sched_ext {A} (m m' : M Node A) s : m (tnode s) = m' (tnode s) -> on_sched idle config m s = on_sched idle config m' s.
Proof. unfold on_sched. by intros ->. Qed.

(** A core with vCPUs in its queue runs one of them. *)
Lemma busy_core n : node_ok n -> queue (ncore n) <> [] -> exists w, active_vcpu (ncore n) = Some w /\ w ∈ queue (ncore n).
Proof.
  intros Hok Hq. pose proof (node_core n Hok) as Hs. rewrite (ok_active _ Hs).
  destruct (zget_in_bounds (queue (ncore n)) (active_idx (ncore n))) as [w Hw].
  { pose proof (ok_idx _ Hs). assert (zlen (queue (ncore n)) <> 0); [|pose proof (zlen_nonneg (queue (ncore n))); lia].
    unfold zlen. destruct (queue (ncore n)); [done|]. cbn. lia. }
  exists w. split; [done|by eapply zget_elem].
Qed.

(** A vCPU that is started on its core is queued and has the registers it was started with; the others keep theirs. *)
Lemma started n s v entry ctx :
  node_ok n -> tnode s = n -> ts_ok s -> owned n v -> v ∉ queue (ncore n) -> vstate (ncore n) v = Invalid ->
  exists f s', reset_regs v entry ctx (saved_frame (saved s) v) = Some f /\
    on_sched idle config (on_core (psci_vcpu_on inj v entry ctx)) s = Ret tt s' /\
    node_ok (tnode s') /\ narr (tnode s') = narr n /\ queue (ncore (tnode s')) = queue (ncore n) ++ [v] /\
    ts_ok s' /\ vregs s' v = f /\ forall w, owned n w -> w <> v -> vregs s' w = vregs s w.
Proof.
  intros Hok Hs Hts Hv Hq Hi. destruct (cpu_on_node n (vcpu_vm_id v) v entry ctx Hok Hv Hi) as [E Hn'].
  assert (may_join v (ncore n)) as Hj by (by eapply slot_join).
  set (c1 := emit_p [EvCpuRun; EvReset v entry ctx] (ncore n)).
  assert (sched_ok c1) as Hc1 by by apply emit_ok, node_core.
  assert (good (owned n) c1) as Hg by (by apply node_good).
  assert (moved (owned n) (owned n) c1 (wakeup_p v c1)) as M1 by (apply moved_wakeup; auto; by apply owned_vm).
  assert (moved (owned n) (owned n) c1 (vcpu_on_p v entry ctx (ncore n))) as M2.
  { eapply moved_trans; [exact M1|]. apply moved_tick; auto; [by apply owned_vm|by apply ok_pre, wakeup_ok|apply M1]. }
  destruct M2 as [_ Hcore (es & Hlog & Hes)].
  destruct (reset_ok v entry ctx _ (proj2 Hts v)) as (f & Ef & Hf).
  assert (frames_ok (tframe s) (<[vkey v := f]> (saved s))) as Hf1.
  { split; [apply Hts|]. intros w. rewrite saved_insert. case_decide; [done|apply Hts]. }
  destruct (Hes _ _ Hf1) as (cur & m & Efr & Hok' & Hregs).
  assert (active_vcpu (ncore n) <> Some v) as Hav.
  { intros Ha. apply Hq. by apply (pre_active _ _ (ok_pre _ (node_core n Hok))). }
  exists f, (mkTS (mkNode (narr n) (vcpu_on_p v entry ctx (ncore n))) cur m (vms s) (fw_log s)).
  destruct (wakeup_fields v c1) as [_ Eq2]. destruct (tick_fields (wakeup_p v c1)) as [_ Eq3].
  split; [done|]. split; [|split_and!; try done].
  - unfold on_sched. rewrite Hs, (on_core_Ret _ _ _ _ E). cbn [ncore]. unfold new_events.
    rewrite Hlog. unfold c1 at 1. cbn [slog emit_p with_slog]. rewrite <- app_assoc, drop_app_length, Hcore, frame_events_app.
    replace (frame_events _ _ _ [EvCpuRun; EvReset v entry ctx] _) with (Some (tframe s, <[vkey v := f]> (saved s)));
      [by cbn [mbind option_bind]; rewrite Efr|]. cbn. by rewrite Ef.
  - cbn. unfold vcpu_on_p. fold c1. by rewrite Eq3, Eq2.
  - unfold vregs, cur_vcpu. cbn. rewrite (Hregs v Hv). unfold regs. cbn. rewrite decide_False by done.
    by rewrite saved_insert, decide_True.
  - intros w Hw Hne. unfold vregs, cur_vcpu. cbn. rewrite (Hregs w Hw), Hs. unfold regs. cbn.
    case_decide; [done|]. rewrite saved_insert, decide_False; [done|]. intros [= Ek _]. apply Hne. by apply (owned_vm n).
Qed.

(** C37. The scheduler moves registers with their vCPUs.  A core that was reached by operations within their contract
    ([op_enabled]: an injection or a removal names a VM with a vCPU on the core, only a running guest suspends itself, a VM is
    booted while its vCPU is not queued, a vCPU is created for this core and a free place), with all registers in the trap's frame and the saved ones, carries out any further one, and
    when it has switched, every vCPU of the core has its registers, in the trap's frame or saved, except the one the operation starts,
    suspends, creates or removes.  What the handler of the trap writes into the frame after that is not part of the operation. *)
Theorem registers_follow_vcpus o s :
  reach reserved vm_has (tnode s) -> op_enabled o (tnode s) -> ts_ok s ->
  exists s', on_sched idle config (run_op o) s = Ret tt s' /\ reach reserved vm_has (tnode s') /\ ts_ok s' /\
    forall w, slot (tnode s) (vcpu_vm_id w) = Some w -> touched o (tnode s) <> Some w -> vregs s' w = vregs s w.
Proof.
  intros Hr He Hs. pose proof (reach_ok _ _ _ Hr) as Hok. destruct (op_node reserved vm_has o (tnode s) Hok He) as (n' & E & _).
  destruct (on_sched_moved _ _ (run_op o) s tt n' Hs E (op_moved o (tnode s) n' Hok He E)) as (s' & E' & Hn & Hs' & _ & _ & Hk).
  exists s'. rewrite Hn. split_and!; [done|by eapply reach_op|done|]. intros w Hw Hne. by apply Hk.
Qed.
End runs.

(** *** Registers of the trap *)

Section gprs.
Context {arch : Arch}.

Lemma trap_gpr_ok idx s : ts_ok s -> 0 <= idx < Z.of_nat gpr_num -> exists v, get_gpr idx s = Ret v s /\ zget (gprs (tframe s)) idx = Some v.
Proof.
  intros [Hf _] Hi. unfold get_gpr. destruct (Z.leb_spec (Z.of_nat gpr_num) idx) as [Hl|]; [lia|].
  destruct (zget_in_bounds (gprs (tframe s)) idx) as [v Hv]; [by unfold zlen; rewrite Hf|]. exists v. by rewrite Hv.
Qed.

Lemma set_gpr_ok idx v s : ts_ok s -> 0 <= idx < Z.of_nat gpr_num ->
  set_gpr idx v s = Ret tt (with_frame (mkFrame (zset (gprs (tframe s)) idx v) (fpc (tframe s))) s).
Proof.
  intros [Hf _] Hi. unfold set_gpr. destruct (Z.leb_spec (Z.of_nat gpr_num) idx) as [Hl|]; [lia|].
  rewrite frame_set_Some; [done|]. by unfold zlen; rewrite Hf.
Qed.

(** A register of the trap, read by a handler. *)
Lemma on_ts_gpr (S : Sys TS) i v : ts_ok (world S) -> 0 <= i < Z.of_nat gpr_num -> zget (gprs (tframe (world S))) i = Some v ->
  on_ts (get_gpr i) S = Ret v S.
Proof.
  intros Hok Hi Hv. destruct (trap_gpr_ok i _ Hok Hi) as (v' & E & Ev). unfold on_ts. rewrite E, with_world_self. congruence.
Qed.
End gprs.

(** ** Example *)

Definition demo_idle : Frame := mkFrame (replicate 31 0) 0x1000.
Definition demo_config (_ : Z) : VmConfigEntry := mkEntry 0 [] VmTOs [] (VmImageConfig_new 0x80000 0x90000 0) [] (mkCpuCfg 0 0 None) []
  (mkPtCfg [] [] []) [] [].
(** The frames of [demo_node]: the active vCPU's, and one for each of the others that says whose it is. *)
Definition demo_saved : gmap (Z * Z) Frame :=
  list_to_map (map (fun k => (vkey (demo_vcpu k), mkFrame (replicate 31 (100 + k)) (0x2000 + k))) [0; 1; 2; 3]).
Definition demo_ts (ops : list sched_op) : TS := mkTS (demo_node ops) (mkFrame (replicate 31 7) 0x3000) demo_saved [] [].

Lemma demo_ts_ok ops : ts_ok (arch := aarch64) (demo_ts ops).
Proof.
  split; [done|]. intros w. unfold saved_frame, demo_ts, demo_saved. cbn [saved].
  destruct (_ !! vkey w) as [f|] eqn:E; [|done]. apply elem_of_list_to_map_2, list_elem_of_In, in_map_iff in E.
  destruct E as (k & Ek & _). apply (f_equal snd) in Ek. cbn in Ek. by subst f.
Qed.

Lemma registers_follow_vcpus_witness : exists s' : TS,
  on_sched (arch := aarch64) demo_idle demo_config (run_op (fun _ => false) demo_has OpTick) (demo_ts demo_ops) = Ret tt s' /\
  vregs (arch := aarch64) s' (demo_vcpu 1) = vregs (arch := aarch64) (demo_ts demo_ops) (demo_vcpu 1).
Proof.
  destruct (registers_follow_vcpus (arch := aarch64) demo_idle demo_config eq_refl (fun _ => false) demo_has OpTick
    (demo_ts demo_ops) (demo_reach demo_ops) I (demo_ts_ok demo_ops)) as (s' & E & _ & _ & H).
  exists s'. split; [exact E|]. apply H; [vm_compute; reflexivity|discriminate].
Defined.
