(* ===== verification/Psci.v ===== *)
(** * Psci: power calls of AArch64 guests

    A guest's SMC ([arch/aarch64/sync.rs], [smc_handler]) and the PSCI calls behind it ([arch/aarch64/psci.rs]): the
    starting of vCPUs on other cores by messages or by the firmware, the start of a core, what is passed on to the firmware,
    and the handling of power messages.  The reboot of a VM ([vmm/manager.rs]) is modelled up to the message to the other
    cores; the rest of it is an event. *)
From stdpp Require Import list gmap.
From S2P Require Import Prelude Vm Sched Config Ipi Trap.

(** ** Platforms *)

Inductive board := Qemu | Rk3588 | OtherBoard.

(** [for i in 0..num { if mpidr == core_list[i].mpidr { return i } }] *)
Fixpoint find_core (l : list Z) (mpidr : Z) (idx : list Z) : option Z :=
  match idx with
  | [] => Some (2 ^ 64 - 1)
  | i :: idx' => m ← zget l i; if m =? mpidr then Some i else find_core l mpidr idx'
  end.

Section psci.
Context (b : board) (core_list : list Z) (num : Z).

(** src: board/platform_common.rs 172-181 [PlatOperation::mpidr2cpuid]
    And the boards' own ([board/qemu/platform.rs], [board/rk3588/platform.rs]). [None] is the panic. *)
Definition mpidr2cpuid (mpidr : Z) : option Z :=
  match b with
  | Qemu => find_core core_list (Z.land mpidr (notw 64 0x80000000)) (zrange 0 (Z.to_nat num))
  | Rk3588 => Some (Z.land (Z.shiftr mpidr 8) 0xff)
  | OtherBoard => find_core core_list (Z.lor mpidr 0x80000000) (zrange 0 (Z.to_nat num))
  end.

(** src: board/platform_common.rs 187-190 [PlatOperation::cpuid2mpidr] *)
Definition plat_cpuid2mpidr (cpuid : Z) : option Z := zget core_list cpuid.

(** src: board/platform_common.rs 196-198 [PlatOperation::vmpidr2vcpuid] *)
Definition vmpidr2vcpuid (vmpidr : Z) : Z :=
  match b with Rk3588 => Z.land (Z.shiftr vmpidr 8) 0xff | _ => Z.land vmpidr 0xff end.

(** [inject]: see [Sched]; [idle], [config]: see [Trap].  The firmware: [res] answers the calls that can fail ([Ok] with its
    value, [None] for [Err]), [val] the others, [smc] a direct call; a call that does not return has an answer nobody sees.
    [entry_point]: the address of [_secondary_start].  [secondary_start]: the feature.  [step]: the length of the trapped
    instruction. *)
Context (inject : Vcpu -> Z -> M Core unit) (idle : Frame) (config : Z -> VmConfigEntry).
Context (res : FwCall -> option Z) (val : FwCall -> Z) (smc : FwCall -> Z * Z * Z * Z).
Context (entry_point : Z) (secondary_start : bool) (step : Z).

#[local] Existing Instance aarch64.
#[local] Abbreviation on_sched := (on_sched idle config).
#[local] Abbreviation S := (Sys TS).

(** ** Numbers *)

Definition SMCCC_VERSION : Z := 0x80000000.
Definition PSCI_VERSION : Z := 0x84000000.
Definition PSCI_CPU_SUSPEND_64 : Z := 0xC4000001.
Definition PSCI_CPU_OFF : Z := 0x84000002.
Definition PSCI_CPU_ON_64 : Z := 0xC4000003.
Definition PSCI_AFFINITY_INFO_64 : Z := 0xC4000004.
Definition PSCI_MIGRATE_64 : Z := 0xC4000005.
Definition PSCI_MIGRATE_INFO_TYPE : Z := 0x84000006.
Definition PSCI_MIGRATE_INFO_UP_CPU_64 : Z := 0xC4000007.
Definition PSCI_SYSTEM_OFF : Z := 0x84000008.
Definition PSCI_SYSTEM_RESET : Z := 0x84000009.
Definition PSCI_SYSTEM_RESET2_64 : Z := 0xC4000012.
Definition PSCI_MEM_PROTECT : Z := 0x84000013.
Definition PSCI_MEM_PROTECT_CHECK_RANGE_64 : Z := 0xC4000014.
Definition PSCI_FEATURES : Z := 0x8400000A.
Definition PSCI_CPU_FREEZE : Z := 0x8400000B.
Definition PSCI_CPU_DEFAULT_SUSPEND_64 : Z := 0xC400000C.
Definition PSCI_NODE_HW_STATE_64 : Z := 0xC400000D.
Definition PSCI_SYSTEM_SUSPEND_64 : Z := 0xC400000E.
Definition PSCI_SET_SUSPEND_MODE : Z := 0x8400000F.
Definition PSCI_STAT_RESIDENCY_64 : Z := 0xC4000010.
Definition PSCI_STAT_COUNT_64 : Z := 0xC4000011.
Definition PSCI_E_SUCCESS : Z := 0.
Definition PSCI_E_NOT_SUPPORTED : Z := 2 ^ 64 - 1.
(** [usize::MAX - 1], what [psci_guest_cpu_on] answers to a bad target. *)
Definition PSCI_E_INVALID : Z := 2 ^ 64 - 2.

(** ** Cores *)

(** src: arch/aarch64/psci.rs 64-76 [power_arch_vm_shutdown_secondary_cores] *)
Definition power_arch_vm_shutdown_secondary_cores (vm : Vm) : M S unit :=
  let! s := m_get in
  let m := mkPower (vm_id vm) 0 PsciIpiCpuReset 0 0 in
  ipi_intra_broadcast_msg num 65 (cur_core (world s)) vm IpiTPower (Power m) >>; m_ret tt.

(** src: arch/aarch64/psci.rs 82-97 [power_arch_cpu_on] *)
Definition power_arch_cpu_on (mpidr entry ctx : Z) : M S Z :=
  let! cpu_idx := m_opt OutOfBounds (mpidr2cpuid mpidr) in
  m_modify (fun s => match zget (cpu_if_list s) cpu_idx with
                     | Some r => with_ifs (zset (cpu_if_list s) cpu_idx (with_start CpuIdle r)) s
                     | None => s
                     end) >>;
  on_ts (fw (FwSmc PSCI_CPU_ON_64 mpidr entry ctx)) >>;
  m_ret (let '(r, _, _, _) := smc (FwSmc PSCI_CPU_ON_64 mpidr entry ctx) in r).

(** src: arch/aarch64/psci.rs 287-343 [psci_ipi_handler]
    The message; what it does to the core is [Sched.psci_ipi_handler]. *)
Definition psci_ipi_handler (m : IpiMessage) : M S unit :=
  match ipi_message m with
  | Power p =>
      let! s := m_get in
      let vm_vcpu src id := vm ← vm_by_id src (vms (world s)); vcpuid_to_vcpu vm id in
      on_ts (on_sched (Sched.psci_ipi_handler inject vm_vcpu (pm_src p) (pm_vcpuid p) (pm_event p) (pm_entry p) (pm_context p)))
  | _ => m_fault ExplicitPanic
  end.

(** ** Starting vCPUs *)

(** The target: the number of the vCPU and its core, when the VM has it. *)
Definition cpu_on_target (vm : Vm) (vcpu_id : Z) : option Z :=
  if cpu_num (cpu_cfg vm) <=? vcpu_id then None else vcpuid_to_pcpuid vm vcpu_id.

(** src: arch/aarch64/psci.rs 411-439 [psci_guest_cpu_on]
    Without the feature [secondary_start]. *)
Definition psci_guest_cpu_on_message (vmpidr entry ctx : Z) : M S Z :=
  let vcpu_id := vmpidr2vcpuid vmpidr in
  let! s := m_get in
  let! vm := m_opt UnwrapNone (active_vm (world s)) in
  match cpu_on_target vm vcpu_id with
  | None => m_ret PSCI_E_INVALID
  | Some p =>
      let! ok := ipi_send_msg num p IpiTPower (Power (mkPower (vm_id vm) 0 PsciIpiCpuOn entry ctx)) in
      if ok : bool then m_ret 0 else m_ret PSCI_E_INVALID
  end.

(** src: arch/aarch64/psci.rs 355-407 [psci_guest_cpu_on: the core is off or on]
    The same lines in [psci_vm_maincpu_on], with another reason. *)
Definition start_core (vm : Vm) (vcpu_id p entry ctx : Z) (why : StartReason) : M S Z :=
  let! s := m_get in
  let! r := m_opt UnwrapNone (zget (cpu_if_list s) p) in
  if decide (state_for_start r = CpuInv) then
    m_modify (fun s => with_ifs (zset (cpu_if_list s) p (mkCpuIf (msg_queue r) entry ctx (vm_id vm) CpuIdle vcpu_id why)) s) >>;
    let! mpidr := m_opt OutOfBounds (plat_cpuid2mpidr p) in
    power_arch_cpu_on mpidr entry_point p
  else
    let! ok := ipi_send_msg num p IpiTPower (Power (mkPower (vm_id vm) vcpu_id PsciIpiVcpuAssignAndCpuOn entry ctx)) in
    if ok : bool then m_ret 0 else m_ret PSCI_E_INVALID.

(** src: arch/aarch64/psci.rs 346-408 [psci_guest_cpu_on]
    With the feature [secondary_start]. *)
Definition psci_guest_cpu_on_start (vmpidr entry ctx : Z) : M S Z :=
  let vcpu_id := vmpidr2vcpuid vmpidr in
  let! s := m_get in
  let! vm := m_opt UnwrapNone (active_vm (world s)) in
  match cpu_on_target vm vcpu_id with
  | None => m_ret PSCI_E_INVALID
  | Some p => start_core vm vcpu_id p entry ctx SecondaryCore
  end.

Definition psci_guest_cpu_on (vmpidr entry ctx : Z) : M S Z :=
  if secondary_start then psci_guest_cpu_on_start vmpidr entry ctx else psci_guest_cpu_on_message vmpidr entry ctx.

(** src: arch/aarch64/psci.rs 441-505 [psci_vm_maincpu_on] *)
Definition psci_vm_maincpu_on (vmpidr entry ctx id : Z) : M S Z :=
  let vcpu_id := vmpidr2vcpuid vmpidr in
  let! s := m_get in
  let! vm := m_opt UnwrapNone (vm_by_id id (vms (world s))) in
  match cpu_on_target vm vcpu_id with
  | None => m_ret PSCI_E_INVALID
  | Some p => start_core vm vcpu_id p entry ctx MainCore
  end.

(** src: arch/aarch64/psci.rs 508-548 [guest_cpu_on]
    On the core that starts. [boot] is [vmm_boot_vm] ([Hvc]). *)
Definition guest_cpu_on (boot : Z -> M S unit) (mpidr : Z) : M S unit :=
  let! cpu_id := m_opt OutOfBounds (mpidr2cpuid mpidr) in
  let! s := m_get in
  let! r := m_idx (cpu_if_list s) cpu_id in
  let! vm := m_opt UnwrapNone (vm_by_id (if_vm_id r) (vms (world s))) in
  let! v := m_opt UnwrapNone (vcpuid_to_vcpu vm (if_vcpuid r)) in
  on_ts (on_sched (on_array (append_vcpu v))) >>;
  match start_reason r with
  | MainCore => boot (if_vm_id r)
  | SecondaryCore =>
      let! s := m_get in
      match pop_vcpu_through_vmid (if_vm_id r) (narr (tnode (world s))) with
      | Some w => on_ts (on_sched (on_core (Sched.psci_vcpu_on inject w (if_entry r) (if_ctx r))))
      | None => m_ret tt
      end
  | NoReason => m_fault ExplicitPanic
  end.

(** ** The calls of a guest *)

(** [HNever]: the machine is reset and the core spins. *)
Inductive handled := HTrue | HFalse | HNever.

(** src: vmm/manager.rs 190-237 [vmm_reboot: up to the message to the other cores]
    The result says whether it returns. *)
Definition vmm_reboot : M S bool :=
  let! s := m_get in
  let! vm := m_opt UnwrapNone (active_vm (world s)) in
  if vm_id vm =? 0 then on_ts (fw FwReset) >>; m_ret false
  else power_arch_vm_shutdown_secondary_cores vm >>; m_ret true.

(** A firmware call that can fail: its value, or that it is not supported. *)
Definition fw_value (c : FwCall) : M S Z :=
  on_ts (fw c) >>; m_ret (match res c with Some v => v | None => PSCI_E_NOT_SUPPORTED end).
Definition fw_done (c : FwCall) : M S Z :=
  on_ts (fw c) >>; m_ret (match res c with Some _ => PSCI_E_SUCCESS | None => PSCI_E_NOT_SUPPORTED end).
Definition fw_plain (c : FwCall) : M S Z := on_ts (fw c) >>; m_ret (val c).

(** src: arch/aarch64/psci.rs 130-250 [smc_guest_handler: the calls passed on]
    [None]: not one of them. *)
Definition smc_firmware (fid x1 x2 : Z) : option (M S Z) :=
  if fid =? PSCI_VERSION then Some (fw_plain FwVersion)
  else if fid =? PSCI_CPU_OFF then Some (fw_done FwCpuOff)
  else if fid =? PSCI_AFFINITY_INFO_64 then Some (fw_value (FwAffinityInfo x1 (if x2 <? 3 then x2 else 3)))
  else if fid =? PSCI_MIGRATE_64 then Some (fw_done (FwMigrate x1))
  else if fid =? PSCI_MIGRATE_INFO_TYPE then Some (fw_value FwMigrateInfoType)
  else if fid =? PSCI_MIGRATE_INFO_UP_CPU_64 then Some (fw_plain FwMigrateInfoUpCpu)
  else if fid =? PSCI_SYSTEM_OFF then Some (fw_done FwSystemOff)
  else if fid =? PSCI_SYSTEM_RESET2_64 then Some (fw_done (FwSystemReset2 (u32 x1) x2))
  else if fid =? PSCI_MEM_PROTECT then Some (fw_value (FwMemProtect (negb (x1 =? 0))))
  else if fid =? PSCI_MEM_PROTECT_CHECK_RANGE_64 then Some (fw_done (FwMemProtectCheckRange x1 x2))
  else if fid =? PSCI_CPU_FREEZE then Some (fw_done FwCpuFreeze)
  else if fid =? PSCI_CPU_DEFAULT_SUSPEND_64 then Some (fw_done (FwCpuDefaultSuspend x1 x2))
  else if fid =? PSCI_NODE_HW_STATE_64 then Some (fw_value (FwNodeHwState x1 (u32 x2)))
  else if fid =? PSCI_SYSTEM_SUSPEND_64 then Some (fw_done (FwSystemSuspend x1 x2))
  else if fid =? PSCI_SET_SUSPEND_MODE then Some (fw_done (FwSetSuspendMode (negb (x1 =? 0))))
  else if fid =? PSCI_STAT_RESIDENCY_64 then Some (fw_plain (FwStatResidency x1 (u32 x2)))
  else if fid =? PSCI_STAT_COUNT_64 then Some (fw_plain (FwStatCount x1 (u32 x2)))
  else None.

(** src: arch/aarch64/psci.rs 200-205 [smc_guest_handler: PSCI_FEATURES] *)
Definition psci_features (x1 : Z) : Z :=
  if existsb (Z.eqb x1) [PSCI_VERSION; PSCI_CPU_ON_64; PSCI_FEATURES; SMCCC_VERSION] then PSCI_E_SUCCESS
  else PSCI_E_NOT_SUPPORTED.

(** The result goes to the register of the frame. *)
Definition smc_return (r : Z) : M S handled := on_ts (set_gpr 0 r) >>; m_ret HTrue.

(** src: arch/aarch64/psci.rs 125-256 [smc_guest_handler] *)
Definition smc_guest_handler (fid x1 x2 x3 : Z) : M S handled :=
  if fid =? PSCI_CPU_SUSPEND_64 then
    on_ts (on_sched (on_core (psci_cpu_suspend inject x2 x3))) >>; smc_return PSCI_E_SUCCESS
  else if fid =? PSCI_CPU_ON_64 then
    let! r := psci_guest_cpu_on x1 x2 x3 in smc_return r
  else if fid =? PSCI_SYSTEM_RESET then
    let! back := vmm_reboot in
    if back : bool then let! r := fw_done FwSystemReset in smc_return r else m_ret HNever
  else if fid =? PSCI_FEATURES then smc_return (psci_features x1)
  else match smc_firmware fid x1 x2 with
       | Some m => let! r := m in smc_return r
       | None => m_ret HFalse
       end.

(** src: arch/aarch64/sync.rs 77-103 [smc_handler] *)
Definition smc_handler : M S unit :=
  let! fid := on_ts (get_gpr 0) in
  let! x1 := on_ts (get_gpr 1) in
  let! x2 := on_ts (get_gpr 2) in
  let! x3 := on_ts (get_gpr 3) in
  let! h := smc_guest_handler fid x1 x2 x3 in
  match h with
  | HNever => m_ret tt
  | HTrue => let! elr := on_ts get_elr in on_ts (set_elr (usize (elr + step)))
  | HFalse =>
      let! s := m_get in
      let! vm := m_opt UnwrapNone (active_vm (world s)) in
      (if vm_id vm =? 0 then
         on_ts (fw (FwSmc fid x1 x2 x3)) >>;
         let '(r0, r1, r2, r3) := smc (FwSmc fid x1 x2 x3) in
         on_ts (set_gpr 0 r0) >>; on_ts (set_gpr 1 r1) >>; on_ts (set_gpr 2 r2) >>; on_ts (set_gpr 3 r3)
       else on_ts (set_gpr 0 PSCI_E_NOT_SUPPORTED)) >>;
      let! elr := on_ts get_elr in
      on_ts (set_elr (usize (elr + step)))
  end.
End psci.
