(* ===== verification/PsciSpec.v ===== *)
(** * PsciSpec: what the power calls of AArch64 guests do *)
From stdpp Require Import list gmap.
From S2P Require Import Prelude Vm Sched SchedProps SchedSpec Config Ipi IpiSpec Trap TrapSpec Psci.

#[local] Existing Instance aarch64.
#[local] Abbreviation vregs := (vregs (arch := aarch64)).
#[local] Abbreviation ts_ok := (ts_ok (arch := aarch64)).

(** ** Registers of the trap *)

Section frames.
Implicit Types S : Sys TS.

Lemma with_frame_ok f s : ts_ok s -> length (gprs f) = 31%nat -> ts_ok (with_frame f s).
Proof. intros [_ Hm] Hf. by split. Qed.

End frames.

(** The registers a vCPU is started with: the context in register 0, and the entry point. *)
Definition start_frame (f : Frame) (entry ctx : Z) : Frame := mkFrame (zset (gprs f) 0 ctx) entry.

(** The result of a trap: register 0, and the instruction after. *)
Definition returned (r step : Z) (f : Frame) : Frame := mkFrame (zset (gprs f) 0 r) (usize (fpc f + step)).

Section spec.
Context (b : board) (core_list : list Z) (num : Z) (idle : Frame) (config : Z -> VmConfigEntry).
Context (res : FwCall -> option Z) (val : FwCall -> Z) (smc : FwCall -> Z * Z * Z * Z).
Context (entry_point : Z) (secondary_start : bool) (step : Z).
Context (idle_ok : frame_ok idle) (reserved : Z -> bool) (vm_has : Z -> Z -> bool).

#[local] Abbreviation smc_guest_handler := (smc_guest_handler b core_list num inj idle config res val smc entry_point secondary_start).
#[local] Abbreviation smc_handler := (smc_handler b core_list num inj idle config res val smc entry_point secondary_start step).

(** The call a trapped guest makes. *)
Definition called (fid : Z) (s : TS) : Prop := zget (gprs (tframe s)) 0 = Some fid.

(** The handler, once the call is known to return. *)
Lemma smc_handler_handled (S S' : Sys TS) fid x1 x2 x3 :
  ts_ok (world S) -> called fid (world S) ->
  zget (gprs (tframe (world S))) 1 = Some x1 -> zget (gprs (tframe (world S))) 2 = Some x2 ->
  zget (gprs (tframe (world S))) 3 = Some x3 ->
  smc_guest_handler fid x1 x2 x3 S = Ret HTrue S' ->
  smc_handler S = Ret tt (with_world (with_frame (frame_pc (usize (fpc (tframe (world S')) + step)) (tframe (world S'))) (world S')) S').
Proof.
  intros Hok H0 H1 H2 H3 Hh. unfold Psci.smc_handler.
  assert (forall i v, 0 <= i < 31 -> zget (gprs (tframe (world S))) i = Some v -> on_ts (get_gpr i) S = Ret v S) as Hg.
  { intros i v Hi Hv. exact (on_ts_gpr S i v Hok Hi Hv). }
  rewrite (m_bind_Ret _ _ _ _ _ (Hg 0 fid ltac:(lia) H0)), (m_bind_Ret _ _ _ _ _ (Hg 1 x1 ltac:(lia) H1)),
    (m_bind_Ret _ _ _ _ _ (Hg 2 x2 ltac:(lia) H2)), (m_bind_Ret _ _ _ _ _ (Hg 3 x3 ltac:(lia) H3)).
  rewrite (m_bind_Ret _ _ _ _ _ Hh). cbn. unfold m_bind, on_ts, get_elr, m_gets, set_elr, m_modify. by destruct S'.
Qed.

Lemma smc_return_ok r (S : Sys TS) : ts_ok (world S) ->
  smc_return r S = Ret HTrue (with_world (with_frame (mkFrame (zset (gprs (tframe (world S))) 0 r) (fpc (tframe (world S)))) (world S)) S).
Proof.
  intros Hok. unfold smc_return. erewrite m_bind_Ret; [done|]. apply on_ts_Ret. by apply set_gpr_ok; [|cbn; lia].
Qed.

(** ** Suspending *)

(** A guest that suspends itself with CPU_SUSPEND while another vCPU shares the core spoils the registers of the vCPU
    that gets the core: the scheduler puts that vCPU's registers into the trap's frame, and then the handler writes the
    result of the call into register 0 of that frame and moves its program counter one instruction on. *)
Theorem suspend_clobbers_next (S : Sys TS) x1 x2 x3 :
  reach reserved vm_has (tnode (world S)) -> ts_ok (world S) -> cur_vcpu (world S) <> None ->
  2 <= zlen (queue (ncore (tnode (world S)))) ->
  called PSCI_CPU_SUSPEND_64 (world S) -> zget (gprs (tframe (world S))) 1 = Some x1 ->
  zget (gprs (tframe (world S))) 2 = Some x2 -> zget (gprs (tframe (world S))) 3 = Some x3 ->
  exists w S', smc_handler S = Ret tt S' /\ cur_vcpu (world S') = Some w /\ cur_vcpu (world S) <> Some w /\
    vregs (world S') w = returned PSCI_E_SUCCESS step (vregs (world S) w).
Proof.
  intros Hr Hok Ha Hq H0 H1 H2 H3. pose proof (reach_ok _ _ _ Hr) as Hn. set (n := tnode (world S)) in *.
  unfold cur_vcpu in *. fold n in Ha.
  destruct (active_vcpu (ncore n)) as [v|] eqn:Ev; [|done]. clear Ha.
  destruct (suspend_node n x2 x3 v Hn Ev) as (l & k & Eq & E & Hn').
  set (c' := sleep_p v l k (emit_p [EvReset v x2 x3] (ncore n))) in *.
  assert (op_enabled (OpSuspend x2 x3) n) as He by (unfold op_enabled; by rewrite Ev).
  pose proof (op_moved (arch := aarch64) idle config idle_ok reserved vm_has (OpSuspend x2 x3) n (mkNode (narr n) c') Hn He
    (on_core_Ret _ _ _ _ E)) as Hm.
  destruct (on_sched_moved (arch := aarch64) idle config _ _ (on_core (psci_cpu_suspend inj x2 x3)) (world S) tt _ Hok
    (on_core_Ret _ _ _ _ E) Hm) as (s' & Es & Hn1 & Hok' & _ & _ & Hk).
  destruct (busy_core (mkNode (narr n) c') Hn') as (w & Hw & Hwq).
  { cbn. destruct (sleep_fields v l k (emit_p [EvReset v x2 x3] (ncore n))) as [_ Hq']. unfold c'. rewrite Hq'.
    intros [-> ->]%app_nil. rewrite Eq in Hq. unfold zlen in Hq. cbn in Hq. lia. }
  cbn in Hw, Hwq. assert (v <> w) as Hvw.
  { intros <-. destruct (sleep_fields v l k (emit_p [EvReset v x2 x3] (ncore n))) as [_ Hq']. unfold c' in Hwq. rewrite Hq' in Hwq.
    by destruct (middle_fresh None (ncore n) v l k (ok_pre _ (node_core n Hn)) Eq) as (_ & _ & ?). }
  assert (vregs s' w = vregs (world S) w) as Hw'.
  { apply Hk. split; [|cbn; fold n; rewrite Ev; congruence]. apply (node_queue _ Hn w). unfold c' in Hwq.
    destruct (sleep_fields v l k (emit_p [EvReset v x2 x3] (ncore n))) as [_ Hq']. rewrite Hq' in Hwq. rewrite Eq, <- Permutation_middle.
    by right. }
  assert (vregs s' w = tframe s') as Hf by (unfold TrapSpec.vregs, regs, cur_vcpu; rewrite Hn1; cbn; by rewrite Hw, decide_True).
  exists w. eexists. split; [|split; [|split; [fold n; rewrite Ev; congruence|]]].
  - eapply smc_handler_handled; [done|exact H0|exact H1|exact H2|exact H3|]. unfold Psci.smc_guest_handler.
    rewrite Z.eqb_refl. rewrite (m_bind_Ret _ _ _ _ _ (on_ts_Ret _ _ _ _ Es)). by apply smc_return_ok.
  - cbn. unfold cur_vcpu. cbn. by rewrite Hn1.
  - rewrite <- Hw', Hf. unfold TrapSpec.vregs, regs, cur_vcpu. cbn. rewrite Hn1. cbn. by rewrite Hw, decide_True.
Qed.

(** ** Starting a vCPU on another core *)

(** Starting, with the registers spelt out. *)
Lemma started_regs n s v entry ctx :
  node_ok n -> tnode s = n -> ts_ok s -> owned n v -> v ∉ queue (ncore n) -> vstate (ncore n) v = Invalid ->
  exists s', on_sched (arch := aarch64) idle config (on_core (psci_vcpu_on inj v entry ctx)) s = Ret tt s' /\
    node_ok (tnode s') /\ queue (ncore (tnode s')) = queue (ncore n) ++ [v] /\
    vregs s' v = start_frame (saved_frame (arch := aarch64) (saved s) v) entry ctx /\
    forall w, owned n w -> w <> v -> vregs s' w = vregs s w.
Proof.
  intros Hok Hs Hts Hv Hq Hi.
  destruct (started (arch := aarch64) idle config idle_ok n s v entry ctx Hok Hs Hts Hv Hq Hi) as (f & s' & Ef & E & H1 & _ & H2 & _ & H3 & H4).
  exists s'. split_and!; [done..| |done]. rewrite H3. cbn in Ef. unfold aarch64_reset_regs in Ef.
  rewrite frame_set_Some in Ef by (unfold zlen; rewrite (proj2 Hts v); cbn; lia). by injection Ef as <-.
Qed.

(** The message of CPU_ON at the core of its vCPU. *)
Lemma power_on_message (S : Sys TS) v entry ctx :
  reach reserved vm_has (tnode (world S)) -> ts_ok (world S) -> owned (tnode (world S)) v ->
  vstate (ncore (tnode (world S))) v = Invalid ->
  exists s', psci_ipi_handler inj idle config (mkIpi IpiTPower (Power (mkPower (vcpu_vm_id v) 0 PsciIpiCpuOn entry ctx))) S =
      Ret tt (with_world s' S) /\
    v ∈ queue (ncore (tnode s')) /\ (queue (ncore (tnode (world S))) = [] -> cur_vcpu s' = Some v) /\
    vregs s' v = start_frame (saved_frame (arch := aarch64) (saved (world S)) v) entry ctx /\
    forall w, owned (tnode (world S)) w -> w <> v -> vregs s' w = vregs (world S) w.
Proof.
  intros Hr Hts Hv Hi. pose proof (reach_ok _ _ _ Hr) as Hok.
  assert (v ∉ queue (ncore (tnode (world S)))) as Hq.
  { intros Hq. pose proof (queued_awake _ _ (node_core _ Hok) Hq) as Ha. by rewrite Hi in Ha. }
  destruct (started_regs _ (world S) v entry ctx Hok eq_refl Hts Hv Hq Hi) as (s' & E & Hn' & Hq' & Hregs & Hothers).
  exists s'. split_and!; [|rewrite Hq', elem_of_app; right; by apply list_elem_of_singleton| |done|done].
  - unfold psci_ipi_handler. cbn [ipi_message]. unfold m_bind at 1, m_get. unfold on_ts.
    erewrite on_sched_ext; [rewrite E; done|]. cbn [pm_event pm_src pm_vcpuid pm_entry pm_context].
    unfold Sched.psci_ipi_handler. rewrite m_bind_ret. unfold m_bind, m_get. unfold owned, slot in Hv. by rewrite Hv, Hi.
  - intros E0. rewrite E0 in Hq'. destruct (busy_core (tnode s') Hn') as (w & Hw & Hin); [by rewrite Hq'|].
    rewrite Hq' in Hin. apply list_elem_of_singleton in Hin as ->. done.
Qed.

(** C38. CPU_ON from a guest on one core starts the vCPU on its core. The call puts a message in the queue of the core of the
    vCPU it names, raises the interrupt there, and returns 0; nothing else changes on the caller's side. Provided that no later message
    is in that queue when the core takes the interrupt, and that the core, in any state that its scheduler reaches by operations
    within their contract, has the vCPU and has not started it, the message is the first one handled: the vCPU joins the core's
    queue with the entry point as program counter and the context in register 0, the other vCPUs keep their registers, and if the
    core was idle it runs the vCPU.  If the queue was empty before the call, the handler of the interrupt then returns. *)
Theorem cpu_on_starts_vcpu (S : Sys TS) (t : TS) vmpidr entry ctx vm v r hs :
  active_vm (world S) = Some vm -> vmpidr2vcpuid b vmpidr < cpu_num (cpu_cfg vm) ->
  zget (vcpu_list vm) (vmpidr2vcpuid b vmpidr) = Some v -> vcpu_vm_id v = vm_id vm -> phys_id v < num ->
  zget (cpu_if_list S) (phys_id v) = Some r ->
  reach reserved vm_has (tnode t) -> ts_ok t -> slot (tnode t) (vm_id vm) = Some v -> vstate (ncore (tnode t)) v = Invalid ->
  hs !! 1%nat = Some (psci_ipi_handler inj idle config) ->
  exists S1 S2, psci_guest_cpu_on_message b num vmpidr entry ctx S = Ret 0 S1 /\ world S1 = world S /\ phys_id v ∈ pending S1 /\
    irq_actions hs false 2 (phys_id v) AtFirst (with_world t S1) = Ret AtPop S2 /\
    v ∈ queue (ncore (tnode (world S2))) /\ (queue (ncore (tnode t)) = [] -> cur_vcpu (world S2) = Some v) /\
    vregs (world S2) v = start_frame (saved_frame (arch := aarch64) (saved t) v) entry ctx /\
    (forall w, owned (tnode t) w -> w <> v -> vregs (world S2) w = vregs t w) /\
    zget (cpu_if_list S2) (phys_id v) = Some r /\
    (msg_queue r = [] -> forall fuel, (1 <= fuel)%nat -> ipi_irq_handler hs false fuel (phys_id v) (with_world t S1) = Ret tt S2).
Proof.
  intros Ha Hnum Hv Hvm Hp Hr Hreach Hts Hs Hi Hh. pose proof (zget_Some_bounds _ _ _ Hr) as Hb.
  set (m := mkIpi IpiTPower (Power (mkPower (vm_id vm) 0 PsciIpiCpuOn entry ctx))).
  exists (send_to (phys_id v) m S).
  assert (psci_guest_cpu_on_message b num vmpidr entry ctx S = Ret 0 (send_to (phys_id v) m S)) as E1.
  { unfold psci_guest_cpu_on_message, cpu_on_target, vcpuid_to_pcpuid. unfold m_bind at 1, m_get. rewrite Ha. cbn [m_opt].
    rewrite m_bind_ret. destruct (Z.leb_spec (cpu_num (cpu_cfg vm)) (vmpidr2vcpuid b vmpidr)); [lia|]. rewrite Hv. cbn [fmap option_fmap option_map].
    unfold ipi_send_msg. fold m. by rewrite (m_bind_Ret _ _ _ _ _ (ipi_send_eq num (phys_id v) m S Hp Hb)). }
  assert (pending (send_to (phys_id v) m S) = {[phys_id v]} ∪ pending S /\ world (send_to (phys_id v) m S) = world S) as [Ep Ew]
    by (unfold send_to; by rewrite Hr).
  set (S1 := mkSys (cpu_if_list S) ({[phys_id v]} ∪ pending S) t).
  destruct (power_on_message S1 v entry ctx) as (s' & E3 & H1 & H2 & H3 & H4); [done|done|unfold owned; by rewrite Hvm|done|].
  rewrite Hvm in E3. fold m in E3. exists (with_world s' S1). split; [exact E1|]. rewrite Ep, Ew. assert (dispatch hs m = psci_ipi_handler inj idle config m) as Hd by (unfold dispatch; cbn [ipi_type m ipi_type_num]; by rewrite Hh).
  split_and!; [done|set_solver| |done..|].
  - by apply (first_message hs false _ m (psci_ipi_handler inj idle config) r S t s').
  - intros Hq fuel Hf. by apply (one_message hs false fuel _ m (psci_ipi_handler inj idle config) r S t s').
Qed.

(** ** What reaches the firmware *)

(** Calls a program adds to the log. *)
Definition logs {A} (ok : FwCall -> Prop) (m : M (Sys TS) A) : Prop := forall S a S', m S = Ret a S' ->
  exists es, fw_log (world S') = fw_log (world S) ++ es /\ Forall ok es.

Section logs.
Context (ok : FwCall -> Prop).

Lemma logs_same {A} (m : M (Sys TS) A) : (forall S a S', m S = Ret a S' -> fw_log (world S') = fw_log (world S)) -> logs ok m.
Proof. intros Hm S a S' E. exists []. rewrite app_nil_r. split; [by eapply Hm|constructor]. Qed.

Lemma logs_bind {A B} (m : M (Sys TS) A) (k : A -> M (Sys TS) B) : logs ok m -> (forall a, logs ok (k a)) -> logs ok (m_bind m k).
Proof.
  intros Hm Hk S c S' (a & S1 & E1 & E2)%m_bind_inv. destruct (Hm _ _ _ E1) as (es1 & H1 & F1).
  destruct (Hk a _ _ _ E2) as (es2 & H2 & F2). exists (es1 ++ es2). rewrite H2, H1, app_assoc. split; [done|by apply Forall_app].
Qed.

Lemma logs_ret {A} (a : A) : logs ok (m_ret a).
Proof. apply logs_same. by intros S c S' [= _ <-]. Qed.
Lemma logs_get {A} (k : Sys TS -> M (Sys TS) A) : (forall s, logs ok (k s)) -> logs ok (let! s := m_get in k s).
Proof. intros Hk S a S' E. by apply (Hk S) in E. Qed.
Lemma logs_opt {A B} f (o : option A) (k : A -> M (Sys TS) B) : (forall a, o = Some a -> logs ok (k a)) -> logs ok (m_bind (m_opt f o) k).
Proof. intros Hk. destruct o as [a|]; cbn; [rewrite m_bind_ret; by apply Hk|by intros S c S' H]. Qed.
Lemma logs_fault {A} f : logs (A := A) ok (m_fault f).
Proof. by intros S a S' H. Qed.
Lemma logs_fw c : ok c -> logs ok (on_ts (fw c)).
Proof. intros Hc S [] S' [= <-]. exists [c]. split; [done|by repeat constructor]. Qed.

Lemma logs_modify_ifs (f : Sys TS -> Sys TS) : (forall S, world (f S) = world S) -> logs ok (m_modify f).
Proof. intros Hf. apply logs_same. intros S [] S' [= <-]. by rewrite Hf. Qed.

Lemma logs_sched {A} (m : M Node A) : logs ok (on_ts (on_sched (arch := aarch64) idle config m)).
Proof.
  apply logs_same. intros S a S'. unfold on_ts, on_sched. destruct (m _) as [c n'|]; [|done].
  destruct (frame_events _ _ _ _ _) as [[f m']|]; [|done]. by intros [= _ <-].
Qed.
Lemma logs_set_gpr i v : logs ok (on_ts (set_gpr i v)).
Proof.
  apply logs_same. intros S [] S'. unfold on_ts, set_gpr. destruct (_ <=? i); [by intros [= <-]|].
  destruct (frame_set _ _ _); [by intros [= <-]|done].
Qed.
Lemma logs_send t ty m : logs ok (ipi_send_msg (W := TS) num t ty m).
Proof.
  apply logs_same. intros S a S'. unfold ipi_send_msg, ipi_send. destruct (num <=? t); [by intros [= _ <-]|].
  unfold m_bind, on_if. destruct (zget _ _); [|done]. by intros [= _ <-].
Qed.

Lemma logs_broadcast vm ty m fuel : forall cur i n, logs ok (broadcast_from (W := TS) num fuel cur vm ty m i n).
Proof.
  induction fuel as [|fuel IH]; intros cur i n; cbn [broadcast_from]; [apply logs_fault|].
  destruct (_ <? _); [|apply logs_ret]. destruct (_ && _); [|apply IH]. apply logs_bind; [apply logs_send|].
  intros [|]; [apply IH|apply logs_ret].
Qed.
End logs.

(** What a guest may make the hypervisor call: a PSCI call of the firmware, or the start of a core in the hypervisor. *)
Definition guest_fw (c : FwCall) : Prop :=
  match c with
  | FwSmc fid _ entry _ => secondary_start = true /\ fid = PSCI_CPU_ON_64 /\ entry = entry_point
  | FwReset => False
  | _ => True
  end.

Lemma logs_cpu_on x1 x2 x3 : logs guest_fw (psci_guest_cpu_on b core_list num smc entry_point secondary_start x1 x2 x3).
Proof.
  unfold psci_guest_cpu_on. destruct secondary_start eqn:Ess.
  - unfold psci_guest_cpu_on_start. apply logs_get. intros S. apply logs_opt. intros vm _. destruct (cpu_on_target _ _) as [p|]; [|apply logs_ret].
    unfold start_core. apply logs_get. intros S1. apply logs_opt. intros r _. case_decide.
    + apply logs_bind; [by apply logs_modify_ifs|]. intros _. apply logs_opt. intros mpidr _. unfold power_arch_cpu_on.
      apply logs_opt. intros c _. apply logs_bind; [apply logs_modify_ifs; intros S2; by destruct (zget _ _)|]. intros _.
      apply logs_bind; [apply logs_fw; by cbn|]. intros _. apply logs_ret.
    + apply logs_bind; [apply logs_send|]. intros [|]; apply logs_ret.
  - unfold psci_guest_cpu_on_message. apply logs_get. intros S. apply logs_opt. intros vm _.
    destruct (cpu_on_target _ _) as [p|]; [|apply logs_ret]. apply logs_bind; [apply logs_send|]. intros [|]; apply logs_ret.
Qed.

Lemma logs_firmware fid x1 x2 m : smc_firmware res val fid x1 x2 = Some m -> logs guest_fw m.
Proof.
  unfold smc_firmware. intros H. repeat (destruct (fid =? _) in H; [injection H as <-|]); try done;
    (apply logs_bind; [apply logs_fw; by cbn|intros _; apply logs_ret]).
Qed.

Lemma reboot_guest vm (S : Sys TS) : active_vm (world S) = Some vm -> vm_id vm <> 0 ->
  vmm_reboot num S = (power_arch_vm_shutdown_secondary_cores num vm >>; m_ret true) S.
Proof.
  intros Ha Hvm. unfold vmm_reboot. unfold m_bind at 1, m_get. rewrite Ha. cbn [m_opt]. rewrite m_bind_ret.
  by destruct (Z.eqb_spec (vm_id vm) 0).
Qed.

Lemma logs_guest_handler vm fid x1 x2 x3 (S S' : Sys TS) h :
  active_vm (world S) = Some vm -> vm_id vm <> 0 -> smc_guest_handler fid x1 x2 x3 S = Ret h S' ->
  (exists es, fw_log (world S') = fw_log (world S) ++ es /\ Forall guest_fw es) /\ (h = HFalse -> S' = S).
Proof.
  intros Ha Hvm. unfold Psci.smc_guest_handler.
  assert (forall (m : M (Sys TS) Z), logs guest_fw m -> (let! r := m in smc_return r) S = Ret h S' ->
    (exists es, fw_log (world S') = fw_log (world S) ++ es /\ Forall guest_fw es) /\ (h = HFalse -> S' = S)) as Hret.
  { intros m Hm E. split.
    - refine (logs_bind guest_fw m smc_return Hm _ S h S' E). intros r. apply logs_bind; [apply logs_set_gpr|]. intros _. apply logs_ret.
    - apply m_bind_inv in E as (r & S1 & _ & E). unfold smc_return in E. apply m_bind_inv in E as (u & S2 & _ & E). by injection E as <- _. }
  destruct (fid =? PSCI_CPU_SUSPEND_64).
  { intros E. apply (Hret (on_ts (on_sched (arch := aarch64) idle config (on_core (psci_cpu_suspend inj x2 x3))) >>; m_ret PSCI_E_SUCCESS)).
    - apply logs_bind; [apply logs_sched|]. intros _. apply logs_ret.
    - rewrite m_bind_assoc. exact E. }
  destruct (fid =? PSCI_CPU_ON_64); [apply Hret, logs_cpu_on|].
  destruct (fid =? PSCI_SYSTEM_RESET).
  { intros E. apply m_bind_inv in E as (back & S1 & E1 & E). rewrite (reboot_guest vm) in E1 by done.
    assert (logs guest_fw (power_arch_vm_shutdown_secondary_cores num vm >>; m_ret true)) as Hl.
    { apply logs_bind; [|intros _; apply logs_ret]. unfold power_arch_vm_shutdown_secondary_cores. apply logs_get. intros S2.
      apply logs_bind; [apply logs_broadcast|]. intros _. apply logs_ret. }
    destruct back.
    - apply (Hret ((power_arch_vm_shutdown_secondary_cores num vm >>; m_ret true) >>; fw_done res FwSystemReset)).
      + apply logs_bind; [done|]. intros _. apply logs_bind; [by apply logs_fw|]. intros _. apply logs_ret.
      + by rewrite m_bind_assoc, (m_bind_Ret _ _ _ _ _ E1).
    - apply m_bind_inv in E1 as (u & S2 & _ & E1). discriminate E1. }
  destruct (fid =? PSCI_FEATURES).
  { intros E. apply (Hret (m_ret (psci_features x1))); [apply logs_ret|by rewrite m_bind_ret]. }
  destruct (smc_firmware res val fid x1 x2) as [m|] eqn:Em; [by apply Hret, (logs_firmware _ _ _ _ Em)|].
  intros [= <- <-]. split; [|done]. exists []. by rewrite app_nil_r.
Qed.

Lemma get_keeps i (S S' : Sys TS) v : on_ts (get_gpr (arch := aarch64) i) S = Ret v S' -> S' = S.
Proof.
  unfold on_ts, get_gpr. destruct (_ <=? i); [intros [= _ <-]; apply with_world_self|].
  destruct (zget _ _); [intros [= _ <-]; apply with_world_self|done].
Qed.

(** No guest but VM 0 reaches the firmware with a call of its own. Whatever a guest of another VM has in its registers
    when it traps with an SMC, the calls the firmware gets from the handling of it are PSCI calls of the library, by their
    names, and, with the feature for starting cores late, the start of a core at the hypervisor's own entry point; no call
    is passed on as the guest made it. *)
Theorem guest_smc_is_filtered (S S' : Sys TS) vm :
  active_vm (world S) = Some vm -> vm_id vm <> 0 -> smc_handler S = Ret tt S' ->
  exists es, fw_log (world S') = fw_log (world S) ++ es /\ Forall guest_fw es.
Proof.
  intros Ha Hvm. unfold Psci.smc_handler. intros E.
  apply m_bind_inv in E as (fid & S1 & E1 & E). apply get_keeps in E1 as ->.
  apply m_bind_inv in E as (x1 & S1 & E1 & E). apply get_keeps in E1 as ->.
  apply m_bind_inv in E as (x2 & S1 & E1 & E). apply get_keeps in E1 as ->.
  apply m_bind_inv in E as (x3 & S1 & E1 & E). apply get_keeps in E1 as ->.
  apply m_bind_inv in E as (h & S1 & E1 & E).
  destruct (logs_guest_handler vm fid x1 x2 x3 S S1 h Ha Hvm E1) as [(es & Hes & Hf) Hsame].
  assert (forall A (m : M (Sys TS) A) a, (forall S a S', m S = Ret a S' -> fw_log (world S') = fw_log (world S)) ->
    m S1 = Ret a S' -> exists es, fw_log (world S') = fw_log (world S) ++ es /\ Forall guest_fw es) as Hend.
  { intros A m a Hm E2. exists es. by rewrite (Hm _ _ _ E2). }
  assert (forall S a S', (let! elr := on_ts get_elr in on_ts (set_elr (usize (elr + step)))) S = Ret a S' ->
    fw_log (world S') = fw_log (world S)) as Hpc by (intros S2 a S3 H; by injection H as _ <-).
  destruct h; [by apply (Hend _ _ _ Hpc E)| |by injection E as <-; exists es].
  rewrite (Hsame eq_refl) in *. unfold m_bind at 1, m_get in E. rewrite Ha in E. cbn [m_opt] in E. rewrite m_bind_ret in E.
  destruct (Z.eqb_spec (vm_id vm) 0); [done|]. apply m_bind_inv in E as (u & S2 & E2 & E). exists [].
  rewrite app_nil_r. split; [|constructor]. rewrite (Hpc _ _ _ E). revert E2. unfold on_ts, set_gpr.
  destruct (_ <=? 0); [by intros [= _ <-]|]. destruct (frame_set _ _ _); [by intros [= _ <-]|done].
Qed.

(** A guest that resets itself resets the machine: when its reboot has been arranged, the handler goes on to the firmware's
    SYSTEM_RESET. *)
Lemma guest_reset_resets_machine (S S' : Sys TS) vm x1 x2 x3 :
  active_vm (world S) = Some vm -> vm_id vm <> 0 ->
  smc_guest_handler PSCI_SYSTEM_RESET x1 x2 x3 S = Ret HTrue S' -> FwSystemReset ∈ fw_log (world S').
Proof.
  intros Ha Hvm. unfold Psci.smc_guest_handler. change (PSCI_SYSTEM_RESET =? PSCI_CPU_SUSPEND_64) with false.
  change (PSCI_SYSTEM_RESET =? PSCI_CPU_ON_64) with false. rewrite Z.eqb_refl. intros E.
  apply m_bind_inv in E as (back & S1 & E1 & E). rewrite (reboot_guest vm) in E1 by done.
  apply m_bind_inv in E1 as (u & S2 & _ & E1). injection E1 as <- <-.
  apply m_bind_inv in E as (r & S3 & E3 & E). unfold fw_done in E3. apply m_bind_inv in E3 as (u' & S4 & E4 & E3).
  injection E4 as _ <-. injection E3 as _ <-. unfold smc_return in E. apply m_bind_inv in E as (u2 & S5 & E5 & E). injection E as <-.
  destruct u2. destruct (logs_set_gpr (fun _ => True) 0 r _ _ _ E5) as (es & -> & _). cbn. rewrite !elem_of_app. left; right.
  by apply list_elem_of_singleton.
Qed.

(** A call that is not known: VM 0's is made for it, with all four results; another's is answered with NOT_SUPPORTED. *)
Lemma unknown_smc (S : Sys TS) vm fid x1 x2 x3 :
  ts_ok (world S) -> active_vm (world S) = Some vm -> vm_id vm <> 0 -> called fid (world S) ->
  zget (gprs (tframe (world S))) 1 = Some x1 -> zget (gprs (tframe (world S))) 2 = Some x2 ->
  zget (gprs (tframe (world S))) 3 = Some x3 -> smc_guest_handler fid x1 x2 x3 S = Ret HFalse S ->
  smc_handler S = Ret tt (with_world (with_frame (returned PSCI_E_NOT_SUPPORTED step (tframe (world S))) (world S)) S).
Proof.
  intros Hok Ha Hvm H0 H1 H2 H3 Hh. unfold Psci.smc_handler.
  assert (forall i v, 0 <= i < 31 -> zget (gprs (tframe (world S))) i = Some v -> on_ts (get_gpr (arch := aarch64) i) S = Ret v S) as Hg.
  { intros i v Hi Hv. exact (on_ts_gpr S i v Hok Hi Hv). }
  rewrite (m_bind_Ret _ _ _ _ _ (Hg 0 fid ltac:(lia) H0)), (m_bind_Ret _ _ _ _ _ (Hg 1 x1 ltac:(lia) H1)),
    (m_bind_Ret _ _ _ _ _ (Hg 2 x2 ltac:(lia) H2)), (m_bind_Ret _ _ _ _ _ (Hg 3 x3 ltac:(lia) H3)).
  rewrite (m_bind_Ret _ _ _ _ _ Hh). unfold m_bind at 1, m_get. rewrite Ha. cbn [m_opt]. rewrite m_bind_ret.
  destruct (Z.eqb_spec (vm_id vm) 0); [done|].
  rewrite (m_bind_Ret _ _ _ _ _ (on_ts_Ret _ _ _ _ (set_gpr_ok 0 PSCI_E_NOT_SUPPORTED _ Hok ltac:(cbn; lia)))). done.
Qed.

(** ** Starting a core *)

(** A fresh core that gets its first vCPU. *)
Lemma first_vcpu p slice v a :
  phys_id v = p -> 0 <= vcpu_vm_id v < Sched.VM_NUM_MAX -> append_vcpu v array_new = Ret tt a ->
  node_ok (mkNode a (sched_new p slice)) /\ owned (mkNode a (sched_new p slice)) v.
Proof.
  intros Hp Hb Ha. destruct (append_free p array_new v) as (a' & Ea & Hok & _ & Hpop); [apply array_new_ok|done|done| |].
  { unfold pop_vcpu_through_vmid. cbn [array array_new]. rewrite zget_replicate; [done|]. unfold Sched.VM_NUM_MAX in *. lia. }
  rewrite Ha in Ea. injection Ea as <-. split.
  - split; [apply sched_new_ok|done|]. by intros w Hw%elem_of_nil.
  - unfold owned, slot. cbn [narr]. by rewrite Hpop, decide_True.
Qed.

(** CPU_ON for a vCPU whose core is off. The call writes the request into the core's record, marks the core as starting
    and asks the firmware to start it at the hypervisor's entry point; the core that comes up there, with nothing but its
    number, finds the request and runs the vCPU with the entry point as program counter and the context in register 0.
    A later call for the core goes by message. *)
Theorem cold_start_runs_vcpu (S : Sys TS) (t : TS) vmpidr entry ctx vm v r mpidr slice boot :
  active_vm (world S) = Some vm -> vmpidr2vcpuid b vmpidr < cpu_num (cpu_cfg vm) ->
  zget (vcpu_list vm) (vmpidr2vcpuid b vmpidr) = Some v -> vcpuid_to_vcpu vm (vmpidr2vcpuid b vmpidr) = Some v ->
  vcpu_vm_id v = vm_id vm -> 0 <= vm_id vm < Sched.VM_NUM_MAX ->
  zget (cpu_if_list S) (phys_id v) = Some r -> state_for_start r = CpuInv ->
  plat_cpuid2mpidr core_list (phys_id v) = Some mpidr -> mpidr2cpuid b core_list num mpidr = Some (phys_id v) ->
  tnode t = mkNode array_new (sched_new (phys_id v) slice) -> ts_ok t -> vm_by_id (vm_id vm) (vms t) = Some vm ->
  exists x S1 S2 r', psci_guest_cpu_on_start b core_list num smc entry_point vmpidr entry ctx S = Ret x S1 /\
    fw_log (world S1) = fw_log (world S) ++ [FwSmc PSCI_CPU_ON_64 mpidr entry_point (phys_id v)] /\
    guest_cpu_on b core_list num inj idle config boot mpidr (with_world t S1) = Ret tt S2 /\
    cur_vcpu (world S2) = Some v /\
    tframe (world S2) = start_frame (saved_frame (arch := aarch64) (saved t) v) entry ctx /\
    zget (cpu_if_list S2) (phys_id v) = Some r' /\ state_for_start r' = CpuIdle /\ msg_queue r' = msg_queue r.
Proof.
  intros Ha Hnum Hv Hv' Hvm Hb Hr Hst Hmp Hcpu Ht Hts Hvms. rewrite <- Hvm in Hb. pose proof (zget_Some_bounds _ _ _ Hr) as Hbd.
  set (r1 := mkCpuIf (msg_queue r) entry ctx (vm_id vm) CpuIdle (vmpidr2vcpuid b vmpidr) SecondaryCore).
  set (l1 := zset (zset (cpu_if_list S) (phys_id v) r1) (phys_id v) (with_start CpuIdle r1)).
  set (call := FwSmc PSCI_CPU_ON_64 mpidr entry_point (phys_id v)).
  set (S1 := mkSys l1 (pending S) (with_fw (fw_log (world S) ++ [call]) (world S))).
  assert (psci_guest_cpu_on_start b core_list num smc entry_point vmpidr entry ctx S = Ret (let '(x, _, _, _) := smc call in x) S1) as E1.
  { unfold psci_guest_cpu_on_start, cpu_on_target, vcpuid_to_pcpuid. unfold m_bind at 1, m_get. rewrite Ha. cbn [m_opt].
    rewrite m_bind_ret. destruct (Z.leb_spec (cpu_num (cpu_cfg vm)) (vmpidr2vcpuid b vmpidr)); [lia|]. rewrite Hv.
    cbn [fmap option_fmap option_map]. unfold start_core. unfold m_bind at 1, m_get. rewrite Hr. cbn [m_opt]. rewrite m_bind_ret.
    rewrite decide_True by done. unfold m_bind at 1, m_modify. fold r1. rewrite Hmp. cbn [m_opt]. rewrite m_bind_ret.
    unfold power_arch_cpu_on. rewrite Hcpu. cbn [m_opt]. rewrite m_bind_ret. unfold m_bind, m_modify. cbn [with_ifs cpu_if_list].
    rewrite zget_zset_eq by done. done. }
  assert (exists a, append_vcpu v array_new = Ret tt a) as [a Eapp].
  { destruct (append_free (phys_id v) array_new v) as (a' & Ea & _); [apply array_new_ok|exact Hb|done| |by exists a'].
    unfold pop_vcpu_through_vmid. cbn [array array_new]. rewrite zget_replicate; [done|]. unfold Sched.VM_NUM_MAX in *. lia. }
  destruct (first_vcpu (phys_id v) slice v a eq_refl Hb Eapp) as [Hn Hov].
  set (t1 := mkTS (mkNode a (sched_new (phys_id v) slice)) (tframe t) (saved t) (vms t) (fw_log t)).
  assert (on_sched (arch := aarch64) idle config (on_array (append_vcpu v)) t = Ret tt t1) as E2.
  { unfold on_sched, on_array. rewrite Ht. cbn [narr ncore]. rewrite Eapp. cbn. done. }
  destruct (started_regs (tnode t1) t1 v entry ctx Hn eq_refl) as (s' & E3 & Hn' & Hq' & Hregs & _);
    [done|done|by apply not_elem_of_nil|done|].
  assert (cur_vcpu s' = Some v) as Hcur.
  { destruct (busy_core (tnode s') Hn') as (w & Hw & Hin); [by rewrite Hq'|].
    rewrite Hq' in Hin. cbn in Hin. apply list_elem_of_singleton in Hin as ->. done. }
  assert (zget l1 (phys_id v) = Some (with_start CpuIdle r1)) as Hl1 by (unfold l1; apply zget_zset_eq; by rewrite zlen_zset).
  exists (let '(x, _, _, _) := smc call in x), S1, (mkSys l1 (pending S) s'), (with_start CpuIdle r1).
  split_and!; [exact E1|done| |done| |exact Hl1|done|done].
  - unfold guest_cpu_on. rewrite Hcpu. cbn [m_opt]. rewrite m_bind_ret. unfold m_bind at 1, m_get. unfold m_idx.
    cbn [with_world cpu_if_list]. unfold S1 at 1. cbn [cpu_if_list]. rewrite Hl1. cbn [m_opt]. rewrite m_bind_ret.
    cbn [world with_world if_vm_id with_start r1]. rewrite Hvms. cbn [m_opt]. rewrite m_bind_ret. cbn [if_vcpuid with_start r1]. rewrite Hv'. cbn [m_opt].
    rewrite m_bind_ret. erewrite m_bind_Ret by (apply on_ts_Ret; cbn [world]; exact E2).
    cbn [start_reason with_start r1]. unfold m_bind, m_get. cbn [world with_world tnode t1 narr].
    unfold owned, slot in Hov. cbn [narr] in Hov. rewrite Hvm in Hov. rewrite Hov. unfold on_ts. cbn [world if_entry if_ctx with_start r1].
    fold t1. cbn [with_world world]. by rewrite E3.
  - unfold TrapSpec.vregs, regs in Hregs. rewrite Hcur, decide_True in Hregs by done. exact Hregs.
Qed.
End spec.

(** ** Examples *)

(** The boards' tables invert the numbering of the cores. *)
Lemma qemu_table p mpidr : plat_cpuid2mpidr [0; 1; 2; 3] p = Some mpidr -> mpidr2cpuid Qemu [0; 1; 2; 3] 4 mpidr = Some p.
Proof.
  intros H. apply zget_Some_bounds in H as Hb. unfold zlen in Hb. cbn in Hb.
  assert (p = 0 \/ p = 1 \/ p = 2 \/ p = 3) as [->|[->|[->| ->]]] by lia; injection H as <-; by vm_compute.
Qed.

(** A VM with a vCPU on core 0, the active one of [demo_node], and one on core 1. *)
Definition psci_vcpu : Vcpu := mkVcpu 1 1 2.
Definition psci_vm : Vm := mkVm 2 (mkCpuCfg 2 3 None) [] [demo_vcpu 2; psci_vcpu] (int_bitmap demo_vm) 0 [].
Definition psci_caller (regs : list Z) : Sys TS :=
  mkSys cpu_if_init ∅ (mkTS (demo_node demo_ops) (mkFrame (regs ++ replicate 27 7) 0x3000) demo_saved [psci_vm] []).
Definition psci_core1 (ops : list sched_op) : Node :=
  default (mkNode array_new (sched_new 1 1)) (run_ops (fun _ => false) demo_has ops (mkNode array_new (sched_new 1 1))).
Definition psci_ts1 (ops : list sched_op) : TS := mkTS (psci_core1 ops) demo_idle ∅ [psci_vm] [].

Lemma psci_caller_ok r0 r1 r2 r3 : ts_ok (world (psci_caller [r0; r1; r2; r3])).
Proof. split; [done|]. apply (demo_ts_ok demo_ops). Qed.

Lemma psci_ts1_ok ops : ts_ok (psci_ts1 ops).
Proof. split; [done|]. intros w. unfold saved_frame. cbn [saved psci_ts1]. by rewrite lookup_empty. Qed.

Lemma core1_reach ops : reach (fun _ => false) demo_has (psci_core1 ops).
Proof.
  unfold psci_core1. destruct (run_ops _ _ _ _) as [n|] eqn:E; [|apply reach_init].
  eapply run_ops_reach; [apply reach_init|exact E].
Qed.

Definition fw_ok (_ : FwCall) : option Z := Some 0.
Definition fw_zero (_ : FwCall) : Z := 0.
Definition smc_zero (_ : FwCall) : Z * Z * Z * Z := (0, 0, 0, 0).

Lemma suspend_clobbers_next_witness : exists w S',
  smc_handler Qemu [0; 1; 2; 3] 4 inj demo_idle demo_config fw_ok fw_zero smc_zero 0x80000 false 4
    (psci_caller [PSCI_CPU_SUSPEND_64; 0; 0; 0]) = Ret tt S' /\
  cur_vcpu (world S') = Some w /\ cur_vcpu (world (psci_caller [PSCI_CPU_SUSPEND_64; 0; 0; 0])) <> Some w.
Proof.
  destruct (suspend_clobbers_next Qemu [0; 1; 2; 3] 4 demo_idle demo_config fw_ok fw_zero smc_zero 0x80000 false 4 eq_refl
    (fun _ => false) demo_has (psci_caller [PSCI_CPU_SUSPEND_64; 0; 0; 0]) 0 0 0) as (w & S' & H1 & H2 & H3 & _).
  - apply (demo_reach demo_ops).
  - apply psci_caller_ok.
  - vm_compute. discriminate.
  - vm_compute. discriminate.
  - reflexivity.
  - reflexivity.
  - reflexivity.
  - reflexivity.
  - exists w, S'. split; [exact H1|]. split; [exact H2|exact H3].
Defined.

Lemma cpu_on_starts_vcpu_witness : exists S1 S2,
  psci_guest_cpu_on_message Qemu 4 1 0x40000 9 (psci_caller [0; 0; 0; 0]) = Ret 0 S1 /\
  ipi_irq_handler (replicate 7 (psci_ipi_handler inj demo_idle demo_config)) false 1 1
    (with_world (psci_ts1 [OpAssign psci_vcpu]) S1) = Ret tt S2 /\
  cur_vcpu (world S2) = Some psci_vcpu.
Proof.
  destruct (cpu_on_starts_vcpu Qemu 4 demo_idle demo_config eq_refl (fun _ => false) demo_has (psci_caller [0; 0; 0; 0])
    (psci_ts1 [OpAssign psci_vcpu]) 1 0x40000 9 psci_vm psci_vcpu CpuIf_default
    (replicate 7 (psci_ipi_handler inj demo_idle demo_config))) as (S1 & S2 & H1 & _ & _ & _ & _ & H3 & _ & _ & _ & H2).
  - vm_compute. reflexivity.
  - vm_compute. reflexivity.
  - reflexivity.
  - reflexivity.
  - reflexivity.
  - reflexivity.
  - apply core1_reach.
  - apply psci_ts1_ok.
  - vm_compute. reflexivity.
  - vm_compute. reflexivity.
  - reflexivity.
  - exists S1, S2. split; [exact H1|]. split; [apply H2; [reflexivity|apply le_n]|]. apply H3. vm_compute. reflexivity.
Defined.

Lemma guest_smc_is_filtered_witness : exists S' es,
  smc_handler Qemu [0; 1; 2; 3] 4 inj demo_idle demo_config fw_ok fw_zero smc_zero 0x80000 false 4
    (psci_caller [0x84000050; 0; 0; 0]) = Ret tt S' /\
  fw_log (world S') = es /\ Forall (guest_fw 0x80000 false) es.
Proof.
  destruct (smc_handler Qemu [0; 1; 2; 3] 4 inj demo_idle demo_config fw_ok fw_zero smc_zero 0x80000 false 4
    (psci_caller [0x84000050; 0; 0; 0])) as [[] S'|] eqn:E; [|vm_compute in E; discriminate E].
  destruct (guest_smc_is_filtered Qemu [0; 1; 2; 3] 4 demo_idle demo_config fw_ok fw_zero smc_zero 0x80000 false 4
    (psci_caller [0x84000050; 0; 0; 0]) S' psci_vm) as (es & H1 & H2).
  - vm_compute. reflexivity.
  - discriminate.
  - exact E.
  - exists S', es. split; [reflexivity|]. split; [exact H1|exact H2].
Defined.

Lemma cold_start_runs_vcpu_witness : exists x S1 S2,
  psci_guest_cpu_on_start Qemu [0; 1; 2; 3] 4 smc_zero 0x80000 1 0x40000 9 (psci_caller [0; 0; 0; 0]) = Ret x S1 /\
  guest_cpu_on Qemu [0; 1; 2; 3] 4 inj demo_idle demo_config (fun _ => m_ret tt) 1
    (with_world (psci_ts1 []) S1) = Ret tt S2 /\
  cur_vcpu (world S2) = Some psci_vcpu.
Proof.
  destruct (cold_start_runs_vcpu Qemu [0; 1; 2; 3] 4 demo_idle demo_config smc_zero 0x80000 eq_refl (psci_caller [0; 0; 0; 0])
    (psci_ts1 []) 1 0x40000 9 psci_vm psci_vcpu CpuIf_default 1 1 (fun _ => m_ret tt)) as (x & S1 & S2 & r' & H1 & _ & H2 & H3 & _).
  - vm_compute. reflexivity.
  - vm_compute. reflexivity.
  - reflexivity.
  - vm_compute. reflexivity.
  - reflexivity.
  - vm_compute. split; [discriminate|reflexivity].
  - reflexivity.
  - reflexivity.
  - reflexivity.
  - apply qemu_table. reflexivity.
  - reflexivity.
  - apply psci_ts1_ok.
  - reflexivity.
  - exists x, S1, S2. split; [exact H1|]. split; [exact H2|exact H3].
Defined.
