(* ===== verification/Sbi.v ===== *)
(** * Sbi: calls of RISC-V guests to their firmware

    A guest's [ecall] ([arch/riscv64/exception.rs]) is a hypercall or a call to the SBI that the hypervisor implements on top
    of its own ([arch/riscv64/sbicall.rs]): interrupts between harts, remote fences, starting and stopping of harts, the
    timer, the console.  The decoding of a call is the [rustsbi] crate's.  With the handling of power messages
    ([arch/riscv64/interrupt.rs]) and the start of a vCPU ([arch/riscv64/power.rs]). *)
From stdpp Require Import list gmap.
From S2P Require Import Prelude Vm Sched Config Ipi Trap.

(** src: arch/riscv64/interrupt.rs 25-25 [IRQ_IPI] *)
Definition IRQ_IPI : Z := 60.

(** The answer of a call: the crate's, with its error codes as parameters below. *)
Record SbiRet := mkSbiRet { sbi_error : Z; sbi_value : Z }.
Definition sbi_success (v : Z) : SbiRet := mkSbiRet 0 v.

Section sbi.
(** A mask of harts: the crate's type, of which the code uses the test of a bit. *)
Context {HartMask : Type} (has_bit : HartMask -> Z -> bool).

(** A decoded call. [CallBase]: answered by the crate itself; [CallSystemReset]: [todo!()] here. *)
Inductive SbiCall :=
  | CallConsoleWriteByte (byte : Z)
  | CallSetTimer (stime : Z)
  | CallSendIpi (mask : HartMask)
  | CallRemoteFenceI (mask : HartMask)
  | CallRemoteSfenceVma (mask : HartMask) (start size : Z)
  | CallRemoteSfenceVmaAsid (mask : HartMask) (start size asid : Z)
  | CallHartStart (hartid start opaque : Z)
  | CallHartStop
  | CallHartGetStatus (hartid : Z)
  | CallSystemReset
  | CallBase (r : SbiRet).

(** [num]: the number of cores; [inject], [idle], [config]: see [Sched] and [Trap]; [state_of]: the run state of a vCPU,
    whatever core it is on; [answer]: the SBI below; [err_failed], [err_invalid]: the error codes; [decode]: the crate's
    dispatch; [HART_START], [HART_STOP], [EID_HSM], [EID_BASE], [PROBE_EXTENSION], [GETCHAR], [PUTCHAR]: its constants;
    [hvc]: the hypercalls ([Hvc]), [None] for an error. *)
Context (num : Z) (inject : Vcpu -> Z -> M Core unit) (idle : Frame) (config : Z -> VmConfigEntry).
Context (state_of : Vcpu -> VcpuState) (answer : FwCall -> SbiRet) (err_failed err_invalid : Z).
Context (decode : Z -> Z -> list Z -> SbiCall).
Context (HART_START HART_STOP EID_HSM EID_BASE PROBE_EXTENSION GETCHAR PUTCHAR : Z) (getchar : Z).
#[local] Existing Instance riscv64.
#[local] Abbreviation on_sched := (on_sched idle config).
#[local] Abbreviation S := (Sys TS).

Definition sbi_failed : SbiRet := mkSbiRet err_failed 0.
Definition sbi_invalid_param : SbiRet := mkSbiRet err_invalid 0.

(** ** Masks of harts *)

(** src: arch/riscv64/sbicall.rs 109-117 [get_pcpu_ids: the loop]
    [None]: the [unwrap] panics. *)
Fixpoint pcpu_ids_from (vm : Vm) (m : HartMask) (l : list Z) (acc : list Z) : option (list Z * bool) :=
  match l with
  | [] => Some (acc, true)
  | i :: l' =>
      if has_bit m i then
        if cpu_num (cpu_cfg vm) <=? i then Some (acc, false)
        else v ← vcpu vm i; pcpu_ids_from vm m l' (acc ++ [phys_id v])
      else pcpu_ids_from vm m l' acc
  end.

(** src: arch/riscv64/sbicall.rs 103-120 [get_pcpu_ids] *)
Definition get_pcpu_ids (vm : Vm) (m : HartMask) : option (list Z * bool) := pcpu_ids_from vm m (zrange 0 64) [].

(** src: arch/riscv64/sbicall.rs 128-144 [vcpu_hart_mask_to_pcpu_mask]
    Of the active VM; the base of the result is 0. *)
Definition vcpu_hart_mask_to_pcpu_mask (m : HartMask) : M S Z :=
  let! s := m_get in
  let! vm := m_opt UnwrapNone (active_vm (world s)) in
  let! (pcpus, valid) := m_opt UnwrapNone (get_pcpu_ids vm m) in
  m_ret (if valid : bool then foldl (fun mask p => Z.lor mask (shlw 64 1 p)) 0 pcpus else 0).

(** ** The calls *)

(** src: arch/riscv64/sbicall.rs 82-97 [VIpi::send_ipi: the loop] *)
Fixpoint send_ipis (vm_id : Z) (ps : list Z) : M S SbiRet :=
  match ps with
  | [] => m_ret (sbi_success 0)
  | p :: ps' =>
      let! ok := ipi_send_msg num p IpiTIntInject (IntInjectMsg (mkIntInject vm_id IRQ_IPI)) in
      if ok : bool then send_ipis vm_id ps' else m_ret sbi_failed
  end.

(** src: arch/riscv64/sbicall.rs 73-99 [VIpi::send_ipi] *)
Definition send_ipi (m : HartMask) : M S SbiRet :=
  let! s := m_get in
  let! vm := m_opt UnwrapNone (active_vm (world s)) in
  let! (pcpus, valid) := m_opt UnwrapNone (get_pcpu_ids vm m) in
  if valid : bool then send_ipis (vm_id vm) pcpus else m_ret sbi_invalid_param.

(** src: arch/riscv64/sbicall.rs 46-66 [VTimer::set_timer] *)
Definition set_timer (stime : Z) : M S unit :=
  let! s := m_get in
  on_ts (fw ClearTimingInterrupt) >>; on_ts (fw SetSTimer) >>;
  let! v := m_opt UnwrapNone (cur_vcpu (world s)) in
  on_ts (fw (NextTimerIntr (vcpu_vm_id v) (vcpu_id v) stime)).

Definition sbi_call (c : FwCall) : M S SbiRet := on_ts (fw c) >>; m_ret (answer c).

(** src: arch/riscv64/sbicall.rs 150-152 [VRfnc::remote_fence_i] *)
Definition remote_fence_i (m : HartMask) : M S SbiRet :=
  let! harts := vcpu_hart_mask_to_pcpu_mask m in sbi_call (SbiRemoteFenceI harts).
(** src: arch/riscv64/sbicall.rs 154-163 [VRfnc::remote_sfence_vma] *)
Definition remote_sfence_vma (m : HartMask) (start size : Z) : M S SbiRet :=
  let! harts := vcpu_hart_mask_to_pcpu_mask m in sbi_call (SbiRemoteHfenceVvma harts start size).
(** src: arch/riscv64/sbicall.rs 165-174 [VRfnc::remote_sfence_vma_asid] *)
Definition remote_sfence_vma_asid (m : HartMask) (start size asid : Z) : M S SbiRet :=
  let! harts := vcpu_hart_mask_to_pcpu_mask m in sbi_call (SbiRemoteHfenceVvmaAsid harts start size asid).

(** src: arch/riscv64/sbicall.rs 184-220 [VHsm::hart_start] *)
Definition hart_start (hartid start opaque : Z) : M S SbiRet :=
  let! s := m_get in
  let! vm := m_opt UnwrapNone (active_vm (world s)) in
  match (if cpu_num (cpu_cfg vm) <=? hartid then None else vcpuid_to_pcpuid vm hartid) with
  | None => m_ret sbi_invalid_param
  | Some p =>
      let! ok := ipi_send_msg num p IpiTPower (Power (mkPower (vm_id vm) 0 PsciIpiCpuOn start opaque)) in
      m_ret (if ok : bool then sbi_success 0 else sbi_failed)
  end.

(** src: arch/riscv64/sbicall.rs 222-235 [VHsm::hart_stop]
    [reset_context] does not touch the frame. *)
Definition hart_stop : M S SbiRet :=
  let! s := m_get in
  let! v := m_opt UnwrapNone (cur_vcpu (world s)) in
  on_ts (on_sched (on_core (sleep inject v))) >>;
  m_ret (sbi_success 0).

(** src: arch/riscv64/sbicall.rs 237-253 [VHsm::hart_get_status] *)
Definition hart_get_status (hartid : Z) : M S SbiRet :=
  let! s := m_get in
  let! vm := m_opt UnwrapNone (active_vm (world s)) in
  m_ret match vcpu vm hartid with
        | Some v => sbi_success (match state_of v with Running | Ready => HART_START | Invalid | Sleep => HART_STOP end)
        | None => sbi_invalid_param
        end.

(** The crate's dispatch to the implementation. *)
Definition env_handle_ecall (c : SbiCall) : M S SbiRet :=
  match c with
  | CallConsoleWriteByte b => sbi_call (SbiConsoleWriteByte b)
  | CallSetTimer t => set_timer t >>; m_ret (sbi_success 0)
  | CallSendIpi m => send_ipi m
  | CallRemoteFenceI m => remote_fence_i m
  | CallRemoteSfenceVma m a n => remote_sfence_vma m a n
  | CallRemoteSfenceVmaAsid m a n i => remote_sfence_vma_asid m a n i
  | CallHartStart h a o => hart_start h a o
  | CallHartStop => hart_stop
  | CallHartGetStatus h => hart_get_status h
  | CallSystemReset => m_fault ExplicitPanic
  | CallBase r => m_ret r
  end.

(** src: arch/riscv64/sbicall.rs 364-405 [VmHart::handle_ecall]
    [getchar] is what the console leaves in the byte. *)
Definition handle_ecall (extension function : Z) (param : list Z) : M S SbiRet :=
  let p0 := default 0 (zget param 0) in
  let p1 := default 0 (zget param 1) in
  if (extension =? EID_BASE) && (function =? PROBE_EXTENSION) && ((p0 =? GETCHAR) || (p0 =? PUTCHAR)) then m_ret (sbi_success 1)
  else if extension =? EID_BASE then env_handle_ecall (decode extension function param)
  else if extension =? GETCHAR then on_ts (fw SbiConsoleRead) >>; m_ret (mkSbiRet getchar p1)
  else if extension =? PUTCHAR then on_ts (fw (SbiConsoleWriteByte (u8 p0))) >>; m_ret (mkSbiRet 0 p1)
  else env_handle_ecall (decode extension function param).

(** ** Traps *)

Context (hvc : Z -> Z -> list Z -> M S (option Z)).

(** src: arch/riscv64/exception.rs 71-128 [ecall_handler] *)
Definition ecall_handler : M S unit :=
  let! eid := on_ts (get_gpr 17) in
  let! fid := on_ts (get_gpr 16) in
  let! x0 := on_ts (get_gpr 10) in
  let! x1 := on_ts (get_gpr 11) in
  let! x2 := on_ts (get_gpr 12) in
  let! x3 := on_ts (get_gpr 13) in
  let! x4 := on_ts (get_gpr 14) in
  let! x5 := on_ts (get_gpr 15) in
  if (0x0A000000 <=? eid) && (eid <=? 0x0AFFFFFF) then
    let! r := hvc (Z.land (Z.shiftr eid 8) 0xff) (Z.land eid 0xff) [x0; x1; x2; x3; x4; x5; fid] in
    on_ts (set_gpr A0_NUM (match r with Some v => v | None => 2 ^ 64 - 1 end))
  else
    let! ret := handle_ecall eid fid [x0; x1; x2; x3; x4; x5] in
    if (eid =? EID_HSM) && (fid =? HART_STOP) then m_ret tt
    else on_ts (set_gpr A0_NUM (sbi_error ret)) >>; on_ts (set_gpr A1_NUM (sbi_value ret)).

(** src: arch/riscv64/exception.rs 173-177 [exception_rust_handler: an environment call from the guest] *)
Definition ecall_trap : M S unit :=
  ecall_handler >>;
  let! elr := on_ts get_elr in
  on_ts (set_elr (usize (elr + 4))).

(** ** Power messages *)

(** src: arch/riscv64/power.rs 64-82 [psci_vcpu_on: up to the scheduling]
    It then enters the guest and does not come back. *)
Definition riscv_psci_vcpu_on (v : Vcpu) (entry ctx : Z) : M Core unit := Sched.psci_vcpu_on inject v entry ctx.

(** src: arch/riscv64/interrupt.rs 264-338 [psci_ipi_handler] *)
Definition riscv_psci_ipi_handler (m : IpiMessage) : M S unit :=
  match ipi_message m with
  | Power p =>
      let! s := m_get in
      match pm_event p with
      | PsciIpiVcpuAssignAndCpuOn =>
          let! vm := m_opt UnwrapNone (vm_by_id (pm_src p) (vms (world s))) in
          let! v := m_opt UnwrapNone (vcpuid_to_vcpu vm (pm_vcpuid p)) in
          on_ts (on_sched (on_array (append_vcpu v)))
      | _ => m_ret tt
      end >>;
      let! s := m_get in
      match pop_vcpu_through_vmid (pm_src p) (narr (tnode (world s))) with
      | None => m_ret tt
      | Some v =>
          match pm_event p with
          | PsciIpiVcpuAssignAndCpuOn => m_ret tt
          | PsciIpiCpuOn =>
              match vstate (ncore (tnode (world s))) v with
              | Invalid => on_ts (on_sched (on_core (riscv_psci_vcpu_on v (pm_entry p) (pm_context p))))
              | _ => m_ret tt
              end
          | PsciIpiCpuOff | PsciIpiCpuReset => m_fault ExplicitPanic
          end
      end
  | _ => m_fault ExplicitPanic
  end.
End sbi.
