(* ===== verification/SbiSpec.v ===== *)
(** * SbiSpec: what the SBI calls of RISC-V guests do *)
From stdpp Require Import list gmap.
From S2P Require Import Prelude Vm Sched SchedProps SchedSpec Config Ipi IpiSpec Trap TrapSpec Sbi.

#[local] Existing Instance riscv64.
#[local] Abbreviation vregs := (vregs (arch := riscv64)).
#[local] Abbreviation ts_ok := (ts_ok (arch := riscv64)).

(** A VM as it is built: vCPU [i] has number [i], no two share a core, and there are as many as configured. *)
Record vm_built (vm : Vm) : Prop := {
  vb_ok : vcpus_ok vm;
  vb_num : cpu_num (cpu_cfg vm) = zlen (vcpu_list vm);
  vb_max : zlen (vcpu_list vm) <= 64;
}.

Section masks.
Context {HartMask : Type} (has_bit : HartMask -> Z -> bool).

(** The vCPUs a mask selects. *)
Definition chosen (vm : Vm) (m : HartMask) : list Vcpu := List.filter (fun v => has_bit m (vcpu_id v)) (vcpu_list vm).
Definition mask_valid (vm : Vm) (m : HartMask) : Prop := forall i, 0 <= i < 64 -> has_bit m i = true -> i < cpu_num (cpu_cfg vm).

Lemma pcpu_ids_beyond vm m j : forall i acc, vm_built vm -> zlen (vcpu_list vm) <= i -> i + Z.of_nat j = 64 ->
  exists ok, pcpu_ids_from has_bit vm m (zrange i j) acc = Some (acc, ok) /\
    (ok = true <-> forall k, i <= k < 64 -> has_bit m k = false).
Proof.
  induction j as [|j IH]; intros i acc Hb Hi Hj; cbn [zrange pcpu_ids_from].
  - exists true. split; [done|]. split; [intros _ k ?; lia|done].
  - destruct (has_bit m i) eqn:E.
    + rewrite (vb_num _ Hb), (proj2 (Z.leb_le _ _)) by done. exists false. split; [done|]. split; [done|].
      intros H. rewrite H in E by lia. done.
    + destruct (IH (i + 1) acc Hb ltac:(lia) ltac:(lia)) as (ok & H & Hok). exists ok. split; [done|]. rewrite Hok. split.
      * intros H1 k Hk. destruct (decide (k = i)) as [->|]; [done|]. apply H1. lia.
      * intros H1 k Hk. apply H1. lia.
Qed.

Lemma pcpu_ids_eq vm m vs : forall us acc, vm_built vm -> vcpu_list vm = us ++ vs ->
  exists ok, pcpu_ids_from has_bit vm m (zrange (zlen us) (64 - length us)) acc =
      Some (acc ++ (phys_id <$> List.filter (fun v => has_bit m (vcpu_id v)) vs), ok) /\
    (ok = true <-> forall k, zlen (vcpu_list vm) <= k < 64 -> has_bit m k = false).
Proof.
  induction vs as [|v vs IH]; intros us acc Hb E; pose proof (vb_max _ Hb) as Hmax.
  - rewrite app_nil_r in E. subst us. cbn. rewrite app_nil_r. unfold zlen in *. apply pcpu_ids_beyond; unfold zlen; (done || lia).
  - assert (zlen (vcpu_list vm) = zlen us + 1 + zlen vs) as El by (rewrite E, zlen_app; unfold zlen; cbn; lia).
    pose proof (zlen_nonneg us) as Hn1. pose proof (zlen_nonneg vs) as Hn2.
    replace (64 - length us)%nat with (S (64 - length (us ++ [v]))) by (rewrite length_app; cbn; unfold zlen in *; lia).
    cbn [zrange pcpu_ids_from]. assert (zget (vcpu_list vm) (zlen us) = Some v) as Hv by (rewrite E; apply zget_middle).
    destruct (proj1 (vb_ok _ Hb) _ _ Hv) as [Hid _]. rewrite (vb_num _ Hb). unfold Vm.vcpu. rewrite Hv.
    cbn [List.filter]. rewrite Hid. replace (zlen us + 1) with (zlen (us ++ [v])) by by rewrite zlen_snoc.
    assert (vcpu_list vm = (us ++ [v]) ++ vs) as E' by by rewrite <- app_assoc.
    destruct (has_bit m (zlen us)).
    + destruct (Z.leb_spec (zlen (vcpu_list vm)) (zlen us)); [lia|]. cbn [mbind option_bind].
      destruct (IH (us ++ [v]) (acc ++ [phys_id v]) Hb E') as (ok & H1 & H2). exists ok. rewrite H1. split; [|done].
      cbn [fmap list_fmap]. by rewrite <- app_assoc.
    + destruct (IH (us ++ [v]) acc Hb E') as (ok & H1 & H2). by exists ok.
Qed.

(** The cores of a mask are those of the vCPUs it selects, in order; it is valid when it selects no others. *)
Lemma get_pcpu_ids_spec vm m : vm_built vm ->
  exists ok, get_pcpu_ids has_bit vm m = Some (phys_id <$> chosen vm m, ok) /\ (ok = true <-> mask_valid vm m).
Proof.
  intros Hb. destruct (pcpu_ids_eq vm m (vcpu_list vm) [] [] Hb eq_refl) as (ok & H1 & H2). exists ok. split; [exact H1|].
  rewrite H2. unfold mask_valid. rewrite (vb_num _ Hb). pose proof (zlen_nonneg (vcpu_list vm)) as Hn. split.
  - intros H i Hi Hm. destruct (Z.lt_ge_cases i (zlen (vcpu_list vm))); [done|]. rewrite H in Hm by lia. done.
  - intros H k Hk. destruct (has_bit m k) eqn:E; [|done]. apply H in E; lia.
Qed.

Lemma chosen_elem vm m c : vm_built vm ->
  c ∈ phys_id <$> chosen vm m <-> exists i, vcpuid_to_pcpuid vm i = Some c /\ has_bit m i = true.
Proof.
  intros Hb. unfold chosen, vcpuid_to_pcpuid. rewrite list_elem_of_fmap. split.
  - intros (v & -> & Hv). apply list_elem_of_In, List.filter_In in Hv as [Hin Hm].
    apply list_elem_of_In, list_elem_of_lookup in Hin as [i Hi]. assert (zget (vcpu_list vm) (Z.of_nat i) = Some v) as Hz.
    { unfold zget. rewrite (proj2 (Z.leb_le _ _)) by lia. by rewrite Nat2Z.id. }
    destruct (proj1 (vb_ok _ Hb) _ _ Hz) as [Hid _]. exists (Z.of_nat i). rewrite Hz. split; [done|]. by rewrite <- Hid.
  - intros (i & Hi & Hm). destruct (zget (vcpu_list vm) i) as [v|] eqn:Hz; [|done]. injection Hi as <-. exists v. split; [done|].
    apply list_elem_of_In, List.filter_In. destruct (proj1 (vb_ok _ Hb) _ _ Hz) as [Hid _]. rewrite Hid. split; [|done].
    apply list_elem_of_In. by eapply zget_elem.
Qed.

Lemma filter_sublist {A} (f : A -> bool) (l : list A) : List.filter f l `sublist_of` l.
Proof. induction l as [|x l IH]; cbn; [done|]. destruct (f x); by constructor. Qed.

Lemma NoDup_phys vm : vcpus_ok vm -> NoDup (phys_id <$> vcpu_list vm).
Proof.
  intros [_ Hinj]. apply NoDup_alt. intros i j p. rewrite !list_lookup_fmap.
  destruct (vcpu_list vm !! i) as [v|] eqn:Ei; [|done]. destruct (vcpu_list vm !! j) as [w|] eqn:Ej; [|done].
  intros [= Ep] [= <-]. assert (Z.of_nat i = Z.of_nat j); [|lia]. eapply Hinj; [| |exact Ep];
    unfold zget; (rewrite (proj2 (Z.leb_le _ _)) by lia); by rewrite Nat2Z.id.
Qed.

Lemma NoDup_chosen vm m : vm_built vm -> NoDup (phys_id <$> chosen vm m).
Proof.
  intros Hb. eapply sublist_NoDup; [apply (NoDup_phys vm), Hb|]. apply fmap_sublist, filter_sublist.
Qed.

(** The core [c] is that of a vCPU the mask selects. *)
Definition selected (vm : Vm) (m : HartMask) (c : Z) : Prop := exists i, vcpuid_to_pcpuid vm i = Some c /\ has_bit m i = true.
End masks.

Section spec.
Context {HartMask : Type} (has_bit : HartMask -> Z -> bool).
Context (num : Z) (answer : FwCall -> SbiRet) (err_failed err_invalid : Z).

#[local] Abbreviation selected := (selected has_bit).
#[local] Abbreviation mask_valid := (mask_valid has_bit).
#[local] Abbreviation send_ipi := (send_ipi has_bit num err_failed err_invalid).
#[local] Abbreviation hart_start := (hart_start num err_failed err_invalid).

(** ** Interrupts between harts *)

Definition soft_irq (vm : Vm) : IpiMessage := mkIpi IpiTIntInject (IntInjectMsg (mkIntInject (vm_id vm) IRQ_IPI)).

Lemma send_ipis_eq vm ps : forall S : Sys TS, (forall p, p ∈ ps -> 0 <= p < zlen (cpu_if_list S) /\ p < num) ->
  send_ipis num err_failed (vm_id vm) ps S = Ret (sbi_success 0) (send_all ps (soft_irq vm) S).
Proof.
  induction ps as [|p ps IH]; intros S Hp; [done|]. cbn [send_ipis]. destruct (Hp p) as [Hb Hn]; [by left|].
  unfold ipi_send_msg. fold (soft_irq vm). rewrite (m_bind_Ret _ _ _ _ _ (ipi_send_eq num p (soft_irq vm) S Hn Hb)).
  apply IH. intros p' Hp'. rewrite send_to_len. apply Hp. by right.
Qed.


(** ** Fences *)

Lemma mask_fold ps : forall a p, 0 <= p -> (forall k, k ∈ ps -> 0 <= k < 64) ->
  Z.testbit (foldl (fun mask k => Z.lor mask (shlw 64 1 k)) a ps) p = true <-> Z.testbit a p = true \/ p ∈ ps.
Proof.
  induction ps as [|k ps IH]; intros a p Hp Hps; cbn [foldl].
  - rewrite elem_of_nil. tauto.
  - assert (0 <= k < 64) as Hk by (apply Hps; by left).
    rewrite IH; [|done|intros k' ?; apply Hps; by right]. rewrite Z.lor_spec, orb_true_iff, elem_of_cons.
    assert (Z.testbit (shlw 64 1 k) p = true <-> p = k) as ->; [|tauto].
    unfold shlw. rewrite (Z.mod_small k) by lia. rewrite Z.shiftl_1_l.
    rewrite wrap_small by (split; [lia|apply Z.pow_lt_mono_r; lia]). rewrite Z.pow2_bits_eqb, Z.eqb_eq by lia. done.
Qed.

(** A remote fence goes to the harts below that run the vCPUs of the mask, and to none when the mask is invalid. *)
Theorem fence_mask_spec (S : Sys TS) vm m : active_vm (world S) = Some vm -> vm_built vm ->
  exists r, vcpu_hart_mask_to_pcpu_mask has_bit m S = Ret r S /\
    forall p, 0 <= p -> Z.testbit r p = true <-> mask_valid vm m /\ selected vm m p.
Proof.
  intros Ha Hb. destruct (get_pcpu_ids_spec has_bit vm m Hb) as (ok & E & Hok).
  unfold vcpu_hart_mask_to_pcpu_mask. unfold m_bind at 1, m_get. rewrite Ha. cbn [m_opt]. rewrite m_bind_ret, E. cbn [m_opt].
  rewrite m_bind_ret. eexists. split; [done|]. intros p Hp. rewrite <- Hok. destruct ok.
  - rewrite mask_fold; [|done|].
    + rewrite Z.testbit_0_l, chosen_elem by done. unfold SbiSpec.selected. split; [intros [?|?]; done|intros [_ ?]; by right].
    + intros k Hk. apply chosen_elem in Hk as (i & Hi & _); [|done]. unfold vcpuid_to_pcpuid in Hi.
      destruct (zget (vcpu_list vm) i) as [v|] eqn:Hv; [|done]. injection Hi as <-. destruct (proj1 (vb_ok _ Hb) _ _ Hv) as [_ ?]. lia.
  - rewrite Z.testbit_0_l. split; [done|]. by intros [? _].
Qed.

(** A mask that names every possible hart - what the SBI says for a base of -1 - is refused unless the VM has 64 of them. *)
Lemma all_harts_refused vm m : (forall i, has_bit m i = true) -> mask_valid vm m -> 64 <= cpu_num (cpu_cfg vm).
Proof. intros Ha Hm. pose proof (Hm 63 ltac:(lia) (Ha 63)). lia. Qed.

(** ** Starting and stopping harts *)

Context (idle : Frame) (config : Z -> VmConfigEntry) (idle_ok : frame_ok (A := riscv64) idle).
Context (reserved : Z -> bool) (vm_has : Z -> Z -> bool).

Definition hart_on (vm entry ctx : Z) : IpiMessage := mkIpi IpiTPower (Power (mkPower vm 0 PsciIpiCpuOn entry ctx)).

(** The message of HART_START at the hart's core. *)
Lemma hart_on_message (S : Sys TS) v entry ctx :
  reach reserved vm_has (tnode (world S)) -> ts_ok (world S) -> owned (tnode (world S)) v ->
  vstate (ncore (tnode (world S))) v = Invalid ->
  exists s' f, riscv_psci_ipi_handler inj idle config (hart_on (vcpu_vm_id v) entry ctx) S = Ret tt (with_world s' S) /\
    v ∈ queue (ncore (tnode s')) /\ (queue (ncore (tnode (world S))) = [] -> cur_vcpu s' = Some v) /\
    vregs s' v = f /\ zget (gprs f) A0_NUM = Some (vcpu_id v) /\ zget (gprs f) A1_NUM = Some ctx /\ fpc f = entry /\
    forall w, owned (tnode (world S)) w -> w <> v -> vregs s' w = vregs (world S) w.
Proof.
  intros Hr Hts Hv Hi. pose proof (reach_ok _ _ _ Hr) as Hok.
  assert (v ∉ queue (ncore (tnode (world S)))) as Hq.
  { intros Hq. pose proof (queued_awake _ _ (node_core _ Hok) Hq) as Ha. by rewrite Hi in Ha. }
  destruct (started (arch := riscv64) idle config idle_ok _ (world S) v entry ctx Hok eq_refl Hts Hv Hq Hi)
    as (f & s' & Ef & E & Hn' & _ & Hq' & _ & Hregs & Hothers).
  exists s', f. split; [|split; [rewrite Hq', elem_of_app; right; by apply list_elem_of_singleton|]].
  - unfold riscv_psci_ipi_handler, hart_on. cbn [ipi_message pm_event pm_src pm_entry pm_context].
    rewrite (m_bind_Ret m_get _ S S S eq_refl), m_bind_ret, (m_bind_Ret m_get _ S S S eq_refl).
    unfold owned, slot in Hv. rewrite Hv, Hi. by apply on_ts_Ret.
  - split; [|split; [done|]].
    + intros E0. rewrite E0 in Hq'. destruct (busy_core (tnode s') Hn') as (w & Hw & Hin); [by rewrite Hq'|].
      rewrite Hq' in Hin. apply list_elem_of_singleton in Hin as ->. done.
    + cbn in Ef. unfold riscv64_reset_regs in Ef. pose proof (proj2 Hts v) as Hl. unfold frame_ok in Hl. cbn in Hl.
      rewrite frame_set_Some in Ef by (unfold zlen, A0_NUM; rewrite Hl; lia). cbn [mbind option_bind] in Ef.
      rewrite frame_set_Some in Ef by (cbn [gprs]; rewrite zlen_zset; unfold zlen, A1_NUM; rewrite Hl; lia).
      injection Ef as <-. cbn [gprs fpc frame_pc]. split_and!; [| |done|done].
      * rewrite zget_zset_ne by done. apply zget_zset_eq. unfold zlen, A0_NUM. rewrite Hl. lia.
      * apply zget_zset_eq. rewrite zlen_zset. unfold zlen, A1_NUM. rewrite Hl. lia.
Qed.

(** C40. HART_START from a guest on one core starts the hart on its core. The call puts a message in the queue of the core
    of the vCPU with the hart's number, raises the interrupt there, and succeeds; nothing else changes on the caller's side.
    Provided that no later message is in that queue when the core takes the interrupt, and that the core, in any state that its
    scheduler reaches by operations within their contract, has the vCPU and has not started it, the message is the first one handled:
    the vCPU joins the core's queue with the start address as program counter, its own number in a0 and the opaque value in a1, the other
    vCPUs keep their registers, and if the core was idle it runs the vCPU.  The code then enters the guest from the handler of the
    message; messages sent before are still in the queue. *)
Theorem hart_start_starts_vcpu (S : Sys TS) (t : TS) hartid start opaque vm v r hs :
  active_vm (world S) = Some vm -> vm_built vm -> zget (vcpu_list vm) hartid = Some v -> vcpu_vm_id v = vm_id vm ->
  phys_id v < num -> zget (cpu_if_list S) (phys_id v) = Some r ->
  reach reserved vm_has (tnode t) -> ts_ok t -> slot (tnode t) (vm_id vm) = Some v -> vstate (ncore (tnode t)) v = Invalid ->
  hs !! 1%nat = Some (riscv_psci_ipi_handler inj idle config) ->
  exists S1 S2 f, hart_start hartid start opaque S = Ret (sbi_success 0) S1 /\ world S1 = world S /\ phys_id v ∈ pending S1 /\
    irq_actions hs true 3 (phys_id v) AtFirst (with_world t S1) = Ret AtPop S2 /\
    v ∈ queue (ncore (tnode (world S2))) /\ (queue (ncore (tnode t)) = [] -> cur_vcpu (world S2) = Some v) /\
    vregs (world S2) v = f /\ fpc f = start /\ zget (gprs f) A0_NUM = Some hartid /\ zget (gprs f) A1_NUM = Some opaque /\
    (forall w, owned (tnode t) w -> w <> v -> vregs (world S2) w = vregs t w) /\
    zget (cpu_if_list S2) (phys_id v) = Some r.
Proof.
  intros Ha Hb Hv Hvm Hp Hr Hreach Hts Hs Hi Hh. destruct (proj1 (vb_ok _ Hb) _ _ Hv) as [Hid _].
  set (m := hart_on (vm_id vm) start opaque). exists (send_to (phys_id v) m S).
  assert (hart_start hartid start opaque S = Ret (sbi_success 0) (send_to (phys_id v) m S)) as E1.
  { unfold Sbi.hart_start, vcpuid_to_pcpuid. rewrite (m_bind_Ret m_get _ S S S eq_refl), Ha. cbn [m_opt]. rewrite m_bind_ret, (vb_num _ Hb).
    destruct (Z.leb_spec (zlen (vcpu_list vm)) hartid); [apply zget_Some_bounds in Hv; lia|]. rewrite Hv. cbn [fmap option_fmap option_map].
    unfold ipi_send_msg. fold m. by rewrite (m_bind_Ret _ _ _ _ _ (ipi_send_eq num (phys_id v) m S Hp (zget_Some_bounds _ _ _ Hr))). }
  assert (pending (send_to (phys_id v) m S) = {[phys_id v]} ∪ pending S /\ world (send_to (phys_id v) m S) = world S) as [Ep Ew]
    by (unfold send_to; by rewrite Hr).
  set (S1 := mkSys (cpu_if_list S) (({[phys_id v]} ∪ pending S) ∖ {[phys_id v]}) t).
  destruct (hart_on_message S1 v start opaque) as (s' & f & E3 & H1 & H2 & H3 & H4 & H5 & H6 & H7);
    [done|done|unfold owned; by rewrite Hvm|done|].
  rewrite Hvm in E3. fold m in E3. rewrite Hid in H4. exists (with_world s' S1), f.
  split; [exact E1|]. rewrite Ep, Ew. split_and!; [done|set_solver| |done..].
  apply (first_message hs true _ m (riscv_psci_ipi_handler inj idle config) r S t s'); [done| |exact E3].
  unfold dispatch. cbn [ipi_type m hart_on ipi_type_num]. by rewrite Hh.
Qed.

(** The hart that is stopped sleeps, and the message of a later HART_START, which succeeds, finds it not [Invalid] and does
    nothing. *)
Lemma started_again_ignored (S : Sys TS) v entry ctx :
  owned (tnode (world S)) v -> vstate (ncore (tnode (world S))) v <> Invalid ->
  riscv_psci_ipi_handler inj idle config (hart_on (vcpu_vm_id v) entry ctx) S = Ret tt S.
Proof.
  intros Hv Hi. unfold riscv_psci_ipi_handler, hart_on. cbn [ipi_message pm_event pm_src pm_entry pm_context].
  rewrite (m_bind_Ret m_get _ S S S eq_refl), m_bind_ret, (m_bind_Ret m_get _ S S S eq_refl).
  unfold owned, slot in Hv. rewrite Hv. by destruct (vstate _ v).
Qed.

(** *** Stopping *)

(** A vCPU that is put to sleep while it runs is asleep afterwards, whatever is scheduled. *)
Lemma slept v l k (c : Core) : sched_ok c -> queue c = l ++ v :: k -> vstate (sleep_p v l k c) v = Sleep.
Proof.
  intros Hok E. destruct (middle_fresh None c v l k (ok_pre c Hok) E) as (_ & _ & Hv).
  pose proof (pre_vms _ _ (ok_pre c Hok)) as Hnd. rewrite E, <- Permutation_middle in Hnd. cbn in Hnd.
  apply list.NoDup_cons in Hnd as [Hvm _]. unfold sleep_p.
  set (i := if zlen l <? active_idx c then active_idx c - 1 else active_idx c). set (x := timer_p (remove_p v l k i c)).
  destruct (timer_p_fields (remove_p v l k i c)) as (Eq & _ & Ea & _). fold x in Eq, Ea.
  assert (vstate x v = Sleep) as Hx.
  { transitivity (vstate (remove_p v l k i c) v); [unfold x, timer_p; by destruct (_ <=? 1)|].
    unfold remove_p, state_p. by rewrite vstate_put, decide_True. }
  pose proof (active_is_middle c v l k Hok E) as Hact.
  destruct (Z.eqb_spec (zlen l) (active_idx c)) as [E1|]; [|exact Hx]. apply Hact in E1. unfold tick_p.
  destruct (zget (queue x) (succ_idx x)) as [w|] eqn:Hw; [|by destruct (ctx_null x)].
  rewrite vstate_switch, decide_False, vstate_leave.
  - change (active_vcpu (with_idx _ x)) with (active_vcpu x). rewrite Ea. cbn. by rewrite decide_True.
  - intros [= Ek _]. apply Hvm. rewrite <- Ek. apply list_elem_of_fmap_2. apply zget_elem in Hw. by rewrite Eq in Hw.
Qed.

(** HART_STOP with other vCPUs on the core: the caller sleeps, another vCPU has the core, and the trap's frame has its
    registers. *)
Lemma hart_stop_hands_over (S : Sys TS) v :
  reach reserved vm_has (tnode (world S)) -> ts_ok (world S) -> cur_vcpu (world S) = Some v ->
  2 <= zlen (queue (ncore (tnode (world S)))) ->
  exists s' w, hart_stop inj idle config S = Ret (sbi_success 0) (with_world s' S) /\ ts_ok s' /\
    vstate (ncore (tnode s')) v = Sleep /\ cur_vcpu s' = Some w /\ v <> w /\
    tframe s' = vregs (world S) w.
Proof.
  intros Hr Hts Ev Hq. pose proof (reach_ok _ _ _ Hr) as Hn. set (n := tnode (world S)) in *.
  unfold cur_vcpu in Ev. fold n in Ev. pose proof (node_core n Hn) as Hs.
  destruct (list_elem_of_split (queue (ncore n)) v) as (l & k & Eq); [by apply (pre_active _ _ (ok_pre _ Hs))|].
  set (c' := sleep_p v l k (ncore n)). destruct (sleep_fields v l k (ncore n)) as [Hc Hq']. fold c' in Hc, Hq'.
  assert (node_ok (mkNode (narr n) c')) as Hn'.
  { apply core_step; [done|by apply sleep_ok|done|]. rewrite Hq', Eq. intros w Hw. left. rewrite <- Permutation_middle. by right. }
  destruct (busy_core (mkNode (narr n) c') Hn') as (w & Hw & Hwq); cbn [ncore] in *.
  { rewrite Hq'. intros [-> ->]%app_nil. rewrite Eq in Hq. unfold zlen in Hq. cbn in Hq. lia. }
  assert (v <> w) as Hvw.
  { intros <-. rewrite Hq' in Hwq. by destruct (middle_fresh None (ncore n) v l k (ok_pre _ Hs) Eq) as (_ & _ & ?). }
  assert (owned n w) as Hown.
  { apply (node_queue n Hn). rewrite Eq, <- Permutation_middle. right. by rewrite <- Hq'. }
  assert (sleep inj v (ncore n) = Ret tt c') as E by by apply sleep_eq.
  assert (moved (arch := riscv64) idle config (owned n) (fun x => owned n x /\ x <> v) (ncore n) c') as Hm.
  { apply moved_sleep; try done; [by intros x y; apply owned_vm|by intros x []|by apply node_good|by intros [_ ?]]. }
  destruct (on_sched_moved (arch := riscv64) idle config _ _ (on_core (sleep inj v)) (world S) tt _ Hts
    (on_core_Ret _ _ _ _ E) Hm) as (s' & Es & Hn1 & Hok' & _ & _ & Hk).
  exists s', w. split; [|split; [done|split; [|split; [|split; [done|]]]]].
  - unfold hart_stop. rewrite (m_bind_Ret m_get _ S S S eq_refl). unfold cur_vcpu. fold n. rewrite Ev. cbn [m_opt].
    rewrite m_bind_ret. by rewrite (m_bind_Ret _ _ _ _ _ (on_ts_Ret _ _ _ _ Es)).
  - rewrite Hn1. cbn [ncore]. by apply slept.
  - unfold cur_vcpu. by rewrite Hn1.
  - rewrite <- (Hk w) by done. unfold TrapSpec.vregs, regs, cur_vcpu. rewrite Hn1. cbn [ncore]. by rewrite Hw, decide_True.
Qed.

(** *** The trap *)

Section trap.
Context (state_of : Vcpu -> VcpuState) (decode : Z -> Z -> list Z -> SbiCall (HartMask := HartMask)).
Context (HART_START HART_STOP EID_HSM EID_BASE PROBE_EXTENSION GETCHAR PUTCHAR getchar : Z) (hvc : Z -> Z -> list Z -> M (Sys TS) (option Z)).
Context (not_base : EID_HSM <> EID_BASE) (not_legacy : EID_HSM <> GETCHAR /\ EID_HSM <> PUTCHAR) (not_hvc : 0x0AFFFFFF < EID_HSM).
Context (decode_stop : forall l, decode EID_HSM HART_STOP l = CallHartStop).

#[local] Abbreviation ecall_trap := (ecall_trap has_bit num inj idle config state_of answer err_failed err_invalid decode
  HART_START HART_STOP EID_HSM EID_BASE PROBE_EXTENSION GETCHAR PUTCHAR getchar hvc).

(** A guest that stops its hart while another vCPU shares the core makes that vCPU skip an instruction: the scheduler puts
    that vCPU's registers into the trap's frame, and the trap then moves the program counter in the frame on by 4. *)
Theorem hart_stop_skips_instruction (S : Sys TS) v :
  reach reserved vm_has (tnode (world S)) -> ts_ok (world S) -> cur_vcpu (world S) = Some v ->
  2 <= zlen (queue (ncore (tnode (world S)))) ->
  zget (gprs (tframe (world S))) 17 = Some EID_HSM -> zget (gprs (tframe (world S))) 16 = Some HART_STOP ->
  exists w S', ecall_trap S = Ret tt S' /\ vstate (ncore (tnode (world S'))) v = Sleep /\ cur_vcpu (world S') = Some w /\ v <> w /\
    vregs (world S') w = frame_pc (usize (fpc (vregs (world S) w) + 4)) (vregs (world S) w).
Proof.
  intros Hr Hts Ev Hq H17 H16. destruct (hart_stop_hands_over S v Hr Hts Ev Hq) as (s' & w & E & Hts' & Hv & Hw & Hne & Hf).
  assert (forall i, 0 <= i < 32 -> exists x, on_ts (get_gpr i) S = Ret x S /\ zget (gprs (tframe (world S))) i = Some x) as Hg.
  { intros i Hi. destruct (trap_gpr_ok i (world S) Hts Hi) as (x & _ & Hx). exists x. split; [|done]. exact (on_ts_gpr S i x Hts Hi Hx). }
  destruct (Hg 17) as (? & G17 & ?); [lia|]. destruct (Hg 16) as (? & G16 & ?); [lia|]. simplify_eq.
  destruct (Hg 10) as (x0 & G0 & _); [lia|]. destruct (Hg 11) as (x1 & G1 & _); [lia|]. destruct (Hg 12) as (x2 & G2 & _); [lia|].
  destruct (Hg 13) as (x3 & G3 & _); [lia|]. destruct (Hg 14) as (x4 & G4 & _); [lia|]. destruct (Hg 15) as (x5 & G5 & _); [lia|].
  exists w, (with_world (with_frame (frame_pc (usize (fpc (tframe s') + 4)) (tframe s')) s') (with_world s' S)).
  split; [|split; [done|split; [done|split; [done|]]]].
  - unfold Sbi.ecall_trap. rewrite (m_bind_Ret _ _ S tt (with_world s' S)); [done|]. unfold Sbi.ecall_handler.
    rewrite (m_bind_Ret _ _ _ _ _ G17), (m_bind_Ret _ _ _ _ _ G16), (m_bind_Ret _ _ _ _ _ G0), (m_bind_Ret _ _ _ _ _ G1),
      (m_bind_Ret _ _ _ _ _ G2), (m_bind_Ret _ _ _ _ _ G3), (m_bind_Ret _ _ _ _ _ G4), (m_bind_Ret _ _ _ _ _ G5).
    destruct (Z.leb_spec EID_HSM 0x0AFFFFFF); [lia|]. rewrite andb_false_r. cbn iota. rewrite !Z.eqb_refl. cbn [andb].
    rewrite (m_bind_Ret _ _ S (sbi_success 0) (with_world s' S)); [done|]. unfold Sbi.handle_ecall. destruct not_legacy.
    rewrite !(proj2 (Z.eqb_neq EID_HSM _)) by done. cbn [andb]. rewrite decode_stop. exact E.
  - cbn [world with_world]. rewrite <- Hf. unfold TrapSpec.vregs, regs. change (cur_vcpu (with_frame _ s')) with (cur_vcpu s').
    by rewrite Hw, decide_True.
Qed.
End trap.
End spec.

(** ** Examples *)

(** A VM with a vCPU on core 0, the active one of [demo_node], and one on core 1. *)
Definition hart1 : Vcpu := mkVcpu 1 1 2.
Definition hart_vm : Vm := mkVm 2 (mkCpuCfg 2 3 None) [] [demo_vcpu 2; hart1] (int_bitmap demo_vm) 0 [].
Definition hart_idle : Frame := mkFrame (replicate 32 0) 0x1000.
Definition hart_caller : Sys TS := mkSys cpu_if_init ∅ (mkTS (demo_node demo_ops) (mkFrame (replicate 32 7) 0x3000) ∅ [hart_vm] []).
Definition hart_node1 : Node :=
  default (mkNode array_new (sched_new 1 1)) (run_ops (fun _ => false) demo_has [OpAssign hart1] (mkNode array_new (sched_new 1 1))).
Definition hart_ts1 : TS := mkTS hart_node1 hart_idle ∅ [hart_vm] [].

Lemma hart_vm_built : vm_built hart_vm.
Proof.
  split; [|done|done].
  assert (forall i v, zget (vcpu_list hart_vm) i = Some v -> i = 0 /\ v = demo_vcpu 2 \/ i = 1 /\ v = hart1) as H.
  { intros i v E. apply zget_Some_bounds in E as Hb. unfold zlen in Hb. simpl in Hb.
    assert (i = 0 \/ i = 1) as [->| ->] by lia; injection E as <-; auto. }
  split.
  - intros i v [[-> ->]|[-> ->]]%H; by cbn.
  - intros i j v w [[-> ->]|[-> ->]]%H [[-> ->]|[-> ->]]%H; by cbn.
Qed.

Lemma hart_node1_reach : reach (fun _ => false) demo_has hart_node1.
Proof.
  unfold hart_node1. destruct (run_ops _ _ _ _) as [n|] eqn:E; [|apply reach_init].
  eapply run_ops_reach; [apply reach_init|exact E].
Qed.

Lemma hart_ts1_ok : ts_ok hart_ts1.
Proof. split; [done|]. intros w. unfold saved_frame. cbn [saved hart_ts1]. by rewrite lookup_empty. Qed.


Lemma hart_start_starts_vcpu_witness : exists S1 S2,
  hart_start 4 (-1) (-3) 1 0x40000 9 hart_caller = Ret (sbi_success 0) S1 /\
  irq_actions (replicate 7 (riscv_psci_ipi_handler inj hart_idle demo_config)) true 3 1 AtFirst (with_world hart_ts1 S1) = Ret AtPop S2 /\
  cur_vcpu (world S2) = Some hart1.
Proof.
  destruct (hart_start_starts_vcpu 4 (-1) (-3) hart_idle demo_config eq_refl (fun _ => false) demo_has hart_caller hart_ts1
    1 0x40000 9 hart_vm hart1 CpuIf_default (replicate 7 (riscv_psci_ipi_handler inj hart_idle demo_config)))
    as (S1 & S2 & f & H1 & _ & _ & H2 & _ & H3 & _).
  - vm_compute. reflexivity.
  - apply hart_vm_built.
  - reflexivity.
  - reflexivity.
  - reflexivity.
  - reflexivity.
  - apply hart_node1_reach.
  - apply hart_ts1_ok.
  - vm_compute. reflexivity.
  - vm_compute. reflexivity.
  - reflexivity.
  - exists S1, S2. split; [exact H1|]. split; [exact H2|]. apply H3. vm_compute. reflexivity.
Defined.
