(* ===== verification/Emu.v ===== *)
(** * Emu: accesses to emulated devices, from the trap to the device and back

    The devices of a VM and the emulated system registers ([device/emu.rs], [kernel/vm.rs]); the load and store guest page
    faults of RISC-V, which read the instruction ([arch/riscv64/page_fault.rs]); the data aborts and trapped system registers of
    AArch64, which read the syndrome ([arch/aarch64/exception.rs], [sync.rs]).

    A device is a range of addresses and a handler that acts on the registers of the trap's frame and on its own state. *)
From S2P Require Import Prelude.

(** src: device/emu.rs 25-32 [EmuContext] *)
Record EmuContext := mkEmu { address : Z; width : Z; write : bool; sign_ext : bool; reg : Z; reg_width : Z }.
Definition at_address (a : Z) (c : EmuContext) : EmuContext := mkEmu a (width c) (write c) (sign_ext c) (reg c) (reg_width c).

(** The frame of the trap, general registers and program counter, and the state of the devices. *)
Record Mach (D : Type) := mkMach { gprs : list Z; elr : Z; dev : D }.
Arguments mkMach {D} _ _ _.
Arguments gprs {D} _.
Arguments elr {D} _.
Arguments dev {D} _.

Section machine.
Context {D : Type}.
Implicit Types m : Mach D.

Definition with_gprs l m := mkMach l (elr m) (dev m).
Definition with_elr e m := mkMach (gprs m) e (dev m).
Definition with_dev (d : D) m := mkMach (gprs m) (elr m) d.

(** src: kernel/cpu.rs 162-167 [Cpu::set_gpr]
    The frame has as many registers as [CONTEXT_GPR_NUM] says, 31 or 32. *)
Definition set_gpr (idx v : Z) : M (Mach D) unit := fun m =>
  if zlen (gprs m) <=? idx then Ret tt m
  else match zstore (gprs m) idx v with Some l => Ret tt (with_gprs l m) | None => Fault OutOfBounds end.
(** src: kernel/cpu.rs 169-174 [Cpu::get_gpr] *)
Definition get_gpr (idx : Z) : M (Mach D) Z := fun m =>
  if zlen (gprs m) <=? idx then Ret 0 m
  else match zget (gprs m) idx with Some v => Ret v m | None => Fault OutOfBounds end.
(** src: kernel/cpu.rs 176-178 [Cpu::get_elr] *)
Definition get_elr : M (Mach D) Z := m_gets elr.
(** src: kernel/cpu.rs 180-182 [Cpu::set_elr] *)
Definition set_elr (v : Z) : M (Mach D) unit := m_modify (with_elr v).

(** ** Devices *)

(** src: device/emu.rs 14-21 [EmuDev] *)
Record EmuDev := mkDev { range_start : Z; range_end : Z; dev_handler : EmuContext -> M (Mach D) bool }.

Definition contains (d : EmuDev) (a : Z) : bool := (range_start d <=? a) && (a <? range_end d).

(** src: kernel/vm.rs 429-435 [Vm::find_emu_dev] *)
Definition find_emu_dev (devs : list EmuDev) (ipa : Z) : option EmuDev := List.find (fun d => contains d ipa) devs.

(** src: kernel/vm.rs 291-304 [VmInnerConst::init_devices: adding a device]
    [None] is the panic. *)
Definition push_emu_dev (devs : list EmuDev) (d : EmuDev) : option (list EmuDev) :=
  if existsb (fun e => contains d (range_start e) || contains e (range_start d)) devs then None else Some (devs ++ [d]).

Definition push_emu_devs (ds : list EmuDev) : option (list EmuDev) :=
  foldl (fun o d => l ← o; push_emu_dev l d) (Some []) ds.

(** src: device/emu.rs 177-191 [emu_handler]
    [devs]: the devices of the active VM. *)
Definition emu_handler (devs : list EmuDev) (ctx : EmuContext) : M (Mach D) bool :=
  match find_emu_dev devs (address ctx) with Some d => dev_handler d ctx | None => m_ret false end.

(** ** Emulated registers *)

(** src: device/emu.rs 246-253 [EmuRegEntry] *)
Record EmuRegEntry := mkReg { addr : Z; reg_handler : Z -> EmuContext -> M (Mach D) bool }.

(** src: device/emu.rs 220-240 [emu_register_reg] *)
Definition emu_register_reg (l : list EmuRegEntry) (a : Z) (h : Z -> EmuContext -> M (Mach D) bool) : list EmuRegEntry :=
  if existsb (fun e => a =? addr e) l then l else l ++ [mkReg a h].

(** src: device/emu.rs 197-217 [emu_reg_handler]
    [vm_id]: the active VM. *)
Definition emu_reg_handler (l : list EmuRegEntry) (vm_id : Z) (ctx : EmuContext) : M (Mach D) bool :=
  match List.find (fun e => addr e =? address ctx) l with Some e => reg_handler e vm_id ctx | None => m_ret false end.
End machine.
Arguments EmuDev : clear implicits.
Arguments EmuRegEntry : clear implicits.

(** ** RISC-V: decoding loads and stores *)

(** src: arch/riscv64/page_fault.rs 14-21 [inst_width] *)
Definition inst_width (funct3 : Z) : Z :=
  let w := Z.land funct3 3 in if w =? 0 then 1 else if w =? 1 then 2 else if w =? 2 then 4 else 8.

(** src: arch/riscv64/page_fault.rs 23-42 [read_inst_from_guest_mem]
    [fetch] reads a half word as the guest would; [None] is the panic. *)
Definition read_inst_from_guest_mem (fetch : Z -> Z) (a : Z) : option Z :=
  if Z.land a 1 =? 1 then None
  else
    let inst := fetch a in
    Some (if Z.land inst 3 =? 3 then Z.lor inst (shlw 32 (fetch (usize (a + 2))) 16) else inst).

(** src: arch/riscv64/page_fault.rs 45-52 [get_ins_size] *)
Definition get_ins_size (inst : Z) : Z := if Z.land inst 3 =? 3 then 4 else 2.
(** src: arch/riscv64/page_fault.rs 55-57 [is_compressed] *)
Definition is_compressed (inst : Z) : bool := negb (Z.land inst 3 =? 3).
(** src: arch/riscv64/page_fault.rs 59-66 [is_pseudo_ins] *)
Definition is_pseudo_ins (inst : Z) : bool := (inst =? 0x3000) || (inst =? 0x3020).
(** src: arch/riscv64/page_fault.rs 69-75 [transformed_inst_size] *)
Definition transformed_inst_size (inst : Z) : Z := if Z.land inst 2 =? 0 then 2 else 4.
(** src: arch/riscv64/page_fault.rs 78-81 [is_compressed_ldst] *)
Definition is_compressed_ldst (inst : Z) : bool := (Z.land inst 0xe003 =? 0x4000) || (Z.land inst 0xe003 =? 0xc000).
(** src: arch/riscv64/page_fault.rs 84-86 [is_compressed_st] *)
Definition is_compressed_st (inst : Z) : bool := Z.land inst 0xe003 =? 0xc000.
(** src: arch/riscv64/page_fault.rs 89-92 [is_normal_ldst] *)
Definition is_normal_ldst (inst : Z) : bool := (Z.land inst 0x7f =? 0x03) || (Z.land inst 0x7f =? 0x23).
(** src: arch/riscv64/page_fault.rs 95-97 [is_normal_st] *)
Definition is_normal_st (inst : Z) : bool := Z.land inst 0x7f =? 0x23.
(** src: arch/riscv64/page_fault.rs 100-102 [ins_compressed_rd_rs2] *)
Definition ins_compressed_rd_rs2 (inst : Z) : Z := Z.land (Z.shiftr inst 2) 7.

(** src: arch/riscv64/page_fault.rs 110-143 [inst_ldst_decode] *)
Definition inst_ldst_decode (inst : Z) : option EmuContext :=
  if is_compressed inst then
    if negb (is_compressed_ldst inst) then None
    else Some (mkEmu 0 4 (is_compressed_st inst) true (ins_compressed_rd_rs2 inst + 8) 8)
  else if negb (is_normal_ldst inst) then None
  else
    let func3 := Z.land (Z.shiftr inst 12) 7 in
    let r := if is_normal_st inst then Z.land (Z.shiftr inst 20) 0x1f else Z.land (Z.shiftr inst 7) 0x1f in
    Some (mkEmu 0 (inst_width func3) (is_normal_st inst) (Z.land func3 4 =? 0) r 8).

Section riscv.
Context {D : Type} (devs : list (EmuDev D)) (fetch : Z -> Z).

(** The instruction and its length: from the guest's memory, or from HTINST. *)
Definition fault_inst (htinst : Z) : M (Mach D) (Z * Z) :=
  let inst := u32 htinst in
  if inst =? 0 then
    let! pc := get_elr in
    let! i := m_opt ExplicitPanic (read_inst_from_guest_mem fetch pc) in m_ret (i, get_ins_size i)
  else if is_pseudo_ins inst then m_fault ExplicitPanic
  else m_ret (Z.lor inst 2, transformed_inst_size inst).

(** src: arch/riscv64/page_fault.rs 145-200 [ldst_guest_page_fault_handler] *)
Definition ldst_guest_page_fault_handler (htval stval htinst : Z) : M (Mach D) unit :=
  let a := usize (shlw 64 htval 2 + Z.land stval 3) in
  let! p := fault_inst htinst in
  let! ctx := m_opt ExplicitPanic (inst_ldst_decode p.1) in
  let! ok := emu_handler devs (at_address a ctx) in
  if negb ok then m_fault ExplicitPanic
  else let! pc := get_elr in set_elr (usize (pc + p.2)).
End riscv.

(** ** AArch64: the syndrome of an abort *)

(** src: arch/aarch64/exception.rs 51-53 [exception_class] *)
Definition exception_class (esr : Z) : Z := Z.land (Z.shiftr esr 26) 0x3f.
(** src: arch/aarch64/exception.rs 128-135 [exception_instruction_length, exception_next_instruction_step] *)
Definition exception_next_instruction_step (esr : Z) : Z := 2 + 2 * Z.land (Z.shiftr esr 25) 1.
(** src: arch/aarch64/exception.rs 139-141 [exception_iss] *)
Definition exception_iss (esr : Z) : Z := Z.land esr (Z.ones 25).
(** src: arch/aarch64/exception.rs 144-146 [exception_data_abort_handleable]
    [!] is the bitwise complement. *)
Definition exception_data_abort_handleable (esr : Z) : bool :=
  let iss := exception_iss esr in
  negb (Z.lor (notw 64 (Z.land iss (Z.shiftl 1 10))) (Z.land iss (Z.shiftl 1 24)) =? 0).
(** src: arch/aarch64/exception.rs 149-151 [exception_data_abort_is_translate_fault] *)
Definition exception_data_abort_is_translate_fault (esr : Z) : bool :=
  Z.land (Z.land (exception_iss esr) 0x3f) (Z.shiftl 0xf 2) =? 4.
(** src: arch/aarch64/exception.rs 154-156 [exception_data_abort_is_permission_fault] *)
Definition exception_data_abort_is_permission_fault (esr : Z) : bool :=
  Z.land (Z.land (exception_iss esr) 0x3f) (Z.shiftl 0xf 2) =? 12.
(** src: arch/aarch64/exception.rs 159-161 [exception_data_abort_access_width] *)
Definition exception_data_abort_access_width (esr : Z) : Z := Z.shiftl 1 (Z.land (Z.shiftr (exception_iss esr) 22) 3).
(** src: arch/aarch64/exception.rs 164-166 [exception_data_abort_access_is_write] *)
Definition exception_data_abort_access_is_write (esr : Z) : bool := testm (exception_iss esr) (Z.shiftl 1 6).
(** src: arch/aarch64/exception.rs 174-176 [exception_data_abort_access_reg] *)
Definition exception_data_abort_access_reg (esr : Z) : Z := Z.land (Z.shiftr (exception_iss esr) 16) 0x1f.
(** src: arch/aarch64/exception.rs 179-181 [exception_data_abort_access_reg_width] *)
Definition exception_data_abort_access_reg_width (esr : Z) : Z := 4 + 4 * Z.land (Z.shiftr (exception_iss esr) 15) 1.
(** src: arch/aarch64/exception.rs 184-186 [exception_data_abort_access_is_sign_ext] *)
Definition exception_data_abort_access_is_sign_ext (esr : Z) : bool :=
  negb (Z.land (Z.shiftr (exception_iss esr) 21) 1 =? 0).

(** src: arch/aarch64/exception.rs 89-92 [par_to_far] *)
Definition par_to_far (par : Z) : Z := Z.shiftr (Z.land par (Z.shiftl (Z.ones 40) 12)) 8.

Section aarch64.
(** [translate]: the value of PAR_EL1 after the first stage of an address. *)
Context {D : Type} (devs : list (EmuDev D)) (translate : Z -> Z).

(** src: arch/aarch64/exception.rs 80-106 [translate_far_to_hpfar] *)
Definition translate_far_to_hpfar (far : Z) : option Z :=
  let par := translate far in if testm par 1 then None else Some (par_to_far par).

(** src: arch/aarch64/exception.rs 110-123 [exception_fault_addr] *)
Definition exception_fault_addr (esr far hpfar : Z) : Z :=
  let h := if negb (testm esr (Z.shiftl 1 7)) && exception_data_abort_is_permission_fault esr
           then default 0 (translate_far_to_hpfar far) else hpfar in
  Z.lor (Z.land far 0xfff) (shlw 64 h 8).

(** src: arch/aarch64/sync.rs 21-29 [data_abort_handler: the context] *)
Definition abort_context (esr far hpfar : Z) : EmuContext :=
  mkEmu (exception_fault_addr esr far hpfar) (exception_data_abort_access_width esr) (exception_data_abort_access_is_write esr)
    (exception_data_abort_access_is_sign_ext esr) (exception_data_abort_access_reg esr)
    (exception_data_abort_access_reg_width esr).

(** src: arch/aarch64/sync.rs 20-75 [data_abort_handler] *)
Definition data_abort_handler (esr far hpfar : Z) : M (Mach D) unit :=
  let! pc := get_elr in
  if negb (exception_data_abort_handleable esr) then m_fault ExplicitPanic
  else if negb (exception_data_abort_is_translate_fault esr) then
    if exception_data_abort_is_permission_fault esr then m_ret tt else m_fault ExplicitPanic
  else
    let! ok := emu_handler devs (abort_context esr far hpfar) in
    if negb ok then m_fault ExplicitPanic else set_elr (usize (pc + exception_next_instruction_step esr)).

(** src: arch/aarch64/sync.rs 136-140 [exception_sysreg_addr] *)
Definition exception_sysreg_addr (iss : Z) : Z := Z.land iss (Z.lor (Z.shiftl 0xfff 10) (Z.shiftl 0xf 1)).
(** src: arch/aarch64/sync.rs 143-146 [exception_sysreg_direction_write] *)
Definition exception_sysreg_direction_write (iss : Z) : bool := Z.land iss 1 =? 0.
(** src: arch/aarch64/sync.rs 149-154 [exception_sysreg_gpr] *)
Definition exception_sysreg_gpr (iss : Z) : Z := Z.land (Z.shiftr iss 5) 0x1f.

(** src: arch/aarch64/sync.rs 169-191 [sysreg_handler]
    [esr] gives the length of the instruction. *)
Definition sysreg_handler (regs : list (EmuRegEntry D)) (vm_id esr iss : Z) : M (Mach D) unit :=
  let ctx := mkEmu (exception_sysreg_addr iss) 8 (exception_sysreg_direction_write iss) false (exception_sysreg_gpr iss) 8 in
  let! pc := get_elr in
  let! ok := emu_reg_handler regs vm_id ctx in
  if negb ok then m_fault ExplicitPanic else set_elr (usize (pc + exception_next_instruction_step esr)).

(** src: arch/aarch64/exception.rs 227-263 [lower_aarch64_synchronous]
    [smc], [hvc]: the handlers of calls, which [Psci] and [Hvc] model. *)
Definition lower_aarch64_synchronous (smc hvc : M (Mach D) unit) (regs : list (EmuRegEntry D)) (vm_id esr far hpfar : Z)
  : M (Mach D) unit :=
  let c := exception_class esr in
  if c =? 0x24 then data_abort_handler esr far hpfar
  else if c =? 0x18 then sysreg_handler regs vm_id esr (u32 (exception_iss esr))
  else if c =? 0x17 then smc
  else if c =? 0x16 then hvc
  else m_fault ExplicitPanic.
End aarch64.
