(* ===== verification/EmuSpec.v ===== *)
(** * EmuSpec: what becomes of a guest's access to an emulated device

    The devices of a VM do not overlap; a load or store of RISC-V, and an access with a valid syndrome of AArch64, reaches the
    one device at its address with the width, direction and register of the instruction, and the guest goes on after it.
    The decoders are stated against encoders of the instruction sets. *)
From stdpp Require Import list.
From S2P Require Import Prelude Emu.

(** ** Devices do not overlap *)

Section devices.
Context {D : Type}.
Implicit Types d e : EmuDev D.

Definition disjoint_devs (l : list (EmuDev D)) : Prop :=
  forall i j d e a, l !! i = Some d -> l !! j = Some e -> contains d a = true -> contains e a = true -> i = j.

(** Two ranges with a common address: one contains the start of the other. *)
Lemma overlap_starts d e a : contains d a = true -> contains e a = true ->
  contains d (range_start e) || contains e (range_start d) = true.
Proof. unfold contains. rewrite orb_true_iff, !andb_true_iff, !Z.leb_le, !Z.ltb_lt. lia. Qed.

Lemma push_disjoint l d l' : push_emu_dev l d = Some l' -> disjoint_devs l -> l' = l ++ [d] /\ disjoint_devs l'.
Proof.
  unfold push_emu_dev. destruct (existsb _ l) eqn:E; [done|]. intros [= <-] Hl. split; [done|].
  assert (forall i e a, l !! i = Some e -> contains e a = true -> contains d a = true -> False) as Hd.
  { intros i e a Hi He Ha. apply list_elem_of_lookup_2, list_elem_of_In in Hi.
    rewrite <- not_true_iff_false in E. apply E, existsb_exists. exists e. split; [done|]. by eapply overlap_starts. }
  intros i j x y a Hi Hj Hx Hy. rewrite !lookup_app in *.
  destruct (l !! i) as [x'|] eqn:Ei, (l !! j) as [y'|] eqn:Ej; simplify_eq.
  - by eapply Hl.
  - apply list_lookup_singleton_Some in Hj as [_ <-]. exfalso. by eapply (Hd i).
  - apply list_lookup_singleton_Some in Hi as [_ <-]. exfalso. by eapply (Hd j).
  - apply list_lookup_singleton_Some in Hi as [Hi _], Hj as [Hj _].
    apply lookup_ge_None in Ei, Ej. lia.
Qed.

Lemma push_all_disjoint ds l : push_emu_devs ds = Some l -> l = ds /\ disjoint_devs l.
Proof.
  unfold push_emu_devs. enough (forall ds l0 l, disjoint_devs l0 ->
    foldl (fun o d => l ← o; push_emu_dev l d) (Some l0) ds = Some l -> l = l0 ++ ds /\ disjoint_devs l) as H
    by (apply (H ds []); intros i j ? ? ? Hi; by rewrite lookup_nil in Hi).
  clear ds l. induction ds as [|d ds IH]; intros l0 l Hl0; simpl; [intros [= <-]; by rewrite app_nil_r|].
  destruct (push_emu_dev l0 d) as [l1|] eqn:E.
  - apply push_disjoint in E as [-> Hl1]; [|done]. intros [-> ?]%IH; [|done]. split; [by rewrite <- app_assoc|done].
  - assert (foldl (fun o d => l ← o; push_emu_dev l d) None ds = None) as -> by (clear; induction ds as [|? ? IHd]; [done|exact IHd]). done.
Qed.

(** In a list without overlaps a device is found by any of its addresses. *)
Lemma find_emu_dev_in l d a : disjoint_devs l -> d ∈ l -> contains d a = true -> find_emu_dev l a = Some d.
Proof.
  intros Hl [i Hi]%list_elem_of_lookup Ha. unfold find_emu_dev. apply find_first. exists i. split_and!; [done|done|].
  intros j e Hj He. destruct (contains e a) eqn:Ec; [|done]. assert (j = i) by (by eapply Hl). lia.
Qed.
End devices.

(** ** Register devices

    What the emulated devices are to the trap: they take the address and the width, and move whole registers. *)

Class RegDevice (D : Type) := {
  dev_read : Z -> Z -> D -> Z * D;
  dev_write : Z -> Z -> Z -> D -> D;
}.

Section registers.
Context {D : Type} `{RegDevice D}.
Implicit Types m : Mach D.

Definition register_handler (c : EmuContext) : M (Mach D) bool :=
  if write c then
    let! v := get_gpr (reg c) in m_modify (fun m => with_dev (dev_write (address c) (width c) v (dev m)) m) >>; m_ret true
  else
    let! m := m_get in
    let p := dev_read (address c) (width c) (dev m) in m_modify (with_dev p.2) >>; set_gpr (reg c) p.1 >>; m_ret true.
Definition register_device (lo hi : Z) : EmuDev D := mkDev lo hi register_handler.

(** Registers as the instruction sees them: beyond the frame they read as zero and ignore writes. *)
Definition reg_value (r : Z) m : Z := default 0 (zget (gprs m) r).
Definition put_reg (r v : Z) m : Mach D := with_gprs (zset (gprs m) r v) m.

(** The effect of an access. *)
Definition access (c : EmuContext) m : Mach D :=
  if write c then with_dev (dev_write (address c) (width c) (reg_value (reg c) m) (dev m)) m
  else let p := dev_read (address c) (width c) (dev m) in put_reg (reg c) p.1 (with_dev p.2 m).

Lemma emu_get_gpr r m : 0 <= r -> get_gpr r m = Ret (reg_value r m) m.
Proof.
  intros Hr. unfold get_gpr, reg_value. destruct (Z.leb_spec (zlen (gprs m)) r) as [Hl|Hl].
  - destruct (zget (gprs m) r) eqn:E; [|done]. apply zget_Some_bounds in E. lia.
  - destruct (zget_in_bounds (gprs m) r) as [v ->]; [lia|done].
Qed.

Lemma set_gpr_put r v m : 0 <= r -> set_gpr r v m = Ret tt (put_reg r v m).
Proof.
  intros Hr. unfold set_gpr, put_reg, zstore. destruct (Z.leb_spec (zlen (gprs m)) r) as [Hl|Hl].
  - f_equal. unfold with_gprs. destruct m as [l e d]. simpl in *. f_equal. unfold zset.
    rewrite (proj2 (Z.leb_le 0 r)) by done. rewrite list_insert_ge; [done|]. unfold zlen in Hl. lia.
  - by rewrite in_bounds_true by lia.
Qed.

Lemma register_handler_runs c m : 0 <= reg c -> register_handler c m = Ret true (access c m).
Proof.
  intros Hr. unfold register_handler, access. destruct (write c).
  - by rewrite (m_bind_Ret _ _ _ _ _ (emu_get_gpr (reg c) m Hr)).
  - eapply m_bind_Ret_r; [reflexivity|]. cbv beta zeta. eapply m_bind_Ret_r; [reflexivity|].
    eapply m_bind_Ret_r; [by apply set_gpr_put|done].
Qed.

(** The device at the address of the access is the one that is reached. *)
Lemma emu_handler_device ds devs lo hi c m :
  push_emu_devs ds = Some devs -> register_device lo hi ∈ ds -> lo <= address c < hi -> 0 <= reg c ->
  emu_handler devs c m = Ret true (access c m).
Proof.
  intros [-> Hd]%push_all_disjoint Hin Ha Hr. unfold emu_handler.
  rewrite (find_emu_dev_in ds (register_device lo hi)) by
    (done || (unfold contains; rewrite andb_true_iff, Z.leb_le, Z.ltb_lt; simpl; lia)).
  by apply register_handler_runs.
Qed.

Lemma access_elr c m : elr (access c m) = elr m.
Proof. unfold access. by destruct (write c). Qed.
End registers.

(** ** The loads and stores of RISC-V *)

(** [w] is the binary logarithm of the width; the base register and the immediate say nothing to the decoder. *)
Inductive ldst :=
  | ILoad (w : Z) (unsigned : bool) (rd rs1 imm : Z)
  | IStore (w rs2 rs1 imm_hi imm_lo : Z)
  | CLw (rd rs1 i1 i2 : Z)
  | CSw (rs2 rs1 i1 i2 : Z).

Definition ldst_ok (i : ldst) : Prop :=
  match i with
  | ILoad w u rd rs1 imm => 0 <= w < (if u then 3 else 4) /\ 0 <= rd < 32 /\ 0 <= rs1 < 32 /\ 0 <= imm < 4096
  | IStore w rs2 rs1 h l => 0 <= w < 4 /\ 0 <= rs2 < 32 /\ 0 <= rs1 < 32 /\ 0 <= h < 128 /\ 0 <= l < 32
  | CLw r rs1 i1 i2 | CSw r rs1 i1 i2 => 0 <= r < 8 /\ 0 <= rs1 < 8 /\ 0 <= i1 < 8 /\ 0 <= i2 < 4
  end.

Definition encode (i : ldst) : Z :=
  match i with
  | ILoad w u rd rs1 imm => 0x03 + rd * 128 + (w + (if u then 4 else 0)) * 4096 + rs1 * 32768 + imm * 1048576
  | IStore w rs2 rs1 h l => 0x23 + l * 128 + w * 4096 + rs1 * 32768 + rs2 * 1048576 + h * 33554432
  | CLw r rs1 i1 i2 => r * 4 + i2 * 32 + rs1 * 128 + i1 * 1024 + 2 * 8192
  | CSw r rs1 i1 i2 => r * 4 + i2 * 32 + rs1 * 128 + i1 * 1024 + 6 * 8192
  end.

Definition ldst_len (i : ldst) : Z := match i with ILoad _ _ _ _ _ | IStore _ _ _ _ _ => 4 | _ => 2 end.

(** The access the instruction makes: width, direction, sign, register. *)
Definition ldst_ctx (i : ldst) : EmuContext :=
  match i with
  | ILoad w u rd _ _ => mkEmu 0 (2 ^ w) false (negb u) rd 8
  | IStore w rs2 _ _ _ => mkEmu 0 (2 ^ w) true true rs2 8
  | CLw r _ _ _ => mkEmu 0 4 false true (r + 8) 8
  | CSw r _ _ _ => mkEmu 0 4 true true (r + 8) 8
  end.

Lemma land_low x n : 0 <= n -> Z.land x (Z.ones n) = x mod 2 ^ n.
Proof. apply Z.land_ones. Qed.

(** Fields by division. *)
Ltac fields :=
  repeat match goal with
  | |- context [Z.land ?x 3] => change (Z.land x 3) with (Z.land x (Z.ones 2)); rewrite (land_low x 2) by lia; change (2 ^ 2) with 4
  | |- context [Z.land ?x 7] => change (Z.land x 7) with (Z.land x (Z.ones 3)); rewrite (land_low x 3) by lia; change (2 ^ 3) with 8
  | |- context [Z.land ?x 0x1f] => change (Z.land x 0x1f) with (Z.land x (Z.ones 5)); rewrite (land_low x 5) by lia; change (2 ^ 5) with 32
  | |- context [Z.land ?x 0x7f] => change (Z.land x 0x7f) with (Z.land x (Z.ones 7)); rewrite (land_low x 7) by lia; change (2 ^ 7) with 128
  | |- context [Z.shiftr ?x ?n] => rewrite (Z.shiftr_div_pow2 x n) by lia
  end.

Lemma inst_width_spec w (u : bool) : 0 <= w < 4 -> inst_width (w + if u then 4 else 0) = 2 ^ w.
Proof. intros Hw. assert (w = 0 \/ w = 1 \/ w = 2 \/ w = 3) as Hc by lia. destruct u; by destruct Hc as [->|[->|[->| ->]]]. Qed.

Lemma sign_bit w (u : bool) : 0 <= w < 4 -> (Z.land (w + if u then 4 else 0) 4 =? 0) = negb u.
Proof. intros Hw. assert (w = 0 \/ w = 1 \/ w = 2 \/ w = 3) as Hc by lia. destruct u; by destruct Hc as [->|[->|[->| ->]]]. Qed.

Lemma decode_load w u rd rs1 imm : ldst_ok (ILoad w u rd rs1 imm) ->
  inst_ldst_decode (encode (ILoad w u rd rs1 imm)) = Some (ldst_ctx (ILoad w u rd rs1 imm)).
Proof.
  intros (Hw & Hrd & Hr & Hi). assert (0 <= w < 4) as Hw4 by (destruct u; lia).
  cbn [encode ldst_ctx]. set (f := w + if u then 4 else 0). assert (0 <= f < 8) as Hf by (unfold f; destruct u; lia).
  set (x := 3 + rd * 128 + f * 4096 + rs1 * 32768 + imm * 1048576).
  assert (Z.land x 3 = 3) as E1 by (fields; unfold x; Z.div_mod_to_equations; lia).
  assert (Z.land x 0x7f = 3) as E2 by (fields; unfold x; Z.div_mod_to_equations; lia).
  assert (Z.land (Z.shiftr x 12) 7 = f) as E3.
  { fields. change (2 ^ 12) with 4096. unfold x. Z.div_mod_to_equations; lia. }
  assert (Z.land (Z.shiftr x 7) 0x1f = rd) as E4.
  { fields. change (2 ^ 7) with 128. unfold x. Z.div_mod_to_equations; lia. }
  unfold inst_ldst_decode, is_compressed, is_normal_ldst, is_normal_st. rewrite E1, E2. cbn [Z.eqb negb orb Pos.eqb].
  rewrite E3, E4. unfold f. by rewrite inst_width_spec, sign_bit.
Qed.

Lemma decode_store w rs2 rs1 h l : ldst_ok (IStore w rs2 rs1 h l) ->
  inst_ldst_decode (encode (IStore w rs2 rs1 h l)) = Some (ldst_ctx (IStore w rs2 rs1 h l)).
Proof.
  intros (Hw & Hr2 & Hr & Hh & Hl). cbn [encode ldst_ctx].
  set (x := 0x23 + l * 128 + w * 4096 + rs1 * 32768 + rs2 * 1048576 + h * 33554432).
  assert (Z.land x 3 = 3) as E1 by (fields; unfold x; Z.div_mod_to_equations; lia).
  assert (Z.land x 0x7f = 0x23) as E2 by (fields; unfold x; Z.div_mod_to_equations; lia).
  assert (Z.land (Z.shiftr x 12) 7 = w + 0) as E3.
  { fields. change (2 ^ 12) with 4096. unfold x. Z.div_mod_to_equations; lia. }
  assert (Z.land (Z.shiftr x 20) 0x1f = rs2) as E4.
  { fields. change (2 ^ 20) with 1048576. unfold x. Z.div_mod_to_equations; lia. }
  unfold inst_ldst_decode, is_compressed, is_normal_ldst, is_normal_st. rewrite E1, E2. cbn [Z.eqb negb orb Pos.eqb].
  rewrite E3, E4. by rewrite (inst_width_spec w false), (sign_bit w false).
Qed.

(** The compressed forms leave eleven bits free: all of them are tried. *)
Definition compressed_ok (f x : Z) : bool :=
  match inst_ldst_decode (x * 4 + f * 8192) with
  | Some c => (address c =? 0) && (width c =? 4) && Bool.eqb (write c) (f =? 6) && sign_ext c && (reg c =? x mod 8 + 8) && (reg_width c =? 8)
  | None => false
  end.

Lemma compressed_all : forallb (fun x => compressed_ok 2 x && compressed_ok 6 x) (zrange 0 2048) = true.
Proof. vm_compute. reflexivity. Qed.

Lemma decode_compressed f x : f = 2 \/ f = 6 -> 0 <= x < 2048 ->
  inst_ldst_decode (x * 4 + f * 8192) = Some (mkEmu 0 4 (f =? 6) true (x mod 8 + 8) 8).
Proof.
  intros Hf Hx. assert (compressed_ok f x = true) as Hc.
  { pose proof compressed_all as H. rewrite forallb_forall in H. specialize (H x).
    rewrite andb_true_iff in H. destruct Hf as [->| ->]; apply H, list_elem_of_In, zrange_elem; lia. }
  unfold compressed_ok in Hc. destruct (inst_ldst_decode _) as [c|]; [|done].
  rewrite !andb_true_iff, !Z.eqb_eq, Bool.eqb_true_iff in Hc. destruct c; simpl in *. by destruct_and!; subst.
Qed.

Lemma ldst_decodes i : ldst_ok i -> inst_ldst_decode (encode i) = Some (ldst_ctx i).
Proof.
  destruct i as [w u rd rs1 imm|w rs2 rs1 h l|r rs1 i1 i2|r rs1 i1 i2]; intros Hok.
  - by apply decode_load.
  - by apply decode_store.
  - destruct Hok as (? & ? & ? & ?). cbn [encode ldst_ctx].
    set (x := r + i2 * 8 + rs1 * 32 + i1 * 256).
    replace (r * 4 + i2 * 32 + rs1 * 128 + i1 * 1024 + 2 * 8192) with (x * 4 + 2 * 8192) by (unfold x; lia).
    rewrite decode_compressed by (unfold x; lia). do 2 f_equal. unfold x. Z.div_mod_to_equations; lia.
  - destruct Hok as (? & ? & ? & ?). cbn [encode ldst_ctx].
    set (x := r + i2 * 8 + rs1 * 32 + i1 * 256).
    replace (r * 4 + i2 * 32 + rs1 * 128 + i1 * 1024 + 6 * 8192) with (x * 4 + 6 * 8192) by (unfold x; lia).
    rewrite decode_compressed by (unfold x; lia). do 2 f_equal. unfold x. Z.div_mod_to_equations; lia.
Qed.

(** C28. The decoder of RISC-V loads and stores inverts the encoder: every LB to LD, LBU to LWU, SB to SD, C.LW and C.SW, with
    any base register and offset, is decoded to its width, direction, sign and register. *)
Theorem ldst_decode_encode i : ldst_ok i -> inst_ldst_decode (encode i) = Some (ldst_ctx i).
Proof. apply ldst_decodes. Qed.

(** ** A guest page fault of RISC-V *)

(** How the hypervisor gets to know the instruction at [pc]: it fetches it from the guest's memory when HTINST is zero, or
    HTINST has it transformed (another base register and offset, and for a compressed instruction the corresponding
    full-size one with bit 1 clear). *)
Inductive told (fetch : Z -> Z) (pc htinst : Z) (i : ldst) : Prop :=
  | TMem : u32 htinst = 0 -> Z.land pc 1 = 0 ->
      (if ldst_len i =? 4 then fetch pc = encode i mod 65536 /\ fetch (usize (pc + 2)) = encode i / 65536
       else fetch pc = encode i) -> told fetch pc htinst i
  | TInst j : ldst_ok j -> ldst_len j = 4 -> ldst_ctx j = ldst_ctx i ->
      u32 htinst = encode j - (if ldst_len i =? 4 then 0 else 2) -> told fetch pc htinst i.

Lemma encode_low i : ldst_ok i -> 0 <= encode i < 2 ^ 32 /\ encode i mod 4 = if ldst_len i =? 4 then 3 else 0.
Proof.
  destruct i as [w u ? ? ?|? ? ? ? ?|? ? ? ?|? ? ? ?]; simpl; [destruct u|..]; intros; destruct_and!;
    (split; [lia|Z.div_mod_to_equations; lia]).
Qed.

Lemma encode_compressed_small i : ldst_ok i -> ldst_len i = 2 -> encode i < 65536.
Proof. destruct i; simpl; intros; destruct_and!; try done; lia. Qed.

(** The two halves of an instruction put together. *)
Lemma halves x : 0 <= x < 2 ^ 32 -> Z.lor (x mod 65536) (shlw 32 (x / 65536) 16) = x.
Proof.
  intros Hx. apply Z.bits_inj'. intros j Hj. rewrite Z.lor_spec, shlw_testbit by lia.
  change 65536 with (2 ^ 16). destruct (Z.ltb_spec j 16) as [Hj16|Hj16].
  - rewrite Z.mod_pow2_bits_low, (proj2 (Z.leb_gt 16 j)) by lia. by rewrite andb_false_r, orb_false_r.
  - rewrite Z.mod_pow2_bits_high by lia. rewrite (proj2 (Z.leb_le 16 j)), andb_true_r, orb_false_l by lia.
    rewrite Z.div_pow2_bits by lia. replace (j - 16 + 16) with j by lia.
    destruct (Z.ltb_spec j 32); [done|]. destruct (Z.eq_dec x 0) as [->|]; [by rewrite Z.testbit_0_l|].
    rewrite Z.bits_above_log2; [done|lia|]. apply Z.log2_lt_pow2; [lia|]. assert (2 ^ 32 <= 2 ^ j) by (apply Z.pow_le_mono_r; lia). lia.
Qed.

Lemma mod4_land x : Z.land x 3 = x mod 4.
Proof. change 3 with (Z.ones 2). by rewrite land_low by lia. Qed.

Lemma read_inst fetch pc htinst i : ldst_ok i -> Z.land pc 1 = 0 ->
  (if ldst_len i =? 4 then fetch pc = encode i mod 65536 /\ fetch (usize (pc + 2)) = encode i / 65536
   else fetch pc = encode i) -> u32 htinst = 0 ->
  read_inst_from_guest_mem fetch pc = Some (encode i) /\ get_ins_size (encode i) = ldst_len i.
Proof.
  intros Hok Hpc Hf _. destruct (encode_low i Hok) as [Hr Hm]. unfold read_inst_from_guest_mem, get_ins_size.
  rewrite Hpc, !mod4_land, Hm. cbn [Z.eqb]. destruct (Z.eqb_spec (ldst_len i) 4) as [E|E].
  - destruct Hf as [H1 H2]. rewrite H1, H2.
    assert ((encode i mod 65536) mod 4 = 3) as -> by (Z.div_mod_to_equations; lia). simpl. by rewrite halves.
  - rewrite Hf, Hm. simpl. split; [done|]. by destruct i.
Qed.

(** Bit 1 of an instruction word. *)
Lemma land_2 x : Z.land x 2 = Z.land (x mod 4) 2.
Proof. rewrite <- mod4_land, <- Z.land_assoc. done. Qed.

Lemma lor_2 x : x mod 4 = 1 -> Z.lor x 2 = x + 2.
Proof.
  intros Hx. assert (Z.land x 2 = 0) as H0 by (by rewrite land_2, Hx). rewrite <- (Z.lxor_lor _ _ H0). symmetry.
  by apply Z.add_nocarry_lxor.
Qed.

Lemma lor_2_set x : x mod 4 = 3 -> Z.lor x 2 = x.
Proof.
  intros Hx. assert (Z.lor (x - 2) 2 = x) as E by (rewrite lor_2; [lia|Z.div_mod_to_equations; lia]).
  rewrite <- E at 1. by rewrite <- Z.lor_assoc, Z.lor_diag.
Qed.

Section riscv.
Context {D : Type} `{RegDevice D}.

(** The instruction that the handler works on makes the same access, and the length is right. *)
Lemma fault_inst_told fetch htinst i (m : Mach D) : ldst_ok i -> told fetch (elr m) htinst i ->
  exists x, fault_inst fetch htinst m = Ret (x, ldst_len i) m /\ inst_ldst_decode x = Some (ldst_ctx i).
Proof.
  intros Hok [Hz Hpc Hf|j Hj Hl Hc Ht]; unfold fault_inst.
  - destruct (read_inst fetch (elr m) htinst i Hok Hpc Hf Hz) as [E1 E2]. exists (encode i). rewrite Hz. simpl.
    split; [|by apply ldst_decodes]. eapply m_bind_Ret_r; [reflexivity|]. cbv beta. rewrite E1. by rewrite <- E2.
  - destruct (encode_low j Hj) as [Hr Hm]. rewrite Hl in Hm. simpl in Hm. exists (encode j).
    split; [|by rewrite ldst_decodes, Hc]. rewrite Ht. unfold is_pseudo_ins, transformed_inst_size.
    rewrite land_2. destruct (Z.eqb_spec (ldst_len i) 4) as [E|E].
    + rewrite Z.sub_0_r, Hm, E, lor_2_set by done.
      by rewrite !(proj2 (Z.eqb_neq (encode j) _)) by (intros Hx; rewrite Hx in Hm; done).
    + assert ((encode j - 2) mod 4 = 1) as Hm1 by (Z.div_mod_to_equations; lia).
      rewrite Hm1, lor_2, Z.sub_add by done. assert (ldst_len i = 2) as -> by (by destruct i).
      by rewrite !(proj2 (Z.eqb_neq (encode j - 2) _)) by (intros Hx; rewrite Hx in Hm1; done).
Qed.

(** C27. One of the loads and stores of a RISC-V guest that the decoder knows ([ldst]: LB, LH, LW, LD, LBU, LHU, LWU, SB, SH,
    SW, SD, C.LW and C.SW with any registers and offset; not C.LD, C.SD, floating point or atomics), at an address of one of its
    VM's register devices, whichever way the hypervisor gets to know the instruction (fetched at the even program counter
    when HTINST is zero, or transformed in HTINST), makes one access to that device, with the
    width and direction of the instruction and the faulting address, moves the value from or to the place of the instruction's register
    in the frame of the trap (for x0, which the frame has a place for, too), and continues after the instruction, which is two
    or four bytes long. *)
Theorem ldst_fault_emulated ds devs lo hi fetch htval stval htinst i (m : Mach D) :
  push_emu_devs ds = Some devs -> register_device lo hi ∈ ds -> ldst_ok i -> told fetch (elr m) htinst i ->
  let a := usize (shlw 64 htval 2 + Z.land stval 3) in
  lo <= a < hi ->
  ldst_guest_page_fault_handler devs fetch htval stval htinst m =
    Ret tt (with_elr (usize (elr m + ldst_len i)) (access (at_address a (ldst_ctx i)) m)).
Proof.
  intros Hpush Hin Hok Ht a Ha. destruct (fault_inst_told fetch htinst i m Hok Ht) as (x & E & Ed).
  unfold ldst_guest_page_fault_handler. fold a. rewrite (m_bind_Ret _ _ _ _ _ E). cbv beta. cbn [fst snd]. rewrite Ed.
  eapply m_bind_Ret_r; [reflexivity|]. cbv beta.
  eapply m_bind_Ret_r; [eapply (emu_handler_device ds); [exact Hpush|exact Hin|exact Ha|]|].
  { destruct i; simpl in *; destruct_and!; lia. }
  cbn [negb]. eapply m_bind_Ret_r; [reflexivity|]. by rewrite access_elr.
Qed.

(** *** What falls through *)

(** Compressed double-word accesses (C.LD, C.SD) and the floating-point ones are not decoded: a guest that touches a device
    with one of them panics the hypervisor. *)
Lemma compressed_double_refused x f : f = 3 \/ f = 7 -> 0 <= x < 2048 -> inst_ldst_decode (x * 4 + f * 8192) = None.
Proof.
  intros Hf Hx. assert (forallb (fun x => match inst_ldst_decode (x * 4 + 3 * 8192), inst_ldst_decode (x * 4 + 7 * 8192) with
      | None, None => true | _, _ => false end) (zrange 0 2048) = true) as Hall by (vm_compute; reflexivity).
  rewrite forallb_forall in Hall. specialize (Hall x). rewrite <- list_elem_of_In, zrange_elem in Hall.
  specialize (Hall ltac:(lia)). destruct Hf as [->| ->]; repeat case_match; done.
Qed.

Lemma undecoded_panics devs fetch htval stval htinst x n (m : Mach D) :
  fault_inst fetch htinst m = Ret (x, n) m -> inst_ldst_decode x = None ->
  ldst_guest_page_fault_handler devs fetch htval stval htinst m = Fault ExplicitPanic.
Proof.
  intros E Ed. unfold ldst_guest_page_fault_handler. rewrite (m_bind_Ret _ _ _ _ _ E). cbn [fst]. by rewrite Ed.
Qed.

(** The zero register is a slot of the frame like the others: a load into it fills the slot, and the next store from it
    writes that value. *)
Lemma zero_register_not_zero a b w w' u rs1 imm rs1' h l (m : Mach D) :
  0 < zlen (gprs m) ->
  let load := at_address a (ldst_ctx (ILoad w u 0 rs1 imm)) in
  let store := at_address b (ldst_ctx (IStore w' 0 rs1' h l)) in
  let p := dev_read a (2 ^ w) (dev m) in
  dev (access store (access load m)) = dev_write b (2 ^ w') p.1 p.2.
Proof. intros Hl load store p. unfold access, reg_value. simpl. by rewrite zget_zset_eq by lia. Qed.
End riscv.

(** ** A data abort of AArch64 *)

(** The syndrome: class, instruction length, and the fields of an abort with a valid syndrome. *)
Record abort := mkAbort { il : Z; isv : Z; sas : Z; sse : Z; srt : Z; sf : Z; s1ptw : Z; wnr : Z; dfsc : Z; other : Z }.
(** [other]: bits 8 to 14, which the hypervisor does not read here, bit 10 apart. *)
Definition abort_ok (s : abort) : Prop :=
  0 <= il s < 2 /\ 0 <= isv s < 2 /\ 0 <= sas s < 4 /\ 0 <= sse s < 2 /\ 0 <= srt s < 32 /\ 0 <= sf s < 2 /\ 0 <= s1ptw s < 2 /\
  0 <= wnr s < 2 /\ 0 <= dfsc s < 64 /\ 0 <= other s < 128.
Definition syndrome (s : abort) : Z :=
  dfsc s + wnr s * 64 + s1ptw s * 128 + other s * 256 + sf s * 32768 + srt s * 65536 + sse s * 2097152 + sas s * 4194304 +
  isv s * 16777216 + il s * 33554432 + 0x24 * 67108864.

(** The test that an abort can be handled never fails: it complements the word bit by bit where the bit is meant. *)
Lemma every_abort_handleable esr : exception_data_abort_handleable esr = true.
Proof.
  unfold exception_data_abort_handleable. apply negb_true_iff, Z.eqb_neq. intros H0.
  assert (Z.testbit (Z.lor (notw 64 (Z.land (exception_iss esr) (Z.shiftl 1 10))) (Z.land (exception_iss esr) (Z.shiftl 1 24))) 0 = true) as Hb.
  { rewrite Z.lor_spec, notw_testbit, Z.land_spec by lia. change (Z.testbit (Z.shiftl 1 10) 0) with false. by rewrite andb_false_r. }
  rewrite H0 in Hb. by rewrite Z.testbit_0_l in Hb.
Qed.

(** The fields of the syndrome, as the hypervisor takes them apart. *)
Lemma testm_bit_of x n b : 0 <= n -> (x / 2 ^ n) mod 2 = b -> 0 <= b < 2 -> testm x (Z.shiftl 1 n) = (b =? 1).
Proof.
  intros Hn Hx Hb. rewrite testm_bit by done. rewrite <- Z.testbit_spec' in Hx by done.
  destruct (Z.testbit x n); simpl in Hx; subst b; done.
Qed.

Lemma syndrome_fields s : abort_ok s ->
  exception_class (syndrome s) = 0x24 /\ exception_next_instruction_step (syndrome s) = 2 + 2 * il s /\
  exception_data_abort_access_width (syndrome s) = 2 ^ sas s /\
  exception_data_abort_access_is_write (syndrome s) = (wnr s =? 1) /\
  exception_data_abort_access_is_sign_ext (syndrome s) = (sse s =? 1) /\
  exception_data_abort_access_reg (syndrome s) = srt s /\
  exception_data_abort_access_reg_width (syndrome s) = 4 + 4 * sf s /\
  Z.land (exception_iss (syndrome s)) 0x3f = dfsc s.
Proof.
  intros (Hil & Hisv & Hsas & Hsse & Hsrt & Hsf & Hp & Hw & Hd & Ho).
  assert (exception_iss (syndrome s) = dfsc s + wnr s * 64 + s1ptw s * 128 + other s * 256 + sf s * 32768 + srt s * 65536 +
    sse s * 2097152 + sas s * 4194304 + isv s * 16777216) as Eiss.
  { unfold exception_iss. rewrite land_low by lia. change (2 ^ 25) with 33554432. unfold syndrome. Z.div_mod_to_equations; lia. }
  unfold exception_class, exception_next_instruction_step, exception_data_abort_access_width, exception_data_abort_access_is_write,
    exception_data_abort_access_is_sign_ext, exception_data_abort_access_reg, exception_data_abort_access_reg_width.
  rewrite Eiss. set (iss := dfsc s + _ + _ + _ + _ + _ + _ + _ + _).
  assert (forall x, Z.land x 1 = x mod 2) as H1 by (intros x; change 1 with (Z.ones 1) at 1; by rewrite land_low by lia).
  assert (forall x, Z.land x 0x3f = x mod 64) as H63 by (intros x; change 0x3f with (Z.ones 6); by rewrite land_low by lia).
  split_and!.
  - rewrite H63, Z.shiftr_div_pow2 by lia. change (2 ^ 26) with 67108864. unfold syndrome. Z.div_mod_to_equations; lia.
  - rewrite H1, Z.shiftr_div_pow2 by lia. change (2 ^ 25) with 33554432. do 2 f_equal. unfold syndrome. Z.div_mod_to_equations; lia.
  - rewrite mod4_land, !Z.shiftr_div_pow2, Z.shiftl_1_l by lia. change (2 ^ 22) with 4194304. f_equal.
    unfold iss. Z.div_mod_to_equations; lia.
  - apply testm_bit_of; [lia| |lia]. change (2 ^ 6) with 64. unfold iss. Z.div_mod_to_equations; lia.
  - rewrite H1, Z.shiftr_div_pow2 by lia. change (2 ^ 21) with 2097152.
    assert ((iss / 2097152) mod 2 = sse s) as -> by (unfold iss; Z.div_mod_to_equations; lia).
    assert (sse s = 0 \/ sse s = 1) as [->| ->] by lia; done.
  - fields. change (2 ^ 16) with 65536. unfold iss. Z.div_mod_to_equations; lia.
  - rewrite H1, Z.shiftr_div_pow2 by lia. change (2 ^ 15) with 32768. do 2 f_equal. unfold iss. Z.div_mod_to_equations; lia.
  - rewrite H63. unfold iss. Z.div_mod_to_equations; lia.
Qed.

Section aarch64.
Context {D : Type} `{RegDevice D}.

Lemma data_abort_runs ds devs lo hi translate s far hpfar smc hvc regs vm_id (m : Mach D) :
  push_emu_devs ds = Some devs -> register_device lo hi ∈ ds -> abort_ok s -> 4 <= dfsc s < 8 ->
  let a := Z.lor (Z.land far 0xfff) (shlw 64 hpfar 8) in
  lo <= a < hi ->
  lower_aarch64_synchronous devs translate smc hvc regs vm_id (syndrome s) far hpfar m =
    Ret tt (with_elr (usize (elr m + (2 + 2 * il s)))
      (access (mkEmu a (2 ^ sas s) (wnr s =? 1) (sse s =? 1) (srt s) (4 + 4 * sf s)) m)).
Proof.
  intros Hpush Hin Hok Hd a Ha. pose proof Hok as (_ & _ & _ & _ & Hsrt & _).
  destruct (syndrome_fields s Hok) as (F1 & F2 & F3 & F4 & F5 & F6 & F7 & F8).
  unfold lower_aarch64_synchronous. rewrite F1. cbn [Z.eqb Pos.eqb]. unfold data_abort_handler.
  rewrite (m_bind_Ret get_elr _ m (elr m) m eq_refl), every_abort_handleable. cbn [negb].
  unfold exception_data_abort_is_translate_fault. rewrite F8.
  assert (Z.land (dfsc s) (Z.shiftl 15 2) = 4) as E4.
  { assert (dfsc s = 4 \/ dfsc s = 5 \/ dfsc s = 6 \/ dfsc s = 7) as [->|[->|[->| ->]]] by lia; done. }
  rewrite E4. cbn [Z.eqb Pos.eqb negb].
  assert (abort_context translate (syndrome s) far hpfar =
    mkEmu a (2 ^ sas s) (wnr s =? 1) (sse s =? 1) (srt s) (4 + 4 * sf s)) as ->.
  { unfold abort_context, exception_fault_addr, exception_data_abort_is_permission_fault.
    by rewrite F3, F4, F5, F6, F7, F8, E4, andb_false_r. }
  eapply m_bind_Ret_r; [eapply (emu_handler_device ds); [exact Hpush|exact Hin|exact Ha|simpl; lia]|].
  cbn [negb]. by rewrite F2.
Qed.

(** A data abort of an AArch64 guest at an address of one of its VM's register devices, for a translation fault at any
    level, makes one access to that device, of the width, direction and register the syndrome says, at the page of the
    intermediate address and the offset of the virtual one, and continues after the instruction.  The valid bit of the
    syndrome has no part in it: where it is clear, and the fields are zero, a byte moves from or to register 0. *)
Theorem data_abort_emulated ds devs lo hi translate s far hpfar smc hvc regs vm_id (m : Mach D) :
  push_emu_devs ds = Some devs -> register_device lo hi ∈ ds -> abort_ok s -> 4 <= dfsc s < 8 ->
  let a := Z.lor (Z.land far 0xfff) (shlw 64 hpfar 8) in
  lo <= a < hi ->
  lower_aarch64_synchronous devs translate smc hvc regs vm_id (syndrome s) far hpfar m =
    Ret tt (with_elr (usize (elr m + (2 + 2 * il s)))
      (access (mkEmu a (2 ^ sas s) (wnr s =? 1) (sse s =? 1) (srt s) (4 + 4 * sf s)) m)).
Proof. apply data_abort_runs. Qed.

(** An access without a valid syndrome, such as a load of a pair: as a byte, from or to register 0. *)
Lemma invalid_syndrome_is_byte_of_x0 ds devs lo hi translate s far hpfar smc hvc regs vm_id (m : Mach D) :
  push_emu_devs ds = Some devs -> register_device lo hi ∈ ds -> abort_ok s -> 4 <= dfsc s < 8 ->
  isv s = 0 -> sas s = 0 -> sse s = 0 -> srt s = 0 -> sf s = 0 ->
  let a := Z.lor (Z.land far 0xfff) (shlw 64 hpfar 8) in
  lo <= a < hi ->
  lower_aarch64_synchronous devs translate smc hvc regs vm_id (syndrome s) far hpfar m =
    Ret tt (with_elr (usize (elr m + (2 + 2 * il s))) (access (mkEmu a 1 (wnr s =? 1) false 0 4) m)).
Proof.
  intros Hpush Hin Hok Hd _ H1 H2 H3 H4 a Ha. rewrite (data_abort_runs ds devs lo hi) by done. by rewrite H1, H2, H3, H4.
Qed.

(** *** System registers *)

(** Registered addresses stay distinct, and the first registration of an address holds. *)
Definition find_reg (l : list (EmuRegEntry D)) (a : Z) : option (EmuRegEntry D) := List.find (fun e => addr e =? a) l.

Lemma find_reg_app l e a : find_reg (l ++ [e]) a = match find_reg l a with Some x => Some x | None => if addr e =? a then Some e else None end.
Proof. unfold find_reg. induction l as [|x l IH]; simpl; [done|]. by destruct (addr x =? a). Qed.

Lemma register_reg_find l a h b :
  find_reg (emu_register_reg l a h) b =
    match find_reg l b with Some e => Some e | None => if a =? b then Some (mkReg a h) else None end.
Proof.
  unfold emu_register_reg. destruct (existsb _ l) eqn:E; [|by rewrite find_reg_app].
  destruct (find_reg l b) eqn:Ef; [done|]. destruct (Z.eqb_spec a b) as [->|]; [|done].
  apply existsb_exists in E as (e & He & Hb). unfold find_reg in Ef. pose proof (List.find_none _ _ Ef e He) as Hn. simpl in Hn.
  apply Z.eqb_eq in Hb. subst b. by rewrite Z.eqb_refl in Hn.
Qed.

(** The syndrome of a trapped MSR or MRS: the five numbers of the register, the general register and the direction. *)
Definition sysreg_key (op0 op1 crn crm op2 : Z) : Z := crm * 2 + crn * 1024 + op1 * 16384 + op2 * 131072 + op0 * 1048576.
Definition sysreg_iss (op0 op1 crn crm op2 rt dir : Z) : Z := dir + rt * 32 + sysreg_key op0 op1 crn crm op2.
Definition sysreg_ok (op0 op1 crn crm op2 rt dir : Z) : Prop :=
  0 <= op0 < 4 /\ 0 <= op1 < 8 /\ 0 <= crn < 16 /\ 0 <= crm < 16 /\ 0 <= op2 < 8 /\ 0 <= rt < 32 /\ 0 <= dir < 2.

(** Fields that do not meet: their union is the sum. *)
Lemma lor_disjoint x y n m : 0 <= m <= n -> 0 <= y -> y * 2 ^ m < 2 ^ n ->
  Z.lor (Z.shiftl x n) (Z.shiftl y m) = x * 2 ^ n + y * 2 ^ m.
Proof.
  intros Hm Hy Hb. assert (Z.land (Z.shiftl x n) (Z.shiftl y m) = 0) as H0.
  { apply Z.bits_inj'. intros j Hj. rewrite Z.land_spec, Z.testbit_0_l. destruct (Z.ltb_spec j n).
    - by rewrite Z.shiftl_spec, (Z.testbit_neg_r _ (j - n)) by lia.
    - assert (2 ^ n <= 2 ^ j) by (apply Z.pow_le_mono_r; lia).
      assert (Z.testbit (Z.shiftl y m) j = false) as ->; [|by rewrite andb_false_r].
      rewrite Z.shiftl_mul_pow2, Z.testbit_false, Z.div_small by (lia || nia). done. }
  rewrite <- (Z.lxor_lor _ _ H0), <- (Z.add_nocarry_lxor _ _ H0), !Z.shiftl_mul_pow2 by lia. done.
Qed.

Lemma sysreg_fields op0 op1 crn crm op2 rt dir : sysreg_ok op0 op1 crn crm op2 rt dir ->
  let iss := sysreg_iss op0 op1 crn crm op2 rt dir in
  exception_sysreg_addr iss = sysreg_key op0 op1 crn crm op2 /\ exception_sysreg_gpr iss = rt /\
  exception_sysreg_direction_write iss = (dir =? 0).
Proof.
  intros (H0 & H1 & Hn & Hm & H2 & Ht & Hd) iss. split_and!.
  - unfold exception_sysreg_addr. rewrite Z.land_lor_distr_r.
    assert (forall x n k, 0 <= n -> 0 <= k -> Z.land x (Z.shiftl (Z.ones n) k) = Z.shiftl (Z.land (Z.shiftr x k) (Z.ones n)) k) as Hs.
    { intros x n k Hn0 Hk. apply Z.bits_inj'. intros j Hj. rewrite Z.land_spec, !Z.shiftl_spec by lia.
      destruct (Z.leb_spec k j); [rewrite Z.land_spec, Z.shiftr_spec, Z.sub_add by lia; done|].
      by rewrite !(Z.testbit_neg_r _ (j - k)), andb_false_r by lia. }
    change 0xfff with (Z.ones 12). change 0xf with (Z.ones 4). rewrite !Hs, !land_low, !Z.shiftr_div_pow2 by lia.
    change (2 ^ 10) with 1024. change (2 ^ 12) with 4096. change (2 ^ 1) with 2. change (2 ^ 4) with 16.
    assert ((iss / 1024) mod 4096 = crn + op1 * 16 + op2 * 128 + op0 * 1024) as ->
      by (unfold iss, sysreg_iss, sysreg_key; Z.div_mod_to_equations; lia).
    assert ((iss / 2) mod 16 = crm) as -> by (unfold iss, sysreg_iss, sysreg_key; Z.div_mod_to_equations; lia).
    set (hi := crn + op1 * 16 + op2 * 128 + op0 * 1024). rewrite lor_disjoint by lia.
    unfold sysreg_key, hi. lia.
  - unfold exception_sysreg_gpr. fields. change (2 ^ 5) with 32. unfold iss, sysreg_iss, sysreg_key. Z.div_mod_to_equations; lia.
  - unfold exception_sysreg_direction_write. change 1 with (Z.ones 1) at 1. rewrite land_low by lia. change (2 ^ 1) with 2. f_equal.
    unfold iss, sysreg_iss, sysreg_key. Z.div_mod_to_equations; lia.
Qed.

(** A trapped access to a registered system register runs its handler, with the register and the direction of the
    instruction, and continues after the instruction when the handler accepts it. *)
Lemma sysreg_emulated regs vm_id esr op0 op1 crn crm op2 rt dir h (m : Mach D) :
  sysreg_ok op0 op1 crn crm op2 rt dir -> find_reg regs (sysreg_key op0 op1 crn crm op2) = Some (mkReg (sysreg_key op0 op1 crn crm op2) h) ->
  sysreg_handler regs vm_id esr (sysreg_iss op0 op1 crn crm op2 rt dir) m =
    match h vm_id (mkEmu (sysreg_key op0 op1 crn crm op2) 8 (dir =? 0) false rt 8) m with
    | Ret true m' => Ret tt (with_elr (usize (elr m + exception_next_instruction_step esr)) m')
    | Ret false _ => Fault ExplicitPanic
    | Fault f => Fault f
    end.
Proof.
  intros Hok Hf. destruct (sysreg_fields op0 op1 crn crm op2 rt dir Hok) as (E1 & E2 & E3).
  unfold sysreg_handler. rewrite (m_bind_Ret get_elr _ m (elr m) m eq_refl), E1, E2, E3. unfold emu_reg_handler. simpl address.
  change (List.find _ regs) with (find_reg regs (sysreg_key op0 op1 crn crm op2)). rewrite Hf. unfold m_bind. simpl.
  by destruct (h _ _ m) as [[] ?|].
Qed.
End aarch64.

(** ** Witnesses *)

(** Devices that are one register. *)
#[local] Instance demo_reg : RegDevice Z := {
  dev_read := fun _ _ d => (d, d);
  dev_write := fun _ _ v _ => v;
}.
Definition demo_devs : list (EmuDev Z) := [register_device 0xc000000 0x10000000; register_device 0x10001000 0x10002000].

(** [lwu t0, 8(a0)]. *)
Lemma ldst_decode_encode_witness :
  encode (ILoad 2 true 5 10 8) = 0x00856283 /\ inst_ldst_decode 0x00856283 = Some (mkEmu 0 4 false false 5 8).
Proof. split; [reflexivity|]. apply (ldst_decode_encode (ILoad 2 true 5 10 8)). simpl. lia. Defined.

(** [c.sw a2, 0(a0)], which HTINST reports as [sw a2, 0] with bit 1 clear, at an address of the second device. *)
Definition demo_mach : Mach Z := mkMach (zset (replicate 32 0) 12 0x55) 0x80200000 7.

Lemma ldst_fault_emulated_witness :
  ldst_guest_page_fault_handler demo_devs (fun _ => 0) 0x4000404 0 0xc02021 demo_mach =
    Ret tt (mkMach (gprs demo_mach) 0x80200002 0x55).
Proof.
  rewrite (ldst_fault_emulated demo_devs demo_devs 0x10001000 0x10002000 (fun _ => 0) 0x4000404 0 0xc02021 (CSw 4 2 0 0) demo_mach).
  - reflexivity.
  - reflexivity.
  - right. left.
  - simpl. lia.
  - apply (TInst _ _ _ _ (IStore 2 12 0 0 0)); [simpl; lia|reflexivity|reflexivity|reflexivity].
  - vm_compute. split; congruence.
Defined.

(** [ldr w3, [x1]]: a word, register 3, translation fault at level 3. *)
Definition demo_abort : abort := mkAbort 1 1 2 0 3 0 0 0 7 0.

Lemma data_abort_emulated_witness :
  lower_aarch64_synchronous demo_devs (fun _ => 0) (m_ret tt) (m_ret tt) [] 1 (syndrome demo_abort) 0xffff000000001004 0x100010
    (mkMach (replicate 31 0) 0x40080000 7) = Ret tt (mkMach (zset (replicate 31 0) 3 7) 0x40080004 7).
Proof.
  rewrite (data_abort_emulated demo_devs demo_devs 0x10001000 0x10002000 (fun _ => 0) demo_abort 0xffff000000001004 0x100010).
  - reflexivity.
  - reflexivity.
  - right. left.
  - repeat split; simpl; lia.
  - simpl. lia.
  - vm_compute. split; congruence.
Defined.
