(* ===== verification/Boards.v ===== *)
(** * Boards: the platforms the hypervisor is built for, and the manager VM of each

    The constants of a board ([board/]) and the configuration of VM 0 that goes with it ([config/rk3588_def.rs], [qemu_def.rs],
    [qemu_riscv64_def.rs]); features of the build are parameters.  [Config] is the table the configuration enters, [VmmInit] what
    is built from it. *)
From Stdlib Require Import String Ascii.
From stdpp Require Import list.
From S2P Require Import Prelude Config.
From S2P Require Interval Vm Emu MemRegion.

(** The bytes of a string literal. *)
Definition bytes (s : string) : list Z := (fun c => Z.of_N (N_of_ascii c)) <$> list_ascii_of_string s.

(** ** Descriptions of boards *)

(** src: board/platform_common.rs 14-19 [SchedRule] *)
Inductive SchedRule := RoundRobin | SchedNone.
(** src: board/platform_common.rs 22-25 [PlatMemRegion] *)
Record PlatMemRegion := mkMem { pm_base : Z; pm_size : Z }.
(** src: board/platform_common.rs 28-31 [PlatMemoryConfig] *)
Record PlatMemoryConfig := mkMemCfg { mem_base : Z; mem_regions : list PlatMemRegion }.
(** src: board/platform_common.rs 34-38 [PlatCpuCoreConfig] *)
Record PlatCpuCoreConfig := mkCore { core_name : Z; core_mpidr : Z; core_sched : SchedRule }.
(** src: board/platform_common.rs 48-51 [ClusterDesc] *)
Record ClusterDesc := mkCluster { cluster_num : Z; core_num : list Z }.
(** src: board/platform_common.rs 41-45 [PlatCpuConfig] *)
Record PlatCpuConfig := mkCpus { cpus_num : Z; core_list : list PlatCpuCoreConfig; cluster_desc : ClusterDesc }.
(** src: arch/aarch64/gicv3.rs 228-235 [GicDesc]
    Without the GICv3 there is no [gicr_addr]; it is 0 then. *)
Record GicDesc := mkGic { gicd_addr : Z; gicc_addr : Z; gich_addr : Z; gicv_addr : Z; gicr_addr : Z; maintenance_int_id : Z }.
(** src: arch/aarch64/smmu.rs 24-28 [SmmuDesc] *)
Record SmmuDesc := mkSmmu { smmu_base : Z; smmu_interrupt_id : Z; smmu_global_mask : Z }.
(** src: board/platform_common.rs 54-58 [PlatformConfig]
    With the fields of [ArchDesc]. *)
Record PlatformConfig := mkPlat { cpu_desc : PlatCpuConfig; mem_desc : PlatMemoryConfig; gic_desc : GicDesc; smmu_desc : SmmuDesc }.

(** src: board/platform_common.rs 61-101 [PlatOperation: constants]
    The defaults are [usize::MAX]. *)
Record PlatOperation := mkOps {
  UART_0_ADDR : Z; UART_1_ADDR : Z; UART_2_ADDR : Z; HYPERVISOR_UART_BASE : Z; UART_0_INT : Z; UART_1_INT : Z;
  GICD_BASE : Z; GICC_BASE : Z; GICH_BASE : Z; GICV_BASE : Z; GICR_BASE : Z;
}.
Definition usize_MAX : Z := 2 ^ 64 - 1.

Definition ARM_CORTEX_A57 : Z := 0.
Definition ARM_CORTEX_A55 : Z := 1.
Definition ARM_CORTEX_A76 : Z := 2.
Definition IRQ_GUEST_TIMER : Z := 27.

(** ** RK3588 *)

(** src: board/rk3588/platform.rs 21-38 [impl PlatOperation for Rk3588Platform] *)
Definition rk3588_platform : PlatOperation :=
  mkOps 0xfeb50000 0xfeba0000 usize_MAX 0xfeb50000 (32 + 0x12d) (32 + 0x134)
    0xfe600000 0xfe610000 0xfe620000 0xfe630000 0xfe680000.

(** src: board/rk3588/platform.rs 73-180 [PLAT_DESC] *)
Definition rk3588_plat_desc : PlatformConfig :=
  mkPlat
    (mkCpus 8
       [mkCore ARM_CORTEX_A55 0x81000000 RoundRobin; mkCore ARM_CORTEX_A55 0x81000100 RoundRobin;
        mkCore ARM_CORTEX_A55 0x81000200 RoundRobin; mkCore ARM_CORTEX_A55 0x81000300 RoundRobin;
        mkCore ARM_CORTEX_A76 0x81000400 RoundRobin; mkCore ARM_CORTEX_A76 0x81000500 RoundRobin;
        mkCore ARM_CORTEX_A76 0x81000600 RoundRobin; mkCore ARM_CORTEX_A76 0x81000700 RoundRobin]
       (mkCluster 3 [4; 2; 2]))
    (mkMemCfg 0x200000
       [mkMem 0x200000 0x8200000; mkMem 0x9400000 0x76c00000; mkMem 0x80000000 0x80000000;
        mkMem 0x100000000 0x80000000; mkMem 0x180000000 0x80000000])
    (mkGic 0xfe600000 0xfe610000 0xfe620000 0xfe630000 0xfe680000 25)
    (mkSmmu 0xfcb00000 0x17d 0).

(** src: config/rk3588_def.rs 82-155 [mvm_config_init: the emulated devices] *)
Definition rk3588_emu_dev_config : list VmEmulatedDeviceConfig :=
  [mkEmu (bytes "interrupt-controller@fe600000") (GICD_BASE rk3588_platform) 0x10000 25 [] EmuDeviceTGicd false;
   mkEmu (bytes "GICR@0xfe680000") (GICR_BASE rk3588_platform) 0x100000 25 [] EmuDeviceTGICR false;
   mkEmu (bytes "virtio_net@f0000000") 0xf0000000 0x1000 45 [0x74; 0x56; 0xaa; 0x0f; 0x47; 0xd0] EmuDeviceTVirtioNet false;
   mkEmu (bytes "virtio_console@f0001000") 0xf0001000 0x1000 46 [1; 0xf0140000] EmuDeviceTVirtioConsole false;
   mkEmu (bytes "virtio_console@f0002000") 0xf0002000 0x1000 47 [2; 0xf0011000] EmuDeviceTVirtioConsole false;
   mkEmu (bytes "vm_service") 0 0 (32 + 0x10) [] EmuDeviceTTinyvm false].

(** src: config/rk3588_def.rs 157-192 [mvm_config_init: the passthrough regions]
    [noeth]: the feature without Ethernet.  The iterator yields at most as many intervals as there are ends of ranges. *)
Definition rk3588_regions (noeth : bool) : option (list PassthroughRegion) :=
  pt ← Interval.add_range 0xfb000000 0x100000000 (Interval.mkIE []);
  pt ← (if noeth then Interval.exclude_len 0xfe1c0000 0x10000 pt else Some pt);
  pt ← Interval.exclude_len 0xfe600000 0x10000 pt;
  pt ← Interval.exclude_len 0xfe680000 0x100000 pt;
  pt ← Interval.exclude_range 0xfeb40000 0xfebc0000 pt;
  l ← Interval.collect (S (length (Interval.inner pt))) (Interval.into_iter pt);
  Some (((fun t => mkPt (Interval.left t) (Interval.left t) (Interval.interval_len t) true) <$> l) ++
    [mkPt 0xfeb50000 0xfeb50000 0x100 true; mkPt 0xfeba0000 0xfeba0000 0x100 true; mkPt 0 0 0x9400000 false;
     mkPt 0xa41000000 0xa41000000 0x400000 true; mkPt 0xa40c00000 0xa40c00000 0x400000 true;
     mkPt 0xf4000000 0xf4000000 0x1000000 true; mkPt 0xf3000000 0xf3000000 0x1000000 true]).

(** src: config/rk3588_def.rs 194-296 [mvm_config_init: the passthrough interrupts] *)
Definition rk3588_irqs (noeth : bool) : list Z :=
  [20; 23; 26; IRQ_GUEST_TIMER; 30; 105; 118; 119; 120; 121; 122; 123; 124; 125; 126; 127; 128; 129; 130; 131; 132; 133; 134; 135; 136; 140; 141; 142; 143;
   144; 146; 145; 147; 148; 149; 150; 151; 153; 154; 155; 156; 157; 158; 159; 160; 161; 162; 179; 180; 187; 188; 192; 193; 199; 201; 203; 204;
   212; 217; 235; 237; 247; 248; 250; 251; 252; 254] ++
  (if noeth then [] else [265; 266]) ++
  [275; 276; 277; 278; 279; 280; 281; 282; 283; 284; 285; 321; 347; 349; 351; 352; 353; 355; 356; 359; 360; 365; 370; 384; 423; 424; 425;
   429; 430; 455].

(** src: config/rk3588_def.rs 300-338 [mvm_config_init: the entry] *)
Definition rk3588_mvm_entry (noeth : bool) : option VmConfigEntry :=
  rs ← rk3588_regions noeth;
  Some (mkEntry 0 (bytes "RK3588") VmTOs
    (bytes "earlycon=uart8250,mmio32,0xfeb50000 console=ttyFIQ,9600n8 irqchip.gicv3_pseudo_nmi=0 root=/dev/mmcblk0p6 rootfstype=ext4 rootwait rw default_hugepagesz=32M hugepagesz=32M hugepages=4")
    (mkImage 0x10080000 0x10080000 0x10000000 0 None) [mkRegion 0x09400000 0x76c00000] (Vm.mkCpuCfg 1 1 None)
    rk3588_emu_dev_config (mkPtCfg rs (rk3588_irqs noeth) []) [] []).

(** ** QEMU, AArch64 *)

(** src: board/qemu/platform.rs 22-41 [impl PlatOperation for QemuPlatform] *)
Definition qemu_platform (gicv3 : bool) : PlatOperation :=
  mkOps 0x9000000 0x9100000 0x9110000 0x9000000 (32 + 0x70) (32 + 0x72)
    0x08000000 0x08010000 0x08030000 0x08040000 (if gicv3 then 0x080a0000 else 0).

(** src: board/qemu/platform.rs 76-144 [PLAT_DESC] *)
Definition qemu_plat_desc (gicv3 : bool) : PlatformConfig :=
  mkPlat
    (mkCpus 4
       [mkCore ARM_CORTEX_A57 0 RoundRobin; mkCore ARM_CORTEX_A57 1 RoundRobin; mkCore ARM_CORTEX_A57 2 RoundRobin;
        mkCore ARM_CORTEX_A57 3 RoundRobin]
       (mkCluster 1 [4]))
    (mkMemCfg 0x40000000 [mkMem 0x40000000 0x08000000; mkMem 0x50000000 0x1f0000000])
    (mkGic 0x08000000 0x08010000 0x08030000 0x08040000 (if gicv3 then 0x080a0000 else 0) 25)
    (mkSmmu 0 0 0).

(** src: config/qemu_def.rs 26-76 [mvm_config_init: the emulated devices] *)
Definition qemu_emu_dev_config (gicv3 : bool) : list VmEmulatedDeviceConfig :=
  let P := qemu_platform gicv3 in
  [mkEmu (bytes "vgicd") (GICD_BASE P) (if gicv3 then 0x10000 else 0x1000) 25 [] EmuDeviceTGicd false] ++
  (if gicv3 then [mkEmu (bytes "vgicr") (GICR_BASE P) 0xf60000 25 [] EmuDeviceTGICR false] else []) ++
  [mkEmu (bytes "virtio-nic0") 0xa001000 0x1000 (32 + 0x11) [0x74; 0x56; 0xaa; 0x0f; 0x47; 0xd0] EmuDeviceTVirtioNet false;
   mkEmu (bytes "virtio_console@a002000") 0xa002000 0x1000 (32 + 0x12) [1; 0xa002000] EmuDeviceTVirtioConsole false;
   mkEmu (bytes "tinyvm") 0 0 (32 + 0x20) [] EmuDeviceTTinyvm false].

(** src: config/qemu_def.rs 79-91 [mvm_config_init: the passthrough devices] *)
Definition qemu_pt_dev_config (gicv3 : bool) : VmPassthroughDeviceConfig :=
  let P := qemu_platform gicv3 in
  mkPtCfg
    ([mkPt (UART_0_ADDR P) (UART_0_ADDR P) 0x1000 true] ++
     (if gicv3 then [mkPt 0x8080000 0x8080000 0x20000 true] else [mkPt (GICC_BASE P) (GICV_BASE P) 0x2000 true]) ++
     [mkPt 0x0a003000 0x0a003000 0x1000 true])
    [33; 27; 72; 73; 74; 75; 76; 77; 78; 79] [].

(** src: config/qemu_def.rs 94-126 [mvm_config_init: the entry] *)
Definition qemu_mvm_entry (gicv3 : bool) : VmConfigEntry :=
  mkEntry 0 (bytes "supervisor") VmTOs
    (bytes "earlycon console=ttyAMA0 root=/dev/vda rw audit=0 default_hugepagesz=32M hugepagesz=32M hugepages=4" ++ [0])
    (mkImage 0x80080000 0x80080000 0x80000000 0 None) [mkRegion 0x50000000 0x80000000] (Vm.mkCpuCfg 1 1 None)
    (qemu_emu_dev_config gicv3) (qemu_pt_dev_config gicv3) [] [].

(** ** QEMU, RISC-V *)

(** src: board/qemu_riscv64/platform.rs 76-144 [PLAT_DESC] *)
Definition qemu_riscv64_plat_desc : PlatformConfig :=
  mkPlat
    (mkCpus 4 [mkCore 0 0 RoundRobin; mkCore 0 1 RoundRobin; mkCore 0 2 RoundRobin; mkCore 0 3 RoundRobin] (mkCluster 1 [4]))
    (mkMemCfg 0x80000000 [mkMem 0x80200000 0x08000000; mkMem 0x90000000 0x1f0000000])
    (mkGic 0 0 0 0 0 0) (mkSmmu 0 0 0).

(** src: config/qemu_riscv64_def.rs 24-93 [mvm_config_init: the emulated devices]
    [plic], [aia]: the features. *)
Definition qemu_riscv64_emu_dev_config (plic aia : bool) : list VmEmulatedDeviceConfig :=
  (if plic then [mkEmu (bytes "plic") 0xc000000 0x600000 0 [] EmuDeviceTPlic false] else []) ++
  (if aia then [mkEmu (bytes "aplic") 0xd000000 0x8000 0 [] EmuDeviceTAPlic false] else []) ++
  [mkEmu (bytes "virtio_console@40001000") 0x40001000 0x1000 66 [1; 0x40001000] EmuDeviceTVirtioConsole false;
   mkEmu (bytes "virtio_console@40002000") 0x40002000 0x1000 67 [2; 0x40002000] EmuDeviceTVirtioConsole false;
   mkEmu (bytes "virtio_net@40003000") 0x40003000 0x1000 68 [0x74; 0x56; 0xaa; 0x0f; 0x47; 0xd0] EmuDeviceTVirtioNet false;
   mkEmu (bytes "tinyvm") 0 0 69 [] EmuDeviceTTinyvm false].

(** src: config/qemu_riscv64_def.rs 96-114 [mvm_config_init: the passthrough devices] *)
Definition qemu_riscv64_pt_dev_config : VmPassthroughDeviceConfig :=
  mkPtCfg
    [mkPt 0x10001000 0x10001000 0x1000 true; mkPt 0x10002000 0x10002000 0x1000 true; mkPt 0x10003000 0x10003000 0x1000 true;
     mkPt 0x10004000 0x10004000 0x1000 true; mkPt 0x10005000 0x10005000 0x1000 true; mkPt 0x10006000 0x10006000 0x1000 true;
     mkPt 0x10007000 0x10007000 0x1000 true; mkPt 0x10008000 0x10008000 0x1000 true; mkPt 0x10000000 0x10000000 0x1000 true;
     mkPt 0x101000 0x101000 0x1000 true]
    [1; 2; 3; 4; 5; 6; 7; 8; 9; 10; 11] [].

(** src: config/qemu_riscv64_def.rs 117-155 [mvm_config_init: the entry] *)
Definition qemu_riscv64_mvm_entry (plic aia : bool) : VmConfigEntry :=
  mkEntry 0 (bytes "supervisor") VmTOs
    (bytes "earlycon=sbi console=ttyS0 root=/dev/vda rw audit=0 default_hugepagesz=2M hugepagesz=2M hugepages=10" ++ [0])
    (mkImage 0x90000000 0x90000000 0x180000000 0 None) [mkRegion 0x90000000 0x100000000] (Vm.mkCpuCfg 1 1 (Some 0))
    (qemu_riscv64_emu_dev_config plic aia) qemu_riscv64_pt_dev_config [] [].

(** ** All of them *)

(** A board with the features that matter here. *)
Inductive Target := Rk3588 (noeth : bool) | Qemu (gicv3 : bool) | QemuRiscv64 (plic aia : bool).

Definition aarch64_target (t : Target) : Prop := match t with QemuRiscv64 _ _ => False | _ => True end.

Definition PLAT_DESC (t : Target) : PlatformConfig :=
  match t with Rk3588 _ => rk3588_plat_desc | Qemu g => qemu_plat_desc g | QemuRiscv64 _ _ => qemu_riscv64_plat_desc end.
Definition mvm_entry (t : Target) : option VmConfigEntry :=
  match t with
  | Rk3588 noeth => rk3588_mvm_entry noeth
  | Qemu g => Some (qemu_mvm_entry g)
  | QemuRiscv64 plic aia => Some (qemu_riscv64_mvm_entry plic aia)
  end.

(** src: config/qemu_def.rs 21-128 [mvm_config_init]
    On every board alike; the name of the configuration is only printed. *)
Definition mvm_config_init (t : Target) : M CS unit :=
  let! e := m_opt ExplicitPanic (mvm_entry t) in
  let! _ := vm_cfg_add_vm_entry e in m_ret tt.

(** src: kernel/mem.rs 15-52 [mem_init]
    Of the platform's regions the first is the hypervisor's own; [mm/heap.rs] gives its heap what the image leaves of it. *)
Definition platform_vm_regions (t : Target) : M (list MemRegion.MemRegion) unit :=
  MemRegion.mem_vm_region_init ((fun r => (pm_base r, pm_size r)) <$> mem_regions (mem_desc (PLAT_DESC t))).
Definition hypervisor_region (t : Target) : PlatMemRegion := default (mkMem 0 0) (mem_regions (mem_desc (PLAT_DESC t)) !! O).

(** src: kernel/vm.rs 222-313 [VmInnerConst::init_devices: the devices]
    Whatever its type, a device has the addresses of its configuration; [handler] is what its constructor makes of that. *)
Definition init_emu_devs {D : Type} (handler : VmEmulatedDeviceConfig -> Emu.EmuContext -> M (Emu.Mach D) bool)
  (cfgs : list VmEmulatedDeviceConfig) : option (list (Emu.EmuDev D)) :=
  Emu.push_emu_devs ((fun c => Emu.mkDev (emu_base_ipa c) (usize (emu_base_ipa c + emu_length c)) (handler c)) <$> cfgs).
