(* ===== verification/BoardsSpec.v ===== *)
(** * BoardsSpec: the manager VM of each board

    On every AArch64 board the manager VM is set up without an overlap, its emulated devices are left to the traps, and its
    memory is there.  On QEMU it does not reach the hypervisor's memory; on RK3588 it does.  The platform's tables of cores
    are bijections. *)
From stdpp Require Import list.
From S2P Require Import Prelude Bits Bitmap PageTable PageTableSpec Stage2 VmmInit VmmInitSpec VmStage2 Boards.
From S2P Require GuestMem PtTree MemRegion Vm Config Emu EmuSpec Psci Sched.

Local Abbreviation len r := (Config.rg_length r).
Local Abbreviation ipa r := (Config.ipa_start r).

(** ** What is checked by computation *)

Definition mem_ranges (e : Config.VmConfigEntry) : list Range := (fun r => rng (r, 0)) <$> Config.memory e.
Definition pass_ranges (e : Config.VmConfigEntry) : list Range := pt_rng <$> Config.regions (Config.pt_dev e).
Definition frames_needed (e : Config.VmConfigEntry) : Z :=
  1 + 3 * total_spans (Config.memory e) + 3 * range_spans (pass_ranges e).

Section checks.
Context (lvl4 : bool) (e : Config.VmConfigEntry).

Definition region_fitsb (r : Config.VmRegion) : bool :=
  (0 <=? ipa r) && (ipa r mod 4096 =? 0) && (0 <? len r) && (len r mod 4096 =? 0) && (ipa r + len r <=? 2 ^ ia_bits lvl4).
Definition apartb (r r' : Config.VmRegion) : bool := (ipa r + len r <=? ipa r') || (ipa r' + len r' <=? ipa r).

Definition placement_ok : bool :=
  forallb region_fitsb (Config.memory e) && all_pairs apartb (Config.memory e) &&
  forallb (range_fitsb lvl4) (pass_ranges e) && forallb (fun r => 0 <? Config.pt_length r) (Config.regions (Config.pt_dev e)) &&
  all_pairs disjointb (mem_ranges e ++ pass_ranges e) && bool_decide (NoDup (Config.irqs (Config.pt_dev e))).

(** An emulated device is apart from everything that is mapped. *)
Definition device_apart (c : Config.VmEmulatedDeviceConfig) (r : Range) : bool :=
  (Config.emu_base_ipa c + Config.emu_length c <=? r_ipa r) || (r_ipa r + r_pages r * 4096 <=? Config.emu_base_ipa c).
Definition devices_apart : bool :=
  forallb (fun c => (0 <=? Config.emu_base_ipa c) && (Config.emu_base_ipa c + Config.emu_length c <=? 2 ^ 39) &&
                    forallb (device_apart c) (mem_ranges e ++ pass_ranges e)) (Config.emu_dev_list e).

Lemma placement_ready s : placement_ok = true -> heap_ok (supply (ipt s)) -> MemRegion.mem_wf (vm_region s) -> on_pages (vm_region s) ->
  Vm.pa_region (ivm s) = [] -> frames_needed e <= zlen (supply (ipt s)) -> ba_wf (glb s) ->
  Forall (unowned (glb s)) (Config.irqs (Config.pt_dev e)) -> placeable lvl4 (Config.memory e) (Config.pt_dev e) s.
Proof.
  unfold placement_ok. rewrite !andb_true_iff. intros (((((H1 & H2) & H3) & H4) & H5) & H6) Hh Hw Hp Hv Hf Hg Hu.
  assert (Forall (region_fits lvl4) (Config.memory e)) as F1.
  { eapply forallb_Forall; [|exact H1]. intros r. unfold region_fitsb, region_fits.
    rewrite !andb_true_iff, !Z.leb_le, !Z.ltb_lt, !Z.eqb_eq. tauto. }
  assert (Forall (range_fits lvl4) (pass_ranges e)) as F3 by (eapply forallb_Forall; [|exact H3]; apply range_fitsb_spec).
  unfold frames_needed in Hf. pose proof (range_spans_nonneg lvl4 _ F3). split; try done.
  - split; try done; [|lia]. eapply all_pairs_spec; [|exact H2]. intros r r'. unfold apartb, apart. by rewrite orb_true_iff, !Z.leb_le.
  - eapply forallb_Forall; [|exact H4]. intros r. by rewrite Z.ltb_lt.
  - eapply all_pairs_spec; [|exact H5]. apply disjointb_spec.
  - by apply bool_decide_eq_true in H6.
Qed.
End checks.

(** ** A hypervisor that has booted *)

(** The board's memory is given to the allocator, VM 0 is empty, its interrupts are nobody's, and there are frames. *)
Record booted (t : Target) (e : Config.VmConfigEntry) (s : VI) : Prop := {
  bt_entry : mvm_entry t = Some e;
  bt_heap : heap_ok (supply (ipt s));
  bt_frames : frames_needed e <= zlen (supply (ipt s));
  bt_regions : platform_vm_regions t [] = Ret tt (vm_region s);
  bt_vm : Vm.pa_region (ivm s) = [];
  bt_glb : ba_wf (glb s);
  bt_irqs : Forall (unowned (glb s)) (Config.irqs (Config.pt_dev e));
}.

Definition hypervisor_byte (t : Target) (a : Z) : Prop :=
  pm_base (hypervisor_region t) <= a < pm_base (hypervisor_region t) + pm_size (hypervisor_region t).

(** The tables of the boards, evaluated. *)
Definition one_region (e : Config.VmConfigEntry) : bool := (length (Config.memory e) =? 1)%nat.
Definition images_inside (e : Config.VmConfigEntry) : bool :=
  forallb (fun r => forallb (fun a => (ipa r <=? a) && (a <? ipa r + len r))
    [Config.kernel_load_ipa (Config.image e); Config.kernel_entry_point (Config.image e); Config.device_tree_load_ipa (Config.image e)])
    (Config.memory e).
Definition memory_found (t : Target) (e : Config.VmConfigEntry) : bool :=
  forallb (fun r => existsb (fun f => npages r <=? MemRegion.free f)
    match platform_vm_regions t [] with Ret _ l => l | Fault _ => [] end) (Config.memory e).
Definition board_ok (lvl4 : bool) (t : Target) : bool :=
  match mvm_entry t with
  | Some e => placement_ok lvl4 e && devices_apart e && one_region e && images_inside e && memory_found t e
  | None => false
  end.

Lemma boards_ok lvl4 t : aarch64_target t -> board_ok lvl4 t = true.
Proof. destruct t as [noeth|g|p a]; intros Ht; [|destruct g|destruct Ht]; destruct lvl4; try destruct noeth; vm_compute; reflexivity. Qed.

(** Regions of memory that are well-formed, as a test; [hv] is the hypervisor's own. *)
Definition region_okb (r : MemRegion.MemRegion) : bool :=
  (0 <? MemRegion.size r) && (MemRegion.free r =? MemRegion.size r) && (MemRegion.base r mod 4096 =? 0) &&
  (4096 <=? MemRegion.base r) && (MemRegion.base r + MemRegion.size r * 4096 <=? 2 ^ 48).
Definition regions_apartb (r r' : MemRegion.MemRegion) : bool :=
  (MemRegion.base r + MemRegion.size r * 4096 <=? MemRegion.base r') || (MemRegion.base r' + MemRegion.size r' * 4096 <=? MemRegion.base r).
Definition regions_okb (hv : PlatMemRegion) (l : list MemRegion.MemRegion) : bool :=
  forallb region_okb l && all_pairs regions_apartb l &&
  forallb (fun r => (pm_base hv + pm_size hv <=? MemRegion.base r) || (MemRegion.base r + MemRegion.size r * 4096 <=? pm_base hv)) l.

Lemma regions_apartb_spec r r' a : regions_apartb r r' = true -> MemRegion.in_region a r -> MemRegion.in_region a r' -> False.
Proof. unfold regions_apartb, MemRegion.in_region, MemRegion.PAGE_SIZE. rewrite orb_true_iff, !Z.leb_le. lia. Qed.

Lemma regions_okb_spec hv l : regions_okb hv l = true ->
  MemRegion.mem_wf l /\ on_pages l /\ forall a, MemRegion.free_byte l a -> ~ (pm_base hv <= a < pm_base hv + pm_size hv).
Proof.
  unfold regions_okb. rewrite !andb_true_iff. intros [[H1 H2] H3]. split; [split|split].
  - eapply forallb_Forall; [|exact H1]. intros r. unfold region_okb, MemRegion.region_ok, MemRegion.PAGE_SIZE.
    rewrite !andb_true_iff, !Z.leb_le, !Z.ltb_lt, !Z.eqb_eq. lia.
  - clear H1 H3. induction l as [|r l IH]; [done|]. simpl in *. apply andb_true_iff in H2 as [Hr Hl]. split; [|by apply IH].
    eapply forallb_Forall; [|exact Hr]. intros r' Hr' a. by apply regions_apartb_spec.
  - eapply forallb_Forall; [|exact H1]. intros r. unfold region_okb. rewrite !andb_true_iff, !Z.leb_le, !Z.eqb_eq. tauto.
  - intros a (r & Hr & _ & Ha) Hv. rewrite forallb_forall in H3. apply list_elem_of_In in Hr. specialize (H3 r Hr). simpl in H3.
    rewrite orb_true_iff, !Z.leb_le in H3. unfold MemRegion.in_region, MemRegion.PAGE_SIZE in Ha. lia.
Qed.

Definition vm_regions (t : Target) : list MemRegion.MemRegion := match platform_vm_regions t [] with Ret _ l => l | Fault _ => [] end.

Lemma regions_wf t : aarch64_target t ->
  MemRegion.mem_wf (vm_regions t) /\ on_pages (vm_regions t) /\ forall a, MemRegion.free_byte (vm_regions t) a -> ~ hypervisor_byte t a.
Proof.
  intros Ht. apply regions_okb_spec. destruct t as [noeth|g|]; [|destruct g|destruct Ht]; vm_compute; reflexivity.
Qed.

(** A VM with one region gets it when a free region is large enough. *)
Lemma init_memory_single lvl4 r s b s1 : MemRegion.mem_wf (vm_region s) -> on_pages (vm_region s) -> region_fits lvl4 r ->
  Exists (fun f => npages r <= MemRegion.free f) (vm_region s) -> vmm_init_memory lvl4 [r] s = Ret b s1 -> b = true.
Proof.
  intros Hw Hp Hr He E. destruct (fits_pages lvl4 r Hr) as (Hn & L & _).
  unfold vmm_init_memory in E. apply m_bind_inv in E as (o & s2 & E2 & E). unfold on_pt in E2.
  destruct (mem_page_alloc (ipt s)) as [o' t|] eqn:Ef; [|done]. injection E2 as -> <-.
  destruct (supply (ipt s)) as [|d rest] eqn:Es.
  { unfold mem_page_alloc, alloc_pages in Ef. change (1 =? 0) with false in Ef. cbv iota in Ef.
    change (PageTable.layout_ok (usize (1 * PAGE_SIZE)) (usize (1 * PAGE_SIZE))) with true in Ef. cbv iota in Ef.
    apply m_bind_inv in Ef as (? & ? & [= <- <-] & Ef). by rewrite Es in Ef. }
  rewrite (alloc_eq _ _ _ Es) in Ef. injection Ef as <- <-.
  apply m_bind_inv in E as ([] & s3 & [= <-] & E). apply m_bind_inv in E as ([] & s4 & [= <-] & E).
  cbn [init_regions] in E. apply m_bind_inv in E as (pa & s5 & E5 & E). unfold on_region in E5. simpl in E5.
  destruct (alloc_pages_spec (vm_region s) (npages r) Hw Hp Hn) as [[Hno _]|(pa' & l' & Ea & _ & _ & _ & Hlo & _)].
  { apply list.Exists_exists in He as (f & Hf & ?). rewrite list.Forall_forall in Hno. specialize (Hno f Hf). simpl in Hno. lia. }
  rewrite <- L in Ea. rewrite Ea in E5. injection E5 as -> <-. rewrite (proj2 (Z.eqb_neq pa 0)) in E by lia.
  apply m_bind_inv in E as ([] & s6 & _ & E). apply m_bind_inv in E as ([] & s7 & _ & E). by injection E as <- _.
Qed.

(** Of a list of ranges in the tables, those the configuration gives: the memory where the allocator put it. *)
Definition manager_ranges (e : Config.VmConfigEntry) (pas : list Z) : list Range :=
  (rng <$> zip (Config.memory e) pas) ++ pass_ranges e.

Lemma manager_tables lvl4 t e s : aarch64_target t -> booted t e s ->
  board_ok lvl4 t = true /\ placeable lvl4 (Config.memory e) (Config.pt_dev e) s /\
  exists s1 s2 pas, vmm_init_memory lvl4 (Config.memory e) s = Ret true s1 /\
    vmm_init_passthrough_device lvl4 (Config.pt_dev e) s1 = Ret true s2 /\ length pas = length (Config.memory e) /\
    (forall a, 0 <= a < 2 ^ ia_bits lvl4 -> stage2 lvl4 (ipt s2) a = look (manager_ranges e pas) a) /\
    (forall q x, q ∈ zip (Config.memory e) pas -> 0 <= x < len q.1 -> MemRegion.free_byte (vm_regions t) (q.2 + x)).
Proof.
  intros Ht [Ee Hh Hf Hr Hv Hg Hi]. pose proof (boards_ok lvl4 t Ht) as Hb. split; [done|].
  unfold board_ok in Hb. rewrite Ee in Hb. rewrite !andb_true_iff in Hb. destruct Hb as ((((H1 & _) & H3) & _) & H5).
  assert (vm_regions t = vm_region s) as Er by (unfold vm_regions; by rewrite Hr).
  destruct (regions_wf t Ht) as (Hw & Hp & _). rewrite Er in *.
  assert (placeable lvl4 (Config.memory e) (Config.pt_dev e) s) as P by (by apply placement_ready).
  split; [done|]. unfold one_region in H3. destruct (Config.memory e) as [|r [|]] eqn:Em; try done. rewrite <- Em in P.
  destruct (vm_stage2_of lvl4 (Config.memory e) (Config.pt_dev e) s P) as (b & s1 & E1 & Hb).
  rewrite Em in E1, Hb. assert (b = true) as ->.
  { eapply init_memory_single; [exact Hw|exact Hp| | |exact E1].
    - pose proof (rd_fits _ _ _ (pl_ready _ _ _ _ P)) as HF. rewrite Em in HF. by inversion HF.
    - unfold memory_found in H5. rewrite Em, Hr in H5. simpl in H5. rewrite andb_true_r in H5.
      apply existsb_exists in H5 as (f & Hf'%list_elem_of_In & ?%Z.leb_le). apply list.Exists_exists. by exists f. }
  destruct Hb as (s2 & pas & E2 & Hl & Hs & Hfr). exists s1, s2, pas. unfold manager_ranges, pass_ranges. by rewrite Em.
Qed.

(** What is apart from the configured ranges is not translated. *)
Lemma manager_none e pas c a : length pas = length (Config.memory e) -> forallb (device_apart c) (mem_ranges e ++ pass_ranges e) = true ->
  Config.emu_base_ipa c <= a < Config.emu_base_ipa c + Config.emu_length c -> look (manager_ranges e pas) a = None.
Proof.
  intros Hl Hc Ha. apply look_none. intros q Hq. apply inside_false.
  assert (exists q', q' ∈ mem_ranges e ++ pass_ranges e /\ r_ipa q' = r_ipa q /\ r_pages q' = r_pages q) as (q' & Hq' & Ei & Ep).
  { apply elem_of_app in Hq as [([r pa] & -> & Hz)%list_elem_of_fmap|Hq]; [|exists q; split; [|done]; apply elem_of_app; by right].
    exists (rng (r, 0)). split; [|done]. apply elem_of_app. left. unfold mem_ranges. apply (list_elem_of_fmap_2 (fun r => rng (r, 0))).
    by eapply elem_of_zip_l. }
  rewrite forallb_forall in Hc. apply list_elem_of_In in Hq'. specialize (Hc q' Hq').
  unfold device_apart in Hc. rewrite orb_true_iff, !Z.leb_le in Hc. lia.
Qed.

(** Every device of a list that [init_devices] accepts is found by its addresses. *)
Lemma init_emu_devs_find {D} (h : Config.VmEmulatedDeviceConfig -> Emu.EmuContext -> M (Emu.Mach D) bool) cfgs l c a :
  init_emu_devs h cfgs = Some l -> c ∈ cfgs -> Config.emu_base_ipa c <= a < usize (Config.emu_base_ipa c + Config.emu_length c) ->
  exists d, Emu.find_emu_dev l a = Some d /\ Emu.dev_handler d = h c.
Proof.
  intros [-> Hd]%EmuSpec.push_all_disjoint Hc Ha. eexists. split; [apply EmuSpec.find_emu_dev_in; [exact Hd| |]|].
  - by apply (list_elem_of_fmap_2 _ _ c).
  - unfold Emu.contains. simpl. rewrite andb_true_iff, Z.leb_le, Z.ltb_lt. lia.
  - done.
Qed.

(** The ranges of a board's devices, accepted whatever their handlers are. *)
Lemma boards_devices t e : aarch64_target t -> mvm_entry t = Some e ->
  forall (D : Type) (h : Config.VmEmulatedDeviceConfig -> Emu.EmuContext -> M (Emu.Mach D) bool),
    exists l, init_emu_devs h (Config.emu_dev_list e) = Some l.
Proof.
  intros Ht Ee D h.
  destruct t as [noeth|g|]; [| |destruct Ht].
  - unfold mvm_entry, rk3588_mvm_entry in Ee. destruct (rk3588_regions noeth) as [rs|]; [|discriminate Ee].
    injection Ee as <-. vm_compute. by eexists.
  - injection Ee as <-. destruct g; vm_compute; by eexists.
Qed.

(** C9. The manager VM of every AArch64 board is set up.  On a hypervisor that has booted, with frames for the tables,
    [vmm_init_memory] and [vmm_init_passthrough_device] succeed for the board's configuration of VM 0; its memory, the load addresses
    of its images among it, is translated to bytes that were free.  Its emulated devices do not overlap, so [init_devices] accepts them, and
    none of their addresses is translated: an access traps, and the lookup of the trap finds the device. *)
Theorem manager_vm_is_set_up lvl4 t e s : aarch64_target t -> booted t e s ->
  exists s1 s2, vmm_init_memory lvl4 (Config.memory e) s = Ret true s1 /\
    vmm_init_passthrough_device lvl4 (Config.pt_dev e) s1 = Ret true s2 /\
    (forall r a, r ∈ Config.memory e -> ipa r <= a < ipa r + len r ->
       exists b, stage2 lvl4 (ipt s2) a = Some b /\ MemRegion.free_byte (vm_region s) b) /\
    (forall r, r ∈ Config.memory e -> ipa r <= Config.kernel_load_ipa (Config.image e) < ipa r + len r /\
                                     ipa r <= Config.device_tree_load_ipa (Config.image e) < ipa r + len r) /\
    forall (D : Type) (h : Config.VmEmulatedDeviceConfig -> Emu.EmuContext -> M (Emu.Mach D) bool), exists l,
      init_emu_devs h (Config.emu_dev_list e) = Some l /\
      forall c a, c ∈ Config.emu_dev_list e -> Config.emu_base_ipa c <= a < Config.emu_base_ipa c + Config.emu_length c ->
        stage2 lvl4 (ipt s2) a = None /\ exists d, Emu.find_emu_dev l a = Some d /\ Emu.dev_handler d = h c.
Proof.
  intros Ht B. destruct (manager_tables lvl4 t e s Ht B) as (Hb & P & s1 & s2 & pas & E1 & E2 & Hl & Hs & Hfr).
  exists s1, s2. split; [exact E1|]. split; [exact E2|].
  assert (vm_regions t = vm_region s) as Er by (unfold vm_regions; by rewrite (bt_regions _ _ _ B)). rewrite Er in Hfr.
  unfold board_ok in Hb. rewrite (bt_entry _ _ _ B), !andb_true_iff in Hb. destruct Hb as ((((_ & H2) & H3) & H4) & _).
  pose proof (disjoint_pas _ _ _ Hl (pl_disjoint _ _ _ _ P)) as Hd. fold (pass_ranges e) in Hd. fold (manager_ranges e pas) in Hd.
  split; [|split].
  - intros r a Hr Ha. pose proof (rd_fits _ _ _ (pl_ready _ _ _ _ P)) as HF. rewrite list.Forall_forall in HF.
    specialize (HF r Hr). destruct (fits_pages lvl4 r HF) as (_ & L & _). destruct HF as (? & _ & _ & _ & ?).
    apply list_elem_of_lookup in Hr as [i Hi]. destruct (lookup_lt_is_Some_2 pas i) as [pa Hpa]; [apply lookup_lt_Some in Hi; lia|].
    assert ((r, pa) ∈ zip (Config.memory e) pas) as Hz.
    { apply list_elem_of_lookup. exists i. apply lookup_zip_Some. done. }
    exists (pa + (a - ipa r)). split; [|apply (Hfr (r, pa)); [done|simpl; lia]].
    rewrite Hs by lia. rewrite (look_in _ (rng (r, pa))); [done|done| |].
    + apply elem_of_app. left. by apply list_elem_of_fmap_2.
    + apply inside_spec. simpl. lia.
  - intros r Hr. unfold images_inside in H4. rewrite forallb_forall in H4. apply list_elem_of_In in Hr. specialize (H4 r Hr).
    simpl in H4. rewrite !andb_true_iff, !Z.leb_le, !Z.ltb_lt in H4. lia.
  - intros D h. destruct (boards_devices t e Ht (bt_entry _ _ _ B) D h) as [l El]. exists l. split; [done|]. intros c a Hc Ha.
    unfold devices_apart in H2. rewrite forallb_forall in H2. pose proof Hc as Hc'%list_elem_of_In. specialize (H2 c Hc').
    rewrite !andb_true_iff, !Z.leb_le in H2. destruct H2 as [[? ?] Hc2].
    assert (2 ^ 39 <= 2 ^ ia_bits lvl4) by (apply Z.pow_le_mono_r; [lia|]; unfold ia_bits, depth; destruct lvl4; lia).
    split; [rewrite Hs by lia; by apply (manager_none e pas c)|].
    eapply init_emu_devs_find; [exact El|exact Hc|]. unfold usize, wrap. rewrite Z.mod_small; lia.
Qed.

(** The passthrough regions lead away from the hypervisor's memory. *)
Definition passthrough_apart (t : Target) : bool :=
  match mvm_entry t with
  | Some e => forallb (fun r => (pm_base (hypervisor_region t) + pm_size (hypervisor_region t) <=? r_pa r) ||
                                (r_pa r + r_pages r * 4096 <=? pm_base (hypervisor_region t))) (pass_ranges e)
  | None => false
  end.
(** The passthrough region at address 0 of RK3588. *)
Definition low_range : Range := mkRange 0 0x9400 0.

Lemma rk3588_low_range noeth e : mvm_entry (Rk3588 noeth) = Some e -> low_range ∈ pass_ranges e.
Proof.
  unfold mvm_entry, rk3588_mvm_entry, rk3588_regions. cbn [Interval.add_range]. intros H.
  repeat match type of H with
  | (?o ≫= _) = Some _ => destruct o eqn:?; [cbn [option_bind mbind] in H|discriminate H]
  end.
  simplify_option_eq. unfold pass_ranges. cbn [Config.pt_dev Config.regions]. rewrite fmap_app. apply elem_of_app. right.
  do 2 apply list_elem_of_further. apply list_elem_of_here.
Qed.

(** C10. What the manager VM reaches of the hypervisor.  On QEMU no guest address is translated into the hypervisor's own region of memory.
    On RK3588 the passthrough region at address 0 covers that region: every byte of it, code, heap and the VM's own page tables among it,
    is translated to itself. *)
Theorem manager_vm_and_hypervisor lvl4 t e s s1 s2 : aarch64_target t -> booted t e s ->
  vmm_init_memory lvl4 (Config.memory e) s = Ret true s1 -> vmm_init_passthrough_device lvl4 (Config.pt_dev e) s1 = Ret true s2 ->
  match t with
  | Rk3588 _ => forall a, hypervisor_byte t a -> stage2 lvl4 (ipt s2) a = Some a
  | _ => forall a b, 0 <= a < 2 ^ ia_bits lvl4 -> stage2 lvl4 (ipt s2) a = Some b -> ~ hypervisor_byte t b
  end.
Proof.
  intros Ht B E1 E2. destruct (manager_tables lvl4 t e s Ht B) as (_ & P & s1' & s2' & pas & E1' & E2' & Hl & Hs & Hfr).
  rewrite E1 in E1'. injection E1' as <-. rewrite E2 in E2'. injection E2' as <-.
  assert (2 ^ 39 <= 2 ^ ia_bits lvl4) by (apply Z.pow_le_mono_r; [lia|]; unfold ia_bits, depth; destruct lvl4; lia).
  destruct (regions_wf t Ht) as (_ & _ & Hfree). destruct t as [noeth|g|]; [| |destruct Ht].
  - intros a Ha. assert (0x200000 <= a < 0x8400000) as Hr by exact Ha.
    pose proof (disjoint_pas _ _ _ Hl (pl_disjoint _ _ _ _ P)) as Hd.
    rewrite Hs by lia. rewrite (look_in _ low_range); [simpl; f_equal; lia|exact Hd| |apply inside_spec; simpl; lia].
    apply elem_of_app. right. apply (rk3588_low_range noeth), (bt_entry _ _ _ B).
  - intros a b Ha Hb Hv. rewrite Hs in Hb by done. apply look_some in Hb as (q & Hq & Hc & ->). apply inside_spec in Hc.
    apply elem_of_app in Hq as [([r pa] & -> & Hz)%list_elem_of_fmap|Hq].
    + apply (Hfree _) in Hv; [done|]. apply (Hfr (r, pa)); [done|].
      pose proof (rd_fits _ _ _ (pl_ready _ _ _ _ P)) as HF. rewrite list.Forall_forall in HF.
      destruct (fits_pages lvl4 r) as (_ & L & _); [apply HF; by eapply elem_of_zip_l|]. simpl in *. lia.
    + assert (passthrough_apart (Qemu g) = true) as Hp by (destruct g; vm_compute; reflexivity).
      unfold passthrough_apart in Hp. rewrite (bt_entry _ _ _ B), forallb_forall in Hp.
      apply list_elem_of_In in Hq. specialize (Hp q Hq). rewrite orb_true_iff, !Z.leb_le in Hp. unfold hypervisor_byte in Hv. lia.
Qed.

(** ** Numbers of cores, and the table of configurations *)

Definition psci_board (t : Target) : Psci.board := match t with Rk3588 _ => Psci.Rk3588 | Qemu _ => Psci.Qemu | _ => Psci.OtherBoard end.
Definition mpidrs (t : Target) : list Z := core_mpidr <$> core_list (cpu_desc (PLAT_DESC t)).

Definition core_number_ok (t : Target) (i : Z) : bool :=
  bool_decide ((m ← Psci.plat_cpuid2mpidr (mpidrs t) i;
                Psci.mpidr2cpuid (psci_board t) (mpidrs t) (cpus_num (cpu_desc (PLAT_DESC t))) m) = Some i).

(** The number of a core is that of its affinity. *)
Lemma core_numbers t i : aarch64_target t -> 0 <= i < cpus_num (cpu_desc (PLAT_DESC t)) ->
  exists m, Psci.plat_cpuid2mpidr (mpidrs t) i = Some m /\
    Psci.mpidr2cpuid (psci_board t) (mpidrs t) (cpus_num (cpu_desc (PLAT_DESC t))) m = Some i.
Proof.
  intros Ht Hi. apply bind_Some, (bool_decide_eq_true_1 (_ = Some i)). change (core_number_ok t i = true).
  assert (forallb (core_number_ok t) (zrange 0 (Z.to_nat (cpus_num (cpu_desc (PLAT_DESC t))))) = true) as H
    by (destruct t as [noeth|g|]; [|destruct g|destruct Ht]; vm_compute; reflexivity).
  rewrite forallb_forall in H. apply H, list_elem_of_In, zrange_elem. lia.
Qed.

(** The manager VM's configuration is the first of the table, with number 0. *)
Lemma manager_config_is_first t e s : mvm_entry t = Some e -> Config.table s = Config.VmConfigTable_new ->
  exists s', mvm_config_init t s = Ret tt s' /\ Config.vm_cfg_entry 0 s' = Some (Config.with_id 0 e).
Proof.
  intros Ee Es. unfold mvm_config_init. rewrite Ee. eexists. split.
  - eapply m_bind_Ret_r; [reflexivity|]. eapply m_bind_Ret_r; [|reflexivity].
    unfold Config.vm_cfg_add_vm_entry. rewrite Es. reflexivity.
  - reflexivity.
Qed.

(** ** Witnesses *)

(** [n] frames, from 16 MB on. *)
Definition demo_frames (n : nat) : list Z := (fun i => 0x1000000 + i * 4096) <$> zrange 0 n.
Definition demo_boot (t : Target) (frames : list Z) : VI :=
  mkVI (pt_new 0 ∅ frames) false (vm_regions t) (Vm.mkVm 0 (Vm.mkCpuCfg 1 1 None) [] [] DEFAULT 0 []) ∅ DEFAULT [] Sched.array_new [].

Definition demo_checks (t : Target) : bool :=
  match mvm_entry t, platform_vm_regions t [] with
  | Some e, Ret _ _ => (frames_needed e <=? 6000) && forallb (fun i => (0 <=? i) && (i <? 4096)) (Config.irqs (Config.pt_dev e))
  | _, _ => false
  end.

Lemma demo_heap_ok n : Z.of_nat n <= 2 ^ 20 -> heap_ok (demo_frames n) /\ zlen (demo_frames n) = Z.of_nat n.
Proof.
  intros Hn. split; [split|].
  - apply NoDup_fmap_2; [intros x y; lia|apply zrange_NoDup].
  - apply list.Forall_fmap, list.Forall_forall. intros i Hi%zrange_elem. unfold PtTree.page_ok. simpl.
    split; [|lia]. replace (16777216 + i * 4096) with ((4096 + i) * 4096) by lia. by apply Z.mod_mul.
  - unfold zlen, demo_frames. by rewrite length_fmap, GuestMem.length_zrange.
Qed.

Lemma demo_booted t e n : aarch64_target t -> mvm_entry t = Some e -> 6000 <= Z.of_nat n <= 2 ^ 20 ->
  booted t e (demo_boot t (demo_frames n)).
Proof.
  intros Ht Ee Hn. destruct (demo_heap_ok n) as [Hh Hl]; [lia|].
  assert (demo_checks t = true) as H by (destruct t as [noeth|g|]; [destruct noeth|destruct g|destruct Ht]; vm_compute; reflexivity).
  unfold demo_checks in H. rewrite Ee in H. destruct (platform_vm_regions t []) as [[] l|] eqn:Er; [|discriminate H].
  apply andb_true_iff in H as [Hf%Z.leb_le Hi].
  generalize dependent (demo_frames n). intros frames Hh Hl. split.
  - exact Ee.
  - exact Hh.
  - change (supply (ipt (demo_boot t frames))) with frames. lia.
  - change (vm_region (demo_boot t frames)) with (vm_regions t). unfold vm_regions. by rewrite Er.
  - reflexivity.
  - apply default_wf.
  - eapply forallb_Forall; [|exact Hi]. intros i. rewrite andb_true_iff, Z.leb_le, Z.ltb_lt. intros Hr. split; [exact Hr|].
    exists 0. split; [by apply default_get|done].
Qed.

(** QEMU with the GICv2, and RK3588. *)
Definition demo_rk3588 : Config.VmConfigEntry := default (qemu_mvm_entry false) (rk3588_mvm_entry false).
Definition demo_n : nat := Z.to_nat 6000.
Lemma demo_n_ok : 6000 <= Z.of_nat demo_n <= 2 ^ 20.
Proof. unfold demo_n. rewrite Z2Nat.id; lia. Qed.
#[local] Opaque demo_n.
Lemma demo_rk3588_entry : mvm_entry (Rk3588 false) = Some demo_rk3588.
Proof. unfold demo_rk3588, mvm_entry, rk3588_mvm_entry. destruct (rk3588_regions false) eqn:E; [reflexivity|vm_compute in E; discriminate E]. Qed.
Definition demo_qemu : VI := demo_boot (Qemu false) (demo_frames demo_n).
Definition demo_rk : VI := demo_boot (Rk3588 false) (demo_frames demo_n).

(** Guest address [0x80080000], where the kernel is loaded, is memory; [0xa001010] is a register of the network device. *)
Lemma manager_vm_is_set_up_witness : exists s1 s2,
  vmm_init_memory false (Config.memory (qemu_mvm_entry false)) demo_qemu = Ret true s1 /\
  vmm_init_passthrough_device false (Config.pt_dev (qemu_mvm_entry false)) s1 = Ret true s2 /\
  (exists b, stage2 false (ipt s2) 0x80080000 = Some b) /\ stage2 false (ipt s2) 0xa001010 = None.
Proof.
  destruct (manager_vm_is_set_up false (Qemu false) (qemu_mvm_entry false) demo_qemu I
    (demo_booted (Qemu false) _ demo_n I eq_refl demo_n_ok)) as (s1 & s2 & E1 & E2 & Hm & _ & Hd).
  exists s1, s2. split; [exact E1|]. split; [exact E2|]. split.
  - destruct (Hm (Config.mkRegion 0x50000000 0x80000000) 0x80080000) as (b & Hb & _); [apply list_elem_of_here|simpl; lia|]. by exists b.
  - destruct (Hd unit (fun _ _ => m_ret true)) as (l & _ & Hc).
    destruct (Hc (nth 1 (qemu_emu_dev_config false) (Config.mkEmu [] 0 0 0 [] Config.EmuDeviceTMeta false)) 0xa001010) as [Hn _];
      [apply list_elem_of_further, list_elem_of_here|simpl; lia|exact Hn].
Defined.

(** On RK3588 the hypervisor's image, linked at [0x480000], is in the reach of the manager VM. *)
Lemma manager_vm_and_hypervisor_witness : exists s1 s2,
  vmm_init_memory false (Config.memory demo_rk3588) demo_rk = Ret true s1 /\
  vmm_init_passthrough_device false (Config.pt_dev demo_rk3588) s1 = Ret true s2 /\ stage2 false (ipt s2) 0x480000 = Some 0x480000.
Proof.
  pose proof (demo_booted (Rk3588 false) demo_rk3588 demo_n I demo_rk3588_entry demo_n_ok) as B. fold demo_rk in B.
  destruct (manager_tables false (Rk3588 false) demo_rk3588 demo_rk I B) as (_ & _ & s1 & s2 & _ & E1 & E2 & _).
  exists s1, s2. split; [exact E1|]. split; [exact E2|].
  apply (manager_vm_and_hypervisor false (Rk3588 false) demo_rk3588 demo_rk s1 s2 I B E1 E2).
  unfold hypervisor_byte, hypervisor_region. simpl. lia.
Defined.
