(* ===== verification/BootMmu.v ===== *)
(** * BootMmu: the hypervisor's own page tables ([arch/aarch64/mmu.rs])

    The two tables that [pt_populate] writes before the MMU of EL2 is switched on, for each board, and the walk of the hardware through them:
    a 39-bit space, gigabytes in the first table and 2 MB blocks in the second.  And [gva2ipa], which asks the hardware. *)
From stdpp Require Import list.
From S2P Require Import Prelude Bits Boards.
From S2P Require GuestMem PageTable PageTableSpec Stage2.

(** src: arch/aarch64/mmu.rs 95-98 [MemoryType] *)
Inductive MemoryType := Normal | Device.
#[export] Instance MemoryType_eq_dec : EqDecision MemoryType.
Proof. solve_decision. Defined.

(** A field value of [register_bitfields!]: the value cut to the field, at its place. *)
Definition field (offset bits v : Z) : Z := Z.shiftl (Z.land v (Z.ones bits)) offset.

(** src: arch/aarch64/mmu.rs 54-93 [PageDescriptorS1] *)
Definition OUTPUT_PPN : Z -> Z := field 12 36.
Definition AF_True : Z := field 10 1 1.
Definition SH_OuterShareable : Z := field 8 2 2.
Definition SH_InnerShareable : Z := field 8 2 3.
Definition AP_RW_ELx : Z := field 6 2 0.
Definition AttrIndx_Attr0 : Z := field 2 3 0.
Definition AttrIndx_Attr1 : Z := field 2 3 1.
Definition TYPE_Block : Z := field 1 1 0.
Definition TYPE_Table : Z := field 1 1 1.
Definition VALID_True : Z := field 0 1 1.

(** src: arch/aarch64/mmu.rs 102-125 [BlockDescriptor::new] *)
Definition BlockDescriptor_new (output_addr : Z) (mem_type : MemoryType) : Z :=
  Z.lor (OUTPUT_PPN (Z.shiftr output_addr 12))
    (Z.lor AF_True (Z.lor AP_RW_ELx (Z.lor TYPE_Block (Z.lor VALID_True
      match mem_type with
      | Device => Z.lor AttrIndx_Attr0 SH_OuterShareable
      | Normal => Z.lor AttrIndx_Attr1 SH_InnerShareable
      end)))).
(** src: arch/aarch64/mmu.rs 127-135 [BlockDescriptor::table] *)
Definition BlockDescriptor_table (output_addr : Z) : Z :=
  Z.lor (OUTPUT_PPN (Z.shiftr output_addr 12)) (Z.lor VALID_True TYPE_Table).
(** src: arch/aarch64/mmu.rs 137-139 [BlockDescriptor::invalid] *)
Definition BlockDescriptor_invalid : Z := 0.

(** src: arch/aarch64/mmu.rs 143-157 [PageTables, LVL1_PAGE_TABLE, LVL2_PAGE_TABLE]
    The entries of both tables. *)
Record Tables := mkTables { lvl1_pt : list Z; lvl2_pt : list Z }.

Definition set_lvl1 (i v : Z) : M Tables unit := fun s =>
  match zstore (lvl1_pt s) i v with Some l => Ret tt (mkTables l (lvl2_pt s)) | None => Fault OutOfBounds end.
Definition set_lvl2 (i v : Z) : M Tables unit := fun s =>
  match zstore (lvl2_pt s) i v with Some l => Ret tt (mkTables (lvl1_pt s) l) | None => Fault OutOfBounds end.
(** [memset] of both tables. *)
Definition clear_tables : M Tables unit := m_put (mkTables (replicate 512 0) (replicate 512 0)).

Definition LVL1_SHIFT : Z := 30.
Definition LVL2_SHIFT : Z := 21.
(** src: arch/aarch64/mmu.rs 159-159 [PLATFORM_PHYSICAL_LIMIT_GB] *)
Definition PLATFORM_PHYSICAL_LIMIT_GB : Z := 16.

(** src: arch/aarch64/mmu.rs 203-211 [pt_populate: the second table of QEMU]
    The loop over the addresses with their numbers, and its [break]. *)
Fixpoint device_blocks (l : list Z) : M Tables unit :=
  match l with
  | [] => m_ret tt
  | index :: l' =>
      if 512 <=? index then m_ret tt
      else set_lvl2 index (BlockDescriptor_new (index * 2 ^ LVL2_SHIFT) Device) >>; device_blocks l'
  end.

(** src: arch/aarch64/mmu.rs 185-212 [pt_populate: QEMU]
    [base]: the start of memory; [lvl2_base]: the address of the second table. *)
Definition pt_populate_qemu (base lvl2_base : Z) : M Tables unit :=
  clear_tables >>;
  m_for (zrange 0 (Z.to_nat PLATFORM_PHYSICAL_LIMIT_GB)) (fun index =>
    let pa := Z.shiftl index LVL1_SHIFT in
    if pa <? base then set_lvl1 index (BlockDescriptor_new pa Device) else set_lvl1 index (BlockDescriptor_new pa Normal)) >>;
  set_lvl1 32 (BlockDescriptor_table lvl2_base) >>;
  device_blocks (zrange 0 (Z.to_nat ((base + 2 ^ LVL2_SHIFT - 1) / 2 ^ LVL2_SHIFT))).

(** src: arch/aarch64/mmu.rs 214-250 [pt_populate: RK3588] *)
Definition pt_populate_rk3588 (lvl2_base : Z) : M Tables unit :=
  clear_tables >>;
  set_lvl1 0 (BlockDescriptor_new 0 Normal) >>;
  set_lvl1 1 (BlockDescriptor_new 0x40000000 Normal) >>;
  set_lvl1 2 (BlockDescriptor_new 0x80000000 Normal) >>;
  set_lvl1 3 (BlockDescriptor_table lvl2_base) >>;
  let DEVICE_BOUND := (0xf0000000 - 0xc0000000) / 2 ^ LVL2_SHIFT in
  m_for (zrange 0 (Z.to_nat DEVICE_BOUND)) (fun i => set_lvl2 i (BlockDescriptor_new (0x0c0000000 + Z.shiftl i LVL2_SHIFT) Normal)) >>;
  m_for (zrange DEVICE_BOUND (Z.to_nat (512 - DEVICE_BOUND)))
    (fun i => set_lvl2 i (BlockDescriptor_new (0x0c0000000 + Z.shiftl i LVL2_SHIFT) Device)) >>;
  set_lvl1 4 (BlockDescriptor_new 0x100000000 Normal) >>;
  set_lvl1 5 (BlockDescriptor_new 0x140000000 Normal) >>;
  set_lvl1 6 (BlockDescriptor_new 0x180000000 Normal) >>;
  set_lvl1 7 (BlockDescriptor_new 0x1c0000000 Normal) >>;
  m_for (zrange 8 (Z.to_nat (512 - 8))) (fun i => set_lvl1 i BlockDescriptor_invalid).

(** src: arch/aarch64/mmu.rs 171-183 [pt_populate]
    Not compiled for RISC-V. *)
Definition pt_populate (t : Target) (lvl2_base : Z) : M Tables unit :=
  match t with
  | Rk3588 _ => pt_populate_rk3588 lvl2_base
  | Qemu _ => pt_populate_qemu (mem_base (mem_desc (PLAT_DESC t))) lvl2_base
  | QemuRiscv64 _ _ => m_fault ExplicitPanic
  end.

(** src: arch/aarch64/mmu.rs 311-331 [gva2ipa]
    [translate]: the PAR_EL1 that the hardware answers; [None] is [Err]. *)
Definition gva2ipa (translate : Z -> Z) (gva : Z) : option Z :=
  let tmp := translate gva in
  if testm tmp 1 then None else Some (Z.lor (shlw 64 (bit_extract tmp 12 36) 12) (Z.land gva (4096 - 1))).

(** ** The walk of the hardware

    With [T0SZ] = 64 - 39 and 4 KB granules the first table is that of level 1. *)

Definition attr_index (e : Z) : Z := Z.land (Z.shiftr e 2) 7.
Definition memory_type (e : Z) : option MemoryType := match attr_index e with 0 => Some Device | 1 => Some Normal | _ => None end.

Definition block_at (e off : Z) : option (Z * MemoryType) := ty ← memory_type e; Some (PageTable.to_pa e + off, ty).
(** The output address and the type of memory. *)
Definition boot_walk (s : Tables) (lvl2_base va : Z) : option (Z * MemoryType) :=
  if (va <? 0) || (2 ^ 39 <=? va) then None
  else
    e1 ← zget (lvl1_pt s) (va / 2 ^ 30);
    if Z.land e1 3 =? 1 then block_at e1 (va mod 2 ^ 30)
    else if (Z.land e1 3 =? 3) && (PageTable.to_pa e1 =? lvl2_base) then
      e2 ← zget (lvl2_pt s) (va / 2 ^ 21 mod 512);
      if Z.land e2 3 =? 1 then block_at e2 (va mod 2 ^ 21) else None
    else None.
