(* ===== verification/BootMmuSpec.v ===== *)
(** * BootMmuSpec: what the hypervisor's boot page tables map

    Every block of the two tables decodes to the address and the type it was made of; what the hardware walks is, on each board,
    the identity on memory and devices with the types that the source's comments give. *)
From stdpp Require Import list.
From S2P Require Import Prelude Bits Boards BootMmu.
From S2P Require GuestMem MemRegion PageTable PageTableSpec Stage2 SchedProps.

(** ** Entries *)

Lemma OUTPUT_PPN_page pa : pa mod 4096 = 0 -> 0 <= pa < 2 ^ 48 -> OUTPUT_PPN (Z.shiftr pa 12) = pa.
Proof.
  intros Hm Hr. unfold OUTPUT_PPN, field. rewrite Z.land_ones, Z.shiftl_mul_pow2, Z.shiftr_div_pow2 by lia.
  change (2 ^ 12) with 4096. rewrite Z.mod_small by (change (2 ^ 36) with 68719476736; zdiv). zdiv.
Qed.

Lemma low_bits pa x m : pa mod 4096 = 0 -> 0 <= x < 4096 -> 0 <= m < 4096 -> Z.land (Z.lor pa x) m = Z.land x m.
Proof.
  intros Hp Hx Hm. apply Z.bits_inj'. intros i Hi. rewrite !Z.land_spec, Z.lor_spec.
  destruct (Z.ltb_spec i 12).
  - change 4096 with (2 ^ 12) in Hp. rewrite <- (Z.mod_pow2_bits_low pa 12 i) by lia. by rewrite Hp, Z.testbit_0_l.
  - rewrite (testbit_high 12 m) by (unfold in_word; lia). by rewrite !andb_false_r.
Qed.

Definition attrs (ty : MemoryType) : Z := match ty with Normal => 0x705 | Device => 0x601 end.

Lemma BlockDescriptor_new_eq pa ty : pa mod 4096 = 0 -> 0 <= pa < 2 ^ 48 -> BlockDescriptor_new pa ty = Z.lor pa (attrs ty).
Proof. intros. unfold BlockDescriptor_new. rewrite OUTPUT_PPN_page by done. f_equal. by destruct ty. Qed.

Lemma BlockDescriptor_table_eq pa : pa mod 4096 = 0 -> 0 <= pa < 2 ^ 48 -> BlockDescriptor_table pa = Z.lor pa 3.
Proof. intros. unfold BlockDescriptor_table. by rewrite OUTPUT_PPN_page. Qed.

(** A block is valid and leads where it was made to lead. *)
Lemma block_decodes pa ty off : pa mod 4096 = 0 -> 0 <= pa < 2 ^ 48 ->
  Z.land (BlockDescriptor_new pa ty) 3 = 1 /\ block_at (BlockDescriptor_new pa ty) off = Some (pa + off, ty).
Proof.
  intros Hm Hr. rewrite BlockDescriptor_new_eq by done. unfold block_at, memory_type, attr_index.
  change 7 with (Z.shiftr 28 2). rewrite <- Z.shiftr_land, !low_bits, Stage2.to_pa_lor by (done || (destruct ty; simpl; lia)).
  by destruct ty.
Qed.

Lemma table_decodes pa : pa mod 4096 = 0 -> 0 <= pa < 2 ^ 48 ->
  Z.land (BlockDescriptor_table pa) 3 = 3 /\ PageTable.to_pa (BlockDescriptor_table pa) = pa.
Proof. intros. rewrite BlockDescriptor_table_eq, low_bits, Stage2.to_pa_lor by done. done. Qed.

(** ** The tables *)

Definition lvl1_entry (t : Target) (table i : Z) : Z :=
  match t with
  | Rk3588 _ => if i =? 3 then table else if i <? 8 then BlockDescriptor_new (i * 2 ^ 30) Normal else 0
  | _ => if i =? 32 then table else if i <? 16 then BlockDescriptor_new (i * 2 ^ 30) (if i <? 1 then Device else Normal) else 0
  end.
Definition lvl2_entry (t : Target) (i : Z) : Z :=
  match t with
  | Rk3588 _ => BlockDescriptor_new (3 * 2 ^ 30 + i * 2 ^ 21) (if i <? 384 then Normal else Device)
  | _ => BlockDescriptor_new (i * 2 ^ 21) Device
  end.

Lemma pt_populate_tables t b s : aarch64_target t ->
  pt_populate t b s = Ret tt (mkTables (lvl1_entry t (BlockDescriptor_table b) <$> zrange 0 512) (lvl2_entry t <$> zrange 0 512)).
Proof.
  intros Ht. unfold pt_populate, pt_populate_rk3588, pt_populate_qemu. generalize (BlockDescriptor_table b) as e. clear b.
  intros e. destruct t as [n|g|p a]; [|destruct g|by destruct Ht]; vm_compute; reflexivity.
Qed.

Lemma zget_range {A} (f : Z -> A) n i : 0 <= i < Z.of_nat n -> zget (f <$> zrange 0 n) i = Some (f i).
Proof.
  intros Hi. enough (zget (zrange 0 n) i = Some i) as E.
  { unfold zget in *. rewrite list_lookup_fmap. destruct (0 <=? i); [by rewrite E|done]. }
  induction n as [|n IH]; [lia|]. rewrite zrange_S. destruct (decide (i < Z.of_nat n)).
  - rewrite SchedProps.zget_app_l; [apply IH; lia|]. unfold zlen. rewrite GuestMem.length_zrange. lia.
  - assert (i = Z.of_nat n) as -> by lia.
    assert (zlen (zrange 0 n) = Z.of_nat n) as <- by (unfold zlen; by rewrite GuestMem.length_zrange). apply SchedProps.zget_middle.
Qed.

(** What the comments of [pt_populate] say of each board. *)
Definition boot_map (t : Target) (va : Z) : option (Z * MemoryType) :=
  match t with
  | Rk3588 _ =>
      if (0 <=? va) && (va <? 8 * 2 ^ 30) then Some (va, if (0xf0000000 <=? va) && (va <? 0x100000000) then Device else Normal) else None
  | _ =>
      if (0 <=? va) && (va <? 16 * 2 ^ 30) then Some (va, if va <? 0x40000000 then Device else Normal)
      else if (32 * 2 ^ 30 <=? va) && (va <? 33 * 2 ^ 30) then Some (va - 32 * 2 ^ 30, Device) else None
  end.

(** ** The walk *)

Section walk.
Context (s : Tables) (b va : Z) (Hva : 0 <= va < 2 ^ 39).

Local Lemma in_space : (va <? 0) || (2 ^ 39 <=? va) = false.
Proof. apply orb_false_iff. split; [apply Z.ltb_ge|apply Z.leb_gt]; lia. Qed.

Lemma walk_invalid : zget (lvl1_pt s) (va / 2 ^ 30) = Some 0 -> boot_walk s b va = None.
Proof. intros H. unfold boot_walk. by rewrite in_space, H. Qed.

Lemma walk_gigabyte pa ty : pa mod 4096 = 0 -> 0 <= pa < 2 ^ 48 ->
  zget (lvl1_pt s) (va / 2 ^ 30) = Some (BlockDescriptor_new pa ty) -> boot_walk s b va = Some (pa + va mod 2 ^ 30, ty).
Proof.
  intros Hp Hr H. destruct (block_decodes pa ty (va mod 2 ^ 30) Hp Hr) as [D E].
  unfold boot_walk. rewrite in_space, H. cbn [mbind option_bind]. rewrite D. exact E.
Qed.

Lemma walk_2mb pa ty : b mod 4096 = 0 -> 0 <= b < 2 ^ 48 -> pa mod 4096 = 0 -> 0 <= pa < 2 ^ 48 ->
  zget (lvl1_pt s) (va / 2 ^ 30) = Some (BlockDescriptor_table b) ->
  zget (lvl2_pt s) (va / 2 ^ 21 mod 512) = Some (BlockDescriptor_new pa ty) -> boot_walk s b va = Some (pa + va mod 2 ^ 21, ty).
Proof.
  intros Hb Hbr Hp Hr H1 H2. destruct (block_decodes pa ty (va mod 2 ^ 21) Hp Hr) as [D E]. destruct (table_decodes b Hb Hbr) as [T1 T2].
  unfold boot_walk. rewrite in_space, H1. cbn [mbind option_bind]. rewrite T1, T2, Z.eqb_refl. cbn [Z.eqb Pos.eqb andb]. rewrite H2. cbn [mbind option_bind]. rewrite D, Z.eqb_refl. exact E.
Qed.
End walk.

(** Both sides of an equation of [boot_map], branch by branch. *)
Local Ltac on_map := zcases; cbn [andb]; try (exfalso; lia); try reflexivity; do 2 f_equal; lia.

(** The comments and the tables agree on every address. *)
Lemma boot_map_entries t b va : aarch64_target t -> 0 <= va < 2 ^ 39 ->
  let q := va / 2 ^ 30 in let i := va / 2 ^ 21 mod 512 in
  (exists pa ty, lvl1_entry t b q = BlockDescriptor_new pa ty /\ (pa = q * 2 ^ 30) /\ q < 16 /\ (boot_map t va = Some (pa + va mod 2 ^ 30, ty))) \/
  (exists pa ty, lvl1_entry t b q = b /\ lvl2_entry t i = BlockDescriptor_new pa ty /\ pa mod 4096 = 0 /\ 0 <= pa < 2 ^ 48 /\
     (boot_map t va = Some (pa + va mod 2 ^ 21, ty))) \/
  (lvl1_entry t b q = 0 /\ boot_map t va = None).
Proof.
  intros Ht Hva q i. assert (0 <= q < 512 /\ va = q * 2 ^ 30 + va mod 2 ^ 30 /\ 0 <= va mod 2 ^ 30 < 2 ^ 30) as (Hq & E1 & R1) by (unfold q; zdiv).
  assert (0 <= i < 512 /\ va mod 2 ^ 30 = i * 2 ^ 21 + va mod 2 ^ 21 /\ 0 <= va mod 2 ^ 21 < 2 ^ 21) as (Hi & E2 & R2) by (unfold i; zdiv).
  assert (forall x, (x * 2 ^ 21) mod 4096 = 0) as Ha.
  { intros x. replace (x * 2 ^ 21) with (x * 512 * 4096) by lia. by apply Z.mod_mul. }
  clearbody q i. destruct t as [n|g|p a]; [| |by destruct Ht]; unfold lvl1_entry, lvl2_entry, boot_map.
  - destruct (Z.eqb_spec q 3) as [->|].
    { right; left. eexists _, _. split_and!; [done|done| |lia|lia|].
      - replace (3 * 2 ^ 30 + i * 2 ^ 21) with ((1536 + i) * 2 ^ 21) by lia. apply Ha.
      - clear - E1 E2 R2 Hi. on_map. }
    destruct (Z.ltb_spec q 8); [left|right; right].
    + eexists _, _. split_and!; [done|done|lia|]. rewrite <- E1. on_map.
    + split; [done|]. on_map.
  - destruct (Z.eqb_spec q 32) as [->|].
    { right; left. eexists _, _. split_and!; [done|done|apply Ha|lia|lia|].
      clear - E1 E2 R2 Hi. on_map. }
    destruct (Z.ltb_spec q 16); [left|right; right].
    + eexists _, _. split_and!; [done|done|lia|]. rewrite <- E1. on_map.
    + split; [done|]. on_map.
Qed.

(** C11. Before the MMU is switched on, [pt_populate] fills both tables without a fault, and what the hardware walks through
    them is the map of the board: on RK3588 the identity on 8 GB with the registers below 4 GB as device memory, on QEMU
    the identity on 16 GB with the first as device memory and that gigabyte again at 32 GB, nothing else on either. *)
Theorem boot_tables_identity t b s va : aarch64_target t -> b mod 4096 = 0 -> 0 <= b < 2 ^ 48 ->
  exists s', pt_populate t b s = Ret tt s' /\ boot_walk s' b va = boot_map t va.
Proof.
  intros Ht Hb Hr. eexists. split; [by apply pt_populate_tables|].
  destruct (decide (0 <= va < 2 ^ 39)) as [Hva|Hva].
  2: { unfold boot_walk, boot_map. destruct (Z.ltb_spec va 0), (Z.leb_spec (2 ^ 39) va); try lia; simpl; destruct t; on_map. }
  destruct (boot_map_entries t (BlockDescriptor_table b) va Ht Hva) as [(pa & ty & E & Ep & Hq & ->)|[(pa & ty & E & E2 & Hp & Hpr & ->)|[E ->]]].
  - apply walk_gigabyte; [done| | |].
    + rewrite Ep. replace (va / 2 ^ 30 * 2 ^ 30) with (va / 2 ^ 30 * 2 ^ 18 * 4096) by lia. by apply Z.mod_mul.
    + rewrite Ep. zdiv.
    + etransitivity; [apply zget_range; zdiv|by rewrite E].
  - apply walk_2mb; [done..| |].
    + etransitivity; [apply zget_range; zdiv|by rewrite E].
    + etransitivity; [apply zget_range; zdiv|by rewrite E2].
  - apply walk_invalid; [done|]. etransitivity; [apply zget_range; zdiv|by rewrite E].
Qed.

(** What the walk says of the regions of memory that the allocator hands out: on QEMU all normal memory; on RK3588 the third
    region also holds the device window, where the interrupt controller is. *)
Definition region_type (t : Target) (r : PlatMemRegion) (ty : MemoryType) : Prop :=
  forall a, pm_base r <= a < pm_base r + pm_size r -> boot_map t a = Some (a, ty).

Lemma qemu_memory_is_normal g r : r ∈ mem_regions (mem_desc (PLAT_DESC (Qemu g))) -> region_type (Qemu g) r Normal.
Proof.
  intros Hr a. simpl in Hr. rewrite !elem_of_cons in Hr. unfold boot_map.
  destruct Hr as [->|[->|Hr]]; [| |by apply elem_of_nil in Hr]; simpl; intros Ha; on_map.
Qed.

Lemma rk3588_memory_over_devices n : exists l, platform_vm_regions (Rk3588 n) [] = Ret tt l /\
  MemRegion.free_byte l 0xfe600000 /\ boot_map (Rk3588 n) 0xfe600000 = Some (0xfe600000, Device).
Proof.
  eexists. split; [by vm_compute|]. split; [|done]. eexists. split; [right; left; reflexivity|].
  split; [by vm_compute|by vm_compute; split].
Qed.

(** The address that the hardware answers, without the attributes of its answer. *)
Lemma gva2ipa_page translate gva : 0 <= translate gva < 2 ^ 64 -> 0 <= gva ->
  gva2ipa translate gva =
    if Z.testbit (translate gva) 0 then None else Some (translate gva / 4096 mod 2 ^ 36 * 4096 + gva mod 4096).
Proof.
  intros Ht Hg. unfold gva2ipa. change 1 with (Z.shiftl 1 0) at 1. rewrite testm_bit by lia. destruct (Z.testbit _ 0); [done|]. f_equal.
  rewrite bit_extract_value by lia. change (2 ^ 12) with 4096. set (q := _ mod 2 ^ 36).
  assert (0 <= q < 2 ^ 36) as Hq by (apply Z.mod_pos_bound; lia).
  unfold shlw. change (12 mod 64) with 12. rewrite Z.shiftl_mul_pow2, wrap_small by (unfold in_word; lia).
  change (4096 - 1) with (Z.ones 12). rewrite Z.land_ones, lor_low by (lia || (apply Z.mod_pos_bound; lia)). done.
Qed.

Lemma boot_tables_identity_witness : exists s', pt_populate (Rk3588 false) 0x490000 (mkTables [] []) = Ret tt s' /\
  boot_walk s' 0x490000 0xfeb50010 = Some (0xfeb50010, Device).
Proof. apply (boot_tables_identity (Rk3588 false) 0x490000 (mkTables [] []) 0xfeb50010); [exact I|reflexivity|lia]. Defined.
